(* ===== verification/_CoqProject ===== *)
-Q . S2P
Prelude.v
Buf.v
Lex.v
LexFacts.v
LexSpec.v
Render.v
Parse.v
ParseSpec.v
Op.v
Support.v
Heap.v
Plan.v
PlanSpec.v
Journal.v
Apply.v
ApplySpec.v
Confirm.v
ConfirmSpec.v
Peer.v
Privilege.v
Authorize.v
Frame.v
FrameSpec.v
Wire.v
WireSpec.v
Decimal.v
Json.v
JsonFacts.v
JsonSpec.v
JsonRead.v
JsonWrite.v
JsonPrint.v
JsonWriteSpec.v
JsonPretty.v
Request.v
RequestSpec.v
RequestRoundtrip.v
Serve.v
Schedule.v
ScheduleSpec.v
Merge.v
MergeSpec.v
Scope.v
Value.v
ValueSpec.v
InetText.v
HardwareSpec.v
Builder.v
BuilderSpec.v
RulePass.v
RuleSpec.v
Sysctl.v
SysctlPass.v
SysctlLoop.v
DocText.v
DocTextSpec.v
Field.v
FieldSpec.v
Document.v
DocumentSpec.v
Canonical.v
CanonicalSpec.v
DocumentOps.v
DocumentRoundtrip.v
Observed.v
ObservedOps.v
ObservedRoundtrip.v
Linkset.v
LinksetSpec.v
Sha256.v
Owned.v
OwnedSpec.v
OwnedRoundtrip.v
AddressPass.v
AddressSpec.v
DhcpServer.v
DhcpServerSpec.v
LinkPass.v
LinkSpec.v
ConvergeSpec.v
