(* ===== verification/Prelude.v ===== *)
(** * netcfgd: a verification library for the C implementation

    netcfgd is a network configuration daemon. A configuration file is lexed
    and parsed into a tree and lowered to a desired-state document; a planner
    compares the document with what is observed and builds a plan of actions,
    each with the action that undoes it; the apply loop carries the plan out
    on the kernel and keeps a journal; a confirm window, when one was asked
    for, takes the change back unless somebody confirms it in time. Clients
    speak to the daemon over a socket, one JSON object per line, through one
    authorization gate. The kernel is spoken to over netlink.

    This library models the C implementation ([src/c]) as executable
    definitions, file by file, and proves of them what the program relies on.
    It is a shallow embedding: a C function is a function, a struct a record,
    an enum or tagged union an inductive type, an error path a value, and
    state that is mutated is passed along.

    ** The files

    - [Prelude]: bytes, machine integers, tactics, hints and lemmas shared by
      all.
    - [Buf]: the growable buffer, [base/buf.c].
    - [Lex], [LexFacts], [LexSpec]: the lexer, [compile/lex.c]: positions,
      numbers, strings, UTF-8, hook bodies.
    - [Render]: quoting, secret references and labels, [compile/render.c],
      against the lexer that reads them back.
    - [Parse], [ParseSpec]: the parser and its tree,
      [compile/parse.c] and [ast.c].
    - [Op], [Support]: the ops of a plan and the questions asked of them,
      [plan/action.c]; what this build carries out and what undoes what,
      [apply/apply.c], [backend_ops.c], [kernel_inverse.c].
    - [Heap]: blocks of memory, an allocator that may refuse any request, and
      the string arena of [plan/plan.c].
    - [Plan], [PlanSpec]: the plan container, [plan/plan.c].
    - [Journal], [Apply], [ApplySpec]: the journal, [apply/journal.c], the run
      loop and the revert, [apply/apply.c], over an arbitrary executor.
    - [Confirm], [ConfirmSpec]: the commit-confirm window,
      [daemon/confirm.c], with the places that drive it: [resolve_window],
      [ncfg_daemon_arm_window], [ncfg_reconcile_establish_last_good] and the
      startup apply of [reconcile_pass.c], [settle_without_a_window] of
      [request.c], the end of a reload in [state.c], and what [start] and
      [resolve_any_window] of [main/daemon_main.c] do before anybody is served.
      [ConfirmSpec.step] has every place that writes the last-good
      configuration or the window.
    - [Peer]: who is at the other end, [daemon/peer.c].
    - [Privilege]: what a configuration asks for beyond
      configuring a network, [daemon/privilege.c].
    - [Authorize]: the tiers, the policy and the gate,
      [daemon/authorize.c].
    - [Frame], [FrameSpec]: the line framing, [proto/frame.c], and the loop
      that reads a connection, [connection] of [daemon/server.c].
    - [Wire], [WireSpec]: the netlink framing, [sys/wire.c].
    - [Decimal]: numbers as text, shared by the JSON files.
    - [Json], [JsonFacts], [JsonSpec], [JsonRead]: the JSON reader,
      [client/ncfg_json.c]: the loop over an explicit stack that fills an array
      of nodes, against a recursive descent reader of trees, and the accessors.
    - [JsonWrite], [JsonPrint], [JsonWriteSpec], [JsonPretty]: the JSON writer
      and the pretty printer, [json/write.c], against the reader.
    - [Request], [RequestSpec], [RequestRoundtrip]: the requests of the control
      protocol, [proto/request.c], [common.c], [message.c]: their union, the
      client's writer and the daemon's reader.
    - [Serve]: answers, [daemon/answer.c], and what the connection
      loop of [Frame] does with a line, [serve_one] of [daemon/server.c]:
      decode, gate, answer. The handler behind the gate is a parameter.
    - [Schedule], [ScheduleSpec]: access schedules, [model/schedule.c].
    - [Merge], [MergeSpec]: drop-in files become one set of blocks,
      [compile/merge.c].
    - [Scope]: who may see a key and the numbers records carry it
      under, [compile/scope.c].
    - [Value], [ValueSpec], [HardwareSpec], [InetText]: the values of the document, [model/value.c], and the address
      comparisons of [plan/address.c]. [inet_pton] and [inet_ntop] are the
      class [Inet], what is relied on of them the class [InetLaws]; [InetText]
      has a concrete instance, so the laws can hold.
    - [Builder], [BuilderSpec]: the planner's builder, [plan/build.c] and
      [clear.c]: the door every action passes, the gates, what [prepare]
      collects. A pass is written against the class [PlanOps], which has two
      instances: the plan container of [Plan] over its heap, where any
      allocation may fail, and the bare lists of what was asked.
    - [RulePass], [RuleSpec]: policy rules from end to end: planned,
      [plan/rule.c]; sent, [apply/kernel_rule.c] and [sys/ops_route.c]; read
      back, [sys/rule.c] and [build_rule] of [observe/build.c]. What a kernel
      makes of a request is the class [FibRules], what is relied on of that the
      class [FibLaws], with a concrete instance in [RuleSpec].
    - [Sysctl], [SysctlPass], [SysctlLoop]: the sysctls from end
      to end: observed ([observe/host.c]), planned ([plan/sysctl.c]), written
      ([apply/sysctl.c] and its arms of [service.c]), observed again.
    - [Field], [FieldSpec]: the tables of fields that documents and
      observations are read and written by, [model/field.c]. A table is a code
      for a type ([ftype]), [value] its denotation: nested tuples, one member
      per field, so a document is typed by its own table.
    - [DocText], [DocTextSpec]: keys, SSIDs, station addresses and names as
      text, from [model/document.c].
    - [Document], [DocumentSpec]: every table, closed set, tagged union and
      custom field of [model/document.c]; [Canonical],
      [CanonicalSpec]: the canonical order and the validation,
      [model/canonical.c]; [DocumentOps], [DocumentRoundtrip]: reading,
      writing and copying.
    - [Observed], [ObservedOps], [ObservedRoundtrip]: the same
      for observations, [model/observed.c], with the questions of
      [observed_link.c] and the status answer of [daemon/report.c].
    - [Linkset], [LinksetSpec]: sets of links and the inventory,
      [model/linkset.c] and [inventory.c].
    - [Sha256]: the digest, [base/sha256.c], and in its module [Fips] the
      standard on its own, the constants worked out from the primes.
    - [Owned], [OwnedSpec], [OwnedRoundtrip]: the record of what may be taken
      away, [apply/owned.c] and its part of [host/state.c], with the ceiling
      [ncfg_host_read_file] of [host/host_util.c] puts on its file.
    - [AddressPass], [AddressSpec]: the passes over addresses, routes and the
      helpers that serve them, and the teardown: [plan/address.c],
      [delegated.c], [reported.c], [standby.c], [backend.c], [session.c],
      [dot1x.c], the rest of [clear.c], and of [radio.c] and [access_point.c]
      when a helper is started and kept. They read whole documents and
      observations.
    - [DhcpServer], [DhcpServerSpec]: what a DHCP server hands out, DNS records
      and block lists, [model/dhcp_server.c]; the line that says what is served,
      from [backend/dhcp_server]; the pass of [plan/dhcp_server.c].
    - [LinkPass], [LinkSpec]: [plan/link.c] and [advertise.c]: the attributes
      and masters of links, bringing them up and down, hooks, and the walk over
      the interfaces that calls the passes above.
    - [ConvergeSpec]: what the walk and the teardown together make of the
      addresses a kernel holds.

    A file without a suffix holds definitions (and, where short, their
    theorems); [Facts] holds lemmas, [Spec] the theorems.

    ** How the code is represented

    A [char] array is a [list byte]; a string that never holds arbitrary bytes
    (names of ops and interfaces, sentences of the apply and confirm modules)
    is a [string]. Fixed-width integers are [Z] with the wrap written out
    ([u64], [u32], [u16], [u8]); counters that a real address space bounds are
    [nat]. A [NULL] that the code tests is [None]. The allocator is a
    parameter: [malloc_ok] and [realloc_ok] decide by the size asked for,
    [grant] of [Heap] by the number of the request, and the theorems hold for
    every choice unless they say that memory is granted. Files and kernel
    answers are parameters ([file_read], the executor, the clocks, the bytes
    received). The readers of [Field] and what is built on them thread a count
    of the requests for memory and an answer to each ([R]), and so do the
    functions of [Linkset] and [Owned]; [LinksetSpec.answers] states total
    correctness of such a function. The byte order of netlink integers is the class [Host].
    Sentences written for a person are kept, cut as the code cuts them.

    Loops whose recursion is not structural take fuel. The lexer's loops take
    the length of what is left to read; the parser takes [parse_fuel], linear
    in the text, which [ParseSpec.ncfg_parse_total] shows is enough for every
    text; the buffer doubles at most 64 times, enough for any 64-bit request;
    the loops of [Peer], [Frame] and [Wire] take the length of their input,
    since every turn consumes at least a byte, and the theorems about them are
    equalities or answers, never only about runs that finish. The JSON reader's
    loop takes one turn more than there are bytes, which
    [JsonSpec.json_parse_total] shows is enough for every input.

    ** What is shown

    - Changes can be taken back. A run carries out its plan by the stated
      rules and reports it faithfully; a run followed by a revert is the
      identity on invertible executors; an unconfirmed change is undone when
      the window closes, and what is then applied is the plan for the last-good
      configuration, over the machine as it was; in every reachable state,
      starts of the daemon included, an open window has a last-good
      configuration to go back to, the one it names while files can be removed
      and starts can revert ([ApplySpec], [ConfirmSpec]).
    - Nobody gets past the gate. The tier check is the stated policy, the
      remote decision ignores the peer, configuration text passes only from
      local root or when no item of its tree is privileged, and the
      classification finds exactly the privileged productions; the identities
      it rests on are read exactly ([Authorize], [Privilege], [Peer]).
    - Bytes are read as they were written. A connection serves the lines of
      its stream however the reads cut it; framed messages, netlink requests,
      quoted strings, labels and the window file come back as they were put;
      walks over hostile bytes end inside their buffer ([FrameSpec],
      [WireSpec], [Render], [ConfirmSpec]).
    - The front end is total and exact: the parser ends on every text, hands
      out a tree exactly when nothing was reported, and nests at most 32 deep;
      the lexer's positions, numbers, hook bodies and characters are exact
      ([LexSpec], [ParseSpec]).
    - Messages mean what was sent. The JSON reader is the recursive descent
      reader and stays inside its buffers; what the writer says is done reads
      back as the value the calls described; an accepted request is strict and
      well typed; what a client asks is what the daemon is asked; and a
      connection acts on its lines in order, each behind the gate
      ([JsonSpec], [JsonRead], [JsonWriteSpec], [RequestSpec],
      [RequestRoundtrip], [Serve]).
    - Configuration means one thing. A merge is what drop-in precedence says,
      and is refused exactly when files disagree; a number of the registry has
      one meaning and never carries what is private; schedules apply at the
      seconds they say; addresses, networks, delegated prefixes and hardware
      addresses compare, derive and print as what they denote ([MergeSpec],
      [Scope], [ScheduleSpec], [ValueSpec], [HardwareSpec]).
    - Plans converge. Nothing enters a plan that a lock, a guard or an
      unmanaged device forbids; carrying out what the rule pass and the sysctl
      passes asked for leaves the machine as the document says, and planning
      again asks for nothing, for the rules where each says in full what a
      kernel reports of it; so too for the addresses, literal, delegated or
      reported ([BuilderSpec], [RuleSpec], [SysctlLoop], [ConvergeSpec]). The
      end of a plan takes away exactly what is netcfgd's, came from the
      configuration and is wanted no more, routes before addresses before
      helpers before links ([AddressSpec]); addresses are added before routes,
      and a route waits for the address its next hop is reached through
      ([LinkSpec]).
    - A DHCP server hands out hosts of its own network and never its own
      address, and a line of a downloaded block list can only ever become a
      plain name ([DhcpServerSpec]).
    - Documents and observations survive their text. Every table is lawful
      ([DocumentSpec], [ObservedRoundtrip]), and lawful tables read back what they
      wrote ([FieldSpec.tables_back]); so a document, an observation, the
      answer to a status request and the ownership record come back as they
      were put, where their numbers are in the ranges their fields name and the
      record's file within its ceiling. The canonical text is one text per document, whatever order
      its entries had, and reads as the canonical document; validation accepts
      exactly what its conditions, stated without loops, allow
      ([DocumentRoundtrip], [ObservedRoundtrip], [OwnedRoundtrip]).
    - A set of links settles on its best member, however the sets name each
      other, with the reason of every member that may not be used; what it
      settles on is there and usable; the inventory has exactly
      the rows it promises ([LinksetSpec]). The digest is the one FIPS 180-4
      defines ([Sha256]).
    - Only what netcfgd put there is taken away: the ownership record after an
      apply is the replay of the operations in effect, and a record of another
      boot claims nothing ([OwnedSpec], [OwnedRoundtrip]).
    - Memory is kept exactly: no sequence of plan and journal operations leaks
      or frees twice, whichever allocation fails ([PlanSpec], [ApplySpec]).

    A few examples record where the code does other than it says: a label
    that is a boolean word is not read back, a lexer failure ends the parse,
    recovery skips a statement, a subject's detail is cut, an id past 32 bits
    is cut, the content gate lets text through that could not be parsed for
    want of memory, an interface that forwards IPv6 alone is taken for one that
    does not forward, an [accept_ra] of 0 is not restored, the number of a
    DHCP option, the expiry of a lease and the ports of a mapping are written
    and then refused by their own reader, a bare [exec] is read and cannot be
    written, a second radio on one network has no row, a second fold of one
    journal counts a restart again, a layout that ran out of memory empties the
    ownership record, an interface that was disabled gets its address back on
    the plan after, the default range of a network at the end of the address
    space wraps, a relay takes a boot server it has no use for, the startup
    apply records its configuration over the one an open window goes back to, a
    rule with a mark and no mask, with a prefix of length zero or with none is
    replaced on every plan, and an ownership record over 16 MiB is written and
    not read.

    ** What is not modelled, and the plan

    Not modelled: lowering a tree to a document ([compile/lower*.c]); of the
    planner, the creation and the remaking of links, the settings of each kind
    of link, wireless, NAT, traffic control, the settings of the host, the
    comparison of a running access point with its block, the warnings, and the
    whole sequence of passes in [ncfg_plan_build]; the kernel executor and the
    backends (processes, netlink sockets), the rest of observation, responses,
    the threads of the server, the event loop, the files of the host but the
    ownership record, the command line, and everything outside [src/c] but the
    JSON reader. The records of [Builder], [RulePass] and [SysctlPass] have the
    fields of the document and the observation those passes read; [Document]
    and [Observed], which the other passes read, have all of them. Freeing what
    a table allocated is implicit, and a refusal of a reader is kept as its
    kind, not as its sentence.

    Next, in order: the creation of links and the settings of each kind, the
    remaining passes of the planner, responses, the lowering tables, back-off. *)
From stdpp Require Export base list numbers option strings.
From Stdlib Require Export Strings.Byte.
From Stdlib Require Export ZArith Lia.

#[global] Open Scope Z_scope.

Declare Scope ncfg_scope.
Delimit Scope ncfg_scope with ncfg.
#[global] Open Scope ncfg_scope.

(** ** Bytes

    A C [unsigned char] is a [Byte.byte]; [bz] is its value as an integer. *)

Definition bz (b : byte) : Z := Z.of_N (Byte.to_N b).

(** A string literal of the source as the bytes the compiler stores. *)
Definition bytes (s : string) : list byte := String.list_byte_of_string s.

Lemma bytes_of_string t : bytes (String.string_of_list_byte t) = t.
Proof. apply String.list_byte_of_string_of_list_byte. Qed.

Lemma bytes_inj s t : bytes s = bytes t -> s = t.
Proof.
  intros H. rewrite <- (String.string_of_list_byte_of_string s), <- (String.string_of_list_byte_of_string t).
  by f_equal.
Qed.

Definition byte_eqb (a b : byte) : bool := Byte.eqb a b.

Notation "a =b b" := (byte_eqb a b) (at level 70) : ncfg_scope.

#[export] Instance byte_eq_dec : EqDecision byte := Byte.byte_eq_dec.

(** [byte_between lo hi b] is the source's [b >= lo && b <= hi]. *)
Definition byte_between (lo hi b : byte) : bool :=
  (bz lo <=? bz b) && (bz b <=? bz hi).

(** [memcmp(a, b, n) == 0] on two runs of the same length, and [strcmp]
    equality on two strings with no NUL inside. *)
Definition bytes_eqb (a b : list byte) : bool := bool_decide (a = b).

(** ** Machine integers: [uint64_t] and [size_t] wrap at 2^64, [uint32_t] at
    2^32, [uint16_t] at 2^16. *)

Definition u64 (z : Z) : Z := z mod 2 ^ 64.
Definition u32 (z : Z) : Z := z mod 2 ^ 32.
Definition u16 (z : Z) : Z := z mod 2 ^ 16.
Definition u8 (z : Z) : Z := z mod 2 ^ 8.

Definition SIZE_MAX : Z := 2 ^ 64 - 1.
Definition INT64_MAX : Z := 2 ^ 63 - 1.
Definition INT64_MIN : Z := - 2 ^ 63.
Definition UINT32_MAX : Z := 2 ^ 32 - 1.

(** Lengths as integers, where the source compares them with integers. *)
Definition zlen {A} (l : list A) : Z := Z.of_nat (length l).

(** ** Hints and tactics *)

Create HintDb ncfg.
Create Rewrite HintDb ncfg.

(** Break every [match] and [if] in the goal or a hypothesis. *)
Ltac break :=
  repeat match goal with
         | H : context [match ?x with _ => _ end] |- _ =>
             lazymatch x with context [match _ with _ => _ end] => fail | _ => destruct x eqn:? end
         | |- context [match ?x with _ => _ end] =>
             lazymatch x with context [match _ with _ => _ end] => fail | _ => destruct x eqn:? end
         end.

(** Turn boolean tests into propositions. *)
Ltac unbool :=
  repeat match goal with
         | H : (_ && _) = true |- _ => apply andb_true_iff in H as [? ?]
         | H : (_ || _) = false |- _ => apply orb_false_iff in H as [? ?]
         | H : negb _ = true |- _ => apply negb_true_iff in H
         | H : negb _ = false |- _ => apply negb_false_iff in H
         | H : (_ <=? _)%Z = true |- _ => apply Z.leb_le in H
         | H : (_ <=? _)%Z = false |- _ => apply Z.leb_gt in H
         | H : (_ <? _)%Z = true |- _ => apply Z.ltb_lt in H
         | H : (_ <? _)%Z = false |- _ => apply Z.ltb_ge in H
         | H : (_ =? _)%Z = true |- _ => apply Z.eqb_eq in H
         | H : (_ =? _)%Z = false |- _ => apply Z.eqb_neq in H
         | H : (_ <=? _)%nat = true |- _ => apply Nat.leb_le in H
         | H : (_ <=? _)%nat = false |- _ => apply Nat.leb_gt in H
         | H : (_ <? _)%nat = true |- _ => apply Nat.ltb_lt in H
         | H : (_ <? _)%nat = false |- _ => apply Nat.ltb_ge in H
         | H : bool_decide _ = true |- _ => apply bool_decide_eq_true in H
         | H : bool_decide _ = false |- _ => apply bool_decide_eq_false in H
         end.

(** [lia] with division and remainder by constants. *)
Ltac zdiv := Z.div_mod_to_equations; lia.

(** ** Lemmas the components share *)

Lemma bz_range b : 0 <= bz b < 256.
Proof. unfold bz. pose proof (Byte.to_N_bounded b). lia. Qed.

Lemma bz_inj a b : bz a = bz b -> a = b.
Proof.
  unfold bz. intros H. apply N2Z.inj in H.
  pose proof (Byte.of_to_N a) as Ha. rewrite H, Byte.of_to_N in Ha. congruence.
Qed.

Lemma byte_eqb_spec a b : reflect (a = b) (a =b b).
Proof.
  unfold byte_eqb. destruct (Byte.eqb a b) eqn:E; constructor.
  - by apply Byte.byte_dec_bl.
  - intros ->. by rewrite (Byte.byte_dec_lb eq_refl) in E.
Qed.

Lemma byte_eqb_refl b : (b =b b) = true.
Proof. by destruct (byte_eqb_spec b b). Qed.

Lemma byte_eqb_neq a b : a <> b -> (a =b b) = false.
Proof. by destruct (byte_eqb_spec a b). Qed.

Lemma zlen_nonneg {A} (l : list A) : 0 <= zlen l.
Proof. unfold zlen. lia. Qed.

Lemma zlen_app {A} (l k : list A) : zlen (l ++ k) = zlen l + zlen k.
Proof. unfold zlen. rewrite length_app. lia. Qed.

Lemma zlen_cons {A} (x : A) l : zlen (x :: l) = 1 + zlen l.
Proof. unfold zlen. simpl. lia. Qed.

Lemma u64_small z : 0 <= z < 2 ^ 64 -> u64 z = z.
Proof. apply Z.mod_small. Qed.

Lemma u32_small z : 0 <= z < 2 ^ 32 -> u32 z = z.
Proof. apply Z.mod_small. Qed.

Lemma bytes_eqb_true a b : bytes_eqb a b = true <-> a = b.
Proof. unfold bytes_eqb. apply bool_decide_eq_true. Qed.

Lemma bytes_eqb_refl a : bytes_eqb a a = true.
Proof. by apply bytes_eqb_true. Qed.

(** A shift and an or of the bits below it are a multiplication and a sum. *)
Lemma lor_shiftl a k d : 0 <= k -> 0 <= d < 2 ^ k -> Z.lor (Z.shiftl a k) d = a * 2 ^ k + d.
Proof.
  intros Hk Hd. rewrite <- Z.shiftl_mul_pow2 by lia.
  assert (Z.land (Z.shiftl a k) d = 0) as Hl.
  { apply Z.bits_inj'. intros i Hi. rewrite Z.land_spec, Z.bits_0. destruct (Z.ltb_spec i k).
    - by rewrite Z.shiftl_spec_low.
    - rewrite <- (Z.mod_small d (2 ^ k)) by lia. rewrite Z.mod_pow2_bits_high by lia. apply andb_false_r. }
  by rewrite Z.add_nocarry_lxor, Z.lxor_lor.
Qed.

#[export] Hint Resolve zlen_nonneg bz_range byte_eqb_refl bytes_eqb_refl : ncfg.
#[export] Hint Rewrite @zlen_app @zlen_cons : ncfg.
