(* ===== verification/Buf.v ===== *)
(** * Buf: the growable byte buffer of [c/src/base/buf.c]

    Every renderer and the lexer append to an [ncfg_buf_t]. The model keeps the
    struct's fields; [b_data] is the allocation's first [length] bytes ([None]
    is the NULL pointer), so [length] is derived and the trailing NUL, which is
    always there once a byte has been added, is implicit. Whether the
    allocator grants a request is the parameter [realloc_ok], a function of the
    number of bytes asked for. *)
From S2P Require Import Prelude.

Definition DEFAULT_LIMIT : Z := 16 * 1024 * 1024.
Definition FIRST_CAPACITY : Z := 256.

Record buf := Buf {
  b_data : option (list byte);
  b_capacity : Z;
  b_limit : Z;
  b_failed : bool
}.

Definition b_bytes (b : buf) : list byte := default [] (b_data b).
Definition b_length (b : buf) : Z := zlen (b_bytes b).

(** [ncfg_buf_init]. *)
Definition buf_init (limit : Z) : buf :=
  {| b_data := None;
     b_capacity := 0;
     b_limit := if limit =? 0 then DEFAULT_LIMIT else limit;
     b_failed := false |}.

(** [ncfg_buf_free]: the limit is the one field it keeps. *)
Definition buf_free (b : buf) : buf :=
  {| b_data := None; b_capacity := 0; b_limit := b_limit b; b_failed := false |}.

Definition set_failed (b : buf) : buf :=
  {| b_data := b_data b; b_capacity := b_capacity b; b_limit := b_limit b; b_failed := true |}.

(** The doubling loop of [reserve], at [size_t]'s width. [fuel] bounds its
    turns; [double_until_enough] below shows 64 are enough for every request
    a limit under 2^63 lets through. *)
Fixpoint double_until (fuel : nat) (capacity needed : Z) : Z :=
  match fuel with
  | O => capacity
  | S fuel' =>
      if capacity <? needed then double_until fuel' (u64 (capacity * 2)) needed else capacity
  end.

Section WithAllocator.
Context (realloc_ok : Z -> bool).

(** [reserve]: make room for [wanted] more bytes and the terminator. *)
Definition reserve (b : buf) (wanted : Z) : bool * buf :=
  if b_failed b then (false, b)
  else if u64 (b_limit b - b_length b) <? wanted then (false, set_failed b)
  else
    let needed := u64 (b_length b + wanted + 1) in
    if needed <=? b_capacity b then (true, b)
    else
      let capacity0 := if b_capacity b =? 0 then FIRST_CAPACITY else b_capacity b in
      let capacity := double_until 64 capacity0 needed in
      if realloc_ok capacity then
        (true, {| b_data := Some (b_bytes b); b_capacity := capacity;
                  b_limit := b_limit b; b_failed := false |})
      else (false, set_failed b).

(** [ncfg_buf_add]: the [memcpy] after a granted reservation. *)
Definition buf_add (b : buf) (bs : list byte) : buf :=
  match bs with
  | [] => b
  | _ =>
      match reserve b (zlen bs) with
      | (false, b') => b'
      | (true, b') =>
          {| b_data := Some (b_bytes b' ++ bs); b_capacity := b_capacity b';
             b_limit := b_limit b'; b_failed := b_failed b' |}
      end
  end.

(** [ncfg_buf_add_char]. *)
Definition buf_add_char (b : buf) (one : byte) : buf := buf_add b [one].

(** [ncfg_buf_addf]: the formatted text is already known ([vsnprintf] is
    asked for its length first). Unlike [ncfg_buf_add] an empty text still
    reserves, so it may allocate. *)
Definition buf_addf (b : buf) (formatted : list byte) : buf :=
  if b_failed b then b
  else
    match reserve b (zlen formatted) with
    | (false, b') => b'
    | (true, b') =>
        {| b_data := Some (b_bytes b' ++ formatted); b_capacity := b_capacity b';
           b_limit := b_limit b'; b_failed := b_failed b' |}
    end.

(** [ncfg_buf_failed]. *)
Definition buf_failed (b : buf) : bool := b_failed b.

(** [ncfg_buf_text]: the empty string for a failed or an empty buffer. *)
Definition buf_text (b : buf) : list byte :=
  if b_failed b then [] else default [] (b_data b).

(** [ncfg_buf_take]: hand the bytes over and leave the buffer empty. *)
Definition buf_take (b : buf) : option (list byte) * buf :=
  if b_failed b then (None, b)
  else
    match b_data b with
    | None => (None, b)
    | Some taken =>
        (Some taken, {| b_data := None; b_capacity := 0; b_limit := b_limit b;
                        b_failed := b_failed b |})
    end.

(** A run of appends, the way a renderer uses a buffer. *)
Definition buf_add_all (b : buf) (chunks : list (list byte)) : buf :=
  foldl buf_add b chunks.

(** ** The invariant

    The bytes fit the limit, and with the terminator they fit the capacity;
    a buffer that holds nothing has no allocation. *)
Definition buf_wf (b : buf) : Prop :=
  0 < b_limit b < 2 ^ 62 /\
  b_length b <= b_limit b /\
  match b_data b with
  | None => b_capacity b = 0
  | Some _ => b_length b + 1 <= b_capacity b /\ FIRST_CAPACITY <= b_capacity b
              /\ b_capacity b < 2 * (b_limit b + 1) + FIRST_CAPACITY
  end.

Lemma buf_init_wf limit : 0 <= limit < 2 ^ 62 -> buf_wf (buf_init limit).
Proof.
  intros ?. unfold buf_wf, buf_init, b_length, zlen, DEFAULT_LIMIT; simpl.
  destruct (Z.eqb_spec limit 0); lia.
Qed.

(** Doubling keeps the start's bound, reaches the request, and overshoots by
    less than a factor of two. *)
Lemma double_until_spec fuel capacity needed :
  0 < capacity -> needed <= 2 ^ 63 ->
  needed <= capacity * 2 ^ Z.of_nat fuel ->
  needed <= double_until fuel capacity needed /\
  capacity <= double_until fuel capacity needed /\
  (double_until fuel capacity needed = capacity \/ double_until fuel capacity needed < 2 * needed).
Proof.
  revert capacity. induction fuel as [|fuel IH]; intros capacity Hpos Hsmall Hfuel.
  { simpl in *. lia. }
  cbn [double_until]. destruct (Z.ltb_spec capacity needed) as [Hlt|]; [|lia].
  rewrite Nat2Z.inj_succ, Z.pow_succ_r in Hfuel by lia.
  rewrite u64_small by lia.
  destruct (IH (capacity * 2)) as (? & ? & ?); lia.
Qed.

Lemma double_until_enough capacity needed :
  FIRST_CAPACITY <= capacity -> needed <= 2 ^ 63 ->
  needed <= double_until 64 capacity needed /\
  capacity <= double_until 64 capacity needed /\
  (double_until 64 capacity needed = capacity \/ double_until 64 capacity needed < 2 * needed).
Proof.
  unfold FIRST_CAPACITY. intros. apply double_until_spec; [lia|lia|].
  change (2 ^ Z.of_nat 64) with (2 ^ 64). lia.
Qed.

#[local] Arguments double_until : simpl never.

(** A granted reservation leaves the bytes alone and room for the request;
    a refused one only raises the flag. *)
Lemma reserve_spec b wanted ok b' :
  buf_wf b -> 0 <= wanted <= SIZE_MAX -> reserve b wanted = (ok, b') ->
  buf_wf b' /\ b_bytes b' = b_bytes b /\ b_limit b' = b_limit b /\
  (ok = true ->
    b_failed b' = false /\ is_Some (b_data b') /\ b_length b + wanted <= b_limit b
    /\ b_length b + wanted + 1 <= b_capacity b') /\
  (ok = false -> b_failed b' = true).
Proof.
  intros (Hlim & Hlen & Hdata) Hw Hr. unfold reserve in Hr.
  pose proof (zlen_nonneg (b_bytes b)) as Hnn. fold (b_length b) in Hnn.
  unfold SIZE_MAX in Hw.
  destruct (b_failed b) eqn:Hf; [inv Hr; unfold buf_wf; auto 10 with lia|].
  rewrite u64_small in Hr by lia.
  destruct (Z.ltb_spec (b_limit b - b_length b) wanted).
  { inv Hr. unfold buf_wf, b_length, b_bytes, set_failed in *; simpl in *.
    repeat split; try lia; try done; congruence. }
  rewrite u64_small in Hr by lia.
  destruct (Z.leb_spec (b_length b + wanted + 1) (b_capacity b)).
  { inv Hr. unfold buf_wf. destruct (b_data b') eqn:Hd; [|exfalso; lia].
    repeat split; try lia; try done; try congruence. }
  set (c0 := if b_capacity b =? 0 then FIRST_CAPACITY else b_capacity b) in *.
  assert (FIRST_CAPACITY <= c0 /\ c0 < 2 * (b_limit b + 1) + FIRST_CAPACITY) as [Hc0 Hc1].
  { subst c0. destruct (Z.eqb_spec (b_capacity b) 0); [unfold FIRST_CAPACITY; lia|].
    destruct (b_data b); lia. }
  destruct (double_until_enough c0 (b_length b + wanted + 1) Hc0) as (H1 & H2 & H3); [lia|].
  destruct (realloc_ok _); inv Hr; unfold buf_wf, b_length, b_bytes, set_failed in *; simpl in *.
  all: unfold FIRST_CAPACITY in *; repeat split; try lia; done.
Qed.

(** What one append does: everything, or nothing and the flag. *)
Lemma buf_add_spec b bs :
  buf_wf b -> zlen bs <= SIZE_MAX ->
  buf_wf (buf_add b bs) /\ b_limit (buf_add b bs) = b_limit b /\
  (b_failed (buf_add b bs) = false ->
     b_failed b = false /\ b_bytes (buf_add b bs) = b_bytes b ++ bs
     /\ b_length b + zlen bs <= b_limit b) /\
  (b_failed b = true -> b_failed (buf_add b bs) = true).
Proof.
  intros Hwf Hlen. destruct bs as [|x bs'] eqn:Hbs.
  { simpl. rewrite app_nil_r. destruct Hwf as (? & ? & ?).
    unfold buf_wf, zlen; simpl; repeat split; try done; lia. }
  rewrite <- Hbs in *. unfold buf_add. rewrite Hbs, <- Hbs.
  pose proof (zlen_nonneg bs).
  destruct (reserve b (zlen bs)) as [ok b'] eqn:Hr.
  destruct (reserve_spec b (zlen bs) ok b' Hwf) as (Hwf' & Hb & Hl & Hok & Hno); [lia|done|].
  destruct ok.
  - destruct (Hok eq_refl) as (Hf & [d Hd] & ? & ?). clear Hno Hok.
    assert (b_failed b = false) by (unfold reserve in Hr; destruct (b_failed b); congruence).
    assert (b_length b' = b_length b) by (unfold b_length; congruence).
    unfold buf_wf in *; rewrite Hd in Hwf'. unfold b_length, b_bytes in *; simpl in *.
    rewrite Hb, zlen_app.
    repeat split; try done; try lia; try congruence.
  - specialize (Hno eq_refl). destruct Hwf' as (? & ? & ?).
    repeat split; try done; try lia; congruence.
Qed.

(** Without any assumption, an append writes all of its bytes or none. *)
Lemma buf_add_bytes b bs :
  b_bytes (buf_add b bs) = b_bytes b ++ bs \/
  b_bytes (buf_add b bs) = b_bytes b /\ b_failed (buf_add b bs) = true.
Proof.
  destruct bs as [|x bs']; [left; by rewrite app_nil_r|].
  unfold buf_add, reserve, b_bytes, set_failed.
  destruct (b_failed b) eqn:Hf; [by right|].
  repeat (case_match; simplify_eq; simpl; auto).
Qed.

(** With an allocator that grants everything, only the limit refuses. *)
Lemma buf_add_succeeds b bs :
  (forall n, realloc_ok n = true) -> buf_wf b -> b_failed b = false ->
  b_length b + zlen bs <= b_limit b -> b_failed (buf_add b bs) = false.
Proof.
  intros Hall (Hlim & Hlen & Hd) Hf Hfit. destruct bs as [|x bs']; [done|].
  unfold buf_add, reserve. rewrite Hf.
  pose proof (zlen_nonneg (b_bytes b)) as Hnn. fold (b_length b) in Hnn.
  rewrite u64_small by lia.
  destruct (Z.ltb_spec (b_limit b - b_length b) (zlen (x :: bs'))); [lia|].
  destruct (_ <=? _); [done|]. by rewrite Hall.
Qed.

Lemma buf_add_all_failed b chunks :
  buf_wf b -> Forall (fun c => zlen c <= SIZE_MAX) chunks ->
  b_failed b = true -> b_failed (buf_add_all b chunks) = true.
Proof.
  revert b. induction chunks as [|c cs IH]; intros b Hwf Hc Hf; [done|].
  apply Forall_cons in Hc as [Hc Hcs].
  destruct (buf_add_spec b c Hwf Hc) as (? & ? & ? & Hst). apply IH; auto.
Qed.

Lemma buf_add_all_wf b chunks :
  buf_wf b -> Forall (fun c => zlen c <= SIZE_MAX) chunks ->
  buf_wf (buf_add_all b chunks) /\ b_limit (buf_add_all b chunks) = b_limit b.
Proof.
  revert b. induction chunks as [|c cs IH]; intros b Hwf Hc; [done|].
  apply Forall_cons in Hc as [Hc Hcs].
  destruct (buf_add_spec b c Hwf Hc) as (Hwf1 & <- & _). by apply IH.
Qed.

Lemma buf_add_all_spec b chunks :
  buf_wf b -> Forall (fun c => zlen c <= SIZE_MAX) chunks -> b_failed b = false ->
  let b' := buf_add_all b chunks in
  buf_wf b' /\ b_limit b' = b_limit b /\
  (b_failed b' = false ->
     b_bytes b' = b_bytes b ++ concat chunks /\ b_length b + zlen (concat chunks) <= b_limit b) /\
  ((forall n, realloc_ok n = true) ->
     b_length b + zlen (concat chunks) <= b_limit b -> b_failed b' = false).
Proof.
  simpl. revert b. induction chunks as [|c cs IH]; intros b Hwf Hc Hf.
  { simpl. rewrite app_nil_r. destruct Hwf as (? & ? & ?).
    unfold buf_wf, zlen; simpl; repeat split; try done; lia. }
  apply Forall_cons in Hc as [Hc Hcs]. cbn [buf_add_all foldl concat].
  destruct (buf_add_spec b c Hwf Hc) as (Hwf1 & Hlim1 & Hok1 & _).
  fold (buf_add_all (buf_add b c) cs).
  pose proof (zlen_nonneg (concat cs)) as Hnn. rewrite zlen_app.
  destruct (b_failed (buf_add b c)) eqn:Hf1.
  - pose proof (buf_add_all_failed _ _ Hwf1 Hcs Hf1) as Hall.
    destruct (buf_add_all_wf _ _ Hwf1 Hcs) as [? ?].
    split_and!; try done; try congruence.
    intros Hall' Hfit. rewrite (buf_add_succeeds b c) in Hf1; done || lia.
  - destruct (Hok1 eq_refl) as (_ & Hb1 & Hfit1).
    destruct (IH _ Hwf1 Hcs Hf1) as (Hwf2 & Hlim2 & Hok2 & Hsu2).
    assert (b_length (buf_add b c) = b_length b + zlen c) as Hlen
      by (unfold b_length; rewrite Hb1, zlen_app; lia).
    rewrite Hb1, Hlim1 in *. rewrite <- app_assoc in *.
    split_and!; try done; try lia.
    + intros Hf'. destruct (Hok2 Hf') as [? ?]. split; [done|lia].
    + intros ? ?. apply Hsu2; [done|lia].
Qed.
End WithAllocator.

(** A buffer is all or nothing. After any run of appends either every byte
    of every chunk is there in order, or the buffer has failed and reads as
    empty; it never holds some of them. *)
Theorem buf_all_or_nothing (realloc_ok : Z -> bool) limit chunks :
  0 <= limit < 2 ^ 62 -> Forall (fun c => zlen c <= SIZE_MAX) chunks ->
  let b := buf_add_all realloc_ok (buf_init limit) chunks in
  let cap := if limit =? 0 then DEFAULT_LIMIT else limit in
  buf_wf b /\
  (b_failed b = false -> buf_text b = concat chunks /\ zlen (concat chunks) <= cap) /\
  (b_failed b = true -> buf_text b = [] /\ buf_take b = (None, b)) /\
  (cap < zlen (concat chunks) -> b_failed b = true) /\
  ((forall n, realloc_ok n = true) -> zlen (concat chunks) <= cap -> b_failed b = false).
Proof.
  intros Hlim Hc b cap.
  destruct (buf_add_all_spec realloc_ok (buf_init limit) chunks (buf_init_wf limit Hlim) Hc eq_refl)
    as (Hwf & Hl & Hok & Hsu). fold b in Hwf, Hl, Hok, Hsu.
  change (b_limit (buf_init limit)) with cap in *.
  change (b_length (buf_init limit)) with 0 in *.
  change (b_bytes (buf_init limit)) with (@nil byte) in *.
  split_and!; [done| | | |done]; unfold buf_text, buf_take; intros Hb.
  - rewrite Hb. by apply Hok.
  - by rewrite Hb.
  - destruct (b_failed b) eqn:Hf; [done|]. destruct (Hok eq_refl). lia.
Qed.

Lemma buf_all_or_nothing_witness :
  buf_text (buf_add_all (fun _ => true) (buf_init 4) [bytes "ab"; bytes "cd"]) = bytes "abcd" /\
  b_failed (buf_add_all (fun _ => true) (buf_init 4) [bytes "ab"; bytes "cde"]) = true.
Proof.
  split.
  - apply (buf_all_or_nothing (fun _ => true) 4); [lia| |vm_compute; reflexivity].
    repeat constructor; vm_compute; discriminate.
  - apply (buf_all_or_nothing (fun _ => true) 4); [lia| |vm_compute; reflexivity].
    repeat constructor; vm_compute; discriminate.
Defined.
