(* ===== verification/Lex.v ===== *)
(** * Lex: the configuration language's lexer, [c/src/compile/lex.c]

    The struct [ncfg_lexer_t] keeps the whole text and a cursor; the model
    keeps the unread suffix [lx_rest] and the cursor [lx_position], which
    [lexer_at] below ties to the text. Counters ([position], [line],
    [column]) are [nat]: each is at most one more than the text's length, so
    the [size_t] that holds it in C cannot wrap. A failure is a
    [lex_error] with the lexer that carries the span in [lx_error_span].

    [malloc_ok n] says whether the allocator grants [n] bytes. *)
From S2P Require Import Prelude Buf.

Local Open Scope nat_scope.

(** ** Data *)

Record span := Span {
  sp_offset : nat;
  sp_length : nat;
  sp_line : nat;
  sp_column : nat
}.

(** [ncfg_token_kind_t] with the field of [ncfg_token_t] each kind uses. *)
Inductive token_kind :=
| TOKEN_IDENT (text : list byte)
| TOKEN_STRING (text : list byte)
| TOKEN_NUMBER (number : Z)
| TOKEN_BOOL (boolean : bool)
| TOKEN_LBRACE
| TOKEN_RBRACE
| TOKEN_LBRACKET
| TOKEN_RBRACKET
| TOKEN_EQUALS
| TOKEN_COMMA
| TOKEN_TERMINATOR
| TOKEN_EOF.

Record token := Token { tk_kind : token_kind; tk_span : span }.

Record lexer := Lexer {
  lx_rest : list byte;
  lx_position : nat;
  lx_line : nat;
  lx_column : nat;
  lx_error_span : span
}.

(** The sentences this file puts in [err]. *)
Inductive lex_error :=
| LexOutOfMemory
| LexExpectedDigits
| LexFloat
| LexNumberTooBig (shown : list byte)
| LexUnterminatedString
| LexUnknownEscape (shown : list byte)
| LexNotUtf8
| LexStringTooLong
| LexUnexpected (shown : list byte)
| LexUnterminatedHook
| LexHookTooLong.

(** ** Character classes *)

Definition is_ident_start (b : byte) : bool :=
  byte_between "a" "z" b || byte_between "A" "Z" b || (b =b "_"%byte).

Definition is_ident_continue (b : byte) : bool :=
  is_ident_start b || byte_between "0" "9" b || (b =b "-"%byte) || (b =b "."%byte).

Definition is_digit (b : byte) : bool := byte_between "0" "9" b.

(** The bytes the source writes as escapes. *)
Definition NL : byte := x0a.
Definition TAB : byte := x09.
Definition CR : byte := x0d.
Definition QUOTE : byte := x22.
Definition BACKSLASH : byte := x5c.

(** ** The cursor *)

Definition peek_byte (lx : lexer) : option byte := head (lx_rest lx).

Definition bump (lx : lexer) : option byte * lexer :=
  match lx_rest lx with
  | [] => (None, lx)
  | b :: rest =>
      (Some b,
       {| lx_rest := rest;
          lx_position := S (lx_position lx);
          lx_line := if b =b NL then S (lx_line lx) else lx_line lx;
          lx_column := if b =b NL then 1 else S (lx_column lx);
          lx_error_span := lx_error_span lx |})
  end.

Definition bump_ (lx : lexer) : lexer := snd (bump lx).

Definition span_here (lx : lexer) : span :=
  {| sp_offset := lx_position lx; sp_length := 0;
     sp_line := lx_line lx; sp_column := lx_column lx |}.

Definition span_to (lx : lexer) (start : span) : span :=
  {| sp_offset := sp_offset start; sp_length := lx_position lx - sp_offset start;
     sp_line := sp_line start; sp_column := sp_column start |}.

Definition set_error_span (lx : lexer) (s : span) : lexer :=
  {| lx_rest := lx_rest lx; lx_position := lx_position lx; lx_line := lx_line lx;
     lx_column := lx_column lx; lx_error_span := s |}.

(** Every fallible call returns the lexer it leaves and an error or a value. *)
Definition lexed (A : Type) : Type := lexer * (lex_error + A).

Definition fail {A} (lx : lexer) (s : span) (e : lex_error) : lexed A :=
  (set_error_span lx s, inl e).

Definition hex_digit (n : Z) : byte :=
  if (n <? 10)%Z then default x00 (Byte.of_N (Z.to_N (48 + n)))
  else default x00 (Byte.of_N (Z.to_N (87 + n))).

(** [describe_byte]: itself when printable, [\xNN] when not. *)
Definition describe_byte (b : byte) : list byte :=
  if ((0x20 <=? bz b) && (bz b <? 0x7f))%Z then [b]
  else [BACKSLASH; "x"%byte; hex_digit (bz b / 16); hex_digit (bz b mod 16)].

(** ** Loops

    [bump_while p] is [while (byte >= 0 && p(byte)) bump(lexer)]; the fuel is
    the number of unread bytes, which every turn reduces. *)
Fixpoint bump_while_loop (fuel : nat) (p : byte -> bool) (lx : lexer) : lexer :=
  match fuel with
  | O => lx
  | S fuel' =>
      match peek_byte lx with
      | Some b => if p b then bump_while_loop fuel' p (bump_ lx) else lx
      | None => lx
      end
  end.

Definition bump_while (p : byte -> bool) (lx : lexer) : lexer :=
  bump_while_loop (length (lx_rest lx)) p lx.

(** The bytes consumed between two states of one lexer. *)
Definition consumed (from to : lexer) : list byte :=
  take (lx_position to - lx_position from) (lx_rest from).

Definition is_blank (b : byte) : bool := (b =b " "%byte) || (b =b TAB) || (b =b CR).

Fixpoint skip_trivia_loop (fuel : nat) (lx : lexer) : lexer :=
  match fuel with
  | O => lx
  | S fuel' =>
      match peek_byte lx with
      | Some b =>
          if is_blank b then skip_trivia_loop fuel' (bump_ lx)
          else if b =b "#"%byte then
            skip_trivia_loop fuel' (bump_while (fun c => negb (c =b NL)) lx)
          else lx
      | None => lx
      end
  end.

Definition skip_trivia (lx : lexer) : lexer := skip_trivia_loop (S (length (lx_rest lx))) lx.

(** The digit loop of [lex_number], at [uint64_t]'s width: the magnitude and
    whether it has overflowed [limit]. *)
Fixpoint lex_digits (fuel : nat) (limit value : Z) (overflowed : bool) (lx : lexer)
  : Z * bool * lexer :=
  match fuel with
  | O => (value, overflowed, lx)
  | S fuel' =>
      match peek_byte lx with
      | Some b =>
          if is_digit b then
            let digit := (bz b - bz "0")%Z in
            let over := overflowed || (u64 (limit - digit) / 10 <? value)%Z in
            let value' := if over then value else u64 (value * 10 + digit) in
            lex_digits fuel' limit value' over (bump_ lx)
          else (value, overflowed, lx)
      | None => (value, overflowed, lx)
      end
  end.

(** ** UTF-8 *)

Definition utf8_sequence_length (lead : byte) : nat :=
  if (bz lead <? 0x80)%Z then 1
  else if (Z.shiftr (bz lead) 5 =? 0x06)%Z then 2
  else if (Z.shiftr (bz lead) 4 =? 0x0e)%Z then 3
  else if (Z.shiftr (bz lead) 3 =? 0x1e)%Z then 4
  else 1.

Definition is_continuation (b : byte) : bool :=
  ((0x80 <=? bz b) && (bz b <=? 0xbf))%Z.

Definition utf8_is_valid (bs : list byte) : bool :=
  match bs with
  | [] => false
  | lead :: tail =>
      forallb is_continuation tail &&
      (let l := bz lead in
       let first := bz (default x00 (head tail)) in
       match length bs with
       | 1%nat => l <? 0x80
       | 2%nat => (0xc2 <=? l) && (l <=? 0xdf)
       | 3%nat => if l =? 0xe0 then 0xa0 <=? first
              else if l =? 0xed then first <=? 0x9f
              else (0xe1 <=? l) && (l <=? 0xef)
       | 4%nat => if l =? 0xf0 then 0x90 <=? first
              else if l =? 0xf4 then first <=? 0x8f
              else (0xf1 <=? l) && (l <=? 0xf3)
       | _ => false
       end)%Z
  end.

(** ** The tokens that have a body *)

Section WithAllocator.
Context (malloc_ok : Z -> bool).

Definition lex_ident (lx : lexer) (start : span) : lexed token :=
  let lx' := bump_while is_ident_continue lx in
  let text := consumed lx lx' in
  let sp := span_to lx' start in
  if bytes_eqb text (bytes "true") then (lx', inr (Token (TOKEN_BOOL true) sp))
  else if bytes_eqb text (bytes "false") then (lx', inr (Token (TOKEN_BOOL false) sp))
  else if malloc_ok (zlen text + 1) then (lx', inr (Token (TOKEN_IDENT text) sp))
  else fail lx' sp LexOutOfMemory.

Definition NUMBER_SHOWN : nat := 40.

Definition lex_number (lx : lexer) (start : span) : lexed token :=
  let negative := bool_decide (peek_byte lx = Some "-"%byte) in
  let lx1 := if negative then bump_ lx else lx in
  let limit := (if negative then INT64_MAX + 1 else INT64_MAX)%Z in
  let '(value, overflowed, lx2) := lex_digits (length (lx_rest lx1)) limit 0 false lx1 in
  if lx_position lx2 =? lx_position lx1 then fail lx2 (span_to lx2 start) LexExpectedDigits
  else if bool_decide (peek_byte lx2 = Some "."%byte) then fail lx2 (span_to lx2 start) LexFloat
  else if overflowed then
    fail lx2 (span_to lx2 start) (LexNumberTooBig (take NUMBER_SHOWN (consumed lx lx2)))
  else
    (lx2, inr (Token (TOKEN_NUMBER
      (if negb negative || (value =? 0)%Z then value else - (value - 1) - 1)%Z)
      (span_to lx2 start))).

(** The continuation bytes of one character; [None] where the text ends. *)
Fixpoint bump_n (n : nat) (lx : lexer) : option (list byte) * lexer :=
  match n with
  | O => (Some [], lx)
  | S n' =>
      match bump lx with
      | (None, lx') => (None, lx')
      | (Some b, lx') =>
          match bump_n n' lx' with
          | (Some bs, lx'') => (Some (b :: bs), lx'')
          | (None, lx'') => (None, lx'')
          end
      end
  end.

Definition escape_of (b : byte) : option byte :=
  if b =b QUOTE then Some QUOTE
  else if b =b BACKSLASH then Some BACKSLASH
  else if b =b "n"%byte then Some NL
  else if b =b "t"%byte then Some TAB
  else None.

(** The loop of [lex_string] after the opening quote. *)
Fixpoint lex_string_loop (fuel : nat) (start : span) (text : buf) (lx : lexer) : lexed buf :=
  match fuel with
  | O => fail lx (span_to lx start) LexUnterminatedString
  | S fuel' =>
      match bump lx with
      | (None, lx1) => fail lx1 (span_to lx1 start) LexUnterminatedString
      | (Some b, lx1) =>
          if b =b QUOTE then (lx1, inr text)
          else if b =b BACKSLASH then
            match bump lx1 with
            | (None, lx2) => fail lx2 (span_to lx2 start) LexUnterminatedString
            | (Some e, lx2) =>
                match escape_of e with
                | Some c => lex_string_loop fuel' start (buf_add_char malloc_ok text c) lx2
                | None =>
                    let escape := span_here lx1 in
                    fail lx2 {| sp_offset := sp_offset escape; sp_length := 1;
                                sp_line := sp_line escape; sp_column := sp_column escape |}
                      (LexUnknownEscape (describe_byte e))
                end
            end
          else
            match bump_n (utf8_sequence_length b - 1) lx1 with
            | (None, lx2) => fail lx2 (span_to lx2 start) LexUnterminatedString
            | (Some more, lx2) =>
                if utf8_is_valid (b :: more)
                then lex_string_loop fuel' start (buf_add malloc_ok text (b :: more)) lx2
                else fail lx2 (span_to lx2 start) LexNotUtf8
            end
      end
  end.

(** [take_text]: a buffer that never allocated is the empty string. *)
Definition take_text (b : buf) : option (list byte) :=
  if buf_failed b then None
  else
    match fst (buf_take b) with
    | Some taken => Some taken
    | None => if malloc_ok 1 then Some [] else None
    end.

Definition lex_string (lx : lexer) (start : span) : lexed token :=
  let lx0 := bump_ lx in
  match lex_string_loop (S (length (lx_rest lx0))) start (buf_init 0) lx0 with
  | (lx', inl e) => (lx', inl e)
  | (lx', inr text) =>
      match take_text text with
      | Some bs => (lx', inr (Token (TOKEN_STRING bs) (span_to lx' start)))
      | None => fail lx' (span_to lx' start) LexStringTooLong
      end
  end.

(** ** [ncfg_lexer_init], [ncfg_lexer_next], [ncfg_lexer_hook_body] *)

Definition lexer_init (text : list byte) : lexer :=
  {| lx_rest := text; lx_position := 0; lx_line := 1; lx_column := 1;
     lx_error_span := {| sp_offset := 0; sp_length := 0; sp_line := 1; sp_column := 1 |} |}.

(** The one-byte tokens. *)
Definition punctuation (b : byte) : option token_kind :=
  if (b =b NL) || (b =b ";"%byte) then Some TOKEN_TERMINATOR
  else if b =b "{"%byte then Some TOKEN_LBRACE
  else if b =b "}"%byte then Some TOKEN_RBRACE
  else if b =b "["%byte then Some TOKEN_LBRACKET
  else if b =b "]"%byte then Some TOKEN_RBRACKET
  else if b =b "="%byte then Some TOKEN_EQUALS
  else if b =b ","%byte then Some TOKEN_COMMA
  else None.

Definition lexer_next (lx : lexer) : lexed token :=
  let lx0 := skip_trivia lx in
  let sp := span_here lx0 in
  match peek_byte lx0 with
  | None => (lx0, inr (Token TOKEN_EOF sp))
  | Some b =>
      match punctuation b with
      | Some k => let lx1 := bump_ lx0 in (lx1, inr (Token k (span_to lx1 sp)))
      | None =>
          if b =b QUOTE then lex_string lx0 sp
          else if (b =b "-"%byte) || is_digit b then lex_number lx0 sp
          else if is_ident_start b then lex_ident lx0 sp
          else
            let lx1 := bump_ lx0 in
            fail lx1 (span_to lx1 sp) (LexUnexpected (describe_byte b))
      end
  end.

(** [ncfg_token_describe]: the words a diagnostic uses for a token. *)
Definition token_describe (k : token_kind) : list byte :=
  match k with
  | TOKEN_IDENT text => "`"%byte :: text ++ ["`"%byte]
  | TOKEN_STRING _ => bytes "a string"
  | TOKEN_NUMBER _ => bytes "a number"
  | TOKEN_BOOL _ => bytes "a boolean"
  | TOKEN_LBRACE => bytes "`{`"
  | TOKEN_RBRACE => bytes "`}`"
  | TOKEN_LBRACKET => bytes "`[`"
  | TOKEN_RBRACKET => bytes "`]`"
  | TOKEN_EQUALS => bytes "`=`"
  | TOKEN_COMMA => bytes "`,`"
  | TOKEN_TERMINATOR => bytes "end of statement"
  | TOKEN_EOF => bytes "end of file"
  end.

Definition is_space (b : byte) : bool :=
  (b =b " "%byte) || (b =b TAB) || (b =b CR) || (b =b NL) || (b =b x0b) || (b =b x0c).

(** [is_closing_line]: trimmed at both ends, a single closing brace. *)
Fixpoint trim_front (l : list byte) : list byte :=
  match l with
  | [] => []
  | b :: l' => if is_space b then trim_front l' else l
  end.

Definition trim_back (l : list byte) : list byte := reverse (trim_front (reverse l)).

Definition is_closing_line (line : list byte) : bool :=
  bytes_eqb (trim_front (trim_back line)) ["}"%byte].

(** One line, its newline included where there is one. *)
Definition bump_line (lx : lexer) : lexer :=
  match bump lx with
  | (Some b, lx1) =>
      if b =b NL then lx1 else bump_ (bump_while (fun c => negb (c =b NL)) lx1)
  | (None, lx1) => lx1
  end.

Fixpoint hook_body_loop (fuel : nat) (open : span) (body : buf) (lx : lexer) : lexed buf :=
  match fuel with
  | O => fail lx open LexUnterminatedHook
  | S fuel' =>
      match lx_rest lx with
      | [] =>
          fail lx {| sp_offset := sp_offset open; sp_length := lx_position lx - sp_offset open;
                     sp_line := sp_line open; sp_column := sp_column open |}
            LexUnterminatedHook
      | _ =>
          let lx1 := bump_line lx in
          let line := consumed lx lx1 in
          if is_closing_line line then (lx1, inr body)
          else hook_body_loop fuel' open (buf_add malloc_ok body line) lx1
      end
  end.

Definition lexer_hook_body (lx : lexer) : lexed (list byte) :=
  let open := span_here lx in
  match hook_body_loop (S (length (lx_rest lx))) open (buf_init 0) lx with
  | (lx', inl e) => (lx', inl e)
  | (lx', inr body) =>
      match take_text body with
      | Some bs => (lx', inr bs)
      | None => fail lx' (span_to lx' open) LexHookTooLong
      end
  end.
End WithAllocator.
