(* ===== verification/LexFacts.v ===== *)
(** * LexFacts: how the lexer's cursor moves

    Every operation of [Lex] is some number of [bump]s; [advance n] is [n] of
    them, so the position, line and column of whatever an operation returns
    follow from how many bytes it took. *)
From S2P Require Import Prelude Buf Lex.

Local Open Scope nat_scope.

Definition advance (n : nat) (lx : lexer) : lexer := Nat.iter n bump_ lx.

(** Where the cursor stands, without the span of the last complaint. *)
Definition cursor (lx : lexer) : list byte * nat * nat * nat :=
  (lx_rest lx, lx_position lx, lx_line lx, lx_column lx).

Definition newlines (l : list byte) : nat := length (filter (fun b => b = NL) l).

Definition column_after (c : nat) (l : list byte) : nat :=
  foldl (fun c b => if b =b NL then 1 else S c) c l.

(** [lexer_at text lx]: the cursor is at some prefix of [text], and its line
    and column are the ones an editor shows there. *)
Definition lexer_at (text : list byte) (lx : lexer) : Prop :=
  exists pre, text = pre ++ lx_rest lx /\ lx_position lx = length pre /\
    lx_line lx = 1 + newlines pre /\ lx_column lx = column_after 1 pre.

(** ** [advance] *)

Lemma advance_0 lx : advance 0 lx = lx.
Proof. done. Qed.

Lemma advance_S n lx : advance (S n) lx = advance n (bump_ lx).
Proof. unfold advance. by rewrite Nat.iter_succ_r. Qed.

Lemma advance_advance n m lx : advance n (advance m lx) = advance (m + n) lx.
Proof.
  revert lx. induction m as [|m IH]; intros lx; [done|].
  by rewrite advance_S, IH, <- advance_S.
Qed.

Lemma bump_rest lx : lx_rest (bump_ lx) = tail (lx_rest lx).
Proof. unfold bump_, bump. by destruct (lx_rest lx) eqn:E. Qed.

Lemma advance_rest n lx : lx_rest (advance n lx) = drop n (lx_rest lx).
Proof.
  revert lx. induction n as [|n IH]; intros lx; [by rewrite advance_0, drop_0|].
  rewrite advance_S, IH, bump_rest. by destruct (lx_rest lx); simpl; rewrite ?drop_nil.
Qed.

Lemma advance_position n lx :
  n <= length (lx_rest lx) -> lx_position (advance n lx) = lx_position lx + n.
Proof.
  revert lx. induction n as [|n IH]; intros lx Hn; [rewrite advance_0; lia|].
  rewrite advance_S. destruct (lx_rest lx) as [|b rest] eqn:E; simpl in Hn; [lia|].
  rewrite IH by (rewrite bump_rest, E; simpl; lia).
  unfold bump_, bump; rewrite E; simpl; lia.
Qed.

Lemma lexer_at_bump text lx : lexer_at text lx -> lexer_at text (bump_ lx).
Proof.
  intros (pre & Ht & Hp & Hl & Hc). unfold bump_, bump.
  destruct (lx_rest lx) as [|b rest] eqn:E; [exists pre; simpl; by rewrite E|].
  exists (pre ++ [b]). simpl.
  unfold newlines, column_after in *.
  rewrite filter_app, !length_app, foldl_app, <- app_assoc. simpl.
  split_and!; [done|lia| |].
  - rewrite filter_cons, filter_nil.
    destruct (byte_eqb_spec b NL) as [->|]; [rewrite decide_True|rewrite decide_False]; simpl; lia || done.
  - by rewrite Hc.
Qed.

Lemma lexer_at_advance text n lx : lexer_at text lx -> lexer_at text (advance n lx).
Proof.
  intros H. induction n as [|n IH]; [done|]. by apply lexer_at_bump.
Qed.

Lemma lexer_at_cursor text lx lx' :
  cursor lx' = cursor lx -> lexer_at text lx -> lexer_at text lx'.
Proof. unfold cursor, lexer_at. intros [= -> -> -> ->]. done. Qed.

Lemma cursor_set_error_span lx s : cursor (set_error_span lx s) = cursor lx.
Proof. done. Qed.

Lemma consumed_advance n lx :
  n <= length (lx_rest lx) -> consumed lx (advance n lx) = take n (lx_rest lx).
Proof. intros H. unfold consumed. rewrite advance_position by done. f_equal. lia. Qed.

Lemma peek_byte_Some lx b : peek_byte lx = Some b -> exists rest, lx_rest lx = b :: rest.
Proof. unfold peek_byte. destruct (lx_rest lx); simpl; intros; simplify_eq; eauto. Qed.

Lemma peek_byte_None lx : peek_byte lx = None -> lx_rest lx = [].
Proof. unfold peek_byte. by destruct (lx_rest lx). Qed.

Lemma bump_Some lx b rest :
  lx_rest lx = b :: rest -> bump lx = (Some b, bump_ lx) /\ lx_rest (bump_ lx) = rest.
Proof. intros H. unfold bump_, bump. by rewrite H. Qed.

Lemma bump_None lx : lx_rest lx = [] -> bump lx = (None, lx) /\ bump_ lx = lx.
Proof. intros H. unfold bump_, bump. by rewrite H. Qed.

(** ** The loops *)

(** The longest prefix of bytes satisfying [p]. *)
Fixpoint prefix_while (p : byte -> bool) (l : list byte) : nat :=
  match l with
  | [] => 0
  | b :: l' => if p b then S (prefix_while p l') else 0
  end.

Lemma prefix_while_le p l : prefix_while p l <= length l.
Proof. induction l as [|b l IH]; simpl; [lia|]. destruct (p b); simpl; lia. Qed.

Lemma prefix_while_app p pre suf :
  Forall (fun b => p b = true) pre ->
  match suf with [] => True | b :: _ => p b = false end ->
  prefix_while p (pre ++ suf) = length pre.
Proof.
  intros Hpre Hsuf. induction Hpre as [|b pre Hb _ IH]; simpl.
  - destruct suf; [done|]. simpl. by rewrite Hsuf.
  - by rewrite Hb, IH.
Qed.

Lemma prefix_while_take p l : Forall (fun b => p b = true) (take (prefix_while p l) l).
Proof.
  induction l as [|b l IH]; simpl; [done|].
  destruct (p b) eqn:E; simpl; [by constructor|constructor].
Qed.

Lemma prefix_while_drop p l b rest :
  drop (prefix_while p l) l = b :: rest -> p b = false.
Proof.
  induction l as [|c l IH]; simpl; [done|].
  destruct (p c) eqn:E; simpl; [auto|]. intros [= <- <-]. done.
Qed.

Lemma bump_while_loop_eq fuel p lx :
  length (lx_rest lx) <= fuel ->
  bump_while_loop fuel p lx = advance (prefix_while p (lx_rest lx)) lx.
Proof.
  revert lx. induction fuel as [|fuel IH]; intros lx Hf; simpl.
  { destruct (lx_rest lx); simpl in *; [done|lia]. }
  unfold peek_byte. destruct (lx_rest lx) as [|b rest] eqn:E; [done|].
  simpl. destruct (p b); [|done].
  rewrite IH by (rewrite bump_rest, E; simpl in *; lia).
  by rewrite bump_rest, E, <- advance_S.
Qed.

Lemma bump_while_eq p lx : bump_while p lx = advance (prefix_while p (lx_rest lx)) lx.
Proof. by apply bump_while_loop_eq. Qed.

(** How many bytes of [l] are blanks and comments; [comment] is whether a
    [#] has been read on this line. *)
Fixpoint trivia (comment : bool) (l : list byte) : nat :=
  match l with
  | [] => 0
  | b :: l' =>
      if comment then if b =b NL then 0 else S (trivia true l')
      else if is_blank b then S (trivia false l')
      else if b =b "#"%byte then S (trivia true l')
      else 0
  end.

Lemma trivia_le c l : trivia c l <= length l.
Proof.
  revert c. induction l as [|b l IH]; intros c; simpl; [lia|].
  pose proof (IH true). pose proof (IH false).
  destruct c, (b =b NL), (is_blank b), (b =b "#"%byte); simpl; lia.
Qed.

Lemma trivia_comment l :
  trivia true l = prefix_while (fun c => negb (c =b NL)) l.
Proof. induction l as [|b l IH]; simpl; [done|]. destruct (b =b NL); simpl; by rewrite ?IH. Qed.

Lemma trivia_comment_stop l : trivia false (drop (trivia true l) l) = 0.
Proof.
  induction l as [|b l IH]; simpl; [done|].
  destruct (byte_eqb_spec b NL) as [->|]; [done|]. done.
Qed.

Lemma skip_trivia_loop_eq fuel lx :
  length (lx_rest lx) < fuel ->
  skip_trivia_loop fuel lx = advance (trivia false (lx_rest lx)) lx.
Proof.
  revert lx. induction fuel as [|fuel IH]; intros lx Hf; [lia|]. simpl.
  unfold peek_byte. destruct (lx_rest lx) as [|b rest] eqn:E; [done|]. simpl.
  destruct (is_blank b).
  { rewrite IH by (rewrite bump_rest, E; simpl in *; lia).
    by rewrite bump_rest, E, advance_S. }
  destruct (byte_eqb_spec b "#"%byte) as [->|]; [|done].
  rewrite bump_while_eq, E. cbn [prefix_while]. rewrite byte_eqb_neq by done. cbn [negb].
  rewrite <- trivia_comment, IH; rewrite !advance_rest, E; cbn [drop].
  - rewrite trivia_comment_stop. done.
  - rewrite length_drop. pose proof (trivia_le true rest). simpl in *. lia.
Qed.

Lemma skip_trivia_eq lx : skip_trivia lx = advance (trivia false (lx_rest lx)) lx.
Proof. apply skip_trivia_loop_eq. lia. Qed.

Lemma bump_n_eq n lx :
  n <= length (lx_rest lx) -> bump_n n lx = (Some (take n (lx_rest lx)), advance n lx).
Proof.
  revert lx. induction n as [|n IH]; intros lx Hn; [done|].
  destruct (lx_rest lx) as [|b rest] eqn:E; simpl in Hn; [lia|].
  destruct (bump_Some lx b rest E) as [Hb Hr]. simpl. rewrite Hb.
  rewrite IH by (rewrite Hr; lia). by rewrite Hr, <- advance_S.
Qed.

Lemma bump_n_None n lx :
  length (lx_rest lx) < n -> bump_n n lx = (None, advance (length (lx_rest lx)) lx).
Proof.
  revert lx. induction n as [|n IH]; intros lx Hn; [lia|]. simpl.
  destruct (lx_rest lx) as [|b rest] eqn:E.
  { by destruct (bump_None lx E) as [-> _]. }
  destruct (bump_Some lx b rest E) as [-> Hr].
  rewrite IH by (rewrite Hr; simpl in *; lia). by rewrite Hr, <- advance_S.
Qed.

#[export] Hint Rewrite advance_rest bump_rest advance_advance cursor_set_error_span : ncfg.

(** ** Numbers *)

(** The number a run of digits spells. *)
Definition dec_value (acc : Z) (ds : list byte) : Z :=
  foldl (fun v b => v * 10 + (bz b - bz "0"))%Z acc ds.

Lemma is_digit_range b : is_digit b = true -> (0 <= bz b - bz "0" <= 9)%Z.
Proof.
  unfold is_digit, byte_between. intros. unbool.
  change (bz "0") with 48%Z in *. change (bz "9") with 57%Z in *. lia.
Qed.

Lemma dec_value_mono acc ds :
  (0 <= acc)%Z -> Forall (fun b => is_digit b = true) ds -> (acc <= dec_value acc ds)%Z.
Proof.
  intros Hacc H. revert acc Hacc. induction H as [|b ds Hb _ IH]; intros acc Hacc; simpl; [lia|].
  apply is_digit_range in Hb. unfold dec_value in *; simpl.
  specialize (IH (acc * 10 + (bz b - bz "0"))%Z). lia.
Qed.

Lemma lex_digits_eq fuel limit value over lx :
  length (lx_rest lx) <= fuel -> (0 <= value <= limit)%Z -> (9 <= limit <= 2 ^ 63)%Z ->
  let n := prefix_while is_digit (lx_rest lx) in
  let d := dec_value value (take n (lx_rest lx)) in
  exists v, lex_digits fuel limit value over lx = (v, over || (limit <? d)%Z, advance n lx) /\
    (over || (limit <? d)%Z = false -> v = d).
Proof.
  revert lx value over. induction fuel as [|fuel IH]; intros lx value over Hf Hv Hl; simpl.
  { destruct (lx_rest lx); simpl in *; [|lia]. exists value. unfold dec_value; simpl.
    rewrite (proj2 (Z.ltb_ge _ _)), orb_false_r by lia. done. }
  unfold peek_byte. destruct (lx_rest lx) as [|b rest] eqn:E; simpl.
  { exists value. unfold dec_value; simpl.
    rewrite (proj2 (Z.ltb_ge _ _)), orb_false_r by lia. done. }
  destruct (is_digit b) eqn:Hb; simpl.
  2:{ exists value. unfold dec_value; simpl.
      rewrite (proj2 (Z.ltb_ge _ _)), orb_false_r by lia. done. }
  pose proof (is_digit_range b Hb) as Hd. set (digit := (bz b - bz "0")%Z) in *.
  rewrite u64_small by lia.
  assert (((limit - digit) / 10 <? value)%Z = (limit <? value * 10 + digit)%Z) as ->.
  { pose proof (Z.div_mod (limit - digit) 10). pose proof (Z.mod_pos_bound (limit - digit) 10).
    destruct (Z.ltb_spec ((limit - digit) / 10) value),
             (Z.ltb_spec limit (value * 10 + digit)); lia. }
  pose proof (prefix_while_take is_digit rest) as Hds.
  change (dec_value value (b :: take (prefix_while is_digit rest) rest))
    with (dec_value (value * 10 + digit) (take (prefix_while is_digit rest) rest)).
  pose proof (dec_value_mono (value * 10 + digit) _ ltac:(lia) Hds) as Hmono.
  assert (Hrest : lx_rest (bump_ lx) = rest) by (by rewrite bump_rest, E).
  destruct (over || (limit <? value * 10 + digit)%Z) eqn:Ho.
  - edestruct (IH (bump_ lx) value true) as (v & -> & Hv'); [rewrite Hrest; simpl in *; lia|lia|lia|].
    rewrite Hrest, <- advance_S. exists v. simpl.
    replace (over || _) with true; [done|].
    symmetry. apply orb_true_iff in Ho as [->|Ho]; [done|]. unbool.
    apply orb_true_iff. right. apply Z.ltb_lt. lia.
  - apply orb_false_iff in Ho as [-> Ho]. unbool. rewrite u64_small by lia.
    edestruct (IH (bump_ lx) (value * 10 + digit)%Z false) as (v & -> & Hv');
      [rewrite Hrest; simpl in *; lia|lia|lia|].
    rewrite Hrest, <- advance_S in *. exists v. done.
Qed.

(** ** Which bytes a token takes *)

(** [moves lx lx' n]: [lx'] is [lx] after [n] bytes that were there. *)
Definition moves (lx lx' : lexer) (n : nat) : Prop :=
  n <= length (lx_rest lx) /\ cursor lx' = cursor (advance n lx).

Lemma moves_trans lx lx1 lx2 n m : moves lx lx1 n -> moves (advance n lx) lx2 m -> moves lx lx2 (n + m).
Proof.
  intros [Hn _] [Hm Hc]. rewrite advance_advance in Hc. rewrite advance_rest, length_drop in Hm.
  split; [lia|done].
Qed.

Lemma moves_advance n lx : n <= length (lx_rest lx) -> moves lx (advance n lx) n.
Proof. done. Qed.

Lemma moves_fail n lx s : n <= length (lx_rest lx) -> moves lx (set_error_span (advance n lx) s) n.
Proof. done. Qed.

Lemma moves_lexer_at text lx lx' n : lexer_at text lx -> moves lx lx' n -> lexer_at text lx'.
Proof.
  intros Hat [_ Hc]. eapply lexer_at_cursor; [exact Hc|]. by apply lexer_at_advance.
Qed.

Lemma moves_rest lx lx' n : moves lx lx' n -> lx_rest lx' = drop n (lx_rest lx).
Proof. unfold cursor. intros [_ [= H _ _ _]]. by rewrite H, advance_rest. Qed.

Section WithAllocator.
Context (malloc_ok : Z -> bool).

Lemma lex_ident_moves lx start lx' r :
  lex_ident malloc_ok lx start = (lx', r) ->
  moves lx lx' (prefix_while is_ident_continue (lx_rest lx)).
Proof.
  unfold lex_ident, fail. rewrite bump_while_eq. pose proof (prefix_while_le is_ident_continue (lx_rest lx)).
  destruct (bytes_eqb _ _); [|destruct (bytes_eqb _ _); [|destruct (malloc_ok _)]];
    intros [= <- <-]; auto using moves_advance, moves_fail.
Qed.

Lemma lex_number_moves lx start lx' r :
  lex_number lx start = (lx', r) ->
  exists n, moves lx lx' n /\
    (match lx_rest lx with b :: _ => (b =b "-"%byte) || is_digit b = true | [] => False end -> 0 < n).
Proof.
  unfold lex_number. intros H.
  set (neg := bool_decide (peek_byte lx = Some "-"%byte)) in *.
  set (k := if neg then 1 else 0).
  assert (Hk : k <= length (lx_rest lx)).
  { subst k neg. case_bool_decide as Hp; [|lia]. apply peek_byte_Some in Hp as [? ->]. simpl; lia. }
  assert (H1 : (if neg then bump_ lx else lx) = advance k lx) by (subst k; by destruct neg).
  rewrite H1 in H.
  destruct (lex_digits_eq (length (lx_rest (advance k lx)))
     (if neg then INT64_MAX + 1 else INT64_MAX)%Z 0 false (advance k lx))
    as (v & Heq & _); [lia|unfold INT64_MAX; destruct neg; lia|unfold INT64_MAX; destruct neg; lia|].
  rewrite Heq in H. clear Heq. rewrite advance_advance, advance_rest in H.
  set (m := prefix_while is_digit (drop k (lx_rest lx))) in *.
  pose proof (prefix_while_le is_digit (drop k (lx_rest lx))) as Hm. fold m in Hm.
  rewrite length_drop in Hm.
  exists (k + m). split.
  - unfold fail in H. break; simplify_eq; (apply moves_advance || apply moves_fail); lia.
  - destruct (lx_rest lx) as [|b rest] eqn:E; [done|]. intros Hb.
    subst k m neg. unfold peek_byte. rewrite E. simpl.
    destruct (byte_eqb_spec b "-"%byte) as [->|Hne].
    + rewrite bool_decide_eq_true_2 by done. lia.
    + rewrite bool_decide_eq_false_2 by congruence. simpl in *. rewrite Hb. lia.
Qed.

Lemma lex_string_loop_moves fuel start text lx lx' r :
  lex_string_loop malloc_ok fuel start text lx = (lx', r) -> exists n, moves lx lx' n.
Proof.
  revert text lx. induction fuel as [|fuel IH]; intros text lx H; cbn [lex_string_loop] in H;
    unfold fail in H.
  { simplify_eq. exists 0. by apply moves_fail; lia. }
  destruct (lx_rest lx) as [|b rest] eqn:E.
  { destruct (bump_None lx E) as [Hb _]. rewrite Hb in H. simplify_eq. exists 0. split; [lia|done]. }
  destruct (bump_Some lx b rest E) as [Hb Hr]. rewrite Hb in H.
  change (bump_ lx) with (advance 1 lx) in *.
  destruct (b =b QUOTE).
  { simplify_eq. exists 1. apply moves_advance. rewrite E; simpl; lia. }
  destruct (b =b BACKSLASH).
  - destruct rest as [|e rest].
    { destruct (bump_None (advance 1 lx) Hr) as [Hb2 _]. rewrite Hb2 in H. simplify_eq.
      exists 1. split; [rewrite E; simpl; lia|done]. }
    destruct (bump_Some _ e rest Hr) as [Hb2 Hr2]. rewrite Hb2 in H.
    change (bump_ (advance 1 lx)) with (advance 2 lx) in *.
    destruct (escape_of e).
    + destruct (IH _ _ H) as [n Hn]. exists (2 + n). eapply moves_trans; [|exact Hn].
      apply moves_advance. rewrite E; simpl; lia.
    + simplify_eq. exists 2. apply moves_fail. rewrite E; simpl; lia.
  - set (k := utf8_sequence_length b - 1) in *.
    destruct (decide (k <= length rest)) as [Hk|Hk].
    + rewrite bump_n_eq in H by (rewrite Hr; lia). rewrite advance_advance in H.
      destruct (utf8_is_valid _).
      * destruct (IH _ _ H) as [n Hn]. exists (1 + k + n). eapply moves_trans; [|exact Hn].
        apply moves_advance. rewrite E; simpl; lia.
      * injection H as <- <-. exists (1 + k). apply moves_fail. rewrite E; simpl; lia.
    + rewrite bump_n_None in H by (rewrite Hr; lia). rewrite advance_advance, Hr in H.
      injection H as <- <-. exists (1 + length rest). apply moves_fail. rewrite E; simpl; lia.
Qed.

Lemma lex_string_moves lx start lx' r :
  lx_rest lx <> [] -> lex_string malloc_ok lx start = (lx', r) -> exists n, moves lx lx' (1 + n).
Proof.
  intros Hne H. unfold lex_string, fail in H.
  destruct (lex_string_loop _ _ _ _ _) as [lx1 r1] eqn:E.
  apply lex_string_loop_moves in E as [n Hn]. exists n.
  assert (moves lx lx1 (1 + n)) as Hm.
  { eapply moves_trans; [|exact Hn]. apply moves_advance. destruct (lx_rest lx); simpl; [done|lia]. }
  break; simplify_eq; done.
Qed.

(** Every call of [ncfg_lexer_next] either takes at least one byte or
    answers the end of the text. *)
Lemma lexer_next_moves lx lx' r :
  lexer_next malloc_ok lx = (lx', r) ->
  exists n, moves lx lx' n /\
    match r with
    | inr {| tk_kind := TOKEN_EOF |} => lx_rest lx' = []
    | _ => 0 < n
    end.
Proof.
  unfold lexer_next, fail. rewrite skip_trivia_eq.
  pose proof (trivia_le false (lx_rest lx)) as Hk. set (k := trivia false (lx_rest lx)) in *.
  set (lx0 := advance k lx). set (sp := span_here lx0).
  destruct (peek_byte lx0) as [b|] eqn:Hp.
  2:{ intros [= <- <-]. exists k. split; [by apply moves_advance|]. by apply peek_byte_None. }
  apply peek_byte_Some in Hp as [rest E].
  assert (Hlen : k + 1 <= length (lx_rest lx)).
  { pose proof (f_equal length E) as Hl. subst lx0. rewrite advance_rest, length_drop in Hl.
    simpl in Hl. lia. }
  assert (Hmk : forall n lx' , moves lx0 lx' n -> moves lx lx' (k + n)).
  { intros n l Hm. eapply moves_trans; [by apply moves_advance|done]. }
  assert (Hm1 : moves lx0 (bump_ lx0) 1).
  { apply (moves_advance 1). rewrite E; simpl; lia. }
  intros H. destruct (punctuation b) as [kd|] eqn:Hpu.
  { simplify_eq. exists (k + 1). split; [by apply Hmk|].
    unfold punctuation in Hpu. break; simplify_eq; lia. }
  destruct (b =b QUOTE).
  { pose proof H as H'. apply lex_string_moves in H as [n Hn]; [|by rewrite E].
    exists (k + (1 + n)). split; [by apply Hmk|].
    unfold lex_string, fail in H'. break; simplify_eq; lia. }
  destruct ((b =b "-"%byte) || is_digit b) eqn:Hd.
  { pose proof H as H'. apply lex_number_moves in H as (n & Hn & Hpos).
    rewrite E in Hpos. specialize (Hpos Hd). exists (k + n). split; [by apply Hmk|].
    unfold lex_number, fail in H'. break; simplify_eq; lia. }
  destruct (is_ident_start b) eqn:Hi.
  { pose proof H as H'. apply lex_ident_moves in H. rewrite E in H.
    simpl in H. unfold is_ident_continue in H at 1. rewrite Hi in H. simpl in H.
    eexists. split; [by apply Hmk|].
    unfold lex_ident, fail in H'. break; simplify_eq; lia. }
  simplify_eq. exists (k + 1). split; [by apply Hmk|lia].
Qed.

Lemma bump_line_moves lx :
  lx_rest lx <> [] ->
  exists n, 0 < n /\ n <= length (lx_rest lx) /\ bump_line lx = advance n lx.
Proof.
  intros Hne. unfold bump_line. destruct (lx_rest lx) as [|b rest] eqn:E; [done|].
  destruct (bump_Some lx b rest E) as [-> Hr]. change (bump_ lx) with (advance 1 lx) in *.
  destruct (b =b NL); [exists 1; simpl; split_and!; try lia; done|].
  rewrite bump_while_eq, Hr, advance_advance.
  pose proof (prefix_while_le (fun c => negb (c =b NL)) rest) as Hle.
  set (m := prefix_while _ rest) in *.
  destruct (decide (m = length rest)) as [->|].
  - exists (1 + length rest). simpl; split_and!; try lia.
    apply bump_None. change (lx_rest (advance (1 + length rest) lx) = []).
    rewrite advance_rest, E. by rewrite drop_ge by (simpl; lia).
  - exists (2 + m). split_and!; [lia|simpl; lia|].
    replace (2 + m) with ((1 + m) + 1) by lia. by rewrite <- (advance_advance 1 (1 + m)).
Qed.

Lemma hook_body_loop_moves fuel open body lx lx' r :
  hook_body_loop malloc_ok fuel open body lx = (lx', r) -> exists n, moves lx lx' n.
Proof.
  revert body lx. induction fuel as [|fuel IH]; intros body lx H; cbn [hook_body_loop] in H;
    unfold fail in H.
  { simplify_eq. exists 0. apply (moves_fail 0); lia. }
  destruct (lx_rest lx) as [|b rest] eqn:E.
  { simplify_eq. exists 0. apply (moves_fail 0); lia. }
  destruct (bump_line_moves lx) as (n & Hn & Hle & Hb); [by rewrite E|].
  rewrite Hb in H. destruct (is_closing_line _).
  - simplify_eq. exists n. by apply moves_advance.
  - destruct (IH _ _ H) as [m Hm]. exists (n + m). eapply moves_trans; [|exact Hm].
    by apply moves_advance.
Qed.

Lemma lexer_hook_body_moves lx lx' r :
  lexer_hook_body malloc_ok lx = (lx', r) -> exists n, moves lx lx' n.
Proof.
  unfold lexer_hook_body, fail. intros H.
  destruct (hook_body_loop _ _ _ _ _) as [lx1 r1] eqn:E.
  apply hook_body_loop_moves in E as [n Hn]. exists n. break; simplify_eq; done.
Qed.
End WithAllocator.
