(* ===== verification/LexSpec.v ===== *)
(** * LexSpec: what the lexer promises

    The theorems on [Lex]: where its cursor is, what a number and a string
    token hold, which byte sequences it takes for characters, and what a hook
    body is. *)
From S2P Require Import Prelude Buf Lex LexFacts.

Local Open Scope nat_scope.

(** ** UTF-8 against the Unicode definition *)

(** A Unicode scalar value: a code point that is not half of a surrogate
    pair. *)
Definition is_scalar (c : Z) : Prop :=
  (0 <= c < 0xd800 \/ 0xe000 <= c <= 0x10ffff)%Z.

(** The encoding of a code point, by the table of RFC 3629. *)
Definition utf8_encode (c : Z) : list Z :=
  (if c <? 0x80 then [c]
   else if c <? 0x800 then [0xc0 + c / 64; 0x80 + c mod 64]
   else if c <? 0x10000 then [0xe0 + c / 4096; 0x80 + c / 64 mod 64; 0x80 + c mod 64]
   else [0xf0 + c / 262144; 0x80 + c / 4096 mod 64; 0x80 + c / 64 mod 64; 0x80 + c mod 64])%Z.

(** The code point a well-formed sequence stands for. *)
Definition utf8_decode (bs : list Z) : Z :=
  match bs with
  | [a] => a
  | [a; b] => (a - 0xc0) * 64 + (b - 0x80)
  | [a; b; c] => (a - 0xe0) * 4096 + (b - 0x80) * 64 + (c - 0x80)
  | [a; b; c; d] => (a - 0xf0) * 262144 + (b - 0x80) * 4096 + (c - 0x80) * 64 + (d - 0x80)
  | _ => 0
  end%Z.

Lemma utf8_valid_decodes bs :
  utf8_is_valid bs = true ->
  is_scalar (utf8_decode (map bz bs)) /\ map bz bs = utf8_encode (utf8_decode (map bz bs)).
Proof.
  unfold utf8_is_valid. destruct bs as [|a [|b [|c [|d [|e bs]]]]]; simpl; try done.
  all: intros H; unfold is_continuation in *; unbool.
  all: repeat match goal with H : context [if ?x then _ else _] |- _ => destruct x eqn:? end; unbool.
  all: pose proof (bz_range a); unfold is_scalar, utf8_encode; split; [lia|].
  all: repeat match goal with
         |- context [if (?x <? ?y)%Z then _ else _] => destruct (Z.ltb_spec x y); try lia end.
  all: repeat f_equal; try zdiv.
Qed.

Lemma utf8_encoding_valid bs c :
  is_scalar c -> map bz bs = utf8_encode c -> utf8_is_valid bs = true.
Proof.
  unfold is_scalar, utf8_encode. intros Hs H.
  repeat match goal with
    H : context [if (?x <? ?y)%Z then _ else _] |- _ => destruct (Z.ltb_spec x y) end.
  all: repeat match goal with
         | H : map bz ?l = _ :: _ |- _ =>
             destruct l as [|? l]; [done|]; simpl in H; injection H as ?Hb H
         | H : map bz ?l = [] |- _ => destruct l; [clear H|done]
         end.
  all: unfold utf8_is_valid, is_continuation; simpl.
  all: repeat match goal with H : bz _ = _ |- _ => rewrite H; clear H end.
  all: repeat (apply andb_true_iff; split).
  all: repeat match goal with
         |- context [if (?x =? ?y)%Z then _ else _] => destruct (Z.eqb_spec x y) end.
  all: repeat (apply andb_true_iff; split).
  all: try apply Z.leb_le; try apply Z.ltb_lt; try zdiv; try done.
Qed.

(** [utf8_is_valid] accepts exactly the encodings of Unicode scalar
    values: no overlong form, no surrogate half, nothing past U+10FFFF and no
    truncated sequence, and every scalar value has an encoding it accepts. *)
Theorem utf8_is_valid_iff (bs : list byte) :
  utf8_is_valid bs = true <-> exists c, is_scalar c /\ map bz bs = utf8_encode c.
Proof.
  split.
  - intros H. exists (utf8_decode (map bz bs)). by apply utf8_valid_decodes.
  - intros (c & Hs & Hc). by apply (utf8_encoding_valid bs c).
Qed.

(** Text: a run of well-formed characters. *)
Definition utf8_text (l : list byte) : Prop :=
  exists chars, l = concat chars /\ Forall (fun c => utf8_is_valid c = true) chars.

Lemma utf8_text_nil : utf8_text [].
Proof. exists []. by split. Qed.

Lemma utf8_text_snoc l c : utf8_text l -> utf8_is_valid c = true -> utf8_text (l ++ c).
Proof.
  intros (cs & -> & Hcs) Hc. exists (cs ++ [c]). rewrite concat_app. simpl. rewrite app_nil_r.
  split; [done|]. apply Forall_app; auto.
Qed.

Lemma utf8_valid_length c : utf8_is_valid c = true -> 1 <= length c <= 4.
Proof.
  unfold utf8_is_valid. destruct c as [|a [|b [|d [|e [|f c]]]]]; simpl; try lia; try done.
Qed.

Lemma utf8_valid_lead lead more :
  utf8_is_valid (lead :: more) = true -> utf8_sequence_length lead = length (lead :: more).
Proof.
  intros H. unfold utf8_is_valid in H. pose proof (bz_range lead).
  unfold utf8_sequence_length. rewrite !Z.shiftr_div_pow2 by lia. change (2 ^ 5)%Z with 32%Z.
  change (2 ^ 4)%Z with 16%Z. change (2 ^ 3)%Z with 8%Z.
  apply andb_true_iff in H as [_ H].
  destruct more as [|b [|d [|e [|f c]]]]; simpl in H |- *; try done.
  all: repeat match type of H with context [if ?x then _ else _] => destruct x eqn:? end; unbool.
  all: destruct (Z.ltb_spec (bz lead) 128); try lia.
  all: destruct (Z.eqb_spec (bz lead / 32) 6); try done; try zdiv.
  all: destruct (Z.eqb_spec (bz lead / 16) 14); try done; try zdiv.
  all: destruct (Z.eqb_spec (bz lead / 8) 30); try done; try zdiv.
Qed.

(** A character of more than one byte holds no ASCII byte. *)
Lemma utf8_valid_high c b : utf8_is_valid c = true -> 1 < length c -> b ∈ c -> (128 <= bz b)%Z.
Proof.
  intros H Hl Hb. destruct c as [|lead more]; [done|]. unfold utf8_is_valid in H.
  apply andb_true_iff in H as [Hc H]. apply elem_of_cons in Hb as [->|Hb].
  - destruct more as [|b2 [|d [|e [|f c]]]]; simpl in H, Hl; try done; try lia.
    all: repeat match type of H with context [if ?x then _ else _] => destruct x eqn:? end; unbool; lia.
  - rewrite forallb_forall in Hc. apply list_elem_of_In, Hc in Hb.
    unfold is_continuation in Hb. unbool. lia.
Qed.

(** ** Strings *)

Section WithAllocator.
Context (malloc_ok : Z -> bool).

Lemma escape_of_valid e c : escape_of e = Some c -> utf8_is_valid [c] = true.
Proof. unfold escape_of. intros. repeat case_match; simplify_eq; done. Qed.

(** What the string loop keeps of its buffer. *)
Definition string_buf_ok (b : buf) : Prop :=
  buf_wf b /\ b_limit b = DEFAULT_LIMIT /\ utf8_text (b_bytes b).

Lemma string_buf_init : string_buf_ok (buf_init 0).
Proof. split_and!; [by apply buf_init_wf|done|apply utf8_text_nil]. Qed.

Lemma string_buf_add b c :
  string_buf_ok b -> utf8_is_valid c = true -> string_buf_ok (buf_add malloc_ok b c).
Proof.
  intros (Hwf & Hl & Ht) Hc. pose proof (utf8_valid_length c Hc).
  destruct (buf_add_spec malloc_ok b c Hwf) as (Hwf' & Hl' & _); [unfold SIZE_MAX, zlen; lia|].
  split_and!; [done|congruence|].
  destruct (buf_add_bytes malloc_ok b c) as [->|[-> _]]; [by apply utf8_text_snoc|done].
Qed.

Lemma lex_string_loop_ok fuel start text lx lx' text' :
  string_buf_ok text -> lex_string_loop malloc_ok fuel start text lx = (lx', inr text') ->
  string_buf_ok text'.
Proof.
  revert text lx. induction fuel as [|fuel IH]; intros text lx Hok H;
    cbn [lex_string_loop] in H; unfold fail in H; [done|].
  repeat (case_match; simplify_eq; try done).
  - eapply IH; [|exact H]. apply string_buf_add; [done|]. by eapply escape_of_valid.
  - eapply IH; [|exact H]. by apply string_buf_add.
Qed.

Lemma take_text_Some b t : take_text malloc_ok b = Some t -> t = b_bytes b.
Proof.
  unfold take_text, buf_failed, buf_take, b_bytes. intros.
  repeat (case_match; simplify_eq; simpl in *); congruence.
Qed.

Lemma take_text_ok b :
  (forall n, malloc_ok n = true) -> b_failed b = false -> take_text malloc_ok b = Some (b_bytes b).
Proof.
  intros Hm Hf. unfold take_text, buf_failed, buf_take, b_bytes. rewrite Hf.
  destruct (b_data b); simpl; [done|]. by rewrite Hm.
Qed.

Lemma lex_string_text lx start lx' k sp :
  lex_string malloc_ok lx start = (lx', inr (Token k sp)) ->
  exists t, k = TOKEN_STRING t /\ utf8_text t /\ (zlen t <= DEFAULT_LIMIT)%Z.
Proof.
  unfold lex_string, fail. intros H. case_match eqn:E. case_match; [done|].
  destruct (take_text malloc_ok _) as [t|] eqn:Ht; [|done]. simplify_eq.
  apply lex_string_loop_ok in E as ((_ & Hlen & _) & Hl & Htxt); [|apply string_buf_init].
  apply take_text_Some in Ht as ->. exists (b_bytes b). unfold b_length in Hlen.
  rewrite Hl in Hlen. done.
Qed.

Lemma lexer_next_string lx lx' t sp :
  lexer_next malloc_ok lx = (lx', inr (Token (TOKEN_STRING t) sp)) ->
  utf8_text t /\ (zlen t <= DEFAULT_LIMIT)%Z.
Proof.
  unfold lexer_next, fail. intros H.
  destruct (peek_byte (skip_trivia lx)) as [b|]; [|done].
  destruct (punctuation b) as [k|] eqn:Hp.
  { simplify_eq. unfold punctuation in Hp. by repeat case_match. }
  destruct (b =b QUOTE).
  { apply lex_string_text in H as (t' & Ht & ?). by simplify_eq. }
  unfold lex_number, lex_ident, fail in H. by repeat (case_match; simplify_eq).
Qed.
End WithAllocator.

(** ** The cursor over a whole parse *)

(** A lexer some sequence of calls can leave: [ncfg_lexer_init], then any run
    of [ncfg_lexer_next] and [ncfg_lexer_hook_body], failures included. *)
Inductive lexer_reaches (malloc_ok : Z -> bool) (text : list byte) : lexer -> Prop :=
| reach_init : lexer_reaches malloc_ok text (lexer_init text)
| reach_next lx lx' r :
    lexer_reaches malloc_ok text lx -> lexer_next malloc_ok lx = (lx', r) ->
    lexer_reaches malloc_ok text lx'
| reach_hook lx lx' r :
    lexer_reaches malloc_ok text lx -> lexer_hook_body malloc_ok lx = (lx', r) ->
    lexer_reaches malloc_ok text lx'.

Lemma lexer_reaches_at malloc_ok text lx : lexer_reaches malloc_ok text lx -> lexer_at text lx.
Proof.
  induction 1 as [|lx lx' r _ IH H|lx lx' r _ IH H].
  - exists []. done.
  - apply lexer_next_moves in H as (n & Hm & _). eauto using moves_lexer_at.
  - apply lexer_hook_body_moves in H as (n & Hm). eauto using moves_lexer_at.
Qed.

(** Whatever calls were made and whichever of them failed, the cursor is
    inside the text, and its line and column are the newlines before it plus
    one and the bytes since the last newline plus one. *)
Theorem lexer_position_exact malloc_ok text lx :
  lexer_reaches malloc_ok text lx ->
  lx_position lx <= length text /\
  lx_rest lx = drop (lx_position lx) text /\
  lx_line lx = 1 + newlines (take (lx_position lx) text) /\
  lx_column lx = column_after 1 (take (lx_position lx) text).
Proof.
  intros (pre & -> & Hp & Hl & Hc)%lexer_reaches_at.
  rewrite Hp, length_app, drop_app_length, take_app_length.
  split_and!; [lia|done|done|done].
Qed.

Lemma lexer_position_exact_witness :
  let text := bytes "a = 1
b" in
  exists lx, lexer_reaches (fun _ => true) text lx /\ lx_line lx = 2 /\ lx_position lx <= length text.
Proof.
  set (text := bytes "a = 1
b").
  set (step := fun lx => fst (lexer_next (fun _ => true) lx)).
  assert (lexer_reaches (fun _ => true) text (step (step (step (step (lexer_init text)))))) as H.
  { do 4 (eapply reach_next; [|apply surjective_pairing]). apply reach_init. }
  exists (step (step (step (step (lexer_init text))))).
  split; [exact H|]. split; [vm_compute; reflexivity|].
  apply (lexer_position_exact (fun _ => true) text _ H).
Defined.

(** ** Numbers *)

Definition signed_value (negative : bool) (ds : list byte) : Z :=
  if negative then (- dec_value 0 ds)%Z else dec_value 0 ds.

Lemma trivia_token b rest :
  is_blank b = false -> b <> "#"%byte -> trivia false (b :: rest) = 0.
Proof. intros Hb Hh. simpl. by rewrite Hb, byte_eqb_neq. Qed.

Lemma is_digit_not b : is_digit b = true ->
  is_blank b = false /\ b <> "#"%byte /\ punctuation b = None /\ (b =b QUOTE) = false /\ b <> "-"%byte.
Proof. destruct b; done. Qed.

(** [lex_number] on a sign and a run of digits that ends there. *)
Lemma lex_number_on lx start (neg : bool) ds suf :
  lx_rest lx = (if neg then ["-"%byte] else []) ++ ds ++ suf ->
  ds <> [] -> Forall (fun b => is_digit b = true) ds ->
  match suf with [] => True | b :: _ => is_digit b = false /\ b <> "."%byte end ->
  exists lx' r, lex_number lx start = (lx', r) /\ lx_rest lx' = suf /\
    (if (INT64_MIN <=? signed_value neg ds)%Z && (signed_value neg ds <=? INT64_MAX)%Z
     then exists sp, r = inr (Token (TOKEN_NUMBER (signed_value neg ds)) sp)
     else exists shown, r = inl (LexNumberTooBig shown)).
Proof.
  intros E Hne Hds Hsuf. unfold lex_number.
  assert (Hneg : bool_decide (peek_byte lx = Some "-"%byte) = neg).
  { unfold peek_byte. rewrite E. destruct neg; [by apply bool_decide_eq_true|].
    apply bool_decide_eq_false. destruct ds as [|d ds']; [done|]. apply Forall_cons in Hds as [Hd _].
    simpl. intros [= ->]. by vm_compute in Hd. }
  rewrite Hneg. set (k := if neg then 1 else 0).
  assert (Hlx : (if neg then bump_ lx else lx) = advance k lx) by (subst k; by destruct neg).
  rewrite Hlx.
  assert (Hr : lx_rest (advance k lx) = ds ++ suf).
  { rewrite advance_rest, E. subst k. by destruct neg. }
  destruct (lex_digits_eq (length (lx_rest (advance k lx)))
     (if neg then INT64_MAX + 1 else INT64_MAX)%Z 0 false (advance k lx))
    as (v & -> & Hv); [lia|unfold INT64_MAX; destruct neg; lia|unfold INT64_MAX; destruct neg; lia|].
  assert (Hpw : prefix_while is_digit (ds ++ suf) = length ds)
    by (apply prefix_while_app; [done|destruct suf; [done|by destruct Hsuf]]).
  rewrite Hr, Hpw in *.
  rewrite take_app_length in Hv |- *. rewrite orb_false_l in *.
  assert (0 < length ds) by (destruct ds; simpl; [done|lia]).
  rewrite advance_position by (rewrite Hr, length_app; lia).
  rewrite (proj2 (Nat.eqb_neq _ _)) by lia.
  assert (Hrest : lx_rest (advance (length ds) (advance k lx)) = suf).
  { by rewrite advance_rest, Hr, drop_app_length. }
  rewrite bool_decide_eq_false_2.
  2:{ unfold peek_byte. rewrite Hrest. destruct suf; simpl; [done|].
      destruct Hsuf. congruence. }
  pose proof (dec_value_mono 0 ds ltac:(lia) Hds) as Hpos.
  unfold fail, signed_value, INT64_MIN, INT64_MAX in *.
  destruct (Z.ltb_spec (if neg then 2 ^ 63 - 1 + 1 else 2 ^ 63 - 1)%Z (dec_value 0 ds)) as [Hlt|Hge].
  - eexists _, _. split; [reflexivity|]. split; [done|].
    replace (_ && _) with false by (symmetry; destruct neg; lia). eauto.
  - eexists _, _. split; [reflexivity|]. split; [done|]. rewrite (Hv eq_refl).
    replace (_ && _) with true by (symmetry; destruct neg; lia).
    eexists. do 4 f_equal. destruct neg; simpl; [|done].
    destruct (Z.eqb_spec (dec_value 0 ds) 0); lia.
Qed.

(** A run of digits with an optional sign is the [int64_t] it spells, and
    is refused when, and only when, that number is outside [int64_t]'s range;
    no intermediate step wraps. *)
Theorem lexer_next_number malloc_ok lx (neg : bool) ds suf :
  lx_rest lx = (if neg then ["-"%byte] else []) ++ ds ++ suf ->
  ds <> [] -> Forall (fun b => is_digit b = true) ds ->
  match suf with [] => True | b :: _ => is_digit b = false /\ b <> "."%byte end ->
  exists lx' r, lexer_next malloc_ok lx = (lx', r) /\ lx_rest lx' = suf /\
    (if (INT64_MIN <=? signed_value neg ds)%Z && (signed_value neg ds <=? INT64_MAX)%Z
     then exists sp, r = inr (Token (TOKEN_NUMBER (signed_value neg ds)) sp)
     else exists shown, r = inl (LexNumberTooBig shown)).
Proof.
  intros E Hne Hds Hsuf. unfold lexer_next.
  assert (exists b rest, lx_rest lx = b :: rest /\ trivia false (b :: rest) = 0 /\
    punctuation b = None /\ (b =b QUOTE) = false /\ ((b =b "-"%byte) || is_digit b) = true)
    as (b & rest & Hb & Ht & Hp & Hq & Hd).
  { rewrite E. destruct neg; simpl; [by eexists _, _|].
    destruct ds as [|d ds']; [done|]. apply Forall_cons in Hds as [Hd _].
    pose proof (is_digit_not d Hd) as (? & ? & ? & ? & ?). exists d, (ds' ++ suf).
    split_and!; try done; [by apply trivia_token|by rewrite Hd, orb_true_r]. }
  rewrite skip_trivia_eq, Hb, Ht. change (advance 0 lx) with lx.
  assert (peek_byte lx = Some b) as -> by (unfold peek_byte; by rewrite Hb).
  cbv zeta iota beta. rewrite Hp, Hq, Hd.
  by apply (lex_number_on lx (span_here lx) neg ds suf).
Qed.

Lemma lexer_next_number_witness :
  exists lx' sp, lexer_next (fun _ => true) (lexer_init (bytes "-9223372036854775808;"))
    = (lx', inr (Token (TOKEN_NUMBER INT64_MIN) sp)).
Proof.
  destruct (lexer_next_number (fun _ => true) (lexer_init (bytes "-9223372036854775808;"))
    true (bytes "9223372036854775808") (bytes ";")) as (lx' & r & H & _ & Hr).
  - reflexivity.
  - discriminate.
  - repeat constructor.
  - split; [reflexivity|discriminate].
  - change (exists sp, r = inr (Token (TOKEN_NUMBER INT64_MIN) sp)) in Hr.
    destruct Hr as [sp ->]. exists lx', sp. exact H.
Defined.

(** ** Hook bodies *)

(** A text cut into lines, each with the newline that ends it. *)
Fixpoint split_lines (l : list byte) : list (list byte) :=
  match l with
  | [] => []
  | b :: l' =>
      if b =b NL then [b] :: split_lines l'
      else
        match split_lines l' with
        | [] => [[b]]
        | line :: lines => (b :: line) :: lines
        end
  end.

(** The lines before the first closing one, and the text after it. *)
Fixpoint hook_spec (lines : list (list byte)) : option (list byte * list byte) :=
  match lines with
  | [] => None
  | line :: lines' =>
      if is_closing_line line then Some ([], concat lines')
      else
        match hook_spec lines' with
        | Some (body, rest) => Some (line ++ body, rest)
        | None => None
        end
  end.

Lemma concat_split_lines l : concat (split_lines l) = l.
Proof.
  induction l as [|b l IH]; simpl; [done|].
  destruct (b =b NL); simpl; [by rewrite IH|].
  destruct (split_lines l) as [|line lines]; simpl in *; by rewrite <- IH.
Qed.

Lemma split_lines_nil l : split_lines l = [] -> l = [].
Proof. intros H. by rewrite <- (concat_split_lines l), H. Qed.

(** [bump_line] takes the first line. *)
Lemma bump_line_eq lx line lines :
  split_lines (lx_rest lx) = line :: lines ->
  bump_line lx = advance (length line) lx /\ split_lines (drop (length line) (lx_rest lx)) = lines.
Proof.
  intros H. unfold bump_line. destruct (lx_rest lx) as [|b rest] eqn:E; [done|].
  destruct (bump_Some lx b rest E) as [-> Hr]. change (bump_ lx) with (advance 1 lx) in *.
  simpl in H. destruct (b =b NL) eqn:Hb; [injection H as <- <-; simpl; by rewrite drop_0|].
  rewrite bump_while_eq, Hr, advance_advance.
  assert (forall l : list byte, match split_lines l with
      | [] => l = []
      | line :: lines =>
          let m := prefix_while (fun c => negb (c =b NL)) l in
          (length line = S m \/ length line = m /\ m = length l) /\
          split_lines (drop (length line) l) = lines
      end) as Hl.
  { clear. induction l as [|c l IH]; simpl; [done|].
    destruct (c =b NL); simpl; [rewrite drop_0; auto|].
    destruct (split_lines l) as [|ln lns]; [by subst; simpl; auto|].
    simpl in *. destruct IH as [[->|[-> ->]] ?]; auto. }
  specialize (Hl rest). destruct (split_lines rest) as [|ln lns]; injection H as <- <-.
  { rewrite Hl in *. split; [|done]. apply bump_None. by rewrite advance_rest, E. }
  destruct Hl as [Hlen Hsp]. split; [|done]. cbn [length].
  destruct Hlen as [->|[-> Hm]].
  - set (m := prefix_while _ _). replace (S (S m)) with (1 + m + 1) by lia.
    by rewrite <- (advance_advance 1 (1 + m)).
  - apply bump_None. rewrite advance_rest, E. by rewrite drop_ge by (simpl; lia).
Qed.

Section HookBody.
Context (malloc_ok : Z -> bool) (Hmalloc : forall n, malloc_ok n = true).

Lemma hook_body_loop_eq fuel open body lx :
  length (lx_rest lx) < fuel -> buf_wf body -> b_failed body = false ->
  (b_length body + zlen (lx_rest lx) <= b_limit body)%Z ->
  (b_limit body <= SIZE_MAX)%Z ->
  match hook_spec (split_lines (lx_rest lx)) with
  | Some (more, rest) =>
      exists lx' body', hook_body_loop malloc_ok fuel open body lx = (lx', inr body') /\
        lx_rest lx' = rest /\ b_failed body' = false /\ b_bytes body' = b_bytes body ++ more
  | None =>
      exists lx', hook_body_loop malloc_ok fuel open body lx = (lx', inl LexUnterminatedHook) /\
        lx_rest lx' = []
  end.
Proof.
  revert body lx. induction fuel as [|fuel IH]; intros body lx Hfuel Hwf Hf Hfit Hmax; [lia|].
  destruct (split_lines (lx_rest lx)) as [|line lines] eqn:Hs.
  { apply split_lines_nil in Hs. cbn [hook_spec hook_body_loop]. rewrite Hs. by eexists. }
  destruct (bump_line_eq lx line lines Hs) as [Hb Hlines].
  pose proof (concat_split_lines (lx_rest lx)) as Hcat. rewrite Hs in Hcat. simpl in Hcat.
  assert (Hne : line <> []).
  { destruct (lx_rest lx); simpl in Hs; [done|]. repeat case_match; simplify_eq; done. }
  assert (Hlen : 0 < length line) by (destruct line; simpl; [done|lia]).
  assert (Hline : consumed lx (advance (length line) lx) = line).
  { rewrite consumed_advance; rewrite <- Hcat; [by rewrite take_app_length|rewrite length_app; lia]. }
  assert (Hrest : lx_rest (advance (length line) lx) = concat lines).
  { by rewrite advance_rest, <- Hcat, drop_app_length. }
  cbn [hook_spec hook_body_loop]. destruct (lx_rest lx) as [|b0 rest0] eqn:E; [done|].
  rewrite <- E in *. rewrite Hb, Hline.
  destruct (is_closing_line line).
  { eexists _, _. split_and!; [reflexivity|done|done|by rewrite app_nil_r]. }
  rewrite <- Hcat in Hfit. rewrite zlen_app in Hfit. pose proof (zlen_nonneg (concat lines)).
  pose proof (zlen_nonneg (b_bytes body)) as Hnn. fold (b_length body) in Hnn.
  assert (Hf' : b_failed (buf_add malloc_ok body line) = false)
    by (apply buf_add_succeeds; [done|done|done|lia]).
  destruct (buf_add_spec malloc_ok body line Hwf) as (Hwf' & Hlim' & Hok & _); [lia|].
  destruct (Hok Hf') as (_ & Hbytes & _).
  specialize (IH (buf_add malloc_ok body line) (advance (length line) lx)).
  rewrite Hrest, <- Hlines in IH.
  assert (Hsame : split_lines (concat lines) = lines) by (rewrite <- Hrest, advance_rest; done).
  rewrite Hlines, Hsame in IH. rewrite <- Hcat, length_app in Hfuel.
  assert (Hl' : b_length (buf_add malloc_ok body line) = (b_length body + zlen line)%Z)
    by (unfold b_length; by rewrite Hbytes, zlen_app).
  rewrite Hlim', Hl' in IH. specialize (IH ltac:(lia) Hwf' Hf' ltac:(lia) Hmax).
  destruct (hook_spec lines) as [[more rest]|]; [|done].
  destruct IH as (lx' & body' & -> & ? & ? & Hbb). exists lx', body'.
  split_and!; try done. by rewrite Hbb, Hbytes, app_assoc.
Qed.
End HookBody.

(** A hook body is exactly the lines before the first line that is a
    closing brace and nothing else, byte for byte, and the cursor is left
    after that line; with no such line the whole text is consumed and the
    hook is reported unterminated. *)
Theorem lexer_hook_body_spec malloc_ok lx :
  (forall n, malloc_ok n = true) -> (zlen (lx_rest lx) <= DEFAULT_LIMIT)%Z ->
  match hook_spec (split_lines (lx_rest lx)) with
  | Some (body, rest) => exists lx', lexer_hook_body malloc_ok lx = (lx', inr body) /\ lx_rest lx' = rest
  | None => exists lx', lexer_hook_body malloc_ok lx = (lx', inl LexUnterminatedHook) /\ lx_rest lx' = []
  end.
Proof.
  intros Hm Hfit. unfold lexer_hook_body.
  pose proof (hook_body_loop_eq malloc_ok Hm (S (length (lx_rest lx))) (span_here lx) (buf_init 0) lx
    ltac:(lia) ltac:(by apply buf_init_wf) eq_refl Hfit ltac:(done)) as H.
  destruct (hook_spec _) as [[more rest]|].
  - destruct H as (lx' & body' & -> & Hr & Hf & Hb). exists lx'.
    rewrite take_text_ok by done. by rewrite Hb.
  - destruct H as (lx' & -> & Hr). by exists lx'.
Qed.

Lemma lexer_hook_body_spec_witness :
  exists lx', lexer_hook_body (fun _ => true) (lexer_init (bytes "ip link
	}
x"))
    = (lx', inr (bytes "ip link
")) /\ lx_rest lx' = bytes "x".
Proof.
  apply (lexer_hook_body_spec (fun _ => true) (lexer_init (bytes "ip link
	}
x"))).
  - reflexivity.
  - vm_compute; discriminate.
Defined.
