(* ===== verification/Render.v ===== *)
(** * Render: writing values the lexer reads back, [c/src/compile/render.c]

    The escape loop, the quoted string, the secret reference and the block
    label of the renderer behind [ncfg profile save], and their round trips
    through [Lex]. A [const char *] is the bytes before its NUL. *)
From S2P Require Import Prelude Buf Lex LexFacts LexSpec.

Local Open Scope nat_scope.

Section Render.
Context (malloc_ok : Z -> bool).

(** [add_escaped]: up to the terminator, a backslash before a backslash or
    a quote. *)
Fixpoint add_escaped (out : buf) (value : list byte) : buf :=
  match value with
  | [] => out
  | b :: value' =>
      if b =b x00 then out
      else
        let out1 :=
          if (b =b BACKSLASH) || (b =b QUOTE) then buf_add_char malloc_ok out BACKSLASH else out in
        add_escaped (buf_add_char malloc_ok out1 b) value'
  end.

(** [ncfg_render_quote]. *)
Definition render_quote (out : buf) (value : list byte) : buf :=
  buf_add_char malloc_ok (add_escaped (buf_add_char malloc_ok out QUOTE) value) QUOTE.

(** The provider of a secret reference, in the order of the prefixes. *)
Inductive secret_provider :=
| SECRET_FILE | SECRET_KEYRING | SECRET_PASS | SECRET_EXEC | SECRET_ESTATE.

Definition secret_prefix (p : secret_provider) : list byte :=
  match p with
  | SECRET_FILE => bytes "@secret:"
  | SECRET_KEYRING => bytes "@secret:keyring:"
  | SECRET_PASS => bytes "@secret:pass:"
  | SECRET_EXEC => bytes "@secret:exec:"
  | SECRET_ESTATE => bytes "@secret:estate:"
  end.

(** [ncfg_render_quote_secret]. *)
Definition render_quote_secret (out : buf) (provider : secret_provider) (name : list byte) : buf :=
  let out1 := buf_add malloc_ok (buf_add_char malloc_ok out QUOTE) (secret_prefix provider) in
  buf_add_char malloc_ok (add_escaped out1 name) QUOTE.

(** The test of [ncfg_render_label]: may this name be written bare? *)
Definition label_bare (name : list byte) : bool :=
  match name with
  | [] => false
  | b :: more => negb (b =b x00) && is_ident_start b && forallb is_ident_continue more
  end.

(** [ncfg_render_label]. *)
Definition render_label (out : buf) (name : list byte) : buf :=
  if label_bare name then buf_add malloc_ok out name else render_quote out name.

(** ** What is written *)

Definition escape_byte (b : byte) : list byte :=
  if (b =b BACKSLASH) || (b =b QUOTE) then [BACKSLASH; b] else [b].

Definition escaped (value : list byte) : list byte := concat (map escape_byte value).

Lemma escaped_app a b : escaped (a ++ b) = escaped a ++ escaped b.
Proof. unfold escaped. by rewrite map_app, concat_app. Qed.

Lemma zlen_escaped value : (zlen (escaped value) <= 2 * zlen value)%Z.
Proof.
  induction value as [|b value IH]; [done|].
  change (escaped (b :: value)) with (escape_byte b ++ escaped value).
  rewrite zlen_app, zlen_cons. unfold escape_byte. destruct (_ || _); rewrite !zlen_cons;
    change (zlen (@nil byte)) with 0%Z; lia.
Qed.

Context (Hmalloc : forall n, malloc_ok n = true).

(** [b] holds [l] and has not failed. *)
Definition holds (b : buf) (l : list byte) : Prop :=
  buf_wf b /\ b_limit b = DEFAULT_LIMIT /\ b_failed b = false /\ b_bytes b = l.

Lemma holds_init : holds (buf_init 0) [].
Proof. split_and!; try done. Qed.

Lemma holds_add b l bs :
  holds b l -> (zlen l + zlen bs <= DEFAULT_LIMIT)%Z -> holds (buf_add malloc_ok b bs) (l ++ bs).
Proof.
  intros (Hwf & Hl & Hf & Hb) Hfit.
  assert (Hlen : b_length b = zlen l) by (unfold b_length; by rewrite Hb).
  pose proof (zlen_nonneg l).
  destruct (buf_add_spec malloc_ok b bs Hwf) as (Hwf' & Hl' & Hok & _).
  { unfold DEFAULT_LIMIT, SIZE_MAX in *. lia. }
  assert (Hf' : b_failed (buf_add malloc_ok b bs) = false)
    by (apply buf_add_succeeds; try done; lia).
  destruct (Hok Hf') as (_ & Hbb & _). split_and!; [done|congruence|done|by rewrite Hbb, Hb].
Qed.

Lemma holds_escaped b l value :
  holds b l -> x00 ∉ value -> (zlen l + zlen (escaped value) <= DEFAULT_LIMIT)%Z ->
  holds (add_escaped b value) (l ++ escaped value).
Proof.
  revert b l. induction value as [|c value IH]; intros b l Hb Hn Hfit.
  { by rewrite app_nil_r. }
  apply not_elem_of_cons in Hn as [Hc Hn]. cbn [add_escaped]. rewrite byte_eqb_neq by congruence.
  change (escaped (c :: value)) with (escape_byte c ++ escaped value) in *.
  rewrite zlen_app in Hfit. pose proof (zlen_nonneg (escaped value)). rewrite app_assoc.
  apply IH; [|done|rewrite zlen_app; lia].
  unfold escape_byte in *. destruct (_ || _); unfold buf_add_char.
  - change [BACKSLASH; c] with ([BACKSLASH] ++ [c]) in *. rewrite zlen_app in *.
    pose proof (zlen_nonneg [c]). rewrite app_assoc.
    apply holds_add; [apply holds_add; [done|lia]|rewrite zlen_app; lia].
  - apply holds_add; [done|lia].
Qed.

Lemma render_quote_text value :
  x00 ∉ value -> (2 * zlen value + 2 <= DEFAULT_LIMIT)%Z ->
  buf_text (render_quote (buf_init 0) value) = QUOTE :: escaped value ++ [QUOTE].
Proof.
  intros Hn Hfit. pose proof (zlen_escaped value). unfold render_quote.
  assert (holds (buf_add_char malloc_ok (add_escaped (buf_add_char malloc_ok (buf_init 0) QUOTE) value) QUOTE)
    (([] ++ [QUOTE]) ++ escaped value ++ [QUOTE])) as (_ & _ & Hf & Hb).
  { rewrite app_assoc. apply holds_add; [apply holds_escaped; [apply holds_add|done|]|].
    - apply holds_init.
    - done.
    - simpl. change (zlen [QUOTE]) with 1%Z. lia.
    - rewrite zlen_app. simpl. change (zlen [QUOTE]) with 1%Z. lia. }
  unfold buf_text. rewrite Hf. exact Hb.
Qed.

(** ** Reading it back *)

Lemma escape_byte_high c : (128 <= bz c)%Z -> escape_byte c = [c].
Proof. unfold escape_byte. by destruct c. Qed.

Lemma escaped_high cs : (forall c, c ∈ cs -> 128 <= bz c)%Z -> escaped cs = cs.
Proof.
  induction cs as [|c cs IH]; intros H; [done|].
  change (escaped (c :: cs)) with (escape_byte c ++ escaped cs).
  rewrite escape_byte_high, IH; [done| |]; intros; apply H; rewrite elem_of_cons; auto.
Qed.

(** One character through the string loop. *)
Lemma lex_string_loop_char fuel start text lx c tl :
  utf8_is_valid c = true -> lx_rest lx = escaped c ++ tl ->
  exists n, lex_string_loop malloc_ok (S fuel) start text lx =
    lex_string_loop malloc_ok fuel start (buf_add malloc_ok text c) (advance n lx) /\
    n = length (escaped c).
Proof.
  intros Hv Hr. cbn [lex_string_loop].
  destruct c as [|lead more]; [done|].
  pose proof (utf8_valid_lead lead more Hv) as Hlead.
  destruct more as [|m more'] eqn:Hmore.
  - change (escaped [lead]) with (escape_byte lead ++ []) in *. rewrite app_nil_r in *.
    unfold escape_byte in *. destruct ((lead =b BACKSLASH) || (lead =b QUOTE)) eqn:He.
    + simpl in Hr. destruct (bump_Some lx _ _ Hr) as [-> Hr1].
      destruct (bump_Some _ _ _ Hr1) as [Hb2 _]. exists 2. split; [|done].
      change (BACKSLASH =b QUOTE) with false. change (BACKSLASH =b BACKSLASH) with true. cbv iota.
      rewrite Hb2. change (bump_ (bump_ lx)) with (advance 2 lx).
      unfold escape_of. apply orb_true_iff in He.
      destruct (byte_eqb_spec lead QUOTE) as [->|]; [done|].
      destruct (byte_eqb_spec lead BACKSLASH) as [->|]; [done|]. by destruct He.
    + simpl in Hr. destruct (bump_Some lx _ _ Hr) as [-> Hr1]. exists 1. split; [|done].
      apply orb_false_iff in He as [-> ->]. rewrite Hlead. simpl bump_n. cbv iota beta. by rewrite Hv.
  - assert (Hhigh : forall b, b ∈ lead :: m :: more' -> (128 <= bz b)%Z).
    { intros b Hb. eapply utf8_valid_high; [exact Hv|simpl; lia|done]. }
    rewrite escaped_high in * by done. simpl in Hr.
    destruct (bump_Some lx _ _ Hr) as [-> Hr1].
    assert (forall q, (bz q < 128)%Z -> (lead =b q) = false) as Hne.
    { intros q Hq. apply byte_eqb_neq. intros ->. specialize (Hhigh q ltac:(rewrite elem_of_cons; auto)). lia. }
    rewrite !Hne by done. rewrite Hlead. cbn [length].
    replace (S (S (length more')) - 1) with (length (m :: more')) by (simpl; lia).
    rewrite app_comm_cons in Hr1.
    rewrite bump_n_eq by (rewrite Hr1, length_app; lia).
    rewrite Hr1, take_app_length.
    rewrite Hv. change (bump_ lx) with (advance 1 lx). rewrite advance_advance.
    eexists. split; [reflexivity|done].
Qed.

Lemma lex_string_loop_text fuel start text l chars lx suf :
  Forall (fun c => utf8_is_valid c = true) chars ->
  lx_rest lx = escaped (concat chars) ++ QUOTE :: suf ->
  length chars < fuel -> holds text l -> (zlen l + zlen (concat chars) <= DEFAULT_LIMIT)%Z ->
  exists lx' text', lex_string_loop malloc_ok fuel start text lx = (lx', inr text') /\
    lx_rest lx' = suf /\ holds text' (l ++ concat chars).
Proof.
  intros Hcs. revert fuel text l lx.
  induction Hcs as [|c chars Hc _ IH]; intros fuel text l lx Hr Hfuel Hb Hfit;
    (destruct fuel as [|fuel]; [simpl in Hfuel; lia|]).
  { simpl in Hr. cbn [lex_string_loop]. destruct (bump_Some lx _ _ Hr) as [-> Hr'].
    rewrite byte_eqb_refl. eexists _, _. split_and!; [done|done|]. by rewrite app_nil_r. }
  simpl in Hr, Hfit. rewrite escaped_app, <- app_assoc in Hr. rewrite zlen_app in Hfit.
  destruct (lex_string_loop_char fuel start text lx c _ Hc Hr) as (n & -> & ->).
  pose proof (zlen_nonneg (concat chars)).
  destruct (IH fuel (buf_add malloc_ok text c) (l ++ c) (advance (length (escaped c)) lx))
    as (lx' & text' & -> & ? & ?).
  - by rewrite advance_rest, Hr, drop_app_length.
  - simpl in Hfuel. lia.
  - apply holds_add; [done|lia].
  - rewrite zlen_app. lia.
  - eexists _, _. split_and!; [done|done|]. simpl. by rewrite app_assoc.
Qed.
End Render.

Lemma lex_string_escaped malloc_ok lx start chars suf :
  (forall n, malloc_ok n = true) -> Forall (fun c => utf8_is_valid c = true) chars ->
  (zlen (concat chars) <= DEFAULT_LIMIT)%Z ->
  lx_rest lx = QUOTE :: escaped (concat chars) ++ QUOTE :: suf ->
  exists lx' sp, lex_string malloc_ok lx start = (lx', inr (Token (TOKEN_STRING (concat chars)) sp)) /\
    lx_rest lx' = suf.
Proof.
  intros Hm Hcs Hfit Hr. unfold lex_string.
  destruct (bump_Some lx _ _ Hr) as [_ Hr1]. rewrite Hr1.
  assert (Hlen : length chars <= length (escaped (concat chars))).
  { clear -Hcs. induction Hcs as [|c chars Hc _ IH]; simpl; [lia|].
    rewrite escaped_app, length_app. pose proof (utf8_valid_length c Hc).
    assert (length c <= length (escaped c)); [|lia].
    clear. induction c as [|b c IH]; [done|].
    change (escaped (b :: c)) with (escape_byte b ++ escaped c). rewrite length_app.
    unfold escape_byte. destruct (_ || _); simpl; lia. }
  destruct (lex_string_loop_text malloc_ok Hm
    (S (length (escaped (concat chars) ++ QUOTE :: suf))) start (buf_init 0) [] chars (bump_ lx) suf)
    as (lx' & text' & -> & Hrest & (_ & _ & Hf & Hb)); try done.
  - rewrite length_app. simpl. lia.
  - rewrite take_text_ok by done. rewrite Hb. eauto.
Qed.

Lemma lexer_next_quoted malloc_ok lx value suf :
  (forall n, malloc_ok n = true) -> utf8_text value -> (zlen value <= DEFAULT_LIMIT)%Z ->
  lx_rest lx = QUOTE :: escaped value ++ QUOTE :: suf ->
  exists lx' sp, lexer_next malloc_ok lx = (lx', inr (Token (TOKEN_STRING value) sp)) /\ lx_rest lx' = suf.
Proof.
  intros Hm (chars & -> & Hcs) Hfit Hr. unfold lexer_next. rewrite skip_trivia_eq, Hr.
  change (advance _ lx) with lx.
  assert (peek_byte lx = Some QUOTE) as -> by (unfold peek_byte; by rewrite Hr).
  change (punctuation QUOTE) with (@None token_kind). change (QUOTE =b QUOTE) with true.
  cbv zeta iota beta. by apply lex_string_escaped.
Qed.

(** What [ncfg_render_quote] writes, the lexer reads back as the same
    string: for every text value with no NUL that fits the buffer, whatever
    follows the closing quote, the token is a string holding exactly the
    value and the cursor is left right after it. *)
Theorem render_quote_roundtrip malloc_ok lx value suf :
  (forall n, malloc_ok n = true) -> utf8_text value -> x00 ∉ value ->
  (2 * zlen value + 2 <= DEFAULT_LIMIT)%Z ->
  lx_rest lx = buf_text (render_quote malloc_ok (buf_init 0) value) ++ suf ->
  exists lx' sp, lexer_next malloc_ok lx = (lx', inr (Token (TOKEN_STRING value) sp)) /\ lx_rest lx' = suf.
Proof.
  intros Hm Ht Hn Hfit Hr. rewrite render_quote_text in Hr by done.
  pose proof (zlen_nonneg value).
  apply lexer_next_quoted; [done|done|lia|]. by rewrite Hr, <- app_comm_cons, <- app_assoc.
Qed.

Lemma render_quote_roundtrip_witness :
  exists lx' sp, lexer_next (fun _ => true)
      (lexer_init (buf_text (render_quote (fun _ => true) (buf_init 0) [BACKSLASH; QUOTE; x41]) ++ bytes " {"))
    = (lx', inr (Token (TOKEN_STRING [BACKSLASH; QUOTE; x41]) sp)) /\ lx_rest lx' = bytes " {".
Proof.
  apply (render_quote_roundtrip (fun _ => true)
    (lexer_init (buf_text (render_quote (fun _ => true) (buf_init 0) [BACKSLASH; QUOTE; x41]) ++ bytes " {"))
    [BACKSLASH; QUOTE; x41] (bytes " {")).
  - reflexivity.
  - exists [[BACKSLASH]; [QUOTE]; [x41]]. split; [reflexivity|]. repeat constructor.
  - apply (bool_decide_eq_true_1 (x00 ∉ [BACKSLASH; QUOTE; x41])). vm_compute. reflexivity.
  - vm_compute. discriminate.
  - reflexivity.
Defined.

(** A word the lexer turns into a boolean rather than an identifier. *)
Definition is_bool_word (name : list byte) : bool :=
  bytes_eqb name (bytes "true") || bytes_eqb name (bytes "false").

(** The label [parse_block_after_head] takes from a token. *)
Definition label_of (k : token_kind) : option (list byte) :=
  match k with
  | TOKEN_IDENT text | TOKEN_STRING text => Some text
  | _ => None
  end.

Lemma ident_start_not b : is_ident_start b = true ->
  is_blank b = false /\ b <> "#"%byte /\ punctuation b = None /\ (b =b QUOTE) = false
  /\ ((b =b "-"%byte) || is_digit b) = false /\ is_ident_continue b = true.
Proof. destruct b; done. Qed.

Lemma lexer_next_ident malloc_ok lx name suf :
  label_bare name = true -> lx_rest lx = name ++ suf ->
  match suf with [] => True | b :: _ => is_ident_continue b = false end ->
  exists lx' r, lexer_next malloc_ok lx = (lx', r) /\ lx_rest lx' = suf /\
    exists sp, r = if bytes_eqb name (bytes "true") then inr (Token (TOKEN_BOOL true) sp)
        else if bytes_eqb name (bytes "false") then inr (Token (TOKEN_BOOL false) sp)
        else if malloc_ok (zlen name + 1)%Z then inr (Token (TOKEN_IDENT name) sp)
        else inl LexOutOfMemory.
Proof.
  intros Hbare Hr Hsuf. destruct name as [|b more]; [done|]. unfold label_bare in Hbare. unbool.
  destruct (ident_start_not b) as (Hb & Hh & Hp & Hq & Hd & Hc); [done|].
  assert (Hall : Forall (fun c => is_ident_continue c = true) (b :: more)).
  { constructor; [done|]. apply Forall_forall. intros x Hx. eapply forallb_forall; [eassumption|].
    by apply list_elem_of_In. }
  unfold lexer_next. rewrite skip_trivia_eq, Hr. rewrite <- app_comm_cons, trivia_token by done.
  change (advance 0 lx) with lx.
  assert (peek_byte lx = Some b) as -> by (unfold peek_byte; by rewrite Hr).
  cbv zeta iota beta. rewrite Hp, Hq, Hd. rewrite H1.
  unfold lex_ident. rewrite bump_while_eq, Hr, prefix_while_app by done.
  rewrite consumed_advance, Hr, take_app_length by (rewrite Hr, length_app; lia).
  unfold fail. repeat case_match; eexists _, _; (split; [reflexivity|]);
    (split; [unfold set_error_span; cbn [lx_rest]; by rewrite advance_rest, Hr, drop_app_length|]); first [by eexists | by exists (span_here lx)].
Qed.

(** A block label written by [ncfg_render_label] is read back as the same
    label: bare when the lexer's own predicates allow it and quoted when they
    do not, for every name except the two words the lexer keeps for
    booleans. *)
Theorem render_label_roundtrip malloc_ok lx name suf :
  (forall n, malloc_ok n = true) -> utf8_text name -> x00 ∉ name ->
  (2 * zlen name + 2 <= DEFAULT_LIMIT)%Z -> is_bool_word name = false ->
  lx_rest lx = buf_text (render_label malloc_ok (buf_init 0) name) ++ bytes " {" ++ suf ->
  exists lx' tok, lexer_next malloc_ok lx = (lx', inr tok) /\
    label_of (tk_kind tok) = Some name /\ lx_rest lx' = bytes " {" ++ suf.
Proof.
  intros Hm Ht Hn Hfit Hw Hr. unfold is_bool_word in Hw. unbool. unfold render_label in Hr.
  pose proof (zlen_nonneg name).
  destruct (label_bare name) eqn:Hbare.
  - assert (holds (buf_add malloc_ok (buf_init 0) name) ([] ++ name)) as (_ & _ & Hf & Hb).
    { apply holds_add; [done|apply holds_init|]. change (zlen (@nil byte)) with 0%Z. lia. }
    unfold buf_text in Hr. rewrite Hf in Hr. fold (b_bytes (buf_add malloc_ok (buf_init 0) name)) in Hr.
    rewrite Hb in Hr.
    destruct (lexer_next_ident malloc_ok lx name (bytes " {" ++ suf)) as (lx' & r & Hl & Hrest & sp & Hk);
      [done|done|done|].
    rewrite H, H0, Hm in Hk. subst r. by eexists _, _.
  - rewrite render_quote_text in Hr by done.
    destruct (lexer_next_quoted malloc_ok lx name (bytes " {" ++ suf)) as (lx' & sp & Hl & Hrest);
      [done|done|lia| |by eexists _, _].
    by rewrite Hr, <- app_comm_cons, <- app_assoc.
Qed.

Lemma render_label_roundtrip_witness :
  exists lx' tok, lexer_next (fun _ => true)
      (lexer_init (buf_text (render_label (fun _ => true) (buf_init 0) (bytes "4g0")) ++ bytes " {" ++ []))
    = (lx', inr tok) /\ label_of (tk_kind tok) = Some (bytes "4g0") /\ lx_rest lx' = bytes " {" ++ [].
Proof.
  apply (render_label_roundtrip (fun _ => true)
    (lexer_init (buf_text (render_label (fun _ => true) (buf_init 0) (bytes "4g0")) ++ bytes " {" ++ []))
    (bytes "4g0") []).
  - reflexivity.
  - exists [[x34]; [x67]; [x30]]. split; [reflexivity|]. repeat constructor.
  - apply (bool_decide_eq_true_1 (x00 ∉ bytes "4g0")). vm_compute. reflexivity.
  - vm_compute. discriminate.
  - reflexivity.
  - reflexivity.
Defined.

(** The two exceptions are real. A device named [true] or [false] is
    written bare by [ncfg_render_label], and the lexer reads a boolean, which
    no block takes as a label: the renderer does not quote a name the lexer
    will not read back as an identifier. *)
Theorem render_label_bool_word malloc_ok lx name suf :
  (forall n, malloc_ok n = true) -> is_bool_word name = true ->
  lx_rest lx = buf_text (render_label malloc_ok (buf_init 0) name) ++ bytes " {" ++ suf ->
  exists lx' tok, lexer_next malloc_ok lx = (lx', inr tok) /\ label_of (tk_kind tok) = None.
Proof.
  intros Hm Hw Hr.
  assert (label_bare name = true /\ buf_text (render_label malloc_ok (buf_init 0) name) = name) as [Hb Ht].
  { unfold is_bool_word in Hw. apply orb_true_iff in Hw as [Hw%bytes_eqb_true|Hw%bytes_eqb_true];
      subst; (split; [done|]); unfold render_label; simpl; unfold buf_add, reserve; simpl; by rewrite Hm. }
  rewrite Ht in Hr.
  destruct (lexer_next_ident malloc_ok lx name (bytes " {" ++ suf)) as (lx' & r & Hl & _ & sp & Hk);
    [done|done|done|].
  exists lx'. unfold is_bool_word in Hw.
  destruct (bytes_eqb name (bytes "true")); [subst; by eexists|].
  simpl in Hw. rewrite Hw in Hk. subst; by eexists.
Qed.

Lemma render_label_bool_word_witness :
  exists lx' tok, lexer_next (fun _ => true)
      (lexer_init (buf_text (render_label (fun _ => true) (buf_init 0) (bytes "true")) ++ bytes " {" ++ []))
    = (lx', inr tok) /\ label_of (tk_kind tok) = None.
Proof.
  apply (render_label_bool_word (fun _ => true)
    (lexer_init (buf_text (render_label (fun _ => true) (buf_init 0) (bytes "true")) ++ bytes " {" ++ []))
    (bytes "true") []); reflexivity.
Defined.
