(* ===== verification/Parse.v ===== *)
(** * Parse: the configuration parser, [c/src/compile/parse.c] and [ast.c]

    The recursive descent of [parse.c] over the lexer of [Lex]: one token of
    lookahead, a diagnostic per mistake with a skip to the next statement
    boundary, one nesting counter for blocks and lists, and a tree that is
    handed out only when there was no diagnostic at all.

    [parser_t] is [parser]; ownership (which helper frees what) is the value
    semantics of the model. The two loops that only discard tokens take their
    fuel from what is left to read; the grammar's mutual recursion takes an
    explicit fuel and answers [None] when it runs out, and [ParseSpec] shows
    that a fuel linear in the length of the text is always enough. Diagnostics carry
    the sentence the source prints, truncated as [vsnprintf] truncates it.
    Sizes passed to the allocator are those of an LP64 build. *)
From S2P Require Import Prelude Buf Lex.

Local Open Scope nat_scope.

(** ** The tree: [ast.h] *)

#[local] Set Warnings "-register-all".

Inductive ast_value :=
| AST_STRING (sp : span) (string : list byte)
| AST_NUMBER (sp : span) (number : Z)
| AST_BOOL (sp : span) (boolean : bool)
| AST_LIST (sp : span) (entries : list ast_value).

(** [label] is [None] where the block takes none, which is not the empty
    label. *)
Inductive ast_item :=
| AST_ITEM_BLOCK (head : list byte) (label : option (list byte)) (overrides : bool)
    (items : list ast_item) (sp : span)
| AST_ITEM_ASSIGNMENT (key : list byte) (value : ast_value) (sp : span)
| AST_ITEM_HOOK (phase body : list byte) (sp : span)
| AST_ITEM_INCLUDE (path : list byte) (sp : span).

(** [ncfg_ast_value_describe]. *)
Definition ast_value_describe (v : ast_value) : list byte :=
  match v with
  | AST_STRING _ _ => bytes "a string"
  | AST_NUMBER _ _ => bytes "a number"
  | AST_BOOL _ _ => bytes "a boolean"
  | AST_LIST _ _ => bytes "a list"
  end.

(** [ncfg_ast_block_same_key]: head and label, the label over its whole
    length. *)
Definition ast_block_same_key (first second : ast_item) : bool :=
  match first, second with
  | AST_ITEM_BLOCK h1 l1 _ _ _, AST_ITEM_BLOCK h2 l2 _ _ _ =>
      bytes_eqb h1 h2 &&
      match l1, l2 with
      | Some a, Some b => bytes_eqb a b
      | None, None => true
      | _, _ => false
      end
  | _, _ => false
  end.

(** ** Diagnostics *)

Definition NCFG_MAX_NESTING_DEPTH : nat := 32.
Definition NCFG_DIAGS_MAX : nat := 64.
Definition NCFG_ERROR_MAX : nat := 512.
Definition FOUND_MAX : nat := 128.

Record diag := Diag { dg_span : span; dg_message : list byte }.

(** [ncfg_diags_t]: the first [NCFG_DIAGS_MAX], and how many there were.
    [capacity] follows from [count]. *)
Record diags := Diags { ds_at : list diag; ds_total : nat }.

Record parser := Parser {
  p_lexer : lexer;
  p_lookahead : option token;
  p_diags : diags;
  p_depth : nat;
  p_out_of_memory : bool
}.

Definition set_lexer (p : parser) (lx : lexer) : parser :=
  Parser lx (p_lookahead p) (p_diags p) (p_depth p) (p_out_of_memory p).
Definition set_lookahead (p : parser) (t : option token) : parser :=
  Parser (p_lexer p) t (p_diags p) (p_depth p) (p_out_of_memory p).
Definition set_diags (p : parser) (d : diags) : parser :=
  Parser (p_lexer p) (p_lookahead p) d (p_depth p) (p_out_of_memory p).
Definition set_depth (p : parser) (n : nat) : parser :=
  Parser (p_lexer p) (p_lookahead p) (p_diags p) n (p_out_of_memory p).
Definition note_oom (p : parser) : parser :=
  Parser (p_lexer p) (p_lookahead p) (p_diags p) (p_depth p) true.

(** The sentence of a lexer failure. *)
Definition lex_error_text (e : lex_error) : list byte :=
  match e with
  | LexOutOfMemory => bytes "out of memory for an identifier"
  | LexExpectedDigits => bytes "expected digits after `-`"
  | LexFloat => bytes "numbers in this language are integers: no value in the desired-state document is a float"
  | LexNumberTooBig shown => bytes "number " ++ shown ++ bytes " does not fit in 64 bits"
  | LexUnterminatedString =>
      bytes "unterminated string: a string runs to its closing quote, across lines if need be"
  | LexUnknownEscape shown =>
      bytes "unknown escape `\" ++ shown ++ bytes "`: the escapes are \" ++ [QUOTE]
      ++ bytes " \\ \n and \t"
  | LexNotUtf8 => bytes "string is not valid UTF-8"
  | LexStringTooLong => bytes "cannot hold a string that long: out of memory, or past the buffer's ceiling"
  | LexUnexpected shown => bytes "unexpected character `" ++ shown ++ bytes "`"
  | LexUnterminatedHook =>
      bytes "unterminated hook body: a hook body ends at the first line containing only a closing brace"
  | LexHookTooLong => bytes "cannot hold a hook body that long: out of memory, or past the buffer's ceiling"
  end.

(** [ncfg_error_setv]: [vsnprintf] into [NCFG_ERROR_MAX] bytes. *)
Definition error_set (message : list byte) : list byte := take (NCFG_ERROR_MAX - 1) message.

(** [ncfg_token_describe] into [FOUND_MAX] bytes. *)
Definition found (t : token) : list byte := take (FOUND_MAX - 1) (token_describe (tk_kind t)).

Section Parse.
Context (malloc_ok : Z -> bool).

Definition SIZEOF_DIAG : Z := 40.
Definition SIZEOF_ITEM : Z := 96.
Definition SIZEOF_VALUE : Z := 96.
Definition SIZEOF_FILE : Z := 24.

(** [store_diag]. [at] grows through 8, 16, 32 and 64 entries, so the
    allocator is asked when [count] is 0, 8, 16 or 32. *)
Definition store_diag (p : parser) (sp : span) (message : list byte) : parser :=
  let ds := p_diags p in
  let counted := Diags (ds_at ds) (S (ds_total ds)) in
  let count := length (ds_at ds) in
  if NCFG_DIAGS_MAX <=? count then set_diags p counted
  else
    let grows := (count =? 0) || (count =? 8) || (count =? 16) || (count =? 32) in
    let want := if count =? 0 then 8 else 2 * count in
    if grows && negb (malloc_ok (Z.of_nat want * SIZEOF_DIAG)%Z) then note_oom (set_diags p counted)
    else if negb (malloc_ok (zlen message + 1)%Z) then note_oom (set_diags p counted)
    else set_diags p (Diags (ds_at ds ++ [Diag sp message]) (S (ds_total ds))).

(** [push_diag]. *)
Definition push_diag (p : parser) (sp : span) (message : list byte) : parser :=
  store_diag p sp (error_set message).

(** ** The token stream *)

Definition pull (p : parser) : token * parser :=
  match lexer_next malloc_ok (p_lexer p) with
  | (lx, inr tok) => (tok, set_lexer p lx)
  | (lx, inl e) =>
      (Token TOKEN_EOF (lx_error_span lx),
       store_diag (set_lexer p lx) (lx_error_span lx) (error_set (lex_error_text e)))
  end.

Definition peek (p : parser) : token * parser :=
  match p_lookahead p with
  | Some t => (t, p)
  | None => let (t, p') := pull p in (t, set_lookahead p' (Some t))
  end.

(** [take], [drop] and [discard_lookahead]. *)
Definition take_token (p : parser) : token * parser :=
  match p_lookahead p with
  | Some t => (t, set_lookahead p None)
  | None => pull p
  end.

Definition drop_token (p : parser) : parser := snd (take_token p).

Definition discard_lookahead (p : parser) : parser := set_lookahead p None.

Definition is_eof (k : token_kind) : bool :=
  match k with TOKEN_EOF => true | _ => false end.

Definition is_terminator (k : token_kind) : bool :=
  match k with TOKEN_TERMINATOR => true | _ => false end.

(** What is left to read: a bound on the tokens still to come. *)
Definition weight (p : parser) : nat :=
  2 * length (lx_rest (p_lexer p)) +
  match p_lookahead p with
  | Some t => if is_eof (tk_kind t) then 0 else 1
  | None => 0
  end.

Fixpoint skip_terminators_loop (fuel : nat) (p : parser) : parser :=
  match fuel with
  | O => p
  | S fuel' =>
      let (t, p1) := peek p in
      if is_terminator (tk_kind t) then skip_terminators_loop fuel' (drop_token p1) else p1
  end.

Definition skip_terminators (p : parser) : parser := skip_terminators_loop (S (weight p)) p.

(** [recover]: [true] at a statement boundary, [false] at the end of input. *)
Fixpoint recover_loop (fuel : nat) (p : parser) : bool * parser :=
  match fuel with
  | O => (false, p)
  | S fuel' =>
      if p_out_of_memory p then (false, p)
      else
        let (t, p1) := take_token p in
        if is_eof (tk_kind t) then (false, p1)
        else if is_terminator (tk_kind t) then (true, p1)
        else recover_loop fuel' p1
  end.

Definition recover (p : parser) : bool * parser := recover_loop (S (weight p)) p.

Definition token_is (t : token) (word : list byte) : bool :=
  match tk_kind t with TOKEN_IDENT text => bytes_eqb text word | _ => false end.

Definition HOOK_PHASES : list (list byte) :=
  [bytes "pre_up"; bytes "up"; bytes "post_up"; bytes "pre_down"; bytes "down"; bytes "post_down"].
Definition LABELLED_BLOCKS : list (list byte) :=
  [bytes "interface"; bytes "network"; bytes "device"; bytes "peer"].

Definition in_list (names : list (list byte)) (name : list byte) : bool :=
  existsb (fun n => bytes_eqb n name) names.

Definition is_hook_head (name : list byte) : bool :=
  bytes_eqb name (bytes "on") ||
  (in_list HOOK_PHASES name && negb (in_list LABELLED_BLOCKS name)).

(** ** Building nodes *)

Definition new_item (p : parser) : bool * parser :=
  if malloc_ok SIZEOF_ITEM then (true, p) else (false, note_oom p).

Definition new_value (p : parser) : bool * parser :=
  if malloc_ok SIZEOF_VALUE then (true, p) else (false, note_oom p).

(** [items_push] and [values_push]: the array of pointers doubles from 4, so
    it grows when [count] is zero or a power of two from 4 on. *)
Definition push_ok (count : nat) : bool :=
  if count =? 0 then malloc_ok (4 * 8)%Z
  else if (4 <=? count) && (Z.land (Z.of_nat count) (Z.of_nat count - 1) =? 0)%Z
  then malloc_ok (Z.of_nat count * 2 * 8)%Z
  else true.

(** [expect_terminator]. *)
Definition expect_terminator (p : parser) : parser :=
  let (t, p1) := peek p in
  if is_terminator (tk_kind t) then drop_token p1
  else
    match tk_kind t with
    | TOKEN_EOF | TOKEN_RBRACE => p1
    | _ => push_diag p1 (tk_span t) (bytes "expected end of statement, found " ++ found t)
    end.

(** [close_list]. *)
Definition close_list (sp : span) (bracket : token) : span :=
  let end_ := sp_offset (tk_span bracket) + sp_length (tk_span bracket) in
  if sp_offset sp <? end_ then
    {| sp_offset := sp_offset sp; sp_length := end_ - sp_offset sp;
       sp_line := sp_line sp; sp_column := sp_column sp |}
  else sp.

(** A result with its parser; the outer [option] is the fuel. *)
Definition parsed (A : Type) : Type := option (option A * parser).

(** [parse_value], [parse_list] and [parse_list_entries]. *)
Fixpoint parse_value (fuel : nat) (p : parser) : parsed ast_value :=
  match fuel with
  | O => None
  | S fuel' =>
      let (t, p1) := take_token p in
      let sp := tk_span t in
      match tk_kind t with
      | TOKEN_STRING s =>
          let (ok, p2) := new_value p1 in Some (if ok then Some (AST_STRING sp s) else None, p2)
      | TOKEN_NUMBER n =>
          let (ok, p2) := new_value p1 in Some (if ok then Some (AST_NUMBER sp n) else None, p2)
      | TOKEN_BOOL b =>
          let (ok, p2) := new_value p1 in Some (if ok then Some (AST_BOOL sp b) else None, p2)
      | TOKEN_LBRACKET => parse_list fuel' p1 sp
      | _ => Some (None, push_diag p1 sp (bytes "expected a value, found " ++ found t))
      end
  end
with parse_list (fuel : nat) (p : parser) (sp : span) : parsed ast_value :=
  match fuel with
  | O => None
  | S fuel' =>
      if NCFG_MAX_NESTING_DEPTH <=? p_depth p then
        Some (None, push_diag p sp
          (bytes "a list nests more than 32 deep: this is almost always an unclosed `[` earlier in the file"))
      else
        let (ok, p1) := new_value p in
        if negb ok then Some (None, p1)
        else
          match parse_list_entries fuel' (set_depth p1 (S (p_depth p1))) sp [] with
          | None => None
          | Some (v, p2) => Some (v, set_depth p2 (pred (p_depth p2)))
          end
  end
with parse_list_entries (fuel : nat) (p : parser) (sp : span) (entries : list ast_value)
  : parsed ast_value :=
  match fuel with
  | O => None
  | S fuel' =>
      let p1 := skip_terminators p in
      if p_out_of_memory p1 then Some (None, p1)
      else
        let (t, p2) := peek p1 in
        match tk_kind t with
        | TOKEN_RBRACKET => Some (Some (AST_LIST (close_list sp t) entries), drop_token p2)
        | _ =>
            match parse_value fuel' p2 with
            | None => None
            | Some (None, p3) => Some (None, p3)
            | Some (Some entry, p3) =>
                if negb (push_ok (length entries)) then Some (None, note_oom p3)
                else
                  let (t2, p4) := peek (skip_terminators p3) in
                  match tk_kind t2 with
                  | TOKEN_COMMA =>
                      parse_list_entries fuel' (drop_token p4) sp (entries ++ [entry])
                  | TOKEN_RBRACKET =>
                      Some (Some (AST_LIST (close_list sp t2) (entries ++ [entry])), drop_token p4)
                  | _ => Some (None, push_diag p4 (tk_span t2)
                           (bytes "expected `,` or `]` in list, found " ++ found t2))
                  end
            end
        end
  end.

(** [parse_include]. *)
Definition parse_include (p : parser) : option ast_item * parser :=
  let (keyword, p1) := take_token p in
  let (value, p2) := take_token p1 in
  match tk_kind value with
  | TOKEN_STRING path =>
      let p3 := expect_terminator p2 in
      let (ok, p4) := new_item p3 in
      (if ok then Some (AST_ITEM_INCLUDE path (tk_span keyword)) else None, p4)
  | _ =>
      (None, push_diag p2 (tk_span value)
        (bytes "expected a quoted path after `include`, found " ++ found value))
  end.

(** [parse_hook], once its phase is known: the brace and the raw body. *)
Definition parse_hook_body (p : parser) (phase : list byte) (sp : span) : option ast_item * parser :=
  let (brace, p1) := take_token p in
  match tk_kind brace with
  | TOKEN_LBRACE =>
      let (t, p2) := peek p1 in
      let p3 := if is_terminator (tk_kind t) then drop_token p2 else p2 in
      let p4 := discard_lookahead p3 in
      match lexer_hook_body malloc_ok (p_lexer p4) with
      | (lx, inl e) =>
          (None, push_diag (set_lexer p4 lx) (lx_error_span lx) (error_set (lex_error_text e)))
      | (lx, inr body) =>
          let (ok, p5) := new_item (set_lexer p4 lx) in
          (if ok then Some (AST_ITEM_HOOK phase body sp) else None, p5)
      end
  | _ =>
      (None, push_diag p1 (tk_span brace)
        (bytes "expected `{` after `" ++ phase ++ bytes "`, found " ++ found brace))
  end.

Definition parse_hook (p : parser) : option ast_item * parser :=
  let (keyword, p1) := take_token p in
  match tk_kind keyword with
  | TOKEN_IDENT phase =>
      if bytes_eqb phase (bytes "on") then
        let (event, p2) := take_token p1 in
        match tk_kind event with
        | TOKEN_IDENT name => parse_hook_body p2 name (tk_span keyword)
        | _ =>
            (None, push_diag p2 (tk_span event)
              (bytes "expected an event name after `on`, found " ++ found event))
        end
      else parse_hook_body p1 phase (tk_span keyword)
  | _ => (None, note_oom p1)
  end.

(** [item->as.block.overrides = 1]. *)
Definition set_overrides (it : ast_item) : ast_item :=
  match it with
  | AST_ITEM_BLOCK h l _ items sp => AST_ITEM_BLOCK h l true items sp
  | _ => it
  end.

(** [parse_item], [parse_block], [parse_block_after_head] and
    [parse_block_items]. *)
Fixpoint parse_item (fuel : nat) (p : parser) : parsed ast_item :=
  match fuel with
  | O => None
  | S fuel' =>
      let (head, p1) := peek p in
      match tk_kind head with
      | TOKEN_IDENT name =>
          if token_is head (bytes "include") then Some (parse_include p1)
          else if token_is head (bytes "override") then
            match parse_block fuel' (drop_token p1) with
            | None => None
            | Some (it, p2) => Some (option_map set_overrides it, p2)
            end
          else if is_hook_head name then Some (parse_hook p1)
          else
            let (key, p2) := take_token p1 in
            let (next, p3) := peek p2 in
            match tk_kind next with
            | TOKEN_EQUALS =>
                match parse_value fuel' (drop_token p3) with
                | None => None
                | Some (None, p4) => Some (None, p4)
                | Some (Some value, p4) =>
                    let p5 := expect_terminator p4 in
                    let (ok, p6) := new_item p5 in
                    Some (if ok then Some (AST_ITEM_ASSIGNMENT name value (tk_span key)) else None, p6)
                end
            | TOKEN_LBRACE | TOKEN_IDENT _ | TOKEN_STRING _ =>
                parse_block_after_head fuel' p3 name (tk_span key)
            | _ =>
                Some (None, push_diag p3 (tk_span next)
                  (bytes "expected `=` or `{` after `" ++ name ++ bytes "`, found " ++ found next))
            end
      | _ =>
          Some (None, push_diag p1 (tk_span head) (bytes "expected a statement, found " ++ found head))
      end
  end
with parse_block (fuel : nat) (p : parser) : parsed ast_item :=
  match fuel with
  | O => None
  | S fuel' =>
      let (head, p1) := take_token p in
      match tk_kind head with
      | TOKEN_IDENT name => parse_block_after_head fuel' p1 name (tk_span head)
      | _ =>
          Some (None, push_diag p1 (tk_span head)
            (bytes "expected a block after `override`, found " ++ found head))
      end
  end
with parse_block_after_head (fuel : nat) (p : parser) (head : list byte) (sp : span)
  : parsed ast_item :=
  match fuel with
  | O => None
  | S fuel' =>
      let (ok, p0) := new_item p in
      if negb ok then Some (None, p0)
      else
        let (next, p1) := peek p0 in
        let '(label, p2) :=
          match tk_kind next with
          | TOKEN_IDENT text | TOKEN_STRING text => (Some text, drop_token p1)
          | _ => (None, p1)
          end in
        let (brace, p3) := take_token p2 in
        match tk_kind brace with
        | TOKEN_LBRACE =>
            if NCFG_MAX_NESTING_DEPTH <=? p_depth p3 then
              Some (None, push_diag p3 (tk_span brace)
                (bytes "`" ++ head ++
                 bytes "` nests more than 32 blocks deep: this is almost always an unclosed block earlier in the file"))
            else
              match parse_block_items fuel' (set_depth p3 (S (p_depth p3))) head label sp [] with
              | None => None
              | Some (it, p4) => Some (it, set_depth p4 (pred (p_depth p4)))
              end
        | _ =>
            Some (None, push_diag p3 (tk_span brace)
              (bytes "expected `{` to open `" ++ head ++ bytes "`, found " ++ found brace))
        end
  end
with parse_block_items (fuel : nat) (p : parser) (head : list byte) (label : option (list byte))
    (sp : span) (items : list ast_item) : parsed ast_item :=
  match fuel with
  | O => None
  | S fuel' =>
      let p1 := skip_terminators p in
      if p_out_of_memory p1 then Some (None, p1)
      else
        let (next, p2) := peek p1 in
        match tk_kind next with
        | TOKEN_RBRACE =>
            Some (Some (AST_ITEM_BLOCK head label false items sp), expect_terminator (drop_token p2))
        | TOKEN_EOF =>
            Some (None, push_diag p2 sp
              (bytes "unclosed block `" ++ head ++ bytes "`: every block needs a closing `}`"))
        | _ =>
            match parse_item fuel' p2 with
            | None => None
            | Some (Some child, p3) =>
                if negb (push_ok (length items)) then Some (None, note_oom p3)
                else parse_block_items fuel' p3 head label sp (items ++ [child])
            | Some (None, p3) =>
                match recover p3 with
                | (false, p4) => Some (None, p4)
                | (true, p4) => parse_block_items fuel' p4 head label sp items
                end
            end
        end
  end.

(** [parse_file]. *)
Fixpoint parse_file (fuel : nat) (p : parser) (items : list ast_item)
  : option (list ast_item * parser) :=
  match fuel with
  | O => None
  | S fuel' =>
      let p1 := skip_terminators p in
      if p_out_of_memory p1 then Some (items, p1)
      else
        let (t, p2) := peek p1 in
        if is_eof (tk_kind t) then Some (items, p2)
        else
          match parse_item fuel' p2 with
          | None => None
          | Some (Some it, p3) =>
              if negb (push_ok (length items)) then Some (items, note_oom p3)
              else parse_file fuel' p3 (items ++ [it])
          | Some (None, p3) =>
              match recover p3 with
              | (false, p4) => Some (items, p4)
              | (true, p4) => parse_file fuel' p4 items
              end
          end
  end.

Definition parser_init (text : list byte) : parser :=
  {| p_lexer := lexer_init text; p_lookahead := None; p_diags := Diags [] 0;
     p_depth := 0; p_out_of_memory := false |}.

(** [ncfg_parse]: the tree, or the first sentence; and every diagnostic. *)
Definition ncfg_parse (fuel : nat) (text : list byte)
  : option ((list byte + list ast_item) * diags) :=
  if negb (malloc_ok SIZEOF_FILE) then
    Some (inl (bytes "out of memory for the parsed file"), Diags [] 0)
  else
    match parse_file fuel (parser_init text) [] with
    | None => None
    | Some (items, p) =>
        let ds := p_diags p in
        Some (if (ds_total ds =? 0) && negb (p_out_of_memory p) then inr items
              else
                match ds_at ds with
                | d :: _ => inl (error_set (dg_message d))
                | [] => inl (bytes "out of memory while parsing the configuration")
                end, ds)
    end.

(** A fuel that is enough for every text: see [ParseSpec]. *)
Definition parse_fuel (text : list byte) : nat := 12 * length text + 20.
End Parse.
