(* ===== verification/ParseSpec.v ===== *)
(** * ParseSpec: how the parser's state moves

    [evolves p p'] is what every operation of the parser does to its state:
    it never gets more to read, it leaves the nesting counter where it found
    it, and its diagnostics only grow, within the ceiling.

    Every text is parsed to the end within a fuel linear in its length, no
    tree nests deeper than the bound, the diagnostics stay within theirs, and
    a tree is handed out exactly when nothing was reported. *)
From S2P Require Import Prelude Buf Lex LexFacts Parse.

Local Open Scope nat_scope.

Section Facts.
Context (malloc_ok : Z -> bool).

(** At most [NCFG_DIAGS_MAX] are kept, [total] counts them all, and only a
    refused allocation can keep fewer than it may. *)
Definition diags_wf (d : diags) : Prop :=
  length (ds_at d) <= NCFG_DIAGS_MAX /\ length (ds_at d) <= ds_total d /\
  ((forall n, malloc_ok n = true) -> length (ds_at d) = Nat.min (ds_total d) NCFG_DIAGS_MAX).

Record evolves (p p' : parser) : Prop := {
  ev_weight : weight p' <= weight p;
  ev_depth : p_depth p' = p_depth p;
  ev_total : ds_total (p_diags p) <= ds_total (p_diags p');
  ev_wf : diags_wf (p_diags p) -> diags_wf (p_diags p');
  ev_oom : (forall n, malloc_ok n = true) -> p_out_of_memory p' = p_out_of_memory p
}.

#[export] Instance evolves_preorder : PreOrder evolves.
Proof.
  split.
  - intros p. constructor; auto.
  - intros p q r [] []. constructor; [lia|congruence|lia|auto|]. intros Ha. rewrite ev_oom1, ev_oom0; done.
Qed.

(** A state whose token stream and nesting are untouched. *)
Definition same_stream (p p' : parser) : Prop :=
  p_lexer p' = p_lexer p /\ p_lookahead p' = p_lookahead p /\ p_depth p' = p_depth p.

Lemma same_stream_weight p p' : same_stream p p' -> weight p' = weight p.
Proof. intros (H1 & H2 & _). unfold weight. by rewrite H1, H2. Qed.

Lemma store_diag_stream p sp m : same_stream p (store_diag malloc_ok p sp m).
Proof. unfold store_diag. repeat case_match; by split_and!. Qed.

Lemma store_diag_total p sp m :
  ds_total (p_diags (store_diag malloc_ok p sp m)) = S (ds_total (p_diags p)).
Proof. unfold store_diag. by repeat case_match. Qed.

Lemma store_diag_wf p sp m :
  diags_wf (p_diags p) -> diags_wf (p_diags (store_diag malloc_ok p sp m)).
Proof.
  intros (H1 & H2 & H3). unfold store_diag, diags_wf, NCFG_DIAGS_MAX in *.
  set (n := length (ds_at (p_diags p))) in *.
  destruct (64 <=? n) eqn:E; unbool; cbn [ds_at ds_total p_diags set_diags].
  { fold n. split_and!; [lia|lia|]. intros Ha. specialize (H3 Ha). lia. }
  set (g := (_ || _) && _). destruct g eqn:Eg; subst g; cbn [ds_at ds_total p_diags set_diags note_oom].
  { fold n. split_and!; [lia|lia|]. intros Ha. unbool. by rewrite Ha in *. }
  destruct (negb (malloc_ok (zlen m + 1))) eqn:Em; cbn [ds_at ds_total p_diags set_diags note_oom].
  { fold n. split_and!; [lia|lia|]. intros Ha. unbool. by rewrite Ha in *. }
  rewrite length_app. fold n. cbn [length].
  split_and!; [lia|lia|]. intros Ha. specialize (H3 Ha). lia.
Qed.

Lemma store_diag_evolves p sp m : evolves p (store_diag malloc_ok p sp m).
Proof.
  pose proof (store_diag_stream p sp m) as Hs. constructor.
  - by rewrite (same_stream_weight _ _ Hs).
  - apply Hs.
  - rewrite store_diag_total. lia.
  - apply store_diag_wf.
  - intros Ha. unfold store_diag. rewrite !Ha. cbn [negb]. rewrite andb_false_r.
    by destruct (NCFG_DIAGS_MAX <=? length (ds_at (p_diags p))).
Qed.

Lemma push_diag_evolves p sp m : evolves p (push_diag malloc_ok p sp m).
Proof. apply store_diag_evolves. Qed.

Lemma note_oom_evolves p n : malloc_ok n = false -> evolves p (note_oom p).
Proof. intros H. constructor; auto. intros Ha. by rewrite Ha in H. Qed.

Lemma push_ok_evolves p count : push_ok malloc_ok count = false -> evolves p (note_oom p).
Proof. unfold push_ok. intros H. repeat case_match; try done; by eapply note_oom_evolves. Qed.

Lemma new_item_evolves p : evolves p (snd (new_item malloc_ok p)).
Proof. unfold new_item. destruct (malloc_ok _) eqn:E; [reflexivity|by eapply note_oom_evolves]. Qed.

Lemma new_value_evolves p : evolves p (snd (new_value malloc_ok p)).
Proof. unfold new_value. destruct (malloc_ok _) eqn:E; [reflexivity|by eapply note_oom_evolves]. Qed.

(** ** Tokens *)

(** [pull] with nothing buffered: a token costs at least two of the weight,
    which is one more than buffering it gives back. *)
Lemma pull_evolves p t p' :
  p_lookahead p = None -> pull malloc_ok p = (t, p') ->
  evolves p p' /\ p_lookahead p' = None /\
  (is_eof (tk_kind t) = false -> weight p' + 2 <= weight p).
Proof.
  intros Hla H. unfold pull in H.
  destruct (lexer_next malloc_ok (p_lexer p)) as [lx r] eqn:E.
  apply lexer_next_moves in E as (n & Hm & Hn).
  pose proof (moves_rest _ _ _ Hm) as Hrest. destruct Hm as [Hle _].
  apply (f_equal length) in Hrest. rewrite length_drop in Hrest.
  assert (Hw : weight (set_lexer p lx) = 2 * length (lx_rest lx))
    by (unfold weight, set_lexer; simpl; rewrite Hla; lia).
  assert (Hw0 : weight p = 2 * length (lx_rest (p_lexer p)))
    by (unfold weight; rewrite Hla; lia).
  destruct r as [e|tok]; simplify_eq.
  - assert (Hs : evolves p (set_lexer p lx)) by (constructor; simpl; auto; lia).
    split_and!; [etransitivity; [exact Hs|apply store_diag_evolves]| |done].
    destruct (store_diag_stream (set_lexer p lx) (lx_error_span lx) (error_set (lex_error_text e)))
      as (_ & -> & _). done.
  - split_and!; [constructor; simpl; auto; lia|done|]. intros Heof.
    destruct t as [[] ?]; simpl in *; try done; lia.
Qed.

Lemma peek_evolves p t p' :
  peek malloc_ok p = (t, p') -> evolves p p' /\ p_lookahead p' = Some t.
Proof.
  unfold peek. destruct (p_lookahead p) as [t0|] eqn:Hla; [intros; by simplify_eq|].
  destruct (pull malloc_ok p) as [t1 p1] eqn:E. intros; simplify_eq.
  destruct (pull_evolves p t p1 Hla E) as (Hev & Hla1 & Hn). split; [|done].
  destruct Hev. constructor; simpl; auto. unfold weight in *. simpl. rewrite Hla, Hla1 in *.
  destruct (is_eof (tk_kind t)) eqn:He; [lia|]. specialize (Hn eq_refl). lia.
Qed.

Lemma take_evolves p t p' :
  take_token malloc_ok p = (t, p') ->
  evolves p p' /\ p_lookahead p' = None /\
  (is_eof (tk_kind t) = false -> weight p' < weight p).
Proof.
  unfold take_token. destruct (p_lookahead p) as [t0|] eqn:Hla.
  - intros; simplify_eq. assert (weight p = weight (set_lookahead p None) +
      if is_eof (tk_kind t) then 0 else 1) as Hw by (unfold weight; simpl; rewrite Hla; lia).
    split_and!; [constructor; simpl; auto; lia|done|]. intros He. rewrite He in Hw. lia.
  - intros E. destruct (pull_evolves p t p' Hla E) as (Hev & Hla1 & Hn).
    split_and!; [done|done|]. intros He. specialize (Hn He). lia.
Qed.

(** Taking a token that was peeked. *)
Lemma take_peeked p t :
  p_lookahead p = Some t -> take_token malloc_ok p = (t, set_lookahead p None).
Proof. unfold take_token. by intros ->. Qed.

Lemma drop_peeked p t :
  p_lookahead p = Some t ->
  evolves p (drop_token malloc_ok p) /\
  (is_eof (tk_kind t) = false -> weight (drop_token malloc_ok p) < weight p).
Proof.
  intros H. unfold drop_token. rewrite (take_peeked p t H). simpl.
  destruct (take_evolves p t _ (take_peeked p t H)) as (? & _ & ?). done.
Qed.

Lemma discard_evolves p : evolves p (discard_lookahead p).
Proof.
  unfold discard_lookahead, set_lookahead. constructor; simpl; auto. unfold weight; simpl. lia.
Qed.

Lemma skip_terminators_loop_evolves fuel p : evolves p (skip_terminators_loop malloc_ok fuel p).
Proof.
  revert p. induction fuel as [|fuel IH]; intros p; simpl; [reflexivity|].
  destruct (peek malloc_ok p) as [t p1] eqn:E. apply peek_evolves in E as [Hev Hla].
  destruct (is_terminator _); [|done].
  etransitivity; [exact Hev|]. etransitivity; [|apply IH]. by apply (drop_peeked p1 t).
Qed.

Lemma skip_terminators_evolves p : evolves p (skip_terminators malloc_ok p).
Proof. apply skip_terminators_loop_evolves. Qed.

(** After [skip_terminators] the next token is not a terminator: its loop
    ends because of the token, never because of the fuel. *)
Lemma skip_terminators_loop_done fuel p t p' :
  weight p < fuel -> peek malloc_ok (skip_terminators_loop malloc_ok fuel p) = (t, p') ->
  is_terminator (tk_kind t) = false.
Proof.
  revert p. induction fuel as [|fuel IH]; intros p Hf H; [lia|]. simpl in H.
  destruct (peek malloc_ok p) as [t1 p1] eqn:E. apply peek_evolves in E as [Hev Hla].
  destruct (is_terminator (tk_kind t1)) eqn:Ht.
  - destruct (drop_peeked p1 t1 Hla) as [_ Hlt].
    apply (IH (drop_token malloc_ok p1)); [|done]. destruct Hev.
    assert (is_eof (tk_kind t1) = false) as He by (destruct (tk_kind t1); done).
    specialize (Hlt He). lia.
  - unfold peek in H. rewrite Hla in H. by simplify_eq.
Qed.

Lemma recover_loop_evolves fuel p b p' :
  recover_loop malloc_ok fuel p = (b, p') ->
  evolves p p' /\ (b = true -> weight p' < weight p).
Proof.
  revert p. induction fuel as [|fuel IH]; intros p H; simpl in H.
  { simplify_eq. split; [reflexivity|done]. }
  destruct (p_out_of_memory p); [simplify_eq; split; [reflexivity|done]|].
  destruct (take_token malloc_ok p) as [t p1] eqn:E.
  apply take_evolves in E as (Hev & _ & Hlt).
  destruct (is_eof _) eqn:He; [by simplify_eq|]. specialize (Hlt eq_refl).
  destruct (is_terminator _); [by simplify_eq|].
  destruct (IH p1 H) as [Hev' Hlt']. split; [by etransitivity|].
  intros Hb. specialize (Hlt' Hb). lia.
Qed.

Lemma recover_evolves p b p' :
  recover malloc_ok p = (b, p') -> evolves p p' /\ (b = true -> weight p' < weight p).
Proof. apply recover_loop_evolves. Qed.

Lemma expect_terminator_evolves p : evolves p (expect_terminator malloc_ok p).
Proof.
  unfold expect_terminator. destruct (peek malloc_ok p) as [t p1] eqn:E.
  apply peek_evolves in E as [Hev Hla]. destruct (is_terminator _).
  - etransitivity; [exact Hev|]. by apply (drop_peeked p1 t).
  - destruct (tk_kind t); try done; (etransitivity; [exact Hev|apply push_diag_evolves]).
Qed.
End Facts.

Local Open Scope nat_scope.

(** How many lists, and how many blocks and lists, are open at the deepest
    point of a tree. *)
Definition deepest {A} (f : A -> nat) (l : list A) : nat := foldr (fun x m => Nat.max (f x) m) 0 l.

Fixpoint value_depth (v : ast_value) : nat :=
  match v with
  | AST_LIST _ es => S (deepest value_depth es)
  | _ => 0
  end.

Fixpoint item_depth (it : ast_item) : nat :=
  match it with
  | AST_ITEM_BLOCK _ _ _ items _ => S (deepest item_depth items)
  | AST_ITEM_ASSIGNMENT _ v _ => value_depth v
  | _ => 0
  end.

Lemma deepest_le {A} (f : A -> nat) l n : deepest f l <= n <-> Forall (fun x => f x <= n) l.
Proof.
  induction l as [|x l IH]; simpl; [split; [constructor|lia]|].
  rewrite Forall_cons, <- IH. lia.
Qed.

Section Spec.
Context (malloc_ok : Z -> bool).

#[local] Abbreviation MAX := NCFG_MAX_NESTING_DEPTH.

(** What a parsing function that was given [p] and enough fuel returns:
    a result, a state it evolved to, and for a node a strictly shorter rest
    and a bounded nesting. *)
Definition answers {A} (depth_of : A -> nat) (bound : nat) (p : parser)
    (r : option (option A * parser)) : Prop :=
  exists v p', r = Some (v, p') /\ evolves malloc_ok p p' /\
    (forall x, v = Some x -> depth_of x <= bound).

(** ... and a node takes at least one token. *)
Definition consumes {A} (p : parser) (r : option (option A * parser)) : Prop :=
  forall x p', r = Some (Some x, p') -> weight p' < weight p.

Lemma answers_error {A} (f : A -> nat) n p p' :
  evolves malloc_ok p p' -> answers f n p (Some (None, p')).
Proof. intros H. exists None, p'. by split_and!. Qed.

Lemma answers_some {A} (f : A -> nat) n p p' x :
  evolves malloc_ok p p' -> f x <= n -> answers f n p (Some (Some x, p')).
Proof. intros H Hx. exists (Some x), p'. split_and!; [done|done|]. by intros ? [= <-]. Qed.

Lemma answers_trans {A} (f : A -> nat) n p p' r :
  evolves malloc_ok p p' -> answers f n p' r -> answers f n p r.
Proof. intros H (v & q & -> & Hq & Hv). exists v, q. split_and!; [done|by etransitivity|done]. Qed.

Lemma evolves_set_depth p n : evolves malloc_ok (set_depth p n) p -> n = p_depth p.
Proof. intros []. done. Qed.

(** Raising the counter around a call and lowering it again. *)
Lemma answers_nested {A} (f : A -> nat) n m p r :
  m <= n -> answers f m (set_depth p (S (p_depth p))) r ->
  answers f n p
    match r with
    | None => None
    | Some (v, p2) => Some (v, set_depth p2 (pred (p_depth p2)))
    end.
Proof.
  intros Hmn (v & q & -> & [Hw Hd Ht Hf Ho] & Hv). exists v, (set_depth q (pred (p_depth q))).
  split_and!; [done| |intros x Hx; specialize (Hv x Hx); lia].
  constructor; simpl in *; [exact Hw|by rewrite Hd|done|done|done].
Qed.

Lemma new_value_answers p p0 (v : ast_value) :
  evolves malloc_ok p p0 -> value_depth v = 0 ->
  answers value_depth (MAX - p_depth p) p
    (let (ok, p2) := new_value malloc_ok p0 in Some (if ok then Some v else None, p2)).
Proof.
  intros H Hv. pose proof (new_value_evolves malloc_ok p0) as Hn.
  destruct (new_value malloc_ok p0) as [[] p2]; simpl in Hn.
  - apply answers_some; [by etransitivity|lia].
  - apply answers_error. by etransitivity.
Qed.

Lemma parse_values_answer fuel :
  (forall p, 3 * weight p + 1 <= fuel -> p_depth p <= MAX ->
     answers value_depth (MAX - p_depth p) p (parse_value malloc_ok fuel p)) /\
  (forall p sp, 3 * weight p + 3 <= fuel -> p_depth p <= MAX ->
     answers value_depth (MAX - p_depth p) p (parse_list malloc_ok fuel p sp)) /\
  (forall p sp es, 3 * weight p + 2 <= fuel -> p_depth p <= MAX ->
     Forall (fun v => value_depth v <= MAX - p_depth p) es ->
     answers value_depth (S (MAX - p_depth p)) p (parse_list_entries malloc_ok fuel p sp es)).
Proof.
  induction fuel as [|fuel (IHv & IHl & IHe)]; [split_and!; lia|].
  split_and!.
  - intros p Hf Hd. cbn [parse_value]. destruct (take_token malloc_ok p) as [t p1] eqn:E.
    apply take_evolves in E as (Hev & _ & Hlt).
    destruct (tk_kind t) eqn:Hk; try (by apply new_value_answers);
      try (apply answers_error; etransitivity; [exact Hev|apply push_diag_evolves]).
    apply answers_trans with p1; [done|]. rewrite <- (ev_depth _ _ _ Hev).
    apply IHl; [specialize (Hlt eq_refl); lia|by rewrite (ev_depth _ _ _ Hev)].
  - intros p sp Hf Hd. cbn [parse_list]. destruct (MAX <=? p_depth p) eqn:E; unbool.
    { apply answers_error, push_diag_evolves. }
    pose proof (new_value_evolves malloc_ok p) as Hn.
    destruct (new_value malloc_ok p) as [[] p1]; cbn [negb snd] in Hn |- *; [|by apply answers_error].
    apply answers_trans with p1; [done|].
    apply answers_nested with (m := S (MAX - S (p_depth p1))); [rewrite (ev_depth _ _ _ Hn); lia|].
    apply (IHe (set_depth p1 (S (p_depth p1)))); simpl; [|rewrite (ev_depth _ _ _ Hn); lia|constructor].
    change (weight (set_depth p1 (S (p_depth p1)))) with (weight p1). destruct Hn. lia.
  - intros p sp es Hf Hd Hes. cbn [parse_list_entries].
    pose proof (skip_terminators_evolves malloc_ok p) as Hs.
    set (p1 := skip_terminators malloc_ok p) in *.
    destruct (p_out_of_memory p1); [by apply answers_error|].
    destruct (peek malloc_ok p1) as [t p2] eqn:E. apply peek_evolves in E as [Hp2 Hla].
    assert (H02 : evolves malloc_ok p p2) by (by etransitivity).
    destruct (drop_peeked malloc_ok p2 t Hla) as [Hdrop _].
    assert (Hmore : answers value_depth (S (MAX - p_depth p)) p
      match parse_value malloc_ok fuel p2 with
      | None => None
      | Some (None, p3) => Some (None, p3)
      | Some (Some entry, p3) =>
          if negb (push_ok malloc_ok (length es)) then Some (None, note_oom p3)
          else
            let (t2, p4) := peek malloc_ok (skip_terminators malloc_ok p3) in
            match tk_kind t2 with
            | TOKEN_COMMA => parse_list_entries malloc_ok fuel (drop_token malloc_ok p4) sp (es ++ [entry])
            | TOKEN_RBRACKET =>
                Some (Some (AST_LIST (close_list sp t2) (es ++ [entry])), drop_token malloc_ok p4)
            | _ => Some (None, push_diag malloc_ok p4 (tk_span t2)
                     (bytes "expected `,` or `]` in list, found " ++ found t2))
            end
      end).
    { destruct (IHv p2) as (v & p3 & -> & Hev3 & Hv).
      { destruct H02. lia. }
      { by rewrite (ev_depth _ _ _ H02). }
      assert (H03 : evolves malloc_ok p p3) by (by etransitivity).
      destruct v as [entry|]; [|by apply answers_error].
      specialize (Hv entry eq_refl). rewrite (ev_depth _ _ _ H02) in Hv.
      assert (Hes' : Forall (fun v => value_depth v <= MAX - p_depth p) (es ++ [entry]))
        by (apply Forall_app; auto).
      destruct (negb _) eqn:Epush; unbool;
        [apply answers_error; etransitivity; [exact H03|by eapply push_ok_evolves]|].
      pose proof (skip_terminators_evolves malloc_ok p3) as Hs3.
      destruct (peek malloc_ok (skip_terminators malloc_ok p3)) as [t2 p4] eqn:E4.
      apply peek_evolves in E4 as [Hp4 Hla4].
      assert (H04 : evolves malloc_ok p p4) by (etransitivity; [exact H03|]; by etransitivity).
      destruct (drop_peeked malloc_ok p4 t2 Hla4) as [Hdrop4 Hlt4].
      destruct (tk_kind t2) eqn:Hk2;
        try (apply answers_error; etransitivity; [exact H04|apply push_diag_evolves]).
      - apply answers_some; [by etransitivity|]. simpl. apply le_n_S. by apply deepest_le.
      - assert (H05 : evolves malloc_ok p (drop_token malloc_ok p4)) by (by etransitivity).
        apply answers_trans with (drop_token malloc_ok p4); [done|].
        rewrite <- (ev_depth _ _ _ H05). apply IHe; rewrite ?(ev_depth _ _ _ H05); try done.
        specialize (Hlt4 eq_refl). destruct H04. lia. }
    destruct (tk_kind t); try exact Hmore.
    apply answers_some; [by etransitivity|]. simpl. apply le_n_S. by apply deepest_le.
Qed.

(** ** Items *)

(** Like [answers], for a function whose node has cost a token. *)
Definition answers_item (p : parser) (r : option (option ast_item * parser)) : Prop :=
  exists v p', r = Some (v, p') /\ evolves malloc_ok p p' /\
    (forall x, v = Some x -> weight p' < weight p /\ item_depth x <= MAX - p_depth p).

Lemma answers_item_error p p' : evolves malloc_ok p p' -> answers_item p (Some (None, p')).
Proof. intros H. exists None, p'. by split_and!. Qed.

Lemma answers_item_some p p' x :
  evolves malloc_ok p p' -> weight p' < weight p -> item_depth x <= MAX - p_depth p ->
  answers_item p (Some (Some x, p')).
Proof. intros H Hw Hx. exists (Some x), p'. split_and!; [done|done|]. by intros ? [= <-]. Qed.

(** After a token was taken, an answer bounded in depth is an item's answer. *)
Lemma answers_after_token p p1 r :
  evolves malloc_ok p p1 -> weight p1 < weight p ->
  answers item_depth (MAX - p_depth p) p1 r -> answers_item p r.
Proof.
  intros H Hw (v & q & -> & Hq & Hv). exists v, q. split_and!; [done|by etransitivity|].
  intros x Hx. split; [destruct Hq; lia|auto].
Qed.

Lemma new_item_answers p p0 it n :
  evolves malloc_ok p p0 -> item_depth it <= n ->
  answers item_depth n p
    (Some (let (ok, p2) := new_item malloc_ok p0 in (if ok then Some it else None, p2))).
Proof.
  intros H Hv. pose proof (new_item_evolves malloc_ok p0) as Hn.
  destruct (new_item malloc_ok p0) as [[] p2]; simpl in Hn.
  - apply answers_some; [by etransitivity|lia].
  - apply answers_error. by etransitivity.
Qed.

Lemma parse_include_answers p name :
  p_lookahead p = Some name -> is_eof (tk_kind name) = false ->
  answers_item p (Some (parse_include malloc_ok p)).
Proof.
  intros Hla Hne. unfold parse_include. rewrite (take_peeked malloc_ok p name Hla).
  destruct (take_evolves malloc_ok p name _ (take_peeked malloc_ok p name Hla)) as (Hev & _ & Hlt).
  set (p1 := set_lookahead p None) in *. specialize (Hlt Hne).
  destruct (take_token malloc_ok p1) as [t p2] eqn:E. apply take_evolves in E as (Hev2 & _ & _).
  apply answers_after_token with p1; [done|done|].
  destruct (tk_kind t);
    try (apply answers_error; etransitivity; [exact Hev2|apply push_diag_evolves]).
  apply new_item_answers; [|simpl; lia]. etransitivity; [exact Hev2|apply expect_terminator_evolves].
Qed.

Lemma set_lexer_evolves p lx n :
  p_lookahead p = None -> moves (p_lexer p) lx n -> evolves malloc_ok p (set_lexer p lx).
Proof.
  intros Hla Hm. pose proof (moves_rest _ _ _ Hm) as Hr. apply (f_equal length) in Hr.
  rewrite length_drop in Hr. constructor; simpl; auto.
  unfold weight; simpl. rewrite Hla. lia.
Qed.

Lemma parse_hook_body_answers p phase sp n :
  answers item_depth n p (Some (parse_hook_body malloc_ok p phase sp)).
Proof.
  unfold parse_hook_body. destruct (take_token malloc_ok p) as [brace p1] eqn:E.
  apply take_evolves in E as (Hev & _ & _).
  destruct (tk_kind brace);
    try (apply answers_error; etransitivity; [exact Hev|apply push_diag_evolves]).
  destruct (peek malloc_ok p1) as [t p2] eqn:E2. apply peek_evolves in E2 as [Hev2 Hla2].
  set (p3 := if is_terminator (tk_kind t) then drop_token malloc_ok p2 else p2).
  assert (Hev3 : evolves malloc_ok p p3).
  { etransitivity; [exact Hev|]. etransitivity; [exact Hev2|]. subst p3.
    destruct (is_terminator _); [by apply (drop_peeked malloc_ok p2 t)|reflexivity]. }
  assert (Hev4 : evolves malloc_ok p (discard_lookahead p3))
    by (etransitivity; [exact Hev3|apply discard_evolves]).
  destruct (lexer_hook_body malloc_ok (p_lexer (discard_lookahead p3))) as [lx r] eqn:Eh.
  apply lexer_hook_body_moves in Eh as [k Hm].
  assert (Hev5 : evolves malloc_ok p (set_lexer (discard_lookahead p3) lx))
    by (etransitivity; [exact Hev4|]; by eapply set_lexer_evolves).
  destruct r as [e|body].
  - apply answers_error. etransitivity; [exact Hev5|apply push_diag_evolves].
  - apply new_item_answers; [done|simpl; lia].
Qed.

Lemma parse_hook_answers p name text :
  p_lookahead p = Some name -> tk_kind name = TOKEN_IDENT text ->
  answers_item p (Some (parse_hook malloc_ok p)).
Proof.
  intros Hla Hk. unfold parse_hook. rewrite (take_peeked malloc_ok p name Hla), Hk.
  destruct (take_evolves malloc_ok p name _ (take_peeked malloc_ok p name Hla)) as (Hev & _ & Hlt).
  set (p1 := set_lookahead p None) in *. rewrite Hk in Hlt. specialize (Hlt eq_refl).
  apply answers_after_token with p1; [done|done|].
  destruct (bytes_eqb _ _); [|apply parse_hook_body_answers].
  destruct (take_token malloc_ok p1) as [ev p2] eqn:E. apply take_evolves in E as (Hev2 & _ & _).
  destruct (tk_kind ev);
    try (apply answers_error; etransitivity; [exact Hev2|apply push_diag_evolves]).
  apply answers_trans with p2; [done|apply parse_hook_body_answers].
Qed.

(** The block functions, given what the items inside them do. *)
Section Blocks.
Context (fuel : nat).
Context (IHi : forall p, 5 * weight p + 2 <= fuel -> p_depth p <= MAX ->
  answers_item p (parse_item malloc_ok fuel p)).
Context (IHs : forall p h l sp items, 5 * weight p + 3 <= fuel -> p_depth p <= MAX ->
  Forall (fun it => item_depth it <= MAX - p_depth p) items ->
  answers item_depth (S (MAX - p_depth p)) p (parse_block_items malloc_ok fuel p h l sp items)).

Lemma parse_block_items_answers p h l sp items :
  5 * weight p + 3 <= S fuel -> p_depth p <= MAX ->
  Forall (fun it => item_depth it <= MAX - p_depth p) items ->
  answers item_depth (S (MAX - p_depth p)) p (parse_block_items malloc_ok (S fuel) p h l sp items).
Proof.
  intros Hf Hd Hits. cbn [parse_block_items].
  pose proof (skip_terminators_evolves malloc_ok p) as Hs.
  set (p1 := skip_terminators malloc_ok p) in *.
  destruct (p_out_of_memory p1); [by apply answers_error|].
  destruct (peek malloc_ok p1) as [t p2] eqn:E. apply peek_evolves in E as [Hp2 Hla].
  assert (H02 : evolves malloc_ok p p2) by (by etransitivity).
  destruct (drop_peeked malloc_ok p2 t Hla) as [Hdrop _].
  assert (Hmore : answers item_depth (S (MAX - p_depth p)) p
    match parse_item malloc_ok fuel p2 with
    | None => None
    | Some (Some child, p3) =>
        if negb (push_ok malloc_ok (length items)) then Some (None, note_oom p3)
        else parse_block_items malloc_ok fuel p3 h l sp (items ++ [child])
    | Some (None, p3) =>
        match recover malloc_ok p3 with
        | (false, p4) => Some (None, p4)
        | (true, p4) => parse_block_items malloc_ok fuel p4 h l sp items
        end
    end).
  { destruct (IHi p2) as (v & p3 & -> & Hev3 & Hv).
    { destruct H02. lia. }
    { by rewrite (ev_depth _ _ _ H02). }
    assert (H03 : evolves malloc_ok p p3) by (by etransitivity).
    destruct v as [child|].
    - specialize (Hv child eq_refl) as [Hw Hc]. rewrite (ev_depth _ _ _ H02) in Hc.
      destruct (negb _) eqn:Epush; unbool;
        [apply answers_error; etransitivity; [exact H03|by eapply push_ok_evolves]|].
      apply answers_trans with p3; [done|]. rewrite <- (ev_depth _ _ _ H03).
      apply IHs; rewrite ?(ev_depth _ _ _ H03); [destruct H02; lia|done|apply Forall_app; auto].
    - destruct (recover malloc_ok p3) as [b p4] eqn:Er. apply recover_evolves in Er as [Hev4 Hlt].
      assert (H04 : evolves malloc_ok p p4) by (by etransitivity).
      destruct b; [|by apply answers_error]. specialize (Hlt eq_refl).
      apply answers_trans with p4; [done|]. rewrite <- (ev_depth _ _ _ H04).
      apply IHs; rewrite ?(ev_depth _ _ _ H04); [destruct H03; lia|done|done]. }
  destruct (tk_kind t); try exact Hmore.
  - apply answers_some; [etransitivity; [|apply expect_terminator_evolves]; by etransitivity|].
    simpl. apply le_n_S. by apply deepest_le.
  - apply answers_error. etransitivity; [exact H02|apply push_diag_evolves].
Qed.

Lemma parse_block_after_head_answers p h sp :
  5 * weight p + 4 <= S fuel -> p_depth p <= MAX ->
  answers item_depth (MAX - p_depth p) p (parse_block_after_head malloc_ok (S fuel) p h sp).
Proof.
  intros Hf Hd. cbn [parse_block_after_head].
  pose proof (new_item_evolves malloc_ok p) as Hn.
  destruct (new_item malloc_ok p) as [[] p0]; cbn [negb snd] in Hn |- *; [|by apply answers_error].
  destruct (peek malloc_ok p0) as [next p1] eqn:E. apply peek_evolves in E as [Hp1 Hla].
  assert (exists label p2, (match tk_kind next with
      | TOKEN_IDENT text | TOKEN_STRING text => (Some text, drop_token malloc_ok p1)
      | _ => (None, p1)
      end) = (label, p2) /\ evolves malloc_ok p1 p2) as (label & p2 & -> & Hp2).
  { destruct (drop_peeked malloc_ok p1 next Hla) as [Hdr _].
    destruct (tk_kind next); eexists _, _; (split; [reflexivity|]); done || reflexivity. }
  destruct (take_token malloc_ok p2) as [brace p3] eqn:E3. apply take_evolves in E3 as (Hp3 & _ & _).
  assert (H03 : evolves malloc_ok p p3).
  { etransitivity; [exact Hn|]. etransitivity; [exact Hp1|]. by etransitivity. }
  destruct (tk_kind brace);
    try (apply answers_error; etransitivity; [exact H03|apply push_diag_evolves]).
  destruct (MAX <=? p_depth p3) eqn:Emax; unbool.
  { apply answers_error. etransitivity; [exact H03|apply push_diag_evolves]. }
  apply answers_trans with p3; [done|]. rewrite <- (ev_depth _ _ _ H03).
  apply answers_nested with (m := S (MAX - S (p_depth p3))); [lia|].
  apply (IHs (set_depth p3 (S (p_depth p3)))); simpl; [|lia|constructor].
  change (weight (set_depth p3 (S (p_depth p3)))) with (weight p3). destruct H03. lia.
Qed.
End Blocks.

Lemma parse_items_answer fuel :
  (forall p, 5 * weight p + 2 <= fuel -> p_depth p <= MAX ->
     answers_item p (parse_item malloc_ok fuel p)) /\
  (forall p, 5 * weight p <= fuel -> 0 < fuel -> p_depth p <= MAX ->
     answers item_depth (MAX - p_depth p) p (parse_block malloc_ok fuel p)) /\
  (forall p h sp, 5 * weight p + 4 <= fuel -> p_depth p <= MAX ->
     answers item_depth (MAX - p_depth p) p (parse_block_after_head malloc_ok fuel p h sp)) /\
  (forall p h l sp items, 5 * weight p + 3 <= fuel -> p_depth p <= MAX ->
     Forall (fun it => item_depth it <= MAX - p_depth p) items ->
     answers item_depth (S (MAX - p_depth p)) p (parse_block_items malloc_ok fuel p h l sp items)).
Proof.
  induction fuel as [|fuel (IHi & IHb & IHh & IHs)]; [split_and!; lia|]. split_and!.
  2:{ intros p Hf _ Hd. cbn [parse_block]. destruct (take_token malloc_ok p) as [t p1] eqn:E.
      apply take_evolves in E as (Hev & _ & Hlt).
      destruct (tk_kind t); try (apply answers_error; etransitivity; [exact Hev|apply push_diag_evolves]).
      specialize (Hlt eq_refl). apply answers_trans with p1; [done|].
      rewrite <- (ev_depth _ _ _ Hev). apply IHh; rewrite ?(ev_depth _ _ _ Hev); [lia|done]. }
  2:{ intros. by apply parse_block_after_head_answers. }
  2:{ intros. by apply parse_block_items_answers. }
  intros p Hf Hd. cbn [parse_item]. destruct (peek malloc_ok p) as [t p1] eqn:E.
  apply peek_evolves in E as [Hev1 Hla].
  assert (Hback : forall r, answers_item p1 r -> answers_item p r).
  { intros r (v & q & -> & Hq & Hv). exists v, q. split_and!; [done|by etransitivity|].
    intros x Hx. specialize (Hv x Hx). rewrite (ev_depth _ _ _ Hev1) in Hv. destruct Hev1. lia. }
  destruct (tk_kind t) as [name| | | | | | | | | | |] eqn:Hk;
    try (apply answers_item_error; etransitivity; [exact Hev1|apply push_diag_evolves]).
  apply Hback. rewrite <- (ev_depth _ _ _ Hev1) in Hd.
  assert (Hw1 : weight p1 <= weight p) by (by destruct Hev1). clear Hback Hev1.
  destruct (token_is t _); [apply parse_include_answers with t; [done|by rewrite Hk]|].
  destruct (drop_peeked malloc_ok p1 t Hla) as [Hdr Hdlt]. rewrite Hk in Hdlt. specialize (Hdlt eq_refl).
  destruct (token_is t _).
  { apply answers_after_token with (drop_token malloc_ok p1); [done|done|].
    destruct (IHb (drop_token malloc_ok p1)) as (v & q & -> & Hq & Hv);
      [lia|lia|by rewrite (ev_depth _ _ _ Hdr)|].
    exists (option_map set_overrides v), q. split_and!; [done|done|].
    intros x Hx. destruct v as [y|]; [|done]. injection Hx as <-.
    specialize (Hv y eq_refl). rewrite (ev_depth _ _ _ Hdr) in Hv. by destruct y. }
  destruct (is_hook_head name); [by apply parse_hook_answers with t name|].
  rewrite (take_peeked malloc_ok p1 t Hla).
  unfold drop_token in Hdr, Hdlt. rewrite (take_peeked malloc_ok p1 t Hla) in Hdr, Hdlt. cbn [snd] in *.
  set (p2 := set_lookahead p1 None) in *. apply answers_after_token with p2; [done|done|].
  destruct (peek malloc_ok p2) as [next p3] eqn:E3. apply peek_evolves in E3 as [Hev3 Hla3].
  destruct (drop_peeked malloc_ok p3 next Hla3) as [Hdr3 _].
  assert (H23 : p_depth p3 = p_depth p1)
    by (rewrite (ev_depth _ _ _ Hev3); apply (ev_depth _ _ _ Hdr)).
  assert (Hblock : answers item_depth (MAX - p_depth p1) p2
    (parse_block_after_head malloc_ok fuel p3 name (tk_span t))).
  { apply answers_trans with p3; [done|]. rewrite <- H23. apply IHh; [destruct Hev3; lia|lia]. }
  destruct (tk_kind next); try exact Hblock;
    try (apply answers_error; etransitivity; [exact Hev3|apply push_diag_evolves]).
  destruct (proj1 (parse_values_answer fuel) (drop_token malloc_ok p3)) as (v & p4 & -> & Hev4 & Hv).
  { destruct Hev3, Hdr3. lia. }
  { rewrite (ev_depth _ _ _ Hdr3). lia. }
  assert (H24 : evolves malloc_ok p2 p4) by (etransitivity; [exact Hev3|]; by etransitivity).
  destruct v as [value|]; [|by apply answers_error].
  specialize (Hv value eq_refl). rewrite (ev_depth _ _ _ Hdr3), H23 in Hv.
  pose proof (new_item_answers p2 (expect_terminator malloc_ok p4)
    (AST_ITEM_ASSIGNMENT name value (tk_span t)) (MAX - p_depth p1)) as Hn.
  destruct (new_item _ _). apply Hn; [|done].
  etransitivity; [exact H24|apply expect_terminator_evolves].
Qed.

Lemma parse_file_answers fuel p items :
  5 * weight p + 3 <= fuel -> p_depth p = 0 -> diags_wf malloc_ok (p_diags p) ->
  Forall (fun it => item_depth it <= MAX) items ->
  exists items' p', parse_file malloc_ok fuel p items = Some (items', p') /\
    evolves malloc_ok p p' /\ Forall (fun it => item_depth it <= MAX) items'.
Proof.
  revert p items. induction fuel as [|fuel IH]; intros p items Hf Hd Hwf Hits; [lia|].
  cbn [parse_file]. pose proof (skip_terminators_evolves malloc_ok p) as Hs.
  set (p1 := skip_terminators malloc_ok p) in *.
  destruct (p_out_of_memory p1); [by eexists _, _|].
  destruct (peek malloc_ok p1) as [t p2] eqn:E. apply peek_evolves in E as [Hp2 Hla].
  assert (H02 : evolves malloc_ok p p2) by (by etransitivity).
  destruct (is_eof _); [by eexists _, _|].
  destruct (proj1 (parse_items_answer fuel) p2) as (v & p3 & -> & Hev3 & Hv).
  { destruct H02. lia. }
  { rewrite (ev_depth _ _ _ H02), Hd. lia. }
  assert (H03 : evolves malloc_ok p p3) by (by etransitivity).
  assert (Hgo : forall q items', evolves malloc_ok p q -> weight q < weight p2 ->
    Forall (fun it => item_depth it <= MAX) items' ->
    exists items'' p', parse_file malloc_ok fuel q items' = Some (items'', p') /\
      evolves malloc_ok p p' /\ Forall (fun it => item_depth it <= MAX) items'').
  { intros q items' Hq Hlt Hits'.
    destruct (IH q items') as (i & p' & -> & Hev' & ?);
      [destruct H02; lia|by rewrite (ev_depth _ _ _ Hq)|by apply (ev_wf _ _ _ Hq)|done|].
    exists i, p'. split_and!; [done|by etransitivity|done]. }
  destruct v as [it|].
  - specialize (Hv it eq_refl) as [Hw Hit]. destruct (negb _) eqn:Epush; unbool.
    + eexists _, _. split_and!; [done|etransitivity; [exact H03|by eapply push_ok_evolves]|done].
    + apply Hgo; [done|done|]. apply Forall_app. split; [done|]. constructor; [lia|constructor].
  - destruct (recover malloc_ok p3) as [b p4] eqn:Er. apply recover_evolves in Er as [Hev4 Hlt].
    assert (H04 : evolves malloc_ok p p4) by (by etransitivity).
    destruct b; [|by eexists _, _].
    apply Hgo; [done|specialize (Hlt eq_refl); destruct Hev3; lia|done].
Qed.
End Spec.

Lemma parse_init_answers malloc_ok fuel text :
  parse_fuel text <= fuel ->
  exists items p, parse_file malloc_ok fuel (parser_init text) [] = Some (items, p) /\
    evolves malloc_ok (parser_init text) p /\
    Forall (fun it => item_depth it <= NCFG_MAX_NESTING_DEPTH) items.
Proof.
  intros Hf. apply parse_file_answers; [unfold parse_fuel, weight in *; simpl; lia|done| |constructor].
  unfold diags_wf; simpl. split_and!; [lia|lia|done].
Qed.

(** C38: Every text is parsed to the end: with a fuel linear in its length the
    recursive descent returns a tree or an error sentence, whatever the text
    and whatever the allocator refuses; the fuel stands for the recursion and
    the loops of [parse_item] and its callees, so they terminate. *)
Theorem ncfg_parse_total malloc_ok fuel text :
  parse_fuel text <= fuel -> exists r ds, ncfg_parse malloc_ok fuel text = Some (r, ds).
Proof.
  intros Hf. unfold ncfg_parse. destruct (malloc_ok SIZEOF_FILE); simpl; [|by eexists _, _].
  destruct (parse_init_answers malloc_ok fuel text Hf) as (items & p & -> & _). by eexists _, _.
Qed.

Lemma ncfg_parse_total_witness :
  parse_fuel (bytes "a = {[[") <= 200 /\
  exists r ds, ncfg_parse (fun _ => true) 200 (bytes "a = {[[") = Some (r, ds).
Proof.
  split; [apply Nat.leb_le; reflexivity|].
  apply (ncfg_parse_total (fun _ => true) 200 (bytes "a = {[[")). apply Nat.leb_le. reflexivity.
Defined.

(** A tree the parser hands out never has more than
    [NCFG_MAX_NESTING_DEPTH] blocks and lists open at once, counted together,
    so the recursive walks over it (freeing it, lowering it) are bounded. *)
Theorem ncfg_parse_depth malloc_ok fuel text items ds :
  parse_fuel text <= fuel -> ncfg_parse malloc_ok fuel text = Some (inr items, ds) ->
  ds_total ds = 0 /\ Forall (fun it => item_depth it <= NCFG_MAX_NESTING_DEPTH) items.
Proof.
  intros Hf H. unfold ncfg_parse in H. destruct (malloc_ok SIZEOF_FILE); simpl in H; [|done].
  destruct (parse_init_answers malloc_ok fuel text Hf) as (items' & p & Hp & _ & Hd).
  rewrite Hp in H. destruct ((ds_total (p_diags p) =? 0) && negb (p_out_of_memory p)) eqn:E.
  - injection H as <- <-. unbool. apply Nat.eqb_eq in H. done.
  - destruct (ds_at (p_diags p)); done.
Qed.

Lemma ncfg_parse_depth_witness :
  exists items ds, ncfg_parse (fun _ => true) 300 (bytes "a { b = [[1]] }") = Some (inr items, ds) /\
    map item_depth items = [3] /\ ds_total ds = 0.
Proof.
  destruct (ncfg_parse (fun _ => true) 300 (bytes "a { b = [[1]] }")) as [[[e|items] ds]|] eqn:E;
    [vm_compute in E; discriminate| |vm_compute in E; discriminate].
  exists items, ds. split; [reflexivity|]. split.
  - vm_compute in E. injection E as <- _. reflexivity.
  - apply (ncfg_parse_depth (fun _ => true) 300 (bytes "a { b = [[1]] }") items ds);
      [apply Nat.leb_le; reflexivity|exact E].
Defined.

(** With memory to spare, a text is accepted exactly when nothing was
    reported about it; otherwise the caller's sentence is the first
    diagnostic's, the kept diagnostics are the first sixty-four, and the
    total counts every one. A partly built tree never escapes. *)
Theorem ncfg_parse_all_or_nothing malloc_ok fuel text :
  (forall n, malloc_ok n = true) -> parse_fuel text <= fuel ->
  exists r ds, ncfg_parse malloc_ok fuel text = Some (r, ds) /\
    length (ds_at ds) = Nat.min (ds_total ds) NCFG_DIAGS_MAX /\
    match r with
    | inr _ => ds_total ds = 0
    | inl message => exists d rest, ds_at ds = d :: rest /\ message = error_set (dg_message d)
    end.
Proof.
  intros Ha Hf. unfold ncfg_parse. rewrite Ha. cbn [negb].
  destruct (parse_init_answers malloc_ok fuel text Hf) as (items & p & -> & [_ _ _ Hwf Hoom] & _).
  destruct Hwf as (_ & _ & Hlen).
  { unfold diags_wf; simpl. split_and!; [lia|lia|done]. }
  specialize (Hlen Ha). specialize (Hoom Ha). simpl in Hoom. rewrite Hoom, andb_true_r.
  eexists _, _. split; [reflexivity|]. split; [done|].
  destruct (ds_total (p_diags p) =? 0) eqn:E; [by apply Nat.eqb_eq|]. apply Nat.eqb_neq in E.
  destruct (ds_at (p_diags p)) as [|d rest]; [|by eexists _, _].
  unfold NCFG_DIAGS_MAX in Hlen. simpl in Hlen. lia.
Qed.

Lemma ncfg_parse_all_or_nothing_witness :
  exists r ds, ncfg_parse (fun _ => true) 300 (bytes "a = ; b 2") = Some (r, ds) /\
    length (ds_at ds) = Nat.min (ds_total ds) NCFG_DIAGS_MAX.
Proof.
  destruct (ncfg_parse_all_or_nothing (fun _ => true) 300 (bytes "a = ; b 2")) as (r & ds & H & Hl & _).
  - reflexivity.
  - apply Nat.leb_le. reflexivity.
  - exists r, ds. split; [exact H|exact Hl].
Defined.

(** Two texts the parser says less about than its comments promise. A lexer
    failure at the start of a statement is an end of input to [parse_file], so
    the rest of the file is not looked at; and a value missing at the end of a
    line takes the terminator with it, so [recover] skips the whole next
    statement. *)
Example lexer_failure_ends_the_parse :
  match ncfg_parse (fun _ => true) 300 (bytes "@
@
@
") with
  | Some (_, ds) => ds_total ds = 1
  | None => False
  end.
Proof. vm_compute. reflexivity. Qed.

Example recovery_skips_the_next_statement :
  match ncfg_parse (fun _ => true) 400 (bytes "a =
b =
c =
") with
  | Some (_, ds) => ds_total ds = 2
  | None => False
  end.
Proof. vm_compute. reflexivity. Qed.
