(* ===== verification/Op.v ===== *)
(** * Op: the operations a plan is made of, and the questions asked of one

    Models [include/ncfg/plan.h] (the op union), [plan/action.c] (name,
    disruption, interface, subject), [apply/kernel_inverse.c] and the two
    predicates of [apply/apply.c] and [apply/backend_ops.c] that say what this
    build can carry out.  A C string is an [option string], [None] being NULL. *)
From S2P Require Import Prelude.
From stdpp Require Import pretty.

Notation cstr := (option string).
Notation optint := (option Z).

(** The enums an op carries, each in the source's order. *)
Inductive kind_tag : Set :=
| KIND_PHYSICAL | KIND_BRIDGE | KIND_BOND | KIND_VLAN | KIND_VXLAN | KIND_WIREGUARD
| KIND_PPPOE | KIND_OPENVPN | KIND_DUMMY | KIND_VETH | KIND_VRF | KIND_MACVLAN
| KIND_TUNNEL | KIND_TUN | KIND_IFB | KIND_MESH_POINT | KIND_RADIO.

Inductive backend_kind : Set :=
| BACKEND_DHCP4 | BACKEND_DHCP6 | BACKEND_SUPPLICANT | BACKEND_ACCESS_POINT
| BACKEND_WIREGUARD | BACKEND_PPPOE | BACKEND_OPENVPN | BACKEND_DNS
| BACKEND_ROUTER_ADVERT | BACKEND_LINK_LOCAL | BACKEND_DHCP_SERVER | BACKEND_UPNP.

Inductive acl_policy : Set := ACL_POLICY_DENY | ACL_POLICY_ALLOW.

Inductive hook_phase : Set :=
| HOOK_PHASE_PRE_UP | HOOK_PHASE_UP | HOOK_PHASE_POST_UP
| HOOK_PHASE_PRE_DOWN | HOOK_PHASE_DOWN | HOOK_PHASE_POST_DOWN
| HOOK_PHASE_CARRIER | HOOK_PHASE_LEASE | HOOK_PHASE_ROAM | HOOK_PHASE_PORTAL
| HOOK_PHASE_DRIFT.

#[export] Instance kind_tag_eq_dec : EqDecision kind_tag.
Proof. solve_decision. Defined.
#[export] Instance backend_kind_eq_dec : EqDecision backend_kind.
Proof. solve_decision. Defined.
#[export] Instance acl_policy_eq_dec : EqDecision acl_policy.
Proof. solve_decision. Defined.
#[export] Instance hook_phase_eq_dec : EqDecision hook_phase.
Proof. solve_decision. Defined.

(** [ncfg_route_t], [ncfg_routing_rule_t], [ncfg_offload_t] and
    [ncfg_forward_rule_t]. *)
Record route := Route {
  rt_destination : cstr; rt_via : cstr; rt_metric : optint; rt_table : optint;
  rt_src : cstr; rt_scope : optint; rt_onlink : bool; rt_proto : optint }.

Record routing_rule := RoutingRule {
  rr_id : cstr; rr_priority : Z; rr_family : Z;
  rr_from : cstr; rr_to : cstr; rr_iif : cstr; rr_oif : cstr;
  rr_fwmark : optint; rr_fwmask : optint; rr_table : optint; rr_action : Z;
  rr_suppress_prefixlength : optint; rr_l3mdev : bool; rr_invert : bool }.

Record offload := Offload { of_name : cstr; of_wanted : bool }.

Record forward_rule := ForwardRule {
  fr_kind : Z; fr_interface : cstr; fr_name : cstr; fr_protocol : Z; fr_port : Z;
  fr_to : cstr; fr_to_port : Z; fr_address : cstr; fr_network : cstr; fr_via : cstr }.

Inductive op_kind : Set :=
| OP_LINK_CREATE
| OP_LINK_DELETE
| OP_LINK_SET_MTU
| OP_LINK_SET_MAC
| OP_LINK_SET_MASTER
| OP_LINK_UNSET_MASTER
| OP_LINK_UP
| OP_LINK_DOWN
| OP_ADDR_ADD
| OP_ADDR_DEL
| OP_ROUTE_ADD
| OP_ROUTE_DEL
| OP_BACKEND_START
| OP_BACKEND_STOP
| OP_BACKEND_RELOAD
| OP_BRIDGE_VLAN_ADD
| OP_BRIDGE_VLAN_DEL
| OP_WIFI_SET_PROFILES
| OP_WIFI_ASSOCIATE
| OP_WIFI_DISASSOCIATE
| OP_WIFI_SET_REGDOM
| OP_ACCESS_CONTROL_ADD
| OP_ACCESS_CONTROL_DEL
| OP_NEIGHBOUR_ADD
| OP_NEIGHBOUR_DEL
| OP_STATION_STEER
| OP_LINK_SET_BOND
| OP_LINK_SET_BRIDGE
| OP_LINK_SET_MACVLAN
| OP_LINK_SET_TUNNEL
| OP_LINK_SET_VXLAN
| OP_WG_SET_DEVICE
| OP_WG_SET_PEERS
| OP_DNS_APPLY
| OP_LINK_SET_OFFLOADS
| OP_LINK_SET_WDS
| OP_LINK_SET_IPV6_TOKEN
| OP_RULE_ADD
| OP_RULE_DEL
| OP_QDISC_SET
| OP_QDISC_RESET
| OP_INGRESS_REDIRECT
| OP_INGRESS_REDIRECT_CLEAR
| OP_SYSCTL_SET_FORWARDING
| OP_SYSCTL_SET_PRIVACY
| OP_SYSCTL_SET_ACCEPT_RA
| OP_HOSTNAME_SET
| OP_NFTABLES_REPLACE
| OP_HOOK_RUN
| OP_COMMIT_ARM
| OP_COMMIT_CONFIRM
| OP_COMMIT_REVERT.

(** An op is the source's tagged union: one constructor per tag, carrying the
    member of the union that tag selects. [B] stands for what a plan only
    borrows from the document -- the details of an interface kind, a WireGuard
    peer, a DNS policy, a firewall -- and no function here looks inside. *)
Inductive op {B : Type} : Type :=
| LINK_CREATE (name : cstr) (kind : option (kind_tag * B))
| LINK_DELETE (name : cstr)
| LINK_SET_MTU (name : cstr) (mtu : Z)
| LINK_SET_MAC (name mac : cstr)
| LINK_SET_MASTER (name master : cstr)
| LINK_UNSET_MASTER (name : cstr)
| LINK_UP (name : cstr)
| LINK_DOWN (name : cstr)
| ADDR_ADD (iface addr : cstr) (preferred_lifetime valid_lifetime : optint)
| ADDR_DEL (iface addr : cstr)
| ROUTE_ADD (iface : cstr) (rt : option route)
| ROUTE_DEL (iface : cstr) (rt : option route)
| BACKEND_START (kind : backend_kind) (iface : cstr)
| BACKEND_STOP (kind : backend_kind) (iface : cstr)
| BACKEND_RELOAD (kind : backend_kind) (iface : cstr)
| BRIDGE_VLAN_ADD (iface : cstr) (vid : Z) (pvid untagged on_self : bool)
| BRIDGE_VLAN_DEL (iface : cstr) (vid : Z) (pvid untagged on_self : bool)
| WIFI_SET_PROFILES (device : cstr) (profiles : list cstr)
| WIFI_ASSOCIATE (device network_id : cstr)
| WIFI_DISASSOCIATE (device : cstr)
| WIFI_SET_REGDOM (device country : cstr)
| ACCESS_CONTROL_ADD (iface : cstr) (list : acl_policy) (station : cstr)
| ACCESS_CONTROL_DEL (iface : cstr) (list : acl_policy) (station : cstr)
| NEIGHBOUR_ADD (iface bssid ssid nr : cstr)
| NEIGHBOUR_DEL (iface bssid ssid nr : cstr)
| STATION_STEER (iface station target : cstr) (imminent : bool)
| LINK_SET_BOND (name : cstr) (mode : Z)
| LINK_SET_BRIDGE (name : cstr)
| LINK_SET_MACVLAN (name : cstr)
| LINK_SET_TUNNEL (name : cstr)
| LINK_SET_VXLAN (name : cstr)
| WG_SET_DEVICE (iface private_key_ref : cstr) (listen_port fwmark : optint)
| WG_SET_PEERS (iface : cstr) (peers : list B)
| DNS_APPLY (scope : cstr) (policy : option B)
| LINK_SET_OFFLOADS (name : cstr) (features : list offload)
| LINK_SET_WDS (name : cstr) (on : bool)
| LINK_SET_IPV6_TOKEN (name token : cstr)
| RULE_ADD (rule : option routing_rule)
| RULE_DEL (rule : option routing_rule)
| QDISC_SET (iface kind : cstr) (bandwidth_bits : optint) (ingress : bool)
| QDISC_RESET (iface : cstr)
| INGRESS_REDIRECT (iface target : cstr)
| INGRESS_REDIRECT_CLEAR (iface : cstr)
| SYSCTL_SET_FORWARDING (iface : cstr) (enabled : bool)
| SYSCTL_SET_PRIVACY (iface : cstr) (prefer_temporary : bool)
| SYSCTL_SET_ACCEPT_RA (iface : cstr) (value : Z)
| HOSTNAME_SET (name : cstr)
| NFTABLES_REPLACE (uplinks : list cstr) (firewall : option B) (forwards : list forward_rule)
| HOOK_RUN (iface : cstr) (phase : hook_phase) (path value : cstr)
| COMMIT_ARM (window_seconds : Z)
| COMMIT_CONFIRM
| COMMIT_REVERT (to_document_hash : cstr).

Arguments op : clear implicits.

#[export] Instance op_kind_eq_dec : EqDecision op_kind.
Proof. solve_decision. Defined.

(** [ncfg_backend_kind_name], [ncfg_hook_phase_name] and
    [ncfg_interface_kind_name]: the words of the tables in [model/observed.c],
    [model/value.c] and [model/document.c]. *)
Definition backend_kind_name (k : backend_kind) : string :=
  match k with
  | BACKEND_DHCP4 => "dhcp4" | BACKEND_DHCP6 => "dhcp6"
  | BACKEND_SUPPLICANT => "supplicant" | BACKEND_ACCESS_POINT => "access_point"
  | BACKEND_WIREGUARD => "wire_guard" | BACKEND_PPPOE => "pppoe"
  | BACKEND_OPENVPN => "open_vpn" | BACKEND_DNS => "dns"
  | BACKEND_ROUTER_ADVERT => "router_advert" | BACKEND_LINK_LOCAL => "link_local"
  | BACKEND_DHCP_SERVER => "dhcp_server" | BACKEND_UPNP => "upnp"
  end.

Definition hook_phase_name (p : hook_phase) : string :=
  match p with
  | HOOK_PHASE_PRE_UP => "pre_up" | HOOK_PHASE_UP => "up"
  | HOOK_PHASE_POST_UP => "post_up" | HOOK_PHASE_PRE_DOWN => "pre_down"
  | HOOK_PHASE_DOWN => "down" | HOOK_PHASE_POST_DOWN => "post_down"
  | HOOK_PHASE_CARRIER => "carrier" | HOOK_PHASE_LEASE => "lease"
  | HOOK_PHASE_ROAM => "roam" | HOOK_PHASE_PORTAL => "portal"
  | HOOK_PHASE_DRIFT => "drift"
  end.

Definition interface_kind_name (k : kind_tag) : string :=
  match k with
  | KIND_PHYSICAL => "physical" | KIND_BRIDGE => "bridge" | KIND_BOND => "bond"
  | KIND_VLAN => "vlan" | KIND_VXLAN => "vxlan" | KIND_WIREGUARD => "wire_guard"
  | KIND_PPPOE => "pppoe" | KIND_OPENVPN => "open_vpn" | KIND_DUMMY => "dummy"
  | KIND_VETH => "veth" | KIND_VRF => "vrf" | KIND_MACVLAN => "macvlan"
  | KIND_TUNNEL => "tunnel" | KIND_TUN => "tun" | KIND_IFB => "ifb"
  | KIND_MESH_POINT => "mesh_point" | KIND_RADIO => "radio"
  end.

(** [ncfg_op_name], a function of the tag alone. *)
Definition op_name_of_kind (k : op_kind) : string :=
  match k with
  | OP_LINK_CREATE => "link.create"
  | OP_LINK_DELETE => "link.delete"
  | OP_LINK_SET_MTU => "link.set_mtu"
  | OP_LINK_SET_MAC => "link.set_mac"
  | OP_LINK_SET_MASTER => "link.set_master"
  | OP_LINK_UNSET_MASTER => "link.unset_master"
  | OP_LINK_UP => "link.up"
  | OP_LINK_DOWN => "link.down"
  | OP_ADDR_ADD => "addr.add"
  | OP_ADDR_DEL => "addr.del"
  | OP_ROUTE_ADD => "route.add"
  | OP_ROUTE_DEL => "route.del"
  | OP_BACKEND_START => "backend.start"
  | OP_BACKEND_STOP => "backend.stop"
  | OP_BACKEND_RELOAD => "backend.reload"
  | OP_BRIDGE_VLAN_ADD => "bridge.vlan.add"
  | OP_BRIDGE_VLAN_DEL => "bridge.vlan.del"
  | OP_WIFI_SET_PROFILES => "wifi.set_profiles"
  | OP_WIFI_ASSOCIATE => "wifi.associate"
  | OP_WIFI_DISASSOCIATE => "wifi.disassociate"
  | OP_WIFI_SET_REGDOM => "wifi.set_regdom"
  | OP_ACCESS_CONTROL_ADD => "access_control.add"
  | OP_ACCESS_CONTROL_DEL => "access_control.del"
  | OP_NEIGHBOUR_ADD => "neighbour.add"
  | OP_NEIGHBOUR_DEL => "neighbour.del"
  | OP_STATION_STEER => "station.steer"
  | OP_LINK_SET_BOND => "link.set_bond"
  | OP_LINK_SET_BRIDGE => "link.set_bridge"
  | OP_LINK_SET_MACVLAN => "link.set_macvlan"
  | OP_LINK_SET_TUNNEL => "link.set_tunnel"
  | OP_LINK_SET_VXLAN => "link.set_vxlan"
  | OP_WG_SET_DEVICE => "wg.set_device"
  | OP_WG_SET_PEERS => "wg.set_peers"
  | OP_DNS_APPLY => "dns.apply"
  | OP_LINK_SET_OFFLOADS => "link.set_offloads"
  | OP_LINK_SET_WDS => "link.set_wds"
  | OP_LINK_SET_IPV6_TOKEN => "link.set_ipv6_token"
  | OP_RULE_ADD => "rule.add"
  | OP_RULE_DEL => "rule.del"
  | OP_QDISC_SET => "qdisc.set"
  | OP_QDISC_RESET => "qdisc.reset"
  | OP_INGRESS_REDIRECT => "ingress.redirect"
  | OP_INGRESS_REDIRECT_CLEAR => "ingress.redirect.clear"
  | OP_SYSCTL_SET_FORWARDING => "sysctl.set_forwarding"
  | OP_SYSCTL_SET_PRIVACY => "sysctl.set_privacy"
  | OP_SYSCTL_SET_ACCEPT_RA => "sysctl.set_accept_ra"
  | OP_HOSTNAME_SET => "hostname.set"
  | OP_NFTABLES_REPLACE => "nftables.replace"
  | OP_HOOK_RUN => "hook.run"
  | OP_COMMIT_ARM => "commit.arm"
  | OP_COMMIT_CONFIRM => "commit.confirm"
  | OP_COMMIT_REVERT => "commit.revert"
  end.

(** [subject_class]: the class of the object an op acts on. *)
Definition subject_class (k : op_kind) : cstr :=
  match k with
  | OP_LINK_CREATE | OP_LINK_DELETE | OP_LINK_UP | OP_LINK_DOWN => Some "link"
  | OP_LINK_SET_MTU => Some "mtu"
  | OP_LINK_SET_MAC => Some "mac"
  | OP_LINK_SET_MASTER | OP_LINK_UNSET_MASTER => Some "master"
  | OP_LINK_SET_BOND => Some "bond"
  | OP_LINK_SET_BRIDGE => Some "bridge"
  | OP_LINK_SET_MACVLAN => Some "macvlan"
  | OP_LINK_SET_TUNNEL => Some "tunnel"
  | OP_LINK_SET_VXLAN => Some "vxlan"
  | OP_LINK_SET_OFFLOADS => Some "offloads"
  | OP_LINK_SET_WDS => Some "wds"
  | OP_LINK_SET_IPV6_TOKEN => Some "token"
  | OP_ADDR_ADD | OP_ADDR_DEL => Some "addr"
  | OP_ROUTE_ADD | OP_ROUTE_DEL => Some "route"
  | OP_RULE_ADD | OP_RULE_DEL => Some "iprule"
  | OP_BACKEND_START | OP_BACKEND_STOP | OP_BACKEND_RELOAD => Some "backend"
  | OP_BRIDGE_VLAN_ADD | OP_BRIDGE_VLAN_DEL => Some "vlan"
  | OP_WIFI_SET_PROFILES | OP_WIFI_ASSOCIATE | OP_WIFI_DISASSOCIATE => Some "wifi"
  | OP_WIFI_SET_REGDOM => Some "regdom"
  | OP_ACCESS_CONTROL_ADD | OP_ACCESS_CONTROL_DEL => Some "acl"
  | OP_NEIGHBOUR_ADD | OP_NEIGHBOUR_DEL => Some "neighbour"
  | OP_STATION_STEER => Some "station"
  | OP_WG_SET_DEVICE | OP_WG_SET_PEERS => Some "wireguard"
  | OP_QDISC_SET | OP_QDISC_RESET => Some "qdisc"
  | OP_INGRESS_REDIRECT | OP_INGRESS_REDIRECT_CLEAR => Some "ingress"
  | OP_SYSCTL_SET_FORWARDING => Some "forwarding"
  | OP_SYSCTL_SET_PRIVACY => Some "privacy"
  | OP_SYSCTL_SET_ACCEPT_RA => Some "accept_ra"
  | OP_DNS_APPLY => Some "dns"
  | OP_NFTABLES_REPLACE => Some "nftables"
  | OP_HOSTNAME_SET => Some "hostname"
  | OP_HOOK_RUN => Some "hook"
  | OP_COMMIT_ARM | OP_COMMIT_CONFIRM | OP_COMMIT_REVERT => None
  end.

(** The tags in the enum's order, the ones the loop of
    [ncfg_op_subject_class_known] walks. *)
Definition all_op_kinds : list op_kind :=
  [OP_LINK_CREATE; OP_LINK_DELETE; OP_LINK_SET_MTU;
   OP_LINK_SET_MAC; OP_LINK_SET_MASTER; OP_LINK_UNSET_MASTER; OP_LINK_UP; OP_LINK_DOWN;
   OP_ADDR_ADD; OP_ADDR_DEL; OP_ROUTE_ADD; OP_ROUTE_DEL; OP_BACKEND_START; OP_BACKEND_STOP;
   OP_BACKEND_RELOAD; OP_BRIDGE_VLAN_ADD; OP_BRIDGE_VLAN_DEL; OP_WIFI_SET_PROFILES;
   OP_WIFI_ASSOCIATE; OP_WIFI_DISASSOCIATE; OP_WIFI_SET_REGDOM; OP_ACCESS_CONTROL_ADD;
   OP_ACCESS_CONTROL_DEL; OP_NEIGHBOUR_ADD; OP_NEIGHBOUR_DEL; OP_STATION_STEER;
   OP_LINK_SET_BOND; OP_LINK_SET_BRIDGE; OP_LINK_SET_MACVLAN; OP_LINK_SET_TUNNEL;
   OP_LINK_SET_VXLAN; OP_WG_SET_DEVICE; OP_WG_SET_PEERS; OP_DNS_APPLY; OP_LINK_SET_OFFLOADS;
   OP_LINK_SET_WDS; OP_LINK_SET_IPV6_TOKEN; OP_RULE_ADD; OP_RULE_DEL; OP_QDISC_SET;
   OP_QDISC_RESET; OP_INGRESS_REDIRECT; OP_INGRESS_REDIRECT_CLEAR; OP_SYSCTL_SET_FORWARDING;
   OP_SYSCTL_SET_PRIVACY; OP_SYSCTL_SET_ACCEPT_RA; OP_HOSTNAME_SET; OP_NFTABLES_REPLACE;
   OP_HOOK_RUN; OP_COMMIT_ARM; OP_COMMIT_CONFIRM; OP_COMMIT_REVERT].

(** [ncfg_op_subject_class_known]: the tags are walked, not a second list. *)
Definition op_subject_class_known (name : cstr) : bool :=
  match name with
  | None | Some EmptyString => false
  | Some n => existsb (fun k => bool_decide (subject_class k = Some n)) all_op_kinds
  end.

Section Questions.
Context {B : Type}.

Definition kind_of (o : op B) : op_kind :=
  match o with
  | LINK_CREATE _ _ => OP_LINK_CREATE
  | LINK_DELETE _ => OP_LINK_DELETE
  | LINK_SET_MTU _ _ => OP_LINK_SET_MTU
  | LINK_SET_MAC _ _ => OP_LINK_SET_MAC
  | LINK_SET_MASTER _ _ => OP_LINK_SET_MASTER
  | LINK_UNSET_MASTER _ => OP_LINK_UNSET_MASTER
  | LINK_UP _ => OP_LINK_UP
  | LINK_DOWN _ => OP_LINK_DOWN
  | ADDR_ADD _ _ _ _ => OP_ADDR_ADD
  | ADDR_DEL _ _ => OP_ADDR_DEL
  | ROUTE_ADD _ _ => OP_ROUTE_ADD
  | ROUTE_DEL _ _ => OP_ROUTE_DEL
  | BACKEND_START _ _ => OP_BACKEND_START
  | BACKEND_STOP _ _ => OP_BACKEND_STOP
  | BACKEND_RELOAD _ _ => OP_BACKEND_RELOAD
  | BRIDGE_VLAN_ADD _ _ _ _ _ => OP_BRIDGE_VLAN_ADD
  | BRIDGE_VLAN_DEL _ _ _ _ _ => OP_BRIDGE_VLAN_DEL
  | WIFI_SET_PROFILES _ _ => OP_WIFI_SET_PROFILES
  | WIFI_ASSOCIATE _ _ => OP_WIFI_ASSOCIATE
  | WIFI_DISASSOCIATE _ => OP_WIFI_DISASSOCIATE
  | WIFI_SET_REGDOM _ _ => OP_WIFI_SET_REGDOM
  | ACCESS_CONTROL_ADD _ _ _ => OP_ACCESS_CONTROL_ADD
  | ACCESS_CONTROL_DEL _ _ _ => OP_ACCESS_CONTROL_DEL
  | NEIGHBOUR_ADD _ _ _ _ => OP_NEIGHBOUR_ADD
  | NEIGHBOUR_DEL _ _ _ _ => OP_NEIGHBOUR_DEL
  | STATION_STEER _ _ _ _ => OP_STATION_STEER
  | LINK_SET_BOND _ _ => OP_LINK_SET_BOND
  | LINK_SET_BRIDGE _ => OP_LINK_SET_BRIDGE
  | LINK_SET_MACVLAN _ => OP_LINK_SET_MACVLAN
  | LINK_SET_TUNNEL _ => OP_LINK_SET_TUNNEL
  | LINK_SET_VXLAN _ => OP_LINK_SET_VXLAN
  | WG_SET_DEVICE _ _ _ _ => OP_WG_SET_DEVICE
  | WG_SET_PEERS _ _ => OP_WG_SET_PEERS
  | DNS_APPLY _ _ => OP_DNS_APPLY
  | LINK_SET_OFFLOADS _ _ => OP_LINK_SET_OFFLOADS
  | LINK_SET_WDS _ _ => OP_LINK_SET_WDS
  | LINK_SET_IPV6_TOKEN _ _ => OP_LINK_SET_IPV6_TOKEN
  | RULE_ADD _ => OP_RULE_ADD
  | RULE_DEL _ => OP_RULE_DEL
  | QDISC_SET _ _ _ _ => OP_QDISC_SET
  | QDISC_RESET _ => OP_QDISC_RESET
  | INGRESS_REDIRECT _ _ => OP_INGRESS_REDIRECT
  | INGRESS_REDIRECT_CLEAR _ => OP_INGRESS_REDIRECT_CLEAR
  | SYSCTL_SET_FORWARDING _ _ => OP_SYSCTL_SET_FORWARDING
  | SYSCTL_SET_PRIVACY _ _ => OP_SYSCTL_SET_PRIVACY
  | SYSCTL_SET_ACCEPT_RA _ _ => OP_SYSCTL_SET_ACCEPT_RA
  | HOSTNAME_SET _ => OP_HOSTNAME_SET
  | NFTABLES_REPLACE _ _ _ => OP_NFTABLES_REPLACE
  | HOOK_RUN _ _ _ _ => OP_HOOK_RUN
  | COMMIT_ARM _ => OP_COMMIT_ARM
  | COMMIT_CONFIRM => OP_COMMIT_CONFIRM
  | COMMIT_REVERT _ => OP_COMMIT_REVERT
  end.

Definition op_name (o : op B) : string := op_name_of_kind (kind_of o).

(** [ncfg_op_is_disruptive]: can this interrupt traffic on the interface it
    touches. *)
Definition op_is_disruptive (o : op B) : bool :=
  match o with
  | LINK_DELETE _
  | LINK_DOWN _
  | LINK_SET_MASTER _ _
  | LINK_UNSET_MASTER _
  | LINK_SET_MAC _ _
  | LINK_SET_MTU _ _
  | ADDR_DEL _ _
  | ROUTE_DEL _ _
  | BACKEND_STOP _ _
  | BACKEND_RELOAD _ _
  | WIFI_DISASSOCIATE _
  | WIFI_ASSOCIATE _ _
  | WG_SET_DEVICE _ _ _ _
  | WG_SET_PEERS _ _
  | LINK_SET_BRIDGE _
  | LINK_SET_BOND _ _
  | LINK_SET_MACVLAN _
  | LINK_SET_TUNNEL _
  | LINK_SET_VXLAN _
  | BRIDGE_VLAN_DEL _ _ _ _ _
  | RULE_DEL _
  | INGRESS_REDIRECT_CLEAR _ => true
  | SYSCTL_SET_FORWARDING _ enabled => negb enabled
  | ACCESS_CONTROL_ADD _ list _ => bool_decide (list = ACL_POLICY_DENY)
  | ACCESS_CONTROL_DEL _ list _ => bool_decide (list = ACL_POLICY_ALLOW)
  | STATION_STEER _ _ _ imminent => imminent
  | HOOK_RUN _ phase _ _ =>
      bool_decide (phase = HOOK_PHASE_PRE_DOWN) || bool_decide (phase = HOOK_PHASE_DOWN) ||
      bool_decide (phase = HOOK_PHASE_POST_DOWN)
  | LINK_CREATE _ _
  | LINK_UP _
  | ADDR_ADD _ _ _ _
  | ROUTE_ADD _ _
  | BACKEND_START _ _
  | WIFI_SET_PROFILES _ _
  | WIFI_SET_REGDOM _ _
  | DNS_APPLY _ _
  | COMMIT_ARM _
  | COMMIT_CONFIRM
  | BRIDGE_VLAN_ADD _ _ _ _ _
  | QDISC_SET _ _ _ _
  | QDISC_RESET _
  | INGRESS_REDIRECT _ _
  | NFTABLES_REPLACE _ _ _
  | RULE_ADD _
  | LINK_SET_IPV6_TOKEN _ _
  | HOSTNAME_SET _
  | SYSCTL_SET_PRIVACY _ _
  | SYSCTL_SET_ACCEPT_RA _ _
  | LINK_SET_OFFLOADS _ _
  | LINK_SET_WDS _ _
  | NEIGHBOUR_ADD _ _ _ _
  | NEIGHBOUR_DEL _ _ _ _
  | COMMIT_REVERT _ => false
  end.

(** [ncfg_op_is_host_wide_config]. *)
Definition op_is_host_wide_config (o : op B) : bool :=
  match o with DNS_APPLY _ _ | HOSTNAME_SET _ => true | _ => false end.

(** [ncfg_op_interface]. *)
Definition op_interface (o : op B) : cstr :=
  match o with
  | LINK_CREATE name _ => name
  | LINK_SET_MTU name _ => name
  | LINK_SET_MAC name _ => name
  | LINK_SET_MASTER name _ => name
  | LINK_SET_BOND name _ => name
  | LINK_SET_IPV6_TOKEN name _ => name
  | LINK_SET_OFFLOADS name _ => name
  | LINK_SET_WDS name _ => name
  | LINK_DELETE name
  | LINK_UNSET_MASTER name
  | LINK_UP name
  | LINK_DOWN name
  | LINK_SET_BRIDGE name
  | LINK_SET_MACVLAN name
  | LINK_SET_TUNNEL name
  | LINK_SET_VXLAN name => name
  | ADDR_ADD iface _ _ _ => iface
  | ADDR_DEL iface _ => iface
  | ROUTE_ADD iface _
  | ROUTE_DEL iface _ => iface
  | BACKEND_START _ iface
  | BACKEND_STOP _ iface
  | BACKEND_RELOAD _ iface => iface
  | BRIDGE_VLAN_ADD iface _ _ _ _
  | BRIDGE_VLAN_DEL iface _ _ _ _ => iface
  | WIFI_SET_PROFILES device _ => device
  | WIFI_ASSOCIATE device _ => device
  | WIFI_DISASSOCIATE device => device
  | WIFI_SET_REGDOM device _ => device
  | ACCESS_CONTROL_ADD iface _ _
  | ACCESS_CONTROL_DEL iface _ _ => iface
  | NEIGHBOUR_ADD iface _ _ _
  | NEIGHBOUR_DEL iface _ _ _ => iface
  | STATION_STEER iface _ _ _ => iface
  | WG_SET_DEVICE iface _ _ _ => iface
  | WG_SET_PEERS iface _ => iface
  | QDISC_SET iface _ _ _ => iface
  | QDISC_RESET iface
  | INGRESS_REDIRECT_CLEAR iface => iface
  | INGRESS_REDIRECT iface _ => iface
  | SYSCTL_SET_FORWARDING iface _ => iface
  | SYSCTL_SET_PRIVACY iface _ => iface
  | SYSCTL_SET_ACCEPT_RA iface _ => iface
  | HOOK_RUN iface _ _ _ => iface
  | RULE_ADD _
  | RULE_DEL _
  | NFTABLES_REPLACE _ _ _
  | HOSTNAME_SET _
  | DNS_APPLY _ _
  | COMMIT_ARM _
  | COMMIT_CONFIRM
  | COMMIT_REVERT _ => None
  end.

(** [snprintf] into a buffer of [size] bytes keeps [size - 1] of them. *)
Definition snprintf_cut (size : nat) (text : string) : string :=
  String.substring 0 (size - 1) text.

(** The detail of a subject, as the [switch] of [ncfg_op_subject] formats it
    into [char detail[96]]. *)
Definition op_detail (o : op B) : string :=
  snprintf_cut 96
    match o with
    | ADDR_ADD _ addr _ _ | ADDR_DEL _ addr => default "" addr
    | ROUTE_ADD _ rt | ROUTE_DEL _ rt => default "" (rt ≫= rt_destination)
    | RULE_ADD rule | RULE_DEL rule => default "" (pretty ∘ rr_priority <$> rule)
    | BACKEND_START kind _ | BACKEND_STOP kind _ | BACKEND_RELOAD kind _ =>
        backend_kind_name kind
    | BRIDGE_VLAN_ADD _ vid _ _ _ | BRIDGE_VLAN_DEL _ vid _ _ _ => pretty vid
    | ACCESS_CONTROL_ADD _ _ station | ACCESS_CONTROL_DEL _ _ station => default "" station
    | STATION_STEER _ station _ _ => default "" station
    | NEIGHBOUR_ADD _ bssid _ _ | NEIGHBOUR_DEL _ bssid _ _ => default "" bssid
    | HOOK_RUN _ phase _ _ => hook_phase_name phase
    | _ => ""
    end.

Definition op_scope (o : op B) : string := default "host" (op_interface o).

(** The text ["%s:%s%s%s"] of [ncfg_op_subject]. *)
Definition subject_text (class_name scope detail : string) : string :=
  class_name +:+ ":" +:+ scope +:+ (if bool_decide (detail = "") then "" else "/") +:+ detail.

(** [ncfg_op_subject]: refused, never truncated, when [out_size] is short. *)
Definition op_subject (o : op B) (out_size : nat) : cstr :=
  if Nat.eqb out_size 0 then None
  else
    match subject_class (kind_of o) with
    | None => None
    | Some class_name =>
        let text := subject_text class_name (op_scope o) (op_detail o) in
        if (String.length text <? out_size)%nat then Some text else None
    end.

End Questions.
