(* ===== verification/Support.v ===== *)
(** * Support: what this build can carry out, what it may skip, what undoes what

    Models [creatable], [ifb_device], [ncfg_apply_optional] and
    [ncfg_apply_supported] of [apply/apply.c], [ncfg_service_backend_supported]
    of [apply/backend_ops.c] and [ncfg_kernel_inverse_kind] of
    [apply/kernel_inverse.c], and proves the theorems about a subject and
    about an inverse.  A refusal is [inr] of its message. *)
From S2P Require Import Prelude Op.
From stdpp Require Import pretty.
From Stdlib Require Import Ascii.

Definition verdict : Type := unit + string.

Definition is_yes (v : verdict) : bool := match v with inl _ => true | inr _ => false end.

(** [creatable], message for message. *)
Definition creatable {B} (kind : option (kind_tag * B)) (name : cstr) : verdict :=
  match kind with
  | None =>
      inr ("link.create for " +:+ default "an unnamed link" name +:+
           " carries no kind, so there is nothing to create it as")
  | Some (tag, _) =>
      let word := interface_kind_name tag in
      match tag with
      | KIND_BRIDGE | KIND_DUMMY | KIND_IFB | KIND_VETH | KIND_VRF | KIND_VXLAN => inl ()
      | KIND_RADIO | KIND_MESH_POINT => inl ()
      | KIND_TUN => inl ()
      | KIND_WIREGUARD => inl ()
      | KIND_VLAN | KIND_BOND | KIND_MACVLAN | KIND_TUNNEL => inl ()
      | KIND_PHYSICAL =>
          inr (default "?" name +:+
               " is a physical device: netcfgd configures one and cannot make one")
      | KIND_PPPOE | KIND_OPENVPN =>
          inr ("a " +:+ word +:+ " interface (" +:+ default "?" name +:+
               ") is created by the helper that connects it rather than " +:+
               "by a netlink message: `backend.start` is what brings one up")
      end
  end.

(** [ifb_device]: [strncmp(name, "ifb-", 4) == 0]. *)
Definition ifb_device (name : cstr) : bool :=
  match name with Some n => String.prefix "ifb-" n | None => false end.

Section Predicates.
Context {B : Type}.

(** [ncfg_apply_optional]: an action whose failure does not stop the plan. *)
Definition apply_optional (o : op B) : bool :=
  match o with
  | QDISC_SET _ _ _ _ | QDISC_RESET _ | INGRESS_REDIRECT _ _ | INGRESS_REDIRECT_CLEAR _
  | NFTABLES_REPLACE _ _ _ => true
  | LINK_SET_OFFLOADS _ _ => true
  | LINK_CREATE _ kind =>
      match kind with Some (tag, _) => bool_decide (tag = KIND_IFB) | None => false end
  | LINK_DELETE name | LINK_UP name | LINK_DOWN name => ifb_device name
  | _ => false
  end.

(** [ncfg_service_backend_supported] on a backend op of the given tag: the
    kind is looked at before the verb. *)
Definition service_backend_supported (verb : op_kind) (kind : backend_kind) (iface : cstr)
    : verdict :=
  let name := op_name_of_kind verb in
  let iface := default "?" iface in
  match kind with
  | BACKEND_WIREGUARD =>
      inr (name +:+ " on " +:+ iface +:+
           " names WireGuard, which is a kernel device rather than a " +:+
           "daemon: `link.create` makes it and `wg.set_device` configures it, so " +:+
           "there is no process here to start, stop or reload")
  | BACKEND_DNS =>
      inr (name +:+ " on " +:+ iface +:+
           " names DNS, which `dns.apply` delivers rather than a daemon " +:+
           "netcfgd runs: the resolver is somebody else's, so there is nothing here " +:+
           "to start, stop or reload")
  | _ =>
      if bool_decide (verb = OP_BACKEND_RELOAD) then
        match kind with
        | BACKEND_ROUTER_ADVERT => inl ()
        | _ =>
            inr (name +:+ " on " +:+ iface +:+
                 " has no reload: only a router advertisement daemon re-reads " +:+
                 "its configuration, an access point's would be a restart, and a DHCP " +:+
                 "client's is the client's own business")
        end
      else inl ()
  end.

(** [ncfg_apply_supported]. *)
Definition apply_supported (o : op B) : verdict :=
  match o with
  | LINK_CREATE name kind => creatable kind name
  | BACKEND_START kind iface => service_backend_supported OP_BACKEND_START kind iface
  | BACKEND_STOP kind iface => service_backend_supported OP_BACKEND_STOP kind iface
  | BACKEND_RELOAD kind iface => service_backend_supported OP_BACKEND_RELOAD kind iface
  | LINK_DELETE _ | LINK_SET_MTU _ _ | LINK_SET_MAC _ _ | LINK_SET_MASTER _ _
  | LINK_UNSET_MASTER _ | LINK_UP _ | LINK_DOWN _ | ADDR_ADD _ _ _ _ | ADDR_DEL _ _
  | ROUTE_ADD _ _ | ROUTE_DEL _ _ | HOOK_RUN _ _ _ _ => inl ()
  | COMMIT_ARM _ | COMMIT_CONFIRM | COMMIT_REVERT _ => inl ()
  | WIFI_SET_PROFILES _ _ | WIFI_ASSOCIATE _ _ | WIFI_DISASSOCIATE _ | WIFI_SET_REGDOM _ _
  | ACCESS_CONTROL_ADD _ _ _ | ACCESS_CONTROL_DEL _ _ _ | NEIGHBOUR_ADD _ _ _ _
  | NEIGHBOUR_DEL _ _ _ _ | STATION_STEER _ _ _ _ | DNS_APPLY _ _
  | SYSCTL_SET_FORWARDING _ _ | SYSCTL_SET_PRIVACY _ _ | SYSCTL_SET_ACCEPT_RA _ _
  | HOSTNAME_SET _ => inl ()
  | LINK_SET_BOND _ _ | LINK_SET_BRIDGE _ | LINK_SET_MACVLAN _ | LINK_SET_TUNNEL _
  | LINK_SET_VXLAN _ | LINK_SET_IPV6_TOKEN _ _ | LINK_SET_OFFLOADS _ _ | LINK_SET_WDS _ _
  | BRIDGE_VLAN_ADD _ _ _ _ _ | BRIDGE_VLAN_DEL _ _ _ _ _ | WG_SET_DEVICE _ _ _ _
  | WG_SET_PEERS _ _ | RULE_ADD _ | RULE_DEL _ | QDISC_SET _ _ _ _ | QDISC_RESET _
  | INGRESS_REDIRECT _ _ | INGRESS_REDIRECT_CLEAR _ | NFTABLES_REPLACE _ _ _ => inl ()
  end.

End Predicates.

(** [ncfg_kernel_inverse_kind]; [None] is [NCFG_OP_NONE_INVERSE]. *)
Definition kernel_inverse_kind (k : op_kind) : option op_kind :=
  match k with
  | OP_RULE_ADD => Some OP_RULE_DEL
  | OP_RULE_DEL => Some OP_RULE_ADD
  | OP_BRIDGE_VLAN_ADD => Some OP_BRIDGE_VLAN_DEL
  | OP_BRIDGE_VLAN_DEL => Some OP_BRIDGE_VLAN_ADD
  | OP_QDISC_SET => Some OP_QDISC_RESET
  | OP_INGRESS_REDIRECT => Some OP_INGRESS_REDIRECT_CLEAR
  | OP_INGRESS_REDIRECT_CLEAR => Some OP_INGRESS_REDIRECT
  | OP_WG_SET_PEERS => Some OP_WG_SET_PEERS
  | OP_NFTABLES_REPLACE => Some OP_NFTABLES_REPLACE
  | _ => None
  end.

(** ** Strings: a text up to the first occurrence of a separator *)

Fixpoint mentions (c : Ascii.ascii) (s : string) : bool :=
  match s with
  | EmptyString => false
  | String a r => bool_decide (a = c) || mentions c r
  end.

Lemma append_cons c s t : String c s +:+ t = String c (s +:+ t).
Proof. reflexivity. Qed.

Lemma append_empty t : EmptyString +:+ t = t.
Proof. reflexivity. Qed.

Lemma append_empty_r s : s +:+ EmptyString = s.
Proof. induction s as [|c s IH]; [done|]. by rewrite append_cons, IH. Qed.

Lemma separator_unique c a b r q :
  mentions c a = false -> mentions c b = false ->
  a +:+ String c r = b +:+ String c q -> a = b /\ r = q.
Proof.
  revert b. induction a as [|x a IH]; intros [|y b] Ha Hb E;
    rewrite ?append_cons, ?append_empty in E; simpl in *; simplify_eq; unbool; try done.
  destruct (IH b) as [-> ->]; auto.
Qed.

Lemma mentions_app c a b : mentions c (a +:+ b) = mentions c a || mentions c b.
Proof.
  induction a as [|x a IH]; [done|]. rewrite append_cons. simpl. by rewrite IH, orb_assoc.
Qed.

(** A class never contains the colon that ends it. *)
Lemma subject_class_no_colon k c : subject_class k = Some c -> mentions ":"%char c = false.
Proof. destruct k; cbn; intros; simplify_eq; reflexivity. Qed.

(** The scope and the detail can be read back from what follows the colon
    when the scope has no slash, which no interface name has. *)
Lemma scope_detail_unique s1 d1 s2 d2 :
  mentions "/"%char s1 = false -> mentions "/"%char s2 = false ->
  s1 +:+ (if bool_decide (d1 = "") then "" else "/") +:+ d1 =
  s2 +:+ (if bool_decide (d2 = "") then "" else "/") +:+ d2 ->
  s1 = s2 /\ d1 = d2.
Proof.
  intros H1 H2 E.
  assert (forall s d s', mentions "/"%char s' = false -> s +:+ String "/"%char d = s' -> False) as Hno.
  { intros s d s' Hs <-. rewrite mentions_app in Hs. simpl in Hs.
    by rewrite orb_true_r in Hs. }
  repeat case_bool_decide; subst; rewrite ?append_cons, ?append_empty, ?append_empty_r in E; auto.
  - exfalso. exact (Hno _ _ _ H1 (eq_sym E)).
  - exfalso. exact (Hno _ _ _ H2 E).
  - by apply separator_unique in E.
Qed.

(** ** The subject of an op *)

(** What an interface name satisfies: the kernel accepts no slash in one. *)
Definition slash_free {B} (o : op B) : bool := negb (mentions "/"%char (op_scope o)).

Lemma op_subject_inv {B} (o : op B) size s :
  op_subject o size = Some s ->
  exists c, subject_class (kind_of o) = Some c /\
            s = subject_text c (op_scope o) (op_detail o).
Proof.
  unfold op_subject. intros H.
  destruct (size =? 0)%nat; [done|].
  destruct (subject_class (kind_of o)) as [c|]; [|done].
  destruct (_ <? _)%nat; simplify_eq. eauto.
Qed.

Lemma subject_text_split c s d :
  subject_text c s d =
  c +:+ String ":"%char (s +:+ (if bool_decide (d = "") then "" else "/") +:+ d).
Proof. reflexivity. Qed.

(** A subject names one object. Two ops -- of any kinds, keyed into buffers
    of any sizes -- that are given the same subject text act on the same class
    of object, in the same scope, with the same detail, provided no interface
    name holds a slash. *)
Theorem op_subject_identifies {B} (o1 o2 : op B) (n1 n2 : nat) (s : string) :
  slash_free o1 = true -> slash_free o2 = true ->
  op_subject o1 n1 = Some s -> op_subject o2 n2 = Some s ->
  subject_class (kind_of o1) = subject_class (kind_of o2) /\
  op_scope o1 = op_scope o2 /\ op_detail o1 = op_detail o2.
Proof.
  unfold slash_free. intros H1 H2 (c1 & E1 & ->)%op_subject_inv (c2 & E2 & T)%op_subject_inv.
  unbool. rewrite !subject_text_split in T.
  apply separator_unique in T as [-> T]; eauto using subject_class_no_colon.
  apply scope_detail_unique in T as [-> ->]; auto. split_and!; congruence.
Qed.

Lemma op_subject_identifies_witness :
  let up : op () := LINK_UP (Some "eth0") in
  let down : op () := LINK_DOWN (Some "eth0") in
  op_subject up 192 = Some "link:eth0" /\
  subject_class (kind_of up) = subject_class (kind_of down) /\
  op_scope up = op_scope down /\ op_detail up = op_detail down.
Proof.
  split; [reflexivity|].
  apply (op_subject_identifies (B := ()) _ _ 192 10 "link:eth0"); reflexivity.
Defined.

(** One op of each tag that has a subject, to show the class is produced. *)
Definition sample_op (k : op_kind) : op () :=
  match k with
  | OP_LINK_CREATE => LINK_CREATE (Some "e") None
  | OP_LINK_DELETE => LINK_DELETE (Some "e")
  | OP_LINK_SET_MTU => LINK_SET_MTU (Some "e") 0
  | OP_LINK_SET_MAC => LINK_SET_MAC (Some "e") None
  | OP_LINK_SET_MASTER => LINK_SET_MASTER (Some "e") None
  | OP_LINK_UNSET_MASTER => LINK_UNSET_MASTER (Some "e")
  | OP_LINK_UP => LINK_UP (Some "e")
  | OP_LINK_DOWN => LINK_DOWN (Some "e")
  | OP_ADDR_ADD => ADDR_ADD (Some "e") None None None
  | OP_ADDR_DEL => ADDR_DEL (Some "e") None
  | OP_ROUTE_ADD => ROUTE_ADD (Some "e") None
  | OP_ROUTE_DEL => ROUTE_DEL (Some "e") None
  | OP_BACKEND_START => BACKEND_START BACKEND_DHCP4 (Some "e")
  | OP_BACKEND_STOP => BACKEND_STOP BACKEND_DHCP4 (Some "e")
  | OP_BACKEND_RELOAD => BACKEND_RELOAD BACKEND_DHCP4 (Some "e")
  | OP_BRIDGE_VLAN_ADD => BRIDGE_VLAN_ADD (Some "e") 1 false false false
  | OP_BRIDGE_VLAN_DEL => BRIDGE_VLAN_DEL (Some "e") 1 false false false
  | OP_WIFI_SET_PROFILES => WIFI_SET_PROFILES (Some "e") []
  | OP_WIFI_ASSOCIATE => WIFI_ASSOCIATE (Some "e") None
  | OP_WIFI_DISASSOCIATE => WIFI_DISASSOCIATE (Some "e")
  | OP_WIFI_SET_REGDOM => WIFI_SET_REGDOM (Some "e") None
  | OP_ACCESS_CONTROL_ADD => ACCESS_CONTROL_ADD (Some "e") ACL_POLICY_DENY None
  | OP_ACCESS_CONTROL_DEL => ACCESS_CONTROL_DEL (Some "e") ACL_POLICY_DENY None
  | OP_NEIGHBOUR_ADD => NEIGHBOUR_ADD (Some "e") None None None
  | OP_NEIGHBOUR_DEL => NEIGHBOUR_DEL (Some "e") None None None
  | OP_STATION_STEER => STATION_STEER (Some "e") None None false
  | OP_LINK_SET_BOND => LINK_SET_BOND (Some "e") 0
  | OP_LINK_SET_BRIDGE => LINK_SET_BRIDGE (Some "e")
  | OP_LINK_SET_MACVLAN => LINK_SET_MACVLAN (Some "e")
  | OP_LINK_SET_TUNNEL => LINK_SET_TUNNEL (Some "e")
  | OP_LINK_SET_VXLAN => LINK_SET_VXLAN (Some "e")
  | OP_WG_SET_DEVICE => WG_SET_DEVICE (Some "e") None None None
  | OP_WG_SET_PEERS => WG_SET_PEERS (Some "e") []
  | OP_DNS_APPLY => DNS_APPLY (Some "e") None
  | OP_LINK_SET_OFFLOADS => LINK_SET_OFFLOADS (Some "e") []
  | OP_LINK_SET_WDS => LINK_SET_WDS (Some "e") false
  | OP_LINK_SET_IPV6_TOKEN => LINK_SET_IPV6_TOKEN (Some "e") None
  | OP_RULE_ADD => RULE_ADD None
  | OP_RULE_DEL => RULE_DEL None
  | OP_QDISC_SET => QDISC_SET (Some "e") None None false
  | OP_QDISC_RESET => QDISC_RESET (Some "e")
  | OP_INGRESS_REDIRECT => INGRESS_REDIRECT (Some "e") None
  | OP_INGRESS_REDIRECT_CLEAR => INGRESS_REDIRECT_CLEAR (Some "e")
  | OP_SYSCTL_SET_FORWARDING => SYSCTL_SET_FORWARDING (Some "e") false
  | OP_SYSCTL_SET_PRIVACY => SYSCTL_SET_PRIVACY (Some "e") false
  | OP_SYSCTL_SET_ACCEPT_RA => SYSCTL_SET_ACCEPT_RA (Some "e") 1
  | OP_HOSTNAME_SET => HOSTNAME_SET None
  | OP_NFTABLES_REPLACE => NFTABLES_REPLACE [] None []
  | OP_HOOK_RUN => HOOK_RUN (Some "e") HOOK_PHASE_UP None None
  | OP_COMMIT_ARM => COMMIT_ARM 0
  | OP_COMMIT_CONFIRM => COMMIT_CONFIRM
  | OP_COMMIT_REVERT => COMMIT_REVERT None
  end.

Lemma sample_op_subject k c :
  subject_class k = Some c ->
  exists r, op_subject (sample_op k) 192 = Some (c +:+ String ":"%char r).
Proof. destruct k; intros [= <-]; eexists; reflexivity. Qed.

Lemma all_op_kinds_complete k : k ∈ all_op_kinds.
Proof. apply list_elem_of_In. destruct k; cbn; tauto. Qed.

(** The loop over the tags finds exactly the classes of [subject_class]. *)
Lemma class_known_iff name :
  op_subject_class_known (Some name) = true <-> exists k, subject_class k = Some name.
Proof.
  split.
  - destruct name as [|a n]; [done|]. unfold op_subject_class_known.
    intros (k & _ & H)%existsb_exists. unbool. eauto.
  - intros [k Hk]. destruct name as [|a n].
    + by destruct k.
    + unfold op_subject_class_known. apply existsb_exists. exists k.
      split; [apply list_elem_of_In, all_op_kinds_complete|]. by apply bool_decide_eq_true.
Qed.

(** The classes a lock may name are exactly the classes a subject can begin
    with: a name without a colon is known if and only if some op has a subject
    whose text up to the colon is that name. *)
Theorem subject_class_known_exact (name : string) :
  mentions ":"%char name = false ->
  op_subject_class_known (Some name) = true <->
  exists (o : op ()) (size : nat) (rest : string),
    op_subject o size = Some (name +:+ String ":"%char rest).
Proof.
  intros Hn. rewrite class_known_iff. split.
  - intros [k Hk]. destruct (sample_op_subject k name Hk) as [r Hr]. eauto.
  - intros (o & size & rest & (c & Hc & E)%op_subject_inv). rewrite subject_text_split in E.
    apply separator_unique in E as [-> _]; eauto using subject_class_no_colon.
Qed.

Lemma subject_class_known_exact_witness :
  exists (o : op ()) (size : nat) (rest : string),
    op_subject o size = Some ("mtu" +:+ String ":"%char rest).
Proof. apply (subject_class_known_exact "mtu"); reflexivity. Defined.

(** What the inverse table promises a revert. Where it names an inverse tag,
    every op of the tag and every op of its inverse is carried out by this
    build, both act on the same class of object (so a lock on one covers the
    other), a failure of both is treated alike, and -- [qdisc.set] apart --
    the inverse of the inverse is the tag itself. *)
Theorem kernel_inverse_kind_sound {B} (k k' : op_kind) (o o' : op B) :
  kernel_inverse_kind k = Some k' -> kind_of o = k -> kind_of o' = k' ->
  apply_supported o = inl () /\ apply_supported o' = inl () /\
  subject_class k = subject_class k' /\ apply_optional o = apply_optional o' /\
  (k <> OP_QDISC_SET -> kernel_inverse_kind k' = Some k).
Proof.
  intros H Ho Ho'. destruct o; cbn in Ho; subst k; cbn in H; try discriminate;
    injection H as <-; destruct o'; cbn in Ho'; try discriminate; cbn; by split_and!.
Qed.

Lemma kernel_inverse_kind_sound_witness :
  let add : op () := RULE_ADD None in
  let del : op () := RULE_DEL None in
  apply_supported add = inl () /\ apply_supported del = inl () /\
  subject_class OP_RULE_ADD = subject_class OP_RULE_DEL /\
  apply_optional add = apply_optional del /\
  (OP_RULE_ADD <> OP_QDISC_SET -> kernel_inverse_kind OP_RULE_DEL = Some OP_RULE_ADD).
Proof. apply kernel_inverse_kind_sound; reflexivity. Defined.

(** The detail itself is cut at 95 characters before the check on the whole
    key, so two neighbours whose identifiers agree that far share a subject. *)
Example subject_detail_is_cut :
  let long (c : string) : cstr :=
    Some ("0123456789012345678901234567890123456789012345678901234567890123456789" +:+
          "0123456789012345678901234" +:+ c) in
  let o c : op () := NEIGHBOUR_ADD (Some "wlan0") (long c) None None in
  o "a" <> o "b" /\ op_subject (o "a") 192 = op_subject (o "b") 192 /\
  op_subject (o "a") 192 <> None.
Proof. vm_compute. split_and!; [discriminate|reflexivity|discriminate]. Qed.
