(* ===== verification/Heap.v ===== *)
(** * Heap: allocation, and the arena that plans and journals keep

    [plan/plan.c] and [apply/journal.c] both record every allocation they make
    in an array of their own, [owned], so that freeing is one loop.  The heap
    here is what that discipline is about: which blocks are live, and whether a
    block was ever freed or grown twice.  A block's identity is the number of
    the request that made it, so a block is never given out twice, and
    [realloc] always moves: code that is right here does not depend on a block
    staying where it was.  Whether a request is granted is the parameter
    [grant]. *)
From S2P Require Import Prelude.
From stdpp Require Import gmap.

Record heap := Heap { h_ticks : nat; h_live : gset nat; h_fault : bool }.

(** A computation that threads a state. *)
Definition State (S A : Type) : Type := S -> A * S.

#[export] Instance state_ret S : MRet (State S) := fun A a s => (a, s).
#[export] Instance state_bind S : MBind (State S) :=
  fun A B k m s => let '(a, s') := m s in k a s'.

Section WithAllocator.
Context (grant : nat -> bool).

(** [malloc] and [calloc]. *)
Definition h_malloc (h : heap) : option nat * heap :=
  let n := h_ticks h in
  if grant n then (Some n, Heap (S n) ({[ n ]} ∪ h_live h) (h_fault h))
  else (None, Heap (S n) (h_live h) (h_fault h)).

(** [free]; a pointer that is not a live block is a fault. *)
Definition h_free (p : option nat) (h : heap) : heap :=
  match p with
  | None => h
  | Some b =>
      if decide (b ∈ h_live h) then Heap (h_ticks h) (h_live h ∖ {[ b ]}) (h_fault h)
      else Heap (h_ticks h) (h_live h) true
  end.

(** [realloc]: a failed one leaves the old block where it was. *)
Definition h_realloc (p : option nat) (h : heap) : option nat * heap :=
  match p with
  | None => h_malloc h
  | Some b =>
      if decide (b ∈ h_live h) then
        let n := h_ticks h in
        if grant n then (Some n, Heap (S n) ({[ n ]} ∪ (h_live h ∖ {[ b ]})) (h_fault h))
        else (None, Heap (S n) (h_live h) (h_fault h))
      else (None, Heap (h_ticks h) (h_live h) true)
  end.

(** [free] over an array of pointers, front to back. *)
Definition h_free_all (bs : list nat) (h : heap) : heap :=
  foldl (fun h b => h_free (Some b) h) h bs.

(** ** The arena: the fields [owned], [owned_count], [owned_capacity], [failed] *)

Record arena := Arena {
  a_owned : list nat;
  a_capacity : nat;
  a_block : option nat;
  a_failed : bool }.

Definition arena_init : arena := Arena [] 0 None false.

Definition arena_fail (a : arena) : arena :=
  Arena (a_owned a) (a_capacity a) (a_block a) true.

(** [keep]: record one allocation, or free it and fail. [first] is the
    capacity of the first array: 64 for a plan, 32 for a journal. *)
Definition keep (first : nat) (block : option nat) : State (arena * heap) (option nat) :=
  fun '(a, h) =>
    match block with
    | None => (None, (arena_fail a, h))
    | Some b =>
        if Nat.eqb (length (a_owned a)) (a_capacity a) then
          let wanted := if Nat.eqb (a_capacity a) 0 then first else (a_capacity a * 2)%nat in
          match h_realloc (a_block a) h with
          | (None, h') => (None, (arena_fail a, h_free (Some b) h'))
          | (Some g, h') =>
              (Some b, (Arena (a_owned a ++ [b]) wanted (Some g) (a_failed a), h'))
          end
        else (Some b, (Arena (a_owned a ++ [b]) (a_capacity a) (a_block a) (a_failed a), h))
    end.

(** One allocation of the arena's owner. *)
Definition a_malloc : State (arena * heap) (option nat) :=
  fun '(a, h) => let '(b, h') := h_malloc h in (b, (a, h')).

(** [intern] and [ncfg_plan_intern]: a copy of [text] the arena owns. *)
Definition intern (first : nat) (text : option string) : State (arena * heap) (option string) :=
  fun s =>
    if a_failed s.1 then (None, s)
    else
      match text with
      | None => (None, s)
      | Some t =>
          (copy ← a_malloc;
           kept ← keep first copy;
           mret (match kept with Some _ => Some t | None => None end)) s
      end.

End WithAllocator.

(** Every block an arena answers for. *)
Definition arena_blocks (a : arena) : list nat := a_owned a ++ option_list (a_block a).

(** ** Ownership

    [owns F h bs]: nothing has faulted, and the live blocks are those of [F],
    which belong to others, and the blocks [bs], each once. *)
Definition owns (F : gset nat) (h : heap) (bs : list nat) : Prop :=
  h_fault h = false /\ NoDup bs /\ h_live h = F ∪ list_to_set bs /\
  (forall b, b ∈ bs -> b ∉ F) /\ (forall b, b ∈ h_live h -> (b < h_ticks h)%nat).

#[export] Instance owns_proper F h : Proper (Permutation ==> iff) (owns F h).
Proof.
  assert (forall l k, l ≡ₚ k -> owns F h l -> owns F h k) as Hone.
  { intros l k Hp (Hf & Hn & Hl & Hd & Ht). split_and!; auto.
    - by rewrite <- Hp.
    - by rewrite Hl, Hp.
    - intros b. rewrite <- Hp. auto. }
  intros l k Hp. split; apply Hone; [done|by symmetry].
Qed.

Lemma owns_malloc grant F h bs r h' :
  owns F h bs -> h_malloc grant h = (r, h') -> owns F h' (option_list r ++ bs).
Proof.
  intros (Hf & Hn & Hl & Hd & Ht) E. unfold h_malloc in E.
  assert (h_ticks h ∉ h_live h) as Hfresh by (intros H%Ht; lia).
  destruct (grant _); simplify_eq; cbn.
  - split_and!; cbn; auto.
    + constructor; [|done]. intros H. apply Hfresh. rewrite Hl. set_solver.
    + rewrite Hl. set_solver.
    + intros b [->|?]%elem_of_cons; [|by apply Hd]. rewrite Hl in Hfresh. set_solver.
    + intros b [->%elem_of_singleton|H%Ht]%elem_of_union; lia.
  - split_and!; cbn; auto. intros b H%Ht. lia.
Qed.

Lemma owns_free F h b bs : owns F h (b :: bs) -> owns F (h_free (Some b) h) bs.
Proof.
  intros (Hf & Hn & Hl & Hd & Ht). apply NoDup_cons in Hn as [Hb Hn]. unfold h_free.
  assert (b ∉ F) by (apply Hd; left).
  rewrite decide_True by (rewrite Hl; set_solver).
  split_and!; cbn; auto.
  - rewrite Hl. cbn. apply set_eq. intros x. destruct (decide (x = b)); set_solver.
  - intros x Hx. apply Hd. by right.
  - intros x [Hx _]%elem_of_difference. auto.
Qed.

Lemma owns_realloc grant F h p bs r h' :
  owns F h (option_list p ++ bs) -> h_realloc grant p h = (r, h') ->
  match r with
  | Some b => owns F h' (b :: bs)
  | None => owns F h' (option_list p ++ bs)
  end.
Proof.
  destruct p as [b|]; cbn [h_realloc option_list app]; intros H E.
  2:{ apply (owns_malloc _ _ _ _ _ _ H) in E. by destruct r. }
  pose proof H as (Hf & Hn & Hl & Hd & Ht).
  rewrite decide_True in E by (rewrite Hl; set_solver).
  pose proof (owns_free _ _ _ _ H) as Hfree. unfold h_free in Hfree.
  rewrite decide_True in Hfree by (rewrite Hl; set_solver).
  destruct (grant _) eqn:Eg; simplify_eq.
  - apply (owns_malloc grant _ _ _ (Some (h_ticks h)) _ Hfree).
    unfold h_malloc. cbn. by rewrite Eg.
  - split_and!; cbn; auto. intros x Hx%Ht. lia.
Qed.

Lemma owns_free_opt F h p bs : owns F h (option_list p ++ bs) -> owns F (h_free p h) bs.
Proof. destruct p; [apply owns_free|done]. Qed.

Lemma owns_free_all F h bs R : owns F h (bs ++ R) -> owns F (h_free_all bs h) R.
Proof.
  revert h. induction bs as [|b bs IH]; intros h H; cbn; [done|]. by apply IH, owns_free.
Qed.

(** What every step of an arena's owner preserves: the blocks stay exactly the
    arena's, blocks are only added, and a failure is never forgotten. *)
Definition arena_step (s s' : arena * heap) : Prop :=
  (forall F R, owns F s.2 (arena_blocks s.1 ++ R) -> owns F s'.2 (arena_blocks s'.1 ++ R)) /\
  (exists new, a_owned s'.1 = a_owned s.1 ++ new) /\
  (a_failed s.1 = true -> a_failed s'.1 = true).

#[export] Instance arena_step_preorder : PreOrder arena_step.
Proof.
  split.
  - intros s. split_and!; auto. exists []. by rewrite app_nil_r.
  - intros s t u (H1 & (n1 & E1) & F1) (H2 & (n2 & E2) & F2). split_and!; auto.
    exists (n1 ++ n2). by rewrite E2, E1, app_assoc.
Qed.

(** [keep] takes over the block it is given, or frees it. *)
Lemma keep_owns grant first b a h r a' h' :
  keep grant first (Some b) (a, h) = (r, (a', h')) ->
  (forall F R, owns F h (b :: arena_blocks a ++ R) -> owns F h' (arena_blocks a' ++ R)) /\
  a_owned a' = a_owned a ++ option_list r /\
  a_failed a' = match r with Some _ => a_failed a | None => true end.
Proof.
  unfold keep. intros E. destruct (_ =? _)%nat.
  - destruct (h_realloc grant (a_block a) h) as [[g|] h1] eqn:Er; simplify_eq; cbn;
      rewrite ?app_nil_r; split_and!; auto; intros F R H;
      assert (owns F h (option_list (a_block a) ++ b :: a_owned a ++ R)) as H'
        by (eapply owns_proper; [|exact H]; unfold arena_blocks; solve_Permutation).
    + apply (owns_realloc _ _ _ _ _ _ _ H') in Er.
      eapply owns_proper; [|exact Er]. unfold arena_blocks. cbn. solve_Permutation.
    + apply (owns_realloc _ _ _ _ _ _ _ H') in Er.
      apply owns_free. eapply owns_proper; [|exact Er]. unfold arena_blocks. cbn.
      solve_Permutation.
  - simplify_eq; cbn. split_and!; auto. intros F R H.
    eapply owns_proper; [|exact H]. unfold arena_blocks. cbn. solve_Permutation.
Qed.

(** One fresh block put straight into the arena: [keep(plan, malloc(...))]. *)
Definition alloc_kept (grant : nat -> bool) (first : nat) : State (arena * heap) (option nat) :=
  copy ← a_malloc grant; keep grant first copy.

Lemma alloc_kept_step grant first s r s' :
  alloc_kept grant first s = (r, s') ->
  arena_step s s' /\ (r = None -> a_failed s'.1 = true) /\
  (is_Some r -> a_failed s'.1 = a_failed s.1) /\
  a_owned s'.1 = a_owned s.1 ++ option_list r /\
  (forall F R b, owns F s.2 (arena_blocks s.1 ++ R) -> r = Some b -> b ∉ arena_blocks s.1 ++ R).
Proof.
  destruct s as [a h], s' as [a' h']. unfold alloc_kept, mbind, state_bind, a_malloc.
  destruct (h_malloc grant h) as [[b|] h1] eqn:Em; intros E.
  - destruct (keep_owns _ _ _ _ _ _ _ _ E) as (Ho & Hown & Hf).
    assert (forall F R, owns F h (arena_blocks a ++ R) -> owns F h1 (b :: arena_blocks a ++ R))
      as Hm by (intros F R H; apply (owns_malloc _ _ _ _ _ _ H Em)).
    split_and!; cbn; auto.
    + split_and!; cbn; eauto. by destruct r; rewrite Hf.
    + intros ->. done.
    + intros [x ->]. done.
    + intros F R x H ->. apply Hm in H as (_ & Hn & _). apply NoDup_cons in Hn as [Hb _].
      unfold keep in E. break; simplify_eq; done.
  - cbn in E. simplify_eq. cbn. rewrite app_nil_r. split_and!; auto.
    + split_and!; cbn; auto; [|exists []; by rewrite app_nil_r].
      intros F R H. unfold arena_blocks. cbn. apply (owns_malloc _ _ _ _ _ _ H Em).
    + by intros [? ?].
    + done.
Qed.

(** [intern] steps the arena, and yields its argument unless memory ran out. *)
Lemma intern_step grant first text s r s' :
  intern grant first text s = (r, s') ->
  arena_step s s' /\ (a_failed s'.1 = false -> r = text).
Proof.
  unfold intern. intros E. destruct (a_failed s.1) eqn:Ef.
  { simplify_eq. split; [reflexivity|congruence]. }
  destruct text as [t|]; [|simplify_eq; by split].
  unfold mbind, state_bind, mret, state_ret in E.
  destruct (a_malloc grant s) as [copy s1] eqn:Em.
  destruct (keep grant first copy s1) as [kept s2] eqn:Ek.
  destruct (alloc_kept_step grant first s kept s2) as (Hs & Hn & _).
  { unfold alloc_kept, mbind, state_bind. by rewrite Em. }
  destruct kept; simplify_eq; split; auto. intros Hff. rewrite Hn in Hff; done.
Qed.
