(* ===== verification/Plan.v ===== *)
(** * Plan: the container of [plan/plan.c]

    A plan is lists of actions, warnings, refusals and stranded credentials,
    grown one element at a time, whose strings and arrays all live in the plan's
    arena, beside the aggregates it adopted.  The model keeps both halves: the
    values ([p_actions] and the like) and the blocks that hold them
    ([p_actions_at] is the block the array is in).  [ncfg_firewall_copy] is one
    allocation here, as its release is one call. *)
From S2P Require Import Prelude Op Heap.
From stdpp Require Import gmap.

Record reason := Reason {
  rs_interface : cstr; rs_field : cstr; rs_desired : cstr; rs_observed : cstr }.

Record action (B : Type) := Action {
  ac_id : Z; ac_op : op B; ac_reason : reason; ac_depends_on : list Z;
  ac_inverse : option (op B) }.

Arguments Action {B}.
Arguments ac_id {B}.
Arguments ac_op {B}.
Arguments ac_reason {B}.
Arguments ac_depends_on {B}.
Arguments ac_inverse {B}.

Record warning := Warning { w_interface : cstr; w_message : cstr }.

Record refusal := Refusal {
  rf_interface : cstr; rf_op : cstr; rf_guard : cstr; rf_reason : reason;
  rf_override_with : cstr }.

Record stranded := Stranded {
  sd_interface : cstr; sd_credential : cstr; sd_irrevocable : cstr;
  sd_remove_with : cstr; sd_consent_with : cstr }.

(** The memory half of [struct ncfg_plan]: [owned], [adopted], [failed]. *)
Record pmem := Pmem {
  m_arena : arena;
  m_adopted : list nat;
  m_adopted_capacity : nat;
  m_adopted_block : option nat }.

Definition m_failed (m : pmem) : bool := a_failed (m_arena m).

Definition with_arena (m : pmem) (a : arena) : pmem :=
  Pmem a (m_adopted m) (m_adopted_capacity m) (m_adopted_block m).

Record plan (B : Type) := Plan {
  p_self : nat;
  p_mem : pmem;
  p_actions : list (action B); p_actions_at : option nat;
  p_warnings : list warning; p_warnings_at : option nat;
  p_refusals : list refusal; p_refusals_at : option nat;
  p_stranded : list stranded; p_stranded_at : option nat }.

Arguments Plan {B}.
Arguments p_self {B}.
Arguments p_mem {B}.
Arguments p_actions {B}.
Arguments p_actions_at {B}.
Arguments p_warnings {B}.
Arguments p_warnings_at {B}.
Arguments p_refusals {B}.
Arguments p_refusals_at {B}.
Arguments p_stranded {B}.
Arguments p_stranded_at {B}.

Definition NO_ACTION : Z := 2 ^ 32 - 1.

Definition ERROR_MAX : nat := 512.

Definition cut_marker : string := " [cut: this warning is longer than netcfgd prints]".

(** The text [ncfg_plan_warnf] keeps of what its format produced: a text that
    did not fit has the marker written over its end. *)
Definition warnf_text (formatted : string) : string :=
  if (ERROR_MAX <=? String.length formatted)%nat then
    String.substring 0 (ERROR_MAX - (String.length cut_marker + 1)) formatted +:+ cut_marker
  else formatted.

Section WithAllocator.
Context (grant : nat -> bool).
Context {B : Type}.

Notation PM := (State (pmem * heap)).

(** Run a step of the arena inside the plan. *)
Definition lift {A} (m : State (arena * heap) A) : PM A :=
  fun '(p, h) => let '(x, (a, h')) := m (m_arena p, h) in (x, (with_arena p a, h')).

Definition FIRST_OWNED : nat := 64.

Definition pintern (text : cstr) : PM cstr := lift (intern grant FIRST_OWNED text).

Definition plan_failed_now : PM bool := fun s => (m_failed s.1, s).

Definition fail_plan : PM () := fun '(p, h) => ((), (with_arena p (arena_fail (m_arena p)), h)).

(** [keep(plan, calloc(...))], as a flag: was the block obtained and kept. *)
Definition alloc_block : PM bool :=
  lift (b ← alloc_kept grant FIRST_OWNED; mret (bool_decide (is_Some b))).

(** [ncfg_plan_adopt]: the plan owns the aggregate from the call on, so a
    failure to record it releases it. *)
Definition plan_adopt (owned : option nat) (has_release : bool) : PM bool :=
  fun '(p, h) =>
    match owned with
    | Some b =>
        if has_release then
          if Nat.eqb (length (m_adopted p)) (m_adopted_capacity p) then
            let wanted :=
              if Nat.eqb (m_adopted_capacity p) 0 then 4%nat
              else (m_adopted_capacity p * 2)%nat in
            match h_realloc grant (m_adopted_block p) h with
            | (None, h') =>
                (false, (with_arena p (arena_fail (m_arena p)), h_free (Some b) h'))
            | (Some g, h') =>
                (true, (Pmem (m_arena p) (m_adopted p ++ [b]) wanted (Some g), h'))
            end
          else
            (true, (Pmem (m_arena p) (m_adopted p ++ [b]) (m_adopted_capacity p)
                      (m_adopted_block p), h))
        else (false, (with_arena p (arena_fail (m_arena p)), h))
    | None => (false, (with_arena p (arena_fail (m_arena p)), h))
    end.

(** The arena slot of [grow], looked for from the end. *)
Fixpoint replace_last (old new : nat) (l : list nat) : option (list nat) :=
  match l with
  | [] => None
  | x :: r =>
      match replace_last old new r with
      | Some r' => Some (x :: r')
      | None => if decide (x = old) then Some (new :: r) else None
      end
  end.

(** [grow]: room for one more element of an array the plan owns. The slot is
    found before the [realloc]. *)
Definition grow (array : option nat) : PM (option nat) :=
  fun '(p, h) =>
    let a := m_arena p in
    if a_failed a then (None, (p, h))
    else
      match array with
      | Some b =>
          if decide (b ∈ a_owned a) then
            match h_realloc grant (Some b) h with
            | (None, h') => (None, (with_arena p (arena_fail a), h'))
            | (Some g, h') =>
                (Some g, (with_arena p (Arena (default (a_owned a) (replace_last b g (a_owned a)))
                                          (a_capacity a) (a_block a) (a_failed a)), h'))
            end
          else (None, (with_arena p (arena_fail a), h))
      | None => lift (alloc_kept grant FIRST_OWNED) (p, h)
      end.

(** [ncfg_plan_intern_route] and [ncfg_plan_intern_rule]. *)
Definition intern_route (rt : option route) : PM (option route) :=
  failed ← plan_failed_now;
  match rt with
  | Some r =>
      if (failed : bool) then mret None
      else
        ok ← alloc_block;
        if (ok : bool) then
          destination ← pintern (rt_destination r);
          via ← pintern (rt_via r);
          src ← pintern (rt_src r);
          mret (Some (Route destination via (rt_metric r) (rt_table r) src (rt_scope r)
                        (rt_onlink r) (rt_proto r)))
        else mret None
  | None => mret None
  end.

Definition intern_rule (rule : option routing_rule) : PM (option routing_rule) :=
  failed ← plan_failed_now;
  match rule with
  | Some r =>
      if (failed : bool) then mret None
      else
        ok ← alloc_block;
        if (ok : bool) then
          id ← pintern (rr_id r);
          from ← pintern (rr_from r);
          to ← pintern (rr_to r);
          iif ← pintern (rr_iif r);
          oif ← pintern (rr_oif r);
          mret (Some (RoutingRule id (rr_priority r) (rr_family r) from to iif oif
                        (rr_fwmark r) (rr_fwmask r) (rr_table r) (rr_action r)
                        (rr_suppress_prefixlength r) (rr_l3mdev r) (rr_invert r)))
        else mret None
  | None => mret None
  end.

(** A loop that interns each element of an array in turn. *)
Fixpoint intern_each {A} (one : A -> PM A) (l : list A) : PM (list A) :=
  match l with
  | [] => mret []
  | x :: r => x' ← one x; r' ← intern_each one r; mret (x' :: r')
  end.

(** The array itself, then its elements; a NULL array is the empty list. *)
Definition intern_array {A} (one : A -> PM A) (l : list A) : PM (list A) :=
  failed ← plan_failed_now;
  if (failed : bool) then mret []
  else
    match l with
    | [] => mret []
    | _ =>
        ok ← alloc_block;
        if (ok : bool) then intern_each one l else mret []
    end.

(** [intern_strings]. *)
Definition intern_strings (l : list cstr) : PM (list cstr) := intern_array pintern l.

(** The features of [link.set_offloads] and the forwards of
    [nftables.replace], arms of [intern_op]. *)
Definition intern_features (l : list offload) : PM (list offload) :=
  intern_array (fun f => name ← pintern (of_name f); mret (Offload name (of_wanted f))) l.

Definition intern_forwards (l : list forward_rule) : PM (list forward_rule) :=
  intern_array (fun f =>
    interface ← pintern (fr_interface f);
    name ← pintern (fr_name f);
    to ← pintern (fr_to f);
    address ← pintern (fr_address f);
    network ← pintern (fr_network f);
    via ← pintern (fr_via f);
    mret (ForwardRule (fr_kind f) interface name (fr_protocol f) (fr_port f) to (fr_to_port f)
            address network via)) l.

(** The firewall of [nftables.replace]: a copy, adopted. [None] is the early
    return after a copy that could not be made. *)
Definition copy_firewall (firewall : option B) : PM (option (option B)) :=
  match firewall with
  | None => mret (Some None)
  | Some fw =>
      copy ← lift (a_malloc grant);
      match copy with
      | None => _ ← fail_plan; mret None
      | Some b =>
          ok ← plan_adopt (Some b) true;
          mret (Some (if (ok : bool) then Some fw else None))
      end
  end.

(** [intern_op], arm for arm. *)
Definition intern_op (o : op B) : PM (op B) :=
  match o with
  | LINK_CREATE name kind =>
      name' ← pintern name; mret (LINK_CREATE name' kind)
  | LINK_DELETE name =>
      name' ← pintern name; mret (LINK_DELETE name')
  | LINK_UNSET_MASTER name =>
      name' ← pintern name; mret (LINK_UNSET_MASTER name')
  | LINK_UP name =>
      name' ← pintern name; mret (LINK_UP name')
  | LINK_DOWN name =>
      name' ← pintern name; mret (LINK_DOWN name')
  | LINK_SET_BRIDGE name =>
      name' ← pintern name; mret (LINK_SET_BRIDGE name')
  | LINK_SET_MACVLAN name =>
      name' ← pintern name; mret (LINK_SET_MACVLAN name')
  | LINK_SET_TUNNEL name =>
      name' ← pintern name; mret (LINK_SET_TUNNEL name')
  | LINK_SET_VXLAN name =>
      name' ← pintern name; mret (LINK_SET_VXLAN name')
  | HOSTNAME_SET name =>
      name' ← pintern name; mret (HOSTNAME_SET name')
  | LINK_SET_MTU name mtu =>
      name' ← pintern name; mret (LINK_SET_MTU name' mtu)
  | LINK_SET_MAC name mac =>
      name' ← pintern name; mac' ← pintern mac; mret (LINK_SET_MAC name' mac')
  | LINK_SET_MASTER name master =>
      name' ← pintern name; master' ← pintern master; mret (LINK_SET_MASTER name' master')
  | LINK_SET_BOND name mode =>
      name' ← pintern name; mret (LINK_SET_BOND name' mode)
  | LINK_SET_IPV6_TOKEN name token =>
      name' ← pintern name; token' ← pintern token; mret (LINK_SET_IPV6_TOKEN name' token')
  | LINK_SET_WDS name on =>
      name' ← pintern name; mret (LINK_SET_WDS name' on)
  | LINK_SET_OFFLOADS name features =>
      name' ← pintern name; features' ← intern_features features;
      mret (LINK_SET_OFFLOADS name' features')
  | ADDR_ADD iface addr preferred_lifetime valid_lifetime =>
      iface' ← pintern iface; addr' ← pintern addr;
      mret (ADDR_ADD iface' addr' preferred_lifetime valid_lifetime)
  | ADDR_DEL iface addr =>
      iface' ← pintern iface; addr' ← pintern addr; mret (ADDR_DEL iface' addr')
  | ROUTE_ADD iface rt =>
      iface' ← pintern iface; rt' ← intern_route rt; mret (ROUTE_ADD iface' rt')
  | ROUTE_DEL iface rt =>
      iface' ← pintern iface; rt' ← intern_route rt; mret (ROUTE_DEL iface' rt')
  | BACKEND_START kind iface =>
      iface' ← pintern iface; mret (BACKEND_START kind iface')
  | BACKEND_STOP kind iface =>
      iface' ← pintern iface; mret (BACKEND_STOP kind iface')
  | BACKEND_RELOAD kind iface =>
      iface' ← pintern iface; mret (BACKEND_RELOAD kind iface')
  | BRIDGE_VLAN_ADD iface vid pvid untagged on_self =>
      iface' ← pintern iface; mret (BRIDGE_VLAN_ADD iface' vid pvid untagged on_self)
  | BRIDGE_VLAN_DEL iface vid pvid untagged on_self =>
      iface' ← pintern iface; mret (BRIDGE_VLAN_DEL iface' vid pvid untagged on_self)
  | WIFI_SET_PROFILES device profiles =>
      device' ← pintern device; profiles' ← intern_strings profiles;
      mret (WIFI_SET_PROFILES device' profiles')
  | WIFI_ASSOCIATE device network_id =>
      device' ← pintern device; network_id' ← pintern network_id;
      mret (WIFI_ASSOCIATE device' network_id')
  | WIFI_DISASSOCIATE device =>
      device' ← pintern device; mret (WIFI_DISASSOCIATE device')
  | WIFI_SET_REGDOM device country =>
      device' ← pintern device; country' ← pintern country;
      mret (WIFI_SET_REGDOM device' country')
  | ACCESS_CONTROL_ADD iface list station =>
      iface' ← pintern iface; station' ← pintern station;
      mret (ACCESS_CONTROL_ADD iface' list station')
  | ACCESS_CONTROL_DEL iface list station =>
      iface' ← pintern iface; station' ← pintern station;
      mret (ACCESS_CONTROL_DEL iface' list station')
  | STATION_STEER iface station target imminent =>
      iface' ← pintern iface; station' ← pintern station; target' ← pintern target;
      mret (STATION_STEER iface' station' target' imminent)
  | NEIGHBOUR_ADD iface bssid ssid nr =>
      iface' ← pintern iface; bssid' ← pintern bssid; ssid' ← pintern ssid; nr' ← pintern nr;
      mret (NEIGHBOUR_ADD iface' bssid' ssid' nr')
  | NEIGHBOUR_DEL iface bssid ssid nr =>
      iface' ← pintern iface; bssid' ← pintern bssid; ssid' ← pintern ssid; nr' ← pintern nr;
      mret (NEIGHBOUR_DEL iface' bssid' ssid' nr')
  | WG_SET_DEVICE iface private_key_ref listen_port fwmark =>
      iface' ← pintern iface; private_key_ref' ← pintern private_key_ref;
      mret (WG_SET_DEVICE iface' private_key_ref' listen_port fwmark)
  | WG_SET_PEERS iface peers =>
      iface' ← pintern iface; mret (WG_SET_PEERS iface' peers)
  | DNS_APPLY scope policy =>
      scope' ← pintern scope; mret (DNS_APPLY scope' policy)
  | RULE_ADD rule => mret (RULE_ADD rule)
  | RULE_DEL rule => mret (RULE_DEL rule)
  | QDISC_SET iface kind bandwidth_bits ingress =>
      iface' ← pintern iface; kind' ← pintern kind;
      mret (QDISC_SET iface' kind' bandwidth_bits ingress)
  | QDISC_RESET iface =>
      iface' ← pintern iface; mret (QDISC_RESET iface')
  | INGRESS_REDIRECT_CLEAR iface =>
      iface' ← pintern iface; mret (INGRESS_REDIRECT_CLEAR iface')
  | INGRESS_REDIRECT iface target =>
      iface' ← pintern iface; target' ← pintern target; mret (INGRESS_REDIRECT iface' target')
  | SYSCTL_SET_FORWARDING iface enabled =>
      iface' ← pintern iface; mret (SYSCTL_SET_FORWARDING iface' enabled)
  | SYSCTL_SET_PRIVACY iface prefer_temporary =>
      iface' ← pintern iface; mret (SYSCTL_SET_PRIVACY iface' prefer_temporary)
  | SYSCTL_SET_ACCEPT_RA iface value =>
      iface' ← pintern iface; mret (SYSCTL_SET_ACCEPT_RA iface' value)
  | NFTABLES_REPLACE uplinks firewall forwards =>
      uplinks' ← intern_strings uplinks;
      fw ← copy_firewall firewall;
      match fw with
      | None => mret (NFTABLES_REPLACE uplinks' None forwards)
      | Some firewall' =>
          forwards' ← intern_forwards forwards;
          mret (NFTABLES_REPLACE uplinks' firewall' forwards')
      end
  | HOOK_RUN iface phase path value =>
      iface' ← pintern iface; path' ← pintern path; value' ← pintern value;
      mret (HOOK_RUN iface' phase path' value')
  | COMMIT_ARM window_seconds => mret (COMMIT_ARM window_seconds)
  | COMMIT_CONFIRM => mret COMMIT_CONFIRM
  | COMMIT_REVERT to_document_hash =>
      to_document_hash' ← pintern to_document_hash; mret (COMMIT_REVERT to_document_hash')
  end.

(** [intern_reason]. *)
Definition intern_reason (r : reason) : PM reason :=
  interface ← pintern (rs_interface r);
  field ← pintern (rs_field r);
  desired ← pintern (rs_desired r);
  observed ← pintern (rs_observed r);
  mret (Reason interface field desired observed).

(** ** The plan itself *)

Definition plan_failed (p : plan B) : bool := m_failed (p_mem p).
Definition plan_is_empty (p : plan B) : bool := Nat.eqb (length (p_actions p)) 0.
Definition plan_was_refused (p : plan B) : bool := negb (Nat.eqb (length (p_refusals p)) 0).
Definition plan_strands_credentials (p : plan B) : bool :=
  negb (Nat.eqb (length (p_stranded p)) 0).

Definition with_mem (p : plan B) (m : pmem) : plan B :=
  Plan (p_self p) m (p_actions p) (p_actions_at p) (p_warnings p) (p_warnings_at p)
    (p_refusals p) (p_refusals_at p) (p_stranded p) (p_stranded_at p).

(** [ncfg_plan_new]. *)
Definition plan_new (h : heap) : option (plan B) * heap :=
  match h_malloc grant h with
  | (None, h') => (None, h')
  | (Some b, h') =>
      (Some (Plan b (Pmem arena_init [] 0 None) [] None [] None [] None [] None), h')
  end.

(** [ncfg_plan_free]: the adopted in reverse, then the arena, then the plan. *)
Definition plan_free (p : plan B) (h : heap) : heap :=
  let m := p_mem p in
  let h := h_free_all (rev (m_adopted m)) h in
  let h := h_free (m_adopted_block m) h in
  let h := h_free_all (a_owned (m_arena m)) h in
  let h := h_free (a_block (m_arena m)) h in
  h_free (Some (p_self p)) h.

(** [ncfg_plan_warn] and [ncfg_plan_warnf]. *)
Definition plan_warn (interface message : cstr) : State (plan B * heap) () :=
  fun '(p, h) =>
    let '(head, (m, h)) := grow (p_warnings_at p) (p_mem p, h) in
    match head with
    | None => ((), (with_mem p m, h))
    | Some at_ =>
        let '(i, (m, h)) := pintern interface (m, h) in
        let '(t, (m, h)) := pintern message (m, h) in
        ((), (Plan (p_self p) m (p_actions p) (p_actions_at p)
                (p_warnings p ++ [Warning i t]) (Some at_)
                (p_refusals p) (p_refusals_at p) (p_stranded p) (p_stranded_at p), h))
    end.

Definition plan_warnf (interface : cstr) (formatted : string) : State (plan B * heap) () :=
  plan_warn interface (Some (warnf_text formatted)).

(** [ncfg_plan_refuse]. *)
Definition plan_refuse (r : refusal) : State (plan B * heap) () :=
  fun '(p, h) =>
    let '(head, (m, h)) := grow (p_refusals_at p) (p_mem p, h) in
    match head with
    | None => ((), (with_mem p m, h))
    | Some at_ =>
        let '(slot, (m, h)) :=
          (interface ← pintern (rf_interface r);
           o ← pintern (rf_op r);
           guard ← pintern (rf_guard r);
           why ← intern_reason (rf_reason r);
           override_with ← pintern (rf_override_with r);
           mret (Refusal interface o guard why override_with)) (m, h) in
        ((), (Plan (p_self p) m (p_actions p) (p_actions_at p) (p_warnings p) (p_warnings_at p)
                (p_refusals p ++ [slot]) (Some at_) (p_stranded p) (p_stranded_at p), h))
    end.

(** [ncfg_plan_strand]. *)
Definition plan_strand (s : stranded) : State (plan B * heap) () :=
  fun '(p, h) =>
    let '(head, (m, h)) := grow (p_stranded_at p) (p_mem p, h) in
    match head with
    | None => ((), (with_mem p m, h))
    | Some at_ =>
        let '(slot, (m, h)) :=
          (interface ← pintern (sd_interface s);
           credential ← pintern (sd_credential s);
           irrevocable ← pintern (sd_irrevocable s);
           remove_with ← pintern (sd_remove_with s);
           consent_with ← pintern (sd_consent_with s);
           mret (Stranded interface credential irrevocable remove_with consent_with)) (m, h) in
        ((), (Plan (p_self p) m (p_actions p) (p_actions_at p) (p_warnings p) (p_warnings_at p)
                (p_refusals p) (p_refusals_at p) (p_stranded p ++ [slot]) (Some at_), h))
    end.

(** The edges [ncfg_plan_add] keeps: a dependency on an action that was never
    emitted is dropped. *)
Definition kept_edges (depends_on : list Z) : list Z :=
  filter (fun d => d <> NO_ACTION) depends_on.

(** What [ncfg_plan_add] writes into the slot [grow] made: the op, the reason
    and the inverse, interned in that order. *)
Definition fill_action (o : op B) (why : reason) (inverse : option (op B))
    : PM (op B * reason * option (op B)) :=
  o' ← intern_op o;
  why' ← intern_reason why;
  match inverse with
  | Some i => i' ← intern_op i; mret (o', why', Some i')
  | None => mret (o', why', None)
  end.

(** [ncfg_plan_add]. *)
Definition plan_add (o : op B) (why : reason) (depends_on : list Z) (inverse : option (op B))
    : State (plan B * heap) Z :=
  fun '(p, h) =>
    if plan_failed p then (NO_ACTION, (p, h))
    else
      let '(ok, (m, h)) :=
        match depends_on with [] => (true, (p_mem p, h)) | _ => alloc_block (p_mem p, h) end in
      if negb ok then (NO_ACTION, (with_mem p m, h))
      else
        let '(head, (m, h)) := grow (p_actions_at p) (m, h) in
        match head with
        | None => (NO_ACTION, (with_mem p m, h))
        | Some at_ =>
            let id := u32 (zlen (p_actions p)) in
            let '(filled, (m, h)) := fill_action o why inverse (m, h) in
            let '(o', why', inverse') := filled in
            let p' :=
              Plan (p_self p) m
                (p_actions p ++ [Action id o' why' (kept_edges depends_on) inverse']) (Some at_)
                (p_warnings p) (p_warnings_at p) (p_refusals p) (p_refusals_at p)
                (p_stranded p) (p_stranded_at p) in
            match inverse with
            | Some _ => (id, (p', h))
            | None =>
                let '(_, s) :=
                  plan_warnf (op_interface o)
                    (op_name o +:+ " cannot be undone; commit-confirm will not revert it")
                    (p', h) in
                (id, s)
            end
        end.

End WithAllocator.
