(* ===== verification/PlanSpec.v ===== *)
(** * PlanSpec: the memory discipline of a plan, step by step

    [pstep] is what every interning step of [plan/plan.c] guarantees: the blocks
    stay exactly the plan's, they are only added to, and a failure sticks.
    [copies m v] says a step makes a faithful copy: it computes [v] unless
    memory ran out.

    No sequence of calls leaks, double-frees or grows a block that is not the
    plan's, whichever allocations fail; and a plan that did not fail holds
    exactly what it was given, numbered by position. *)
From stdpp Require Import gmap.
From S2P Require Import Prelude Op Heap Plan.
#[local] Open Scope Z_scope.

(** The blocks behind a plan's memory. *)
Definition pblocks (m : pmem) : list nat :=
  arena_blocks (m_arena m) ++ m_adopted m ++ option_list (m_adopted_block m).

Definition pstep (s s' : pmem * heap) : Prop :=
  (forall F R, owns F s.2 (pblocks s.1 ++ R) -> owns F s'.2 (pblocks s'.1 ++ R)) /\
  (exists new, a_owned (m_arena s'.1) = a_owned (m_arena s.1) ++ new) /\
  (m_failed s.1 = true -> m_failed s'.1 = true).

#[export] Instance pstep_preorder : PreOrder pstep.
Proof.
  split.
  - intros s. split_and!; auto. exists []. by rewrite app_nil_r.
  - intros s t u (H1 & (n1 & E1) & F1) (H2 & (n2 & E2) & F2). split_and!; auto.
    exists (n1 ++ n2). by rewrite E2, E1, app_assoc.
Qed.

Definition mono {A} (m : State (pmem * heap) A) : Prop :=
  forall s a s', m s = (a, s') -> pstep s s'.

Definition yields {A} (m : State (pmem * heap) A) (v : A) : Prop :=
  forall s a s', m s = (a, s') -> m_failed s'.1 = false -> a = v.

Definition copies {A} (m : State (pmem * heap) A) (v : A) : Prop := mono m /\ yields m v.

Lemma mono_ret {A} (a : A) : mono (mret a).
Proof. intros s x s' E. cbv in E. simplify_eq. reflexivity. Qed.

Lemma mono_bind {A C} (m : State (pmem * heap) A) (k : A -> State (pmem * heap) C) :
  mono m -> (forall a, mono (k a)) -> mono (m ≫= k).
Proof.
  intros Hm Hk s c s' E. unfold mbind, state_bind in E.
  destruct (m s) as [a s1] eqn:Em. etrans; [by eapply Hm|by eapply Hk].
Qed.

Lemma copies_ret {A} (a : A) : copies (mret a) a.
Proof. split; [apply mono_ret|]. intros s x s' E _. by cbv in E; simplify_eq. Qed.

Lemma copies_bind {A C} (m : State (pmem * heap) A) (k : A -> State (pmem * heap) C) v w :
  copies m v -> (forall a, mono (k a)) -> yields (k v) w -> copies (m ≫= k) w.
Proof.
  intros [Hm Hv] Hk Hw. split; [by apply mono_bind|].
  intros s c s' E Hf. unfold mbind, state_bind in E.
  destruct (m s) as [a s1] eqn:Em.
  assert (m_failed s1.1 = false) as Hf1.
  { destruct (m_failed s1.1) eqn:E1; [|done]. destruct (Hk a _ _ _ E) as (_ & _ & Hs).
    rewrite Hs in Hf; done. }
  rewrite (Hv _ _ _ Em Hf1) in E. eauto.
Qed.

Lemma yields_bind {A C} (m : State (pmem * heap) A) (k : A -> State (pmem * heap) C) v w :
  copies m v -> (forall a, mono (k a)) -> yields (k v) w -> yields (m ≫= k) w.
Proof. intros Hm Hk Hw. by apply (copies_bind m k v w). Qed.

Lemma yields_ret {A} (a : A) : yields (mret a) a.
Proof. apply copies_ret. Qed.

Create HintDb plan_mem.
#[export] Hint Resolve mono_ret mono_bind copies_ret yields_ret : plan_mem.

(** Whether a step is monotone, by the shape of the step. *)
Ltac solve_mono :=
  repeat first
    [ progress intros
    | solve [eauto with plan_mem]
    | apply mono_bind
    | match goal with |- mono (match ?x with _ => _ end) => destruct x end ].

(** Whether a step copies, left to right through its binds. *)
Ltac solve_copies :=
  repeat first
    [ solve [eauto with plan_mem]
    | eapply copies_bind; [|solve [solve_mono]|]
    | eapply yields_bind; [|solve [solve_mono]|] ].

Section Steps.
Context (grant : nat -> bool).
Context {B : Type}.

(** A step of the arena, inside the plan. *)
Lemma lift_pstep {A} (m : State (arena * heap) A) s x s' :
  lift m s = (x, s') -> 
  (forall t t', m (m_arena s.1, s.2) = (t, t') -> arena_step (m_arena s.1, s.2) t') -> pstep s s'.
Proof.
  destruct s as [p h]. cbn. destruct (m (m_arena p, h)) as [y [a h']] eqn:E.
  intros ? Hm. simplify_eq. specialize (Hm _ _ eq_refl) as (Ho & Hn & Hf).
  split_and!; cbn in *; auto. intros F R. unfold pblocks. cbn. rewrite <- !app_assoc. apply Ho.
Qed.

Lemma pintern_copies text : copies (pintern grant text) text.
Proof.
  split.
  - intros s x s' E. eapply lift_pstep; [exact E|]. intros t t' Ei. by eapply intern_step.
  - intros [p h] x [p' h'] E Hf. unfold pintern, lift in E.
    destruct (intern _ _ _ _) as [y [a h1]] eqn:Ei. simplify_eq.
    by eapply (intern_step _ _ _ _ _ _ Ei).
Qed.

Lemma pintern_mono text : mono (pintern grant text).
Proof. apply pintern_copies. Qed.

Lemma plan_failed_now_mono : mono plan_failed_now.
Proof. intros s a s' E. unfold plan_failed_now in E. simplify_eq. reflexivity. Qed.

Lemma plan_failed_now_copies : copies plan_failed_now false.
Proof.
  split; [apply plan_failed_now_mono|]. intros s a s' E Hf. unfold plan_failed_now in E.
  by simplify_eq.
Qed.

Lemma fail_plan_mono : mono fail_plan.
Proof.
  intros [p h] a s' E. unfold fail_plan in E. simplify_eq. split_and!; cbn; auto.
  exists []. by rewrite app_nil_r.
Qed.

Lemma alloc_block_lift s ok s' :
  alloc_block grant s = (ok, s') ->
  exists r, lift (alloc_kept grant FIRST_OWNED) s = (r, s') /\ ok = bool_decide (is_Some r).
Proof.
  destruct s as [p h]. unfold alloc_block, lift, mbind, state_bind, mret, state_ret.
  destruct (alloc_kept _ _ _) as [r [a h']]. intros. simplify_eq. eauto.
Qed.

Lemma alloc_block_copies : copies (alloc_block grant) true.
Proof.
  split.
  - intros s x s' (r & E & _)%alloc_block_lift. eapply lift_pstep; [exact E|].
    intros t t' Ek. by eapply alloc_kept_step.
  - intros [p h] x [p' h'] (r & E & ->)%alloc_block_lift Hf. unfold lift in E.
    destruct (alloc_kept _ _ _) as [y [a h1]] eqn:Ek. simplify_eq.
    destruct (alloc_kept_step _ _ _ _ _ Ek) as (_ & Hn & _).
    apply bool_decide_eq_true. destruct r; [by eexists|].
    specialize (Hn eq_refl). unfold m_failed in Hf. cbn in *. congruence.
Qed.

Lemma alloc_block_mono : mono (alloc_block grant).
Proof. apply alloc_block_copies. Qed.

#[local] Hint Resolve pintern_mono pintern_copies plan_failed_now_mono plan_failed_now_copies
  fail_plan_mono alloc_block_mono alloc_block_copies : plan_mem.

(** [plan_adopt] takes over the aggregate it is given, or releases it. *)
Lemma plan_adopt_owns b p h ok p' h' :
  plan_adopt grant (Some b) true (p, h) = (ok, (p', h')) ->
  (forall F R, owns F h (b :: pblocks p ++ R) -> owns F h' (pblocks p' ++ R)) /\
  a_owned (m_arena p') = a_owned (m_arena p) /\
  m_failed p' = (if ok then m_failed p else true).
Proof.
  unfold plan_adopt. intros E. destruct (_ =? _)%nat.
  - destruct (h_realloc _ _ _) as [[g|] h1] eqn:Er; simplify_eq; split_and!; auto; intros F R H;
      assert (owns F h (option_list (m_adopted_block p) ++
                        b :: arena_blocks (m_arena p) ++ m_adopted p ++ R)) as H'
        by (eapply owns_proper; [|exact H]; unfold pblocks; solve_Permutation);
      apply (owns_realloc _ _ _ _ _ _ _ H') in Er.
    + eapply owns_proper; [|exact Er]. unfold pblocks. cbn. solve_Permutation.
    + apply owns_free. eapply owns_proper; [|exact Er]. unfold pblocks. cbn.
      unfold arena_blocks. cbn. solve_Permutation.
  - simplify_eq. split_and!; auto. intros F R H. eapply owns_proper; [|exact H].
    unfold pblocks. cbn. solve_Permutation.
Qed.

Lemma copy_firewall_copies (fw : option B) : copies (copy_firewall grant fw) (Some fw).
Proof.
  destruct fw as [fw|]; [|apply copies_ret]. cbn [copy_firewall].
  assert (forall s x s', copy_firewall grant (Some fw) s = (x, s') ->
            pstep s s' /\ (m_failed s'.1 = false -> x = Some (Some fw))) as H;
    [|by split; intros s x s' E; [|intros Hf]; apply (H s x s' E)].
  intros [p h] x [p' h'] E. unfold copy_firewall, mbind, state_bind, lift, a_malloc in E.
  destruct (h_malloc grant h) as [[b|] h1] eqn:Em.
  - destruct (plan_adopt _ _ _ _) as [ok [p1 h2]] eqn:Ea. cbv [mret state_ret] in E.
    simplify_eq. destruct (plan_adopt_owns _ _ _ _ _ _ Ea) as (Ho & Hw & Hf).
    split; [split_and!|]; cbn in *.
    + intros F R H. apply Ho. apply (owns_malloc _ _ _ _ _ _ H Em).
    + exists []. by rewrite Hw, app_nil_r.
    + destruct ok; rewrite Hf; auto.
    + destruct ok; [done|congruence].
  - cbv [fail_plan mret state_ret] in E. simplify_eq. split; [split_and!|]; cbn; auto.
    + intros F R H. apply (owns_malloc _ _ _ _ _ _ H Em).
    + exists []. by rewrite app_nil_r.
    + done.
Qed.

Lemma copy_firewall_mono (fw : option B) : mono (copy_firewall grant fw).
Proof. apply copy_firewall_copies. Qed.

Lemma intern_route_copies rt : copies (intern_route grant rt) rt.
Proof.
  unfold intern_route. eapply copies_bind; eauto with plan_mem; [solve_mono|].
  destruct rt as [[]|]; cbn; [|apply yields_ret]. solve_copies.
Qed.

Lemma intern_rule_copies rule : copies (intern_rule grant rule) rule.
Proof.
  unfold intern_rule. eapply copies_bind; eauto with plan_mem; [solve_mono|].
  destruct rule as [[]|]; cbn; [|apply yields_ret]. solve_copies.
Qed.

Lemma intern_each_copies {A} (one : A -> State (pmem * heap) A) l :
  (forall x, copies (one x) x) -> copies (intern_each one l) l.
Proof.
  intros H. induction l as [|x l IH]; [apply copies_ret|]. cbn.
  assert (mono (intern_each one l)) by apply IH.
  eapply copies_bind; [apply H|solve_mono|]. eapply yields_bind; [apply IH|solve_mono|].
  apply yields_ret.
Qed.

Lemma intern_array_copies {A} (one : A -> State (pmem * heap) A) l :
  (forall x, copies (one x) x) -> copies (intern_array grant one l) l.
Proof.
  intros H. assert (mono (intern_each one l)) by (by apply intern_each_copies).
  unfold intern_array. eapply copies_bind; eauto with plan_mem; [solve_mono|].
  destruct l as [|x l]; cbn [negb]; [apply yields_ret|].
  eapply yields_bind; eauto with plan_mem; [solve_mono|]. by apply intern_each_copies.
Qed.

Lemma intern_strings_copies l : copies (intern_strings grant l) l.
Proof. apply intern_array_copies. eauto with plan_mem. Qed.

Lemma intern_features_copies l : copies (intern_features grant l) l.
Proof. apply intern_array_copies. intros []. cbn. solve_copies. Qed.

Lemma intern_forwards_copies l : copies (intern_forwards grant l) l.
Proof. apply intern_array_copies. intros []. cbn. solve_copies. Qed.

Lemma intern_route_mono rt : mono (intern_route grant rt).
Proof. apply intern_route_copies. Qed.
Lemma intern_strings_mono l : mono (intern_strings grant l).
Proof. apply intern_strings_copies. Qed.
Lemma intern_features_mono l : mono (intern_features grant l).
Proof. apply intern_features_copies. Qed.
Lemma intern_forwards_mono l : mono (intern_forwards grant l).
Proof. apply intern_forwards_copies. Qed.

#[local] Hint Resolve copy_firewall_copies copy_firewall_mono intern_route_copies
  intern_route_mono intern_strings_copies intern_strings_mono intern_features_copies
  intern_features_mono intern_forwards_copies intern_forwards_mono : plan_mem.

(** Every op of every kind is copied whole. *)
Lemma intern_op_copies (o : op B) : copies (intern_op grant o) o.
Proof. destruct o; cbn [intern_op]; solve_copies. Qed.

Lemma intern_op_mono (o : op B) : mono (intern_op grant o).
Proof. apply intern_op_copies. Qed.

Lemma intern_reason_copies r : copies (intern_reason grant r) r.
Proof. destruct r. unfold intern_reason. cbn. solve_copies. Qed.

Lemma intern_reason_mono r : mono (intern_reason grant r).
Proof. apply intern_reason_copies. Qed.

#[local] Hint Resolve intern_op_copies intern_op_mono intern_reason_copies
  intern_reason_mono : plan_mem.

Lemma fill_action_copies (o : op B) why inverse :
  copies (fill_action grant o why inverse) (o, why, inverse).
Proof. unfold fill_action. destruct inverse; solve_copies. Qed.

End Steps.

#[export] Hint Resolve pintern_mono pintern_copies plan_failed_now_mono plan_failed_now_copies
  fail_plan_mono alloc_block_mono alloc_block_copies intern_reason_copies intern_reason_mono
  fill_action_copies : plan_mem.

(** The blocks the four arrays are in. *)
Definition heads {B} (p : plan B) : list nat :=
  option_list (p_actions_at p) ++ option_list (p_warnings_at p) ++
  option_list (p_refusals_at p) ++ option_list (p_stranded_at p).

(** The invariant of a plan beside blocks [F] that are not its own. *)
Definition plan_wf {B} (F : gset nat) (p : plan B) (h : heap) : Prop :=
  owns F h (p_self p :: pblocks (p_mem p)) /\
  NoDup (heads p) /\ heads p ⊆ a_owned (m_arena (p_mem p)).

(** ** [grow] *)

Lemma replace_last_perm b g l :
  b ∈ l -> exists l' k, replace_last b g l = Some l' /\ l ≡ₚ b :: k /\ l' ≡ₚ g :: k.
Proof.
  induction l as [|x l IH]; [by intros ?%not_elem_of_nil|]. intros Hin. cbn.
  destruct (replace_last b g l) as [l1|] eqn:E.
  - destruct (decide (b ∈ l)) as [Hl|Hl].
    + destruct (IH Hl) as (l' & k & [= ->] & H1 & H2). exists (x :: l'), (x :: k).
      split_and!; [done|rewrite H1|rewrite H2]; constructor.
    + exfalso. clear IH Hin. revert l1 E. induction l as [|y l IH]; intros l1 E; cbn in E; [done|].
      destruct (replace_last b g l) as [l2|] eqn:E2.
      * eapply IH; [|done]. intros ?; apply Hl; by right.
      * destruct (decide (y = b)); [|done]. apply Hl. subst. left.
  - destruct (decide (x = b)) as [->|Hx]; [exists (g :: l), l; split_and!; done|].
    apply elem_of_cons in Hin as [?|Hl]; [congruence|].
    destruct (IH Hl) as (? & ? & ? & _). congruence.
Qed.

(** Growing the array whose block is [array], from a state where it is one of
    the plan's: only that block changes. *)
Lemma grow_spec grant F R array m h r m' h' :
  grow grant array (m, h) = (r, (m', h')) ->
  owns F h (pblocks m ++ R) -> option_list array ⊆ a_owned (m_arena m) ->
  owns F h' (pblocks m' ++ R) /\
  match r with
  | None => m_failed m' = true /\ a_owned (m_arena m') = a_owned (m_arena m)
  | Some g =>
      m_failed m' = m_failed m /\ g ∈ a_owned (m_arena m') /\
      (forall x, x ∈ a_owned (m_arena m) -> x ∉ option_list array ->
                 x ∈ a_owned (m_arena m') /\ x <> g)
  end.
Proof.
  intros E Ho Hin. unfold grow in E.
  destruct (a_failed (m_arena m)) eqn:Ef; [by simplify_eq|].
  destruct array as [b|].
  - assert (b ∈ a_owned (m_arena m)) as Hb by (apply Hin; left).
    rewrite decide_True in E by done.
    destruct (replace_last_perm b 0%nat _ Hb) as (_ & k & _ & Hk & _).
    assert (owns F h (option_list (Some b) ++
              k ++ option_list (a_block (m_arena m)) ++ m_adopted m ++
              option_list (m_adopted_block m) ++ R)) as H'.
    { eapply owns_proper; [|exact Ho]. unfold pblocks, arena_blocks. rewrite Hk. cbn.
      solve_Permutation. }
    destruct (h_realloc _ _ _) as [[g|] h1] eqn:Er;
      apply (owns_realloc _ _ _ _ _ _ _ H') in Er; simplify_eq.
    + destruct (replace_last_perm b g _ Hb) as (l' & k' & El & Hk1 & Hk2).
      assert (k ≡ₚ k') as Hkk by (apply (Permutation_cons_inv (a := b)); by rewrite <- Hk, Hk1).
      cbn. rewrite El. cbn. split.
      * eapply owns_proper; [|exact Er]. unfold pblocks, arena_blocks. cbn. rewrite Hk2, Hkk.
        cbn. solve_Permutation.
      * split_and!; [done|rewrite Hk2; left|].
        intros x Hx Hne. rewrite Hk1 in Hx. apply elem_of_cons in Hx as [->|Hx];
          [exfalso; apply Hne; left|].
        split; [rewrite Hk2; by right|]. intros ->. destruct Er as (_ & Hn & _).
        apply NoDup_cons in Hn as [Hn _]. apply Hn. apply elem_of_app. left. by rewrite Hkk.
    + split; [|by split]. eapply owns_proper; [|exact Er]. unfold pblocks, arena_blocks. cbn.
      rewrite Hk. cbn. solve_Permutation.
  - unfold lift in E. destruct (alloc_kept _ _ _) as [y [a h1]] eqn:Ek.
    destruct (alloc_kept_step _ _ _ _ _ Ek) as ((Hs & _) & Hn & Hsome & Hown & Hfresh).
    simplify_eq. cbn in *. unfold pblocks in *. rewrite <- !app_assoc in *. split; [by apply Hs|].
    destruct r as [g|]; cbn in *.
    + unfold m_failed. cbn. rewrite Hown. split_and!; [by apply Hsome|set_solver|].
      intros x Hx _. split; [set_solver|]. intros ->. apply (Hfresh F _ g Ho eq_refl).
      unfold arena_blocks. set_solver.
    + rewrite Hown, app_nil_r. by split; [apply Hn|].
Qed.

(** ** The invariant, call by call *)

Lemma plan_wf_owns {B} F (p : plan B) h :
  plan_wf F p h <->
  owns F h (pblocks (p_mem p) ++ [p_self p]) /\ NoDup (heads p) /\
  heads p ⊆ a_owned (m_arena (p_mem p)).
Proof.
  unfold plan_wf. rewrite (Permutation_app_comm (pblocks _)). done.
Qed.

(** A step that touches none of the arrays. *)
Lemma plan_wf_step {B} F (p : plan B) h m h' :
  plan_wf F p h -> pstep (p_mem p, h) (m, h') -> plan_wf F (with_mem p m) h'.
Proof.
  rewrite !plan_wf_owns. intros (Ho & Hn & Hin) (Hs & (new & En) & _). cbn in *.
  split_and!; auto. rewrite En. intros x Hx%Hin. apply elem_of_app. by left.
Qed.

(** One array grown and its new slot filled. *)
Lemma plan_wf_grow {B} grant F (p p' : plan B) h head g m1 h1 m2 h2 others :
  plan_wf F p h -> heads p ≡ₚ option_list head ++ others ->
  grow grant head (p_mem p, h) = (Some g, (m1, h1)) -> pstep (m1, h1) (m2, h2) ->
  p_self p' = p_self p -> p_mem p' = m2 -> heads p' ≡ₚ g :: others -> plan_wf F p' h2.
Proof.
  rewrite !plan_wf_owns. intros (Ho & Hn & Hin) Hh Eg (Hs & (new & En) & _) Eself <- Hh'.
  assert (option_list head ⊆ a_owned (m_arena (p_mem p))) as Hhead.
  { intros x Hx. apply Hin. rewrite Hh. apply elem_of_app. by left. }
  destruct (grow_spec _ _ _ _ _ _ _ _ _ Eg Ho Hhead) as (Ho1 & _ & Hg & Hk).
  rewrite Hh in Hn. apply NoDup_app in Hn as (_ & Hdis & Hn).
  assert (forall x, x ∈ others -> x ∈ a_owned (m_arena m1) /\ x <> g) as Hothers.
  { intros x Hx. apply Hk; [|by intros ?%Hdis]. apply Hin. rewrite Hh. apply elem_of_app. by right. }
  rewrite Eself. cbn in *. split_and!; auto.
  - rewrite Hh'. constructor; [|done]. intros Hx%Hothers. by destruct Hx.
  - rewrite Hh', En. intros x [->|Hx%Hothers]%elem_of_cons; apply elem_of_app; left; [done|].
    by destruct Hx.
Qed.

Lemma plan_wf_grow_failed {B} grant F (p : plan B) h head m1 h1 :
  plan_wf F p h -> option_list head ⊆ heads p ->
  grow grant head (p_mem p, h) = (None, (m1, h1)) -> plan_wf F (with_mem p m1) h1.
Proof.
  rewrite !plan_wf_owns. intros (Ho & Hn & Hin) Hh Eg.
  destruct (grow_spec _ _ _ _ _ _ _ _ _ Eg Ho) as (Ho1 & _ & Ew); [by etrans|].
  cbn. rewrite Ew. by split_and!.
Qed.

Section Calls.
Context (grant : nat -> bool).
Context {B : Type}.
Implicit Types p : plan B.

Lemma plan_warn_wf F p h i t u p' h' :
  plan_wf F p h -> plan_warn grant i t (p, h) = (u, (p', h')) -> plan_wf F p' h'.
Proof.
  intros Hwf E. unfold plan_warn in E.
  destruct (grow _ _ _) as [[g|] [m1 h1]] eqn:Eg.
  - destruct (pintern _ i _) as [i' [m2 h2]] eqn:E1.
    destruct (pintern _ t _) as [t' [m3 h3]] eqn:E2. simplify_eq.
    eapply plan_wf_grow with (head := p_warnings_at p)
      (others := option_list (p_actions_at p) ++ option_list (p_refusals_at p) ++
                 option_list (p_stranded_at p)); eauto.
    + unfold heads. solve_Permutation.
    + etrans; eapply pintern_mono; eauto.
    + unfold heads. cbn. solve_Permutation.
  - simplify_eq. eapply plan_wf_grow_failed; eauto. unfold heads. set_solver.
Qed.

Lemma plan_refuse_wf F p h r u p' h' :
  plan_wf F p h -> plan_refuse grant r (p, h) = (u, (p', h')) -> plan_wf F p' h'.
Proof.
  intros Hwf E. unfold plan_refuse in E.
  destruct (grow _ _ _) as [[g|] [m1 h1]] eqn:Eg.
  - match type of E with context [let '(_, _) := ?m ?s in _] =>
      assert (mono m) as Hm by solve_mono; destruct (m s) as [slot [m2 h2]] eqn:E1 end.
    simplify_eq.
    eapply plan_wf_grow with (head := p_refusals_at p)
      (others := option_list (p_actions_at p) ++ option_list (p_warnings_at p) ++
                 option_list (p_stranded_at p)); eauto.
    + unfold heads. solve_Permutation.
    + unfold heads. cbn. solve_Permutation.
  - simplify_eq. eapply plan_wf_grow_failed; eauto. unfold heads. set_solver.
Qed.

Lemma plan_strand_wf F p h s u p' h' :
  plan_wf F p h -> plan_strand grant s (p, h) = (u, (p', h')) -> plan_wf F p' h'.
Proof.
  intros Hwf E. unfold plan_strand in E.
  destruct (grow _ _ _) as [[g|] [m1 h1]] eqn:Eg.
  - match type of E with context [let '(_, _) := ?m ?s in _] =>
      assert (mono m) as Hm by solve_mono; destruct (m s) as [slot [m2 h2]] eqn:E1 end.
    simplify_eq.
    eapply plan_wf_grow with (head := p_stranded_at p)
      (others := option_list (p_actions_at p) ++ option_list (p_warnings_at p) ++
                 option_list (p_refusals_at p)); eauto.
    + unfold heads. solve_Permutation.
    + unfold heads. cbn. solve_Permutation.
  - simplify_eq. eapply plan_wf_grow_failed; eauto. unfold heads. set_solver.
Qed.

Lemma plan_add_wf F p h o why deps inv id p' h' :
  plan_wf F p h -> plan_add grant o why deps inv (p, h) = (id, (p', h')) -> plan_wf F p' h'.
Proof.
  intros Hwf E. unfold plan_add in E. destruct (plan_failed p); [by simplify_eq|].
  destruct (match deps with [] => _ | _ => _ end) as [ok [m0 h0]] eqn:Ed.
  assert (pstep (p_mem p, h) (m0, h0)) as Hd.
  { destruct deps; [simplify_eq; reflexivity|by eapply alloc_block_mono]. }
  apply (plan_wf_step _ _ _ _ _ Hwf) in Hd.
  destruct ok; cbn [negb] in E; [|by simplify_eq].
  destruct (grow _ _ _) as [[g|] [m1 h1]] eqn:Eg.
  2:{ simplify_eq. eapply (plan_wf_grow_failed grant F (with_mem p m0)); eauto.
      unfold heads. set_solver. }
  destruct (fill_action _ _ _ _ _) as [[[o' why'] inv'] [m2 h2]] eqn:Ef.
  pose proof (proj1 (fill_action_copies grant o why inv) _ _ _ Ef) as Hstep.
  match type of E with context [(?q, h2)] =>
    assert (plan_wf F q h2) as Hq end.
  { eapply plan_wf_grow with (p := with_mem p m0) (head := p_actions_at p)
      (others := option_list (p_warnings_at p) ++ option_list (p_refusals_at p) ++
                 option_list (p_stranded_at p)); eauto. }
  destruct inv; [by simplify_eq|]. unfold plan_warnf in E.
  destruct (plan_warn _ _ _ _) as [[] [p2 h3]] eqn:Ew. simplify_eq. by eapply plan_warn_wf.
Qed.

End Calls.

(** ** Whole lives of a plan *)

(** The calls a planner makes on the plan it is building. An adopted aggregate
    is one the planner allocated for the purpose. *)
Inductive call (B : Type) :=
| CallAdd (o : op B) (why : reason) (depends_on : list Z) (inverse : option (op B))
| CallWarnf (interface : cstr) (formatted : string)
| CallRefuse (r : refusal)
| CallStrand (s : stranded)
| CallIntern (text : cstr)
| CallInternRoute (rt : option route)
| CallInternRule (rule : option routing_rule)
| CallAdopt (has_aggregate : bool).

Arguments CallAdd {B}.
Arguments CallWarnf {B}.
Arguments CallRefuse {B}.
Arguments CallStrand {B}.
Arguments CallIntern {B}.
Arguments CallInternRoute {B}.
Arguments CallInternRule {B}.
Arguments CallAdopt {B}.

Section Lives.
Context (grant : nat -> bool).
Context {B : Type}.
Implicit Types p : plan B.

(** A step of the memory alone, on a plan. *)
Definition on_mem {A} (m : State (pmem * heap) A) (s : plan B * heap) : plan B * heap :=
  let '(_, (mem, h)) := m (p_mem s.1, s.2) in (with_mem s.1 mem, h).

Definition run_call (s : plan B * heap) (c : call B) : plan B * heap :=
  match c with
  | CallAdd o why deps inv => (plan_add grant o why deps inv s).2
  | CallWarnf i t => (plan_warnf grant i t s).2
  | CallRefuse r => (plan_refuse grant r s).2
  | CallStrand r => (plan_strand grant r s).2
  | CallIntern t => on_mem (pintern grant t) s
  | CallInternRoute rt => on_mem (intern_route grant rt) s
  | CallInternRule rule => on_mem (intern_rule grant rule) s
  | CallAdopt true => on_mem (copy ← lift (a_malloc grant); plan_adopt grant copy true) s
  | CallAdopt false => on_mem (plan_adopt grant None true) s
  end.

Definition run_calls (s : plan B * heap) (cs : list (call B)) : plan B * heap :=
  foldl run_call s cs.

Lemma adopt_mono : mono (copy ← lift (a_malloc grant); plan_adopt grant copy true).
Proof.
  intros [p h] x [p' h'] E. unfold mbind, state_bind, lift, a_malloc in E.
  destruct (h_malloc grant h) as [[b|] h1] eqn:Em.
  - destruct (plan_adopt_owns _ _ _ _ _ _ _ E) as (Ho & Hw & Hf). split_and!; cbn in *.
    + intros F R H. apply Ho. apply (owns_malloc _ _ _ _ _ _ H Em).
    + exists []. by rewrite Hw, app_nil_r.
    + destruct x; rewrite Hf; auto.
  - cbn in E. simplify_eq. split_and!; cbn; auto; [|exists []; by rewrite app_nil_r].
    intros F R H. apply (owns_malloc _ _ _ _ _ _ H Em).
Qed.

Lemma adopt_none_mono : mono (plan_adopt grant None true).
Proof.
  intros [p h] x [p' h'] E. cbn in E. simplify_eq. split_and!; cbn; auto.
  exists []. by rewrite app_nil_r.
Qed.

Lemma on_mem_wf {A} (m : State (pmem * heap) A) F s :
  mono m -> plan_wf F s.1 s.2 -> plan_wf F (on_mem m s).1 (on_mem m s).2.
Proof.
  intros Hm Hwf. unfold on_mem. destruct (m _) as [a [mem h]] eqn:E. cbn.
  eapply plan_wf_step; [exact Hwf|]. by eapply Hm.
Qed.

Lemma run_call_wf F s c : plan_wf F s.1 s.2 -> plan_wf F (run_call s c).1 (run_call s c).2.
Proof.
  destruct s as [p h]. intros Hwf. destruct c as [o why deps inv|i t|r|r|t|rt|rule|[]]; cbn [run_call].
  - destruct (plan_add _ _ _ _ _ _) as [id [p' h']] eqn:E. by eapply plan_add_wf.
  - unfold plan_warnf. destruct (plan_warn _ _ _ _) as [u [p' h']] eqn:E. by eapply plan_warn_wf.
  - destruct (plan_refuse _ _ _) as [u [p' h']] eqn:E. by eapply plan_refuse_wf.
  - destruct (plan_strand _ _ _) as [u [p' h']] eqn:E. by eapply plan_strand_wf.
  - apply on_mem_wf; [apply pintern_mono|done].
  - apply on_mem_wf; [apply intern_route_copies|done].
  - apply on_mem_wf; [apply intern_rule_copies|done].
  - apply on_mem_wf; [apply adopt_mono|done].
  - apply on_mem_wf; [apply adopt_none_mono|done].
Qed.

Lemma run_calls_wf F s cs : plan_wf F s.1 s.2 -> plan_wf F (run_calls s cs).1 (run_calls s cs).2.
Proof.
  revert s. induction cs as [|c cs IH]; intros s Hwf; cbn; [done|]. by apply IH, run_call_wf.
Qed.

Lemma plan_new_wf F h p h' : owns F h [] -> plan_new grant h = (Some p, h') -> plan_wf F p h'.
Proof.
  intros Ho E. unfold plan_new in E. destruct (h_malloc grant h) as [[b|] h1] eqn:Em; simplify_eq.
  split_and!; [|constructor|done]. apply (owns_malloc _ _ _ _ _ _ Ho Em).
Qed.

Lemma plan_free_owns F p h : plan_wf F p h -> owns F (plan_free p h) [].
Proof.
  rewrite plan_wf_owns. intros (Ho & _ & _). unfold plan_free.
  apply owns_free, owns_free_opt, owns_free_all, owns_free_opt, owns_free_all.
  eapply owns_proper; [|exact Ho]. unfold pblocks, arena_blocks.
  rewrite (Permutation_rev (rev _)), rev_involutive. solve_Permutation.
Qed.

(** A heap nothing has gone wrong in, with every block older than the next. *)
Definition heap_wf (h : heap) : Prop :=
  h_fault h = false /\ forall b, b ∈ h_live h -> (b < h_ticks h)%nat.

(** C40: a plan never leaks and never frees twice. Whichever allocations are
    refused, and whatever sequence of calls a planner makes on a new plan --
    adding actions, warning, refusing, stranding, interning, adopting --
    [ncfg_plan_free] afterwards leaves exactly the blocks that were live
    before, and no call freed or grew a block that was not live. *)
Theorem plan_memory_exact (h h1 : heap) p (cs : list (call B)) :
  heap_wf h -> plan_new grant h = (Some p, h1) ->
  let '(p', h2) := run_calls (p, h1) cs in
  h_fault (plan_free p' h2) = false /\ h_live (plan_free p' h2) = h_live h.
Proof.
  intros [Hf Ht] En.
  assert (owns (h_live h) h []) as Ho.
  { split_and!; auto; [constructor| |by intros ? ?%not_elem_of_nil]. cbn. set_solver. }
  pose proof (run_calls_wf _ (p, h1) cs (plan_new_wf _ _ _ _ Ho En)) as Hwf.
  destruct (run_calls (p, h1) cs) as [p' h2].
  destruct (plan_free_owns _ _ _ Hwf) as (Hff & _ & Hl & _). cbn in *. split; [done|].
  rewrite Hl. set_solver.
Qed.

End Lives.

Lemma plan_memory_exact_witness :
  let refuse_seventh n := negb (Nat.eqb n 7%nat) in
  let why := Reason (Some "eth0") (Some "state") (Some "up") (Some "down") in
  let up : op () := LINK_UP (Some "eth0") in
  let p : plan () := Plan 0%nat (Pmem arena_init [] 0%nat None) [] None [] None [] None [] None in
  let '(p', h2) :=
    run_calls refuse_seventh (p, Heap 1%nat {[ 0%nat ]} false)
      [CallAdd up why [] None; CallAdopt true; CallAdd up why [0%Z] (Some (LINK_DOWN (Some "eth0")))] in
  h_fault (plan_free p' h2) = false /\ h_live (plan_free p' h2) = ∅.
Proof.
  apply (plan_memory_exact _ (Heap 0%nat ∅ false) (Heap 1%nat {[ 0%nat ]} false)).
  - split; [reflexivity|]. cbn. intros b Hb. by apply elem_of_empty in Hb.
  - reflexivity.
Defined.

(** ** What a plan that did not fail holds *)

Section Contents.
Context (grant : nat -> bool).
Context {B : Type}.
Implicit Types p : plan B.

Lemma grow_failed array m h r m' h' :
  grow grant array (m, h) = (r, (m', h')) ->
  (r = None -> m_failed m' = true) /\ (m_failed m = true -> m_failed m' = true).
Proof.
  unfold grow, m_failed. intros E. destruct (a_failed (m_arena m)) eqn:Ef; [by simplify_eq|].
  split; [|congruence]. intros ->. destruct array as [b|].
  - destruct (decide _); [destruct (h_realloc _ _ _) as [[]]|]; by simplify_eq.
  - unfold lift in E. destruct (alloc_kept _ _ _) as [y [a h1]] eqn:Ek. simplify_eq.
    by destruct (alloc_kept_step _ _ _ _ _ Ek) as (_ & Hn & _); apply Hn.
Qed.

Lemma plan_warn_spec i t p h u p' h' :
  plan_warn grant i t (p, h) = (u, (p', h')) ->
  p_actions p' = p_actions p /\ p_refusals p' = p_refusals p /\ p_stranded p' = p_stranded p /\
  (plan_failed p = true -> plan_failed p' = true) /\
  (plan_failed p' = false -> p_warnings p' = p_warnings p ++ [Warning i t]).
Proof.
  intros E. unfold plan_warn in E. destruct (grow _ _ _) as [head [m1 h1]] eqn:Eg.
  destruct (grow_failed _ _ _ _ _ _ Eg) as [Hn Hs]. destruct head as [g|].
  2:{ simplify_eq. split_and!; auto. intros Hf. unfold plan_failed in Hf. cbn in Hf.
      rewrite Hn in Hf; done. }
  destruct (pintern _ i _) as [i' [m2 h2]] eqn:E1.
  destruct (pintern _ t _) as [t' [m3 h3]] eqn:E2. simplify_eq.
  pose proof (pintern_mono _ _ _ _ _ E1) as (_ & _ & F1).
  pose proof (pintern_mono _ _ _ _ _ E2) as (_ & _ & F2). cbn in F1, F2.
  unfold plan_failed. cbn. split_and!; auto. intros Hf.
  rewrite (proj2 (pintern_copies _ _) _ _ _ E2 Hf).
  rewrite (proj2 (pintern_copies _ _) _ _ _ E1); [done|]. cbn.
  destruct (m_failed m2); [rewrite F2 in Hf|]; done.
Qed.

(** The sentence about an action with no inverse always fits. *)
Lemma irreversible_fits (o : op B) :
  let text := op_name o +:+ " cannot be undone; commit-confirm will not revert it" in
  warnf_text text = text.
Proof. destruct o; reflexivity. Qed.

Lemma plan_add_appends (o : op B) why deps inv p h id p' h' :
  plan_add grant o why deps inv (p, h) = (id, (p', h')) -> plan_failed p' = false ->
  id = u32 (zlen (p_actions p)) /\
  p_actions p' = p_actions p ++ [Action id o why (kept_edges deps) inv] /\
  p_warnings p' = p_warnings p ++
    (match inv with
     | Some _ => []
     | None => [Warning (op_interface o)
                  (Some (op_name o +:+ " cannot be undone; commit-confirm will not revert it"))]
     end) /\
  p_refusals p' = p_refusals p /\ p_stranded p' = p_stranded p.
Proof.
  intros E Hf. unfold plan_add in E. destruct (plan_failed p) eqn:Ep; [simplify_eq; congruence|].
  destruct (match deps with [] => _ | _ => _ end) as [ok [m0 h0]] eqn:Ed.
  destruct ok; cbn [negb] in E.
  2:{ simplify_eq. destruct deps; [done|]. unfold plan_failed in Hf. cbn in Hf.
      by pose proof (proj2 (alloc_block_copies grant) _ _ _ Ed Hf). }
  destruct (grow _ _ _) as [head [m1 h1]] eqn:Eg.
  destruct (grow_failed _ _ _ _ _ _ Eg) as [Hn Hs]. destruct head as [g|].
  2:{ simplify_eq. unfold plan_failed in Hf. cbn in Hf. rewrite Hn in Hf; done. }
  destruct (fill_action _ _ _ _ _) as [[[o' why'] inv'] [m2 h2]] eqn:Ef.
  pose proof (proj2 (fill_action_copies grant o why inv) _ _ _ Ef) as Hcopy.
  destruct inv as [i|].
  - simplify_eq. unfold plan_failed in Hf. cbn in *. rewrite app_nil_r.
    specialize (Hcopy Hf). by simplify_eq.
  - unfold plan_warnf in E. rewrite irreversible_fits in E.
    destruct (plan_warn _ _ _ _) as [u [p2 h3]] eqn:Ew. simplify_eq.
    destruct (plan_warn_spec _ _ _ _ _ _ _ Ew) as (-> & -> & -> & Hst & ->); [|done].
    cbn in *. destruct (m_failed m2) eqn:E2.
    { rewrite Hst in Hf; [done|by unfold plan_failed]. }
    specialize (Hcopy eq_refl). by simplify_eq.
Qed.

(** A failure sticks, so an intact plan was intact all along. *)
Lemma run_call_failed (s : plan B * heap) c :
  plan_failed s.1 = true -> plan_failed (run_call grant s c).1 = true.
Proof.
  destruct s as [p h]. intros Hf. cbn in Hf.
  assert (forall A (m : State (pmem * heap) A), mono m -> plan_failed (on_mem m (p, h)).1 = true)
    as Hmem.
  { intros A m Hm. unfold on_mem. cbn. destruct (m _) as [a [mem h']] eqn:E.
    by apply (Hm _ _ _ E). }
  assert (forall array, exists m', grow grant array (p_mem p, h) = (None, (p_mem p, m'))) as Hgrow.
  { intros array. unfold grow. unfold plan_failed, m_failed in Hf. rewrite Hf. eauto. }
  destruct c as [o why deps inv|i t|r|r|t|rt|rule|[]]; cbn [run_call].
  - unfold plan_add. by rewrite Hf.
  - unfold plan_warnf, plan_warn. by destruct (Hgrow (p_warnings_at p)) as [m' ->].
  - unfold plan_refuse. by destruct (Hgrow (p_refusals_at p)) as [m' ->].
  - unfold plan_strand. by destruct (Hgrow (p_stranded_at p)) as [m' ->].
  - apply Hmem, pintern_mono.
  - apply Hmem, intern_route_copies.
  - apply Hmem, intern_rule_copies.
  - apply Hmem, adopt_mono.
  - apply Hmem, adopt_none_mono.
Qed.

Lemma run_calls_failed (s : plan B * heap) cs :
  plan_failed (run_calls grant s cs).1 = false -> plan_failed s.1 = false.
Proof.
  revert s. induction cs as [|c cs IH]; intros s H; [done|]. apply IH in H.
  destruct (plan_failed s.1) eqn:E; [|done]. by rewrite (run_call_failed _ c E) in H.
Qed.

(** Where an action sits is what it is called, and what it waits for is above
    it. *)
Definition in_order (actions : list (action B)) : Prop :=
  forall i a, actions !! i = Some a ->
    ac_id a = u32 (Z.of_nat i) /\ forall d, d ∈ ac_depends_on a -> 0 <= d < Z.of_nat i.

Lemma in_order_snoc actions a :
  in_order actions -> ac_id a = u32 (zlen actions) ->
  (forall d, d ∈ ac_depends_on a -> 0 <= d < zlen actions) -> in_order (actions ++ [a]).
Proof.
  intros Ho Hid Hd i x [Hi|[Hi Hx]]%lookup_app_Some; [by apply Ho|].
  destruct (i - length actions)%nat as [|k] eqn:Ei; [|done]. cbn in Hx. simplify_eq.
  replace i with (length actions) by lia. done.
Qed.

(** A planner that only ever names actions it has been given ids for: every
    dependency is a refused action or one already in the plan. *)
Fixpoint deps_known (s : plan B * heap) (cs : list (call B)) : Prop :=
  match cs with
  | [] => True
  | c :: cs' =>
      match c with
      | CallAdd _ _ deps _ =>
          forall d, d ∈ deps -> d = NO_ACTION \/ 0 <= d < zlen (p_actions s.1)
      | _ => True
      end /\ deps_known (run_call grant s c) cs'
  end.

Lemma run_call_in_order s c cs :
  in_order (p_actions s.1) -> deps_known s (c :: cs) ->
  plan_failed (run_call grant s c).1 = false -> in_order (p_actions (run_call grant s c).1).
Proof.
  destruct s as [p h]. intros Ho [Hd _] Hf.
  destruct c as [o why deps inv|i t|r|r|t|rt|rule|[]]; cbn [run_call] in *;
    try (unfold on_mem in *; match goal with |- context [let '(_, _) := ?m ?s in _] =>
           destruct (m s) as [? [? ?]] end; exact Ho).
  - destruct (plan_add _ _ _ _ _ _) as [id [p' h']] eqn:E. cbn in *.
    destruct (plan_add_appends _ _ _ _ _ _ _ _ _ E Hf) as (Hid & -> & _).
    apply in_order_snoc; auto. cbn. intros d [Hne Hin]%list_elem_of_filter.
    by destruct (Hd d Hin).
  - unfold plan_warnf in *. destruct (plan_warn _ _ _ _) as [u [p' h']] eqn:E. cbn.
    by destruct (plan_warn_spec _ _ _ _ _ _ _ E) as (-> & _).
  - unfold plan_refuse. break; exact Ho.
  - unfold plan_strand. break; exact Ho.
Qed.
(** [ncfg_plan_add] on a plan that does not run out of memory appends one
    action that is a whole copy of what it was given: numbered by its
    position, with the dependencies that name an emitted action, its inverse
    if any, and -- exactly when it has none -- one warning that names it as
    irreversible. Nothing already in the plan changes. *)
Theorem plan_add_faithful (o : op B) why deps inv p h id p' h' :
  plan_add grant o why deps inv (p, h) = (id, (p', h')) -> plan_failed p' = false ->
  id = u32 (zlen (p_actions p)) /\
  p_actions p' = p_actions p ++ [Action id o why (kept_edges deps) inv] /\
  p_warnings p' = p_warnings p ++
    (match inv with
     | Some _ => []
     | None => [Warning (op_interface o)
                  (Some (op_name o +:+ " cannot be undone; commit-confirm will not revert it"))]
     end) /\
  p_refusals p' = p_refusals p /\ p_stranded p' = p_stranded p.
Proof. apply plan_add_appends. Qed.

End Contents.

Lemma plan_add_faithful_witness :
  let p : plan () := Plan 0%nat (Pmem arena_init [] 0%nat None) [] None [] None [] None [] None in
  let why := Reason None (Some "hostname") (Some "a") (Some "b") in
  let o : op () := HOSTNAME_SET (Some "a") in
  let s := plan_add (fun _ => true) o why [NO_ACTION; 4] None (p, Heap 1%nat {[ 0%nat ]} false) in
  s.1 = 0 /\ p_actions s.2.1 = [Action 0 o why [4] None].
Proof.
  intros p why o s.
  destruct (plan_add_faithful (fun _ => true) o why [NO_ACTION; 4] None p
              (Heap 1%nat {[ 0%nat ]} false) s.1 s.2.1 s.2.2) as (H1 & H2 & _).
  - vm_compute. reflexivity.
  - vm_compute. reflexivity.
  - split; [exact H1|exact H2].
Defined.

(** The list a planner builds is numbered by position and respects its own
    edges. From a new plan, after any calls that name as dependencies only
    refused actions and actions already added, and as long as memory did not
    run out, action [i] has id [i] and depends only on actions before it --
    so the list is a valid execution order. *)
Theorem plan_in_order {B} (grant : nat -> bool) (h h1 : heap) (p : plan B) (cs : list (call B)) :
  plan_new grant h = (Some p, h1) -> deps_known grant (p, h1) cs ->
  plan_failed (run_calls grant (p, h1) cs).1 = false ->
  in_order (p_actions (run_calls grant (p, h1) cs).1).
Proof.
  intros En Hd Hf.
  assert (in_order (p_actions (p, h1).1)) as Ho.
  { unfold plan_new in En. destruct (h_malloc grant h) as [[]]; simplify_eq. intros i a Hi.
    by destruct i. }
  revert Hd Hf Ho. generalize (p, h1). induction cs as [|c cs IH]; intros s Hd Hf Ho; [done|].
  apply IH; [by destruct Hd|done|].
  eapply run_call_in_order; eauto. by eapply run_calls_failed.
Qed.

Lemma plan_in_order_witness :
  let p : plan () := Plan 0%nat (Pmem arena_init [] 0%nat None) [] None [] None [] None [] None in
  let why := Reason (Some "eth0") (Some "state") (Some "up") (Some "down") in
  let up : op () := LINK_UP (Some "eth0") in
  let cs := [CallAdd up why [] None; CallAdd up why [NO_ACTION; 0%Z] (Some up)] in
  in_order (p_actions (run_calls (fun _ => true) (p, Heap 1%nat {[ 0%nat ]} false) cs).1).
Proof.
  apply (plan_in_order (fun _ => true) (Heap 0%nat ∅ false)).
  - reflexivity.
  - cbn [deps_known]. split_and!; [by intros d ?%not_elem_of_nil| |done].
    intros d Hd. assert (d = NO_ACTION \/ d = 0%Z) as [->| ->] by set_solver; [by left|right].
    split; vm_compute; congruence.
  - vm_compute. reflexivity.
Defined.
