(* ===== verification/Journal.v ===== *)
(** * Journal: what happened to each action, of [apply/journal.c]

    An append-only list of records whose strings live in the journal's arena.
    As in the plan, a record's text is its value and the blocks behind it are
    the arena's.  The JSON writer at the end of the file is not modelled. *)
From S2P Require Import Prelude Op Heap Plan.
From stdpp Require Import gmap.

Inductive outcome : Set :=
| OUTCOME_DONE | OUTCOME_FAILED | OUTCOME_SKIPPED | OUTCOME_UNMET | OUTCOME_REVERTED.

#[export] Instance outcome_eq_dec : EqDecision outcome.
Proof. solve_decision. Defined.

Record record := Record_ {
  rc_id : Z; rc_op : cstr; rc_interface : cstr; rc_reason : reason;
  rc_outcome : outcome; rc_error : cstr }.

Record journal := Journal {
  j_records : list record;
  j_capacity : nat;
  j_block : option nat;
  j_arena : arena }.

Definition JOURNAL_FIRST_OWNED : nat := 32.
Definition JOURNAL_FIRST_RECORDS : nat := 16.

(** [ncfg_journal_init], [ncfg_journal_failed]. *)
Definition journal_init : journal := Journal [] 0 None arena_init.
Definition journal_failed (j : journal) : bool := a_failed (j_arena j).

(** [ncfg_journal_free]. *)
Definition journal_free (j : journal) (h : heap) : journal * heap :=
  let h := h_free_all (a_owned (j_arena j)) h in
  let h := h_free (a_block (j_arena j)) h in
  (journal_init, h_free (j_block j) h).

Section WithAllocator.
Context (grant : nat -> bool).

(** The seven interned strings of [ncfg_journal_push], in its order. *)
Definition intern_record (r : record) : State (arena * heap) record :=
  let intern := intern grant JOURNAL_FIRST_OWNED in
  o ← intern (rc_op r);
  interface ← intern (rc_interface r);
  error ← intern (rc_error r);
  why_interface ← intern (rs_interface (rc_reason r));
  field ← intern (rs_field (rc_reason r));
  desired ← intern (rs_desired (rc_reason r));
  observed ← intern (rs_observed (rc_reason r));
  mret (Record_ (rc_id r) o interface (Reason why_interface field desired observed)
          (rc_outcome r) error).

(** [ncfg_journal_push]: a record is counted even where copying its strings
    failed; a journal that already failed takes no more. *)
Definition journal_push (r : record) (s : journal * heap) : journal * heap :=
  let '(j, h) := s in
  if journal_failed j then (j, h)
  else
    let '(room, (capacity, block), h) :=
      if Nat.eqb (length (j_records j)) (j_capacity j) then
        let wanted :=
          if Nat.eqb (j_capacity j) 0 then JOURNAL_FIRST_RECORDS else (j_capacity j * 2)%nat in
        match h_realloc grant (j_block j) h with
        | (None, h') => (false, (j_capacity j, j_block j), h')
        | (Some g, h') => (true, (wanted, Some g), h')
        end
      else (true, (j_capacity j, j_block j), h) in
    if negb room then (Journal (j_records j) capacity block (arena_fail (j_arena j)), h)
    else
      let '(slot, (a, h)) := intern_record r (j_arena j, h) in
      (Journal (j_records j ++ [slot]) capacity block a, h).

End WithAllocator.

(** ** The questions asked of it *)

(** [ncfg_outcome_name]. *)
Definition outcome_name (o : outcome) : string :=
  match o with
  | OUTCOME_DONE => "done" | OUTCOME_FAILED => "failed" | OUTCOME_SKIPPED => "skipped"
  | OUTCOME_UNMET => "unmet" | OUTCOME_REVERTED => "reverted"
  end.

(** [counted], and the four counts. *)
Definition counted (o : outcome) (j : journal) : nat :=
  length (filter (fun r => rc_outcome r = o) (j_records j)).

Definition journal_done : journal -> nat := counted OUTCOME_DONE.
Definition journal_unmet : journal -> nat := counted OUTCOME_UNMET.
Definition journal_skipped : journal -> nat := counted OUTCOME_SKIPPED.
Definition journal_reverted : journal -> nat := counted OUTCOME_REVERTED.

(** [ncfg_journal_succeeded]: everything ran, whether or not it was since
    taken back. *)
Definition journal_succeeded (j : journal) : bool :=
  forallb (fun r => bool_decide (rc_outcome r = OUTCOME_DONE) ||
                    bool_decide (rc_outcome r = OUTCOME_REVERTED)) (j_records j).

(** [ncfg_journal_failure]: the first record that failed. *)
Definition journal_failure (j : journal) : option record :=
  find (fun r => bool_decide (rc_outcome r = OUTCOME_FAILED)) (j_records j).

(** ** Lemmas *)

Definition journal_wf (F : gset nat) (s : journal * heap) : Prop :=
  owns F s.2 (arena_blocks (j_arena s.1) ++ option_list (j_block s.1)).

Section Facts.
Context (grant : nat -> bool).

Lemma intern_record_step r s r' s' :
  intern_record grant r s = (r', s') ->
  arena_step s s' /\ rc_id r' = rc_id r /\ rc_outcome r' = rc_outcome r /\
  (a_failed s'.1 = false -> r' = r).
Proof.
  destruct r as [id o i [a b c d] out e]. unfold intern_record. cbn.
  unfold mbind, state_bind, mret, state_ret.
  repeat match goal with |- context [intern grant ?f ?t ?s] =>
    let E := fresh "E" in destruct (intern grant f t s) as [? ?] eqn:E;
    apply intern_step in E as [? ?] end.
  intros. simplify_eq. cbn.
  split_and!; [|done|done|].
  - repeat (etrans; [eassumption|]). reflexivity.
  - intros Hf.
    repeat match goal with
    | H : a_failed ?x.1 = false -> _, Hx : a_failed ?x.1 = false |- _ => specialize (H Hx)
    | H : arena_step ?x ?y, Hy : a_failed ?y.1 = false |- _ =>
        assert (a_failed x.1 = false) by
          (destruct H as (_ & _ & H); destruct (a_failed x.1); [by rewrite H in Hy|done]);
        clear H
    end. congruence.
Qed.

(** A push appends the record it was given, or the journal has failed. *)
Lemma journal_push_spec r j h j' h' :
  journal_push grant r (j, h) = (j', h') ->
  (journal_failed j = true -> journal_failed j' = true) /\
  (journal_failed j' = false -> j_records j' = j_records j ++ [r]).
Proof.
  unfold journal_push, journal_failed. intros E.
  destruct (a_failed (j_arena j)) eqn:Ef; [simplify_eq; split; congruence|].
  split; [done|]. intros Hf.
  match type of E with context [let '(_, _) := ?x in _] => destruct x as [[room [c b]] h1] end.
  destruct room; cbn [negb] in E; [|by simplify_eq].
  destruct (intern_record _ _ _) as [slot [a h2]] eqn:Er. simplify_eq. cbn in *.
  destruct (intern_record_step _ _ _ _ Er) as (_ & _ & _ & Hr). by rewrite Hr.
Qed.

Lemma journal_push_wf F r s : journal_wf F s -> journal_wf F (journal_push grant r s).
Proof.
  destruct s as [j h]. unfold journal_wf. cbn. intros Ho.
  destruct (journal_failed j); [done|].
  match goal with |- context [let '(_, _) := ?x in _] => destruct x as [[room [c b]] h1] eqn:E end.
  assert (owns F h1 (arena_blocks (j_arena j) ++ option_list b)) as H1.
  { destruct (_ =? _)%nat; [|by simplify_eq].
    rewrite Permutation_app_comm in Ho.
    destruct (h_realloc _ _ _) as [[g|] h2] eqn:Er;
      apply (owns_realloc _ _ _ _ _ _ _ Ho) in Er; simplify_eq;
      (eapply owns_proper; [|exact Er]); cbn; solve_Permutation. }
  destruct room; [|done]. cbn [negb].
  destruct (intern_record _ _ _) as [slot [a h2]] eqn:Er. cbn.
  destruct (intern_record_step _ _ _ _ Er) as ((Hs & _) & _). by apply Hs.
Qed.

Lemma journal_free_owns F j h : journal_wf F (j, h) -> owns F (journal_free j h).2 [].
Proof.
  intros Ho. cbn. apply owns_free_opt. rewrite app_nil_r.
  apply owns_free_opt, owns_free_all. unfold journal_wf, arena_blocks in Ho. cbn in Ho.
  by rewrite app_assoc.
Qed.

End Facts.
