(* ===== verification/Apply.v ===== *)
(** * Apply: the run loop and the revert of [apply/apply.c]

    The executor is the seam the source has: a state of type [M] and a function
    that carries one op out against it, saying whether it did and why not.  The
    loop threads that state beside the journal and the heap.  The narration to
    the log is not modelled. *)
From S2P Require Import Prelude Op Support Heap Plan Journal.
From stdpp Require Import gmap.
#[local] Open Scope Z_scope.

Section Run.
Context (grant : nat -> bool).
Context {B M : Type}.
Context (execute : M -> op B -> (bool * string) * M).

(** What is recorded as the error of a failed action. *)
Definition said (message : string) : string :=
  if bool_decide (message = "") then "the executor failed and said nothing" else message.

(** The record of an action before its outcome is known. *)
Definition record_of (a : action B) (o : outcome) (error : cstr) : record :=
  Record_ (ac_id a) (Some (op_name (ac_op a))) (op_interface (ac_op a)) (ac_reason a) o error.

(** The body of the loop of [run_plan]. *)
Definition run_action (a : action B) (s : bool * M * (journal * heap)) : bool * M * (journal * heap) :=
  let '(stopped, st, js) := s in
  if (stopped : bool) then
    (stopped, st, journal_push grant (record_of a OUTCOME_SKIPPED None) js)
  else
    match execute st (ac_op a) with
    | ((true, _), st') => (stopped, st', journal_push grant (record_of a OUTCOME_DONE None) js)
    | ((false, message), st') =>
        let optional := apply_optional (ac_op a) in
        (if optional then stopped else true, st',
         journal_push grant
           (record_of a (if optional then OUTCOME_UNMET else OUTCOME_FAILED) (Some (said message)))
           js)
    end.

Definition run_actions (acts : list (action B)) (s : bool * M * (journal * heap))
    : bool * M * (journal * heap) :=
  foldl (fun s a => run_action a s) s acts.

(** [run_plan], and so [ncfg_apply] and [ncfg_apply_silently]: the verdict, the
    executor's state and the journal. *)
Definition run_plan (p : plan B) (st : M) (h : heap) : verdict * M * (journal * heap) :=
  if plan_failed p then
    (inr "this plan did not finish being built, so it does not say everything that would have to change; nothing was applied",
     st, (journal_init, h))
  else
    let '(_, st', (j, h')) := run_actions (p_actions p) (false, st, (journal_init, h)) in
    (if journal_failed j then
       inr "the plan ran, and the journal ran out of memory recording it; what happened to the machine is not written down"
     else inl (), st', (j, h')).

(** [action_with_id]: the first action with this id. *)
Definition action_with_id (p : plan B) (id : Z) : option (action B) :=
  find (fun a => ac_id a =? id) (p_actions p).

Definition set_outcome (r : record) (o : outcome) : record :=
  Record_ (rc_id r) (rc_op r) (rc_interface r) (rc_reason r) o (rc_error r).

(** One turn of the loop of [ncfg_apply_revert]. *)
Definition revert_record (p : plan B) (r : record) (st : M) : record * M * nat :=
  if bool_decide (rc_outcome r = OUTCOME_DONE) then
    match action_with_id p (rc_id r) ≫= ac_inverse with
    | None => (r, st, 0%nat)
    | Some inverse =>
        match execute st inverse with
        | ((true, _), st') => (set_outcome r OUTCOME_REVERTED, st', 1%nat)
        | ((false, _), st') => (r, st', 0%nat)
        end
    end
  else (r, st, 0%nat).

(** The loop itself: the newest record first, each rewritten in place. *)
Fixpoint revert_records (p : plan B) (rs : list record) (st : M) : list record * M * nat :=
  match rs with
  | [] => ([], st, 0%nat)
  | r :: rest =>
      let '(rest', st1, undone) := revert_records p rest st in
      let '(r', st2, one) := revert_record p r st1 in
      (r' :: rest', st2, (undone + one)%nat)
  end.

(** [ncfg_apply_revert]. *)
Definition apply_revert (p : plan B) (j : journal) (st : M) : nat * journal * M :=
  let '(rs, st', undone) := revert_records p (j_records j) st in
  (undone, Journal rs (j_capacity j) (j_block j) (j_arena j), st').

(** ** What a run is, as a relation

    The rules of decision 0293 and section 4: an action that succeeds is done;
    one that fails and is optional is unmet and the plan goes on; the first
    required failure is the last call the executor gets, and everything after
    it is skipped. *)
Inductive carries : M -> list (action B) -> list (outcome * cstr) -> M -> Prop :=
| carries_nil st : carries st [] [] st
| carries_done st st1 st2 a acts os message :
    execute st (ac_op a) = ((true, message), st1) -> carries st1 acts os st2 ->
    carries st (a :: acts) ((OUTCOME_DONE, None) :: os) st2
| carries_unmet st st1 st2 a acts os message :
    execute st (ac_op a) = ((false, message), st1) -> apply_optional (ac_op a) = true ->
    carries st1 acts os st2 ->
    carries st (a :: acts) ((OUTCOME_UNMET, Some (said message)) :: os) st2
| carries_failed st st1 a acts message :
    execute st (ac_op a) = ((false, message), st1) -> apply_optional (ac_op a) = false ->
    carries st (a :: acts)
      ((OUTCOME_FAILED, Some (said message)) :: replicate (length acts) (OUTCOME_SKIPPED, None))
      st1.

(** The records a run of [acts] with these outcomes leaves. *)
Definition records_of (acts : list (action B)) (os : list (outcome * cstr)) : list record :=
  zip_with (fun a o => record_of a o.1 o.2) acts os.

Lemma carries_length st acts os st' : carries st acts os st' -> length os = length acts.
Proof. induction 1; cbn; rewrite ?length_replicate; congruence. Qed.

Lemma run_actions_cons a acts s : run_actions (a :: acts) s = run_actions acts (run_action a s).
Proof. reflexivity. Qed.

(** What is left after a required failure is recorded and not run. *)
Lemma run_actions_stopped acts st j h stopped st' j' h' :
  run_actions acts (true, st, (j, h)) = (stopped, st', (j', h')) ->
  st' = st /\ (journal_failed j = true -> journal_failed j' = true) /\
  (journal_failed j' = false ->
   j_records j' =
     j_records j ++ records_of acts (replicate (length acts) (OUTCOME_SKIPPED, None))).
Proof.
  revert j h. induction acts as [|a acts IH]; intros j h E.
  - cbn in E. simplify_eq. by rewrite app_nil_r.
  - rewrite run_actions_cons in E. unfold run_action in E.
    destruct (journal_push grant _ _) as [j1 h1] eqn:Ep.
    destruct (IH _ _ E) as (-> & Hs & Hr).
    destruct (journal_push_spec _ _ _ _ _ _ Ep) as (Hs1 & Hr1).
    split_and!; auto. intros Hf.
    assert (journal_failed j1 = false) by (destruct (journal_failed j1); [rewrite Hs in Hf|]; done).
    rewrite Hr, Hr1 by done. by rewrite <- app_assoc.
Qed.

(** The loop carries the actions out by the rules, and a journal that did not
    fail holds exactly one record per action. *)
Lemma run_actions_carries acts st j h stopped st' j' h' :
  run_actions acts (false, st, (j, h)) = (stopped, st', (j', h')) ->
  exists os, carries st acts os st' /\
    (journal_failed j = true -> journal_failed j' = true) /\
    (journal_failed j' = false -> j_records j' = j_records j ++ records_of acts os).
Proof.
  revert st j h. induction acts as [|a acts IH]; intros st j h E.
  { cbn in E. simplify_eq. exists []. split_and!; [constructor|done|by rewrite app_nil_r]. }
  rewrite run_actions_cons in E. unfold run_action in E.
  destruct (execute st (ac_op a)) as [[ok message] st1] eqn:Ex.
  assert (forall r j1 h1 os, journal_push grant r (j, h) = (j1, h1) ->
    (journal_failed j1 = true -> journal_failed j' = true) /\
    (journal_failed j' = false -> j_records j' = j_records j1 ++ records_of acts os) ->
    (journal_failed j = true -> journal_failed j' = true) /\
    (journal_failed j' = false -> j_records j' = j_records j ++ r :: records_of acts os)) as Hpush.
  { intros r j1 h1 os Ep [Hs Hr]. destruct (journal_push_spec _ _ _ _ _ _ Ep) as (Hs1 & Hr1).
    split; auto. intros Hf.
    assert (journal_failed j1 = false) by (destruct (journal_failed j1); [rewrite Hs in Hf|]; done).
    rewrite Hr, Hr1 by done. by rewrite <- app_assoc. }
  destruct ok; [|destruct (apply_optional (ac_op a)) eqn:Eo];
    destruct (journal_push grant _ _) as [j1 h1] eqn:Ep.
  - destruct (IH _ _ _ E) as (os & Hc & H). eexists. split; [by econstructor|].
    by apply (Hpush _ _ _ os Ep).
  - destruct (IH _ _ _ E) as (os & Hc & H). eexists. split; [by eapply carries_unmet|].
    by apply (Hpush _ _ _ os Ep).
  - destruct (run_actions_stopped _ _ _ _ _ _ _ _ E) as (-> & H). eexists.
    split; [by eapply carries_failed|]. by apply (Hpush _ _ _ _ Ep).
Qed.

(** Every step of the loop keeps the journal's memory its own. *)
Lemma run_actions_wf F acts s : journal_wf F s.2 -> journal_wf F (run_actions acts s).2.
Proof.
  revert s. induction acts as [|a acts IH]; intros s H; [done|].
  rewrite run_actions_cons. apply IH. destruct s as [[stopped st] js]. unfold run_action.
  destruct stopped; [by apply journal_push_wf|].
  destruct (execute st (ac_op a)) as [[[] message] st1]; by apply journal_push_wf.
Qed.

End Run.
