(* ===== verification/ApplySpec.v ===== *)
(** * ApplySpec: what applying and reverting a plan promise *)
From S2P Require Import Prelude Op Support Heap Plan Journal Apply.
From stdpp Require Import gmap.
#[local] Open Scope Z_scope.

Section Specs.
Context (grant : nat -> bool).
Context {B M : Type}.
Context (execute : M -> op B -> (bool * string) * M).

Lemma run_plan_inv p st h v st' j h' :
  run_plan grant execute p st h = (v, st', (j, h')) -> plan_failed p = false ->
  exists stopped,
    run_actions grant execute (p_actions p) (false, st, (journal_init, h)) =
      (stopped, st', (j, h')) /\
    (v = inl () <-> journal_failed j = false).
Proof.
  unfold run_plan. intros E Hf. rewrite Hf in E. destruct (run_actions _ _ _ _) as [[stopped s1] [j1 h1]].
  simplify_eq. exists stopped. by destruct (journal_failed j).
Qed.

(** A verdict of success comes with a run and its records. *)
Lemma run_plan_carries p st h st' j h' :
  run_plan grant execute p st h = (inl (), st', (j, h')) ->
  exists os, carries execute st (p_actions p) os st' /\ j_records j = records_of (p_actions p) os.
Proof.
  intros E. destruct (plan_failed p) eqn:Ef; [unfold run_plan in E; by rewrite Ef in E|].
  destruct (run_plan_inv _ _ _ _ _ _ _ E Ef) as (stopped & Er & [Hj _]).
  destruct (run_actions_carries _ _ _ _ _ _ _ _ _ _ Er) as (os & Hc & _ & Hr).
  exists os. split; [done|]. by rewrite Hr; [|apply Hj].
Qed.

(** C3: applying a plan refines the rules of a run. A plan that was not built
    whole is refused without one call to the executor. Any other is carried
    out front to back by the rules of [carries], whatever happens to the
    journal's memory; success is reported exactly when the journal is whole,
    and the journal then holds one record per action, in order, with that
    action's id, name, interface and reason and the outcome the rules gave it. *)
Theorem run_plan_refines p st h v st' j h' :
  run_plan grant execute p st h = (v, st', (j, h')) ->
  if plan_failed p then is_yes v = false /\ st' = st /\ j_records j = []
  else exists os, carries execute st (p_actions p) os st' /\
         (v = inl () <-> journal_failed j = false) /\
         (v = inl () -> j_records j = records_of (p_actions p) os).
Proof.
  intros E. destruct (plan_failed p) eqn:Ef.
  - unfold run_plan in E. rewrite Ef in E. by simplify_eq.
  - destruct (run_plan_inv _ _ _ _ _ _ _ E Ef) as (stopped & Er & Hj).
    destruct (run_actions_carries _ _ _ _ _ _ _ _ _ _ Er) as (os & Hc & _ & Hr).
    exists os. split_and!; try apply Hj; auto. intros Hv. apply Hr, Hj, Hv.
Qed.

(** ** Where a run stops *)

Lemma records_of_lookup acts os i r :
  records_of (B := B) acts os !! i = Some r ->
  exists a o, acts !! i = Some a /\ os !! i = Some o /\ r = record_of a o.1 o.2.
Proof.
  intros H. apply lookup_zip_with_Some in H as (a & o & -> & Ha & Ho). eauto.
Qed.

Lemma carries_failed_at st acts os st' i e :
  carries execute st acts os st' -> os !! i = Some (OUTCOME_FAILED, e) ->
  (exists a, acts !! i = Some a /\ apply_optional (ac_op a) = false) /\
  (forall k o, (k < i)%nat -> os !! k = Some o -> o.1 = OUTCOME_DONE \/ o.1 = OUTCOME_UNMET) /\
  (forall k o, (i < k)%nat -> os !! k = Some o -> o.1 = OUTCOME_SKIPPED).
Proof.
  intros H. revert i. induction H; intros i Hi; [by destruct i| | |].
  1,2: destruct i as [|i]; [done|]; destruct (IHcarries i Hi) as (Ha & Hb & Hc);
    split_and!; [done| |]; intros [|k] o Hk Ho; simplify_eq/=;
      auto with lia; [apply (Hb k)|apply (Hc k)]; auto with lia.
  destruct i as [|i]; cbn in Hi.
  - split_and!; [eauto|lia|]. intros [|k] o Hk Ho; [lia|].
    cbn in Ho. apply lookup_replicate in Ho as [-> _]. done.
  - by apply lookup_replicate in Hi as [? _].
Qed.

Lemma carries_outcome st acts os st' i o :
  carries execute st acts os st' -> os !! i = Some o ->
  (o.1 = OUTCOME_UNMET ->
   exists a, acts !! i = Some a /\ apply_optional (ac_op a) = true) /\
  o.1 <> OUTCOME_REVERTED /\
  (o.1 = OUTCOME_SKIPPED ->
   exists k e, (k < i)%nat /\ os !! k = Some (OUTCOME_FAILED, e)).
Proof.
  intros H. revert i o. induction H; intros i o Ho; [by destruct i| | |];
    destruct i as [|i]; simplify_eq/=.
  - by split_and!.
  - destruct (IHcarries i o Ho) as (Ha & Hb & Hc). split_and!; auto.
    intros (k & e & Hk & He)%Hc. exists (S k), e. split; [lia|done].
  - split_and!; eauto. done.
  - destruct (IHcarries i o Ho) as (Ha & Hb & Hc). split_and!; auto.
    intros (k & e & Hk & He)%Hc. exists (S k), e. split; [lia|done].
  - by split_and!.
  - apply lookup_replicate in Ho as [-> _]. split_and!; try done. intros _.
    eexists 0%nat, _. split; [lia|done].
Qed.

(** One required failure ends a plan and nothing else does. In the journal
    of a reported run, the action of a failed record was a required one, every
    record before it is done or unmet, every record after it is skipped; an
    unmet record is an optional action's; and a skipped record always has a
    failed one before it. *)
Theorem apply_stops_at_first_failure p st h st' j h' i r :
  run_plan grant execute p st h = (inl (), st', (j, h')) -> j_records j !! i = Some r ->
  (rc_outcome r = OUTCOME_FAILED ->
   (exists a, p_actions p !! i = Some a /\ ac_id a = rc_id r /\
              apply_optional (ac_op a) = false) /\
   (forall k r', (k < i)%nat -> j_records j !! k = Some r' ->
      rc_outcome r' = OUTCOME_DONE \/ rc_outcome r' = OUTCOME_UNMET) /\
   (forall k r', (i < k)%nat -> j_records j !! k = Some r' -> rc_outcome r' = OUTCOME_SKIPPED)) /\
  (rc_outcome r = OUTCOME_UNMET ->
   exists a, p_actions p !! i = Some a /\ ac_id a = rc_id r /\
             apply_optional (ac_op a) = true) /\
  rc_outcome r <> OUTCOME_REVERTED /\
  (rc_outcome r = OUTCOME_SKIPPED ->
   exists k r', (k < i)%nat /\ j_records j !! k = Some r' /\ rc_outcome r' = OUTCOME_FAILED).
Proof.
  intros E. destruct (run_plan_carries _ _ _ _ _ _ E) as (os & Hc & ->). intros Hi.
  destruct (records_of_lookup _ _ _ _ Hi) as (a & [o e] & Ha & Ho & ->). cbn.
  destruct (carries_outcome _ _ _ _ _ _ Hc Ho) as (Hu & Hr & Hs). cbn in *. split_and!; auto.
  - intros ->. destruct (carries_failed_at _ _ _ _ _ _ Hc Ho) as ((a' & Ha' & Hopt) & Hb & Haf).
    split_and!; [exists a'; simplify_eq; auto| |];
      intros k r' Hk (x & o' & _ & Ho' & ->)%records_of_lookup; [by apply (Hb k)|by apply (Haf k)].
  - intros (a' & Ha' & Hopt)%Hu. simplify_eq. eauto.
  - intros (k & e' & Hk & He)%Hs. assert (k < length (p_actions p))%nat as Hl.
    { rewrite <- (carries_length _ _ _ _ _ Hc). by eapply lookup_lt_Some. }
    apply lookup_lt_is_Some in Hl as [b Hb]. exists k, (record_of b OUTCOME_FAILED e').
    split_and!; auto. unfold records_of. by rewrite lookup_zip_with, Hb; cbn; rewrite He.
Qed.

(** ** Putting it back *)

(** The inverse a revert would run for a record. *)
Definition declared_inverse (p : plan B) (r : record) : option (op B) :=
  action_with_id p (rc_id r) ≫= ac_inverse.

(** A record a revert has nothing to do for. *)
Definition settled (p : plan B) (r : record) : Prop :=
  rc_outcome r = OUTCOME_DONE -> declared_inverse p r = None.

Lemma revert_record_settled p r st :
  settled p r -> revert_record execute p r st = (r, st, 0%nat).
Proof.
  unfold revert_record, settled, declared_inverse. intros H.
  case_bool_decide; [|done]. by rewrite H.
Qed.

Lemma revert_records_settled p rs st :
  Forall (settled p) rs -> revert_records execute p rs st = (rs, st, 0%nat).
Proof.
  induction 1 as [|r rs Hr _ IH]; [done|]. cbn. rewrite IH.
  by rewrite revert_record_settled.
Qed.

Lemma action_with_id_unique (p : plan B) a :
  NoDup (ac_id <$> p_actions p) -> a ∈ p_actions p -> action_with_id p (ac_id a) = Some a.
Proof.
  unfold action_with_id. induction (p_actions p) as [|x l IH]; cbn; [by intros _ ?%not_elem_of_nil|].
  intros [Hx Hn]%NoDup_cons [->|Ha]%elem_of_cons; [by rewrite Z.eqb_refl|].
  destruct (Z.eqb_spec (ac_id x) (ac_id a)) as [E|]; [|auto].
  exfalso. apply Hx. rewrite E. by apply list_elem_of_fmap_2.
Qed.

(** An executor whose failures change nothing, and whose success at each of
    the plan's actions is undone by that action's inverse -- or changed
    nothing, where the action declares none. *)
Definition undoable (p : plan B) : Prop :=
  (forall st o message st', execute st o = ((false, message), st') -> st' = st) /\
  (forall a st message st', a ∈ p_actions p -> execute st (ac_op a) = ((true, message), st') ->
     match ac_inverse a with
     | Some inverse => exists message', execute st' inverse = ((true, message'), st)
     | None => st' = st
     end).

Lemma revert_carries p st acts os st' :
  undoable p -> carries execute st acts os st' ->
  (forall a, a ∈ acts -> a ∈ p_actions p /\ action_with_id p (ac_id a) = Some a) ->
  exists rs n, revert_records execute p (records_of acts os) st' = (rs, st, n) /\
               Forall (settled p) rs.
Proof.
  intros [Hfail Hinv]. induction 1 as [st|st st1 st2 a acts os message Ex _ IH
    |st st1 st2 a acts os message Ex Hopt _ IH|st st1 a acts message Ex Hopt]; intros Hin.
  - exists [], 0%nat. by split; [|constructor].
  - destruct IH as (rs & n & Hr & Hset); [intros x Hx; apply Hin; by right|].
    destruct (Hin a) as [Ha Hid]; [left|]. pose proof (Hinv a _ _ _ Ha Ex) as Hundo.
    cbn. unfold records_of in Hr. rewrite Hr. unfold revert_record. cbn. rewrite Hid. cbn.
    destruct (ac_inverse a) as [inverse|] eqn:Ei.
    + destruct Hundo as [message' ->]. eexists _, _. split; [done|]. constructor; [|done].
      intros Hd. done.
    + subst. eexists _, _. split; [done|]. constructor; [|done].
      intros _. unfold declared_inverse. cbn. by rewrite Hid.
  - apply Hfail in Ex as ->. destruct IH as (rs & n & Hr & Hset); [intros x Hx; apply Hin; by right|].
    cbn. unfold records_of in Hr. rewrite Hr. cbn. eexists _, _. split; [done|].
    by constructor.
  - apply Hfail in Ex as ->.
    assert (Forall (settled p) (records_of acts (replicate (length acts) (OUTCOME_SKIPPED, None)))) as Hs.
    { clear. induction acts as [|a acts IH]; cbn; [constructor|]. by constructor. }
    cbn. unfold records_of in Hs. rewrite revert_records_settled by done. cbn.
    eexists _, _. split; [done|]. by constructor.
Qed.

(** C4: applying and then reverting is the identity. For an executor whose
    failures change nothing and whose successes are undone by the declared
    inverses, and a plan whose ids are distinct, [ncfg_apply_revert] after any
    reported run -- whether it went through, left optional actions unmet or
    stopped half way -- brings the executor's state back to where it was
    before the run, and a second revert calls the executor for nothing and
    changes nothing. *)
Theorem apply_revert_restores (p : plan B) st h st' j h' :
  undoable p -> NoDup (ac_id <$> p_actions p) ->
  run_plan grant execute p st h = (inl (), st', (j, h')) ->
  exists n j', apply_revert execute p j st' = (n, j', st) /\
               apply_revert execute p j' st = (0%nat, j', st).
Proof.
  intros Hu Hid E. destruct (run_plan_carries _ _ _ _ _ _ E) as (os & Hc & Hr).
  destruct (revert_carries p _ _ _ _ Hu Hc) as (rs & n & Hrev & Hset).
  { intros a Ha. split; [done|]. by apply action_with_id_unique. }
  unfold apply_revert. rewrite Hr, Hrev. eexists _, _. split; [done|]. cbn.
  by rewrite revert_records_settled.
Qed.

(** Whatever the executor does, a revert only ever turns [done] into
    [reverted]: every record keeps its id, op, reason and error, a record that
    was not done keeps its outcome, the number it returns is the number of
    records it turned, and what is still [done] afterwards with a declared
    inverse is exactly what did not come back. *)
Theorem revert_only_marks p j st n j' st' :
  apply_revert execute p j st = (n, j', st') ->
  Forall2 (fun r r' => r' = r \/ (rc_outcome r = OUTCOME_DONE /\ is_Some (declared_inverse p r) /\
                                  r' = set_outcome r OUTCOME_REVERTED))
    (j_records j) (j_records j') /\
  journal_reverted j' = (journal_reverted j + n)%nat /\
  journal_done j = (journal_done j' + n)%nat.
Proof.
  unfold apply_revert. destruct (revert_records _ _ _ _) as [[rs st1] k] eqn:E.
  intros [= <- <- <-]. unfold journal_reverted, journal_done, counted. cbn.
  revert st rs st1 k E. induction (j_records j) as [|r l IH]; intros st rs st1 k E.
  { cbn in E. by simplify_eq. }
  cbn in E. destruct (revert_records _ _ l st) as [[rs2 st2] k2] eqn:E2.
  destruct (revert_record _ _ _ _) as [[r' st3] k3] eqn:E3. simplify_eq.
  destruct (IH _ _ _ _ E2) as (Hl & Hr & Hd).
  assert ((r' = r /\ k3 = 0%nat) \/ (rc_outcome r = OUTCOME_DONE /\ is_Some (declared_inverse p r) /\
            r' = set_outcome r OUTCOME_REVERTED /\ k3 = 1%nat)) as Hone.
  { unfold revert_record, declared_inverse in *. case_bool_decide; [|simplify_eq; auto].
    destruct (_ ≫= _) as [inv|] eqn:Ei; [|simplify_eq; auto].
    destruct (execute st2 inv) as [[[] m] st4]; simplify_eq; eauto 7. }
  rewrite !filter_cons.
  destruct Hone as [[-> ->]|(Ho & Hi & -> & ->)].
  - split_and!; [constructor; auto| |]; repeat case_decide; cbn; lia.
  - split_and!; [constructor; auto| |]; cbn;
      repeat case_decide; cbn in *; try congruence; lia.
Qed.

(** A journal never leaks and never frees twice. Whichever allocations are
    refused during a run, freeing the journal afterwards leaves the blocks
    that were live before it, with no block freed or grown twice. *)
Theorem apply_memory_exact p st h v st' j h' :
  h_fault h = false -> (forall b, b ∈ h_live h -> (b < h_ticks h)%nat) ->
  run_plan grant execute p st h = (v, st', (j, h')) ->
  h_fault (journal_free j h').2 = false /\ h_live (journal_free j h').2 = h_live h.
Proof.
  intros Hf Ht E.
  assert (journal_wf (h_live h) (journal_init, h)) as H0.
  { split_and!; auto; [constructor| |by intros ? ?%not_elem_of_nil]. cbn. set_solver. }
  assert (journal_wf (h_live h) (j, h')) as Hwf.
  { unfold run_plan in E. destruct (plan_failed p); [by simplify_eq|].
    pose proof (run_actions_wf grant execute _ (p_actions p) (false, st, (journal_init, h)) H0) as H1.
    destruct (run_actions _ _ _ _) as [[stopped s1] [j1 h1]]. by simplify_eq. }
  destruct (journal_free_owns _ _ _ Hwf) as (Hff & _ & Hl & _). split; [done|].
  rewrite Hl. cbn. set_solver.
Qed.

End Specs.

(** ** A machine of one link, to evaluate all this on

    The executor brings the link [eth0] up when it is down and down when it is
    up; shaping is refused, since this machine has no scheduler module. *)
Definition link_machine (up : bool) (o : op ()) : (bool * string) * bool :=
  match o with
  | LINK_UP (Some "eth0") => if up then ((false, "already up"), up) else ((true, ""), true)
  | LINK_DOWN (Some "eth0") => if up then ((true, ""), false) else ((false, "already down"), up)
  | _ => ((false, ""), up)
  end.

Definition link_plan : plan () :=
  let why := Reason (Some "eth0") None None None in
  let act id o inv := Action id o why [] inv in
  Plan 0%nat (Pmem arena_init [] 0%nat None)
    [act 0 (QDISC_SET (Some "eth0") (Some "cake") None false) (Some (QDISC_RESET (Some "eth0")));
     act 1 (LINK_UP (Some "eth0")) (Some (LINK_DOWN (Some "eth0")));
     act 2 (ADDR_ADD (Some "eth0") (Some "192.0.2.1/24") None None)
       (Some (ADDR_DEL (Some "eth0") (Some "192.0.2.1/24")));
     act 3 (LINK_DOWN (Some "eth0")) (Some (LINK_UP (Some "eth0")))]
    (Some 1%nat) [] None [] None [] None.

Definition link_run := run_plan (fun _ => true) link_machine link_plan false (Heap 9%nat ∅ false).

Definition outcomes_of (j : journal) : list outcome := rc_outcome <$> j_records j.

Example link_run_outcomes :
  outcomes_of link_run.2.1 = [OUTCOME_UNMET; OUTCOME_DONE; OUTCOME_FAILED; OUTCOME_SKIPPED] /\
  link_run.1 = (inl (), true).
Proof. split; vm_compute; reflexivity. Qed.

Lemma link_run_eq :
  run_plan (fun _ => true) link_machine link_plan false (Heap 9%nat ∅ false) =
    (inl (), true, (link_run.2.1, link_run.2.2)).
Proof. vm_compute. reflexivity. Qed.

Definition link_failure : record :=
  Record_ 2 (Some "addr.add") (Some "eth0") (Reason (Some "eth0") None None None)
    OUTCOME_FAILED (Some "the executor failed and said nothing").

Lemma link_run_failure : j_records link_run.2.1 !! 2%nat = Some link_failure.
Proof. vm_compute. reflexivity. Qed.

Lemma link_plan_undoable : undoable link_machine link_plan.
Proof.
  split.
  - intros st o message st' H.
    destruct o; cbn in H; try (injection H as _ <-; reflexivity);
      repeat (match type of H with context [match ?x with _ => _ end] => destruct x end; cbn in H);
      congruence.
  - intros a st message st' Ha H.
    repeat (apply elem_of_cons in Ha as [-> | Ha];
      [cbn in H; destruct st; try discriminate; injection H as _ <-; eexists; reflexivity|]).
    by apply not_elem_of_nil in Ha.
Qed.

Lemma run_plan_refines_witness :
  exists os, carries link_machine false (p_actions link_plan) os true /\
    (inl () = inl () :> verdict <-> journal_failed link_run.2.1 = false) /\
    (inl () = inl () :> verdict -> j_records link_run.2.1 = records_of (p_actions link_plan) os).
Proof.
  generalize (run_plan_refines _ _ _ _ _ _ _ _ _ link_run_eq).
  change (plan_failed link_plan) with false. intros H. exact H.
Defined.

Lemma link_run_skipped :
  exists r, j_records link_run.2.1 !! 3%nat = Some r /\ rc_op r = Some "link.down".
Proof. eexists. split; vm_compute; reflexivity. Qed.

Lemma apply_stops_at_first_failure_witness :
  rc_outcome <$> j_records link_run.2.1 !! 3%nat = Some OUTCOME_SKIPPED.
Proof.
  generalize (apply_stops_at_first_failure _ _ _ _ _ _ _ _ 2%nat link_failure
                link_run_eq link_run_failure).
  intros [H _]. destruct (H eq_refl) as (_ & _ & H').
  destruct link_run_skipped as (r & Hr & _). rewrite Hr. cbn. f_equal.
  apply (H' 3%nat r); [lia|exact Hr].
Defined.

Lemma apply_revert_restores_witness :
  exists n j', apply_revert link_machine link_plan link_run.2.1 true = (n, j', false) /\
               apply_revert link_machine link_plan j' false = (0%nat, j', false).
Proof.
  refine (apply_revert_restores _ _ _ _ _ _ _ _ link_plan_undoable _ link_run_eq).
  apply (bool_decide_unpack _). vm_compute. exact I.
Defined.

Lemma revert_only_marks_witness :
  let r := apply_revert link_machine link_plan link_run.2.1 true in
  r.1.1 = 1%nat /\ journal_done link_run.2.1 = (journal_done r.1.2 + r.1.1)%nat.
Proof.
  assert (apply_revert link_machine link_plan link_run.2.1 true =
            let r := apply_revert link_machine link_plan link_run.2.1 true in
            (r.1.1, r.1.2, r.2)) as E by (vm_compute; reflexivity).
  generalize (revert_only_marks _ _ _ _ _ _ _ E). intros (_ & _ & H).
  split; [vm_compute; reflexivity|exact H].
Defined.

Lemma apply_memory_exact_witness :
  h_live (journal_free link_run.2.1 link_run.2.2).2 = ∅.
Proof.
  refine (proj2 (apply_memory_exact _ _ _ _ _ _ _ _ _ _ _ link_run_eq)); [reflexivity|].
  cbn. intros b Hb. by apply elem_of_empty in Hb.
Defined.
