(* ===== verification/Confirm.v ===== *)
(** * Confirm: the commit-confirm window of [daemon/confirm.c]

    A change is applied, a window opens, and unless somebody confirms inside it
    the change is taken back.  The model has the directory the two files live
    in, the window's clock arithmetic, the window file as the JSON object it is
    (its text is not modelled), what an armed window covers, and the state
    machine: arm, keep, revert, and a start of the daemon -- the window left
    open resolved, a last-good configuration established, the startup apply.

    What the source reads from elsewhere is a parameter: the wall clock and the
    time asleep, the hash of a document, the planner, the executor, the
    observer, the empty document, and whether a write or an unlink went
    through.  A last-good configuration that was written is taken to read back
    as it was given: [DocumentRoundtrip.canonical_text_reads_back] is about
    that text, and a file over [DOCUMENT_FILE_MAX] counts as one that could not
    be written.  The records of ownership, [desired.json], the SIMs published
    and the log are not modelled, and the copy of the rejected hash is taken to
    be granted. *)
From S2P Require Import Prelude Op Support Heap Plan Journal Apply.
From stdpp Require Import gmap pretty.
#[local] Open Scope Z_scope.

(** ** Where the promise is kept *)

Definition SLASH : byte := "/"%byte.

(** [while (length > 1 && run_dir[length - 1] == '/') length--], on the
    characters from the last. *)
Fixpoint strip_rev (r : list byte) : list byte :=
  match r with
  | [] => []
  | c :: r' =>
      match r' with
      | [] => r
      | _ => if c =b SLASH then strip_rev r' else r
      end
  end.

Definition strip_slashes (run_dir : list byte) : list byte := rev (strip_rev (rev run_dir)).

(** The loop that leaves the index of the last slash. *)
Fixpoint last_slash (at_ : nat) (l : list byte) (found : option nat) : option nat :=
  match l with
  | [] => found
  | c :: r => last_slash (S at_) r (if c =b SLASH then Some at_ else found)
  end.

(** [ncfg_confirm_dir]. *)
Definition confirm_dir (run_dir : list byte) (out_size : Z) : option (list byte) :=
  if out_size =? 0 then None
  else
    let dir := strip_slashes run_dir in
    let length := length dir in
    let out :=
      if Nat.eqb length 0 then bytes "confirm"
      else if bool_decide (dir = [SLASH]) then bytes "/confirm"
      else
        match last_slash 0 dir None with
        | None => dir ++ bytes "-confirm"
        | Some 0%nat => bytes "/" ++ take (length - 1) (drop 1 dir) ++ bytes "-confirm"
        | Some slash =>
            take slash dir ++ bytes "/" ++
            take (length - slash - 1) (drop (slash + 1) dir) ++ bytes "-confirm"
        end in
    if zlen out <? out_size then Some out else None.

(** ** The window and its clock *)

Record window := Window {
  cw_deadline_epoch : Z;
  cw_asleep_at_arming : Z;
  cw_has_asleep : bool;
  cw_window_seconds : Z;
  cw_last_good_hash : string }.

Definition DAEMON_HASH_MAX : Z := 65.

(** [deadline_of]: the time slept since arming is given back. *)
Definition deadline_of (w : window) (asleep : Z) : Z :=
  if cw_has_asleep w then
    if cw_asleep_at_arming w <? asleep then
      u64 (cw_deadline_epoch w + u64 (asleep - cw_asleep_at_arming w))
    else cw_deadline_epoch w
  else cw_deadline_epoch w.

(** [ncfg_confirm_expired_at] and [ncfg_confirm_remaining_at]. *)
Definition expired_at (w : window) (asleep now : Z) : bool := deadline_of w asleep <=? now.

Definition remaining_at (w : window) (asleep now : Z) : Z :=
  let deadline := deadline_of w asleep in
  if deadline <=? now then 0 else u64 (deadline - now).

(** ** The window file *)

(** The members of a JSON object, as far as this file looks: a number with the
    integer it spells ([None] for a fraction or an exponent), a string, or
    something else. *)
Inductive jvalue : Type :=
| JNumber (spelled : option Z)
| JString (text : string)
| JOther.

Definition is_number (v : jvalue) : bool := match v with JNumber _ => true | _ => false end.

(** [ncfg_json_int]: the fallback where the value is no [int64_t]. *)
Definition json_int (v : jvalue) (fallback : Z) : Z :=
  match v with
  | JNumber (Some z) => if (INT64_MIN <=? z) && (z <=? INT64_MAX) then z else fallback
  | _ => fallback
  end.

Definition json_string (v : jvalue) : option string :=
  match v with JString s => Some s | _ => None end.

(** What the loop of [ncfg_confirm_read_window] has gathered. *)
Record gathered := Gathered {
  g_deadline : Z; g_have_deadline : bool;
  g_seconds : Z; g_have_seconds : bool;
  g_hash : option string;
  g_asleep : Z; g_have_asleep : bool }.

Definition gathered_init : gathered := Gathered 0 false 0 false None 0 false.

(** One member; [None] is a name netcfgd does not write. *)
Definition gather (g : gathered) (member : string * jvalue) : option gathered :=
  let '(name, v) := member in
  if String.eqb name "deadline_epoch" then
    Some (Gathered (json_int v (-1)) (is_number v) (g_seconds g) (g_have_seconds g)
            (g_hash g) (g_asleep g) (g_have_asleep g))
  else if String.eqb name "window_seconds" then
    Some (Gathered (g_deadline g) (g_have_deadline g) (json_int v (-1)) (is_number v)
            (g_hash g) (g_asleep g) (g_have_asleep g))
  else if String.eqb name "last_good_hash" then
    Some (Gathered (g_deadline g) (g_have_deadline g) (g_seconds g) (g_have_seconds g)
            (json_string v) (g_asleep g) (g_have_asleep g))
  else if String.eqb name "asleep_seconds" then
    let asleep := json_int v (-1) in
    Some (Gathered (g_deadline g) (g_have_deadline g) (g_seconds g) (g_have_seconds g)
            (g_hash g) asleep (is_number v && (0 <=? asleep)))
  else None.

Fixpoint gather_all (g : gathered) (members : list (string * jvalue)) : option gathered :=
  match members with
  | [] => Some g
  | x :: r => gather g x ≫= fun g' => gather_all g' r
  end.

(** The end of [ncfg_confirm_read_window]: the checks, and the window. *)
Definition window_of (g : gathered) : option window :=
  match g_hash g with
  | Some hash =>
      if negb (g_have_deadline g) || negb (g_have_seconds g) || (g_deadline g <? 0) ||
         (g_seconds g <? 0) || (UINT32_MAX <? g_seconds g) ||
         (DAEMON_HASH_MAX <=? Z.of_nat (String.length hash))
      then None
      else Some (Window (g_deadline g) (if g_have_asleep g then g_asleep g else 0)
                   (g_have_asleep g) (g_seconds g) hash)
  | None => None
  end.

(** [ncfg_confirm_read_window] on the object in the file; [None] is a file that
    is missing, unreadable or not a JSON object. *)
Definition read_window (file : option (list (string * jvalue))) : option window :=
  members ← file; g ← gather_all gathered_init members; window_of g.

(** The object [ncfg_confirm_write_window] writes. *)
Definition window_members (w : window) : list (string * jvalue) :=
  [("deadline_epoch", JNumber (Some (cw_deadline_epoch w)));
   ("window_seconds", JNumber (Some (cw_window_seconds w)));
   ("last_good_hash", JString (cw_last_good_hash w))] ++
  (if cw_has_asleep w then [("asleep_seconds", JNumber (Some (cw_asleep_at_arming w)))] else []).

(** ** What an open window covers *)

Record armed (B : Type) := Armed {
  ar_undo : option (plan B);
  ar_journal : journal;
  ar_document : string }.

Arguments Armed {B}.
Arguments ar_undo {B}.
Arguments ar_journal {B}.
Arguments ar_document {B}.

Definition armed_zero {B} : armed B := Armed None journal_init "".

(** [record_for]. *)
Definition record_for (j : journal) (id : Z) : option record :=
  find (fun r => rc_id r =? id) (j_records j).

Section Armed.
Context (grant : nat -> bool).
Context {B : Type}.

(** [ncfg_confirm_armed_free]. *)
Definition armed_free (a : armed B) (h : heap) : armed B * heap :=
  let h := match ar_undo a with Some p => plan_free p h | None => h end in
  let '(_, h) := journal_free (ar_journal a) h in
  (armed_zero, h).

(** The body of the loop of [ncfg_confirm_armed_from] for an action that is
    covered: [true] is the [break]. *)
Definition cover (a : action B) (r : record) (undo : plan B) (j : journal) (h : heap)
    : bool * (plan B * journal * heap) :=
  let '(id, (undo, h)) :=
    plan_add grant (ac_op a) (ac_reason a) [] (ac_inverse a) (undo, h) in
  if id =? NO_ACTION then (true, (undo, j, h))
  else
    let '(j, h) :=
      journal_push grant
        (Record_ id (rc_op r) (rc_interface r) (ac_reason a) OUTCOME_DONE None) (j, h) in
    (false, (undo, j, h)).

(** Whether the window covers an action: it reached the kernel and declared an
    inverse. *)
Definition covered (j : journal) (a : action B) : option record :=
  match record_for j (ac_id a), ac_inverse a with
  | Some r, Some _ => if bool_decide (rc_outcome r = OUTCOME_DONE) then Some r else None
  | _, _ => None
  end.

Fixpoint cover_all (ran : journal) (acts : list (action B)) (s : plan B * journal * heap)
    : plan B * journal * heap :=
  match acts with
  | [] => s
  | a :: rest =>
      let '(undo, j, h) := s in
      match covered ran a with
      | None => cover_all ran rest s
      | Some r =>
          let '(stop, s') := cover a r undo j h in
          if (stop : bool) then s' else cover_all ran rest s'
      end
  end.

(** [ncfg_confirm_armed_from]. [document] is the hash of the document, as
    [ncfg_daemon_document_hash] answered: [None] where there is no document,
    [Some None] where hashing it failed. *)
Definition armed_from (p : plan B) (ran : journal) (document : option (option string)) (h : heap)
    : bool * armed B * heap :=
  match plan_new grant h with
  | (None, h) => (false, Armed None journal_init "", h)
  | (Some undo, h) =>
      match document with
      | Some None =>
          let '(a, h) := armed_free (Armed (Some undo) journal_init "") h in (false, a, h)
      | _ =>
          let hash := match document with Some (Some x) => x | _ => "" end in
          let '(undo, j, h) := cover_all ran (p_actions p) (undo, journal_init, h) in
          if plan_failed undo || journal_failed j then
            let '(a, h) := armed_free (Armed (Some undo) j hash) h in (false, a, h)
          else (true, Armed (Some undo) j hash, h)
      end
  end.

End Armed.

(** ** The state machine *)

(** The two files, and the part of [ncfg_daemon_state_t] the machine moves:
    what is desired, what was last observed, what a revert rejected, and the
    machine behind the executor. *)
Record world (Doc Obs Mach : Type) := World {
  wd_window : option (list (string * jvalue));
  wd_last_good : option Doc;
  wd_desired : option Doc;
  wd_rejected : option string;
  wd_observed : option Obs;
  wd_machine : Mach }.

Arguments World {Doc Obs Mach}.
Arguments wd_window {Doc Obs Mach}.
Arguments wd_last_good {Doc Obs Mach}.
Arguments wd_desired {Doc Obs Mach}.
Arguments wd_rejected {Doc Obs Mach}.
Arguments wd_observed {Doc Obs Mach}.
Arguments wd_machine {Doc Obs Mach}.

Section Machine.
Context (grant : nat -> bool).
Context {B Doc Obs Mach : Type}.
(** [ncfg_daemon_document_hash], [ncfg_plan_build], the executor, and what
    [ncfg_daemon_state_reobserve] leaves in the state. *)
Context (document_hash : Doc -> option string).
Context (plan_build : Doc -> Obs -> heap -> option (plan B) * heap).
Context (execute : Mach -> op B -> (bool * string) * Mach).
Context (reobserve : Mach -> option Obs -> option Obs).

Notation world := (world Doc Obs Mach).

Definition set_window (w : world) (f : option (list (string * jvalue))) : world :=
  World f (wd_last_good w) (wd_desired w) (wd_rejected w) (wd_observed w) (wd_machine w).

Definition set_last_good (w : world) (d : option Doc) : world :=
  World (wd_window w) d (wd_desired w) (wd_rejected w) (wd_observed w) (wd_machine w).

Definition set_machine (w : world) (o : option Obs) (m : Mach) : world :=
  World (wd_window w) (wd_last_good w) (wd_desired w) (wd_rejected w) o m.

(** [ncfg_confirm_clear_window]: [ok] is whether the unlink went through; a
    file that is not there is the state asked for. *)
Definition clear_window (ok : bool) (w : world) : world :=
  if ok then set_window w None else w.

(** [ncfg_confirm_write_last_good]: written atomically, or not at all. *)
Definition write_last_good (ok : bool) (d : Doc) (w : world) : world :=
  if ok then set_last_good w (Some d) else w.

Definition window_open (w : world) : option window := read_window (wd_window w).

(** [ncfg_confirm_may_arm]: the document a revert would go back to. *)
Definition may_arm (now asleep : Z) (w : world) : Doc + string :=
  match window_open w with
  | Some win =>
      inr ("a confirm window is already open with " +:+ pretty (remaining_at win asleep now) +:+
           "s left; confirm or revert first")
  | None =>
      match wd_last_good w with
      | None => inr "no last-good configuration to revert to; apply once without a window first"
      | Some d => inl d
      end
  end.

(** [ncfg_confirm_arm]: [now] and [asleep] are the clocks, [ok] the write. *)
Definition arm (now asleep seconds : Z) (last_good : Doc) (ok : bool) (w : world) : bool * world :=
  match document_hash last_good with
  | None => (false, w)
  | Some hash =>
      if ok then
        (true, set_window w (Some (window_members (Window (u64 (now + seconds)) asleep true seconds hash))))
      else (false, w)
  end.

(** [ncfg_confirm_keep]. *)
Definition keep_change (cleared wrote : bool) (a : armed B) (applied : option Doc) (w : world)
    (h : heap) : verdict * armed B * world * heap :=
  match window_open w with
  | None => (inr "no confirm window is open", a, w, h)
  | Some _ =>
      let w := clear_window cleared w in
      let '(a, h) := armed_free a h in
      let w := match applied with Some d => write_last_good wrote d w | None => w end in
      (inl (), a, w, h)
  end.

(** [replan_onto_last_good]. *)
Definition replan_onto_last_good (w : world) (h : heap) : world * heap :=
  match wd_desired w, wd_observed w with
  | Some d, Some o =>
      match plan_build d o h with
      | (None, h) => (w, h)
      | (Some p, h) =>
          let '(_, m, (j, h)) := run_plan grant execute p (wd_machine w) h in
          let '(_, h) := journal_free j h in
          (set_machine w (wd_observed w) m, plan_free p h)
      end
  | _, _ => (w, h)
  end.

(** The hash a revert blacklists: what the window covered, or -- where that was
    lost -- what is desired now. *)
Definition rejected_hash (a : armed B) (w : world) : option string :=
  if negb (bool_decide (ar_document a = "")) then Some (ar_document a)
  else wd_desired w ≫= document_hash.

(** The inverses, run against the machine when the window recorded any. *)
Definition run_inverses (a : armed B) (w : world) : world :=
  match ar_undo a with
  | Some undo =>
      if plan_is_empty undo then w
      else
        let '(_, _, m) := apply_revert execute undo (ar_journal a) (wd_machine w) in
        set_machine w (reobserve m (wd_observed w)) m
  | None => w
  end.

(** [ncfg_confirm_revert]. *)
Definition revert (cleared : bool) (a : armed B) (w : world) (h : heap)
    : verdict * armed B * world * heap :=
  match window_open w with
  | None => (inr "no confirm window is open", a, w, h)
  | Some _ =>
      match wd_last_good w with
      | None =>
          let w := clear_window cleared w in
          let '(a, h) := armed_free a h in
          (inr "the last-good configuration is unreadable; nothing reverted", a, w, h)
      | Some last_good =>
          let w := World (wd_window w) (wd_last_good w) (Some last_good) (rejected_hash a w)
                     (wd_observed w) (wd_machine w) in
          let w := run_inverses a w in
          let '(a, h) := armed_free a h in
          let '(w, h) := replan_onto_last_good w h in
          let w := clear_window cleared w in
          let w := set_machine w (reobserve (wd_machine w) (wd_observed w)) (wd_machine w) in
          (inl (), a, w, h)
      end
  end.

(** [ncfg_confirm_resolve_on_startup]: reverted whether or not the deadline
    has passed. The boolean is [*resolved]. *)
Definition resolve_on_startup (cleared : bool) (a : armed B) (w : world) (h : heap)
    : verdict * bool * armed B * world * heap :=
  match window_open w with
  | None => (inl (), false, a, w, h)
  | Some _ =>
      match revert cleared a w h with
      | (inl _, a, w, h) => (inl (), true, a, w, h)
      | (inr why, a, w, h) => (inr why, false, a, w, h)
      end
  end.

(** [resolve_window] of [daemon/reconcile_pass.c]: a timer fired; the window is
    asked whether it has really expired. [executor_ok] is whether an executor
    could be opened. *)
Definition resolve_window (executor_ok cleared : bool) (now asleep : Z) (a : armed B) (w : world)
    (h : heap) : bool * armed B * world * heap :=
  match window_open w with
  | None => (false, a, w, h)
  | Some win =>
      if expired_at win asleep now then
        if executor_ok then
          match revert cleared a w h with
          | (inl _, a, w, h) => (true, a, w, h)
          | (inr _, a, w, h) => (false, a, w, h)
          end
        else (false, a, w, h)
      else (false, a, w, h)
  end.

(** [ncfg_daemon_arm_window]: what to undo is recorded before the window is
    opened, and forgotten if it could not be. *)
Definition arm_window (now asleep seconds : Z) (wrote : bool) (applied : plan B) (ran : journal)
    (last_good : Doc) (a : armed B) (w : world) (h : heap) : bool * armed B * world * heap :=
  let '(a, h) :=
    match wd_desired w with
    | Some d =>
        let '(_, h) := armed_free a h in
        let '(_, a, h) := armed_from grant applied ran (Some (document_hash d)) h in (a, h)
    | None => (a, h)
    end in
  match arm now asleep seconds last_good wrote w with
  | (true, w) => (true, a, w, h)
  | (false, w) => let '(a, h) := armed_free a h in (false, a, w, h)
  end.

(** [settle_without_a_window] of [daemon/request.c]: a plain apply becomes the
    last-good configuration, unless it happened inside somebody's window. *)
Definition settle_without_a_window (wrote : bool) (a : armed B) (w : world) (h : heap)
    : armed B * world * heap :=
  match window_open w with
  | Some _ => (a, w, h)
  | None =>
      let '(a, h) := armed_free a h in
      (a, match wd_desired w with Some d => write_last_good wrote d w | None => w end, h)
  end.

(** [resolve_any_window] of [main/daemon_main.c]: the window is read before an
    executor is opened; whether one was found and put back. *)
Definition resolve_any_window (executor_ok cleared : bool) (a : armed B) (w : world) (h : heap)
    : bool * armed B * world * heap :=
  match window_open w with
  | None => (false, a, w, h)
  | Some _ =>
      if executor_ok then
        match resolve_on_startup cleared a w h with
        | (inl _, resolved, a, w, h) => (resolved, a, w, h)
        | (inr _, _, a, w, h) => (false, a, w, h)
        end
      else (false, a, w, h)
  end.

(** What [ncfg_document_new] makes, and what [reobserve] of
    [daemon/reconcile_pass.c] leaves: the observation with the verdicts of the
    probes stamped on it. *)
Context (document_new : Doc).
Context (reobserve_probed : Mach -> option Obs -> option Obs).

(** [ncfg_reconcile_establish_last_good]: where no last-good configuration is
    readable, an empty one; [wrote] is whether it could be made and written. *)
Definition establish_last_good (wrote : bool) (w : world) : bool * world :=
  match wd_last_good w with
  | Some _ => (true, w)
  | None => (wrote, write_last_good wrote document_new w)
  end.

(** [ncfg_reconcile_converge]: the startup apply. What went through in full is
    recorded as the last-good configuration, and nothing asks whether a window
    is open. *)
Definition converge (executor_ok wrote : bool) (w : world) (h : heap) : verdict * world * heap :=
  match wd_desired w with
  | None => (inl (), w, h)
  | Some d =>
      let w := set_machine w (reobserve_probed (wd_machine w) (wd_observed w)) (wd_machine w) in
      match wd_observed w with
      | None => (inl (), w, h)
      | Some o =>
          if executor_ok then
            match plan_build d o h with
            | (None, h) => (inr "the startup apply could not be planned", w, h)
            | (Some p, h) =>
                let '(_, m, (j, h)) := run_plan grant execute p (wd_machine w) h in
                let w := set_machine w (reobserve m (wd_observed w)) m in
                let w := if journal_succeeded j then write_last_good wrote d w else w in
                let '(_, h) := journal_free j h in
                (inl (), w, plan_free p h)
            end
          else (inl (), w, h)
      end
  end.

(** [ncfg_reconcile_start]: a machine that has just been put back is not one to
    apply over. *)
Definition reconcile_start (apply_on_start reverted executor_ok wrote : bool) (w : world) (h : heap)
    : verdict * world * heap :=
  if negb apply_on_start || reverted then (inl (), w, h) else converge executor_ok wrote w h.

(** What [ncfg_daemon_main] does before it serves anybody. [revert_ok] and
    [apply_ok] are whether an executor could be opened for the revert and for
    the apply, [cleared] the unlink, [established] and [recorded] the two
    writes of the last-good configuration. *)
Definition startup (apply_on_start revert_ok apply_ok cleared established recorded : bool)
    (a : armed B) (w : world) (h : heap) : armed B * world * heap :=
  let w := set_machine w (reobserve (wd_machine w) (wd_observed w)) (wd_machine w) in
  let '(reverted, a, w, h) := resolve_any_window revert_ok cleared a w h in
  let '(_, w) := establish_last_good established w in
  let '(_, w, h) := reconcile_start apply_on_start reverted apply_ok recorded w h in
  (a, w, h).

(** The end of a reload in [daemon/state.c], once a document was compiled: the
    configuration a revert took back is refused until it changes. *)
Definition adopt (compiled : Doc) (w : world) : verdict * world :=
  match wd_rejected w, document_hash compiled with
  | Some r, Some hash =>
      if bool_decide (r = hash) then
        (inr "this configuration was reverted away from and has not changed since; edit it to try again", w)
      else (inl (), World (wd_window w) (wd_last_good w) (Some compiled) None (wd_observed w) (wd_machine w))
  | _, _ =>
      (inl (), World (wd_window w) (wd_last_good w) (Some compiled) None (wd_observed w) (wd_machine w))
  end.

End Machine.
