(* ===== verification/ConfirmSpec.v ===== *)
(** * ConfirmSpec: what the commit-confirm window promises *)
From S2P Require Import Prelude Op Support Heap Plan PlanSpec Journal Apply ApplySpec Confirm.
From stdpp Require Import gmap pretty.
#[local] Open Scope Z_scope.

(** ** Where the promise is kept *)

Lemma last_slash_spec at_ l found :
  match last_slash at_ l found with
  | None => found = None
  | Some k => Some k = found \/ exists i, k = (at_ + i)%nat /\ l !! i = Some SLASH
  end.
Proof.
  revert at_ found. induction l as [|c l IH]; intros at_ found; cbn.
  - destruct found; auto.
  - specialize (IH (S at_) (if c =b SLASH then Some at_ else found)).
    destruct (last_slash _ _ _) as [k|].
    + destruct IH as [E|(i & -> & Hi)]; [|right; exists (S i); split; [lia|done]].
      destruct (byte_eqb_spec c SLASH) as [->|]; [|by left].
      simplify_eq. right. exists 0%nat. split; [lia|done].
    + by destruct (c =b SLASH).
Qed.

Lemma split_at_slash (l : list byte) k :
  l !! k = Some SLASH ->
  take k l ++ bytes "/" ++ take (length l - k - 1) (drop (k + 1) l) = l.
Proof.
  intros H. rewrite (take_ge (drop _ _)) by (rewrite length_drop; lia).
  pose proof (take_drop_middle _ _ _ H) as E. replace (k + 1)%nat with (S k) by lia. exact E.
Qed.

(** What the five branches come to. *)
Lemma confirm_dir_eq run size out :
  confirm_dir run size = Some out ->
  out = (if bool_decide (strip_slashes run = []) then bytes "confirm"
         else if bool_decide (strip_slashes run = [SLASH]) then bytes "/confirm"
         else strip_slashes run ++ bytes "-confirm").
Proof.
  unfold confirm_dir. destruct (size =? 0); [done|].
  destruct (strip_slashes run) as [|c d] eqn:Ed; [intros; break; by simplify_eq|].
  rewrite (bool_decide_eq_false_2 (c :: d = [])) by done. cbn [length Nat.eqb].
  case_bool_decide as Hr; [intros; break; by simplify_eq|].
  pose proof (last_slash_spec 0 (c :: d) None) as Hs.
  destruct (last_slash 0 (c :: d) None) as [k|]; [|intros; break; by simplify_eq].
  destruct Hs as [|(i & -> & Hi)]; [done|]. change (0 + i)%nat with i.
  pose proof (split_at_slash _ _ Hi) as Hsplit.
  assert (forall o, (if zlen o <? size then Some o else None) = Some out ->
            o = (c :: d) ++ bytes "-confirm" -> out = (c :: d) ++ bytes "-confirm") as Hdone
    by (intros o; destruct (_ <? _); congruence).
  intros E. destruct i as [|i]; apply (Hdone _ E); clear E Hdone.
  - rewrite Nat.sub_0_r in Hsplit.
    etrans; [|exact (f_equal (fun x => x ++ bytes "-confirm") Hsplit)]. by rewrite <- !app_assoc.
  - etrans; [|exact (f_equal (fun x => x ++ bytes "-confirm") Hsplit)]. by rewrite <- !app_assoc.
Qed.

Lemma strip_rev_snoc r : r <> [] -> strip_rev (SLASH :: r) = strip_rev r.
Proof. by destruct r. Qed.

Lemma strip_rev_no_slash r c r' : strip_rev r = c :: r' -> r' <> [] -> c <> SLASH.
Proof.
  induction r as [|x r IH]; [done|]. cbn. destruct r as [|y r]; [by intros [= -> <-]|].
  destruct (byte_eqb_spec x SLASH) as [->|Hx]; [apply IH|]. by intros [= <- <-].
Qed.

(** The promise is kept beside the run directory and never inside it. A
    directory other than the root, with its trailing slashes dropped, gets
    [-confirm] appended to its name, whatever slashes it has; so removing the
    run directory leaves the promise; and a trailing slash changes nothing. *)
Theorem confirm_dir_beside (run out : list byte) (size : Z) :
  confirm_dir run size = Some out -> strip_slashes run <> [] -> strip_slashes run <> [SLASH] ->
  out = strip_slashes run ++ bytes "-confirm" /\
  (forall below, out <> strip_slashes run ++ SLASH :: below) /\
  confirm_dir (run ++ [SLASH]) size = Some out.
Proof.
  intros E H1 H2. pose proof (confirm_dir_eq _ _ _ E) as Ho.
  rewrite !bool_decide_eq_false_2 in Ho by done. split_and!; [done| |].
  - intros below Hb. rewrite Ho in Hb. apply app_inv_head in Hb. done.
  - assert (strip_slashes (run ++ [SLASH]) = strip_slashes run) as Hs.
    { unfold strip_slashes. rewrite rev_app_distr. cbn [rev app]. rewrite strip_rev_snoc; [done|].
      intros Hr. apply H1. unfold strip_slashes. by rewrite Hr. }
    unfold confirm_dir in *. by rewrite Hs.
Qed.

Lemma confirm_dir_beside_witness :
  bytes "/run/netcfgd-confirm" = strip_slashes (bytes "/run/netcfgd/") ++ bytes "-confirm" /\
  confirm_dir (bytes "/run/netcfgd/" ++ [SLASH]) 512 = Some (bytes "/run/netcfgd-confirm").
Proof.
  destruct (confirm_dir_beside (bytes "/run/netcfgd/") (bytes "/run/netcfgd-confirm") 512)
    as (H1 & _ & H2); [reflexivity|discriminate|discriminate|]. split; [exact H1|exact H2].
Defined.

(** ** The clock *)

(** A window lasts as long as the machine was awake. Armed at wall-clock
    time [now0] for [seconds], on a machine that had then slept [asleep0]
    seconds since boot, and looked at when the wall clock says [now1] and the
    machine has slept [asleep1]: it has expired exactly when the time awake
    since arming reached [seconds], what remains is the rest of it, and it has
    expired exactly when nothing remains. No addition wraps. *)
Theorem window_clock (now0 asleep0 seconds now1 asleep1 : Z) (hash : string) :
  0 <= now0 < 2 ^ 62 -> 0 <= seconds <= UINT32_MAX -> 0 <= now1 < 2 ^ 64 ->
  0 <= asleep0 <= asleep1 -> asleep1 < 2 ^ 62 ->
  let w := Window (u64 (now0 + seconds)) asleep0 true seconds hash in
  let awake := (now1 - now0) - (asleep1 - asleep0) in
  expired_at w asleep1 now1 = (seconds <=? awake) /\
  remaining_at w asleep1 now1 = Z.max 0 (seconds - awake) /\
  (expired_at w asleep1 now1 = true <-> remaining_at w asleep1 now1 = 0).
Proof.
  intros H1 H2 H3 H4 H5 w awake. unfold UINT32_MAX in H2.
  assert (deadline_of w asleep1 = now0 + seconds + (asleep1 - asleep0)) as Hd.
  { unfold w, deadline_of. cbn. rewrite (u64_small (now0 + seconds)) by lia.
    destruct (Z.ltb_spec asleep0 asleep1); [|lia].
    rewrite (u64_small (asleep1 - asleep0)), u64_small; lia. }
  unfold expired_at, remaining_at. rewrite Hd.
  assert ((now0 + seconds + (asleep1 - asleep0) <=? now1) = (seconds <=? awake)) as ->
    by (apply Bool.eq_true_iff_eq; rewrite !Z.leb_le; lia).
  destruct (Z.leb_spec seconds awake).
  - split_and!; [done|lia|done].
  - rewrite u64_small by lia. split_and!; [done|lia|]. split; [done|lia].
Qed.

Lemma window_clock_witness :
  let w := Window (u64 (1000 + 60)) 5 true 60 "h" in
  expired_at w 3605 4620 = false /\ remaining_at w 3605 4620 = 40.
Proof.
  destruct (window_clock 1000 5 60 4620 3605 "h") as (H1 & H2 & _);
    [lia|unfold UINT32_MAX; lia|lia|lia|lia|]. split; [exact H1|exact H2].
Defined.

(** ** The file *)

(** A window the file can hold. *)
Definition window_wf (w : window) : Prop :=
  0 <= cw_deadline_epoch w <= INT64_MAX /\ 0 <= cw_window_seconds w <= UINT32_MAX /\
  0 <= cw_asleep_at_arming w <= INT64_MAX /\
  (cw_has_asleep w = false -> cw_asleep_at_arming w = 0) /\
  Z.of_nat (String.length (cw_last_good_hash w)) < DAEMON_HASH_MAX.

Lemma in_int64 z : 0 <= z <= INT64_MAX -> (INT64_MIN <=? z) && (z <=? INT64_MAX) = true.
Proof.
  unfold INT64_MIN, INT64_MAX. intros H. apply andb_true_iff. rewrite !Z.leb_le. lia.
Qed.

Lemma read_written w : window_wf w -> read_window (Some (window_members w)) = Some w.
Proof.
  destruct w as [d a has s hash]. intros (Hd & Hs & Ha & Hz & Hh). cbn in Hd, Hs, Ha, Hz, Hh.
  assert (0 <= s <= INT64_MAX) by (unfold INT64_MAX, UINT32_MAX in *; lia).
  unfold read_window, window_members.
  assert ((d <? 0) = false) as E1 by (apply Z.ltb_ge; lia).
  assert ((s <? 0) = false) as E2 by (apply Z.ltb_ge; lia).
  assert ((UINT32_MAX <? s) = false) as E3 by (apply Z.ltb_ge; lia).
  assert ((DAEMON_HASH_MAX <=? Z.of_nat (String.length hash)) = false) as E4
    by (apply Z.leb_gt; lia).
  assert ((0 <=? a) = true) as E5 by (apply Z.leb_le; lia).
  destruct has; cbn -[INT64_MIN INT64_MAX UINT32_MAX DAEMON_HASH_MAX Z.ltb Z.leb];
    unfold json_int; rewrite !in_int64 by done; rewrite E1, E2, E3, E4, ?E5; [done|].
  by rewrite Hz.
Qed.

Lemma gather_all_bounds ms g g' :
  gather_all g ms = Some g' -> (g_have_asleep g = true -> 0 <= g_asleep g <= INT64_MAX) ->
  g_deadline g <= INT64_MAX ->
  (g_have_asleep g' = true -> 0 <= g_asleep g' <= INT64_MAX) /\ g_deadline g' <= INT64_MAX /\
  Forall (fun m => m.1 ∈ ["deadline_epoch"; "window_seconds"; "last_good_hash"; "asleep_seconds"]) ms.
Proof.
  revert g. induction ms as [|[name v] ms IH]; intros g E Ha Hd.
  { cbn in E. simplify_eq. auto. }
  assert (forall f, f <= INT64_MAX -> json_int v f <= INT64_MAX) as Hint.
  { intros f Hf. unfold json_int. destruct v as [[z|]| |]; auto.
    destruct (_ && _) eqn:Ez; [unbool; lia|auto]. }
  cbn [gather_all] in E. destruct (gather g (name, v)) as [g1|] eqn:Eg; [|done].
  cbn [mbind option_bind] in E. unfold gather in Eg.
  destruct (String.eqb_spec name "deadline_epoch") as [->|];
    [|destruct (String.eqb_spec name "window_seconds") as [->|];
      [|destruct (String.eqb_spec name "last_good_hash") as [->|];
        [|destruct (String.eqb_spec name "asleep_seconds") as [->|]; [|done]]]];
    simplify_eq; apply IH in E as (H1 & H2 & H3); cbn [g_have_asleep g_asleep g_deadline]; auto;
    try (split_and!; [done|done|constructor; [apply list_elem_of_In; cbn; tauto|done]]).
  - apply Hint. unfold INT64_MAX. lia.
  - intros Hn. unbool. split; [done|]. apply Hint. unfold INT64_MAX. lia.
Qed.

(** The window file. What is written is read back unchanged, for every
    window the file can hold; and whatever is read -- from any file at all --
    is such a window, from an object with no member netcfgd does not write. *)
Theorem window_file_roundtrip (w : window) (ms : list (string * jvalue)) (w' : window) :
  (window_wf w -> read_window (Some (window_members w)) = Some w) /\
  (read_window (Some ms) = Some w' ->
   window_wf w' /\
   Forall (fun m => m.1 ∈ ["deadline_epoch"; "window_seconds"; "last_good_hash";
                           "asleep_seconds"]) ms).
Proof.
  split; [apply read_written|]. unfold read_window. cbn [mbind option_bind]. intros E.
  destruct (gather_all gathered_init ms) as [g|] eqn:Eg; [|done]. change (window_of g = Some w') in E.
  apply gather_all_bounds in Eg as (Ha & Hd & Hn);
    [|done|cbn; unfold INT64_MAX; lia]. split; [|done].
  unfold window_of in E. destruct (g_hash g) as [hash|]; [|done].
  destruct (_ || _) eqn:Ec; [done|]. simplify_eq. unbool.
  assert (0 <= INT64_MAX) by (unfold INT64_MAX; lia).
  destruct (g_have_asleep g); [specialize (Ha eq_refl)|]; unfold window_wf; cbn;
    split_and!; done || lia.
Qed.

Lemma window_file_roundtrip_witness :
  let w := Window 1060 5 true 60 "abc" in
  read_window (Some (window_members w)) = Some w /\ window_wf w.
Proof.
  intros w.
  destruct (window_file_roundtrip w (window_members w) w) as [H1 H2].
  assert (read_window (Some (window_members w)) = Some w) as E.
  { apply H1. unfold window_wf, INT64_MAX, UINT32_MAX, DAEMON_HASH_MAX. cbn. lia. }
  split; [exact E|exact (proj1 (H2 E))].
Defined.

(** ** What a window covers *)

Section Covered.
Context (grant : nat -> bool).
Context {B M : Type}.
Context (execute : M -> op B -> (bool * string) * M).

(** Run a list of inverses, the last first: how many went through, and where
    the machine is. *)
Fixpoint run_last_first (ops : list (op B)) (st : M) : nat * M :=
  match ops with
  | [] => (0%nat, st)
  | o :: rest =>
      let '(n, st1) := run_last_first rest st in
      match execute st1 o with
      | ((true, _), st2) => ((n + 1)%nat, st2)
      | ((false, _), st2) => (n, st2)
      end
  end.

(** The inverses a revert of these records runs. *)
Definition pending (p : plan B) (rs : list record) : list (op B) :=
  omap (fun r => if bool_decide (rc_outcome r = OUTCOME_DONE) then declared_inverse p r else None) rs.

Lemma pending_cons p r rs :
  pending p (r :: rs) =
    option_list (if bool_decide (rc_outcome r = OUTCOME_DONE) then declared_inverse p r else None) ++
    pending p rs.
Proof. unfold pending. cbn. case_bool_decide; [|done]. by destruct (declared_inverse p r). Qed.

Lemma revert_records_pending p rs st :
  exists rs', revert_records execute p rs st =
    (rs', (run_last_first (pending p rs) st).2, (run_last_first (pending p rs) st).1).
Proof.
  induction rs as [|r rs [rs' IH]]; [by exists []|]. rewrite pending_cons. cbn [revert_records].
  rewrite IH. unfold revert_record. fold (declared_inverse p r).
  destruct (run_last_first (pending p rs) st) as [n st1] eqn:Er. cbn [fst snd].
  case_bool_decide; [destruct (declared_inverse p r) as [inverse|]|]; cbn; rewrite Er;
    try (destruct (execute st1 inverse) as [[[] m] st2]); cbn; rewrite ?Nat.add_0_r; eauto.
Qed.

(** The records of a run that covers all of a plan's actions, in order. *)
Definition matches (a : action B) (r : record) : Prop := rc_id r = ac_id a.

Lemma pending_matched p acts rs :
  (forall a, a ∈ acts -> action_with_id p (ac_id a) = Some a) -> Forall2 matches acts rs ->
  pending p rs =
    omap (fun '(a, r) => if bool_decide (rc_outcome r = OUTCOME_DONE) then ac_inverse a else None)
      (zip acts rs).
Proof.
  intros Hid H. induction H as [|a r acts rs Hm _ IH]; [done|]. rewrite pending_cons.
  rewrite IH by (intros x Hx; apply Hid; by right).
  unfold declared_inverse. rewrite Hm, Hid by left. cbn.
  case_bool_decide; [|done]. by destruct (ac_inverse a).
Qed.

Lemma record_for_matched acts rs :
  NoDup (ac_id <$> acts) -> Forall2 matches acts rs ->
  forall i a r, acts !! i = Some a -> rs !! i = Some r ->
  find (fun r => rc_id r =? ac_id a) rs = Some r.
Proof.
  intros Hn H. induction H as [|x y acts rs Hm Hall IH]; intros i a r Ha Hr; [done|].
  apply NoDup_cons in Hn as [Hx Hn]. destruct i as [|i]; cbn in Ha, Hr; simplify_eq; cbn.
  - by rewrite Hm, Z.eqb_refl.
  - destruct (Z.eqb_spec (rc_id y) (ac_id a)) as [E|]; [|by eapply IH].
    exfalso. apply Hx. rewrite <- Hm, E. apply list_elem_of_fmap_2.
    by apply list_elem_of_lookup_2 in Ha.
Qed.

(** The inverses of the covered actions are the inverses a revert would run. *)
Lemma covered_matched ran acts :
  NoDup (ac_id <$> acts) -> Forall2 matches acts (j_records ran) ->
  omap (fun a => covered ran a ≫= fun _ => ac_inverse a) acts =
  omap (fun '(a, r) => if bool_decide (rc_outcome r = OUTCOME_DONE) then ac_inverse a else None)
    (zip acts (j_records ran)).
Proof.
  intros Hn H.
  assert (forall i a r, acts !! i = Some a -> j_records ran !! i = Some r ->
            record_for ran (ac_id a) = Some r) as Hrec
    by (intros i a r; by apply record_for_matched).
  clear Hn. generalize dependent (j_records ran). intros rs H.
  induction H as [|a r acts rs _ _ IH]; intros Hrec; [done|]. cbn.
  rewrite IH by (intros i; apply (Hrec (S i))).
  unfold covered. rewrite (Hrec 0%nat a r) by done.
  destruct (ac_inverse a) as [inverse|]; [|by case_bool_decide].
  by case_bool_decide.
Qed.

(** ** The record of the window *)

(** A plan built by appending only, and the journal that goes with it. *)
Definition tracks (undo : plan B) (j : journal) : Prop :=
  (forall i a, p_actions undo !! i = Some a -> ac_id a = u32 (Z.of_nat i)) /\
  Forall2 (fun a r => matches a r /\ rc_outcome r = OUTCOME_DONE) (p_actions undo) (j_records j).

Lemma plan_add_failed (o : op B) why deps inv p h :
  plan_failed p = true -> plan_failed (plan_add grant o why deps inv (p, h)).2.1 = true.
Proof. intros Hf. unfold plan_add. by rewrite Hf. Qed.

Lemma cover_all_failed ran (acts : list (action B)) undo j h undo' j' h' :
  cover_all grant ran acts (undo, j, h) = (undo', j', h') ->
  (plan_failed undo = true -> plan_failed undo' = true) /\
  (journal_failed j = true -> journal_failed j' = true).
Proof.
  revert undo j h. induction acts as [|a acts IH]; intros undo j h E; cbn in E; [by simplify_eq|].
  destruct (covered ran a) as [r|]; [|by eapply IH].
  unfold cover in E. destruct (plan_add _ _ _ _ _ _) as [id [undo1 h1]] eqn:Ea.
  assert (plan_failed undo = true -> plan_failed undo1 = true) as Hp.
  { intros Hf. pose proof (plan_add_failed (ac_op a) (ac_reason a) [] (ac_inverse a) undo h Hf) as H.
    by rewrite Ea in H. }
  destruct (id =? NO_ACTION); [simplify_eq; auto|].
  destruct (journal_push _ _ _) as [j1 h2] eqn:Ej.
  destruct (journal_push_spec _ _ _ _ _ _ Ej) as [Hj _].
  destruct (IH _ _ _ E) as [H1 H2]. auto.
Qed.

Lemma u32_index i : (Z.of_nat i < NO_ACTION) -> u32 (Z.of_nat i) = Z.of_nat i.
Proof. unfold NO_ACTION. intros. apply u32_small. lia. Qed.

(** One covered action: appended to both, with the same id. *)
Lemma cover_spec (a : action B) r undo j h stop undo' j' h' :
  cover grant a r undo j h = (stop, (undo', j', h')) ->
  plan_failed undo' = false -> journal_failed j' = false -> tracks undo j ->
  zlen (p_actions undo) < NO_ACTION ->
  stop = false /\ tracks undo' j' /\ zlen (p_actions undo') = zlen (p_actions undo) + 1 /\
  omap ac_inverse (p_actions undo') =
    omap ac_inverse (p_actions undo) ++ option_list (ac_inverse a).
Proof.
  unfold cover. destruct (plan_add _ _ _ _ _ _) as [id [undo1 h1]] eqn:Ea.
  intros E Hp Hj [Hid Hall] Hlen.
  assert (plan_failed undo1 = false) as Hp1.
  { destruct (id =? NO_ACTION); [by simplify_eq|]. destruct (journal_push _ _ _). by simplify_eq. }
  destruct (plan_add_appends _ _ _ _ _ _ _ _ _ _ Ea Hp1) as (Eid & Eact & _).
  unfold zlen in Eid. rewrite u32_index in Eid by done.
  destruct (Z.eqb_spec id NO_ACTION) as [E0|_]; [unfold zlen in Hlen; lia|].
  destruct (journal_push _ _ _) as [j1 h2] eqn:Ej. simplify_eq.
  destruct (journal_push_spec _ _ _ _ _ _ Ej) as [_ Hr]. specialize (Hr Hj).
  split_and!; [done| | |].
  - split.
    + intros i x Hx. rewrite Eact in Hx. apply lookup_app_Some in Hx as [Hx|[Hi Hx]]; [auto|].
      destruct (i - length (p_actions undo))%nat as [|k] eqn:Ei; [|done]. cbn in Hx.
      injection Hx as <-. cbn. replace i with (length (p_actions undo)) by lia.
      by rewrite u32_index.
    + rewrite Eact, Hr. apply Forall2_app; [done|]. by constructor.
  - rewrite Eact, zlen_app. done.
  - rewrite Eact, omap_app. cbn. by destruct (ac_inverse a).
Qed.

Lemma cover_all_spec ran (acts : list (action B)) undo j h undo' j' h' :
  cover_all grant ran acts (undo, j, h) = (undo', j', h') ->
  plan_failed undo' = false -> journal_failed j' = false -> tracks undo j ->
  zlen (p_actions undo) + zlen acts < NO_ACTION ->
  tracks undo' j' /\ zlen (p_actions undo') <= zlen (p_actions undo) + zlen acts /\
  omap ac_inverse (p_actions undo') =
    omap ac_inverse (p_actions undo) ++
    omap (fun a => covered ran a ≫= fun _ => ac_inverse a) acts.
Proof.
  revert undo j h. induction acts as [|a acts IH]; intros undo j h E Hp Hj Ht Hlen.
  { cbn in *. simplify_eq. rewrite app_nil_r. unfold zlen. cbn. split_and!; auto. lia. }
  rewrite zlen_cons in *. pose proof (zlen_nonneg acts).
  pose proof (zlen_nonneg (p_actions undo)). cbn in E. cbn.
  destruct (covered ran a) as [r|] eqn:Ec.
  - destruct (cover grant a r undo j h) as [stop [[undo1 j1] h1]] eqn:Ev.
    assert (plan_failed undo1 = false /\ journal_failed j1 = false) as [Hp1 Hj1].
    { destruct stop; [by simplify_eq|]. destruct (cover_all_failed _ _ _ _ _ _ _ _ E) as [H1 H2].
      split; [destruct (plan_failed undo1)|destruct (journal_failed j1)]; auto;
        [rewrite H1 in Hp|rewrite H2 in Hj]; done. }
    destruct (cover_spec _ _ _ _ _ _ _ _ _ Ev Hp1 Hj1 Ht) as (-> & Ht1 & Hl1 & Ho1); [lia|].
    destruct (IH _ _ _ E Hp Hj Ht1) as (H1 & H2 & H3); [lia|]. split_and!; [done|lia|].
    rewrite H3, Ho1, <- app_assoc. f_equal. cbn.
    unfold covered in Ec. by destruct (record_for _ _), (ac_inverse a).
  - destruct (IH _ _ _ E Hp Hj Ht) as (H1 & H2 & H3); [lia|]. by split_and!; [done|lia|].
Qed.

Lemma tracks_ids undo j :
  tracks undo j -> zlen (p_actions undo) <= NO_ACTION -> NoDup (ac_id <$> p_actions undo).
Proof.
  intros [Hid _] Hl. apply NoDup_alt. intros i k x Hi Hk.
  apply list_lookup_fmap_Some in Hi as (a & -> & Ha).
  apply list_lookup_fmap_Some in Hk as (b & Eb & Hb).
  pose proof (lookup_lt_Some _ _ _ Ha). pose proof (lookup_lt_Some _ _ _ Hb).
  rewrite (Hid _ _ Ha), (Hid _ _ Hb) in Eb. unfold zlen, NO_ACTION in *.
  rewrite !u32_small in Eb by lia. lia.
Qed.

(** The inverses recorded with the window are the inverses of the run. *)
Lemma armed_from_pending (p : plan B) ran doc h a h' :
  armed_from grant p ran doc h = (true, a, h') ->
  NoDup (ac_id <$> p_actions p) -> Forall2 matches (p_actions p) (j_records ran) ->
  zlen (p_actions p) < NO_ACTION ->
  exists undo, ar_undo a = Some undo /\ pending undo (j_records (ar_journal a)) = pending p (j_records ran) /\
    (plan_is_empty undo = true -> pending p (j_records ran) = []).
Proof.
  intros E Hn Hm Hl. unfold armed_from in E.
  destruct (plan_new grant h) as [[undo0|] h0] eqn:En; [|done].
  assert (tracks undo0 journal_init /\ p_actions undo0 = []) as [Ht0 Ha0].
  { unfold plan_new in En. destruct (h_malloc grant h) as [[]]; simplify_eq. by split; [split|]. }
  destruct (cover_all _ _ _ _) as [[undo j] h1] eqn:Ec.
  assert (plan_failed undo = false /\ journal_failed j = false /\ ar_undo a = Some undo /\
          ar_journal a = j) as (Hp & Hj & Hu & Hjj).
  { destruct doc as [[hash|]|]; [|by destruct (armed_free _ _)|];
      (destruct (plan_failed undo || journal_failed j) eqn:Ef;
        [by destruct (armed_free _ _)|]); simplify_eq; unbool; by split_and!. }
  destruct (cover_all_spec _ _ _ _ _ _ _ _ Ec Hp Hj Ht0) as (Ht & Hlen & Ho).
  { rewrite Ha0. unfold zlen at 1. cbn. lia. }
  rewrite Ha0 in Ho, Hlen. cbn in Ho. unfold zlen at 2 in Hlen. cbn in Hlen.
  assert (pending p (j_records ran) = omap ac_inverse (p_actions undo)) as Hpend.
  { rewrite Ho, covered_matched by done. apply pending_matched; [|done].
    intros x Hx. by apply action_with_id_unique. }
  exists undo. split_and!; [done| |].
  - rewrite Hjj, Hpend. destruct Ht as [Hid Hall] eqn:Et.
    erewrite pending_matched; [| |eapply Forall2_impl; [exact Hall|by intros ? ? []]].
    + clear -Hall. induction Hall as [|x r xs rs [_ Hd] _ IH]; [done|]. cbn.
      rewrite Hd. cbn. by rewrite IH.
    + intros x Hx. apply action_with_id_unique; [|done]. eapply tracks_ids; [by split|lia].
  - intros He. rewrite Hpend. unfold plan_is_empty in He. by destruct (p_actions undo).
Qed.

End Covered.

Section Promises.
Context (grant : nat -> bool).
Context {B Doc Obs M : Type}.
Context (document_hash : Doc -> option string).
Context (plan_build : Doc -> Obs -> heap -> option (plan B) * heap).
Context (execute : M -> op B -> (bool * string) * M).
Context (reobserve : M -> option Obs -> option Obs).

Lemma records_matched acts os :
  length os = length acts -> Forall2 (@matches B) acts (records_of acts os).
Proof.
  revert os. induction acts as [|a acts IH]; intros [|o os] E; try done.
  constructor; [done|]. apply IH. by injection E.
Qed.

Lemma run_matched (p : plan B) st h st' j h' :
  run_plan grant execute p st h = (inl (), st', (j, h')) ->
  Forall2 matches (p_actions p) (j_records j).
Proof.
  intros E. destruct (run_plan_carries _ _ _ _ _ _ _ _ E) as (os & Hc & ->).
  apply records_matched. by eapply carries_length.
Qed.

(** The machine and the count a revert leaves. *)
Definition revert_effect (p : plan B) (j : journal) (st : M) : nat * M :=
  let '(n, _, st') := apply_revert execute p j st in (n, st').

Lemma revert_effect_pending p j st :
  revert_effect p j st = run_last_first execute (pending p (j_records j)) st.
Proof.
  unfold revert_effect, apply_revert.
  destruct (revert_records_pending execute p (j_records j) st) as [rs' ->].
  by destruct (run_last_first _ _ _).
Qed.

Lemma armed_effect (p : plan B) st h st' j h' doc h1 a h2 :
  run_plan grant execute p st h = (inl (), st', (j, h')) ->
  NoDup (ac_id <$> p_actions p) -> zlen (p_actions p) < NO_ACTION ->
  armed_from grant p j doc h1 = (true, a, h2) ->
  exists undo, ar_undo a = Some undo /\
    (forall st2, revert_effect undo (ar_journal a) st2 = revert_effect p j st2) /\
    (plan_is_empty undo = true -> forall st2, revert_effect p j st2 = (0%nat, st2)).
Proof.
  intros E Hn Hl Ha.
  destruct (armed_from_pending _ _ _ _ _ _ _ Ha Hn (run_matched _ _ _ _ _ _ E) Hl)
    as (undo & Hu & Hp & Hempty).
  exists undo. split_and!; [done| |].
  - intros st2. by rewrite !revert_effect_pending, Hp.
  - intros He st2. by rewrite revert_effect_pending, Hempty.
Qed.

(** What a window records is enough. Once a run was reported and its window
    armed, reverting from the window's own record -- a fresh plan and a fresh
    journal, after the plan and the document may be gone -- does to the
    machine exactly what reverting the run itself would have done, for every
    machine, whichever inverses succeed, and undoes as many actions. *)
Theorem armed_replays_the_run (p : plan B) st h st' j h' doc h1 a h2 :
  run_plan grant execute p st h = (inl (), st', (j, h')) ->
  NoDup (ac_id <$> p_actions p) -> zlen (p_actions p) < NO_ACTION ->
  armed_from grant p j doc h1 = (true, a, h2) ->
  exists undo, ar_undo a = Some undo /\
    forall st2, revert_effect undo (ar_journal a) st2 = revert_effect p j st2.
Proof.
  intros E Hn Hl Ha. destruct (armed_effect _ _ _ _ _ _ _ _ _ _ E Hn Hl Ha) as (undo & Hu & H & _).
  eauto.
Qed.

(** ** The machine *)

Notation world := (world Doc Obs M).
Notation revert := (revert grant document_hash plan_build execute reobserve).

Lemma replan_keeps (w : world) h :
  let w' := (replan_onto_last_good grant plan_build execute w h).1 in
  wd_window w' = wd_window w /\ wd_last_good w' = wd_last_good w /\
  wd_desired w' = wd_desired w /\ wd_rejected w' = wd_rejected w.
Proof. unfold replan_onto_last_good. break; by simplify_eq. Qed.

Lemma run_inverses_keeps a (w : world) :
  let w' := run_inverses execute reobserve a w in
  wd_window w' = wd_window w /\ wd_last_good w' = wd_last_good w /\
  wd_desired w' = wd_desired w /\ wd_rejected w' = wd_rejected w.
Proof. unfold run_inverses. break; by simplify_eq. Qed.

(** What a revert does to everything but the machine. *)
Lemma revert_inv cleared a (w : world) h v a' w' h' :
  revert cleared a w h = (v, a', w', h') ->
  match window_open w, wd_last_good w with
  | Some _, Some d =>
      v = inl () /\ a' = armed_zero /\ wd_desired w' = Some d /\ wd_last_good w' = Some d /\
      wd_rejected w' = rejected_hash document_hash a w /\
      wd_window w' = (if cleared then None else wd_window w)
  | Some _, None =>
      is_yes v = false /\ a' = armed_zero /\ w' = clear_window cleared w
  | None, _ => is_yes v = false /\ a' = a /\ w' = w /\ h' = h
  end.
Proof.
  unfold Confirm.revert. intros E. destruct (window_open w) as [win|]; [|by simplify_eq].
  destruct (wd_last_good w) as [d|].
  2:{ destruct (armed_free a h) as [a1 h1] eqn:Ef. simplify_eq. split_and!; auto.
      unfold armed_free in Ef. destruct (journal_free _ _). by simplify_eq. }
  match type of E with context [run_inverses _ _ a ?u] =>
    destruct (run_inverses_keeps a u) as (H1 & H2 & H3 & H4);
    set (w1 := run_inverses execute reobserve a u) in * end.
  destruct (armed_free a h) as [a1 h1] eqn:Ef.
  assert (a1 = armed_zero) as -> by (unfold armed_free in Ef; destruct (journal_free _ _); by simplify_eq).
  destruct (replan_keeps w1 h1) as (G1 & G2 & G3 & G4).
  destruct (replan_onto_last_good _ _ _ w1 h1) as [w2 h2]. cbn in *. simplify_eq.
  destruct cleared; cbn; split_and!; congruence.
Qed.

(** What a revert leaves. With a window open and a last-good configuration
    readable, it always goes through: the desired configuration is the
    last-good one, the last-good one is untouched, the record of the window is
    gone, and once the file could be removed no window is open, so neither a
    second revert nor a confirmation is accepted. What was covered is
    rejected: a reload that compiles to the same configuration is refused. *)
Theorem revert_contract a (w : world) win d h :
  window_open w = Some win -> wd_last_good w = Some d ->
  exists w' h',
    revert true a w h = (inl (), armed_zero, w', h') /\
    wd_desired w' = Some d /\ wd_last_good w' = Some d /\ window_open w' = None /\
    (forall b h2, revert true b w' h2 = (inr "no confirm window is open", b, w', h2)) /\
    (forall (b : armed B) applied c1 c2 h2, keep_change c1 c2 b applied w' h2 =
       (inr "no confirm window is open", b, w', h2)) /\
    (forall compiled hash, document_hash compiled = Some hash ->
       rejected_hash document_hash a w = Some hash ->
       is_yes (adopt document_hash compiled w').1 = false).
Proof.
  intros Hw Hd. destruct (revert true a w h) as [[[v a'] w'] h'] eqn:E.
  pose proof (revert_inv _ _ _ _ _ _ _ _ E) as H. rewrite Hw, Hd in H.
  destruct H as (-> & -> & H1 & H2 & H3 & H4). exists w', h'.
  assert (window_open w' = None) as Ho by (unfold window_open; by rewrite H4).
  split_and!; auto.
  - intros b h2. unfold Confirm.revert. by rewrite Ho.
  - intros b applied c1 c2 h2. unfold keep_change. by rewrite Ho.
  - intros compiled hash Hh Hr. unfold adopt. rewrite H3, Hr, Hh.
    by rewrite bool_decide_eq_true_2.
Qed.

(** ** Reachability *)

Context (document_new : Doc).
Context (reobserve_probed : M -> option Obs -> option Obs).

(** The steps the daemon makes: every call of it that writes one of the two
    files, its death and the start of the next, and the rest of a pass. [ok]
    says every unlink of the step went through and, of a start, that the
    executor a revert needs could be opened; an apply or an outside change
    moves the machine and what is observed of it, and nothing else here. *)
Inductive step (ok : bool) : armed B * world * heap -> armed B * world * heap -> Prop :=
| step_arm now asleep seconds wrote applied ran d a w h a' w' h' b :
    may_arm now asleep w = inl d -> 0 <= now < 2 ^ 62 -> 0 <= asleep <= INT64_MAX ->
    0 <= seconds <= UINT32_MAX ->
    arm_window grant document_hash now asleep seconds wrote applied ran d a w h = (b, a', w', h') ->
    step ok (a, w, h) (a', w', h')
| step_keep wrote a applied w h v a' w' h' :
    keep_change ok wrote a applied w h = (v, a', w', h') -> step ok (a, w, h) (a', w', h')
| step_revert a w h v a' w' h' :
    revert ok a w h = (v, a', w', h') -> step ok (a, w, h) (a', w', h')
| step_restart a w h desired rejected observed h' :
    step ok (a, w, h)
      (armed_zero, World (wd_window w) (wd_last_good w) desired rejected observed (wd_machine w), h')
| step_startup apply_on_start revert_ok apply_ok cleared established recorded a w h a' w' h' :
    ok = revert_ok && cleared ->
    startup grant document_hash plan_build execute reobserve document_new reobserve_probed
      apply_on_start revert_ok apply_ok cleared established recorded a w h = (a', w', h') ->
    step ok (a, w, h) (a', w', h')
| step_timer executor_ok now asleep a w h r a' w' h' :
    resolve_window grant document_hash plan_build execute reobserve executor_ok ok now asleep a w h =
      (r, a', w', h') ->
    step ok (a, w, h) (a', w', h')
| step_settle wrote a w h a' w' h' :
    settle_without_a_window wrote a w h = (a', w', h') -> step ok (a, w, h) (a', w', h')
| step_reload compiled a w h :
    step ok (a, w, h) (a, (adopt document_hash compiled w).2, h)
| step_machine o m a w h : step ok (a, w, h) (a, set_machine w o m, h).

(** An open window has a last-good configuration to go back to; while every
    unlink went through it is the one the window names. *)
Definition promise (ok : bool) (w : world) : Prop :=
  forall win, window_open w = Some win ->
  exists d, wd_last_good w = Some d /\
            (ok = true -> document_hash d = Some (cw_last_good_hash win)).

Lemma armed_window_open (w : world) now asleep seconds d w' :
  0 <= now < 2 ^ 62 -> 0 <= asleep <= INT64_MAX -> 0 <= seconds <= UINT32_MAX ->
  arm document_hash now asleep seconds d true w = (true, w') ->
  wd_last_good w' = wd_last_good w /\
  forall win, window_open w' = Some win -> document_hash d = Some (cw_last_good_hash win).
Proof.
  intros Hn Ha Hs E. unfold arm in E. destruct (document_hash d) as [hash|]; [|done]. simplify_eq.
  split; [done|]. intros win Hw. unfold window_open in Hw. cbn [set_window wd_window] in Hw.
  destruct (decide (Z.of_nat (String.length hash) < DAEMON_HASH_MAX)) as [Hl|Hl].
  - rewrite read_written in Hw; [by simplify_eq|]. unfold UINT32_MAX, INT64_MAX in *.
    unfold window_wf, INT64_MAX, UINT32_MAX. cbn [cw_deadline_epoch cw_window_seconds
      cw_asleep_at_arming cw_has_asleep cw_last_good_hash].
    rewrite u64_small by lia. split_and!; done || lia.
  - exfalso. unfold read_window, window_members in Hw. 
    cbn -[INT64_MIN INT64_MAX UINT32_MAX DAEMON_HASH_MAX Z.ltb Z.leb Z.of_nat] in Hw.
    rewrite (proj2 (Z.leb_le DAEMON_HASH_MAX (Z.of_nat (String.length hash)))) in Hw by lia. by rewrite !orb_true_r in Hw.
Qed.

Lemma promise_weaken ok ok' (w : world) : promise ok w -> promise (ok && ok') w.
Proof.
  intros H win Hw. destruct (H win Hw) as (d & Hd & Hh). exists d. split; [done|].
  intros [Ho _]%andb_true_iff. by apply Hh.
Qed.

(** A step that leaves both files alone keeps the promise. *)
Lemma promise_same ok (w w' : world) :
  promise ok w -> wd_window w' = wd_window w -> wd_last_good w' = wd_last_good w -> promise ok w'.
Proof. intros H E1 E2 win. unfold window_open. rewrite E1, E2. apply H. Qed.

Lemma promise_closed ok (w : world) : window_open w = None -> promise ok w.
Proof. intros H win. by rewrite H. Qed.

(** Removing the window, or failing to and leaving it, with a last-good kept. *)
Lemma promise_clear ok ok' (w w' : world) :
  promise ok w -> wd_last_good w' = wd_last_good w ->
  wd_window w' = (if (ok' : bool) then None else wd_window w) -> promise (ok && ok') w'.
Proof.
  intros H E1 E2. destruct ok'.
  - apply promise_closed. unfold window_open. by rewrite E2.
  - apply promise_weaken. by eapply promise_same.
Qed.

Lemma revert_promise ok ok' a w h v a' w' h' :
  promise ok w -> revert ok' a w h = (v, a', w', h') -> promise (ok && ok') w'.
Proof.
  intros H E. pose proof (revert_inv _ _ _ _ _ _ _ _ E) as Hi.
  destruct (window_open w) as [win|] eqn:Hw.
  - destruct (H win Hw) as (d & Hd & _). rewrite Hd in Hi.
    destruct Hi as (_ & _ & _ & Hl & _ & Hwin). eapply promise_clear; eauto. congruence.
  - destruct Hi as (_ & _ & -> & _). by apply promise_closed.
Qed.

(** The startup apply writes the last-good configuration or nothing. *)
Lemma reconcile_start_keeps on reverted exec wrote (w : world) h v w' h' :
  reconcile_start grant plan_build execute reobserve reobserve_probed on reverted exec wrote w h =
    (v, w', h') ->
  wd_window w' = wd_window w /\
  (is_Some (wd_last_good w) -> is_Some (wd_last_good w')) /\
  (negb on || reverted = true -> w' = w).
Proof.
  unfold reconcile_start, converge. intros E.
  destruct (negb on || reverted); [by simplify_eq|]. split_and!; [| |done];
    break; simplify_eq; cbn; try done; by destruct wrote; cbn.
Qed.

Lemma establish_keeps wrote (w : world) :
  let w' := (establish_last_good document_new wrote w).2 in
  wd_window w' = wd_window w /\ (is_Some (wd_last_good w) -> w' = w).
Proof.
  unfold establish_last_good. destruct (wd_last_good w) as [d|] eqn:E; [done|].
  split; [by destruct wrote|]. by intros [??].
Qed.

(** A start of the daemon: an open window is put back before anything else
    acts, and where it could not be the last-good configuration may be another
    one afterwards, but is there. *)
Lemma startup_promise ok on revert_ok apply_ok cleared established recorded a w h a' w' h' :
  promise ok w ->
  startup grant document_hash plan_build execute reobserve document_new reobserve_probed
    on revert_ok apply_ok cleared established recorded a w h = (a', w', h') ->
  promise (ok && (revert_ok && cleared)) w'.
Proof.
  unfold startup. intros H.
  set (w0 := set_machine w _ _).
  assert (promise ok w0) as H0 by (by eapply promise_same).
  clearbody w0. clear H w. unfold resolve_any_window, resolve_on_startup.
  destruct (window_open w0) as [win|] eqn:Hw.
  - destruct (H0 win Hw) as (d & Hd & _). destruct revert_ok.
    + destruct (revert cleared a w0 h) as [[[v a1] w1] h1] eqn:Er.
      pose proof (revert_inv _ _ _ _ _ _ _ _ Er) as Hi. rewrite Hw, Hd in Hi.
      destruct Hi as (-> & _ & _ & Hl & _ & Hwin).
      destruct (establish_keeps established w1) as [_ He].
      destruct (establish_last_good document_new established w1) as [e w2]. cbn in He.
      rewrite He by (rewrite Hl; eauto).
      destruct (reconcile_start _ _ _ _ _ on true apply_ok recorded w1 h1) as [[v3 w3] h3] eqn:Es.
      destruct (reconcile_start_keeps _ _ _ _ _ _ _ _ _ Es) as (_ & _ & Hs).
      rewrite Hs by (by rewrite orb_true_r). intros [= <- <- <-]. by eapply revert_promise.
    + destruct (establish_keeps established w0) as [_ He].
      destruct (establish_last_good document_new established w0) as [e w2]. cbn in He.
      rewrite He by (rewrite Hd; eauto).
      destruct (reconcile_start _ _ _ _ _ on false apply_ok recorded w0 h) as [[v3 w3] h3] eqn:Es.
      destruct (reconcile_start_keeps _ _ _ _ _ _ _ _ _ Es) as (_ & Hs & _).
      intros [= <- <- <-]. rewrite andb_false_r. intros win' _.
      destruct Hs as [d' Hd']; [rewrite Hd; eauto|]. exists d'. split; [done|]. discriminate.
  - destruct (establish_keeps established w0) as [He _].
    destruct (establish_last_good document_new established w0) as [e w2]. cbn in He.
    destruct (reconcile_start _ _ _ _ _ on false apply_ok recorded w2 h) as [[v3 w3] h3] eqn:Es.
    destruct (reconcile_start_keeps _ _ _ _ _ _ _ _ _ Es) as (Hs & _).
    intros [= <- <- <-]. apply promise_closed. unfold window_open in *. congruence.
Qed.

Lemma step_promise ok ok' s s' :
  step ok' s s' -> promise ok s.1.2 -> promise (ok && ok') s'.1.2.
Proof.
  intros Hs. destruct Hs as
    [now asleep seconds wrote applied ran d a w h a' w' h' b Hm Hn Ha Hsec E
    |wrote a applied w h v a' w' h' E|a w h v a' w' h' E|a w h desired rejected observed h'
    |on revert_ok apply_ok cleared established recorded a w h a' w' h' -> E
    |executor_ok now asleep a w h r a' w' h' E|wrote a w h a' w' h' E
    |compiled a w h|o m a w h]; cbn; intros H.
  - unfold may_arm in Hm. destruct (window_open w) eqn:Hw; [done|].
    destruct (wd_last_good w) as [d'|] eqn:Hl; simplify_eq. unfold arm_window in E.
    match type of E with (let '(_, _) := ?x in _) = _ => destruct x as [a1 h1] end.
    destruct (arm document_hash now asleep seconds d wrote w) as [[] w1] eqn:Ea.
    + simplify_eq. destruct wrote; [|unfold arm in Ea; by destruct (document_hash d)].
      destruct (armed_window_open _ _ _ _ _ _ Hn Ha Hsec Ea) as [E1 E2].
      intros win Hwin. exists d. split; [congruence|]. intros _. by apply E2.
    + destruct (armed_free a1 h1) as [a2 h2]. simplify_eq.
      apply promise_closed. unfold arm in Ea. destruct (document_hash d), wrote; by simplify_eq.
  - unfold keep_change in E. destruct (window_open w) as [win|] eqn:Hw.
    + destruct (armed_free a h) as [a1 h1]. simplify_eq. destruct ok'.
      * apply promise_closed. by destruct applied, wrote.
      * destruct (H win Hw) as (d & Hd & _). rewrite andb_false_r. intros win2 _.
        destruct applied, wrote; cbn; eexists; (split; [reflexivity || eassumption|done]).
    + simplify_eq. by apply promise_closed.
  - by eapply revert_promise.
  - apply promise_weaken. by eapply promise_same.
  - eapply startup_promise; eauto.
  - unfold resolve_window in E. destruct (window_open w) as [win|] eqn:Hw.
    2:{ simplify_eq. by apply promise_closed. }
    destruct (expired_at _ _ _), executor_ok; try (simplify_eq; by apply promise_weaken).
    destruct (revert ok' a w h) as [[[[] a1] w1] h1] eqn:Er; simplify_eq; by eapply revert_promise.
  - unfold settle_without_a_window in E. destruct (window_open w) as [win|] eqn:Hw.
    { simplify_eq. by apply promise_weaken. }
    destruct (armed_free a h). simplify_eq. apply promise_closed.
    by destruct (wd_desired w), wrote.
  - apply promise_weaken. eapply promise_same; [exact H| |];
      unfold adopt; repeat (case_bool_decide || case_match); done.
  - apply promise_weaken. by eapply promise_same.
Qed.

(** Every state reachable from one, with whether every unlink on the way went
    through. *)
Inductive reaches (s : armed B * world * heap) : bool -> armed B * world * heap -> Prop :=
| reaches_start : reaches s true s
| reaches_step ok ok' t u : reaches s ok t -> step ok' t u -> reaches s (ok && ok') u.


(** What planning for [d] against [observed] and applying the plan does to a
    machine: nothing where it was never observed or no plan could be made. *)
Definition apply_of (d : Doc) (observed : option Obs) (m : M) (h : heap) : M :=
  match observed with
  | None => m
  | Some o =>
      match plan_build d o h with
      | (None, _) => m
      | (Some p, h) => (run_plan grant execute p m h).1.2
      end
  end.

(** The machine the inverses of a window leave, and what is then taken to be
    observed of it. *)
Definition put_back (a : armed B) (w : world) : option Obs * M :=
  match ar_undo a with
  | Some undo =>
      if plan_is_empty undo then (wd_observed w, wd_machine w)
      else
        let m := (revert_effect undo (ar_journal a) (wd_machine w)).2 in
        (reobserve m (wd_observed w), m)
  | None => (wd_observed w, wd_machine w)
  end.

(** The machine a revert leaves: the inverses first, then a plan for the
    last-good configuration against what they left. *)
Lemma revert_machine a (w : world) win d h v a' w' h' :
  window_open w = Some win -> wd_last_good w = Some d -> revert true a w h = (v, a', w', h') ->
  wd_machine w' =
    apply_of d (put_back a w).1 (put_back a w).2 (armed_free a h).2.
Proof.
  intros Hw Hd E. unfold Confirm.revert in E. rewrite Hw, Hd in E.
  match type of E with context [run_inverses _ _ a ?u] =>
    set (w1 := run_inverses execute reobserve a u) in * end.
  assert (wd_desired w1 = Some d) as Hd1 by apply run_inverses_keeps.
  assert ((wd_observed w1, wd_machine w1) = put_back a w) as Hp.
  { unfold w1, run_inverses, put_back, revert_effect. destruct (ar_undo a) as [undo|]; [|done].
    destruct (plan_is_empty undo); [done|]. cbn. by destruct (apply_revert _ _ _ _) as [[n j] m]. }
  rewrite <-Hp. destruct (armed_free a h) as [a1 h1]. cbn [fst snd].
  assert (wd_machine (replan_onto_last_good grant plan_build execute w1 h1).1 =
          apply_of d (wd_observed w1) (wd_machine w1) h1) as Hr.
  { unfold replan_onto_last_good, apply_of. rewrite Hd1.
    destruct (wd_observed w1) as [o|]; [|done].
    destruct (plan_build d o h1) as [[p|] h2] eqn:Ep; [|done].
    destruct (run_plan grant execute p (wd_machine w1) h2) as [[v0 m] [j h3]].
    by destruct (journal_free j h3). }
  destruct (replan_onto_last_good _ _ _ w1 h1) as [w2 h2]. cbn in *. by simplify_eq.
Qed.

(** A plan that asks nothing does nothing. *)
Lemma apply_of_idle d observed m h :
  (forall o p h', observed = Some o -> plan_build d o h = (Some p, h') -> p_actions p = []) ->
  apply_of d observed m h = m.
Proof.
  intros H. unfold apply_of. destruct observed as [o|]; [|done].
  destruct (plan_build d o h) as [[p|] h'] eqn:E; [|done].
  unfold run_plan. rewrite (H o p h') by done. by destruct (plan_failed p).
Qed.

(** C1: commit-confirm takes a change back. A machine in state [st] is given a
    plan; the run is reported, the window armed on what it left behind, nobody
    else moves the machine and nobody confirms. When the revert runs, every
    executor whose failures change nothing and whose successes the declared
    inverses undo is brought back to [st] -- however far the run had got -- and
    then, from [st] exactly, the plan for the last-good configuration is
    applied, made against what is observed of [st], or against what was last
    observed where there was nothing to undo: the machine is what that one
    apply makes of [st], and [st] itself where that one plan asks nothing. No
    window is open any more and the last-good configuration is the desired
    one. *)
Theorem unconfirmed_change_is_undone (p : plan B) st h st1 j h1 now asleep seconds d a0
    (w0 w1 : world) a1 undo h2 h3 :
  undoable execute p -> NoDup (ac_id <$> p_actions p) -> zlen (p_actions p) < NO_ACTION ->
  run_plan grant execute p st h = (inl (), st1, (j, h1)) ->
  may_arm now asleep w0 = inl d -> is_Some (wd_desired w0) -> wd_machine w0 = st1 ->
  arm_window grant document_hash now asleep seconds true p j d a0 w0 h2 = (true, a1, w1, h3) ->
  ar_undo a1 = Some undo -> is_Some (window_open w1) ->
  let observed := if plan_is_empty undo then wd_observed w0 else reobserve st (wd_observed w0) in
  let h4 := (armed_free a1 h3).2 in
  exists w2 h5, revert true a1 w1 h3 = (inl (), armed_zero, w2, h5) /\
    window_open w2 = None /\ wd_desired w2 = Some d /\
    wd_machine w2 = apply_of d observed st h4 /\
    ((forall o q h6, observed = Some o -> plan_build d o h4 = (Some q, h6) -> p_actions q = []) ->
     wd_machine w2 = st).
Proof.
  intros Hu Hn Hl E Hm [d0 Hd0] Hst Ea Hundo [win Hwin] observed h4.
  unfold may_arm in Hm. destruct (window_open w0); [done|].
  destruct (wd_last_good w0) as [lg|] eqn:Hlg; simplify_eq.
  unfold arm_window in Ea. rewrite Hd0 in Ea. destruct (armed_free a0 h2) as [az hz].
  destruct (armed_from grant p j (Some (document_hash d0)) hz) as [[ok a] h5] eqn:Eaf.
  destruct (arm document_hash now asleep seconds d true w0) as [[] w] eqn:Earm;
    [|by destruct (armed_free a h5)].
  simplify_eq. unfold arm in Earm. destruct (document_hash d) as [hash|]; [|done]. simplify_eq.
  destruct ok.
  2:{ exfalso. unfold armed_from, armed_free, journal_free in Eaf. destruct (plan_new grant hz) as [[u|] h6]; [|by simplify_eq].
      destruct (document_hash d0) as [hash0|]; [|by simplify_eq].
      destruct (cover_all _ _ _ _) as [[u2 j2] h7].
      destruct (plan_failed u2 || journal_failed j2); by simplify_eq. }
  destruct (armed_effect _ _ _ _ _ _ _ _ _ _ E Hn Hl Eaf) as (undo' & Hu' & Heff & Hempty).
  rewrite Hundo in Hu'. simplify_eq.
  destruct (run_plan_carries _ _ _ _ _ _ _ _ E) as (os & Hc & Hr).
  destruct (revert_carries _ _ _ _ _ _ Hu Hc) as (rs & n & Hrev & _).
  { intros x Hx. split; [done|]. by apply action_with_id_unique. }
  assert (revert_effect p j (wd_machine w0) = (n, st)) as Hback.
  { unfold revert_effect, apply_revert. by rewrite Hr, Hrev. }
  match goal with |- context [revert true a1 ?w h3] => set (w1 := w) in * end.
  destruct (revert true a1 w1 h3) as [[[v a'] w2] h5] eqn:Erev.
  assert (wd_last_good w1 = Some d) as Hl1 by done.
  pose proof (revert_inv _ _ _ _ _ _ _ _ Erev) as Hi. rewrite Hwin, Hl1 in Hi.
  destruct Hi as (-> & -> & Hdes & _ & _ & Hcl).
  assert (put_back a1 w1 = (observed, st)) as Hpb.
  { unfold put_back, observed. rewrite Hundo.
    change (wd_machine w1) with (wd_machine w0). change (wd_observed w1) with (wd_observed w0).
    destruct (plan_is_empty undo') eqn:Ee.
    - rewrite Hempty in Hback by done. by simplify_eq.
    - by rewrite Heff, Hback. }
  assert (wd_machine w2 = apply_of d observed st h4) as Hmach.
  { rewrite (revert_machine _ _ _ _ _ _ _ _ _ Hwin Hl1 Erev), Hpb. done. }
  exists w2, h5. split_and!; [done|by unfold window_open; rewrite Hcl|done|done|].
  intros Hidle. rewrite Hmach. by apply apply_of_idle.
Qed.

End Promises.

(** ** The machine of one link, under a window

    The document is its own hash. The configuration [new] wants the link up,
    every other one wants it down, and the planner asks for what is not yet
    so. *)
Definition always (_ : nat) : bool := true.

Definition own_hash (d : string) : option string := Some d.

Definition link_build (d : string) (up : bool) (h : heap) : option (plan ()) * heap :=
  let why := Reason (Some "eth0") None None None in
  match plan_new always h with
  | (Some p, h) =>
      let '(_, (p, h)) :=
        if String.eqb d "new" then
          if up then (NO_ACTION, (p, h))
          else plan_add always (LINK_UP (Some "eth0")) why [] (Some (LINK_DOWN (Some "eth0"))) (p, h)
        else if up then
          plan_add always (LINK_DOWN (Some "eth0")) why [] (Some (LINK_UP (Some "eth0"))) (p, h)
        else (NO_ACTION, (p, h)) in
      (Some p, h)
  | none => none
  end.

Definition look (m : bool) (_ : option bool) : option bool := Some m.

Definition link_world : world string bool bool :=
  World None (Some "good") (Some "new") None (Some true) true.

Definition link_armed : bool * armed () * world string bool bool * heap :=
  arm_window always own_hash 1000 0 60 true link_plan link_run.2.1 "good" armed_zero link_world
    (Heap 200%nat ∅ false).

Definition link_window : window := Window 1060 0 true 60 "good".

Lemma link_armed_eq :
  arm_window always own_hash 1000 0 60 true link_plan link_run.2.1 "good" armed_zero link_world
    (Heap 200%nat ∅ false) =
  (true, link_armed.1.1.2, link_armed.1.2, link_armed.2).
Proof. vm_compute. reflexivity. Qed.

Lemma link_armed_open : window_open link_armed.1.2 = Some link_window.
Proof. vm_compute. reflexivity. Qed.

Lemma link_armed_last_good : wd_last_good link_armed.1.2 = Some "good".
Proof. vm_compute. reflexivity. Qed.

Definition link_record : bool * armed () * heap :=
  armed_from always link_plan link_run.2.1 None (Heap 200%nat ∅ false).

Lemma link_record_eq :
  armed_from always link_plan link_run.2.1 None (Heap 200%nat ∅ false) =
    (true, link_record.1.2, link_record.2).
Proof. vm_compute. reflexivity. Qed.

Lemma link_plan_ids : NoDup (ac_id <$> p_actions link_plan).
Proof. apply (bool_decide_unpack _). vm_compute. exact I. Qed.

Lemma armed_replays_the_run_witness :
  exists undo, ar_undo link_record.1.2 = Some undo /\
    forall st2, revert_effect link_machine undo (ar_journal link_record.1.2) st2 =
                revert_effect link_machine link_plan link_run.2.1 st2.
Proof.
  refine (armed_replays_the_run _ _ _ _ _ _ _ _ _ _ _ _ link_run_eq link_plan_ids _ link_record_eq).
  reflexivity.
Defined.

Lemma revert_contract_witness :
  exists w' h',
    revert always own_hash link_build link_machine look true link_armed.1.1.2 link_armed.1.2
      link_armed.2 = (inl (), armed_zero, w', h') /\
    wd_desired w' = Some "good" /\ window_open w' = None.
Proof.
  destruct (revert_contract always own_hash link_build link_machine look link_armed.1.1.2
              link_armed.1.2 link_window "good" link_armed.2 link_armed_open link_armed_last_good)
    as (w' & h' & H1 & H2 & _ & H3 & _).
  exists w', h'. split_and!; [exact H1|exact H2|exact H3].
Defined.

(** A machine that has never run netcfgd: the empty configuration is written
    down, the startup apply records [good], a reload brings [new], and the
    window is armed on its apply. *)
Definition first_world : world string bool bool :=
  World None None (Some "good") None None true.

Abbreviation begin_link :=
  (startup always own_hash link_build link_machine look "" look true true true true true true).

Definition link_started : armed () * world string bool bool * heap :=
  begin_link armed_zero first_world (Heap 100%nat ∅ false).

Example link_startup :
  wd_last_good link_started.1.2 = Some "good" /\ wd_machine link_started.1.2 = false.
Proof. split; vm_compute; reflexivity. Qed.

Definition link_reloaded : world string bool bool := (adopt own_hash "new" link_started.1.2).2.

Abbreviation arm_link a w h :=
  (arm_window always own_hash 1000 0 60 true link_plan link_run.2.1 "good" a w h).

Definition link_confirming : bool * armed () * world string bool bool * heap :=
  arm_link link_started.1.1 link_reloaded link_started.2.


(** A start that finds a window and cannot open an executor to revert it with
    leaves the window open and goes on to the startup apply: where that
    executor opens, the change nobody confirmed is recorded as the last-good
    configuration, and the revert the window still promises goes back to it. *)
Example startup_apply_over_a_window :
  let started := startup always own_hash link_build link_machine look "" look
                   true false true true true true
                   armed_zero link_armed.1.2 (Heap 300%nat ∅ false) in
  wd_last_good link_armed.1.2 = Some "good" /\
  window_open started.1.2 = Some link_window /\ wd_last_good started.1.2 = Some "new" /\
  let reverted := revert always own_hash link_build link_machine look true
                    started.1.1 started.1.2 started.2 in
  is_yes reverted.1.1.1 = true /\ wd_desired reverted.1.2 = Some "new" /\
  wd_machine reverted.1.2 = true.
Proof. vm_compute. repeat split. Qed.

Lemma link_armed_undo : ar_undo link_armed.1.1.2 = ar_undo link_record.1.2.
Proof. vm_compute. reflexivity. Qed.

Definition link_undo : plan () :=
  match ar_undo link_record.1.2 with Some p => p | None => link_plan end.

Lemma link_armed_undo_eq : ar_undo link_armed.1.1.2 = Some link_undo.
Proof. rewrite link_armed_undo. vm_compute. reflexivity. Qed.

(** The planner asks for the link to go down as long as it is seen up, and for
    nothing more once the inverses have run. *)
Lemma link_build_down h q h' : link_build "good" false h = (Some q, h') -> p_actions q = [].
Proof. unfold link_build, plan_new. cbn. by intros [= <- <-]. Qed.

Example link_build_up :
  ac_op <$> (default link_plan (link_build "good" true (Heap 9%nat ∅ false)).1).(p_actions) =
    [LINK_DOWN (Some "eth0")].
Proof. vm_compute. reflexivity. Qed.

Lemma unconfirmed_change_is_undone_witness :
  exists w2 h5,
    revert always own_hash link_build link_machine look true link_armed.1.1.2 link_armed.1.2
      link_armed.2 = (inl (), armed_zero, w2, h5) /\
    wd_machine w2 = false /\ window_open w2 = None /\ wd_desired w2 = Some "good".
Proof.
  destruct (unconfirmed_change_is_undone always own_hash link_build link_machine look
            link_plan false (Heap 9%nat ∅ false) true link_run.2.1 link_run.2.2 1000 0 60 "good"
            armed_zero link_world link_armed.1.2 link_armed.1.1.2 link_undo (Heap 200%nat ∅ false)
            link_armed.2 link_plan_undoable link_plan_ids) as (w2 & h5 & H1 & H2 & H3 & _ & H4).
  - reflexivity.
  - exact link_run_eq.
  - reflexivity.
  - eexists; reflexivity.
  - reflexivity.
  - exact link_armed_eq.
  - exact link_armed_undo_eq.
  - eexists. exact link_armed_open.
  - exists w2, h5. split_and!; [exact H1| |exact H2|exact H3]. apply H4.
    replace (plan_is_empty link_undo) with false by (vm_compute; reflexivity).
    intros o q h6 [= <-]. apply link_build_down.
Defined.
