(* ===== verification/Peer.v ===== *)
(** * Peer: who is on the other end of a unix socket, [c/src/daemon/peer.c]

    The identity of a caller: its credentials as [SO_PEERCRED] reports them,
    its supplementary groups as [/proc/PID/status] lists them, and the users
    and groups a policy names, looked up in [/etc/passwd] and [/etc/group].

    The file system is the parameter [file_read] (the bytes of a file that
    could be opened), and what [getsockopt] answers an argument. A line is
    read as [fgets] reads it: up to a newline or one byte less than the
    buffer, so a longer line comes in pieces, and the piece ends for the
    string functions at its first NUL. *)
From stdpp Require Import pretty.
From S2P Require Import Prelude Lex LexFacts.
#[local] Open Scope Z_scope.

Definition NUL : byte := x00.
Definition COLON : byte := ":"%byte.

(** ** Reading a file line by line *)

(** [fgets(line, n + 1, file)]: the piece read and what is left. *)
Fixpoint fgets (n : nat) (s : list byte) : list byte * list byte :=
  match n, s with
  | S n', b :: s' =>
      if b =b NL then ([b], s')
      else let (piece, rest) := fgets n' s' in (b :: piece, rest)
  | _, _ => ([], s)
  end.

(** [line[strcspn(line, "\r\n")] = 0]: the C string left in the buffer. *)
Definition ends_line (b : byte) : bool := (b =b NUL) || (b =b CR) || (b =b NL).
Fixpoint take_until (stop : byte -> bool) (s : list byte) : list byte :=
  match s with
  | b :: s' => if stop b then [] else b :: take_until stop s'
  | [] => []
  end.
Definition chomp (piece : list byte) : list byte := take_until ends_line piece.

(** Every line the loop sees; the fuel is the length of the text. *)
Fixpoint read_lines_loop (fuel size : nat) (s : list byte) : list (list byte) :=
  match fuel, s with
  | S fuel', _ :: _ =>
      let (piece, rest) := fgets (size - 1) s in
      chomp piece :: read_lines_loop fuel' size rest
  | _, _ => []
  end.
Definition read_lines (size : nat) (s : list byte) : list (list byte) :=
  read_lines_loop (length s) size s.

(** ** Fields *)

(** [parse_id]: all digits, at most ten of them. *)
Definition parse_id (text : list byte) : option Z :=
  if (length text =? 0)%nat || (10 <? length text)%nat then None
  else if forallb is_digit text
       then Some (foldl (fun value b => u64 (value * 10 + (bz b - bz "0"))) 0 text)
       else None.

(** The field before the first colon, and what follows the colon. *)
Fixpoint cut_colon (s : list byte) : list byte * option (list byte) :=
  match s with
  | [] => ([], None)
  | b :: s' =>
      if b =b COLON then ([], Some s')
      else let (field, rest) := cut_colon s' in (b :: field, rest)
  end.

Fixpoint field_at (line : list byte) (wanted : nat) : option (list byte) :=
  let (field, rest) := cut_colon line in
  match wanted with
  | O => Some field
  | S wanted' => match rest with Some start => field_at start wanted' | None => None end
  end.

(** [given && given[0] ? given : fallback]. *)
Definition or_default (given : option (list byte)) (fallback : list byte) : list byte :=
  match given with Some (b :: l) => b :: l | _ => fallback end.

(** ** The peer *)

Definition NCFG_PEER_GROUPS_MAX : nat := 64.

Record peer := Peer {
  pr_pid : Z; pr_uid : Z; pr_gid : Z;
  pr_groups : list Z; pr_group_total : nat; pr_groups_known : bool
}.

(** The groups of a peer and nothing else of it. *)
Definition set_groups (p : peer) (groups : list Z) (total : nat) (known : bool) : peer :=
  Peer (pr_pid p) (pr_uid p) (pr_gid p) groups total known.

Record authz_roots := AuthzRoots {
  proc_root : option (list byte); group_file : option (list byte); passwd_file : option (list byte)
}.

Definition authz_roots_default : authz_roots :=
  AuthzRoots (Some (bytes "/proc")) (Some (bytes "/etc/group")) (Some (bytes "/etc/passwd")).

Definition peer_is_root (p : option peer) : bool :=
  match p with Some p => pr_uid p =? 0 | None => false end.

Definition peer_in_group (p : option peer) (gid : Z) : bool :=
  match p with
  | Some p => (pr_gid p =? gid) || existsb (fun g => g =? gid) (pr_groups p)
  | None => false
  end.

Section Files.
Context (file_read : list byte -> option (list byte)).

Definition LOOKUP_LINE : nat := 4096.
Definition STATUS_LINE : nat := 8192.

(** The loop of [lookup_id]: the first line that carries the name decides. *)
Fixpoint lookup_lines (lines : list (list byte)) (name : list byte) (id_field : nat) : option Z :=
  match lines with
  | [] => None
  | line :: rest =>
      match field_at line 0 with
      | None => lookup_lines rest name id_field
      | Some field =>
          if bytes_eqb field name then
            match field_at line id_field with Some f => parse_id f | None => None end
          else lookup_lines rest name id_field
      end
  end.

Definition lookup_id (path : list byte) (name : option (list byte)) (id_field : nat) : option Z :=
  match name with
  | Some (b :: l) =>
      match file_read path with
      | Some content => lookup_lines (read_lines LOOKUP_LINE content) (b :: l) id_field
      | None => None
      end
  | _ => None
  end.

(** [ncfg_peer_group_id] and [ncfg_peer_user_id]: the id is cut to the 32
    bits of a [gid_t]. *)
Definition peer_group_id (group_file name : option (list byte)) : option Z :=
  u32 <$> lookup_id (or_default group_file (bytes "/etc/group")) name 2.

Definition peer_user_id (passwd_file name : option (list byte)) : option Z :=
  u32 <$> lookup_id (or_default passwd_file (bytes "/etc/passwd")) name 2.

(** ** The supplementary groups *)

Fixpoint after_prefix (line prefix : list byte) : option (list byte) :=
  match prefix, line with
  | [], _ => Some line
  | p :: prefix', b :: line' => if b =b p then after_prefix line' prefix' else None
  | _ :: _, [] => None
  end.

Definition is_gap (b : byte) : bool := (b =b " "%byte) || (b =b TAB).
Fixpoint skip_gap (s : list byte) : list byte :=
  match s with
  | b :: s' => if is_gap b then skip_gap s' else s
  | [] => []
  end.

(** The inner loop over a [Groups:] line; the fuel is its length. *)
Fixpoint groups_line (fuel : nat) (rest : list byte) (groups : list Z) (total : nat)
  : list Z * nat :=
  match fuel with
  | O => (groups, total)
  | S fuel' =>
      match skip_gap rest with
      | [] => (groups, total)
      | word =>
          let id := take_until is_gap word in
          let after := drop (length id) word in
          match parse_id id with
          | None => groups_line fuel' after groups total
          | Some value =>
              if (length groups <? NCFG_PEER_GROUPS_MAX)%nat
              then groups_line fuel' after (groups ++ [u32 value]) (S total)
              else groups_line fuel' after groups (S total)
          end
      end
  end.

(** What the reading loop has seen so far. *)
Record seen := Seen {
  sn_uid_matches : bool; sn_saw_groups : bool; sn_groups : list Z; sn_total : nat
}.

Definition status_line (expected : Z) (s : seen) (line : list byte) : seen :=
  match after_prefix line (bytes "Uid:") with
  | Some rest =>
      let matches := match parse_id (take_until is_gap (skip_gap rest)) with
                     | Some value => u32 value =? expected
                     | None => false
                     end in
      Seen (sn_uid_matches s || matches) (sn_saw_groups s) (sn_groups s) (sn_total s)
  | None =>
      match after_prefix line (bytes "Groups:") with
      | None => s
      | Some rest =>
          let (groups, total) := groups_line (length rest) rest (sn_groups s) (sn_total s) in
          Seen (sn_uid_matches s) true groups total
      end
  end.

(** [snprintf(path, 256, "%s/%ld/status", ...)]. *)
Definition status_path (proc_root : option (list byte)) (pid : Z) : list byte :=
  take 255 (or_default proc_root (bytes "/proc") ++ bytes "/" ++ bytes (pretty pid) ++
            bytes "/status").

Definition peer_groups_from (proc_root : option (list byte)) (pid expected : Z) (out : peer)
    : bool * peer :=
  let out := set_groups out [] 0 false in
  match file_read (status_path proc_root pid) with
  | None => (false, out)
  | Some content =>
      let s := foldl (status_line expected) (Seen false false [] 0) (read_lines STATUS_LINE content) in
      if negb (sn_uid_matches s) then (false, set_groups out [] 0 false)
      else if negb (sn_saw_groups s) then (false, set_groups out [] 0 false)
      else (true, set_groups out (sn_groups s) (sn_total s) true)
  end.

(** [ncfg_peer_credentials]: [ucred] is what [SO_PEERCRED] answered; groups
    that could not be read are not there. *)
Definition peer_credentials (roots : option authz_roots)
    (ucred : option (Z * Z * Z)) : option peer :=
  let where_ := default authz_roots_default roots in
  match ucred with
  | None => None
  | Some (pid, uid, gid) =>
      Some (snd (peer_groups_from (proc_root where_) pid uid
                   (Peer pid uid gid [] 0 false)))
  end.
End Files.

(** ** Lines *)

(** Bytes a line is made of: nothing that ends it. *)
Definition plain (line : list byte) : Prop := Forall (fun b => ends_line b = false) line.

Lemma take_until_all stop s t :
  Forall (fun b => stop b = false) s -> take_until stop (s ++ t) = s ++ take_until stop t.
Proof. induction 1 as [|b s Hb _ IH]; simpl; [done|]. by rewrite Hb, IH. Qed.

Lemma plain_no_nl b : ends_line b = false -> (b =b NL) = false.
Proof. unfold ends_line. intros. by unbool. Qed.

Lemma fgets_line n line rest :
  plain line -> (length line < n)%nat -> fgets n (line ++ NL :: rest) = (line ++ [NL], rest).
Proof.
  intros Hl. revert n. induction Hl as [|b line Hb _ IH]; intros [|n] Hn; simpl in *; try lia.
  - done.
  - rewrite plain_no_nl, IH by (done || lia). done.
Qed.

Lemma fgets_cut n s :
  plain (take n s) -> (n <= length s)%nat -> fgets n s = (take n s, drop n s).
Proof.
  revert s. induction n as [|n IH]; intros [|b s] Hp Hn; simpl in *; try done; try lia.
  apply Forall_cons in Hp as [Hb Hp]. rewrite plain_no_nl, IH by (done || lia). done.
Qed.

Lemma fgets_progress n s piece rest :
  (0 < n)%nat -> s <> [] -> fgets n s = (piece, rest) -> (length rest < length s)%nat.
Proof.
  revert s piece rest. induction n as [|n IH]; intros [|b s] piece rest Hn Hs H; simpl in *; try done; try lia.
  destruct (b =b NL); [by injection H as <- <-; simpl; lia|].
  destruct (fgets n s) as [p r] eqn:E; simplify_eq.
  destruct n as [|n]; [simpl in E; simplify_eq; lia|].
  destruct s as [|c s]; [simpl in E; simplify_eq; lia|].
  apply IH in E; [simpl in *; lia|lia|done].
Qed.

Lemma read_lines_fuel fuel size s :
  (1 < size)%nat -> (length s <= fuel)%nat -> read_lines_loop fuel size s = read_lines size s.
Proof.
  intros Hs. unfold read_lines. revert s. induction fuel as [fuel IH] using lt_wf_ind; intros s Hf.
  destruct s as [|b s]; [by destruct fuel|]. destruct fuel as [|fuel]; [simpl in *; lia|].
  cbn [read_lines_loop length]. destruct (fgets (size - 1) (b :: s)) as [piece rest] eqn:E.
  apply fgets_progress in E; [|lia|done]. simpl in *. f_equal.
  rewrite (IH fuel) by lia. rewrite (IH (length s)) by lia. done.
Qed.

Lemma read_lines_step size s :
  (1 < size)%nat -> s <> [] ->
  read_lines size s =
  chomp (fst (fgets (size - 1) s)) :: read_lines size (snd (fgets (size - 1) s)).
Proof.
  intros Hs Hne. destruct s as [|b s]; [done|]. unfold read_lines at 1. cbn [read_lines_loop length].
  destruct (fgets (size - 1) (b :: s)) as [piece rest] eqn:E. simpl. f_equal.
  apply fgets_progress in E; [|lia|done]. apply read_lines_fuel; [done|simpl in *; lia].
Qed.

Lemma chomp_line line rest : plain line -> chomp (line ++ NL :: rest) = line.
Proof. intros. unfold chomp. rewrite take_until_all by done. simpl. by rewrite app_nil_r. Qed.

Lemma chomp_plain line : plain line -> chomp line = line.
Proof.
  intros. unfold chomp. rewrite <- (app_nil_r line) at 1. rewrite take_until_all by done.
  simpl. apply app_nil_r.
Qed.

(** A line that fits the buffer is read whole. *)
Lemma read_lines_line size line rest :
  plain line -> (length line + 1 < size)%nat ->
  read_lines size (line ++ NL :: rest) = line :: read_lines size rest.
Proof.
  intros Hp Hl. rewrite read_lines_step; [|lia|by destruct line].
  rewrite fgets_line by (done || lia). simpl. by rewrite chomp_line.
Qed.

Definition text_of (lines : list (list byte)) : list byte := concat (map (fun l => l ++ [NL]) lines).

Lemma read_lines_text size lines rest :
  Forall (fun l => plain l /\ (length l + 1 < size)%nat) lines ->
  read_lines size (text_of lines ++ rest) = lines ++ read_lines size rest.
Proof.
  unfold text_of. induction 1 as [|l lines [Hp Hl] _ IH]; [done|]. simpl.
  rewrite <- !app_assoc. simpl. by rewrite read_lines_line, IH.
Qed.

(** ** The databases *)

(** [name:passwd:id:rest], which is how both files write an entry. *)
Definition entry (name passwd id rest : list byte) : list byte :=
  name ++ COLON :: passwd ++ COLON :: id ++ COLON :: rest.

Definition no_colon (f : list byte) : Prop := Forall (fun b => (b =b COLON) = false) f.

Lemma cut_colon_field f rest : no_colon f -> cut_colon (f ++ COLON :: rest) = (f, Some rest).
Proof. induction 1 as [|b f Hb _ IH]; simpl; [done|]. by rewrite Hb, IH. Qed.

Lemma field_at_entry name passwd id rest :
  no_colon name -> no_colon passwd -> no_colon id ->
  field_at (entry name passwd id rest) 0 = Some name /\
  field_at (entry name passwd id rest) 2 = Some id.
Proof. intros Hn Hp Hi. unfold entry. simpl. by rewrite !cut_colon_field. Qed.

Lemma digits_no_colon d : Forall (fun b => is_digit b = true) d -> no_colon d.
Proof.
  intros H. eapply Forall_impl; [exact H|]. intros b Hb. apply byte_eqb_neq. by intros ->.
Qed.

Lemma dec_value_bound acc d :
  0 <= acc -> Forall (fun b => is_digit b = true) d ->
  dec_value acc d < (acc + 1) * 10 ^ zlen d.
Proof.
  intros Ha H. revert acc Ha. induction H as [|b d Hb _ IH]; intros acc Ha.
  { unfold zlen. simpl. lia. }
  rewrite zlen_cons, Z.pow_add_r by (pose proof (zlen_nonneg d); lia).
  apply is_digit_range in Hb. cbn [dec_value foldl].
  specialize (IH (acc * 10 + (bz b - bz "0"))). unfold dec_value in IH. nia.
Qed.

Lemma parse_id_digits d :
  Forall (fun b => is_digit b = true) d -> (0 < length d <= 10)%nat ->
  parse_id d = Some (dec_value 0 d).
Proof.
  intros Hd Hl. unfold parse_id.
  rewrite (proj2 (Nat.eqb_neq _ _)), (proj2 (Nat.ltb_ge _ _)) by lia. simpl.
  assert (forallb is_digit d = true) as -> by (clear Hl; induction Hd as [|b d Hb _ IH]; simpl; [done|by rewrite Hb]).
  f_equal. enough (forall acc k, 0 <= acc -> (acc + 1) * 10 ^ zlen d <= 10 ^ k -> k <= 10 ->
    foldl (fun v b => u64 (v * 10 + (bz b - bz "0"))) acc d = dec_value acc d) as Hgo.
  { apply (Hgo 0 10); [lia| |lia]. rewrite Z.mul_1_l. apply Z.pow_le_mono_r; unfold zlen; lia. }
  clear Hl. induction Hd as [|b d Hb _ IH]; intros acc k Ha Hk Hk10; [done|].
  rewrite zlen_cons, Z.pow_add_r in Hk by (pose proof (zlen_nonneg d); lia).
  apply is_digit_range in Hb. cbn [dec_value foldl].
  assert (1 <= 10 ^ zlen d) by (apply (Z.pow_le_mono_r 10 0); pose proof (zlen_nonneg d); lia).
  assert (10 ^ k <= 10 ^ 10) by (apply Z.pow_le_mono_r; lia).
  rewrite u64_small by nia. apply (IH _ k); nia.
Qed.

(** An id as the kernel and the databases write it. *)
Definition id_text (d : list byte) : Prop :=
  Forall (fun b => is_digit b = true) d /\ (0 < length d <= 10)%nat.

#[export] Instance id_text_dec d : Decision (id_text d).
Proof. unfold id_text. apply _. Defined.

Definition id_value (d : list byte) : Z := u32 (dec_value 0 d).

Record db_entry := DbEntry { e_name : list byte; e_passwd : list byte; e_id : list byte; e_rest : list byte }.

Definition db_line (e : db_entry) : list byte := entry (e_name e) (e_passwd e) (e_id e) (e_rest e).

Definition db_wf (e : db_entry) : Prop :=
  no_colon (e_name e) /\ no_colon (e_passwd e) /\ id_text (e_id e) /\
  plain (db_line e) /\ (length (db_line e) + 1 < LOOKUP_LINE)%nat.

#[export] Instance db_wf_dec e : Decision (db_wf e).
Proof. unfold db_wf, no_colon, id_text, plain. apply _. Defined.

Lemma lookup_lines_db db name :
  Forall db_wf db ->
  u32 <$> lookup_lines (map db_line db) name 2 =
  (fun '(_, e) => id_value (e_id e)) <$> list_find (fun e => e_name e = name) db.
Proof.
  induction 1 as [|e db (Hn & Hp & [Hi Hl] & _) _ IH]; [done|]. cbn [map lookup_lines].
  destruct (field_at_entry (e_name e) (e_passwd e) (e_id e) (e_rest e)) as [H0 H2];
    [done..|by apply digits_no_colon|].
  fold (db_line e) in H0, H2. rewrite H0, H2. unfold bytes_eqb. simpl.
  destruct (decide (e_name e = name)) as [Heq|Hne].
  - rewrite bool_decide_eq_true_2 by done. by rewrite parse_id_digits.
  - rewrite bool_decide_eq_false_2 by done. rewrite IH.
    by destruct (list_find (fun e0 => e_name e0 = name) db) as [[i e']|].
Qed.

Lemma lookup_id_db file_read path db name :
  Forall db_wf db -> name <> [] -> file_read path = Some (text_of (map db_line db)) ->
  u32 <$> lookup_id file_read path (Some name) 2 =
  (fun '(_, e) => id_value (e_id e)) <$> list_find (fun e => e_name e = name) db.
Proof.
  intros Hdb Hname Hf. unfold lookup_id. destruct name as [|b name]; [done|]. rewrite Hf.
  rewrite <- (app_nil_r (text_of _)), read_lines_text.
  - by rewrite app_nil_r, lookup_lines_db.
  - apply Forall_map. eapply Forall_impl; [exact Hdb|]. by intros e (_ & _ & _ & ? & ?).
Qed.

(** A name a policy mentions resolves to the id of the first entry that
    carries it, cut to 32 bits, in both databases, and to nothing when no
    entry does: no prefix of a name, no other column and no later duplicate
    is ever taken for it. *)
Theorem peer_lookup_exact file_read path db name :
  Forall db_wf db -> name <> [] -> path <> [] ->
  file_read path = Some (text_of (map db_line db)) ->
  let answer := (fun '(_, e) => id_value (e_id e)) <$> list_find (fun e => e_name e = name) db in
  peer_user_id file_read (Some path) (Some name) = answer /\
  peer_group_id file_read (Some path) (Some name) = answer.
Proof.
  intros Hdb Hname Hpath Hf answer. unfold peer_user_id, peer_group_id.
  destruct path as [|b path]; [done|]. simpl or_default.
  by rewrite (lookup_id_db file_read (b :: path) db).
Qed.

Definition sample_db : list db_entry :=
  [DbEntry (bytes "root") (bytes "x") (bytes "0") (bytes "0:/root:/bin/sh");
   DbEntry (bytes "alice") (bytes "x") (bytes "1000") (bytes "1000:/home/alice:/bin/sh");
   DbEntry (bytes "alice") (bytes "x") (bytes "0") (bytes "0::")].

Lemma peer_lookup_exact_witness :
  let file_read := fun p => if bytes_eqb p (bytes "/f") then Some (text_of (map db_line sample_db)) else None in
  peer_user_id file_read (Some (bytes "/f")) (Some (bytes "alice")) = Some 1000.
Proof.
  intros file_read. refine (proj1 (peer_lookup_exact file_read (bytes "/f") sample_db (bytes "alice") _ _ _ _));
    [|done|done|reflexivity].
  apply (bool_decide_eq_true_1 _). vm_compute. reflexivity.
Defined.

(** ** The supplementary groups *)

Lemma skip_gap_le s : (length (skip_gap s) <= length s)%nat.
Proof. induction s as [|b s IH]; simpl; [lia|]. destruct (is_gap b); simpl; lia. Qed.

Lemma skip_gap_word s b w : skip_gap s = b :: w -> is_gap b = false.
Proof. induction s as [|c s IH]; simpl; [done|]. destruct (is_gap c) eqn:E; [done|]. by intros [= <- <-]. Qed.

Lemma groups_line_fuel fuel rest g n :
  (length rest <= fuel)%nat -> groups_line fuel rest g n = groups_line (length rest) rest g n.
Proof.
  revert rest g n. induction fuel as [fuel IH] using lt_wf_ind; intros rest g n Hf.
  destruct rest as [|b rest]; [by destruct fuel|]. destruct fuel as [|fuel]; [simpl in Hf; lia|].
  cbn [length groups_line]. pose proof (skip_gap_le (b :: rest)) as Hs.
  destruct (skip_gap (b :: rest)) as [|c w] eqn:E; [done|].
  apply skip_gap_word in E. set (id := take_until is_gap (c :: w)).
  assert (1 <= length id)%nat by (subst id; simpl; rewrite E; simpl; lia).
  assert (length (drop (length id) (c :: w)) <= length rest)%nat as Hd.
  { rewrite length_drop. simpl in *. lia. }
  simpl in Hf. destruct (parse_id id); [destruct (_ <? _)%nat|];
    rewrite (IH fuel), (IH (length rest)); auto; lia.
Qed.

(** A line from the start, with the fuel the code gives it. *)
Definition groups_of (rest : list byte) (g : list Z) (n : nat) : list Z * nat :=
  groups_line (length rest) rest g n.

Lemma groups_of_gap b rest g n : is_gap b = true -> groups_of (b :: rest) g n = groups_of rest g n.
Proof.
  intros Hb. unfold groups_of at 1. destruct rest as [|c rest]; [simpl; by rewrite Hb|].
  unfold groups_of. rewrite <- (groups_line_fuel (length (b :: c :: rest)) (c :: rest)) by (simpl; lia).
  cbn [length groups_line]. simpl skip_gap at 1. by rewrite Hb.
Qed.

Lemma digits_no_gap d : Forall (fun b => is_digit b = true) d -> Forall (fun b => is_gap b = false) d.
Proof.
  intros H. eapply Forall_impl; [exact H|]. intros b Hb. unfold is_gap.
  rewrite !byte_eqb_neq; [done|by intros ->..].
Qed.

Lemma groups_of_id d rest g n :
  id_text d -> (length g < NCFG_PEER_GROUPS_MAX)%nat ->
  groups_of (d ++ " "%byte :: rest) g n = groups_of rest (g ++ [id_value d]) (S n).
Proof.
  intros [Hd Hl] Hg. unfold groups_of at 1. pose proof (digits_no_gap d Hd) as Hgap.
  destruct d as [|b d]; [simpl in Hl; lia|].
  assert (skip_gap ((b :: d) ++ " "%byte :: rest) = (b :: d) ++ " "%byte :: rest) as Hskip.
  { simpl. apply Forall_cons in Hgap as [-> _]. done. }
  rewrite length_app. cbn [length Nat.add groups_line]. rewrite Hskip. simpl app at 1. cbv iota.
  change (b :: d ++ " "%byte :: rest) with ((b :: d) ++ " "%byte :: rest).
  rewrite take_until_all by done. simpl take_until. rewrite app_nil_r.
  rewrite parse_id_digits, drop_app_length by done.
  rewrite (proj2 (Nat.ltb_lt _ _)) by done.
  rewrite groups_line_fuel by (simpl; lia). by apply (groups_of_gap " "%byte).
Qed.

Lemma groups_line_full fuel rest g n :
  length g = NCFG_PEER_GROUPS_MAX -> fst (groups_line fuel rest g n) = g.
Proof.
  intros Hg. revert rest n. induction fuel as [|fuel IH]; intros rest n; [done|]. cbn [groups_line].
  destruct (skip_gap rest) as [|c w]; [done|]. rewrite Hg. simpl (_ <? _)%nat.
  destruct (parse_id _); apply IH.
Qed.

(** The ids of a [Groups:] line, each followed by a space. *)
Definition spaced (ids : list (list byte)) : list byte := concat (map (fun d => d ++ " "%byte :: []) ids).

Lemma groups_of_spaced ids t g n :
  Forall id_text ids -> (length g + length ids <= NCFG_PEER_GROUPS_MAX)%nat ->
  groups_of (spaced ids ++ t) g n = groups_of t (g ++ map id_value ids) (n + length ids).
Proof.
  intros H. revert g n. induction H as [|d ids Hd _ IH]; intros g n Hl; simpl in *.
  - by rewrite app_nil_r, Nat.add_0_r.
  - unfold spaced in *. simpl. rewrite <- !app_assoc. simpl.
    rewrite groups_of_id by (done || lia). rewrite IH by (rewrite length_app; simpl; lia).
    rewrite <- app_assoc. simpl. f_equal. lia.
Qed.

(** ** A status file *)

(** A line of neither kind. *)
Definition other_line (l : list byte) : Prop :=
  after_prefix l (bytes "Uid:") = None /\ after_prefix l (bytes "Groups:") = None.

(** A line that fits the buffer. *)
Definition fits (l : list byte) : Prop := plain l /\ (length l + 1 < STATUS_LINE)%nat.

#[export] Instance other_line_dec l : Decision (other_line l).
Proof. unfold other_line. apply _. Defined.
#[export] Instance fits_dec l : Decision (fits l).
Proof. unfold fits, plain. apply _. Defined.

Lemma status_other expected s l : other_line l -> status_line expected s l = s.
Proof. intros [Hu Hg]. unfold status_line. by rewrite Hu, Hg. Qed.

Lemma status_others expected s ls : Forall other_line ls -> foldl (status_line expected) s ls = s.
Proof. revert s. induction ls as [|l ls IH]; intros s H; [done|]. inv H. simpl. rewrite status_other by done. by apply IH. Qed.

(** The rest of a [Groups:] line too long for the buffer: digits and spaces,
    which start no line the reader knows. *)
Definition id_byte (b : byte) : bool := is_digit b || (b =b " "%byte).

Lemma id_byte_plain s : Forall (fun b => id_byte b = true) s -> plain s.
Proof.
  intros H. eapply Forall_impl; [exact H|]. intros b Hb. unfold ends_line.
  rewrite !byte_eqb_neq; [done|by intros ->..].
Qed.

Lemma id_byte_other s : Forall (fun b => id_byte b = true) s -> other_line s.
Proof.
  destruct 1 as [|b s Hb _]; [done|]. unfold other_line. simpl.
  rewrite !byte_eqb_neq; [done|by intros ->..].
Qed.

Lemma continuation_ignored expected s cont rest :
  Forall (fun b => id_byte b = true) cont ->
  foldl (status_line expected) s (read_lines STATUS_LINE (cont ++ NL :: rest)) =
  foldl (status_line expected) s (read_lines STATUS_LINE rest).
Proof.
  assert (1 < STATUS_LINE)%nat as Hsize by (apply Nat.ltb_lt; reflexivity).
  revert Hsize. generalize STATUS_LINE. intros size Hsize.
  induction cont as [cont IH] using (induction_ltof1 _ length); intros Hc.
  destruct (decide (length cont + 1 < size)%nat) as [Hlt|Hge].
  - rewrite read_lines_line by (by apply id_byte_plain || lia). simpl.
    by rewrite status_other by (by apply id_byte_other).
  - rewrite read_lines_step; [|lia|by destruct cont].
    assert (take (size - 1) (cont ++ NL :: rest) = take (size - 1) cont) as Ht by (apply take_app_le; lia).
    assert (Forall (fun b => id_byte b = true) (take (size - 1) cont)) as Hc' by by apply Forall_take.
    rewrite fgets_cut, Ht; [|rewrite Ht; by apply id_byte_plain|rewrite length_app; lia].
    cbn [fst snd foldl]. rewrite chomp_plain by by apply id_byte_plain.
    rewrite status_other by (by apply id_byte_other). rewrite drop_app_le by lia.
    apply IH; [|by apply Forall_drop]. unfold ltof. rewrite length_drop. lia.
Qed.

Lemma spaced_id_bytes ids : Forall id_text ids -> Forall (fun b => id_byte b = true) (spaced ids).
Proof.
  unfold spaced. induction 1 as [|d ids [Hd _] _ IH]; simpl; [done|].
  repeat apply Forall_app_2; [|by repeat constructor|done].
  eapply Forall_impl; [exact Hd|]. unfold id_byte. by intros b ->.
Qed.

Lemma spaced_length ids : Forall id_text ids -> (length (spaced ids) <= 11 * length ids)%nat.
Proof.
  unfold spaced. induction 1 as [|d ids [_ Hl] _ IH]; simpl; [lia|].
  rewrite !length_app. simpl. lia.
Qed.

Lemma spaced_app a b : spaced (a ++ b) = spaced a ++ spaced b.
Proof. unfold spaced. by rewrite map_app, concat_app. Qed.

Definition GROUPS : list byte := bytes "Groups:" ++ [TAB].

(** What the buffer holds of a [Groups:] line has the first 64 ids whole. *)
Lemma groups_piece ids m t :
  Forall id_text ids -> (704 <= m)%nat ->
  take m (spaced ids) = spaced (take NCFG_PEER_GROUPS_MAX ids) ++ t ->
  fst (groups_of (TAB :: take m (spaced ids)) [] 0) = take NCFG_PEER_GROUPS_MAX (map id_value ids).
Proof.
  intros Hids Hm Ht. rewrite groups_of_gap by done. rewrite Ht.
  rewrite groups_of_spaced; [|by apply Forall_take|rewrite length_take; cbn [length]; lia].
  rewrite <- firstn_map. change (?a ++ ?l) with l at 1.
  destruct (decide (length ids < NCFG_PEER_GROUPS_MAX)%nat) as [Hlt|Hge].
  - rewrite take_ge in Ht by (pose proof (spaced_length ids Hids); unfold NCFG_PEER_GROUPS_MAX in Hlt; lia).
    rewrite (take_ge ids) in Ht by lia. rewrite <- (app_nil_r (spaced ids)) in Ht at 1.
    apply app_inv_head in Ht as <-. done.
  - apply groups_line_full. simpl. rewrite length_take, length_map. lia.
Qed.

Lemma take_spaced m ids :
  Forall id_text ids -> (704 <= m)%nat ->
  exists t, take m (spaced ids) = spaced (take NCFG_PEER_GROUPS_MAX ids) ++ t.
Proof.
  intros Hids Hm.
  exists (take (m - length (spaced (take NCFG_PEER_GROUPS_MAX ids))) (spaced (drop NCFG_PEER_GROUPS_MAX ids))).
  rewrite <- (take_drop NCFG_PEER_GROUPS_MAX ids) at 1. rewrite spaced_app.
  pose proof (spaced_length _ (Forall_take _ NCFG_PEER_GROUPS_MAX _ Hids)) as Hl.
  rewrite length_take in Hl. unfold NCFG_PEER_GROUPS_MAX in Hl at 2. rewrite take_app.
  by rewrite (take_ge (spaced (take _ ids))) by lia.
Qed.

Lemma status_groups expected u m ids :
  Forall id_text ids -> (704 <= m)%nat ->
  exists n, status_line expected (Seen u false [] 0) (GROUPS ++ take m (spaced ids)) =
            Seen u true (take NCFG_PEER_GROUPS_MAX (map id_value ids)) n.
Proof.
  intros Hids Hm. destruct (take_spaced m ids Hids Hm) as [t Ht].
  pose proof (groups_piece ids m t Hids Hm Ht) as Hg.
  change (status_line expected (Seen u false [] 0) (GROUPS ++ take m (spaced ids)))
    with (let (groups, total) := groups_of (TAB :: take m (spaced ids)) [] 0 in Seen u true groups total).
  destruct (groups_of _ [] 0) as [g n]. simpl in Hg. subst g. by exists n.
Qed.

Lemma groups_line_read expected u ids rest :
  Forall id_text ids ->
  exists n,
    foldl (status_line expected) (Seen u false [] 0)
      (read_lines STATUS_LINE (GROUPS ++ spaced ids ++ NL :: rest)) =
    foldl (status_line expected) (Seen u true (take NCFG_PEER_GROUPS_MAX (map id_value ids)) n)
      (read_lines STATUS_LINE rest).
Proof.
  intros Hids. pose proof (spaced_id_bytes ids Hids) as Hb.
  assert (plain GROUPS) as HG by by repeat constructor.
  assert (712 < STATUS_LINE - 1)%nat as Hsize by (apply Nat.ltb_lt; reflexivity).
  pose proof (continuation_ignored expected) as Hcont. revert Hsize Hcont. generalize STATUS_LINE.
  intros size Hsize Hcont. set (m := (size - 1 - length GROUPS)%nat).
  assert (704 <= m)%nat as Hm by (subst m; change (length GROUPS) with 8%nat; lia).
  destruct (status_groups expected u m ids Hids Hm) as [n Hn]. exists n.
  destruct (decide (length (GROUPS ++ spaced ids) + 1 < size)%nat) as [Hlt|Hge];
    rewrite length_app in *.
  - rewrite app_assoc, read_lines_line; [|apply Forall_app_2; [done|by apply id_byte_plain]|by rewrite length_app].
    cbn [foldl]. rewrite take_ge in Hn by lia. by rewrite Hn.
  - assert (take (size - 1) (GROUPS ++ spaced ids ++ NL :: rest) = GROUPS ++ take m (spaced ids)) as Ht.
    { rewrite take_app, (take_ge GROUPS) by lia. fold m. by rewrite take_app_le by lia. }
    rewrite read_lines_step; [|lia|done].
    assert (plain (GROUPS ++ take m (spaced ids))) as Hp.
    { apply Forall_app_2; [done|]. apply id_byte_plain. by apply Forall_take. }
    rewrite fgets_cut, Ht; [|by rewrite Ht|rewrite !length_app; lia].
    cbn [fst snd foldl]. rewrite chomp_plain, Hn by done.
    rewrite drop_app_ge by lia. fold m. rewrite drop_app_le by lia.
    apply Hcont. by apply Forall_drop.
Qed.

(** The status file of a process: its real uid first on the [Uid:] line, its
    supplementary groups on the [Groups:] line, other lines around them. *)
Definition uid_line (uid more : list byte) : list byte := bytes "Uid:" ++ TAB :: uid ++ TAB :: more.

Definition status_file (before : list (list byte)) (uid more : list byte) (between : list (list byte))
    (ids after : list (list byte)) : list byte :=
  text_of (before ++ uid_line uid more :: between) ++ (GROUPS ++ spaced ids ++ [NL]) ++ text_of after.

Lemma status_uid expected uid more :
  id_text uid ->
  status_line expected (Seen false false [] 0) (uid_line uid more) =
  Seen (id_value uid =? expected) false [] 0.
Proof.
  intros [Hd Hl]. pose proof (digits_no_gap uid Hd) as Hgap.
  unfold status_line. change (after_prefix (uid_line uid more) (bytes "Uid:")) with
    (Some (TAB :: uid ++ TAB :: more)). cbv iota.
  assert (skip_gap (TAB :: uid ++ TAB :: more) = uid ++ TAB :: more) as ->.
  { destruct uid as [|b uid]; [simpl in Hl; lia|]. simpl. by apply Forall_cons in Hgap as [-> _]. }
  rewrite take_until_all by done. simpl take_until. rewrite app_nil_r.
  by rewrite parse_id_digits.
Qed.

Lemma status_read expected before uid more between ids after :
  Forall (fun l => other_line l /\ fits l) before -> fits (uid_line uid more) -> id_text uid ->
  Forall (fun l => other_line l /\ fits l) between -> Forall id_text ids ->
  Forall (fun l => other_line l /\ fits l) after ->
  exists n,
    foldl (status_line expected) (Seen false false [] 0)
      (read_lines STATUS_LINE (status_file before uid more between ids after)) =
    Seen (id_value uid =? expected) true (take NCFG_PEER_GROUPS_MAX (map id_value ids)) n.
Proof.
  intros Hb Hu Huid Hbt Hids Ha.
  apply Forall_and in Hb as [Hb1 Hb2], Hbt as [Hbt1 Hbt2], Ha as [Ha1 Ha2].
  unfold status_file. rewrite read_lines_text by (apply Forall_app_2; [done|by constructor]).
  rewrite !foldl_app, (status_others _ _ before) by done. cbn [foldl].
  rewrite status_uid, (status_others _ _ between) by done.
  rewrite <- !app_assoc. cbn [app].
  destruct (groups_line_read expected (id_value uid =? expected) ids (text_of after) Hids) as [n ->].
  exists n. rewrite <- (app_nil_r (text_of after)), read_lines_text, app_nil_r by done.
  by apply status_others.
Qed.

(** Reading a peer's supplementary groups from its status file keeps
    exactly the first 64 groups of the process, in order, and only when the
    file is of a process with the uid the socket reported; on a recycled pid
    it keeps none. A [Groups:] line longer than the reader's buffer never
    turns a group number cut in two into a membership. *)
Theorem peer_groups_exact file_read root pid expected out before uid more between ids after :
  Forall (fun l => other_line l /\ fits l) before -> fits (uid_line uid more) -> id_text uid ->
  Forall (fun l => other_line l /\ fits l) between -> Forall id_text ids ->
  Forall (fun l => other_line l /\ fits l) after ->
  file_read (status_path root pid) = Some (status_file before uid more between ids after) ->
  let '(known, p) := peer_groups_from file_read root pid expected out in
  pr_pid p = pr_pid out /\ pr_uid p = pr_uid out /\ pr_gid p = pr_gid out /\
  known = (id_value uid =? expected) /\ pr_groups_known p = known /\
  pr_groups p = if known then take NCFG_PEER_GROUPS_MAX (map id_value ids) else [].
Proof.
  intros Hb Hu Huid Hbt Hids Ha Hf. unfold peer_groups_from. rewrite Hf.
  destruct (status_read expected before uid more between ids after) as [n ->]; [done..|].
  cbn [sn_uid_matches sn_saw_groups sn_groups sn_total negb].
  by destruct (id_value uid =? expected).
Qed.

Definition sample_ids : list (list byte) := bytes "4" :: bytes "24" :: replicate 1000 (bytes "1000000001").

Lemma peer_groups_exact_witness :
  let text := status_file [bytes "Name:"] (bytes "1000") (bytes "1000") [] sample_ids [bytes "VmPeak:"] in
  let p := snd (peer_groups_from (fun _ => Some text) None 7 1000 (Peer 7 1000 1000 [] 0 false)) in
  (9000 <=? zlen text) = true /\ take 3 (pr_groups p) = [4; 24; 1000000001] /\
  length (pr_groups p) = 64%nat.
Proof.
  intros text p. split; [vm_compute; reflexivity|].
  assert (pr_groups p = take NCFG_PEER_GROUPS_MAX (map id_value sample_ids)) as Hp.
  { subst p.
    pose proof (peer_groups_exact (fun _ => Some text) None 7 1000 (Peer 7 1000 1000 [] 0 false)
      [bytes "Name:"] (bytes "1000") (bytes "1000") [] sample_ids [bytes "VmPeak:"]) as H.
    destruct (peer_groups_from _ _ _ _ _) as [known q]. cbn [snd].
    destruct H as (_ & _ & _ & Hk & _ & ->); [| | | | | |reflexivity|].
    - apply (bool_decide_eq_true_1 _). vm_compute. reflexivity.
    - apply (bool_decide_eq_true_1 _). vm_compute. reflexivity.
    - apply (bool_decide_eq_true_1 _). vm_compute. reflexivity.
    - constructor.
    - apply (bool_decide_eq_true_1 _). vm_compute. reflexivity.
    - apply (bool_decide_eq_true_1 _). vm_compute. reflexivity.
    - by rewrite Hk. }
  rewrite Hp. clear Hp p. split; vm_compute; reflexivity.
Defined.

(** A ten-digit id past 32 bits is cut rather than refused: the entry below
    resolves to root's uid. *)
Example peer_user_id_cuts :
  peer_user_id (fun _ => Some (bytes "mallory:x:4294967296:100::/:/bin/sh" ++ [NL]))
    None (Some (bytes "mallory")) = Some 0.
Proof. vm_compute. reflexivity. Qed.
