(* ===== verification/Privilege.v ===== *)
(** * Privilege: what a configuration asks for beyond configuring a network,

    [c/src/daemon/privilege.c]

    The walk over a parsed file that names every production a caller who is
    not root may not send: hooks, probes, commands that fetch secrets, other
    programs' files, paths, includes, the authorization policy itself and
    devices handed to a principal.

    An allocation that fails makes the walk answer [None] (the source returns
    0 and its caller releases what was recorded). [malloc_ok] is the
    allocator, by the size asked for; sizes are those of an LP64 build. *)
From S2P Require Import Prelude Lex Parse.

Local Open Scope nat_scope.

Inductive privilege_reason :=
| PRIV_HOOK | PRIV_PROBE | PRIV_SECRET_EXEC | PRIV_FOREIGN_CONFIG
| PRIV_PATH | PRIV_INCLUDE | PRIV_AUTHORIZATION | PRIV_PRINCIPAL.

#[export] Instance privilege_reason_eq_dec : EqDecision privilege_reason.
Proof. solve_decision. Defined.

Definition privileged : list (list byte * list byte * privilege_reason) :=
  [(bytes "probe", bytes "command", PRIV_PROBE);
   (bytes "probe", bytes "args", PRIV_PROBE);
   (bytes "openvpn", bytes "config", PRIV_FOREIGN_CONFIG);
   (bytes "openvpn", bytes "file", PRIV_FOREIGN_CONFIG);
   (bytes "wifi", bytes "ca_cert", PRIV_PATH);
   (bytes "wifi", bytes "client_cert", PRIV_PATH);
   (bytes "wifi", bytes "private_key", PRIV_PATH);
   (bytes "control", bytes "observe", PRIV_AUTHORIZATION);
   (bytes "control", bytes "wifi", PRIV_AUTHORIZATION);
   (bytes "control", bytes "admin", PRIV_AUTHORIZATION);
   (bytes "remote", bytes "observe", PRIV_AUTHORIZATION);
   (bytes "remote", bytes "wifi", PRIV_AUTHORIZATION);
   (bytes "remote", bytes "admin", PRIV_AUTHORIZATION);
   (bytes "tun", bytes "owner", PRIV_PRINCIPAL);
   (bytes "tun", bytes "group", PRIV_PRINCIPAL)].

Definition privilege_why (reason : privilege_reason) : list byte :=
  match reason with
  | PRIV_HOOK =>
      bytes "a hook body is shell, and a hook with no `run_as` runs as the daemon's own user, which is root"
  | PRIV_PROBE => bytes "a probe block is a program netcfgd runs, as root"
  | PRIV_SECRET_EXEC =>
      bytes "an `exec` secret provider is a command netcfgd runs, as root, to fetch the value"
  | PRIV_FOREIGN_CONFIG =>
      bytes "that names another program's configuration file, which netcfgd hands to it as root and which may itself name scripts to run"
  | PRIV_PATH =>
      bytes "that names a path on this machine, which is opened by a program running as root -- send the contents instead and netcfgd will store them"
  | PRIV_INCLUDE =>
      bytes "`include` reads another file into this configuration, and a client cannot know what is in it"
  | PRIV_AUTHORIZATION =>
      bytes "that changes who may ask netcfgd for what, so a caller who could send it could widen its own rights"
  | PRIV_PRINCIPAL =>
      bytes "that hands a device netcfgd creates to a named user or group, which gives them the traffic on it"
  end.

(** [assignment_reason]: the first row for this block and key. *)
Fixpoint reason_in (rows : list (list byte * list byte * privilege_reason)) (block key : list byte)
  : option privilege_reason :=
  match rows with
  | [] => None
  | (b, k, reason) :: rest =>
      if bytes_eqb b block && bytes_eqb k key then Some reason else reason_in rest block key
  end.
Definition assignment_reason (block key : list byte) : option privilege_reason :=
  reason_in privileged block key.

Fixpoint starts_with (s prefix : list byte) : bool :=
  match prefix, s with
  | [], _ => true
  | p :: prefix', b :: s' => (b =b p) && starts_with s' prefix'
  | _ :: _, [] => false
  end.

Definition string_starts_with (value : ast_value) (prefix : list byte) : bool :=
  match value with AST_STRING _ s => starts_with s prefix | _ => false end.

Definition cert_is_a_path (value : ast_value) : bool :=
  match value with
  | AST_STRING _ _ => negb (string_starts_with value (bytes "@secret:"))
  | _ => true
  end.

Fixpoint secret_exec (value : ast_value) : bool :=
  match value with
  | AST_STRING _ _ => string_starts_with value (bytes "@secret:exec:")
  | AST_LIST _ entries =>
      (fix any (l : list ast_value) : bool :=
         match l with [] => false | v :: l' => if secret_exec v then true else any l' end) entries
  | _ => false
  end.

Definition value_span (value : ast_value) : span :=
  match value with
  | AST_STRING sp _ | AST_NUMBER sp _ | AST_BOOL sp _ | AST_LIST sp _ => sp
  end.

(** ** What was found *)

Record finding := Finding { fd_reason : privilege_reason; fd_what : list byte; fd_span : span }.

(** [ncfg_privilege_findings_t]: [count] is the length of [pf_at], [capacity]
    follows from it. *)
Record findings := Findings { pf_at : list finding; pf_total : nat }.

Definition pf_count (f : findings) : nat := length (pf_at f).
Definition findings_zero : findings := Findings [] 0.

(** What a C string keeps of these bytes. *)
Fixpoint c_str (s : list byte) : list byte :=
  match s with
  | b :: s' => if b =b x00 then [] else b :: c_str s'
  | [] => []
  end.

Section Walk.
Context (malloc_ok : Z -> bool).

Definition SIZEOF_FINDING : Z := 48.

(** [record]. [at] grows through 8, 16, 32 and 64 entries. *)
Definition record_finding (out : findings) (reason : privilege_reason) (what : option (list byte))
    (sp : span) : option findings :=
  match what with
  | None => None
  | Some what =>
      let total := S (pf_total out) in
      let count := pf_count out in
      if NCFG_DIAGS_MAX <=? count then Some (Findings (pf_at out) total)
      else
        let grows := (count =? 0) || (count =? 8) || (count =? 16) || (count =? 32) in
        let wanted := if count =? 0 then 8 else 2 * count in
        if grows && negb (malloc_ok (Z.of_nat wanted * SIZEOF_FINDING)%Z) then None
        else Some (Findings (pf_at out ++ [Finding reason what sp]) total)
  end.

(** [joined] and [surrounded]: the text, when the allocator grants it. *)
Definition joined (block key : list byte) : option (list byte) :=
  if malloc_ok (zlen block + 1 + zlen key + 1)%Z then Some (block ++ bytes "." ++ key) else None.

Definition surrounded (before middle after : list byte) : option (list byte) :=
  let middle := c_str middle in
  if malloc_ok (zlen before + zlen middle + zlen after + 1)%Z
  then Some (before ++ middle ++ after) else None.

(** [walk], over the [walk_item] it calls. *)
Section Items.
Context (walk_item : ast_item -> list byte -> findings -> option findings).

Fixpoint walk (items : list ast_item) (block : list byte) (out : findings) : option findings :=
  match items with
  | [] => Some out
  | item :: rest =>
      match walk_item item block out with
      | None => None
      | Some out' => walk rest block out'
      end
  end.
End Items.

Fixpoint walk_item (item : ast_item) (block : list byte) (out : findings) : option findings :=
  match item with
  | AST_ITEM_HOOK phase _ sp => record_finding out PRIV_HOOK (surrounded [] phase []) sp
  | AST_ITEM_INCLUDE path sp =>
      record_finding out PRIV_INCLUDE (surrounded (bytes "include " ++ [QUOTE]) path [QUOTE]) sp
  | AST_ITEM_ASSIGNMENT key value sp =>
      let table :=
        match assignment_reason block key with
        | Some reason =>
            if negb (bool_decide (reason = PRIV_PATH)) || cert_is_a_path value
            then record_finding out reason (joined block key) sp
            else Some out
        | None => Some out
        end in
      match table with
      | None => None
      | Some out =>
          if secret_exec value
          then record_finding out PRIV_SECRET_EXEC (surrounded key (bytes "= @secret:exec:") [])
                 (value_span value)
          else Some out
      end
  | AST_ITEM_BLOCK head _ _ items _ => walk walk_item items head out
  end.

(** [ncfg_privilege_findings] of a file's items, or the sentence. *)
Definition privilege_findings (items : list ast_item) : list byte + findings :=
  match walk walk_item items [] findings_zero with
  | None => inl (bytes "the configuration could not be classified: out of memory")
  | Some out => inr out
  end.
End Walk.

Local Open Scope nat_scope.

(** ** What is privileged, stated of the tree *)

(** A value that names a command to fetch a secret with, however deep in a
    list. *)
Inductive runs_command : ast_value -> Prop :=
| runs_string sp rest : runs_command (AST_STRING sp (bytes "@secret:exec:" ++ rest))
| runs_list sp entries v : v ∈ entries -> runs_command v -> runs_command (AST_LIST sp entries).

(** A value that refers to something the daemon already holds. *)
Definition names_a_secret (v : ast_value) : Prop :=
  exists sp rest, v = AST_STRING sp (bytes "@secret:" ++ rest).

(** [grants reason block item]: the item, sitting directly in a block of that
    head, is or holds a production that grants what [reason] says. *)
Inductive grants (reason : privilege_reason) : list byte -> ast_item -> Prop :=
| grants_hook block phase body sp :
    reason = PRIV_HOOK -> grants reason block (AST_ITEM_HOOK phase body sp)
| grants_include block path sp :
    reason = PRIV_INCLUDE -> grants reason block (AST_ITEM_INCLUDE path sp)
| grants_key block key value sp :
    (block, key, reason) ∈ privileged -> (reason = PRIV_PATH -> ~ names_a_secret value) ->
    grants reason block (AST_ITEM_ASSIGNMENT key value sp)
| grants_command block key value sp :
    reason = PRIV_SECRET_EXEC -> runs_command value ->
    grants reason block (AST_ITEM_ASSIGNMENT key value sp)
| grants_inside block head label over items sp item :
    item ∈ items -> grants reason head item ->
    grants reason block (AST_ITEM_BLOCK head label over items sp).

(** ** Induction over the tree *)

Section ValueInd.
Context (P : ast_value -> Prop).
Context (Hs : forall sp s, P (AST_STRING sp s)) (Hn : forall sp n, P (AST_NUMBER sp n)).
Context (Hb : forall sp b, P (AST_BOOL sp b)).
Context (Hl : forall sp l, Forall P l -> P (AST_LIST sp l)).
Fixpoint value_ind (v : ast_value) : P v :=
  match v with
  | AST_STRING sp s => Hs sp s
  | AST_NUMBER sp n => Hn sp n
  | AST_BOOL sp b => Hb sp b
  | AST_LIST sp l =>
      Hl sp l ((fix go (l : list ast_value) : Forall P l :=
                  match l with [] => Forall_nil_2 _ | x :: r => Forall_cons_2 _ _ _ (value_ind x) (go r) end) l)
  end.
End ValueInd.

Section ItemInd.
Context (P : ast_item -> Prop).
Context (Hb : forall h l o items sp, Forall P items -> P (AST_ITEM_BLOCK h l o items sp)).
Context (Ha : forall k v sp, P (AST_ITEM_ASSIGNMENT k v sp)).
Context (Hh : forall p b sp, P (AST_ITEM_HOOK p b sp)) (Hi : forall p sp, P (AST_ITEM_INCLUDE p sp)).
Fixpoint item_ind (it : ast_item) : P it :=
  match it with
  | AST_ITEM_BLOCK h l o items sp =>
      Hb h l o items sp
        ((fix go (l : list ast_item) : Forall P l :=
            match l with [] => Forall_nil_2 _ | x :: r => Forall_cons_2 _ _ _ (item_ind x) (go r) end) items)
  | AST_ITEM_ASSIGNMENT k v sp => Ha k v sp
  | AST_ITEM_HOOK p b sp => Hh p b sp
  | AST_ITEM_INCLUDE p sp => Hi p sp
  end.
End ItemInd.

(** ** Values *)

Lemma starts_with_iff s prefix : starts_with s prefix = true <-> exists rest, s = prefix ++ rest.
Proof.
  revert s. induction prefix as [|p prefix IH]; intros [|b s]; simpl.
  - split; [by exists []|done].
  - split; [by exists (b :: s)|done].
  - split; [done|by intros [? ?]].
  - rewrite andb_true_iff, IH. destruct (byte_eqb_spec b p) as [->|Hne].
    + split; [intros [_ [r ->]]; by exists r|intros [r [= ->]]; split; [done|by exists r]].
    + split; [by intros [? _]|intros [r [= -> _]]; done].
Qed.

Lemma secret_exec_list sp l : secret_exec (AST_LIST sp l) = existsb secret_exec l.
Proof. induction l as [|v l IH]; [done|]. simpl in *. by destruct (secret_exec v). Qed.

Lemma secret_exec_iff v : secret_exec v = true <-> runs_command v.
Proof.
  induction v as [sp s|sp n|sp b|sp l IH] using value_ind.
  - simpl. rewrite starts_with_iff. split; [by intros [r ->]; constructor|].
    inversion 1; subst. by exists rest.
  - split; [done|by inversion 1].
  - split; [done|by inversion 1].
  - rewrite secret_exec_list, existsb_exists. rewrite Forall_forall in IH. split.
    + intros (v & Hin & Hv). apply list_elem_of_In in Hin. econstructor; [done|]. by apply IH.
    + inversion 1; subst. exists v. rewrite <- list_elem_of_In. split; [done|]. by apply IH.
Qed.

Lemma cert_is_a_path_iff v : cert_is_a_path v = true <-> ~ names_a_secret v.
Proof.
  unfold names_a_secret. destruct v as [sp s| | |]; simpl.
  2-4: by split; [intros _ (? & ? & ?)|].
  rewrite negb_true_iff, <- not_true_iff_false, starts_with_iff. split.
  - intros H (sp' & r & [= -> ->]). apply H. by exists r.
  - intros H [r ->]. apply H. by exists sp, r.
Qed.

Lemma assignment_reason_iff block key reason :
  assignment_reason block key = Some reason <-> (block, key, reason) ∈ privileged.
Proof.
  assert (forall rows, NoDup (map fst rows) ->
    reason_in rows block key = Some reason <-> (block, key, reason) ∈ rows) as H.
  { induction rows as [|[[b k] r] rows IH]; intros Hnd; simpl.
    { split; [done|]. by intros ?%not_elem_of_nil. }
    inversion Hnd as [|? ? Hnot Hnd']; subst. rewrite elem_of_cons. unfold bytes_eqb.
    do 2 case_bool_decide; simpl; subst.
    - split; [intros [= ->]; by left|]. intros [[= ->]|Hin]; [done|].
      exfalso. apply Hnot. apply list_elem_of_fmap. by exists (block, key, reason).
    - rewrite IH by done. split; [by right|]. by intros [[= ? ?]|?].
    - rewrite IH by done. split; [by right|]. by intros [[= ? ?]|?].
    - rewrite IH by done. split; [by right|]. by intros [[= ? ?]|?]. }
  apply H. apply (bool_decide_eq_true_1 _). vm_compute. reflexivity.
Qed.

(** ** The productions of a tree, in the order they are written *)

Fixpoint productions (block : list byte) (item : ast_item) : list finding :=
  match item with
  | AST_ITEM_HOOK phase _ sp => [Finding PRIV_HOOK (c_str phase) sp]
  | AST_ITEM_INCLUDE path sp =>
      [Finding PRIV_INCLUDE (bytes "include " ++ [QUOTE] ++ c_str path ++ [QUOTE]) sp]
  | AST_ITEM_ASSIGNMENT key value sp =>
      match assignment_reason block key with
      | Some reason =>
          if negb (bool_decide (reason = PRIV_PATH)) || cert_is_a_path value
          then [Finding reason (block ++ bytes "." ++ key) sp] else []
      | None => []
      end ++
      if secret_exec value
      then [Finding PRIV_SECRET_EXEC (key ++ bytes "= @secret:exec:") (value_span value)] else []
  | AST_ITEM_BLOCK head _ _ items _ => concat (map (productions head) items)
  end.

Lemma elem_of_concat_map {A B} (f : A -> list B) l x :
  x ∈ concat (map f l) <-> exists y, y ∈ l /\ x ∈ f y.
Proof.
  induction l as [|y l IH]; simpl.
  - split; [by intros ?%not_elem_of_nil|by intros (? & ?%not_elem_of_nil & _)].
  - rewrite elem_of_app, IH. setoid_rewrite elem_of_cons. naive_solver.
Qed.

Lemma productions_grants reason block item :
  (exists f, f ∈ productions block item /\ fd_reason f = reason) <-> grants reason block item.
Proof.
  revert block. induction item as [h l o items sp IH|key value sp|phase body sp|path sp]
    using item_ind; intros block; simpl.
  - rewrite Forall_forall in IH. split.
    + intros (f & (it & Hin & Hf)%elem_of_concat_map & Hr). econstructor; [done|].
      apply IH; [done|by exists f].
    + inversion 1 as [| | | |? ? ? ? ? ? item Hin Hg]; subst. apply IH in Hg as (f & Hf & Hr); [|done].
      exists f. split; [|done]. apply elem_of_concat_map. by exists item.
  - setoid_rewrite elem_of_app. split.
    + intros (f & [Hf|Hf] & <-).
      * destruct (assignment_reason block key) as [r|] eqn:E; [|by apply not_elem_of_nil in Hf].
        destruct (negb (bool_decide (r = PRIV_PATH)) || cert_is_a_path value) eqn:C;
          [|by apply not_elem_of_nil in Hf].
        apply list_elem_of_singleton in Hf as ->. simpl. apply grants_key; [by apply assignment_reason_iff|].
        intros ->. rewrite bool_decide_eq_true_2 in C by done. by apply cert_is_a_path_iff.
      * destruct (secret_exec value) eqn:E; [|by apply not_elem_of_nil in Hf].
        apply list_elem_of_singleton in Hf as ->. apply grants_command; [done|by apply secret_exec_iff].
    + inversion 1 as [| |b k v s Hin Hp|b k v s -> Hc|]; subst.
      * apply assignment_reason_iff in Hin as ->. eexists. split; [left|].
        { rewrite (proj2 (orb_true_iff _ _)); [by apply list_elem_of_singleton|].
          case_bool_decide; [right; by apply cert_is_a_path_iff, Hp|by left]. }
        done.
      * apply secret_exec_iff in Hc as ->. eexists. split; [right; by apply list_elem_of_singleton|done].
  - split; [intros (f & ->%list_elem_of_singleton & <-); by constructor|].
    inversion 1; subst. eexists. split; [by apply list_elem_of_singleton|done].
  - split; [intros (f & ->%list_elem_of_singleton & <-); by constructor|].
    inversion 1; subst. eexists. split; [by apply list_elem_of_singleton|done].
Qed.

(** [shows out l]: [out] is what the bound keeps of the list [l]. *)
Definition shows (out : findings) (l : list finding) : Prop :=
  pf_at out = take NCFG_DIAGS_MAX l /\ pf_total out = length l.

Section Walk.
Context (malloc_ok : Z -> bool).

Lemma record_shows out l reason what sp out' :
  shows out l -> record_finding malloc_ok out reason (Some what) sp = Some out' ->
  shows out' (l ++ [Finding reason what sp]).
Proof.
  intros [Hat Ht] H. unfold record_finding, pf_count in H. unfold shows. rewrite length_app. simpl.
  assert (length (pf_at out) = Nat.min NCFG_DIAGS_MAX (length l)) as Hlen by (by rewrite Hat, length_take).
  destruct (Nat.leb_spec NCFG_DIAGS_MAX (length (pf_at out))).
  - injection H as <-. simpl. rewrite take_app_le by lia. split; [done|lia].
  - destruct (_ && _); [done|]. injection H as <-. simpl.
    rewrite Hat, take_app, (take_ge l) by lia.
    rewrite (take_ge [_]) by (simpl; lia). split; [done|lia].
Qed.

Lemma record_total out reason what sp :
  (forall n, malloc_ok n = true) -> exists out', record_finding malloc_ok out reason (Some what) sp = Some out'.
Proof. intros H. unfold record_finding. rewrite H, andb_false_r. destruct (_ <=? _); eauto. Qed.

Lemma surrounded_Some before middle after t :
  surrounded malloc_ok before middle after = Some t -> t = before ++ c_str middle ++ after.
Proof. unfold surrounded. destruct (malloc_ok _); congruence. Qed.

Lemma joined_Some block key t : joined malloc_ok block key = Some t -> t = block ++ bytes "." ++ key.
Proof. unfold joined. destruct (malloc_ok _); congruence. Qed.

Lemma record_Some_what out reason what sp out' :
  record_finding malloc_ok out reason what sp = Some out' -> exists t, what = Some t.
Proof. destruct what; [eauto|done]. Qed.

Lemma record_text_shows out l reason what text sp out' :
  (forall t, what = Some t -> t = text) ->
  shows out l -> record_finding malloc_ok out reason what sp = Some out' ->
  shows out' (l ++ [Finding reason text sp]).
Proof.
  intros Hw Hs H. destruct (record_Some_what _ _ _ _ _ H) as [t ->].
  rewrite <- (Hw t) by done. by eapply record_shows.
Qed.

Lemma walk_shows items block out l out' :
  Forall (fun it => forall block out l out', shows out l -> walk_item malloc_ok it block out = Some out' ->
                    shows out' (l ++ productions block it)) items ->
  shows out l -> walk (walk_item malloc_ok) items block out = Some out' ->
  shows out' (l ++ concat (map (productions block) items)).
Proof.
  intros Hall. revert out l. induction Hall as [|it items Hit _ IH]; intros out l Hs H; simpl in *.
  - injection H as <-. by rewrite app_nil_r.
  - destruct (walk_item malloc_ok it block out) as [o|] eqn:E; [|done].
    rewrite app_assoc. by eapply IH; [eapply Hit|].
Qed.

Lemma walk_item_shows item block out l out' :
  shows out l -> walk_item malloc_ok item block out = Some out' ->
  shows out' (l ++ productions block item).
Proof.
  revert block out l out'. induction item as [h lb o items sp IH|key value sp|phase body sp|path sp]
    using item_ind; intros block out l out' Hs H; simpl in H; cbn [productions].
  - by eapply walk_shows.
  - assert (forall o1 l1, shows o1 l1 ->
      (if secret_exec value
       then record_finding malloc_ok o1 PRIV_SECRET_EXEC
              (surrounded malloc_ok key (bytes "= @secret:exec:") []) (value_span value)
       else Some o1) = Some out' ->
      shows out' (l1 ++ if secret_exec value
        then [Finding PRIV_SECRET_EXEC (key ++ bytes "= @secret:exec:") (value_span value)] else [])) as Hse.
    { intros o1 l1 H1 H2. destruct (secret_exec value); [|injection H2 as <-; by rewrite app_nil_r].
      eapply record_text_shows; [|exact H1|exact H2]. by intros t ->%surrounded_Some. }
    rewrite app_assoc. destruct (assignment_reason block key) as [r|].
    2:{ rewrite app_nil_r. by eapply Hse. }
    destruct (negb _ || _); [|rewrite app_nil_r; by eapply Hse].
    destruct (record_finding malloc_ok out r _ sp) as [o1|] eqn:E; [|done].
    eapply Hse; [|exact H]. eapply record_text_shows; [|exact Hs|exact E]. by intros t ->%joined_Some.
  - eapply record_text_shows; [|exact Hs|exact H]. intros t ->%surrounded_Some. by rewrite app_nil_r.
  - eapply record_text_shows; [|exact Hs|exact H]. by intros t ->%surrounded_Some.
Qed.

Lemma walk_item_total item block out :
  (forall n, malloc_ok n = true) -> exists out', walk_item malloc_ok item block out = Some out'.
Proof.
  intros Hm. revert block out. induction item as [h lb o items sp IH|key value sp|phase body sp|path sp]
    using item_ind; intros block out; simpl.
  - revert out. induction IH as [|it items Hit _ IH]; intros out; simpl; [eauto|].
    destruct (Hit h out) as [o1 ->]. apply IH.
  - unfold joined, surrounded. rewrite !Hm.
    assert (forall o1, exists out', (if secret_exec value
       then record_finding malloc_ok o1 PRIV_SECRET_EXEC (Some (key ++ c_str (bytes "= @secret:exec:") ++ [])) (value_span value)
       else Some o1) = Some out') as Hse.
    { intros o1. destruct (secret_exec value); [by apply record_total|eauto]. }
    destruct (assignment_reason block key) as [r|]; [|apply Hse].
    destruct (negb _ || _); [|apply Hse].
    destruct (record_total out r (block ++ bytes "." ++ key) sp Hm) as [o1 ->]. apply Hse.
  - unfold surrounded. rewrite Hm. by apply record_total.
  - unfold surrounded. rewrite Hm. by apply record_total.
Qed.

Lemma findings_shows items f :
  privilege_findings malloc_ok items = inr f ->
  shows f (concat (map (productions []) items)).
Proof.
  unfold privilege_findings. destruct (walk _ _ _ _) as [o|] eqn:E; [|done]. intros [= ->].
  eapply (walk_shows items [] findings_zero []); [|done|exact E].
  apply Forall_forall. intros it _. apply walk_item_shows.
Qed.

Lemma findings_total items :
  (forall n, malloc_ok n = true) -> exists f, privilege_findings malloc_ok items = inr f.
Proof.
  intros Hm. unfold privilege_findings. generalize findings_zero.
  induction items as [|it items IH]; intros out; simpl; [eauto|].
  destruct (walk_item_total it [] out Hm) as [o ->]. apply IH.
Qed.
End Walk.

(** Nothing recorded is nothing granted. *)
Lemma no_findings_iff malloc_ok items f :
  privilege_findings malloc_ok items = inr f ->
  pf_count f = 0 <-> forall reason item, item ∈ items -> ~ grants reason [] item.
Proof.
  intros [Hat _]%findings_shows. unfold pf_count. rewrite Hat, length_take. split.
  - intros Hz reason item Hin (x & Hx & _)%productions_grants.
    assert (concat (map (productions []) items) = []) as Hnil.
    { apply nil_length_inv. unfold NCFG_DIAGS_MAX in Hz. lia. }
    assert (x ∈ concat (map (productions []) items)) as Hx' by (apply elem_of_concat_map; by exists item).
    rewrite Hnil in Hx'. by apply not_elem_of_nil in Hx'.
  - intros Hno. destruct (concat (map (productions []) items)) as [|x l] eqn:E; [by rewrite Nat.min_0_r|].
    assert (x ∈ x :: l) as Hx by by left. rewrite <- E in Hx.
    apply elem_of_concat_map in Hx as (item & Hin & Hx).
    destruct (Hno (fd_reason x) item Hin). apply productions_grants. by exists x.
Qed.

(** C37: the classification of a configuration is sound and complete: what it
    reports is granted by an item of the file, it reports nothing exactly
    when no item at any depth grants more than configuring a network, and the
    list kept is the first 64 in the order of the text, with the total beside
    it. It fails only when memory does. *)
Theorem privilege_findings_exact malloc_ok items :
  ((forall n, malloc_ok n = true) -> exists f, privilege_findings malloc_ok items = inr f) /\
  (forall f, privilege_findings malloc_ok items = inr f ->
     (forall x, x ∈ pf_at f -> exists item, item ∈ items /\ grants (fd_reason x) [] item) /\
     (pf_count f = 0 <-> forall reason item, item ∈ items -> ~ grants reason [] item) /\
     pf_at f = take NCFG_DIAGS_MAX (concat (map (productions []) items)) /\
     pf_total f = length (concat (map (productions []) items))).
Proof.
  split; [apply findings_total|]. intros f Hf.
  pose proof (findings_shows _ _ _ Hf) as [Hat Ht]. repeat split; try done.
  - intros x Hx. rewrite Hat in Hx. apply elem_of_take in Hx as (i & Hx & _).
    apply list_elem_of_lookup_2, elem_of_concat_map in Hx as (item & Hin & Hx).
    exists item. split; [done|]. apply productions_grants. by exists x.
  - by apply (no_findings_iff malloc_ok).
  - by apply (no_findings_iff malloc_ok).
Qed.

(** The block decides: [config] of an [openvpn] block is another program's
    configuration, [config] of an [interface] block is not. *)
Example privilege_is_by_block :
  let sp := Span 0 0 0 0 in
  let value := AST_STRING sp (bytes "/etc/x") in
  let file head := [AST_ITEM_BLOCK head None false [AST_ITEM_ASSIGNMENT (bytes "config") value sp] sp] in
  privilege_findings (fun _ => true) (file (bytes "interface")) = inr findings_zero /\
  privilege_findings (fun _ => true) (file (bytes "openvpn")) =
    inr (Findings [Finding PRIV_FOREIGN_CONFIG (bytes "openvpn.config") sp] 1).
Proof. split; reflexivity. Qed.
