(* ===== verification/Authorize.v ===== *)
(** * Authorize: whether a caller may do what it asked,

    [c/src/daemon/authorize.c]

    The tier each request belongs to, the policy of the [control] and
    [remote] blocks, the gate on the content of a configuration sent over the
    socket, and [ncfg_authz_permitted], the one question everything asks.

    A [NULL] pointer the code tests for is [None]. A refusal carries its
    sentence, cut as [vsnprintf] cuts it in a buffer of [NCFG_ERROR_MAX]. The
    databases of users and groups are read through [file_read]; [malloc_ok]
    is the allocator the parser and the classification run on. *)
From stdpp Require Import pretty.
From S2P Require Import Prelude Lex Parse Privilege Peer.
#[local] Open Scope Z_scope.

Inductive tier := TIER_OBSERVE | TIER_WIFI | TIER_ADMIN | TIER_COUNT.

#[export] Instance tier_eq_dec : EqDecision tier.
Proof. solve_decision. Defined.

Definition tier_name (t : tier) : option (list byte) :=
  match t with
  | TIER_OBSERVE => Some (bytes "observe")
  | TIER_WIFI => Some (bytes "wifi")
  | TIER_ADMIN => Some (bytes "admin")
  | TIER_COUNT => None
  end.

(** [ncfg_proto_request_kind_t]; [REQ_OUTSIDE] is a value outside the enum. *)
Inductive request_kind :=
| REQ_HELLO | REQ_STATUS | REQ_PLAN | REQ_APPLY | REQ_CONFIRM | REQ_REVERT | REQ_RELOAD
| REQ_SHOW | REQ_EXPLAIN | REQ_CONFIG_LIST | REQ_MONITOR | REQ_WIFI_SCAN | REQ_WIFI_STATUS
| REQ_WIFI_ADD | REQ_WIFI_CONNECT | REQ_WIFI_DISCONNECT | REQ_WIFI_FORGET | REQ_CONFIG_PUT
| REQ_PROBE_LIST | REQ_HOOK_LIST | REQ_PROFILE_LIST | REQ_MODEM_LIST | REQ_PROFILE_SAVE
| REQ_SECRET_LIST | REQ_PROFILE_SET | REQ_PROBE_PUT | REQ_SECRET_PUT | REQ_CONFIG_DELETE
| REQ_SECRET_DELETE | REQ_AP_STATIONS | REQ_RADIOS | REQ_RADIO_SET
| REQ_OUTSIDE (raw : Z).

#[export] Instance request_kind_eq_dec : EqDecision request_kind.
Proof. solve_decision. Defined.

(** [tier_table] and [ncfg_tier_of]. *)
Definition tier_of (kind : request_kind) : tier :=
  match kind with
  | REQ_HELLO | REQ_STATUS | REQ_PLAN | REQ_SHOW | REQ_EXPLAIN | REQ_MONITOR | REQ_WIFI_STATUS
  | REQ_AP_STATIONS | REQ_RADIOS | REQ_PROBE_LIST | REQ_CONFIG_LIST | REQ_PROFILE_LIST
  | REQ_MODEM_LIST | REQ_SECRET_LIST => TIER_OBSERVE
  | REQ_WIFI_SCAN | REQ_WIFI_CONNECT | REQ_WIFI_DISCONNECT | REQ_WIFI_ADD | REQ_WIFI_FORGET
  | REQ_RADIO_SET => TIER_WIFI
  | REQ_APPLY | REQ_CONFIRM | REQ_REVERT | REQ_RELOAD | REQ_PROFILE_SET | REQ_PROFILE_SAVE
  | REQ_HOOK_LIST | REQ_CONFIG_PUT | REQ_PROBE_PUT | REQ_SECRET_PUT | REQ_CONFIG_DELETE
  | REQ_SECRET_DELETE => TIER_ADMIN
  | REQ_OUTSIDE _ => TIER_ADMIN
  end.

(** ** The policy *)

(** [kind] is an [int] in the source: [PRINCIPAL_OUTSIDE] is a value that is
    not one of the enum. *)
Inductive principal_kind :=
| PRINCIPAL_ROOT | PRINCIPAL_ANY | PRINCIPAL_USER | PRINCIPAL_GROUP | PRINCIPAL_OUTSIDE (raw : Z).

Record principal := Principal { pc_kind : principal_kind; pc_name : option (list byte) }.

Record control := Control { ct_observe : principal; ct_wifi : principal; ct_admin : principal }.

(** The three tiers of [ncfg_remote_policy_t]; [agent] is read elsewhere. *)
Record remote_policy := RemotePolicy { rp_observe : bool; rp_wifi : bool; rp_admin : bool }.

Inductive arrival := ARRIVED_LOCAL | ARRIVED_REMOTE.

Definition is_local (a : arrival) : bool :=
  match a with ARRIVED_LOCAL => true | ARRIVED_REMOTE => false end.

(** A request: its kind, and the name and text of a [put]. *)
Record request := Request { rq_kind : request_kind; put_name : list byte; put_text : list byte }.

(** What a check answers: 1, or 0 with the sentence. *)
Inductive answer := Allowed | Denied (err : list byte).

Definition allowed (a : answer) : bool := match a with Allowed => true | Denied _ => false end.

Definition render_principal (p : option principal) (out_size : nat) : list byte :=
  let name := match p with Some (Principal _ (Some n)) => c_str n | _ => [] end in
  take (out_size - 1)
    match p with
    | Some (Principal PRINCIPAL_ANY _) => bytes "any"
    | Some (Principal PRINCIPAL_USER _) => bytes "user:" ++ name
    | Some (Principal PRINCIPAL_GROUP _) => bytes "group:" ++ name
    | _ => bytes "root"
    end.

Definition authz_refusal (t : tier) (p : option principal) : list byte :=
  error_set (bytes "not permitted: this needs the `" ++ default (bytes "admin") (tier_name t) ++
             bytes "` tier, which the configuration opens to `" ++ render_principal p 128 ++
             bytes "`. Change it in the `control` block of netcfgd.conf.").

Definition remote_allows (remote : option remote_policy) (t : tier) : bool :=
  match remote with
  | None => false
  | Some r =>
      match t with
      | TIER_OBSERVE => rp_observe r
      | TIER_WIFI => rp_wifi r
      | TIER_ADMIN => rp_admin r
      | TIER_COUNT => false
      end
  end.

Definition principal_of (c : control) (t : tier) : principal :=
  match t with
  | TIER_OBSERVE => ct_observe c
  | TIER_WIFI => ct_wifi c
  | TIER_ADMIN | TIER_COUNT => ct_admin c
  end.

Definition check_remote (remote : option remote_policy) (r : request) : answer :=
  let t := tier_of (rq_kind r) in
  if remote_allows remote t then Allowed
  else Denied (error_set (bytes "not permitted from off this machine: this needs the `" ++
         default (bytes "admin") (tier_name t) ++
         bytes "` tier, which the configuration does not open remotely. Change it in the `remote` block of netcfgd.conf.")).

Section Authorize.
Context (file_read : list byte -> option (list byte)) (malloc_ok : Z -> bool).

Definition authz_satisfies (roots : option authz_roots) (p : option peer) (who : option principal)
  : bool :=
  let where_ := default authz_roots_default roots in
  match p, who with
  | Some pr, Some principal =>
      if peer_is_root p then true
      else
        match pc_kind principal with
        | PRINCIPAL_ROOT => false
        | PRINCIPAL_ANY => true
        | PRINCIPAL_USER =>
            match peer_user_id file_read (passwd_file where_) (pc_name principal) with
            | Some uid => pr_uid pr =? uid
            | None => false
            end
        | PRINCIPAL_GROUP =>
            match peer_group_id file_read (group_file where_) (pc_name principal) with
            | Some gid => peer_in_group p gid
            | None => false
            end
        | PRINCIPAL_OUTSIDE _ => false
        end
  | _, _ => false
  end.

Definition authz_check (roots : option authz_roots) (c : option control)
    (remote : option remote_policy) (a : arrival) (p : option peer) (r : option request) : answer :=
  match c, r with
  | Some c, Some r =>
      match a with
      | ARRIVED_REMOTE => check_remote remote r
      | ARRIVED_LOCAL =>
          let t := tier_of (rq_kind r) in
          let who := principal_of c t in
          if authz_satisfies roots p (Some who) then Allowed
          else Denied (authz_refusal t (Some who))
      end
  | _, _ => Denied (bytes "not permitted: there is no policy to judge this by")
  end.

(** The refusal of a configuration with privileged productions in it. *)
Definition content_refusal (first : finding) (total : nat) : list byte :=
  error_set
    (bytes "`" ++ fd_what first ++ bytes "` needs root on this machine: " ++
     privilege_why (fd_reason first) ++
     (if (1 <? total)%nat
      then bytes ". " ++ bytes (pretty (N.of_nat total)) ++ bytes " such productions in this configuration."
      else bytes ". Send it as root, or leave it out.")).

Definition authz_check_content (a : arrival) (p : option peer) (r : option request) : answer :=
  match r with
  | None => Allowed
  | Some r =>
      match rq_kind r with
      | REQ_PROBE_PUT =>
          if is_local a && peer_is_root p then Allowed
          else Denied (error_set (bytes "writing the link-detection script `" ++
                 c_str (take 200 (put_name r)) ++
                 bytes "` needs root on this machine: a probe is a program netcfgd runs as root, on an interval. Send it as root."))
      | REQ_CONFIG_PUT =>
          match ncfg_parse malloc_ok (parse_fuel (put_text r)) (put_text r) with
          | Some (inr items, _) =>
              match privilege_findings malloc_ok items with
              | inl err => Denied err
              | inr f =>
                  match pf_at f with
                  | [] => Allowed
                  | first :: _ =>
                      if is_local a && peer_is_root p then Allowed
                      else Denied (content_refusal first (pf_total f))
                  end
              end
          | _ => Allowed
          end
      | _ => Allowed
      end
  end.

Definition authz_permitted (roots : option authz_roots) (c : option control)
    (remote : option remote_policy) (a : arrival) (p : option peer) (r : option request) : answer :=
  match authz_check roots c remote a p r with
  | Denied err => Denied err
  | Allowed => authz_check_content a p r
  end.

Definition every_tier : list tier := [TIER_OBSERVE; TIER_WIFI; TIER_ADMIN].

Definition authz_granted (roots : option authz_roots) (c : option control)
    (remote : option remote_policy) (a : arrival) (p : option peer) : list tier :=
  match c with
  | None => []
  | Some c =>
      filter (fun t => match a with
                       | ARRIVED_REMOTE => remote_allows remote t
                       | ARRIVED_LOCAL => authz_satisfies roots p (Some (principal_of c t))
                       end = true) every_tier
  end.
End Authorize.

(** ** The policy, stated of people and tiers *)

(** [holds]: a peer is one of those a principal names. *)
Inductive holds (file_read : list byte -> option (list byte)) (roots : authz_roots) (p : peer)
  : principal -> Prop :=
| holds_root who : pr_uid p = 0 -> holds file_read roots p who
| holds_any name : holds file_read roots p (Principal PRINCIPAL_ANY name)
| holds_user name :
    peer_user_id file_read (passwd_file roots) name = Some (pr_uid p) ->
    holds file_read roots p (Principal PRINCIPAL_USER name)
| holds_group name gid :
    peer_group_id file_read (group_file roots) name = Some gid ->
    gid = pr_gid p \/ gid ∈ pr_groups p ->
    holds file_read roots p (Principal PRINCIPAL_GROUP name).

Definition opens (remote : remote_policy) (t : tier) : Prop :=
  match t with
  | TIER_OBSERVE => rp_observe remote = true
  | TIER_WIFI => rp_wifi remote = true
  | TIER_ADMIN => rp_admin remote = true
  | TIER_COUNT => False
  end.

(** What a caller may ask for: from off the machine what the [remote] block
    opens, on it what the [control] block opens to the peer. *)
Definition may_reach (file_read : list byte -> option (list byte)) (roots : authz_roots)
    (c : control) (remote : option remote_policy) (a : arrival) (p : peer) (t : tier) : Prop :=
  match a with
  | ARRIVED_REMOTE => exists r, remote = Some r /\ opens r t
  | ARRIVED_LOCAL => holds file_read roots p (principal_of c t)
  end.

(** Root on this machine. *)
Definition local_root (a : arrival) (p : option peer) : Prop :=
  a = ARRIVED_LOCAL /\ exists pr, p = Some pr /\ pr_uid pr = 0.

(** A text every tree of which only configures a network. *)
Definition ordinary (malloc_ok : Z -> bool) (text : list byte) : Prop :=
  forall items ds, ncfg_parse malloc_ok (parse_fuel text) text = Some (inr items, ds) ->
  forall reason item, item ∈ items -> ~ grants reason [] item.

(** ** The tier check *)

Lemma peer_in_group_iff p gid :
  peer_in_group (Some p) gid = true <-> gid = pr_gid p \/ gid ∈ pr_groups p.
Proof.
  simpl. rewrite orb_true_iff, Z.eqb_eq, existsb_exists. setoid_rewrite <- list_elem_of_In.
  setoid_rewrite Z.eqb_eq. naive_solver.
Qed.

Lemma satisfies_iff file_read roots p who :
  authz_satisfies file_read roots (Some p) (Some who) = true <->
  holds file_read (default authz_roots_default roots) p who.
Proof.
  unfold authz_satisfies. cbn [peer_is_root]. destruct (Z.eqb_spec (pr_uid p) 0) as [Hz|Hnz].
  { split; [intros _; by apply holds_root|done]. }
  destruct who as [[| | | |raw] name]; cbn [pc_kind pc_name].
  - split; [done|by inversion 1].
  - split; [intros _; apply holds_any|done].
  - destruct (peer_user_id _ _ name) as [uid|] eqn:E.
    + rewrite Z.eqb_eq. split; [intros <-; by apply holds_user|]. inversion 1; congruence.
    + split; [done|]. inversion 1; congruence.
  - destruct (peer_group_id _ _ name) as [gid|] eqn:E.
    + rewrite peer_in_group_iff. split; [by apply (holds_group _ _ _ _ gid)|]. inversion 1; [done|]. by simplify_eq.
    + split; [done|]. inversion 1; congruence.
  - split; [done|by inversion 1].
Qed.

Lemma remote_allows_iff remote t :
  remote_allows remote t = true <-> exists r, remote = Some r /\ opens r t.
Proof.
  destruct remote as [r|]; simpl; [|split; [done|by intros (? & ? & _)]].
  split; [intros H; exists r; by destruct t|]. intros (r' & [= ->] & H). by destruct t.
Qed.

Lemma check_reaches file_read roots c remote a p r :
  authz_check file_read roots (Some c) remote a (Some p) (Some r) = Allowed <->
  may_reach file_read (default authz_roots_default roots) c remote a p (tier_of (rq_kind r)).
Proof.
  unfold authz_check, check_remote, may_reach. destruct a.
  - rewrite <- satisfies_iff. by destruct (authz_satisfies _ _ _ _).
  - rewrite <- remote_allows_iff. by destruct (remote_allows _ _).
Qed.

Lemma is_root_iff a p : is_local a && peer_is_root p = true <-> local_root a p.
Proof.
  unfold local_root. destruct a; simpl; [|split; [done|by intros [? _]]].
  destruct p as [pr|]; simpl; [|split; [done|by intros (_ & ? & ? & _)]].
  rewrite Z.eqb_eq. naive_solver.
Qed.

(** ** The content gate *)

Lemma content_config_put malloc_ok a p r :
  rq_kind r = REQ_CONFIG_PUT -> authz_check_content malloc_ok a p (Some r) = Allowed ->
  local_root a p \/ ordinary malloc_ok (put_text r).
Proof.
  intros Hk. unfold authz_check_content. rewrite Hk. unfold ordinary.
  destruct (ncfg_parse _ _ _) as [[[e|items] ds]|] eqn:Hparse.
  - intros _. right. congruence.
  - destruct (privilege_findings malloc_ok items) as [e|f] eqn:Hf; [done|].
    destruct (pf_at f) as [|first rest] eqn:Hat.
    + intros _. right. intros items' ds' [= <- <-].
      apply (no_findings_iff _ _ _ Hf). unfold pf_count. by rewrite Hat.
    + destruct (is_local a && peer_is_root p) eqn:E; [|done]. left. by apply is_root_iff.
  - intros _. right. congruence.
Qed.

Lemma content_config_put_complete malloc_ok a p r :
  (forall n, malloc_ok n = true) -> rq_kind r = REQ_CONFIG_PUT ->
  local_root a p \/ ordinary malloc_ok (put_text r) ->
  authz_check_content malloc_ok a p (Some r) = Allowed.
Proof.
  intros Hm Hk Hor. unfold authz_check_content. rewrite Hk.
  destruct (ncfg_parse _ _ _) as [[[e|items] ds]|] eqn:Hparse; [done| |done].
  destruct (findings_total malloc_ok items Hm) as [f Hf]. rewrite Hf.
  destruct (pf_at f) as [|first rest] eqn:Hat; [done|].
  destruct Hor as [Hroot|Hord]; [by rewrite (proj2 (is_root_iff a p) Hroot)|].
  specialize (Hord _ _ Hparse). apply (no_findings_iff _ _ _ Hf) in Hord.
  unfold pf_count in Hord. by rewrite Hat in Hord.
Qed.

(** C14: text sent as configuration gets past the gate only from root on this
    machine, or when no item of the tree it parses to, at any depth, is a
    hook, an include, a probe, a command that fetches a secret, a foreign
    configuration, a path opened as root, the policy itself or a device
    handed to a principal; and, memory granted, an admin's text with none of
    these is never refused by it. *)
Theorem config_put_permitted file_read malloc_ok roots c remote a p r :
  rq_kind r = REQ_CONFIG_PUT ->
  (authz_permitted file_read malloc_ok roots (Some c) remote a (Some p) (Some r) = Allowed ->
   may_reach file_read (default authz_roots_default roots) c remote a p TIER_ADMIN /\
   (local_root a (Some p) \/ ordinary malloc_ok (put_text r))) /\
  ((forall n, malloc_ok n = true) ->
   may_reach file_read (default authz_roots_default roots) c remote a p TIER_ADMIN ->
   local_root a (Some p) \/ ordinary malloc_ok (put_text r) ->
   authz_permitted file_read malloc_ok roots (Some c) remote a (Some p) (Some r) = Allowed).
Proof.
  intros Hk. unfold authz_permitted.
  pose proof (check_reaches file_read roots c remote a p r) as Hcheck. rewrite Hk in Hcheck. split.
  - destruct (authz_check _ _ _ _ _ _ _); [|done]. intros Hc. split; [by apply Hcheck|].
    by apply content_config_put.
  - intros Hm Hreach Hor. rewrite (proj2 Hcheck Hreach). by apply content_config_put_complete.
Qed.

(** A configuration with a hook two blocks deep, and one without. *)
Definition hook_text : list byte :=
  bytes "interface eth0 { post_up {" ++ [NL] ++ bytes "id" ++ [NL] ++ bytes "}" ++ [NL] ++ bytes "}" ++ [NL].
Definition plain_text : list byte := bytes "interface eth0 { mtu = 1400 }" ++ [NL].

Definition open_control : control :=
  let any := Principal PRINCIPAL_ANY None in Control any any any.
Definition alice : peer := Peer 7 1000 1000 [] 0 true.

Lemma config_put_permitted_witness :
  authz_permitted (fun _ => None) (fun _ => true) None (Some open_control) None ARRIVED_LOCAL
    (Some alice) (Some (Request REQ_CONFIG_PUT [] plain_text)) = Allowed /\
  ordinary (fun _ => true) plain_text /\
  allowed (authz_permitted (fun _ => None) (fun _ => true) None (Some open_control) None ARRIVED_LOCAL
    (Some alice) (Some (Request REQ_CONFIG_PUT [] hook_text))) = false.
Proof.
  split; [vm_compute; reflexivity|]. split; [|vm_compute; reflexivity].
  destruct (proj1 (config_put_permitted (fun _ => None) (fun _ => true) None open_control None
    ARRIVED_LOCAL alice (Request REQ_CONFIG_PUT [] plain_text) eq_refl)) as [_ [Hroot|Hord]].
  - vm_compute. reflexivity.
  - destruct Hroot as [_ (pr & [= <-] & [=])].
  - exact Hord.
Defined.

(** ** From off the machine *)

(** Nothing about the process at the other end of the socket reaches the
    decision on a remote request: not its uid, not its groups, not the local
    policy or the databases. What a remote caller may do is a function of the
    [remote] block and the request alone, it is never a probe, and a tier the
    block does not open is closed even when the agent runs as root. *)
Theorem remote_ignores_the_peer file_read file_read' malloc_ok roots roots' c c' remote p p' r :
  let permitted := authz_permitted file_read malloc_ok roots (Some c) remote ARRIVED_REMOTE p (Some r) in
  permitted = authz_permitted file_read' malloc_ok roots' (Some c') remote ARRIVED_REMOTE p' (Some r) /\
  (permitted = Allowed ->
   (exists policy, remote = Some policy /\ opens policy (tier_of (rq_kind r))) /\
   rq_kind r <> REQ_PROBE_PUT /\
   (rq_kind r = REQ_CONFIG_PUT -> ordinary malloc_ok (put_text r))).
Proof.
  cbv zeta. unfold authz_permitted, authz_check, check_remote.
  destruct (remote_allows remote (tier_of (rq_kind r))) eqn:E; [|done]. split; [done|].
  intros H. split; [by apply remote_allows_iff|]. split.
  - intros Hk. simpl in H. by rewrite Hk in H.
  - intros Hk. destruct (content_config_put _ _ _ _ Hk H) as [[? _]|?]; done.
Qed.

(** ** What a client is told it may do *)

(** The tiers a client is told it was granted are exactly those whose
    every request the check lets through, so no client is offered what would
    be refused, nor refused what it was offered; with no policy it is told of
    none. *)
Theorem granted_is_what_is_allowed file_read roots c remote a p t :
  authz_granted file_read roots None remote a p = [] /\
  (t ∈ authz_granted file_read roots (Some c) remote a p <->
   t <> TIER_COUNT /\
   forall r, tier_of (rq_kind r) = t ->
     authz_check file_read roots (Some c) remote a p (Some r) = Allowed).
Proof.
  split; [done|]. unfold authz_granted. rewrite list_elem_of_filter. split.
  - intros [Hok Hin]. split; [intros ->; by repeat (apply elem_of_cons in Hin as [[=]|Hin]); apply not_elem_of_nil in Hin|].
    intros r Hr. unfold authz_check, check_remote. rewrite Hr. destruct a; by rewrite Hok.
  - intros [Hne Hall]. split; [|destruct t; unfold every_tier; rewrite !elem_of_cons; tauto].
    assert (exists r, tier_of (rq_kind r) = t) as [r Hr].
    { destruct t; [by exists (Request REQ_HELLO [] [])|by exists (Request REQ_WIFI_SCAN [] [])
                  |by exists (Request REQ_APPLY [] [])|done]. }
    specialize (Hall r Hr). unfold authz_check, check_remote in Hall. rewrite Hr in Hall.
    destruct a; [by destruct (authz_satisfies _ _ _ _)|by destruct (remote_allows _ _)].
Qed.

(** On this machine the check lets a request through exactly when the
    policy opens the request's tier to a principal the peer is: root always,
    a named user whose uid resolves to the peer's, a named group the peer is
    a member of. A name that does not resolve, a peer that could not be
    identified and a request outside the protocol open nothing to anyone. *)
Theorem authz_check_iff file_read roots c remote a p r :
  (authz_check file_read roots (Some c) remote a (Some p) (Some r) = Allowed <->
   may_reach file_read (default authz_roots_default roots) c remote a p (tier_of (rq_kind r))) /\
  allowed (authz_check file_read roots (Some c) remote ARRIVED_LOCAL None (Some r)) = false /\
  (forall raw, tier_of (REQ_OUTSIDE raw) = TIER_ADMIN) /\
  (forall kind name, peer_user_id file_read (passwd_file (default authz_roots_default roots)) name = None ->
     peer_group_id file_read (group_file (default authz_roots_default roots)) name = None ->
     kind = PRINCIPAL_USER \/ kind = PRINCIPAL_GROUP ->
     holds file_read (default authz_roots_default roots) p (Principal kind name) -> pr_uid p = 0).
Proof.
  split; [apply check_reaches|]. split; [done|]. split; [done|].
  intros kind name Hu Hg [->| ->]; inversion 1; congruence.
Qed.

(** Memory that fails while the gate parses opens it: a text the parser gives
    up on for want of memory is let through as a text it could not read would
    be, and the same text, read with memory, holds a hook. *)
Example content_gate_open_without_memory :
  let r := Some (Request REQ_CONFIG_PUT [] hook_text) in
  authz_check_content (fun n => negb (n =? SIZEOF_FILE)) ARRIVED_REMOTE None r = Allowed /\
  allowed (authz_check_content (fun _ => true) ARRIVED_REMOTE None r) = false.
Proof. split; vm_compute; reflexivity. Qed.
