(* ===== verification/Frame.v ===== *)
(** * Frame: one message per line, [c/src/proto/frame.c], and the loop that
    reads a control connection, [connection] of [c/src/daemon/server.c]

    The framer holds the bytes that arrived and are not yet a line, hands a
    line out in place (it is dropped at the next call) and refuses what is
    past the bound. [realloc_ok] is the allocator of the buffer. Pointers the
    framer's callers never pass as [NULL] are not options. *)
From S2P Require Import Prelude Buf Lex.
From stdpp Require Import pretty.
#[local] Open Scope Z_scope.

Definition NCFG_PROTO_MAX_LINE : Z := 1024 * 1024.
Definition PENDING_LIMIT : Z := NCFG_PROTO_MAX_LINE * 2.

Definition shown (n : Z) : list byte := bytes (pretty (u32 n)).

(** [memchr(held, '\n', length)], as a distance. *)
Fixpoint find_newline (l : list byte) : option nat :=
  match l with
  | [] => None
  | b :: l' => if b =b NL then Some 0%nat else S <$> find_newline l'
  end.

(** ** The framer *)

Record framer := Framer { fr_pending : buf; fr_handed : nat; fr_broken : bool }.

Definition framer_init : framer := Framer (buf_init PENDING_LIMIT) 0 false.
Definition framer_free (f : framer) : framer := Framer (buf_free (fr_pending f)) 0 false.

Definition set_broken (f : framer) : framer := Framer (fr_pending f) (fr_handed f) true.

Definition drop_handed (f : framer) : framer :=
  if (fr_handed f =? 0)%nat then f
  else
    let b := fr_pending f in
    Framer (Buf (Some (drop (fr_handed f) (b_bytes b))) (b_capacity b) (b_limit b) (b_failed b))
      0 (fr_broken f).

(** The sentence, or nothing when the call returned 1. *)
Definition refused := option (list byte).

Definition BROKEN_TEXT : list byte :=
  bytes "this connection stopped being the protocol and cannot be read on".

Inductive line_result := LINE (line : list byte) | LINE_INCOMPLETE | LINE_FAILED (err : list byte).

Definition framer_next (f : framer) : line_result * framer :=
  if fr_broken f then (LINE_FAILED BROKEN_TEXT, f)
  else
    let f := drop_handed f in
    let held := b_bytes (fr_pending f) in
    match find_newline held with
    | None => (LINE_INCOMPLETE, f)
    | Some line_length =>
        if NCFG_PROTO_MAX_LINE <? Z.of_nat line_length + 1 then
          (LINE_FAILED (bytes "a message of " ++ shown (Z.of_nat line_length + 1) ++
                        bytes " bytes is past the " ++ shown NCFG_PROTO_MAX_LINE ++ bytes " byte line"),
           set_broken f)
        else (LINE (take line_length held), Framer (fr_pending f) (S line_length) (fr_broken f))
    end.

Definition framer_finish (f : framer) : refused * framer :=
  if fr_broken f then (Some BROKEN_TEXT, f)
  else
    let f := drop_handed f in
    if b_length (fr_pending f) =? 0 then (None, f)
    else (Some (bytes "the connection ended in the middle of a message, " ++
                shown (b_length (fr_pending f)) ++ bytes " bytes in"), set_broken f).

Section Allocator.
Context (realloc_ok : Z -> bool).

Definition framer_add (f : framer) (chunk : list byte) : refused * framer :=
  if fr_broken f then (Some BROKEN_TEXT, f)
  else
    let f := drop_handed f in
    let f := Framer (buf_add realloc_ok (fr_pending f) chunk) (fr_handed f) (fr_broken f) in
    if buf_failed (fr_pending f) then
      (Some (bytes "more than " ++ shown PENDING_LIMIT ++ bytes " bytes are waiting to be framed"),
       set_broken f)
    else
      let held := b_bytes (fr_pending f) in
      if (NCFG_PROTO_MAX_LINE <=? zlen held) && negb (bool_decide (is_Some (find_newline held))) then
        (Some (bytes "a message exceeded " ++ shown NCFG_PROTO_MAX_LINE ++ bytes " bytes without a newline"),
         set_broken f)
      else (None, f).

(** [ncfg_proto_line_finish]: terminate a message, or say why it is not one. *)
Definition line_finish (line : buf) : list byte + buf :=
  if buf_failed line then inl (bytes "the message did not fit the buffer it was built in")
  else
    match find_newline (b_bytes line) with
    | Some at_ =>
        inl (bytes "a message may not contain a newline, and this one does at byte " ++ shown (Z.of_nat at_))
    | None =>
        if NCFG_PROTO_MAX_LINE <? b_length line + 1 then
          inl (bytes "a message of " ++ shown (b_length line + 1) ++ bytes " bytes is past the " ++
               shown NCFG_PROTO_MAX_LINE ++ bytes " byte line")
        else
          let line := buf_add_char realloc_ok line NL in
          if buf_failed line then inl (bytes "the message did not fit the buffer it was built in")
          else inr line
    end.

(** ** A connection

    [serve] is what the loop does with a line: read it as a request and, if
    it is one, answer it. It says whether the connection goes on. *)
Section Connection.
Context {St : Type} (serve : St -> list byte -> bool * St).

(** The [chunk] one [recv] fills. *)
Definition RECV_CHUNK : Z := 4096.

(** What [recv] answered. *)
Inductive received := GOT (chunk : list byte) | GOT_NOTHING | INTERRUPTED | RECV_FAILED.

(** How a connection ended. [WAITING]: it has not, the loop is in [recv]. *)
Inductive ended :=
| WAITING            (* in [recv] *)
| HUNG_UP            (* the peer closed between messages *)
| DONE_SERVING       (* serving a line ended it *)
| RECV_BROKE         (* [recv] failed *)
| REFUSED (err : list byte). (* told [err] and closed *)

(** The inner loop: every whole line that is there. [None]: none is left. *)
Fixpoint drain (fuel : nat) (f : framer) (s : St) : option ended * framer * St :=
  match fuel with
  | O => (None, f, s)
  | S fuel' =>
      match framer_next f with
      | (LINE_INCOMPLETE, f') => (None, f', s)
      | (LINE_FAILED err, f') => (Some (REFUSED err), f', s)
      | (LINE text, f') =>
          match serve s text with
          | (true, s') => drain fuel' f' s'
          | (false, s') => (Some DONE_SERVING, f', s')
          end
      end
  end.

(** Every turn takes at least the newline out of the buffer. *)
Definition drain_fuel (f : framer) : nat := S (length (b_bytes (fr_pending f))).

Fixpoint connection (f : framer) (s : St) (events : list received) : ended * St :=
  match drain (drain_fuel f) f s with
  | (Some e, _, s') => (e, s')
  | (None, f', s') =>
      match events with
      | [] => (WAITING, s')
      | GOT_NOTHING :: _ =>
          match framer_finish f' with
          | (None, _) => (HUNG_UP, s')
          | (Some err, _) => (REFUSED err, s')
          end
      | INTERRUPTED :: rest => connection f' s' rest
      | RECV_FAILED :: _ => (RECV_BROKE, s')
      | GOT chunk :: rest =>
          match framer_add f' chunk with
          | (None, f'') => connection f'' s' rest
          | (Some err, _) => (REFUSED err, s')
          end
      end
  end.
End Connection.
End Allocator.
