(* ===== verification/FrameSpec.v ===== *)
(** * FrameSpec: the lines a connection serves are the lines that were sent *)
From S2P Require Import Prelude Buf Lex Frame.
#[local] Open Scope Z_scope.

(** ** The lines of a stream *)

(** Every line that ended, and what came after the last newline. *)
Fixpoint split_lines (s : list byte) : list (list byte) * list byte :=
  match s with
  | [] => ([], [])
  | b :: s' =>
      let (ls, r) := split_lines s' in
      if b =b NL then ([] :: ls, r)
      else match ls with
           | [] => ([], b :: r)
           | l :: ls' => ((b :: l) :: ls', r)
           end
  end.

Definition no_newline (s : list byte) : Prop := Forall (fun b => (b =b NL) = false) s.

Lemma split_whole s : no_newline s -> split_lines s = ([], s).
Proof. induction 1 as [|b s Hb _ IH]; [done|]. simpl. by rewrite IH, Hb. Qed.

Lemma split_line l s :
  no_newline l -> split_lines (l ++ NL :: s) = (l :: fst (split_lines s), snd (split_lines s)).
Proof.
  induction 1 as [|b l Hb _ IH]; simpl.
  - by destruct (split_lines s).
  - by rewrite IH, Hb.
Qed.

Lemma find_newline_None s : find_newline s = None <-> no_newline s.
Proof.
  unfold no_newline. induction s as [|b s IH]; simpl; [done|]. rewrite Forall_cons, <- IH.
  destruct (b =b NL); [naive_solver|]. destruct (find_newline s); naive_solver.
Qed.

Lemma find_newline_Some s n :
  find_newline s = Some n ->
  no_newline (take n s) /\ s = take n s ++ NL :: drop (S n) s /\ (n < length s)%nat.
Proof.
  unfold no_newline. revert n. induction s as [|b s IH]; intros n H; simpl in H; [done|].
  destruct (byte_eqb_spec b NL) as [->|Hne].
  - injection H as <-. simpl. rewrite drop_0. split_and!; [constructor|done|lia].
  - destruct (find_newline s) as [m|]; [|done]. injection H as <-.
    destruct (IH m eq_refl) as (Hp & Heq & Hlt). simpl. split_and!; [|by f_equal|lia].
    constructor; [by apply byte_eqb_neq|done].
Qed.

Lemma split_rest s : no_newline (snd (split_lines s)).
Proof.
  induction s as [|b s IH]; simpl; [constructor|]. destruct (split_lines s) as [ls r]. simpl in IH.
  destruct (b =b NL) eqn:E; [done|]. destruct ls; [by constructor|done].
Qed.

Lemma split_app a b :
  split_lines (a ++ b) =
  (fst (split_lines a) ++ fst (split_lines (snd (split_lines a) ++ b)),
   snd (split_lines (snd (split_lines a) ++ b))).
Proof.
  induction a as [|x a IH]; simpl; [by destruct (split_lines b)|].
  rewrite IH. destruct (split_lines a) as [ls r]. simpl. destruct (x =b NL) eqn:E.
  - simpl. by destruct (split_lines (r ++ b)).
  - destruct ls as [|l ls]; simpl; [|done]. rewrite E. destruct (split_lines (r ++ b)) as [ls2 r2].
    simpl. by destruct ls2.
Qed.

Lemma split_rest_length s : (length (snd (split_lines s)) <= length s)%nat.
Proof.
  induction s as [|b s IH]; simpl; [lia|]. destruct (split_lines s) as [ls r]. simpl in IH.
  destruct (b =b NL); [simpl; lia|]. destruct ls; simpl; lia.
Qed.

(** After a newline in the bytes that just came, what is left came with them. *)
Lemma split_rest_new r c :
  no_newline r -> find_newline (r ++ c) <> None ->
  (length (snd (split_lines (r ++ c))) <= length c)%nat.
Proof.
  intros Hr Hn. destruct (find_newline c) as [n|] eqn:E.
  - destruct (find_newline_Some _ _ E) as (Hp & Heq & _). rewrite Heq, app_assoc.
    rewrite split_line by by apply Forall_app_2. cbn [snd]. rewrite length_app. simpl.
    pose proof (split_rest_length (drop (S n) c)). lia.
  - exfalso. apply Hn, find_newline_None, Forall_app_2; [done|by apply find_newline_None].
Qed.

(** A run with no newline is at the front of the first line, or of the rest. *)
Lemma split_front y z :
  no_newline y ->
  match split_lines (y ++ z) with
  | ([], r) => (length y <= length r)%nat
  | (l :: _, _) => (length y <= length l)%nat
  end.
Proof.
  intros Hy. rewrite split_app, (split_whole y) by done. cbn [fst snd app].
  destruct (find_newline z) as [n|] eqn:E.
  - destruct (find_newline_Some _ _ E) as (Hp & Heq & _). rewrite Heq, app_assoc.
    rewrite split_line by by apply Forall_app_2. cbn [fst snd]. rewrite length_app. lia.
  - rewrite split_whole by (apply Forall_app_2; [done|by apply find_newline_None]).
    cbn [fst snd]. rewrite length_app. lia.
Qed.

(** ** The framer *)

(** The bytes not yet framed. *)
Definition view (f : framer) : list byte := drop (fr_handed f) (b_bytes (fr_pending f)).

Record framer_ok (f : framer) : Prop := {
  ok_wf : buf_wf (fr_pending f);
  ok_limit : b_limit (fr_pending f) = PENDING_LIMIT;
  ok_not_failed : b_failed (fr_pending f) = false;
  ok_not_broken : fr_broken f = false;
  ok_handed : (fr_handed f <= length (b_bytes (fr_pending f)))%nat
}.

Lemma framer_init_ok : framer_ok framer_init.
Proof. by constructor. Qed.

Lemma drop_handed_ok f :
  framer_ok f ->
  framer_ok (drop_handed f) /\ fr_handed (drop_handed f) = 0%nat /\
  b_bytes (fr_pending (drop_handed f)) = view f.
Proof.
  intros [Hwf Hl Hf Hb Hh]. unfold drop_handed, view. destruct (Nat.eqb_spec (fr_handed f) 0) as [Hz|Hnz].
  { rewrite Hz, drop_0. done. }
  split_and!; [|done|done]. constructor; try done; simpl; [|lia].
  destruct Hwf as (Hlim & Hlen & Hd). unfold buf_wf, b_length, b_bytes in *; simpl in *.
  unfold zlen in *. rewrite length_drop. destruct (b_data (fr_pending f)); simpl in *; lia.
Qed.

(** What [framer_next] answers is the first line of the view, or nothing. *)
Lemma framer_next_spec f :
  framer_ok f ->
  match find_newline (view f) with
  | None => exists f', framer_next f = (LINE_INCOMPLETE, f') /\ framer_ok f' /\ view f' = view f
  | Some n =>
      if NCFG_PROTO_MAX_LINE <? Z.of_nat n + 1
      then exists err f', framer_next f = (LINE_FAILED err, f')
      else exists f', framer_next f = (LINE (take n (view f)), f') /\ framer_ok f' /\
                      view f' = drop (S n) (view f)
  end.
Proof.
  intros Hok. unfold framer_next. rewrite (ok_not_broken _ Hok).
  destruct (drop_handed_ok f Hok) as (Hok' & Hz & Hv). rewrite Hv.
  destruct (find_newline (view f)) as [n|] eqn:E.
  - destruct (_ <? _); [by eexists _, _|]. eexists. split; [done|].
    destruct (find_newline_Some _ _ E) as (_ & _ & Hlt). unfold view at 1. simpl. rewrite Hv.
    split; [|done]. destruct Hok'. constructor; try done. simpl. rewrite Hv. lia.
  - eexists. split; [done|]. split; [done|]. unfold view at 1. by rewrite Hz, drop_0.
Qed.

(** ** What a connection should do *)

(** Endings, without the sentence. *)
Definition ending (e : ended) : ended := match e with REFUSED _ => REFUSED [] | e => e end.

Section Serve.
Context {St : Type} (serve : St -> list byte -> bool * St).

(** The lines, one after the other, until one is too long or ends it. *)
Fixpoint judge (s : St) (ls : list (list byte)) : option ended * St :=
  match ls with
  | [] => (None, s)
  | l :: ls' =>
      if NCFG_PROTO_MAX_LINE <? zlen l + 1 then (Some (REFUSED []), s)
      else match serve s l with
           | (true, s') => judge s' ls'
           | (false, s') => (Some DONE_SERVING, s')
           end
  end.

(** The whole stream at once. *)
Definition reference (s : St) (stream : list byte) : ended * St :=
  let (ls, r) := split_lines stream in
  match judge s ls with
  | (Some e, s') => (e, s')
  | (None, s') => (match r with [] => HUNG_UP | _ => REFUSED [] end, s')
  end.

Lemma judge_app s a b :
  judge s (a ++ b) = match judge s a with
                     | (Some e, s') => (Some e, s')
                     | (None, s') => judge s' b
                     end.
Proof.
  revert s. induction a as [|l a IH]; intros s; [done|]. simpl.
  destruct (_ <? _); [done|]. destruct (serve s l) as [[|] s']; [apply IH|done].
Qed.

Lemma drain_spec fuel f s :
  framer_ok f -> (length (view f) < fuel)%nat ->
  match judge s (fst (split_lines (view f))) with
  | (Some e, s') => exists e' f', drain serve fuel f s = (Some e', f', s') /\ ending e' = e
  | (None, s') => exists f', drain serve fuel f s = (None, f', s') /\ framer_ok f' /\
                             view f' = snd (split_lines (view f))
  end.
Proof.
  revert f s. induction fuel as [|fuel IH]; intros f s Hok Hfuel; [lia|]. cbn [drain].
  pose proof (framer_next_spec f Hok) as Hnext. destruct (find_newline (view f)) as [n|] eqn:E.
  2:{ destruct Hnext as (f' & -> & Hok' & Hv). rewrite split_whole by by apply find_newline_None.
      simpl. by exists f'. }
  destruct (find_newline_Some _ _ E) as (Hp & Heq & Hlt).
  rewrite Heq, split_line by done. cbn [fst snd judge].
  assert (zlen (take n (view f)) = Z.of_nat n) as -> by (unfold zlen; rewrite length_take; lia).
  destruct (NCFG_PROTO_MAX_LINE <? Z.of_nat n + 1).
  { destruct Hnext as (err & f' & ->). by eexists _, _. }
  destruct Hnext as (f' & -> & Hok' & Hv).
  destruct (serve s (take n (view f))) as [[|] s']; [|by eexists _, _].
  rewrite <- Hv. apply IH; [done|]. rewrite Hv, length_drop. lia.
Qed.

Lemma drain_view f s :
  framer_ok f ->
  match judge s (fst (split_lines (view f))) with
  | (Some e, s') => exists e' f', drain serve (drain_fuel f) f s = (Some e', f', s') /\ ending e' = e
  | (None, s') => exists f', drain serve (drain_fuel f) f s = (None, f', s') /\ framer_ok f' /\
                             view f' = snd (split_lines (view f))
  end.
Proof. intros Hok. apply drain_spec; [done|]. unfold drain_fuel, view. rewrite length_drop. lia. Qed.
End Serve.

(** ** A connection, chunk by chunk *)

Section Connection.
Context (realloc_ok : Z -> bool) (Hmem : forall n, realloc_ok n = true).
Context {St : Type} (serve : St -> list byte -> bool * St).

(** Adding what one [recv] gave to a front with no newline in it. *)
Lemma framer_add_spec f c :
  framer_ok f -> zlen (view f) < NCFG_PROTO_MAX_LINE -> zlen c <= RECV_CHUNK ->
  if (NCFG_PROTO_MAX_LINE <=? zlen (view f ++ c)) && negb (bool_decide (is_Some (find_newline (view f ++ c))))
  then exists err f', framer_add realloc_ok f c = (Some err, f')
  else exists f', framer_add realloc_ok f c = (None, f') /\ framer_ok f' /\ view f' = view f ++ c.
Proof.
  intros Hok Hv Hc. unfold framer_add. rewrite (ok_not_broken _ Hok).
  destruct (drop_handed_ok f Hok) as ([Hwf Hl Hf Hb Hh] & Hz & Hbytes).
  set (g := drop_handed f) in *. clearbody g. unfold RECV_CHUNK in Hc.
  assert (b_length (fr_pending g) + zlen c <= b_limit (fr_pending g)) as Hfit.
  { unfold b_length. rewrite Hbytes, Hl. unfold PENDING_LIMIT, NCFG_PROTO_MAX_LINE in *. lia. }
  pose proof (buf_add_succeeds realloc_ok _ c Hmem Hwf Hf Hfit) as Hgood.
  destruct (buf_add_spec realloc_ok (fr_pending g) c Hwf) as (Hwf' & Hl' & Hadd & _).
  { unfold SIZE_MAX. lia. }
  destruct (Hadd Hgood) as (_ & Hnew & _). cbn [fr_pending]. unfold buf_failed. rewrite Hgood, Hnew, Hbytes.
  destruct (_ && _); [by eexists _, _|]. eexists. split; [done|].
  unfold view at 1. cbn [fr_pending fr_handed]. rewrite Hz, drop_0, Hnew, Hbytes. split; [|done].
  constructor; cbn [fr_pending fr_handed fr_broken]; try done; [congruence|lia].
Qed.

Lemma framer_finish_spec f :
  framer_ok f -> fst (framer_finish f) = None <-> view f = [].
Proof.
  intros Hok. unfold framer_finish. rewrite (ok_not_broken _ Hok).
  destruct (drop_handed_ok f Hok) as (_ & _ & Hv). unfold b_length. rewrite Hv.
  destruct (view f) as [|b l]; [done|]. rewrite zlen_cons.
  destruct (Z.eqb_spec (1 + zlen l) 0) as [H|_]; [pose proof (zlen_nonneg l); lia|done].
Qed.

Lemma reference_split s a b :
  reference serve s (a ++ b) =
  match judge serve s (fst (split_lines a)) with
  | (Some e, s') => (e, s')
  | (None, s') => reference serve s' (snd (split_lines a) ++ b)
  end.
Proof.
  unfold reference at 1. rewrite split_app, judge_app.
  destruct (judge serve s (fst (split_lines a))) as [[e|] s']; [done|].
  unfold reference. by destruct (split_lines (snd (split_lines a) ++ b)).
Qed.

(** A front of a whole line's bound is refused whatever comes. *)
Lemma reference_too_long s y z :
  no_newline y -> NCFG_PROTO_MAX_LINE <= zlen y -> reference serve s (y ++ z) = (REFUSED [], s).
Proof.
  intros Hy Hl. pose proof (split_front y z Hy) as Hf. unfold reference.
  destruct (split_lines (y ++ z)) as [[|l ls] r]; simpl.
  - destruct r; [|done]. unfold zlen, NCFG_PROTO_MAX_LINE in Hl. simpl in Hf. lia.
  - rewrite (proj2 (Z.ltb_lt _ _)); [done|]. unfold zlen in *. lia.
Qed.

Lemma connection_reference chunks f s :
  framer_ok f -> zlen (snd (split_lines (view f))) < NCFG_PROTO_MAX_LINE ->
  Forall (fun c => zlen c <= RECV_CHUNK) chunks ->
  let '(e, s') := connection realloc_ok serve f s (map GOT chunks ++ [GOT_NOTHING]) in
  (ending e, s') = reference serve s (view f ++ concat chunks).
Proof.
  intros Hok Hrest Hcs. revert f s Hok Hrest.
  induction Hcs as [|c cs Hc _ IH]; intros f s Hok Hrest; cbn [map app connection concat];
    pose proof (drain_view serve f s Hok) as Hd; rewrite reference_split;
    destruct (judge serve s (fst (split_lines (view f)))) as [[e|] s'].
  - destruct Hd as (e' & f' & -> & He). by rewrite He.
  - destruct Hd as (f' & -> & Hok' & Hv). pose proof (framer_finish_spec f' Hok') as Hfin.
    rewrite app_nil_r, <- Hv. unfold reference. rewrite split_whole by (rewrite Hv; apply split_rest).
    cbn [judge]. destruct (framer_finish f') as [[err|] f'']; simpl in Hfin.
    + destruct (view f') eqn:E; [discriminate (proj2 Hfin eq_refl)|done].
    + by rewrite (proj1 Hfin eq_refl).
  - destruct Hd as (e' & f' & -> & He). by rewrite He.
  - destruct Hd as (f' & -> & Hok' & Hv). rewrite <- Hv in *. pose proof (split_rest (view f)) as Hnl.
    rewrite <- Hv in Hnl. pose proof (framer_add_spec f' c Hok' Hrest Hc) as Hadd. rewrite app_assoc.
    destruct (_ && _) eqn:E.
    + destruct Hadd as (err & f'' & ->). apply andb_true_iff in E as [El En].
      rewrite reference_too_long; [done| |by apply Z.leb_le].
      apply find_newline_None. apply negb_true_iff, bool_decide_eq_false in En.
      by apply eq_None_not_Some.
    + destruct Hadd as (f'' & -> & Hok'' & Hv''). rewrite <- Hv''. apply IH; [done|]. rewrite Hv''.
      destruct (find_newline (view f' ++ c)) eqn:En.
      * pose proof (split_rest_new (view f') c Hnl) as Hle. unfold zlen, RECV_CHUNK, NCFG_PROTO_MAX_LINE in *.
        rewrite En in Hle. specialize (Hle ltac:(done)). lia.
      * rewrite split_whole by by apply find_newline_None. cbn [snd].
        apply andb_false_iff in E as [E|E]; [by apply Z.leb_gt|].
        rewrite bool_decide_eq_false_2 in E; [done|]. by intros [? ?].
Qed.
End Connection.

(** C32: how a control connection is cut into reads makes no difference. The
    lines served are the lines of the stream, whole and in order, up to the
    first that is past the bound or that ends the connection; a stream that
    stops inside a message, or never ends one within the bound, is refused
    and the part of a message is never served. *)
Theorem connection_frames_exactly realloc_ok {St} (serve : St -> list byte -> bool * St) s chunks :
  (forall n, realloc_ok n = true) -> Forall (fun c => zlen c <= RECV_CHUNK) chunks ->
  let '(e, s') := connection realloc_ok serve framer_init s (map GOT chunks ++ [GOT_NOTHING]) in
  (ending e, s') = reference serve s (concat chunks).
Proof.
  intros Hmem Hcs. by apply (connection_reference realloc_ok Hmem serve chunks framer_init s framer_init_ok).
Qed.

Definition keep_line (s : list (list byte)) (l : list byte) : bool * list (list byte) := (true, s ++ [l]).

Lemma connection_frames_exactly_witness :
  let chunks := [bytes "{a"; bytes "}" ++ [NL] ++ bytes "{b}" ++ [NL]; [NL] ++ bytes "{"] in
  let '(e, s) := connection (fun _ => true) keep_line framer_init [] (map GOT chunks ++ [GOT_NOTHING]) in
  ending e = REFUSED [] /\ s = [bytes "{a}"; bytes "{b}"; []].
Proof.
  pose proof (connection_frames_exactly (fun _ => true) keep_line []
    [bytes "{a"; bytes "}" ++ [NL] ++ bytes "{b}" ++ [NL]; [NL] ++ bytes "{"] ltac:(reflexivity)) as H.
  cbv zeta. destruct (connection _ _ _ _ _) as [e s].
  assert ((ending e, s) = (REFUSED [], [bytes "{a}"; bytes "{b}"; []])) as Heq.
  { refine (eq_trans (H _) _); [by repeat constructor|vm_compute; reflexivity]. }
  by injection Heq as -> ->.
Defined.

(** ** Framing and reading back *)

Lemma line_finish_ok realloc_ok line line' :
  buf_wf line -> line_finish realloc_ok line = inr line' ->
  no_newline (b_bytes line) /\ zlen (b_bytes line) + 1 <= NCFG_PROTO_MAX_LINE /\
  b_bytes line' = b_bytes line ++ [NL].
Proof.
  intros Hwf. unfold line_finish. destruct (buf_failed line) eqn:Hf; [done|].
  destruct (find_newline (b_bytes line)) eqn:En; [done|].
  destruct (Z.ltb_spec NCFG_PROTO_MAX_LINE (b_length line + 1)) as [|Hle]; [done|].
  destruct (buf_failed (buf_add_char realloc_ok line NL)) eqn:Hf'; [done|]. intros [= <-].
  split; [by apply find_newline_None|]. split; [done|].
  destruct (buf_add_spec realloc_ok line [NL] Hwf) as (_ & _ & Hadd & _); [done|].
  by destruct (Hadd Hf') as (_ & ? & _).
Qed.

Lemma judge_all {St} (step : St -> list byte -> St) s ms :
  Forall (fun m => zlen m + 1 <= NCFG_PROTO_MAX_LINE) ms ->
  judge (fun s l => (true, step s l)) s ms = (None, foldl step s ms).
Proof.
  intros H. revert s. induction H as [|m ms Hm _ IH]; intros s; [done|]. simpl.
  rewrite (proj2 (Z.ltb_ge _ _)) by done. apply IH.
Qed.

Lemma split_framed ms :
  Forall no_newline ms -> split_lines (concat (map (fun m => m ++ [NL]) ms)) = (ms, []).
Proof.
  induction 1 as [|m ms Hm _ IH]; [done|]. simpl. rewrite <- app_assoc. simpl.
  by rewrite split_line, IH.
Qed.

(** What one side frames, the other reads back: any sequence of messages
    terminated by [line_finish], sent back to back and received in any
    pieces, is served message by message, each exactly as it was built, and
    the connection then ends cleanly. *)
Theorem frame_roundtrip realloc_ok {St} (step : St -> list byte -> St) s lines framed chunks :
  (forall n, realloc_ok n = true) -> Forall buf_wf lines ->
  map (line_finish realloc_ok) lines = map inr framed ->
  Forall (fun c => zlen c <= RECV_CHUNK) chunks -> concat chunks = concat (map b_bytes framed) ->
  connection realloc_ok (fun s l => (true, step s l)) framer_init s (map GOT chunks ++ [GOT_NOTHING]) =
  (HUNG_UP, foldl step s (map b_bytes lines)).
Proof.
  intros Hmem Hwf Hfin Hcs Hcat.
  assert (Forall no_newline (map b_bytes lines) /\
          Forall (fun m => zlen m + 1 <= NCFG_PROTO_MAX_LINE) (map b_bytes lines) /\
          map b_bytes framed = map (fun m => m ++ [NL]) (map b_bytes lines)) as (Hnl & Hlen & Hbytes).
  { clear Hcat Hcs. revert framed Hfin. induction Hwf as [|l lines Hl _ IH]; intros [|f framed] Hfin; try done.
    simpl in Hfin. injection Hfin as Hone Hfin. destruct (IH _ Hfin) as (H1 & H2 & H3).
    destruct (line_finish_ok _ _ _ Hl Hone) as (H4 & H5 & H6). simpl. rewrite H3, H6.
    split_and!; [by constructor|by constructor|done]. }
  pose proof (connection_reference realloc_ok Hmem (fun s l => (true, step s l)) chunks framer_init s
    framer_init_ok ltac:(done) Hcs) as H.
  change (view framer_init) with (@nil byte) in H. cbn [app] in H.
  rewrite Hcat, Hbytes in H. unfold reference in H. rewrite split_framed, judge_all in H by done.
  destruct (connection _ _ _ _ _) as [e s']. injection H as He ->. by destruct e.
Qed.

Lemma frame_roundtrip_witness :
  connection (fun _ => true) (fun s l => (true, s ++ [l])) framer_init []
    (map GOT [bytes "{1}" ++ [NL] ++ bytes "{"; bytes "2}" ++ [NL]] ++ [GOT_NOTHING]) =
  (HUNG_UP, [bytes "{1}"; bytes "{2}"]).
Proof.
  pose (mk := fun m => buf_add (fun _ => true) (buf_init NCFG_PROTO_MAX_LINE) m).
  pose (fin := fun m => buf_add_char (fun _ => true) (mk m) NL).
  apply (frame_roundtrip (fun _ => true) (fun s l => s ++ [l]) [] [mk (bytes "{1}"); mk (bytes "{2}")]
    [fin (bytes "{1}"); fin (bytes "{2}")]); [done| |reflexivity| |reflexivity].
  - repeat constructor; vm_compute; congruence.
  - repeat constructor; vm_compute; congruence.
Defined.
