(* ===== verification/Wire.v ===== *)
(** * Wire: the netlink framing of [c/src/sys/wire.c]

    Headers and family structs to bytes and back, the walks over the messages
    of a read and the attributes of a message, the readers of one attribute
    and the builder of a request. Nothing here does I/O; what is decoded is
    hostile.

    Integers are written and read as the host stores them, so the byte order
    is a parameter, [Host]. A pointer into a buffer is the bytes from there on,
    and a walk that was stopped is an empty one. [realloc_ok] is the allocator
    of the buffers. *)
From S2P Require Import Prelude Buf Lex.
From stdpp Require Import pretty.
#[local] Open Scope Z_scope.

(** The machine's byte order. *)
Class Host := { big_endian : bool }.

(** ** Integers in memory *)

Definition byte_of (z : Z) : byte := default x00 (Byte.of_N (Z.to_N (u8 z))).

(** The [n] bytes of [z], least significant first. *)
Fixpoint le_bytes (n : nat) (z : Z) : list byte :=
  match n with
  | O => []
  | S n' => byte_of z :: le_bytes n' (Z.shiftr z 8)
  end.

Fixpoint le_value (l : list byte) : Z :=
  match l with
  | [] => 0
  | b :: l' => bz b + Z.shiftl (le_value l') 8
  end.

(** The two's complement reading of 32 bits. *)
Definition s32 (z : Z) : Z := if z <? 2 ^ 31 then z else z - 2 ^ 32.

Definition NLMSG_HDR_LEN : Z := 16.
Definition RTATTR_HDR_LEN : Z := 4.
Definition IFINFO_LEN : Z := 16.
Definition IFADDR_LEN : Z := 8.
Definition RTMSG_LEN : Z := 12.
Definition NLA_F_NESTED : Z := 2 ^ 15.
Definition NLA_TYPE : Z := 0x3fff.

(** [ncfg_wire_align4]. *)
Definition align4 (length : Z) : Z :=
  if SIZE_MAX - 3 <? length then length else Z.land (length + 3) (Z.lxor SIZE_MAX 3).

(** ** Data *)

Record header := Header { h_len : Z; h_kind : Z; h_flags : Z; h_seq : Z; h_pid : Z }.
Record message := Message { m_header : header; m_payload : list byte }.
Record attr := Attr { at_kind : Z; at_value : list byte }.
Record ifinfo := Ifinfo { ii_family : Z; ii_kind : Z; ii_index : Z; ii_flags : Z; ii_change : Z }.
Record ifaddr := Ifaddr { ia_family : Z; ia_prefix_len : Z; ia_flags : Z; ia_scope : Z; ia_index : Z }.
Record rtmsg := Rtmsg {
  rt_family : Z; rt_dst_len : Z; rt_src_len : Z; rt_tos : Z;
  rt_table : Z; rt_protocol : Z; rt_scope : Z; rt_kind : Z; rt_flags : Z
}.

(** [ncfg_wire_ip_t]: [Some] family and the bytes of it. *)
Inductive ip := IP_NONE | IP_V4 (octets : list byte) | IP_V6 (octets : list byte).

(** [ncfg_wire_step_t], with what the walk puts out. *)
Inductive step (A : Type) := WIRE_OK (out : A) | WIRE_END | WIRE_BAD (err : list byte).
Arguments WIRE_OK {A} out.
Arguments WIRE_END {A}.
Arguments WIRE_BAD {A} err.

Definition num (z : Z) : list byte := bytes (pretty z).

Section Wire.
Context `{host : Host} (realloc_ok : Z -> bool).

Definition native (n : nat) (z : Z) : list byte :=
  if big_endian then rev (le_bytes n z) else le_bytes n z.
Definition native_value (l : list byte) : Z := le_value (if big_endian then rev l else l).

Definition read_u16 (raw : list byte) : Z := native_value (take 2 raw).
Definition read_u32 (raw : list byte) : Z := native_value (take 4 raw).
Definition read_u8 (raw : list byte) (at_ : nat) : Z := bz (nth at_ raw x00).

Definition put_u16 (out : buf) (value : Z) : buf := buf_add realloc_ok out (native 2 value).
Definition put_u32 (out : buf) (value : Z) : buf := buf_add realloc_ok out (native 4 value).

Definition pad_to_align (out : buf) : buf :=
  if b_failed out then out
  else
    let padding := align4 (b_length out) - b_length out in
    if padding =? 0 then out else buf_add realloc_ok out (repeat x00 (Z.to_nat padding)).

(** ** The fixed structs *)

Definition header_decode (raw : list byte) : list byte + header :=
  if zlen raw <? NLMSG_HDR_LEN then
    inl (bytes "a netlink header needs " ++ num NLMSG_HDR_LEN ++
         bytes " bytes and this message has " ++ num (zlen raw))
  else inr (Header (read_u32 raw) (read_u16 (drop 4 raw)) (read_u16 (drop 6 raw))
                   (read_u32 (drop 8 raw)) (read_u32 (drop 12 raw))).

Definition header_encode (h : header) (out : buf) : buf :=
  let out := put_u32 out (h_len h) in
  let out := put_u16 out (h_kind h) in
  let out := put_u16 out (h_flags h) in
  let out := put_u32 out (h_seq h) in
  put_u32 out (h_pid h).

Definition ifinfo_decode (raw : list byte) : list byte + ifinfo :=
  if zlen raw <? IFINFO_LEN then
    inl (bytes "a link message carries " ++ num IFINFO_LEN ++
         bytes " bytes of ifinfomsg and this one has " ++ num (zlen raw))
  else inr (Ifinfo (read_u8 raw 0) (read_u16 (drop 2 raw)) (s32 (read_u32 (drop 4 raw)))
                   (read_u32 (drop 8 raw)) (read_u32 (drop 12 raw))).

Definition ifinfo_encode (i : ifinfo) (out : buf) : buf :=
  let out := buf_add realloc_ok out [byte_of (ii_family i)] in
  let out := buf_add_char realloc_ok out x00 in
  let out := put_u16 out (ii_kind i) in
  let out := put_u32 out (u32 (ii_index i)) in
  let out := put_u32 out (ii_flags i) in
  put_u32 out (ii_change i).

Definition ifaddr_decode (raw : list byte) : list byte + ifaddr :=
  if zlen raw <? IFADDR_LEN then
    inl (bytes "an address message carries " ++ num IFADDR_LEN ++
         bytes " bytes of ifaddrmsg and this one has " ++ num (zlen raw))
  else inr (Ifaddr (read_u8 raw 0) (read_u8 raw 1) (read_u8 raw 2) (read_u8 raw 3)
                   (read_u32 (drop 4 raw))).

Definition ifaddr_encode (a : ifaddr) (out : buf) : buf :=
  let head := [byte_of (ia_family a); byte_of (ia_prefix_len a);
               byte_of (ia_flags a); byte_of (ia_scope a)] in
  put_u32 (buf_add realloc_ok out head) (ia_index a).

Definition rtmsg_decode (raw : list byte) : list byte + rtmsg :=
  if zlen raw <? RTMSG_LEN then
    inl (bytes "a route message carries " ++ num RTMSG_LEN ++
         bytes " bytes of rtmsg and this one has " ++ num (zlen raw))
  else inr (Rtmsg (read_u8 raw 0) (read_u8 raw 1) (read_u8 raw 2) (read_u8 raw 3)
                  (read_u8 raw 4) (read_u8 raw 5) (read_u8 raw 6) (read_u8 raw 7)
                  (read_u32 (drop 8 raw))).

Definition rtmsg_encode (r : rtmsg) (out : buf) : buf :=
  let head := [byte_of (rt_family r); byte_of (rt_dst_len r); byte_of (rt_src_len r);
               byte_of (rt_tos r); byte_of (rt_table r); byte_of (rt_protocol r);
               byte_of (rt_scope r); byte_of (rt_kind r)] in
  put_u32 (buf_add realloc_ok out head) (rt_flags r).

(** ** The walks

    Each answers a step and the walk that is left. *)

Definition messages_start (raw : list byte) : list byte := raw.
Definition attrs_start (raw : list byte) : list byte := raw.

Definition messages_next (walk : list byte) : step message * list byte :=
  let remaining := zlen walk in
  if remaining =? 0 then (WIRE_END, walk)
  else if remaining <? NLMSG_HDR_LEN then
    (WIRE_BAD (bytes "a netlink buffer ends " ++ num remaining ++ bytes " bytes into a " ++
               num NLMSG_HDR_LEN ++ bytes "-byte header"), [])
  else
    match header_decode walk with
    | inl err => (WIRE_BAD err, [])
    | inr h =>
        let len := h_len h in
        if len <? NLMSG_HDR_LEN then
          (WIRE_BAD (bytes "a netlink message says it is " ++ num len ++
             bytes " bytes long, shorter than the " ++ num NLMSG_HDR_LEN ++
             bytes "-byte header it sits in"), [])
        else if remaining <? len then
          (WIRE_BAD (bytes "a netlink message claims " ++ num len ++
             bytes " bytes and the buffer holds " ++ num remaining), [])
        else
          let advance := Z.min (align4 len) remaining in
          (WIRE_OK (Message h (take (Z.to_nat (len - NLMSG_HDR_LEN)) (drop (Z.to_nat NLMSG_HDR_LEN) walk))),
           drop (Z.to_nat advance) walk)
    end.

Definition message_attrs (m : message) (body_length : Z) : list byte + list byte :=
  let skip := align4 body_length in
  if zlen (m_payload m) <? skip then
    inl (bytes "a message payload of " ++ num (zlen (m_payload m)) ++ bytes " bytes cannot hold a " ++
         num body_length ++ bytes "-byte family struct")
  else inr (attrs_start (drop (Z.to_nat skip) (m_payload m))).

Definition attrs_next (walk : list byte) : step attr * list byte :=
  let remaining := zlen walk in
  if remaining =? 0 then (WIRE_END, walk)
  else if remaining <? RTATTR_HDR_LEN then
    (WIRE_BAD (bytes "an attribute area ends " ++ num remaining ++ bytes " bytes into a " ++
               num RTATTR_HDR_LEN ++ bytes "-byte header"), [])
  else
    let len := read_u16 walk in
    let kind := read_u16 (drop 2 walk) in
    if len <? RTATTR_HDR_LEN then
      (WIRE_BAD (bytes "an attribute says it is " ++ num len ++ bytes " bytes long, shorter than the " ++
         num RTATTR_HDR_LEN ++ bytes "-byte header it sits in"), [])
    else if remaining <? len then
      (WIRE_BAD (bytes "an attribute of type " ++ num (Z.land kind NLA_TYPE) ++ bytes " claims " ++
         num len ++ bytes " bytes and the message holds " ++ num remaining), [])
    else
      let advance := Z.min (align4 len) remaining in
      (WIRE_OK (Attr (Z.land kind NLA_TYPE)
                  (take (Z.to_nat (len - RTATTR_HDR_LEN)) (drop (Z.to_nat RTATTR_HDR_LEN) walk))),
       drop (Z.to_nat advance) walk).

(** [ncfg_wire_attrs_find]; a turn takes four bytes, so the length is fuel. *)
Fixpoint attrs_find_loop (fuel : nat) (walk : list byte) (kind : Z) : step attr :=
  match fuel with
  | O => WIRE_END
  | S fuel' =>
      match attrs_next walk with
      | (WIRE_OK a, walk') => if at_kind a =? kind then WIRE_OK a else attrs_find_loop fuel' walk' kind
      | (s, _) => s
      end
  end.
Definition attrs_find (area : list byte) (kind : Z) : step attr :=
  attrs_find_loop (S (length area)) area kind.

(** The loop every reader of a dump writes: all the messages, and the refusal
    that ended the walk if one did. *)
Fixpoint all_steps {A} (next : list byte -> step A * list byte) (fuel : nat) (walk : list byte)
  : option (list A * option (list byte)) :=
  match fuel with
  | O => None
  | S fuel' =>
      match next walk with
      | (WIRE_END, _) => Some ([], None)
      | (WIRE_BAD err, _) => Some ([], Some err)
      | (WIRE_OK a, walk') =>
          match all_steps next fuel' walk' with
          | Some (l, e) => Some (a :: l, e)
          | None => None
          end
      end
  end.

(** ** One attribute *)

Definition attr_u8 (a : attr) : list byte + Z :=
  if zlen (at_value a) <? 1 then inl (bytes "an attribute with no bytes is not a number")
  else inr (read_u8 (at_value a) 0).

Definition attr_u16 (a : attr) : list byte + Z :=
  if zlen (at_value a) <? 2 then
    inl (bytes "a 16-bit attribute needs 2 bytes and this one has " ++ num (zlen (at_value a)))
  else inr (read_u16 (at_value a)).

Definition attr_u32 (a : attr) : list byte + Z :=
  if zlen (at_value a) <? 4 then
    inl (bytes "a 32-bit attribute needs 4 bytes and this one has " ++ num (zlen (at_value a)))
  else inr (read_u32 (at_value a)).

Definition attr_ip (a : attr) : list byte + ip :=
  if zlen (at_value a) =? 4 then inr (IP_V4 (at_value a))
  else if zlen (at_value a) =? 16 then inr (IP_V6 (at_value a))
  else inl (bytes "an address is 4 or 16 bytes and this attribute has " ++ num (zlen (at_value a))).

Definition hex_low (n : Z) : byte := nth (Z.to_nat n) (bytes "0123456789abcdef") x00.

(** [ncfg_wire_attr_mac] into a buffer of at least 18 bytes. *)
Definition attr_mac (a : attr) : list byte + list byte :=
  if negb (zlen (at_value a) =? 6) then
    inl (bytes "a MAC address is 6 bytes and this attribute has " ++ num (zlen (at_value a)))
  else
    inr (concat (imap (fun at_ b =>
      (if (at_ =? 0)%nat then [] else bytes ":") ++
      [hex_low (Z.shiftr (bz b) 4); hex_low (Z.land (bz b) 0x0f)]) (at_value a))).

(** [is_utf8] of a name read off netlink; every turn takes a byte, so the
    length is fuel. *)
Definition utf8_lead (lead : byte) : option (nat * Z) :=
  if byte_between xc2 xdf lead then Some (1%nat, Z.land (bz lead) 0x1f)
  else if byte_between xe0 xef lead then Some (2%nat, Z.land (bz lead) 0x0f)
  else if byte_between xf0 xf4 lead then Some (3%nat, Z.land (bz lead) 0x07)
  else None.

Fixpoint is_utf8_loop (fuel : nat) (l : list byte) : bool :=
  match fuel, l with
  | S fuel', lead :: tail =>
      if bz lead <? 0x80 then is_utf8_loop fuel' tail
      else
        match utf8_lead lead with
        | None => false
        | Some (extra, bits) =>
            if (length l <=? extra)%nat then false
            else
              let more := take extra tail in
              if negb (forallb (fun next => Z.land (bz next) 0xc0 =? 0x80) more) then false
              else
                let code := foldl (fun code next => Z.lor (Z.shiftl code 6) (Z.land (bz next) 0x3f))
                              bits more in
                if (extra =? 2)%nat && (code <? 0x800) then false
                else if (extra =? 3)%nat && (code <? 0x10000) then false
                else if (0x10ffff <? code) || ((0xd800 <=? code) && (code <=? 0xdfff)) then false
                else is_utf8_loop fuel' (drop extra tail)
        end
  | _, [] => true
  | O, _ :: _ => false
  end.
Definition is_utf8 (l : list byte) : bool := is_utf8_loop (length l) l.

(** [ncfg_wire_attr_string] into a buffer of [out_size] bytes. *)
Fixpoint to_nul (l : list byte) : list byte :=
  match l with
  | b :: l' => if b =b x00 then [] else b :: to_nul l'
  | [] => []
  end.

Definition attr_string (a : attr) (out_size : Z) : list byte + list byte :=
  if out_size =? 0 then inl (bytes "a string attribute needs somewhere to go")
  else
    let text := to_nul (at_value a) in
    if out_size <=? zlen text then
      inl (bytes "a " ++ num (zlen text) ++ bytes "-byte string attribute does not fit a " ++
           num (out_size - 1) ++ bytes "-byte buffer")
    else if negb (is_utf8 text) then inl (bytes "a string attribute that is not valid UTF-8")
    else inr text.

(** ** Building *)

Definition attr_put (out : buf) (kind : Z) (value : list byte) : buf :=
  if b_failed out then out
  else if 0xffff - RTATTR_HDR_LEN <? zlen value then set_failed out
  else
    let out := put_u16 out (u16 (RTATTR_HDR_LEN + zlen value)) in
    let out := put_u16 out kind in
    let out := match value with [] => out | _ => buf_add realloc_ok out value end in
    pad_to_align out.

Definition attr_put_u8 (out : buf) (kind value : Z) : buf := attr_put out kind [byte_of value].
Definition attr_put_u32 (out : buf) (kind value : Z) : buf := attr_put out kind (native 4 value).

(** [value] is a C string: no NUL in it. *)
Definition attr_put_str (out : buf) (kind : Z) (value : list byte) : buf :=
  if b_failed out then out else attr_put out kind (value ++ [x00]).

Definition attr_put_ip (out : buf) (kind : Z) (value : ip) : buf :=
  if b_failed out then out
  else match value with
       | IP_NONE => set_failed out
       | IP_V4 octets | IP_V6 octets => attr_put out kind octets
       end.

Definition attr_put_nested (out : buf) (kind : Z) (nest : buf) : buf :=
  if b_failed out then out
  else if buf_failed nest then set_failed out
  else attr_put out (Z.lor kind NLA_F_NESTED) (b_bytes nest).

(** [ncfg_wire_build_request]; a [NULL] body or attribute area is [None]. *)
Definition build_request (out : buf) (kind flags seq : Z) (body attrs : option buf)
  : list byte + buf :=
  let bad b := match b with Some b => buf_failed b | None => false end in
  let held b := match b with Some b => b_bytes b | None => [] end in
  if bad body then inl (bytes "the body of this request was never built")
  else if bad attrs then inl (bytes "the attributes of this request were never built")
  else
    let body_length := zlen (held body) in
    let attrs_length := zlen (held attrs) in
    let total := u64 (NLMSG_HDR_LEN + align4 body_length + attrs_length) in
    if (0xffffffff <? total) || (total <? attrs_length) then
      inl (bytes "a netlink message length is 32 bits and this request needs " ++ num total ++ bytes " bytes")
    else
      let out := header_encode (Header (u32 total) kind flags seq 0) out in
      let out := if body_length =? 0 then out
                 else pad_to_align (buf_add realloc_ok out (held body)) in
      let out := if attrs_length =? 0 then out else buf_add realloc_ok out (held attrs) in
      if buf_failed out then inl (bytes "a " ++ num total ++ bytes "-byte request did not fit its buffer")
      else inr out.

Definition INT32_MIN : Z := - 2 ^ 31.

Definition error_code (payload : list byte) : list byte + Z :=
  if zlen payload <? 4 then
    inl (bytes "an NLMSG_ERROR payload carries 4 bytes of errno and this one has " ++ num (zlen payload))
  else
    let code := s32 (read_u32 payload) in
    if code =? INT32_MIN then
      inl (bytes "an errno with no positive counterpart is a malformed payload, not a code")
    else inr (- code).

(** [ncfg_wire_request_parts]: kind, flags and the body with the payload added. *)
Definition request_parts (m : buf) (what : list byte) (body : buf) : list byte + (Z * Z * buf) :=
  match messages_next (messages_start (b_bytes m)) with
  | (WIRE_OK parsed, _) =>
      let body := buf_add realloc_ok body (m_payload parsed) in
      if buf_failed body then inl (bytes "no room for a " ++ what ++ bytes " request")
      else inr (h_kind (m_header parsed), h_flags (m_header parsed), body)
  | _ => inl (bytes "a " ++ what ++ bytes " request this port built is not a netlink message")
  end.
End Wire.
