(* ===== verification/WireSpec.v ===== *)
(** * WireSpec: what is built is what is read, and every walk ends *)
From S2P Require Import Prelude Buf Lex LexFacts LexSpec Wire.
#[local] Open Scope Z_scope.

(** ** Integers *)

Lemma bz_byte_of z : bz (byte_of z) = u8 z.
Proof.
  unfold byte_of, bz. assert (0 <= u8 z < 256) as Hr by (unfold u8; apply Z.mod_pos_bound; lia).
  destruct (Byte.of_N (Z.to_N (u8 z))) as [b|] eqn:E.
  - apply Byte.to_of_N in E. simpl. rewrite E. lia.
  - apply Byte.of_N_None_iff in E. lia.
Qed.

Lemma le_value_bytes n z : le_value (le_bytes n z) = z mod 2 ^ (8 * Z.of_nat n).
Proof.
  revert z. induction n as [|n IH]; intros z; simpl; [by rewrite Z.mod_1_r|].
  rewrite IH, bz_byte_of, Z.shiftl_mul_pow2, Z.shiftr_div_pow2 by lia. unfold u8.
  replace (8 * Z.of_nat (S n)) with (8 + 8 * Z.of_nat n) by lia.
  rewrite Z.pow_add_r, Z.rem_mul_r by lia. lia.
Qed.

Lemma length_le_bytes n z : length (le_bytes n z) = n.
Proof. revert z. induction n as [|n IH]; intros z; simpl; [done|]. by rewrite IH. Qed.

(** [align4] rounds up to a multiple of four, which the mask does. *)
Definition pad4 (n : Z) : Z := (- n) mod 4.

Lemma pad4_range n : 0 <= pad4 n < 4.
Proof. unfold pad4. apply Z.mod_pos_bound. lia. Qed.

Lemma align4_eq n : 0 <= n <= SIZE_MAX - 3 -> align4 n = n + pad4 n.
Proof.
  intros Hn. unfold align4. rewrite (proj2 (Z.ltb_ge _ _)) by lia.
  assert (Z.land (n + 3) (Z.lxor SIZE_MAX 3) = Z.ldiff (n + 3) (Z.ones 2)) as ->.
  { change SIZE_MAX with (Z.ones 64). change 3 with (Z.ones 2) at 2. apply Z.bits_inj'. intros i Hi.
    rewrite Z.land_spec, Z.ldiff_spec, Z.lxor_spec. destruct (Z.ltb_spec i 64).
    - rewrite (Z.ones_spec_low 64) by lia. done.
    - rewrite (Z.bits_above_log2 (n + 3)); [done|lia|].
      apply Z.log2_lt_pow2; [lia|]. apply Z.lt_le_trans with (2 ^ 64); [unfold SIZE_MAX in Hn; lia|].
      apply Z.pow_le_mono_r; lia. }
  rewrite Z.ldiff_ones_r, Z.shiftl_mul_pow2, Z.shiftr_div_pow2 by lia. unfold pad4. zdiv.
Qed.

Lemma align4_aligned n : 0 <= n <= SIZE_MAX - 3 -> align4 n mod 4 = 0.
Proof. intros Hn. rewrite align4_eq by done. unfold pad4. zdiv. Qed.

(** ** Appending *)

(** [appends b b' l]: if [b'] is sound, it is [b] with [l] added. *)
Definition appends (b b' : buf) (l : list byte) : Prop :=
  buf_wf b -> buf_wf b' /\ (b_failed b' = false -> b_failed b = false /\ b_bytes b' = b_bytes b ++ l).

Lemma appends_nil b : appends b b [].
Proof. intros Hwf. split; [done|]. intros Hf. by rewrite app_nil_r. Qed.

Lemma appends_trans b b1 b2 l k : appends b b1 l -> appends b1 b2 k -> appends b b2 (l ++ k).
Proof.
  intros H1 H2 Hwf. destruct (H1 Hwf) as [Hwf1 Ha]. destruct (H2 Hwf1) as [Hwf2 Hb]. split; [done|].
  intros Hf. destruct (Hb Hf) as [Hf1 ->]. destruct (Ha Hf1) as [Hf0 ->]. by rewrite app_assoc.
Qed.

Lemma appends_add realloc_ok b l : zlen l <= SIZE_MAX -> appends b (buf_add realloc_ok b l) l.
Proof.
  intros Hl Hwf. destruct (buf_add_spec realloc_ok b l Hwf Hl) as (Hwf' & _ & Hok & _).
  split; [done|]. intros Hf. destruct (Hok Hf) as (? & ? & _). done.
Qed.

Lemma appends_value realloc_ok b v :
  zlen v <= SIZE_MAX -> appends b (match v with [] => b | _ => buf_add realloc_ok b v end) v.
Proof. destruct v; [intros _; apply appends_nil|apply appends_add]. Qed.

Section Wire.
Context `{host : Host} (realloc_ok : Z -> bool).

Lemma length_native n z : length (native n z) = n.
Proof. unfold native. destruct big_endian; rewrite ?length_rev; apply length_le_bytes. Qed.

Lemma native_value_native n z : native_value (native n z) = z mod 2 ^ (8 * Z.of_nat n).
Proof. unfold native_value, native. destruct big_endian; rewrite ?rev_involutive; apply le_value_bytes. Qed.

Lemma read_u16_native z rest : read_u16 (native 2 z ++ rest) = u16 z.
Proof. unfold read_u16. rewrite take_app_length' by by rewrite length_native. apply native_value_native. Qed.

Lemma read_u32_native z rest : read_u32 (native 4 z ++ rest) = u32 z.
Proof. unfold read_u32. rewrite take_app_length' by by rewrite length_native. apply native_value_native. Qed.

Lemma drop_native n z rest : drop n (native n z ++ rest) = rest.
Proof. by rewrite drop_app_length' by by rewrite length_native. Qed.

Lemma zlen_native n z : zlen (native n z) = Z.of_nat n.
Proof. unfold zlen. by rewrite length_native. Qed.

Lemma appends_native n b z : (n <= 8)%nat -> appends b (buf_add realloc_ok b (native n z)) (native n z).
Proof. intros Hn. apply appends_add. rewrite zlen_native. unfold SIZE_MAX. lia. Qed.

Lemma add_failed b l : b_failed b = true -> b_failed (buf_add realloc_ok b l) = true.
Proof. intros Hf. destruct l; [done|]. unfold buf_add, reserve. by rewrite Hf. Qed.

Lemma pad_failed b : b_failed b = true -> b_failed (pad_to_align realloc_ok b) = true.
Proof. intros Hf. unfold pad_to_align. by rewrite Hf. Qed.

Definition zeros (n : Z) : list byte := repeat x00 (Z.to_nat n).

Lemma zlen_zeros n : 0 <= n -> zlen (zeros n) = n.
Proof. intros Hn. unfold zlen, zeros. rewrite repeat_length. lia. Qed.

Lemma buf_wf_length b : buf_wf b -> 0 <= b_length b < 2 ^ 62.
Proof. intros (Hl & Hb & _). unfold b_length in *. pose proof (zlen_nonneg (b_bytes b)). lia. Qed.

Lemma appends_pad b : appends b (pad_to_align realloc_ok b) (zeros (pad4 (b_length b))).
Proof.
  intros Hwf. pose proof (buf_wf_length b Hwf) as Hlen. pose proof (pad4_range (b_length b)) as Hp.
  unfold pad_to_align. destruct (b_failed b) eqn:Hf; [split; [done|congruence]|].
  rewrite align4_eq by (unfold SIZE_MAX; lia).
  replace (b_length b + pad4 (b_length b) - b_length b) with (pad4 (b_length b)) by lia.
  destruct (Z.eqb_spec (pad4 (b_length b)) 0) as [->|Hnz].
  { split; [done|]. intros _. split; [done|]. by rewrite app_nil_r. }
  fold (zeros (pad4 (b_length b))).
  destruct (appends_add realloc_ok b (zeros (pad4 (b_length b)))) as [Hwf' Happ]; [|done|].
  { rewrite zlen_zeros by lia. unfold SIZE_MAX. lia. }
  split; [done|]. intros Hok. by destruct (Happ Hok).
Qed.

(** ** The fixed structs *)

Definition header_wf (h : header) : Prop :=
  0 <= h_len h < 2 ^ 32 /\ 0 <= h_kind h < 2 ^ 16 /\ 0 <= h_flags h < 2 ^ 16 /\
  0 <= h_seq h < 2 ^ 32 /\ 0 <= h_pid h < 2 ^ 32.

Definition header_bytes (h : header) : list byte :=
  native 4 (h_len h) ++ native 2 (h_kind h) ++ native 2 (h_flags h) ++
  native 4 (h_seq h) ++ native 4 (h_pid h).

Lemma appends_header h b : appends b (header_encode realloc_ok h b) (header_bytes h).
Proof. unfold header_encode, header_bytes, put_u32, put_u16. repeat (eapply appends_trans; [apply appends_native; lia|]). apply appends_native. lia. Qed.

Lemma zlen_header h : zlen (header_bytes h) = 16.
Proof. unfold header_bytes. by rewrite !zlen_app, !zlen_native. Qed.

Lemma drop_add_native n m z rest : drop (n + m) (native n z ++ rest) = drop m rest.
Proof. by rewrite <- drop_drop, drop_native. Qed.

Lemma header_decode_bytes h rest :
  header_wf h -> header_decode (header_bytes h ++ rest) = inr h.
Proof.
  intros (Hl & Hk & Hf & Hs & Hp). unfold header_decode.
  rewrite zlen_app, zlen_header. rewrite (proj2 (Z.ltb_ge _ _)) by (pose proof (zlen_nonneg rest); unfold NLMSG_HDR_LEN; lia).
  unfold header_bytes. rewrite <- !app_assoc.
  rewrite read_u32_native, (drop_native 4), read_u16_native.
  rewrite (drop_add_native 4 2), (drop_native 2), read_u16_native.
  rewrite (drop_add_native 4 4), (drop_add_native 2 2), (drop_native 2), read_u32_native.
  rewrite (drop_add_native 4 8), (drop_add_native 2 6), (drop_add_native 2 4), (drop_native 4), read_u32_native.
  destruct h. simpl in *. unfold u16, u32. by rewrite !Z.mod_small by lia.
Qed.

(** ** Attributes *)

Definition attr_wf (a : attr) : Prop := 0 <= at_kind a < 2 ^ 16 /\ zlen (at_value a) <= 0xffff - RTATTR_HDR_LEN.

(** The wire form of an attribute, padding included. *)
Definition attr_bytes (a : attr) : list byte :=
  native 2 (RTATTR_HDR_LEN + zlen (at_value a)) ++ native 2 (at_kind a) ++ at_value a ++
  zeros (pad4 (zlen (at_value a))).

(** A run of [ncfg_wire_attr_put]. *)
Definition attrs_put (b : buf) (l : list attr) : buf :=
  foldl (fun b a => attr_put realloc_ok b (at_kind a) (at_value a)) b l.

Lemma zlen_attr_bytes a :
  zlen (attr_bytes a) = RTATTR_HDR_LEN + zlen (at_value a) + pad4 (zlen (at_value a)).
Proof.
  unfold attr_bytes. rewrite !zlen_app, !zlen_native, zlen_zeros by apply pad4_range.
  unfold RTATTR_HDR_LEN. lia.
Qed.

Lemma pad4_add n m : n mod 4 = 0 -> pad4 (n + m) = pad4 m.
Proof. intros. unfold pad4. zdiv. Qed.

(** On a buffer that ends on a boundary an attribute is its wire form; a value
    too long for the length field fails the buffer. *)
Lemma appends_attr b a :
  0 <= at_kind a < 2 ^ 16 -> b_length b mod 4 = 0 ->
  appends b (attr_put realloc_ok b (at_kind a) (at_value a)) (attr_bytes a) /\
  (b_failed (attr_put realloc_ok b (at_kind a) (at_value a)) = false ->
   zlen (at_value a) <= 0xffff - RTATTR_HDR_LEN).
Proof.
  intros Hk Hal. unfold attr_put. destruct (b_failed b) eqn:Hf.
  { split; [|by intros ?; congruence]. intros Hwf. split; [done|]. intros ?. congruence. }
  destruct (Z.ltb_spec (0xffff - RTATTR_HDR_LEN) (zlen (at_value a))) as [Hbig|Hfit].
  { split; [|done]. intros Hwf. destruct Hwf as (?&?&?). by split. }
  split; [|done]. pose proof (zlen_nonneg (at_value a)) as Hnn.
  unfold u16. rewrite Z.mod_small by (unfold RTATTR_HDR_LEN in *; lia). intros Hwf.
  set (b1 := put_u16 realloc_ok b (RTATTR_HDR_LEN + zlen (at_value a))).
  set (b2 := put_u16 realloc_ok b1 (at_kind a)).
  set (b3 := match at_value a with [] => b2 | _ => buf_add realloc_ok b2 (at_value a) end).
  assert (appends b b3 (native 2 (RTATTR_HDR_LEN + zlen (at_value a)) ++ native 2 (at_kind a) ++ at_value a)) as H3.
  { eapply appends_trans; [apply appends_native; lia|]. eapply appends_trans; [apply appends_native; lia|].
    apply appends_value. unfold SIZE_MAX, RTATTR_HDR_LEN in *. lia. }
  destruct (H3 Hwf) as [Hwf3 Hb3]. destruct (appends_pad b3 Hwf3) as [Hwf4 Hb4]. split; [done|].
  intros Hok. destruct (Hb4 Hok) as [Hok3 ->]. destruct (Hb3 Hok3) as [_ Hbytes]. split; [done|].
  unfold attr_bytes. unfold b_length at 1. rewrite Hbytes, !zlen_app, !zlen_native. fold (b_length b).
  replace (b_length b + (Z.of_nat 2 + (Z.of_nat 2 + zlen (at_value a))))
    with ((b_length b + 4) + zlen (at_value a)) by lia.
  rewrite pad4_add by (rewrite Z.add_mod, Hal by lia; done). by rewrite <- !app_assoc.
Qed.

Lemma zlen_attr_aligned a : zlen (attr_bytes a) mod 4 = 0.
Proof. rewrite zlen_attr_bytes. unfold RTATTR_HDR_LEN, pad4. zdiv. Qed.

Lemma appends_attrs b l :
  Forall (fun a => 0 <= at_kind a < 2 ^ 16) l -> b_length b mod 4 = 0 ->
  buf_wf b -> b_failed (attrs_put b l) = false ->
  b_bytes (attrs_put b l) = b_bytes b ++ concat (map attr_bytes l) /\ Forall attr_wf l /\
  buf_wf (attrs_put b l) /\ b_failed b = false.
Proof.
  intros Hl. revert b. induction Hl as [|a l Ha _ IH]; intros b Hal Hwf Hok.
  { simpl. rewrite app_nil_r. by split_and!. }
  cbn [attrs_put foldl] in *. fold (attrs_put (attr_put realloc_ok b (at_kind a) (at_value a)) l) in *.
  destruct (appends_attr b a Ha Hal) as [Happ Hfit]. destruct (Happ Hwf) as [Hwf1 Hb1].
  destruct (b_failed (attr_put realloc_ok b (at_kind a) (at_value a))) eqn:Hf1.
  { exfalso. clear -Hf1 Hok. revert Hok. generalize dependent (attr_put realloc_ok b (at_kind a) (at_value a)).
    induction l as [|x l IH]; intros b' Hf Hok; simpl in *; [congruence|].
    eapply IH; [|exact Hok]. unfold attr_put. by rewrite Hf. }
  destruct (Hb1 eq_refl) as [Hf0 Hbytes].
  destruct (IH _ ltac:(unfold b_length; rewrite Hbytes, zlen_app, Z.add_mod, zlen_attr_aligned by lia;
                       fold (b_length b); by rewrite Hal) Hwf1 Hok) as (Heq & Hall & Hwf2 & _).
  split_and!; [|by constructor; [split; [done|by apply Hfit]|]|done|done].
  rewrite Heq, Hbytes. simpl. by rewrite <- app_assoc.
Qed.

(** What the walk reads back: the type bits of the kind, and the value. *)
Definition seen_attr (a : attr) : attr := Attr (Z.land (at_kind a) NLA_TYPE) (at_value a).

Lemma to_nat_zlen {A} (l : list A) : Z.to_nat (zlen l) = length l.
Proof. unfold zlen. apply Nat2Z.id. Qed.

Lemma attrs_next_bytes a rest :
  attr_wf a -> attrs_next (attr_bytes a ++ rest) = (WIRE_OK (seen_attr a), rest).
Proof.
  intros [Hk Hv]. pose proof (zlen_nonneg (at_value a)) as Hnn. pose proof (zlen_nonneg rest) as Hnr.
  pose proof (pad4_range (zlen (at_value a))) as Hp. unfold attrs_next.
  rewrite zlen_app, zlen_attr_bytes. unfold RTATTR_HDR_LEN in *.
  rewrite (proj2 (Z.eqb_neq _ _)), (proj2 (Z.ltb_ge _ 4)) by lia.
  replace (read_u16 (attr_bytes a ++ rest)) with (4 + zlen (at_value a)).
  2:{ unfold attr_bytes. rewrite <- app_assoc, read_u16_native. unfold u16, RTATTR_HDR_LEN. by rewrite Z.mod_small by lia. }
  replace (read_u16 (drop 2 (attr_bytes a ++ rest))) with (at_kind a).
  2:{ unfold attr_bytes. rewrite <- !app_assoc, (drop_native 2), read_u16_native.
      unfold u16. by rewrite Z.mod_small by lia. }
  rewrite !(proj2 (Z.ltb_ge _ _)) by lia.
  replace (4 + zlen (at_value a) - 4) with (zlen (at_value a)) by lia. rewrite to_nat_zlen.
  replace (drop (Z.to_nat 4) (attr_bytes a ++ rest))
    with (at_value a ++ zeros (pad4 (zlen (at_value a))) ++ rest).
  2:{ unfold attr_bytes. rewrite <- !app_assoc. change (Z.to_nat 4) with (2 + 2)%nat.
      by rewrite drop_add_native, drop_native. }
  rewrite take_app_length, align4_eq by (unfold SIZE_MAX; lia).
  replace (pad4 (4 + zlen (at_value a))) with (pad4 (zlen (at_value a))) by (by rewrite pad4_add).
  rewrite Z.min_l by lia. unfold seen_attr. do 2 f_equal.
  apply drop_app_length'. pose proof (zlen_attr_bytes a) as Hl. unfold zlen, RTATTR_HDR_LEN in *. lia.
Qed.

Lemma all_attrs l fuel :
  Forall attr_wf l -> (length l < fuel)%nat ->
  all_steps attrs_next fuel (concat (map attr_bytes l)) = Some (map seen_attr l, None).
Proof.
  intros Hl. revert fuel. induction Hl as [|a l Ha _ IH]; intros [|fuel] Hf; simpl in *; try lia.
  - done.
  - rewrite attrs_next_bytes by done. by rewrite IH by lia.
Qed.

Lemma length_attrs l : (length l <= length (concat (map attr_bytes l)))%nat.
Proof.
  induction l as [|a l IH]; simpl; [lia|]. rewrite length_app.
  pose proof (zlen_attr_bytes a) as Ha. pose proof (zlen_nonneg (at_value a)).
  pose proof (pad4_range (zlen (at_value a))). unfold zlen, RTATTR_HDR_LEN in *. lia.
Qed.

(** ** Messages *)

Lemma messages_next_one h payload :
  header_wf h -> h_len h = NLMSG_HDR_LEN + zlen payload ->
  messages_next (header_bytes h ++ payload) = (WIRE_OK (Message h payload), []).
Proof.
  intros Hwf Hlen. pose proof (zlen_nonneg payload) as Hnn. unfold messages_next.
  rewrite header_decode_bytes by done. rewrite zlen_app, zlen_header, Hlen. unfold NLMSG_HDR_LEN in *.
  rewrite (proj2 (Z.eqb_neq _ _)), !(proj2 (Z.ltb_ge _ _)) by lia.
  destruct Hwf as (Hl & _). rewrite Hlen in Hl. pose proof (pad4_range (16 + zlen payload)).
  rewrite align4_eq, Z.min_r by (unfold SIZE_MAX; lia).
  replace (16 + zlen payload - 16) with (zlen payload) by lia. rewrite to_nat_zlen.
  assert (length (header_bytes h) = 16%nat) as Hh by (pose proof (zlen_header h); unfold zlen in *; lia).
  rewrite (drop_app_length' (header_bytes h)) by (rewrite Hh; done). rewrite firstn_all.
  rewrite drop_ge; [done|]. rewrite length_app, Hh. unfold zlen. lia.
Qed.

Lemma length_zero_nil src : b_length src = 0 -> b_bytes src = [].
Proof. unfold b_length, zlen. intros. apply nil_length_inv. lia. Qed.

(** The two [if (length)] appends of a request. *)
Lemma appends_area b src :
  buf_wf src ->
  appends b (if b_length src =? 0 then b else buf_add realloc_ok b (b_bytes src)) (b_bytes src).
Proof.
  intros Hsrc. pose proof (buf_wf_length _ Hsrc). destruct (Z.eqb_spec (b_length src) 0) as [Hz|_].
  - rewrite (length_zero_nil src) by done. apply appends_nil.
  - apply appends_add. fold (b_length src). unfold SIZE_MAX. lia.
Qed.

Lemma appends_body b src :
  buf_wf src -> b_length b mod 4 = 0 ->
  appends b (if b_length src =? 0 then b else pad_to_align realloc_ok (buf_add realloc_ok b (b_bytes src)))
    (b_bytes src ++ zeros (pad4 (b_length src))).
Proof.
  intros Hsrc Hal Hwf. pose proof (buf_wf_length _ Hsrc). destruct (Z.eqb_spec (b_length src) 0) as [Hz|_].
  - rewrite Hz, (length_zero_nil src) by done. by apply appends_nil.
  - destruct (appends_add realloc_ok b (b_bytes src)) as [Hwf1 H1]; [|done|].
    { fold (b_length src). unfold SIZE_MAX. lia. }
    destruct (appends_pad (buf_add realloc_ok b (b_bytes src)) Hwf1) as [Hwf2 H2]. split; [done|].
    intros Hf. destruct (H2 Hf) as [Hf1 ->]. destruct (H1 Hf1) as [Hf0 Hb]. split; [done|].
    unfold b_length at 1. rewrite Hb, zlen_app. fold (b_length b). fold (b_length src).
    rewrite pad4_add by done. by rewrite <- app_assoc.
Qed.

Lemma build_request_bytes limit kind flags seq body attrs out :
  0 <= limit < 2 ^ 62 -> buf_wf body -> buf_wf attrs ->
  build_request realloc_ok (buf_init limit) kind flags seq (Some body) (Some attrs) = inr out ->
  let total := NLMSG_HDR_LEN + align4 (b_length body) + b_length attrs in
  total < 2 ^ 32 /\
  b_bytes out = header_bytes (Header total kind flags seq 0) ++ b_bytes body ++
                zeros (pad4 (b_length body)) ++ b_bytes attrs.
Proof.
  intros Hlim Hwb Hwa. pose proof (buf_wf_length _ Hwb) as Hlb. pose proof (buf_wf_length _ Hwa) as Hla.
  pose proof (pad4_range (b_length body)) as Hp. unfold build_request, buf_failed.
  destruct (b_failed body); [done|]. destruct (b_failed attrs); [done|].
  fold (b_length body). fold (b_length attrs). rewrite align4_eq by (unfold SIZE_MAX; lia).
  unfold NLMSG_HDR_LEN. rewrite u64_small by lia.
  set (total := 16 + (b_length body + pad4 (b_length body)) + b_length attrs).
  destruct ((0xffffffff <? total) || (total <? b_length attrs)) eqn:Ebig; [done|].
  apply orb_false_iff in Ebig as [Hbig _]. apply Z.ltb_ge in Hbig.
  set (h := Header (u32 total) kind flags seq 0).
  set (b1 := header_encode realloc_ok h (buf_init limit)).
  set (b2 := if b_length body =? 0 then b1 else pad_to_align realloc_ok (buf_add realloc_ok b1 (b_bytes body))).
  set (b3 := if b_length attrs =? 0 then b2 else buf_add realloc_ok b2 (b_bytes attrs)).
  destruct (b_failed b3) eqn:Hok; [done|]. intros [= <-]. split; [lia|].
  destruct (appends_header h (buf_init limit) (buf_init_wf limit Hlim)) as [Hwf1 H1]. fold b1 in Hwf1, H1.
  change (b_bytes (buf_init limit) ++ header_bytes h) with (header_bytes h) in H1.
  destruct (b_failed b1) eqn:Hok1.
  { exfalso. assert (b_failed b3 = true) as Hbad; [|congruence]. subst b3 b2.
    destruct (b_length body =? 0), (b_length attrs =? 0); repeat (exact Hok1 || apply add_failed || apply pad_failed). }
  destruct (H1 eq_refl) as [_ Hb1].
  destruct (appends_body b1 body Hwb) as [Hwf2 H2]; [|done|].
  { unfold b_length. by rewrite Hb1, zlen_header. }
  destruct (appends_area b2 attrs Hwa Hwf2) as [_ H3]. destruct (H3 Hok) as [Hok2 Hb3].
  destruct (H2 Hok2) as [_ Hb2]. fold b2 in Hb2. fold b3 in Hb3. rewrite Hb3, Hb2, Hb1.
  subst h. rewrite u32_small by lia. by rewrite <- !app_assoc.
Qed.
End Wire.

(** ** Every walk ends, inside its buffer *)

(** [inside raw part]: the bytes are a stretch of the buffer. *)
Definition inside (raw part : list byte) : Prop := exists before after, raw = before ++ part ++ after.

Lemma align4_bounds n : 0 <= n -> n <= align4 n < n + 4.
Proof.
  intros Hn. destruct (Z.ltb_spec (SIZE_MAX - 3) n) as [Hbig|Hfit].
  - unfold align4. rewrite (proj2 (Z.ltb_lt _ _)) by done. lia.
  - rewrite align4_eq by lia. pose proof (pad4_range n). lia.
Qed.

Lemma le_value_nonneg l : 0 <= le_value l.
Proof.
  induction l as [|b l IH]; simpl; [lia|]. pose proof (bz_range b).
  pose proof (proj2 (Z.shiftl_nonneg (le_value l) 8) IH). lia.
Qed.

Section Walks.
Context {A : Type} (next : list byte -> step A * list byte) (part : A -> list byte) (hdr : Z).
Context (Hhdr : 0 < hdr).
Context (Hok : forall w a w', next w = (WIRE_OK a, w') ->
  exists head pad, zlen head = hdr /\ w = head ++ part a ++ pad ++ w').

(** What the walk covered: each element and its header. *)
Fixpoint covered (l : list A) : Z :=
  match l with [] => 0 | a :: l' => hdr + zlen (part a) + covered l' end.

Lemma steps_end fuel w :
  (length w < fuel)%nat ->
  exists l e, all_steps next fuel w = Some (l, e) /\ Forall (fun a => inside w (part a)) l /\
              covered l <= zlen w.
Proof.
  revert w. induction fuel as [|fuel IH]; intros w Hf; [lia|]. cbn [all_steps].
  destruct (next w) as [[a| |err] w'] eqn:E.
  - destruct (Hok _ _ _ E) as (head & pad & Hh & ->).
    destruct (IH w') as (l & e & -> & Hin & Hcov).
    { rewrite !length_app in Hf. unfold zlen in Hh. lia. }
    exists (a :: l), e. split; [done|]. split.
    + constructor; [by exists head, (pad ++ w')|]. eapply Forall_impl; [exact Hin|].
      intros x (before & after & Hx). exists (head ++ part a ++ pad ++ before), after.
      rewrite Hx. by rewrite <- !app_assoc.
    + simpl. rewrite !zlen_app. pose proof (zlen_nonneg pad). lia.
  - exists [], None. split_and!; [done|constructor|apply zlen_nonneg].
  - exists [], (Some err). split_and!; [done|constructor|apply zlen_nonneg].
Qed.
End Walks.

(** Cutting an element of [len] bytes out of a walk. *)
Lemma cut_element (w : list byte) hdr len :
  0 <= hdr <= len -> len <= zlen w ->
  exists head pad, zlen head = hdr /\
    w = head ++ take (Z.to_nat (len - hdr)) (drop (Z.to_nat hdr) w) ++ pad ++
        drop (Z.to_nat (Z.min (align4 len) (zlen w))) w.
Proof.
  intros Hhdr Hlen. pose proof (align4_bounds len ltac:(lia)) as Hal.
  set (adv := Z.min (align4 len) (zlen w)).
  exists (take (Z.to_nat hdr) w), (take (Z.to_nat (adv - len)) (drop (Z.to_nat len) w)). split.
  { unfold zlen in *. rewrite length_take. lia. }
  replace (drop (Z.to_nat adv) w) with (drop (Z.to_nat (adv - len)) (drop (Z.to_nat len) w))
    by (rewrite drop_drop; f_equal; lia).
  rewrite take_drop.
  replace (drop (Z.to_nat len) w) with (drop (Z.to_nat (len - hdr)) (drop (Z.to_nat hdr) w))
    by (rewrite drop_drop; f_equal; lia).
  by rewrite !take_drop.
Qed.

Lemma messages_next_cuts `{Host} w m w' :
  messages_next w = (WIRE_OK m, w') ->
  exists head pad, zlen head = NLMSG_HDR_LEN /\ w = head ++ m_payload m ++ pad ++ w'.
Proof.
  unfold messages_next. destruct (_ =? 0); [done|]. destruct (zlen w <? _); [done|].
  destruct (header_decode w) as [err|h]; [done|].
  destruct (Z.ltb_spec (h_len h) NLMSG_HDR_LEN); [done|].
  destruct (Z.ltb_spec (zlen w) (h_len h)); [done|]. intros [= <- <-].
  apply cut_element; [unfold NLMSG_HDR_LEN in *; lia|done].
Qed.

Lemma attrs_next_cuts `{Host} w a w' :
  attrs_next w = (WIRE_OK a, w') ->
  exists head pad, zlen head = RTATTR_HDR_LEN /\ w = head ++ at_value a ++ pad ++ w'.
Proof.
  unfold attrs_next. destruct (_ =? 0); [done|]. destruct (zlen w <? RTATTR_HDR_LEN); [done|].
  destruct (Z.ltb_spec (read_u16 w) RTATTR_HDR_LEN); [done|].
  destruct (Z.ltb_spec (zlen w) (read_u16 w)); [done|]. intros [= <- <-].
  apply cut_element; [unfold RTATTR_HDR_LEN in *; lia|done].
Qed.

(** C36: whatever bytes arrived, walking them as messages or as attributes
    ends: a turn takes at least a header, so there are no more than a
    sixteenth (a quarter) as many elements as bytes; what is handed out lies
    inside the buffer, and a walk that was refused is over, so that a loop
    that ignores the refusal ends as well. *)
Theorem wire_walks_end `{Host} raw :
  (exists l e, all_steps messages_next (S (length raw)) raw = Some (l, e) /\
     Forall (fun m => inside raw (m_payload m)) l /\ covered m_payload NLMSG_HDR_LEN l <= zlen raw) /\
  (exists l e, all_steps attrs_next (S (length raw)) raw = Some (l, e) /\
     Forall (fun a => inside raw (at_value a)) l /\ covered at_value RTATTR_HDR_LEN l <= zlen raw) /\
  (forall w err w', messages_next w = (WIRE_BAD err, w') -> messages_next w' = (WIRE_END, w')) /\
  (forall w err w', attrs_next w = (WIRE_BAD err, w') -> attrs_next w' = (WIRE_END, w')).
Proof.
  split_and!.
  - apply steps_end; [done|apply messages_next_cuts|lia].
  - apply steps_end; [done|apply attrs_next_cuts|lia].
  - intros w err w'. unfold messages_next at 1. cbv zeta. intros Hb.
    assert (w' = []) as ->; [|done]. revert Hb. by repeat case_match; intros [= <- <-] || intros [=].
  - intros w err w'. unfold attrs_next at 1. cbv zeta. intros Hb.
    assert (w' = []) as ->; [|done]. revert Hb. by repeat case_match; intros [= <- <-] || intros [=].
Qed.

(** ** A request, built and read back *)

Lemma request_read `{Host} realloc_ok limit kind flags seq body area out :
  0 <= limit < 2 ^ 62 -> buf_wf body -> buf_wf area ->
  0 <= kind < 2 ^ 16 -> 0 <= flags < 2 ^ 16 -> 0 <= seq < 2 ^ 32 ->
  build_request realloc_ok (buf_init limit) kind flags seq (Some body) (Some area) = inr out ->
  exists h, messages_next (b_bytes out) =
      (WIRE_OK (Message h (b_bytes body ++ zeros (pad4 (b_length body)) ++ b_bytes area)), []) /\
    h_kind h = kind /\ h_flags h = flags /\ h_seq h = seq /\ h_pid h = 0.
Proof.
  intros Hlim Hwb Hwa Hk Hf Hs Hbuild.
  destruct (build_request_bytes realloc_ok limit kind flags seq body area out Hlim Hwb Hwa Hbuild) as [Htot ->].
  pose proof (buf_wf_length _ Hwb). pose proof (buf_wf_length _ Hwa). pose proof (pad4_range (b_length body)).
  rewrite align4_eq in * by (unfold SIZE_MAX; lia). eexists. split; [apply messages_next_one|done].
  - unfold header_wf, NLMSG_HDR_LEN in *. simpl. lia.
  - rewrite !zlen_app, zlen_zeros by lia. unfold b_length. simpl. lia.
Qed.

(** A request that was built is read back whole: the message walk finds
    one message with the kind, the flags and the sequence number that were
    asked for, its payload begins with the family struct, the attribute area
    begins where the struct's padding ends, and walking it gives every
    attribute that was put, in order, with its value to the byte. *)
Theorem request_roundtrip `{Host} realloc_ok limit kind flags seq body attrs out :
  0 <= limit < 2 ^ 62 -> buf_wf body ->
  0 <= kind < 2 ^ 16 -> 0 <= flags < 2 ^ 16 -> 0 <= seq < 2 ^ 32 ->
  Forall (fun a => 0 <= at_kind a < 2 ^ 16) attrs ->
  let area := attrs_put realloc_ok (buf_init limit) attrs in
  build_request realloc_ok (buf_init limit) kind flags seq (Some body) (Some area) = inr out ->
  exists m bytes,
    all_steps messages_next (S (length (b_bytes out))) (b_bytes out) = Some ([m], None) /\
    h_kind (m_header m) = kind /\ h_flags (m_header m) = flags /\ h_seq (m_header m) = seq /\
    take (length (b_bytes body)) (m_payload m) = b_bytes body /\
    message_attrs m (b_length body) = inr bytes /\
    all_steps attrs_next (S (length bytes)) bytes = Some (map seen_attr attrs, None).
Proof.
  intros Hlim Hwb Hk Hf Hs Hattrs area Hbuild.
  assert (b_failed area = false) as Harea.
  { unfold build_request, buf_failed in Hbuild. destruct (b_failed body), (b_failed area); done. }
  destruct (appends_attrs realloc_ok (buf_init limit) attrs Hattrs) as (Hb & Hwf & Hwa & _);
    [done|by apply buf_init_wf|done|]. fold area in Hb, Hwa. cbn [b_bytes buf_init b_data default app] in Hb.
  destruct (request_read realloc_ok limit kind flags seq body area out) as (h & Hnext & Hhk & Hhf & Hhs & _);
    [done..|].
  pose proof (buf_wf_length _ Hwb). pose proof (pad4_range (b_length body)).
  eexists _, (concat (map attr_bytes attrs)). split_and!.
  - cbn [all_steps]. rewrite Hnext. destruct (length (b_bytes out)) eqn:El; [|done].
    apply nil_length_inv in El. by rewrite El in Hnext.
  - done.
  - done.
  - done.
  - simpl. apply take_app_length.
  - unfold message_attrs. simpl. rewrite align4_eq by (unfold SIZE_MAX; lia).
    rewrite !zlen_app, zlen_zeros by lia. fold (b_length body). pose proof (zlen_nonneg (b_bytes area)).
    rewrite (proj2 (Z.ltb_ge _ _)) by lia. unfold attrs_start. rewrite app_assoc, drop_app_length'.
    + unfold b_bytes in Hb. simpl in Hb. by rewrite <- Hb.
    + rewrite length_app. unfold b_length, zeros, zlen in *. rewrite repeat_length. lia.
  - pose proof (length_attrs attrs). apply (all_attrs realloc_ok); [done|]. lia.
Qed.

Definition little : Host := {| big_endian := false |}.
Definition grants_all : Z -> bool := fun _ => true.
Definition link_body : buf :=
  ifinfo_encode grants_all (Ifinfo 0 1 7 0 0) (buf_init 4096) (host := little).
Definition link_attrs : list attr := [Attr 3 (bytes "eth0" ++ [x00]); Attr 13 (bytes "abc"); Attr 4 []].

#[export] Instance buf_wf_dec b : Decision (buf_wf b).
Proof. unfold buf_wf. destruct (b_data b); apply _. Defined.

Lemma request_roundtrip_witness :
  exists out m area,
    build_request (host := little) grants_all (buf_init 4096) 16 5 1 (Some link_body)
      (Some (attrs_put (host := little) grants_all (buf_init 4096) link_attrs)) = inr out /\
    all_steps (messages_next (host := little)) (S (length (b_bytes out))) (b_bytes out) = Some ([m], None) /\
    message_attrs m (b_length link_body) = inr area /\
    all_steps (attrs_next (host := little)) (S (length area)) area = Some (link_attrs, None).
Proof.
  destruct (build_request (host := little) grants_all (buf_init 4096) 16 5 1 (Some link_body)
    (Some (attrs_put (host := little) grants_all (buf_init 4096) link_attrs))) as [e|out] eqn:E;
    [vm_compute in E; discriminate|].
  destruct (request_roundtrip (H := little) grants_all 4096 16 5 1 link_body link_attrs out)
    as (m & area & H1 & _ & _ & _ & _ & H2 & H3); try lia; try exact E.
  - apply (bool_decide_eq_true_1 (buf_wf link_body)). vm_compute. reflexivity.
  - by repeat constructor.
  - exists out, m, area. split_and!; [reflexivity|exact H1|exact H2|exact H3].
Defined.

(** ** The family structs *)

Definition byte_range (z : Z) : Prop := 0 <= z < 2 ^ 8.

Lemma read_u8_byte z l rest at_ :
  at_ = length l -> byte_range z -> read_u8 (l ++ byte_of z :: rest) at_ = z.
Proof.
  intros -> Hz. unfold read_u8. rewrite app_nth2 by lia. rewrite Nat.sub_diag. simpl.
  rewrite bz_byte_of. by apply Z.mod_small.
Qed.

Lemma s32_u32 z : - 2 ^ 31 <= z < 2 ^ 31 -> s32 (u32 z) = z.
Proof. intros Hz. unfold s32, u32. destruct (Z.ltb_spec (z mod 2 ^ 32) (2 ^ 31)); zdiv. Qed.

(** A link's family struct comes back as it was put, the index's sign and the
    pad byte included, whatever follows it in the message. *)
Lemma ifinfo_roundtrip `{Host} realloc_ok i b rest :
  buf_wf b -> b_bytes b = [] -> byte_range (ii_family i) -> 0 <= ii_kind i < 2 ^ 16 ->
  - 2 ^ 31 <= ii_index i < 2 ^ 31 -> 0 <= ii_flags i < 2 ^ 32 -> 0 <= ii_change i < 2 ^ 32 ->
  b_failed (ifinfo_encode realloc_ok i b) = false ->
  ifinfo_decode (b_bytes (ifinfo_encode realloc_ok i b) ++ rest) = inr i.
Proof.
  intros Hwf Hb Hfam Hk Hi Hf Hc Hok.
  assert (appends b (ifinfo_encode realloc_ok i b)
    ([byte_of (ii_family i)] ++ [x00] ++ native 2 (ii_kind i) ++ native 4 (u32 (ii_index i)) ++
     native 4 (ii_flags i) ++ native 4 (ii_change i))) as Happ.
  { unfold ifinfo_encode, buf_add_char, put_u16, put_u32.
    do 2 (eapply appends_trans; [by apply appends_add|]).
    do 3 (eapply appends_trans; [apply appends_native; lia|]).
    apply appends_native. lia. }
  destruct (proj2 (Happ Hwf) Hok) as [_ ->]. rewrite Hb. cbn [app]. unfold ifinfo_decode.
  rewrite !zlen_cons, !zlen_app, !zlen_native.
  rewrite (proj2 (Z.ltb_ge _ _)) by (pose proof (zlen_nonneg rest); unfold IFINFO_LEN; lia).
  rewrite <- !app_assoc. pose proof (fun r => read_u8_byte (ii_family i) [] r 0 eq_refl Hfam) as Hu8.
  cbn [app] in Hu8. rewrite Hu8. cbn [drop]. rewrite drop_0.
  rewrite read_u16_native, (drop_native 2), read_u32_native.
  rewrite (drop_add_native 2 4), (drop_native 4), read_u32_native.
  rewrite (drop_add_native 2 8), (drop_add_native 4 4), (drop_native 4), read_u32_native.
  rewrite (u32_small (u32 (ii_index i))) by (unfold u32; apply Z.mod_pos_bound; lia).
  rewrite s32_u32, !u32_small by lia. unfold u16. rewrite Z.mod_small by lia. by destruct i.
Qed.

(** An errno comes back positive, zero for an acknowledgement, and the one
    value whose negation overflows is refused. *)
Lemma error_code_bounds `{Host} payload code :
  error_code payload = inr code -> - 2 ^ 31 < code < 2 ^ 31.
Proof.
  unfold error_code. destruct (_ <? 4); [done|].
  destruct (Z.eqb_spec (s32 (read_u32 payload)) INT32_MIN) as [|Hne]; [done|]. intros [= <-].
  assert (0 <= read_u32 payload < 2 ^ 32) as Hr.
  { unfold read_u32, native_value. split; [apply le_value_nonneg|].
    assert (forall l, le_value l < 2 ^ (8 * zlen l)) as Hb.
    { induction l as [|b l IH]; [done|]. rewrite zlen_cons. cbn [le_value].
      rewrite Z.shiftl_mul_pow2 by lia. pose proof (bz_range b).
      replace (8 * (1 + zlen l)) with (8 * zlen l + 8) by lia.
      rewrite Z.pow_add_r by (pose proof (zlen_nonneg l); lia). lia. }
    eapply Z.lt_le_trans; [apply Hb|]. apply Z.pow_le_mono_r; [lia|].
    unfold zlen. destruct big_endian; rewrite ?length_rev, length_take; lia. }
  unfold s32, INT32_MIN in *. destruct (Z.ltb_spec (read_u32 payload) (2 ^ 31)); lia.
Qed.

(** ** The names the kernel sends *)

Lemma lor_shift code x : 0 <= x < 64 -> Z.lor (Z.shiftl code 6) x = code * 64 + x.
Proof. intros. by rewrite lor_shiftl by lia. Qed.

Lemma continuation_mask b : (Z.land (bz b) 0xc0 =? 0x80) = is_continuation b.
Proof. destruct b; reflexivity. Qed.

Lemma continuation_bits b : is_continuation b = true -> Z.land (bz b) 0x3f = bz b - 0x80.
Proof. by destruct b. Qed.

Lemma utf8_lead_spec lead :
  128 <= bz lead ->
  match utf8_lead lead with
  | Some (1%nat, bits) => 0xc2 <= bz lead <= 0xdf /\ bits = bz lead - 0xc0
  | Some (2%nat, bits) => 0xe0 <= bz lead <= 0xef /\ bits = bz lead - 0xe0
  | Some (3%nat, bits) => 0xf0 <= bz lead <= 0xf4 /\ bits = bz lead - 0xf0
  | Some _ => False
  | None => bz lead < 0xc2 \/ 0xf4 < bz lead
  end.
Proof. destruct lead; vm_compute; intuition congruence. Qed.

Lemma valid_1 a : utf8_is_valid [a] = true <-> bz a < 0x80.
Proof. unfold utf8_is_valid. simpl. by rewrite Z.ltb_lt. Qed.

Lemma valid_2 a b :
  utf8_is_valid [a; b] = true <-> is_continuation b = true /\ 0xc2 <= bz a <= 0xdf.
Proof. unfold utf8_is_valid. simpl. rewrite !andb_true_iff, !Z.leb_le. naive_solver. Qed.

Lemma valid_3 a b c :
  utf8_is_valid [a; b; c] = true <->
  (is_continuation b = true /\ is_continuation c = true) /\ 0xe0 <= bz a <= 0xef /\
  let code := ((bz a - 0xe0) * 64 + (bz b - 0x80)) * 64 + (bz c - 0x80) in
  0x800 <= code /\ ~ (0xd800 <= code <= 0xdfff).
Proof.
  unfold utf8_is_valid, is_continuation. simpl. rewrite !andb_true_iff, !Z.leb_le.
  destruct (Z.eqb_spec (bz a) 0xe0), (Z.eqb_spec (bz a) 0xed); rewrite ?andb_true_iff, ?Z.leb_le; lia.
Qed.

Lemma valid_4 a b c d :
  utf8_is_valid [a; b; c; d] = true <->
  (is_continuation b = true /\ is_continuation c = true /\ is_continuation d = true) /\
  0xf0 <= bz a <= 0xf4 /\
  let code := (((bz a - 0xf0) * 64 + (bz b - 0x80)) * 64 + (bz c - 0x80)) * 64 + (bz d - 0x80) in
  0x10000 <= code <= 0x10ffff.
Proof.
  unfold utf8_is_valid, is_continuation. simpl. rewrite !andb_true_iff, !Z.leb_le.
  destruct (Z.eqb_spec (bz a) 0xf0), (Z.eqb_spec (bz a) 0xf4); rewrite ?andb_true_iff, ?Z.leb_le; lia.
Qed.

Lemma if_false (c x : bool) : (if c then false else x) = true <-> c = false /\ x = true.
Proof. destruct c; naive_solver. Qed.

(** One turn of the loop on a lead byte and its continuations, as arithmetic. *)
Ltac utf8_turn :=
  cbn [take drop length Nat.leb Nat.eqb]; rewrite ?take_0, ?drop_0;
  cbn [forallb foldl andb orb]; rewrite ?continuation_mask;
  repeat match goal with
         | |- context [is_continuation ?b] => destruct (is_continuation b) eqn:?
         end; cbn [andb negb]; [|done..];
  rewrite ?continuation_bits by assumption;
  rewrite ?lor_shift by (unfold is_continuation in *; unbool; lia);
  rewrite ?if_false, ?orb_false_iff, ?andb_false_iff, ?Z.ltb_ge, ?Z.leb_gt.

Lemma is_utf8_read fuel lead tail :
  is_utf8_loop (S fuel) (lead :: tail) = true ->
  exists c rest, lead :: tail = c ++ rest /\ utf8_is_valid c = true /\ is_utf8_loop fuel rest = true.
Proof.
  cbn [is_utf8_loop]. destruct (Z.ltb_spec (bz lead) 0x80) as [Hlo|Hhi].
  { intros H. exists [lead], tail. split; [done|]. by rewrite valid_1. }
  pose proof (utf8_lead_spec lead Hhi) as Hlead.
  destruct (utf8_lead lead) as [[[|[|[|[|]]]] bits]|]; try done; destruct Hlead as [Hr ->].
  - destruct tail as [|b t]; [done|]. utf8_turn. intros [_ H].
    exists [lead; b], t. split; [done|]. by rewrite valid_2.
  - destruct tail as [|b [|c t]]; [done|done|]. utf8_turn. intros (H1 & H2 & H).
    exists [lead; b; c], t. split; [done|]. rewrite valid_3. cbv zeta. split; [|done]. split; [done|]. lia.
  - destruct tail as [|b [|c [|d t]]]; [done..|]. utf8_turn. intros (H1 & H2 & H).
    exists [lead; b; c; d], t. split; [done|]. rewrite valid_4. cbv zeta. split; [|done]. split; [done|]. lia.
Qed.

Lemma is_utf8_char fuel c rest :
  utf8_is_valid c = true -> is_utf8_loop fuel rest = true -> is_utf8_loop (S fuel) (c ++ rest) = true.
Proof.
  intros Hv Hrest. pose proof (utf8_valid_length c Hv) as Hlen.
  destruct c as [|a [|b [|c [|d [|]]]]]; simpl in Hlen; try lia; cbn [is_utf8_loop app].
  - apply valid_1 in Hv. by rewrite (proj2 (Z.ltb_lt _ _)).
  - apply valid_2 in Hv as (Hb & Hr). pose proof (utf8_lead_spec a ltac:(lia)) as Hlead.
    rewrite (proj2 (Z.ltb_ge _ _)) by lia.
    destruct (utf8_lead a) as [[[|[|[|[|]]]] bits]|]; try done; try lia. destruct Hlead as [_ ->].
    utf8_turn. unfold is_continuation in *. unbool. split; [lia|done].
  - apply valid_3 in Hv as ((Hb & Hc) & Hr & Hcode). cbv zeta in Hcode. pose proof (utf8_lead_spec a ltac:(lia)) as Hlead.
    rewrite (proj2 (Z.ltb_ge _ _)) by lia.
    destruct (utf8_lead a) as [[[|[|[|[|]]]] bits]|]; try done; try lia. destruct Hlead as [_ ->].
    utf8_turn. unfold is_continuation in *. unbool. split_and!; [lia..|done].
  - apply valid_4 in Hv as ((Hb & Hc & Hd) & Hr & Hcode). cbv zeta in Hcode. pose proof (utf8_lead_spec a ltac:(lia)) as Hlead.
    rewrite (proj2 (Z.ltb_ge _ _)) by lia.
    destruct (utf8_lead a) as [[[|[|[|[|]]]] bits]|]; try done; try lia. destruct Hlead as [_ ->].
    utf8_turn. unfold is_continuation in *. unbool. split_and!; [lia..|done].
Qed.

Lemma is_utf8_fuel fuel l : is_utf8_loop fuel l = true -> utf8_text l.
Proof.
  revert l. induction fuel as [|fuel IH]; intros [|b l] H; try done; [apply utf8_text_nil..|].
  apply is_utf8_read in H as (c & rest & -> & Hv & (chars & -> & Hall)%IH).
  exists (c :: chars). split; [done|by constructor].
Qed.

Lemma is_utf8_enough chars fuel :
  Forall (fun c => utf8_is_valid c = true) chars -> (length (concat chars) <= fuel)%nat ->
  is_utf8_loop fuel (concat chars) = true.
Proof.
  intros Hall. revert fuel. induction Hall as [|c chars Hc _ IH]; intros fuel Hf; [by destruct fuel|].
  pose proof (utf8_valid_length c Hc). simpl in *. rewrite length_app in Hf.
  destruct fuel as [|fuel]; [lia|]. apply is_utf8_char; [done|]. apply IH. lia.
Qed.

Lemma to_nul_spec l : exists rest, l = to_nul l ++ rest /\ (rest = [] \/ head rest = Some x00).
Proof.
  induction l as [|b l (rest & Hl & Hr)]; simpl; [exists []; naive_solver|].
  destruct (byte_eqb_spec b x00) as [->|]; [exists (x00 :: l); naive_solver|].
  exists rest. split; [simpl; congruence|done].
Qed.

Lemma to_nul_no_nul l : x00 ∉ to_nul l.
Proof.
  induction l as [|b l IH]; simpl; [apply not_elem_of_nil|].
  destruct (byte_eqb_spec b x00); [apply not_elem_of_nil|]. rewrite not_elem_of_cons. by split.
Qed.

Lemma to_nul_app t rest : x00 ∉ t -> rest = [] \/ head rest = Some x00 -> to_nul (t ++ rest) = t.
Proof.
  induction t as [|b t IH]; simpl; intros Ht Hr.
  - destruct rest; [done|]. destruct Hr as [|Hr]; [done|]. simpl in Hr. by injection Hr as ->.
  - rewrite not_elem_of_cons in Ht. destruct Ht as [Hb Ht]. rewrite byte_eqb_neq by done. by rewrite IH.
Qed.

(** The two UTF-8 validators of the program agree, though one checks
    ranges of lead bytes and the other decodes: a name read off netlink is
    taken exactly when it is a run of characters the configuration lexer
    takes. It is then the bytes of the attribute up to the first NUL, and it
    is refused rather than cut where it does not fit the caller's buffer. *)
Theorem attr_string_exact a out_size text :
  (forall l, is_utf8 l = true <-> utf8_text l) /\
  (attr_string a out_size = inr text <->
   utf8_text text /\ zlen text < out_size /\ x00 ∉ text /\
   exists rest, at_value a = text ++ rest /\ (rest = [] \/ head rest = Some x00)).
Proof.
  assert (forall l, is_utf8 l = true <-> utf8_text l) as Hu.
  { intros l. split; [apply is_utf8_fuel|]. intros (chars & -> & Hall). by apply is_utf8_enough. }
  split; [done|]. unfold attr_string. split.
  - destruct (_ =? 0); [done|]. destruct (Z.leb_spec out_size (zlen (to_nul (at_value a)))); [done|].
    destruct (is_utf8 (to_nul (at_value a))) eqn:E; [|done]. intros [= <-].
    split_and!; [by apply Hu|done|apply to_nul_no_nul|apply to_nul_spec].
  - intros (Ht & Hfit & Hnul & rest & -> & Hrest). rewrite to_nul_app by done.
    pose proof (zlen_nonneg text). rewrite (proj2 (Z.eqb_neq _ _)), (proj2 (Z.leb_gt _ _)) by lia.
    by rewrite (proj2 (Hu text) Ht).
Qed.
