(* ===== verification/Decimal.v ===== *)
(** * Decimal: what [%lld] and [%llu] print

    [num z] is the decimal text of an integer ([printf]'s). It is a minus for a
    negative number and then digits with no leading zero, and it spells the
    number it is of. *)
From S2P Require Import Prelude Lex LexFacts Wire.
From stdpp Require Import pretty.
#[local] Open Scope Z_scope.

Definition all_digits (s : list byte) : Prop := Forall (fun b => is_digit b = true) s.

Lemma dec_value_app acc s k : dec_value acc (s ++ k) = dec_value (dec_value acc s) k.
Proof. apply foldl_app. Qed.

Lemma bytes_cons a s : bytes (String a s) = Ascii.byte_of_ascii a :: bytes s.
Proof. reflexivity. Qed.

Lemma digit_char (n : N) :
  (n < 10)%N ->
  is_digit (Ascii.byte_of_ascii (pretty_N_char n)) = true /\
  bz (Ascii.byte_of_ascii (pretty_N_char n)) - bz "0" = Z.of_N n.
Proof.
  intros H. destruct n as [|p]; [done|].
  do 4 (destruct p as [p|p|]; [| |done]; try lia); lia.
Qed.

(** The digits of a number that is not zero, most significant first. *)
Lemma pretty_go_digits (x : N) : (0 < x)%N -> forall s, exists c ds,
  bytes (pretty_N_go x s) = c :: ds ++ bytes s /\ all_digits (c :: ds) /\ c <> "0"%byte /\
  dec_value 0 (c :: ds) = Z.of_N x.
Proof.
  induction (N.lt_wf_0 x) as [x _ IH]. intros Hx s.
  rewrite pretty_N_go_step by done. pose proof (N.mod_lt x 10 ltac:(done)) as Hm.
  destruct (digit_char (x mod 10) Hm) as [Hd Hv].
  destruct (N.eq_0_gt_0_cases (x / 10)) as [E|Hq].
  - rewrite E, pretty_N_go_0, bytes_cons. eexists _, []. split; [reflexivity|].
    assert (x mod 10 = x)%N as Ex by (pose proof (N.div_mod x 10 ltac:(done)); lia). rewrite Ex in *.
    split; [by constructor|]. split.
    + intros E0. rewrite E0 in Hv. change (bz "0" - bz "0") with 0 in Hv. lia.
    + unfold dec_value. simpl. lia.
  - destruct (IH (x / 10)%N ltac:(apply N.div_lt; lia) Hq (String (pretty_N_char (x mod 10)) s)) as (c & ds & E & Hds & Hc & Hval).
    exists c, (ds ++ [Ascii.byte_of_ascii (pretty_N_char (x mod 10))]). rewrite E, bytes_cons. split; [by rewrite <- app_assoc|].
    split; [change (all_digits ((c :: ds) ++ [Ascii.byte_of_ascii (pretty_N_char (x mod 10))])); apply Forall_app; split; [done|by constructor]|].
    split; [done|]. change (c :: ds ++ ?l) with ((c :: ds) ++ l). rewrite dec_value_app, Hval. unfold dec_value. simpl.
    rewrite Hv. pose proof (N.div_mod x 10 ltac:(done)). lia.
Qed.

(** The shape of [num]: the sign, and digits with no leading zero. *)
Lemma num_shape z :
  exists ds, num z = (if z <? 0 then ["-"%byte] else []) ++ ds /\ all_digits ds /\ ds <> [] /\
    dec_value 0 ds = Z.abs z /\ (head ds = Some "0"%byte -> ds = ["0"%byte]).
Proof.
  unfold num. destruct z as [|p|p].
  - exists ["0"%byte]. repeat split; try done. by constructor.
  - destruct (pretty_go_digits (N.pos p) eq_refl "") as (c & ds & E & Hds & Hc & Hv).
    exists (c :: ds). change (pretty (Z.pos p)) with (pretty_N_go (N.pos p) ""). rewrite E, app_nil_r.
    split; [done|]. split; [done|]. split; [done|]. split; [done|]. simpl. congruence.
  - destruct (pretty_go_digits (N.pos p) eq_refl "") as (c & ds & E & Hds & Hc & Hv).
    exists (c :: ds). change (bytes (pretty (Z.neg p))) with ("-"%byte :: bytes (pretty_N_go (N.pos p) "")).
    rewrite E, app_nil_r. split; [done|]. split; [done|]. split; [done|]. split; [done|]. simpl. congruence.
Qed.

Lemma dec_value_lower acc ds : 0 <= acc -> all_digits ds -> acc * 10 ^ zlen ds <= dec_value acc ds.
Proof.
  intros Ha Hds. revert acc Ha. induction Hds as [|b ds Hb _ IH]; intros acc Ha.
  - unfold dec_value, zlen. simpl. lia.
  - change (dec_value acc (b :: ds)) with (dec_value (acc * 10 + (bz b - bz "0")) ds).
    pose proof (is_digit_range b Hb). specialize (IH (acc * 10 + (bz b - bz "0")) ltac:(lia)).
    rewrite zlen_cons, Z.pow_add_r by (pose proof (zlen_nonneg ds); lia).
    assert (0 < 10 ^ zlen ds) by (apply Z.pow_pos_nonneg; [lia|apply zlen_nonneg]). nia.
Qed.

(** A number of at most [n] digits is printed with at most a sign more. *)
Lemma num_length z n : 0 < n -> Z.abs z < 10 ^ n -> zlen (num z) <= n + 1.
Proof.
  intros Hn Hz. destruct (num_shape z) as (ds & -> & Hds & Hne & Hv & Hzero). rewrite zlen_app.
  assert (zlen ds <= n) as Hlen.
  { destruct ds as [|c ds]; [done|]. destruct (byte_eqb_spec c "0"%byte) as [->|Hc].
    - rewrite (Hzero eq_refl). unfold zlen. simpl. lia.
    - apply Forall_cons in Hds as [Hd Hds]. change (dec_value 0 (c :: ds)) with (dec_value (0 * 10 + (bz c - bz "0")) ds) in Hv.
      pose proof (is_digit_range c Hd) as Hr.
      assert (bz c <> bz "0"%byte) by (intros E; apply bz_inj in E; done).
      pose proof (dec_value_lower (0 * 10 + (bz c - bz "0")) ds ltac:(lia) Hds) as Hl. rewrite zlen_cons.
      destruct (Z.le_gt_cases n (zlen ds)) as [Hge|]; [|lia].
      pose proof (Z.pow_le_mono_r 10 n (zlen ds) ltac:(lia) Hge). nia. }
  destruct (z <? 0); unfold zlen in *; simpl; lia.
Qed.
