(* ===== verification/Json.v ===== *)
(** * Json: the JSON reader of [client/ncfg_json.c]

    The daemon, its tools and the client library read every message and every
    state file with this one reader. A document is an array of nodes and one
    buffer of text: a node holds offsets into the text and the indices of its
    first child and of its next sibling. [ncfg_json_parse] is one loop over an
    explicit stack of open containers; its three program points are the
    constructors of [label] and each turn is one call of [step], so the
    parser is a step function run with fuel (the turns each use up at least
    one byte, [JsonFacts.step_shorter], so the length of the input is enough).

    The input at [p->at] is the suffix [p_rest]; the offset itself, which only
    the error text shows, is recovered from its length. [p_text] is the part of
    [doc->text] written so far, so the write head is its length. *)
From S2P Require Import Prelude Lex Wire.
#[local] Open Scope Z_scope.

Definition NCFG_JSON_MAX_DEPTH : nat := 32.
Definition NCFG_JSON_NONE : Z := 0xffffffff.

Inductive json_type :=
| NCFG_JSON_NULL | NCFG_JSON_BOOL | NCFG_JSON_NUMBER | NCFG_JSON_STRING
| NCFG_JSON_ARRAY | NCFG_JSON_OBJECT.

#[export] Instance json_type_eq_dec : EqDecision json_type.
Proof. solve_decision. Defined.

Record node := Node {
  n_type : json_type;
  n_key_offset : Z;
  n_key_length : Z;
  n_value_offset : Z;
  n_value_length : Z;
  n_bool_value : bool;
  n_first_child : Z;
  n_child_count : Z;
  n_next_sibling : Z }.

#[export] Instance node_eq_dec : EqDecision node.
Proof. solve_decision. Defined.

(** [struct ncfg_json_doc]; [count] is the length of [d_nodes]. *)
Record doc := Doc { d_text : list byte; d_nodes : list node; d_capacity : Z }.

(** [parser_t]. *)
Record parser := Parser { p_rest : list byte; p_text : list byte; p_nodes : list node; p_capacity : Z }.

(** What [fail] records: the reason and the input from [p->at]. *)
Record refusal := Refusal { rf_what : string; rf_rest : list byte }.

Definition with_rest (p : parser) (rest : list byte) : parser :=
  Parser rest (p_text p) (p_nodes p) (p_capacity p).
Definition with_text (p : parser) (rest text : list byte) : parser :=
  Parser rest text (p_nodes p) (p_capacity p).
Definition with_nodes (p : parser) (nodes : list node) : parser :=
  Parser (p_rest p) (p_text p) nodes (p_capacity p).

Definition set_value (offset length : Z) (n : node) : node :=
  Node (n_type n) (n_key_offset n) (n_key_length n) offset length (n_bool_value n)
    (n_first_child n) (n_child_count n) (n_next_sibling n).
Definition set_bool (b : bool) (n : node) : node :=
  Node (n_type n) (n_key_offset n) (n_key_length n) (n_value_offset n) (n_value_length n) b
    (n_first_child n) (n_child_count n) (n_next_sibling n).
Definition set_key (offset length : Z) (n : node) : node :=
  Node (n_type n) offset length (n_value_offset n) (n_value_length n) (n_bool_value n)
    (n_first_child n) (n_child_count n) (n_next_sibling n).
Definition set_first_child (i : Z) (n : node) : node :=
  Node (n_type n) (n_key_offset n) (n_key_length n) (n_value_offset n) (n_value_length n)
    (n_bool_value n) i (n_child_count n) (n_next_sibling n).
Definition set_next_sibling (i : Z) (n : node) : node :=
  Node (n_type n) (n_key_offset n) (n_key_length n) (n_value_offset n) (n_value_length n)
    (n_bool_value n) (n_first_child n) (n_child_count n) i.
Definition count_child (n : node) : node :=
  Node (n_type n) (n_key_offset n) (n_key_length n) (n_value_offset n) (n_value_length n)
    (n_bool_value n) (n_first_child n) (u32 (n_child_count n + 1)) (n_next_sibling n).

(** ** Pieces of the input *)

Definition is_space (b : byte) : bool := (b =b x20) || (b =b x09) || (b =b x0d) || (b =b x0a).

Fixpoint skip_space (s : list byte) : list byte :=
  match s with
  | b :: s' => if is_space b then skip_space s' else s
  | [] => []
  end.

Definition hex_nibble (c : byte) : option Z :=
  if byte_between "0" "9" c then Some (bz c - bz "0")
  else if byte_between "a" "f" c then Some (bz c - bz "a" + 10)
  else if byte_between "A" "F" c then Some (bz c - bz "A" + 10)
  else None.

Fixpoint read_nibbles (n : nat) (value : Z) (s : list byte) : option (Z * list byte) :=
  match n with
  | O => Some (value, s)
  | S n' =>
      match s with
      | c :: s' =>
          nibble ← hex_nibble c; read_nibbles n' (Z.lor (Z.shiftl value 4) nibble) s'
      | [] => None
      end
  end.

(** [None] is the source's [-1]; the cursor has then not moved. *)
Definition read_code_unit (s : list byte) : option (Z * list byte) := read_nibbles 4 0 s.

Definition write_utf8 (c : Z) : list byte :=
  if c <? 0x80 then [byte_of c]
  else if c <? 0x800 then
    [byte_of (Z.lor 0xc0 (Z.shiftr c 6)); byte_of (Z.lor 0x80 (Z.land c 0x3f))]
  else if c <? 0x10000 then
    [byte_of (Z.lor 0xe0 (Z.shiftr c 12)); byte_of (Z.lor 0x80 (Z.land (Z.shiftr c 6) 0x3f));
     byte_of (Z.lor 0x80 (Z.land c 0x3f))]
  else
    [byte_of (Z.lor 0xf0 (Z.shiftr c 18)); byte_of (Z.lor 0x80 (Z.land (Z.shiftr c 12) 0x3f));
     byte_of (Z.lor 0x80 (Z.land (Z.shiftr c 6) 0x3f)); byte_of (Z.lor 0x80 (Z.land c 0x3f))].

Definition QUOTE : byte := x22.
Definition BACKSLASH : byte := x5c.

(** The [case 'u'] of [parse_string]: [s] starts after the [u]. *)
Definition unicode_escape (s : list byte) : refusal + (list byte * list byte) :=
  match read_code_unit s with
  | None => inl (Refusal "a \u escape that is not four hex digits" s)
  | Some (unit_, s) =>
      if (0xd800 <=? unit_) && (unit_ <=? 0xdbff) then
        match s with
        | b :: u :: s2 =>
            if (b =b BACKSLASH) && (u =b "u"%byte) then
              match read_code_unit s2 with
              | Some (low, s3) =>
                  if (low <? 0xdc00) || (0xdfff <? low)
                  then inl (Refusal "a surrogate pair whose second half is not one" s3)
                  else inr (write_utf8 (0x10000 + Z.shiftl (unit_ - 0xd800) 10 + (low - 0xdc00)), s3)
              | None => inl (Refusal "a surrogate pair whose second half is not one" s2)
              end
            else inl (Refusal "a high surrogate with no low surrogate" s)
        | _ => inl (Refusal "a high surrogate with no low surrogate" s)
        end
      else if (0xdc00 <=? unit_) && (unit_ <=? 0xdfff)
      then inl (Refusal "a low surrogate with no high surrogate" s)
      else inr (write_utf8 unit_, s)
  end.

(** One escape, after its backslash: the bytes it stands for and the rest. *)
Definition read_escape (s : list byte) : refusal + (list byte * list byte) :=
  match s with
  | [] => inl (Refusal "an escape at the end of the input" s)
  | e :: s =>
      if e =b QUOTE then inr ([QUOTE], s)
      else if e =b BACKSLASH then inr ([BACKSLASH], s)
      else if e =b "/"%byte then inr (["/"%byte], s)
      else if e =b "b"%byte then inr ([x08], s)
      else if e =b "f"%byte then inr ([x0c], s)
      else if e =b "n"%byte then inr ([x0a], s)
      else if e =b "r"%byte then inr ([x0d], s)
      else if e =b "t"%byte then inr ([x09], s)
      else if e =b "u"%byte then unicode_escape s
      else inl (Refusal "an escape that is not one of JSON's" s)
  end.

(** The loop of [parse_string]: the unescaped bytes go after [out]. *)
Fixpoint string_loop (fuel : nat) (s out : list byte) : refusal + (list byte * list byte) :=
  match fuel with
  | O => inl (Refusal "a string with no closing quote" s)
  | S fuel' =>
      match s with
      | [] => inl (Refusal "a string with no closing quote" s)
      | c :: s' =>
          if c =b QUOTE then inr (out, s')
          else if bz c <? 0x20 then inl (Refusal "a control character in a string" s)
          else if negb (c =b BACKSLASH) then string_loop fuel' s' (out ++ [c])
          else
            match read_escape s' with
            | inl e => inl e
            | inr (bs, s'') => string_loop fuel' s'' (out ++ bs)
            end
      end
  end.

(** [parse_string]: the offset and the length of what was written. *)
Definition parse_string (p : parser) : refusal + (Z * Z * parser) :=
  match string_loop (S (length (p_rest p))) (p_rest p) (p_text p) with
  | inl e => inl e
  | inr (text, rest) =>
      inr (u32 (zlen (p_text p)), u32 (zlen text - zlen (p_text p)), with_text p rest text)
  end.

Fixpoint skip_digits (s : list byte) : list byte :=
  match s with
  | b :: s' => if is_digit b then skip_digits s' else s
  | [] => []
  end.

(** The digits a point or an exponent needs: at least one. *)
Definition some_digits (what : string) (s : list byte) : refusal + list byte :=
  let rest := skip_digits s in
  if (length rest =? length s)%nat then inl (Refusal what rest) else inr rest.

Definition number_sign (s : list byte) : list byte :=
  match s with b :: s' => if b =b "-"%byte then s' else s | [] => s end.

Definition number_integer (s : list byte) : refusal + list byte :=
  match s with
  | [] => inl (Refusal "a number with no digits" s)
  | b :: s' =>
      if b =b "0"%byte then inr s'
      else if byte_between "1" "9" b then inr (skip_digits s)
      else inl (Refusal "a number with no digits" s)
  end.

Definition number_fraction (s : list byte) : refusal + list byte :=
  match s with
  | b :: s' => if b =b "."%byte then some_digits "a decimal point with no digits after it" s' else inr s
  | [] => inr s
  end.

Definition number_exponent (s : list byte) : refusal + list byte :=
  match s with
  | b :: s' =>
      if (b =b "e"%byte) || (b =b "E"%byte) then
        some_digits "an exponent with no digits"
          match s' with
          | c :: s'' => if (c =b "+"%byte) || (c =b "-"%byte) then s'' else s'
          | [] => s'
          end
      else inr s
  | [] => inr s
  end.

(** Where a number that starts at [s] ends. *)
Definition number_end (s : list byte) : refusal + list byte :=
  match number_integer (number_sign s) with
  | inl e => inl e
  | inr s =>
      match number_fraction s with
      | inl e => inl e
      | inr s => number_exponent s
      end
  end.

(** [parse_number]: the text is copied as it stands. *)
Definition parse_number (p : parser) : refusal + (Z * Z * parser) :=
  match number_end (p_rest p) with
  | inl e => inl e
  | inr rest =>
      let text := take (length (p_rest p) - length rest) (p_rest p) in
      inr (u32 (zlen (p_text p)), u32 (zlen text), with_text p rest (p_text p ++ text))
  end.

(** [literal]: the rest after [word], when the input starts with it. *)
Fixpoint literal (word s : list byte) : option (list byte) :=
  match word, s with
  | [], _ => Some s
  | w :: word', b :: s' => if w =b b then literal word' s' else None
  | _, [] => None
  end.

(** ** Nodes *)

Section WithAllocator.
Context (realloc_ok : Z -> bool).

Definition SIZEOF_NODE : Z := 36.

(** [reserve]: the doubling is at [uint32_t]'s width. *)
Definition reserve (p : parser) : refusal + parser :=
  if zlen (p_nodes p) <? p_capacity p then inr p
  else
    let next := if p_capacity p =? 0 then 32 else u32 (p_capacity p * 2) in
    if next <? p_capacity p then inl (Refusal "too many values" (p_rest p))
    else if realloc_ok (next * SIZEOF_NODE) then
      inr (Parser (p_rest p) (p_text p) (p_nodes p) next)
    else inl (Refusal "out of memory" (p_rest p)).

Definition fresh_node (type : json_type) : node :=
  Node type NCFG_JSON_NONE 0 0 0 false NCFG_JSON_NONE 0 NCFG_JSON_NONE.

(** [new_node]: the index of the node it adds at the end. *)
Definition new_node (p : parser) (type : json_type) : refusal + (Z * parser) :=
  match reserve p with
  | inl e => inl e
  | inr p => inr (zlen (p_nodes p), with_nodes p (p_nodes p ++ [fresh_node type]))
  end.

(** [doc->nodes[i] = f(doc->nodes[i])]. *)
Definition update (f : node -> node) (i : Z) (nodes : list node) : list node :=
  alter f (Z.to_nat i) nodes.

(** ** The loop *)

(** [frame_t]. *)
Record frame := Frame { f_node : Z; f_last_child : Z; f_is_object : bool }.

Record state := State { s_parser : parser; s_stack : list frame; s_pending : option (Z * Z) }.

(** The program points of [ncfg_json_parse]'s loop: its top, the inner loop
    that closes what is finished, and [expect_key]. *)
Inductive label := VALUE | AFTER | KEY.

Inductive outcome :=
| GOTO (l : label) (s : state)
| RETURN (d : doc)
| REFUSED (e : refusal).

(** The [switch] on the value's first byte: the node it adds. [p] stands at
    that byte. *)
Definition read_scalar (p : parser) (type : json_type)
    (read : parser -> refusal + (Z * Z * parser)) : refusal + (Z * parser) :=
  match new_node p type with
  | inl e => inl e
  | inr (index, p) =>
      match read p with
      | inl e => inl e
      | inr (offset, span, p) =>
          inr (index, with_nodes p (update (set_value offset span) index (p_nodes p)))
      end
  end.

Definition read_bool (p : parser) : refusal + (Z * parser) :=
  match new_node p NCFG_JSON_BOOL with
  | inl e => inl e
  | inr (index, p) =>
      match literal (bytes "true") (p_rest p) with
      | Some rest => inr (index, with_rest (with_nodes p (update (set_bool true) index (p_nodes p))) rest)
      | None =>
          match literal (bytes "false") (p_rest p) with
          | Some rest =>
              inr (index, with_rest (with_nodes p (update (set_bool false) index (p_nodes p))) rest)
          | None => inl (Refusal "a word that is not true or false" (p_rest p))
          end
      end
  end.

Definition read_null (p : parser) : refusal + (Z * parser) :=
  match new_node p NCFG_JSON_NULL with
  | inl e => inl e
  | inr (index, p) =>
      match literal (bytes "null") (p_rest p) with
      | Some rest => inr (index, with_rest p rest)
      | None => inl (Refusal "a word that is not null" (p_rest p))
      end
  end.

Definition OPEN_OBJECT : byte := x7b.
Definition CLOSE_OBJECT : byte := x7d.
Definition OPEN_ARRAY : byte := x5b.
Definition CLOSE_ARRAY : byte := x5d.
Definition COMMA : byte := x2c.
Definition COLON : byte := x3a.

Definition read_value (depth : nat) (c : byte) (s' : list byte) (p : parser)
    : refusal + (Z * parser) :=
  if (c =b OPEN_OBJECT) || (c =b OPEN_ARRAY) then
    if (NCFG_JSON_MAX_DEPTH <=? depth)%nat
    then inl (Refusal "a document nested deeper than this reads" (p_rest p))
    else new_node (with_rest p s') (if c =b OPEN_OBJECT then NCFG_JSON_OBJECT else NCFG_JSON_ARRAY)
  else if c =b QUOTE then read_scalar (with_rest p s') NCFG_JSON_STRING parse_string
  else if (c =b "t"%byte) || (c =b "f"%byte) then read_bool p
  else if c =b "n"%byte then read_null p
  else read_scalar p NCFG_JSON_NUMBER parse_number.

(** The pending member name goes to the node just made. *)
Definition name_node (pending : option (Z * Z)) (index : Z) (nodes : list node) : list node :=
  match pending with
  | Some (offset, length) => update (set_key offset length) index nodes
  | None => nodes
  end.

(** Attach the node to the container on top of the stack. *)
Definition link (f : frame) (index : Z) (nodes : list node) : list node :=
  update count_child (f_node f)
    (if f_last_child f =? NCFG_JSON_NONE
     then update (set_first_child index) (f_node f) nodes
     else update (set_next_sibling index) (f_last_child f) nodes).

Definition attach (stack : list frame) (index : Z) (nodes : list node) : list frame * list node :=
  match stack with
  | [] => ([], nodes)
  | f :: below => (Frame (f_node f) index (f_is_object f) :: below, link f index nodes)
  end.

(** Whether the container that [c] opened closes at once. *)
Definition closes_at_once (c : byte) (s : list byte) : option (list byte) :=
  match s with
  | b :: s' =>
      if ((c =b OPEN_OBJECT) && (b =b CLOSE_OBJECT)) || ((c =b OPEN_ARRAY) && (b =b CLOSE_ARRAY))
      then Some s' else None
  | [] => None
  end.

Definition step_value (st : state) : outcome :=
  let p := with_rest (s_parser st) (skip_space (p_rest (s_parser st))) in
  match p_rest p with
  | [] => REFUSED (Refusal "a value that stops in the middle" [])
  | c :: s' =>
      match read_value (length (s_stack st)) c s' p with
      | inl e => REFUSED e
      | inr (index, p) =>
          let '(stack, nodes) :=
            attach (s_stack st) index (name_node (s_pending st) index (p_nodes p)) in
          let p := with_nodes p nodes in
          if (c =b OPEN_OBJECT) || (c =b OPEN_ARRAY) then
            let p := with_rest p (skip_space (p_rest p)) in
            match closes_at_once c (p_rest p) with
            | Some rest => GOTO AFTER (State (with_rest p rest) stack None)
            | None =>
                GOTO (if c =b OPEN_OBJECT then KEY else VALUE)
                  (State p (Frame index NCFG_JSON_NONE (c =b OPEN_OBJECT) :: stack) None)
            end
          else GOTO AFTER (State p stack None)
      end
  end.

Definition step_after (st : state) : outcome :=
  let p := with_rest (s_parser st) (skip_space (p_rest (s_parser st))) in
  match s_stack st with
  | [] =>
      match p_rest p with
      | [] => RETURN (Doc (p_text p) (p_nodes p) (p_capacity p))
      | s => REFUSED (Refusal "something after the end of the value" s)
      end
  | f :: below =>
      match p_rest p with
      | [] => REFUSED (Refusal "a container that is never closed" [])
      | next :: s' =>
          if next =b COMMA then
            GOTO (if f_is_object f then KEY else VALUE)
              (State (with_rest p s') (s_stack st) (s_pending st))
          else if ((next =b CLOSE_OBJECT) && f_is_object f) ||
                  ((next =b CLOSE_ARRAY) && negb (f_is_object f))
          then GOTO AFTER (State (with_rest p s') below (s_pending st))
          else REFUSED (Refusal "a container with something other than a comma or a close" (p_rest p))
      end
  end.

Definition step_key (st : state) : outcome :=
  let p := with_rest (s_parser st) (skip_space (p_rest (s_parser st))) in
  match p_rest p with
  | q :: s' =>
      if q =b QUOTE then
        match parse_string (with_rest p s') with
        | inl e => REFUSED e
        | inr (offset, length, p) =>
            let p := with_rest p (skip_space (p_rest p)) in
            match p_rest p with
            | c :: s'' =>
                if c =b COLON
                then GOTO VALUE (State (with_rest p s'') (s_stack st) (Some (offset, length)))
                else REFUSED (Refusal "a member name with no colon after it" (p_rest p))
            | [] => REFUSED (Refusal "a member name with no colon after it" [])
            end
        end
      else REFUSED (Refusal "an object member with no name" (p_rest p))
  | [] => REFUSED (Refusal "an object member with no name" [])
  end.

Definition step (l : label) (st : state) : outcome :=
  match l with VALUE => step_value st | AFTER => step_after st | KEY => step_key st end.

(** [None] is fuel running out, which [Json.json_parse] never does. *)
Fixpoint run (fuel : nat) (l : label) (st : state) : option (refusal + doc) :=
  match fuel with
  | O => None
  | S fuel' =>
      match step l st with
      | GOTO l st => run fuel' l st
      | RETURN d => Some (inr d)
      | REFUSED e => Some (inl e)
      end
  end.

(** [ncfg_json_parse]. The two [malloc]s at its head are granted or not by
    [malloc_ok]; the error is the reason and the byte it was found at. *)
Definition json_parse (malloc_ok : bool) (text : list byte) : option ((string * Z) + doc) :=
  if negb malloc_ok then Some (inl ("out of memory", 0))
  else
    let refused e := inl (rf_what e, zlen text - zlen (rf_rest e)) in
    match skip_space text with
    | [] => Some (refused (Refusal "an empty message" []))
    | _ =>
        r ← run (S (length text)) VALUE (State (Parser text [] [] 0) [] None);
        Some match r with inl e => refused e | inr d => inr d end
    end.
End WithAllocator.

(** ** Reading a document *)

Definition d_count (d : doc) : Z := zlen (d_nodes d).

Definition json_root (d : doc) : Z := if d_count d =? 0 then NCFG_JSON_NONE else 0.

Definition json_node (d : doc) (index : Z) : option node :=
  if d_count d <=? index then None else d_nodes d !! Z.to_nat index.

Definition json_get_type (d : doc) (index : Z) : json_type :=
  match json_node d index with Some n => n_type n | None => NCFG_JSON_NULL end.

(** [doc->text + offset] for [length] bytes. *)
Definition text_at (d : doc) (offset length : Z) : list byte :=
  take (Z.to_nat length) (drop (Z.to_nat offset) (d_text d)).

(** The walk over [next_sibling]: the first child [found] accepts. *)
Fixpoint find_child (fuel : nat) (d : doc) (found : node -> bool) (child : Z) : Z :=
  match fuel with
  | O => NCFG_JSON_NONE
  | S fuel' =>
      if child =? NCFG_JSON_NONE then NCFG_JSON_NONE
      else
        match d_nodes d !! Z.to_nat child with
        | None => NCFG_JSON_NONE
        | Some n => if found n then child else find_child fuel' d found (n_next_sibling n)
        end
  end.

Definition key_matches (d : doc) (name : list byte) (n : node) : bool :=
  (n_key_length n =? zlen name) && bytes_eqb (text_at d (n_key_offset n) (zlen name)) name.

Definition json_member (d : doc) (object : Z) (name : list byte) : Z :=
  match json_node d object with
  | Some n =>
      if bool_decide (n_type n = NCFG_JSON_OBJECT)
      then find_child (S (length (d_nodes d))) d (key_matches d name) (n_first_child n)
      else NCFG_JSON_NONE
  | None => NCFG_JSON_NONE
  end.

Fixpoint nth_child (d : doc) (index : nat) (child : Z) : Z :=
  if child =? NCFG_JSON_NONE then child
  else
    match index with
    | O => child
    | S index' =>
        match d_nodes d !! Z.to_nat child with
        | None => NCFG_JSON_NONE
        | Some n => nth_child d index' (n_next_sibling n)
        end
    end.

Definition json_at (d : doc) (array : Z) (index : nat) : Z :=
  match json_node d array with
  | Some n =>
      match n_type n with
      | NCFG_JSON_ARRAY | NCFG_JSON_OBJECT => nth_child d index (n_first_child n)
      | _ => NCFG_JSON_NONE
      end
  | None => NCFG_JSON_NONE
  end.

Definition json_count (d : doc) (index : Z) : Z :=
  match json_node d index with Some n => n_child_count n | None => 0 end.

Definition json_string (d : doc) (index : Z) : option (list byte) :=
  match json_node d index with
  | Some n =>
      if bool_decide (n_type n = NCFG_JSON_STRING)
      then Some (text_at d (n_value_offset n) (n_value_length n)) else None
  | None => None
  end.

Definition json_key (d : doc) (index : Z) : option (list byte) :=
  match json_node d index with
  | Some n =>
      if n_key_offset n =? NCFG_JSON_NONE then None
      else Some (text_at d (n_key_offset n) (n_key_length n))
  | None => None
  end.

Definition json_string_equals (d : doc) (index : Z) (other : list byte) : bool :=
  match json_string d index with Some text => bytes_eqb text other | None => false end.

(** The digits' loop of [ncfg_json_int]: [None] is its [return fallback]. *)
Fixpoint int_digits (value : Z) (s : list byte) : option Z :=
  match s with
  | [] => Some value
  | b :: s' =>
      if negb (is_digit b) then None
      else
        let digit := bz b - bz "0" in
        if (2 ^ 64 - 1 - digit) / 10 <? value then None else int_digits (value * 10 + digit) s'
  end.

(** [ncfg_json_int] on the text of a number. *)
Definition int_of_text (text : list byte) : option Z :=
  match text with
  | [] => None
  | b :: s =>
      let negative := b =b "-"%byte in
      let digits := if negative then s else text in
      match digits with
      | [] => None
      | _ =>
          value ← int_digits 0 digits;
          if negative then if 2 ^ 63 <? value then None else Some (- value)
          else if INT64_MAX <? value then None else Some value
      end
  end.

Definition json_int (d : doc) (index fallback : Z) : Z :=
  match json_node d index with
  | Some n =>
      if bool_decide (n_type n = NCFG_JSON_NUMBER)
      then default fallback (int_of_text (text_at d (n_value_offset n) (n_value_length n)))
      else fallback
  | None => fallback
  end.

Definition json_bool (d : doc) (index : Z) (fallback : bool) : bool :=
  match json_node d index with
  | Some n => if bool_decide (n_type n = NCFG_JSON_BOOL) then n_bool_value n else fallback
  | None => fallback
  end.

(** [ncfg_json_copy_member]: what is in [out] before its NUL, cut to fit. *)
Definition json_copy_member (d : doc) (object : Z) (name : list byte) (out_size : Z) : list byte :=
  match json_string d (json_member d object name) with
  | Some text => take (Z.to_nat (out_size - 1)) text
  | None => []
  end.
