(* ===== verification/JsonFacts.v ===== *)
(** * JsonFacts: the values a document stands for, and a reference reader

    [json] is a JSON value as a tree. [layout] is the node array that stands
    for a tree, written down in one go, and [text_of] its text. [ref_value] is
    the textbook recursive descent reader, over trees. The lemmas show that one
    turn of the loop of [Json.run] uses up input, and what a container's node
    list looks like when one more child is linked to it. *)
From S2P Require Import Prelude Lex Wire Json.
#[local] Open Scope Z_scope.

(** ** Values *)

#[local] Unset Elimination Schemes.
Inductive json :=
| JNull
| JBool (b : bool)
| JNumber (text : list byte)
| JString (s : list byte)
| JArray (l : list json)
| JObject (l : list (list byte * json)).
#[local] Set Elimination Schemes.

Section JsonInd.
Context (P : json -> Prop).
Context (Hnull : P JNull) (Hbool : forall b, P (JBool b)) (Hnumber : forall t, P (JNumber t)).
Context (Hstring : forall s, P (JString s)).
Context (Harray : forall l, Forall P l -> P (JArray l)).
Context (Hobject : forall l, Forall (fun kv => P (snd kv)) l -> P (JObject l)).

Fixpoint json_ind (t : json) : P t :=
  match t with
  | JNull => Hnull
  | JBool b => Hbool b
  | JNumber s => Hnumber s
  | JString s => Hstring s
  | JArray l => Harray l ((fix go l : Forall P l :=
      match l with [] => Forall_nil_2 _ | t :: l' => Forall_cons_2 _ _ _ (json_ind t) (go l') end) l)
  | JObject l => Hobject l ((fix go l : Forall (fun kv => P (snd kv)) l :=
      match l with [] => Forall_nil_2 _ | kv :: l' => Forall_cons_2 _ _ _ (json_ind (snd kv)) (go l') end) l)
  end.
End JsonInd.

Definition sum_of {A} (f : A -> Z) (l : list A) : Z := foldr (fun x n => f x + n) 0 l.

(** How many nodes, and the text they share. *)
Fixpoint size_of (t : json) : Z :=
  match t with
  | JArray l => 1 + sum_of size_of l
  | JObject l => 1 + sum_of (fun kv => size_of (snd kv)) l
  | _ => 1
  end.

Fixpoint text_of (t : json) : list byte :=
  match t with
  | JNumber s | JString s => s
  | JArray l => concat (map text_of l)
  | JObject l => concat (map (fun kv => fst kv ++ text_of (snd kv)) l)
  | _ => []
  end.

Definition member_text (kv : list byte * json) : list byte := fst kv ++ text_of (snd kv).
Definition member_size (kv : list byte * json) : Z := size_of (snd kv).

Definition key_offset (key : option (Z * Z)) : Z := match key with Some (o, _) => o | None => NCFG_JSON_NONE end.
Definition key_length (key : option (Z * Z)) : Z := match key with Some (_, n) => n | None => 0 end.

(** ** The node array of a value

    [lay x base off next]: the nodes of one child whose first node has index
    [base], whose text starts at [off] and whose next sibling is [next]. *)
Section Chain.
Context {A : Type} (size width : A -> Z) (lay : A -> Z -> Z -> Z -> list node).

Fixpoint chain (l : list A) (base off : Z) : list node :=
  match l with
  | [] => []
  | x :: l' =>
      lay x base off (match l' with [] => NCFG_JSON_NONE | _ => base + size x end) ++
      chain l' (base + size x) (off + width x)
  end.
End Chain.

Definition container (type : json_type) (key : option (Z * Z)) (next base : Z) (children : nat) : node :=
  Node type (key_offset key) (key_length key) 0 0 false
    (match children with O => NCFG_JSON_NONE | _ => base + 1 end) (Z.of_nat children) next.

Fixpoint layout (t : json) (base off : Z) (key : option (Z * Z)) (next : Z) : list node :=
  let scalar type v n b :=
    [Node type (key_offset key) (key_length key) v n b NCFG_JSON_NONE 0 next] in
  match t with
  | JNull => scalar NCFG_JSON_NULL 0 0 false
  | JBool b => scalar NCFG_JSON_BOOL 0 0 b
  | JNumber s => scalar NCFG_JSON_NUMBER off (zlen s) false
  | JString s => scalar NCFG_JSON_STRING off (zlen s) false
  | JArray l =>
      container NCFG_JSON_ARRAY key next base (length l) ::
      chain size_of (fun t => zlen (text_of t)) (fun t b o n => layout t b o None n) l (base + 1) off
  | JObject l =>
      container NCFG_JSON_OBJECT key next base (length l) ::
      chain (fun kv => size_of (snd kv)) (fun kv => zlen (fst kv ++ text_of (snd kv)))
        (fun kv b o n => layout (snd kv) b (o + zlen (fst kv)) (Some (o, zlen (fst kv))) n) l (base + 1) off
  end.

(** The document that stands for [t], but for the room it has to grow. *)
Definition doc_of (t : json) (capacity : Z) : doc :=
  Doc (text_of t) (layout t 0 0 None NCFG_JSON_NONE) capacity.

(** ** The reference reader *)

Definition ref_string (s : list byte) : refusal + (list byte * list byte) :=
  string_loop (S (length s)) s [].

Definition ref_number (s : list byte) : refusal + (list byte * list byte) :=
  match number_end s with
  | inl e => inl e
  | inr rest => inr (take (length s - length rest) s, rest)
  end.

Definition ref_scalar (c : byte) (s s' : list byte) : refusal + (json * list byte) :=
  if c =b QUOTE then
    match ref_string s' with inl e => inl e | inr (t, rest) => inr (JString t, rest) end
  else if (c =b "t"%byte) || (c =b "f"%byte) then
    match literal (bytes "true") s with
    | Some rest => inr (JBool true, rest)
    | None =>
        match literal (bytes "false") s with
        | Some rest => inr (JBool false, rest)
        | None => inl (Refusal "a word that is not true or false" s)
        end
    end
  else if c =b "n"%byte then
    match literal (bytes "null") s with
    | Some rest => inr (JNull, rest)
    | None => inl (Refusal "a word that is not null" s)
    end
  else match ref_number s with inl e => inl e | inr (t, rest) => inr (JNumber t, rest) end.

(** A member name and its colon. *)
Definition ref_key (s : list byte) : refusal + (list byte * list byte) :=
  let s := skip_space s in
  match s with
  | q :: s' =>
      if q =b QUOTE then
        match ref_string s' with
        | inl e => inl e
        | inr (k, s) =>
            let s := skip_space s in
            match s with
            | c :: s'' =>
                if c =b COLON then inr (k, s'') else inl (Refusal "a member name with no colon after it" s)
            | [] => inl (Refusal "a member name with no colon after it" [])
            end
        end
      else inl (Refusal "an object member with no name" s)
  | [] => inl (Refusal "an object member with no name" [])
  end.

(** What follows a child: [true] for a comma, [false] for the close. *)
Definition ref_next (close : byte) (s : list byte) : refusal + (bool * list byte) :=
  let s := skip_space s in
  match s with
  | [] => inl (Refusal "a container that is never closed" [])
  | next :: s' =>
      if next =b COMMA then inr (true, s')
      else if next =b close then inr (false, s')
      else inl (Refusal "a container with something other than a comma or a close" s)
  end.

Fixpoint ref_value (fuel depth : nat) (s : list byte) : refusal + (json * list byte) :=
  match fuel with
  | O => inl (Refusal "out of fuel" s)
  | S fuel =>
      let s := skip_space s in
      match s with
      | [] => inl (Refusal "a value that stops in the middle" [])
      | c :: s' =>
          if (c =b OPEN_OBJECT) || (c =b OPEN_ARRAY) then
            if (NCFG_JSON_MAX_DEPTH <=? depth)%nat
            then inl (Refusal "a document nested deeper than this reads" s)
            else
              match closes_at_once c (skip_space s') with
              | Some rest => inr (if c =b OPEN_OBJECT then JObject [] else JArray [], rest)
              | None =>
                  if c =b OPEN_OBJECT then ref_members fuel (S depth) [] (skip_space s')
                  else ref_elements fuel (S depth) [] (skip_space s')
              end
          else ref_scalar c s s'
      end
  end
with ref_elements (fuel depth : nat) (acc : list json) (s : list byte) : refusal + (json * list byte) :=
  match fuel with
  | O => inl (Refusal "out of fuel" s)
  | S fuel =>
      match ref_value fuel depth s with
      | inl e => inl e
      | inr (t, s) =>
          match ref_next CLOSE_ARRAY s with
          | inl e => inl e
          | inr (true, s) => ref_elements fuel depth (acc ++ [t]) s
          | inr (false, s) => inr (JArray (acc ++ [t]), s)
          end
      end
  end
with ref_members (fuel depth : nat) (acc : list (list byte * json)) (s : list byte)
    : refusal + (json * list byte) :=
  match fuel with
  | O => inl (Refusal "out of fuel" s)
  | S fuel =>
      match ref_key s with
      | inl e => inl e
      | inr (k, s) =>
          match ref_value fuel depth s with
          | inl e => inl e
          | inr (t, s) =>
              match ref_next CLOSE_OBJECT s with
              | inl e => inl e
              | inr (true, s) => ref_members fuel depth (acc ++ [(k, t)]) s
              | inr (false, s) => inr (JObject (acc ++ [(k, t)]), s)
              end
          end
      end
  end.

(** Twice the length of the input is fuel enough: a list of children reads
    its first child without using up a byte, everything else uses up one. *)
Definition ref_fuel (s : list byte) : nat := 2 * length s + 1.

(** The whole input is one value, and nothing but space follows it. *)
Definition ref_parse (s : list byte) : refusal + json :=
  match skip_space s with
  | [] => inl (Refusal "an empty message" [])
  | _ =>
      match ref_value (ref_fuel s) 0 s with
      | inl e => inl e
      | inr (t, rest) =>
          match skip_space rest with
          | [] => inr t
          | s => inl (Refusal "something after the end of the value" s)
          end
      end
  end.

(** ** Reading uses up input *)

Lemma skip_space_le s : (length (skip_space s) <= length s)%nat.
Proof. induction s as [|b s IH]; simpl; [lia|]. destruct (is_space b); simpl; lia. Qed.

Lemma read_nibbles_length n v s r rest :
  read_nibbles n v s = Some (r, rest) -> (length rest + n = length s)%nat.
Proof.
  revert v s. induction n as [|n IH]; intros v s; simpl; [intros [= _ <-]; lia|].
  destruct s as [|c s]; [done|]. destruct (hex_nibble c); [|done]. simpl. intros H%IH. lia.
Qed.

Lemma write_utf8_length c : (length (write_utf8 c) <= 4)%nat.
Proof. unfold write_utf8. repeat case_match; simpl; lia. Qed.

Lemma write_utf8_length_small c : c < 0x10000 -> (length (write_utf8 c) <= 3)%nat.
Proof. intros. unfold write_utf8. repeat case_match; unbool; simpl; lia. Qed.

Lemma read_nibbles_small n v s r rest :
  read_nibbles n v s = Some (r, rest) -> 0 <= v -> 0 <= r < (v + 1) * 2 ^ (4 * Z.of_nat n).
Proof.
  revert v s. induction n as [|n IH]; intros v s; cbn [read_nibbles].
  { intros [= -> ->] ?. simpl. lia. }
  destruct s as [|c s]; [done|]. unfold mbind, option_bind.
  destruct (hex_nibble c) as [d|] eqn:Hd; [|done]. simpl. intros H Hv.
  assert (0 <= d < 16) as Hd'.
  { unfold hex_nibble, byte_between in Hd. pose proof (bz_range c).
    change (bz "0") with 48 in *. change (bz "9") with 57 in *. change (bz "a") with 97 in *.
    change (bz "f") with 102 in *. change (bz "A") with 65 in *. change (bz "F") with 70 in *.
    repeat case_match; simplify_eq; unbool; lia. }
  rewrite lor_shiftl in H by lia. change (2 ^ 4) with 16 in H. apply IH in H; [|lia].
  replace (4 * Z.of_nat (S n)) with (4 * Z.of_nat n + 4) by lia.
  rewrite Z.pow_add_r by lia. change (2 ^ 4) with 16. nia.
Qed.

Lemma unicode_escape_length s bs rest :
  unicode_escape s = inr (bs, rest) -> (length bs + length rest < length s)%nat.
Proof.
  unfold unicode_escape, read_code_unit. destruct (read_nibbles 4 0 s) as [[u s1]|] eqn:E; [|done].
  pose proof (read_nibbles_length _ _ _ _ _ E). pose proof (read_nibbles_small _ _ _ _ _ E ltac:(lia)) as Hu.
  simpl in Hu. destruct (_ && _).
  - destruct s1 as [|b1 [|u1 s2]]; [done..|]. destruct (_ && _); [|done].
    destruct (read_nibbles 4 0 s2) as [[low s3]|] eqn:E2; [|done].
    pose proof (read_nibbles_length _ _ _ _ _ E2). destruct (_ || _); [done|].
    intros [= <- <-]. pose proof (write_utf8_length (0x10000 + Z.shiftl (u - 0xd800) 10 + (low - 0xdc00))).
    simpl in *. lia.
  - destruct (_ && _); [done|]. intros [= <- <-].
    pose proof (write_utf8_length_small u ltac:(lia)). lia.
Qed.

Lemma read_escape_length s bs rest :
  read_escape s = inr (bs, rest) -> (length bs + length rest <= length s)%nat /\ (length rest < length s)%nat.
Proof.
  unfold read_escape. destruct s as [|e s]; [done|]. simpl.
  repeat case_match; intros H'; simplify_eq; simpl; try lia.
  apply unicode_escape_length in H'. lia.
Qed.

(** Unescaping never makes a string longer. *)
Lemma string_loop_length fuel s out text rest :
  string_loop fuel s out = inr (text, rest) -> (length text + length rest < length out + length s)%nat.
Proof.
  revert s out. induction fuel as [|fuel IH]; intros s out; simpl; [done|].
  destruct s as [|c s]; [done|]. destruct (c =b QUOTE); [intros [= <- <-]; simpl; lia|].
  destruct (_ <? _); [done|]. destruct (negb _).
  - intros H%IH. rewrite length_app in H. simpl in *. lia.
  - destruct (read_escape s) as [|[bs s2]] eqn:E; [done|]. apply read_escape_length in E as [? ?].
    intros Hr%IH. rewrite length_app in Hr. simpl in *. lia.
Qed.

Lemma string_loop_rest fuel s out text rest :
  string_loop fuel s out = inr (text, rest) -> (length rest < length s)%nat.
Proof.
  revert s out. induction fuel as [|fuel IH]; intros s out; simpl; [done|].
  destruct s as [|c s]; [done|]. destruct (c =b QUOTE); [intros [= <- <-]; simpl; lia|].
  destruct (_ <? _); [done|]. destruct (negb _); [intros H%IH; simpl; lia|].
  destruct (read_escape s) as [|[bs s2]] eqn:E; [done|]. apply read_escape_length in E as [? ?].
  intros Hr%IH. simpl. lia.
Qed.

(** What is there already is left alone. *)
Lemma string_loop_out fuel s out :
  string_loop fuel s out =
    match string_loop fuel s [] with inl e => inl e | inr (t, rest) => inr (out ++ t, rest) end.
Proof.
  revert s out. induction fuel as [|fuel IH]; intros s out; simpl; [done|].
  destruct s as [|c s]; [done|]. destruct (c =b QUOTE); [by rewrite app_nil_r|].
  destruct (_ <? _); [done|]. destruct (negb _).
  - rewrite IH, (IH s [c]). destruct (string_loop fuel s []) as [|[t r]]; [done|]. by rewrite <- app_assoc.
  - destruct (read_escape s) as [|[bs s2]]; [done|]. rewrite IH, (IH s2 bs).
    destruct (string_loop fuel s2 []) as [|[t r]]; [done|]. by rewrite <- app_assoc.
Qed.

Lemma ref_string_length s t rest :
  ref_string s = inr (t, rest) -> (length t + length rest < length s)%nat.
Proof. unfold ref_string. intros H%string_loop_length. simpl in H. lia. Qed.

Lemma skip_digits_le s : (length (skip_digits s) <= length s)%nat.
Proof. induction s as [|b s IH]; simpl; [lia|]. destruct (is_digit b); simpl; lia. Qed.

Lemma some_digits_lt what s rest : some_digits what s = inr rest -> (length rest < length s)%nat.
Proof.
  unfold some_digits. pose proof (skip_digits_le s). case_match; [done|]. intros [= <-].
  apply Nat.eqb_neq in H0. lia.
Qed.

Lemma number_integer_lt s rest : number_integer s = inr rest -> (length rest < length s)%nat.
Proof.
  unfold number_integer. destruct s as [|b s]; [done|]. simpl. case_match; [intros [= <-]; lia|].
  destruct (byte_between "1" "9" b) eqn:E; [|done].
  assert (is_digit b = true) as ->.
  { clear -E. by destruct b. }
  intros [= <-]. pose proof (skip_digits_le s). lia.
Qed.

Lemma number_fraction_le s rest : number_fraction s = inr rest -> (length rest <= length s)%nat.
Proof.
  unfold number_fraction. destruct s as [|b s]; [intros [= <-]; lia|]. case_match.
  - intros H'%some_digits_lt. simpl. lia.
  - intros [= <-]. lia.
Qed.

Lemma number_exponent_le s rest : number_exponent s = inr rest -> (length rest <= length s)%nat.
Proof.
  unfold number_exponent. destruct s as [|b s]; [intros [= <-]; lia|]. case_match.
  - intros H'%some_digits_lt. destruct s as [|c s]; [simpl in *; lia|]. case_match; simpl in *; lia.
  - intros [= <-]. lia.
Qed.

Lemma number_end_lt s rest : number_end s = inr rest -> (length rest < length s)%nat.
Proof.
  unfold number_end. destruct (number_integer _) as [|s1] eqn:E1; [done|].
  destruct (number_fraction s1) as [|s2] eqn:E2; [done|]. intros E3%number_exponent_le.
  apply number_integer_lt in E1. apply number_fraction_le in E2.
  assert (length (number_sign s) <= length s)%nat.
  { unfold number_sign. destruct s; [done|]. case_match; simpl; lia. }
  lia.
Qed.

Lemma literal_length word s rest : literal word s = Some rest -> (length rest + length word = length s)%nat.
Proof.
  revert s. induction word as [|w word IH]; intros s; simpl; [intros [= ->]; lia|].
  destruct s as [|b s]; [done|]. case_match; [|done]. intros H'%IH. simpl. lia.
Qed.

Lemma ref_scalar_length c s s' t rest :
  s = c :: s' -> ref_scalar c s s' = inr (t, rest) -> (length (text_of t) + length rest <= length s)%nat /\
  (length rest < length s)%nat /\ size_of t = 1.
Proof.
  intros Hs. unfold ref_scalar, ref_number. repeat case_match; intros H'; simplify_eq;
    repeat match goal with
           | H : literal _ _ = Some _ |- _ => apply literal_length in H; simpl in H
           | H : ref_string _ = inr _ |- _ => apply ref_string_length in H
           | H : number_end _ = inr _ |- _ => apply number_end_lt in H; simpl in H
           end; cbn [text_of size_of]; rewrite ?length_take; simpl; try lia.
Qed.

Lemma ref_key_length s k rest : ref_key s = inr (k, rest) -> (length k + length rest < length s)%nat.
Proof.
  unfold ref_key. pose proof (skip_space_le s). destruct (skip_space s) as [|q s1]; [done|].
  case_match; [|done]. destruct (ref_string s1) as [|[k' s2]] eqn:E; [done|].
  apply ref_string_length in E. pose proof (skip_space_le s2).
  destruct (skip_space s2) as [|c s3]; [done|]. case_match; [|done]. intros [= <- <-]. simpl in *. lia.
Qed.

Lemma ref_next_length close s more rest : ref_next close s = inr (more, rest) -> (length rest < length s)%nat.
Proof.
  unfold ref_next. pose proof (skip_space_le s). destruct (skip_space s) as [|n s1]; [done|].
  repeat case_match; intros; simplify_eq; simpl in *; lia.
Qed.

Lemma closes_at_once_length c s rest : closes_at_once c s = Some rest -> (length rest < length s)%nat.
Proof. unfold closes_at_once. destruct s as [|b s]; [done|]. case_match; [|done]. intros [= <-]. simpl. lia. Qed.

(** ** One turn of the loop *)

Section Steps.
Context (realloc_ok : Z -> bool).

Lemma new_node_rest p type i p' : new_node realloc_ok p type = inr (i, p') -> p_rest p' = p_rest p.
Proof.
  unfold new_node, reserve. repeat case_match; intros; simplify_eq; done.
Qed.

Lemma read_value_rest depth c s' p i p' :
  p_rest p = c :: s' -> read_value realloc_ok depth c s' p = inr (i, p') ->
  (length (p_rest p') < length (p_rest p))%nat.
Proof.
  intros Hp. unfold read_value, read_scalar, read_bool, read_null, parse_string, parse_number.
  repeat case_match; intros; simplify_eq;
    repeat match goal with
           | H : new_node _ _ _ = inr _ |- _ => apply new_node_rest in H
           | H : string_loop _ _ _ = inr _ |- _ => apply string_loop_rest in H
           | H : number_end _ = inr _ |- _ => apply number_end_lt in H
           | H : literal _ _ = Some _ |- _ => apply literal_length in H
           end; simpl in *; rewrite ?Hp in *; simpl in *; congruence || lia || (simpl in *; congruence) || idtac.
  all: repeat match goal with H : p_rest _ = _ |- _ => rewrite H in * end; simpl in *; lia.
Qed.

Lemma step_shorter l st l' st' :
  step realloc_ok l st = GOTO l' st' ->
  (length (p_rest (s_parser st')) < length (p_rest (s_parser st)))%nat.
Proof.
  destruct st as [p stack pending]. pose proof (skip_space_le (p_rest p)) as Hsp.
  destruct l; simpl; unfold step_value, step_after, step_key; simpl; intros H.
  - destruct (skip_space (p_rest p)) as [|c s'] eqn:E; [done|].
    destruct (read_value _ _ _ _ _) as [|[i p1]] eqn:Er; [done|].
    apply read_value_rest in Er; [|done]. simpl in Er, Hsp.
    destruct (attach _ _ _) as [st2 nodes]. destruct (_ || _); [|simplify_eq; simpl; lia].
    pose proof (skip_space_le (p_rest p1)). simpl in H.
    destruct (closes_at_once _ _) as [rest|] eqn:Ec; simplify_eq; simpl; [|lia].
    apply closes_at_once_length in Ec. lia.
  - destruct stack as [|f below]; destruct (skip_space (p_rest p)) as [|next s']; try done.
    repeat case_match; simplify_eq; simpl in *; lia.
  - destruct (skip_space (p_rest p)) as [|q s']; [done|]. destruct (q =b QUOTE); [|done].
    unfold parse_string in H. cbn [with_rest p_rest p_text] in H.
    destruct (string_loop _ _ _) as [|[text rest]] eqn:Es; [done|]. apply string_loop_rest in Es.
    pose proof (skip_space_le rest). simpl in H. destruct (skip_space rest) as [|c s'']; [done|].
    destruct (c =b COLON); simplify_eq. simpl in *. lia.
Qed.

(** The loop from a program point, with fuel enough. *)
Definition go (l : label) (st : state) : option (refusal + doc) :=
  run realloc_ok (S (length (p_rest (s_parser st)))) l st.

Lemma run_go fuel l st :
  (length (p_rest (s_parser st)) < fuel)%nat -> run realloc_ok fuel l st = go l st.
Proof.
  unfold go. remember (length (p_rest (s_parser st))) as n eqn:Hn. revert fuel l st Hn.
  induction n as [n IH] using lt_wf_ind. intros fuel l st Hn Hf.
  destruct fuel as [|fuel]; [lia|]. simpl.
  destruct (step realloc_ok l st) as [l' st'| |] eqn:E; [|done..].
  apply step_shorter in E.
  assert (length (p_rest (s_parser st')) < n)%nat as Hlt by lia.
  rewrite (IH _ Hlt fuel l' st' eq_refl ltac:(lia)).
  by rewrite (IH _ Hlt n l' st' eq_refl ltac:(lia)).
Qed.

Lemma go_step l st :
  go l st =
    match step realloc_ok l st with
    | GOTO l' st' => go l' st'
    | RETURN d => Some (inr d)
    | REFUSED e => Some (inl e)
    end.
Proof.
  unfold go at 1. simpl. destruct (step realloc_ok l st) as [l' st'| |] eqn:E; [|done..].
  apply run_go. by apply step_shorter in E.
Qed.
End Steps.
