(* ===== verification/JsonSpec.v ===== *)
(** * JsonSpec: the reader is the recursive descent reader, laid out flat

    [json_parse_reference] is the equivalence of the loop over an explicit
    stack with the reference of [JsonFacts]: the same inputs are refused, for
    the same reason at the same byte, and an accepted one gives exactly the
    node array and the text of the tree the reference reads. *)
From S2P Require Import Prelude Lex Wire Json JsonFacts.
#[local] Open Scope Z_scope.

(** ** Changing one node *)

Lemma update_middle f pre (n : node) post :
  update f (zlen pre) (pre ++ n :: post) = pre ++ f n :: post.
Proof.
  unfold update, zlen. rewrite Nat2Z.id.
  induction pre as [|x pre IH]; simpl; [done|]. f_equal. apply IH.
Qed.

Lemma update_at f i pre (n : node) post :
  zlen pre = i -> update f i (pre ++ n :: post) = pre ++ f n :: post.
Proof. intros <-. apply update_middle. Qed.

Lemma update_app f i l k : 0 <= i < zlen l -> update f i (l ++ k) = update f i l ++ k.
Proof. unfold update, zlen. intros. apply alter_app_l. lia. Qed.

Lemma length_update f i l : length (update f i l) = length l.
Proof. apply length_alter. Qed.

Lemma length_link f i nodes : length (link f i nodes) = length nodes.
Proof. unfold link. rewrite length_update. case_match; by rewrite length_update. Qed.

Definition frame_ok (count : Z) (f : frame) : Prop :=
  0 <= f_node f < count /\ (f_last_child f = NCFG_JSON_NONE \/ 0 <= f_last_child f < count).

Lemma link_app f i l k : frame_ok (zlen l) f -> link f i (l ++ k) = link f i l ++ k.
Proof.
  intros [? Hl]. unfold link. destruct (Z.eqb_spec (f_last_child f) NCFG_JSON_NONE).
  - rewrite update_app by lia. rewrite update_app; [done|]. unfold zlen in *. rewrite length_update. lia.
  - destruct Hl as [|Hl]; [done|]. rewrite update_app by done. rewrite update_app; [done|].
    unfold zlen in *. rewrite length_update. lia.
Qed.

(** ** Linking one more child *)

Lemma chain_length {A} (size width : A -> Z) lay l b o :
  Forall (fun x => forall b o n, zlen (lay x b o n) = size x) l ->
  zlen (chain size width lay l b o) = sum_of size l.
Proof.
  intros Hl. revert b o. induction Hl as [|x l Hx _ IH]; intros b o; simpl; [done|].
  by rewrite zlen_app, Hx, IH.
Qed.

Section Children.
Context {A : Type} (size width : A -> Z) (lay : A -> Z -> Z -> Z -> list node).
Context (lay_length : forall x b o n, zlen (lay x b o n) = size x).
Context (lay_next : forall x b o, exists h tl, forall n, lay x b o n = set_next_sibling n h :: tl).

Lemma lay_pos x : 0 < size x.
Proof.
  rewrite <- (lay_length x 0 0 0). destruct (lay_next x 0 0) as (h & tl & E). rewrite E, zlen_cons.
  pose proof (zlen_nonneg tl). lia.
Qed.

Lemma sum_of_nonneg l : 0 <= sum_of size l.
Proof using lay_length lay_next. induction l as [|x l IH]; simpl; [lia|]. pose proof (lay_pos x). lia. Qed.

Fixpoint last_child (l : list A) (base : Z) : Z :=
  match l with
  | [] => NCFG_JSON_NONE
  | x :: l' => match l' with [] => base | _ => last_child l' (base + size x) end
  end.

Lemma last_child_range l base : l <> [] -> base <= last_child l base < base + sum_of size l.
Proof using lay_length lay_next.
  revert base. induction l as [|x l IH]; intros base Hl; [done|]. pose proof (lay_pos x).
  destruct l as [|y l]; simpl; [lia|]. specialize (IH (base + size x) ltac:(done)). simpl in IH. lia.
Qed.

Lemma last_child_snoc l x base : last_child (l ++ [x]) base = base + sum_of size l.
Proof.
  revert base. induction l as [|y l IH]; intros base; simpl; [lia|].
  destruct (l ++ [x]) eqn:E; [by destruct l|]. rewrite IH. lia.
Qed.

Lemma sum_of_snoc (f : A -> Z) l x : sum_of f (l ++ [x]) = sum_of f l + f x.
Proof. induction l as [|y l IH]; simpl; lia. Qed.

Lemma chain_snoc l x pre base off :
  l <> [] -> zlen pre = base ->
  update (set_next_sibling (base + sum_of size l)) (last_child l base) (pre ++ chain size width lay l base off)
    ++ lay x (base + sum_of size l) (off + sum_of width l) NCFG_JSON_NONE =
  pre ++ chain size width lay (l ++ [x]) base off.
Proof using lay_length lay_next.
  revert pre base off. induction l as [|y l IH]; intros pre base off Hl Hpre; [done|].
  destruct l as [|z l].
  - cbn [chain last_child sum_of foldr app]. rewrite !Z.add_0_r, !app_nil_r.
    destruct (lay_next y base off) as (h & tl & E). rewrite !E, <- Hpre, update_middle.
    rewrite <- app_assoc. simpl. done.
  - specialize (IH (pre ++ lay y base off (base + size y)) (base + size y) (off + width y)).
    rewrite zlen_app, lay_length in IH. specialize (IH ltac:(done) ltac:(lia)).
    change (last_child (y :: z :: l) base) with (last_child (z :: l) (base + size y)).
    replace (base + sum_of size (y :: z :: l)) with (base + size y + sum_of size (z :: l)) by (simpl; lia).
    replace (off + sum_of width (y :: z :: l)) with (off + width y + sum_of width (z :: l)) by (simpl; lia).
    change (chain size width lay (y :: z :: l) base off) with
      (lay y base off (base + size y) ++ chain size width lay (z :: l) (base + size y) (off + width y)).
    change (chain size width lay ((y :: z :: l) ++ [x]) base off) with
      (lay y base off (base + size y) ++ chain size width lay ((z :: l) ++ [x]) (base + size y) (off + width y)).
    rewrite !app_assoc in *. exact IH.
Qed.

(** A container of [l] whose frame is on top of the stack, with [x] linked and
    its nodes added, is the container of [l ++ [x]]. *)
Lemma link_child type key next pre i l x off (o : bool) :
  zlen pre = i -> i + 1 + sum_of size l < NCFG_JSON_NONE -> zlen l < 2 ^ 32 - 1 ->
  link (Frame i (last_child l (i + 1)) o) (i + 1 + sum_of size l)
    (pre ++ container type key next i (length l) :: chain size width lay l (i + 1) off)
    ++ lay x (i + 1 + sum_of size l) (off + sum_of width l) NCFG_JSON_NONE =
  pre ++ container type key next i (length (l ++ [x])) :: chain size width lay (l ++ [x]) (i + 1) off.
Proof using lay_length lay_next.
  intros Hpre Hi Hl. pose proof (zlen_nonneg pre). unfold link. cbn [f_node f_last_child].
  assert (count_child (match l with [] => set_first_child (i + 1 + sum_of size l) | _ => id end
            (container type key next i (length l))) = container type key next i (length (l ++ [x]))) as Hc.
  { unfold count_child, container. rewrite length_app. destruct l as [|y l]; simpl; f_equal; try lia.
    unfold u32, zlen in *. simpl in Hl. rewrite Z.mod_small by lia. lia. }
  destruct l as [|y l].
  - cbn [last_child]. rewrite Z.eqb_refl, !update_at, Hc by done. rewrite <- app_assoc. simpl.
    by rewrite !Z.add_0_r, app_nil_r.
  - pose proof (last_child_range (y :: l) (i + 1) ltac:(done)) as Hr.
    destruct (Z.eqb_spec (last_child (y :: l) (i + 1)) NCFG_JSON_NONE); [lia|].
    set (hdr := container type key next i (length (y :: l))) in *.
    rewrite (cons_middle hdr pre), (app_assoc pre [hdr]).
    assert (forall f j, i < j -> exists k, forall post, zlen (pre ++ [hdr]) <= j ->
      update f j ((pre ++ [hdr]) ++ post) = (pre ++ [hdr]) ++ k post) as Hup.
    { intros f j Hj. exists (alter f (Z.to_nat j - length (pre ++ [hdr]))%nat). intros post Hz.
      unfold update, zlen in *. rewrite alter_app_r_alt by lia. done. }
    destruct (Hup (set_next_sibling (i + 1 + sum_of size (y :: l))) (last_child (y :: l) (i + 1))
      ltac:(lia)) as [k Hk].
    pose proof (chain_snoc (y :: l) x (pre ++ [hdr]) (i + 1) off ltac:(done)) as Hs.
    rewrite zlen_app, Hpre in Hs. specialize (Hs eq_refl). rewrite zlen_app, Hpre in Hk.
    rewrite Hk in Hs |- * by (change (zlen [hdr]) with 1; lia).
    rewrite <- !app_assoc in Hs |- *. apply app_inv_head in Hs. simpl in Hs |- *.
    rewrite update_at, <- app_assoc by done. simpl in Hc |- *. rewrite Hs. unfold id in Hc. by rewrite Hc.
Qed.
End Children.

(** ** The layout of a value *)

Lemma layout_length t b o k n : zlen (layout t b o k n) = size_of t.
Proof.
  revert b o k n. induction t as [|v|v|v|l IH|l IH] using json_ind; intros b o k n; try reflexivity;
    cbn [layout size_of]; rewrite zlen_cons, chain_length; try done;
    (eapply Forall_impl; [exact IH|auto]).
Qed.

Lemma layout_next t b o k : exists h tl, forall n, layout t b o k n = set_next_sibling n h :: tl.
Proof.
  destruct t; eexists (Node _ _ _ _ _ _ _ _ 0), _; intros n; reflexivity.
Qed.

Definition lay_element (t : json) (b o n : Z) : list node := layout t b o None n.
Definition lay_member (kv : list byte * json) (b o n : Z) : list node :=
  layout (snd kv) b (o + zlen (fst kv)) (Some (o, zlen (fst kv))) n.

Lemma layout_array l b o k n :
  layout (JArray l) b o k n =
    container NCFG_JSON_ARRAY k n b (length l) ::
    chain size_of (fun t => zlen (text_of t)) lay_element l (b + 1) o.
Proof. reflexivity. Qed.

Lemma layout_object l b o k n :
  layout (JObject l) b o k n =
    container NCFG_JSON_OBJECT k n b (length l) ::
    chain member_size (fun kv => zlen (member_text kv)) lay_member l (b + 1) o.
Proof. reflexivity. Qed.

Lemma zlen_concat {A} (f : A -> list byte) l : zlen (concat (map f l)) = sum_of (fun x => zlen (f x)) l.
Proof. induction l as [|x l IH]; simpl; [done|]. by rewrite zlen_app, IH. Qed.

Lemma size_pos t : 0 < size_of t.
Proof.
  rewrite <- (layout_length t 0 0 None 0). destruct (layout_next t 0 0 None) as (h & tl & E).
  rewrite E, zlen_cons. pose proof (zlen_nonneg tl). lia.
Qed.

Lemma size_sum {A} (f : A -> json) l : zlen l <= sum_of (fun x => size_of (f x)) l.
Proof. induction l as [|x l IH]; [done|]. rewrite zlen_cons. simpl. pose proof (size_pos (f x)). lia. Qed.

(** ** Reading one value *)

Section Reader.
Context (realloc_ok : Z -> bool).
Context (granted : forall n, realloc_ok n = true).

(** The room there is: nothing here reaches the width of an index. *)
Record ready (st : state) : Prop := Ready {
  rd_capacity : 0 <= p_capacity (s_parser st);
  rd_text : zlen (p_text (s_parser st)) + zlen (p_rest (s_parser st)) < 2 ^ 30;
  rd_nodes : zlen (p_nodes (s_parser st)) + zlen (p_rest (s_parser st)) < 2 ^ 30;
  rd_stack : Forall (frame_ok (zlen (p_nodes (s_parser st)))) (s_stack st) }.

Lemma new_node_ok p type :
  0 <= p_capacity p -> zlen (p_nodes p) < 2 ^ 30 ->
  exists cap, 0 <= cap /\ new_node realloc_ok p type =
    inr (zlen (p_nodes p), Parser (p_rest p) (p_text p) (p_nodes p ++ [fresh_node type]) cap).
Proof using granted.
  intros Hc Hn. unfold new_node, reserve. destruct (Z.ltb_spec (zlen (p_nodes p)) (p_capacity p)); [eauto|].
  rewrite granted. pose proof (zlen_nonneg (p_nodes p)).
  destruct (Z.eqb_spec (p_capacity p) 0).
  - rewrite (proj2 (Z.ltb_ge 32 _)) by lia. eexists; split; [|done]; simpl; lia.
  - rewrite u32_small by lia. rewrite (proj2 (Z.ltb_ge (p_capacity p * 2) _)) by lia.
    eexists; split; [|done]; simpl; lia.
Qed.

Lemma parse_string_ok p :
  zlen (p_text p) + zlen (p_rest p) < 2 ^ 30 ->
  parse_string p =
    match ref_string (p_rest p) with
    | inl e => inl e
    | inr (t, rest) => inr (zlen (p_text p), zlen t, with_text p rest (p_text p ++ t))
    end.
Proof.
  intros Hb. unfold parse_string, ref_string. rewrite string_loop_out.
  destruct (string_loop _ _ []) as [|[t rest]] eqn:E; [done|].
  apply string_loop_length in E. simpl in E. pose proof (zlen_nonneg (p_text p)).
  rewrite zlen_app. replace (zlen (p_text p) + zlen t - zlen (p_text p)) with (zlen t) by lia.
  unfold zlen in *. by rewrite !u32_small by lia.
Qed.

Lemma parse_number_ok p :
  zlen (p_text p) + zlen (p_rest p) < 2 ^ 30 ->
  parse_number p =
    match ref_number (p_rest p) with
    | inl e => inl e
    | inr (t, rest) => inr (zlen (p_text p), zlen t, with_text p rest (p_text p ++ t))
    end.
Proof.
  intros Hb. unfold parse_number, ref_number. destruct (number_end (p_rest p)) as [|rest] eqn:E; [done|].
  apply number_end_lt in E. pose proof (zlen_nonneg (p_text p)).
  unfold zlen in *. rewrite length_take. by rewrite !u32_small by lia.
Qed.

Definition is_open (c : byte) : bool := (c =b OPEN_OBJECT) || (c =b OPEN_ARRAY).

Lemma read_scalar_ok depth c s' p :
  p_rest p = c :: s' -> is_open c = false -> 0 <= p_capacity p ->
  zlen (p_text p) + zlen (p_rest p) < 2 ^ 30 -> zlen (p_nodes p) < 2 ^ 30 ->
  match ref_scalar c (p_rest p) s' with
  | inl e => read_value realloc_ok depth c s' p = inl e
  | inr (t, rest) =>
      exists cap, 0 <= cap /\ read_value realloc_ok depth c s' p =
        inr (zlen (p_nodes p), Parser rest (p_text p ++ text_of t)
          (p_nodes p ++ layout t (zlen (p_nodes p)) (zlen (p_text p)) None NCFG_JSON_NONE) cap)
  end.
Proof using granted.
  intros Hp Hopen Hc Ht Hn. unfold read_value, ref_scalar, is_open in *. rewrite Hopen.
  assert (forall type, zlen (p_text p) + zlen s' < 2 ^ 30 /\ exists cap, 0 <= cap /\ new_node realloc_ok (with_rest p s') type =
    inr (zlen (p_nodes p), Parser s' (p_text p) (p_nodes p ++ [fresh_node type]) cap)) as Hs'.
  { intros. split; [rewrite Hp, zlen_cons in Ht; lia|]. by apply new_node_ok. }
  assert (forall type, exists cap, 0 <= cap /\ new_node realloc_ok p type =
    inr (zlen (p_nodes p), Parser (p_rest p) (p_text p) (p_nodes p ++ [fresh_node type]) cap)) as Hs
    by (intros; by apply new_node_ok).
  destruct (c =b QUOTE).
  { destruct (Hs' NCFG_JSON_STRING) as [Hb (cap & Hcap & E)]. unfold read_scalar. rewrite E.
    rewrite parse_string_ok by done. cbn [p_rest p_text].
    destruct (ref_string s') as [|[t rest]]; [done|]. exists cap. split; [done|].
    cbn [with_text with_nodes p_nodes p_rest p_text p_capacity]. by rewrite update_middle. }
  destruct ((c =b "t"%byte) || (c =b "f"%byte)).
  { destruct (Hs NCFG_JSON_BOOL) as (cap & Hcap & E). unfold read_bool. rewrite E. cbn [p_rest p_nodes].
    destruct (literal _ _); [|destruct (literal _ _); [|done]]; exists cap; (split; [done|]);
      unfold with_rest, with_nodes; simpl; by rewrite update_middle, app_nil_r. }
  destruct (c =b "n"%byte).
  { destruct (Hs NCFG_JSON_NULL) as (cap & Hcap & E). unfold read_null. rewrite E. cbn [p_rest p_nodes].
    destruct (literal _ _); [|done]; exists cap; (split; [done|]);
      unfold with_rest; simpl; by rewrite app_nil_r. }
  destruct (Hs NCFG_JSON_NUMBER) as (cap & Hcap & E). unfold read_scalar. rewrite E.
  rewrite parse_number_ok by done. cbn [p_rest p_text].
  destruct (ref_number (p_rest p)) as [|[t rest]]; [done|]. exists cap. split; [done|].
  cbn [with_text with_nodes p_nodes p_rest p_text p_capacity]. by rewrite update_middle.
Qed.

(** ** Whole values *)

Lemma attach_app stack i nodes k :
  Forall (frame_ok (zlen nodes)) stack ->
  attach stack i (nodes ++ k) = (fst (attach stack i nodes), snd (attach stack i nodes) ++ k).
Proof. destruct stack as [|f below]; [done|]. intros [Hf _]%Forall_cons. simpl. by rewrite link_app. Qed.

Lemma attach_length stack i nodes : zlen (snd (attach stack i nodes)) = zlen nodes.
Proof. destruct stack; [done|]. simpl. unfold zlen. by rewrite length_link. Qed.

Lemma attach_frames stack i nodes count :
  Forall (frame_ok (zlen nodes)) stack -> zlen nodes <= count -> 0 <= i < count ->
  Forall (frame_ok count) (fst (attach stack i nodes)).
Proof.
  intros Hs Hc Hi. destruct stack as [|f below]; [done|]. apply Forall_cons in Hs as [[? _] Hb].
  simpl. constructor; [split; simpl; [lia|by right]|].
  eapply Forall_impl; [exact Hb|]. intros g [? ?]. split; [lia|]. lia.
Qed.

(** The state after the value [t], which [st] was about to read. *)
Definition put (st : state) (rest : list byte) (t : json) (cap : Z) : state :=
  let p := s_parser st in
  let i := zlen (p_nodes p) in
  State (Parser rest (p_text p ++ text_of t)
           (snd (attach (s_stack st) i (p_nodes p)) ++
            layout t i (zlen (p_text p)) (s_pending st) NCFG_JSON_NONE) cap)
    (fst (attach (s_stack st) i (p_nodes p))) None.

(** Reading [t] used up at least as many bytes as its text and its nodes. *)
Definition used (t : json) (rest rest' : list byte) : Prop :=
  zlen (text_of t) + zlen rest' <= zlen rest /\ size_of t + zlen rest' <= zlen rest.

Lemma put_ready st rest t cap :
  ready st -> used t (p_rest (s_parser st)) rest -> 0 <= cap -> ready (put st rest t cap).
Proof.
  intros [? ? ? Hs] [? ?] ?. pose proof (size_pos t). pose proof (zlen_nonneg (p_nodes (s_parser st))).
  split; simpl; rewrite ?zlen_app, ?attach_length, ?layout_length; try lia.
  apply attach_frames; [done|lia|lia].
Qed.

(** A container that is being read: [pre] are the nodes before it, [text0] the
    text before it, [acc] the children it has. *)
Definition array_state pre text0 key acc rest cap below : state :=
  State (Parser rest (text0 ++ text_of (JArray acc))
           (pre ++ layout (JArray acc) (zlen pre) (zlen text0) key NCFG_JSON_NONE) cap)
    (Frame (zlen pre) (last_child size_of acc (zlen pre + 1)) false :: below) None.

Definition object_state pre text0 key acc more rest cap below pending : state :=
  State (Parser rest ((text0 ++ text_of (JObject acc)) ++ more)
           (pre ++ layout (JObject acc) (zlen pre) (zlen text0) key NCFG_JSON_NONE) cap)
    (Frame (zlen pre) (last_child member_size acc (zlen pre + 1)) true :: below) pending.

Definition closed_state pre text0 key t rest cap below : state :=
  State (Parser rest (text0 ++ text_of t)
           (pre ++ layout t (zlen pre) (zlen text0) key NCFG_JSON_NONE) cap) below None.

Lemma put_array pre text0 key acc rest cap below rest' t cap' :
  ready (array_state pre text0 key acc rest cap below) ->
  put (array_state pre text0 key acc rest cap below) rest' t cap' =
  array_state pre text0 key (acc ++ [t]) rest' cap' below.
Proof.
  intros [_ _ Hn _]. unfold put, array_state in *.
  cbn [s_parser s_stack s_pending p_text p_nodes p_rest attach fst snd] in *.
  assert (zlen (pre ++ layout (JArray acc) (zlen pre) (zlen text0) key NCFG_JSON_NONE) =
    zlen pre + 1 + sum_of size_of acc) as Hlen by (rewrite zlen_app, layout_length; simpl; lia).
  rewrite Hlen in *. pose proof (size_sum id acc : zlen acc <= sum_of size_of acc).
  pose proof (zlen_nonneg pre). pose proof (zlen_nonneg rest).
  f_equal; [|by rewrite last_child_snoc]. f_equal.
  - cbn [text_of]. rewrite map_app, concat_app. simpl. by rewrite app_nil_r, <- app_assoc.
  - rewrite zlen_app. cbn [text_of]. rewrite zlen_concat, !layout_array.
    apply (link_child size_of (fun t => zlen (text_of t)) lay_element (fun t b o n => layout_length t b o None n)
      (fun t b o => layout_next t b o None)); unfold NCFG_JSON_NONE; [done|lia|lia].
Qed.

Lemma put_object pre text0 key acc k rest cap below rest' t cap' :
  ready (object_state pre text0 key acc k rest cap below
    (Some (zlen (text0 ++ text_of (JObject acc)), zlen k))) ->
  put (object_state pre text0 key acc k rest cap below
    (Some (zlen (text0 ++ text_of (JObject acc)), zlen k))) rest' t cap' =
  object_state pre text0 key (acc ++ [(k, t)]) [] rest' cap' below None.
Proof.
  intros [_ _ Hn _]. unfold put, object_state in *.
  cbn [s_parser s_stack s_pending p_text p_nodes p_rest attach fst snd] in *.
  assert (zlen (pre ++ layout (JObject acc) (zlen pre) (zlen text0) key NCFG_JSON_NONE) =
    zlen pre + 1 + sum_of member_size acc) as Hlen by (rewrite zlen_app, layout_length; simpl; unfold member_size; lia).
  rewrite Hlen in *. pose proof (size_sum snd acc : zlen acc <= sum_of member_size acc).
  pose proof (zlen_nonneg pre). pose proof (zlen_nonneg rest).
  f_equal; [|by rewrite last_child_snoc]. f_equal.
  - cbn [text_of]. rewrite map_app, concat_app, app_nil_r. simpl. by rewrite app_nil_r, <- !app_assoc.
  - rewrite (zlen_app _ k), (zlen_app text0). cbn [text_of]. rewrite zlen_concat, !layout_object.
    apply (link_child member_size (fun kv => zlen (member_text kv)) lay_member
      (fun kv b o n => layout_length (snd kv) b _ _ n) (fun kv b o => layout_next (snd kv) b _ _)
      NCFG_JSON_OBJECT key NCFG_JSON_NONE pre (zlen pre) acc (k, t)); unfold NCFG_JSON_NONE; [done|lia|lia].
Qed.

(** ** Each turn against the reference *)

Lemma step_after_ok st f below :
  s_stack st = f :: below ->
  step realloc_ok AFTER st =
    match ref_next (if f_is_object f then CLOSE_OBJECT else CLOSE_ARRAY) (p_rest (s_parser st)) with
    | inl e => REFUSED e
    | inr (true, s) =>
        GOTO (if f_is_object f then KEY else VALUE) (State (with_rest (s_parser st) s) (f :: below) (s_pending st))
    | inr (false, s) => GOTO AFTER (State (with_rest (s_parser st) s) below (s_pending st))
    end.
Proof.
  destruct st as [p stack pending]. intros Hs. simpl in Hs. subst stack.
  simpl. unfold step_after, ref_next. simpl. destruct (skip_space (p_rest p)) as [|next s']; [done|].
  destruct (next =b COMMA); [done|].
  destruct (f_is_object f); rewrite ?andb_true_r, ?andb_false_r, ?orb_false_r;
    [destruct (next =b CLOSE_OBJECT)|destruct (next =b CLOSE_ARRAY)]; done.
Qed.

Lemma step_key_ok pre text0 key acc rest cap below :
  ready (object_state pre text0 key acc [] rest cap below None) ->
  step realloc_ok KEY (object_state pre text0 key acc [] rest cap below None) =
    match ref_key rest with
    | inl e => REFUSED e
    | inr (k, s) =>
        GOTO VALUE (object_state pre text0 key acc k s cap below
          (Some (zlen (text0 ++ text_of (JObject acc)), zlen k)))
    end.
Proof.
  intros [_ Ht _ _]. unfold object_state in *. rewrite app_nil_r in *. simpl in Ht.
  cbn [step]. unfold step_key, ref_key. cbn [s_parser with_rest p_rest p_text p_nodes p_capacity].
  pose proof (skip_space_le rest) as Hsp.
  destruct (skip_space rest) as [|q s']; [done|]. destruct (q =b QUOTE); [|done].
  rewrite parse_string_ok by (unfold zlen in *; simpl in *; lia). cbn [with_rest p_rest p_text].
  destruct (ref_string s') as [|[k s2]]; [done|]. cbn [with_text with_rest p_rest p_text p_nodes p_capacity].
  destruct (skip_space s2) as [|c s3]; [done|]. by destruct (c =b COLON).
Qed.

Lemma ready_rest p stack pending rest pending' :
  ready (State p stack pending) -> (length rest <= length (p_rest p))%nat ->
  ready (State (with_rest p rest) stack pending').
Proof. intros [? ? ? ?] ?. split; simpl in *; unfold zlen in *; try lia. done. Qed.

Definition empty_container (c : byte) : json := if c =b OPEN_OBJECT then JObject [] else JArray [].

(** What the loop does with a byte that opens a container. *)
Lemma step_open_ok st c s' :
  ready st -> skip_space (p_rest (s_parser st)) = c :: s' -> is_open c = true ->
  (length (s_stack st) < NCFG_JSON_MAX_DEPTH)%nat ->
  let i := zlen (p_nodes (s_parser st)) in
  let below := fst (attach (s_stack st) i (p_nodes (s_parser st))) in
  let pre := snd (attach (s_stack st) i (p_nodes (s_parser st))) in
  let text0 := p_text (s_parser st) in
  exists cap, 0 <= cap /\ step realloc_ok VALUE st =
    match closes_at_once c (skip_space s') with
    | Some rest => GOTO AFTER (put st rest (empty_container c) cap)
    | None =>
        if c =b OPEN_OBJECT
        then GOTO KEY (object_state pre text0 (s_pending st) [] [] (skip_space s') cap below None)
        else GOTO VALUE (array_state pre text0 (s_pending st) [] (skip_space s') cap below)
    end.
Proof using granted.
  intros [Hc Ht Hn Hs] Hsp Hopen Hd i below pre text0. cbn [step]. unfold step_value, with_rest, with_nodes.
  cbn [with_rest p_rest]. rewrite Hsp. unfold read_value, is_open in *. rewrite Hopen. unfold with_rest.
  rewrite (proj2 (Nat.leb_gt _ _)) by done. cbn [with_rest p_rest p_text p_nodes p_capacity].
  pose proof (zlen_nonneg (p_rest (s_parser st))).
  set (type := if c =b OPEN_OBJECT then NCFG_JSON_OBJECT else NCFG_JSON_ARRAY).
  destruct (new_node_ok (Parser s' (p_text (s_parser st)) (p_nodes (s_parser st)) (p_capacity (s_parser st)))
    type Hc ltac:(simpl; lia)) as (cap & Hcap & E).
  rewrite E. clear E. exists cap. split; [done|]. cbn [p_rest p_text p_nodes].
  assert (name_node (s_pending st) (zlen (p_nodes (s_parser st)))
    (p_nodes (s_parser st) ++ [fresh_node type]) =
    p_nodes (s_parser st) ++ [container type (s_pending st) NCFG_JSON_NONE i 0]) as ->.
  { unfold name_node. destruct (s_pending st) as [[o n]|]; [by rewrite update_middle|done]. }
  rewrite attach_app by done. cbn [fst snd with_nodes with_rest p_rest p_text p_nodes p_capacity].
  assert (zlen pre = i) as Hpre by apply attach_length. fold i. fold pre. fold below.
  unfold put, object_state, array_state, empty_container. fold i. fold pre. fold below. fold text0. rewrite Hpre.
  destruct (closes_at_once c (skip_space s')) as [rest|] eqn:Ec.
  { unfold type. destruct (c =b OPEN_OBJECT); simpl; by rewrite app_nil_r. }
  unfold type. destruct (c =b OPEN_OBJECT); simpl; by rewrite !app_nil_r.
Qed.

(** ** The three readers together *)

Definition value_ok (fuel : nat) : Prop := forall st,
  ready st -> (2 * length (p_rest (s_parser st)) + 1 <= fuel)%nat ->
  match ref_value fuel (length (s_stack st)) (p_rest (s_parser st)) with
  | inl e => go realloc_ok VALUE st = Some (inl e)
  | inr (t, rest) =>
      used t (p_rest (s_parser st)) rest /\
      exists cap, 0 <= cap /\ go realloc_ok VALUE st = go realloc_ok AFTER (put st rest t cap)
  end.

(** [grown l t rest rest']: the container [l] became [t]. *)
Definition grown (l t : json) (rest rest' : list byte) : Prop :=
  zlen (text_of t) + zlen rest' <= zlen (text_of l) + zlen rest /\
  size_of t + zlen rest' <= size_of l + zlen rest.

Definition elements_ok (fuel : nat) : Prop := forall pre text0 key acc rest cap below,
  let st := array_state pre text0 key acc rest cap below in
  ready st -> (2 * length rest + 2 <= fuel)%nat ->
  match ref_elements fuel (S (length below)) acc rest with
  | inl e => go realloc_ok VALUE st = Some (inl e)
  | inr (t, rest') =>
      grown (JArray acc) t rest rest' /\
      exists cap', 0 <= cap' /\
        go realloc_ok VALUE st = go realloc_ok AFTER (closed_state pre text0 key t rest' cap' below)
  end.

Definition members_ok (fuel : nat) : Prop := forall pre text0 key acc rest cap below,
  let st := object_state pre text0 key acc [] rest cap below None in
  ready st -> (2 * length rest + 2 <= fuel)%nat ->
  match ref_members fuel (S (length below)) acc rest with
  | inl e => go realloc_ok KEY st = Some (inl e)
  | inr (t, rest') =>
      grown (JObject acc) t rest rest' /\
      exists cap', 0 <= cap' /\
        go realloc_ok KEY st = go realloc_ok AFTER (closed_state pre text0 key t rest' cap' below)
  end.

Lemma attach_stack_length stack i nodes : length (fst (attach stack i nodes)) = length stack.
Proof. by destruct stack. Qed.

Lemma ready_opened st c s' type n cap (o : bool) :
  ready st -> skip_space (p_rest (s_parser st)) = c :: s' -> 0 <= cap ->
  let i := zlen (p_nodes (s_parser st)) in
  ready (State (Parser (skip_space s') (p_text (s_parser st))
           (snd (attach (s_stack st) i (p_nodes (s_parser st))) ++ [container type (s_pending st) n i 0]) cap)
    (Frame i NCFG_JSON_NONE o :: fst (attach (s_stack st) i (p_nodes (s_parser st)))) None).
Proof.
  intros [Hc Ht Hn Hs] Hsp Hcap i. pose proof (skip_space_le (p_rest (s_parser st))) as H1.
  rewrite Hsp in H1. pose proof (skip_space_le s'). pose proof (zlen_nonneg (p_nodes (s_parser st))).
  assert (zlen (skip_space s') + 1 <= zlen (p_rest (s_parser st))) by (unfold zlen; simpl in H1; lia).
  split; simpl; rewrite ?zlen_app, ?attach_length; change (zlen [_]) with 1; try lia.
  constructor; [split; simpl; [unfold i; lia|by left]|]. apply attach_frames; [done|lia|unfold i; lia].
Qed.

Lemma value_scalar fuel st c s' :
  ready st -> skip_space (p_rest (s_parser st)) = c :: s' -> is_open c = false ->
  match ref_value (S fuel) (length (s_stack st)) (p_rest (s_parser st)) with
  | inl e => go realloc_ok VALUE st = Some (inl e)
  | inr (t, rest) =>
      used t (p_rest (s_parser st)) rest /\
      exists cap, 0 <= cap /\ go realloc_ok VALUE st = go realloc_ok AFTER (put st rest t cap)
  end.
Proof using granted.
  intros [Hc Ht Hn Hs] E Hopen. pose proof (skip_space_le (p_rest (s_parser st))) as Hsp.
  cbn [ref_value]. rewrite E in *. fold (is_open c). rewrite Hopen.
  set (p := with_rest (s_parser st) (c :: s')).
  assert (zlen (c :: s') <= zlen (p_rest (s_parser st))) as Hle by (unfold zlen; lia).
  pose proof (zlen_nonneg (c :: s')).
  pose proof (read_scalar_ok (length (s_stack st)) c s' p eq_refl Hopen Hc ltac:(simpl; lia) ltac:(simpl; lia)) as Hr.
  change (p_rest p) with (c :: s') in Hr.
  destruct (ref_scalar c (c :: s') s') as [e|[t rest]] eqn:Er.
  { rewrite go_step. cbn [step]. unfold step_value. cbn [with_rest p_rest]. rewrite E. fold p. by rewrite Hr. }
  destruct (ref_scalar_length c (c :: s') s' t rest eq_refl Er) as (? & ? & Hsz).
  destruct Hr as (cap & Hcap & Hr). split; [unfold used, zlen in *; lia|].
  exists cap. split; [done|]. rewrite go_step. cbn [step]. unfold step_value.
  cbn [with_rest p_rest]. rewrite E. fold p. rewrite Hr. unfold is_open in Hopen. rewrite Hopen.
  change (p_nodes p) with (p_nodes (s_parser st)). change (p_text p) with (p_text (s_parser st)).
  cbn [p_nodes]. set (i := zlen (p_nodes (s_parser st))).
  assert (name_node (s_pending st) i (p_nodes (s_parser st) ++
    layout t i (zlen (p_text (s_parser st))) None NCFG_JSON_NONE) = p_nodes (s_parser st) ++
    layout t i (zlen (p_text (s_parser st))) (s_pending st) NCFG_JSON_NONE) as ->.
  { unfold name_node. destruct (s_pending st) as [[o n]|]; [|done].
    unfold ref_scalar in Er. repeat case_match; simplify_eq; cbn [layout]; by apply update_at. }
  by rewrite attach_app.
Qed.

(** The nodes and the frames before the container that [st] is about to read. *)
Definition before_nodes (st : state) : list node :=
  snd (attach (s_stack st) (zlen (p_nodes (s_parser st))) (p_nodes (s_parser st))).
Definition before_stack (st : state) : list frame :=
  fst (attach (s_stack st) (zlen (p_nodes (s_parser st))) (p_nodes (s_parser st))).

Lemma closed_put st t rest cap :
  closed_state (before_nodes st) (p_text (s_parser st)) (s_pending st) t rest cap (before_stack st) =
  put st rest t cap.
Proof. unfold closed_state, put, before_nodes. by rewrite attach_length. Qed.

Lemma value_step fuel : elements_ok fuel -> members_ok fuel -> value_ok (S fuel).
Proof using granted.
  intros He Hm st Hst Hf. pose proof (skip_space_le (p_rest (s_parser st))) as Hsp.
  destruct (skip_space (p_rest (s_parser st))) as [|c s'] eqn:E.
  { cbn [ref_value]. rewrite E, go_step. cbn [step]. unfold step_value. cbn [with_rest p_rest]. by rewrite E. }
  destruct (is_open c) eqn:Hopen; [|by eapply value_scalar].
  cbn [ref_value]. rewrite E. fold (is_open c). rewrite Hopen. simpl in Hsp. pose proof (skip_space_le s').
  destruct (Nat.leb_spec NCFG_JSON_MAX_DEPTH (length (s_stack st))) as [Hd|Hd].
  { rewrite go_step. cbn [step]. unfold step_value, read_value. cbn [with_rest p_rest]. rewrite E.
    unfold is_open in Hopen. rewrite Hopen. by rewrite (proj2 (Nat.leb_le NCFG_JSON_MAX_DEPTH _) Hd). }
  destruct (step_open_ok st c s' Hst E Hopen Hd) as (cap & Hcap & Hstep). cbn zeta in Hstep.
  fold (before_nodes st) (before_stack st) in Hstep. rewrite go_step, Hstep.
  destruct (closes_at_once c (skip_space s')) as [rest|] eqn:Ec.
  { split; [|by exists cap]. apply closes_at_once_length in Ec.
    unfold used, zlen. destruct (c =b OPEN_OBJECT); simpl; lia. }
  assert (forall t rest, grown (JArray []) t (skip_space s') rest -> used t (p_rest (s_parser st)) rest) as Hg.
  { unfold grown, used, zlen. simpl. lia. }
  destruct (c =b OPEN_OBJECT).
  - specialize (Hm (before_nodes st) (p_text (s_parser st)) (s_pending st) [] (skip_space s') cap (before_stack st)).
    cbn zeta in Hm. unfold before_stack at 2 in Hm. rewrite attach_stack_length in Hm.
    pose proof (ready_opened st c s' NCFG_JSON_OBJECT NCFG_JSON_NONE cap true Hst E Hcap) as Hr.
    specialize (Hm ltac:(unfold object_state, before_nodes; rewrite attach_length; simpl; rewrite !app_nil_r; exact Hr)
      ltac:(lia)).
    destruct (ref_members _ _ _ _) as [e|[t rest]]; [done|].
    destruct Hm as [? (cap' & ? & Hm)]. rewrite closed_put in Hm. eauto.
  - specialize (He (before_nodes st) (p_text (s_parser st)) (s_pending st) [] (skip_space s') cap (before_stack st)).
    cbn zeta in He. unfold before_stack at 2 in He. rewrite attach_stack_length in He.
    pose proof (ready_opened st c s' NCFG_JSON_ARRAY NCFG_JSON_NONE cap false Hst E Hcap) as Hr.
    specialize (He ltac:(unfold array_state, before_nodes; rewrite attach_length; simpl; rewrite !app_nil_r; exact Hr)
      ltac:(lia)).
    destruct (ref_elements _ _ _ _) as [e|[t rest]]; [done|].
    destruct He as [? (cap' & ? & He)]. rewrite closed_put in He. eauto.
Qed.

Lemma elements_step fuel : value_ok fuel -> elements_ok fuel -> elements_ok (S fuel).
Proof.
  intros Hv He pre text0 key acc rest cap below st Hst Hf. cbn [ref_elements].
  specialize (Hv st Hst). change (p_rest (s_parser st)) with rest in Hv.
  change (length (s_stack st)) with (S (length below)) in Hv. specialize (Hv ltac:(lia)).
  destruct (ref_value fuel (S (length below)) rest) as [e|[t rest1]]; [done|].
  destruct Hv as [Hu (cap1 & Hcap & Hv)]. pose proof (put_ready st rest1 t cap1 Hst Hu Hcap) as Hst1.
  unfold st in Hv, Hst1. rewrite put_array in Hv, Hst1 by done. unfold st. rewrite Hv, go_step. erewrite step_after_ok by reflexivity.
  cbn [array_state object_state s_parser p_rest f_is_object].
  destruct (ref_next CLOSE_ARRAY rest1) as [e|[more rest2]] eqn:En; [done|]. apply ref_next_length in En.
  assert (grown (JArray acc) (JArray (acc ++ [t])) rest rest2) as Hg.
  { destruct Hu. unfold grown. cbn [text_of size_of]. rewrite map_app, concat_app, sum_of_snoc. simpl.
    rewrite app_nil_r, zlen_app. unfold zlen in *. change (p_rest (s_parser st)) with rest in *. lia. }
  destruct more; [|eauto].
  specialize (He pre text0 key (acc ++ [t]) rest2 cap1 below). cbn zeta in He.
  specialize (He (ready_rest _ _ _ rest2 None Hst1 ltac:(simpl; lia))).
  assert (length rest1 <= length rest)%nat.
  { destruct Hu. pose proof (zlen_nonneg (text_of t)). unfold zlen in *. change (p_rest (s_parser st)) with rest in *. lia. }
  specialize (He ltac:(lia)).
  destruct (ref_elements fuel _ _ rest2) as [e|[t' rest']]; [done|].
  destruct He as [[? ?] He]. split; [destruct Hg; split; lia|done].
Qed.

Lemma members_step fuel : value_ok fuel -> members_ok fuel -> members_ok (S fuel).
Proof.
  intros Hv Hm pre text0 key acc rest cap below st Hst Hf. cbn [ref_members]. unfold st in *.
  rewrite go_step, step_key_ok by done.
  destruct (ref_key rest) as [e|[k rest0]] eqn:Ek; [done|]. apply ref_key_length in Ek.
  set (st0 := object_state pre text0 key acc k rest0 cap below _).
  assert (ready st0) as Hst0.
  { destruct Hst as [? Ht Hn ?]. unfold object_state in *. cbn [s_parser p_text p_rest p_nodes] in *.
    rewrite app_nil_r in Ht. split; [done| | |done]; cbn [s_parser p_text p_rest p_nodes st0];
      rewrite ?(zlen_app _ k); unfold zlen in *; lia. }
  specialize (Hv st0 Hst0). change (p_rest (s_parser st0)) with rest0 in Hv.
  change (length (s_stack st0)) with (S (length below)) in Hv. specialize (Hv ltac:(lia)).
  destruct (ref_value fuel (S (length below)) rest0) as [e|[t rest1]]; [done|].
  destruct Hv as [Hu (cap1 & Hcap & Hv)]. pose proof (put_ready st0 rest1 t cap1 Hst0 Hu Hcap) as Hst1.
  unfold st0 in Hv, Hst1. rewrite put_object in Hv, Hst1 by done. fold st0 in Hv. rewrite Hv, go_step. erewrite step_after_ok by reflexivity.
  cbn [array_state object_state s_parser p_rest f_is_object].
  destruct (ref_next CLOSE_OBJECT rest1) as [e|[more rest2]] eqn:En; [done|]. apply ref_next_length in En.
  assert (grown (JObject acc) (JObject (acc ++ [(k, t)])) rest rest2) as Hg.
  { destruct Hu. unfold grown. cbn [text_of size_of]. rewrite map_app, concat_app, sum_of_snoc. simpl.
    rewrite app_nil_r, !zlen_app. unfold zlen in *. change (p_rest (s_parser st0)) with rest0 in *. lia. }
  destruct more; [|unfold closed_state; rewrite app_nil_r; eauto].
  specialize (Hm pre text0 key (acc ++ [(k, t)]) rest2 cap1 below). cbn zeta in Hm.
  specialize (Hm (ready_rest _ _ _ rest2 None Hst1 ltac:(simpl; lia))).
  assert (length rest1 <= length rest0)%nat.
  { destruct Hu. pose proof (zlen_nonneg (text_of t)). unfold zlen in *. change (p_rest (s_parser st0)) with rest0 in *. lia. }
  specialize (Hm ltac:(lia)).
  destruct (ref_members fuel _ _ rest2) as [e|[t' rest']]; [done|].
  destruct Hm as [[? ?] Hm]. split; [destruct Hg; split; lia|done].
Qed.

Lemma readers_ok fuel : value_ok fuel /\ elements_ok fuel /\ members_ok fuel.
Proof using granted.
  induction fuel as [|fuel (IHv & IHe & IHm)].
  - repeat split; intros; unfold value_ok, elements_ok, members_ok; intros; lia.
  - repeat split; [by apply value_step|by apply elements_step|by apply members_step].
Qed.
End Reader.

(** What a refusal of the reference looks like to the caller: the byte it was
    found at instead of the input from there on. *)
Definition located (text : list byte) (e : refusal) : string * Z :=
  (rf_what e, zlen text - zlen (rf_rest e)).

Lemma json_parse_ref realloc_ok text :
  (forall n, realloc_ok n = true) -> zlen text < 2 ^ 30 ->
  exists capacity, json_parse realloc_ok true text =
    Some match ref_parse text with
         | inl e => inl (located text e)
         | inr t => inr (doc_of t capacity)
         end.
Proof.
  intros Hg Hb. unfold json_parse, ref_parse. simpl negb. cbn [negb].
  destruct (skip_space text) as [|c s'] eqn:E; [by exists 0|].
  set (st := State (Parser text [] [] 0) [] None).
  assert (ready st) as Hst by (split; simpl; [lia|change (zlen []) with 0; lia..|done]).
  destruct (readers_ok realloc_ok Hg (ref_fuel text)) as [Hv _].
  specialize (Hv st Hst ltac:(unfold ref_fuel; simpl; lia)). unfold go in Hv at 1 2.
  change (p_rest (s_parser st)) with text in Hv. change (length (s_stack st)) with 0%nat in Hv.
  destruct (ref_value (ref_fuel text) 0 text) as [e|[t rest]]; [exists 0; by rewrite Hv|].
  destruct Hv as [_ (cap & _ & Hv)]. exists cap. rewrite Hv, go_step.
  cbn [step]. unfold step_after, put. simpl. by destruct (skip_space rest).
Qed.

(** A value has no more text and no more nodes than the bytes it was read from. *)
Lemma ref_parse_small text t :
  ref_parse text = inr t -> zlen text < 2 ^ 30 -> size_of t <= zlen text /\ zlen (text_of t) <= zlen text.
Proof.
  intros Hp Hb. unfold ref_parse in Hp. destruct (skip_space text); [done|].
  set (st := State (Parser text [] [] 0) [] None).
  assert (ready st) as Hst by (split; simpl; [lia|change (zlen []) with 0; lia..|done]).
  destruct (readers_ok (fun _ => true) (fun _ => eq_refl) (ref_fuel text)) as [Hv _].
  specialize (Hv st Hst ltac:(unfold ref_fuel; simpl; lia)).
  change (p_rest (s_parser st)) with text in Hv. change (length (s_stack st)) with 0%nat in Hv.
  destruct (ref_value (ref_fuel text) 0 text) as [e|[v rest]]; [done|].
  destruct (skip_space rest); [|done]. injection Hp as ->. destruct Hv as [[? ?] _].
  pose proof (zlen_nonneg rest). lia.
Qed.

(** C17: The iterative reader is the recursive descent reader. For every input
    under a gigabyte, with memory granted, the loop over the explicit stack
    refuses exactly what the reference refuses, for the same reason at the same
    byte, and otherwise returns exactly the node array and the text buffer of
    the tree the reference reads. *)
Theorem json_parse_reference realloc_ok text :
  (forall n, realloc_ok n = true) -> zlen text < 2 ^ 30 ->
  exists capacity, json_parse realloc_ok true text =
    Some match ref_parse text with
         | inl e => inl (located text e)
         | inr t => inr (doc_of t capacity)
         end.
Proof. apply json_parse_ref. Qed.

Definition sample_text : list byte :=
  map (fun b => if b =b "'"%byte then QUOTE else b) (bytes " {'a':[1,-2.5e3,true,null],'bb':{}, 'c':'x\n\u00e9\ud83d\ude00', '':0} ").

Definition sample_tree : json :=
  JObject [(bytes "a", JArray [JNumber (bytes "1"); JNumber (bytes "-2.5e3"); JBool true; JNull]);
           (bytes "bb", JObject []);
           (bytes "c", JString (bytes "x" ++ [x0a; xc3; xa9; xf0; x9f; x98; x80]));
           ([], JNumber (bytes "0"))].

Lemma json_parse_reference_witness :
  ref_parse sample_text = inr sample_tree /\
  (exists capacity, json_parse (fun _ => true) true sample_text = Some (inr (doc_of sample_tree capacity))) /\
  exists capacity, json_parse (fun _ => true) true (bytes "[1,}") =
    Some (match ref_parse (bytes "[1,}") with inl e => inl (located (bytes "[1,}") e) | inr t => inr (doc_of t capacity) end).
Proof.
  split; [vm_compute; reflexivity|]. split.
  - pose proof (json_parse_reference (fun _ => true) sample_text (fun _ => eq_refl) ltac:(vm_compute; reflexivity)) as [c H].
    exists c. rewrite H. vm_compute. reflexivity.
  - apply (json_parse_reference (fun _ => true) (bytes "[1,}") (fun _ => eq_refl)). vm_compute. reflexivity.
Defined.

(** ** What holds at every turn, whatever the allocator does *)

Inductive reaches (realloc_ok : Z -> bool) (text : list byte) : label -> state -> Prop :=
| reaches_start : reaches realloc_ok text VALUE (State (Parser text [] [] 0) [] None)
| reaches_step l st l' st' :
    reaches realloc_ok text l st -> step realloc_ok l st = GOTO l' st' -> reaches realloc_ok text l' st'.

(** The write head and the node count stay behind the read head, the stack
    fits its array, and every index in it is a node's. *)
Definition loop_inv (text : list byte) (st : state) : Prop :=
  (length (p_text (s_parser st)) + length (p_rest (s_parser st)) <= length text)%nat /\
  (length (p_nodes (s_parser st)) + length (p_rest (s_parser st)) <= length text)%nat /\
  (length (s_stack st) <= NCFG_JSON_MAX_DEPTH)%nat /\
  Forall (frame_ok (zlen (p_nodes (s_parser st)))) (s_stack st).

Lemma read_value_grows realloc_ok depth c s' p i p' :
  p_rest p = c :: s' -> read_value realloc_ok depth c s' p = inr (i, p') ->
  i = zlen (p_nodes p) /\ length (p_nodes p') = S (length (p_nodes p)) /\
  (length (p_text p') + length (p_rest p') <= length (p_text p) + length (p_rest p))%nat /\
  (length (p_rest p') < length (p_rest p))%nat /\
  (is_open c = true -> (depth < NCFG_JSON_MAX_DEPTH)%nat).
Proof.
  intros Hp Hr. pose proof (read_value_rest _ _ _ _ _ _ _ Hp Hr) as Hlt.
  assert (forall q type j q', new_node realloc_ok q type = inr (j, q') -> j = zlen (p_nodes q) /\
    p_nodes q' = p_nodes q ++ [fresh_node type] /\ p_text q' = p_text q /\ p_rest q' = p_rest q) as Hn.
  { intros q type j q'. unfold new_node, reserve. repeat case_match; intros; simplify_eq; done. }
  revert Hr. unfold read_value, read_scalar, read_bool, read_null, parse_string, parse_number, is_open.
  intros Hr. repeat case_match; simplify_eq;
    repeat match goal with
           | H : new_node _ _ _ = inr _ |- _ => apply Hn in H as (-> & ? & ? & ?)
           | H : string_loop _ _ _ = inr _ |- _ => apply string_loop_length in H
           | H : number_end _ = inr _ |- _ => apply number_end_lt in H
           | H : (_ <=? _)%nat = false |- _ => apply Nat.leb_gt in H
           end; unfold with_nodes, with_rest, with_text in *; cbn [p_nodes p_text p_rest] in *;
    repeat match goal with H : p_nodes _ = _ |- _ => rewrite H in * end;
    repeat match goal with H : p_rest _ = _ |- _ => rewrite H in * end;
    repeat match goal with H : p_text _ = _ |- _ => rewrite H in * end;
    rewrite ?length_update, ?length_app, ?length_take in *; simpl in *;
    (split; [done|]; split; [lia|]; split; [lia|]; split; [lia|]; intros; done || lia).
Qed.

Lemma frames_weaken n m stack : n <= m -> Forall (frame_ok n) stack -> Forall (frame_ok m) stack.
Proof. intros ? Hs. eapply Forall_impl; [exact Hs|]. intros f [? ?]. split; lia. Qed.

Lemma step_value_inv realloc_ok text st l' st' :
  loop_inv text st -> step_value realloc_ok st = GOTO l' st' -> loop_inv text st'.
Proof.
  destruct st as [p stack pending]. intros (Ht & Hn & Hd & Hs) H. simpl in Ht, Hn, Hd, Hs.
  unfold step_value in H. cbn [s_parser with_rest p_rest s_stack s_pending] in H.
  pose proof (skip_space_le (p_rest p)) as Hsp. destruct (skip_space (p_rest p)) as [|c s'] eqn:E; [done|].
  destruct (read_value _ _ _ _ _) as [|[i p1]] eqn:Er; [done|].
  apply read_value_grows in Er as (-> & Hn1 & Ht1 & Hr1 & Ho); [|done].
  cbn [with_rest p_nodes p_text p_rest] in *.
  assert (length (name_node pending (zlen (p_nodes p)) (p_nodes p1)) = length (p_nodes p1)) as Hname.
  { unfold name_node. destruct pending as [[o n]|]; [apply length_update|done]. }
  set (named := name_node pending (zlen (p_nodes p)) (p_nodes p1)) in *.
  assert (Forall (frame_ok (zlen named)) stack) as Hs1
    by (eapply frames_weaken; [|exact Hs]; unfold zlen; lia).
  pose proof (attach_length stack (zlen (p_nodes p)) named) as Hal.
  pose proof (attach_frames stack (zlen (p_nodes p)) named (zlen named) Hs1 ltac:(lia) ltac:(unfold zlen; lia)) as Haf.
  pose proof (attach_stack_length stack (zlen (p_nodes p)) named) as Hsl.
  destruct (attach stack (zlen (p_nodes p)) named) as [stack1 nodes1]. cbn [fst snd] in *.
  fold (is_open c) in H. pose proof (skip_space_le (p_rest p1)). unfold loop_inv, zlen in *.
  apply Nat2Z.inj in Hal. destruct (is_open c).
  - cbn [with_nodes with_rest p_rest p_text p_nodes] in H.
    destruct (closes_at_once c (skip_space (p_rest p1))) as [rest|] eqn:Ec; simplify_eq;
      cbn [s_parser s_stack with_rest with_nodes p_text p_rest p_nodes] in *.
    + apply closes_at_once_length in Ec. rewrite Hal, Hsl. repeat split; try lia. done.
    + specialize (Ho eq_refl). rewrite Hal. simpl. rewrite Hsl. repeat split; try lia.
      constructor; [|done]. split; simpl; [lia|by left].
  - simplify_eq. simpl. rewrite Hal, Hsl. repeat split; try lia. done.
Qed.

Lemma step_inv realloc_ok text l st l' st' :
  loop_inv text st -> step realloc_ok l st = GOTO l' st' -> loop_inv text st'.
Proof.
  intros Hi H. destruct l; [by eapply step_value_inv| |];
    destruct st as [p stack pending]; destruct Hi as (Ht & Hn & Hd & Hs); unfold loop_inv; simpl in *.
  - unfold step_after in H. simpl in H. pose proof (skip_space_le (p_rest p)).
    destruct stack as [|f below]; destruct (skip_space (p_rest p)) as [|next s']; try done.
    apply Forall_cons in Hs as [Hf Hb]. simpl in *.
    repeat case_match; simplify_eq; simpl; repeat split; try lia; try done; by constructor.
  - unfold step_key in H. cbn [s_parser with_rest p_rest s_stack] in H.
    pose proof (skip_space_le (p_rest p)). destruct (skip_space (p_rest p)) as [|q s']; [done|].
    destruct (q =b QUOTE); [|done]. unfold parse_string in H. cbn [with_rest p_rest p_text] in H.
    destruct (string_loop _ _ _) as [|[t rest]] eqn:Es; [done|].
    pose proof (string_loop_rest _ _ _ _ _ Es). apply string_loop_length in Es.
    cbn [with_text with_rest p_rest] in H. pose proof (skip_space_le rest).
    destruct (skip_space rest) as [|c s'']; [done|]. destruct (c =b COLON); simplify_eq. simpl in *.
    repeat split; try lia. done.
Qed.

(** At every turn of the reader's loop, whatever the input and the
    allocator: what has been written to the text buffer and what is still to be
    read fit the input's length together, so unescaping never outgrows the
    buffer of [length + 1] bytes; there are no more nodes than bytes read; the
    stack fits its array of 32; and every node index on it is in range. *)
Theorem json_loop_in_bounds realloc_ok text l st :
  reaches realloc_ok text l st -> loop_inv text st.
Proof.
  induction 1 as [|l st l' st' _ IH H]; [|by eapply step_inv].
  unfold loop_inv. simpl. repeat split; try lia. constructor.
Qed.

Lemma json_loop_in_bounds_witness :
  exists st, loop_inv (bytes "[7]") st /\ p_rest (s_parser st) = bytes "7]" /\ length (s_stack st) = 1%nat.
Proof.
  eexists. split; [|split].
  - eapply (json_loop_in_bounds (fun _ => true) (bytes "[7]") VALUE).
    eapply reaches_step; [apply reaches_start|]. vm_compute. reflexivity.
  - reflexivity.
  - reflexivity.
Defined.

Lemma parse_answers realloc_ok malloc_ok text :
  exists r, json_parse realloc_ok malloc_ok text = Some r.
Proof.
  unfold json_parse. destruct malloc_ok; [|by eexists]. simpl negb. cbn [negb].
  destruct (skip_space text) as [|c0 s0]; [by eexists|].
  assert (forall fuel l st, (length (p_rest (s_parser st)) < fuel)%nat ->
    exists r, run realloc_ok fuel l st = Some r) as Hrun.
  { induction fuel as [|fuel IH]; intros l st Hf; [lia|]. simpl.
    destruct (step realloc_ok l st) eqn:E; [|by eexists..]. apply step_shorter in E. apply IH. lia. }
  edestruct Hrun as [r Hr]; [|rewrite Hr; by eexists]. simpl. lia.
Qed.

(** [ncfg_json_parse] returns on every input: its loop ends within one turn
    per byte and one more, with a document or with a refusal, whatever the
    allocator does. *)
Theorem json_parse_total realloc_ok malloc_ok text :
  exists r, json_parse realloc_ok malloc_ok text = Some r.
Proof. apply parse_answers. Qed.
