(* ===== verification/JsonRead.v ===== *)
(** * JsonRead: what the accessors return

    [value_at d i key t]: the node [i] of the document [d] stands for the value
    [t], reached by the member name [key] if there is one. A document the
    reader returned stands for the tree that was read ([doc_of_value]); from
    there each accessor is exact: a member is the first one of that name, an
    element is the one of that index, a string, a number, a boolean is the
    value's own, and anything else is the absent value or the fallback. *)
From S2P Require Import Prelude Lex LexFacts Wire Json JsonFacts JsonSpec.
#[local] Open Scope Z_scope.

(** The [n] bytes of [text] at [off] are [s]. *)
Definition text_holds (text : list byte) (off : Z) (s : list byte) : Prop :=
  exists before after, text = before ++ s ++ after /\ zlen before = off.

Record value_at (d : doc) (i : Z) (key : option (list byte)) (t : json) : Prop := ValueAt {
  va_small : zlen (d_nodes d) < NCFG_JSON_NONE;
  va_fits : zlen (d_text d) < NCFG_JSON_NONE;
  va_nodes : exists before after off span next,
    d_nodes d = before ++ layout t i off span next ++ after /\ zlen before = i /\
    text_holds (d_text d) off (text_of t) /\
    match key, span with
    | Some k, Some (o, n) => n = zlen k /\ text_holds (d_text d) o k
    | None, None => True
    | _, _ => False
    end }.

Lemma text_holds_at d off s : text_holds (d_text d) off s -> text_at d off (zlen s) = s.
Proof.
  intros (before & after & E & <-). unfold text_at. rewrite E. unfold zlen. rewrite !Nat2Z.id.
  by rewrite drop_app_length, take_app_length.
Qed.

Lemma text_holds_app text off s k :
  text_holds text off (s ++ k) -> text_holds text off s /\ text_holds text (off + zlen s) k.
Proof.
  intros (before & after & E & <-). rewrite <- app_assoc in E. split.
  - by exists before, (k ++ after).
  - exists (before ++ s), after. split; [by rewrite E, <- app_assoc|]. by rewrite zlen_app.
Qed.

Lemma text_holds_range text off s : text_holds text off s -> 0 <= off /\ off + zlen s <= zlen text.
Proof.
  intros (before & after & -> & <-). rewrite !zlen_app.
  pose proof (zlen_nonneg before). pose proof (zlen_nonneg after). lia.
Qed.

Lemma lookup_middle {A} (before : list A) x after : (before ++ x :: after) !! Z.to_nat (zlen before) = Some x.
Proof. unfold zlen. rewrite Nat2Z.id, lookup_app_r by lia. by rewrite Nat.sub_diag. Qed.

(** The node of a value. *)
Lemma value_node d i key t :
  value_at d i key t ->
  exists n off span next tl, json_node d i = Some n /\ layout t i off span next = n :: tl /\
    text_holds (d_text d) off (text_of t) /\ 0 <= i < NCFG_JSON_NONE /\ d_nodes d !! Z.to_nat i = Some n.
Proof.
  intros [Hs _ (before & after & off & span & next & E & Hi & Ht & _)].
  destruct (layout_next t i off span) as (h & tl & Hl).
  exists (set_next_sibling next h), off, span, next, tl. rewrite Hl in E |- *.
  assert (d_nodes d !! Z.to_nat i = Some (set_next_sibling next h)) as Hlk
    by (rewrite E, <- Hi; apply lookup_middle).
  assert (zlen (d_nodes d) = i + zlen (set_next_sibling next h :: tl ++ after)) as Hz
    by (rewrite E, zlen_app; simpl; lia).
  rewrite zlen_cons in Hz. pose proof (zlen_nonneg (tl ++ after)). pose proof (zlen_nonneg before).
  split; [|split; [done|split; [done|split; [lia|done]]]].
  unfold json_node, d_count. rewrite (proj2 (Z.leb_gt _ _)) by lia. done.
Qed.

Lemma doc_of_value t capacity :
  size_of t < NCFG_JSON_NONE -> zlen (text_of t) < NCFG_JSON_NONE -> value_at (doc_of t capacity) 0 None t.
Proof.
  intros Hs Ht. split; simpl; [by rewrite layout_length|done|].
  exists [], [], 0, None, NCFG_JSON_NONE. rewrite app_nil_r. split; [done|]. split; [done|]. split; [|done].
  exists [], []. by rewrite app_nil_r.
Qed.

(** ** Children *)

Section Children.
Context {A : Type} (size width : A -> Z) (lay : A -> Z -> Z -> Z -> list node).
Context (lay_length : forall x b o n, zlen (lay x b o n) = size x).
Context (lay_next : forall x b o, exists h tl, forall n, lay x b o n = set_next_sibling n h :: tl).

Definition first (l : list A) (base : Z) : Z := match l with [] => NCFG_JSON_NONE | _ => base end.

Lemma chain_split l1 x l2 b o :
  exists before, zlen before = sum_of size l1 /\
    chain size width lay (l1 ++ x :: l2) b o =
      before ++ lay x (b + sum_of size l1) (o + sum_of width l1) (first l2 (b + sum_of size (l1 ++ [x]))) ++
      chain size width lay l2 (b + sum_of size (l1 ++ [x])) (o + sum_of width (l1 ++ [x])).
Proof using lay_length.
  revert b o. induction l1 as [|y l1 IH]; intros b o.
  { exists []. split; [done|]. simpl. rewrite !Z.add_0_r. by destruct l2. }
  destruct (IH (b + size y) (o + width y)) as (before & Hb & E).
  exists (lay y b o (b + size y) ++ before). split; [simpl; rewrite zlen_app, lay_length; lia|].
  cbn [app chain]. rewrite E. rewrite <- app_assoc.
  destruct (l1 ++ x :: l2) eqn:El; [by destruct l1|]. simpl sum_of. rewrite !Z.add_assoc. done.
Qed.

(** The walk along [next_sibling], child by child. *)
Lemma chain_walk d before l after b o :
  d_nodes d = before ++ chain size width lay l b o ++ after -> zlen before = b ->
  zlen (d_nodes d) < NCFG_JSON_NONE ->
  forall l1 x l2, l = l1 ++ x :: l2 ->
  exists n tl, d_nodes d !! Z.to_nat (b + sum_of size l1) = Some n /\
    lay x (b + sum_of size l1) (o + sum_of width l1) (n_next_sibling n) = n :: tl /\
    n_next_sibling n = first l2 (b + sum_of size (l1 ++ [x])) /\
    0 <= b + sum_of size l1 < NCFG_JSON_NONE.
Proof using lay_length lay_next.
  intros E Hb Hs l1 x l2 ->. destruct (chain_split l1 x l2 b o) as (mid & Hm & Ec).
  destruct (lay_next x (b + sum_of size l1) (o + sum_of width l1)) as (h & tl & Hl).
  rewrite Ec, Hl in E. set (next := first l2 _) in *.
  exists (set_next_sibling next h), tl. rewrite E, <- !app_assoc, app_assoc. simpl.
  assert (b + sum_of size l1 = zlen (before ++ mid)) as Hidx by (rewrite zlen_app; lia).
  split; [rewrite Hidx; apply lookup_middle|]. split; [by rewrite Hl|]. split; [done|].
  rewrite E, !zlen_app, zlen_cons in Hs.
  pose proof (zlen_nonneg before). pose proof (zlen_nonneg tl). pose proof (zlen_nonneg after).
  pose proof (zlen_nonneg (chain size width lay l2 (b + sum_of size (l1 ++ [x])) (o + sum_of width (l1 ++ [x])))).
  rewrite zlen_app in Hidx. pose proof (zlen_nonneg mid). lia.
Qed.

Lemma nth_child_chain d before l after b o :
  d_nodes d = before ++ chain size width lay l b o ++ after -> zlen before = b ->
  zlen (d_nodes d) < NCFG_JSON_NONE ->
  forall l1 l2 n, l = l1 ++ l2 ->
  nth_child d n (first l2 (b + sum_of size l1)) =
    if (n <? length l2)%nat then b + sum_of size (l1 ++ take n l2) else NCFG_JSON_NONE.
Proof using lay_length lay_next.
  intros E Hb Hs l1 l2 n. revert l1 l2. induction n as [|n IH]; intros l1 l2 El; destruct l2 as [|x l2].
  - done.
  - cbn [first nth_child]. destruct (chain_walk d before l after b o E Hb Hs l1 x l2 El)
      as (nd & tl & _ & _ & _ & Hr).
    destruct (Z.eqb_spec (b + sum_of size l1) NCFG_JSON_NONE); [lia|]. simpl. by rewrite app_nil_r.
  - done.
  - cbn [first nth_child]. destruct (chain_walk d before l after b o E Hb Hs l1 x l2 El)
      as (nd & tl & Hlk & _ & Hnext & Hr).
    destruct (Z.eqb_spec (b + sum_of size l1) NCFG_JSON_NONE); [lia|].
    rewrite Hlk, Hnext, (IH (l1 ++ [x]) l2) by (by rewrite <- app_assoc).
    change (S n <? length (x :: l2))%nat with (n <? length l2)%nat. by rewrite <- app_assoc.
Qed.

Lemma find_child_chain d before l after b o (found : node -> bool) (p : A -> bool) :
  d_nodes d = before ++ chain size width lay l b o ++ after -> zlen before = b ->
  zlen (d_nodes d) < NCFG_JSON_NONE ->
  (forall l1 x l2 n tl, l = l1 ++ x :: l2 ->
     lay x (b + sum_of size l1) (o + sum_of width l1) (n_next_sibling n) = n :: tl -> found n = p x) ->
  forall fuel l1 l2, l = l1 ++ l2 -> (length l2 < fuel)%nat ->
  (exists l3 x l4, l2 = l3 ++ x :: l4 /\ Forall (fun y => p y = false) l3 /\ p x = true /\
     find_child fuel d found (first l2 (b + sum_of size l1)) = b + sum_of size (l1 ++ l3)) \/
  (Forall (fun y => p y = false) l2 /\
     find_child fuel d found (first l2 (b + sum_of size l1)) = NCFG_JSON_NONE).
Proof using lay_length lay_next.
  intros E Hb Hs Hp fuel. induction fuel as [|fuel IH]; intros l1 l2 El Hf; [lia|].
  destruct l2 as [|x l2]; [by right|]. cbn [first find_child].
  destruct (chain_walk d before l after b o E Hb Hs l1 x l2 El)
      as (nd & tl & Hlk & Hlay & Hnext & Hr).
  destruct (Z.eqb_spec (b + sum_of size l1) NCFG_JSON_NONE); [lia|].
  rewrite Hlk, (Hp l1 x l2 nd tl El Hlay). destruct (p x) eqn:Hx.
  - left. exists [], x, l2. by rewrite app_nil_r.
  - rewrite Hnext.
    destruct (IH (l1 ++ [x]) l2) as [(l3 & y & l4 & -> & H3 & Hy & Ef)|[H2 Ef]];
      [by rewrite <- app_assoc|simpl in Hf; lia|left|right].
    + exists (x :: l3), y, l4. rewrite Ef, <- app_assoc. repeat split; [|done]. by constructor.
    + by split; [constructor|].
Qed.
End Children.

(** ** Containers *)

Lemma container_children {A} size width lay d i key t type (l : list A) :
  (forall o k n, layout t i o k n = container type k n i (length l) :: chain size width lay l (i + 1) o) ->
  value_at d i key t ->
  exists n before after off, json_node d i = Some n /\ n_type n = type /\
    n_first_child n = first l (i + 1) /\ n_child_count n = zlen l /\
    d_nodes d = before ++ chain size width lay l (i + 1) off ++ after /\
    zlen before = i + 1 /\ text_holds (d_text d) off (text_of t).
Proof.
  intros Hlay Hv. pose proof (value_node _ _ _ _ Hv) as (n & _ & _ & _ & _ & Hn & _ & _ & _ & Hlk).
  destruct Hv as [_ _ (before & after & off & span & next & E & Hi & Ht & _)].
  rewrite Hlay in E. cbn [app] in E. rewrite E, <- Hi, lookup_middle in Hlk. injection Hlk as <-.
  rewrite Hi in *. eexists _, (before ++ [_]), after, off. split; [exact Hn|].
  split; [done|]. split; [by destruct l|]. split; [done|].
  split; [by rewrite E, <- app_assoc|]. split; [by rewrite zlen_app, Hi|]. exact Ht.
Qed.

Definition array_children d i key l :=
  container_children size_of (fun t => zlen (text_of t)) lay_element d i key (JArray l) NCFG_JSON_ARRAY l
    (fun o k n => layout_array l i o k n).
Definition object_children d i key l :=
  container_children member_size (fun kv => zlen (member_text kv)) lay_member d i key (JObject l) NCFG_JSON_OBJECT l
    (fun o k n => layout_object l i o k n).

Lemma element_value d i key l l1 t l2 :
  value_at d i key (JArray l) -> l = l1 ++ t :: l2 ->
  value_at d (i + 1 + sum_of size_of l1) None t.
Proof.
  intros Hv ->. pose proof (array_children _ _ _ _ Hv) as (n & before & after & off & _ & _ & _ & _ & E & Hb & Ht).
  destruct Hv as [Hs Hf _]. split; [done..|].
  destruct (chain_split size_of (fun t => zlen (text_of t)) lay_element (fun t b o n => layout_length t b o None n)
    l1 t l2 (i + 1) off) as (mid & Hm & Ec).
  exists (before ++ mid), (chain size_of (fun t => zlen (text_of t)) lay_element l2 (i + 1 + sum_of size_of (l1 ++ [t]))
     (off + sum_of (fun t => zlen (text_of t)) (l1 ++ [t])) ++ after), (off + sum_of (fun t => zlen (text_of t)) l1), None,
    (first l2 (i + 1 + sum_of size_of (l1 ++ [t]))).
  split; [by rewrite E, Ec, <- !app_assoc|]. split; [rewrite zlen_app; lia|]. split; [|done].
  cbn [text_of] in Ht. rewrite map_app, concat_app in Ht. apply text_holds_app in Ht as [_ Ht].
  rewrite zlen_concat in Ht.
  simpl in Ht. by apply text_holds_app in Ht as [Ht _].
Qed.

Lemma member_value d i key l l1 k t l2 :
  value_at d i key (JObject l) -> l = l1 ++ (k, t) :: l2 ->
  value_at d (i + 1 + sum_of member_size l1) (Some k) t.
Proof.
  intros Hv ->. pose proof (object_children _ _ _ _ Hv) as (n & before & after & off & _ & _ & _ & _ & E & Hb & Ht).
  destruct Hv as [Hs Hf _]. split; [done..|].
  set (width := fun kv => zlen (member_text kv)) in *.
  destruct (chain_split member_size width lay_member (fun kv b o n => layout_length (snd kv) b _ _ n)
    l1 (k, t) l2 (i + 1) off) as (mid & Hm & Ec).
  exists (before ++ mid), (chain member_size width lay_member l2 (i + 1 + sum_of member_size (l1 ++ [(k, t)]))
     (off + sum_of width (l1 ++ [(k, t)])) ++ after), (off + sum_of width l1 + zlen k),
    (Some (off + sum_of width l1, zlen k)), (first l2 (i + 1 + sum_of member_size (l1 ++ [(k, t)]))).
  split; [by rewrite E, Ec, <- !app_assoc|]. split; [rewrite zlen_app; lia|].
  cbn [text_of] in Ht. rewrite map_app, concat_app in Ht. apply text_holds_app in Ht as [_ Ht].
  rewrite zlen_concat in Ht.
  simpl in Ht. apply text_holds_app in Ht as [Ht _].
  apply text_holds_app in Ht as [Hk Ht]. done.
Qed.

Lemma key_matches_exact d name k o n :
  text_holds (d_text d) o k -> n_key_offset n = o -> n_key_length n = zlen k ->
  key_matches d name n = bytes_eqb k name.
Proof.
  intros Ht Ho Hn. unfold key_matches. rewrite Ho, Hn. destruct (Z.eqb_spec (zlen k) (zlen name)) as [E|E].
  - rewrite <- E, text_holds_at by done. done.
  - simpl. symmetry. apply not_true_iff_false. rewrite bytes_eqb_true. intros ->. done.
Qed.

(** The first member of a name, or none. *)
Lemma find_first {A} (p : A -> bool) l1 x l2 :
  Forall (fun y => p y = false) l1 -> p x = true -> find p (l1 ++ x :: l2) = Some x.
Proof. intros H1 Hx. induction H1 as [|y l1 Hy _ IH]; simpl; [by rewrite Hx|by rewrite Hy]. Qed.

Lemma find_none_all {A} (p : A -> bool) l : Forall (fun y => p y = false) l -> find p l = None.
Proof. induction 1 as [|y l Hy _ IH]; simpl; [done|by rewrite Hy]. Qed.

(** Where [json_member] points: at the first member of the name, or nowhere. *)
Lemma member_position d i key l name :
  value_at d i key (JObject l) ->
  (exists l1 t l2, l = l1 ++ (name, t) :: l2 /\ name ∉ l1.*1 /\
     json_member d i name = i + 1 + sum_of member_size l1) \/
  (name ∉ l.*1 /\ json_member d i name = NCFG_JSON_NONE).
Proof.
  intros Hv. pose proof (object_children _ _ _ _ Hv) as (n & before & after & off & Hn & Hty & Hfc & _ & E & Hb & Ht).
  unfold json_member. rewrite Hn, Hty, bool_decide_eq_true_2, Hfc by done.
  set (p := fun kv : list byte * json => bytes_eqb (fst kv) name).
  assert (forall m, Forall (fun y => p y = false) m -> name ∉ m.*1) as Hnot.
  { intros m Hm Hin. apply list_elem_of_fmap in Hin as (kv & -> & Hin). rewrite Forall_forall in Hm.
    specialize (Hm kv Hin). unfold p in Hm. apply not_true_iff_false in Hm. by rewrite bytes_eqb_true in Hm. }
  destruct (find_child_chain member_size (fun kv => zlen (member_text kv)) lay_member
    (fun kv b o n => layout_length (snd kv) b _ _ n) (fun kv b o => layout_next (snd kv) b _ _)
    d before l after (i + 1) off (key_matches d name) p E Hb (va_small _ _ _ _ Hv)) with
    (fuel := S (length (d_nodes d))) (l1 := @nil (list byte * json)) (l2 := l) as [H|H].
  - intros l1 [k t] l2 nd tl -> Hlay. unfold lay_member, p in *. simpl in Hlay |- *.
    cbn [text_of] in Ht. rewrite map_app, concat_app in Ht. apply text_holds_app in Ht as [_ Ht].
    rewrite zlen_concat in Ht. simpl in Ht. apply text_holds_app in Ht as [Ht _].
    apply text_holds_app in Ht as [Ht _].
    apply (key_matches_exact d name k _ nd Ht); destruct t; simpl in Hlay; injection Hlay as <- <-; done.
  - done.
  - pose proof (chain_length member_size (fun kv => zlen (member_text kv)) lay_member l (i + 1) off) as Hc.
    rewrite Forall_forall in Hc. specialize (Hc (fun kv _ b o n => layout_length (snd kv) b _ _ n)).
    pose proof (size_sum snd l : zlen l <= sum_of member_size l).
    pose proof (f_equal zlen E) as Hz. rewrite !zlen_app, Hc in Hz.
    pose proof (zlen_nonneg before). pose proof (zlen_nonneg after). unfold zlen in *. lia.
  - left. destruct H as (l3 & [k t] & l4 & -> & H3 & Hx & Ef). change (sum_of member_size []) with 0 in Ef.
    rewrite Z.add_0_r in Ef. apply bytes_eqb_true in Hx. simpl in Hx. subst k. exists l3, t, l4. by auto.
  - right. destruct H as [Hall Ef]. change (sum_of member_size []) with 0 in Ef. rewrite Z.add_0_r in Ef. by auto.
Qed.

Lemma find_member_first l1 name (t : json) l2 :
  name ∉ l1.*1 -> find (fun kv => bytes_eqb (fst kv) name) (l1 ++ (name, t) :: l2) = Some (name, t).
Proof.
  intros H. apply find_first; [|by apply bytes_eqb_true]. apply Forall_forall. intros kv Hin.
  apply not_true_iff_false. rewrite bytes_eqb_true. intros <-. apply H. by apply list_elem_of_fmap_2.
Qed.

Lemma find_member_none (l : list (list byte * json)) name :
  name ∉ l.*1 -> find (fun kv => bytes_eqb (fst kv) name) l = None.
Proof.
  intros H. apply find_none_all, Forall_forall. intros kv Hin.
  apply not_true_iff_false. rewrite bytes_eqb_true. intros <-. apply H. by apply list_elem_of_fmap_2.
Qed.

Lemma member_lookup d i key l name :
  value_at d i key (JObject l) ->
  match find (fun kv => bytes_eqb (fst kv) name) l with
  | Some (_, t) => value_at d (json_member d i name) (Some name) t
  | None => json_member d i name = NCFG_JSON_NONE
  end.
Proof.
  intros Hv. destruct (member_position d i key l name Hv) as [(l1 & t & l2 & -> & H1 & ->)|[H ->]].
  - rewrite find_member_first by done. by eapply member_value.
  - by rewrite find_member_none.
Qed.

(** The members by position. *)
Lemma at_lookup_object d i key l n :
  value_at d i key (JObject l) ->
  json_at d i n = if (n <? length l)%nat then i + 1 + sum_of member_size (take n l) else NCFG_JSON_NONE.
Proof.
  intros Hv. pose proof (object_children _ _ _ _ Hv) as (nd & before & after & off & Hn & Hty & Hfc & _ & E & Hb & Ht).
  unfold json_at. rewrite Hn, Hty, Hfc.
  pose proof (nth_child_chain member_size (fun kv => zlen (member_text kv)) lay_member
    (fun kv b o n => layout_length (snd kv) b _ _ n) (fun kv b o => layout_next (snd kv) b _ _)
    d before l after (i + 1) off E Hb (va_small _ _ _ _ Hv) [] l n eq_refl) as Hnth.
  change (sum_of member_size []) with 0 in Hnth. by rewrite Z.add_0_r in Hnth.
Qed.

Lemma count_lookup_object d i key l : value_at d i key (JObject l) -> json_count d i = zlen l.
Proof.
  intros Hv. pose proof (object_children _ _ _ _ Hv) as (nd & ? & ? & ? & Hn & _ & _ & Hc & _).
  unfold json_count. by rewrite Hn.
Qed.

(** [ncfg_json_member] is exact: on a node that stands for an object it is
    the node of the first member of that name, however many share it, and the
    absent value when there is none. *)
Theorem json_member_exact d i key l name :
  value_at d i key (JObject l) ->
  match find (fun kv => bytes_eqb (fst kv) name) l with
  | Some (_, t) => value_at d (json_member d i name) (Some name) t
  | None => json_member d i name = NCFG_JSON_NONE
  end.
Proof. apply member_lookup. Qed.

Lemma json_member_exact_witness :
  value_at (doc_of sample_tree 32) (json_member (doc_of sample_tree 32) 0 (bytes "bb")) (Some (bytes "bb")) (JObject []) /\
  json_member (doc_of sample_tree 32) 0 (bytes "b") = NCFG_JSON_NONE.
Proof.
  assert (value_at (doc_of sample_tree 32) 0 None sample_tree) as Hv.
  { apply doc_of_value; vm_compute; reflexivity. }
  split.
  - exact (json_member_exact _ _ _ _ (bytes "bb") Hv).
  - exact (json_member_exact _ _ _ _ (bytes "b") Hv).
Defined.

(** Elements and members by position. *)
Lemma at_lookup_array d i key l n :
  value_at d i key (JArray l) ->
  match l !! n with
  | Some t => value_at d (json_at d i n) None t
  | None => json_at d i n = NCFG_JSON_NONE
  end.
Proof.
  intros Hv. pose proof (array_children _ _ _ _ Hv) as (nd & before & after & off & Hn & Hty & Hfc & _ & E & Hb & Ht).
  unfold json_at. rewrite Hn, Hty, Hfc.
  pose proof (nth_child_chain size_of (fun t => zlen (text_of t)) lay_element
    (fun t b o n => layout_length t b o None n) (fun t b o => layout_next t b o None)
    d before l after (i + 1) off E Hb (va_small _ _ _ _ Hv) [] l n eq_refl) as Hnth.
  change (sum_of size_of []) with 0 in Hnth. rewrite Z.add_0_r in Hnth. rewrite Hnth.
  destruct (l !! n) as [t|] eqn:El.
  - rewrite (proj2 (Nat.ltb_lt _ _)) by (by eapply lookup_lt_Some). simpl.
    eapply element_value; [exact Hv|]. symmetry. by apply take_drop_middle.
  - apply lookup_ge_None in El. by rewrite (proj2 (Nat.ltb_ge _ _)).
Qed.

Lemma count_lookup d i key l : value_at d i key (JArray l) -> json_count d i = zlen l.
Proof.
  intros Hv. pose proof (array_children _ _ _ _ Hv) as (nd & ? & ? & ? & Hn & _ & _ & Hc & _).
  unfold json_count. by rewrite Hn.
Qed.

Lemma string_lookup d i key t :
  value_at d i key t -> json_string d i = match t with JString s => Some s | _ => None end.
Proof.
  intros Hv. pose proof (value_node _ _ _ _ Hv) as (n & off & span & next & tl & Hn & Hl & Ht & _ & _).
  unfold json_string. rewrite Hn. destruct t; simpl in Hl; injection Hl as <- _; simpl; try done.
  by rewrite text_holds_at.
Qed.

Lemma bool_lookup d i key t fallback :
  value_at d i key t -> json_bool d i fallback = match t with JBool b => b | _ => fallback end.
Proof.
  intros Hv. pose proof (value_node _ _ _ _ Hv) as (n & off & span & next & tl & Hn & Hl & Ht & _ & _).
  unfold json_bool. rewrite Hn. by destruct t; simpl in Hl; injection Hl as <- _.
Qed.

Lemma int_lookup d i key t fallback :
  value_at d i key t ->
  json_int d i fallback = match t with JNumber s => default fallback (int_of_text s) | _ => fallback end.
Proof.
  intros Hv. pose proof (value_node _ _ _ _ Hv) as (n & off & span & next & tl & Hn & Hl & Ht & _ & _).
  unfold json_int. rewrite Hn. destruct t; simpl in Hl; injection Hl as <- _; simpl; try done.
  by rewrite text_holds_at.
Qed.

Lemma type_lookup d i key t :
  value_at d i key t ->
  json_get_type d i = match t with
                      | JNull => NCFG_JSON_NULL | JBool _ => NCFG_JSON_BOOL | JNumber _ => NCFG_JSON_NUMBER
                      | JString _ => NCFG_JSON_STRING | JArray _ => NCFG_JSON_ARRAY | JObject _ => NCFG_JSON_OBJECT
                      end.
Proof.
  intros Hv. pose proof (value_node _ _ _ _ Hv) as (n & off & span & next & tl & Hn & Hl & Ht & _ & _).
  unfold json_get_type. rewrite Hn. by destruct t; simpl in Hl; injection Hl as <- _.
Qed.

Lemma key_lookup d i key t : value_at d i key t -> json_key d i = key.
Proof.
  intros [Hs Hf (before & after & off & span & next & E & Hi & Ht & Hk)].
  destruct (layout_next t i off span) as (h & tl & Hl).
  assert (json_node d i = Some (set_next_sibling next h)) as Hn.
  { unfold json_node, d_count. rewrite E, Hl at 1. rewrite !zlen_app, zlen_cons.
    pose proof (zlen_nonneg tl). pose proof (zlen_nonneg after).
    rewrite (proj2 (Z.leb_gt _ _)) by lia. rewrite E, Hl, <- Hi. apply lookup_middle. }
  unfold json_key. rewrite Hn.
  assert (n_key_offset (set_next_sibling next h) = key_offset span /\
          n_key_length (set_next_sibling next h) = key_length span) as [-> ->].
  { pose proof (f_equal (fun l => (n_key_offset <$> head l, n_key_length <$> head l)) (Hl next)) as Hh.
    destruct t; simpl in Hh |- *; injection Hh; intros; done. }
  destruct key as [k|], span as [[o n]|]; try done. destruct Hk as [-> Hk]. simpl.
  pose proof (text_holds_range _ _ _ Hk). pose proof (zlen_nonneg k).
  destruct (Z.eqb_spec o NCFG_JSON_NONE); [lia|]. by rewrite text_holds_at.
Qed.

(** ** Integers *)

Lemma int_digits_spec value s :
  0 <= value <= 2 ^ 64 - 1 ->
  int_digits value s =
    if forallb is_digit s && (dec_value value s <=? 2 ^ 64 - 1) then Some (dec_value value s) else None.
Proof.
  revert value. induction s as [|b s IH]; intros value Hv; simpl.
  { unfold dec_value. simpl. by rewrite (proj2 (Z.leb_le _ _)) by lia. }
  destruct (is_digit b) eqn:Hb; [|done]. simpl. pose proof (is_digit_range b Hb) as Hd.
  set (digit := bz b - bz "0") in *. change (dec_value value (b :: s)) with (dec_value (value * 10 + digit) s).
  assert (((2 ^ 64 - 1 - digit) / 10 <? value) = (2 ^ 64 - 1 <? value * 10 + digit)) as ->.
  { destruct (Z.ltb_spec ((2 ^ 64 - 1 - digit) / 10) value),
             (Z.ltb_spec (2 ^ 64 - 1) (value * 10 + digit)); try done; zdiv. }
  destruct (Z.ltb_spec (2 ^ 64 - 1) (value * 10 + digit)) as [Ho|Ho]; [|apply IH; lia].
  destruct (forallb is_digit s) eqn:Hs; [|done]. simpl.
  pose proof (dec_value_mono (value * 10 + digit) s ltac:(lia)
    ltac:(rewrite Forall_forall; intros x Hx%list_elem_of_In; by eapply forallb_forall in Hs)).
  by rewrite (proj2 (Z.leb_gt _ _)) by lia.
Qed.

(** A text of an optional minus and some digits, and the integer it spells. *)
Definition spells (text : list byte) (z : Z) : Prop :=
  exists (neg : bool) ds, text = (if neg then ["-"%byte] else []) ++ ds /\ ds <> [] /\
    Forall (fun b => is_digit b = true) ds /\ z = if neg then - dec_value 0 ds else dec_value 0 ds.

Lemma forallb_digits s : forallb is_digit s = true <-> Forall (fun b => is_digit b = true) s.
Proof.
  rewrite forallb_forall, Forall_forall. split; intros H x Hx; apply H; by apply list_elem_of_In.
Qed.

Lemma int_of_text_spells text z :
  int_of_text text = Some z <-> spells text z /\ INT64_MIN <= z <= INT64_MAX.
Proof.
  unfold int_of_text, INT64_MIN, INT64_MAX. split.
  - destruct text as [|b s]; [done|]. destruct (byte_eqb_spec b "-"%byte) as [->|Hb].
    + destruct s as [|c s]; [done|]. rewrite int_digits_spec by lia.
      destruct (_ && _) eqn:E; [|done]. unfold mbind, option_bind.
      apply andb_true_iff in E as [E ?]. apply forallb_digits in E. unbool.
      destruct (Z.ltb_spec (2 ^ 63) (dec_value 0 (c :: s))); [done|].
      pose proof (dec_value_mono 0 _ ltac:(lia) E). set (v := dec_value 0 (c :: s)) in *. intros [= <-].
      split; [|lia]. exists true, (c :: s). done.
    + rewrite int_digits_spec by lia. destruct (_ && _) eqn:E; [|done]. unfold mbind, option_bind.
      apply andb_true_iff in E as [E ?]. apply forallb_digits in E. unbool.
      destruct (Z.ltb_spec (2 ^ 63 - 1) (dec_value 0 (b :: s))); [done|].
      pose proof (dec_value_mono 0 _ ltac:(lia) E). set (v := dec_value 0 (b :: s)) in *. intros [= <-].
      split; [|lia]. exists false, (b :: s). done.
  - intros [(neg & ds & -> & Hne & Hds & ->) Hr]. pose proof (dec_value_mono 0 _ ltac:(lia) Hds).
    pose proof (proj2 (forallb_digits ds) Hds) as Hf. destruct ds as [|c s]; [done|].
    destruct neg; simpl app; cbv iota.
    + rewrite byte_eqb_refl, int_digits_spec, Hf by lia.
      rewrite (proj2 (Z.leb_le _ _)) by lia. cbn [andb]. unfold mbind, option_bind.
      by rewrite (proj2 (Z.ltb_ge _ _)) by lia.
    + rewrite byte_eqb_neq by (intros ->; simpl in Hf; discriminate). rewrite int_digits_spec, Hf by lia.
      rewrite (proj2 (Z.leb_le _ _)) by lia. cbn [andb]. unfold mbind, option_bind.
      by rewrite (proj2 (Z.ltb_ge _ _)) by lia.
Qed.

(** [ncfg_json_int] is exact: on a number whose text is an integer that
    fits [int64_t] it is that integer, [INT64_MIN] included, and on everything
    else, a fraction, an exponent, an overflow or another type, the fallback. *)
Theorem json_int_exact d i key t fallback :
  value_at d i key t ->
  (forall z s, t = JNumber s -> spells s z -> INT64_MIN <= z <= INT64_MAX -> json_int d i fallback = z) /\
  ((forall z s, t = JNumber s -> spells s z -> ~ INT64_MIN <= z <= INT64_MAX) -> json_int d i fallback = fallback).
Proof.
  intros Hv. rewrite (int_lookup _ _ _ _ _ Hv). split.
  - intros z s -> Hs Hr. by rewrite (proj2 (int_of_text_spells s z)).
  - intros Hno. destruct t as [| |s| | |]; try done. destruct (int_of_text s) as [z|] eqn:E; [|done].
    apply int_of_text_spells in E as [Hs Hr]. by destruct (Hno z s eq_refl Hs).
Qed.

Lemma json_int_exact_witness :
  json_int (doc_of (JNumber (bytes "-9223372036854775808")) 32) 0 7 = INT64_MIN /\
  json_int (doc_of (JString (bytes "9")) 32) 0 7 = 7.
Proof.
  split.
  - refine (proj1 (json_int_exact (doc_of (JNumber (bytes "-9223372036854775808")) 32) 0 None _ 7 _) INT64_MIN _ eq_refl _ _).
    + apply doc_of_value; vm_compute; reflexivity.
    + exists true, (bytes "9223372036854775808"). split; [reflexivity|]. split; [discriminate|].
      split; [apply forallb_digits; vm_compute; reflexivity|vm_compute; reflexivity].
    + unfold INT64_MIN, INT64_MAX. lia.
  - refine (proj2 (json_int_exact (doc_of (JString (bytes "9")) 32) 0 None _ 7 _) _).
    + apply doc_of_value; vm_compute; reflexivity.
    + discriminate.
Defined.
