(* ===== verification/JsonWrite.v ===== *)
(** * JsonWrite: the JSON writer of [c/src/json/write.c]

    A writer is a buffer, the first misuse, and one frame per open container;
    [frames[depth]] is [w_top] and the frames under it are [w_below], nearest
    first, so [depth] is the length of [w_below]. Every public function of the
    file is a constructor of [call] and [write_call] is the function. The
    pointers are never NULL but where the source tests for it. *)
From S2P Require Import Prelude Buf Lex Wire Json.
#[local] Open Scope Z_scope.

(** [ncfg_json_write_frame_t]. *)
Record wframe := WFrame { wf_is_object : bool; wf_has_child : bool; wf_wants_value : bool }.

(** [ncfg_json_writer_t]. *)
Record writer := Writer {
  w_buf : buf; w_failure : option string; w_top : wframe; w_below : list wframe }.

Definition with_buf (w : writer) (b : buf) : writer := Writer b (w_failure w) (w_top w) (w_below w).
Definition with_top (w : writer) (f : wframe) : writer := Writer (w_buf w) (w_failure w) f (w_below w).

(** [writer_fail]: the first misuse is kept, and the buffer fails with it. *)
Definition writer_fail (w : writer) (why : string) : writer :=
  Writer (set_failed (w_buf w)) (match w_failure w with None => Some why | f => f end)
    (w_top w) (w_below w).

Definition usable (w : writer) : bool * writer :=
  match w_failure w with
  | Some _ => (false, w)
  | None =>
      if buf_failed (w_buf w)
      then (false, writer_fail w "the buffer this document is written into failed")
      else (true, w)
  end.

(** The lead bytes of [utf8_step]: how many bytes, and the bits the first
    one carries. *)
Definition step_lead (b : byte) : option (nat * Z) :=
  if byte_between xc2 xdf b then Some (2%nat, Z.land (bz b) 0x1f)
  else if byte_between xe0 xef b then Some (3%nat, Z.land (bz b) 0x0f)
  else if byte_between xf0 xf4 b then Some (4%nat, Z.land (bz b) 0x07)
  else None.

(** [utf8_step]: the length of the sequence at the front, or 0. *)
Definition utf8_step (s : list byte) : nat :=
  match s with
  | [] => 0
  | b :: tail =>
      if bz b <? 0x80 then 1
      else
        match step_lead b with
        | None => 0
        | Some (needed, bits) =>
            if (length s <? needed)%nat then 0
            else
              let more := take (needed - 1) tail in
              if negb (forallb (fun next => Z.land (bz next) 0xc0 =? 0x80) more) then 0
              else
                let code := foldl (fun code next => Z.lor (Z.shiftl code 6) (Z.land (bz next) 0x3f))
                              bits more in
                if (needed =? 3)%nat && ((code <? 0x800) || ((0xd800 <=? code) && (code <=? 0xdfff)))
                then 0
                else if (needed =? 4)%nat && ((code <? 0x10000) || (0x10ffff <? code)) then 0
                else needed
        end
  end.

(** The short forms of [write_quoted]. *)
Definition shortform (c : byte) : option (list byte) :=
  if c =b QUOTE then Some [BACKSLASH; QUOTE]
  else if c =b BACKSLASH then Some [BACKSLASH; BACKSLASH]
  else if c =b x08 then Some [BACKSLASH; "b"%byte]
  else if c =b x0c then Some [BACKSLASH; "f"%byte]
  else if c =b x0a then Some [BACKSLASH; "n"%byte]
  else if c =b x0d then Some [BACKSLASH; "r"%byte]
  else if c =b x09 then Some [BACKSLASH; "t"%byte]
  else None.

Definition control_escape (c : byte) : list byte :=
  [BACKSLASH; "u"%byte; "0"%byte; "0"%byte; hex_low (Z.shiftr (bz c) 4); hex_low (Z.land (bz c) 0x0f)].

Section WithAllocator.
Context (realloc_ok : Z -> bool).

Definition add (w : writer) (l : list byte) : writer := with_buf w (buf_add realloc_ok (w_buf w) l).

(** The loop of [write_quoted]; [fuel] is at least the length. The boolean
    says whether it got to the end. *)
Fixpoint quote_loop (fuel : nat) (w : writer) (s : list byte) : bool * writer :=
  match fuel, s with
  | _, [] => (true, w)
  | O, _ => (true, w)
  | S fuel', c :: s' =>
      match shortform c with
      | Some e => quote_loop fuel' (add w e) s'
      | None =>
          if bz c <? 0x20 then quote_loop fuel' (add w (control_escape c)) s'
          else
            match utf8_step s with
            | O => (false, writer_fail w "a string that is not UTF-8")
            | n => quote_loop fuel' (add w (take n s)) (drop n s)
            end
      end
  end.

Definition write_quoted (w : writer) (s : list byte) : writer :=
  match quote_loop (length s) (add w [QUOTE]) s with
  | (true, w) => add w [QUOTE]
  | (false, w) => w
  end.

(** [begin_value]: take the place a value is about to have. *)
Definition begin_value (w : writer) : bool * writer :=
  match usable w with
  | (false, w) => (false, w)
  | (true, w) =>
      let f := w_top w in
      match w_below w with
      | [] =>
          if wf_has_child f then (false, writer_fail w "a second value after the document's only one")
          else (true, with_top w (WFrame (wf_is_object f) true (wf_wants_value f)))
      | _ =>
          if wf_is_object f then
            if negb (wf_wants_value f) then (false, writer_fail w "a value where a member name belongs")
            else (true, with_top w (WFrame (wf_is_object f) true false))
          else
            let w := if wf_has_child f then add w [COMMA] else w in
            (true, with_top w (WFrame (wf_is_object f) true (wf_wants_value f)))
      end
  end.

Definition container_begin (w : writer) (open : byte) (is_object : bool) : writer :=
  match begin_value w with
  | (false, w) => w
  | (true, w) =>
      if (NCFG_JSON_MAX_DEPTH <=? length (w_below w))%nat
      then writer_fail w "nesting deeper than the reader accepts"
      else
        let w := add w [open] in
        Writer (w_buf w) (w_failure w) (WFrame is_object false false) (w_top w :: w_below w)
  end.

Definition container_end (w : writer) (close : byte) (is_object : bool) : writer :=
  match usable w with
  | (false, w) => w
  | (true, w) =>
      match w_below w with
      | [] =>
          writer_fail w (if is_object then "an object closed with none open" else "an array closed with none open")
      | f :: below =>
          if negb (Bool.eqb (wf_is_object (w_top w)) is_object) then
            writer_fail w (if is_object then "an object end closing an array" else "an array end closing an object")
          else if wf_wants_value (w_top w)
          then writer_fail w "an object closed after a member name with no value"
          else let w := add w [close] in Writer (w_buf w) (w_failure w) f below
      end
  end.

Definition write_key (w : writer) (name : option (list byte)) : writer :=
  match usable w with
  | (false, w) => w
  | (true, w) =>
      let f := w_top w in
      match w_below w with
      | [] => writer_fail w "a member name outside an object"
      | _ =>
          if negb (wf_is_object f) then writer_fail w "a member name outside an object"
          else if wf_wants_value f then writer_fail w "a member name where its value belongs"
          else
            match name with
            | None => writer_fail w "a member with no name"
            | Some name =>
                let w := if wf_has_child f then add w [COMMA] else w in
                let w := add (write_quoted w name) [COLON] in
                with_top w (WFrame (wf_is_object f) true true)
            end
      end
  end.

Definition write_string_bytes (w : writer) (text : option (list byte)) : writer :=
  match text with
  | None => match usable w with (true, w) => writer_fail w "a string that is a null pointer" | (false, w) => w end
  | Some s => match begin_value w with (true, w) => write_quoted w s | (false, w) => w end
  end.

(** [ncfg_json_write_string] takes the length with [strlen]. *)
Definition write_string (w : writer) (text : option (list byte)) : writer :=
  match text with
  | None => match usable w with (true, w) => writer_fail w "a string that is a null pointer" | (false, w) => w end
  | Some s => write_string_bytes w (Some (to_nul s))
  end.

(** [ncfg_json_write_int] and [ncfg_json_write_uint]: the decimal digits go
    through [ncfg_buf_addf]. *)
Definition write_int (w : writer) (value : Z) : writer :=
  match begin_value w with
  | (true, w) => with_buf w (buf_addf realloc_ok (w_buf w) (num value))
  | (false, w) => w
  end.

Definition write_uint (w : writer) (value : Z) : writer :=
  match begin_value w with
  | (true, w) => with_buf w (buf_addf realloc_ok (w_buf w) (num value))
  | (false, w) => w
  end.

Definition write_bool (w : writer) (value : bool) : writer :=
  match begin_value w with
  | (true, w) => add w (if value then bytes "true" else bytes "false")
  | (false, w) => w
  end.

Definition write_null (w : writer) : writer :=
  match begin_value w with (true, w) => add w (bytes "null") | (false, w) => w end.

Definition write_init (b : buf) : writer := Writer b None (WFrame false false false) [].

(** The calls a program makes. *)
Inductive call :=
| OBJECT_BEGIN | OBJECT_END | ARRAY_BEGIN | ARRAY_END
| MEMBER (name : option (list byte))
| STRING (text : option (list byte))
| STRING_BYTES (text : option (list byte))
| INT (value : Z) | UINT (value : Z) | BOOL (value : bool) | NULL_VALUE.

Definition write_call (w : writer) (c : call) : writer :=
  match c with
  | OBJECT_BEGIN => container_begin w OPEN_OBJECT true
  | OBJECT_END => container_end w CLOSE_OBJECT true
  | ARRAY_BEGIN => container_begin w OPEN_ARRAY false
  | ARRAY_END => container_end w CLOSE_ARRAY false
  | MEMBER name => write_key w (to_nul <$> name)
  | STRING text => write_string w text
  | STRING_BYTES text => write_string_bytes w text
  | INT value => write_int w value
  | UINT value => write_uint w value
  | BOOL value => write_bool w value
  | NULL_VALUE => write_null w
  end.

Definition write_calls (w : writer) (calls : list call) : writer := foldl write_call w calls.

(** [ncfg_json_write_member_string], [_int] and [_bool]. *)
Definition member_string (name text : option (list byte)) : list call := [MEMBER name; STRING text].
Definition member_int (name : option (list byte)) (value : Z) : list call := [MEMBER name; INT value].
Definition member_bool (name : option (list byte)) (value : bool) : list call := [MEMBER name; BOOL value].

Definition write_failed (w : writer) : bool :=
  match w_failure w with Some _ => true | None => buf_failed (w_buf w) end.

Definition write_failure (w : writer) : option string := w_failure w.

Definition write_done (w : writer) : bool :=
  if write_failed w then false
  else match w_below w with [] => wf_has_child (w_top w) | _ => false end.

(** ** The pretty printer *)

Definition pretty_break (out : buf) (depth : nat) : buf :=
  Nat.iter depth (fun out => buf_add realloc_ok out (bytes "  ")) (buf_add_char realloc_ok out x0a).

(** The inner loop, after an opening quote: what is left after the closing
    one, or [None] at the end of the text. *)
Fixpoint pretty_string (s : list byte) (out : buf) : option (list byte) * buf :=
  match s with
  | [] => (None, out)
  | c :: s' =>
      let out := buf_add_char realloc_ok out c in
      if c =b BACKSLASH then
        match s' with
        | [] => pretty_string s' out
        | e :: s'' => pretty_string s'' (buf_add_char realloc_ok out e)
        end
      else if c =b QUOTE then (Some s', out)
      else pretty_string s' out
  end.

Fixpoint pretty_loop (fuel : nat) (s : list byte) (depth : nat) (pending : bool) (out : buf) : bool * buf :=
  match fuel, s with
  | S fuel', one :: s' =>
      if (one =b CLOSE_OBJECT) || (one =b CLOSE_ARRAY) then
        match depth with
        | O => (false, out)
        | S depth' =>
            let out := if pending then out else pretty_break out depth' in
            pretty_loop fuel' s' depth' false (buf_add_char realloc_ok out one)
        end
      else if one =b COMMA then
        pretty_loop fuel' s' depth pending (pretty_break (buf_add_char realloc_ok out one) depth)
      else if one =b COLON then
        pretty_loop fuel' s' depth pending (buf_add realloc_ok out (bytes ": "))
      else
        let out := if pending then pretty_break out depth else out in
        if (one =b OPEN_OBJECT) || (one =b OPEN_ARRAY) then
          pretty_loop fuel' s' (S depth) true (buf_add_char realloc_ok out one)
        else if negb (one =b QUOTE) then
          pretty_loop fuel' s' depth false (buf_add_char realloc_ok out one)
        else
          match pretty_string s' (buf_add_char realloc_ok out one) with
          | (Some s'', out) => pretty_loop fuel' s'' depth false out
          | (None, out) => (false, out)
          end
  | _, _ => ((depth =? 0)%nat, out)
  end.

(** [ncfg_json_pretty] on the bytes before the text's NUL. *)
Definition json_pretty (compact : list byte) (out : buf) : bool * buf :=
  pretty_loop (length compact) compact 0 false out.
End WithAllocator.
