(* ===== verification/JsonPrint.v ===== *)
(** * JsonPrint: JSON text, and that the reader reads it back

    [print br gap d t] is the text of the tree [t] at depth [d], with the
    layout [br] puts before each child and before a close, and [gap] after a
    colon. [compact] has neither, which is what the writer emits; [pretty] is
    what [ncfg_json_pretty] makes of it. [print_read] is the round trip for
    every layout of white space at once. *)
From S2P Require Import Prelude Lex LexFacts Wire Json JsonFacts JsonSpec JsonWrite.
From stdpp Require Import pretty.
#[local] Open Scope Z_scope.

(** ** Quoting *)

Definition escape_byte (c : byte) : list byte :=
  match shortform c with
  | Some e => e
  | None => if bz c <? 0x20 then control_escape c else [c]
  end.

Definition escaped (s : list byte) : list byte := concat (map escape_byte s).
Definition quoted (s : list byte) : list byte := QUOTE :: escaped s ++ [QUOTE].

(** One escaped byte is read back as that byte. *)
Lemma string_loop_escape fuel c s out :
  string_loop (S fuel) (escape_byte c ++ s) out = string_loop fuel s (out ++ [c]).
Proof. destruct c; reflexivity. Qed.

Lemma string_loop_quoted s fuel rest out :
  (length s < fuel)%nat -> string_loop fuel (escaped s ++ QUOTE :: rest) out = inr (out ++ s, rest).
Proof.
  revert fuel out. induction s as [|c s IH]; intros fuel out Hf; (destruct fuel as [|fuel]; [simpl in Hf; lia|]).
  - simpl. by rewrite app_nil_r.
  - unfold escaped. simpl map. simpl concat. rewrite <- app_assoc, string_loop_escape.
    fold (escaped s). rewrite IH by (simpl in Hf; lia). by rewrite <- app_assoc.
Qed.

Lemma escape_byte_length c : (1 <= length (escape_byte c))%nat.
Proof. destruct c; simpl; lia. Qed.

Lemma escaped_length s : (length s <= length (escaped s))%nat.
Proof.
  unfold escaped. induction s as [|c s IH]; simpl; [lia|]. rewrite length_app.
  pose proof (escape_byte_length c). lia.
Qed.

Lemma ref_string_quoted s rest : ref_string (escaped s ++ QUOTE :: rest) = inr (s, rest).
Proof.
  unfold ref_string. apply (string_loop_quoted s _ rest []). rewrite length_app.
  pose proof (escaped_length s). simpl. lia.
Qed.

(** ** Printing *)

Fixpoint join {A} (sep : list A) (l : list (list A)) : list A :=
  match l with
  | [] => []
  | x :: l' => match l' with [] => x | _ => x ++ sep ++ join sep l' end
  end.

Section Print.
Context (br : nat -> list byte) (gap : list byte).

Definition enclose (open close : byte) (d : nat) (children : list (list byte)) : list byte :=
  match children with
  | [] => [open; close]
  | _ => [open] ++ br (S d) ++ join (COMMA :: br (S d)) children ++ br d ++ [close]
  end.

Fixpoint print (d : nat) (t : json) {struct t} : list byte :=
  match t with
  | JNull => bytes "null"
  | JBool b => if b then bytes "true" else bytes "false"
  | JNumber s => s
  | JString s => quoted s
  | JArray l => enclose OPEN_ARRAY CLOSE_ARRAY d (map (print (S d)) l)
  | JObject l =>
      enclose OPEN_OBJECT CLOSE_OBJECT d (map (fun kv => quoted (fst kv) ++ [COLON] ++ gap ++ print (S d) (snd kv)) l)
  end.
End Print.

Definition compact (t : json) : list byte := print (fun _ => []) [] 0 t.

Definition indent (d : nat) : list byte := x0a :: concat (repeat (bytes "  ") d).
Definition pretty_text (t : json) : list byte := print indent (bytes " ") 0 t.

(** ** What can be printed *)

(** A byte that ends a number. *)
Definition number_stop (b : byte) : bool :=
  negb (is_digit b) && negb (b =b "."%byte) && negb (b =b "e"%byte) && negb (b =b "E"%byte).

Definition delimited (rest : list byte) : Prop :=
  match rest with [] => True | b :: _ => number_stop b = true end.

(** A byte that a number may hold. *)
Definition number_byte (b : byte) : bool :=
  is_digit b || (b =b "-"%byte) || (b =b "+"%byte) || (b =b "."%byte) || (b =b "e"%byte) || (b =b "E"%byte).

(** A text the reader takes for one number, wherever it stands. *)
Definition number_ok (s : list byte) : Prop :=
  s <> [] /\ (forall b s', s = b :: s' -> is_digit b = true \/ b = "-"%byte) /\
  (forall rest, delimited rest -> number_end (s ++ rest) = inr rest) /\
  Forall (fun b => number_byte b = true) s.

(** [fits n t]: no deeper than [n], and every number is one. *)
Fixpoint fits (n : nat) (t : json) {struct t} : Prop :=
  match t with
  | JNumber s => number_ok s
  | JArray l => match n with O => False | S n' => Forall id (map (fits n') l) end
  | JObject l => match n with O => False | S n' => Forall id (map (fun kv => fits n' (snd kv)) l) end
  | _ => True
  end.

(** ** Reading it back *)

Lemma literal_app word rest : literal word (word ++ rest) = Some rest.
Proof. induction word as [|w word IH]; simpl; [by destruct rest|]. by rewrite byte_eqb_refl. Qed.

Definition all_space (s : list byte) : Prop := Forall (fun b => is_space b = true) s.

Lemma skip_space_app s rest : all_space s -> skip_space (s ++ rest) = skip_space rest.
Proof. induction 1 as [|b s Hb _ IH]; simpl; [done|]. by rewrite Hb. Qed.

Lemma skip_space_stop b s : is_space b = false -> skip_space (b :: s) = b :: s.
Proof. simpl. by intros ->. Qed.

Lemma number_head b : is_digit b = true \/ b = "-"%byte ->
  is_space b = false /\ is_open b = false /\ (b =b QUOTE) = false /\
  (b =b "t"%byte) || (b =b "f"%byte) = false /\ (b =b "n"%byte) = false.
Proof. intros [H| ->]; [|done]. destruct b; done. Qed.

Section ReadBack.
Context (br : nat -> list byte) (gap : list byte).
Context (br_space : forall d, all_space (br d)) (gap_space : all_space gap).

Lemma delimited_space s b rest : all_space s -> number_stop b = true -> delimited (s ++ b :: rest).
Proof. intros [|c s' Hc]; simpl; [done|]. intros _. clear -Hc. destruct c; done. Qed.

Lemma ref_next_sep close d rest :
  (COMMA =b close) = false -> is_space close = false ->
  ref_next close ((COMMA :: br (S d)) ++ rest) = inr (true, br (S d) ++ rest) /\
  ref_next close (br d ++ close :: rest) = inr (false, rest).
Proof using br_space.
  intros Hc Hs. unfold ref_next. split; [done|].
  rewrite skip_space_app, skip_space_stop by auto. rewrite byte_eqb_refl.
  destruct (byte_eqb_spec close COMMA) as [->|]; [by rewrite byte_eqb_refl in Hc|done].
Qed.

Lemma ref_key_quoted k rest : ref_key (quoted k ++ [COLON] ++ rest) = inr (k, rest).
Proof.
  unfold ref_key, quoted. simpl. rewrite <- app_assoc. simpl. by rewrite ref_string_quoted.
Qed.

Lemma ref_key_space s rest : all_space s -> ref_key (s ++ rest) = ref_key rest.
Proof. intros Hs. unfold ref_key. by rewrite skip_space_app. Qed.

(** The first byte of a value. *)
Lemma print_head d n t : fits n t ->
  exists b s, print br gap d t = b :: s /\ is_space b = false /\ (b =b CLOSE_OBJECT) = false /\
    (b =b CLOSE_ARRAY) = false.
Proof.
  destruct t as [|b|s|s|l|l]; simpl; intros Hf.
  - eexists _, _; split; [reflexivity|done].
  - destruct b; (eexists _, _; split; [reflexivity|done]).
  - destruct Hf as (Hne & Hh & _). destruct s as [|b s]; [done|]. exists b, s. split; [done|].
    specialize (Hh b s eq_refl) as [Hd| ->]; [|done]. clear -Hd. by destruct b.
  - eexists _, _; split; [reflexivity|done].
  - unfold enclose. destruct (map _ l); (eexists _, _; split; [reflexivity|done]).
  - unfold enclose. destruct (map _ l); (eexists _, _; split; [reflexivity|done]).
Qed.

Definition reads_back (t : json) : Prop := forall fuel d rest sp,
  (d <= NCFG_JSON_MAX_DEPTH)%nat -> fits (NCFG_JSON_MAX_DEPTH - d) t -> delimited rest -> all_space sp ->
  (2 * length (sp ++ print br gap d t ++ rest) + 1 <= fuel)%nat ->
  ref_value fuel d (sp ++ print br gap d t ++ rest) = inr (t, rest).

(** What follows the first of several texts that are joined. *)
Definition join_tail (sep : list byte) (xs : list (list byte)) : list byte :=
  match xs with [] => [] | _ => sep ++ join sep xs end.

Lemma join_cons (sep : list byte) x xs k : join sep (x :: xs) ++ k = x ++ join_tail sep xs ++ k.
Proof. unfold join_tail. destruct xs; simpl; [done|]. by rewrite <- !app_assoc. Qed.

Definition member_print (d : nat) (kv : list byte * json) : list byte :=
  quoted (fst kv) ++ [COLON] ++ gap ++ print br gap d (snd kv).

Lemma elements_read l :
  Forall reads_back l -> forall fuel d d' acc rest sp, l <> [] ->
  (d <= NCFG_JSON_MAX_DEPTH)%nat -> Forall id (map (fits (NCFG_JSON_MAX_DEPTH - d)) l) -> all_space sp ->
  let s := sp ++ join (COMMA :: br d) (map (print br gap d) l) ++ br d' ++ CLOSE_ARRAY :: rest in
  (2 * length s + 2 <= fuel)%nat ->
  ref_elements fuel d acc s = inr (JArray (acc ++ l), rest).
Proof using br_space.
  induction 1 as [|t l Ht _ IH]; intros fuel d d' acc rest sp Hne Hd Hfit Hsp s Hf; [done|].
  apply Forall_cons in Hfit as [Hft Hfl]. destruct fuel as [|fuel]; [simpl in Hf; lia|].
  cbn [ref_elements]. unfold s in *. clear s. cbn [map] in *.
  set (tail := join_tail (COMMA :: br d) (map (print br gap d) l) ++ br d' ++ CLOSE_ARRAY :: rest).
  rewrite join_cons in *. fold tail in Hf |- *. rewrite Ht; [|done|done| |done|lia].
  2:{ unfold tail. destruct l; simpl; [by apply delimited_space|done]. }
  unfold tail. destruct l as [|t' l].
  - simpl app. unfold ref_next. rewrite skip_space_app, skip_space_stop by auto. done.
  - cbn [map]. cbn [map] in IH. simpl app at 1. unfold ref_next. rewrite skip_space_stop, byte_eqb_refl by done.
    rewrite <- app_assoc. rewrite IH; [by rewrite <- app_assoc|done..|].
    unfold tail, join_tail in Hf. cbn [map] in Hf. rewrite !length_app in Hf |- *. simpl length in *. rewrite ?length_app in *. simpl length in *. lia.
Qed.

Lemma members_read l :
  Forall (fun kv => reads_back (snd kv)) l -> forall fuel d d' acc rest sp, l <> [] ->
  (d <= NCFG_JSON_MAX_DEPTH)%nat -> Forall id (map (fun kv => fits (NCFG_JSON_MAX_DEPTH - d) (snd kv)) l) -> all_space sp ->
  let s := sp ++ join (COMMA :: br d) (map (member_print d) l) ++ br d' ++ CLOSE_OBJECT :: rest in
  (2 * length s + 2 <= fuel)%nat ->
  ref_members fuel d acc s = inr (JObject (acc ++ l), rest).
Proof using br_space gap_space.
  induction 1 as [|[k t] l Ht _ IH]; intros fuel d d' acc rest sp Hne Hd Hfit Hsp s Hf; [done|].
  apply Forall_cons in Hfit as [Hft Hfl]. destruct fuel as [|fuel]; [simpl in Hf; lia|].
  cbn [ref_members]. unfold s in *. clear s. cbn [map] in *.
  set (tail := join_tail (COMMA :: br d) (map (member_print d) l) ++ br d' ++ CLOSE_OBJECT :: rest).
  rewrite join_cons in *. fold tail in Hf |- *. unfold member_print in Hf |- * at 1. cbn [fst snd] in *.
  rewrite <- !app_assoc in *. rewrite ref_key_space, ref_key_quoted by done.
  rewrite !length_app in Hf. simpl in Hf. rewrite Ht; [|done|done| |done|rewrite ?length_app in *; lia].
  2:{ unfold tail. destruct l; simpl; [by apply delimited_space|done]. }
  unfold tail in *. destruct l as [|t' l].
  - simpl app. unfold ref_next. rewrite skip_space_app, skip_space_stop by auto. done.
  - cbn [map]. cbn [map] in IH. simpl app at 1. unfold ref_next. rewrite skip_space_stop, byte_eqb_refl by done.
    rewrite <- app_assoc. rewrite IH; [by rewrite <- app_assoc|done..|].
    unfold join_tail in Hf. cbn [map] in Hf. rewrite ?length_app in Hf |- *. simpl length in *. rewrite ?length_app in *. simpl length in *. lia.
Qed.

(** The bytes after the opening one of a container that is not empty. *)
Lemma skip_break d b s : is_space b = false -> skip_space (br d ++ b :: s) = b :: s.
Proof using br_space. intros Hb. by rewrite skip_space_app, skip_space_stop. Qed.

Lemma array_reads l : Forall reads_back l -> reads_back (JArray l).
Proof using br_space.
  intros IH fuel d rest sp Hd Hfit Hrest Hsp Hf. destruct fuel as [|fuel]; [lia|].
  cbn [ref_value]. rewrite skip_space_app by done. cbn [print] in *.
  destruct (NCFG_JSON_MAX_DEPTH - d)%nat as [|m] eqn:Em; cbn [fits] in Hfit; [done|].
  assert (m = NCFG_JSON_MAX_DEPTH - S d)%nat as -> by lia.
  assert ((NCFG_JSON_MAX_DEPTH <=? d)%nat = false) as Hdepth by (apply Nat.leb_gt; lia).
  destruct l as [|t l]; [simpl app; rewrite skip_space_stop by done; cbn [byte_eqb]; by rewrite Hdepth|].
  destruct (print_head (S d) _ t (Forall_inv Hfit)) as (b & s & Hp & Hb1 & Hb2 & Hb3).
  unfold enclose in *. cbn [map] in *.
  set (X := join (COMMA :: br (S d)) (print br gap (S d) t :: map (print br gap (S d)) l) ++ br d ++ CLOSE_ARRAY :: rest).
  assert (([OPEN_ARRAY] ++ br (S d) ++ join (COMMA :: br (S d)) (print br gap (S d) t :: map (print br gap (S d)) l) ++
    br d ++ [CLOSE_ARRAY]) ++ rest = OPEN_ARRAY :: br (S d) ++ X) as E.
  { unfold X. simpl app. by rewrite <- !app_assoc. }
  rewrite E in *. assert (exists s2, X = b :: s2) as [s2 HX].
  { unfold X. rewrite join_cons, Hp. by eexists. }
  rewrite skip_space_stop by done. cbn [byte_eqb]. rewrite Hdepth, HX, skip_break by done.
  unfold closes_at_once. rewrite Hb3, <- HX. cbn [andb orb].
  apply (elements_read (t :: l) IH fuel (S d) d [] rest []); [done|lia|done|constructor|].
  cbn [map app]. fold X. rewrite !length_app in Hf. simpl length in Hf. rewrite !length_app in Hf. lia.
Qed.

Lemma object_reads l : Forall (fun kv => reads_back (snd kv)) l -> reads_back (JObject l).
Proof using br_space gap_space.
  intros IH fuel d rest sp Hd Hfit Hrest Hsp Hf. destruct fuel as [|fuel]; [lia|].
  cbn [ref_value]. rewrite skip_space_app by done. cbn [print] in *. fold (member_print (S d)) in *.
  destruct (NCFG_JSON_MAX_DEPTH - d)%nat as [|m] eqn:Em; cbn [fits] in Hfit; [done|].
  assert (m = NCFG_JSON_MAX_DEPTH - S d)%nat as -> by lia.
  assert ((NCFG_JSON_MAX_DEPTH <=? d)%nat = false) as Hdepth by (apply Nat.leb_gt; lia).
  destruct l as [|kv l]; [simpl app; rewrite skip_space_stop by done; cbn [byte_eqb]; by rewrite Hdepth|].
  unfold enclose in *. cbn [map] in *.
  set (X := join (COMMA :: br (S d)) (member_print (S d) kv :: map (member_print (S d)) l) ++ br d ++ CLOSE_OBJECT :: rest).
  assert (([OPEN_OBJECT] ++ br (S d) ++ join (COMMA :: br (S d)) (member_print (S d) kv :: map (member_print (S d)) l) ++
    br d ++ [CLOSE_OBJECT]) ++ rest = OPEN_OBJECT :: br (S d) ++ X) as E.
  { unfold X. simpl app. by rewrite <- !app_assoc. }
  rewrite E in *. assert (exists s2, X = QUOTE :: s2) as [s2 HX].
  { unfold X. rewrite join_cons. by eexists. }
  rewrite skip_space_stop by done. cbn [byte_eqb]. rewrite Hdepth, HX, skip_break by done.
  unfold closes_at_once. rewrite <- HX. cbn [andb orb byte_eqb].
  apply (members_read (kv :: l) IH fuel (S d) d [] rest []); [done|lia|done|constructor|].
  cbn [map app]. fold X. rewrite !length_app in Hf. simpl length in Hf. rewrite !length_app in Hf. lia.
Qed.

Lemma print_read t : reads_back t.
Proof using br_space gap_space.
  induction t as [|b|s|s|l IH|l IH] using json_ind; [..|by apply array_reads|by apply object_reads];
    intros fuel d rest sp Hd Hfit Hrest Hsp Hf;
    (destruct fuel as [|fuel]; [lia|]); cbn [ref_value]; rewrite skip_space_app by done; cbn [print] in *.
  - done.
  - by destruct b.
  - destruct Hfit as (Hne & Hh & Hend & _). destruct s as [|b s]; [done|].
    destruct (number_head b (Hh b s eq_refl)) as (H1 & H2 & H3 & H4 & H5).
    simpl app. rewrite skip_space_stop by done. unfold is_open in H2. rewrite H2.
    unfold ref_scalar. rewrite H3, H4, H5. unfold ref_number. change (b :: s ++ rest) with ((b :: s) ++ rest).
    rewrite Hend by done. by rewrite length_app, Nat.add_sub, take_app_length.
  - unfold quoted. simpl app. rewrite skip_space_stop by done.
    change ((QUOTE =b OPEN_OBJECT) || (QUOTE =b OPEN_ARRAY)) with false. unfold ref_scalar.
    rewrite byte_eqb_refl, <- app_assoc. simpl app. by rewrite ref_string_quoted.
Qed.
End ReadBack.
