(* ===== verification/JsonWriteSpec.v ===== *)
(** * JsonWriteSpec: what a writer that is done has written

    [astep] is the writer as a machine over trees: a stack of containers that
    are being filled. The writer of [JsonWrite] refines it call by call
    ([write_call_refines]): a call the machine refuses ruins the writer, and
    otherwise the text is the text of the machine's state. So a writer that
    says it is done has written exactly one value, the one the calls describe,
    and the reader of [Json] reads that value back.

    [emits calls t]: wherever the writer expects a value, the calls write the
    value [t]; [adds calls kvs]: inside an object they write the members [kvs].
    Both say what follows when the calls are accepted, so they compose without
    asking whether they are. *)
From S2P Require Import Prelude Buf Lex LexFacts LexSpec Wire WireSpec Decimal Json JsonFacts JsonSpec JsonRead JsonWrite JsonPrint.
#[local] Open Scope Z_scope.

(** ** UTF-8 *)

Lemma step_lead_lead b :
  step_lead b = match utf8_lead b with Some (extra, bits) => Some (S extra, bits) | None => None end.
Proof. by destruct b. Qed.

(** [utf8_step] takes one sequence or nothing. *)
Lemma utf8_step_valid s :
  utf8_step s <> O -> utf8_is_valid (take (utf8_step s) s) = true.
Proof.
  destruct s as [|lead tail]; [done|]. unfold utf8_step.
  destruct (Z.ltb_spec (bz lead) 0x80) as [Hlo|Hhi]; [intros _; by apply valid_1|].
  pose proof (utf8_lead_spec lead Hhi) as Hlead. rewrite step_lead_lead.
  destruct (utf8_lead lead) as [[[|[|[|[|]]]] bits]|]; try done; destruct Hlead as [Hr ->].
  - destruct tail as [|b t]; [done|]. cbn [length Nat.ltb Nat.leb Nat.sub Nat.eqb andb take]. rewrite take_0.
    cbn [forallb]. rewrite continuation_mask. destruct (is_continuation b) eqn:Hb; [|done].
    intros _. by apply valid_2.
  - destruct tail as [|b [|c t]]; [done|done|]. cbn [length Nat.ltb Nat.leb Nat.sub Nat.eqb take]. rewrite !take_0.
    cbn [forallb foldl]. rewrite !continuation_mask. destruct (is_continuation b) eqn:Hb, (is_continuation c) eqn:Hc; try done.
    cbn [andb negb]. rewrite !continuation_bits, !lor_shift by (try done; unfold is_continuation in *; unbool; lia).
    destruct (_ || _) eqn:E; [done|]. intros _. cbn [take]. rewrite ?take_0. apply valid_3. cbv zeta. unbool.
    apply andb_false_iff in H0. split; [done|]. split; [done|]. destruct H0; unbool; lia.
  - destruct tail as [|b [|c [|d t]]]; [done..|]. cbn [length Nat.ltb Nat.leb Nat.sub Nat.eqb take]. rewrite !take_0.
    cbn [forallb foldl]. rewrite !continuation_mask.
    destruct (is_continuation b) eqn:Hb, (is_continuation c) eqn:Hc, (is_continuation d) eqn:Hd; try done.
    cbn [andb negb]. rewrite !continuation_bits, !lor_shift by (try done; unfold is_continuation in *; unbool; lia).
    destruct (_ || _) eqn:E; [done|]. intros _. cbn [take]. rewrite ?take_0. apply valid_4. cbv zeta. unbool. split; [done|]. split; [done|]. lia.
Qed.

Lemma utf8_step_char c rest : utf8_is_valid c = true -> utf8_step (c ++ rest) = length c.
Proof.
  intros Hv. pose proof (utf8_valid_length c Hv) as Hlen.
  destruct c as [|a [|b [|c [|d [|]]]]]; simpl in Hlen; try lia; unfold utf8_step; cbn [app].
  - apply valid_1 in Hv. by rewrite (proj2 (Z.ltb_lt _ _)).
  - apply valid_2 in Hv as (Hb & Hr). pose proof (utf8_lead_spec a ltac:(lia)) as Hlead.
    rewrite (proj2 (Z.ltb_ge _ _)) by lia. rewrite step_lead_lead.
    destruct (utf8_lead a) as [[[|[|[|[|]]]] bits]|]; try done; try lia.
    cbn [length Nat.ltb Nat.leb Nat.sub Nat.eqb andb take]. rewrite take_0. cbn [forallb].
    by rewrite continuation_mask, Hb.
  - apply valid_3 in Hv as ((Hb & Hc) & Hr & Hcode). cbv zeta in Hcode. pose proof (utf8_lead_spec a ltac:(lia)) as Hlead.
    rewrite (proj2 (Z.ltb_ge _ _)) by lia. rewrite step_lead_lead.
    destruct (utf8_lead a) as [[[|[|[|[|]]]] bits]|]; try done; try lia. destruct Hlead as [_ ->].
    cbn [length Nat.ltb Nat.leb Nat.sub Nat.eqb take]. rewrite take_0. cbn [forallb foldl].
    rewrite !continuation_mask, Hb, Hc. cbn [andb negb].
    rewrite !continuation_bits, !lor_shift by (try done; unfold is_continuation in *; unbool; lia).
    rewrite (proj2 (orb_false_iff _ _)); [done|]. split; [apply Z.ltb_ge; lia|].
    apply andb_false_iff. rewrite !Z.leb_gt. lia.
  - apply valid_4 in Hv as ((Hb & Hc & Hd) & Hr & Hcode). cbv zeta in Hcode. pose proof (utf8_lead_spec a ltac:(lia)) as Hlead.
    rewrite (proj2 (Z.ltb_ge _ _)) by lia. rewrite step_lead_lead.
    destruct (utf8_lead a) as [[[|[|[|[|]]]] bits]|]; try done; try lia. destruct Hlead as [_ ->].
    cbn [length Nat.ltb Nat.leb Nat.sub Nat.eqb take]. rewrite take_0. cbn [forallb foldl].
    rewrite !continuation_mask, Hb, Hc, Hd. cbn [andb negb].
    rewrite !continuation_bits, !lor_shift by (try done; unfold is_continuation in *; unbool; lia).
    rewrite (proj2 (orb_false_iff _ _)); [done|]. rewrite !Z.ltb_ge. lia.
Qed.

(** What [write_quoted] asks of a string: sequence after sequence. *)
Fixpoint utf8_scan (fuel : nat) (s : list byte) : bool :=
  match fuel, s with
  | S fuel', _ :: _ => match utf8_step s with O => false | n => utf8_scan fuel' (drop n s) end
  | _, _ => true
  end.
Definition utf8_ok (s : list byte) : bool := utf8_scan (length s) s.

Lemma utf8_ok_text s : utf8_ok s = true <-> utf8_text s.
Proof.
  unfold utf8_ok. split.
  - assert (forall fuel s, (length s <= fuel)%nat -> utf8_scan fuel s = true -> utf8_text s) as H.
    { induction fuel as [|fuel IH]; intros [|b l] Hf Hs; simpl in Hf; try lia; [apply utf8_text_nil..|].
      cbn [utf8_scan] in Hs. destruct (utf8_step (b :: l)) as [|n] eqn:E; [done|].
      pose proof (utf8_step_valid (b :: l) ltac:(by rewrite E)) as Hv. rewrite E in Hv.
      apply IH in Hs as (chars & Hc & Hall); [|rewrite length_drop; simpl; lia].
      exists (take (S n) (b :: l) :: chars). split; [|by constructor]. cbn [concat]. by rewrite <- Hc, take_drop. }
    by apply H.
  - intros (chars & -> & Hall).
    assert (forall chars fuel, Forall (fun c => utf8_is_valid c = true) chars -> utf8_scan fuel (concat chars) = true) as H.
    { clear. intros chars fuel Hall. revert fuel. induction Hall as [|c chars Hc _ IH]; intros fuel; [by destruct fuel|].
      simpl concat. pose proof (utf8_valid_length c Hc) as Hlen. destruct fuel as [|fuel]; [done|].
      destruct c as [|a c]; [simpl in Hlen; lia|]. cbn [utf8_scan app].
      change (a :: c ++ concat chars) with ((a :: c) ++ concat chars).
      rewrite utf8_step_char by done.
      change (utf8_scan fuel (drop (length (a :: c)) ((a :: c) ++ concat chars)) = true).
      rewrite drop_app_length. apply IH. }
    by apply H.
Qed.

(** ** Compact text *)

Lemma enclose_compact o c d xs : enclose (fun _ => []) o c d xs = o :: join [COMMA] xs ++ [c].
Proof. unfold enclose. destruct xs; [done|]. done. Qed.

Lemma compact_depth d t : print (fun _ => []) [] d t = compact t.
Proof.
  unfold compact. generalize 0%nat. revert d.
  induction t as [|b|s|s|l IH|l IH] using json_ind; intros d d'; try done; cbn [print];
    rewrite !enclose_compact; do 3 f_equal; apply List.map_ext_Forall;
    (eapply Forall_impl; [exact IH|]); simpl; intros x Hx; by rewrite (Hx (S d) (S d')).
Qed.

Definition member_compact (kv : list byte * json) : list byte := quoted (fst kv) ++ [COLON] ++ compact (snd kv).

Lemma compact_array l : compact (JArray l) = OPEN_ARRAY :: join [COMMA] (map compact l) ++ [CLOSE_ARRAY].
Proof.
  unfold compact at 1. cbn [print]. rewrite enclose_compact. do 3 f_equal. apply map_ext. apply compact_depth.
Qed.

Lemma compact_object l : compact (JObject l) = OPEN_OBJECT :: join [COMMA] (map member_compact l) ++ [CLOSE_OBJECT].
Proof.
  unfold compact at 1. cbn [print]. rewrite enclose_compact. do 3 f_equal. apply map_ext. intros kv.
  unfold member_compact. by rewrite compact_depth.
Qed.

(** ** The machine *)

(** A container with a child being written, and the one on top. *)
Inductive lower := LRoot | LArray (l : list json) | LObject (l : list (list byte * json)) (k : list byte).
Inductive top :=
| TRoot (v : option json)
| TArray (l : list json)
| TObject (l : list (list byte * json)) (k : option (list byte)).

Record zipper := Zipper { z_below : list lower; z_top : top }.

Definition aopen (t : top) : option lower :=
  match t with
  | TRoot None => Some LRoot
  | TArray l => Some (LArray l)
  | TObject l (Some k) => Some (LObject l k)
  | _ => None
  end.

Definition aclose (lo : lower) (t : json) : top :=
  match lo with
  | LRoot => TRoot (Some t)
  | LArray l => TArray (l ++ [t])
  | LObject l k => TObject (l ++ [(k, t)]) None
  end.

Definition abegin (z : zipper) (fresh : top) : option zipper :=
  lo ← aopen (z_top z);
  if (NCFG_JSON_MAX_DEPTH <=? length (z_below z))%nat then None
  else Some (Zipper (lo :: z_below z) fresh).

Definition avalue (z : zipper) (t : json) : option zipper :=
  lo ← aopen (z_top z); Some (Zipper (z_below z) (aclose lo t)).

Definition astring (z : zipper) (s : option (list byte)) : option zipper :=
  s ← s; if utf8_ok s then avalue z (JString s) else None.

Definition astep (z : zipper) (c : call) : option zipper :=
  match c with
  | OBJECT_BEGIN => abegin z (TObject [] None)
  | ARRAY_BEGIN => abegin z (TArray [])
  | OBJECT_END =>
      match z_below z, z_top z with
      | lo :: below, TObject l None => Some (Zipper below (aclose lo (JObject l)))
      | _, _ => None
      end
  | ARRAY_END =>
      match z_below z, z_top z with
      | lo :: below, TArray l => Some (Zipper below (aclose lo (JArray l)))
      | _, _ => None
      end
  | MEMBER name =>
      name ← name;
      match z_top z with
      | TObject l None =>
          if utf8_ok (to_nul name) then Some (Zipper (z_below z) (TObject l (Some (to_nul name)))) else None
      | _ => None
      end
  | STRING s => astring z (to_nul <$> s)
  | STRING_BYTES s => astring z s
  | INT v | UINT v => avalue z (JNumber (num v))
  | BOOL b => avalue z (JBool b)
  | NULL_VALUE => avalue z JNull
  end.

Definition astart : zipper := Zipper [] (TRoot None).

Fixpoint asteps (z : zipper) (calls : list call) : option zipper :=
  match calls with
  | [] => Some z
  | c :: calls => z ← astep z c; asteps z calls
  end.

(** The value a sequence of calls describes, when it is one whole value. *)
Definition described (calls : list call) : option json :=
  match asteps astart calls with
  | Some (Zipper [] (TRoot v)) => v
  | _ => None
  end.

(** *** The text and the frames of a state *)

Definition sep {A} (l : list A) : list byte := match l with [] => [] | _ => [COMMA] end.

Definition lower_text (lo : lower) : list byte :=
  match lo with
  | LRoot => []
  | LArray l => OPEN_ARRAY :: join [COMMA] (map compact l) ++ sep l
  | LObject l k => OPEN_OBJECT :: join [COMMA] (map member_compact l) ++ sep l ++ quoted k ++ [COLON]
  end.

Definition top_text (t : top) : list byte :=
  match t with
  | TRoot v => match v with Some t => compact t | None => [] end
  | TArray l => OPEN_ARRAY :: join [COMMA] (map compact l)
  | TObject l None => OPEN_OBJECT :: join [COMMA] (map member_compact l)
  | TObject l (Some k) => OPEN_OBJECT :: join [COMMA] (map member_compact l) ++ sep l ++ quoted k ++ [COLON]
  end.

Fixpoint below_text (below : list lower) : list byte :=
  match below with [] => [] | lo :: below' => below_text below' ++ lower_text lo end.

Definition ztext (z : zipper) : list byte := below_text (z_below z) ++ top_text (z_top z).

Definition is_cons {A} (l : list A) : bool := match l with [] => false | _ => true end.

Definition lower_frame (lo : lower) : wframe :=
  match lo with LObject _ _ => WFrame true true false | _ => WFrame false true false end.

Definition top_frame (t : top) : wframe :=
  match t with
  | TRoot v => WFrame false (match v with Some _ => true | None => false end) false
  | TArray l => WFrame false (is_cons l) false
  | TObject l None => WFrame true (is_cons l) false
  | TObject _ (Some _) => WFrame true true true
  end.

(** The root is at the bottom and nowhere else. *)
Fixpoint rooted (below : list lower) : Prop :=
  match below with
  | [] => False
  | LRoot :: below' => below' = []
  | _ :: below' => rooted below'
  end.

Definition zip_ok (z : zipper) : Prop :=
  match z_top z with TRoot _ => z_below z = [] | _ => rooted (z_below z) end.

Lemma join_snoc (xs : list (list byte)) x :
  join [COMMA] (xs ++ [x]) = join [COMMA] xs ++ sep xs ++ x.
Proof.
  induction xs as [|y xs IH]; simpl; [done|]. destruct xs as [|y' xs]; simpl in *; [done|].
  rewrite IH. by rewrite <- !app_assoc.
Qed.

Lemma sep_map {A B} (f : A -> B) l : sep (map f l) = sep l.
Proof. by destruct l. Qed.

Lemma close_text lo t : lower_text lo ++ compact t = top_text (aclose lo t).
Proof.
  destruct lo as [|l|l k]; simpl; [done|..]; rewrite map_app; cbn [map]; rewrite join_snoc, sep_map, <- app_assoc; [done|].
  do 2 f_equal. unfold member_compact, quoted. cbn [fst snd]. rewrite <- !app_assoc. simpl. by rewrite <- !app_assoc.
Qed.

Lemma close_frame lo t : top_frame (aclose lo t) = lower_frame lo.
Proof. destruct lo as [|[]|[]]; reflexivity. Qed.

Lemma close_ok below lo t : rooted (lo :: below) -> zip_ok (Zipper below (aclose lo t)).
Proof. by destruct lo. Qed.

(** ** Refinement *)

Section Refine.
Context (realloc_ok : Z -> bool).

(** [w'] is [w] with [l] added, if the buffer is sound. *)
Record grows (w w' : writer) (l : list byte) : Prop := Grows {
  gr_failure : w_failure w' = w_failure w;
  gr_top : w_top w' = w_top w;
  gr_below : w_below w' = w_below w;
  gr_buf : appends (w_buf w) (w_buf w') l }.

Lemma grows_nil w : grows w w [].
Proof. split; try done. apply appends_nil. Qed.

Lemma grows_trans w w1 w2 l k : grows w w1 l -> grows w1 w2 k -> grows w w2 (l ++ k).
Proof. intros [? ? ? ?] [? ? ? ?]. split; try congruence. by eapply appends_trans. Qed.

Lemma grows_add w l : zlen l <= SIZE_MAX -> grows w (add realloc_ok w l) l.
Proof. intros. split; try done. by apply appends_add. Qed.

Lemma addf_add b l : l <> [] -> buf_addf realloc_ok b l = buf_add realloc_ok b l.
Proof. intros Hl. unfold buf_addf, buf_add. destruct l; [done|]. destruct (b_failed b) eqn:Hf; [|done]. unfold Buf.reserve. by rewrite Hf. Qed.

Lemma grows_wf w w' l : grows w w' l -> buf_wf (w_buf w) -> buf_wf (w_buf w').
Proof. intros [? ? ? Hb] Hwf. by destruct (Hb Hwf). Qed.

(** Once the buffer has failed nothing is written any more. *)
Definition dead (w : writer) : Prop := b_failed (w_buf w) = true.

Lemma add_dead w l : dead w -> dead (add realloc_ok w l).
Proof. intros Hw. by apply add_failed. Qed.

Lemma fail_dead w why : dead (writer_fail w why).
Proof. done. Qed.

Lemma fail_wf w why : buf_wf (w_buf w) -> buf_wf (w_buf (writer_fail w why)).
Proof. done. Qed.

(** *** Strings *)

Lemma short_ascii c : (is_Some (shortform c) \/ bz c < 0x20) -> bz c < 0x80.
Proof. intros [[e He]|H]; [|lia]. destruct c; (done || (vm_compute in He; discriminate)). Qed.

Lemma plain_escape c : shortform c = None -> ~ bz c < 0x20 -> escape_byte c = [c].
Proof. intros Hs Hc. unfold escape_byte. rewrite Hs. by rewrite (proj2 (Z.ltb_ge _ _)) by lia. Qed.

Lemma high_escape c : 0x80 <= bz c -> escape_byte c = [c].
Proof.
  intros Hc. apply plain_escape; [|lia]. destruct (shortform c) eqn:E; [|done].
  pose proof (short_ascii c (or_introl (ex_intro _ _ E))). lia.
Qed.

Lemma escaped_plain s : Forall (fun c => escape_byte c = [c]) s -> escaped s = s.
Proof. unfold escaped. induction 1 as [|c s Hc _ IH]; simpl; [done|]. by rewrite Hc, IH. Qed.

Lemma json_escaped_app s k : escaped (s ++ k) = escaped s ++ escaped k.
Proof. unfold escaped. by rewrite map_app, concat_app. Qed.

(** A sequence that is not escaped is copied. *)
Lemma escaped_sequence c s n :
  shortform c = None -> ~ bz c < 0x20 -> utf8_step (c :: s) = S n ->
  escaped (take (S n) (c :: s)) = take (S n) (c :: s).
Proof.
  intros Hs Hc Hn. pose proof (utf8_step_valid (c :: s) ltac:(by rewrite Hn)) as Hv. rewrite Hn in Hv.
  apply escaped_plain. apply Forall_forall. intros b Hb.
  destruct (decide (1 < length (take (S n) (c :: s)))%nat) as [Hl|Hl].
  - apply high_escape. by eapply utf8_valid_high.
  - destruct n as [|n].
    + simpl in Hb. rewrite take_0 in Hb. apply list_elem_of_singleton in Hb as ->. by apply plain_escape.
    + simpl in Hl, Hb. destruct s as [|d s]; [|simpl in Hl; lia].
      simpl in Hb. apply list_elem_of_singleton in Hb as ->. by apply plain_escape.
Qed.

Lemma escape_short c : zlen (escape_byte c) <= 6.
Proof. by destruct c. Qed.

Lemma quote_loop_spec fuel w s :
  (length s <= fuel)%nat -> buf_wf (w_buf w) ->
  let '(ok, w') := quote_loop realloc_ok fuel w s in
  ok = utf8_scan fuel s /\ buf_wf (w_buf w') /\ (if ok then grows w w' (escaped s) else dead w').
Proof.
  revert w s. induction fuel as [|fuel IH]; intros w s Hf Hwf.
  { destruct s; [|simpl in Hf; lia]. split_and!; [done..|]. apply grows_nil. }
  destruct s as [|c s]; [split_and!; [done..|apply grows_nil]|]. cbn [quote_loop utf8_scan]. simpl in Hf.
  assert (forall e, escape_byte c = e -> bz c < 0x80 ->
    let '(ok, w') := quote_loop realloc_ok fuel (add realloc_ok w e) s in
    ok = match utf8_step (c :: s) with O => false | n => utf8_scan fuel (drop n (c :: s)) end /\
    buf_wf (w_buf w') /\ (if ok then grows w w' (escaped (c :: s)) else dead w')) as Hone.
  { intros e He Hc. pose proof (escape_short c) as Hsh. rewrite He in Hsh.
    assert (grows w (add realloc_ok w e) e) as Hg by (apply grows_add; unfold SIZE_MAX; lia).
    specialize (IH (add realloc_ok w e) s ltac:(lia) (grows_wf _ _ _ Hg Hwf)).
    destruct (quote_loop _ _ _ _) as [ok w'] eqn:Eq. destruct IH as (-> & Hwf' & Hok).
    unfold utf8_step. rewrite (proj2 (Z.ltb_lt _ _)) by lia. cbn [drop].
    split_and!; [done..|]. destruct (utf8_scan fuel s); [|done].
    unfold escaped. cbn [map concat]. rewrite He. by eapply grows_trans. }
  destruct (shortform c) as [e|] eqn:Es.
  { apply Hone; [unfold escape_byte; by rewrite Es|]. apply short_ascii. left. by eexists. }
  destruct (Z.ltb_spec (bz c) 0x20) as [Hc|Hc].
  { apply Hone; [|lia]. unfold escape_byte. rewrite Es. by rewrite (proj2 (Z.ltb_lt _ _)). }
  destruct (utf8_step (c :: s)) as [|n] eqn:En; [by split_and!|].
  pose proof (utf8_step_valid (c :: s) ltac:(by rewrite En)) as Hv. rewrite En in Hv.
  apply utf8_valid_length in Hv as Hlen.
  assert (grows w (add realloc_ok w (take (S n) (c :: s))) (take (S n) (c :: s))) as Hg
    by (apply grows_add; unfold zlen, SIZE_MAX; lia).
  specialize (IH (add realloc_ok w (take (S n) (c :: s))) (drop (S n) (c :: s))
    ltac:(simpl; rewrite length_drop; lia) (grows_wf _ _ _ Hg Hwf)).
  destruct (quote_loop _ _ _ _) as [ok w']. destruct IH as (-> & Hwf' & Hok). split_and!; [done..|].
  destruct (utf8_scan fuel _); [|done].
  rewrite <- (take_drop (S n) (c :: s)) at 1. rewrite json_escaped_app, (escaped_sequence c s n) by (done || lia).
  by eapply grows_trans.
Qed.

Lemma write_quoted_spec w s :
  buf_wf (w_buf w) ->
  buf_wf (w_buf (write_quoted realloc_ok w s)) /\
  if utf8_ok s then grows w (write_quoted realloc_ok w s) (quoted s) else dead (write_quoted realloc_ok w s).
Proof.
  intros Hwf. unfold write_quoted, utf8_ok.
  assert (grows w (add realloc_ok w [QUOTE]) [QUOTE]) as Hq by (by apply grows_add).
  pose proof (quote_loop_spec (length s) (add realloc_ok w [QUOTE]) s ltac:(lia) (grows_wf _ _ _ Hq Hwf)) as H.
  destruct (quote_loop _ _ _ _) as [ok w']. destruct H as (-> & Hwf' & Hok).
  destruct (utf8_scan (length s) s); [|done].
  assert (grows w' (add realloc_ok w' [QUOTE]) [QUOTE]) as Hq' by (by apply grows_add).
  split; [by eapply grows_wf|]. change (quoted s) with ([QUOTE] ++ escaped s ++ [QUOTE]).
  eapply grows_trans; [exact Hq|]. by eapply grows_trans.
Qed.

(** *** Calls *)

(** A writer against the machine: its text and its frames are the state's,
    unless it has failed. *)
Record refines (base : list byte) (w : writer) (z : zipper) : Prop := Refines {
  rf_wf : buf_wf (w_buf w);
  rf_live : write_failed w = false ->
    b_bytes (w_buf w) = base ++ ztext z /\ w_top w = top_frame (z_top z) /\
    w_below w = map lower_frame (z_below z) }.

(** After a call: the machine's next state, or a writer that failed. *)
Definition follows (base : list byte) (w : writer) (z : option zipper) : Prop :=
  match z with
  | Some z => refines base w z
  | None => buf_wf (w_buf w) /\ write_failed w = true
  end.

Lemma live_usable w : write_failed w = false -> usable w = (true, w) /\ w_failure w = None /\ b_failed (w_buf w) = false.
Proof. unfold write_failed, usable, buf_failed. destruct (w_failure w); [done|]. by intros ->. Qed.

Lemma fail_failed w why : write_failed (writer_fail w why) = true.
Proof. unfold write_failed, writer_fail. simpl. by destruct (w_failure w). Qed.

Lemma dead_failed w : dead w -> write_failed w = true.
Proof. unfold dead, write_failed, buf_failed. intros ->. by destruct (w_failure w). Qed.

Lemma begin_value_refines base w z :
  zip_ok z -> refines base w z -> write_failed w = false ->
  let '(ok, w') := begin_value realloc_ok w in
  buf_wf (w_buf w') /\
  match aopen (z_top z) with
  | None => ok = false /\ write_failed w' = true
  | Some lo =>
      ok = true /\ w_failure w' = None /\ w_top w' = lower_frame lo /\
      w_below w' = map lower_frame (z_below z) /\
      (b_failed (w_buf w') = false -> b_bytes (w_buf w') = base ++ below_text (z_below z) ++ lower_text lo)
  end.
Proof.
  intros Hz [Hwf Hl] Hlive. destruct (Hl Hlive) as (Hb & Ht & Hbelow). destruct (live_usable w Hlive) as (Hu & Hf & Hbf).
  unfold begin_value. rewrite Hu, Hbelow, Ht. destruct z as [below tp]. unfold zip_ok, ztext in *. cbn [z_below z_top] in *.
  destruct tp as [v|l|l k].
  - subst below. simpl in Hb. destruct v; simpl; [split; [done|]; split; [done|]; apply fail_failed|].
    rewrite Hf. split_and!; done.
  - destruct below as [|lo below]; [done|]. cbn [map top_frame wf_is_object wf_has_child aopen lower_frame].
    assert (grows w (if is_cons l then add realloc_ok w [COMMA] else w) (sep l)) as [Gf _ Gb Ga].
    { destruct l; [apply grows_nil|by apply grows_add]. }
    destruct (Ga Hwf) as [Hwf' Ha]. split; [done|]. cbn [with_top w_failure w_top w_below w_buf].
    rewrite Gf, Gb, Hbelow. split_and!; try done. intros Hnf. destruct (Ha Hnf) as [_ ->].
    rewrite Hb. by rewrite <- !app_assoc.
  - destruct below as [|lo below]; [done|]. destruct k as [k|]; simpl.
    + rewrite Hf. split_and!; done.
    + split; [done|]. split; [done|]. apply fail_failed.
Qed.

(** A value that is one run of bytes. *)
Lemma value_refines base w z t w' :
  zip_ok z -> refines base w z -> write_failed w = false ->
  (fst (begin_value realloc_ok w) = false -> w' = snd (begin_value realloc_ok w)) ->
  (fst (begin_value realloc_ok w) = true -> grows (snd (begin_value realloc_ok w)) w' (compact t)) ->
  follows base w' (avalue z t).
Proof.
  intros Hz Hr Hlive Hno Hyes. pose proof (begin_value_refines base w z Hz Hr Hlive) as H.
  destruct (begin_value realloc_ok w) as [ok w1]. destruct H as [Hwf H]. unfold avalue, mbind, option_bind.
  destruct (aopen (z_top z)) as [lo|]; simpl in *.
  - destruct H as (-> & Hf & Ht & Hb & Htext). destruct (Hyes eq_refl) as [Gf Gt Gb Ga].
    destruct (Ga Hwf) as [Hwf' Ha]. split; [done|]. intros Hl.
    destruct (live_usable w' Hl) as (_ & _ & Hnf). destruct (Ha Hnf) as [Hnf1 ->].
    rewrite Htext by done. unfold ztext. cbn [z_below z_top]. rewrite <- close_text, close_frame.
    split; [by rewrite <- !app_assoc|]. split; congruence.
  - destruct H as [-> H]. rewrite Hno by done. done.
Qed.

Lemma string_refines base w z s :
  zip_ok z -> refines base w z -> write_failed w = false ->
  follows base (write_string_bytes realloc_ok w s) (astring z s).
Proof.
  intros Hz Hr Hlive. unfold write_string_bytes, astring. destruct s as [s|]; simpl.
  2:{ destruct (live_usable w Hlive) as [-> _]. destruct Hr. split; [done|apply fail_failed]. }
  pose proof (begin_value_refines base w z Hz Hr Hlive) as Hbv.
  destruct (begin_value realloc_ok w) as [ok w1] eqn:Eb. destruct Hbv as [Hwf1 Hbv].
  pose proof (write_quoted_spec w1 s Hwf1) as [Hwf2 Hq].
  destruct (utf8_ok s).
  - apply (value_refines base w z (JString s)); [done..| |]; rewrite Eb; cbn [fst snd]; by intros ->.
  - destruct ok; simpl.
    + split; [done|]. by apply dead_failed.
    + split; [done|]. destruct (aopen (z_top z)); [by destruct Hbv|by destruct Hbv].
Qed.

Lemma begin_refines base w z (o : bool) :
  zip_ok z -> refines base w z -> write_failed w = false ->
  follows base (container_begin realloc_ok w (if o then OPEN_OBJECT else OPEN_ARRAY) o)
    (abegin z (if o then TObject [] None else TArray [])).
Proof.
  intros Hz Hr Hlive. pose proof (begin_value_refines base w z Hz Hr Hlive) as H.
  unfold container_begin. destruct (begin_value realloc_ok w) as [ok w1]. destruct H as [Hwf H].
  unfold abegin, mbind, option_bind. destruct (aopen (z_top z)) as [lo|]; [|destruct H as [-> H]; done].
  destruct H as (-> & Hf & Ht & Hb & Htext). rewrite Hb, length_map.
  destruct (_ <=? _)%nat; [split; [done|apply fail_failed]|].
  set (open := if o then OPEN_OBJECT else OPEN_ARRAY).
  assert (grows w1 (add realloc_ok w1 [open]) [open]) as [Gf Gt Gb Ga] by (by apply grows_add).
  destruct (Ga Hwf) as [Hwf' Ha]. split; [done|]. intros Hl.
  destruct (live_usable _ Hl) as (_ & _ & Hnf). destruct (Ha Hnf) as [Hnf1 Hbytes]. simpl in Hbytes |- *.
  rewrite Hbytes, Htext by done. unfold ztext. cbn [z_below z_top below_text].
  split; [|split; [by destruct o|by rewrite Ht, Hb]].
  unfold open. destruct o; simpl; by rewrite <- !app_assoc.
Qed.

Lemma end_refines base w z (o : bool) :
  zip_ok z -> refines base w z -> write_failed w = false ->
  follows base (container_end realloc_ok w (if o then CLOSE_OBJECT else CLOSE_ARRAY) o)
    (astep z (if o then OBJECT_END else ARRAY_END)).
Proof.
  intros Hz [Hwf Hl] Hlive. destruct (Hl Hlive) as (Hb & Ht & Hbelow). destruct (live_usable w Hlive) as (Hu & Hf & Hbf).
  unfold container_end. rewrite Hu, Hbelow, Ht. destruct z as [below tp]. unfold zip_ok, ztext in *. cbn [z_below z_top] in *.
  assert (forall why, buf_wf (w_buf (writer_fail w why)) /\ write_failed (writer_fail w why) = true) as Hfail
    by (intros; split; [done|apply fail_failed]).
  destruct below as [|lo below]; [destruct o; apply Hfail|]. cbn [map].
  set (close := if o then CLOSE_OBJECT else CLOSE_ARRAY).
  assert (grows w (add realloc_ok w [close]) [close]) as [Gf Gt Gb Ga] by (by apply grows_add).
  destruct (Ga Hwf) as [Hwf' Ha].
  assert (forall t, top_text tp ++ [close] = compact t ->
    refines base (Writer (w_buf (add realloc_ok w [close])) (w_failure (add realloc_ok w [close])) (lower_frame lo) (map lower_frame below))
      (Zipper below (aclose lo t))) as Hdone.
  { intros t Htext. split; [done|]. intros Hl'. destruct (live_usable _ Hl') as (_ & _ & Hnf).
    destruct (Ha Hnf) as [_ Hbytes]. cbn [w_buf w_top w_below]. rewrite Hbytes, Hb. unfold ztext.
    cbn [z_below z_top below_text]. rewrite close_frame, <- close_text, <- Htext. by rewrite <- !app_assoc. }
  destruct o, tp as [v|l|l [k|]]; simpl; try apply Hfail; try done.
  - apply Hdone. unfold close. by rewrite compact_object.
  - apply Hdone. unfold close. by rewrite compact_array.
Qed.

Lemma key_refines base w z name :
  zip_ok z -> refines base w z -> write_failed w = false ->
  follows base (write_key realloc_ok w (to_nul <$> name)) (astep z (MEMBER name)).
Proof.
  intros Hz [Hwf Hl] Hlive. destruct (Hl Hlive) as (Hb & Ht & Hbelow). destruct (live_usable w Hlive) as (Hu & Hf & Hbf).
  unfold write_key. rewrite Hu, Hbelow, Ht. destruct z as [below tp]. unfold zip_ok, ztext in *. cbn [z_below z_top] in *.
  assert (forall why, buf_wf (w_buf (writer_fail w why)) /\ write_failed (writer_fail w why) = true) as Hfail
    by (intros; split; [done|apply fail_failed]).
  destruct name as [name|]; [|destruct below, tp as [?|?|? [?|]]; apply Hfail].
  simpl. destruct tp as [v|l|l [k|]]; simpl in *; [subst below; apply Hfail|destruct below; apply Hfail|destruct below; apply Hfail|].
  destruct below as [|lo below]; [done|]. cbn [map].
  set (w1 := if is_cons l then add realloc_ok w [COMMA] else w).
  assert (grows w w1 (sep l)) as G1 by (unfold w1; destruct l; [apply grows_nil|by apply grows_add]).
  pose proof (write_quoted_spec w1 (to_nul name) (grows_wf _ _ _ G1 Hwf)) as [Hwf2 Hq].
  set (w2 := write_quoted realloc_ok w1 (to_nul name)) in *.
  assert (grows w2 (add realloc_ok w2 [COLON]) [COLON]) as G3 by (by apply grows_add).
  destruct (utf8_ok (to_nul name)).
  - destruct (grows_trans _ _ _ _ _ G1 (grows_trans _ _ _ _ _ Hq G3)) as [Gf Gt Gb Ga].
    destruct (Ga Hwf) as [Hwf' Ha]. split; [done|]. intros Hl'. destruct (live_usable _ Hl') as (_ & _ & Hnf).
    destruct (Ha Hnf) as [_ Hbytes]. cbn [with_top w_buf w_top w_below]. unfold ztext. cbn [z_below z_top top_text top_frame].
    rewrite Hbytes, Hb. split; [|split; [done|by rewrite Gb]]. simpl. by rewrite <- !app_assoc.
  - split; [exact (grows_wf _ _ _ G3 Hwf2)|]. apply dead_failed. by apply (add_dead w2).
Qed.

(** A writer that has failed stays as it is. *)
Lemma failed_stays w c : write_failed w = true -> buf_wf (w_buf w) ->
  write_failed (write_call realloc_ok w c) = true /\ buf_wf (w_buf (write_call realloc_ok w c)).
Proof.
  intros Hf Hwf.
  assert (exists w', usable w = (false, w') /\ write_failed w' = true /\ buf_wf (w_buf w')) as (w' & Hu & Hf' & Hwf').
  { unfold usable, write_failed in *. destruct (w_failure w) eqn:E; [exists w; rewrite E; done|].
    rewrite Hf. eexists. split; [done|]. split; [|done]. simpl. by rewrite E. }
  assert (begin_value realloc_ok w = (false, w')) as Hb by (unfold begin_value; by rewrite Hu).
  destruct c as [| | | |[|]|[|]|[|]| | | |]; simpl;
    unfold container_begin, container_end, write_key, write_string, write_string_bytes, write_int, write_uint,
      write_bool, write_null; by rewrite ?Hb, ?Hu.
Qed.

Lemma astep_ok z c z' : zip_ok z -> astep z c = Some z' -> zip_ok z'.
Proof.
  intros Hz H.
  assert (forall lo t, aopen (z_top z) = Some lo -> zip_ok (Zipper (z_below z) (aclose lo t)) /\ rooted (lo :: z_below z)) as Hopen.
  { intros lo t Hlo. unfold zip_ok in Hz. destruct (z_top z) as [[v|]|l|l [k|]]; simpl in Hlo; simplify_eq; by split. }
  assert (forall t z', avalue z t = Some z' -> zip_ok z') as Hval.
  { unfold avalue, mbind, option_bind. intros t z2 Hv. destruct (aopen (z_top z)) as [lo|] eqn:E; simplify_eq. by apply Hopen. }
  assert (forall fresh, match fresh with TRoot _ => False | _ => True end -> abegin z fresh = Some z' -> zip_ok z') as Hbeg.
  { unfold abegin, mbind, option_bind. intros fresh Hfr Hv. destruct (aopen (z_top z)) as [lo|] eqn:E; [|done].
    destruct (_ <=? _)%nat; simplify_eq. destruct (Hopen lo JNull eq_refl) as [_ Hro]. by destruct fresh. }
  assert (forall lo below t, z_below z = lo :: below -> zip_ok (Zipper below (aclose lo t))) as Hcl.
  { intros lo below t E. apply close_ok. unfold zip_ok in Hz. rewrite E in Hz. by destruct (z_top z). }
  destruct c; simpl in H.
  - by eapply Hbeg; [|exact H].
  - destruct (z_below z) eqn:E; [done|]. destruct (z_top z) as [?|?|? [?|]]; simplify_eq. by apply Hcl.
  - by eapply Hbeg; [|exact H].
  - destruct (z_below z) eqn:E; [done|]. destruct (z_top z) as [?|?|? [?|]]; simplify_eq. by apply Hcl.
  - unfold zip_ok in Hz. destruct name; [|done]. simpl in H. destruct (z_top z) as [?|?|? [?|]]; try done.
    destruct (utf8_ok _); simplify_eq. done.
  - destruct text as [s|]; [|done]. simpl in H. destruct (utf8_ok _); [|done]. by eapply Hval.
  - destruct text as [s|]; [|done]. simpl in H. destruct (utf8_ok _); [|done]. by eapply Hval.
  - by eapply Hval.
  - by eapply Hval.
  - by eapply Hval.
  - by eapply Hval.
Qed.

(** The integers a call can carry. *)
Definition call_typed (c : call) : Prop :=
  match c with
  | INT v => INT64_MIN <= v <= INT64_MAX
  | UINT v => 0 <= v < 2 ^ 64
  | _ => True
  end.

Lemma grows_num w v : - 2 ^ 64 < v < 2 ^ 64 ->
  grows w (with_buf w (buf_addf realloc_ok (w_buf w) (num v))) (compact (JNumber (num v))).
Proof.
  intros Hv. rewrite addf_add.
  - apply (grows_add w (num v)). pose proof (num_length v 20 ltac:(lia) ltac:(lia)). unfold SIZE_MAX. lia.
  - destruct (num_shape v) as (ds & -> & _ & Hne & _). intros [_ ->]%app_eq_nil. done.
Qed.

Lemma write_call_refines base w z c :
  call_typed c -> zip_ok z -> refines base w z -> write_failed w = false ->
  follows base (write_call realloc_ok w c) (astep z c).
Proof.
  intros Hc Hz Hr Hlive.
  assert (forall t f, (forall w, grows w (f w) (compact t)) ->
    follows base (match begin_value realloc_ok w with (true, w) => f w | (false, w) => w end) (avalue z t)) as Hval.
  { intros t f Hf. apply (value_refines base w z t); [done..| |];
      destruct (begin_value realloc_ok w) as [ok w1]; cbn [fst snd]; by intros ->. }
  destruct c as [| | | |name|s|s|v|v|b|]; simpl.
  - by apply (begin_refines base w z true).
  - by apply (end_refines base w z true).
  - by apply (begin_refines base w z false).
  - by apply (end_refines base w z false).
  - by apply key_refines.
  - destruct s as [s|]; [by apply string_refines|by apply (string_refines base w z None)].
  - by apply string_refines.
  - apply (Hval (JNumber (num v))). intros. apply grows_num. simpl in Hc. unfold INT64_MIN, INT64_MAX in Hc. lia.
  - apply (Hval (JNumber (num v))). intros. apply grows_num. simpl in Hc. lia.
  - apply (Hval (JBool b)). intros. destruct b; by apply grows_add.
  - apply (Hval JNull). intros. by apply grows_add.
Qed.

(** A whole sequence of calls. *)
Lemma write_calls_refine base calls w z :
  Forall call_typed calls -> zip_ok z -> refines base w z ->
  buf_wf (w_buf (write_calls realloc_ok w calls)) /\
  (write_failed (write_calls realloc_ok w calls) = false ->
   exists z', asteps z calls = Some z' /\ zip_ok z' /\ refines base (write_calls realloc_ok w calls) z').
Proof.
  intros Hc. revert w z. induction Hc as [|c calls Hc _ IH]; intros w z Hz Hr; simpl.
  { split; [by destruct Hr|]. eauto. }
  assert (forall w, buf_wf (w_buf w) -> write_failed w = true ->
    buf_wf (w_buf (write_calls realloc_ok w calls)) /\ write_failed (write_calls realloc_ok w calls) = true) as Hdead.
  { clear. induction calls as [|c calls IH]; intros w Hwf Hf; [done|]. simpl.
    destruct (failed_stays w c Hf Hwf). by apply IH. }
  destruct (write_failed w) eqn:Hf.
  { destruct Hr as [Hwf _]. destruct (failed_stays w c Hf Hwf) as [Hf' Hwf']. destruct (Hdead _ Hwf' Hf') as [? Hd].
    split; [done|]. change (foldl (write_call realloc_ok) ?a calls) with (write_calls realloc_ok a calls). congruence. }
  pose proof (write_call_refines base w z c Hc Hz Hr Hf) as Hs.
  destruct (astep z c) as [z1|] eqn:Ea; simpl.
  - apply (IH (write_call realloc_ok w c) z1); [by eapply astep_ok|done].
  - destruct Hs as [Hwf' Hf']. destruct (Hdead _ Hwf' Hf') as [? Hd]. split; [done|].
    change (foldl (write_call realloc_ok) ?a calls) with (write_calls realloc_ok a calls). congruence.
Qed.

(** A writer that says it is done has written the text of what the calls
    describe, after what was in the buffer. *)
Lemma write_done_text b calls :
  Forall call_typed calls -> buf_wf b ->
  write_done (write_calls realloc_ok (write_init b) calls) = true ->
  exists t, described calls = Some t /\
    b_bytes (w_buf (write_calls realloc_ok (write_init b) calls)) = b_bytes b ++ compact t.
Proof.
  intros Hc Hwf Hd. unfold write_done in Hd. destruct (write_failed _) eqn:Hf; [done|].
  destruct (write_calls_refine (b_bytes b) calls (write_init b) astart Hc eq_refl) as [_ Hr].
  { split; [done|]. intros _. unfold ztext. simpl. by rewrite app_nil_r. }
  destruct (Hr Hf) as (z & Hz & Hok & [_ Hl]). destruct (Hl Hf) as (Hb & Ht & Hbelow).
  rewrite Hbelow, Ht in Hd. unfold described. rewrite Hz. destruct z as [below tp]. unfold zip_ok, ztext in *.
  cbn [z_below z_top] in *. destruct below as [|lo below]; [|done]. destruct tp as [[t|]|l|l k]; try done.
  exists t. split; [done|]. exact Hb.
Qed.
End Refine.

(** ** Reading it back *)

Lemma skip_digits_app ds rest : all_digits ds -> delimited rest -> skip_digits (ds ++ rest) = rest.
Proof.
  intros Hds Hr. induction Hds as [|b ds Hb _ IH]; simpl; [|by rewrite Hb].
  destruct rest as [|b rest]; [done|]. simpl in *. unfold number_stop in Hr. by destruct (is_digit b).
Qed.

Lemma number_tail rest : delimited rest -> number_fraction rest = inr rest /\ number_exponent rest = inr rest.
Proof.
  destruct rest as [|b rest]; [done|]. simpl. unfold number_stop. intros H.
  destruct (b =b "."%byte), (b =b "e"%byte), (b =b "E"%byte); try done; by rewrite ?andb_false_r in H.
Qed.

Lemma num_number_ok v : number_ok (num v).
Proof.
  destruct (num_shape v) as (ds & E & Hds & Hne & _ & Hzero). destruct ds as [|c ds]; [done|].
  pose proof (Forall_inv Hds) as Hc. rewrite E. split; [by destruct (v <? 0)|]. split.
  { intros b s' Eb. destruct (v <? 0); simplify_eq/=; auto. }
  split.
  2:{ apply Forall_app. split; [by destruct (v <? 0); repeat constructor|].
      eapply Forall_impl; [exact Hds|]. intros b Hb. unfold number_byte. by rewrite Hb. }
  intros rest Hr. unfold number_end.
  assert (number_sign (((if v <? 0 then ["-"%byte] else []) ++ c :: ds) ++ rest) = (c :: ds) ++ rest) as ->.
  { destruct (v <? 0); [done|]. simpl. destruct (byte_eqb_spec c "-"%byte) as [->|]; done. }
  destruct (number_tail rest Hr) as [Hfr Hex].
  assert (number_integer ((c :: ds) ++ rest) = inr rest) as ->; [|by rewrite Hfr].
  unfold number_integer. simpl app. destruct (byte_eqb_spec c "0"%byte) as [->|Hc0].
  - specialize (Hzero eq_refl) as [= ->]. done.
  - assert (byte_between "1" "9" c = true) as ->.
    { clear -Hc Hc0. destruct c; try done. }
    rewrite byte_eqb_neq by done. change (c :: ds ++ rest) with ((c :: ds) ++ rest). by rewrite skip_digits_app.
Qed.

(** Everything in a state fits under the depth the reader accepts. *)
Definition left_at (below : list lower) : nat := NCFG_JSON_MAX_DEPTH - length below.

Definition lower_fits (below : list lower) (lo : lower) : Prop :=
  match lo with
  | LRoot => True
  | LArray l => Forall (fits (left_at below)) l
  | LObject l _ => Forall (fun kv => fits (left_at below) (snd kv)) l
  end.

Fixpoint below_fits (below : list lower) : Prop :=
  match below with [] => True | lo :: below' => lower_fits below' lo /\ below_fits below' end.

Definition zip_fits (z : zipper) : Prop :=
  (length (z_below z) <= NCFG_JSON_MAX_DEPTH)%nat /\ below_fits (z_below z) /\
  match z_top z with
  | TRoot v => match v with Some t => fits (left_at (z_below z)) t | None => True end
  | TArray l => Forall (fits (left_at (z_below z))) l
  | TObject l _ => Forall (fun kv => fits (left_at (z_below z)) (snd kv)) l
  end.

Lemma close_fits below lo t :
  (length below <= NCFG_JSON_MAX_DEPTH)%nat -> below_fits below -> lower_fits below lo ->
  fits (left_at below) t -> zip_fits (Zipper below (aclose lo t)).
Proof.
  intros Hd Hb Hlo Ht. split; [done|]. split; [done|]. destruct lo as [|l|l k]; simpl in *; [done|..];
    apply Forall_app; split; try done; by constructor.
Qed.

Lemma open_fits z lo : zip_fits z -> aopen (z_top z) = Some lo -> lower_fits (z_below z) lo.
Proof. intros (_ & _ & Ht) H. destruct (z_top z) as [[v|]|l|l [k|]]; simpl in H; simplify_eq; done. Qed.

Lemma Forall_map_id {A} (P : A -> Prop) l : Forall P l -> Forall id (map P l).
Proof. induction 1; by constructor. Qed.

Lemma astep_fits z c z' : zip_fits z -> astep z c = Some z' -> zip_fits z'.
Proof.
  intros Hz H. destruct z as [below tp]. pose proof Hz as (Hd & Hb & Ht). cbn [z_below z_top] in *.
  assert (forall t, fits (left_at below) t -> avalue (Zipper below tp) t = Some z' -> zip_fits z') as Hval.
  { intros t Hft Hv. unfold avalue, mbind, option_bind in Hv. cbn [z_top z_below] in Hv.
    destruct (aopen tp) as [lo|] eqn:E; simplify_eq. apply close_fits; try done. by apply (open_fits (Zipper below tp)). }
  assert (forall fresh, (forall b, zip_fits (Zipper b fresh) <-> (length b <= NCFG_JSON_MAX_DEPTH)%nat /\ below_fits b) ->
    abegin (Zipper below tp) fresh = Some z' -> zip_fits z') as Hbeg.
  { intros fresh Hfr Hv. unfold abegin, mbind, option_bind in Hv. cbn [z_top z_below] in Hv.
    destruct (aopen tp) as [lo|] eqn:E; [|done]. destruct (Nat.leb_spec NCFG_JSON_MAX_DEPTH (length below)); simplify_eq.
    apply Hfr. split; [simpl; lia|]. split; [by apply (open_fits (Zipper below tp))|done]. }
  assert (forall lo below' t, below = lo :: below' -> (forall n, left_at below' = S n -> left_at below = n -> fits (S n) t) ->
    zip_fits (Zipper below' (aclose lo t))) as Hcl.
  { intros lo below' t -> Hft. simpl in Hd. destruct Hb as [Hlo Hb].
    assert (left_at below' = S (left_at (lo :: below'))) as E by (unfold left_at; simpl length; lia).
    apply close_fits; try done; [lia|]. rewrite E. by apply Hft. }
  destruct c; simpl in H.
  - eapply Hbeg; [|exact H]. intros b. unfold zip_fits. simpl. split; [intros (? & ? & _)|intros [? ?]]; repeat split; done.
  - destruct below as [|lo below]; [done|]. destruct tp as [?|?|l [?|]]; simplify_eq. eapply Hcl; [done|].
    intros n _ En. simpl. apply Forall_map_id. by rewrite <- En.
  - eapply Hbeg; [|exact H]. intros b. unfold zip_fits. simpl. split; [intros (? & ? & _)|intros [? ?]]; repeat split; done.
  - destruct below as [|lo below]; [done|]. destruct tp as [?|l|? ?]; simplify_eq. eapply Hcl; [done|].
    intros n _ En. simpl. apply Forall_map_id. by rewrite <- En.
  - destruct name; [|done]. simpl in H. destruct tp as [?|?|? [?|]]; try done. by destruct (utf8_ok _); simplify_eq.
  - destruct text as [s|]; [|done]. simpl in H. destruct (utf8_ok _); [|done]. by eapply Hval; [|exact H].
  - destruct text as [s|]; [|done]. simpl in H. destruct (utf8_ok _); [|done]. by eapply Hval; [|exact H].
  - eapply Hval; [|exact H]. apply num_number_ok.
  - eapply Hval; [|exact H]. apply num_number_ok.
  - by eapply Hval; [|exact H].
  - by eapply Hval; [|exact H].
Qed.

Lemma described_fits calls t : described calls = Some t -> fits NCFG_JSON_MAX_DEPTH t.
Proof.
  assert (forall z z', zip_fits z -> asteps z calls = Some z' -> zip_fits z') as Hsteps.
  { induction calls as [|c calls IH]; intros z z' Hz; simpl; [by intros [= <-]|].
    destruct (astep z c) as [z1|] eqn:E; [|done]. simpl. apply IH. by eapply astep_fits. }
  unfold described. destruct (asteps astart calls) as [[[|] tp]|] eqn:E; [|done..]. destruct tp as [v|?|?]; try done.
  intros ->. apply Hsteps in E as (_ & _ & Ht); [done|]. split; [simpl; lia|done].
Qed.

(** What is printed, in any layout of white space, is what is read. *)
Lemma ref_parse_print br gap t :
  (forall d, all_space (br d)) -> all_space gap -> fits NCFG_JSON_MAX_DEPTH t ->
  ref_parse (print br gap 0 t) = inr t.
Proof.
  intros Hbr Hgap Hf. unfold ref_parse.
  destruct (print_head br gap 0 _ t Hf) as (b & s & Hp & Hb & _).
  pose proof (print_read br gap Hbr Hgap t (ref_fuel (print br gap 0 t)) 0%nat [] [] ltac:(lia) Hf I ltac:(constructor)) as H.
  simpl app in H. rewrite app_nil_r in H. rewrite H by (unfold ref_fuel; lia).
  rewrite Hp, skip_space_stop by done. done.
Qed.

(** The limit of the buffer is the one it was given. *)
Section Limit.
Context (realloc_ok : Z -> bool).

Lemma add_limit b l : b_limit (buf_add realloc_ok b l) = b_limit b.
Proof. unfold buf_add, Buf.reserve. repeat case_match; simplify_eq; done. Qed.

Lemma addf_limit b l : b_limit (buf_addf realloc_ok b l) = b_limit b.
Proof. unfold buf_addf, Buf.reserve. repeat case_match; simplify_eq; done. Qed.

Definition lim (w : writer) : Z := b_limit (w_buf w).

Lemma lim_add w l : lim (add realloc_ok w l) = lim w.
Proof. apply add_limit. Qed.

Lemma lim_usable w : lim (snd (usable w)) = lim w.
Proof. unfold usable. by destruct (w_failure w), (buf_failed (w_buf w)). Qed.

Lemma lim_begin w : lim (snd (begin_value realloc_ok w)) = lim w.
Proof.
  unfold begin_value. pose proof (lim_usable w) as H. destruct (usable w) as [[] w1]; [|done]. cbn [snd] in H.
  rewrite <- H. destruct (w_below w1); repeat case_match; try done. by apply lim_add.
Qed.

Lemma lim_quote fuel w s : lim (snd (quote_loop realloc_ok fuel w s)) = lim w.
Proof.
  revert w s. induction fuel as [|fuel IH]; intros w [|c s]; try done. cbn [quote_loop].
  destruct (shortform c); [by rewrite IH, lim_add|]. destruct (_ <? _); [by rewrite IH, lim_add|].
  destruct (utf8_step _); [done|]. by rewrite IH, lim_add.
Qed.

Lemma lim_quoted w s : lim (write_quoted realloc_ok w s) = lim w.
Proof.
  unfold write_quoted. pose proof (lim_quote (length s) (add realloc_ok w [QUOTE]) s) as H.
  destruct (quote_loop _ _ _ _) as [[] w1]; cbn [snd] in H; rewrite ?lim_add in *; done.
Qed.

Lemma lim_call w c : lim (write_call realloc_ok w c) = lim w.
Proof.
  pose proof (lim_usable w) as Hu. pose proof (lim_begin w) as Hb.
  assert (forall s, lim (write_string_bytes realloc_ok w s) = lim w) as Hs.
  { intros [s|]; unfold write_string_bytes.
    - destruct (begin_value _ w) as [[] w1]; cbn [snd] in Hb; by rewrite ?lim_quoted.
    - by destruct (usable w) as [[] w1]. }
  destruct c as [| | | |name|s|s|v|v|b|]; simpl;
    unfold container_begin, container_end, write_key, write_int, write_uint, write_bool, write_null.
  1,3: destruct (begin_value _ w) as [[] w1]; cbn [snd] in Hb; [|done]; (destruct (_ <=? _)%nat; [done|]);
    rewrite <- Hb; apply add_limit.
  1,2: destruct (usable w) as [[] w1]; cbn [snd] in Hu; [|done]; (destruct (w_below w1); [done|]);
    repeat case_match; try done; rewrite <- Hu; apply add_limit.
  - destruct (usable w) as [[] w1]; cbn [snd] in Hu; [|done]. destruct (w_below w1); [done|].
    repeat case_match; try done; rewrite <- Hu; change (lim (with_top ?w _)) with (lim w); by rewrite lim_add, lim_quoted, ?lim_add.
  - destruct s as [s|]; [apply Hs|apply (Hs None)].
  - apply Hs.
  - destruct (begin_value _ w) as [[] w1]; cbn [snd] in Hb; [|done]. rewrite <- Hb. apply addf_limit.
  - destruct (begin_value _ w) as [[] w1]; cbn [snd] in Hb; [|done]. rewrite <- Hb. apply addf_limit.
  - destruct (begin_value _ w) as [[] w1]; cbn [snd] in Hb; [|done]. rewrite <- Hb. apply add_limit.
  - destruct (begin_value _ w) as [[] w1]; cbn [snd] in Hb; [|done]. rewrite <- Hb. apply add_limit.
Qed.

Lemma lim_calls w calls : lim (write_calls realloc_ok w calls) = lim w.
Proof. revert w. induction calls as [|c calls IH]; intros w; [done|]. simpl. by rewrite IH, lim_call. Qed.
End Limit.

Lemma writer_reads_back realloc_ok limit calls :
  0 <= limit < 2 ^ 30 -> Forall call_typed calls ->
  let w := write_calls realloc_ok (write_init (buf_init limit)) calls in
  write_done w = true ->
  exists t capacity, described calls = Some t /\ b_bytes (w_buf w) = compact t /\
    json_parse (fun _ => true) true (b_bytes (w_buf w)) = Some (inr (doc_of t capacity)) /\
    zlen (b_bytes (w_buf w)) < 2 ^ 30 /\ buf_wf (w_buf w) /\ ref_parse (b_bytes (w_buf w)) = inr t.
Proof.
  intros Hlim Hc w Hd. destruct (write_done_text realloc_ok (buf_init limit) calls Hc) as (t & Ht & Hb).
  { apply buf_init_wf. lia. }
  { exact Hd. }
  simpl in Hb. fold w in Hb. exists t.
  assert (zlen (b_bytes (w_buf w)) < 2 ^ 30 /\ buf_wf (w_buf w)) as [Hlen Hwf].
  { destruct (write_calls_refine realloc_ok [] calls (write_init (buf_init limit)) astart Hc eq_refl) as [Hwf _].
    { split; [apply buf_init_wf; lia|done]. }
    split; [|done]. destruct Hwf as (_ & Hle & _). change (b_limit (w_buf ?v)) with (lim v) in Hle. rewrite lim_calls in Hle.
    unfold lim, b_length in Hle. simpl in Hle. fold w in Hle. unfold DEFAULT_LIMIT in Hle.
    destruct (limit =? 0); lia. }
  destruct (json_parse_ref (fun _ => true) (b_bytes (w_buf w)) (fun _ => eq_refl) Hlen) as [cap Hp].
  assert (ref_parse (b_bytes (w_buf w)) = inr t) as Href.
  { rewrite Hb. apply ref_parse_print; [intros; apply Forall_nil_2|apply Forall_nil_2|by eapply described_fits]. }
  exists cap. rewrite Hp, Href. done.
Qed.

(** C18: What the writer wrote is what the reader reads. Whatever calls a
    program makes, in whatever order: if the writer then says it is done, the
    calls describe exactly one value, the buffer holds its text and nothing
    else, and [ncfg_json_parse] gives the node array of that value. A misuse, a
    string that is not UTF-8, a nesting the reader would refuse or a buffer
    that ran out leaves a writer that is not done. *)
Theorem json_write_reads_back realloc_ok limit calls :
  0 <= limit < 2 ^ 30 -> Forall call_typed calls ->
  let w := write_calls realloc_ok (write_init (buf_init limit)) calls in
  write_done w = true ->
  exists t capacity, described calls = Some t /\ b_bytes (w_buf w) = compact t /\
    json_parse (fun _ => true) true (b_bytes (w_buf w)) = Some (inr (doc_of t capacity)).
Proof.
  intros Hlim Hc w Hd. destruct (writer_reads_back realloc_ok limit calls Hlim Hc Hd) as (t & cap & H1 & H2 & H3 & _).
  by exists t, cap.
Qed.

Definition sample_calls : list call :=
  [OBJECT_BEGIN] ++ member_int (Some (bytes "id")) (-7) ++ member_string (Some (bytes "name")) (Some (bytes "eth" ++ [x0a; xc3; xa9])) ++
  [MEMBER (Some (bytes "list")); ARRAY_BEGIN; UINT 1; NULL_VALUE; ARRAY_BEGIN; ARRAY_END; ARRAY_END] ++
  member_bool (Some (bytes "up")) true ++ [OBJECT_END].

Lemma json_write_reads_back_witness :
  exists t capacity, described sample_calls = Some t /\
    b_bytes (w_buf (write_calls (fun _ => true) (write_init (buf_init 0)) sample_calls)) = compact t /\
    json_parse (fun _ => true) true (b_bytes (w_buf (write_calls (fun _ => true) (write_init (buf_init 0)) sample_calls))) =
      Some (inr (doc_of t capacity)).
Proof.
  apply (json_write_reads_back (fun _ => true) 0 sample_calls).
  - lia.
  - unfold sample_calls, member_int, member_string, member_bool. simpl.
    repeat constructor; unfold INT64_MIN, INT64_MAX; lia.
  - vm_compute. reflexivity.
Defined.

Definition emits (calls : list call) (t : json) : Prop :=
  Forall call_typed calls /\ forall below top rest z,
    asteps (Zipper below top) (calls ++ rest) = Some z ->
    exists lo, aopen top = Some lo /\ asteps (Zipper below (aclose lo t)) rest = Some z.

Definition adds (calls : list call) (kvs : list (list byte * json)) : Prop :=
  Forall call_typed calls /\ forall below l rest z,
    asteps (Zipper below (TObject l None)) (calls ++ rest) = Some z ->
    asteps (Zipper below (TObject (l ++ kvs) None)) rest = Some z.

(** The names of members are plain. *)
Definition plain (name : list byte) : Prop := to_nul name = name.

Lemma adds_nil : adds [] [].
Proof. split; [constructor|]. intros below l rest z. by rewrite app_nil_r. Qed.

Lemma adds_app c1 k1 c2 k2 : adds c1 k1 -> adds c2 k2 -> adds (c1 ++ c2) (k1 ++ k2).
Proof.
  intros [T1 H1] [T2 H2]. split; [by apply Forall_app|]. intros below l rest z H.
  rewrite <- app_assoc in H. apply H1, H2 in H. by rewrite app_assoc.
Qed.

Lemma adds_member name calls t :
  plain name -> emits calls t -> adds (MEMBER (Some name) :: calls) [(name, t)].
Proof.
  intros Hp [? Ht]. split; [by constructor|]. intros below l rest z.
  cbn [app asteps astep mbind option_bind z_top z_below]. rewrite Hp.
  destruct (utf8_ok name); [|done]. cbn [mbind option_bind]. intros E.
  apply Ht in E as (lo & Hlo & E). injection Hlo as <-. exact E.
Qed.

Lemma emits_value c t :
  call_typed c -> (forall z, astep z c = avalue z t) -> emits [c] t.
Proof.
  intros Hc H. split; [by constructor|]. intros below top rest z. cbn [app asteps]. rewrite H. unfold avalue. cbn [z_top z_below].
  destruct (aopen top) as [lo|]; [|done]. cbn [mbind option_bind]. eauto.
Qed.

Lemma emits_int v : INT64_MIN <= v <= INT64_MAX -> emits [INT v] (JNumber (num v)).
Proof. intros Hv. by apply emits_value. Qed.

Lemma emits_bool b : emits [BOOL b] (JBool b).
Proof. by apply emits_value. Qed.

Lemma emits_null : emits [NULL_VALUE] JNull.
Proof. by apply emits_value. Qed.

Lemma emits_bytes s : emits [STRING_BYTES (Some s)] (JString s).
Proof.
  split; [by repeat constructor|]. intros below top rest z. cbn [app asteps astep]. unfold astring, avalue. cbn [mbind option_bind z_top z_below].
  destruct (utf8_ok s); [|done]. destruct (aopen top) as [lo|]; [|done]. cbn [mbind option_bind]. eauto.
Qed.

Lemma emits_string s : plain s -> emits [STRING (Some s)] (JString s).
Proof.
  intros Hp. split; [by repeat constructor|]. intros below top rest z. cbn [app asteps astep fmap option_fmap option_map]. rewrite Hp.
  apply (proj2 (emits_bytes s) below top rest z).
Qed.

Lemma emits_object calls kvs : adds calls kvs -> emits (OBJECT_BEGIN :: calls ++ [OBJECT_END]) (JObject kvs).
Proof.
  intros [Hc H]. split; [constructor; [done|]; apply Forall_app; by repeat constructor|].
  intros below top rest z. cbn [app asteps astep]. unfold abegin. cbn [z_top z_below].
  destruct (aopen top) as [lo|]; [|done]. cbn [mbind option_bind].
  destruct (_ <=? _)%nat; [done|]. cbn [mbind option_bind]. rewrite <- app_assoc. intros E. apply H in E.
  exists lo. split; [done|]. exact E.
Qed.

Lemma emits_array items ts :
  Forall2 emits items ts -> emits (ARRAY_BEGIN :: concat items ++ [ARRAY_END]) (JArray ts).
Proof.
  intros Hi. split.
  { constructor; [done|]. apply Forall_app. split; [|by repeat constructor].
    induction Hi as [|c t items ts [Hc _] _ IH]; simpl; [done|]. by apply Forall_app. }
  intros below top rest z. cbn [app asteps astep]. unfold abegin. cbn [z_top z_below].
  destruct (aopen top) as [lo|]; [|done]. cbn [mbind option_bind].
  destruct (_ <=? _)%nat; [done|]. cbn [mbind option_bind]. rewrite <- app_assoc. intros E. exists lo. split; [done|].
  enough (forall l, asteps (Zipper (lo :: below) (TArray l)) (concat items ++ [ARRAY_END] ++ rest) = Some z ->
    asteps (Zipper below (aclose lo (JArray (l ++ ts)))) rest = Some z) as Hl by exact (Hl [] E).
  clear E. induction Hi as [|c t items ts [_ Hc] _ IH]; intros l E.
  - by rewrite app_nil_r.
  - cbn [concat] in E. rewrite <- app_assoc in E. apply Hc in E as (lo' & Hlo & E). injection Hlo as <-.
    apply IH in E. by rewrite <- app_assoc in E.
Qed.

(** The value a whole sequence describes. *)
Lemma emits_described calls t t' : emits calls t -> described calls = Some t' -> t' = t.
Proof.
  intros [_ H]. unfold described. destruct (asteps astart calls) as [z|] eqn:E; [|done].
  rewrite <- (app_nil_r calls) in E. apply H in E as (lo & Hlo & E). injection Hlo as <-. injection E as <-.
  simpl. by intros [= <-].
Qed.
