(* ===== verification/JsonPretty.v ===== *)
(** * JsonPretty: the pretty printer keeps the value

    [ncfg_json_pretty] works on text, not on a tree: it looks at one byte at a
    time and a flag. On the text the writer emits it is the printer of the same
    tree with line breaks ([json_pretty_print]), so what it makes reads back
    as the same value. *)
From S2P Require Import Prelude Buf Lex Wire WireSpec Decimal Json JsonFacts JsonSpec JsonWrite JsonPrint JsonWriteSpec.
#[local] Open Scope Z_scope.

Section Pretty.
Context (realloc_ok : Z -> bool).

Lemma pretty_string_shorter s out s' out' :
  pretty_string realloc_ok s out = (Some s', out') -> (length s' < length s)%nat.
Proof.
  remember (length s) as n eqn:Hn. revert s out Hn. induction n as [n IH] using lt_wf_ind. intros s out Hn H.
  destruct s as [|c s]; [done|]. simpl in H, Hn. destruct (c =b BACKSLASH).
  - destruct s as [|e s]; [done|]. apply (IH (length s)) in H; [|simpl in Hn; lia|done]. simpl in Hn. lia.
  - destruct (c =b QUOTE); [simplify_eq; lia|]. apply (IH (length s)) in H; [|lia|done]. lia.
Qed.

(** The loop with fuel enough. *)
Definition tidy (s : list byte) (depth : nat) (pending : bool) (out : buf) : bool * buf :=
  pretty_loop realloc_ok (length s) s depth pending out.

Lemma pretty_fuel fuel s depth pending out :
  (length s <= fuel)%nat -> pretty_loop realloc_ok fuel s depth pending out = tidy s depth pending out.
Proof.
  unfold tidy. remember (length s) as n eqn:Hn. revert fuel s depth pending out Hn.
  induction n as [n IH] using lt_wf_ind. intros fuel s depth pending out Hn Hf.
  destruct s as [|one s]; simpl in Hn; [subst n; by destruct fuel|].
  destruct fuel as [|fuel]; [lia|]. destruct n as [|n]; [done|]. injection Hn as ->. cbn [pretty_loop].
  assert (forall s1 depth pending out, (length s1 <= length s)%nat ->
    pretty_loop realloc_ok fuel s1 depth pending out = pretty_loop realloc_ok (length s) s1 depth pending out) as Hstep.
  { intros s1 d1 p1 o1 Hl. rewrite (IH (length s1) ltac:(lia) fuel s1 d1 p1 o1 eq_refl ltac:(lia)).
    by rewrite (IH (length s1) ltac:(lia) (length s) s1 d1 p1 o1 eq_refl Hl). }
  destruct (_ || _); [destruct depth; [done|]; by apply Hstep|].
  destruct (one =b COMMA); [by apply Hstep|]. destruct (one =b COLON); [by apply Hstep|].
  destruct (_ || _); [by apply Hstep|]. destruct (negb _); [by apply Hstep|].
  destruct (pretty_string _ _ _) as [[s2|] o2] eqn:E; [|done]. apply pretty_string_shorter in E. apply Hstep. lia.
Qed.

Lemma appends_iter n b l :
  zlen l <= SIZE_MAX -> appends b (Nat.iter n (fun o => buf_add realloc_ok o l) b) (concat (repeat l n)).
Proof.
  intros Hl. revert b. induction n as [|n IH]; intros b; simpl; [apply appends_nil|].
  assert (forall k (o : buf), Nat.iter k (fun o => buf_add realloc_ok o l) (buf_add realloc_ok o l) =
    buf_add realloc_ok (Nat.iter k (fun o => buf_add realloc_ok o l) o) l) as Hswap.
  { clear. induction k as [|k IH]; intros o; simpl; [done|]. by rewrite IH. }
  rewrite <- Hswap. eapply appends_trans; [by apply appends_add|apply IH].
Qed.

Lemma appends_break b d : appends b (pretty_break realloc_ok b d) (indent d).
Proof. unfold pretty_break, indent. eapply (appends_trans _ _ _ [x0a]); [by apply appends_add|by apply appends_iter]. Qed.

Lemma appends_char b c : appends b (buf_add_char realloc_ok b c) [c].
Proof. by apply appends_add. Qed.

(** The break an opener left for what follows. *)
Definition owed (pending : bool) (d : nat) : list byte := if pending then indent d else [].

Lemma appends_owed b (pending : bool) d : appends b (if pending then pretty_break realloc_ok b d else b) (owed pending d).
Proof. destruct pending; [apply appends_break|apply appends_nil]. Qed.

(** [eats s text]: reading [s] writes [text], with the break owed before it. *)
Definition eats (s : list byte) (d : nat) (text : list byte) : Prop :=
  forall pending out rest, exists out', appends out out' (owed pending d ++ text) /\
    tidy (s ++ rest) d pending out = tidy rest d false out'.

(** A byte that is copied as it stands. *)
Definition copied (b : byte) : bool :=
  negb ((b =b CLOSE_OBJECT) || (b =b CLOSE_ARRAY) || (b =b COMMA) || (b =b COLON) || (b =b OPEN_OBJECT) ||
        (b =b OPEN_ARRAY) || (b =b QUOTE)).

Lemma tidy_step one s d pending out :
  tidy (one :: s) d pending out = pretty_loop realloc_ok (S (length s)) (one :: s) d pending out.
Proof. reflexivity. Qed.

Lemma eats_one b d : copied b = true -> eats [b] d [b].
Proof.
  intros Hb pending out rest. unfold copied in Hb.
  rewrite negb_true_iff, !orb_false_iff in Hb. destruct Hb as ((((((H1 & H2) & H3) & H4) & H5) & H6) & H7).
  simpl app. rewrite tidy_step. cbn [pretty_loop]. rewrite H1, H2, H3, H4, H5, H6, H7. simpl.
  eexists. split; [|by apply pretty_fuel]. eapply appends_trans; [apply appends_owed|apply appends_char].
Qed.

Lemma eats_copied s d : s <> [] -> Forall (fun b => copied b = true) s -> eats s d s.
Proof.
  intros Hne Hs. destruct Hs as [|b s Hb Hs]; [done|]. clear Hne. revert b Hb.
  induction Hs as [|c s Hc _ IH]; intros b Hb; [by apply eats_one|].
  intros pending out rest. destruct (eats_one b d Hb pending out ((c :: s) ++ rest)) as (o1 & H1 & E1).
  destruct (IH c Hc false o1 rest) as (o2 & H2 & E2). exists o2. split.
  - replace (owed pending d ++ b :: c :: s) with ((owed pending d ++ [b]) ++ owed false d ++ c :: s)
      by (by rewrite <- app_assoc). by eapply appends_trans.
  - change ((b :: c :: s) ++ rest) with ([b] ++ (c :: s) ++ rest). by rewrite E1, E2.
Qed.

Definition in_string (b : byte) : bool := negb (b =b BACKSLASH) && negb (b =b QUOTE).

Lemma escape_shape c : exists h l, Forall (fun b => in_string b = true) l /\
  (escape_byte c = h ++ l) /\ (h = [] \/ exists e, h = [BACKSLASH; e]).
Proof.
  destruct (shortform c) as [e|] eqn:Es.
  - exists (escape_byte c), []. rewrite app_nil_r. split_and!; [constructor|done|right].
    unfold escape_byte. rewrite Es. unfold shortform in Es. repeat case_match; simplify_eq; by eexists.
  - destruct (Z.ltb_spec (bz c) 0x20) as [Hc|Hc].
    + exists [BACKSLASH; "u"%byte], (drop 2 (control_escape c)). split_and!; [|unfold escape_byte; rewrite Es; by rewrite (proj2 (Z.ltb_lt _ _))|by right; eexists].
      clear Es. destruct c; try (vm_compute in Hc; discriminate); repeat constructor.
    + exists [], [c]. split_and!; [|by apply plain_escape; [|lia]|by left]. constructor; [|done].
      unfold in_string. destruct c; try done; vm_compute in Es; discriminate.
Qed.

Lemma pretty_plain l s out : Forall (fun b => in_string b = true) l -> exists out', appends out out' l /\
  pretty_string realloc_ok (l ++ s) out = pretty_string realloc_ok s out'.
Proof.
  intros Hl. revert out. induction Hl as [|b l Hb _ IH]; intros out; [eexists; split; [apply appends_nil|done]|].
  unfold in_string in Hb. apply andb_true_iff in Hb as [H1 H2]. apply negb_true_iff in H1, H2.
  destruct (IH (buf_add_char realloc_ok out b)) as (o & Ho & E). exists o. split.
  - change (b :: l) with ([b] ++ l). eapply appends_trans; [apply appends_char|done].
  - cbn [pretty_string app]. by rewrite H1, H2.
Qed.

Lemma pretty_escape c s out : exists out', appends out out' (escape_byte c) /\
  pretty_string realloc_ok (escape_byte c ++ s) out = pretty_string realloc_ok s out'.
Proof.
  destruct (escape_shape c) as (h & l & Hl & -> & [->|[e ->]]).
  - by apply pretty_plain.
  - destruct (pretty_plain l s (buf_add_char realloc_ok (buf_add_char realloc_ok out BACKSLASH) e) Hl) as (o & Ho & E).
    exists o. split.
    + change ([BACKSLASH; e] ++ l) with ([BACKSLASH] ++ [e] ++ l).
      eapply appends_trans; [apply appends_char|]. eapply appends_trans; [apply appends_char|done].
    + cbn [pretty_string app]. by rewrite byte_eqb_refl.
Qed.

Lemma pretty_string_quoted k s out : exists out', appends out out' (escaped k ++ [QUOTE]) /\
  pretty_string realloc_ok (escaped k ++ QUOTE :: s) out = (Some s, out').
Proof.
  revert out. induction k as [|c k IH]; intros out.
  - eexists. split; [apply appends_char|]. reflexivity.
  - unfold escaped. cbn [map concat]. rewrite <- !app_assoc. fold (escaped k).
    destruct (pretty_escape c (escaped k ++ QUOTE :: s) out) as (o1 & H1 & E1).
    destruct (IH o1) as (o2 & H2 & E2). exists o2. split; [by eapply appends_trans|]. by rewrite E1.
Qed.

Lemma eats_quoted k d : eats (quoted k) d (quoted k).
Proof.
  intros pending out rest. unfold quoted. simpl app. rewrite tidy_step. cbn [pretty_loop].
  change ((QUOTE =b CLOSE_OBJECT) || (QUOTE =b CLOSE_ARRAY)) with false. change (QUOTE =b COMMA) with false.
  change (QUOTE =b COLON) with false. change ((QUOTE =b OPEN_OBJECT) || (QUOTE =b OPEN_ARRAY)) with false.
  change (negb (QUOTE =b QUOTE)) with false. cbv iota. rewrite <- app_assoc. simpl app.
  set (o1 := if pending then _ else _).
  destruct (pretty_string_quoted k rest (buf_add_char realloc_ok o1 QUOTE)) as (o2 & H2 & ->).
  exists o2. split.
  - eapply appends_trans; [apply (appends_owed out pending d)|]. change (QUOTE :: ?l) with ([QUOTE] ++ l).
    eapply appends_trans; [apply appends_char|done].
  - apply pretty_fuel. rewrite length_app. simpl. lia.
Qed.

(** ** Containers *)

Lemma tidy_comma s d out : exists out', appends out out' (COMMA :: indent d) /\
  tidy (COMMA :: s) d false out = tidy s d false out'.
Proof.
  eexists. split; [|reflexivity]. change (COMMA :: indent d) with ([COMMA] ++ indent d).
  eapply appends_trans; [apply appends_char|apply appends_break].
Qed.

Lemma tidy_colon s d out : exists out', appends out out' (bytes ": ") /\
  tidy (COLON :: s) d false out = tidy s d false out'.
Proof. eexists. split; [|reflexivity]. by apply appends_add. Qed.

Lemma eats_join d cs ps : Forall2 (fun c p => eats c d p) cs ps -> cs <> [] ->
  eats (join [COMMA] cs) d (join (COMMA :: indent d) ps).
Proof.
  induction 1 as [|c p cs ps Hc Hrest IH]; intros Hne; [done|]. destruct Hrest as [|c' p' cs ps Hc' Hrest]; [done|].
  specialize (IH ltac:(done)). intros pending out rest.
  change (join [COMMA] (c :: c' :: cs)) with (c ++ [COMMA] ++ join [COMMA] (c' :: cs)).
  change (join (COMMA :: indent d) (p :: p' :: ps)) with (p ++ (COMMA :: indent d) ++ join (COMMA :: indent d) (p' :: ps)).
  rewrite <- !app_assoc.
  destruct (Hc pending out ([COMMA] ++ join [COMMA] (c' :: cs) ++ rest)) as (o1 & H1 & E1).
  destruct (tidy_comma (join [COMMA] (c' :: cs) ++ rest) d o1) as (o2 & H2 & E2).
  destruct (IH false o2 rest) as (o3 & H3 & E3). exists o3. split.
  - rewrite (app_assoc (owed pending d)). eapply appends_trans; [exact H1|].
    eapply appends_trans; [exact H2|]. exact H3.
  - by rewrite E1, <- E3, <- E2.
Qed.

Definition brackets (o c : byte) : Prop :=
  (o = OPEN_OBJECT /\ c = CLOSE_OBJECT) \/ (o = OPEN_ARRAY /\ c = CLOSE_ARRAY).

Lemma tidy_open o c s d pending out : brackets o c -> exists out', appends out out' (owed pending d ++ [o]) /\
  tidy (o :: s) d pending out = tidy s (S d) true out'.
Proof.
  intros Hb. eexists. split; [eapply appends_trans; [apply appends_owed|apply appends_char]|].
  destruct Hb as [[-> ->]|[-> ->]]; reflexivity.
Qed.

Lemma tidy_close o c s d (pending : bool) out : brackets o c ->
  exists out', appends out out' ((if pending then [] else indent d) ++ [c]) /\
  tidy (c :: s) (S d) pending out = tidy s d false out'.
Proof.
  intros Hb. destruct Hb as [[-> ->]|[-> ->]], pending; (eexists; split; [|reflexivity]);
    (apply appends_char || (eapply appends_trans; [apply appends_break|apply appends_char])).
Qed.

Lemma eats_enclose o c d cs ps : brackets o c -> Forall2 (fun c p => eats c (S d) p) cs ps ->
  eats (o :: join [COMMA] cs ++ [c]) d (enclose indent o c d ps).
Proof.
  intros Hb Hcs pending out rest.
  change ((o :: join [COMMA] cs ++ [c]) ++ rest) with (o :: (join [COMMA] cs ++ [c]) ++ rest). rewrite <- app_assoc.
  destruct (tidy_open o c (join [COMMA] cs ++ [c] ++ rest) d pending out Hb) as (o1 & H1 & E1).
  destruct Hcs as [|x p cs ps Hx Hcs].
  - destruct (tidy_close o c rest d true o1 Hb) as (o2 & H2 & E2). exists o2. split; [|by rewrite E1, <- E2].
    change (enclose indent o c d []) with ([o] ++ [c]). rewrite app_assoc. by eapply appends_trans.
  - destruct (eats_join (S d) (x :: cs) (p :: ps) ltac:(by constructor) ltac:(done) true o1 ([c] ++ rest)) as (o2 & H2 & E2).
    destruct (tidy_close o c rest d false o2 Hb) as (o3 & H3 & E3). exists o3. split; [|by rewrite E1, E2, <- E3].
    unfold enclose. rewrite (app_assoc (owed pending d)). eapply appends_trans; [exact H1|].
    rewrite (app_assoc (indent (S d))). eapply appends_trans; [exact H2|]. exact H3.
Qed.

Lemma eats_member d k t text : eats (compact t) d text ->
  eats (quoted k ++ [COLON] ++ compact t) d (quoted k ++ [COLON] ++ bytes " " ++ text).
Proof.
  intros Ht pending out rest. rewrite <- !app_assoc.
  destruct (eats_quoted k d pending out ([COLON] ++ compact t ++ rest)) as (o1 & H1 & E1).
  destruct (tidy_colon (compact t ++ rest) d o1) as (o2 & H2 & E2).
  destruct (Ht false o2 rest) as (o3 & H3 & E3). exists o3. split; [|by rewrite E1, <- E3, <- E2].
  rewrite (app_assoc (owed pending d)). eapply appends_trans; [exact H1|].
  change ([COLON] ++ bytes " " ++ text) with (bytes ": " ++ text). by eapply appends_trans.
Qed.

Lemma number_copied b : number_byte b = true -> copied b = true.
Proof. by destruct b. Qed.

Lemma eats_value t : forall n d, fits n t -> eats (compact t) d (print indent (bytes " ") d t).
Proof.
  induction t as [|b|s|s|l IH|l IH] using json_ind; intros n d Hf.
  - apply eats_copied; [done|]. repeat constructor.
  - destruct b; (apply eats_copied; [done|]; repeat constructor).
  - destruct Hf as (Hne & _ & _ & Hs). apply eats_copied; [done|].
    eapply Forall_impl; [exact Hs|]. apply number_copied.
  - apply eats_quoted.
  - rewrite compact_array. cbn [print]. apply eats_enclose; [by right|].
    destruct n as [|n]; [done|]. cbn [fits] in Hf. clear -IH Hf.
    induction IH as [|t l Ht _ IH]; simpl in *; [constructor|]. apply Forall_cons in Hf as [Hf1 Hf2].
    constructor; [by eapply Ht|by apply IH].
  - rewrite compact_object. cbn [print]. apply eats_enclose; [by left|].
    destruct n as [|n]; [done|]. cbn [fits] in Hf. clear -IH Hf.
    induction IH as [|[k t] l Ht _ IH]; simpl in *; [constructor|]. apply Forall_cons in Hf as [Hf1 Hf2].
    constructor; [|by apply IH]. unfold member_compact. cbn [fst snd]. apply eats_member. by eapply Ht.
Qed.
End Pretty.

Lemma all_space_indent d : all_space (indent d).
Proof. constructor; [done|]. induction d as [|d IH]; simpl; [constructor|]. by repeat constructor. Qed.

Lemma pretty_prints realloc_ok t out :
  fits NCFG_JSON_MAX_DEPTH t -> buf_wf out ->
  let '(ok, out') := json_pretty realloc_ok (compact t) out in
  ok = true /\ (b_failed out' = false -> b_bytes out' = b_bytes out ++ pretty_text t) /\
  ref_parse (pretty_text t) = inr t /\ ref_parse (compact t) = inr t.
Proof.
  intros Hf Hwf. unfold json_pretty.
  destruct (eats_value realloc_ok t _ 0 Hf false out []) as (out' & Ha & E).
  rewrite app_nil_r in E. unfold tidy in E. rewrite E. simpl. split; [done|]. split_and!.
  - intros Hnf. by destruct (Ha Hwf) as [_ [_ ->]].
  - apply ref_parse_print; [apply all_space_indent|by repeat constructor|done].
  - apply ref_parse_print; [constructor|constructor|done].
Qed.

(** [ncfg_json_pretty] is the pretty printer of the tree. On the compact
    text of a value it succeeds, and unless the buffer runs out it adds exactly
    the indented text of that value, serde's layout, which reads back as the
    same value. *)
Theorem json_pretty_print realloc_ok t out :
  fits NCFG_JSON_MAX_DEPTH t -> buf_wf out ->
  let '(ok, out') := json_pretty realloc_ok (compact t) out in
  ok = true /\ (b_failed out' = false -> b_bytes out' = b_bytes out ++ pretty_text t) /\
  ref_parse (pretty_text t) = inr t /\ ref_parse (compact t) = inr t.
Proof. apply pretty_prints. Qed.

Lemma json_pretty_print_witness :
  let t := JObject [(bytes "a", JArray [JNumber (num 1); JArray []]); (bytes "b", JString (bytes "x{,}"))] in
  fits NCFG_JSON_MAX_DEPTH t /\
  let '(ok, out') := json_pretty (fun _ => true) (compact t) (buf_init 0) in
  ok = true /\ (b_failed out' = false -> b_bytes out' = b_bytes (buf_init 0) ++ pretty_text t) /\
  ref_parse (pretty_text t) = inr t /\ ref_parse (compact t) = inr t.
Proof.
  set (t := JObject _). assert (fits NCFG_JSON_MAX_DEPTH t) as Hf.
  { cbn [fits t NCFG_JSON_MAX_DEPTH map]. repeat first [exact (num_number_ok 1)|constructor]. }
  split; [exact Hf|]. apply (json_pretty_print (fun _ => true) t (buf_init 0) Hf). apply buf_init_wf. lia.
Defined.
