(* ===== verification/Request.v ===== *)
(** * Request: the requests of the control protocol

    [c/src/proto/request.c] with the getters of [c/src/proto/common.c] and the
    request half of [c/src/proto/message.c]: the names, the table of members,
    the encoder and the strict reader that faces the socket.

    A counted string is an [option]: [None] is the [NULL] pointer. The union of
    a request is [payload], whose constructor says which member is in use. The
    encoder only ever appends calls to the writer and never looks at it, so it
    is a list of writer calls with the sentence it stopped at, if it did. The
    reader works on the document of [Json] through its accessors and answers
    with a value or the sentence. [realloc_ok] and [calloc_ok] are the
    allocator. *)
From S2P Require Import Prelude Buf Lex Parse Authorize Frame Wire Json JsonWrite.
From stdpp Require Import pretty.
#[local] Open Scope Z_scope.

Notation pstr := (option (list byte)).

(** A value, or the sentence that refuses. *)
Notation D A := (list byte + A)%type.
#[export] Instance sum_bind {E} : MBind (sum E) := fun A B f m => match m with inl e => inl e | inr a => f a end.

(** ** What is asked *)

Inductive subject_kind := SUBJECT_INTERFACE | SUBJECT_ADDRESS | SUBJECT_ROUTE | SUBJECT_OUTSIDE (raw : Z).
#[export] Instance subject_kind_eq_dec : EqDecision subject_kind.
Proof. solve_decision. Defined.

Record subject := Subject {
  sj_kind : subject_kind; sj_name : pstr; sj_interface : pstr; sj_address : pstr; sj_destination : pstr }.

Record eap := Eap {
  ea_method : pstr; ea_identity : pstr; ea_anonymous_identity : pstr; ea_phase2 : pstr;
  ea_ca_cert : pstr; ea_client_cert : pstr }.

Record apply_request := ApplyRequest {
  ap_confirm : option Z; ap_allow_disruption : list pstr; ap_strand_credentials : list pstr;
  ap_restart_wedged : list pstr; ap_no_rollback : pstr }.

Record wifi_add := WifiAdd {
  wa_ssid : pstr; wa_id : pstr; wa_passphrase : pstr; wa_proto : pstr; wa_hidden : bool;
  wa_metric : option Z; wa_eap : option eap; wa_owe : bool }.

Record put := Put { pu_name : pstr; pu_text : pstr; pu_replace : bool }.
Record secret_put := SecretPut { sp_name : pstr; sp_value : pstr; sp_replace : bool }.
Record profile_save := ProfileSave { ps_name : pstr; ps_replace : bool }.
Record wifi_connect := WifiConnect { wc_interface : pstr; wc_network : pstr }.
Record radio_set := RadioSet { rs_interface : pstr; rs_activate : bool }.

(** The union [u], by the member in use; [UNone] when the kind has none. *)
Inductive payload :=
| UNone
| UApply (a : apply_request)
| UExplain (s : subject)
| UInterface (interface : pstr)
| UWifiAdd (w : wifi_add)
| UWifiConnect (c : wifi_connect)
| UId (id : pstr)
| UPut (p : put)
| USecretPut (p : secret_put)
| UName (name : pstr)
| UProfileSave (p : profile_save)
| URadioSet (r : radio_set).

Record proto_request := ProtoRequest { pq_kind : request_kind; pq_u : payload }.

(** Every kind, in the order of the enum. *)
Definition every_kind : list request_kind :=
  [REQ_HELLO; REQ_STATUS; REQ_PLAN; REQ_APPLY; REQ_CONFIRM; REQ_REVERT; REQ_RELOAD; REQ_SHOW; REQ_EXPLAIN;
   REQ_CONFIG_LIST; REQ_MONITOR; REQ_WIFI_SCAN; REQ_WIFI_STATUS; REQ_WIFI_ADD; REQ_WIFI_CONNECT;
   REQ_WIFI_DISCONNECT; REQ_WIFI_FORGET; REQ_CONFIG_PUT; REQ_PROBE_LIST; REQ_HOOK_LIST; REQ_PROFILE_LIST;
   REQ_MODEM_LIST; REQ_PROFILE_SAVE; REQ_SECRET_LIST; REQ_PROFILE_SET; REQ_PROBE_PUT; REQ_SECRET_PUT;
   REQ_CONFIG_DELETE; REQ_SECRET_DELETE; REQ_AP_STATIONS; REQ_RADIOS; REQ_RADIO_SET].

(** [request_names] behind [ncfg_proto_request_name]. *)
Definition request_name (kind : request_kind) : pstr :=
  match kind with
  | REQ_HELLO => Some (bytes "hello")
  | REQ_STATUS => Some (bytes "status")
  | REQ_PLAN => Some (bytes "plan")
  | REQ_APPLY => Some (bytes "apply")
  | REQ_CONFIRM => Some (bytes "confirm")
  | REQ_REVERT => Some (bytes "revert")
  | REQ_RELOAD => Some (bytes "reload")
  | REQ_SHOW => Some (bytes "show")
  | REQ_EXPLAIN => Some (bytes "explain")
  | REQ_CONFIG_LIST => Some (bytes "config_list")
  | REQ_MONITOR => Some (bytes "monitor")
  | REQ_WIFI_SCAN => Some (bytes "wifi_scan")
  | REQ_WIFI_STATUS => Some (bytes "wifi_status")
  | REQ_WIFI_ADD => Some (bytes "wifi_add")
  | REQ_WIFI_CONNECT => Some (bytes "wifi_connect")
  | REQ_WIFI_DISCONNECT => Some (bytes "wifi_disconnect")
  | REQ_WIFI_FORGET => Some (bytes "wifi_forget")
  | REQ_CONFIG_PUT => Some (bytes "config_put")
  | REQ_PROBE_LIST => Some (bytes "probe_list")
  | REQ_HOOK_LIST => Some (bytes "hook_list")
  | REQ_PROFILE_LIST => Some (bytes "profile_list")
  | REQ_MODEM_LIST => Some (bytes "modem_list")
  | REQ_PROFILE_SAVE => Some (bytes "profile_save")
  | REQ_SECRET_LIST => Some (bytes "secret_list")
  | REQ_PROFILE_SET => Some (bytes "profile_set")
  | REQ_PROBE_PUT => Some (bytes "probe_put")
  | REQ_SECRET_PUT => Some (bytes "secret_put")
  | REQ_CONFIG_DELETE => Some (bytes "config_delete")
  | REQ_SECRET_DELETE => Some (bytes "secret_delete")
  | REQ_AP_STATIONS => Some (bytes "ap_stations")
  | REQ_RADIOS => Some (bytes "radios")
  | REQ_RADIO_SET => Some (bytes "radio_set")
  | REQ_OUTSIDE _ => None
  end.

(** The loop of [ncfg_proto_request_kind_from] over the names. *)
Definition kind_named (name : list byte) (kind : request_kind) : bool :=
  match request_name kind with Some candidate => bytes_eqb candidate name | None => false end.
Definition request_kind_from (name : pstr) : option request_kind :=
  name ← name; find (kind_named name) every_kind.

(** [request_members]: what a request may carry beside its tag. *)
Definition request_members (kind : request_kind) : list (list byte) :=
  match kind with
  | REQ_APPLY =>
      [bytes "confirm"; bytes "allow_disruption"; bytes "strand_credentials"; bytes "restart_wedged";
       bytes "no_rollback"]
  | REQ_EXPLAIN => [bytes "subject"]
  | REQ_WIFI_SCAN | REQ_WIFI_STATUS | REQ_WIFI_DISCONNECT | REQ_AP_STATIONS => [bytes "interface"]
  | REQ_WIFI_ADD =>
      [bytes "ssid"; bytes "id"; bytes "passphrase"; bytes "proto"; bytes "hidden"; bytes "metric"; bytes "eap";
       bytes "owe"]
  | REQ_WIFI_CONNECT => [bytes "interface"; bytes "network"]
  | REQ_WIFI_FORGET => [bytes "id"]
  | REQ_CONFIG_PUT | REQ_PROBE_PUT => [bytes "name"; bytes "text"; bytes "replace"]
  | REQ_PROFILE_SAVE => [bytes "name"; bytes "replace"]
  | REQ_PROFILE_SET | REQ_CONFIG_DELETE | REQ_SECRET_DELETE => [bytes "name"]
  | REQ_SECRET_PUT => [bytes "name"; bytes "value"; bytes "replace"]
  | REQ_RADIO_SET => [bytes "interface"; bytes "activate"]
  | _ => []
  end.

Definition subject_name (kind : subject_kind) : pstr :=
  match kind with
  | SUBJECT_INTERFACE => Some (bytes "interface")
  | SUBJECT_ADDRESS => Some (bytes "address")
  | SUBJECT_ROUTE => Some (bytes "route")
  | SUBJECT_OUTSIDE _ => None
  end.

Definition proto_str_equals (text other : pstr) : bool :=
  match text, other with
  | Some text, Some other => bytes_eqb other text
  | None, None => true
  | _, _ => false
  end.

(** ** Encoding *)

(** The calls made on the writer, and the sentence if the encoder returned 0. *)
Definition encoder := (list call * option (list byte))%type.

Definition emit (calls : list call) : encoder := (calls, None).
Definition refuse (err : list byte) : encoder := ([], Some err).
Definition and_then (e k : encoder) : encoder :=
  match e with
  | (calls, None) => (calls ++ fst k, snd k)
  | (calls, Some err) => (calls, Some err)
  end.
#[local] Infix ";;;" := and_then (at level 60, right associativity).

Definition member_str (name : string) (text : pstr) : list call :=
  [MEMBER (Some (bytes name)); STRING_BYTES text].
Definition member_str_if (name : string) (text : pstr) : list call :=
  match text with Some _ => member_str name text | None => [] end.
Definition member_strs (name : string) (l : list pstr) : list call :=
  [MEMBER (Some (bytes name)); ARRAY_BEGIN] ++ map STRING_BYTES l ++ [ARRAY_END].
Definition member_int_if (name : string) (value : option Z) : list call :=
  match value with Some v => member_int (Some (bytes name)) v | None => [] end.
Definition member_flag_if (name : string) (flag : bool) : list call :=
  if flag then member_bool (Some (bytes name)) true else [].

Definition missing (kind : list byte) (member : string) : encoder :=
  refuse (bytes "a `" ++ kind ++ bytes "` request needs `" ++ bytes member ++ bytes "` and has none").

(** [if (!text.bytes) return missing(...)]. *)
Definition present_str (text : pstr) : bool := bool_decide (is_Some text).
Definition needs (ok : bool) (kind : list byte) (member : string) : encoder :=
  if ok then emit [] else missing kind member.

Definition encode_subject (s : subject) : encoder :=
  let explain := bytes "explain" in
  match sj_kind s with
  | SUBJECT_OUTSIDE _ => refuse (bytes "an `explain` subject of no known kind")
  | _ =>
      emit ([OBJECT_BEGIN] ++ member_string (Some (bytes "subject")) (subject_name (sj_kind s))) ;;;
      match sj_kind s with
      | SUBJECT_INTERFACE =>
          needs (present_str (sj_name s)) explain "subject.name" ;;;
          emit (member_str "name" (sj_name s))
      | SUBJECT_ADDRESS =>
          needs (present_str (sj_interface s) && present_str (sj_address s)) explain
            "subject.interface and subject.address" ;;;
          emit (member_str "interface" (sj_interface s) ++ member_str "address" (sj_address s))
      | _ =>
          needs (present_str (sj_interface s) && present_str (sj_destination s)) explain
            "subject.interface and subject.destination" ;;;
          emit (member_str "interface" (sj_interface s) ++ member_str "destination" (sj_destination s))
      end ;;;
      emit [OBJECT_END]
  end.

Definition encode_eap (kind : list byte) (e : option eap) : encoder :=
  match e with
  | None => emit []
  | Some e =>
      needs (present_str (ea_method e) && present_str (ea_identity e)) kind "eap.method and eap.identity" ;;;
      emit ([MEMBER (Some (bytes "eap")); OBJECT_BEGIN] ++
            member_str "method" (ea_method e) ++ member_str "identity" (ea_identity e) ++
            member_str_if "anonymous_identity" (ea_anonymous_identity e) ++
            member_str_if "phase2" (ea_phase2 e) ++ member_str_if "ca_cert" (ea_ca_cert e) ++
            member_str_if "client_cert" (ea_client_cert e) ++ [OBJECT_END])
  end.

(** The members of the union that [encode_payload] reads, by the kind. A
    request whose union holds another member has no meaning in the source. *)
Definition encode_payload (r : proto_request) : encoder :=
  let kind := default [] (request_name (pq_kind r)) in
  match pq_kind r, pq_u r with
  | REQ_APPLY, UApply a =>
      emit (member_int_if "confirm" (ap_confirm a) ++
            member_strs "allow_disruption" (ap_allow_disruption a) ++
            member_strs "strand_credentials" (ap_strand_credentials a) ++
            member_strs "restart_wedged" (ap_restart_wedged a) ++
            member_str_if "no_rollback" (ap_no_rollback a))
  | REQ_EXPLAIN, UExplain s => emit [MEMBER (Some (bytes "subject"))] ;;; encode_subject s
  | (REQ_WIFI_SCAN | REQ_WIFI_STATUS | REQ_WIFI_DISCONNECT | REQ_AP_STATIONS), UInterface i =>
      needs (present_str i) kind "interface" ;;; emit (member_str "interface" i)
  | REQ_WIFI_ADD, UWifiAdd w =>
      needs (present_str (wa_ssid w)) kind "ssid" ;;;
      emit (member_str "ssid" (wa_ssid w) ++ member_str_if "id" (wa_id w) ++
            member_str_if "passphrase" (wa_passphrase w) ++ member_str_if "proto" (wa_proto w) ++
            member_flag_if "hidden" (wa_hidden w) ++ member_int_if "metric" (wa_metric w)) ;;;
      encode_eap kind (wa_eap w) ;;;
      emit (member_flag_if "owe" (wa_owe w))
  | REQ_WIFI_CONNECT, UWifiConnect c =>
      needs (present_str (wc_interface c)) kind "interface" ;;;
      needs (present_str (wc_network c)) kind "network" ;;;
      emit (member_str "interface" (wc_interface c) ++ member_str "network" (wc_network c))
  | REQ_WIFI_FORGET, UId i => needs (present_str i) kind "id" ;;; emit (member_str "id" i)
  | (REQ_CONFIG_PUT | REQ_PROBE_PUT), UPut p =>
      needs (present_str (pu_name p)) kind "name" ;;;
      needs (present_str (pu_text p)) kind "text" ;;;
      emit (member_str "name" (pu_name p) ++ member_str "text" (pu_text p) ++
            member_flag_if "replace" (pu_replace p))
  | REQ_SECRET_PUT, USecretPut p =>
      needs (present_str (sp_name p)) kind "name" ;;;
      needs (present_str (sp_value p)) kind "value" ;;;
      emit (member_str "name" (sp_name p) ++ member_str "value" (sp_value p) ++
            member_flag_if "replace" (sp_replace p))
  | REQ_PROFILE_SET, UName n => emit (member_str_if "name" n)
  | (REQ_CONFIG_DELETE | REQ_SECRET_DELETE), UName n =>
      needs (present_str n) kind "name" ;;; emit (member_str "name" n)
  | REQ_PROFILE_SAVE, UProfileSave p =>
      needs (present_str (ps_name p)) kind "name" ;;;
      emit (member_str "name" (ps_name p) ++ member_flag_if "replace" (ps_replace p))
  | REQ_RADIO_SET, URadioSet p =>
      needs (present_str (rs_interface p)) kind "interface" ;;;
      emit (member_str "interface" (rs_interface p) ++ member_bool (Some (bytes "activate")) (rs_activate p))
  | REQ_OUTSIDE _, _ => refuse (bytes "a request of no known kind")
  | _, _ => emit []
  end.

Section Allocator.
Context (realloc_ok : Z -> bool).

Definition fail_buf (b : buf) : buf := Buf (b_data b) (b_capacity b) (b_limit b) true.

(** [ncfg_proto_request_encode] into [out]: the sentence when it returns 0. *)
Definition request_encode (r : proto_request) (out : buf) : option (list byte) * buf :=
  match request_name (pq_kind r) with
  | None => (Some (bytes "a request of no known kind"), out)
  | Some name =>
      let w := write_calls realloc_ok (write_init out)
        (OBJECT_BEGIN :: member_string (Some (bytes "request")) (Some name)) in
      let '(calls, stopped) := encode_payload r in
      let w := write_calls realloc_ok w calls in
      match stopped with
      | Some err => (Some err, fail_buf (w_buf w))
      | None =>
          let w := write_call realloc_ok w OBJECT_END in
          if write_done w then (None, w_buf w)
          else (Some (error_set (bytes "the request could not be written: " ++
                  match write_failure w with Some why => bytes why | None => bytes "it was left unfinished" end)),
                w_buf w)
      end
  end.

(** [ncfg_proto_request_write]: the encoded request and its newline. *)
Definition request_write (r : proto_request) (out : buf) : list byte + buf :=
  match request_encode r out with
  | (Some err, _) => inl err
  | (None, out) => line_finish realloc_ok out
  end.
End Allocator.

(** ** Decoding *)

(** The blocks a decoded message owns: how many, and the room for them. *)
Record blocks := Blocks { bk_count : Z; bk_capacity : Z }.

Definition SIZEOF_POINTER : Z := 8.

Section Decode.
Context (realloc_ok : Z -> bool) (calloc_ok : Z -> Z -> bool) (d : doc).

Definition OUT_OF_MEMORY : list byte := bytes "out of memory decoding a message".

(** [ncfg_proto_block] for a [count] that is not 0. *)
Definition proto_block (own : blocks) (count size : Z) : D blocks :=
  own ← (if bk_count own =? bk_capacity own then
           let next := if bk_capacity own =? 0 then 8 else bk_capacity own * 2 in
           if realloc_ok (next * SIZEOF_POINTER) then inr (Blocks (bk_count own) next) else inl OUT_OF_MEMORY
         else inr own);
  if calloc_ok count size then inr (Blocks (bk_count own + 1) (bk_capacity own)) else inl OUT_OF_MEMORY.

Definition present (node : Z) : bool :=
  negb (node =? NCFG_JSON_NONE) && negb (bool_decide (json_get_type d node = NCFG_JSON_NULL)).

Definition is_missing (what : string) (name : string) : list byte :=
  error_set (bytes what ++ bytes " is missing `" ++ bytes name ++ bytes "`").
Definition is_not (name what : string) (kind : string) : list byte :=
  error_set (bytes "`" ++ bytes name ++ bytes "` on " ++ bytes what ++ bytes " " ++ bytes kind).

(** Whether there is a value to read, or the refusal of a required one. *)
Definition get_node (object : Z) (name : string) (required : bool) (what : string) : D (option Z) :=
  let node := json_member d object (bytes name) in
  if present node then inr (Some node)
  else if required then inl (is_missing what name) else inr None.

Definition get_str (object : Z) (name : string) (required : bool) (what : string) : D pstr :=
  node ← get_node object name required what;
  match node with
  | None => inr None
  | Some node =>
      match json_string d node with
      | None => inl (is_not name what "is not a string")
      | Some text => inr (Some text)
      end
  end.

Definition get_bool (object : Z) (name : string) (required fallback : bool) (what : string) : D bool :=
  node ← get_node object name required what;
  match node with
  | None => inr fallback
  | Some node =>
      if bool_decide (json_get_type d node = NCFG_JSON_BOOL) then inr (json_bool d node false)
      else inl (is_not name what "is not true or false")
  end.

Definition get_int (object : Z) (name : string) (required : bool) (what : string) : D (option Z) :=
  node ← get_node object name required what;
  match node with
  | None => inr None
  | Some node =>
      if bool_decide (json_get_type d node = NCFG_JSON_NUMBER) then
        let low := json_int d node INT64_MIN in
        let high := json_int d node INT64_MAX in
        if low =? high then inr (Some low) else inl (is_not name what "is not a whole number this can hold")
      else inl (is_not name what "is not a number")
  end.

Definition get_array (object : Z) (name : string) (required : bool) (what : string) : D (Z * Z) :=
  node ← get_node object name required what;
  match node with
  | None => inr (NCFG_JSON_NONE, 0)
  | Some node =>
      if bool_decide (json_get_type d node = NCFG_JSON_ARRAY) then inr (node, json_count d node)
      else inl (is_not name what "is not a list")
  end.

(** The loop of [ncfg_proto_get_strs] from the element [at] on. *)
Fixpoint get_elements (array : Z) (refusal : list byte) (at_ : nat) (remaining : nat) : D (list pstr) :=
  match remaining with
  | O => inr []
  | S remaining =>
      match json_string d (json_at d array at_) with
      | None => inl refusal
      | Some text => rest ← get_elements array refusal (S at_) remaining; inr (Some text :: rest)
      end
  end.

Definition SIZEOF_STR : Z := 16.

Definition get_strs (own : blocks) (object : Z) (name : string) (required : bool) (what : string)
  : D (list pstr * blocks) :=
  '(array, count) ← get_array object name required what;
  if count =? 0 then inr ([], own)
  else
    own ← proto_block own count SIZEOF_STR;
    items ← get_elements array (is_not name what "holds something that is not a string") 0 (Z.to_nat count);
    inr (items, own).

(** [text_base]: the document's text, where it can be told. *)
Definition text_base (object : Z) (known_key : list byte) : pstr :=
  let member := json_member d object known_key in
  n ← json_node d member;
  _ ← json_string d member;
  if (n_key_length n =? zlen known_key) && bytes_eqb (text_at d (n_key_offset n) (zlen known_key)) known_key
  then Some (d_text d) else None.

Definition stranger (base : pstr) (n : node) (position : nat) (what : string) : list byte :=
  error_set
    match base with
    | Some text =>
        bytes "unknown member `" ++ to_nul (take (Z.to_nat (n_key_length n)) (drop (Z.to_nat (n_key_offset n)) text)) ++
        bytes "` on " ++ bytes what
    | None => bytes "a member " ++ bytes what ++ bytes " does not define, at position " ++ shown (Z.of_nat position)
    end.

(** The loop of [ncfg_proto_check_members] from position [at_] on. *)
Fixpoint check_loop (object : Z) (known_key : list byte) (allowed : list (list byte)) (what : string)
    (at_ : nat) (remaining : nat) : D unit :=
  match remaining with
  | O => inr tt
  | S remaining =>
      let member := json_at d object at_ in
      match json_node d member with
      | None => check_loop object known_key allowed what (S at_) remaining
      | Some n =>
          if existsb (fun name => json_member d object name =? member) (known_key :: allowed)
          then check_loop object known_key allowed what (S at_) remaining
          else inl (stranger (text_base object known_key) n at_ what)
      end
  end.

(** [ncfg_proto_check_members] of a strict reader. *)
Definition check_members (object : Z) (known_key : list byte) (allowed : list (list byte)) (what : string)
  : D unit :=
  check_loop object known_key allowed what 0 (Z.to_nat (json_count d object)).

Definition every_subject : list subject_kind := [SUBJECT_INTERFACE; SUBJECT_ADDRESS; SUBJECT_ROUTE].

Definition decode_subject (object : Z) : D subject :=
  let what := "an `explain` subject" in
  if negb (bool_decide (json_get_type d object = NCFG_JSON_OBJECT)) then
    inl (bytes "`subject` on this request is not an object")
  else
    tag ← get_str object "subject" true what;
    match find (fun kind => proto_str_equals tag (subject_name kind)) every_subject with
    | None =>
        inl (error_set (bytes "`" ++ to_nul (default [] tag) ++ bytes "` is not something `explain` can be asked about"))
    | Some SUBJECT_INTERFACE =>
        name ← get_str object "name" true what;
        _ ← check_members object (bytes "subject") [bytes "name"] what;
        inr (Subject SUBJECT_INTERFACE name None None None)
    | Some SUBJECT_ADDRESS =>
        interface ← get_str object "interface" true what;
        address ← get_str object "address" true what;
        _ ← check_members object (bytes "subject") [bytes "interface"; bytes "address"] what;
        inr (Subject SUBJECT_ADDRESS None interface address None)
    | Some kind =>
        interface ← get_str object "interface" true what;
        destination ← get_str object "destination" true what;
        _ ← check_members object (bytes "subject") [bytes "interface"; bytes "destination"] what;
        inr (Subject kind None interface None destination)
    end.

Definition eap_members : list (list byte) :=
  [bytes "method"; bytes "identity"; bytes "anonymous_identity"; bytes "phase2"; bytes "ca_cert";
   bytes "client_cert"].

Definition decode_eap (object : Z) : D eap :=
  let what := "a `wifi_add` eap" in
  if negb (bool_decide (json_get_type d object = NCFG_JSON_OBJECT)) then
    inl (bytes "`eap` on this request is not an object")
  else
    method ← get_str object "method" true what;
    identity ← get_str object "identity" true what;
    anonymous_identity ← get_str object "anonymous_identity" false what;
    phase2 ← get_str object "phase2" false what;
    ca_cert ← get_str object "ca_cert" false what;
    client_cert ← get_str object "client_cert" false what;
    _ ← check_members object (bytes "method") eap_members what;
    inr (Eap method identity anonymous_identity phase2 ca_cert client_cert).

(** The [switch] of [ncfg_proto_decode_request]: the union, by the kind. *)
Definition decode_payload (object : Z) (kind : request_kind) : D payload :=
  let what := "this request" in
  match kind with
  | REQ_HELLO | REQ_STATUS | REQ_PLAN | REQ_CONFIRM | REQ_REVERT | REQ_RELOAD | REQ_SHOW | REQ_CONFIG_LIST
  | REQ_MONITOR | REQ_PROBE_LIST | REQ_HOOK_LIST | REQ_PROFILE_LIST | REQ_MODEM_LIST | REQ_SECRET_LIST
  | REQ_RADIOS => inr UNone
  | REQ_APPLY =>
      confirm ← get_int object "confirm" false what;
      '(allow_disruption, own) ← get_strs (Blocks 0 0) object "allow_disruption" false what;
      '(strand_credentials, own) ← get_strs own object "strand_credentials" false what;
      '(restart_wedged, own) ← get_strs own object "restart_wedged" false what;
      no_rollback ← get_str object "no_rollback" false what;
      inr (UApply (ApplyRequest confirm allow_disruption strand_credentials restart_wedged no_rollback))
  | REQ_EXPLAIN =>
      let node := json_member d object (bytes "subject") in
      if node =? NCFG_JSON_NONE then inl (is_missing what "subject")
      else s ← decode_subject node; inr (UExplain s)
  | REQ_WIFI_SCAN | REQ_WIFI_STATUS | REQ_WIFI_DISCONNECT | REQ_AP_STATIONS =>
      interface ← get_str object "interface" true what; inr (UInterface interface)
  | REQ_WIFI_ADD =>
      ssid ← get_str object "ssid" true what;
      id ← get_str object "id" false what;
      passphrase ← get_str object "passphrase" false what;
      proto ← get_str object "proto" false what;
      hidden ← get_bool object "hidden" false false what;
      owe ← get_bool object "owe" false false what;
      metric ← get_int object "metric" false what;
      let node := json_member d object (bytes "eap") in
      e ← (if present node then e ← decode_eap node; inr (Some e) else inr None);
      inr (UWifiAdd (WifiAdd ssid id passphrase proto hidden metric e owe))
  | REQ_WIFI_CONNECT =>
      interface ← get_str object "interface" true what;
      network ← get_str object "network" true what;
      inr (UWifiConnect (WifiConnect interface network))
  | REQ_WIFI_FORGET => id ← get_str object "id" true what; inr (UId id)
  | REQ_CONFIG_PUT | REQ_PROBE_PUT =>
      name ← get_str object "name" true what;
      text ← get_str object "text" true what;
      replace ← get_bool object "replace" false false what;
      inr (UPut (Put name text replace))
  | REQ_SECRET_PUT =>
      name ← get_str object "name" true what;
      value ← get_str object "value" true what;
      replace ← get_bool object "replace" false false what;
      inr (USecretPut (SecretPut name value replace))
  | REQ_PROFILE_SET => name ← get_str object "name" false what; inr (UName name)
  | REQ_CONFIG_DELETE | REQ_SECRET_DELETE => name ← get_str object "name" true what; inr (UName name)
  | REQ_PROFILE_SAVE =>
      name ← get_str object "name" true what;
      replace ← get_bool object "replace" false false what;
      inr (UProfileSave (ProfileSave name replace))
  | REQ_RADIO_SET =>
      interface ← get_str object "interface" true what;
      activate ← get_bool object "activate" true false what;
      inr (URadioSet (RadioSet interface activate))
  | REQ_OUTSIDE _ => inl (bytes "a request of no known kind")
  end.

Definition decode_request (object : Z) : D proto_request :=
  let what := "this request" in
  tag ← get_str object "request" true what;
  match request_kind_from tag with
  | None => inl (error_set (bytes "`" ++ to_nul (default [] tag) ++ bytes "` is not a request this speaks"))
  | Some kind =>
      u ← decode_payload object kind;
      _ ← check_members object (bytes "request") (request_members kind) what;
      inr (ProtoRequest kind u)
  end.

Inductive message_kind := MESSAGE_REQUEST | MESSAGE_RESPONSE | MESSAGE_EVENT.

Definition tag_of (root : Z) : option message_kind :=
  if negb (json_member d root (bytes "request") =? NCFG_JSON_NONE) then Some MESSAGE_REQUEST
  else if negb (json_member d root (bytes "response") =? NCFG_JSON_NONE) then Some MESSAGE_RESPONSE
  else if negb (json_member d root (bytes "event") =? NCFG_JSON_NONE) then Some MESSAGE_EVENT
  else None.

(** [read_line] past the parse, for the caller that accepts requests only. *)
Definition read_request_doc : D proto_request :=
  let root := json_root d in
  if negb (bool_decide (json_get_type d root = NCFG_JSON_OBJECT)) then
    inl (bytes "a message is a JSON object and this is not one")
  else
    match tag_of root with
    | None =>
        inl (bytes "a message carries a `request`, a `response` or an `event` and this carries none")
    | Some MESSAGE_RESPONSE => inl (bytes "a response arrived where one was not expected")
    | Some MESSAGE_EVENT => inl (bytes "a event arrived where one was not expected")
    | Some MESSAGE_REQUEST => decode_request root
    end.
End Decode.

(** The sentence of the reader: [what], and the byte it stopped at. *)
Definition parse_refusal (e : string * Z) : list byte :=
  error_set (bytes (fst e) ++ bytes " at byte " ++ num (snd e)).

(** [ncfg_proto_request_read]. [None] is the parser out of fuel, which it never
    is ([JsonSpec.json_parse_total]). *)
Definition request_read (realloc_ok : Z -> bool) (malloc_ok : bool) (calloc_ok : Z -> Z -> bool)
    (line : list byte) : option (D proto_request) :=
  if negb malloc_ok then Some (inl (bytes "out of memory")) else
  match json_parse realloc_ok malloc_ok line with
  | None => None
  | Some (inl e) => Some (inl (parse_refusal e))
  | Some (inr d) => Some (read_request_doc realloc_ok calloc_ok d)
  end.
