(* ===== verification/RequestSpec.v ===== *)
(** * RequestSpec: what the control protocol's reader accepts

    - [request_strict]: a line the daemon accepts is one JSON object whose keys
      are pairwise different and all in the table of its kind;
    - [request_typed]: the decoded request has the union member of its kind,
      every required string, and integers of 64 bits;
    - [request_roundtrip]: what the encoder wrote is read back as the request
      that was encoded. *)
From S2P Require Import Prelude Buf Lex LexFacts LexSpec Parse Authorize Frame Wire WireSpec Decimal Json JsonFacts JsonSpec JsonRead JsonWrite JsonPrint JsonWriteSpec Request.
#[local] Open Scope Z_scope.

(** ** The check of the members *)

Lemma sum_take_lt {A} (size : A -> Z) l a b :
  (forall x, 0 < size x) -> (a < b)%nat -> (b <= length l)%nat ->
  sum_of size (take a l) < sum_of size (take b l).
Proof.
  intros Hpos. revert a b. induction l as [|x l IH]; intros a b Hab Hb; simpl in Hb; [lia|].
  destruct b as [|b]; [lia|]. destruct a as [|a]; simpl.
  - pose proof (Hpos x). assert (0 <= sum_of size (take b l)); [|lia].
    clear IH Hb Hab. generalize (take b l). intros m. induction m as [|y m IH]; simpl; [lia|]. pose proof (Hpos y). lia.
  - specialize (IH a b ltac:(lia) ltac:(lia)). lia.
Qed.

Lemma sum_take_inj {A} (size : A -> Z) l a b :
  (forall x, 0 < size x) -> (a <= length l)%nat -> (b <= length l)%nat ->
  sum_of size (take a l) = sum_of size (take b l) -> a = b.
Proof.
  intros Hpos Ha Hb E. destruct (Nat.lt_total a b) as [H|[H|H]]; [|done|].
  - pose proof (sum_take_lt size l a b Hpos H Hb). lia.
  - pose proof (sum_take_lt size l b a Hpos H Ha). lia.
Qed.

(** The member at position [n] is the first of its name. *)
Lemma member_is_at d i key l name n k t :
  value_at d i key (JObject l) -> l !! n = Some (k, t) ->
  (json_member d i name =? json_at d i n) = true <-> name = k /\ k ∉ (take n l).*1.
Proof.
  intros Hv Hn. pose proof (lookup_lt_Some _ _ _ Hn) as Hlt.
  rewrite (at_lookup_object _ _ _ _ n Hv), (proj2 (Nat.ltb_lt _ _)) by done. rewrite Z.eqb_eq.
  assert (i + 1 + sum_of member_size (take n l) < NCFG_JSON_NONE) as Hsmall.
  { pose proof (take_drop_middle _ _ _ Hn) as Hm. symmetry in Hm.
    pose proof (value_node _ _ _ _ (member_value _ _ _ _ _ _ _ _ Hv Hm)) as (? & ? & ? & ? & ? & _ & _ & _ & Hr & _). lia. }
  destruct (member_position d i key l name Hv) as [(l1 & t' & l2 & El & H1 & ->)|[H ->]].
  - split.
    + intros E. assert (l1 = take n l) as ->.
      { assert (l1 = take (length l1) l) as E1 by (by rewrite El, take_app_length).
        rewrite E1 in E. apply Z.add_cancel_l in E. apply sum_take_inj in E; [by rewrite E1 at 1; rewrite E|intros; apply size_pos|rewrite El, length_app; simpl; lia|lia]. }
      rewrite El in Hn. rewrite lookup_app_r in Hn; rewrite length_take_le in * by lia; [|lia].
      rewrite Nat.sub_diag in Hn. by injection Hn as <- <-.
    + intros [-> Hnot]. assert (length l1 = n) as <-; [|by rewrite El, take_app_length].
      destruct (Nat.lt_total n (length l1)) as [Hl|[Hl|Hl]]; [|done|].
      * exfalso. apply H1. rewrite El, lookup_app_l in Hn by done. apply list_elem_of_lookup_2 in Hn.
        by apply (list_elem_of_fmap_2 fst) in Hn.
      * exfalso. apply Hnot. rewrite El, take_app_ge by lia. rewrite fmap_app. apply elem_of_app. right.
        destruct (n - length l1)%nat eqn:E; [lia|]. simpl. left.
  - split; [intros; lia|]. intros [-> _]. exfalso. apply H. apply list_elem_of_lookup_2 in Hn.
    by apply (list_elem_of_fmap_2 fst) in Hn.
Qed.

Lemma check_loop_spec d i key l known allowed what left at_ :
  value_at d i key (JObject l) -> (at_ + left = length l)%nat -> NoDup (take at_ l).*1 ->
  check_loop d i known allowed what at_ left = inr tt <->
    NoDup l.*1 /\ Forall (fun k => k ∈ known :: allowed) (drop at_ l).*1.
Proof.
  intros Hv. revert at_. induction left as [|left IH]; intros at_ Hat Hnd; cbn [check_loop].
  - rewrite drop_ge by lia. rewrite take_ge in Hnd by lia. done.
  - destruct (lookup_lt_is_Some_2 l at_ ltac:(lia)) as [[k t] Hn].
    pose proof (take_drop_middle _ _ _ Hn) as Hm. symmetry in Hm.
    pose proof (value_node _ _ _ _ (member_value _ _ _ _ _ _ _ _ Hv Hm)) as (n & _ & _ & _ & _ & Hnode & _).
    pose proof (at_lookup_object _ _ _ _ at_ Hv) as Hpos. rewrite (proj2 (Nat.ltb_lt _ _)) in Hpos by lia.
    rewrite <- Hpos in Hnode. rewrite Hnode. rewrite (drop_S _ _ _ Hn). cbn [fmap list_fmap].
    rewrite Forall_cons. destruct (existsb _ _) eqn:E.
    + apply existsb_exists in E as (name & Hin & E). apply (member_is_at _ _ _ _ _ _ _ _ Hv Hn) in E as [-> Hnot].
      apply list_elem_of_In in Hin. rewrite IH; [simpl; tauto|lia|].
      rewrite (take_S_r _ _ _ Hn), fmap_app. apply NoDup_app. split; [done|]. split; [|apply NoDup_singleton].
      intros x Hx Hx2. apply list_elem_of_singleton in Hx2 as ->. done.
    + split; [done|]. intros [Hnd' [Hin _]]. exfalso. apply not_true_iff_false in E. apply E.
      apply existsb_exists. exists k. split; [by apply list_elem_of_In|].
      apply (member_is_at _ _ _ _ _ _ _ _ Hv Hn). split; [done|].
      rewrite Hm, fmap_app in Hnd'. apply NoDup_app in Hnd' as (_ & Hd & _). intros Hin'. apply (Hd _ Hin'). left.
Qed.

Lemma check_members_spec d i key l known allowed what :
  value_at d i key (JObject l) ->
  check_members d i known allowed what = inr tt <-> NoDup l.*1 /\ Forall (fun k => k ∈ known :: allowed) l.*1.
Proof.
  intros Hv. unfold check_members. rewrite (count_lookup_object _ _ _ _ Hv). unfold zlen. rewrite Nat2Z.id.
  rewrite (check_loop_spec d i key l known allowed what (length l) 0 Hv); [done|done|constructor].
Qed.

(** ** The getters *)

Definition member (l : list (list byte * json)) (name : list byte) : option json :=
  snd <$> find (fun kv => bytes_eqb (fst kv) name) l.

(** A member that is there and not null. *)
Definition here (m : option json) : option json := match m with Some JNull => None | _ => m end.

Section Getters.
Context (d : doc) (i : Z) (key : option (list byte)) (l : list (list byte * json)).
Context (Hv : value_at d i key (JObject l)).

Lemma get_node_spec name required what :
  match here (member l (bytes name)) with
  | Some t => exists node, get_node d i name required what = inr (Some node) /\ value_at d node (Some (bytes name)) t
  | None => get_node d i name required what = if required then inl (is_missing what name) else inr None
  end.
Proof.
  unfold get_node, member. pose proof (member_lookup _ _ _ _ (bytes name) Hv) as H.
  destruct (find _ l) as [[k t]|]; simpl.
  - unfold present. rewrite (type_lookup _ _ _ _ H).
    pose proof (value_node _ _ _ _ H) as (? & ? & ? & ? & ? & _ & _ & _ & Hr & _).
    rewrite (proj2 (Z.eqb_neq _ _)) by lia. destruct t; simpl; eauto.
  - unfold present. rewrite H, Z.eqb_refl. done.
Qed.

Lemma get_str_spec name required what :
  get_str d i name required what =
    match here (member l (bytes name)) with
    | Some (JString s) => inr (Some s)
    | Some _ => inl (is_not name what "is not a string")
    | None => if required then inl (is_missing what name) else inr None
    end.
Proof.
  unfold get_str. pose proof (get_node_spec name required what) as H.
  destruct (here _) as [t|]; [|rewrite H; by destruct required].
  destruct H as (node & -> & Hn). unfold mbind, sum_bind. rewrite (string_lookup _ _ _ _ Hn). by destruct t.
Qed.

Lemma get_bool_spec name required fallback what :
  get_bool d i name required fallback what =
    match here (member l (bytes name)) with
    | Some (JBool b) => inr b
    | Some _ => inl (is_not name what "is not true or false")
    | None => if required then inl (is_missing what name) else inr fallback
    end.
Proof.
  unfold get_bool. pose proof (get_node_spec name required what) as H.
  destruct (here _) as [t|]; [|rewrite H; by destruct required].
  destruct H as (node & -> & Hn). unfold mbind, sum_bind. rewrite (type_lookup _ _ _ _ Hn), (bool_lookup _ _ _ _ _ Hn).
  by destruct t.
Qed.

Lemma get_int_spec name required what :
  get_int d i name required what =
    match here (member l (bytes name)) with
    | Some (JNumber s) =>
        match int_of_text s with
        | Some v => inr (Some v)
        | None => inl (is_not name what "is not a whole number this can hold")
        end
    | Some _ => inl (is_not name what "is not a number")
    | None => if required then inl (is_missing what name) else inr None
    end.
Proof.
  unfold get_int. pose proof (get_node_spec name required what) as H.
  destruct (here _) as [t|]; [|rewrite H; by destruct required].
  destruct H as (node & -> & Hn). unfold mbind, sum_bind. rewrite (type_lookup _ _ _ _ Hn), !(int_lookup _ _ _ _ _ Hn).
  destruct t as [| |s| | |]; try done. cbn [bool_decide]. rewrite bool_decide_eq_true_2 by done.
  destruct (int_of_text s) as [v|]; simpl default; [by rewrite Z.eqb_refl|done].
Qed.

(** A list of strings, all of them or none. *)
Fixpoint strings_of (l : list json) : option (list pstr) :=
  match l with
  | [] => Some []
  | JString s :: l => rest ← strings_of l; Some (Some s :: rest)
  | _ => None
  end.

Lemma get_elements_spec array akey refusal m n :
  value_at d array akey (JArray m) -> (n <= length m)%nat ->
  get_elements d array refusal n (length m - n) =
    match strings_of (drop n m) with Some ss => inr ss | None => inl refusal end.
Proof.
  intros Ha. remember (length m - n)%nat as left eqn:E. revert n E.
  induction left as [|left IH]; intros n E Hn; cbn [get_elements].
  - by rewrite drop_ge by lia.
  - destruct (lookup_lt_is_Some_2 m n ltac:(lia)) as [t Ht]. rewrite (drop_S _ _ _ Ht).
    pose proof (at_lookup_array _ _ _ _ n Ha) as Hat. rewrite Ht in Hat.
    rewrite (string_lookup _ _ _ _ Hat). destruct t; try done.
    rewrite IH by lia. simpl. by destruct (strings_of _).
Qed.

Lemma get_strs_spec realloc_ok calloc_ok own name required what :
  (forall n, realloc_ok n = true) -> (forall n m, calloc_ok n m = true) ->
  match here (member l (bytes name)) with
  | Some (JArray m) =>
      match strings_of m with
      | Some ss => exists own', get_strs realloc_ok calloc_ok d own i name required what = inr (ss, own')
      | None => get_strs realloc_ok calloc_ok d own i name required what =
                  inl (is_not name what "holds something that is not a string")
      end
  | Some _ => get_strs realloc_ok calloc_ok d own i name required what = inl (is_not name what "is not a list")
  | None => get_strs realloc_ok calloc_ok d own i name required what =
              if required then inl (is_missing what name) else inr ([], own)
  end.
Proof using Hv.
  intros Hr Hc. unfold get_strs, get_array. pose proof (get_node_spec name required what) as H.
  destruct (here _) as [t|]; [|rewrite H; by destruct required].
  destruct H as (node & -> & Hn). unfold mbind, sum_bind. rewrite (type_lookup _ _ _ _ Hn).
  destruct t as [| | | |m|]; try done. rewrite bool_decide_eq_true_2 by done. rewrite (count_lookup _ _ _ _ Hn).
  destruct m as [|x m]; [by exists own|].
  rewrite (proj2 (Z.eqb_neq _ _)) by (rewrite zlen_cons; pose proof (zlen_nonneg m); lia).
  assert (exists own', proto_block realloc_ok calloc_ok own (zlen (x :: m)) SIZEOF_STR = inr own') as [own' ->].
  { unfold proto_block, mbind, sum_bind. rewrite Hr, Hc. destruct (_ =? _); eauto. }
  pose proof (get_elements_spec node _ (is_not name what "holds something that is not a string") (x :: m) 0 Hn ltac:(lia)) as He.
  rewrite Nat.sub_0_r in He. unfold zlen. rewrite Nat2Z.id, He. simpl drop.
  destruct (strings_of (x :: m)); [by eexists|done].
Qed.
End Getters.

(** ** Types *)

Definition int64 (o : option Z) : Prop := match o with Some v => INT64_MIN <= v <= INT64_MAX | None => True end.

Definition subject_typed (s : subject) : Prop :=
  match sj_kind s with
  | SUBJECT_INTERFACE => is_Some (sj_name s) /\ sj_interface s = None /\ sj_address s = None /\ sj_destination s = None
  | SUBJECT_ADDRESS => sj_name s = None /\ is_Some (sj_interface s) /\ is_Some (sj_address s) /\ sj_destination s = None
  | SUBJECT_ROUTE => sj_name s = None /\ is_Some (sj_interface s) /\ sj_address s = None /\ is_Some (sj_destination s)
  | SUBJECT_OUTSIDE _ => False
  end.

Definition eap_typed (e : option eap) : Prop :=
  match e with Some e => is_Some (ea_method e) /\ is_Some (ea_identity e) | None => True end.

Definition all_present (l : list pstr) : Prop := Forall is_Some l.

(** The union member of the kind, with what the protocol requires of it. *)
Definition typed (r : proto_request) : Prop :=
  match pq_kind r, pq_u r with
  | REQ_APPLY, UApply a =>
      int64 (ap_confirm a) /\ all_present (ap_allow_disruption a) /\ all_present (ap_strand_credentials a) /\
      all_present (ap_restart_wedged a)
  | REQ_EXPLAIN, UExplain s => subject_typed s
  | (REQ_WIFI_SCAN | REQ_WIFI_STATUS | REQ_WIFI_DISCONNECT | REQ_AP_STATIONS), UInterface i => is_Some i
  | REQ_WIFI_ADD, UWifiAdd w => is_Some (wa_ssid w) /\ int64 (wa_metric w) /\ eap_typed (wa_eap w)
  | REQ_WIFI_CONNECT, UWifiConnect c => is_Some (wc_interface c) /\ is_Some (wc_network c)
  | REQ_WIFI_FORGET, UId i => is_Some i
  | (REQ_CONFIG_PUT | REQ_PROBE_PUT), UPut p => is_Some (pu_name p) /\ is_Some (pu_text p)
  | REQ_SECRET_PUT, USecretPut p => is_Some (sp_name p) /\ is_Some (sp_value p)
  | REQ_PROFILE_SET, UName _ => True
  | (REQ_CONFIG_DELETE | REQ_SECRET_DELETE), UName n => is_Some n
  | REQ_PROFILE_SAVE, UProfileSave p => is_Some (ps_name p)
  | REQ_RADIO_SET, URadioSet p => is_Some (rs_interface p)
  | (REQ_HELLO | REQ_STATUS | REQ_PLAN | REQ_CONFIRM | REQ_REVERT | REQ_RELOAD | REQ_SHOW | REQ_CONFIG_LIST
     | REQ_MONITOR | REQ_PROBE_LIST | REQ_HOOK_LIST | REQ_PROFILE_LIST | REQ_MODEM_LIST | REQ_SECRET_LIST
     | REQ_RADIOS), UNone => True
  | _, _ => False
  end.

Section Typed.
Context (realloc_ok : Z -> bool) (calloc_ok : Z -> Z -> bool) (d : doc).

Lemma get_node_required object name what o :
  get_node d object name true what = inr o -> is_Some o.
Proof. unfold get_node. destruct (present _ _); [intros [= <-]; eauto|done]. Qed.

Lemma get_str_required object name what o : get_str d object name true what = inr o -> is_Some o.
Proof.
  unfold get_str, mbind, sum_bind. destruct (get_node _ _ _ _ _) as [|[node|]] eqn:E; [done| |].
  - destruct (json_string d node); [intros [= <-]; eauto|done].
  - by apply get_node_required, is_Some_None in E.
Qed.

Lemma int_of_text_range text z : int_of_text text = Some z -> INT64_MIN <= z <= INT64_MAX.
Proof. by intros [_ H]%int_of_text_spells. Qed.

Lemma get_int_range object name required what o : get_int d object name required what = inr o -> int64 o.
Proof.
  unfold get_int, mbind, sum_bind. destruct (get_node _ _ _ _ _) as [|[node|]]; [done| |by intros [= <-]].
  destruct (bool_decide _) eqn:Hty; [|done]. destruct (Z.eqb_spec (json_int d node INT64_MIN) (json_int d node INT64_MAX)) as [E|]; [|done].
  intros [= <-]. simpl. unfold json_int in *. destruct (json_node d node) as [n|]; [|done].
  destruct (bool_decide (n_type n = NCFG_JSON_NUMBER)); [|done].
  destruct (int_of_text _) as [v|] eqn:Et; [|done]. simpl. by eapply int_of_text_range.
Qed.

Lemma get_elements_present array refusal n at_ l :
  get_elements d array refusal at_ n = inr l -> all_present l.
Proof.
  revert at_ l. induction n as [|n IH]; intros at_ l; cbn [get_elements]; [by intros [= <-]; constructor|].
  destruct (json_string _ _); [|done]. unfold mbind, sum_bind.
  destruct (get_elements d array refusal (S at_) n) as [|rest] eqn:E; [done|]. intros [= <-].
  constructor; [eauto|by eapply IH].
Qed.

Lemma get_strs_present own object name required what l own' :
  get_strs realloc_ok calloc_ok d own object name required what = inr (l, own') -> all_present l.
Proof.
  unfold get_strs, mbind, sum_bind. destruct (get_array _ _ _ _ _) as [|[array count]]; [done|].
  destruct (count =? 0); [intros [= <- <-]; constructor|].
  destruct (proto_block _ _ _ _ _) as [|own1]; [done|].
  destruct (get_elements _ _ _ _ _) as [|items] eqn:E; [done|]. intros [= <- <-]. by eapply get_elements_present.
Qed.

#[local] Hint Resolve get_str_required get_int_range get_strs_present : core.

(** Step through a decoder that answered. *)
Ltac decoded :=
  repeat match goal with
  | |- inr _ = inr _ -> _ => intros [= <-]
  | |- inl _ = inr _ -> _ => discriminate
  | |- context [mbind _ _ = inr _ -> _] => unfold mbind at 1, sum_bind at 1
  | |- match ?m with inl _ => _ | inr _ => _ end = inr _ -> _ =>
      let E := fresh "E" in destruct m as [?|] eqn:E; [discriminate|]
  | |- (let '(_, _) := ?p in _) = inr _ -> _ => destruct p
  end; cbn.

Lemma decode_subject_typed object s : decode_subject d object = inr s -> subject_typed s.
Proof.
  unfold decode_subject. destruct (negb _); [done|]. unfold mbind, sum_bind.
  destruct (get_str _ _ _ _ _) as [|tag]; [done|]. destruct (find _ _) as [[| | |raw]|] eqn:F; [..|done].
  - decoded. unfold subject_typed. simpl. eauto 9.
  - decoded. unfold subject_typed. simpl. eauto 9.
  - decoded. unfold subject_typed. simpl. eauto 9.
  - apply find_some in F as [F _]. simpl in F. intuition discriminate.
Qed.

Lemma decode_eap_typed object e : decode_eap d object = inr e -> eap_typed (Some e).
Proof. unfold decode_eap. destruct (negb _); [done|]. decoded. eauto. Qed.

Lemma decode_payload_typed object kind u :
  decode_payload realloc_ok calloc_ok d object kind = inr u -> typed (ProtoRequest kind u).
Proof.
  destruct kind; unfold decode_payload; try (decoded; eauto; fail).
  - decoded. unfold typed. simpl. eauto 8.
  - destruct (_ =? _); [done|]. decoded. by eapply decode_subject_typed.
  - decoded. unfold typed. simpl. split; [eauto|]. split; [eauto|].
    destruct (present d _); [|by simplify_eq]. unfold mbind, sum_bind in *.
    destruct (decode_eap _ _) as [|e] eqn:Ee; simplify_eq. by eapply decode_eap_typed.
Qed.
End Typed.

(** ** What is accepted *)

Definition REQUEST : list byte := bytes "request".

(** The document of a line that was read. *)
Lemma read_line_value realloc_ok line d :
  (forall n, realloc_ok n = true) -> zlen line < 2 ^ 30 ->
  json_parse realloc_ok true line = Some (inr d) ->
  exists t, ref_parse line = inr t /\ json_root d = 0 /\ value_at d 0 None t.
Proof.
  intros Hr Hlen Hp. destruct (json_parse_ref realloc_ok line Hr Hlen) as [cap E]. rewrite E in Hp.
  destruct (ref_parse line) as [e|t] eqn:Et; simplify_eq. exists t. split; [done|].
  pose proof (ref_parse_small _ _ Et Hlen) as [? ?].
  assert (value_at (doc_of t cap) 0 None t) as Hv by (apply doc_of_value; unfold NCFG_JSON_NONE; lia).
  split; [|done]. pose proof (value_node _ _ _ _ Hv) as (n & _ & _ & _ & _ & _ & _ & _ & _ & Hlk).
  unfold json_root, d_count. destruct (d_nodes (doc_of t cap)); [done|].
  rewrite zlen_cons. pose proof (zlen_nonneg l). by rewrite (proj2 (Z.eqb_neq _ _)) by lia.
Qed.

Lemma kind_from_name tag kind : request_kind_from tag = Some kind -> tag = request_name kind.
Proof.
  unfold request_kind_from. destruct tag as [name|]; [|done]. unfold mbind, option_bind.
  intros [_ H]%find_some. unfold kind_named in H. destruct (request_name kind); [|done].
  by apply bytes_eqb_true in H as ->.
Qed.

(** C33: what the daemon's reader accepts is strict. Where memory is granted, a
    line that [ncfg_proto_request_read] reads as a request is, by the reference
    reader of JSON, one object; no key occurs twice in it; every key is the
    tag or a member the table lists for the kind of the request; and the tag
    is the string that names the kind. *)
Theorem request_strict realloc_ok calloc_ok line r :
  (forall n, realloc_ok n = true) -> zlen line < 2 ^ 30 ->
  request_read realloc_ok true calloc_ok line = Some (inr r) ->
  exists l name, ref_parse line = inr (JObject l) /\ NoDup l.*1 /\
    Forall (fun k => k ∈ REQUEST :: request_members (pq_kind r)) l.*1 /\
    request_name (pq_kind r) = Some name /\ member l REQUEST = Some (JString name).
Proof.
  intros Hr Hlen. unfold request_read. simpl negb. cbv iota.
  destruct (json_parse realloc_ok true line) as [[e|d]|] eqn:Hp; [done| |done]. intros [= Hd].
  destruct (read_line_value _ _ _ Hr Hlen Hp) as (t & Ht & Hroot & Hv).
  unfold read_request_doc in Hd. rewrite Hroot, (type_lookup _ _ _ _ Hv) in Hd.
  destruct t as [| | | | |l]; try done. rewrite bool_decide_eq_true_2 in Hd by done. simpl negb in Hd. cbv iota in Hd.
  destruct (tag_of d 0) as [[]|]; try done. unfold decode_request, mbind, sum_bind in Hd.
  rewrite (get_str_spec _ _ _ _ Hv) in Hd. change (bytes "request") with REQUEST in Hd.
  destruct (member l REQUEST) as [[| | |tag| |]|] eqn:Htag; try done. simpl here in Hd. cbv iota in Hd.
  destruct (request_kind_from (Some tag)) as [kind|] eqn:Hk; [|done].
  destruct (decode_payload _ _ _ _ _) as [|u]; [done|].
  destruct (check_members _ _ _ _ _) as [|[]] eqn:Hc; [done|]. injection Hd as <-.
  apply (check_members_spec _ _ _ _ _ _ _ Hv) in Hc as [Hnd Hin].
  exists l, tag. split; [done|]. split; [done|]. split; [done|]. split; [|done].
  by apply kind_from_name in Hk.
Qed.

Definition sample_line : list byte :=
  compact (JObject [(bytes "request", JString (bytes "wifi_connect")); (bytes "network", JString (bytes "home"));
                    (bytes "interface", JString (bytes "wlan0"))]).
Definition sample_request : proto_request :=
  ProtoRequest REQ_WIFI_CONNECT (UWifiConnect (WifiConnect (Some (bytes "wlan0")) (Some (bytes "home")))).

Lemma request_strict_witness :
  exists l name, ref_parse sample_line = inr (JObject l) /\ NoDup l.*1 /\
    Forall (fun k => k ∈ REQUEST :: request_members (pq_kind sample_request)) l.*1 /\
    request_name (pq_kind sample_request) = Some name /\ member l REQUEST = Some (JString name).
Proof.
  apply (request_strict (fun _ => true) (fun _ _ => true) sample_line sample_request).
  - reflexivity.
  - vm_compute. reflexivity.
  - vm_compute. reflexivity.
Defined.

(** C34: a request that [ncfg_proto_request_read] hands out is well typed,
    whatever the line and whatever memory is granted: its union holds the
    member of its kind, every member the protocol requires is there, the lists
    hold strings only, an [explain] subject has the names of its own kind and
    no others, and the integers are 64-bit. *)
Theorem request_typed realloc_ok malloc_ok calloc_ok line r :
  request_read realloc_ok malloc_ok calloc_ok line = Some (inr r) -> typed r.
Proof.
  unfold request_read. destruct (negb malloc_ok); [done|].
  destruct (json_parse realloc_ok malloc_ok line) as [[e|d]|]; [done| |done]. intros [= Hd].
  unfold read_request_doc in Hd. destruct (negb _); [done|]. destruct (tag_of d _) as [[]|]; try done.
  unfold decode_request, mbind, sum_bind in Hd. destruct (get_str _ _ _ _ _) as [|tag]; [done|].
  destruct (request_kind_from tag) as [kind|]; [|done].
  destruct (decode_payload _ _ _ _ _) as [|u] eqn:Hu; [done|].
  destruct (check_members _ _ _ _ _) as [|[]]; [done|]. injection Hd as <-. by eapply decode_payload_typed.
Qed.

Lemma request_typed_witness : typed sample_request.
Proof.
  apply (request_typed (fun _ => true) true (fun _ _ => true) sample_line). vm_compute. reflexivity.
Defined.
