(* ===== verification/RequestRoundtrip.v ===== *)
(** * RequestRoundtrip: what the encoder writes is what the reader reads

    [payload_members] is the members of a request as a tree. The calls the
    encoder makes describe that tree ([encode_adds]), the writer and the reader
    of JSON hand it over unchanged ([JsonWriteSpec.writer_reads_back]), and the
    getters find each member in it. *)
From S2P Require Import Prelude Buf Lex LexFacts LexSpec Parse Authorize Frame FrameSpec Wire WireSpec Decimal Json JsonFacts JsonSpec JsonRead JsonWrite JsonPrint JsonWriteSpec Request RequestSpec.
#[local] Open Scope Z_scope.

(** ** The members as a tree *)

Definition kv_str (name : string) (s : list byte) : list (list byte * json) := [(bytes name, JString s)].
Definition kv_str_if (name : string) (o : pstr) : list (list byte * json) :=
  match o with Some s => kv_str name s | None => [] end.
Definition kv_required (name : string) (o : pstr) : list (list byte * json) := kv_str name (default [] o).
Definition kv_strs (name : string) (l : list pstr) : list (list byte * json) :=
  [(bytes name, JArray (map (fun o => JString (default [] o)) l))].
Definition kv_int_if (name : string) (o : option Z) : list (list byte * json) :=
  match o with Some v => [(bytes name, JNumber (num v))] | None => [] end.
Definition kv_bool (name : string) (b : bool) : list (list byte * json) := [(bytes name, JBool b)].
Definition kv_flag_if (name : string) (b : bool) : list (list byte * json) := if b then kv_bool name true else [].

Definition subject_members (s : subject) : list (list byte * json) :=
  kv_required "subject" (subject_name (sj_kind s)) ++
  match sj_kind s with
  | SUBJECT_INTERFACE => kv_required "name" (sj_name s)
  | SUBJECT_ADDRESS => kv_required "interface" (sj_interface s) ++ kv_required "address" (sj_address s)
  | _ => kv_required "interface" (sj_interface s) ++ kv_required "destination" (sj_destination s)
  end.

Definition eap_tree (e : eap) : list (list byte * json) :=
  kv_required "method" (ea_method e) ++ kv_required "identity" (ea_identity e) ++
  kv_str_if "anonymous_identity" (ea_anonymous_identity e) ++ kv_str_if "phase2" (ea_phase2 e) ++
  kv_str_if "ca_cert" (ea_ca_cert e) ++ kv_str_if "client_cert" (ea_client_cert e).

Definition kv_eap (e : option eap) : list (list byte * json) :=
  match e with Some e => [(bytes "eap", JObject (eap_tree e))] | None => [] end.

Definition payload_members (u : payload) : list (list byte * json) :=
  match u with
  | UNone => []
  | UApply a =>
      kv_int_if "confirm" (ap_confirm a) ++ kv_strs "allow_disruption" (ap_allow_disruption a) ++
      kv_strs "strand_credentials" (ap_strand_credentials a) ++ kv_strs "restart_wedged" (ap_restart_wedged a) ++
      kv_str_if "no_rollback" (ap_no_rollback a)
  | UExplain s => [(bytes "subject", JObject (subject_members s))]
  | UInterface i => kv_required "interface" i
  | UWifiAdd w =>
      kv_required "ssid" (wa_ssid w) ++ kv_str_if "id" (wa_id w) ++ kv_str_if "passphrase" (wa_passphrase w) ++
      kv_str_if "proto" (wa_proto w) ++ kv_flag_if "hidden" (wa_hidden w) ++ kv_int_if "metric" (wa_metric w) ++
      kv_eap (wa_eap w) ++ kv_flag_if "owe" (wa_owe w)
  | UWifiConnect c => kv_required "interface" (wc_interface c) ++ kv_required "network" (wc_network c)
  | UId i => kv_required "id" i
  | UPut p => kv_required "name" (pu_name p) ++ kv_required "text" (pu_text p) ++ kv_flag_if "replace" (pu_replace p)
  | USecretPut p =>
      kv_required "name" (sp_name p) ++ kv_required "value" (sp_value p) ++ kv_flag_if "replace" (sp_replace p)
  | UName n => kv_str_if "name" n
  | UProfileSave p => kv_required "name" (ps_name p) ++ kv_flag_if "replace" (ps_replace p)
  | URadioSet r => kv_required "interface" (rs_interface r) ++ kv_bool "activate" (rs_activate r)
  end.

(** ** The calls describe the tree *)

Lemma concat_singletons {A B} (f : A -> B) l : concat (map (fun x => [f x]) l) = map f l.
Proof. induction l as [|x l IH]; simpl; [done|by rewrite IH]. Qed.

Lemma emits_strings ss :
  all_present ss ->
  emits (ARRAY_BEGIN :: map STRING_BYTES ss ++ [ARRAY_END]) (JArray (map (fun o => JString (default [] o)) ss)).
Proof.
  intros Hs. rewrite <- (concat_singletons STRING_BYTES ss). apply emits_array.
  induction Hs as [|o ss [s ->] _ IH]; simpl; constructor; [apply emits_bytes|done].
Qed.

Lemma adds_str name s : plain (bytes name) -> adds (member_str name (Some s)) (kv_str name s).
Proof. intros Hp. apply adds_member; [done|apply emits_bytes]. Qed.

Lemma adds_required name o : is_Some o -> plain (bytes name) -> adds (member_str name o) (kv_required name o).
Proof. intros [s ->] Hp. by apply adds_str. Qed.

Lemma adds_str_if name o : plain (bytes name) -> adds (member_str_if name o) (kv_str_if name o).
Proof. destruct o; [apply adds_str|intros _; apply adds_nil]. Qed.

Lemma adds_int_if name o : int64 o -> plain (bytes name) -> adds (member_int_if name o) (kv_int_if name o).
Proof. destruct o; [|intros _ _; apply adds_nil]. intros Hi Hp. apply adds_member; [done|by apply emits_int]. Qed.

Lemma adds_bool name b : plain (bytes name) -> adds (member_bool (Some (bytes name)) b) (kv_bool name b).
Proof. intros Hp. apply adds_member; [done|apply emits_bool]. Qed.

Lemma adds_flag_if name b : plain (bytes name) -> adds (member_flag_if name b) (kv_flag_if name b).
Proof. destruct b; [apply adds_bool|intros _; apply adds_nil]. Qed.

Lemma adds_strs name ss : all_present ss -> plain (bytes name) -> adds (member_strs name ss) (kv_strs name ss).
Proof. intros Hs Hp. apply adds_member; [done|by apply emits_strings]. Qed.

Create HintDb adds.
#[local] Hint Resolve adds_nil adds_app adds_required adds_str_if adds_int_if adds_bool adds_flag_if adds_strs : adds.
#[local] Hint Extern 1 (plain _) => vm_compute; reflexivity : adds.

(** ** Every request that is well typed is encoded as its members *)

Lemma needs_ok ok kind m : ok = true -> needs ok kind m = emit [].
Proof. by intros ->. Qed.

Lemma present_ok o : is_Some o -> present_str o = true.
Proof. intros H. by apply bool_decide_eq_true_2. Qed.

Lemma eap_adds kind e :
  eap_typed e -> exists calls, encode_eap kind e = emit calls /\ adds calls (kv_eap e).
Proof.
  destruct e as [e|]; [|intros _; exists []; split; [done|apply adds_nil]]. intros [Hm Hi].
  unfold encode_eap. rewrite needs_ok by (rewrite !present_ok; done). eexists. split; [reflexivity|].
  apply adds_member; [done|]. rewrite !app_assoc. apply emits_object. rewrite <- !app_assoc.
  unfold eap_tree. auto 12 with adds.
Qed.

Lemma subject_adds s :
  subject_typed s -> exists calls, encode_subject s = emit calls /\ emits calls (JObject (subject_members s)).
Proof.
  unfold subject_typed, encode_subject, subject_members.
  assert (forall name calls kvs, plain name -> adds calls kvs ->
    emits (OBJECT_BEGIN :: (member_string (Some (bytes "subject")) (Some name) ++ calls) ++ [OBJECT_END])
      (JObject (kv_required "subject" (Some name) ++ kvs))) as Hobj.
  { intros name calls kvs Hp Ha. apply emits_object, adds_app; [|done]. apply adds_member; [done|by apply emits_string]. }
  destruct (sj_kind s); [intros (H1 & _)|intros (_ & H1 & H2 & _)|intros (_ & H1 & _ & H2)|done];
    (rewrite needs_ok by (rewrite !present_ok by done; done); eexists; split; [|apply Hobj; [|auto with adds]]; reflexivity).
Qed.

Lemma encode_adds r :
  typed r -> exists calls, encode_payload r = emit calls /\ adds calls (payload_members (pq_u r)).
Proof.
  destruct r as [kind u]. unfold typed, encode_payload. cbn [pq_kind pq_u].
  destruct kind, u; try done; cbn [payload_members]; intros H; destruct_and?;
    rewrite ?needs_ok by (rewrite !present_ok by done; done);
    try (eexists; split; [reflexivity|]; cbn [app emit and_then fst snd]; by auto 12 with adds).
  - destruct (subject_adds s H) as (calls & -> & Hp). eexists. split; [reflexivity|]. by apply adds_member.
  - match goal with He : eap_typed _ |- _ =>
      destruct (eap_adds (default [] (request_name REQ_WIFI_ADD)) _ He) as (calls & -> & Ha) end.
    eexists. split; [reflexivity|]. cbn [app emit and_then fst snd]. rewrite <- !app_assoc. by auto 16 with adds.
  - destruct H as [n ->]. eexists. split; [reflexivity|]. by apply adds_str.
  - destruct H as [n ->]. eexists. split; [reflexivity|]. by apply adds_str.
Qed.

(** A whole object. *)
Lemma described_object calls kvs t :
  adds calls kvs -> described (OBJECT_BEGIN :: calls ++ [OBJECT_END]) = Some t -> t = JObject kvs.
Proof.
  intros [_ H]. unfold described. cbn [asteps astep]. unfold abegin, astart. cbn [z_top z_below aopen mbind option_bind].
  change (_ <=? length [])%nat with false. cbn [mbind option_bind].
  destruct (asteps _ _) as [z|] eqn:E; [|done]. apply H in E. simpl in E. injection E as <-. by intros [= <-].
Qed.

Lemma request_name_plain kind name : request_name kind = Some name -> plain name.
Proof. destruct kind; intros [= <-]; reflexivity. Qed.

(** What a finished encoding described. *)
Lemma encode_described realloc_ok limit r out :
  0 <= limit < 2 ^ 30 -> typed r -> request_encode realloc_ok r (buf_init limit) = (None, out) ->
  exists name capacity, request_name (pq_kind r) = Some name /\
    json_parse (fun _ => true) true (b_bytes out) =
      Some (inr (doc_of (JObject ((REQUEST, JString name) :: payload_members (pq_u r))) capacity)) /\
    ref_parse (b_bytes out) = inr (JObject ((REQUEST, JString name) :: payload_members (pq_u r))) /\
    zlen (b_bytes out) < 2 ^ 30 /\ buf_wf out.
Proof.
  intros Hlim Ht. unfold request_encode. destruct (request_name (pq_kind r)) as [name|] eqn:Hname; [|done].
  destruct (encode_adds r Ht) as (calls & -> & Hadds). cbn [emit].
  set (members := member_string (Some (bytes "request")) (Some name) ++ calls).
  assert (forall w, write_call realloc_ok (write_calls realloc_ok (write_calls realloc_ok w
    (OBJECT_BEGIN :: member_string (Some (bytes "request")) (Some name))) calls) OBJECT_END =
    write_calls realloc_ok w (OBJECT_BEGIN :: members ++ [OBJECT_END])) as ->.
  { intros w. unfold members, write_calls. cbn [foldl]. by rewrite !foldl_app. }
  destruct (write_done _) eqn:Hd; [|done]. intros [= <-].
  assert (adds members ((REQUEST, JString name) :: payload_members (pq_u r))) as Hall.
  { refine (adds_app _ [_] _ _ _ Hadds). apply adds_member; [done|]. apply emits_string. by eapply request_name_plain. }
  assert (Forall call_typed (OBJECT_BEGIN :: members ++ [OBJECT_END])) as Hty.
  { constructor; [done|]. apply Forall_app. split; [apply Hall|by repeat constructor]. }
  destruct (writer_reads_back realloc_ok limit _ Hlim Hty Hd) as (t & cap & Hdesc & Hbytes & Hparse & Hlen & Hwf & Href).
  apply (described_object _ _ _ Hall) in Hdesc as ->. by exists name, cap.
Qed.

(** ** The reader finds every member *)

Lemma member_cons k v l name : member ((k, v) :: l) name = if bytes_eqb k name then Some v else member l name.
Proof. unfold member. simpl. by destruct (bytes_eqb k name). Qed.

Lemma member_app l1 l2 name :
  member (l1 ++ l2) name = match member l1 name with Some t => Some t | None => member l2 name end.
Proof.
  induction l1 as [|[k v] l1 IH]; [done|]. simpl app. rewrite !member_cons. by destruct (bytes_eqb k name).
Qed.

Lemma member_str_if_eq k o name :
  member (kv_str_if k o) name = if bytes_eqb (bytes k) name then JString <$> o else None.
Proof. destruct o; simpl; [apply member_cons|by destruct (bytes_eqb _ _)]. Qed.

Lemma member_int_if_eq k o name :
  member (kv_int_if k o) name = if bytes_eqb (bytes k) name then (fun v => JNumber (num v)) <$> o else None.
Proof. destruct o; simpl; [apply member_cons|by destruct (bytes_eqb _ _)]. Qed.

Lemma member_flag_if_eq k (b : bool) name :
  member (kv_flag_if k b) name = if bytes_eqb (bytes k) name then if b then Some (JBool true) else None else None.
Proof. destruct b; simpl; [apply member_cons|by destruct (bytes_eqb _ _)]. Qed.

Lemma member_eap_eq e name :
  member (kv_eap e) name = if bytes_eqb (bytes "eap") name then (fun e => JObject (eap_tree e)) <$> e else None.
Proof. destruct e; simpl; [apply member_cons|by destruct (bytes_eqb _ _)]. Qed.

Lemma num_int v : INT64_MIN <= v <= INT64_MAX -> int_of_text (num v) = Some v.
Proof.
  intros Hr. apply int_of_text_spells. split; [|done].
  destruct (num_shape v) as (ds & -> & Hds & Hne & Hv & _). exists (v <? 0), ds.
  split; [done|]. split; [done|]. split; [done|]. rewrite Hv. destruct (Z.ltb_spec v 0); lia.
Qed.

Section Reads.
Context (d : doc) (i : Z) (key : option (list byte)) (l : list (list byte * json)).
Context (Hv : value_at d i key (JObject l)).

Lemma get_str_optional name what o : member l (bytes name) = JString <$> o -> get_str d i name false what = inr o.
Proof using Hv. intros H. rewrite (get_str_spec _ _ _ _ Hv), H. by destruct o. Qed.

Lemma get_str_present name required what o :
  is_Some o -> member l (bytes name) = Some (JString (default [] o)) -> get_str d i name required what = inr o.
Proof using Hv. intros [s ->] H. by rewrite (get_str_spec _ _ _ _ Hv), H. Qed.

Lemma get_flag name what (b : bool) :
  member l (bytes name) = (if b then Some (JBool true) else None) -> get_bool d i name false false what = inr b.
Proof using Hv. intros H. rewrite (get_bool_spec _ _ _ _ Hv), H. by destruct b. Qed.

Lemma get_bool_present name what b :
  member l (bytes name) = Some (JBool b) -> get_bool d i name true false what = inr b.
Proof using Hv. intros H. by rewrite (get_bool_spec _ _ _ _ Hv), H. Qed.

Lemma get_int_optional name what o :
  int64 o -> member l (bytes name) = (fun v => JNumber (num v)) <$> o -> get_int d i name false what = inr o.
Proof using Hv. intros Ho H. rewrite (get_int_spec _ _ _ _ Hv), H. destruct o as [v|]; [|done]. simpl. by rewrite num_int. Qed.

Lemma strings_of_map ss : all_present ss -> strings_of (map (fun o => JString (default [] o)) ss) = Some ss.
Proof. induction 1 as [|o ss [s ->] _ IH]; simpl; [done|by rewrite IH]. Qed.

Lemma get_strs_list own name what ss :
  all_present ss -> member l (bytes name) = Some (JArray (map (fun o => JString (default [] o)) ss)) ->
  exists own', get_strs (fun _ => true) (fun _ _ => true) d own i name false what = inr (ss, own').
Proof using Hv.
  intros Hs H. pose proof (get_strs_spec _ _ _ _ Hv (fun _ => true) (fun _ _ => true) own name false what) as Hg.
  rewrite H in Hg. simpl in Hg. rewrite strings_of_map in Hg by done. by apply Hg.
Qed.

Lemma json_member_object name kvs :
  member l name = Some (JObject kvs) -> exists k, value_at d (json_member d i name) k (JObject kvs).
Proof using Hv.
  intros H. pose proof (member_lookup _ _ _ _ name Hv) as Hm. unfold member in H.
  destruct (find _ l) as [[k t]|]; [|done]. injection H as ->. eauto.
Qed.

Lemma json_member_absent name : member l name = None -> json_member d i name = NCFG_JSON_NONE.
Proof using Hv.
  intros H. pose proof (member_lookup _ _ _ _ name Hv) as Hm. unfold member in H. by destruct (find _ l) as [[k t]|].
Qed.
End Reads.

(** Evaluate a lookup of a literal name among literal names. *)
Ltac look :=
  unfold kv_required, kv_str, kv_strs, kv_bool, REQUEST; cbn [app];
  repeat first [rewrite member_cons | rewrite member_app | rewrite member_str_if_eq | rewrite member_int_if_eq
               | rewrite member_flag_if_eq | rewrite member_eap_eq];
  repeat match goal with
  | |- context [bytes_eqb ?a ?b] => let v := eval vm_compute in (bytes_eqb a b) in change (bytes_eqb a b) with v
  end; cbv iota; cbn [member find fmap option_fmap option_map];
  try match goal with
  | |- context [match fmap _ ?o with Some _ => _ | None => _ end] => by destruct o
  | |- context [match (if ?b then _ else _) with Some _ => _ | None => _ end] => by destruct b
  | |- _ => done
  end.

(** Keys that are some of a table of distinct keys, in its order. *)
Lemma keys_check d i key l known allowed what table :
  value_at d i key (JObject l) -> NoDup table -> table ⊆ known :: allowed -> l.*1 `sublist_of` table ->
  check_members d i known allowed what = inr tt.
Proof.
  intros Hv Hnd Hin Hsub. apply (check_members_spec _ _ _ _ _ _ _ Hv). split; [by eapply sublist_NoDup|].
  apply Forall_forall. intros k Hk. apply Hin. by eapply elem_of_sublist.
Qed.

Lemma keys_exact d i key l known allowed what :
  value_at d i key (JObject l) -> bool_decide (NoDup (known :: allowed)) = true -> l.*1 = known :: allowed ->
  check_members d i known allowed what = inr tt.
Proof.
  intros Hv Hnd E. apply bool_decide_eq_true in Hnd.
  apply (keys_check _ _ _ _ _ _ _ _ Hv Hnd); [done|by rewrite E].
Qed.

Lemma keys_nil {A} (l : list A) : [] `sublist_of` l.
Proof. apply sublist_nil_l. Qed.

Lemma keys_str_if name o : (kv_str_if name o).*1 `sublist_of` [bytes name].
Proof. destruct o; [done|apply keys_nil]. Qed.
Lemma keys_int_if name o : (kv_int_if name o).*1 `sublist_of` [bytes name].
Proof. destruct o; [done|apply keys_nil]. Qed.
Lemma keys_flag_if name b : (kv_flag_if name b).*1 `sublist_of` [bytes name].
Proof. destruct b; [done|apply keys_nil]. Qed.
Lemma keys_eap e : (kv_eap e).*1 `sublist_of` [bytes "eap"].
Proof. destruct e; [done|apply keys_nil]. Qed.
Lemma keys_app (l1 l2 : list (list byte * json)) k table :
  l1.*1 `sublist_of` [k] -> l2.*1 `sublist_of` table -> (l1 ++ l2).*1 `sublist_of` k :: table.
Proof. intros H1 H2. rewrite fmap_app. by apply (sublist_app _ [k]). Qed.

Create HintDb keys.
#[local] Hint Resolve keys_nil keys_str_if keys_int_if keys_flag_if keys_eap keys_app : keys.
#[local] Hint Extern 2 (@sublist _ _ _) => reflexivity : keys.

Lemma payload_keys r :
  typed r -> (payload_members (pq_u r)).*1 `sublist_of` request_members (pq_kind r).
Proof.
  destruct r as [kind u]. unfold typed. cbn [pq_kind pq_u].
  destruct kind, u; try done; intros _; cbn [payload_members request_members]; auto 12 with keys.
Qed.

Lemma table_distinct kind : NoDup (REQUEST :: request_members kind).
Proof. apply (bool_decide_unpack _). by destruct kind; vm_compute. Qed.

(** ** The union is read back *)

Lemma eap_reads d i key e :
  value_at d i key (JObject (eap_tree e)) -> eap_typed (Some e) -> decode_eap d i = inr e.
Proof.
  intros Hv [Hm Hi]. unfold decode_eap. rewrite (type_lookup _ _ _ _ Hv), bool_decide_eq_true_2 by done. cbn [negb].
  unfold mbind, sum_bind. unfold eap_tree in Hv.
  rewrite (get_str_present _ _ _ _ Hv "method" _ _ (ea_method e)) by (done || look).
  rewrite (get_str_present _ _ _ _ Hv "identity" _ _ (ea_identity e)) by (done || look).
  rewrite (get_str_optional _ _ _ _ Hv "anonymous_identity" _ (ea_anonymous_identity e)) by look.
  rewrite (get_str_optional _ _ _ _ Hv "phase2" _ (ea_phase2 e)) by look.
  rewrite (get_str_optional _ _ _ _ Hv "ca_cert" _ (ea_ca_cert e)) by look.
  rewrite (get_str_optional _ _ _ _ Hv "client_cert" _ (ea_client_cert e)) by look.
  rewrite (keys_check _ _ _ _ (bytes "method") eap_members _ eap_members Hv).
  - by destruct e.
  - apply (bool_decide_unpack _). by vm_compute.
  - intros x Hx. by right.
  - unfold eap_members. auto 12 with keys.
Qed.

Lemma subject_reads d i key s :
  value_at d i key (JObject (subject_members s)) -> subject_typed s -> decode_subject d i = inr s.
Proof.
  intros Hv Hs. unfold decode_subject. rewrite (type_lookup _ _ _ _ Hv), bool_decide_eq_true_2 by done. cbn [negb].
  unfold mbind, sum_bind, subject_typed, subject_members in *. destruct s as [kind name interface address destination].
  cbn [sj_kind sj_name sj_interface sj_address sj_destination] in *.
  rewrite (get_str_present _ _ _ _ Hv "subject" _ _ (subject_name kind)) by (by destruct kind || look).
  replace (find _ every_subject) with (Some kind) by (by destruct kind).
  destruct kind; [destruct Hs as (H1 & -> & -> & ->)|destruct Hs as (-> & H1 & H2 & ->)|destruct Hs as (-> & H1 & -> & H2)|done].
  - rewrite (get_str_present _ _ _ _ Hv "name" _ _ name) by (done || look).
    by rewrite (keys_exact _ _ _ _ (bytes "subject") [bytes "name"] _ Hv eq_refl eq_refl).
  - rewrite (get_str_present _ _ _ _ Hv "interface" _ _ interface) by (done || look).
    rewrite (get_str_present _ _ _ _ Hv "address" _ _ address) by (done || look).
    by rewrite (keys_exact _ _ _ _ (bytes "subject") [bytes "interface"; bytes "address"] _ Hv eq_refl eq_refl).
  - rewrite (get_str_present _ _ _ _ Hv "interface" _ _ interface) by (done || look).
    rewrite (get_str_present _ _ _ _ Hv "destination" _ _ destination) by (done || look).
    by rewrite (keys_exact _ _ _ _ (bytes "subject") [bytes "interface"; bytes "destination"] _ Hv eq_refl eq_refl).
Qed.

Lemma apply_reads d i key tag a :
  value_at d i key (JObject ((REQUEST, tag) :: payload_members (UApply a))) -> typed (ProtoRequest REQ_APPLY (UApply a)) ->
  decode_payload (fun _ => true) (fun _ _ => true) d i REQ_APPLY = inr (UApply a).
Proof.
  intros Hv (H1 & H2 & H3 & H4). cbn [payload_members] in Hv. unfold decode_payload, mbind, sum_bind.
  rewrite (get_int_optional _ _ _ _ Hv "confirm" _ (ap_confirm a)) by (done || look).
  destruct (get_strs_list _ _ _ _ Hv (Blocks 0 0) "allow_disruption" "this request" _ H2) as [own1 ->]; [look|].
  destruct (get_strs_list _ _ _ _ Hv own1 "strand_credentials" "this request" _ H3) as [own2 ->]; [look|].
  destruct (get_strs_list _ _ _ _ Hv own2 "restart_wedged" "this request" _ H4) as [own3 ->]; [look|].
  rewrite (get_str_optional _ _ _ _ Hv "no_rollback" _ (ap_no_rollback a)) by look. by destruct a.
Qed.

Lemma wifi_add_reads d i key tag w :
  value_at d i key (JObject ((REQUEST, tag) :: payload_members (UWifiAdd w))) -> typed (ProtoRequest REQ_WIFI_ADD (UWifiAdd w)) ->
  decode_payload (fun _ => true) (fun _ _ => true) d i REQ_WIFI_ADD = inr (UWifiAdd w).
Proof.
  intros Hv (H1 & H2 & H3). cbn [payload_members] in Hv. unfold decode_payload, mbind, sum_bind.
  rewrite (get_str_present _ _ _ _ Hv "ssid" _ _ (wa_ssid w)) by (done || look).
  rewrite (get_str_optional _ _ _ _ Hv "id" _ (wa_id w)) by look.
  rewrite (get_str_optional _ _ _ _ Hv "passphrase" _ (wa_passphrase w)) by look.
  rewrite (get_str_optional _ _ _ _ Hv "proto" _ (wa_proto w)) by look.
  rewrite (get_flag _ _ _ _ Hv "hidden" _ (wa_hidden w)) by look.
  rewrite (get_flag _ _ _ _ Hv "owe" _ (wa_owe w)) by look.
  rewrite (get_int_optional _ _ _ _ Hv "metric" _ (wa_metric w)) by (done || look).
  destruct (wa_eap w) as [e|] eqn:He.
  - destruct (json_member_object _ _ _ _ Hv (bytes "eap") (eap_tree e)) as [k Hk]; [look|].
    unfold present. rewrite (type_lookup _ _ _ _ Hk).
    pose proof (value_node _ _ _ _ Hk) as (? & ? & ? & ? & ? & _ & _ & _ & Hr & _).
    rewrite (proj2 (Z.eqb_neq _ _)) by lia. cbn [negb andb bool_decide]. rewrite bool_decide_eq_false_2 by done. cbn [negb].
    rewrite (eap_reads _ _ _ _ Hk H3). destruct w; simpl in *; by subst.
  - unfold present. rewrite (json_member_absent _ _ _ _ Hv (bytes "eap")) by look. rewrite Z.eqb_refl. cbn [negb andb].
    destruct w; simpl in *; by subst.
Qed.

Lemma payload_reads d i key tag r :
  value_at d i key (JObject ((REQUEST, tag) :: payload_members (pq_u r))) -> typed r ->
  decode_payload (fun _ => true) (fun _ _ => true) d i (pq_kind r) = inr (pq_u r).
Proof.
  destruct r as [kind u]. cbn [pq_kind pq_u]. intros Hv Ht. pose proof Ht as Ht'. unfold typed in Ht'. cbn [pq_kind pq_u] in Ht'.
  destruct kind, u; try done; try (by eapply apply_reads); try (by eapply wifi_add_reads);
    destruct_and?; cbn [payload_members] in Hv; unfold decode_payload; unfold mbind, sum_bind.
  - destruct (json_member_object _ _ _ _ Hv (bytes "subject") (subject_members s)) as [k Hk]; [look|].
    pose proof (value_node _ _ _ _ Hk) as (? & ? & ? & ? & ? & _ & _ & _ & Hr & _).
    rewrite (proj2 (Z.eqb_neq _ _)) by lia. by rewrite (subject_reads _ _ _ _ Hk Ht').
  - by rewrite (get_str_present _ _ _ _ Hv "interface" _ _ interface) by (done || look).
  - by rewrite (get_str_present _ _ _ _ Hv "interface" _ _ interface) by (done || look).
  - rewrite (get_str_present _ _ _ _ Hv "interface" _ _ (wc_interface c)) by (done || look).
    rewrite (get_str_present _ _ _ _ Hv "network" _ _ (wc_network c)) by (done || look). by destruct c.
  - by rewrite (get_str_present _ _ _ _ Hv "interface" _ _ interface) by (done || look).
  - by rewrite (get_str_present _ _ _ _ Hv "id" _ _ id) by (done || look).
  - rewrite (get_str_present _ _ _ _ Hv "name" _ _ (pu_name p)) by (done || look).
    rewrite (get_str_present _ _ _ _ Hv "text" _ _ (pu_text p)) by (done || look).
    rewrite (get_flag _ _ _ _ Hv "replace" _ (pu_replace p)) by look. by destruct p.
  - rewrite (get_str_present _ _ _ _ Hv "name" _ _ (ps_name p)) by (done || look).
    rewrite (get_flag _ _ _ _ Hv "replace" _ (ps_replace p)) by look. by destruct p.
  - by rewrite (get_str_optional _ _ _ _ Hv "name" _ name) by look.
  - rewrite (get_str_present _ _ _ _ Hv "name" _ _ (pu_name p)) by (done || look).
    rewrite (get_str_present _ _ _ _ Hv "text" _ _ (pu_text p)) by (done || look).
    rewrite (get_flag _ _ _ _ Hv "replace" _ (pu_replace p)) by look. by destruct p.
  - rewrite (get_str_present _ _ _ _ Hv "name" _ _ (sp_name p)) by (done || look).
    rewrite (get_str_present _ _ _ _ Hv "value" _ _ (sp_value p)) by (done || look).
    rewrite (get_flag _ _ _ _ Hv "replace" _ (sp_replace p)) by look. by destruct p.
  - destruct Ht' as [n ->]. by rewrite (get_str_present _ _ _ _ Hv "name" _ _ (Some n)) by (done || look).
  - destruct Ht' as [n ->]. by rewrite (get_str_present _ _ _ _ Hv "name" _ _ (Some n)) by (done || look).
  - by rewrite (get_str_present _ _ _ _ Hv "interface" _ _ interface) by (done || look).
  - rewrite (get_str_present _ _ _ _ Hv "interface" _ _ (rs_interface r)) by (done || look).
    rewrite (get_bool_present _ _ _ _ Hv "activate" _ (rs_activate r)) by look. by destruct r.
Qed.

Lemma kind_from_its_name kind name : request_name kind = Some name -> request_kind_from (Some name) = Some kind.
Proof. destruct kind; intros [= <-]; vm_compute; reflexivity. Qed.

(** An encoded request is read back. *)
Lemma encode_reads realloc_ok limit r out :
  0 <= limit < 2 ^ 30 -> typed r -> request_encode realloc_ok r (buf_init limit) = (None, out) ->
  request_read (fun _ => true) true (fun _ _ => true) (b_bytes out) = Some (inr r) /\ buf_wf out.
Proof.
  intros Hlim Ht He. destruct (encode_described _ _ _ _ Hlim Ht He) as (name & cap & Hn & Hp & Href & Hlen & Hwf).
  split; [|done]. unfold request_read. cbn [negb]. rewrite Hp.
  destruct (read_line_value _ _ _ (fun _ => eq_refl) Hlen Hp) as (t & Href' & Hroot & Hv).
  rewrite Href in Href'. injection Href' as <-. set (d := doc_of _ cap) in *. clearbody d.
  unfold read_request_doc. rewrite Hroot, (type_lookup _ _ _ _ Hv), bool_decide_eq_true_2 by done. cbn [negb].
  unfold tag_of. pose proof (member_lookup _ _ _ _ REQUEST Hv) as Htag. cbn [find fst] in Htag.
  change (bytes_eqb REQUEST REQUEST) with true in Htag. cbv iota in Htag. change (bytes "request") with REQUEST.
  pose proof (value_node _ _ _ _ Htag) as (? & ? & ? & ? & ? & _ & _ & _ & Hr & _).
  rewrite (proj2 (Z.eqb_neq _ _)) by lia. cbn [negb]. unfold decode_request, mbind, sum_bind.
  rewrite (get_str_present _ _ _ _ Hv "request" _ _ (Some name)) by (done || look).
  rewrite (kind_from_its_name _ _ Hn), (payload_reads _ _ _ _ r Hv Ht).
  rewrite (keys_check _ _ _ _ (bytes "request") (request_members (pq_kind r)) _ _ Hv (table_distinct (pq_kind r))).
  - by destruct r.
  - done.
  - apply sublist_skip. by apply payload_keys.
Qed.

(** ** Client to daemon *)

(** What the loop of a connection does with a line, the answering left out:
    read it, and stop at the first that is not a request. *)
Definition read_all (s : list proto_request) (line : list byte) : bool * list proto_request :=
  match request_read (fun _ => true) true (fun _ _ => true) line with
  | Some (inr r) => (true, s ++ [r])
  | _ => (false, s)
  end.

Lemma judge_requests rs texts s :
  Forall (fun m => zlen m + 1 <= NCFG_PROTO_MAX_LINE) texts ->
  Forall2 (fun r m => request_read (fun _ => true) true (fun _ _ => true) m = Some (inr r)) rs texts ->
  judge read_all s texts = (None, s ++ rs).
Proof.
  intros Hlen H. revert s Hlen. induction H as [|r m rs texts Hm _ IH]; intros s Hlen; [by rewrite app_nil_r|].
  apply Forall_cons in Hlen as [Hl Hlen]. simpl. rewrite (proj2 (Z.ltb_ge _ _)) by done.
  unfold read_all at 1. rewrite Hm. rewrite IH by done. by rewrite <- app_assoc.
Qed.

Lemma written_lines realloc_ok limit rs framed :
  0 <= limit < 2 ^ 30 -> Forall typed rs ->
  map (fun r => request_write realloc_ok r (buf_init limit)) rs = map inr framed ->
  exists texts, Forall no_newline texts /\ Forall (fun m => zlen m + 1 <= NCFG_PROTO_MAX_LINE) texts /\
    map b_bytes framed = map (fun m => m ++ [NL]) texts /\
    Forall2 (fun r m => request_read (fun _ => true) true (fun _ _ => true) m = Some (inr r)) rs texts.
Proof.
  intros Hlim Ht. revert framed. induction Ht as [|r rs Hr _ IH]; intros [|f framed] E; try done; [by exists []|].
  simpl in E. injection E as Hone E. destruct (IH _ E) as (texts & H1 & H2 & H3 & H4).
  unfold request_write in Hone. destruct (request_encode realloc_ok r (buf_init limit)) as [[err|] out] eqn:He; [done|].
  destruct (encode_reads _ _ _ _ Hlim Hr He) as [Hread Hwf].
  destruct (line_finish_ok _ _ _ Hwf Hone) as (H5 & H6 & H7).
  exists (b_bytes out :: texts). simpl. rewrite H3, H7. split_and!; [by constructor..|done|by constructor].
Qed.

(** C16: what a client asks is what the daemon is asked. Any sequence of well
    typed requests that [ncfg_proto_request_write] writes, sent back to back
    and received in any pieces of at most the size of a read, is decoded by
    the daemon's connection into the same requests in the same order, and the
    connection then ends cleanly. *)
Theorem requests_delivered client_ok realloc_ok limit rs framed chunks :
  (forall n, realloc_ok n = true) -> 0 <= limit < 2 ^ 30 -> Forall typed rs ->
  map (fun r => request_write client_ok r (buf_init limit)) rs = map inr framed ->
  Forall (fun c => zlen c <= RECV_CHUNK) chunks -> concat chunks = concat (map b_bytes framed) ->
  connection realloc_ok read_all framer_init [] (map GOT chunks ++ [GOT_NOTHING]) = (HUNG_UP, rs).
Proof.
  intros Hmem Hlim Ht Hw Hcs Hcat.
  destruct (written_lines _ _ _ _ Hlim Ht Hw) as (texts & Hnl & Hlen & Hbytes & Hread).
  pose proof (connection_reference realloc_ok Hmem read_all chunks framer_init [] framer_init_ok ltac:(done) Hcs) as H.
  change (view framer_init) with (@nil byte) in H. cbn [app] in H.
  rewrite Hcat, Hbytes in H. unfold reference in H. rewrite split_framed, (judge_requests rs) in H by done.
  destruct (connection _ _ _ _ _) as [e s']. injection H as He ->. by destruct e.
Qed.

Definition delivered_requests : list proto_request :=
  [ProtoRequest REQ_APPLY (UApply (ApplyRequest (Some 30) [Some (bytes "eth0")] [] [] None)); sample_request;
   ProtoRequest REQ_EXPLAIN (UExplain (Subject SUBJECT_ROUTE None (Some (bytes "eth0")) None (Some (bytes "default"))))].

Definition delivered_lines : list buf :=
  omap (fun r => match request_write (fun _ => true) r (buf_init 0) with inr b => Some b | inl _ => None end)
    delivered_requests.

Lemma requests_delivered_witness :
  connection (fun _ => true) read_all framer_init [] (map GOT [concat (map b_bytes delivered_lines)] ++ [GOT_NOTHING]) =
    (HUNG_UP, delivered_requests).
Proof.
  apply (requests_delivered (fun _ => true) (fun _ => true) 0 delivered_requests delivered_lines).
  - reflexivity.
  - lia.
  - unfold delivered_requests, sample_request. repeat constructor; unfold INT64_MIN, INT64_MAX; simpl; eauto; lia.
  - vm_compute. reflexivity.
  - constructor; [vm_compute; discriminate|constructor].
  - exact (app_nil_r _).
Defined.
