(* ===== verification/Serve.v ===== *)
(** * Serve: what the daemon does with one request

    [c/src/daemon/answer.c] (the three responses the authorization path writes
    for itself, and the write of a line) and, of [c/src/daemon/server.c],
    [send_error], [serve_monitor], [serve_one] and what the loop of
    [connection] does with a line.

    The seams are the source's own function pointers: [answer] answers a
    request, [stream] takes a subscribed connection; [None] is a [NULL]
    pointer. [St] is what is behind them. A socket is the outcomes of the
    coming [send]s and the bytes the peer was sent; with no outcome left the
    thread is in [send]. [cn_acts] is the history of the connection: what was
    done about each line it served. *)
From S2P Require Import Prelude Buf Lex LexFacts Parse Peer Authorize Frame FrameSpec Wire WireSpec Json JsonFacts JsonSpec JsonRead JsonWrite JsonPrint JsonWriteSpec Request RequestSpec RequestRoundtrip.
#[local] Open Scope Z_scope.

(** ** The responses *)

Definition NCFG_DAEMON_PROTOCOL_MAJOR : Z := 1.
Definition NCFG_DAEMON_PROTOCOL_MINOR : Z := 3.
Definition NCFG_SCHEMA_MAJOR : Z := 1.
Definition NCFG_SCHEMA_MINOR : Z := 1.

Section Responses.
Context (realloc_ok : Z -> bool).

(** [finish], after [calls] on a writer into [out]: the sentence, or [None]. *)
Definition finish (calls : list call) (out : buf) (what : string) : option (list byte) * buf :=
  let w := write_calls realloc_ok (write_init out) calls in
  if write_done w then (None, w_buf w)
  else (Some (error_set (bytes "the " ++ bytes what ++ bytes " response could not be written: " ++
                match write_failure w with Some why => bytes why | None => bytes "it was left unfinished" end)),
        fail_buf (w_buf w)).

Definition literal_member (name text : string) : list call := member_string (Some (bytes name)) (Some (bytes text)).

Definition error_calls (message : list byte) : list call :=
  [OBJECT_BEGIN] ++ literal_member "response" "error" ++
  member_string (Some (bytes "message")) (Some message) ++ [OBJECT_END].

Definition error_encode (message : list byte) (out : buf) : option (list byte) * buf :=
  finish (error_calls message) out "error".

Definition ok_encode (out : buf) : option (list byte) * buf :=
  finish ([OBJECT_BEGIN] ++ literal_member "response" "ok" ++ [OBJECT_END]) out "ok".

Definition version_calls (name : string) (major minor : Z) : list call :=
  [MEMBER (Some (bytes name)); OBJECT_BEGIN] ++ member_int (Some (bytes "major")) major ++
  member_int (Some (bytes "minor")) minor ++ [OBJECT_END].

Definition hello_calls (tiers : list tier) : list call :=
  [OBJECT_BEGIN] ++ literal_member "response" "hello" ++
  version_calls "protocol" NCFG_DAEMON_PROTOCOL_MAJOR NCFG_DAEMON_PROTOCOL_MINOR ++
  version_calls "schema" NCFG_SCHEMA_MAJOR NCFG_SCHEMA_MINOR ++
  [MEMBER (Some (bytes "tiers")); ARRAY_BEGIN] ++
  map (fun name => STRING (Some name)) (omap tier_name tiers) ++ [ARRAY_END; OBJECT_END].

Definition hello_encode (tiers : list tier) (out : buf) : option (list byte) * buf :=
  finish (hello_calls tiers) out "hello".

(** ** The socket *)

Inductive send_outcome := SENT (put : nat) | SEND_INTERRUPTED | SEND_FAILED (why : list byte).

Record sock := Sock { sk_outcomes : list send_outcome; sk_wire : list byte }.

(** How a write ended; [STUCK]: it has not. *)
Inductive written := WRITTEN | NOT_WRITTEN (err : list byte) | STUCK.

(** The loop of [send]s over what is left of the line. *)
Fixpoint send_loop (outcomes : list send_outcome) (left wire : list byte) : written * sock :=
  match left with
  | [] => (WRITTEN, Sock outcomes wire)
  | _ =>
      match outcomes with
      | [] => (STUCK, Sock [] wire)
      | SENT put :: rest => send_loop rest (drop put left) (wire ++ take put left)
      | SEND_INTERRUPTED :: rest => send_loop rest left wire
      | SEND_FAILED why :: rest =>
          (NOT_WRITTEN (error_set (bytes "the answer could not be sent: " ++ why)), Sock rest wire)
      end
  end.

Definition line_write (s : sock) (object : buf) : written * sock :=
  match line_finish realloc_ok object with
  | inl err => (NOT_WRITTEN err, s)
  | inr line =>
      if buf_failed line then (NOT_WRITTEN (bytes "the answer was never fully built"), s)
      else send_loop (sk_outcomes s) (b_bytes line) (sk_wire s)
  end.

(** [send_error]: what cannot be written or sent is not said. *)
Definition send_error (s : sock) (message : list byte) : sock :=
  match error_encode (to_nul message) (buf_init NCFG_PROTO_MAX_LINE) with
  | (None, line) => snd (line_write s line)
  | (Some _, _) => s
  end.
End Responses.

(** ** One request *)

(** What the gate reads of a request. *)
Definition authz_view (r : proto_request) : Authorize.request :=
  match pq_u r with
  | UPut p => Authorize.Request (pq_kind r) (default [] (pu_name p)) (default [] (pu_text p))
  | _ => Authorize.Request (pq_kind r) [] []
  end.

Inductive act :=
| ANSWERED (r : proto_request)   (* handed to [answer] *)
| STREAMED                       (* the connection handed to [stream], which took it *)
| GREETED (tiers : list tier)    (* [hello], answered here *)
| TOLD (err : list byte).        (* refused here, and told so *)

Section Server.
Context {St : Type}.
(** 1 and the line, or 0 and the sentence. *)
Context (answer : option (St -> proto_request -> peer -> arrival -> (list byte + buf) * St)).
(** 1, or 0 and the sentence. *)
Context (stream : option (St -> option (list byte) * St)).
(** [dup]: granted, or [strerror]. *)
Context (dup : St -> option (list byte)).
Context (file_read : list byte -> option (list byte)) (gate_malloc : Z -> bool).
Context (realloc_ok : Z -> bool) (malloc_ok : bool) (calloc_ok : Z -> Z -> bool).
Context (roots : option authz_roots) (control : option control) (remote : option remote_policy).
Context (arrived : arrival) (p : peer).

Record conn := Conn { cn_state : St; cn_sock : sock; cn_acts : list act }.

Definition told (c : conn) (message : list byte) : conn :=
  Conn (cn_state c) (send_error realloc_ok (cn_sock c) message) (cn_acts c ++ [TOLD message]).

Definition NO_STREAM : list byte :=
  bytes "this daemon does not stream events: nothing in it takes a subscribed connection, so `monitor` would subscribe to a stream that can never carry anything".

(** The sentence [err], or one of the source's own where it is empty. *)
Definition or_else (err : list byte) (text : string) : list byte :=
  match err with [] => bytes text | _ => err end.

Definition serve_monitor (c : conn) : bool * conn :=
  match stream with
  | None => (true, told c NO_STREAM)
  | Some stream =>
      match dup (cn_state c) with
      | Some why =>
          (true, told c (take 159 (bytes "this connection could not be handed over to be streamed to: " ++ why)))
      | None =>
          match stream (cn_state c) with
          | (Some err, s) =>
              (true, told (Conn s (cn_sock c) (cn_acts c)) (or_else err "this daemon could not take a subscription"))
          | (None, s) => (false, Conn s (cn_sock c) (cn_acts c ++ [STREAMED]))
          end
      end
  end.

(** Send [line]; the connection goes on when it was sent whole. *)
Definition send_line (c : conn) (line : buf) : bool * conn :=
  match line_write realloc_ok (cn_sock c) line with
  | (WRITTEN, s) => (true, Conn (cn_state c) s (cn_acts c))
  | (_, s) => (false, Conn (cn_state c) s (cn_acts c))
  end.

Definition serve_one (c : conn) (r : proto_request) : bool * conn :=
  match authz_permitted file_read gate_malloc roots control remote arrived (Some p) (Some (authz_view r)) with
  | Denied err => (true, told c err)
  | Allowed =>
      match pq_kind r with
      | REQ_MONITOR => serve_monitor c
      | REQ_HELLO =>
          let granted := authz_granted file_read roots control remote arrived (Some p) in
          match hello_encode realloc_ok granted (buf_init NCFG_PROTO_MAX_LINE) with
          | (Some err, _) => (true, told c err)
          | (None, line) => send_line (Conn (cn_state c) (cn_sock c) (cn_acts c ++ [GREETED granted])) line
          end
      | _ =>
          match answer with
          | None => (true, told c (bytes "the daemon had no answer for that"))
          | Some answer =>
              let '(built, s) := answer (cn_state c) r p arrived in
              let c := Conn s (cn_sock c) (cn_acts c ++ [ANSWERED r]) in
              match built with
              | inl err =>
                  (true, Conn s (send_error realloc_ok (cn_sock c) (or_else err "the daemon had no answer for that"))
                           (cn_acts c))
              | inr line => send_line c line
              end
          end
      end
  end.

(** What the loop of [connection] does with a line. *)
Definition serve_text (c : conn) (text : list byte) : bool * conn :=
  match request_read realloc_ok malloc_ok calloc_ok text with
  | Some (inr r) => serve_one c r
  | Some (inl err) => (false, told c err)
  | None => (false, c)
  end.
End Server.
Arguments Conn {St} _ _ _.
Arguments cn_state {St} _.
Arguments cn_sock {St} _.
Arguments cn_acts {St} _.

(** ** Sending a line *)

(** The bytes a socket accepts before it first fails. *)
Fixpoint accepts (outcomes : list send_outcome) : nat :=
  match outcomes with
  | SENT n :: rest => n + accepts rest
  | SEND_INTERRUPTED :: rest => accepts rest
  | _ => 0
  end.

Lemma send_loop_spec outcomes left wire :
  let '(r, s) := send_loop outcomes left wire in
  sk_wire s = wire ++ take (accepts outcomes) left /\
  (r = WRITTEN <-> (length left <= accepts outcomes)%nat).
Proof.
  revert left wire. induction outcomes as [|[n| |why] outcomes IH]; intros [|b left] wire; cbn [send_loop accepts].
  - simpl. rewrite app_nil_r. split; [done|]. split; [lia|done].
  - simpl. rewrite app_nil_r. split; [done|]. split; [done|lia].
  - simpl. rewrite take_nil, app_nil_r. split; [done|]. split; [lia|done].
  - specialize (IH (drop n (b :: left)) (wire ++ take n (b :: left))).
    destruct (send_loop _ _ _) as [r s]. destruct IH as [-> ->]. rewrite <- app_assoc, length_drop.
    split; [|lia]. f_equal. rewrite take_take_drop. done.
  - simpl. rewrite take_nil, app_nil_r. split; [done|]. split; [lia|done].
  - apply (IH (b :: left)).
  - simpl. rewrite app_nil_r. split; [done|]. split; [lia|done].
  - simpl. rewrite app_nil_r. split; [done|]. split; [done|lia].
Qed.

(** C35: a line that fits is sent whole, in the order of its bytes, as soon as
    the socket has taken that many, through any number of short writes and
    interruptions; until then, or when the socket fails first, what went out
    is a front of the line and nothing else, and the write does not say it
    was done. *)
Theorem line_write_live realloc_ok s object line :
  buf_wf object -> line_finish realloc_ok object = inr line ->
  let '(r, s') := line_write realloc_ok s object in
  sk_wire s' = sk_wire s ++ take (accepts (sk_outcomes s)) (b_bytes object ++ [NL]) /\
  (r = WRITTEN <-> (length (b_bytes object) < accepts (sk_outcomes s))%nat).
Proof.
  intros Hwf Hf. unfold line_write. rewrite Hf. destruct (line_finish_ok _ _ _ Hwf Hf) as (_ & _ & Hb).
  assert (buf_failed line = false) as ->.
  { revert Hf. unfold line_finish. repeat case_match; try done. intros [= <-]. done. }
  rewrite Hb. pose proof (send_loop_spec (sk_outcomes s) (b_bytes object ++ [NL]) (sk_wire s)) as H.
  destruct (send_loop _ _ _) as [r s']. destruct H as [-> ->]. split; [done|]. rewrite length_app. simpl. lia.
Qed.

Definition short_writes : list send_outcome := [SENT 1; SEND_INTERRUPTED; SENT 2; SENT 9].

Lemma line_write_live_witness :
  let object := buf_add (fun _ => true) (buf_init 0) (bytes "{}") in
  fst (line_write (fun _ => true) (Sock short_writes []) object) = WRITTEN /\
  sk_wire (snd (line_write (fun _ => true) (Sock short_writes []) object)) = bytes "{}" ++ [NL].
Proof.
  cbv zeta. set (object := buf_add (fun _ => true) (buf_init 0) (bytes "{}")).
  assert (buf_wf object) as Hwf by (apply buf_add_spec; [apply buf_init_wf; lia|unfold SIZE_MAX, zlen; simpl; lia]).
  destruct (line_finish (fun _ => true) object) as [err|line] eqn:E; [vm_compute in E; discriminate|].
  pose proof (line_write_live (fun _ => true) (Sock short_writes []) object line Hwf E) as H.
  destruct (line_write (fun _ => true) (Sock short_writes []) object) as [r s'] eqn:Ew. destruct H as [Hw Hr]. split.
  - apply Hr. vm_compute. lia.
  - cbn [snd]. rewrite Hw. vm_compute. reflexivity.
Defined.

(** ** What is done about each line *)

Section Served.
Context {St : Type}.
Context (answer : option (St -> proto_request -> peer -> arrival -> (list byte + buf) * St)).
Context (stream : option (St -> option (list byte) * St)) (dup : St -> option (list byte)).
Context (file_read : list byte -> option (list byte)) (gate_malloc : Z -> bool).
Context (realloc_ok : Z -> bool) (malloc_ok : bool) (calloc_ok : Z -> Z -> bool).
Context (roots : option authz_roots) (policy : option control) (remote : option remote_policy).
Context (arrived : arrival) (p : peer).

#[local] Notation read := (request_read realloc_ok malloc_ok calloc_ok).
#[local] Notation permitted r :=
  (authz_permitted file_read gate_malloc roots policy remote arrived (Some p) (Some (authz_view r))).
#[local] Notation serve :=
  (serve_text answer stream dup file_read gate_malloc realloc_ok malloc_ok calloc_ok roots policy remote arrived p).

(** The act about a line: a refusal when it is no request or not permitted;
    else, by the kind, the stream, the greeting, or the request handed to
    [answer]; or a refusal where that could not be done. *)
Definition accounts (line : list byte) (a : act) : Prop :=
  match read line with
  | Some (inr r) =>
      match permitted r with
      | Denied err => a = TOLD err
      | Allowed =>
          match pq_kind r with
          | REQ_MONITOR => a = STREAMED \/ exists err, a = TOLD err
          | REQ_HELLO =>
              a = GREETED (authz_granted file_read roots policy remote arrived (Some p)) \/ exists err, a = TOLD err
          | _ => a = ANSWERED r \/ answer = None /\ exists err, a = TOLD err
          end
      end
  | Some (inl err) => a = TOLD err
  | None => False
  end.

Lemma send_line_acts (c : @conn St) line : cn_acts (snd (send_line realloc_ok c line)) = cn_acts c.
Proof. unfold send_line. by destruct (line_write _ _ _) as [[] s]. Qed.

Lemma serve_one_acts (c : @conn St) line r :
  read line = Some (inr r) ->
  exists a, cn_acts (snd (serve_one answer stream dup file_read gate_malloc realloc_ok roots policy remote arrived p c r)) =
    cn_acts c ++ [a] /\ accounts line a.
Proof.
  intros Hr. unfold accounts. rewrite Hr. unfold serve_one. destruct (permitted r) as [|err]; [|by eexists].
  assert (forall err, exists a, cn_acts (snd (true, told realloc_ok c err)) = cn_acts c ++ [a] /\
    exists err, a = TOLD err) as Htold by (intros err; eexists; eauto).
  destruct (pq_kind r) eqn:Hk.
  { destruct (hello_encode _ _ _) as [[err|] line']; [destruct (Htold err) as (a & ? & ?); eauto|].
    rewrite send_line_acts. eexists. split; [done|by left]. }
  10: { unfold serve_monitor. destruct stream as [stream'|]; [|destruct (Htold NO_STREAM) as (a & ? & ?); eauto].
    destruct (dup (cn_state c)); [eexists; split; [done|right; by eexists]|].
    destruct (stream' (cn_state c)) as [[err|] s]; (eexists; split; [done|eauto]). }
  all: destruct answer as [answer'|]; [|destruct (Htold (bytes "the daemon had no answer for that")) as (a & ? & ?); eauto].
  all: destruct (answer' (cn_state c) r p arrived) as [[err|line'] s]; rewrite ?send_line_acts; (eexists; split; [done|by left]).
Qed.

Lemma serve_acts (c : @conn St) line :
  exists a, cn_acts (snd (serve c line)) = cn_acts c ++ [a] /\ accounts line a.
Proof.
  unfold serve_text. destruct (read line) as [[err|r]|] eqn:Hr.
  - exists (TOLD err). unfold accounts. by rewrite Hr.
  - by apply serve_one_acts.
  - exfalso. unfold request_read in Hr. destruct (negb malloc_ok); [done|].
    destruct (parse_answers realloc_ok malloc_ok line) as [[e|d] E]; by rewrite E in Hr.
Qed.

Lemma judge_accounts ls (c : @conn St) :
  exists k, exists acts, cn_acts (snd (judge serve c ls)) = cn_acts c ++ acts /\ Forall2 accounts (take k ls) acts.
Proof.
  revert c. induction ls as [|l ls IH]; intros c; cbn [judge].
  { exists 0%nat, []. by rewrite app_nil_r. }
  destruct (_ <? _); [exists 0%nat, []; rewrite app_nil_r; by split; [|constructor]|].
  destruct (serve_acts c l) as (a & Ha & Hacc). destruct (serve c l) as [[] c'] eqn:E; cbn [snd] in *.
  - destruct (IH c') as (k & acts & -> & Hk). exists (S k), (a :: acts). rewrite Ha, <- app_assoc.
    split; [done|]. by constructor.
  - exists 1%nat, [a]. split; [done|]. cbn [take]. rewrite take_0. by constructor.
Qed.

(** C15: a connection does what was asked and permitted, and no more. Whatever
    bytes arrive, in whatever pieces, and whatever the seams answer: what was
    done is one act for each of the first lines of the stream, in order; a
    line that is not a request, and a request the gate denies, was answered
    with that refusal and nothing else; a request reached [answer] or the
    stream only when the gate permitted that very request, and a greeting
    told exactly the tiers that are granted. *)
Theorem connection_acts frame_ok s sk chunks :
  (forall n, frame_ok n = true) -> Forall (fun c => zlen c <= RECV_CHUNK) chunks ->
  let '(_, c) := connection frame_ok serve framer_init (Conn s sk []) (map GOT chunks ++ [GOT_NOTHING]) in
  exists k, Forall2 accounts (take k (fst (split_lines (concat chunks)))) (cn_acts c).
Proof.
  intros Hmem Hcs.
  pose proof (connection_reference frame_ok Hmem serve chunks framer_init (Conn s sk []) framer_init_ok
    ltac:(done) Hcs) as H. change (view framer_init) with (@nil byte) in H. cbn [app] in H.
  destruct (connection _ _ _ _ _) as [e c]. unfold reference in H.
  destruct (split_lines (concat chunks)) as [ls rest]. cbn [fst].
  destruct (judge_accounts ls (Conn s sk [])) as (k & acts & Ha & Hk). exists k.
  destruct (judge serve (Conn s sk []) ls) as [[e'|] c']; injection H as _ ->; cbn [snd cn_acts app] in Ha; by rewrite Ha.
Qed.
End Served.

(** A daemon whose policy opens everything to root and observing to anybody,
    asked by somebody: [status] is answered, [reload] refused, [hello] greeted. *)
Definition open_policy : control :=
  Control (Principal PRINCIPAL_ANY None) (Principal PRINCIPAL_ROOT None) (Principal PRINCIPAL_ROOT None).
Definition somebody : peer := Peer 7 1000 1000 [] 0 true.
Definition say_ok (log : list proto_request) (r : proto_request) (_ : peer) (_ : arrival)
  : (list byte + buf) * list proto_request :=
  (inr (snd (ok_encode (fun _ => true) (buf_init 0))), log ++ [r]).
Definition asked : list byte :=
  concat (map (fun name => compact (JObject [(bytes "request", JString (bytes name))]) ++ [NL]) ["status"; "reload"; "hello"]).

Lemma connection_acts_witness :
  let '(_, c) := connection (fun _ => true)
    (serve_text (Some say_ok) None (fun _ => None) (fun _ => None) (fun _ => true) (fun _ => true) true (fun _ _ => true)
       None (Some open_policy) None ARRIVED_LOCAL somebody)
    framer_init (Conn [] (Sock (repeat (SENT 4096) 9) []) []) (map GOT [asked] ++ [GOT_NOTHING]) in
  (exists k, Forall2 (accounts (Some say_ok) (fun _ => None) (fun _ => true) (fun _ => true) true (fun _ _ => true)
     None (Some open_policy) None ARRIVED_LOCAL somebody) (take k (fst (split_lines (concat [asked])))) (cn_acts c)) /\
  match cn_acts c with
  | [ANSWERED r; TOLD _; GREETED [TIER_OBSERVE]] => pq_kind r = REQ_STATUS
  | _ => False
  end.
Proof.
  pose proof (connection_acts (Some say_ok) None (fun _ => None) (fun _ => None) (fun _ => true) (fun _ => true) true
    (fun _ _ => true) None (Some open_policy) None ARRIVED_LOCAL somebody (fun _ => true) []
    (Sock (repeat (SENT 4096) 9) []) [asked] ltac:(reflexivity)) as H.
  destruct (connection _ _ _ _ _) as [e c] eqn:E. split.
  - apply H. constructor; [vm_compute; discriminate|constructor].
  - vm_compute in E. injection E as _ <-. vm_compute. reflexivity.
Defined.
