(* ===== verification/Schedule.v ===== *)
(** * Schedule: when a firewall rule applies ([c/src/model/schedule.c])

    A schedule is written in local time, [hours] and [days], and expanded into
    pieces the kernel can match in UTC. Times are seconds; [long] is unbounded
    here, the values in it stay within a few days. A C string is the list of
    its bytes before the NUL. [qsort] is a sort by the source's total order,
    whose result does not depend on the algorithm. *)
From S2P Require Import Prelude Lex Wire.
From stdpp Require Import sorting.
#[local] Open Scope Z_scope.

Definition DAY_SECONDS : Z := 86400.
Definition PIECES_MAX : nat := 28.

Record piece := Piece { pc_day : Z; pc_from : Z; pc_to : Z }.

#[export] Instance piece_eq_dec : EqDecision piece.
Proof. solve_decision. Defined.

Definition day_words : list (list byte) :=
  [bytes "sun"; bytes "mon"; bytes "tue"; bytes "wed"; bytes "thu"; bytes "fri"; bytes "sat"].
Definition day_names : list (list byte) :=
  [bytes "sunday"; bytes "monday"; bytes "tuesday"; bytes "wednesday"; bytes "thursday"; bytes "friday";
   bytes "saturday"].

(** ** The hours *)

Definition digit (b : byte) : Z := bz b - bz "0".

(** At most two digits: their value, how many, and the rest. *)
Fixpoint clock_digits (room : nat) (value : Z) (n : nat) (p : list byte) : Z * nat * list byte :=
  match room, p with
  | S room, b :: p' => if is_digit b then clock_digits room (value * 10 + digit b) (S n) p' else (value, n, p)
  | _, _ => (value, n, p)
  end.

Definition clock_read (p : list byte) : option (Z * list byte) :=
  let '(hours, digits, p) := clock_digits 2 0 0 p in
  match p with
  | colon :: tens :: units :: rest =>
      if (digits =? 0)%nat || negb (colon =b ":"%byte) ||
         negb ((bz "0" <=? bz tens) && (bz tens <=? bz "5")) || negb (is_digit units) then None
      else
        let minutes := digit tens * 10 + digit units in
        if (24 <? hours) || (hours =? 24) && negb (minutes =? 0) then None
        else Some (hours * 3600 + minutes * 60, rest)
  | _ => None
  end.

Definition pad2 (n : Z) : list byte := if (0 <=? n) && (n <? 10) then "0"%byte :: num n else num n.

(** The window and its normal spelling, or why it is not one. *)
Definition hours_parse (text : list byte) : string + (Z * Z * list byte) :=
  let no := inl "is not a window of the day: write it as `22:00-07:00`, from and until, in the machine's local time" in
  match clock_read text with
  | Some (start, dash :: at_) =>
      if negb (dash =b "-"%byte) then no
      else
        match clock_read at_ with
        | Some (end_, []) =>
            if start =? DAY_SECONDS then inl "starts at 24:00, which is the next day's 00:00: write that"
            else if start =? Z.rem end_ DAY_SECONDS then
              inl "starts where it ends, which is a window of nothing or of the whole day: for the whole day, leave `hours` out"
            else
              let end_ := if end_ =? 0 then DAY_SECONDS else end_ in
              inr (start, end_,
                   pad2 (Z.quot start 3600) ++ bytes ":" ++ pad2 (Z.quot (Z.rem start 3600) 60) ++ bytes "-" ++
                   pad2 (Z.quot end_ 3600) ++ bytes ":" ++ pad2 (Z.quot (Z.rem end_ 3600) 60))
        | _ => no
        end
  | _ => no
  end.

(** [ncfg_schedule_day]: the first day one of whose words it is, or -1. *)
Fixpoint day_search (word : list byte) (day : Z) (words names : list (list byte)) : Z :=
  match words, names with
  | w :: words, n :: names =>
      if bytes_eqb word w || bytes_eqb word n then day else day_search word (day + 1) words names
  | _, _ => -1
  end.
Definition schedule_day (word : list byte) : Z := day_search word 0 day_words day_names.

Definition schedule_day_word (day : Z) : list byte :=
  if (0 <=? day) && (day <? 7) then default [] (day_words !! Z.to_nat day) else bytes "any".

(** ** The expansion *)

Definition whole_days (seconds : Z) : Z :=
  if 0 <=? seconds then Z.quot seconds DAY_SECONDS
  else - Z.quot (- seconds + DAY_SECONDS - 1) DAY_SECONDS.

Definition add_piece (cap : nat) (out : list piece) (p : piece) : option (list piece) :=
  if (cap <=? length out)%nat then None else Some (out ++ [p]).

Definition to_utc (day start end_ offset : Z) (cap : nat) (out : list piece) : option (list piece) :=
  let start := start - offset in
  let end_ := end_ - offset in
  let shift := whole_days start in
  let start := start - shift * DAY_SECONDS in
  let end_ := end_ - shift * DAY_SECONDS in
  let day := if 0 <=? day then Z.rem (Z.rem (day + shift) 7 + 7) 7 else day in
  if end_ <=? DAY_SECONDS then add_piece cap out (Piece day start (end_ - 1))
  else
    out ← add_piece cap out (Piece day start (DAY_SECONDS - 1));
    add_piece cap out (Piece (if 0 <=? day then Z.rem (day + 1) 7 else -1) 0 (end_ - DAY_SECONDS - 1)).

(** [piece_order] as an order: by day, then start, then end. *)
Definition piece_le (a b : piece) : Prop :=
  pc_day a < pc_day b \/
  pc_day a = pc_day b /\ (pc_from a < pc_from b \/ pc_from a = pc_from b /\ pc_to a <= pc_to b).
#[export] Instance piece_le_dec : RelDecision piece_le.
Proof. intros a b. unfold piece_le. apply _. Defined.

(** The mask of the days that are named. *)
Definition day_mask (days : list (list byte)) : Z :=
  foldl (fun mask word => let day := schedule_day word in if 0 <=? day then Z.lor mask (Z.shiftl 1 day) else mask)
    0 days.

(** The local pieces of one day of the loop, the last exclusive end kept. *)
Definition local_pieces (start end_ day : Z) (local : list piece) : list piece :=
  let add l p := default l (add_piece PIECES_MAX l p) in
  if start <? end_ then add local (Piece day start end_)
  else add (add local (Piece day start DAY_SECONDS)) (Piece (if 0 <=? day then Z.rem (day + 1) 7 else -1) 0 end_).

(** The days the loop runs over. *)
Definition loop_days (mask : Z) : list Z :=
  if mask =? 0 then [-1] else filter (fun day => negb (Z.land mask (Z.shiftl 1 day) =? 0)) [0; 1; 2; 3; 4; 5; 6].

Fixpoint utc_pieces (offset : Z) (cap : nat) (local out : list piece) : option (list piece) :=
  match local with
  | [] => Some out
  | p :: local => out ← to_utc (pc_day p) (pc_from p) (pc_to p) offset cap out; utc_pieces offset cap local out
  end.

(** The joining loop: [last] is the piece that is kept, [rest] is to come. *)
Fixpoint join_pieces (last : piece) (rest : list piece) : list piece :=
  match rest with
  | [] => [last]
  | p :: rest =>
      if (pc_day p =? pc_day last) && (pc_from p <=? pc_to last + 1) then
        join_pieces (Piece (pc_day last) (pc_from last) (if pc_to last <? pc_to p then pc_to p else pc_to last)) rest
      else last :: join_pieces p rest
  end.

(** The pieces written to [out]; the source's 0 is []. *)
Definition schedule_expand (hours : option (list byte)) (days : list (list byte)) (utc_offset : Z) (out_cap : nat)
  : list piece :=
  match match hours with Some text => hours_parse text | None => inr (0, DAY_SECONDS, []) end with
  | inl _ => []
  | inr (start, end_, _) =>
      let mask := day_mask days in
      let mask := if mask =? 0x7f then 0 else mask in
      let local := foldl (fun local day => local_pieces start end_ day local) [] (loop_days mask) in
      match utc_pieces utc_offset out_cap local [] with
      | None | Some [] => []
      | Some out =>
          match merge_sort piece_le out with
          | [] => []
          | first :: rest => join_pieces first rest
          end
      end
  end.

(** ** Pieces as text *)

Definition piece_text (p : piece) : list byte :=
  (if pc_day p <? 0 then bytes "any" else num (pc_day p)) ++ bytes " " ++ num (pc_from p) ++ bytes " " ++ num (pc_to p).

Definition clock_of (seconds : Z) : list byte :=
  pad2 (Z.quot seconds 3600) ++ bytes ":" ++ pad2 (Z.quot (Z.rem seconds 3600) 60) ++
  (if negb (Z.rem seconds 60 =? 0) then bytes ":" ++ pad2 (Z.rem seconds 60) else []).

Definition piece_describe (p : piece) : list byte :=
  (if pc_day p <? 0 then bytes "every day" else schedule_day_word (pc_day p)) ++ bytes " " ++ clock_of (pc_from p) ++
  bytes "-" ++ clock_of (pc_to p) ++ bytes " UTC".

(** *** [sscanf] *)

Definition c_isspace (b : byte) : bool := (b =b x20) || ((0x09 <=? bz b) && (bz b <=? 0x0d)).

Fixpoint scan_space (s : list byte) : list byte :=
  match s with
  | b :: s' => if c_isspace b then scan_space s' else s
  | [] => []
  end.

Fixpoint scan_digits (value : Z) (s : list byte) : Z * list byte :=
  match s with
  | b :: s' => if is_digit b then scan_digits (value * 10 + digit b) s' else (value, s)
  | [] => (value, [])
  end.

Definition scan_unsigned (s : list byte) : option (Z * list byte) :=
  match s with
  | b :: _ => if is_digit b then Some (scan_digits 0 s) else None
  | [] => None
  end.

(** [%ld]: white space, a sign, digits; past the width it is the bound. *)
Definition scan_long (s : list byte) : option (Z * list byte) :=
  let clamp z := Z.max INT64_MIN (Z.min INT64_MAX z) in
  match scan_space s with
  | b :: s' =>
      if b =b "-"%byte then '(v, rest) ← scan_unsigned s'; Some (clamp (- v), rest)
      else if b =b "+"%byte then '(v, rest) ← scan_unsigned s'; Some (clamp v, rest)
      else '(v, rest) ← scan_unsigned (b :: s'); Some (clamp v, rest)
  | [] => None
  end.

(** [%d]: the low 32 bits of what [%ld] reads. *)
Definition scan_int (s : list byte) : option (Z * list byte) :=
  '(v, rest) ← scan_long s; Some ((v + 2 ^ 31) mod 2 ^ 32 - 2 ^ 31, rest).

(** ["%ld %ld%c"] assigning exactly two. *)
Definition scan_range (s : list byte) : option (Z * Z) :=
  '(from, s) ← scan_long s;
  '(to, s) ← scan_long (scan_space s);
  match s with [] => Some (from, to) | _ => None end.

Definition piece_read (text : list byte) : option piece :=
  '(day, from, to) ←
    (if bytes_eqb (take 4 text) (bytes "any ") then
       '(from, to) ← scan_range (drop 4 text); Some (-1, from, to)
     else
       '(day, s) ← scan_int text;
       '(from, to) ← scan_range (scan_space s);
       if (day <? 0) || (6 <? day) then None else Some (day, from, to));
  if (from <? 0) || (to <? from) || (DAY_SECONDS <=? to) then None else Some (Piece day from to).
