(* ===== verification/ScheduleSpec.v ===== *)
(** * ScheduleSpec: the pieces are the schedule

    An instant is a number of seconds from the midnight that begins a Sunday.
    [window day s e u]: the instant [u] is at least [s] and less than [e]
    seconds into a day that is [day], or into any day when [day] is negative;
    [s] and [e] may lie outside that day. Everything the expansion does, moving
    by an offset, moving by whole days, splitting at midnight, joining, is an
    equivalence of windows. *)
From S2P Require Import Prelude Lex LexFacts Wire Decimal Schedule.
From stdpp Require Import sorting.
#[local] Open Scope Z_scope.

Definition on (day J : Z) : Prop := day < 0 \/ J mod 7 = day.

Definition window (day s e u : Z) : Prop :=
  exists J, on day J /\ J * DAY_SECONDS + s <= u < J * DAY_SECONDS + e.

(** The day [n] days after [day]. *)
Definition later (day n : Z) : Z := if 0 <=? day then (day + n) mod 7 else day.

Lemma on_later day n J : -1 <= day < 7 -> on (later day n) (J + n) <-> on day J.
Proof.
  intros Hd. unfold on, later. destruct (Z.leb_spec 0 day); [|lia].
  pose proof (Z.mod_pos_bound (day + n) 7).
  assert ((J + n) mod 7 = (day + n) mod 7 <-> J mod 7 = day) as ->; [|lia].
  split; intros H'; [|subst; symmetry; by rewrite Z.add_mod_idemp_l by lia].
  pose proof (Z.div_mod (J + n) 7). pose proof (Z.div_mod (day + n) 7). pose proof (Z.div_mod J 7).
  pose proof (Z.mod_pos_bound J 7). lia.
Qed.

Lemma window_move day n s e u :
  -1 <= day < 7 -> window (later day n) s e u <-> window day (s + n * DAY_SECONDS) (e + n * DAY_SECONDS) u.
Proof.
  intros Hd. split; intros (J & HJ & Hr).
  - exists (J - n). rewrite <- (on_later day n (J - n)), Z.sub_add by done. split; [done|]. lia.
  - exists (J + n). rewrite on_later by done. split; [done|]. lia.
Qed.

Lemma window_offset day s e u offset : window day s e (u + offset) <-> window day (s - offset) (e - offset) u.
Proof. split; intros (J & HJ & Hr); exists J; (split; [done|lia]). Qed.

Lemma window_split day s m e u : s <= m <= e -> window day s e u <-> window day s m u \/ window day m e u.
Proof.
  intros Hm. split.
  - intros (J & HJ & Hr). destruct (Z.lt_ge_cases u (J * DAY_SECONDS + m)); [left|right]; exists J; (split; [done|lia]).
  - intros [(J & HJ & Hr)|(J & HJ & Hr)]; exists J; (split; [done|lia]).
Qed.

Lemma window_join day s e s' e' u :
  s <= s' <= e -> s <= e' -> window day s (Z.max e e') u <-> window day s e u \/ window day s' e' u.
Proof.
  intros Hs He. split.
  - intros (J & HJ & Hr). destruct (Z.lt_ge_cases u (J * DAY_SECONDS + e)); [left|right]; exists J; (split; [done|lia]).
  - intros [(J & HJ & Hr)|(J & HJ & Hr)]; exists J; (split; [done|lia]).
Qed.

(** ** Pieces *)

Definition piece_ok (p : piece) : Prop :=
  -1 <= pc_day p < 7 /\ 0 <= pc_from p <= pc_to p /\ pc_to p < DAY_SECONDS.

(** What the kernel matches: the day of the week and the second of the day. *)
Definition matches (p : piece) (u : Z) : Prop :=
  on (pc_day p) (u / DAY_SECONDS) /\ pc_from p <= u mod DAY_SECONDS <= pc_to p.

Definition matched (l : list piece) (u : Z) : Prop := Exists (fun p => matches p u) l.

Lemma matches_window p u : piece_ok p -> matches p u <-> window (pc_day p) (pc_from p) (pc_to p + 1) u.
Proof.
  intros (_ & Hf & Ht). unfold matches, DAY_SECONDS in *. pose proof (Z.div_mod u 86400). pose proof (Z.mod_pos_bound u 86400).
  split.
  - intros [Hd Hr]. exists (u / 86400). split; [done|]. unfold DAY_SECONDS. lia.
  - intros (J & HJ & Hr). unfold DAY_SECONDS in Hr. assert (u / 86400 = J) as -> by (symmetry; apply Z.div_unique with (u - J * 86400); lia).
    assert (u mod 86400 = u - J * 86400) as -> by (symmetry; apply Z.mod_unique with J; lia). split; [done|lia].
Qed.

Lemma whole_days_floor z : whole_days z = z / DAY_SECONDS.
Proof.
  unfold whole_days, DAY_SECONDS. destruct (Z.leb_spec 0 z).
  - by rewrite Z.quot_div_nonneg by lia.
  - rewrite Z.quot_div_nonneg by lia. zdiv.
Qed.

Lemma rem_day day n : 0 <= day -> Z.rem (Z.rem (day + n) 7 + 7) 7 = (day + n) mod 7.
Proof.
  intros Hd. pose proof (Z.rem_bound_abs (day + n) 7 ltac:(lia)).
  rewrite (Z.rem_mod_nonneg (Z.rem (day + n) 7 + 7)) by lia.
  pose proof (Z.quot_rem' (day + n) 7) as E. rewrite E at 2.
  replace (7 * ((day + n) ÷ 7) + Z.rem (day + n) 7) with (Z.rem (day + n) 7 + ((day + n) ÷ 7) * 7) by lia.
  rewrite Z.mod_add by lia. replace (Z.rem (day + n) 7 + 7) with (Z.rem (day + n) 7 + 1 * 7) by lia. by rewrite Z.mod_add by lia.
Qed.

Lemma add_piece_spec cap out p out' :
  add_piece cap out p = Some out' -> out' = out ++ [p].
Proof. unfold add_piece. destruct (_ <=? _)%nat; [done|]. by intros [= <-]. Qed.

(** One local piece [s, e) of a day. *)
Lemma to_utc_spec day s e offset cap out out' :
  -1 <= day < 7 -> s < e <= s + DAY_SECONDS ->
  to_utc day s e offset cap out = Some out' ->
  exists new, out' = out ++ new /\ Forall piece_ok new /\
    forall u, matched new u <-> window day s e (u + offset).
Proof.
  intros Hd He. unfold to_utc. rewrite whole_days_floor.
  set (shift := (s - offset) / DAY_SECONDS).
  assert ((if 0 <=? day then Z.rem (Z.rem (day + shift) 7 + 7) 7 else day) = later day shift) as ->.
  { unfold later. destruct (Z.leb_spec 0 day); [by apply rem_day|done]. }
  assert (-1 <= later day shift < 7) as Hl.
  { unfold later. destruct (Z.leb_spec 0 day); [|lia]. pose proof (Z.mod_pos_bound (day + shift) 7). lia. }
  set (a := s - offset - shift * DAY_SECONDS). set (b := e - offset - shift * DAY_SECONDS).
  assert (0 <= a < DAY_SECONDS) as Ha.
  { unfold a, shift, DAY_SECONDS. pose proof (Z.div_mod (s - offset) 86400). pose proof (Z.mod_pos_bound (s - offset) 86400). lia. }
  assert (forall u, window (later day shift) a b u <-> window day s e (u + offset)) as Hw.
  { intros u. rewrite window_offset, window_move by done. unfold a, b. by rewrite !Z.sub_add. }
  assert (a < b <= a + DAY_SECONDS) as Hb by (unfold a, b; lia). clearbody a b. clear He. clearbody shift. set (d := later day shift) in *. clearbody d.
  assert (forall p q, piece_ok p -> piece_ok q -> forall u, matched [p; q] u <-> matches p u \/ matches q u) as Htwo.
  { intros p q _ _ u. unfold matched. rewrite Exists_cons, Exists_cons, Exists_nil. tauto. }
  destruct (Z.leb_spec b DAY_SECONDS) as [Hin|Hout].
  - intros ->%add_piece_spec. eexists. split; [done|].
    assert (piece_ok (Piece (d) a (b - 1))) as Hok by (split; [done|simpl; lia]).
    split; [by apply Forall_singleton|]. intros u. rewrite <- Hw. unfold matched. rewrite Exists_cons, Exists_nil.
    rewrite (matches_window _ _ Hok). simpl. rewrite Z.sub_add. tauto.
  - destruct (add_piece cap out _) as [out1|] eqn:E1; [|done]. apply add_piece_spec in E1 as ->.
    intros ->%add_piece_spec. rewrite <- app_assoc. eexists. split; [done|].
    assert ((if 0 <=? d then Z.rem (d + 1) 7 else -1) = later (d) 1) as ->.
    { unfold later. destruct (Z.leb_spec 0 d); [by rewrite Z.rem_mod_nonneg by lia|lia]. }
    assert (-1 <= later (d) 1 < 7) as Hl2.
    { unfold later. destruct (Z.leb_spec 0 d); [|lia]. pose proof (Z.mod_pos_bound (d + 1) 7). lia. }
    assert (piece_ok (Piece d a (DAY_SECONDS - 1))) as Hok1 by (split; [done|simpl; unfold DAY_SECONDS in *; lia]).
    assert (piece_ok (Piece (later d 1) 0 (b - DAY_SECONDS - 1))) as Hok2 by (split; [done|simpl; lia]).
    split; [apply Forall_app; by rewrite !Forall_singleton|]. intros u. rewrite <- Hw. cbn [app]. rewrite Htwo by done.
    rewrite (matches_window _ _ Hok1), (matches_window _ _ Hok2). simpl. rewrite !Z.sub_add.
    rewrite (window_split d a DAY_SECONDS b) by lia. rewrite (window_move d 1 0 (b - DAY_SECONDS)) by done.
    rewrite Z.mul_1_l, Z.add_0_l, Z.sub_add. done.
Qed.

Lemma to_utc_room day s e offset cap out :
  (length out + 2 <= cap)%nat ->
  exists out', to_utc day s e offset cap out = Some out' /\ (length out' <= length out + 2)%nat.
Proof.
  intros H. unfold to_utc, add_piece. rewrite (proj2 (Nat.leb_gt _ _)) by lia.
  destruct (_ <=? _); [eexists; split; [done|rewrite length_app; simpl; lia]|].
  unfold mbind, option_bind. rewrite (proj2 (Nat.leb_gt _ _)) by (rewrite length_app; simpl; lia).
  eexists. split; [done|]. rewrite !length_app. simpl. lia.
Qed.

(** Local pieces: their end is exclusive. *)
Definition local_ok (p : piece) : Prop :=
  -1 <= pc_day p < 7 /\ pc_from p < pc_to p <= pc_from p + DAY_SECONDS.
Definition local_window (p : piece) (v : Z) : Prop := window (pc_day p) (pc_from p) (pc_to p) v.

Lemma utc_pieces_spec offset cap local out :
  Forall local_ok local -> (length out + 2 * length local <= cap)%nat ->
  exists new, utc_pieces offset cap local out = Some (out ++ new) /\ Forall piece_ok new /\
    (length new <= 2 * length local)%nat /\
    forall u, matched new u <-> Exists (fun p => local_window p (u + offset)) local.
Proof.
  intros Hl. revert out. induction Hl as [|p local [Hd He] _ IH]; intros out Hcap; simpl in *.
  { exists []. rewrite app_nil_r. split; [done|]. split; [done|]. split; [simpl; lia|]. intros u. unfold matched; rewrite !Exists_nil; tauto. }
  destruct (to_utc_room (pc_day p) (pc_from p) (pc_to p) offset cap out ltac:(lia)) as (out' & Hout & Hlen).
  rewrite Hout. destruct (to_utc_spec _ _ _ _ _ _ _ Hd He Hout) as (new & -> & Hok & Hm).
  rewrite length_app in Hlen. simpl. destruct (IH (out ++ new)) as (new' & -> & Hok' & Hlen' & Hm').
  { rewrite length_app. lia. }
  exists (new ++ new'). rewrite <- app_assoc. split; [done|]. split; [by apply Forall_app|].
  split; [rewrite length_app; lia|]. intros u. unfold matched in *. rewrite Exists_app, Exists_cons, Hm, Hm'. done.
Qed.

(** ** Joining *)

(** The next piece starts on a later day, or after a gap. *)
Definition apart (p q : piece) : Prop :=
  pc_day p < pc_day q \/ pc_day p = pc_day q /\ pc_to p + 1 < pc_from q.

Lemma join_spec rest last :
  Sorted piece_le (last :: rest) -> Forall piece_ok (last :: rest) ->
  exists p l, join_pieces last rest = p :: l /\ pc_day p = pc_day last /\ pc_from p = pc_from last /\
    pc_to last <= pc_to p /\
    Sorted apart (p :: l) /\ Forall piece_ok (p :: l) /\ (length l <= length rest)%nat /\
    forall u, matched (p :: l) u <-> matched (last :: rest) u.
Proof.
  revert last. induction rest as [|q rest IH]; intros last Hs Hok; cbn [join_pieces].
  { exists last, []. repeat split; try done; try lia. by repeat constructor. }
  apply Sorted_inv in Hs as [Hs Hhd]. inversion Hhd as [|? ? Hle]; subst.
  pose proof Hok as Hok'. apply Forall_cons in Hok as [Hlast Hok]. pose proof Hok as Hrest.
  apply Forall_cons in Hok as [Hq Hok]. pose proof Hs as Hs'. apply Sorted_inv in Hs' as [Hs' Hhd'].
  destruct (_ && _) eqn:E.
  - apply andb_true_iff in E as [Ed Ef]. apply Z.eqb_eq in Ed. apply Z.leb_le in Ef.
    assert (pc_from last <= pc_from q) as Hfrom by (unfold piece_le in Hle; lia).
    set (m := Piece (pc_day last) (pc_from last) (if pc_to last <? pc_to q then pc_to q else pc_to last)).
    assert (pc_to m = Z.max (pc_to last) (pc_to q)) as Hm.
    { simpl. destruct (Z.ltb_spec (pc_to last) (pc_to q)); lia. }
    assert (piece_ok m) as Hmok.
    { destruct Hlast as (? & ? & ?), Hq as (? & ? & ?). split; [done|]. rewrite Hm. simpl. lia. }
    destruct (IH m) as (p & l & -> & H1 & H2 & H3 & H4 & H5 & H6 & H7).
    { constructor; [done|]. inversion Hhd' as [|r ? Hr]; subst; constructor.
      unfold piece_le in *. simpl pc_day. simpl pc_from. rewrite Hm. lia. }
    { by constructor. }
    exists p, l. split; [done|]. split; [done|]. split; [done|]. split; [lia|]. split; [done|]. split; [done|].
    split; [simpl; lia|]. intros u. rewrite H7. unfold matched. rewrite !Exists_cons.
    rewrite (matches_window m) by done. rewrite (matches_window last), (matches_window q) by done.
    rewrite Hm. simpl pc_day. simpl pc_from. rewrite Ed.
    replace (Z.max (pc_to last) (pc_to q) + 1) with (Z.max (pc_to last + 1) (pc_to q + 1)) by lia.
    rewrite (window_join (pc_day last) (pc_from last) (pc_to last + 1) (pc_from q) (pc_to q + 1) u).
    + tauto.
    + lia.
    + destruct Hq as (_ & ? & _). lia.
  - destruct (IH q Hs Hrest) as (p & l & -> & H1 & H2 & H3 & H4 & H5 & H6 & H7).
    exists last, (p :: l). split; [done|]. split; [done|]. split; [done|]. split; [lia|].
    split; [|split; [by constructor|split; [simpl; lia|]]].
    + constructor; [done|]. constructor. unfold apart, piece_le in *. rewrite H1, H2.
      apply andb_false_iff in E as [E|E]; [apply Z.eqb_neq in E|apply Z.leb_gt in E]; lia.
    + intros u. specialize (H7 u). unfold matched in *. rewrite !(Exists_cons _ last). by rewrite H7.
Qed.

#[local] Instance piece_le_total : Total piece_le.
Proof. intros a b. unfold piece_le. lia. Qed.

(** ** The days *)

Definition named (days : list (list byte)) (day : Z) : Prop := exists w, w ∈ days /\ schedule_day w = day.

Lemma schedule_day_range w : -1 <= schedule_day w < 7.
Proof.
  unfold schedule_day, day_words, day_names. cbn [day_search].
  repeat (destruct (_ || _); [lia|]). lia.
Qed.

Lemma day_mask_spec days n :
  0 <= n -> Z.testbit (day_mask days) n = true <-> named days n.
Proof.
  intros Hn. unfold day_mask, named.
  assert (forall mask, Z.testbit (foldl (fun mask word => let day := schedule_day word in
      if 0 <=? day then Z.lor mask (Z.shiftl 1 day) else mask) mask days) n = true <->
    Z.testbit mask n = true \/ exists w, w ∈ days /\ schedule_day w = n) as H.
  { induction days as [|w days IH]; intros mask; cbn [foldl].
    - split; [by left|]. intros [H|(w & Hw & _)]; [done|by apply elem_of_nil in Hw].
    - rewrite IH. assert (Z.testbit (let day := schedule_day w in
          if 0 <=? day then Z.lor mask (Z.shiftl 1 day) else mask) n = true <->
        Z.testbit mask n = true \/ schedule_day w = n) as ->.
      { cbv zeta. destruct (Z.leb_spec 0 (schedule_day w)) as [Hd|Hd].
        - rewrite Z.lor_spec, orb_true_iff. rewrite Z.shiftl_spec by lia.
          destruct (Z.eq_dec (schedule_day w) n) as [->|Hne]; [rewrite Z.sub_diag; simpl; tauto|].
          assert (Z.testbit 1 (n - schedule_day w) = false) as ->; [|intuition congruence].
          destruct (Z.lt_ge_cases n (schedule_day w)); [by apply Z.testbit_neg_r; lia|].
          apply Z.bits_above_log2; [lia|simpl; lia].
        - split; [by left|]. intros [H|H]; [done|lia]. }
      setoid_rewrite elem_of_cons. naive_solver. }
  rewrite H, Z.bits_0. naive_solver.
Qed.

Lemma mask_zero days : day_mask days = 0 <-> forall n, 0 <= n -> ~ named days n.
Proof.
  split.
  - intros E n Hn Hd. apply day_mask_spec in Hd; [|done]. by rewrite E, Z.bits_0 in Hd.
  - intros H. apply Z.bits_inj'. intros n Hn. rewrite Z.bits_0. apply not_true_iff_false. rewrite day_mask_spec by done. by apply H.
Qed.

Lemma land_shiftl m n : 0 <= n -> Z.land m (Z.shiftl 1 n) = 0 <-> Z.testbit m n = false.
Proof.
  intros Hn. assert (forall k, 0 <= k -> Z.testbit (Z.shiftl 1 n) k = bool_decide (k = n)) as Hone.
  { intros k Hk. rewrite Z.shiftl_spec by done. case_bool_decide as E; [by rewrite E, Z.sub_diag|].
    destruct (Z.lt_ge_cases k n); [by apply Z.testbit_neg_r; lia|]. apply Z.bits_above_log2; [lia|simpl; lia]. }
  split.
  - intros E. apply (f_equal (fun z => Z.testbit z n)) in E. rewrite Z.land_spec, Hone, Z.bits_0 in E by done.
    by rewrite bool_decide_eq_true_2, andb_true_r in E.
  - intros E. apply Z.bits_inj'. intros k Hk. rewrite Z.land_spec, Hone, Z.bits_0 by done.
    case_bool_decide as Ek; [by rewrite Ek, E|by rewrite andb_false_r].
Qed.

(** A day of the week the schedule is for: any, or one that is named. *)
Definition chosen (days : list (list byte)) (J : Z) : Prop :=
  (forall n, 0 <= n -> ~ named days n) \/ named days (J mod 7).

Lemma loop_days_spec days :
  let mask := if day_mask days =? 0x7f then 0 else day_mask days in
  Forall (fun d => -1 <= d < 7) (loop_days mask) /\ (1 <= length (loop_days mask) <= 7)%nat /\
  forall J, Exists (fun d => on d J) (loop_days mask) <-> chosen days J.
Proof.
  cbv zeta. unfold loop_days, chosen. destruct (Z.eqb_spec (day_mask days) 0x7f) as [E|E].
  { change (0 =? 0) with true. cbv iota. split; [apply Forall_singleton; lia|]. split; [simpl; lia|]. intros J. rewrite Exists_cons, Exists_nil.
    split; [intros _; right|intros _; left; left; lia]. apply day_mask_spec; [apply Z.mod_pos_bound; lia|].
    rewrite E. pose proof (Z.mod_pos_bound J 7 ltac:(lia)). assert (J mod 7 = 0 \/ J mod 7 = 1 \/ J mod 7 = 2 \/ J mod 7 = 3 \/ J mod 7 = 4 \/ J mod 7 = 5 \/ J mod 7 = 6) as Hin by lia.
    by destruct Hin as [->|[->|[->|[->|[->|[->| ->]]]]]]. }
  destruct (Z.eqb_spec (day_mask days) 0) as [E0|E0].
  { split; [apply Forall_singleton; lia|]. split; [simpl; lia|]. intros J. rewrite Exists_cons, Exists_nil.
    split; [intros _; left; by apply mask_zero|intros _; left; left; lia]. }
  assert (forall d, d ∈ filter (fun day => negb (Z.land (day_mask days) (Z.shiftl 1 day) =? 0)) [0; 1; 2; 3; 4; 5; 6] <->
    0 <= d < 7 /\ named days d) as Hin.
  { intros d. rewrite list_elem_of_filter. assert (d ∈ [0; 1; 2; 3; 4; 5; 6] <-> 0 <= d < 7) as ->.
    { rewrite !elem_of_cons, elem_of_nil. lia. }
    split; intros [H Hd]; (split; [tauto|] || (split; [|tauto])).
    - apply day_mask_spec; [lia|]. apply Is_true_true, negb_true_iff, Z.eqb_neq in H.
      rewrite land_shiftl in H by lia. by apply not_false_iff_true in H.
    - apply Is_true_true, negb_true_iff, Z.eqb_neq. rewrite land_shiftl by lia. apply not_false_iff_true.
      apply day_mask_spec; [lia|done]. }
  set (l := filter _ _) in *. split; [|split].
  - apply Forall_forall. intros d Hd. apply Hin in Hd. lia.
  - split; [|unfold l; etrans; [apply length_filter|simpl; lia]].
    destruct l eqn:El; [|simpl; lia]. exfalso. apply E0, mask_zero. intros n Hn Hd.
    destruct Hd as (w & Hw & <-). pose proof (schedule_day_range w).
    apply (not_elem_of_nil (schedule_day w)). apply Hin. split; [lia|by exists w].
  - intros J. rewrite Exists_exists. split.
    + intros (d & Hd & Hon). apply Hin in Hd as [Hr Hd]. right. destruct Hon as [?| <-]; [lia|done].
    + intros [Hno|Hd]; [by exfalso; apply E0, mask_zero|]. exists (J mod 7). split; [|by right].
      apply Hin. split; [apply Z.mod_pos_bound; lia|done].
Qed.

(** ** The hours *)

Lemma clock_digits_range room value n p :
  0 <= value -> let '(v, k, _) := clock_digits room value n p in 0 <= v.
Proof.
  revert value n p. induction room as [|room IH]; intros value n [|b p] Hv; simpl; try done.
  destruct (is_digit b) eqn:Hb; [|done]. apply IH. pose proof (is_digit_range b Hb). unfold digit. lia.
Qed.

Lemma clock_read_range p t rest : clock_read p = Some (t, rest) -> 0 <= t <= DAY_SECONDS.
Proof.
  unfold clock_read. pose proof (clock_digits_range 2 0 0 p ltac:(lia)) as Hh.
  destruct (clock_digits 2 0 0 p) as [[hours digits] q]. destruct q as [|colon [|tens [|units q]]]; try done.
  destruct ((digits =? 0)%nat || _ || _ || _) eqn:Ec; [done|].
  apply orb_false_iff in Ec as [Ec Hu]. apply orb_false_iff in Ec as [_ Ht].
  apply negb_false_iff in Hu, Ht. apply is_digit_range in Hu. apply andb_true_iff in Ht as [Ht1 Ht2].
  unfold digit. set (m := (bz tens - bz "0") * 10 + (bz units - bz "0")).
  assert (0 <= m < 60) as Hm by (unfold m; change (bz "0") with 48 in *; change (bz "5") with 53 in *; unbool; lia).
  clearbody m. destruct ((24 <? hours) || _) eqn:Eh; [done|]. intros [= <- <-].
  apply orb_false_iff in Eh as [Eh1 Eh2]. unfold DAY_SECONDS. apply Z.ltb_ge in Eh1.
  apply andb_false_iff in Eh2 as [Eh2|Eh2]; [apply Z.eqb_neq in Eh2|apply negb_false_iff, Z.eqb_eq in Eh2]; lia.
Qed.

Definition hours_of (hours : option (list byte)) : string + (Z * Z * list byte) :=
  match hours with Some text => hours_parse text | None => inr (0, DAY_SECONDS, []) end.

Lemma hours_parse_range text start end_ normal :
  hours_parse text = inr (start, end_, normal) ->
  0 <= start < DAY_SECONDS /\ 0 < end_ <= DAY_SECONDS /\ start <> end_.
Proof.
  unfold hours_parse. destruct (clock_read text) as [[s [|dash p]]|] eqn:E1; try done.
  apply clock_read_range in E1. destruct (negb _); [done|].
  destruct (clock_read p) as [[e [|? ?]]|] eqn:E2; try done. apply clock_read_range in E2.
  destruct (Z.eqb_spec s DAY_SECONDS); [done|]. unfold DAY_SECONDS in *.
  destruct (Z.eqb_spec s (Z.rem e 86400)) as [|Hne]; [done|]. intros [= <- <- _].
  destruct (Z.eqb_spec e 0) as [->|]; [change (Z.rem 0 86400) with 0 in Hne; lia|].
  split; [lia|]. split; [lia|]. destruct (Z.eq_dec e 86400) as [->|]; [lia|].
  rewrite Z.rem_small in Hne by lia. lia.
Qed.

Lemma hours_of_range hours start end_ normal :
  hours_of hours = inr (start, end_, normal) ->
  0 <= start < DAY_SECONDS /\ 0 < end_ <= DAY_SECONDS /\ start <> end_.
Proof.
  destruct hours as [text|]; [apply hours_parse_range|]. intros [= <- <- _]. unfold DAY_SECONDS. lia.
Qed.

(** Where the window ends, counted from the day it starts on. *)
Definition stop (start end_ : Z) : Z := if start <? end_ then end_ else end_ + DAY_SECONDS.

Definition day_pieces (start end_ day : Z) : list piece :=
  if start <? end_ then [Piece day start end_]
  else [Piece day start DAY_SECONDS; Piece (later day 1) 0 end_].

Lemma local_pieces_room start end_ day local :
  -1 <= day < 7 -> (length local + 2 <= PIECES_MAX)%nat ->
  local_pieces start end_ day local = local ++ day_pieces start end_ day.
Proof.
  intros Hd Hl. unfold local_pieces, day_pieces, add_piece. cbv beta zeta. rewrite (proj2 (Nat.leb_gt _ _)) by lia.
  assert ((if 0 <=? day then Z.rem (day + 1) 7 else -1) = later day 1) as ->.
  { unfold later. destruct (Z.leb_spec 0 day); [by rewrite Z.rem_mod_nonneg by lia|lia]. }
  destruct (start <? end_); [done|]. cbn [from_option id].
  rewrite (proj2 (Nat.leb_gt _ _)) by (rewrite length_app; simpl; lia). simpl. by rewrite <- app_assoc.
Qed.

Lemma day_pieces_spec start end_ day v :
  0 <= start < DAY_SECONDS -> 0 < end_ <= DAY_SECONDS -> -1 <= day < 7 ->
  Forall local_ok (day_pieces start end_ day) /\ (1 <= length (day_pieces start end_ day) <= 2)%nat /\
  (Exists (fun p => local_window p v) (day_pieces start end_ day) <-> window day start (stop start end_) v).
Proof.
  intros Hs He Hd. unfold day_pieces, stop, local_ok, local_window.
  assert (-1 <= later day 1 < 7) as Hl.
  { unfold later. destruct (Z.leb_spec 0 day); [|lia]. pose proof (Z.mod_pos_bound (day + 1) 7). lia. }
  destruct (Z.ltb_spec start end_).
  - rewrite Forall_singleton, Exists_cons, Exists_nil. simpl. split; [lia|]. split; [lia|tauto].
  - rewrite !Forall_cons, Forall_nil, !Exists_cons, Exists_nil. simpl. split; [lia|]. split; [lia|].
    rewrite (window_split day start DAY_SECONDS (end_ + DAY_SECONDS)) by lia. rewrite window_move by done.
    rewrite Z.mul_1_l, Z.add_0_l. tauto.
Qed.

Lemma local_fold start end_ days local :
  0 <= start < DAY_SECONDS -> 0 < end_ <= DAY_SECONDS ->
  Forall (fun d => -1 <= d < 7) days -> (length local + 2 * length days <= PIECES_MAX)%nat ->
  exists new, foldl (fun local day => local_pieces start end_ day local) local days = local ++ new /\
    Forall local_ok new /\ (length days <= length new <= 2 * length days)%nat /\
    forall v, Exists (fun p => local_window p v) new <-> Exists (fun d => window d start (stop start end_) v) days.
Proof.
  intros Hs He Hd. revert local. induction Hd as [|day days Hday _ IH]; intros local Hl; cbn [foldl].
  { exists []. rewrite app_nil_r. split; [done|]. split; [done|]. split; [simpl; lia|]. intros v. by rewrite !Exists_nil. }
  cbn [length] in Hl. rewrite local_pieces_room by (done || lia).
  destruct (day_pieces_spec start end_ day 0 Hs He Hday) as (H1 & H2 & _).
  destruct (IH (local ++ day_pieces start end_ day)) as (new & -> & H4 & H5 & H6); [rewrite length_app; lia|].
  exists (day_pieces start end_ day ++ new). rewrite <- app_assoc. split; [done|]. split; [by apply Forall_app|].
  rewrite length_app. cbn [length]. split; [lia|]. intros v. rewrite Exists_app, Exists_cons, H6.
  destruct (day_pieces_spec start end_ day v Hs He Hday) as (_ & _ & ->). done.
Qed.

(** What the schedule says, in local time: at [v] it is between the two hours
    of a day that is chosen, or past midnight and still within its hours. *)
Definition scheduled (days : list (list byte)) (start end_ v : Z) : Prop :=
  exists J, chosen days J /\ J * DAY_SECONDS + start <= v < J * DAY_SECONDS + stop start end_.

(** C30: the pieces are the schedule. For a window that parses (or the whole
    day), any days and any offset from UTC, with the room the header asks for:
    there are pieces, never more than the room; each lies within one day; they
    are in order with a gap between any two of one day; and at every second
    the kernel matches one of them exactly when, at the local time of that
    second, the schedule applies. *)
Theorem schedule_exact hours days offset cap start end_ normal :
  hours_of hours = inr (start, end_, normal) -> (PIECES_MAX <= cap)%nat ->
  let l := schedule_expand hours days offset cap in
  l <> [] /\ (length l <= PIECES_MAX)%nat /\ Forall piece_ok l /\ Sorted apart l /\
  forall u, matched l u <-> scheduled days start end_ (u + offset).
Proof.
  intros Hh Hcap. destruct (hours_of_range _ _ _ _ Hh) as (Hs & He & Hne). cbv zeta.
  unfold schedule_expand. change (match hours with Some text => hours_parse text | None => inr (0, DAY_SECONDS, []) end)
    with (hours_of hours). rewrite Hh.
  destruct (loop_days_spec days) as (Hd & Hlen & Hon). set (ds := loop_days _) in *. clearbody ds.
  destruct (local_fold start end_ ds [] Hs He Hd) as (local & -> & Hl & Hll & Hw); [unfold PIECES_MAX; simpl; lia|].
  cbn [app]. destruct (utc_pieces_spec offset cap local [] Hl) as (new & -> & Hok & Hnl & Hm).
  { unfold PIECES_MAX in Hcap. simpl. lia. }
  cbn [app]. assert (new <> []) as Hnew.
  { intros ->. destruct local as [|p local]; [simpl in Hll; lia|].
    apply Forall_cons in Hl as [[Hpd Hp] _].
    assert (matched [] (pc_from p + (if 0 <=? pc_day p then pc_day p else 0) * DAY_SECONDS - offset)) as H.
    { apply Hm. left. rewrite Z.sub_add. exists (if 0 <=? pc_day p then pc_day p else 0).
      split; [|lia]. unfold on. destruct (Z.leb_spec 0 (pc_day p)); [right; apply Z.mod_small; lia|lia]. }
    unfold matched in H. by rewrite Exists_nil in H. }
  pose proof (merge_sort_Permutation piece_le new) as Hperm.
  pose proof (Sorted_merge_sort piece_le new) as Hsorted.
  destruct new as [|x new]; [done|]. destruct (merge_sort piece_le (x :: new)) as [|first rest].
  { by apply Permutation_nil_l in Hperm. }
  destruct (join_spec rest first Hsorted) as (p & l & -> & _ & _ & _ & H4 & H5 & H6 & H7); [by rewrite Hperm|].
  split; [done|]. split; [|split; [done|split; [done|]]].
  - apply Permutation_length in Hperm. simpl in Hperm, Hnl |- *. unfold PIECES_MAX. lia.
  - intros u. rewrite H7. unfold matched. rewrite Hperm. change (matched (x :: new) u <-> scheduled days start end_ (u + offset)).
    rewrite Hm, Hw. unfold scheduled. rewrite Exists_exists. split.
    + intros (d & Hin & J & HJ & Hr). exists J. split; [|done]. apply Hon, Exists_exists. eauto.
    + intros (J & HJ & Hr). apply Hon, Exists_exists in HJ as (d & Hin & HJ). exists d. split; [done|]. by exists J.
Qed.

(** "No internet after ten on Mondays", in Tokyo, is one piece of Monday in
    UTC; in New York it is two days'. *)
Lemma schedule_exact_witness :
  schedule_expand (Some (bytes "22:00-7:00")) [bytes "mon"] 32400 28 = [Piece 1 46800 79199] /\
  schedule_expand (Some (bytes "22:00-7:00")) [bytes "mon"] (-18000) 28 = [Piece 2 10800 43199] /\
  forall u, matched [Piece 1 46800 79199] u <-> scheduled [bytes "mon"] 79200 25200 (u + 32400).
Proof.
  split; [vm_compute; reflexivity|]. split; [vm_compute; reflexivity|].
  exact (proj2 (proj2 (proj2 (proj2 (schedule_exact (Some (bytes "22:00-7:00")) [bytes "mon"] 32400 28 79200 25200
    (bytes "22:00-07:00") eq_refl (le_n 28)))))).
Defined.

(** ** Pieces as text *)

Lemma scan_digits_spec ds rest value :
  all_digits ds -> match rest with b :: _ => is_digit b = false | [] => True end ->
  scan_digits value (ds ++ rest) = (dec_value value ds, rest).
Proof.
  intros Hds Hrest. revert value. induction Hds as [|b ds Hb _ IH]; intros value; cbn [app scan_digits].
  - destruct rest as [|b rest]; [done|]. cbn [scan_digits]. by rewrite Hrest.
  - rewrite Hb. apply IH.
Qed.

Lemma digit_plain b : is_digit b = true -> c_isspace b = false /\ (b =b "-"%byte) = false /\ (b =b "+"%byte) = false.
Proof. by destruct b. Qed.

Lemma scan_long_num n rest :
  0 <= n <= INT64_MAX -> match rest with b :: _ => is_digit b = false | [] => True end ->
  scan_long (num n ++ rest) = Some (n, rest).
Proof.
  intros Hn Hrest. destruct (num_shape n) as (ds & -> & Hds & Hne & Hv & _).
  rewrite (proj2 (Z.ltb_ge _ _)) by lia. cbn [app]. destruct ds as [|b ds]; [done|].
  pose proof Hds as Hds'. apply Forall_cons in Hds' as [Hb _]. destruct (digit_plain b Hb) as (H1 & H2 & H3).
  unfold scan_long. cbn [app scan_space]. rewrite H1, H2, H3. unfold scan_unsigned. rewrite Hb.
  change (b :: ds ++ rest) with ((b :: ds) ++ rest). rewrite scan_digits_spec by done.
  unfold mbind, option_bind. rewrite Hv. unfold INT64_MIN, INT64_MAX in *. f_equal. f_equal. lia.
Qed.

Lemma scan_space_num n rest : 0 <= n -> scan_space (num n ++ rest) = num n ++ rest.
Proof.
  intros Hn. destruct (num_shape n) as (ds & -> & Hds & Hne & _). rewrite (proj2 (Z.ltb_ge _ _)) by lia.
  cbn [app]. destruct ds as [|b ds]; [done|]. apply Forall_cons in Hds as [Hb _]. destruct (digit_plain b Hb) as (H1 & _).
  cbn [app scan_space]. by rewrite H1.
Qed.

Lemma scan_range_text from to :
  0 <= from <= INT64_MAX -> 0 <= to <= INT64_MAX ->
  scan_range (num from ++ bytes " " ++ num to) = Some (from, to).
Proof.
  intros Hf Ht. unfold scan_range. rewrite scan_long_num by done. unfold mbind, option_bind.
  change (scan_space (bytes " " ++ num to)) with (scan_space (num to)).
  pose proof (scan_space_num to [] ltac:(lia)) as E. pose proof (scan_long_num to [] Ht I) as E2.
  rewrite app_nil_r in E, E2. by rewrite E, E2.
Qed.

Lemma num_not_any n s : 0 <= n -> bytes_eqb (take 4 (num n ++ s)) (bytes "any ") = false.
Proof.
  intros Hn. destruct (num_shape n) as (ds & -> & Hds & Hne & _). rewrite (proj2 (Z.ltb_ge _ _)) by lia.
  cbn [app]. destruct ds as [|b ds]; [done|]. apply Forall_cons in Hds as [Hb _].
  apply not_true_iff_false. rewrite bytes_eqb_true. cbn [app take]. intros E.
  apply (f_equal head) in E. cbn [head] in E. injection E as ->. done.
Qed.

Lemma piece_read_ok text p : piece_read text = Some p -> piece_ok p.
Proof.
  unfold piece_read. intros H.
  match type of H with (?m ≫= _) = _ => destruct m as [[[day from] to]|] eqn:E; [|done] end.
  unfold mbind at 1, option_bind at 1 in H. destruct (_ || _) eqn:Er; [done|]. injection H as <-.
  rewrite !orb_false_iff, !Z.ltb_ge, Z.leb_gt in Er. split; [|simpl; lia]. simpl.
  destruct (bytes_eqb _ _).
  - unfold mbind, option_bind in E. destruct (scan_range _) as [[f t]|]; [|done]. injection E as <- _ _. lia.
  - unfold mbind, option_bind in E. destruct (scan_int text) as [[d s]|]; [|done].
    destruct (scan_range _) as [[f t]|]; [|done]. destruct (_ || _) eqn:Ed; [done|]. injection E as <- _ _.
    rewrite orb_false_iff, !Z.ltb_ge in Ed. lia.
Qed.

(** A piece is read back from its text exactly when it is one the rules
    may hold, a day or every day and a range of seconds within it; so a rule
    restored from what the kernel holds has the pieces of the rule it
    replaces. *)
Theorem piece_text_roundtrip p : piece_read (piece_text p) = Some p <-> piece_ok p.
Proof.
  split; [apply piece_read_ok|]. destruct p as [day from to]. intros (Hd & Hf & Ht). simpl in *.
  unfold DAY_SECONDS in Ht. unfold piece_read, piece_text. cbn [pc_day pc_from pc_to].
  assert (0 <= from <= INT64_MAX /\ 0 <= to <= INT64_MAX) as [Hf' Ht'] by (unfold INT64_MAX; lia).
  assert ((from <? 0) || (to <? from) || (DAY_SECONDS <=? to) = false) as Hrange.
  { rewrite !orb_false_iff, !Z.ltb_ge, Z.leb_gt. unfold DAY_SECONDS. lia. }
  destruct (Z.ltb_spec day 0) as [Hneg|Hpos].
  - assert (day = -1) as -> by lia. change (take 4 (bytes "any" ++ bytes " " ++ ?s)) with (bytes "any ").
    change (drop 4 (bytes "any" ++ bytes " " ++ ?s)) with s. rewrite (proj2 (bytes_eqb_true _ _)) by done.
    rewrite scan_range_text by done. unfold mbind, option_bind. by rewrite Hrange.
  - rewrite num_not_any by lia. unfold scan_int. rewrite scan_long_num by (unfold INT64_MAX; done || lia).
    unfold mbind, option_bind. rewrite Z.mod_small by lia. rewrite Z.add_simpl_r.
    change (scan_space (bytes " " ++ ?s)) with (scan_space s). rewrite scan_space_num, scan_range_text by (done || lia).
    rewrite (proj2 (Z.ltb_ge day 0)), (proj2 (Z.ltb_ge 6 day)) by lia. cbn [orb]. by rewrite Hrange.
Qed.
