(* ===== verification/Merge.v ===== *)
(** * Merge: drop-in precedence ([c/src/compile/merge.c])

    Several parsed files, in order of precedence, become one set of blocks and
    one set of assignments. A source is its name and its items; the pointers
    the merged form keeps into the trees are the items themselves. [memory]
    answers [realloc], [malloc] and [calloc] by the size asked for, of an LP64
    build. [cx_failed] is the sticky failure, [cx_diags] what was reported. *)
From S2P Require Import Prelude Lex Parse Wire.
#[local] Open Scope Z_scope.

Record source := Source { sc_name : option (list byte); sc_items : list ast_item }.

(** ** Diagnostics and the sticky failure *)

Record lower_diag := LowerDiag { ld_source : option (list byte); ld_span : span; ld_message : list byte }.

Record lower_ctx := LowerCtx {
  cx_source : option (list byte);
  cx_diags : list lower_diag; cx_total : Z; cx_capacity : Z;
  cx_failed : bool }.

Definition at_source (cx : lower_ctx) (name : option (list byte)) : lower_ctx :=
  LowerCtx name (cx_diags cx) (cx_total cx) (cx_capacity cx) (cx_failed cx).

Definition lower_oom (cx : lower_ctx) : lower_ctx :=
  LowerCtx (cx_source cx) (cx_diags cx) (cx_total cx) (cx_capacity cx) true.

Definition diags_any (cx : lower_ctx) : bool := 0 <? cx_total cx.

Definition SIZEOF_LOWER_DIAG : Z := 48.

(** The growth of an array by doubling: the new capacity, when it must grow. *)
Definition doubled (count capacity : Z) : option Z :=
  if count =? capacity then Some (if capacity =? 0 then 8 else capacity * 2) else None.

Section Memory.
Context (memory : Z -> bool).

(** [ncfg_diag], the sentence already formatted. *)
Definition ncfg_diag (cx : lower_ctx) (sp : span) (text : list byte) : lower_ctx :=
  let cx := LowerCtx (cx_source cx) (cx_diags cx) (cx_total cx + 1) (cx_capacity cx) (cx_failed cx) in
  let count := zlen (cx_diags cx) in
  if Z.of_nat NCFG_DIAGS_MAX <=? count then cx
  else
    let grown :=
      match doubled count (cx_capacity cx) with
      | None => Some (cx_capacity cx)
      | Some want =>
          let want := Z.min want (Z.of_nat NCFG_DIAGS_MAX) in
          if memory (want * SIZEOF_LOWER_DIAG) then Some want else None
      end in
    match grown with
    | None => lower_oom cx
    | Some capacity =>
        let cx := LowerCtx (cx_source cx) (cx_diags cx) (cx_total cx) capacity (cx_failed cx) in
        let message := error_set text in
        if memory (zlen message + 1) then
          LowerCtx (cx_source cx) (cx_diags cx ++ [LowerDiag (cx_source cx) sp message]) (cx_total cx) capacity
            (cx_failed cx)
        else lower_oom cx
    end.

(** ** The merged form *)

Record merged_item := MergedItem { mi_item : ast_item; mi_source : option (list byte) }.

(** A block: its head, label and span, the file it was opened in, and its
    items with their files. *)
Record merged_block := MergedBlock {
  mb_head : list byte; mb_label : option (list byte); mb_span : span;
  mb_source : option (list byte); mb_items : list merged_item; mb_capacity : Z }.

Record merged_assignment := MergedAssignment {
  ma_key : list byte; ma_value : ast_value; ma_span : span; ma_source : option (list byte) }.

Record merged := Merged {
  mg_blocks : list merged_block; mg_block_capacity : Z;
  mg_assignments : list merged_assignment; mg_assignment_capacity : Z }.

Definition SIZEOF_MERGED_ITEM : Z := 16.
Definition SIZEOF_MERGED_BLOCK : Z := 40.
Definition SIZEOF_MERGED_ASSIGNMENT : Z := 16.
Definition SIZEOF_MERGED : Z := 48.

Definition with_items (b : merged_block) (items : list merged_item) (capacity : Z) : merged_block :=
  MergedBlock (mb_head b) (mb_label b) (mb_span b) (mb_source b) items capacity.

Definition keep_item (cx : lower_ctx) (target : merged_block) (item : ast_item) (name : option (list byte))
  : bool * lower_ctx * merged_block :=
  let kept capacity := (true, cx, with_items target (mb_items target ++ [MergedItem item name]) capacity) in
  match doubled (zlen (mb_items target)) (mb_capacity target) with
  | None => kept (mb_capacity target)
  | Some want =>
      if memory (want * SIZEOF_MERGED_ITEM) then kept want else (false, lower_oom cx, target)
  end.

(** The loop of [take_block]: it stops at the first item it cannot keep. *)
Fixpoint keep_items (cx : lower_ctx) (target : merged_block) (items : list ast_item) (name : option (list byte))
  : lower_ctx * merged_block :=
  match items with
  | [] => (cx, target)
  | item :: items =>
      match keep_item cx target item name with
      | (true, cx, target) => keep_items cx target items name
      | (false, cx, target) => (cx, target)
      end
  end.

Definition take_block (cx : lower_ctx) (capacity : Z) (head : list byte) (label : option (list byte))
    (items : list ast_item) (sp : span) (name : option (list byte)) : lower_ctx * merged_block :=
  keep_items cx (MergedBlock head label sp name [] capacity) items name.

Definition block_describe (head : list byte) (label : option (list byte)) : list byte :=
  error_set match label with Some l => head ++ bytes " " ++ l | None => head end.

Definition first_name (name : option (list byte)) : list byte := default (bytes "<unknown>") name.

Definition say_already (cx : lower_ctx) (head : list byte) (label : option (list byte)) (sp : span)
    (first_source : option (list byte)) (first_line : nat) (inside : option (list byte)) : lower_ctx :=
  let described := block_describe head label in
  let where_ := first_name first_source ++ bytes ":" ++ num (Z.of_nat first_line) in
  match inside with
  | Some inside =>
      ncfg_diag cx sp (bytes "`" ++ described ++ bytes "` is already set in `" ++ inside ++ bytes "`: first set at " ++
        where_ ++ bytes "; two files disagreeing about one setting is the case `override` is for")
  | None =>
      ncfg_diag cx sp (bytes "`" ++ described ++ bytes "` is already defined: first defined at " ++ where_ ++
        bytes "; write `override " ++ described ++ bytes "` to replace it")
  end.

Definition same_label (a b : option (list byte)) : bool :=
  match a, b with Some a, Some b => bytes_eqb a b | None, None => true | _, _ => false end.

(** The first item of [global] that is a block of that key. *)
Fixpoint find_sub_block (items : list merged_item) (head : list byte) (label : option (list byte))
  : option (option (list byte) * span) :=
  match items with
  | [] => None
  | MergedItem (AST_ITEM_BLOCK h l _ _ sp) name :: items =>
      if bytes_eqb h head && same_label l label then Some (name, sp) else find_sub_block items head label
  | _ :: items => find_sub_block items head label
  end.

(** Replace the first assignment of the key, if there is one. *)
Fixpoint replace_assignment (items : list merged_item) (key : list byte) (item : ast_item) (name : option (list byte))
  : option (list merged_item) :=
  match items with
  | [] => None
  | MergedItem (AST_ITEM_ASSIGNMENT k v sp) n :: items =>
      if bytes_eqb k key then Some (MergedItem item name :: items)
      else cons (MergedItem (AST_ITEM_ASSIGNMENT k v sp) n) <$> replace_assignment items key item name
  | i :: items => cons i <$> replace_assignment items key item name
  end.

Definition GLOBAL : list byte := bytes "global".

Definition merge_global_item (name : option (list byte)) (st : lower_ctx * merged_block) (item : ast_item)
  : lower_ctx * merged_block :=
  let '(cx, target) := st in
  let keep := let '(_, cx, target) := keep_item cx target item name in (cx, target) in
  match item with
  | AST_ITEM_BLOCK head label _ _ sp =>
      match find_sub_block (mb_items target) head label with
      | Some (first_source, first_span) =>
          (say_already (at_source cx name) head label sp first_source (sp_line first_span) (Some GLOBAL), target)
      | None => keep
      end
  | AST_ITEM_ASSIGNMENT key _ _ =>
      match replace_assignment (mb_items target) key item name with
      | Some items => (cx, with_items target items (mb_capacity target))
      | None => keep
      end
  | _ => keep
  end.

Definition merge_into_global (cx : lower_ctx) (target : merged_block) (items : list ast_item) (name : option (list byte))
  : lower_ctx * merged_block :=
  foldl (merge_global_item name) (cx, target) items.

(** Where the block of that key is. *)
Definition is_key (head : list byte) (label : option (list byte)) (b : merged_block) : bool :=
  bytes_eqb (mb_head b) head && same_label (mb_label b) label.

Fixpoint find_block (blocks : list merged_block) (head : list byte) (label : option (list byte)) (i : nat)
  : option (nat * merged_block) :=
  match blocks with
  | [] => None
  | b :: blocks => if is_key head label b then Some (i, b) else find_block blocks head label (S i)
  end.

Definition set_blocks (m : merged) (blocks : list merged_block) (capacity : Z) : merged :=
  Merged blocks capacity (mg_assignments m) (mg_assignment_capacity m).

Definition merge_block (cx : lower_ctx) (m : merged) (head : list byte) (label : option (list byte)) (overrides : bool)
    (items : list ast_item) (sp : span) (name : option (list byte)) : lower_ctx * merged :=
  match find_block (mg_blocks m) head label 0 with
  | Some (i, existing) =>
      if overrides then
        let '(cx, b) := take_block cx (mb_capacity existing) head label items sp name in
        (cx, set_blocks m (<[i := b]> (mg_blocks m)) (mg_block_capacity m))
      else if bytes_eqb head GLOBAL then
        let '(cx, b) := merge_into_global cx existing items name in
        (cx, set_blocks m (<[i := b]> (mg_blocks m)) (mg_block_capacity m))
      else
        (say_already (at_source cx name) head label sp (mb_source existing) (sp_line (mb_span existing)) None, m)
  | None =>
      if overrides then
        (ncfg_diag (at_source cx name) sp
           (bytes "`override " ++ block_describe head label ++
            bytes "` has nothing to override: remove `override`, or check the name"), m)
      else
        let add capacity :=
          let '(cx, b) := take_block cx 0 head label items sp name in
          (cx, set_blocks m (mg_blocks m ++ [b]) capacity) in
        match doubled (zlen (mg_blocks m)) (mg_block_capacity m) with
        | None => add (mg_block_capacity m)
        | Some want => if memory (want * SIZEOF_MERGED_BLOCK) then add want else (lower_oom cx, m)
        end
  end.

(** Replace the first assignment of the key, if there is one. *)
Fixpoint replace_scalar (l : list merged_assignment) (a : merged_assignment) : option (list merged_assignment) :=
  match l with
  | [] => None
  | b :: l => if bytes_eqb (ma_key b) (ma_key a) then Some (a :: l) else cons b <$> replace_scalar l a
  end.

Definition set_assignments (m : merged) (l : list merged_assignment) (capacity : Z) : merged :=
  Merged (mg_blocks m) (mg_block_capacity m) l capacity.

Definition merge_assignment (cx : lower_ctx) (m : merged) (a : merged_assignment) : lower_ctx * merged :=
  match replace_scalar (mg_assignments m) a with
  | Some l => (cx, set_assignments m l (mg_assignment_capacity m))
  | None =>
      let add capacity := (cx, set_assignments m (mg_assignments m ++ [a]) capacity) in
      match doubled (zlen (mg_assignments m)) (mg_assignment_capacity m) with
      | None => add (mg_assignment_capacity m)
      | Some want => if memory (want * SIZEOF_MERGED_ASSIGNMENT) then add want else (lower_oom cx, m)
      end
  end.

(** The [switch] of the loop. *)
Definition merge_item (name : option (list byte)) (st : lower_ctx * merged) (item : ast_item) : lower_ctx * merged :=
  let '(cx, m) := st in
  match item with
  | AST_ITEM_BLOCK head label overrides items sp =>
      let '(cx, m) := merge_block cx m head label overrides items sp name in (at_source cx name, m)
  | AST_ITEM_ASSIGNMENT key value sp => merge_assignment cx m (MergedAssignment key value sp name)
  | AST_ITEM_HOOK _ _ sp =>
      (ncfg_diag cx sp (bytes "a hook block must be inside an interface block: hooks belong to the interface whose lifecycle they follow"), m)
  | AST_ITEM_INCLUDE _ sp =>
      (ncfg_diag cx sp (bytes "include was not resolved before compiling: the caller expands includes; the compiler opens no files"), m)
  end.

Definition merge_source (st : lower_ctx * merged) (s : source) : lower_ctx * merged :=
  foldl (merge_item (sc_name s)) (at_source (fst st) (sc_name s), snd st) (sc_items s).

Definition OOM_MERGING : list byte := bytes "out of memory merging the configuration".

(** [ncfg_merge], with diagnostics: the sentence or the merged form, and what
    was reported. *)
Definition ncfg_merge (sources : list source) : (list byte + merged) * lower_ctx :=
  let cx := LowerCtx None [] 0 0 false in
  if negb (memory SIZEOF_MERGED) then (inl OOM_MERGING, cx)
  else
    let '(cx, m) := foldl merge_source (cx, Merged [] 0 [] 0) sources in
    if cx_failed cx then (inl OOM_MERGING, cx)
    else if diags_any cx then
      (inl match cx_diags cx with d :: _ => error_set (ld_message d) | [] => bytes "the configuration was refused" end, cx)
    else (inr m, cx).
End Memory.
