(* ===== verification/MergeSpec.v ===== *)
(** * MergeSpec: what drop-in precedence means

    The specification looks at the statements of all the files as one stream,
    each with the name of its file, and says for one block at a time, from the
    occurrences of that block alone, what it becomes or that they disagree
    ([settle]); and for one key of an assignment, that the last one stands
    ([last_of]). *)
From S2P Require Import Prelude Lex Parse Wire Merge.
#[local] Open Scope Z_scope.

Notation file := (option (list byte)).
Notation statement := (file * ast_item)%type.
Notation block_key := (list byte * option (list byte))%type.

Definition stream_of (sources : list source) : list statement :=
  concat (map (fun s => map (pair (sc_name s)) (sc_items s)) sources).

(** ** Blocks *)

(** A settled block: where it was opened, and its items with their files. *)
Record settled := Settled { st_span : span; st_source : file; st_items : list merged_item }.

(** One occurrence of a block. *)
Record occurrence := Occurrence { oc_overrides : bool; oc_items : list ast_item; oc_span : span; oc_file : file }.

Definition occurrence_of (k : block_key) (s : statement) : option occurrence :=
  match s with
  | (name, AST_ITEM_BLOCK head label overrides items sp) =>
      if bytes_eqb head (fst k) && same_label label (snd k) then Some (Occurrence overrides items sp name) else None
  | _ => None
  end.

Definition opened (o : occurrence) : settled :=
  Settled (oc_span o) (oc_file o) (map (fun i => MergedItem i (oc_file o)) (oc_items o)).

(** A statement inside [global]: a block of a key it does not have, a scalar,
    which the later file wins, or anything else. *)
Definition add_global (name : file) (items : list merged_item) (item : ast_item) : option (list merged_item) :=
  match item with
  | AST_ITEM_BLOCK head label _ _ _ =>
      match find_sub_block items head label with
      | Some _ => None
      | None => Some (items ++ [MergedItem item name])
      end
  | AST_ITEM_ASSIGNMENT key _ _ =>
      Some (default (items ++ [MergedItem item name]) (replace_assignment items key item name))
  | _ => Some (items ++ [MergedItem item name])
  end.

Fixpoint add_all (name : file) (items : list merged_item) (new : list ast_item) : option (list merged_item) :=
  match new with
  | [] => Some items
  | i :: new => items ← add_global name items i; add_all name items new
  end.

(** One occurrence after the others; [None] is a disagreement. *)
Definition settle_one (k : block_key) (st : option settled) (o : occurrence) : option settled :=
  match st with
  | None => if oc_overrides o then None else Some (opened o)
  | Some s =>
      if oc_overrides o then Some (opened o)
      else if bytes_eqb (fst k) GLOBAL then
        items ← add_all (oc_file o) (st_items s) (oc_items o); Some (Settled (st_span s) (st_source s) items)
      else None
  end.

Fixpoint settle_from (k : block_key) (st : option settled) (occs : list occurrence) : option (option settled) :=
  match occs with
  | [] => Some st
  | o :: occs => s ← settle_one k st o; settle_from k (Some s) occs
  end.

(** The whole stream: [None] is a disagreement, [Some None] no such block. *)
Definition settle (k : block_key) (l : list statement) : option (option settled) :=
  settle_from k None (omap (occurrence_of k) l).

Definition key_of (s : statement) : option block_key :=
  match snd s with AST_ITEM_BLOCK head label _ _ _ => Some (head, label) | _ => None end.

(** In the order of their first occurrence. *)
Definition add_key {K} `{EqDecision K} (ks : list K) (k : option K) : list K :=
  match k with Some k => if decide (k ∈ ks) then ks else ks ++ [k] | None => ks end.
Definition block_keys (l : list statement) : list block_key := foldl (fun ks s => add_key ks (key_of s)) [] l.

(** ** Assignments *)

Definition scalar_of (s : statement) : option merged_assignment :=
  match s with
  | (name, AST_ITEM_ASSIGNMENT key value sp) => Some (MergedAssignment key value sp name)
  | _ => None
  end.
Definition scalar_keys (l : list statement) : list (list byte) := foldl (fun ks s => add_key ks (ma_key <$> scalar_of s)) [] l.

(** The last assignment of a key. *)
Definition last_of (k : list byte) (l : list statement) : option merged_assignment :=
  foldl (fun found s => match scalar_of s with
                        | Some a => if bytes_eqb (ma_key a) k then Some a else found
                        | None => found
                        end) None l.

(** ** Accepting *)

Definition placed (s : statement) : Prop :=
  match snd s with AST_ITEM_HOOK _ _ _ | AST_ITEM_INCLUDE _ _ => False | _ => True end.

Definition accepted (l : list statement) : Prop := Forall placed l /\ forall k, settle k l <> None.

Definition merged_is (l : list statement) (m : merged) : Prop :=
  Forall2 (fun k b => (mb_head b, mb_label b) = k /\
                      settle k l = Some (Some (Settled (mb_span b) (mb_source b) (mb_items b))))
    (block_keys l) (mg_blocks m) /\
  Forall2 (fun k a => ma_key a = k /\ last_of k l = Some a) (scalar_keys l) (mg_assignments m).

(** ** Facts of the specification *)

Lemma same_label_eq a b : same_label a b = true <-> a = b.
Proof.
  destruct a as [a|], b as [b|]; simpl; try done. rewrite bytes_eqb_true. split; [by intros ->|by intros [= ->]].
Qed.

Lemma occurrence_key k s o : occurrence_of k s = Some o -> key_of s = Some k.
Proof.
  destruct s as [name []]; try done. simpl. destruct (_ && _) eqn:E; [|done].
  apply andb_true_iff in E as [E1 E2]. apply bytes_eqb_true in E1. apply same_label_eq in E2. intros _. by destruct k; subst.
Qed.

Lemma occurrence_other k k' s : key_of s = Some k' -> k <> k' -> occurrence_of k s = None.
Proof.
  intros Hk Hne. destruct (occurrence_of k s) eqn:E; [|done]. apply occurrence_key in E. congruence.
Qed.

Lemma settle_from_app k st a b :
  settle_from k st (a ++ b) = st ← settle_from k st a; settle_from k st b.
Proof.
  revert st. induction a as [|o a IH]; intros st; simpl; [done|]. destruct (settle_one k st o); [apply IH|done].
Qed.

Lemma settle_snoc k l s :
  settle k (l ++ [s]) = st ← settle k l; match occurrence_of k s with Some o => Some <$> settle_one k st o | None => Some st end.
Proof.
  unfold settle. rewrite omap_app, settle_from_app. simpl. destruct (settle_from _ _ _) as [st|]; [|done].
  simpl. destruct (occurrence_of k s); [|done]. simpl. by destruct (settle_one _ _ _).
Qed.

Lemma accepted_prefix l k : accepted (l ++ k) -> accepted l.
Proof.
  intros [Hp Hs]. split; [by apply Forall_app in Hp as [? _]|]. intros key Hn. apply (Hs key).
  unfold settle in *. by rewrite omap_app, settle_from_app, Hn.
Qed.

Lemma add_key_nodup {K} `{EqDecision K} (ks : list K) k : NoDup ks -> NoDup (add_key ks k).
Proof.
  intros H. destruct k as [k|]; simpl; [|done]. case_decide as Hd; [done|]. apply NoDup_app. split; [done|].
  split; [|apply NoDup_singleton]. intros x Hx Hx'. apply list_elem_of_singleton in Hx' as ->. done.
Qed.

Lemma keys_nodup {A K} `{EqDecision K} (f : A -> option K) l : NoDup (foldl (fun ks s => add_key ks (f s)) [] l).
Proof.
  assert (forall ks, NoDup ks -> NoDup (foldl (fun ks s => add_key ks (f s)) ks l)) as H.
  { induction l as [|s l IH]; intros ks Hks; simpl; [done|]. by apply IH, add_key_nodup. }
  apply H. constructor.
Qed.

Lemma block_keys_snoc l s : block_keys (l ++ [s]) = add_key (block_keys l) (key_of s).
Proof. unfold block_keys. by rewrite foldl_app. Qed.

Lemma scalar_keys_snoc l s : scalar_keys (l ++ [s]) = add_key (scalar_keys l) (ma_key <$> scalar_of s).
Proof. unfold scalar_keys. by rewrite foldl_app. Qed.

Lemma last_of_snoc k l s :
  last_of k (l ++ [s]) = match scalar_of s with
                         | Some a => if bytes_eqb (ma_key a) k then Some a else last_of k l
                         | None => last_of k l
                         end.
Proof. unfold last_of. by rewrite foldl_app. Qed.

Lemma settle_absent k l : k ∉ block_keys l -> settle k l = Some None.
Proof.
  induction l as [|s l IH] using rev_ind; intros Hk; [done|]. rewrite settle_snoc.
  rewrite block_keys_snoc in Hk.
  assert (k ∉ block_keys l /\ key_of s <> Some k) as [H1 H2].
  { destruct (key_of s) as [k'|]; simpl in Hk; [|by split]. case_decide as Hd; [split; [done|congruence]|].
    rewrite elem_of_app, list_elem_of_singleton in Hk. split; [tauto|]. intros [= ->]. tauto. }
  rewrite IH by done. simpl. destruct (occurrence_of k s) eqn:E; [|done]. by apply occurrence_key in E.
Qed.

(** ** What each operation does *)

Section Memory.
Context (memory : Z -> bool).
Definition granted : Prop := forall n, memory n = true.

(** The cursor moved: nothing reported is forgotten, the failure is sticky. *)
Record onward (cx cx' : lower_ctx) : Prop := Onward {
  on_total : cx_total cx <= cx_total cx';
  on_failed : cx_failed cx = true -> cx_failed cx' = true;
  on_granted : granted -> cx_failed cx' = cx_failed cx }.

Lemma onward_refl cx : onward cx cx.
Proof. by split. Qed.

Lemma onward_trans a b c : onward a b -> onward b c -> onward a c.
Proof. intros [? ? ?] [? ? ?]. split; [lia|auto|]. intros. etrans; eauto. Qed.

Lemma onward_source cx name : onward cx (at_source cx name).
Proof. by split. Qed.

(** Memory ran out, something was reported, or neither. *)
Inductive outcome (cx cx' : lower_ctx) (ok clash : Prop) : Prop :=
| Exhausted : cx_failed cx' = true -> outcome cx cx' ok clash
| Clashed : cx_total cx < cx_total cx' -> clash -> outcome cx cx' ok clash
| Fine : cx_total cx' = cx_total cx -> cx_failed cx' = cx_failed cx -> ok -> outcome cx cx' ok clash.

Lemma oom_onward cx n : memory n = false -> onward cx (lower_oom cx).
Proof. intros E. split; simpl; [lia|done|]. intros G. by rewrite (G n) in E. Qed.

Lemma diag_spec cx sp text : onward cx (ncfg_diag memory cx sp text) /\ cx_total (ncfg_diag memory cx sp text) = cx_total cx + 1.
Proof.
  unfold ncfg_diag. cbn [cx_diags cx_capacity cx_failed cx_source cx_total].
  destruct (_ <=? zlen _); [split; [split; simpl; [lia|done|done]|done]|].
  set (g := match doubled _ _ with Some _ => _ | None => _ end).
  destruct g as [capacity|] eqn:E; unfold g in E.
  - destruct (memory (zlen (error_set text) + 1)) eqn:Em; [split; [split; simpl; [lia|done|done]|done]|].
    split; [|done]. split; simpl; [lia|done|]. intros G. by rewrite G in Em.
  - split; [|done]. split; simpl; [lia|done|]. intros G. destruct (doubled _ _); [|done]. by rewrite G in E.
Qed.

Lemma keep_item_spec cx target item name :
  let '(kept, cx', target') := keep_item memory cx target item name in
  onward cx cx' /\
  (if kept then cx' = cx /\ exists c, target' = with_items target (mb_items target ++ [MergedItem item name]) c
   else cx_failed cx' = true /\ target' = target).
Proof.
  unfold keep_item. destruct (doubled _ _) as [want|]; [|split; [apply onward_refl|eauto]].
  destruct (memory _) eqn:E; [split; [apply onward_refl|eauto]|]. split; [by eapply oom_onward|done].
Qed.

Lemma keep_items_spec items cx target name :
  let '(cx', target') := keep_items memory cx target items name in
  onward cx cx' /\
  (cx_failed cx' = true \/
   cx' = cx /\ exists c, target' = with_items target (mb_items target ++ map (fun i => MergedItem i name) items) c).
Proof.
  revert cx target. induction items as [|i items IH]; intros cx target; cbn [keep_items].
  { split; [apply onward_refl|]. right. split; [done|]. exists (mb_capacity target). simpl. rewrite app_nil_r. by destruct target. }
  pose proof (keep_item_spec cx target i name) as Hk. destruct (keep_item _ _ _ _ _) as [[[] cx1] target1].
  - destruct Hk as [_ [-> [c ->]]]. specialize (IH cx (with_items target (mb_items target ++ [MergedItem i name]) c)).
    destruct (keep_items _ _ _ _ _) as [cx' target']. destruct IH as [Ho IH]. split; [done|].
    destruct IH as [IH|[-> [c' ->]]]; [by left|right]. split; [done|]. exists c'. simpl. unfold with_items. simpl.
    by rewrite <- app_assoc.
  - destruct Hk as [Ho [Hf ->]]. split; [done|by left].
Qed.

Lemma take_block_spec cx c head label items sp name :
  let '(cx', b) := take_block memory cx c head label items sp name in
  onward cx cx' /\
  (cx_failed cx' = true \/
   cx' = cx /\ (mb_head b, mb_label b) = (head, label) /\
   Settled (mb_span b) (mb_source b) (mb_items b) = opened (Occurrence false items sp name)).
Proof.
  unfold take_block. pose proof (keep_items_spec items cx (MergedBlock head label sp name [] c) name) as H.
  destruct (keep_items _ _ _ _ _) as [cx' b]. destruct H as [Ho [H|[-> [c' ->]]]]; (split; [done|]); [by left|by right].
Qed.

Lemma global_item_spec name cx target item :
  let '(cx', target') := merge_global_item memory name (cx, target) item in
  onward cx cx' /\ outcome cx cx'
    (cx' = cx /\ exists items c, add_global name (mb_items target) item = Some items /\ target' = with_items target items c)
    (add_global name (mb_items target) item = None).
Proof.
  assert (let '(cx', target') := (let '(_, cx, target) := keep_item memory cx target item name in (cx, target)) in
    onward cx cx' /\ (cx_failed cx' = true \/ cx' = cx /\
      exists c, target' = with_items target (mb_items target ++ [MergedItem item name]) c)) as Hkeep.
  { pose proof (keep_item_spec cx target item name) as Hk. destruct (keep_item _ _ _ _ _) as [[[] cx1] target1].
    - destruct Hk as [? [? ?]]. eauto.
    - destruct Hk as [? [? ?]]. eauto. }
  unfold merge_global_item, add_global.
  destruct item as [head label ov items sp|key value sp|phase body sp|path sp].
  - destruct (find_sub_block _ _ _) as [[fs fsp]|].
    + unfold say_already. set (text := _ ++ _ ++ _). destruct (diag_spec (at_source cx name) sp text) as [Ho Ht].
      split; [eapply onward_trans; [apply onward_source|exact Ho]|]. apply Clashed; [|done]. rewrite Ht. simpl. lia.
    + destruct (keep_item _ _ _ _ _) as [[k cx'] target']. destruct Hkeep as [Ho [Hf|[-> [c ->]]]]; (split; [done|]);
        [by apply Exhausted|apply Fine; eauto].
  - destruct (replace_assignment _ _ _ _) as [items|].
    + split; [apply onward_refl|]. apply Fine; eauto 6.
    + destruct (keep_item _ _ _ _ _) as [[k cx'] target']. destruct Hkeep as [Ho [Hf|[-> [c ->]]]]; (split; [done|]);
        [by apply Exhausted|apply Fine; eauto 6].
  - destruct (keep_item _ _ _ _ _) as [[k cx'] target']. destruct Hkeep as [Ho [Hf|[-> [c ->]]]]; (split; [done|]);
      [by apply Exhausted|apply Fine; eauto 6].
  - destruct (keep_item _ _ _ _ _) as [[k cx'] target']. destruct Hkeep as [Ho [Hf|[-> [c ->]]]]; (split; [done|]);
      [by apply Exhausted|apply Fine; eauto 6].
Qed.

Lemma global_onward items name cx target : onward cx (fst (merge_into_global memory cx target items name)).
Proof.
  unfold merge_into_global. revert cx target. induction items as [|i items IH]; intros cx target; [apply onward_refl|].
  cbn [foldl]. pose proof (global_item_spec name cx target i) as H.
  destruct (merge_global_item _ _ _ _) as [cx1 target1]. destruct H as [Ho _]. eapply onward_trans; [exact Ho|apply IH].
Qed.

Lemma global_spec items name cx target :
  let '(cx', target') := merge_into_global memory cx target items name in
  outcome cx cx'
    (exists l c, add_all name (mb_items target) items = Some l /\ target' = with_items target l c)
    (add_all name (mb_items target) items = None).
Proof.
  unfold merge_into_global. revert cx target. induction items as [|i items IH]; intros cx target; cbn [foldl].
  { apply Fine; [done..|]. exists (mb_items target), (mb_capacity target). split; [done|]. by destruct target. }
  pose proof (global_item_spec name cx target i) as H. destruct (merge_global_item _ _ _ _) as [cx1 target1] eqn:E.
  destruct H as [Ho H]. pose proof (global_onward items name cx1 target1) as Hon. specialize (IH cx1 target1).
  unfold merge_into_global in Hon. destruct (foldl _ _ items) as [cx2 target2]. cbn [fst] in Hon.
  destruct H as [Hf|Ht Hc|Ht Hf [-> (l & c & Hadd & ->)]].
  - apply Exhausted. by apply (on_failed _ _ Hon).
  - apply Clashed; [pose proof (on_total _ _ Hon); lia|]. simpl. by rewrite Hc.
  - cbn [add_all]. rewrite Hadd. exact IH.
Qed.

(** ** One statement *)

Lemma Forall2_impl_in {A B} (P Q : A -> B -> Prop) l k :
  Forall2 P l k -> (forall x y, x ∈ l -> P x y -> Q x y) -> Forall2 Q l k.
Proof.
  intros HF. induction HF as [|x y l k Hxy _ IH]; intros H; [constructor|]. constructor; [apply H; [left|done]|].
  apply IH. intros x' y' Hin. apply H. by right.
Qed.

Lemma is_key_eq head label b : is_key head label b = true <-> (mb_head b, mb_label b) = (head, label).
Proof.
  unfold is_key. rewrite andb_true_iff, bytes_eqb_true, same_label_eq. split; [by intros [-> ->]|by intros [= -> ->]].
Qed.

Lemma find_block_spec blocks head label i0 :
  match find_block blocks head label i0 with
  | Some (i, b) => exists j, i = (i0 + j)%nat /\ blocks !! j = Some b /\ (mb_head b, mb_label b) = (head, label)
  | None => Forall (fun b => (mb_head b, mb_label b) <> (head, label)) blocks
  end.
Proof.
  revert i0. induction blocks as [|b blocks IH]; intros i0; cbn [find_block]; [constructor|].
  destruct (is_key head label b) eqn:E.
  - apply is_key_eq in E. exists 0%nat. by rewrite Nat.add_0_r.
  - specialize (IH (S i0)). destruct (find_block blocks head label (S i0)) as [[i b']|].
    + destruct IH as (j & -> & Hj & Hk). exists (S j). split; [lia|]. done.
    + constructor; [|done]. intros Hk. apply is_key_eq in Hk. congruence.
Qed.

Notation block_is l := (fun k b => (mb_head b, mb_label b) = k /\
  settle k l = Some (Some (Settled (mb_span b) (mb_source b) (mb_items b)))).

(** The blocks when the statement is another occurrence of the [i]th. *)
Lemma blocks_update l s k blocks i b b' o :
  Forall2 (block_is l) (block_keys l) blocks -> blocks !! i = Some b -> (mb_head b, mb_label b) = k ->
  occurrence_of k s = Some o -> (mb_head b', mb_label b') = k ->
  settle_one k (Some (Settled (mb_span b) (mb_source b) (mb_items b))) o =
    Some (Settled (mb_span b') (mb_source b') (mb_items b')) ->
  Forall2 (block_is (l ++ [s])) (block_keys (l ++ [s])) (<[i := b']> blocks) /\
  forall k', k' <> k -> settle k' (l ++ [s]) = settle k' l.
Proof.
  intros HF Hb Hk Ho Hk' Hs. pose proof (occurrence_key _ _ _ Ho) as Hkey.
  assert (forall k', k' <> k -> settle k' (l ++ [s]) = settle k' l) as Hother.
  { intros k' Hne. rewrite settle_snoc, (occurrence_other _ _ _ Hkey Hne). by destruct (settle k' l). }
  split; [|done].
  destruct (Forall2_lookup_r _ _ _ _ _ HF Hb) as (k0 & Hk0 & Hk1 & Hset). rewrite Hk in Hk1. subst k0.
  rewrite block_keys_snoc, Hkey. simpl. rewrite decide_True by (by eapply list_elem_of_lookup_2).
  rewrite <- (list_insert_id (block_keys l) i k Hk0) at 1. apply Forall2_same_length_lookup.
  rewrite !length_insert. split; [by eapply Forall2_length|]. intros j kj bj Hkj Hbj.
  destruct (decide (i = j)) as [<-|Hne].
  - rewrite list_lookup_insert_eq in Hkj by (by eapply lookup_lt_Some).
    rewrite list_lookup_insert_eq in Hbj by (by eapply lookup_lt_Some).
    injection Hkj as <-. injection Hbj as <-. split; [done|]. rewrite settle_snoc, Hset, Ho. unfold mbind, option_bind. by rewrite Hs.
  - rewrite list_lookup_insert_ne in Hkj by done. rewrite list_lookup_insert_ne in Hbj by done.
    destruct (Forall2_lookup_lr _ _ _ _ _ _ HF Hkj Hbj) as [H1 H2]. split; [done|]. rewrite Hother; [done|].
    intros ->. apply Hne. by eapply (NoDup_lookup _ _ _ _ (keys_nodup key_of l)).
Qed.

Lemma blocks_append l s k blocks b o :
  Forall2 (block_is l) (block_keys l) blocks -> k ∉ block_keys l ->
  occurrence_of k s = Some o -> (mb_head b, mb_label b) = k ->
  settle_one k None o = Some (Settled (mb_span b) (mb_source b) (mb_items b)) ->
  Forall2 (block_is (l ++ [s])) (block_keys (l ++ [s])) (blocks ++ [b]) /\
  forall k', k' <> k -> settle k' (l ++ [s]) = settle k' l.
Proof.
  intros HF Hk Ho Hkey Hs. pose proof (occurrence_key _ _ _ Ho) as Hko.
  assert (forall k', k' <> k -> settle k' (l ++ [s]) = settle k' l) as Hother.
  { intros k' Hne. rewrite settle_snoc, (occurrence_other _ _ _ Hko Hne). by destruct (settle k' l). }
  split; [|done]. rewrite block_keys_snoc, Hko. simpl. rewrite decide_False by done.
  apply Forall2_app.
  - eapply Forall2_impl_in; [exact HF|]. intros k' b' Hin [H1 H2]. split; [done|]. rewrite Hother; [done|]. by intros ->.
  - constructor; [|constructor]. split; [done|]. rewrite settle_snoc, settle_absent by done. rewrite Ho. unfold mbind, option_bind. by rewrite Hs.
Qed.

Lemma occurrence_own name head label ov items sp :
  occurrence_of (head, label) (name, AST_ITEM_BLOCK head label ov items sp) = Some (Occurrence ov items sp name).
Proof.
  simpl. by rewrite (proj2 (bytes_eqb_true _ _) eq_refl), (proj2 (same_label_eq _ _) eq_refl).
Qed.

Lemma merge_block_spec l cx m head label ov items sp name :
  Forall2 (block_is l) (block_keys l) (mg_blocks m) ->
  let s := (name, AST_ITEM_BLOCK head label ov items sp) in
  let '(cx', m') := merge_block memory cx m head label ov items sp name in
  onward cx cx' /\ mg_assignments m' = mg_assignments m /\
  outcome cx cx'
    (Forall2 (block_is (l ++ [s])) (block_keys (l ++ [s])) (mg_blocks m') /\
     settle (head, label) (l ++ [s]) <> None /\
     forall k, k <> (head, label) -> settle k (l ++ [s]) = settle k l)
    (settle (head, label) (l ++ [s]) = None).
Proof.
  intros HF s. pose proof (occurrence_own name head label ov items sp) as Ho. fold s in Ho.
  set (o := Occurrence ov items sp name) in *. unfold merge_block.
  pose proof (find_block_spec (mg_blocks m) head label 0) as Hfind.
  destruct (find_block (mg_blocks m) head label 0) as [[i b]|].
  - destruct Hfind as (j & -> & Hb & Hk). simpl in Hb |- *.
    destruct (Forall2_lookup_r _ _ _ _ _ HF Hb) as (k0 & _ & Hk1 & Hset). rewrite Hk in Hk1. subst k0.
    assert (forall st, settle_one (head, label) (Some (Settled (mb_span b) (mb_source b) (mb_items b))) o = st ->
      settle (head, label) (l ++ [s]) = Some <$> st) as Hsnoc.
    { intros st <-. rewrite settle_snoc, Hset, Ho. done. }
    destruct ov.
    + pose proof (take_block_spec cx (mb_capacity b) head label items sp name) as Ht.
      destruct (take_block _ _ _ _ _ _ _ _) as [cx' b']. destruct Ht as [Hon [Hf|(-> & Hk' & Hb')]];
        (split; [done|split; [done|]]); [by apply Exhausted|]. apply Fine; [done..|].
      destruct (blocks_update l s _ _ _ _ b' o HF Hb Hk Ho Hk') as [H1 H2]; [simpl; by rewrite Hb'|].
      split; [done|]. split; [|done]. by rewrite (Hsnoc _ eq_refl).
    + destruct (bytes_eqb head GLOBAL) eqn:Eg.
      * pose proof (global_spec items name cx b) as Hg. pose proof (global_onward items name cx b) as Hon.
        destruct (merge_into_global _ _ _ _ _) as [cx' b']. split; [done|]. split; [done|].
        destruct Hg as [Hf|Ht Hc|Ht Hf (its & c & Ha & ->)]; [by apply Exhausted| |].
        -- apply Clashed; [done|]. rewrite (Hsnoc _ eq_refl). simpl. rewrite Eg, Hc. done.
        -- assert (settle_one (head, label) (Some (Settled (mb_span b) (mb_source b) (mb_items b))) o =
             Some (Settled (mb_span b) (mb_source b) its)) as Hone by (simpl; by rewrite Eg, Ha).
           apply Fine; [done..|].
           destruct (blocks_update l s _ _ _ _ (with_items b its c) o HF Hb Hk Ho Hk Hone) as [H1 H2].
           split; [done|]. split; [|done]. by rewrite (Hsnoc _ Hone).
      * unfold say_already. cbv zeta iota.
        match goal with |- context [ncfg_diag memory ?c sp ?t] => destruct (diag_spec c sp t) as [Hon Ht] end.
        split; [eapply onward_trans; [apply onward_source|exact Hon]|]. split; [done|].
        apply Clashed; [rewrite Ht; simpl; lia|]. rewrite (Hsnoc _ eq_refl). simpl. by rewrite Eg.
  - assert ((head, label) ∉ block_keys l) as Hk.
    { intros [j Hj]%list_elem_of_lookup_1. destruct (Forall2_lookup_l _ _ _ _ _ HF Hj) as (b & Hb & Hkb & _).
      rewrite Forall_forall in Hfind. apply (Hfind b); [by eapply list_elem_of_lookup_2|done]. }
    assert (settle (head, label) (l ++ [s]) = Some <$> settle_one (head, label) None o) as Hsnoc.
    { rewrite settle_snoc, settle_absent, Ho by done. done. }
    destruct ov.
    + match goal with |- context [ncfg_diag memory ?c sp ?t] => destruct (diag_spec c sp t) as [Hon Ht] end.
      split; [eapply onward_trans; [apply onward_source|exact Hon]|]. split; [done|].
      apply Clashed; [rewrite Ht; simpl; lia|]. by rewrite Hsnoc.
    + assert (forall c, let '(cx', m') := (let '(cx0, b) := take_block memory cx 0 head label items sp name in
          (cx0, set_blocks m (mg_blocks m ++ [b]) c)) in
        onward cx cx' /\ mg_assignments m' = mg_assignments m /\
        outcome cx cx' (Forall2 (block_is (l ++ [s])) (block_keys (l ++ [s])) (mg_blocks m') /\
          settle (head, label) (l ++ [s]) <> None /\ forall k, k <> (head, label) -> settle k (l ++ [s]) = settle k l)
          (settle (head, label) (l ++ [s]) = None)) as Hadd.
      { intros c. pose proof (take_block_spec cx 0 head label items sp name) as Ht.
        destruct (take_block _ _ _ _ _ _ _ _) as [cx' b]. destruct Ht as [Hon [Hf|(-> & Hk' & Hb')]];
          (split; [done|split; [done|]]); [by apply Exhausted|]. apply Fine; [done..|].
        destruct (blocks_append l s _ _ b o HF Hk Ho Hk') as [H1 H2]; [simpl; by rewrite Hb'|].
        split; [done|]. split; [by rewrite Hsnoc|done]. }
      destruct (doubled _ _) as [want|]; [|apply Hadd]. destruct (memory _) eqn:Em; [apply Hadd|].
      split; [by eapply oom_onward|]. split; [done|]. by apply Exhausted.
Qed.

Lemma merge_block_onward cx m head label ov items sp name :
  onward cx (fst (merge_block memory cx m head label ov items sp name)).
Proof.
  assert (forall sp text, onward cx (ncfg_diag memory (at_source cx name) sp text)) as Hdiag.
  { intros sp' text. eapply onward_trans; [apply onward_source|apply diag_spec]. }
  assert (forall c, onward cx (fst (take_block memory cx c head label items sp name))) as Htake.
  { intros c. pose proof (take_block_spec cx c head label items sp name) as H. destruct (take_block _ _ _ _ _ _ _ _). apply H. }
  unfold merge_block. destruct (find_block _ _ _ _) as [[i b]|].
  - destruct ov; [|destruct (bytes_eqb head GLOBAL)].
    + specialize (Htake (mb_capacity b)). by destruct (take_block _ _ _ _ _ _ _ _).
    + pose proof (global_onward items name cx b) as H. by destruct (merge_into_global _ _ _ _ _).
    + apply Hdiag.
  - destruct ov; [apply Hdiag|]. specialize (Htake 0). destruct (take_block _ _ _ _ _ _ _ _).
    destruct (doubled _ _); [|done]. destruct (memory _) eqn:E; [done|]. by eapply oom_onward.
Qed.

Notation scalar_is l := (fun k a => ma_key a = k /\ last_of k l = Some a).

Lemma replace_scalar_spec l s a as_ :
  scalar_of s = Some a -> Forall2 (scalar_is l) (scalar_keys l) as_ ->
  Forall2 (scalar_is (l ++ [s])) (scalar_keys (l ++ [s])) (default (as_ ++ [a]) (replace_scalar as_ a)).
Proof.
  intros Hs HF. rewrite scalar_keys_snoc, Hs. cbn [fmap option_fmap option_map].
  assert (forall k, last_of k (l ++ [s]) = if bytes_eqb (ma_key a) k then Some a else last_of k l) as Hlast.
  { intros k. by rewrite last_of_snoc, Hs. }
  assert (last_of (ma_key a) (l ++ [s]) = Some a) as Hself by (by rewrite Hlast, (proj2 (bytes_eqb_true _ _) eq_refl)).
  assert (forall k, k <> ma_key a -> last_of k (l ++ [s]) = last_of k l) as Hother.
  { intros k Hne. rewrite Hlast. destruct (bytes_eqb (ma_key a) k) eqn:E; [|done]. by apply bytes_eqb_true in E. }
  pose proof (keys_nodup (fun s => ma_key <$> scalar_of s) l : NoDup (scalar_keys l)) as Hnd.
  revert HF Hnd. generalize (scalar_keys l). intros ks HF.
  assert (NoDup ks -> ma_key a ∈ ks -> exists as', replace_scalar as_ a = Some as' /\
    Forall2 (fun k b => ma_key b = k /\ last_of k (l ++ [s]) = Some b) ks as') as Hin.
  { induction HF as [|k b ks as_ [Hk Hb] HF IH]; intros Hnd Hin; [by apply elem_of_nil in Hin|].
    apply NoDup_cons in Hnd as [Hnot Hnd]. cbn [replace_scalar].
    destruct (bytes_eqb (ma_key b) (ma_key a)) eqn:E.
    - apply bytes_eqb_true in E. assert (k = ma_key a) as -> by congruence. eexists. split; [done|]. constructor; [done|].
      eapply Forall2_impl_in; [exact HF|]. intros k' b' Hin' [H1 H2]. split; [done|]. rewrite Hother; [done|]. by intros ->.
    - assert (k <> ma_key a) as Hne.
      { intros ->. apply not_true_iff_false in E. rewrite bytes_eqb_true in E. done. }
      apply elem_of_cons in Hin as [Hin|Hin]; [done|]. destruct (IH Hnd Hin) as (as' & -> & HF').
      eexists. split; [done|]. constructor; [|done]. split; [done|]. by rewrite Hother. }
  assert (ma_key a ∉ ks -> replace_scalar as_ a = None) as Hout.
  { clear Hin. induction HF as [|k b ks as_ [Hk Hb] HF IH]; intros Hnot; [done|]. cbn [replace_scalar].
    rewrite not_elem_of_cons in Hnot. destruct Hnot as [Hne Hnot].
    destruct (bytes_eqb (ma_key b) (ma_key a)) eqn:E; [apply bytes_eqb_true in E; congruence|]. by rewrite IH. }
  intros Hnd. simpl. case_decide as Hd.
  - destruct (Hin Hnd Hd) as (as' & -> & HF'). done.
  - rewrite (Hout Hd). simpl. apply Forall2_app; [|by repeat constructor].
    eapply Forall2_impl_in; [exact HF|]. intros k' b' Hin' [H1 H2]. split; [done|]. rewrite Hother; [done|]. by intros ->.
Qed.

(** ** The whole merge *)

(** Where the loop stands after the statements [l]. *)
Definition stands (l : list statement) (st : lower_ctx * merged) : Prop :=
  let '(cx, m) := st in
  0 <= cx_total cx /\ (granted -> cx_failed cx = false) /\
  (cx_failed cx = true \/ 0 < cx_total cx /\ ~ accepted l \/
   cx_failed cx = false /\ cx_total cx = 0 /\ accepted l /\ merged_is l m).

Lemma accepted_snoc l s :
  accepted l -> placed s -> (forall k, settle k (l ++ [s]) <> None) -> accepted (l ++ [s]).
Proof. intros [Hp _] Hs Hset. split; [|done]. apply Forall_app. by rewrite Forall_singleton. Qed.

Lemma stands_onward l s cx cx' m m' :
  stands l (cx, m) -> onward cx cx' -> cx_failed cx = true \/ 0 < cx_total cx -> stands (l ++ [s]) (cx', m').
Proof.
  intros (H0 & Hg & Hst) [Ht Hf Hgr] Hbad. split; [lia|]. split; [intros G; rewrite Hgr by done; auto|].
  destruct Hst as [Hst|[[Hst Hn]|(H1 & H2 & _)]]; [left; auto| |].
  - right. left. split; [lia|]. intros Ha. apply Hn. by eapply accepted_prefix.
  - destruct Hbad; [congruence|lia].
Qed.

Lemma scalars_other l s as_ :
  scalar_of s = None -> Forall2 (scalar_is l) (scalar_keys l) as_ ->
  Forall2 (scalar_is (l ++ [s])) (scalar_keys (l ++ [s])) as_.
Proof.
  intros Hs HF. rewrite scalar_keys_snoc, Hs. simpl. eapply Forall2_impl; [exact HF|]. intros k a [H1 H2].
  split; [done|]. by rewrite last_of_snoc, Hs.
Qed.

Lemma blocks_other l s blocks :
  key_of s = None -> Forall2 (block_is l) (block_keys l) blocks ->
  Forall2 (block_is (l ++ [s])) (block_keys (l ++ [s])) blocks /\ forall k, settle k (l ++ [s]) = settle k l.
Proof.
  intros Hs HF. assert (forall k, settle k (l ++ [s]) = settle k l) as Hset.
  { intros k. rewrite settle_snoc. destruct (occurrence_of k s) eqn:E; [apply occurrence_key in E; congruence|].
    by destruct (settle k l). }
  split; [|done]. rewrite block_keys_snoc, Hs. simpl. eapply Forall2_impl; [exact HF|]. intros k b [H1 H2].
  split; [done|]. by rewrite Hset.
Qed.

Lemma merge_item_stands l st name item :
  stands l st -> stands (l ++ [(name, item)]) (merge_item memory name st item).
Proof.
  destruct st as [cx m]. intros Hst. set (s := (name, item)).
  assert (exists cx' m', merge_item memory name (cx, m) item = (cx', m') /\ onward cx cx' /\
    (accepted l -> merged_is l m ->
     outcome cx cx' (accepted (l ++ [s]) /\ merged_is (l ++ [s]) m') (~ accepted (l ++ [s])))) as (cx' & m' & -> & Hon & Hout).
  { assert (forall sp text, ~ placed s -> onward cx (ncfg_diag memory cx sp text) /\
      (accepted l -> merged_is l m -> outcome cx (ncfg_diag memory cx sp text) (accepted (l ++ [s]) /\ merged_is (l ++ [s]) m) (~ accepted (l ++ [s])))) as Hmis.
    { intros sp text Hp. destruct (diag_spec cx sp text) as [Ho Ht]. split; [done|]. intros _ _. apply Clashed; [lia|].
      intros [Ha _]. apply Forall_app in Ha as [_ Ha]. by rewrite Forall_singleton in Ha. }
    destruct item as [head label ov items sp|key value sp|phase body sp|path sp]; simpl merge_item.
    - destruct (merge_block memory cx m head label ov items sp name) as [cx' m'] eqn:E.
      eexists _, _. split; [done|].
      assert (onward cx (at_source cx' name)) as Ho.
      { eapply onward_trans; [|apply onward_source]. pose proof (merge_block_onward cx m head label ov items sp name) as Hb.
        by rewrite E in Hb. }
      split; [done|]. intros Hacc [HF1 HF2]. pose proof (merge_block_spec l cx m head label ov items sp name HF1) as H.
      cbv zeta in H. rewrite E in H. fold s in H. destruct H as (_ & Has & H).
      destruct H as [Hf|Ht Hc|Ht Hf (H1 & H2 & H3)]; [by apply Exhausted|apply Clashed; [done|]|apply Fine; [done..|]].
      + intros [_ Ha]. by apply (Ha (head, label)).
      + split; [|split; [done|rewrite Has; by apply scalars_other]].
        apply accepted_snoc; [done|done|]. intros k. destruct (decide (k = (head, label))) as [->|Hne]; [done|].
        rewrite H3 by done. by apply Hacc.
    - set (a := MergedAssignment key value sp name). unfold merge_assignment.
      assert (accepted l -> merged_is l m -> forall c,
        accepted (l ++ [s]) /\ merged_is (l ++ [s]) (set_assignments m (default (mg_assignments m ++ [a]) (replace_scalar (mg_assignments m) a)) c)) as Hok.
      { intros Hacc [HF1 HF2] c. destruct (blocks_other l s _ eq_refl HF1) as [HB Hset].
        split; [apply accepted_snoc; [done|done|]; intros k; rewrite Hset; by apply Hacc|].
        split; [done|]. by apply (replace_scalar_spec l s a). }
      destruct (replace_scalar (mg_assignments m) a) as [as'|].
      + eexists _, _. split; [done|]. split; [apply onward_refl|]. intros Hacc Hm. apply Fine; [done..|]. by apply Hok.
      + destruct (doubled _ _) as [want|].
        * destruct (memory _) eqn:Em; eexists _, _; (split; [done|]).
          -- split; [apply onward_refl|]. intros Hacc Hm. apply Fine; [done..|]. by apply Hok.
          -- split; [by eapply oom_onward|]. intros _ _. by apply Exhausted.
        * eexists _, _. split; [done|]. split; [apply onward_refl|]. intros Hacc Hm. apply Fine; [done..|]. by apply Hok.
    - eexists _, _. split; [done|]. apply Hmis. simpl. tauto.
    - eexists _, _. split; [done|]. apply Hmis. simpl. tauto. }
  destruct Hst as (H0 & Hg & Hst). pose proof (conj H0 (conj Hg Hst) : stands l (cx, m)) as Hst'.
  destruct Hst as [Hf|[[Ht _]|(Hf & Ht & Hacc & Hm)]]; [eapply stands_onward; eauto..|].
  destruct (Hout Hacc Hm) as [Hf'|Ht' Hc|Ht' Hf' [Ha' Hm']]; destruct Hon as [Hon1 Hon2 Hon3];
    (split; [lia|split; [intros G; rewrite Hon3 by done; done|]]).
  - by left.
  - right. left. split; [lia|done].
  - right. right. split; [congruence|]. split; [lia|done].
Qed.

Lemma merge_items_stands name items l st :
  stands l st -> stands (l ++ map (pair name) items) (foldl (merge_item memory name) st items).
Proof.
  revert l st. induction items as [|i items IH]; intros l st Hst; simpl; [by rewrite app_nil_r|].
  rewrite cons_middle, app_assoc. apply IH. by apply merge_item_stands.
Qed.

Lemma merge_sources_stands sources l st :
  stands l st -> stands (l ++ stream_of sources) (foldl (merge_source memory) st sources).
Proof.
  revert l st. induction sources as [|s sources IH]; intros l st Hst; simpl; [by rewrite app_nil_r|].
  unfold stream_of. cbn [map concat]. rewrite app_assoc. apply IH. apply merge_items_stands. by destruct st.
Qed.

Lemma merge_stands sources :
  stands (stream_of sources) (foldl (merge_source memory) (LowerCtx None [] 0 0 false, Merged [] 0 [] 0) sources).
Proof.
  apply (merge_sources_stands sources []). split; [done|]. split; [done|]. right. right.
  split; [done|]. split; [done|]. split; [|split; constructor]. split; [constructor|done].
Qed.
End Memory.

(** C29: a merge that is handed over is exactly what drop-in precedence means,
    whatever memory was granted. The files' statements, in order, agree; there
    is one block per key, in the order the keys first occur; each block is
    what its own occurrences alone make of it, the last [override] and what
    was opened or added to [global] after it; and for each key assigned there
    is one assignment, the last. So a block or a scalar never depends on the
    other blocks of the files, and memory running out never loses one. *)
Theorem merge_exact memory sources m cx :
  ncfg_merge memory sources = (inr m, cx) -> accepted (stream_of sources) /\ merged_is (stream_of sources) m.
Proof.
  unfold ncfg_merge. destruct (negb _); [done|]. pose proof (merge_stands memory sources) as H.
  destruct (foldl _ _ _) as [cx' m']. destruct H as (H0 & _ & H). destruct (cx_failed cx') eqn:Hf; [done|].
  unfold diags_any. destruct (Z.ltb_spec 0 (cx_total cx')); [done|]. intros [= <- _].
  destruct H as [H|[[H _]|(_ & _ & H)]]; [done|lia|done].
Qed.

(** C39: a set of files is refused only for a reason. Where memory is granted,
    the merge is handed over exactly when every hook and include is inside a
    block, every block defined twice says [override] or is [global], every
    [override] has something to replace, and no two files set one block
    inside [global]; otherwise at least one diagnostic was reported, and the
    sentence is the first one's. *)
Theorem merge_refuses memory sources :
  (forall n, memory n = true) ->
  let '(r, cx) := ncfg_merge memory sources in
  ((exists m, r = inr m) <-> accepted (stream_of sources)) /\
  (~ accepted (stream_of sources) -> 0 < cx_total cx /\
     r = inl match cx_diags cx with d :: _ => error_set (ld_message d) | [] => bytes "the configuration was refused" end).
Proof.
  intros Hm. unfold ncfg_merge. rewrite Hm. cbn [negb]. pose proof (merge_stands memory sources) as H.
  destruct (foldl _ _ _) as [cx' m']. destruct H as (H0 & Hg & H). rewrite (Hg Hm) in *. unfold diags_any.
  destruct H as [H|[[H Hn]|(_ & H & Ha & _)]]; [done| |].
  - rewrite (proj2 (Z.ltb_lt _ _)) by done. split; [|done]. split; [by intros [? ?]|done].
  - rewrite H. simpl. split; [|done]. split; [done|]. intros _. by eexists.
Qed.

(** Two files: the second replaces an interface, adds to [global] and changes
    a scalar. *)
Definition at_line (n : nat) : span := Span 0 0 n 1.
Definition set_to (key : string) (v : Z) (n : nat) : ast_item :=
  AST_ITEM_ASSIGNMENT (bytes key) (AST_NUMBER (at_line n) v) (at_line n).
Definition block_of (head : string) (label : option string) (overrides : bool) (items : list ast_item) (n : nat) : ast_item :=
  AST_ITEM_BLOCK (bytes head) (bytes <$> label) overrides items (at_line n).

Definition base_file : source := Source (Some (bytes "netcfgd.conf"))
  [block_of "global" None false [set_to "confirm_default" 60 2; block_of "dns" None false [] 3] 1;
   block_of "interface" (Some "eth0") false [set_to "mtu" 1500 6] 5; set_to "schema" 1 8].
Definition drop_in : source := Source (Some (bytes "conf.d/10-office.conf"))
  [block_of "interface" (Some "eth0") true [set_to "mtu" 9000 2] 1; set_to "schema" 2 4;
   block_of "global" None false [set_to "confirm_default" 90 6; block_of "control" None false [] 7] 5].

Lemma merge_exact_witness :
  match ncfg_merge (fun _ => true) [base_file; drop_in] with
  | (inr m, _) =>
      accepted (stream_of [base_file; drop_in]) /\ merged_is (stream_of [base_file; drop_in]) m /\
      map (fun b => length (mb_items b)) (mg_blocks m) = [3; 1]%nat /\
      map ma_value (mg_assignments m) = [AST_NUMBER (at_line 4) 2]
  | _ => False
  end.
Proof.
  destruct (ncfg_merge (fun _ => true) [base_file; drop_in]) as [[err|m] cx] eqn:E.
  - vm_compute in E. discriminate.
  - pose proof (merge_exact _ _ _ _ E) as [H1 H2]. split; [exact H1|]. split; [exact H2|].
    vm_compute in E. injection E as <- _. split; reflexivity.
Defined.

Lemma merge_refuses_witness :
  ~ accepted (stream_of [base_file; base_file]) /\ 0 < cx_total (snd (ncfg_merge (fun _ => true) [base_file; base_file])).
Proof.
  pose proof (merge_refuses (fun _ => true) [base_file; base_file] (fun _ => eq_refl)) as H.
  destruct (ncfg_merge (fun _ => true) [base_file; base_file]) as [r cx] eqn:E. destruct H as [H1 H2].
  assert (~ accepted (stream_of [base_file; base_file])) as Hn.
  { intros Ha. apply H1 in Ha as [m ->]. vm_compute in E. discriminate. }
  split; [exact Hn|]. exact (proj1 (H2 Hn)).
Defined.
