(* ===== verification/Scope.v ===== *)
(** * Scope: how far a key of the configuration travels ([c/src/compile/scope.c])

    A key is a block of the language and a dotted path. Each has a scope, from
    the block's default and the table of exceptions, and each that travels has
    a number it is carried under. A path is a C string: the list of its bytes.
    [BLOCK_OUTSIDE] is a value of [int] that is not one of the enum.

    the nearest exception *)
From S2P Require Import Prelude Lex.
#[local] Open Scope Z_scope.

Inductive scope := SCOPE_HOST_PRIVATE | SCOPE_HOST | SCOPE_GROUP | SCOPE_ESTATE.
#[export] Instance scope_eq_dec : EqDecision scope.
Proof. solve_decision. Defined.

Inductive block :=
| BLOCK_GLOBAL | BLOCK_DEVICE | BLOCK_INTERFACE | BLOCK_NETWORK | BLOCK_ACCESS_POINT | BLOCK_BLUETOOTH | BLOCK_RULE | BLOCK_LINKSET
| BLOCK_FIREWALL | BLOCK_MESH | BLOCK_HOST_LIST | BLOCK_DNS_RECORD | BLOCK_BLOCK_LIST
| BLOCK_OUTSIDE (raw : Z).
#[export] Instance block_eq_dec : EqDecision block.
Proof. solve_decision. Defined.

Definition BLOCK_NAMES : list (block * string) :=
  [(BLOCK_GLOBAL, "global"); (BLOCK_DEVICE, "device"); (BLOCK_INTERFACE, "interface"); (BLOCK_NETWORK, "network"); (BLOCK_ACCESS_POINT, "access_point"); (BLOCK_BLUETOOTH, "bluetooth"); (BLOCK_RULE, "rule"); (BLOCK_LINKSET, "linkset"); (BLOCK_FIREWALL, "firewall"); (BLOCK_MESH, "mesh"); (BLOCK_HOST_LIST, "host_list"); (BLOCK_DNS_RECORD, "dns_record"); (BLOCK_BLOCK_LIST, "block_list")].

Definition block_known (b : block) : bool := match b with BLOCK_OUTSIDE _ => false | _ => true end.

Definition block_name (b : block) : string :=
  match find (fun e => bool_decide (fst e = b)) BLOCK_NAMES with Some (_, name) => name | None => "" end.

Definition block_from_name (name : list byte) : option block :=
  fst <$> find (fun e => bytes_eqb name (bytes (snd e))) BLOCK_NAMES.

(** [BLOCK_DEFAULT] behind [ncfg_block_default_scope]. *)
Definition block_default_scope (b : block) : scope :=
  match b with
  | BLOCK_GLOBAL => SCOPE_HOST_PRIVATE
  | BLOCK_DEVICE => SCOPE_HOST_PRIVATE
  | BLOCK_INTERFACE => SCOPE_HOST
  | BLOCK_NETWORK => SCOPE_ESTATE
  | BLOCK_ACCESS_POINT => SCOPE_ESTATE
  | BLOCK_BLUETOOTH => SCOPE_HOST_PRIVATE
  | BLOCK_RULE => SCOPE_GROUP
  | BLOCK_LINKSET => SCOPE_HOST
  | BLOCK_FIREWALL => SCOPE_HOST_PRIVATE
  | BLOCK_MESH => SCOPE_ESTATE
  | BLOCK_HOST_LIST => SCOPE_ESTATE
  | BLOCK_DNS_RECORD => SCOPE_GROUP
  | BLOCK_BLOCK_LIST => SCOPE_GROUP
  | BLOCK_OUTSIDE _ => SCOPE_HOST_PRIVATE
  end.

Definition ALIASES : list (block * string * string) :=
  [(BLOCK_GLOBAL, "dns.dns", "dns");
   (BLOCK_GLOBAL, "dns.servers", "dns");
   (BLOCK_GLOBAL, "dns.dns_search", "dns_search");
   (BLOCK_GLOBAL, "dns.search", "dns_search");
   (BLOCK_GLOBAL, "dns.dns_mode", "dns_mode");
   (BLOCK_GLOBAL, "dns.mode", "dns_mode");
   (BLOCK_GLOBAL, "dns.dns_domains", "dns_domains");
   (BLOCK_GLOBAL, "dns.domains", "dns_domains");
   (BLOCK_INTERFACE, "dns.dns", "dns");
   (BLOCK_INTERFACE, "dns.servers", "dns");
   (BLOCK_INTERFACE, "dns.dns_search", "dns_search");
   (BLOCK_INTERFACE, "dns.search", "dns_search");
   (BLOCK_INTERFACE, "dns.dns_mode", "dns_mode");
   (BLOCK_INTERFACE, "dns.mode", "dns_mode");
   (BLOCK_INTERFACE, "dns.dns_domains", "dns_domains");
   (BLOCK_INTERFACE, "dns.domains", "dns_domains");
   (BLOCK_NETWORK, "dns.servers", "dns.dns");
   (BLOCK_NETWORK, "dns.search", "dns.dns_search");
   (BLOCK_NETWORK, "dns.mode", "dns.dns_mode");
   (BLOCK_NETWORK, "dns.domains", "dns.dns_domains");
   (BLOCK_RULE, "lookup", "table")].

Definition key_canonical (b : block) (path : list byte) : list byte :=
  match find (fun e => let '(b', alias, _) := e in bool_decide (b' = b) && bytes_eqb (bytes alias) path) ALIASES with
  | Some (_, _, canonical) => bytes canonical
  | None => path
  end.

Definition EXCEPTIONS : list (block * string * scope) :=
  [(BLOCK_GLOBAL, "dns", SCOPE_ESTATE);
   (BLOCK_GLOBAL, "dns_mode", SCOPE_ESTATE);
   (BLOCK_GLOBAL, "dns_search", SCOPE_ESTATE);
   (BLOCK_GLOBAL, "dns_domains", SCOPE_ESTATE);
   (BLOCK_GLOBAL, "connectivity", SCOPE_ESTATE);
   (BLOCK_INTERFACE, "mac", SCOPE_HOST_PRIVATE);
   (BLOCK_INTERFACE, "kind", SCOPE_HOST_PRIVATE);
   (BLOCK_INTERFACE, "master", SCOPE_HOST_PRIVATE);
   (BLOCK_INTERFACE, "qdisc", SCOPE_HOST_PRIVATE);
   (BLOCK_INTERFACE, "ethtool", SCOPE_HOST_PRIVATE);
   (BLOCK_INTERFACE, "probe.command", SCOPE_HOST_PRIVATE);
   (BLOCK_INTERFACE, "probe.args", SCOPE_HOST_PRIVATE);
   (BLOCK_INTERFACE, "advertise.backend", SCOPE_HOST_PRIVATE);
   (BLOCK_INTERFACE, "vlans", SCOPE_GROUP);
   (BLOCK_INTERFACE, "nat", SCOPE_GROUP);
   (BLOCK_INTERFACE, "advertise.prefix", SCOPE_GROUP);
   (BLOCK_INTERFACE, "advertise.prefixes", SCOPE_GROUP);
   (BLOCK_INTERFACE, "advertise.lifetime", SCOPE_GROUP);
   (BLOCK_INTERFACE, "advertise.managed", SCOPE_GROUP);
   (BLOCK_INTERFACE, "advertise.other", SCOPE_GROUP);
   (BLOCK_INTERFACE, "advertise.other_config", SCOPE_GROUP);
   (BLOCK_INTERFACE, "dns", SCOPE_ESTATE);
   (BLOCK_INTERFACE, "dns_mode", SCOPE_ESTATE);
   (BLOCK_INTERFACE, "dns_search", SCOPE_ESTATE);
   (BLOCK_INTERFACE, "dns_domains", SCOPE_ESTATE);
   (BLOCK_INTERFACE, "advertise.dns", SCOPE_ESTATE);
   (BLOCK_NETWORK, "hooks", SCOPE_HOST_PRIVATE);
   (BLOCK_ACCESS_POINT, "device", SCOPE_HOST_PRIVATE);
   (BLOCK_MESH, "device", SCOPE_HOST_PRIVATE)].

Definition KINDS : list (block * string * Z) :=
  [(BLOCK_GLOBAL, "dns", 0x00010001);
   (BLOCK_GLOBAL, "dns_mode", 0x00010002);
   (BLOCK_GLOBAL, "dns_search", 0x00010003);
   (BLOCK_GLOBAL, "dns_domains", 0x00010004);
   (BLOCK_GLOBAL, "connectivity.requires", 0x00010005);
   (BLOCK_GLOBAL, "connectivity.ignore", 0x00010006);
   (BLOCK_INTERFACE, "config", 0x00020001);
   (BLOCK_INTERFACE, "routes", 0x00020002);
   (BLOCK_INTERFACE, "mtu", 0x00020003);
   (BLOCK_INTERFACE, "vlans", 0x00020004);
   (BLOCK_INTERFACE, "nat", 0x00020005);
   (BLOCK_INTERFACE, "guard", 0x00020006);
   (BLOCK_INTERFACE, "preference", 0x00020007);
   (BLOCK_INTERFACE, "ipv6_token", 0x00020008);
   (BLOCK_INTERFACE, "enabled", 0x00020009);
   (BLOCK_INTERFACE, "forwarding", 0x0002000a);
   (BLOCK_INTERFACE, "on_drift", 0x0002000b);
   (BLOCK_INTERFACE, "dns", 0x0002000c);
   (BLOCK_INTERFACE, "dns_mode", 0x0002000d);
   (BLOCK_INTERFACE, "dns_search", 0x0002000e);
   (BLOCK_INTERFACE, "dns_domains", 0x0002000f);
   (BLOCK_INTERFACE, "advertise.prefix", 0x00020010);
   (BLOCK_INTERFACE, "advertise.prefixes", 0x00020011);
   (BLOCK_INTERFACE, "advertise.lifetime", 0x00020012);
   (BLOCK_INTERFACE, "advertise.managed", 0x00020013);
   (BLOCK_INTERFACE, "advertise.other", 0x00020014);
   (BLOCK_INTERFACE, "advertise.other_config", 0x00020015);
   (BLOCK_INTERFACE, "advertise.dns", 0x00020016);
   (BLOCK_INTERFACE, "probe.interval", 0x00020017);
   (BLOCK_INTERFACE, "probe.timeout", 0x00020018);
   (BLOCK_INTERFACE, "probe.up_after", 0x00020019);
   (BLOCK_INTERFACE, "probe.down_after", 0x0002001a);
   (BLOCK_INTERFACE, "probe.hold_down", 0x0002001b);
   (BLOCK_INTERFACE, "probe.require_lease", 0x0002001c);
   (BLOCK_INTERFACE, "dot1x.eap", 0x0002001d);
   (BLOCK_INTERFACE, "dot1x.identity", 0x0002001e);
   (BLOCK_INTERFACE, "dot1x.anonymous_identity", 0x0002001f);
   (BLOCK_INTERFACE, "dot1x.password", 0x00020020);
   (BLOCK_INTERFACE, "dot1x.phase2", 0x00020021);
   (BLOCK_INTERFACE, "dot1x.domain_suffix_match", 0x00020022);
   (BLOCK_INTERFACE, "dhcp_server.range", 0x00020023);
   (BLOCK_INTERFACE, "dhcp_server.lease", 0x00020024);
   (BLOCK_INTERFACE, "dhcp_server.dns", 0x00020025);
   (BLOCK_INTERFACE, "dhcp_server.host.mac", 0x00020026);
   (BLOCK_INTERFACE, "dhcp_server.host.address", 0x00020027);
   (BLOCK_INTERFACE, "port_forward.protocol", 0x00020028);
   (BLOCK_INTERFACE, "port_forward.port", 0x00020029);
   (BLOCK_INTERFACE, "port_forward.to", 0x0002002a);
   (BLOCK_INTERFACE, "port_forward.to_port", 0x0002002b);
   (BLOCK_INTERFACE, "port_forward.hairpin", 0x0002002c);
   (BLOCK_NETWORK, "ssid", 0x00030001);
   (BLOCK_NETWORK, "bssid", 0x00030002);
   (BLOCK_NETWORK, "hidden", 0x00030003);
   (BLOCK_NETWORK, "metered", 0x00030004);
   (BLOCK_NETWORK, "metric", 0x00030005);
   (BLOCK_NETWORK, "config", 0x00030006);
   (BLOCK_NETWORK, "routes", 0x00030007);
   (BLOCK_NETWORK, "dns.dns", 0x00030008);
   (BLOCK_NETWORK, "dns.dns_mode", 0x00030009);
   (BLOCK_NETWORK, "dns.dns_search", 0x0003000a);
   (BLOCK_NETWORK, "dns.dns_domains", 0x0003000b);
   (BLOCK_NETWORK, "wifi.proto", 0x0003000c);
   (BLOCK_NETWORK, "wifi.open", 0x0003000d);
   (BLOCK_NETWORK, "wifi.owe", 0x0003000e);
   (BLOCK_NETWORK, "wifi.psk", 0x0003000f);
   (BLOCK_NETWORK, "wifi.eap", 0x00030010);
   (BLOCK_NETWORK, "wifi.identity", 0x00030011);
   (BLOCK_NETWORK, "wifi.anonymous_identity", 0x00030012);
   (BLOCK_NETWORK, "wifi.password", 0x00030013);
   (BLOCK_NETWORK, "wifi.phase2", 0x00030014);
   (BLOCK_NETWORK, "wifi.domain_suffix_match", 0x00030015);
   (BLOCK_NETWORK, "wifi.autoconnect", 0x00030016);
   (BLOCK_NETWORK, "wifi.roam.signal", 0x00030017);
   (BLOCK_NETWORK, "wifi.roam.interval", 0x00030018);
   (BLOCK_NETWORK, "wifi.roam.slow_interval", 0x00030019);
   (BLOCK_ACCESS_POINT, "ssid", 0x00040001);
   (BLOCK_ACCESS_POINT, "hidden", 0x00040002);
   (BLOCK_ACCESS_POINT, "channel", 0x00040003);
   (BLOCK_ACCESS_POINT, "band", 0x00040004);
   (BLOCK_ACCESS_POINT, "regdom", 0x00040005);
   (BLOCK_ACCESS_POINT, "wifi.proto", 0x00040006);
   (BLOCK_ACCESS_POINT, "wifi.open", 0x00040007);
   (BLOCK_ACCESS_POINT, "wifi.owe", 0x00040008);
   (BLOCK_ACCESS_POINT, "wifi.psk", 0x00040009);
   (BLOCK_ACCESS_POINT, "access_control.allow", 0x0004000a);
   (BLOCK_ACCESS_POINT, "access_control.deny", 0x0004000b);
   (BLOCK_ACCESS_POINT, "fast_roaming", 0x0004000c);
   (BLOCK_ACCESS_POINT, "mobility_domain", 0x0004000d);
   (BLOCK_ACCESS_POINT, "wds", 0x0004000e);
   (BLOCK_ACCESS_POINT, "roaming_key", 0x0004000f);
   (BLOCK_ACCESS_POINT, "neighbour_reports", 0x00040010);
   (BLOCK_ACCESS_POINT, "neighbour.channel", 0x00040011);
   (BLOCK_ACCESS_POINT, "steering.signal", 0x00040012);
   (BLOCK_ACCESS_POINT, "steering.band", 0x00040013);
   (BLOCK_ACCESS_POINT, "width", 0x00040014);
   (BLOCK_ACCESS_POINT, "isolate_stations", 0x00040015);
   (BLOCK_MESH, "channel", 0x00070001);
   (BLOCK_MESH, "band", 0x00070002);
   (BLOCK_MESH, "wifi.open", 0x00070003);
   (BLOCK_MESH, "wifi.psk", 0x00070004);
   (BLOCK_HOST_LIST, "mac", 0x00080001);
   (BLOCK_RULE, "family", 0x00050001);
   (BLOCK_RULE, "priority", 0x00050002);
   (BLOCK_RULE, "from", 0x00050003);
   (BLOCK_RULE, "to", 0x00050004);
   (BLOCK_RULE, "iif", 0x00050005);
   (BLOCK_RULE, "oif", 0x00050006);
   (BLOCK_RULE, "fwmark", 0x00050007);
   (BLOCK_RULE, "fwmask", 0x00050008);
   (BLOCK_RULE, "table", 0x00050009);
   (BLOCK_RULE, "suppress_prefixlength", 0x0005000a);
   (BLOCK_RULE, "l3mdev", 0x0005000b);
   (BLOCK_RULE, "action", 0x0005000c);
   (BLOCK_LINKSET, "members", 0x00060001)].

Definition RETIRED : list Z := [0].

Definition NCFG_KIND_NONE : Z := 0.

Definition kind_of (b : block) (path : list byte) : Z :=
  if negb (block_known b) then NCFG_KIND_NONE
  else
    let path := key_canonical b path in
    match find (fun e => let '(b', p, _) := e in bool_decide (b' = b) && bytes_eqb (bytes p) path) KINDS with
    | Some (_, _, kind) => kind
    | None => NCFG_KIND_NONE
    end.

Definition kind_is_taken (kind : Z) : bool :=
  (kind =? NCFG_KIND_NONE) || existsb (fun e => snd e =? kind) KINDS || existsb (Z.eqb kind) RETIRED.

(** [strncmp(exception, path, length)] is 0 and [exception[length]] ends it:
    the exception is the first [length] bytes of the path. *)
Definition exception_for (b : block) (path : list byte) (length_ : nat) : option scope :=
  snd <$> find (fun e => let '(b', p, _) := e in bool_decide (b' = b) && bytes_eqb (bytes p) (take length_ path))
    EXCEPTIONS.

Definition DOT : byte := ".".

(** The inner loop: back until the byte before is a dot, or there is none. *)
Fixpoint back_to_dot (path : list byte) (length_ : nat) : nat :=
  match length_ with
  | O => O
  | S n => match path !! n with
           | Some c => if c =b DOT then S n else back_to_dot path n
           | None => back_to_dot path n
           end
  end.

(** The walk of [ncfg_scope_of] from [length_] on. *)
Fixpoint scope_walk (fuel : nat) (b : block) (path : list byte) (length_ : nat) : scope :=
  match fuel, length_ with
  | S fuel, S _ =>
      match exception_for b path length_ with
      | Some found => found
      | None => scope_walk fuel b path (pred (back_to_dot path length_))
      end
  | _, _ => block_default_scope b
  end.

Definition scope_of (b : block) (path : option (list byte)) : scope :=
  if negb (block_known b) then SCOPE_HOST_PRIVATE
  else
    match path with
    | None => block_default_scope b
    | Some path =>
        let path := key_canonical b path in
        scope_walk (S (length path)) b path (length path)
    end.

(** ** The tables, checked *)

Definition kind_entry_ok (e : block * string * Z) : bool :=
  let '(b, p, kind) := e in
  block_known b && negb (kind =? NCFG_KIND_NONE) && negb (existsb (Z.eqb kind) RETIRED) &&
  bytes_eqb (key_canonical b (bytes p)) (bytes p) &&
  negb (bool_decide (scope_of b (Some (bytes p)) = SCOPE_HOST_PRIVATE)).

Lemma kinds_ok : forallb kind_entry_ok KINDS = true.
Proof. vm_compute. reflexivity. Qed.

Lemma kinds_distinct : NoDup (map snd KINDS).
Proof. apply (bool_decide_eq_true_1 _). vm_compute. reflexivity. Qed.

Lemma exceptions_distinct : NoDup (map fst EXCEPTIONS).
Proof. apply (bool_decide_eq_true_1 _). vm_compute. reflexivity. Qed.

Lemma aliases_end : forallb (fun e => let '(b, _, c) := e in bytes_eqb (key_canonical b (bytes c)) (bytes c)) ALIASES = true.
Proof. vm_compute. reflexivity. Qed.

(** ** Canonical spellings *)

Lemma canonical_idempotent b path : key_canonical b (key_canonical b path) = key_canonical b path.
Proof.
  unfold key_canonical at 2 3. destruct (find _ ALIASES) as [[[b' alias] c]|] eqn:E.
  - apply find_some in E as [Hin Hb]. apply andb_true_iff in Hb as [Hb _]. apply bool_decide_eq_true in Hb as ->.
    pose proof aliases_end as H. rewrite forallb_forall in H. specialize (H _ Hin). simpl in H. by apply bytes_eqb_true in H.
  - unfold key_canonical. by rewrite E.
Qed.

Lemma kind_of_entry b path :
  kind_of b path <> NCFG_KIND_NONE ->
  exists p, In (b, p, kind_of b path) KINDS /\ bytes p = key_canonical b path.
Proof.
  unfold kind_of. destruct (negb (block_known b)); [done|].
  destruct (find _ KINDS) as [[[b' p] kind]|] eqn:E; [|done]. intros _. apply find_some in E as [Hin Hb].
  apply andb_true_iff in Hb as [Hb Hp]. apply bool_decide_eq_true in Hb as ->. apply bytes_eqb_true in Hp. eauto.
Qed.

Lemma nodup_snd {A B} (l : list (A * B)) x y b : NoDup (map snd l) -> In (x, b) l -> In (y, b) l -> x = y.
Proof.
  induction l as [|[a b'] l IH]; intros Hnd Hx Hy; [done|]. simpl in Hnd. apply NoDup_cons in Hnd as [Hnot Hnd].
  assert (forall z, In (z, b') l -> False) as Hno.
  { intros z Hz. apply Hnot. apply (in_map snd) in Hz. by apply list_elem_of_In. }
  destruct Hx as [Hx|Hx], Hy as [Hy|Hy]; simplify_eq; [done|by destruct (Hno _ Hy)|by destruct (Hno _ Hx)|by apply IH].
Qed.

(** A number in the registry has one meaning and is for what may travel.
    Two keys carried under the same number are two spellings of one key; a key
    with a number is not private to the host, so nothing private can ever be
    put in a record; its number is taken and none that was retired; and a
    second spelling has the scope and the number of the first. *)
Theorem kind_registry b path :
  (kind_of b path <> NCFG_KIND_NONE ->
   scope_of b (Some path) <> SCOPE_HOST_PRIVATE /\ kind_is_taken (kind_of b path) = true /\
   ~ In (kind_of b path) RETIRED /\
   forall b' path', kind_of b' path' = kind_of b path -> b' = b /\ key_canonical b' path' = key_canonical b path) /\
  kind_of b (key_canonical b path) = kind_of b path /\
  scope_of b (Some (key_canonical b path)) = scope_of b (Some path).
Proof.
  assert (scope_of b (Some (key_canonical b path)) = scope_of b (Some path)) as Hscope.
  { unfold scope_of. by rewrite canonical_idempotent. }
  split; [|split; [unfold kind_of; by rewrite canonical_idempotent|done]].
  intros Hk. destruct (kind_of_entry b path Hk) as (p & Hin & Hp).
  pose proof kinds_ok as Hok. rewrite forallb_forall in Hok. specialize (Hok _ Hin). unfold kind_entry_ok in Hok.
  rewrite !andb_true_iff, !negb_true_iff in Hok. destruct Hok as [[[[_ _] Hret] _] Hsc].
  rewrite Hp, Hscope in Hsc. apply bool_decide_eq_false in Hsc. split; [done|]. split; [|split].
  - unfold kind_is_taken. rewrite (proj2 (existsb_exists _ KINDS)), orb_true_r; [done|].
    eexists. split; [exact Hin|]. apply Z.eqb_refl.
  - intros Hr. apply not_true_iff_false in Hret. apply Hret, existsb_exists. eexists. split; [exact Hr|]. apply Z.eqb_refl.
  - intros b' path' E. rewrite <- E in Hk. destruct (kind_of_entry b' path' Hk) as (p' & Hin' & Hp'). rewrite E in Hin'.
    pose proof (nodup_snd _ _ _ _ kinds_distinct Hin' Hin) as [= -> ->]. split; [done|]. congruence.
Qed.

Lemma kind_registry_witness :
  kind_of BLOCK_GLOBAL (bytes "dns.servers") = 0x00010001 /\
  scope_of BLOCK_GLOBAL (Some (bytes "dns.servers")) <> SCOPE_HOST_PRIVATE.
Proof.
  split; [vm_compute; reflexivity|].
  apply (proj1 (kind_registry BLOCK_GLOBAL (bytes "dns.servers"))). vm_compute. discriminate.
Defined.

(** ** The nearest exception *)

(** [e] is the path [p] or a block around it. *)
Definition covers (e p : list byte) : Prop := p = e \/ exists rest, p = e ++ DOT :: rest.

Definition excepts (b : block) (e : list byte) (s : scope) : Prop :=
  exists name, In (b, name, s) EXCEPTIONS /\ bytes name = e.

Lemma exception_for_spec b path n :
  match exception_for b path n with
  | Some s => excepts b (take n path) s
  | None => forall s, ~ excepts b (take n path) s
  end.
Proof.
  unfold exception_for. destruct (find _ EXCEPTIONS) as [[[b' name] s]|] eqn:E; simpl.
  - apply find_some in E as [Hin Hb]. apply andb_true_iff in Hb as [Hb Hp].
    apply bool_decide_eq_true in Hb as ->. apply bytes_eqb_true in Hp. by exists name.
  - intros s (name & Hin & Hp). pose proof (find_none _ _ E _ Hin) as H. simpl in H.
    rewrite bool_decide_eq_true_2, Hp, (proj2 (bytes_eqb_true _ _)) in H by done. done.
Qed.

Lemma excepts_unique b e s s' : excepts b e s -> excepts b e s' -> s = s'.
Proof.
  intros (name & Hin & Hn) (name' & Hin' & Hn'). assert (name = name') as <- by (apply bytes_inj; congruence).
  pose proof exceptions_distinct as Hnd. revert Hin Hin' Hnd. generalize EXCEPTIONS. intros l.
  induction l as [|[k v] l IH]; intros Hx Hy Hnd; [done|]. simpl in Hnd. apply NoDup_cons in Hnd as [Hnot Hnd].
  assert (forall v', In (k, v') l -> False) as Hno.
  { intros v' Hz. apply Hnot. apply (in_map fst) in Hz. by apply list_elem_of_In. }
  destruct Hx as [Hx|Hx], Hy as [Hy|Hy]; simplify_eq; [done|by destruct (Hno _ Hy)|by destruct (Hno _ Hx)|by apply IH].
Qed.

(** The end of the path, or a dot. *)
Definition boundary (path : list byte) (n : nat) : Prop := n = length path \/ path !! n = Some DOT.

Lemma covers_boundary e path : covers e path <-> boundary path (length e) /\ take (length e) path = e.
Proof.
  split.
  - intros [->|[rest ->]]; [split; [by left|by apply take_ge]|].
    split; [right; rewrite lookup_app_r by lia; by rewrite Nat.sub_diag|apply take_app_length].
  - intros [[Hb|Hb] He]; [left; rewrite <- He; symmetry; apply take_ge; lia|]. right.
    exists (drop (S (length e)) path). rewrite <- He at 1. symmetry. by apply take_drop_middle.
Qed.

Lemma back_to_dot_spec path n :
  (n <= length path)%nat ->
  (back_to_dot path n <= n)%nat /\
  (forall k, (back_to_dot path n <= k < n)%nat -> path !! k <> Some DOT) /\
  (back_to_dot path n <> 0%nat -> path !! (pred (back_to_dot path n)) = Some DOT).
Proof.
  induction n as [|n IH]; intros Hn; cbn [back_to_dot]; [split; [lia|split; [lia|done]]|].
  destruct IH as (H1 & H2 & H3); [lia|]. destruct (lookup_lt_is_Some_2 path n ltac:(lia)) as [c Hc]. rewrite Hc.
  destruct (byte_eqb_spec c DOT) as [->|Hne]; [split; [lia|split; [lia|done]]|].
  split; [lia|]. split; [|done]. intros k Hk. destruct (decide (k = n)) as [->|]; [congruence|]. apply H2. lia.
Qed.

Lemma scope_walk_spec fuel b path n :
  (n < fuel)%nat -> (n <= length path)%nat -> (n = 0%nat \/ boundary path n) ->
  (forall e s, excepts b e s -> covers e path -> (length e <= n)%nat) ->
  (exists e, excepts b e (scope_walk fuel b path n) /\ covers e path /\
     forall e' s', excepts b e' s' -> covers e' path -> (length e' <= length e)%nat) \/
  (scope_walk fuel b path n = block_default_scope b /\ forall e s, excepts b e s -> covers e path -> e = []).
Proof.
  revert n. induction fuel as [|fuel IH]; intros n Hf Hn Hb Hmax; [lia|]. destruct n as [|n].
  { right. split; [done|]. intros e s He Hc. specialize (Hmax e s He Hc). destruct e; [done|simpl in Hmax; lia]. }
  cbn [scope_walk]. destruct Hb as [Hb|Hb]; [done|]. pose proof (exception_for_spec b path (S n)) as Hx.
  destruct (exception_for b path (S n)) as [s|].
  - left. exists (take (S n) path). split; [done|]. rewrite covers_boundary. rewrite length_take_le by lia.
    split; [done|]. intros e' s' He' Hc'. by eapply Hmax.
  - destruct (back_to_dot_spec path (S n) Hn) as (H1 & H2 & H3). set (m := back_to_dot path (S n)) in *.
    apply IH; [lia|lia| |].
    + destruct (decide (m = 0%nat)) as [->|Hm]; [by left|right; right]. by apply H3.
    + intros e s He Hc. pose proof (Hmax e s He Hc) as Hle. pose proof Hc as Hc'. apply covers_boundary in Hc' as [He1 He2].
      destruct (decide (length e = S n)) as [El|El]; [exfalso; apply (Hx s); rewrite <- El, He2; exact He|].
      destruct He1 as [He1|He1]; [lia|]. destruct (decide (m <= length e)%nat) as [Hm|Hm]; [|lia].
      by destruct (H2 (length e) ltac:(lia)).
Qed.

(** The scope of a key is that of the nearest exception around it. It is
    the scope of the longest path of the table that is the key or a block
    around it, in its canonical spelling; where the table names none, it is
    its block's default; and a block this build does not know publishes
    nothing. *)
Theorem scope_nearest b path :
  block_known b = true ->
  let p := key_canonical b path in
  (exists e, excepts b e (scope_of b (Some path)) /\ covers e p /\
     forall e' s', excepts b e' s' -> covers e' p -> (length e' <= length e)%nat) \/
  (scope_of b (Some path) = block_default_scope b /\ forall e s, excepts b e s -> ~ covers e p).
Proof.
  intros Hb p. unfold scope_of. rewrite Hb. cbn [negb]. fold p.
  destruct (scope_walk_spec (S (length p)) b p (length p)) as [H|[H1 H2]]; [lia|lia|right; by left| |by left|].
  { intros e s _ [->|[rest ->]]; [done|]. rewrite length_app. lia. }
  right. split; [done|]. intros e s He Hc. specialize (H2 e s He Hc) as ->.
  destruct He as (name & Hin & Hn). assert (forallb (fun e => negb (bytes_eqb (bytes (snd (fst e))) [])) EXCEPTIONS = true) as Hne
    by (vm_compute; reflexivity). rewrite forallb_forall in Hne. specialize (Hne _ Hin). simpl in Hne. by rewrite Hn in Hne.
Qed.

Lemma scope_nearest_witness :
  scope_of BLOCK_INTERFACE (Some (bytes "kind.bridge.members")) = SCOPE_HOST_PRIVATE /\
  ((exists e, excepts BLOCK_INTERFACE e (scope_of BLOCK_INTERFACE (Some (bytes "kind.bridge.members"))) /\
     covers e (key_canonical BLOCK_INTERFACE (bytes "kind.bridge.members")) /\
     forall e' s', excepts BLOCK_INTERFACE e' s' -> covers e' (key_canonical BLOCK_INTERFACE (bytes "kind.bridge.members")) ->
       (length e' <= length e)%nat) \/
   (scope_of BLOCK_INTERFACE (Some (bytes "kind.bridge.members")) = block_default_scope BLOCK_INTERFACE /\
    forall e s, excepts BLOCK_INTERFACE e s -> ~ covers e (key_canonical BLOCK_INTERFACE (bytes "kind.bridge.members")))).
Proof.
  split; [vm_compute; reflexivity|].
  apply (scope_nearest BLOCK_INTERFACE (bytes "kind.bridge.members")). reflexivity.
Defined.

(** The certificates of wired 802.1X are at the scope of their block, the
    host's, and have no number. *)
Lemma dot1x_certificates :
  Forall (fun key => scope_of BLOCK_INTERFACE (Some (bytes key)) = SCOPE_HOST /\
                     kind_of BLOCK_INTERFACE (bytes key) = NCFG_KIND_NONE)
    ["dot1x.ca_cert"; "dot1x.client_cert"; "dot1x.private_key"].
Proof. repeat constructor; vm_compute; reflexivity. Qed.
