(* ===== verification/Value.v ===== *)
(** * Value: the small values of the model ([model/value.c])

    Closed word sets, IP addresses with an optional prefix length, the network
    an address names, an address derived from a delegated prefix, and hardware
    addresses.  A text is the bytes before its NUL, [None] where the source
    accepts a NULL; an octet is an integer below 256.  A call that answers 0
    and a sentence is [None] here; the sentences are not modelled.

    [inet_pton] and [inet_ntop] are the C library's: they are the operations of
    the class [Inet], and what the code relies on is the class [InetLaws]. *)
From S2P Require Import Prelude Lex Op Wire.
#[local] Open Scope Z_scope.

(** ** Closed sets, as tables *)

Definition hook_phase_names : list string :=
  ["pre_up"; "up"; "post_up"; "pre_down"; "down"; "post_down";
   "carrier"; "lease"; "roam"; "portal"; "drift"].
Definition rule_action_names : list string := ["lookup"; "blackhole"; "unreachable"; "prohibit"].
Definition rule_family_names : list string := ["inet"; "inet6"].
Definition bluetooth_profile_names : list string :=
  ["a2dp-sink"; "a2dp-source"; "hfp"; "pan"; "nap"].
Definition drift_policy_names : list string := ["report"; "reconcile"; "ignore"].
Definition dns_mode_names : list string :=
  ["none"; "write_resolv_conf"; "resolvconf"; "openresolv"; "resolved"; "dnsmasq"; "unbound"; "exec"].

(** [name_of]: the cast to [unsigned int] puts a negative value past the end. *)
Definition name_of (names : list string) (which : Z) : option string :=
  let which := u32 which in
  if which >=? zlen names then None else names !! Z.to_nat which.

(** The loop of [value_of]. *)
Fixpoint word_index (names : list string) (word : string) (i : Z) : option Z :=
  match names with
  | [] => None
  | n :: rest => if bool_decide (n = word) then Some i else word_index rest word (i + 1)
  end.

Definition value_of (names : list string) (word : option string) : option Z :=
  match word with Some w => word_index names w 0 | None => None end.

(** The pairs [ncfg_<set>_name] and [ncfg_<set>_from_name]. *)
Definition hook_phase_word (phase : Z) := name_of hook_phase_names phase.
Definition hook_phase_from_name (name : option string) := value_of hook_phase_names name.
Definition rule_action_name (action : Z) := name_of rule_action_names action.
Definition rule_action_from_name (name : option string) := value_of rule_action_names name.
Definition rule_family_name (family : Z) := name_of rule_family_names family.
Definition rule_family_from_name (name : option string) := value_of rule_family_names name.
Definition bluetooth_profile_name (profile : Z) := name_of bluetooth_profile_names profile.
Definition bluetooth_profile_from_name (name : option string) := value_of bluetooth_profile_names name.
Definition drift_policy_name (policy : Z) := name_of drift_policy_names policy.
Definition drift_policy_from_name (name : option string) := value_of drift_policy_names name.
Definition dns_mode_name (mode : Z) := name_of dns_mode_names mode.

(** The mode with an alias: the file's own name. *)
Definition dns_mode_from_name (name : option string) : option Z :=
  if bool_decide (name = Some "resolv.conf") then Some 1 else value_of dns_mode_names name.

(** ** Addresses *)

Record address := Address {
  ad_is_ipv6 : bool; ad_bytes : list Z; ad_has_prefix : bool; ad_prefix : Z }.

#[export] Instance address_eq_dec : EqDecision address.
Proof. solve_decision. Defined.

(** How many octets of [bytes[16]] a family uses, and its longest prefix. *)
Definition width (is_ipv6 : bool) : nat := if is_ipv6 then 16 else 4.
Definition max_prefix (is_ipv6 : bool) : Z := if is_ipv6 then 128 else 32.

Definition octets (l : list Z) : Prop := Forall (fun x => 0 <= x < 256) l.

(** The C library's two conversions; the flag is [AF_INET6]. *)
Class Inet := {
  inet_pton : bool -> list byte -> option (list Z);
  inet_ntop : bool -> list Z -> option (list byte) }.

Definition INET6_ADDRSTRLEN : nat := 46.

(** What the code relies on: what is parsed is an address of the family, and
    an address is printed as a text that is parsed back, fits, has a colon
    exactly for IPv6, and has no slash. *)
Class InetLaws (I : Inet) : Prop := {
  pton_octets v6 text out :
    inet_pton v6 text = Some out -> length out = width v6 /\ octets out;
  ntop_parses v6 l :
    length l = width v6 -> octets l ->
    exists text, inet_ntop v6 l = Some text /\ inet_pton v6 text = Some l /\
      text <> [] /\ (length text < INET6_ADDRSTRLEN)%nat /\
      (bool_decide (":"%byte ∈ text) = v6) /\ "/"%byte ∉ text }.

(** [strchr]: what is before the first [c], and what is after it. *)
Fixpoint split_at_byte (c : byte) (s : list byte) : list byte * option (list byte) :=
  match s with
  | [] => ([], None)
  | b :: rest =>
      if b =b c then ([], Some rest)
      else let '(l, r) := split_at_byte c rest in (b :: l, r)
  end.

Definition has_byte (c : byte) (s : list byte) : bool := existsb (fun b => b =b c) s.

(** The loop that steps over leading zeros, all but the last character. *)
Fixpoint skip_zeros (s : list byte) : list byte :=
  match s with
  | b :: rest =>
      if (b =b "0") && negb (length rest =? 0)%nat then skip_zeros rest else s
  | [] => s
  end.

(** The prefix length after the slash. *)
Fixpoint prefix_digits (acc : Z) (s : list byte) : option Z :=
  match s with
  | [] => Some acc
  | b :: rest =>
      if (bz b <? bz "0") || (bz b >? bz "9") then None
      else prefix_digits (u32 (acc * 10 + (bz b - bz "0"))) rest
  end.

Definition parse_prefix (is_ipv6 : bool) (after : list byte) : option Z :=
  let digits := skip_zeros after in
  if (length digits =? 0)%nat || (3 <? length digits)%nat then None
  else
    match prefix_digits 0 digits with
    | None => None
    | Some p => if p >? max_prefix is_ipv6 then None else Some p
    end.

Definition ADDRESS_MAX : Z := 50.

Section WithInet.
Context {I : Inet}.

(** [memset] and then [inet_pton] into the first octets. *)
Definition stored (l : list Z) : list Z := l ++ replicate (16 - length l) 0.

(** [ncfg_address_parse]. *)
Definition address_parse (text : option (list byte)) : option address :=
  match text with
  | None | Some [] => None
  | Some t =>
      let '(plain, slash) := split_at_byte "/" t in
      if (length plain =? 0)%nat || (INET6_ADDRSTRLEN <=? length plain)%nat then None
      else
        let v6 := has_byte ":" plain in
        match inet_pton v6 plain with
        | None => None
        | Some l =>
            match slash with
            | None => Some (Address v6 (stored l) false 0)
            | Some after =>
                match parse_prefix v6 after with
                | None => None
                | Some p => Some (Address v6 (stored l) true p)
                end
            end
        end
  end.

(** [ncfg_address_render]; [snprintf] is refused when it did not fit. *)
Definition address_render (a : address) (out_size : Z) : option (list byte) :=
  if out_size <? ADDRESS_MAX then None
  else if ad_has_prefix a && (ad_prefix a >? max_prefix (ad_is_ipv6 a)) then None
  else
    match inet_ntop (ad_is_ipv6 a) (take (width (ad_is_ipv6 a)) (ad_bytes a)) with
    | None => None
    | Some plain =>
        let out := if ad_has_prefix a then plain ++ "/"%byte :: num (ad_prefix a) else plain in
        if zlen out >=? out_size then None else Some out
    end.

(** [ncfg_address_canonical]. *)
Definition address_canonical (text : option (list byte)) (out_size : Z) : option (list byte) :=
  match address_parse text with
  | None => None
  | Some a => address_render a out_size
  end.

(** [ncfg_addresses_same_family]: asked of the colon alone. *)
Definition addresses_same_family (one other : option (list byte)) : bool :=
  match one, other with
  | Some a, Some b => Bool.eqb (negb (has_byte ":" a)) (negb (has_byte ":" b))
  | _, _ => true
  end.

(** The mask of [ncfg_address_network_of] for octet [i]. *)
Definition network_mask (prefix i : Z) : Z :=
  let bits := i * 8 in
  if prefix >=? bits + 8 then 255
  else if prefix <=? bits then 0
  else u8 (Z.shiftl 255 (8 - (prefix - bits))).

(** Its loop over the octets of the family. *)
Definition mask_octets (v6 : bool) (prefix : Z) (l : list Z) : list Z :=
  imap (fun i x => if (i <? width v6)%nat then u8 (Z.land x (network_mask prefix (Z.of_nat i))) else x) l.

(** [ncfg_address_network_of]: 1 for a network, 0 for host bits, -1 for
    neither, with what was written to [out]. *)
Definition address_network_of (text : option (list byte)) (out_size : Z) : Z * option (list byte) :=
  match text with
  | None => (-1, None)
  | Some t =>
      if negb (has_byte "/" t) then (-1, None)
      else
        match address_parse text with
        | None => (-1, None)
        | Some a =>
            if negb (ad_has_prefix a) then (-1, None)
            else
              let masked := mask_octets (ad_is_ipv6 a) (ad_prefix a) (ad_bytes a) in
              let same := bool_decide (masked = ad_bytes a) in
              match address_render (Address (ad_is_ipv6 a) masked true (ad_prefix a)) out_size with
              | None => (-1, None)
              | Some out => ((if same then 1 else 0), Some out)
              end
        end
  end.

(** [0x80u >> (i % 8u)]. *)
Definition bit_mask (i : Z) : Z := Z.shiftr 128 (i mod 8).

Definition clear_bit (l : list Z) (i : Z) : list Z :=
  alter (fun x => u8 (Z.land x (Z.lxor (2 ^ 32 - 1) (bit_mask i)))) (Z.to_nat (i / 8)) l.

Definition set_bit (l : list Z) (i : Z) : list Z :=
  alter (fun x => u8 (Z.lor x (bit_mask i))) (Z.to_nat (i / 8)) l.

(** [keep_top_bits]. *)
Definition keep_top_bits (bytes : list Z) (len : Z) : list Z :=
  foldl (fun l i => if i >=? len then clear_bit l i else l) bytes (seqZ 0 128).

(** The selector: bit [bit] of the subnet goes to [host_prefix - 1 - bit]. *)
Definition put_subnet_bit (subnet host_prefix : Z) (l : option (list Z)) (bit : Z) : option (list Z) :=
  match l with
  | None => None
  | Some l =>
      if Z.land (Z.shiftr subnet bit) 1 =? 0 then Some l
      else if u32 (bit + 1) >? host_prefix then None
      else Some (set_bit l (host_prefix - 1 - bit))
  end.

(** The host part: what the suffix sets below the sub-prefix. *)
Definition put_host_bit (host : list Z) (l : list Z) (bit : Z) : list Z :=
  if Z.land (host !!! Z.to_nat (bit / 8)) (bit_mask bit) =? 0 then l else set_bit l bit.

(** [ncfg_address_from_delegation]. *)
Definition address_from_delegation (delegation : option (list byte)) (subnet : Z)
    (suffix : option (list byte)) (out_size : Z) : option (list byte) :=
  match delegation, suffix with
  | Some _, Some _ =>
      match address_parse delegation with
      | None => None
      | Some block =>
          if negb (ad_is_ipv6 block) || negb (ad_has_prefix block) then None
          else
            match address_parse suffix with
            | None => None
            | Some host =>
                if negb (ad_is_ipv6 host) || negb (ad_has_prefix host) then None
                else if ad_prefix host <? ad_prefix block then None
                else if (subnet <? 0) || (subnet >? 65535) then None
                else
                  let spare := ad_prefix host - ad_prefix block in
                  if (spare <? 16) && (u64 subnet >=? Z.shiftl 1 spare) then None
                  else
                    let bytes := keep_top_bits (ad_bytes block) (ad_prefix block) in
                    match foldl (put_subnet_bit subnet (ad_prefix host)) (Some bytes) (seqZ 0 16) with
                    | None => None
                    | Some bytes =>
                        let bytes :=
                          foldl (put_host_bit (ad_bytes host)) bytes
                            (seqZ (ad_prefix host) (128 - ad_prefix host)) in
                        address_render (Address true bytes true (ad_prefix host)) out_size
                    end
            end
      end
  | _, _ => None
  end.

(** [same_prefix] of [plan/address.c]: [memcmp] of the whole octets, then the
    bits of the one the prefix ends in. *)
Definition same_prefix (left right : list Z) (prefix : Z) : bool :=
  let whole := Z.to_nat (prefix / 8) in
  let remainder := prefix mod 8 in
  if negb (whole =? 0)%nat && negb (bool_decide (take whole left = take whole right)) then false
  else if remainder =? 0 then true
  else
    let mask := u8 (Z.shiftl 255 (8 - remainder)) in
    Z.land (left !!! whole) mask =? Z.land (right !!! whole) mask.

(** [ncfg_plan_subnet_contains]. *)
Definition subnet_contains (network_cidr candidate : option (list byte)) : bool :=
  match network_cidr, candidate with
  | Some _, Some _ =>
      match address_parse network_cidr, address_parse candidate with
      | Some network, Some other =>
          if negb (ad_has_prefix network) then false
          else if negb (Bool.eqb (ad_is_ipv6 network) (ad_is_ipv6 other)) then false
          else same_prefix (ad_bytes network) (ad_bytes other) (ad_prefix network)
      | _, _ => false
      end
  | _, _ => false
  end.

(** [ncfg_plan_address_equal]: by what the texts mean, or by text where one of
    them is not an address. *)
Definition plan_address_equal (left right : option (list byte)) : bool :=
  match left, right with
  | Some l, Some r =>
      match address_canonical left ADDRESS_MAX, address_canonical right ADDRESS_MAX with
      | Some first, Some second => bool_decide (first = second)
      | _, _ => bool_decide (l = r)
      end
  | None, None => true
  | _, _ => false
  end.

End WithInet.

(** [ncfg_roam_signal_in_range] and [ncfg_roam_intervals_ordered]. *)
Definition roam_signal_in_range (signal : Z) : bool := (signal >=? -100) && (signal <=? -1).
Definition roam_intervals_ordered (interval slow_interval : Z) : bool := interval <=? slow_interval.

(** ** Hardware addresses *)

(** [hex_value], -1 for what is not a digit. *)
Definition hex_value (one : byte) : Z :=
  if byte_between "0" "9" one then bz one - bz "0"
  else if byte_between "a" "f" one then bz one - bz "a" + 10
  else if byte_between "A" "F" one then bz one - bz "A" + 10
  else -1.

Definition hex_digits_upper : list byte := bytes "0123456789ABCDEF".

Definition hex_digit (value : Z) : byte := nth (Z.to_nat (Z.land value 15)) hex_digits_upper x00.

Definition is_blank (one : byte) : bool :=
  (one =b " ") || (one =b x09) || (one =b x0a) || (one =b x0b) || (one =b x0c) || (one =b x0d).

Definition HARDWARE_ADDRESS_MAX : Z := 18.

(** [hardware_room]. *)
Definition hardware_room (out_size : Z) : bool := negb (out_size <? HARDWARE_ADDRESS_MAX).

(** [write_octets]: the colon of the last octet is where the NUL goes. *)
Definition octet_text (v : Z) : list byte := [hex_digit (Z.shiftr v 4); hex_digit v; ":"%byte].

Definition write_octets (values : list Z) : list byte := take 17 (values ≫= octet_text).

(** One octet of [ncfg_hardware_address_strict], at index [octet * 3]. *)
Definition strict_octet (text : list byte) (octet : nat) : option Z :=
  let at_ := (octet * 3)%nat in
  let high := hex_value (nth at_ text x00) in
  let low := hex_value (nth (at_ + 1) text x00) in
  if (high <? 0) || (low <? 0) ||
     ((octet <? 5)%nat && negb (nth (at_ + 2) text x00 =b ":")) then None
  else Some (Z.lor (Z.shiftl high 4) low).

(** [ncfg_hardware_address_strict]. *)
Definition hardware_address_strict (text : option (list byte)) (out_size : Z) : option (list byte) :=
  if negb (hardware_room out_size) then None
  else
    match text with
    | None => None
    | Some t =>
        if negb (length t =? 17)%nat then None
        else
          match mapM (strict_octet t) (seq 0 6) with
          | None => None
          | Some values => Some (write_octets values)
          end
    end.

(** The state of the loop of [ncfg_hardware_address_typed]: [values], [seen],
    [high]. *)
Record typed_state := Typed { ty_values : list Z; ty_seen : Z; ty_high : Z }.

Definition typed_step (s : typed_state) (one : byte) : option typed_state :=
  if (one =b ":") || (one =b "-") then Some s
  else
    let value := hex_value one in
    if value <? 0 then None
    else
      let s' :=
        if ty_seen s <? 12 then
          if ty_seen s mod 2 =? 0 then Typed (ty_values s) (ty_seen s) value
          else
            Typed (<[ Z.to_nat (ty_seen s / 2) := Z.lor (Z.shiftl (ty_high s) 4) value ]> (ty_values s))
              (ty_seen s) (ty_high s)
        else s in
      Some (Typed (ty_values s') (ty_seen s' + 1) (ty_high s')).

Fixpoint typed_loop (s : typed_state) (text : list byte) : option typed_state :=
  match text with
  | [] => Some s
  | b :: rest => match typed_step s b with None => None | Some s' => typed_loop s' rest end
  end.

(** The two loops that trim. *)
Fixpoint skip_blanks (s : list byte) : list byte :=
  match s with
  | b :: rest => if is_blank b then skip_blanks rest else s
  | [] => []
  end.

Definition trimmed (s : list byte) : list byte := rev (skip_blanks (rev (skip_blanks s))).

(** [ncfg_hardware_address_typed]; [values] starts uninitialised, as whatever
    [junk] is. *)
Definition hardware_address_typed (junk : list Z) (text : option (list byte)) (out_size : Z)
    : option (list byte) :=
  if negb (hardware_room out_size) then None
  else
    match typed_loop (Typed junk 0 0) (trimmed (default [] text)) with
    | None => None
    | Some s => if negb (ty_seen s =? 12) then None else Some (write_octets (ty_values s))
    end.
