(* ===== verification/ValueSpec.v ===== *)
(** * ValueSpec: addresses as bits

    Bit [i] of an address, counted from the left, and what the bit operations
    of [model/value.c] do to it.

    Printing an address and reading it give each other back, two spellings are
    equal exactly when they mean one address, the derived address has the bits
    it should, and the two hardware address readers agree.

    What [ncfg_address_from_delegation] carves out of a delegated prefix. *)
From S2P Require Import Prelude Lex LexFacts Op Wire Decimal Value.
#[local] Open Scope Z_scope.

(** Bit [i] of a big-endian run of octets. *)
Definition bit (l : list Z) (i : Z) : bool := Z.testbit (l !!! Z.to_nat (i / 8)) (7 - i mod 8).

(** Sixteen octets, what [bytes[16]] holds. *)
Definition sixteen (l : list Z) : Prop := length l = 16%nat /\ octets l.

Lemma testbit_u8 x k : 0 <= k -> Z.testbit (u8 x) k = (k <? 8) && Z.testbit x k.
Proof. intros Hk. unfold u8. destruct (Z.ltb_spec k 8); [by apply Z.mod_pow2_bits_low|by apply Z.mod_pow2_bits_high]. Qed.

Lemma u8_range x : 0 <= u8 x < 256.
Proof. unfold u8. apply (Z.mod_pos_bound x (2 ^ 8)). lia. Qed.

Lemma bit_mask_pow i : bit_mask i = 2 ^ (7 - i mod 8).
Proof.
  unfold bit_mask. pose proof (Z.mod_pos_bound i 8 ltac:(lia)) as H. change 128 with (2 ^ 7).
  rewrite Z.shiftr_div_pow2 by lia. by rewrite <- Z.pow_sub_r by lia.
Qed.

Lemma testbit_bit_mask i k : 0 <= k -> Z.testbit (bit_mask i) k = (k =? 7 - i mod 8).
Proof.
  intros Hk. rewrite bit_mask_pow. pose proof (Z.mod_pos_bound i 8 ltac:(lia)) as H.
  destruct (Z.eqb_spec k (7 - i mod 8)) as [->|Hne]; [apply Z.pow2_bits_true; lia|apply Z.pow2_bits_false; lia].
Qed.

Lemma octets_lookup_total l n : octets l -> 0 <= l !!! n < 256.
Proof.
  intros H. destruct (l !! n) as [x|] eqn:E.
  - rewrite (list_lookup_total_correct _ _ _ E). exact (Forall_lookup_1 _ _ _ _ H E).
  - rewrite list_lookup_total_alt, E. simpl. change (@inhabitant Z _) with 0. lia.
Qed.

(** A byte at index [i / 8], changed, seen through [bit]. *)
Lemma bit_alter l f i j :
  length l = 16%nat -> 0 <= i < 128 -> 0 <= j < 128 ->
  bit (alter f (Z.to_nat (i / 8)) l) j =
    if i / 8 =? j / 8 then Z.testbit (f (l !!! Z.to_nat (j / 8))) (7 - j mod 8) else bit l j.
Proof.
  intros Hl Hi Hj. unfold bit.
  assert (0 <= i / 8 < 16) as Hi8 by zdiv. assert (0 <= j / 8 < 16) as Hj8 by zdiv.
  rewrite !list_lookup_total_alt. destruct (Z.eqb_spec (i / 8) (j / 8)) as [E|E].
  - rewrite E, list_lookup_alter, decide_True by done.
    destruct (lookup_lt_is_Some_2 l (Z.to_nat (j / 8)) ltac:(lia)) as [x Hx]. by rewrite Hx.
  - by rewrite list_lookup_alter_ne by lia.
Qed.

Lemma same_bit i j : 0 <= i -> 0 <= j -> (i / 8 =? j / 8) && (7 - j mod 8 =? 7 - i mod 8) = (i =? j).
Proof.
  intros Hi Hj. destruct (Z.eqb_spec i j) as [->|Hne]; [by rewrite !Z.eqb_refl|].
  apply andb_false_iff. destruct (Z.eqb_spec (i / 8) (j / 8)) as [E|E]; [right|by left].
  apply Z.eqb_neq. zdiv.
Qed.

Lemma bit_set l i j :
  length l = 16%nat -> 0 <= i < 128 -> 0 <= j < 128 -> bit (set_bit l i) j = (i =? j) || bit l j.
Proof.
  intros Hl Hi Hj. unfold set_bit. rewrite bit_alter by done. rewrite <- (same_bit i j) by lia.
  pose proof (Z.mod_pos_bound j 8 ltac:(lia)) as Hm. destruct (i / 8 =? j / 8); [|done].
  rewrite testbit_u8, Z.lor_spec, testbit_bit_mask by lia.
  replace (7 - j mod 8 <? 8) with true by (symmetry; apply Z.ltb_lt; lia). cbn. by rewrite orb_comm.
Qed.

Lemma bit_clear l i j :
  length l = 16%nat -> 0 <= i < 128 -> 0 <= j < 128 -> bit (clear_bit l i) j = negb (i =? j) && bit l j.
Proof.
  intros Hl Hi Hj. unfold clear_bit. rewrite bit_alter by done. rewrite <- (same_bit i j) by lia.
  pose proof (Z.mod_pos_bound j 8 ltac:(lia)) as Hm. destruct (i / 8 =? j / 8); [|done].
  rewrite testbit_u8, Z.land_spec, Z.lxor_spec, testbit_bit_mask by lia.
  replace (7 - j mod 8 <? 8) with true by (symmetry; apply Z.ltb_lt; lia).
  change (2 ^ 32 - 1) with (Z.ones 32). rewrite Z.ones_spec_low by lia. cbn.
  by rewrite andb_comm.
Qed.

Lemma sixteen_alter_u8 f n l : sixteen l -> sixteen (alter (fun x => u8 (f x)) n l).
Proof.
  intros [Hl Ho]. split; [by rewrite length_alter|]. unfold octets.
  apply Forall_lookup_2. intros i x Hx. destruct (decide (n = i)) as [<-|Hne].
  - rewrite list_lookup_alter, decide_True in Hx by done. destruct (l !! n) as [y|]; simplify_eq/=. apply u8_range.
  - rewrite list_lookup_alter_ne in Hx by done. exact (Forall_lookup_1 _ _ _ _ Ho Hx).
Qed.

Lemma sixteen_set l i : sixteen l -> sixteen (set_bit l i).
Proof. apply (sixteen_alter_u8 (fun x => Z.lor x (bit_mask i))). Qed.

Lemma sixteen_clear l i : sixteen l -> sixteen (clear_bit l i).
Proof. apply (sixteen_alter_u8 (fun x => Z.land x (Z.lxor (2 ^ 32 - 1) (bit_mask i)))). Qed.

#[export] Hint Resolve sixteen_set sixteen_clear : ncfg.

Lemma testbit_high x k : 0 <= x < 256 -> 8 <= k -> Z.testbit x k = false.
Proof.
  intros Hx Hk. apply Z.bits_above_log2; [lia|]. destruct (Z.eq_dec x 0) as [->|]; [cbn; lia|].
  assert (Z.log2 x < 8) by (apply Z.log2_lt_pow2; lia). lia.
Qed.

(** Two octets are the same when their eight bits are. *)
Lemma octet_ext x y :
  0 <= x < 256 -> 0 <= y < 256 -> (forall k, 0 <= k < 8 -> Z.testbit x k = Z.testbit y k) -> x = y.
Proof.
  intros Hx Hy H. apply Z.bits_inj'. intros k Hk. destruct (Z.lt_ge_cases k 8) as [Hl|Hg]; [by apply H|].
  by rewrite !testbit_high.
Qed.

(** Addresses with the same bits are the same address. *)
Lemma bits_ext l l' :
  sixteen l -> sixteen l' -> (forall i, 0 <= i < 128 -> bit l i = bit l' i) -> l = l'.
Proof.
  intros [Hl Ho] [Hl' Ho'] H. apply list_eq_same_length with 16%nat; [done..|].
  intros n x y Hn Hx Hy. apply octet_ext.
  - exact (Forall_lookup_1 _ _ _ _ Ho Hx).
  - exact (Forall_lookup_1 _ _ _ _ Ho' Hy).
  - intros k Hk. specialize (H (8 * Z.of_nat n + (7 - k)) ltac:(lia)). unfold bit in H.
    replace ((8 * Z.of_nat n + (7 - k)) / 8) with (Z.of_nat n) in H by zdiv.
    replace (7 - (8 * Z.of_nat n + (7 - k)) mod 8) with k in H by zdiv.
    rewrite Nat2Z.id, (list_lookup_total_correct _ _ _ Hx), (list_lookup_total_correct _ _ _ Hy) in H. done.
Qed.

(** A run of steps over bits [a .. a + n), each of which only touches its own
    bit: the result at [j] is what the step for [j] makes, if there was one. *)
Lemma foldl_bits (step : list Z -> Z -> list Z) (new : Z -> bool -> bool) (n : nat) (a : Z) l j :
  (forall l i, sixteen l -> 0 <= i < 128 -> sixteen (step l i) /\
     forall j, 0 <= j < 128 -> bit (step l i) j = if i =? j then new i (bit l j) else bit l j) ->
  sixteen l -> 0 <= a -> a + Z.of_nat n <= 128 -> 0 <= j < 128 ->
  sixteen (foldl step l (seqZ a (Z.of_nat n))) /\
  bit (foldl step l (seqZ a (Z.of_nat n))) j =
    if (a <=? j) && (j <? a + Z.of_nat n) then new j (bit l j) else bit l j.
Proof.
  intros Hstep. revert a l. induction n as [|n IH]; intros a l Hl Ha Hn Hj.
  - change (Z.of_nat 0) with 0. rewrite seqZ_nil, Z.add_0_r by lia. cbn [foldl].
    split; [done|]. destruct (Z.leb_spec a j), (Z.ltb_spec j a); [lia|done..].
  - rewrite (seqZ_cons a) by lia. cbn [foldl].
    replace (Z.pred (Z.of_nat (S n))) with (Z.of_nat n) by lia. unfold Z.succ.
    destruct (Hstep l a Hl ltac:(lia)) as [Hs Hb].
    destruct (IH (a + 1) (step l a) Hs ltac:(lia) ltac:(lia) Hj) as [HA HB]. split; [done|].
    rewrite HB, Hb by done. destruct (Z.eqb_spec a j) as [<-|Hne].
    + replace (a + 1 <=? a) with false by (symmetry; apply Z.leb_gt; lia).
      replace (a <=? a) with true by (symmetry; apply Z.leb_le; lia).
      replace (a <? a + Z.of_nat (S n)) with true by (symmetry; apply Z.ltb_lt; lia). done.
    + replace (a + 1 <=? j) with (a <=? j) by (destruct (Z.leb_spec a j), (Z.leb_spec (a + 1) j); lia).
      replace (a + 1 + Z.of_nat n) with (a + Z.of_nat (S n)) by lia. done.
Qed.

Lemma keep_top_bits_spec l len j :
  sixteen l -> 0 <= j < 128 ->
  sixteen (keep_top_bits l len) /\ bit (keep_top_bits l len) j = (j <? len) && bit l j.
Proof.
  intros Hl Hj. unfold keep_top_bits.
  destruct (foldl_bits (fun l i => if i >=? len then clear_bit l i else l)
    (fun i b => (i <? len) && b) 128 0 l j) as [HA HB]; try done; try lia.
  - clear l j Hl Hj. intros l i Hl Hi. split; [destruct (i >=? len); auto with ncfg|].
    intros j Hj. rewrite Z.geb_leb. destruct (Z.leb_spec len i), (Z.eqb_spec i j) as [E|E].
    + rewrite bit_clear by (done || apply Hl). rewrite <- E, Z.eqb_refl.
      replace (i <? len) with false by (symmetry; apply Z.ltb_ge; lia). done.
    + rewrite bit_clear by (done || apply Hl). by rewrite (proj2 (Z.eqb_neq _ _) E).
    + subst j. replace (i <? len) with true by (symmetry; apply Z.ltb_lt; lia). done.
    + done.
  - change (Z.of_nat 128) with 128 in *. split; [done|]. rewrite HB.
    replace (0 <=? j) with true by (symmetry; apply Z.leb_le; lia).
    replace (j <? 0 + 128) with true by (symmetry; apply Z.ltb_lt; lia). done.
Qed.

Lemma land_bit_zero host i :
  octets host -> (Z.land (host !!! Z.to_nat (i / 8)) (bit_mask i) =? 0) = negb (bit host i).
Proof.
  intros Ho. unfold bit. pose proof (Z.mod_pos_bound i 8 ltac:(lia)) as Hm.
  destruct (Z.testbit (host !!! Z.to_nat (i / 8)) (7 - i mod 8)) eqn:E; cbn.
  - apply Z.eqb_neq. intros H0. apply (f_equal (fun z => Z.testbit z (7 - i mod 8))) in H0.
    rewrite Z.land_spec, E, testbit_bit_mask, Z.eqb_refl, Z.bits_0 in H0 by lia. done.
  - apply Z.eqb_eq. apply Z.bits_inj'. intros k Hk. rewrite Z.land_spec, testbit_bit_mask, Z.bits_0 by lia.
    destruct (Z.eqb_spec k (7 - i mod 8)) as [->|]; [by rewrite E|apply andb_false_r].
Qed.

Lemma put_host_spec host p l j :
  sixteen l -> octets host -> 0 <= p <= 128 -> 0 <= j < 128 ->
  let l' := foldl (put_host_bit host) l (seqZ p (128 - p)) in
  sixteen l' /\ bit l' j = bit l j || ((p <=? j) && bit host j).
Proof.
  intros Hl Hh Hp Hj. cbn zeta. replace (128 - p) with (Z.of_nat (Z.to_nat (128 - p))) by lia.
  destruct (foldl_bits (put_host_bit host) (fun i b => b || bit host i) (Z.to_nat (128 - p)) p l j)
    as [HA HB]; try done; try lia.
  - clear l j Hl Hj. intros l i Hl Hi. unfold put_host_bit. rewrite land_bit_zero by done.
    destruct (bit host i) eqn:E; cbn.
    + split; [auto with ncfg|]. intros j Hj. rewrite bit_set by (done || apply Hl).
      destruct (i =? j); [by rewrite orb_true_r|done].
    + split; [done|]. intros j Hj. by destruct (i =? j); rewrite ?orb_false_r.
  - split; [done|]. rewrite HB. replace (j <? p + Z.of_nat (Z.to_nat (128 - p))) with true by (symmetry; apply Z.ltb_lt; lia).
    rewrite andb_true_r. by destruct (p <=? j); rewrite ?orb_false_r.
Qed.

(** The selector's bits, written from the right of the sub-prefix. *)
Lemma put_subnet_spec subnet p (n : nat) a l j :
  sixteen l -> 0 <= subnet < 2 ^ p -> 0 <= p <= 128 -> 0 <= a -> a + Z.of_nat n <= 16 -> 0 <= j < 128 ->
  exists l', foldl (put_subnet_bit subnet p) (Some l) (seqZ a (Z.of_nat n)) = Some l' /\
    sixteen l' /\
    bit l' j = bit l j || ((a <=? p - 1 - j) && (p - 1 - j <? a + Z.of_nat n) && Z.testbit subnet (p - 1 - j)).
Proof.
  intros Hl Hs Hp. revert a l Hl. induction n as [|n IH]; intros a l Hl Ha Hn Hj.
  - exists l. split; [done|]. split; [done|]. replace (a + Z.of_nat 0) with a by lia.
    destruct (Z.leb_spec a (p - 1 - j)), (Z.ltb_spec (p - 1 - j) a); cbn; rewrite ?orb_false_r; try done; lia.
  - rewrite (seqZ_cons a) by lia. cbn [foldl].
    replace (Z.pred (Z.of_nat (S n))) with (Z.of_nat n) by lia. unfold Z.succ.
    assert (exists l1, put_subnet_bit subnet p (Some l) a = Some l1 /\ sixteen l1 /\
      bit l1 j = bit l j || ((p - 1 - j =? a) && Z.testbit subnet a)) as (l1 & E1 & Hl1 & Hb1).
    { unfold put_subnet_bit. change (Z.land ?x 1) with (Z.land x (Z.ones 1)).
      rewrite Z.land_ones, <- Z.bit0_mod, Z.shiftr_spec, Z.add_0_l by lia.
      destruct (Z.testbit subnet a) eqn:Ea; cbn.
      - assert (a < p) as Hap.
        { destruct (Z.lt_ge_cases a p) as [|Hge]; [done|]. rewrite <- (Z.mod_small subnet (2 ^ p)) in Ea by lia.
          rewrite Z.mod_pow2_bits_high in Ea by lia. done. }
        rewrite Z.gtb_ltb. destruct (Z.ltb_spec p (u32 (a + 1))) as [Hlt|_].
        { rewrite u32_small in Hlt by lia. lia. }
        eexists. split; [reflexivity|]. split; [auto with ncfg|].
        rewrite bit_set by (lia || apply Hl). rewrite andb_true_r, orb_comm. f_equal.
        destruct (Z.eqb_spec (p - 1 - a) j), (Z.eqb_spec (p - 1 - j) a); done || lia.
      - exists l. by rewrite andb_false_r, orb_false_r. }
    rewrite E1. destruct (IH (a + 1) l1 Hl1 ltac:(lia) ltac:(lia) Hj) as (l' & E & Hl' & Hb').
    exists l'. split; [exact E|]. split; [done|]. rewrite Hb', Hb1, <- orb_assoc. f_equal.
    replace (a + 1 + Z.of_nat n) with (a + Z.of_nat (S n)) by lia.
    destruct (Z.eqb_spec (p - 1 - j) a) as [E2|E2].
    + rewrite E2. replace (a + 1 <=? a) with false by (symmetry; apply Z.leb_gt; lia).
      replace (a <=? a) with true by (symmetry; apply Z.leb_le; lia).
      replace (a <? a + Z.of_nat (S n)) with true by (symmetry; apply Z.ltb_lt; lia). cbn. apply orb_false_r.
    + cbn. f_equal. f_equal. destruct (Z.leb_spec (a + 1) (p - 1 - j)), (Z.leb_spec a (p - 1 - j)); done || lia.
Qed.

(** What [ncfg_address_parse] hands out: the octets a family does not use are
    zero and the prefix length is in range. *)
Definition wf_address (a : address) : Prop :=
  (exists l, ad_bytes a = stored l /\ length l = width (ad_is_ipv6 a) /\ octets l) /\
  (if ad_has_prefix a then 0 <= ad_prefix a <= max_prefix (ad_is_ipv6 a) else ad_prefix a = 0).

Lemma has_byte_elem c s : has_byte c s = bool_decide (c ∈ s).
Proof.
  unfold has_byte. destruct (existsb _ s) eqn:E; symmetry.
  - apply existsb_exists in E as (b & Hb & Eb). destruct (byte_eqb_spec b c) as [->|]; [|done].
    apply bool_decide_eq_true. by apply list_elem_of_In.
  - apply bool_decide_eq_false. intros Hin. apply not_true_iff_false in E. apply E. apply existsb_exists.
    exists c. split; [by apply list_elem_of_In|apply byte_eqb_refl].
Qed.

Lemma split_at_byte_none c s : c ∉ s -> split_at_byte c s = (s, None).
Proof.
  induction s as [|b s IH]; intros Hn; [done|]. apply not_elem_of_cons in Hn as [Hb Hn]. cbn.
  rewrite byte_eqb_neq by done. by rewrite IH.
Qed.

Lemma split_at_byte_some c s r : c ∉ s -> split_at_byte c (s ++ c :: r) = (s, Some r).
Proof.
  induction s as [|b s IH]; intros Hn; cbn; [by rewrite byte_eqb_refl|].
  apply not_elem_of_cons in Hn as [Hb Hn]. rewrite byte_eqb_neq by done. by rewrite IH.
Qed.

(** A prefix length in range is printed as digits that read back: the 129 of
    them, checked. *)
Definition prefix_reads_back (v6 : bool) (p : Z) : bool :=
  bool_decide (p > max_prefix v6) || (bool_decide (parse_prefix v6 (num p) = Some p) && (zlen (num p) <=? 3)).

Lemma prefixes_read_back v6 : forallb (prefix_reads_back v6) (seqZ 0 129) = true.
Proof. by destruct v6; vm_compute. Qed.

Lemma parse_prefix_num v6 p : 0 <= p <= max_prefix v6 -> parse_prefix v6 (num p) = Some p /\ zlen (num p) <= 3.
Proof.
  intros Hp. pose proof (proj1 (forallb_forall _ _) (prefixes_read_back v6) p) as H.
  assert (In p (seqZ 0 129)) as Hin by (apply list_elem_of_In, elem_of_seqZ; destruct v6; cbn in Hp; lia).
  specialize (H Hin). unfold prefix_reads_back in H. apply orb_true_iff in H as [H|H]; unbool; [lia|done].
Qed.

Lemma prefix_digits_range s : forall acc p, 0 <= acc -> prefix_digits acc s = Some p -> 0 <= p.
Proof.
  induction s as [|b s IH]; intros acc p Ha E; cbn in E; [by simplify_eq|].
  destruct (_ || _); [done|]. apply IH in E; [done|]. unfold u32. apply Z.mod_pos_bound. lia.
Qed.

Lemma parse_prefix_range v6 s p : parse_prefix v6 s = Some p -> 0 <= p <= max_prefix v6.
Proof.
  unfold parse_prefix. destruct (_ || _); [done|]. destruct (prefix_digits 0 _) as [q|] eqn:E; [|done].
  rewrite Z.gtb_ltb. destruct (Z.ltb_spec (max_prefix v6) q); [done|]. intros [= <-].
  apply prefix_digits_range in E; lia.
Qed.

Section Texts.
Context {I : Inet} {L : InetLaws I}.

Lemma stored_sixteen v6 l : length l = width v6 -> octets l -> sixteen (stored l).
Proof.
  intros Hl Ho. unfold sixteen, stored. rewrite length_app, length_replicate. split.
  - destruct v6; cbn in Hl; lia.
  - apply Forall_app. split; [done|]. apply Forall_replicate. lia.
Qed.

Lemma address_parse_wf text a : address_parse text = Some a -> wf_address a.
Proof.
  unfold address_parse. destruct text as [[|b t]|]; try done.
  destruct (split_at_byte "/" (b :: t)) as [plain slash] eqn:Es. destruct (_ || _); [done|].
  destruct (inet_pton (has_byte ":" plain) plain) as [l|] eqn:E; [|done].
  apply pton_octets in E as [Hl Ho].
  assert (exists l0, stored l = stored l0 /\ length l0 = width (has_byte ":" plain) /\ octets l0) as Hb by eauto.
  destruct slash as [after|].
  - destruct (parse_prefix _ after) as [p|] eqn:Ep; [|done]. intros [= <-]. split; [exact Hb|].
    exact (parse_prefix_range _ _ _ Ep).
  - intros [= <-]. by split.
Qed.

Lemma wf_sixteen a : wf_address a -> sixteen (ad_bytes a).
Proof. intros [(l & -> & Hl & Ho) _]. by apply (stored_sixteen (ad_is_ipv6 a)). Qed.

(** Rendering fits in [NCFG_ADDRESS_MAX] and reads back as the address. *)
Lemma render_parse a n :
  wf_address a -> ADDRESS_MAX <= n -> exists t, address_render a n = Some t /\ address_parse (Some t) = Some a.
Proof.
  destruct a as [v6 bs hp p]. intros [(l & Eb & Hl & Ho) Hp] Hn. cbn in Eb, Hl, Hp. subst bs.
  destruct (ntop_parses v6 l Hl Ho) as (t & Et & Ept & Hne & Hlen & Hc & Hs).
  unfold address_render. rewrite (proj2 (Z.ltb_ge _ _) Hn). cbn [ad_is_ipv6 ad_bytes ad_has_prefix ad_prefix].
  unfold stored at 1. rewrite <- Hl, take_app_length, Et.
  assert (zlen t <= 45) as Hz by (unfold zlen, INET6_ADDRSTRLEN in *; lia).
  assert (has_byte ":" t = v6) as Hcolon by (by rewrite has_byte_elem).
  assert ((length t =? 0)%nat || (INET6_ADDRSTRLEN <=? length t)%nat = false) as Hfit.
  { apply orb_false_iff. split; [apply Nat.eqb_neq; destruct t; [done|cbn; lia]|by apply Nat.leb_gt]. }
  destruct hp; cbn [andb].
  - rewrite Z.gtb_ltb, (proj2 (Z.ltb_ge _ _)) by lia. destruct (parse_prefix_num v6 p Hp) as [Hpp Hpl].
    exists (t ++ "/"%byte :: num p). rewrite Z.geb_leb, (proj2 (Z.leb_gt _ _)).
    2:{ rewrite zlen_app, zlen_cons. unfold ADDRESS_MAX in Hn. lia. }
    split; [done|]. unfold address_parse. rewrite split_at_byte_some by done.
    destruct (t ++ "/"%byte :: num p) as [|b0 t0] eqn:E0; [by destruct t|].
    rewrite Hfit, Hcolon, Ept, Hpp. done.
  - exists t. rewrite Z.geb_leb, (proj2 (Z.leb_gt _ _)) by (unfold ADDRESS_MAX in Hn; lia). split; [done|].
    unfold address_parse. rewrite split_at_byte_none by done. destruct t as [|b0 t0]; [done|].
    rewrite Hfit, Hcolon, Ept. by subst p.
Qed.

(** The canonical spelling of an address text: it means the same address and is
    its own canonical spelling. *)
Lemma canonical_parse text a n :
  address_parse text = Some a -> ADDRESS_MAX <= n ->
  exists t, address_canonical text n = Some t /\ address_parse (Some t) = Some a /\
    address_canonical (Some t) n = Some t.
Proof.
  intros E Hn. destruct (render_parse a n (address_parse_wf _ _ E) Hn) as (t & Et & Ep).
  exists t. unfold address_canonical. by rewrite E, Ep.
Qed.

(** What a text means: the address it spells, or itself. *)
Definition meaning (t : list byte) : address + list byte :=
  match address_parse (Some t) with Some a => inl a | None => inr t end.

Lemma address_equal_meaning l r : plan_address_equal (Some l) (Some r) = bool_decide (meaning l = meaning r).
Proof.
  assert (forall t, address_parse (Some t) = None -> address_canonical (Some t) ADDRESS_MAX = None) as Hnone.
  { intros t E. unfold address_canonical. by rewrite E. }
  unfold plan_address_equal, meaning.
  destruct (address_parse (Some l)) as [a|] eqn:El, (address_parse (Some r)) as [b|] eqn:Er.
  - destruct (canonical_parse _ _ ADDRESS_MAX El ltac:(done)) as (tl & El' & Etl & _).
    destruct (canonical_parse _ _ ADDRESS_MAX Er ltac:(done)) as (tr & Er' & Etr & _).
    rewrite El', Er'. apply bool_decide_ext. split; [intros ->; congruence|].
    intros [= ->]. unfold address_canonical in El', Er'. rewrite El in El'. rewrite Er in Er'. congruence.
  - rewrite (Hnone r Er). destruct (canonical_parse _ _ ADDRESS_MAX El ltac:(done)) as (tl & -> & _).
    apply bool_decide_ext. split; [intros ->; congruence|done].
  - rewrite (Hnone l El). apply bool_decide_ext. split; [intros ->; congruence|done].
  - rewrite (Hnone l El). apply bool_decide_ext. split; congruence.
Qed.

(** A text equals its canonical spelling. *)
Lemma canonical_equal l t n :
  ADDRESS_MAX <= n -> address_canonical (Some l) n = Some t -> plan_address_equal (Some l) (Some t) = true.
Proof.
  intros Hn E. rewrite address_equal_meaning. apply bool_decide_eq_true. unfold meaning.
  destruct (address_parse (Some l)) as [a|] eqn:El.
  - destruct (canonical_parse _ _ n El Hn) as (t' & Et & Ep & _). rewrite E in Et. injection Et as <-. by rewrite Ep.
  - unfold address_canonical in E. by rewrite El in E.
Qed.

Lemma address_equal_refl l : plan_address_equal (Some l) (Some l) = true.
Proof. rewrite address_equal_meaning. by apply bool_decide_eq_true. Qed.

(** The comparison the planner makes of two addresses is an equivalence
    that sees meaning and nothing else. Two texts that are addresses are equal
    exactly when they spell one address -- the same family, the same octets and
    the same prefix length or its absence -- a text that is not an address is
    equal to itself alone, and a text is equal to its canonical spelling, which
    is its own canonical spelling. So one address written twice is never two. *)
Theorem address_equal_exact (l r : list byte) :
  (forall a b, address_parse (Some l) = Some a -> address_parse (Some r) = Some b ->
     plan_address_equal (Some l) (Some r) = bool_decide (a = b)) /\
  (address_parse (Some l) = None -> plan_address_equal (Some l) (Some r) = bool_decide (l = r)) /\
  (forall a, address_parse (Some l) = Some a ->
     exists t, address_canonical (Some l) ADDRESS_MAX = Some t /\
       plan_address_equal (Some l) (Some t) = true /\ address_canonical (Some t) ADDRESS_MAX = Some t) /\
  plan_address_equal (Some l) (Some r) = plan_address_equal (Some r) (Some l) /\
  (forall s, plan_address_equal (Some l) (Some r) = true -> plan_address_equal (Some r) (Some s) = true ->
     plan_address_equal (Some l) (Some s) = true).
Proof.
  split; [|split; [|split; [|split]]].
  - intros a b El Er. rewrite address_equal_meaning. unfold meaning. rewrite El, Er. apply bool_decide_ext. split; congruence.
  - intros El. rewrite address_equal_meaning. unfold meaning. rewrite El. apply bool_decide_ext.
    split; [destruct (address_parse (Some r)); congruence|intros <-; by rewrite El].
  - intros a El. destruct (canonical_parse _ _ ADDRESS_MAX El ltac:(done)) as (t & Et & Ep & Ec).
    exists t. split; [done|]. split; [|done]. rewrite address_equal_meaning. unfold meaning. rewrite El, Ep. by apply bool_decide_eq_true.
  - rewrite !address_equal_meaning. apply bool_decide_ext. done.
  - intros s. rewrite !address_equal_meaning, !bool_decide_eq_true. congruence.
Qed.

(** The octets of a network: the bits of the prefix, and zero below. *)
Lemma bit_masked v6 p l i :
  length l = 16%nat -> 0 <= p <= max_prefix v6 -> 0 <= i < 8 * Z.of_nat (width v6) ->
  bit (mask_octets v6 p l) i = (i <? p) && bit l i.
Proof.
  intros Hl Hp Hi. unfold bit, mask_octets. set (n := Z.to_nat (i / 8)).
  assert (n < width v6)%nat as Hn by (subst n; destruct v6; cbn in *; zdiv).
  assert (n < 16)%nat as Hn16 by (destruct v6; cbn in *; lia).
  destruct (lookup_lt_is_Some_2 l n ltac:(lia)) as [x Hx].
  rewrite !list_lookup_total_alt, list_lookup_imap, Hx. cbn [fmap option_fmap option_map default id].
  rewrite (proj2 (Nat.ltb_lt _ _) Hn), testbit_u8, Z.land_spec by zdiv.
  replace (7 - i mod 8 <? 8) with true by (symmetry; apply Z.ltb_lt; zdiv). cbn [andb]. rewrite andb_comm.
  replace (Z.of_nat n) with (i / 8) by (subst n; zdiv). f_equal. unfold network_mask.
  rewrite Z.geb_leb. destruct (Z.leb_spec (i / 8 * 8 + 8) p).
  { change 255 with (Z.ones 8). rewrite Z.ones_spec_low by zdiv. symmetry. apply Z.ltb_lt. zdiv. }
  destruct (Z.leb_spec p (i / 8 * 8)).
  { rewrite Z.bits_0. symmetry. apply Z.ltb_ge. zdiv. }
  rewrite testbit_u8 by zdiv. replace (7 - i mod 8 <? 8) with true by (symmetry; apply Z.ltb_lt; zdiv). cbn [andb].
  change 255 with (Z.ones 8). rewrite Z.shiftl_spec by zdiv.
  destruct (Z.ltb_spec i p).
  - apply Z.ones_spec_low. zdiv.
  - apply Z.testbit_neg_r. zdiv.
Qed.

Lemma imap_id_past (f : nat -> Z -> Z) k : (forall i x, f i x = x) -> imap f k = k.
Proof. intros H. revert f H. induction k as [|x k IH]; intros f H; cbn; [done|]. rewrite H. f_equal. apply IH. intros; apply H. Qed.

Lemma wf_masked a :
  wf_address a -> ad_has_prefix a = true ->
  wf_address (Address (ad_is_ipv6 a) (mask_octets (ad_is_ipv6 a) (ad_prefix a) (ad_bytes a)) true (ad_prefix a)).
Proof.
  destruct a as [v6 bs hp p]. cbn. intros [(l & Eb & Hl & Ho) Hp] ->. cbn in *. split; cbn; [|done]. subst bs.
  exists (imap (fun i x => if (i <? width v6)%nat then u8 (Z.land x (network_mask p (Z.of_nat i))) else x) l).
  split; [|split].
  - unfold stored, mask_octets. rewrite imap_app, length_imap. f_equal. apply imap_id_past.
    intros i x. unfold compose. change (match width v6 with 0%nat => false | S m => (length l + i <=? m)%nat end) with (length l + i <? width v6)%nat.
    by rewrite (proj2 (Nat.ltb_ge _ _)) by lia.
  - by rewrite length_imap.
  - apply Forall_lookup_2. intros i x Hx. rewrite list_lookup_imap in Hx. destruct (l !! i) as [y|] eqn:E; simplify_eq/=.
    destruct (_ <? _)%nat; [apply u8_range|]. exact (Forall_lookup_1 _ _ _ _ Ho E).
Qed.

Lemma has_prefix_slash t a : address_parse (Some t) = Some a -> ad_has_prefix a = true -> has_byte "/" t = true.
Proof.
  intros E Hp. destruct (has_byte "/" t) eqn:Es; [done|]. rewrite has_byte_elem in Es. unbool.
  unfold address_parse in E. rewrite split_at_byte_none in E by done. break; simplify_eq/=.
Qed.

(** The bits of an address of the family, below the prefix length, are zero. *)
Definition is_network (a : address) : Prop :=
  forall i, ad_prefix a <= i < max_prefix (ad_is_ipv6 a) -> bit (ad_bytes a) i = false.

Lemma masked_same a :
  wf_address a -> ad_has_prefix a = true ->
  mask_octets (ad_is_ipv6 a) (ad_prefix a) (ad_bytes a) = ad_bytes a <-> is_network a.
Proof.
  intros Hwf Hhp. pose proof (wf_sixteen a Hwf) as H16. pose proof (wf_sixteen _ (wf_masked a Hwf Hhp)) as H16'. cbn in H16'.
  assert (0 <= ad_prefix a <= max_prefix (ad_is_ipv6 a)) as Hp by (destruct Hwf as [_ Hp]; by rewrite Hhp in Hp).
  assert (max_prefix (ad_is_ipv6 a) = 8 * Z.of_nat (width (ad_is_ipv6 a))) as Hm by (by destruct (ad_is_ipv6 a)).
  split.
  - intros E i Hi. rewrite <- E, bit_masked by (lia || apply H16). by rewrite (proj2 (Z.ltb_ge _ _)) by lia.
  - intros Hn. apply bits_ext; [done..|]. intros i Hi.
    destruct (Z.lt_ge_cases i (max_prefix (ad_is_ipv6 a))) as [Hlt|Hge].
    + rewrite bit_masked by (lia || apply H16). destruct (Z.ltb_spec i (ad_prefix a)); [done|].
      symmetry. apply Hn. lia.
    + unfold bit, mask_octets. rewrite !list_lookup_total_alt, list_lookup_imap.
      destruct (ad_bytes a !! Z.to_nat (i / 8)) as [x|]; [|done]. cbn [fmap option_fmap option_map default id].
      rewrite (proj2 (Nat.ltb_ge _ _)) by (destruct (ad_is_ipv6 a); cbn in *; zdiv). done.
Qed.

(** [ncfg_address_network_of] answers -1 exactly for a text that is not an
    address with a prefix length. For one that is, what it writes reads back
    as the network the text names -- the same family and length, the bits of
    the prefix kept and every bit below cleared -- and it answers 1 exactly
    when the text already was that network. *)
Theorem network_of_exact (t : list byte) (n : Z) :
  ADDRESS_MAX <= n ->
  match address_parse (Some t) with
  | Some a =>
      if ad_has_prefix a then
        exists r out net, address_network_of (Some t) n = (r, Some out) /\
          address_parse (Some out) = Some net /\
          ad_is_ipv6 net = ad_is_ipv6 a /\ ad_has_prefix net = true /\ ad_prefix net = ad_prefix a /\
          is_network net /\
          (forall i, 0 <= i < ad_prefix a -> bit (ad_bytes net) i = bit (ad_bytes a) i) /\
          (r = 1 \/ r = 0) /\ (r = 1 <-> net = a)
      else address_network_of (Some t) n = (-1, None)
  | None => address_network_of (Some t) n = (-1, None)
  end.
Proof.
  intros Hn. destruct (address_parse (Some t)) as [a|] eqn:E.
  2:{ unfold address_network_of. rewrite E. by destruct (negb _). }
  destruct (ad_has_prefix a) eqn:Hhp.
  2:{ unfold address_network_of. rewrite E, Hhp. by destruct (negb (has_byte _ _)). }
  pose proof (address_parse_wf _ _ E) as Hwf. pose proof (wf_sixteen a Hwf) as H16.
  assert (0 <= ad_prefix a <= max_prefix (ad_is_ipv6 a)) as Hp by (destruct Hwf as [_ Hp]; by rewrite Hhp in Hp).
  assert (max_prefix (ad_is_ipv6 a) = 8 * Z.of_nat (width (ad_is_ipv6 a))) as Hm by (by destruct (ad_is_ipv6 a)).
  destruct (render_parse _ n (wf_masked a Hwf Hhp) Hn) as (out & Er & Ep).
  unfold address_network_of. rewrite (has_prefix_slash _ _ E Hhp), E, Hhp. cbn [negb]. rewrite Er.
  eexists _, out, _. split; [reflexivity|]. split; [exact Ep|]. cbn. do 3 (split; [done|]). split; [|split; [|split]].
  - intros i Hi. cbn in *. rewrite bit_masked by (lia || apply H16). by rewrite (proj2 (Z.ltb_ge _ _)) by lia.
  - intros i Hi. rewrite bit_masked by (lia || apply H16). by rewrite (proj2 (Z.ltb_lt _ _)) by lia.
  - case_bool_decide; auto.
  - case_bool_decide as Hs.
    + rewrite Hs. destruct a; cbn in *; subst. done.
    + split; [done|]. intros Ha. exfalso. apply Hs. apply (f_equal ad_bytes) in Ha. exact Ha.
Qed.

(** The comparison of the octets of a prefix is a comparison of its bits. *)
Lemma same_prefix_bits l r p :
  sixteen l -> sixteen r -> 0 <= p <= 128 ->
  same_prefix l r p = true <-> (forall i, 0 <= i < p -> bit l i = bit r i).
Proof.
  intros [Hl Hlo] [Hr Hro] Hp. unfold same_prefix. set (w := Z.to_nat (p / 8)).
  assert (Z.of_nat w = p / 8) as Hw by (subst w; zdiv).
  assert (take w l = take w r <-> (forall i, 0 <= i < 8 * (p / 8) -> bit l i = bit r i)) as Htake.
  { split.
    - intros E i Hi. unfold bit. rewrite !list_lookup_total_alt.
      rewrite <- (lookup_take_lt l w) by (subst w; zdiv). rewrite <- (lookup_take_lt r w) by (subst w; zdiv). by rewrite E.
    - intros H. apply list_eq_same_length with w; try (rewrite length_take; zdiv).
      intros n x y Hn Hx Hy. rewrite lookup_take_lt in Hx, Hy by done. apply octet_ext.
      + exact (Forall_lookup_1 _ _ _ _ Hlo Hx).
      + exact (Forall_lookup_1 _ _ _ _ Hro Hy).
      + intros k Hk. specialize (H (8 * Z.of_nat n + (7 - k)) ltac:(lia)). unfold bit in H.
        replace ((8 * Z.of_nat n + (7 - k)) / 8) with (Z.of_nat n) in H by zdiv.
        replace (7 - (8 * Z.of_nat n + (7 - k)) mod 8) with k in H by zdiv.
        rewrite Nat2Z.id, (list_lookup_total_correct _ _ _ Hx), (list_lookup_total_correct _ _ _ Hy) in H. done. }
  destruct (negb (w =? 0)%nat && negb (bool_decide (take w l = take w r))) eqn:Ew.
  { apply andb_true_iff in Ew as [_ Ew]. unbool. split; [done|]. intros H. exfalso.
    apply Ew, Htake. intros i Hi. apply H. zdiv. }
  assert (take w l = take w r) as Et.
  { apply andb_false_iff in Ew as [Ew|Ew]; unbool; [|done]. apply Nat.eqb_eq in Ew. by rewrite Ew. }
  destruct (Z.eqb_spec (p mod 8) 0) as [Er|Er].
  { split; [|done]. intros _ i Hi. apply Htake; [done|zdiv]. }
  assert (forall k, 0 <= k < 8 -> Z.testbit (u8 (Z.shiftl 255 (8 - p mod 8))) k = (8 - p mod 8 <=? k)) as Hmask.
  { intros k Hk. rewrite testbit_u8 by lia. rewrite (proj2 (Z.ltb_lt k 8)) by lia. cbn [andb].
    change 255 with (Z.ones 8). rewrite Z.shiftl_spec by lia. destruct (Z.leb_spec (8 - p mod 8) k).
    - apply Z.ones_spec_low. zdiv.
    - apply Z.testbit_neg_r. lia. }
  rewrite Z.eqb_eq. split.
  - intros E i Hi. destruct (Z.lt_ge_cases i (8 * (p / 8))) as [Hlt|Hge]; [apply Htake; [done|lia]|].
    apply (f_equal (fun z => Z.testbit z (7 - i mod 8))) in E. rewrite !Z.land_spec, !Hmask in E by zdiv.
    rewrite (proj2 (Z.leb_le (8 - p mod 8) (7 - i mod 8))), !andb_true_r in E by zdiv. unfold bit.
    replace (Z.to_nat (i / 8)) with w by (subst w; f_equal; zdiv). exact E.
  - intros H. apply Z.bits_inj'. intros k Hk. rewrite !Z.land_spec.
    destruct (Z.lt_ge_cases k 8) as [Hlt|Hge].
    2:{ by rewrite (testbit_high (l !!! w)), (testbit_high (r !!! w)) by (done || by apply octets_lookup_total). }
    rewrite Hmask by lia. destruct (Z.leb_spec (8 - p mod 8) k); [|by rewrite !andb_false_r].
    rewrite !andb_true_r. specialize (H (8 * (p / 8) + (7 - k)) ltac:(zdiv)). unfold bit in H.
    replace ((8 * (p / 8) + (7 - k)) / 8) with (p / 8) in H by zdiv.
    replace (7 - (8 * (p / 8) + (7 - k)) mod 8) with k in H by zdiv. exact H.
Qed.

Lemma subnet_contains_bits t c a b :
  address_parse (Some t) = Some a -> address_parse (Some c) = Some b ->
  subnet_contains (Some t) (Some c) = true <->
  ad_has_prefix a = true /\ ad_is_ipv6 a = ad_is_ipv6 b /\
  (forall i, 0 <= i < ad_prefix a -> bit (ad_bytes a) i = bit (ad_bytes b) i).
Proof.
  intros Ea Eb. pose proof (address_parse_wf _ _ Ea) as Ha. pose proof (address_parse_wf _ _ Eb) as Hb.
  unfold subnet_contains. rewrite Ea, Eb.
  destruct (ad_has_prefix a) eqn:Hp; cbn [negb]; [|split; [done|by intros (? & _)]].
  destruct (Bool.eqb_spec (ad_is_ipv6 a) (ad_is_ipv6 b)) as [Ef|Ef]; cbn [negb].
  - rewrite same_prefix_bits; [|by apply wf_sixteen..|].
    2:{ destruct Ha as [_ Hr]. rewrite Hp in Hr. destruct (ad_is_ipv6 a); cbn in Hr; lia. }
    split; [done|by intros (_ & _ & ?)].
  - split; [done|by intros (_ & ? & _)].
Qed.

End Texts.

Lemma testbit_above x n k : 0 <= x < 2 ^ n -> 0 <= n <= k -> Z.testbit x k = false.
Proof. intros Hx Hk. rewrite <- (Z.mod_small x (2 ^ n)) by done. by apply Z.mod_pow2_bits_high. Qed.

(** The bits a derived address should have. *)
Definition derived_bit (block host : address) (subnet i : Z) : bool :=
  if i <? ad_prefix block then bit (ad_bytes block) i
  else if i <? ad_prefix host then Z.testbit subnet (ad_prefix host - 1 - i)
  else bit (ad_bytes host) i.

(** When a selector fits the bits between the two prefix lengths. *)
Definition selector_fits (block host : address) (subnet : Z) : bool :=
  (ad_prefix block <=? ad_prefix host) && (0 <=? subnet) && (subnet <=? 65535) &&
  (subnet <? 2 ^ (ad_prefix host - ad_prefix block)).

(** An IPv6 address with a prefix length. *)
Definition v6_prefix (a : address) : Prop := ad_is_ipv6 a = true /\ ad_has_prefix a = true.

Section Derive.
Context {I : Inet} {L : InetLaws I}.

Lemma v6_prefix_range a : wf_address a -> v6_prefix a -> 0 <= ad_prefix a <= 128.
Proof. intros [_ Hp] [H6 Hh]. by rewrite Hh, H6 in Hp. Qed.

(** The octets, before they are printed. *)
Lemma derived_octets block host subnet :
  wf_address block -> wf_address host -> v6_prefix block -> v6_prefix host ->
  selector_fits block host subnet = true ->
  exists l, foldl (put_subnet_bit subnet (ad_prefix host)) (Some (keep_top_bits (ad_bytes block) (ad_prefix block)))
      (seqZ 0 16) = Some l /\
    let l' := foldl (put_host_bit (ad_bytes host)) l (seqZ (ad_prefix host) (128 - ad_prefix host)) in
    sixteen l' /\ forall i, 0 <= i < 128 -> bit l' i = derived_bit block host subnet i.
Proof.
  intros Hb Hh Vb Vh Hfit. unfold selector_fits in Hfit. unbool.
  pose proof (v6_prefix_range _ Hb Vb) as Rb. pose proof (v6_prefix_range _ Hh Vh) as Rh.
  set (pb := ad_prefix block) in *. set (ph := ad_prefix host) in *.
  set (l0 := keep_top_bits (ad_bytes block) pb).
  assert (sixteen l0) as Hl0 by (apply (keep_top_bits_spec _ pb 0); [by apply wf_sixteen|lia]).
  assert (0 <= subnet < 2 ^ ph) as Hs.
  { split; [done|]. apply Z.lt_le_trans with (2 ^ (ph - pb)); [done|]. apply Z.pow_le_mono_r; lia. }
  destruct (put_subnet_spec subnet ph 16 0 l0 0 Hl0 Hs ltac:(lia) ltac:(lia) ltac:(lia) ltac:(lia)) as (l & El & Hl & _).
  exists l. split; [exact El|]. cbn zeta.
  assert (octets (ad_bytes host)) as Ho by (by apply wf_sixteen).
  split; [apply (put_host_spec _ _ _ 0 Hl Ho); lia|]. intros i Hi.
  destruct (put_host_spec (ad_bytes host) ph l i Hl Ho ltac:(lia) Hi) as [_ ->].
  destruct (put_subnet_spec subnet ph 16 0 l0 i Hl0 Hs ltac:(lia) ltac:(lia) ltac:(lia) Hi) as (l2 & El2 & _ & Hb2).
  rewrite El in El2. injection El2 as <-. rewrite Hb2.
  destruct (keep_top_bits_spec (ad_bytes block) pb i (wf_sixteen _ Hb) Hi) as [_ Hk].
  change (keep_top_bits (ad_bytes block) pb) with l0 in Hk. rewrite Hk. unfold derived_bit. fold pb ph.
  change (0 + Z.of_nat 16) with 16.
  destruct (Z.ltb_spec i pb); cbn [andb].
  - rewrite (testbit_above subnet (ph - pb)), andb_false_r by lia.
    rewrite (proj2 (Z.leb_gt ph i)) by lia. by rewrite !orb_false_r.
  - destruct (Z.ltb_spec i ph).
    + rewrite (proj2 (Z.leb_gt ph i)) by lia. rewrite (proj2 (Z.leb_le 0 (ph - 1 - i))) by lia. cbn [andb orb].
      rewrite orb_false_r. destruct (Z.ltb_spec (ph - 1 - i) 16); [done|].
      by rewrite (testbit_above subnet 16) by lia.
    + rewrite (proj2 (Z.leb_gt 0 (ph - 1 - i))) by lia. by rewrite (proj2 (Z.leb_le ph i)) by lia.
Qed.

Lemma sixteen_wf l p : sixteen l -> 0 <= p <= 128 -> wf_address (Address true l true p).
Proof.
  intros [Hl Ho] Hp. split; cbn; [|done]. exists l. unfold stored. rewrite Hl. cbn. by rewrite app_nil_r.
Qed.

(** The selector check of the code, without the shift it avoids. *)
Lemma fits_code block host subnet :
  0 <= ad_prefix block ->
  selector_fits block host subnet =
  negb ((ad_prefix host <? ad_prefix block) || ((subnet <? 0) || (subnet >? 65535)) ||
        ((ad_prefix host - ad_prefix block <? 16) && (u64 subnet >=? Z.shiftl 1 (ad_prefix host - ad_prefix block)))).
Proof.
  intros Hb. unfold selector_fits. rewrite !negb_orb, negb_andb, Z.gtb_ltb, Z.geb_leb, <- !Z.leb_antisym.
  destruct (Z.leb_spec (ad_prefix block) (ad_prefix host)) as [Hle|]; [|done].
  destruct (Z.leb_spec 0 subnet) as [H0|]; [|done]. destruct (Z.leb_spec subnet 65535) as [H1|]; [|done]. cbn [andb].
  rewrite Z.shiftl_mul_pow2, Z.mul_1_l, u64_small by lia.
  destruct (Z.leb_spec 16 (ad_prefix host - ad_prefix block)) as [H16|]; cbn [orb].
  - apply Z.ltb_lt. apply Z.lt_le_trans with (2 ^ 16); [lia|]. apply Z.pow_le_mono_r; lia.
  - by rewrite <- Z.ltb_antisym.
Qed.

Lemma delegation_result d s subnet n block host :
  address_parse (Some d) = Some block -> address_parse (Some s) = Some host ->
  v6_prefix block -> v6_prefix host -> ADDRESS_MAX <= n ->
  if selector_fits block host subnet then
    exists out a, address_from_delegation (Some d) subnet (Some s) n = Some out /\
      address_parse (Some out) = Some a /\ v6_prefix a /\ ad_prefix a = ad_prefix host /\
      forall i, 0 <= i < 128 -> bit (ad_bytes a) i = derived_bit block host subnet i
  else address_from_delegation (Some d) subnet (Some s) n = None.
Proof.
  intros Ed Es Vb Vh Hn. pose proof (address_parse_wf _ _ Ed) as Wb. pose proof (address_parse_wf _ _ Es) as Wh.
  pose proof (v6_prefix_range _ Wb Vb) as Rb. pose proof (v6_prefix_range _ Wh Vh) as Rh.
  pose proof Vb as [Vb1 Vb2]. pose proof Vh as [Vh1 Vh2].
  unfold address_from_delegation. rewrite Ed, Vb1, Vb2, Es, Vh1, Vh2. cbn [negb orb].
  destruct (selector_fits block host subnet) eqn:Hfit.
  - destruct (derived_octets block host subnet Wb Wh Vb Vh Hfit) as (l & El & H16 & Hbits).
    rewrite fits_code in Hfit by lia. apply negb_true_iff in Hfit.
    apply orb_false_iff in Hfit as [Hfit ->]. apply orb_false_iff in Hfit as [-> ->]. rewrite El.
    destruct (render_parse _ n (sixteen_wf _ _ H16 Rh) Hn) as (out & -> & Ep).
    exists out. eexists. split; [done|]. split; [exact Ep|]. split; [done|]. split; [done|exact Hbits].
  - rewrite fits_code in Hfit by lia. apply negb_false_iff in Hfit. by break.
Qed.

(** C31: an address derived from a delegated prefix. Given an IPv6 prefix and an
    IPv6 suffix with a prefix length, [ncfg_address_from_delegation] succeeds
    exactly when the suffix's length is not shorter, the selector is a 16-bit
    number and it fits the bits between the two lengths. What it writes reads
    back as an IPv6 address whose length is the suffix's and whose bits are,
    from the left, the delegation's, then the selector, then the suffix's: it
    always lies inside the delegation, and two different selectors never name
    overlapping networks. *)
Theorem delegation_exact (d s : list byte) (subnet n : Z) block host :
  address_parse (Some d) = Some block -> address_parse (Some s) = Some host ->
  v6_prefix block -> v6_prefix host -> ADDRESS_MAX <= n ->
  if selector_fits block host subnet then
    exists out a, address_from_delegation (Some d) subnet (Some s) n = Some out /\
      address_parse (Some out) = Some a /\ v6_prefix a /\ ad_prefix a = ad_prefix host /\
      (forall i, 0 <= i < 128 -> bit (ad_bytes a) i = derived_bit block host subnet i) /\
      subnet_contains (Some d) (Some out) = true /\
      (forall other out', other <> subnet ->
         address_from_delegation (Some d) other (Some s) n = Some out' ->
         subnet_contains (Some out) (Some out') = false)
  else address_from_delegation (Some d) subnet (Some s) n = None.
Proof.
  intros Ed Es Vb Vh Hn. pose proof (delegation_result d s subnet n block host Ed Es Vb Vh Hn) as H.
  pose proof (v6_prefix_range _ (address_parse_wf _ _ Ed) Vb) as Rb.
  pose proof (v6_prefix_range _ (address_parse_wf _ _ Es) Vh) as Rh.
  destruct (selector_fits block host subnet) eqn:Hfit; [|exact H].
  destruct H as (out & a & Eo & Ea & Va & Pa & Hbits). exists out, a. do 5 (split; [done|]). split.
  - apply (subnet_contains_bits _ _ _ _ Ed Ea). destruct Vb as [Vb1 Vb2], Va as [Va1 _]. split; [done|]. split; [congruence|].
    intros i Hi. rewrite Hbits by lia. unfold derived_bit. by rewrite (proj2 (Z.ltb_lt _ _)) by lia.
  - intros other out' Hne Eo'. pose proof (delegation_result d s other n block host Ed Es Vb Vh Hn) as H'.
    destruct (selector_fits block host other) eqn:Hfit'; [|congruence].
    destruct H' as (o2 & b & Eo2 & Eb & Vb' & Pb & Hbits'). rewrite Eo' in Eo2. injection Eo2 as <-.
    apply not_true_iff_false. rewrite (subnet_contains_bits _ _ _ _ Ea Eb). intros (_ & _ & Hsame).
    apply Hne. unfold selector_fits in Hfit, Hfit'. unbool. apply Z.bits_inj'. intros k Hk.
    destruct (Z.lt_ge_cases k (ad_prefix host - ad_prefix block)) as [Hlt|Hge].
    2:{ by rewrite !(testbit_above _ (ad_prefix host - ad_prefix block)) by lia. }
    specialize (Hsame (ad_prefix host - 1 - k) ltac:(lia)). rewrite Hbits, Hbits' in Hsame by lia.
    unfold derived_bit in Hsame. rewrite (proj2 (Z.ltb_ge _ (ad_prefix block))), (proj2 (Z.ltb_lt _ (ad_prefix host))) in Hsame by lia.
    by replace (ad_prefix host - 1 - (ad_prefix host - 1 - k)) with k in Hsame by lia.
Qed.

End Derive.
