(* ===== verification/InetText.v ===== *)
(** * InetText: conversions that meet the laws of [InetLaws]

    A stand-in for the C library: dotted quads as [inet_pton] takes them, and
    IPv6 in its full form alone, eight groups of four hexadecimal digits. It
    shows that what the theorems assume of the library can be met, and their
    witnesses run on it. *)
From S2P Require Import Prelude Lex LexFacts Op Wire Decimal Value ValueSpec.
#[local] Open Scope Z_scope.

Definition dec_octet (s : list byte) : option Z :=
  if forallb is_digit s && (0 <? length s)%nat && (length s <=? 3)%nat &&
     ((length s =? 1)%nat || negb (bool_decide (head s = Some "0"%byte)))
  then let v := dec_value 0 s in if v <=? 255 then Some v else None
  else None.

Definition plain4 (s : list byte) : option (list Z) :=
  match split_at_byte "." s with
  | (a, Some r1) =>
      match split_at_byte "." r1 with
      | (b, Some r2) =>
          match split_at_byte "." r2 with
          | (c, Some d) =>
              match dec_octet a, dec_octet b, dec_octet c, dec_octet d with
              | Some a, Some b, Some c, Some d => Some [a; b; c; d]
              | _, _, _, _ => None
              end
          | _ => None
          end
      | _ => None
      end
  | _ => None
  end.

Definition hex_octet (high low : byte) : option Z :=
  if (hex_value high <? 0) || (hex_value low <? 0) then None
  else Some (hex_value high * 16 + hex_value low).

Fixpoint plain6 (groups : nat) (s : list byte) : option (list Z) :=
  match groups, s with
  | S n, a :: b :: c :: d :: rest =>
      match hex_octet a b, hex_octet c d with
      | Some x, Some y =>
          match n, rest with
          | O, [] => Some [x; y]
          | S _, colon :: rest =>
              if colon =b ":" then
                match plain6 n rest with Some l => Some (x :: y :: l) | None => None end
              else None
          | _, _ => None
          end
      | _, _ => None
      end
  | _, _ => None
  end.

Definition lower_digit (v : Z) : byte := nth (Z.to_nat v) (bytes "0123456789abcdef") x00.

Definition group_octet (x : Z) : list byte := [lower_digit (x / 16); lower_digit (x mod 16)].

Fixpoint print6 (l : list Z) : list byte :=
  match l with
  | x :: y :: rest =>
      group_octet x ++ group_octet y ++ (match rest with [] => [] | _ => ":"%byte :: print6 rest end)
  | _ => []
  end.

Definition print4 (l : list Z) : list byte :=
  match l with
  | [a; b; c; d] => num a ++ "."%byte :: num b ++ "."%byte :: num c ++ "."%byte :: num d
  | _ => []
  end.

#[export] Instance full_form : Inet := {
  inet_pton v6 s := if v6 then plain6 8 s else plain4 s;
  inet_ntop v6 l := Some (if v6 then print6 l else print4 l) }.

(** What is checked of each octet. *)
Definition octet_prints (x : Z) : bool :=
  bool_decide (dec_octet (num x) = Some x) && (zlen (num x) <=? 3) &&
  forallb (fun c => negb (has_byte c (num x))) ["."%byte; ":"%byte; "/"%byte] &&
  bool_decide (hex_octet (lower_digit (x / 16)) (lower_digit (x mod 16)) = Some x) &&
  forallb (fun c => negb (has_byte c (group_octet x))) [":"%byte; "/"%byte].

Lemma octets_print : forallb octet_prints (seqZ 0 256) = true.
Proof. by vm_compute. Qed.

Lemma octet_printed x :
  0 <= x < 256 ->
  dec_octet (num x) = Some x /\ zlen (num x) <= 3 /\
  "."%byte ∉ num x /\ ":"%byte ∉ num x /\ "/"%byte ∉ num x /\
  hex_octet (lower_digit (x / 16)) (lower_digit (x mod 16)) = Some x /\
  ":"%byte ∉ group_octet x /\ "/"%byte ∉ group_octet x.
Proof.
  intros Hx. pose proof (proj1 (forallb_forall _ _) octets_print x) as H.
  specialize (H ltac:(apply list_elem_of_In, elem_of_seqZ; lia)). unfold octet_prints in H.
  cbn [forallb] in H. rewrite !has_byte_elem in H. unbool. done.
Qed.

Lemma hex_value_range b : -1 <= hex_value b < 16.
Proof. unfold hex_value, byte_between. break; unbool; cbn in *; lia. Qed.

Lemma hex_octet_range a b x : hex_octet a b = Some x -> 0 <= x < 256.
Proof.
  unfold hex_octet. destruct (_ || _) eqn:E; [done|]. intros [= <-]. unbool.
  pose proof (hex_value_range a). pose proof (hex_value_range b). lia.
Qed.

Lemma plain6_octets n : forall s l, plain6 n s = Some l -> length l = (2 * n)%nat /\ octets l.
Proof.
  induction n as [|n IH]; intros s l E; [done|]. cbn in E.
  destruct s as [|a [|b [|c [|d rest]]]]; try done.
  destruct (hex_octet a b) as [x|] eqn:Ex; [|done]. destruct (hex_octet c d) as [y|] eqn:Ey; [|done].
  apply hex_octet_range in Ex, Ey. destruct n as [|n].
  - destruct rest; [|done]. injection E as <-. split; [done|]. by apply Forall_cons; split; [|apply Forall_singleton].
  - destruct rest as [|colon rest]; [done|]. destruct (colon =b ":"); [|done].
    destruct (plain6 (S n) rest) as [l'|] eqn:El; [|done]. injection E as <-. destruct (IH _ _ El) as [Hl Ho].
    split; [cbn [length]; lia|]. by apply Forall_cons; split; [|apply Forall_cons].
Qed.

Lemma dec_value_nonneg s : forall acc, 0 <= acc -> forallb is_digit s = true -> 0 <= dec_value acc s.
Proof.
  induction s as [|b s IH]; intros acc Ha H; [done|]. cbn in H. apply andb_true_iff in H as [Hb H].
  change (dec_value acc (b :: s)) with (dec_value (acc * 10 + (bz b - bz "0")) s).
  apply IH; [|done]. pose proof (is_digit_range b Hb). lia.
Qed.

Lemma dec_octet_range s x : dec_octet s = Some x -> 0 <= x < 256.
Proof.
  unfold dec_octet. destruct (forallb is_digit s) eqn:Hd; [|done]. cbn [andb]. destruct (_ && _ && _); [|done].
  cbn zeta. destruct (Z.leb_spec (dec_value 0 s) 255); [|done]. intros [= <-].
  pose proof (dec_value_nonneg s 0 ltac:(lia) Hd). lia.
Qed.

Lemma plain4_octets s l : plain4 s = Some l -> length l = 4%nat /\ octets l.
Proof.
  unfold plain4. intros E. break; simplify_eq/=.
  split; [done|]. unfold octets. rewrite !Forall_cons, Forall_nil. eauto 10 using dec_octet_range.
Qed.

Lemma print6_parses n : forall l, length l = (2 * S n)%nat -> octets l ->
  plain6 (S n) (print6 l) = Some l /\ (length (print6 l) = 5 * n + 4)%nat /\
  "/"%byte ∉ print6 l /\ (n <> 0%nat -> ":"%byte ∈ print6 l).
Proof.
  induction n as [|n IH]; intros l Hl Ho.
  - destruct l as [|x [|y [|]]]; try done. apply Forall_cons in Ho as [Hx Ho]. apply Forall_cons in Ho as [Hy _].
    destruct (octet_printed x Hx) as (_ & _ & _ & _ & _ & Ex & _ & Sx).
    destruct (octet_printed y Hy) as (_ & _ & _ & _ & _ & Ey & _ & Sy).
    cbn [print6]. rewrite app_nil_r. split; [unfold group_octet; cbn [app plain6]; by rewrite Ex, Ey|]. split; [done|]. split; [|done].
    rewrite elem_of_app. by intros [?|?].
  - destruct l as [|x [|y l]]; [done|cbn in Hl; lia|]. apply Forall_cons in Ho as [Hx Ho]. apply Forall_cons in Ho as [Hy Ho].
    assert (length l = (2 * S n)%nat) as Hl' by (cbn in *; lia).
    destruct (IH l Hl' Ho) as (Ep & El & Es & _).
    destruct (octet_printed x Hx) as (_ & _ & _ & _ & _ & Ex & _ & Sx).
    destruct (octet_printed y Hy) as (_ & _ & _ & _ & _ & Ey & _ & Sy).
    assert (print6 (x :: y :: l) = group_octet x ++ group_octet y ++ ":"%byte :: print6 l) as ->.
    { cbn [print6]. by destruct l. }
    split; [|split; [|split]].
    + unfold group_octet. cbn [app]. remember (S n) as m. cbn [plain6]. rewrite Ex, Ey. subst m. cbn [byte_eqb].
      change (":" =b ":") with true. cbn iota. by rewrite Ep.
    + rewrite !length_app. cbn [length group_octet]. rewrite El. lia.
    + rewrite !elem_of_app, elem_of_cons. by intros [?|[?|[?|?]]].
    + intros _. rewrite !elem_of_app, elem_of_cons. auto.
Qed.

#[export] Instance full_form_laws : InetLaws full_form.
Proof.
  split.
  - intros [|] s out E; [exact (plain6_octets 8 _ _ E)|exact (plain4_octets _ _ E)].
  - intros [|] l Hl Ho; cbn [width] in Hl.
    + destruct (print6_parses 7 l Hl Ho) as (Ep & El & Es & Ec). exists (print6 l). split; [done|]. split; [done|].
      split; [by intros E; rewrite E in El|]. split; [unfold INET6_ADDRSTRLEN; lia|]. split; [by apply bool_decide_eq_true, Ec|done].
    + destruct l as [|a [|b [|c [|d [|]]]]]; try done.
      unfold octets in Ho. rewrite !Forall_cons in Ho. destruct Ho as (? & ? & ? & ? & _).
      repeat match goal with H : 0 <= _ < 256 |- _ => apply octet_printed in H as (? & ? & ? & ? & ? & _) end.
      exists (print4 [a; b; c; d]). cbn [print4]. split; [done|]. split; [|split; [|split; [|split]]].
      * cbn [inet_pton full_form]. unfold plain4. rewrite !split_at_byte_some by done.
        by repeat match goal with H : dec_octet _ = _ |- _ => rewrite H; clear H end.
      * destruct (num a); done.
      * assert (zlen (num a ++ "."%byte :: num b ++ "."%byte :: num c ++ "."%byte :: num d) <= 15) as Hfit.
        { rewrite !zlen_app, !zlen_cons, !zlen_app, !zlen_cons, !zlen_app, zlen_cons. lia. }
        unfold INET6_ADDRSTRLEN. unfold zlen in Hfit. lia.
      * apply bool_decide_eq_false. rewrite !elem_of_app, !elem_of_cons, !elem_of_app, !elem_of_cons, !elem_of_app, !elem_of_cons. naive_solver.
      * rewrite !elem_of_app, !elem_of_cons, !elem_of_app, !elem_of_cons, !elem_of_app, !elem_of_cons. naive_solver.
Qed.

(** ** The theorems about addresses, on these conversions *)

Definition a_delegation : list byte := bytes "2001:0db8:1234:56ff:0000:0000:0000:0000/56".
Definition a_suffix : list byte := bytes "0000:0000:0000:0000:0000:0000:0000:0001/64".
Definition a_derived : list byte := bytes "2001:0db8:1234:560a:0000:0000:0000:0001/64".

Lemma delegation_exact_witness :
  exists block host, address_parse (Some a_delegation) = Some block /\ address_parse (Some a_suffix) = Some host /\
    address_from_delegation (Some a_delegation) 10 (Some a_suffix) 50 = Some a_derived /\
    subnet_contains (Some a_delegation) (Some a_derived) = true /\
    address_from_delegation (Some a_delegation) 256 (Some a_suffix) 50 = None.
Proof.
  eexists _, _. split; [vm_compute; reflexivity|]. split; [vm_compute; reflexivity|].
  assert (address_from_delegation (Some a_delegation) 10 (Some a_suffix) 50 = Some a_derived) as E
    by (vm_compute; reflexivity).
  split; [exact E|]. split.
  - destruct (delegation_exact (I := full_form) a_delegation a_suffix 10 50 _ _ ltac:(vm_compute; reflexivity) ltac:(vm_compute; reflexivity)
      ltac:(split; reflexivity) ltac:(split; reflexivity) ltac:(done)) as (out & a & Eo & _ & _ & _ & _ & Hc & _).
    rewrite E in Eo. injection Eo as <-. exact Hc.
  - exact (delegation_exact (I := full_form) a_delegation a_suffix 256 50 _ _ ltac:(vm_compute; reflexivity) ltac:(vm_compute; reflexivity)
      ltac:(split; reflexivity) ltac:(split; reflexivity) ltac:(done)).
Defined.

Lemma address_equal_exact_witness :
  plan_address_equal (Some (bytes "2001:0DB8:0000:0000:0000:0000:0000:0000/032"))
    (Some (bytes "2001:0db8:0000:0000:0000:0000:0000:0000/32")) = true /\
  plan_address_equal (Some (bytes "10.0.0.1")) (Some (bytes "10.0.0.1/32")) = false.
Proof.
  split.
  - eapply eq_trans; [eapply (proj1 (address_equal_exact (I := full_form) _ _)); vm_compute; reflexivity|].
    vm_compute. reflexivity.
  - eapply eq_trans; [eapply (proj1 (address_equal_exact (I := full_form) _ _)); vm_compute; reflexivity|].
    vm_compute. reflexivity.
Defined.

Lemma network_of_exact_witness :
  address_network_of (Some (bytes "10.1.2.3/12")) 50 = (0, Some (bytes "10.0.0.0/12")) /\
  exists r out net, address_network_of (Some (bytes "10.1.2.3/12")) 50 = (r, Some out) /\
    address_parse (Some out) = Some net /\ is_network net.
Proof.
  split; [vm_compute; reflexivity|].
  destruct (network_of_exact (I := full_form) (bytes "10.1.2.3/12") 50 ltac:(done)) as (r & out & net & H1 & H2 & _ & _ & _ & H3 & _).
  by exists r, out, net.
Defined.
