(* ===== verification/HardwareSpec.v ===== *)
(** * HardwareSpec: the two readers of a hardware address

    [ncfg_hardware_address_typed] against the digits a text holds, and its
    agreement with [ncfg_hardware_address_strict]. *)
From S2P Require Import Prelude Value.
#[local] Open Scope Z_scope.

Definition is_separator (b : byte) : bool := (b =b ":") || (b =b "-").

(** The digits of a text, -1 standing for what is neither a digit nor a
    separator, and the octets they pair up to. *)
Definition digits_of (s : list byte) : list Z :=
  map hex_value (filter (fun b => is_separator b = false) s).

Fixpoint pair_up (ds : list Z) : list Z :=
  match ds with
  | h :: l :: rest => Z.lor (Z.shiftl h 4) l :: pair_up rest
  | _ => []
  end.

(** What a person typed, as a reference: twelve digits, and nothing else but
    separators and the blanks around them. *)
Definition typed_reference (s : list byte) : option (list byte) :=
  let ds := digits_of (trimmed s) in
  if forallb (fun d => 0 <=? d) ds && (length ds =? 12)%nat then Some (write_octets (pair_up ds)) else None.

Lemma list_two_ind {A} (P : list A -> Prop) :
  P [] -> (forall a, P [a]) -> (forall a b l, P l -> P (a :: b :: l)) -> forall l, P l.
Proof.
  intros H0 H1 H2 l. assert (P l /\ forall a, P (a :: l)) as [? _]; [|done].
  induction l as [|b l [IH1 IH2]]; split; auto.
Qed.

Lemma pair_up_even (ds : list Z) d : Nat.even (length ds) = true -> pair_up (ds ++ [d]) = pair_up ds.
Proof.
  revert d. induction ds as [|a|a b ds IH] using list_two_ind; intros d H; [done..|]. cbn [app pair_up]. by rewrite IH.
Qed.

Lemma pair_up_odd ds h d : Nat.even (length ds) = true -> pair_up (ds ++ [h; d]) = pair_up ds ++ [Z.lor (Z.shiftl h 4) d].
Proof. induction ds as [|a|a b ds IH] using list_two_ind; intros H; [done..|]. cbn [app pair_up]. by rewrite IH. Qed.

(** The state of the loop after the digits [ds], while there are at most
    twelve. *)
Definition typed_inv (s : typed_state) (ds : list Z) : Prop :=
  ty_seen s = zlen ds /\ length (ty_values s) = 6%nat /\
  ((length ds <= 12)%nat ->
     take (Nat.div2 (length ds)) (ty_values s) = pair_up ds /\
     (Nat.even (length ds) = false -> last ds = Some (ty_high s))).

Lemma take_insert_last {A} n (v : A) l : (n < length l)%nat -> take (S n) (<[n := v]> l) = take n l ++ [v].
Proof.
  intros H. rewrite (take_S_r _ _ v) by (by rewrite list_lookup_insert, decide_True).
  by rewrite take_insert_ge.
Qed.

Lemma typed_step_digit s ds b :
  typed_inv s ds -> is_separator b = false -> 0 <= hex_value b ->
  exists s', typed_step s b = Some s' /\ typed_inv s' (ds ++ [hex_value b]).
Proof.
  intros (Hseen & Hlen & Hvals) Hsep Hd. unfold typed_step. fold (is_separator b). rewrite Hsep.
  rewrite (proj2 (Z.ltb_ge _ _) Hd). eexists. split; [reflexivity|].
  unfold typed_inv. rewrite zlen_app, length_app. change (zlen [hex_value b]) with 1. change (length [hex_value b]) with 1%nat.
  destruct (Z.ltb_spec (ty_seen s) 12) as [H12|H12].
  2:{ cbn. split; [lia|]. split; [done|]. intros Hle. unfold zlen in Hseen. lia. }
  assert (length ds <= 11)%nat as H11 by (unfold zlen in Hseen; lia). destruct (Hvals ltac:(lia)) as [Ht Hh].
  rewrite Hseen. unfold zlen. destruct (Nat.even (length ds)) eqn:Ev.
  - apply Nat.even_spec in Ev as [k Ek]. rewrite Ek in *.
    replace (Z.of_nat (2 * k) mod 2 =? 0) with true by (symmetry; apply Z.eqb_eq; zdiv). cbn [ty_values ty_seen ty_high].
    split; [lia|]. split; [done|]. intros _. rewrite Nat.add_1_r, Nat.div2_succ_double, last_snoc. rewrite Nat.div2_double in Ht.
    split; [|done]. rewrite pair_up_even; [done|]. rewrite Ek. by rewrite Nat.even_mul.
  - assert (exists k, length ds = 2 * k + 1)%nat as [k Ek].
    { apply not_true_iff_false in Ev. destruct (Nat.Even_or_Odd (length ds)) as [He|[k Hk]]; [|by exists k].
      by apply Nat.even_spec in He. }
    rewrite Ek in *. replace (Z.of_nat (2 * k + 1) mod 2 =? 0) with false by (symmetry; apply Z.eqb_neq; zdiv).
    cbn [ty_values ty_seen ty_high]. split; [lia|]. split; [by rewrite length_insert|]. intros _.
    specialize (Hh eq_refl). apply last_Some in Hh as [pre ->].
    rewrite length_app in Ek. change (length [ty_high s]) with 1%nat in Ek. assert (length pre = 2 * k)%nat as Epre by lia.
    replace (2 * k + 1 + 1)%nat with (2 * S k)%nat by lia. rewrite Nat.div2_double, Nat.even_mul. split; [|done].
    replace (Z.to_nat (Z.of_nat (2 * k + 1) / 2)) with k by zdiv. rewrite take_insert_last by lia.
    rewrite <- app_assoc. cbn [app]. assert (Nat.even (length pre) = true) as Hev by (rewrite Epre; by rewrite Nat.even_mul).
    rewrite pair_up_odd by done. f_equal. rewrite pair_up_even in Ht by done.
    rewrite Nat.add_1_r, Nat.div2_succ_double in Ht. done.
Qed.

Lemma typed_loop_spec text : forall s ds,
  typed_inv s ds ->
  if forallb (fun d => 0 <=? d) (digits_of text)
  then exists s', typed_loop s text = Some s' /\ typed_inv s' (ds ++ digits_of text)
  else typed_loop s text = None.
Proof.
  induction text as [|b text IH]; intros s ds Hinv.
  - cbn. exists s. by rewrite app_nil_r.
  - unfold digits_of. rewrite filter_cons. destruct (decide (is_separator b = false)) as [Hsep|Hsep].
    + cbn [map forallb]. fold (digits_of text). cbn [typed_loop]. destruct (Z.leb_spec 0 (hex_value b)) as [Hd|Hd]; cbn [andb].
      * destruct (typed_step_digit s ds b Hinv Hsep Hd) as (s' & -> & Hinv'). specialize (IH s' _ Hinv').
        destruct (forallb _ (digits_of text)); [|done]. destruct IH as (s2 & E & H2). exists s2. split; [done|].
        by rewrite <- app_assoc in H2.
      * unfold typed_step. fold (is_separator b). rewrite Hsep. by rewrite (proj2 (Z.ltb_lt _ _) Hd).
    + fold (digits_of text). apply not_false_iff_true in Hsep. cbn [typed_loop]. unfold typed_step. fold (is_separator b).
      rewrite Hsep. by apply IH.
Qed.

Lemma typed_is_reference junk t n :
  length junk = 6%nat -> HARDWARE_ADDRESS_MAX <= n -> hardware_address_typed junk (Some t) n = typed_reference t.
Proof.
  intros Hj Hn. unfold hardware_address_typed, hardware_room. rewrite (proj2 (Z.ltb_ge _ _) Hn). cbn [negb].
  change (default [] (Some t)) with t. pose proof (typed_loop_spec (trimmed t) (Typed junk 0 0) [] ltac:(done)) as H. unfold typed_reference.
  destruct (forallb _ _) eqn:Ed; [|by rewrite H]. destruct H as (s' & -> & Hseen & Hlen & Hvals). cbn [andb app] in *.
  rewrite Hseen. unfold zlen. destruct (Nat.eqb_spec (length (digits_of (trimmed t))) 12) as [E|E].
  - rewrite E in *. change (Z.of_nat 12 =? 12) with true. cbn [negb]. destruct (Hvals ltac:(lia)) as [<- _].
    change (Nat.div2 12) with 6%nat. by rewrite take_ge by lia.
  - by replace (Z.of_nat (length (digits_of (trimmed t))) =? 12) with false by (symmetry; apply Z.eqb_neq; lia).
Qed.

(** ** The strict reader *)

Lemma hex_digit_is_text b : 0 <= hex_value b -> is_separator b = false /\ is_blank b = false.
Proof. destruct b; try done; vm_compute; tauto. Qed.

Lemma hex_value_digit v : hex_value (hex_digit v) = Z.land v 15.
Proof.
  unfold hex_digit. assert (0 <= Z.land v 15 < 16) as H.
  { change 15 with (Z.ones 4). rewrite Z.land_ones by lia. apply Z.mod_pos_bound. lia. }
  assert (forallb (fun k => hex_value (nth (Z.to_nat k) hex_digits_upper x00) =? k) (seqZ 0 16) = true) as Hall by by vm_compute.
  rewrite forallb_forall in Hall. apply Z.eqb_eq, Hall, list_elem_of_In, elem_of_seqZ. lia.
Qed.

Lemma octet_join v : 0 <= v < 256 -> Z.lor (Z.shiftl (Z.land (Z.shiftr v 4) 15) 4) (Z.land v 15) = v.
Proof.
  intros Hv. change 15 with (Z.ones 4). rewrite !Z.land_ones, Z.shiftr_div_pow2 by lia.
  rewrite lor_shiftl by (try lia; apply Z.mod_pos_bound; lia). change (2 ^ 4) with 16. zdiv.
Qed.

Lemma strict_octet_written t k v :
  nth (k * 3) t x00 = hex_digit (Z.shiftr v 4) -> nth (k * 3 + 1) t x00 = hex_digit v ->
  ((k < 5)%nat -> nth (k * 3 + 2) t x00 = ":"%byte) -> 0 <= v < 256 -> strict_octet t k = Some v.
Proof.
  intros Eh El Ec Hv. unfold strict_octet. rewrite Eh, El, !hex_value_digit.
  assert (forall z, 0 <= Z.land z 15) as Hpos by (intros z; apply Z.land_nonneg; lia).
  rewrite !(proj2 (Z.ltb_ge _ 0)) by apply Hpos. cbn [orb]. rewrite octet_join by done.
  destruct (Nat.ltb_spec k 5) as [Hk|Hk]; [|done]. by rewrite Ec, byte_eqb_refl.
Qed.

(** What either reader writes is read back by the strict one, unchanged. *)
Lemma strict_written vs n :
  length vs = 6%nat -> octets vs -> HARDWARE_ADDRESS_MAX <= n ->
  length (write_octets vs) = 17%nat /\ hardware_address_strict (Some (write_octets vs)) n = Some (write_octets vs).
Proof.
  intros Hl Ho Hn. destruct vs as [|a [|b [|c [|d [|e [|f [|]]]]]]]; try done.
  unfold octets in Ho. rewrite !Forall_cons in Ho. destruct Ho as (Ha & Hb & Hc & Hd & He & Hf & _).
  split; [done|]. unfold hardware_address_strict, hardware_room. rewrite (proj2 (Z.ltb_ge _ _) Hn). cbn [negb].
  change (length (write_octets [a; b; c; d; e; f]) =? 17)%nat with true. cbn [negb].
  change (seq 0 6) with [0; 1; 2; 3; 4; 5]%nat. cbn [mapM].
  rewrite (strict_octet_written _ 0 a), (strict_octet_written _ 1 b), (strict_octet_written _ 2 c),
    (strict_octet_written _ 3 d), (strict_octet_written _ 4 e), (strict_octet_written _ 5 f) by (done || lia).
  done.
Qed.

Lemma digits_range s : forallb (fun d => 0 <=? d) (digits_of s) = true -> Forall (fun d => 0 <= d < 16) (digits_of s).
Proof.
  intros H. apply Forall_forall. intros d Hd. rewrite forallb_forall in H. split.
  - apply Z.leb_le, H. by apply list_elem_of_In.
  - unfold digits_of in Hd. apply list_elem_of_In, in_map_iff in Hd as (b & <- & _). unfold hex_value, byte_between.
    break; unbool; cbn in *; lia.
Qed.

Lemma pair_up_octets ds :
  Forall (fun d => 0 <= d < 16) ds -> octets (pair_up ds) /\ length (pair_up ds) = Nat.div2 (length ds).
Proof.
  induction ds as [|a|a b ds IH] using list_two_ind; intros H; [by split; [constructor|]..|].
  rewrite !Forall_cons in H. destruct H as (Ha & Hb & H). destruct (IH H) as [H1 H2]. cbn [pair_up length Nat.div2].
  split; [|by rewrite H2]. apply Forall_cons. split; [|done]. rewrite lor_shiftl by lia. lia.
Qed.

Lemma skip_blanks_stays b s : is_blank b = false -> skip_blanks (b :: s) = b :: s.
Proof. intros H. cbn. by rewrite H. Qed.

Lemma trimmed_stays t b e :
  head t = Some b -> last t = Some e -> is_blank b = false -> is_blank e = false -> trimmed t = t.
Proof.
  intros Eb Ee Hb He. destruct t as [|b' t]; [done|]. injection Eb as ->. unfold trimmed. rewrite skip_blanks_stays by done.
  apply last_Some in Ee as [l ->]. rewrite rev_app_distr. cbn [rev app]. rewrite skip_blanks_stays by done.
  cbn [rev]. by rewrite rev_involutive.
Qed.

Lemma strict_octet_digits t k v :
  strict_octet t k = Some v ->
  0 <= hex_value (nth (k * 3) t x00) /\ 0 <= hex_value (nth (k * 3 + 1) t x00) /\
  ((k < 5)%nat -> nth (k * 3 + 2) t x00 = ":"%byte) /\
  v = Z.lor (Z.shiftl (hex_value (nth (k * 3) t x00)) 4) (hex_value (nth (k * 3 + 1) t x00)).
Proof.
  unfold strict_octet. intros E. destruct (_ || _) eqn:Eo; [done|]. injection E as <-.
  apply orb_false_iff in Eo as [Eo Ec]. apply orb_false_iff in Eo as [Eh El]. unbool. split; [done|]. split; [done|].
  split; [|done]. intros Hk. rewrite (proj2 (Nat.ltb_lt _ _) Hk) in Ec. cbn [andb] in Ec.
  apply negb_false_iff in Ec. by destruct (byte_eqb_spec (nth (k * 3 + 2) t x00) ":"%byte).
Qed.

Lemma digits_of_digit b s : is_separator b = false -> digits_of (b :: s) = hex_value b :: digits_of s.
Proof. intros H. unfold digits_of. by rewrite filter_cons_True. Qed.

Lemma digits_of_colon s : digits_of (":"%byte :: s) = digits_of s.
Proof. unfold digits_of. by rewrite filter_cons_False. Qed.

Lemma strict_then_typed t n out :
  hardware_address_strict (Some t) n = Some out -> typed_reference t = Some out.
Proof.
  unfold hardware_address_strict. destruct (negb (hardware_room n)); [done|].
  destruct (Nat.eqb_spec (length t) 17) as [Hl|]; [|done]. cbn [negb].
  destruct (mapM (strict_octet t) (seq 0 6)) as [vs|] eqn:Em; [|done]. intros [= <-].
  change (seq 0 6) with [0; 1; 2; 3; 4; 5]%nat in Em. apply mapM_Some_1 in Em.
  repeat match goal with H : Forall2 _ (_ :: _) _ |- _ => apply Forall2_cons_inv_l in H as (? & ? & ? & H & ->) end.
  apply Forall2_nil_inv_l in Em as ->.
  do 17 (destruct t as [|? t]; [done|]). destruct t; [|done]. clear Hl.
  repeat match goal with H : strict_octet _ _ = Some _ |- _ => apply strict_octet_digits in H as (? & ? & ? & ->) end.
  cbn [nth Nat.mul Nat.add] in *.
  repeat match goal with H : (_ < 5)%nat -> _ = ":"%byte |- _ =>
    (rewrite (H ltac:(lia)) in *; clear H) || clear H end.
  repeat match goal with H : 0 <= hex_value ?b |- _ =>
    let H' := fresh in pose proof (hex_digit_is_text b H) as H'; apply Z.leb_le in H; destruct H' end.
  unfold typed_reference. erewrite trimmed_stays; [|reflexivity|reflexivity|done|done].
  repeat first [rewrite digits_of_colon | rewrite digits_of_digit by assumption]. change (digits_of []) with (@nil Z).
  cbn [forallb length pair_up].
  repeat match goal with H : (0 <=? hex_value ?b) = true |- context [0 <=? hex_value ?b] => rewrite H end.
  reflexivity.
Qed.

(** The two readers of a hardware address agree. The one for what a person
    types accepts exactly a text of twelve hexadecimal digits with colons,
    dashes or nothing between them and blanks around it, whatever the
    uninitialised array held, and writes those digits as six upper-case octets.
    The strict one accepts fewer texts and reads each as the other does; what
    either writes is read back by both, unchanged, so one address has one
    spelling. *)
Theorem hardware_readers_agree (junk : list Z) (t out : list byte) (n : Z) :
  length junk = 6%nat -> HARDWARE_ADDRESS_MAX <= n ->
  hardware_address_typed junk (Some t) n = typed_reference t /\
  (hardware_address_strict (Some t) n = Some out -> hardware_address_typed junk (Some t) n = Some out) /\
  (hardware_address_typed junk (Some t) n = Some out ->
     length out = 17%nat /\ hardware_address_strict (Some out) n = Some out /\
     hardware_address_typed junk (Some out) n = Some out).
Proof.
  intros Hj Hn. rewrite !typed_is_reference by done. split; [done|]. split; [apply strict_then_typed|].
  intros E. assert (length out = 17%nat /\ hardware_address_strict (Some out) n = Some out) as [Hl Hs].
  { unfold typed_reference in E. destruct (forallb _ _) eqn:Ed; [|done].
    destruct (Nat.eqb_spec (length (digits_of (trimmed t))) 12) as [E12|]; [|done]. injection E as <-.
    destruct (pair_up_octets _ (digits_range _ Ed)) as [Ho Hp]. rewrite E12 in Hp. by apply strict_written. }
  split; [done|]. split; [done|]. by apply strict_then_typed with n.
Qed.

Lemma hardware_readers_agree_witness :
  hardware_address_typed (replicate 6 0) (Some (bytes " aa-bbCC:dd-ee0f ")) 18 = Some (bytes "AA:BB:CC:DD:EE:0F") /\
  hardware_address_strict (Some (bytes " aa-bbCC:dd-ee0f ")) 18 = None /\
  hardware_address_strict (Some (bytes "AA:BB:CC:DD:EE:0F")) 18 = Some (bytes "AA:BB:CC:DD:EE:0F").
Proof.
  split; [vm_compute; reflexivity|]. split; [vm_compute; reflexivity|].
  apply (hardware_readers_agree (replicate 6 0) (bytes " aa-bbCC:dd-ee0f ") (bytes "AA:BB:CC:DD:EE:0F") 18);
    [reflexivity|done|vm_compute; reflexivity].
Defined.

(** A closed set's two directions share one table: a word of the set reads as
    its index and is written back, and nothing else has a word. *)
Lemma word_index_spec names word i :
  NoDup names -> forall k, word_index names word i = Some k <-> exists m, k = i + Z.of_nat m /\ names !! m = Some word.
Proof.
  revert i. induction names as [|x names IH]; intros i Hnd k; cbn.
  - split; [done|]. by intros (m & _ & E).
  - apply NoDup_cons in Hnd as [Hx Hnd]. case_bool_decide as E.
    + subst. split; [intros [= <-]; exists 0%nat; split; [lia|done]|]. intros (m & -> & Em). destruct m as [|m]; [f_equal; lia|].
      exfalso. apply Hx. apply list_elem_of_lookup_2 with m. exact Em.
    + rewrite IH by done. split.
      * intros (m & -> & Em). exists (S m). split; [lia|done].
      * intros (m & -> & Em). destruct m as [|m]; [by injection Em|]. exists m. split; [lia|done].
Qed.

(** Every set of [model/value.c]: the word of a value reads back as the value,
    a word that is read has that value's name, and a value outside the set has
    no name. *)
Lemma closed_set_roundtrip names :
  In names [hook_phase_names; rule_action_names; rule_family_names; bluetooth_profile_names;
            drift_policy_names; dns_mode_names] ->
  forall z w, (0 <= z < zlen names \/ zlen names <= u32 z) ->
    (name_of names z = Some w <-> (0 <= z < zlen names /\ value_of names (Some w) = Some z)).
Proof.
  intros Hin z w Hz.
  assert (NoDup names /\ zlen names <= 11) as [Hnd Hlen].
  { cbn in Hin. repeat destruct Hin as [<-|Hin]; try done; (split; [apply (bool_decide_unpack _); by vm_compute|by vm_compute]). }
  unfold name_of, value_of. rewrite word_index_spec by done. rewrite Z.geb_leb.
  destruct Hz as [Hz|Hz].
  - rewrite u32_small by lia. rewrite (proj2 (Z.leb_gt _ _)) by lia. split.
    + intros E. split; [done|]. exists (Z.to_nat z). split; [lia|done].
    + intros (_ & m & -> & E). by rewrite Z.add_0_l, Nat2Z.id.
  - rewrite (proj2 (Z.leb_le _ _)) by lia. split; [done|]. intros (Hr & _). rewrite u32_small in Hz by lia. lia.
Qed.
