(* ===== verification/Builder.v ===== *)
(** * Builder: the one door every planned action goes through

    Models the part of [plan/build.c] the passes share: what is collected
    before anything is planned ([prepare], [ncfg_plan_clearing_collect]), the
    confirm window, and [ncfg_builder_push] with its locks and guards.  The
    records keep the members of [ncfg_document_t], [ncfg_plan_options_t] and
    [ncfg_builder_t] that this code reads.

    What a pass does to a plan is the class [PlanOps]. The passes are written
    against it once and run on two plans: the one of [plan/plan.c], with its
    heap and its failures, and a [view] of it, the lists alone. *)
From S2P Require Import Prelude Op Heap Plan.
From stdpp Require Import gmap pretty.
#[local] Open Scope Z_scope.

(** ** What the builder reads *)

Inductive on_unmanage : Set := ON_UNMANAGE_LEAVE | ON_UNMANAGE_CLEAR.

#[export] Instance on_unmanage_eq_dec : EqDecision on_unmanage.
Proof. solve_decision. Defined.

Inductive slaac_privacy : Set := SLAAC_PRIVACY_NONE | SLAAC_PRIVACY_PREFER_TEMPORARY.

#[export] Instance slaac_privacy_eq_dec : EqDecision slaac_privacy.
Proof. solve_decision. Defined.

(** [ncfg_address_source_t]: its kind, and of a SLAAC source the privacy. *)
Inductive address_source : Set :=
| SOURCE_STATIC | SOURCE_DELEGATED | SOURCE_DHCP4 | SOURCE_DHCP6
| SOURCE_SLAAC (privacy : slaac_privacy) | SOURCE_LINK_LOCAL | SOURCE_REPORTED.

Record interface := Interface {
  if_name : cstr; if_guard : option cstr; if_addressing : list address_source;
  if_forwarding : option bool }.

Record device := Device {
  dv_name : cstr; dv_managed : bool; dv_on_unmanage : on_unmanage;
  dv_kind : kind_tag; dv_veth_peer : cstr }.

Record globals := Globals { gl_locked : list cstr; gl_confirm_default : optint }.

Record document := Document {
  dc_globals : globals; dc_interfaces : list interface; dc_devices : list device;
  dc_rules : list routing_rule }.

Record plan_options := PlanOptions {
  po_confirm_window : optint; po_revert_to : cstr; po_allow_disruption : list cstr }.

Record plan_guard := PlanGuard { pg_interface : cstr; pg_reason : cstr }.

(** [ncfg_plan_mark_t]: a name and the id of an action on it. *)
Record plan_mark := PlanMark { pm_name : cstr; pm_id : Z }.

Record builder := Builder {
  bd_desired : document;
  bd_options : option plan_options;
  bd_guards : list plan_guard;
  bd_gates : list plan_mark;
  bd_declined : list cstr;
  bd_appearing : list cstr;
  bd_unmanaged : list cstr;
  bd_clearing : list cstr;
  bd_tearing_down : bool }.

(** ** What a pass does to a plan *)

Class PlanOps (B : Type) (M : Type -> Type) := {
  ops_ret : MRet M;
  ops_bind : MBind M;
  ops_add : op B -> reason -> list Z -> option (op B) -> M Z;
  ops_warnf : cstr -> string -> M unit;
  ops_refuse : refusal -> M unit;
  ops_intern : cstr -> M cstr;
  ops_intern_rule : option routing_rule -> M (option routing_rule);
  (** The [realloc] of one of the builder's own lists; refused, it marks the
      plan failed. *)
  ops_room : M bool }.

#[export] Existing Instance ops_ret | 100.
#[export] Existing Instance ops_bind | 100.

(** [%s] of a NULL. *)
Definition fmt (s : cstr) : string := default "(null)" s.

(** [ncfg_plan_names]. *)
Definition plan_names (l : list cstr) (name : cstr) : bool :=
  match name with
  | None => false
  | Some n => existsb (fun x => bool_decide (x = Some n)) l
  end.

Definition OP_SUBJECT_MAX : nat := 192.

(** [ncfg_plan_confirm_window]. *)
Definition confirm_window (desired : document) (options : option plan_options) : optint :=
  match options with
  | Some (PlanOptions (Some w) _ _) => if w >? 0 then Some w else None
  | _ =>
      match gl_confirm_default (dc_globals desired) with
      | Some d => if d >? 0 then Some d else None
      | None => None
      end
  end.

(** [ncfg_plan_clearing]. *)
Definition plan_clearing (b : builder) (name : cstr) : bool := plan_names (bd_clearing b) name.

(** What is before the first [:] of a text, if there is one. *)
Fixpoint before_colon (s : string) : option string :=
  match s with
  | EmptyString => None
  | String a rest =>
      if Ascii.eqb a (Ascii.ascii_of_N 58) then Some ""
      else match before_colon rest with Some l => Some (String a l) | None => None end
  end.

Section Passes.
Context {B : Type} {M : Type -> Type} {O : PlanOps B M}.

(** [ncfg_plan_internf]: the text is cut to what [char text[NCFG_ERROR_MAX]]
    holds. *)
Definition internf (formatted : string) : M cstr := ops_intern (Some (snprintf_cut ERROR_MAX formatted)).

(** [locked]: the loop over the entries of [global { locked }]. *)
Fixpoint locked_loop (o : op B) (why : reason) (subject : string) (entries : list cstr) : M bool :=
  match entries with
  | [] => mret false
  | e :: rest =>
      if negb (bool_decide (e = Some subject)) then locked_loop o why subject rest
      else
        guard ← internf ("`" +:+ subject +:+ "` is locked");
        over ← internf ("remove `" +:+ subject +:+ "` from `global { locked = [...] }`");
        _ ← ops_refuse (Refusal (op_interface o) (Some (op_name o)) guard why over);
        mret true
  end.

Definition locked (b : builder) (o : op B) (why : reason) : M bool :=
  match gl_locked (dc_globals (bd_desired b)) with
  | [] => mret false
  | entries =>
      match op_subject o OP_SUBJECT_MAX with
      | None => mret false
      | Some subject => locked_loop o why subject entries
      end
  end.

(** [refused]: a guard on the interface of a disruptive action. *)
Fixpoint guard_loop (o : op B) (why : reason) (iface : string) (guards : list plan_guard) : M bool :=
  match guards with
  | [] => mret false
  | g :: rest =>
      if negb (bool_decide (pg_interface g = Some iface)) then guard_loop o why iface rest
      else
        over ← internf ("ncfg apply --allow-disruption " +:+ iface);
        _ ← ops_refuse (Refusal (Some iface) (Some (op_name o)) (pg_reason g) why over);
        mret true
  end.

Definition refused (b : builder) (o : op B) (why : reason) : M bool :=
  if negb (op_is_disruptive o) then mret false
  else
    match op_interface o with
    | None => mret false
    | Some iface =>
        match bd_options b with
        | Some options =>
            if plan_names (po_allow_disruption options) (Some iface) then mret false
            else guard_loop o why iface (bd_guards b)
        | None => guard_loop o why iface (bd_guards b)
        end
    end.

(** [ncfg_builder_push]. *)
Definition builder_push (b : builder) (o : op B) (why : reason) (depends_on : list Z)
    (inverse : option (op B)) : M Z :=
  let iface := op_interface o in
  if plan_names (bd_unmanaged b) iface && negb (bd_tearing_down b && plan_clearing b iface) then
    mret NO_ACTION
  else if plan_names (bd_declined b) iface then mret NO_ACTION
  else
    is_locked ← locked b o why;
    if (is_locked : bool) then mret NO_ACTION
    else
      is_refused ← refused b o why;
      if (is_refused : bool) then mret NO_ACTION
      else ops_add o why depends_on inverse.

(** [ncfg_plan_ids_t] and [ncfg_plan_ids_push]: the array doubles from 8. *)
Record plan_ids := PlanIds { pi_ids : list Z; pi_capacity : Z }.

Definition no_ids : plan_ids := PlanIds [] 0.

Definition ids_push (ids : plan_ids) (id : Z) : M plan_ids :=
  if zlen (pi_ids ids) =? pi_capacity ids then
    let wanted := if pi_capacity ids =? 0 then 8 else pi_capacity ids * 2 in
    ok ← ops_room;
    mret (if (ok : bool) then PlanIds (pi_ids ids ++ [id]) wanted else ids)
  else mret (PlanIds (pi_ids ids ++ [id]) (pi_capacity ids)).

(** [ncfg_builder_gate]. *)
Fixpoint gate_loop (gates : list plan_mark) (name : cstr) (out : plan_ids) : M plan_ids :=
  match gates with
  | [] => mret out
  | g :: rest =>
      if bool_decide (is_Some name) && bool_decide (pm_name g = name) then
        out ← ids_push out (pm_id g);
        gate_loop rest name out
      else gate_loop rest name out
  end.

Definition builder_gate (b : builder) (name : cstr) : M plan_ids := gate_loop (bd_gates b) name no_ids.

(** ** Before anything is planned *)

(** The check of the [locked] entries in [prepare]. *)
Fixpoint warn_locked (entries : list cstr) : M unit :=
  match entries with
  | [] => mret ()
  | None :: rest => warn_locked rest
  | Some e :: rest =>
      _ ← match before_colon e with
          | None | Some EmptyString =>
              ops_warnf None ("`locked` entry `" +:+ e +:+ "` is not a subject key: they read " +:+
                "`class:scope`, as `ncfg plan --json` writes them on each " +:+
                "action -- so this locks nothing")
          | Some class_name =>
              if op_subject_class_known (Some class_name) then mret ()
              else ops_warnf None ("`locked` entry `" +:+ e +:+ "` names no kind of object this build knows, so " +:+
                "it locks nothing -- either the class is misspelled or this " +:+
                "document was written for a newer netcfgd")
          end;
      warn_locked rest
  end.

(** The guards, in the order of the interfaces; [None] is the early return. *)
Fixpoint collect_guards (l : list interface) (acc : list plan_guard) : M (option (list plan_guard)) :=
  match l with
  | [] => mret (Some acc)
  | i :: rest =>
      match if_guard i with
      | Some (Some why) =>
          ok ← ops_room;
          if (ok : bool) then collect_guards rest (acc ++ [PlanGuard (if_name i) (Some why)])
          else mret None
      | _ => collect_guards rest acc
      end
  end.

(** [ncfg_builder_note_string]. *)
Definition note_string (l : list cstr) (value : cstr) : M (list cstr) :=
  ok ← ops_room;
  mret (if (ok : bool) then l ++ [value] else l).

(** The devices [prepare] notes: the unmanaged, and the peers of veths. *)
Fixpoint collect_devices (l : list device) (unmanaged appearing : list cstr) : M (list cstr * list cstr) :=
  match l with
  | [] => mret (unmanaged, appearing)
  | d :: rest =>
      unmanaged ← (if dv_managed d then mret unmanaged else note_string unmanaged (dv_name d));
      appearing ← (if bool_decide (dv_kind d = KIND_VETH) && bool_decide (is_Some (dv_veth_peer d))
                   then note_string appearing (dv_veth_peer d) else mret appearing);
      collect_devices rest unmanaged appearing
  end.

Definition with_collected (b : builder) (guards : list plan_guard) (unmanaged appearing : list cstr) : builder :=
  Builder (bd_desired b) (bd_options b) guards (bd_gates b) (bd_declined b) appearing unmanaged (bd_clearing b) (bd_tearing_down b).

(** [prepare]. *)
Definition prepare (b : builder) : M builder :=
  _ ← warn_locked (gl_locked (dc_globals (bd_desired b)));
  guards ← collect_guards (dc_interfaces (bd_desired b)) (bd_guards b);
  match guards with
  | None => mret b
  | Some guards =>
      noted ← collect_devices (dc_devices (bd_desired b)) (bd_unmanaged b) (bd_appearing b);
      mret (with_collected b guards noted.1 noted.2)
  end.

(** [ncfg_plan_clearing_collect]. *)
Fixpoint collect_clearing (l : list device) (clearing : list cstr) : M (list cstr) :=
  match l with
  | [] => mret clearing
  | d :: rest =>
      if dv_managed d || negb (bool_decide (dv_on_unmanage d = ON_UNMANAGE_CLEAR)) then
        collect_clearing rest clearing
      else
        clearing ← note_string clearing (dv_name d);
        collect_clearing rest clearing
  end.

Definition clearing_collect (b : builder) : M builder :=
  clearing ← collect_clearing (dc_devices (bd_desired b)) (bd_clearing b);
  mret (Builder (bd_desired b) (bd_options b) (bd_guards b) (bd_gates b) (bd_declined b) (bd_appearing b)
          (bd_unmanaged b) clearing (bd_tearing_down b)).

(** [plan_commit_arm]. *)
Definition commit_arm (b : builder) : M unit :=
  match confirm_window (bd_desired b) (bd_options b) with
  | None => mret ()
  | Some w =>
      desired ← internf (pretty w +:+ "s");
      let why := Reason None (Some "globals.confirm_default") desired (Some "<absent>") in
      match bd_options b with
      | Some (PlanOptions _ (Some hash) _) =>
          _ ← builder_push b (COMMIT_ARM w) why [] (Some (COMMIT_REVERT (Some hash)));
          mret ()
      | _ =>
          _ ← builder_push b (COMMIT_ARM w) why [] None;
          mret ()
      end
  end.

End Passes.

(** ** The plan of [plan/plan.c] *)

Definition on_plan {B A} (m : State (pmem * heap) A) : State (plan B * heap) A :=
  fun '(p, h) => let '(a, (m', h')) := m (p_mem p, h) in (a, (with_mem p m', h')).

(** A list of the builder's own grows: a block that is not the plan's. *)
Definition builder_room {B} (grant : nat -> bool) : State (plan B * heap) bool :=
  fun '(p, h) =>
    let n := h_ticks h in
    let h' := Heap (S n) (h_live h) (h_fault h) in
    if grant n then (true, (p, h'))
    else (false, (with_mem p (with_arena (p_mem p) (arena_fail (m_arena (p_mem p)))), h')).

#[export] Instance heap_ops {B} (grant : nat -> bool) : PlanOps B (State (plan B * heap)) := {
  ops_ret := state_ret _;
  ops_bind := state_bind _;
  ops_add := plan_add grant;
  ops_warnf := plan_warnf grant;
  ops_refuse := plan_refuse grant;
  ops_intern t := on_plan (pintern grant t);
  ops_intern_rule r := on_plan (intern_rule grant r);
  ops_room := builder_room grant }.

(** ** The lists alone *)

Record view (B : Type) := View {
  v_actions : list (action B); v_warnings : list warning; v_refusals : list refusal;
  v_stranded : list stranded }.

Arguments View {B}.
Arguments v_actions {B}.
Arguments v_warnings {B}.
Arguments v_refusals {B}.
Arguments v_stranded {B}.

Definition view_of {B} (p : plan B) : view B := View (p_actions p) (p_warnings p) (p_refusals p) (p_stranded p).

Definition irreversible {B} (o : op B) : warning :=
  Warning (op_interface o) (Some (op_name o +:+ " cannot be undone; commit-confirm will not revert it")).

Definition view_add {B} (o : op B) (why : reason) (deps : list Z) (inverse : option (op B)) : State (view B) Z :=
  fun v =>
    let id := u32 (zlen (v_actions v)) in
    (id, View (v_actions v ++ [Action id o why (kept_edges deps) inverse])
           (v_warnings v ++ match inverse with Some _ => [] | None => [irreversible o] end)
           (v_refusals v) (v_stranded v)).

#[export] Instance view_ops {B} : PlanOps B (State (view B)) := {
  ops_ret := state_ret _;
  ops_bind := state_bind _;
  ops_add := view_add;
  ops_warnf i t := fun v =>
    ((), View (v_actions v) (v_warnings v ++ [Warning i (Some (warnf_text t))]) (v_refusals v) (v_stranded v));
  ops_refuse r := fun v =>
    ((), View (v_actions v) (v_warnings v) (v_refusals v ++ [r]) (v_stranded v));
  ops_intern t := mret t;
  ops_intern_rule r := mret r;
  ops_room := mret true }.
