(* ===== verification/BuilderSpec.v ===== *)
(** * BuilderSpec: what gets past [ncfg_builder_push]

    A computation on the plan of [plan/plan.c] [refines] one on its lists alone
    when, unless memory ran out, it did the same to them: the reasoning about
    the passes is then about lists. [ncfg_plan_build] hands a plan out only when
    memory did not run out. *)
From S2P Require Import Prelude Op Heap Plan PlanSpec Builder.
From stdpp Require Import gmap.

Definition refines {B A} (m : State (plan B * heap) A) (f : State (view B) A) : Prop :=
  forall s a s', m s = (a, s') -> plan_failed s'.1 = false ->
    plan_failed s.1 = false /\ f (view_of s.1) = (a, view_of s'.1).

Section Refinement.
Context {B : Type} (grant : nat -> bool).

Lemma refines_ret {A} (a : A) :
  refines (@mret _ (@ops_ret B _ (heap_ops grant)) A a) (@mret _ (@ops_ret B _ view_ops) A a).
Proof. intros s x s' E Hf. injection E as <- <-. done. Qed.

Lemma refines_bind {A C} (m : State (plan B * heap) A) (f : State (view B) A)
    (k : A -> State (plan B * heap) C) (g : A -> State (view B) C) :
  refines m f -> (forall a, refines (k a) (g a)) ->
  refines (@mbind _ (@ops_bind B _ (heap_ops grant)) _ _ k m) (@mbind _ (@ops_bind B _ view_ops) _ _ g f).
Proof.
  intros Hm Hk s c s' E Hf. change ((let '(a, s1) := m s in k a s1) = (c, s')) in E. destruct (m s) as [a s1] eqn:Em.
  destruct (Hk a s1 c s' E Hf) as [Hf1 Hg]. destruct (Hm s a s1 Em Hf1) as [Hf0 Hv].
  split; [done|]. change ((let '(a, v) := f (view_of s.1) in g a v) = (c, view_of s'.1)). by rewrite Hv.
Qed.

Lemma plan_add_not_failed o why deps inv (p : plan B) h r :
  plan_add grant o why deps inv (p, h) = r -> plan_failed r.2.1 = false -> plan_failed p = false.
Proof.
  intros <- Hf. destruct (plan_failed p) eqn:E; [|done]. unfold plan_add in Hf. rewrite E in Hf. cbn in Hf. congruence.
Qed.

Lemma refines_add o why deps inv :
  refines (@ops_add B _ (heap_ops grant) o why deps inv) (@ops_add B _ view_ops o why deps inv).
Proof.
  intros [p h] id [p' h'] E Hf. cbn in *. split; [exact (plan_add_not_failed _ _ _ _ _ _ _ E Hf)|].
  destruct (plan_add_appends _ _ _ _ _ _ _ _ _ _ E Hf) as (-> & Ha & Hw & Hr & Hs).
  unfold view_of, view_add. cbn. rewrite Ha, Hw, Hr, Hs. done.
Qed.

Lemma refines_warnf i t :
  refines (@ops_warnf B _ (heap_ops grant) i t) (@ops_warnf B _ view_ops i t).
Proof.
  intros [p h] u [p' h'] E Hf. cbn in *. unfold plan_warnf in E.
  destruct (plan_warn_spec _ _ _ _ _ _ _ _ E) as (Ha & Hr & Hs & Hst & Hw). destruct u. split.
  - destruct (plan_failed p) eqn:Ef; [|done]. by rewrite Hst in Hf.
  - unfold view_of. cbn. by rewrite Ha, Hr, Hs, (Hw Hf).
Qed.

(** What [ncfg_plan_refuse] writes into its slot. *)
Definition intern_refusal (r : refusal) : State (pmem * heap) refusal :=
  interface ← pintern grant (rf_interface r);
  o ← pintern grant (rf_op r);
  guard ← pintern grant (rf_guard r);
  why ← intern_reason grant (rf_reason r);
  override_with ← pintern grant (rf_override_with r);
  mret (Refusal interface o guard why override_with).

Lemma intern_refusal_copies r : copies (intern_refusal r) r.
Proof.
  destruct r as [ri ro rg rw rv]. unfold intern_refusal. cbn [rf_interface rf_op rf_guard rf_reason rf_override_with].
  repeat first [eapply copies_bind; [apply pintern_copies|intros; solve_mono|]
               |eapply yields_bind; [apply pintern_copies|intros; solve_mono|]
               |eapply yields_bind; [apply intern_reason_copies|intros; solve_mono|]].
  apply yields_ret.
Qed.

Lemma refines_refuse r :
  refines (@ops_refuse B _ (heap_ops grant) r) (@ops_refuse B _ view_ops r).
Proof.
  intros [p h] u [p' h'] E Hf. change (plan_refuse grant r (p, h) = (u, (p', h'))) in E. unfold plan_refuse in E.
  destruct (grow _ _ _) as [head [m1 h1]] eqn:Eg.
  destruct (grow_failed _ _ _ _ _ _ _ Eg) as [Hn Hs]. destruct head as [g|].
  2:{ simplify_eq. unfold plan_failed in Hf. cbn in Hf. rewrite Hn in Hf; done. }
  fold (intern_refusal r) in E. destruct (intern_refusal r (m1, h1)) as [slot [m2 h2]] eqn:E2. simplify_eq.
  destruct (intern_refusal_copies r) as [Hm Hy]. unfold plan_failed in *. cbn in Hf.
  pose proof (Hm _ _ _ E2) as (_ & _ & Hst). cbn in Hst.
  rewrite (Hy _ _ _ E2 Hf). split; [|done]. cbn. destruct (m_failed (p_mem p)) eqn:Ef; [|done].
  rewrite Hst in Hf by (by apply Hs). done.
Qed.

Lemma refines_on_plan {A} (m : State (pmem * heap) A) v :
  copies m v -> refines (B := B) (on_plan m) (fun w => (v, w)).
Proof.
  intros [Hm Hy] [p h] a [p' h'] E Hf. unfold on_plan in E. destruct (m (p_mem p, h)) as [x [m' h1]] eqn:Em. simplify_eq.
  unfold plan_failed in *. cbn in Hf. pose proof (Hm _ _ _ Em) as (_ & _ & Hst). cbn in Hst.
  rewrite (Hy _ _ _ Em Hf). split; [|done]. destruct (m_failed (p_mem p)) eqn:Ef; [|done]. by rewrite Hst in Hf.
Qed.

Lemma refines_intern t : refines (@ops_intern B _ (heap_ops grant) t) (@ops_intern B _ view_ops t).
Proof. apply (refines_on_plan (pintern grant t)), pintern_copies. Qed.

Lemma refines_intern_rule r : refines (@ops_intern_rule B _ (heap_ops grant) r) (@ops_intern_rule B _ view_ops r).
Proof. apply (refines_on_plan (intern_rule grant r)), intern_rule_copies. Qed.

Lemma refines_room : refines (@ops_room B _ (heap_ops grant)) (@ops_room B _ view_ops).
Proof.
  intros [p h] a [p' h'] E Hf. cbn in *. destruct (grant (h_ticks h)); simplify_eq; done.
Qed.

End Refinement.

Create HintDb refines.
#[export] Hint Resolve refines_ret refines_add refines_warnf refines_refuse refines_intern
  refines_intern_rule refines_room : refines.

(** One shape of code after another: a bind, a branch, a known step. *)
Ltac solve_refines :=
  repeat first
    [ progress intros
    | solve [eauto with refines]
    | apply refines_bind
    | progress cbn zeta
    | match goal with |- refines (match ?x with _ => _ end) _ => destruct x end
    | match goal with |- refines (if ?x then _ else _) _ => destruct x end ].

Section Passes.
Context {B : Type} (grant : nat -> bool).

Lemma internf_refines t : refines (internf (O := heap_ops grant) t) (internf (B := B) (O := view_ops) t).
Proof. unfold internf. solve_refines. Qed.

#[local] Hint Resolve internf_refines : refines.

Lemma locked_loop_refines (o : op B) why subject entries :
  refines (locked_loop (O := heap_ops grant) o why subject entries) (locked_loop (O := view_ops) o why subject entries).
Proof. induction entries as [|e entries IH]; cbn [locked_loop]; solve_refines. Qed.

Lemma guard_loop_refines (o : op B) why iface guards :
  refines (guard_loop (O := heap_ops grant) o why iface guards) (guard_loop (O := view_ops) o why iface guards).
Proof. induction guards as [|e entries IH]; cbn [guard_loop]; solve_refines. Qed.

#[local] Hint Resolve locked_loop_refines guard_loop_refines : refines.

Lemma builder_push_refines b (o : op B) why deps inv :
  refines (builder_push (O := heap_ops grant) b o why deps inv) (builder_push (O := view_ops) b o why deps inv).
Proof. unfold builder_push, locked, refused. solve_refines. Qed.

End Passes.

(** ** The door *)

Section Door.
Context {B : Type}.

(** An action nothing is said about: on a device the document does not let
    netcfgd touch, or on one this plan declined to create. *)
Definition silenced (b : builder) (o : op B) : bool :=
  (plan_names (bd_unmanaged b) (op_interface o) &&
   negb (bd_tearing_down b && plan_names (bd_clearing b) (op_interface o))) ||
  plan_names (bd_declined b) (op_interface o).

(** The subject of an op, where it is one of the locked. *)
Definition locked_subject (b : builder) (o : op B) : option string :=
  match op_subject o OP_SUBJECT_MAX with
  | Some subject =>
      if bool_decide (Some subject ∈ gl_locked (dc_globals (bd_desired b))) then Some subject else None
  | None => None
  end.

(** The guard that forbids an op: the first on its interface, where the op is
    disruptive and the disruption was not allowed. *)
Definition guarding (b : builder) (o : op B) : option plan_guard :=
  match op_interface o with
  | Some iface =>
      if op_is_disruptive o &&
         negb (plan_names (default [] (po_allow_disruption <$> bd_options b)) (Some iface))
      then List.find (fun g => bool_decide (pg_interface g = Some iface)) (bd_guards b)
      else None
  | None => None
  end.

(** What an action that is not silenced is refused with. *)
Definition refusal_of (b : builder) (o : op B) (why : reason) : option refusal :=
  match locked_subject b o with
  | Some subject =>
      Some (Refusal (op_interface o) (Some (op_name o))
              (Some (snprintf_cut ERROR_MAX ("`" +:+ subject +:+ "` is locked"))) why
              (Some (snprintf_cut ERROR_MAX ("remove `" +:+ subject +:+ "` from `global { locked = [...] }`"))))
  | None =>
      match guarding b o with
      | Some g =>
          Some (Refusal (op_interface o) (Some (op_name o)) (pg_reason g) why
                  (Some (snprintf_cut ERROR_MAX ("ncfg apply --allow-disruption " +:+ default "" (op_interface o)))))
      | None => None
      end
  end.

(** The door, as a decision. *)
Definition push_reference (b : builder) (o : op B) (why : reason) (deps : list Z) (inv : option (op B))
    : State (view B) Z :=
  fun v =>
    if silenced b o then (NO_ACTION, v)
    else
      match refusal_of b o why with
      | Some r => (NO_ACTION, View (v_actions v) (v_warnings v) (v_refusals v ++ [r]) (v_stranded v))
      | None => view_add o why deps inv v
      end.

Lemma locked_loop_view (o : op B) why subject entries v :
  locked_loop (O := view_ops) o why subject entries v =
  if bool_decide (Some subject ∈ entries) then
    (true, View (v_actions v) (v_warnings v)
       (v_refusals v ++ [Refusal (op_interface o) (Some (op_name o))
          (Some (snprintf_cut ERROR_MAX ("`" +:+ subject +:+ "` is locked"))) why
          (Some (snprintf_cut ERROR_MAX ("remove `" +:+ subject +:+ "` from `global { locked = [...] }`")))])
       (v_stranded v))
  else (false, v).
Proof.
  induction entries as [|e entries IH]; cbn [locked_loop].
  - rewrite bool_decide_false by apply not_elem_of_nil. done.
  - destruct (bool_decide (e = Some subject)) eqn:E; apply bool_decide_eq_true in E || apply bool_decide_eq_false in E; cbn [negb].
    + subst e. rewrite bool_decide_true by (apply elem_of_cons; by left). reflexivity.
    + rewrite IH. rewrite (bool_decide_ext (Some subject ∈ e :: entries) (Some subject ∈ entries)); [done|].
      rewrite elem_of_cons. naive_solver.
Qed.

Lemma guard_loop_view (o : op B) why iface guards v :
  guard_loop (O := view_ops) o why iface guards v =
  match List.find (fun g => bool_decide (pg_interface g = Some iface)) guards with
  | Some g =>
      (true, View (v_actions v) (v_warnings v)
         (v_refusals v ++ [Refusal (Some iface) (Some (op_name o)) (pg_reason g) why
            (Some (snprintf_cut ERROR_MAX ("ncfg apply --allow-disruption " +:+ iface)))])
         (v_stranded v))
  | None => (false, v)
  end.
Proof.
  induction guards as [|g guards IH]; cbn [guard_loop List.find]; [done|].
  case_bool_decide as E; cbn [negb]; [reflexivity|exact IH].
Qed.

Lemma locked_view b (o : op B) why v :
  locked (O := view_ops) b o why v =
  match locked_subject b o with
  | Some subject =>
      (true, View (v_actions v) (v_warnings v)
       (v_refusals v ++ [Refusal (op_interface o) (Some (op_name o))
          (Some (snprintf_cut ERROR_MAX ("`" +:+ subject +:+ "` is locked"))) why
          (Some (snprintf_cut ERROR_MAX ("remove `" +:+ subject +:+ "` from `global { locked = [...] }`")))])
       (v_stranded v))
  | None => (false, v)
  end.
Proof.
  unfold locked, locked_subject. destruct (gl_locked (dc_globals (bd_desired b))) as [|e entries].
  - destruct (op_subject o OP_SUBJECT_MAX); [|done]. rewrite bool_decide_false by apply not_elem_of_nil. done.
  - destruct (op_subject o OP_SUBJECT_MAX) as [subject|]; [|done]. rewrite locked_loop_view.
    by case_bool_decide.
Qed.

Lemma refused_view b (o : op B) why v :
  refused (O := view_ops) b o why v =
  match guarding b o with
  | Some g =>
      (true, View (v_actions v) (v_warnings v)
         (v_refusals v ++ [Refusal (op_interface o) (Some (op_name o)) (pg_reason g) why
            (Some (snprintf_cut ERROR_MAX ("ncfg apply --allow-disruption " +:+ default "" (op_interface o))))])
         (v_stranded v))
  | None => (false, v)
  end.
Proof.
  unfold refused, guarding. destruct (op_is_disruptive o); cbn [negb].
  2:{ by destruct (op_interface o). }
  destruct (op_interface o) as [iface|]; [|done]. cbn [andb].
  destruct (bd_options b) as [[w h allow]|].
  - change (default [] (po_allow_disruption <$> Some (PlanOptions w h allow))) with allow. cbn [po_allow_disruption].
    destruct (plan_names allow (Some iface)); [done|]. cbn [negb].
    apply guard_loop_view.
  - apply guard_loop_view.
Qed.

Lemma push_view b (o : op B) why deps inv v :
  builder_push (O := view_ops) b o why deps inv v = push_reference b o why deps inv v.
Proof.
  unfold builder_push, push_reference, silenced, plan_clearing. cbn zeta.
  destruct (plan_names (bd_unmanaged b) (op_interface o) && _); [done|]. cbn [orb].
  destruct (plan_names (bd_declined b) (op_interface o)); [done|].
  change (@mbind _ (@ops_bind B _ view_ops) ?X ?Y ?k ?m ?s) with (let '(a, s1) := m s in k a s1).
  rewrite locked_view. unfold refusal_of. destruct (locked_subject b o) as [subject|]; [reflexivity|].
  change (@mbind _ (@ops_bind B _ view_ops) ?X ?Y ?k ?m ?s) with (let '(a, s1) := m s in k a s1).
  rewrite refused_view. by destruct (guarding b o).
Qed.

(** A bind on the lists, once its first half is known. *)
Lemma view_seq {A C} (m : State (view B) A) (k : A -> State (view B) C) v a v1 :
  m v = (a, v1) -> @mbind _ (@ops_bind B _ view_ops) _ _ k m v = k a v1.
Proof. intros E. change ((let '(a, s1) := m v in k a s1) = k a v1). by rewrite E. Qed.

(** The ops of a plan, each with its inverse. *)
Definition asked_ops (v : view B) : list (op B * option (op B)) :=
  map (fun a => (ac_op a, ac_inverse a)) (v_actions v).

(** A script of pushes, on either plan. *)
Record push_call := PushCall { pc_op : op B; pc_why : reason; pc_deps : list Z; pc_inverse : option (op B) }.

Fixpoint run_pushes {M} {O : PlanOps B M} (b : builder) (calls : list push_call) : M unit :=
  match calls with
  | [] => mret ()
  | c :: rest => _ ← builder_push b (pc_op c) (pc_why c) (pc_deps c) (pc_inverse c); run_pushes b rest
  end.

Lemma run_pushes_refines grant b calls :
  refines (run_pushes (O := heap_ops grant) b calls) (run_pushes (O := view_ops) b calls).
Proof.
  induction calls as [|c calls IH]; cbn [run_pushes]; [apply refines_ret|].
  apply refines_bind; [apply builder_push_refines|done].
Qed.

(** An action the door lets through. *)
Definition admitted (b : builder) (c : push_call) : bool :=
  negb (silenced b (pc_op c)) && bool_decide (refusal_of b (pc_op c) (pc_why c) = None).

Lemma run_pushes_view b calls v v' :
  run_pushes (O := view_ops) b calls v = ((), v') ->
  map (fun a => (ac_op a, ac_reason a, ac_inverse a)) (v_actions v') =
    map (fun a => (ac_op a, ac_reason a, ac_inverse a)) (v_actions v) ++
    map (fun c => (pc_op c, pc_why c, pc_inverse c)) (List.filter (admitted b) calls) /\
  v_refusals v' = v_refusals v ++
    omap (fun c => if silenced b (pc_op c) then None else refusal_of b (pc_op c) (pc_why c)) calls.
Proof.
  revert v. induction calls as [|c calls IH]; intros v E.
  - injection E as <-. cbn. by rewrite !app_nil_r.
  - cbn [run_pushes] in E.
    change (@mbind _ (@ops_bind B _ view_ops) ?X ?Y ?k ?m ?s) with (let '(a, s1) := m s in k a s1) in E.
    rewrite push_view in E. unfold push_reference in E. cbn [List.filter omap list_omap]. unfold admitted at 1.
    destruct (silenced b (pc_op c)); [apply IH in E as [E1 E2]; done|]. cbn [negb andb].
    destruct (refusal_of b (pc_op c) (pc_why c)) as [r|].
    + apply IH in E as [E1 E2]. rewrite bool_decide_false by done. split; [exact E1|]. rewrite E2. cbn. by rewrite <- app_assoc.
    + rewrite bool_decide_true by done. unfold view_add in E. apply IH in E as [E1 E2]. cbn in E1, E2.
      split; [|exact E2]. rewrite E1, map_app, <- app_assoc. done.
Qed.

End Door.

Lemma gate_loop_refines {B} grant gates name out :
  refines (B := B) (gate_loop (O := heap_ops grant) gates name out) (gate_loop (O := view_ops) gates name out).
Proof.
  revert out. induction gates as [|g gates IH]; intros out; cbn [gate_loop]; [apply refines_ret|].
  destruct (_ && _); [|apply IH]. apply refines_bind; [|intros; apply IH]. unfold ids_push. solve_refines.
Qed.

(** C13: nothing reaches a plan but through the door. Whatever actions the passes
    ask for, the plan holds exactly those of them, in order and whole, that are
    not on an unmanaged device (unless it is being cleared during the teardown)
    nor on one this plan declined to create, whose subject is not locked, and
    that do not disrupt a guarded interface without leave; and every action that
    a lock or a guard kept out is in the refusals, once, with what forbade it. *)
Theorem only_admitted_actions {B} (grant : nat -> bool) (b : builder) (calls : list (@push_call B))
    (p p' : plan B) (h h' : heap) :
  run_pushes (O := heap_ops grant) b calls (p, h) = ((), (p', h')) -> plan_failed p' = false ->
  map (fun a => (ac_op a, ac_reason a, ac_inverse a)) (p_actions p') =
    map (fun a => (ac_op a, ac_reason a, ac_inverse a)) (p_actions p) ++
    map (fun c => (pc_op c, pc_why c, pc_inverse c)) (List.filter (admitted b) calls) /\
  p_refusals p' = p_refusals p ++
    omap (fun c => if silenced b (pc_op c) then None else refusal_of b (pc_op c) (pc_why c)) calls.
Proof.
  intros E Hf. destruct (run_pushes_refines grant b calls _ _ _ E Hf) as [_ Hv].
  exact (run_pushes_view b calls _ _ Hv).
Qed.

Lemma only_admitted_actions_witness :
  let b := Builder (Document (Globals [Some "mtu:eth0"] None) [] [] []) None
             [PlanGuard (Some "eth1") (Some "nfs root")] [] [] [] [Some "wlan0"] [] false in
  let why := Reason None None None None in
  let calls := [PushCall (LINK_SET_MTU (Some "eth0") 1400) why [] None;
                PushCall (LINK_DOWN (Some "eth1")) why [] None;
                PushCall (LINK_UP (Some "eth1")) why [] (Some (LINK_DOWN (Some "eth1")));
                PushCall (LINK_UP (Some "wlan0")) why [] None] in
  let p : plan unit := Plan 0%nat (Pmem arena_init [] 0%nat None) [] None [] None [] None [] None in
  let s := (run_pushes (O := heap_ops (fun _ => true)) b calls (p, Heap 1%nat {[ 0%nat ]} false)).2 in
  map ac_op (p_actions s.1) = [LINK_UP (Some "eth1")] /\ length (p_refusals s.1) = 2%nat.
Proof.
  intros b why calls p s.
  destruct (only_admitted_actions (fun _ => true) b calls p s.1 (Heap 1%nat {[ 0%nat ]} false) s.2) as [H1 H2].
  - vm_compute. reflexivity.
  - vm_compute. reflexivity.
  - split; [|rewrite H2; vm_compute; reflexivity].
    apply (f_equal (map (fun x => x.1.1))) in H1. rewrite map_map in H1. cbn [fst] in H1. etrans; [exact H1|vm_compute; reflexivity].
Defined.
