(* ===== verification/RulePass.v ===== *)
(** * RulePass: policy routing rules ([plan/rule.c])

    The pass that compares the document's rules with the ones the kernel holds
    and asks for what is missing, what has to make way and what is left over.
    It is written against [PlanOps], so it runs on a plan and on its lists.

    Then the way of a rule to the kernel and back: [apply/kernel_rule.c],
    [sys/ops_route.c], [sys/rule.c], [observe/build.c], around the classes that
    say what a kernel makes of a request. *)
From S2P Require Import Prelude Buf Lex Op Heap Plan Wire Value Builder.
From stdpp Require Import gmap pretty.
#[local] Open Scope Z_scope.

(** [ncfg_ownership_t] and [ncfg_ownership_may_remove]. *)
Inductive ownership : Set := OWNERSHIP_OURS | OWNERSHIP_FOREIGN | OWNERSHIP_UNKNOWN.

#[export] Instance ownership_eq_dec : EqDecision ownership.
Proof. solve_decision. Defined.

Definition ownership_may_remove (o : ownership) : bool := bool_decide (o = OWNERSHIP_OURS).

(** [ncfg_observed_rule_t]. *)
Record observed_rule := ObservedRule {
  or_priority : Z; or_family : Z; or_from : cstr; or_to : cstr; or_iif : cstr; or_oif : cstr;
  or_fwmark : optint; or_fwmask : optint; or_table : optint; or_action : Z;
  or_suppress_prefixlength : optint; or_l3mdev : bool; or_invert : bool; or_ownership : ownership }.

Definition RULE_ACTION_LOOKUP : Z := 0.

(** A C string as the bytes [model/value.c] reads. *)
Definition cbytes (s : cstr) : option (list byte) := bytes <$> s.

(** [%#llx] of an unsigned number. *)
Definition hex_text (z : Z) : string :=
  let z := u64 z in
  if z =? 0 then "0"
  else
    let digit (d : Z) := String.string_of_list_byte [nth (Z.to_nat d) (bytes "0123456789abcdef") x00] in
    "0x" +:+ (fix go (fuel : nat) (z : Z) (acc : string) : string :=
                match fuel with
                | O => acc
                | S fuel => if z =? 0 then acc else go fuel (z / 16) (digit (z mod 16) +:+ acc)
                end) 16%nat z "".

Section Rules.
Context {I : Inet}.

(** [same_address], [same_text] and [same_number]. *)
Definition same_address (left right : cstr) : bool :=
  match left, right with
  | Some _, Some _ => plan_address_equal (cbytes left) (cbytes right)
  | None, None => true
  | _, _ => false
  end.

Definition same_text (left right : cstr) : bool := bool_decide (left = right).

Definition same_number (left right : optint) : bool := bool_decide (left = right).

(** [same_rule]. *)
Definition same_rule (desired : routing_rule) (observed : observed_rule) : bool :=
  same_address (rr_from desired) (or_from observed) &&
  same_address (rr_to desired) (or_to observed) &&
  same_text (rr_iif desired) (or_iif observed) && same_text (rr_oif desired) (or_oif observed) &&
  same_number (rr_fwmark desired) (or_fwmark observed) &&
  same_number (rr_fwmask desired) (or_fwmask observed) &&
  (rr_action desired =? or_action observed) &&
  same_number (rr_suppress_prefixlength desired) (or_suppress_prefixlength observed) &&
  Bool.eqb (rr_l3mdev desired) (or_l3mdev observed) && Bool.eqb (rr_invert desired) (or_invert observed) &&
  (negb (rr_action desired =? RULE_ACTION_LOOKUP) ||
   same_number (rr_table desired) (or_table observed)).

(** The rule [to_desired] interns. *)
Definition as_desired (id : cstr) (o : observed_rule) : routing_rule :=
  RoutingRule id (or_priority o) (or_family o) (or_from o) (or_to o) (or_iif o) (or_oif o)
    (or_fwmark o) (or_fwmask o) (or_table o) (or_action o) (or_suppress_prefixlength o)
    (or_l3mdev o) (or_invert o).

Definition observed_id (o : observed_rule) : string :=
  "observed-" +:+ fmt (rule_family_name (or_family o)) +:+ "-" +:+ pretty (or_priority o).

(** The text [describe] builds, in a buffer whose growth [realloc_ok] grants. *)
Definition describe_text (realloc_ok : Z -> bool) (rule : routing_rule) : string :=
  let selector b (s : string * cstr) :=
    match s.2 with
    | Some v => buf_addf realloc_ok b (bytes (s.1 +:+ " " +:+ v +:+ " "))
    | None => b
    end in
  let b := buf_init 0 in
  let b := buf_addf realloc_ok b (bytes (pretty (rr_priority rule) +:+ " ")) in
  let b := foldl selector b
    [("from", rr_from rule); ("to", rr_to rule); ("iif", rr_iif rule); ("oif", rr_oif rule)] in
  let b := match rr_fwmark rule with
           | Some m => buf_addf realloc_ok b (bytes ("fwmark " +:+ hex_text m +:+ " "))
           | None => b
           end in
  let b := match rule_action_name (rr_action rule) with
           | Some w => buf_add realloc_ok b (bytes w)
           | None => b
           end in
  let b := match rr_table rule with
           | Some t => buf_addf realloc_ok b (bytes (" " +:+ pretty t))
           | None => b
           end in
  String.string_of_list_byte (buf_text b).

Section Pass.
Context (realloc_ok : Z -> bool).
Context {B : Type} {M : Type -> Type} {O : PlanOps B M}.

(** [to_desired]. *)
Definition to_desired (o : observed_rule) : M (option routing_rule) :=
  id ← internf (observed_id o);
  ops_intern_rule (Some (as_desired id o)).

(** [describe]. *)
Definition describe (rule : routing_rule) : M cstr :=
  text ← ops_intern (Some (describe_text realloc_ok rule));
  mret (Some (default "<absent>" text)).

(** [push_rule], with the ops its two kinds stand for. *)
Definition push_rule (b : builder) (o : op B) (why : reason) (inverse : option (op B)) : M unit :=
  _ ← builder_push b o why [] inverse;
  mret ().

Definition same_key (rule : routing_rule) (o : observed_rule) : bool :=
  (or_family o =? rr_family rule) && (or_priority o =? rr_priority rule).

(** The first loop of [ncfg_plan_rules], for one rule of the document. *)
Definition plan_rule (b : builder) (observed : list observed_rule) (rule : routing_rule) : M unit :=
  match List.find (same_key rule) observed with
  | Some current =>
      if same_rule rule current then mret ()
      else if negb (ownership_may_remove (or_ownership current)) then
        ops_warnf None ("rule `" +:+ fmt (rr_id rule) +:+ "` wants priority " +:+ pretty (rr_priority rule) +:+
          " in " +:+ fmt (rule_family_name (rr_family rule)) +:+ ", and a rule netcfgd does not own " +:+
          "is already there. Renumber it, or remove the other by hand.")
      else
        field ← internf ("rules." +:+ fmt (rr_id rule));
        desired ← describe rule;
        going ← to_desired current;
        _ ← push_rule b (RULE_DEL going)
              (Reason None field desired (Some "a different rule at this priority")) None;
        field ← internf ("rules." +:+ fmt (rr_id rule));
        desired ← describe rule;
        push_rule b (RULE_ADD (Some rule))
          (Reason None field desired (Some "a different rule at this priority"))
          (Some (RULE_DEL (Some rule)))
  | None =>
      field ← internf ("rules." +:+ fmt (rr_id rule));
      desired ← describe rule;
      push_rule b (RULE_ADD (Some rule)) (Reason None field desired (Some "<absent>"))
        (Some (RULE_DEL (Some rule)))
  end.

Fixpoint plan_wanted (b : builder) (observed : list observed_rule) (rules : list routing_rule) : M unit :=
  match rules with
  | [] => mret ()
  | rule :: rest => _ ← plan_rule b observed rule; plan_wanted b observed rest
  end.

(** The second loop: what is netcfgd's and no longer asked for. *)
Fixpoint plan_leftovers (b : builder) (rules : list routing_rule) (observed : list observed_rule) : M unit :=
  match observed with
  | [] => mret ()
  | held :: rest =>
      if negb (ownership_may_remove (or_ownership held)) then plan_leftovers b rules rest
      else if existsb (fun rule => same_key rule held) rules then plan_leftovers b rules rest
      else
        rule ← to_desired held;
        match rule with
        | None => mret ()
        | Some r =>
            text ← describe r;
            _ ← push_rule b (RULE_DEL (Some r))
                  (Reason None (Some "rules") (Some "<absent>") text) (Some (RULE_ADD (Some r)));
            plan_leftovers b rules rest
        end
  end.

(** [ncfg_plan_rules]. *)
Definition plan_rules (b : builder) (observed : list observed_rule) : M unit :=
  _ ← plan_wanted b observed (dc_rules (bd_desired b));
  plan_leftovers b (dc_rules (bd_desired b)) observed.

End Pass.
End Rules.

(** ** What is sent for a rule, and what is read of one

    [apply/kernel_rule.c] and [sys/ops_route.c] on the way out, [sys/rule.c] and
    [observe/build.c] on the way back.  A message is its header and its
    attributes; their bytes are [Wire]'s.  What the kernel makes of the one and
    answers with the other is not netcfgd's: the class below is what of it the
    theorems rely on. *)

Definition AF_INET : Z := 2.
Definition AF_INET6 : Z := 10.
Definition FR_ACT_TO_TBL : Z := 1.
Definition FR_ACT_BLACKHOLE : Z := 6.
Definition FR_ACT_UNREACHABLE : Z := 7.
Definition FR_ACT_PROHIBIT : Z := 8.
Definition RTPROT_NETCFGD : Z := 110.
Definition RULE_NAME_MAX : Z := 16.

(** An [ncfg_wire_ip_t] that is present: whether it is IPv6, and its octets. *)
Notation wire_ip := (bool * list Z)%type.

Definition ip_family (ip : wire_ip) : Z := if ip.1 then AF_INET6 else AF_INET.

(** [ncfg_ops_rule_t]; the protocol is left absent, which sends 110. *)
Record ops_rule := OpsRule {
  sr_family : Z; sr_priority : Z; sr_table : Z; sr_action : Z;
  sr_from : option wire_ip; sr_from_len : Z; sr_to : option wire_ip; sr_to_len : Z;
  sr_iif : cstr; sr_oif : cstr; sr_fwmark : optint; sr_fwmask : optint;
  sr_suppress_prefixlength : optint; sr_l3mdev : bool; sr_invert : bool }.

(** A rule message: [struct fib_rule_hdr] and the attributes. *)
Record fib_rule := FibRule {
  fr_family : Z; fr_dst_len : Z; fr_src_len : Z; fr_table : Z; fr_action : Z; fr_invert : bool;
  fra_priority : option Z; fra_table : option Z; fra_src : option wire_ip; fra_dst : option wire_ip;
  fra_iifname : cstr; fra_oifname : cstr; fra_fwmark : option Z; fra_fwmask : option Z;
  fra_suppress_prefixlen : option Z; fra_l3mdev : option Z; fra_protocol : option Z }.

(** [ncfg_rule_record_t]. *)
Record rule_record := RuleRecord {
  rd_family : Z; rd_priority : Z; rd_table : Z; rd_action : Z;
  rd_from : option wire_ip; rd_from_len : Z; rd_to : option wire_ip; rd_to_len : Z;
  rd_iif : cstr; rd_oif : cstr; rd_fwmark : optint; rd_fwmask : optint;
  rd_suppress_prefixlength : optint; rd_l3mdev : bool; rd_invert : bool; rd_protocol : Z }.

(** [ncfg_ops_narrow] of a value that is there, and of an optional one. *)
Definition ops_narrow (ceiling value : Z) : option Z :=
  if (value <? 0) || (ceiling <? value) then None else Some value.

Definition narrow_opt (value : optint) : option (option Z) :=
  match value with
  | None => Some None
  | Some v => n ← ops_narrow UINT32_MAX v; Some (Some n)
  end.

(** The two switches of [ncfg_kernel_rule_spec]. *)
Definition rule_family_number (family : Z) : option Z :=
  if family =? 0 then Some AF_INET else if family =? 1 then Some AF_INET6 else None.

Definition rule_action_number (action : Z) : option Z :=
  if action =? 0 then Some FR_ACT_TO_TBL
  else if action =? 1 then Some FR_ACT_BLACKHOLE
  else if action =? 2 then Some FR_ACT_UNREACHABLE
  else if action =? 3 then Some FR_ACT_PROHIBIT
  else None.

Definition slen (s : string) : Z := Z.of_nat (String.length s).

(** [area_string] of [sys/rule.c]: a name that does not fit, or is no UTF-8,
    is absent. *)
Definition area_string (name : cstr) : cstr :=
  match name with
  | Some s => if (RULE_NAME_MAX <=? slen s) || negb (is_utf8 (bytes s)) then None else Some s
  | None => None
  end.

(** [ncfg_dump_rule]. *)
Definition dump_rule (d : fib_rule) : rule_record :=
  RuleRecord (fr_family d) (default 0 (fra_priority d))
    (match fra_table d with Some t => t | None => fr_table d end) (fr_action d)
    (fra_src d) (match fra_src d with Some _ => fr_src_len d | None => 0 end)
    (fra_dst d) (match fra_dst d with Some _ => fr_dst_len d | None => 0 end)
    (area_string (fra_iifname d)) (area_string (fra_oifname d)) (fra_fwmark d) (fra_fwmask d)
    (match fra_suppress_prefixlen d with
     | Some n => if n =? UINT32_MAX then None else Some n
     | None => None
     end)
    (match fra_l3mdev d with Some n => n =? 1 | None => false end) (fr_invert d)
    (default 0 (fra_protocol d)).

Section Loop.
Context {I : Inet}.

(** [selector]: an address and its length; one written without a length is a
    host. *)
Definition selector (text : cstr) (family : Z) : option (option wire_ip * Z) :=
  match text with
  | None => Some (None, 0)
  | Some _ =>
      match address_parse (cbytes text) with
      | None => None
      | Some a =>
          let ip := (ad_is_ipv6 a, ad_bytes a) in
          if negb (ip_family ip =? family) then None
          else Some (Some ip, if ad_has_prefix a then u8 (ad_prefix a) else if ad_is_ipv6 a then 128 else 32)
      end
  end.

(** [ncfg_kernel_rule_spec]. *)
Definition kernel_rule_spec (r : routing_rule) : option ops_rule :=
  family ← rule_family_number (rr_family r);
  action ← rule_action_number (rr_action r);
  priority ← ops_narrow UINT32_MAX (rr_priority r);
  table ← match rr_table r with Some t => ops_narrow UINT32_MAX t | None => Some 0 end;
  if bool_decide (is_Some (rr_fwmask r)) && negb (bool_decide (is_Some (rr_fwmark r))) then None
  else
    from ← selector (rr_from r) family;
    to ← selector (rr_to r) family;
    Some (OpsRule family priority table action from.1 from.2 to.1 to.2 (rr_iif r) (rr_oif r)
            (rr_fwmark r) (rr_fwmask r) (rr_suppress_prefixlength r) (rr_l3mdev r) (rr_invert r)).

(** [rule_header] and [rule_request]. *)
Definition rule_request (s : ops_rule) : option fib_rule :=
  fwmark ← narrow_opt (sr_fwmark s);
  fwmask ← narrow_opt (sr_fwmask s);
  suppress ← narrow_opt (sr_suppress_prefixlength s);
  Some (FibRule (sr_family s)
          (match sr_to s with Some _ => sr_to_len s | None => 0 end)
          (match sr_from s with Some _ => sr_from_len s | None => 0 end)
          (if sr_table s <=? 255 then sr_table s else 0) (sr_action s) (sr_invert s)
          (Some (sr_priority s)) (if negb (sr_table s =? 0) then Some (sr_table s) else None)
          (sr_from s) (sr_to s) (sr_iif s) (sr_oif s) fwmark fwmask suppress
          (if sr_l3mdev s then Some 1 else None) (Some RTPROT_NETCFGD)).

(** [ip_cidr]. *)
Definition ip_cidr (ip : option wire_ip) (length : Z) : option cstr :=
  match ip with
  | None => Some None
  | Some (v6, octets) =>
      match inet_ntop v6 (take (width v6) octets) with
      | None => None
      | Some text => Some (Some (String.string_of_list_byte (text ++ "/"%byte :: num length)))
      end
  end.

(** [build_rule]. *)
Definition build_rule (d : rule_record) : option observed_rule :=
  from ← ip_cidr (rd_from d) (rd_from_len d);
  to ← ip_cidr (rd_to d) (rd_to_len d);
  Some (ObservedRule (rd_priority d) (if rd_family d =? AF_INET6 then 1 else 0) from to
          (rd_iif d) (rd_oif d) (rd_fwmark d) (rd_fwmask d)
          (if negb (rd_table d =? 0) then Some (rd_table d) else None)
          (if rd_action d =? FR_ACT_BLACKHOLE then 1
           else if rd_action d =? FR_ACT_UNREACHABLE then 2
           else if rd_action d =? FR_ACT_PROHIBIT then 3
           else 0)
          (rd_suppress_prefixlength d) (rd_l3mdev d) (rd_invert d)
          (if rd_protocol d =? RTPROT_NETCFGD then OWNERSHIP_OURS else OWNERSHIP_FOREIGN)).

End Loop.

(** What a kernel makes of a rule it is sent: what a dump then says of it, or a
    refusal. *)
Class FibRules := { fib_reports : fib_rule -> option fib_rule }.

(** A mark that is compared is compared in full unless a mask was named. *)
Definition held_mask (m : fib_rule) : Z :=
  match fra_fwmask m with
  | Some k => k
  | None => if default 0 (fra_fwmark m) =? 0 then 0 else UINT32_MAX
  end.

(** An empty name is no name. *)
Definition held_name (name : cstr) : cstr :=
  match name with Some s => if bool_decide (s = "") then None else Some s | None => None end.

(** A message the kernel has no reason to refuse: it names a table to look up
    or leaves that to an l3mdev, never both, and interfaces by names it could
    have. *)
Definition fib_sound (m : fib_rule) : bool :=
  let named := match fra_table m with Some t => negb (t =? 0) | None => false end in
  let l3mdev := match fra_l3mdev m with Some n => n =? 1 | None => false end in
  let fits (s : cstr) := match s with Some s => (0 <? slen s) && (slen s <? RULE_NAME_MAX) | None => true end in
  let max := if fr_family m =? AF_INET6 then 128 else 32 in
  negb (named && l3mdev) && (negb (fr_action m =? FR_ACT_TO_TBL) || named || l3mdev) &&
  fits (fra_iifname m) && fits (fra_oifname m) && (fr_src_len m <=? max) && (fr_dst_len m <=? max).

(** What the code relies on, of [fib_nl_newrule] and [fib_nl_fill_rule] in
    [net/core/fib_rules.c]: a sound message is taken; priority, family, action,
    flags and protocol are reported as they came, and so are a table that was
    named and the name of an interface; a selector of length zero is none; the
    mark is reported where it is not zero, the mask where it or the mark is not
    zero; and the suppressor always, all ones where there is none. *)
Class FibLaws (K : FibRules) : Prop := {
  fib_takes m : fib_sound m = true -> is_Some (fib_reports m);
  fib_tells m d : fib_reports m = Some d ->
    fr_family d = fr_family m /\ fra_priority d = fra_priority m /\ fr_action d = fr_action m /\
    fr_invert d = fr_invert m /\ fra_protocol d = fra_protocol m /\
    fra_l3mdev d = fra_l3mdev m /\
    fra_iifname d = held_name (fra_iifname m) /\
    fra_oifname d = held_name (fra_oifname m) /\
    (if fr_src_len m =? 0 then fra_src d = None
     else fra_src d = fra_src m /\ fr_src_len d = fr_src_len m) /\
    (if fr_dst_len m =? 0 then fra_dst d = None
     else fra_dst d = fra_dst m /\ fr_dst_len d = fr_dst_len m) /\
    (forall t, fra_table m = Some t -> fra_table d = Some t) /\
    (fra_table m = None -> fra_l3mdev m = Some 1 -> fra_table d = Some 0) /\
    fra_fwmark d = (if default 0 (fra_fwmark m) =? 0 then None else fra_fwmark m) /\
    fra_fwmask d = (if (default 0 (fra_fwmark m) =? 0) && (held_mask m =? 0) then None else Some (held_mask m)) /\
    fra_suppress_prefixlen d = Some (default UINT32_MAX (fra_suppress_prefixlen m)) }.
