(* ===== verification/RuleSpec.v ===== *)
(** * RuleSpec: a plan for the rules converges

    The kernel's rules as a map from [(family, priority)], on which adding over
    a rule that is there fails, or one that cannot be sent or that the kernel
    refuses, and what carrying the plan out does to it. A rule that was added
    is held as it is read back ([installed]); where a rule says in full what a
    kernel reports ([stated]), that is the rule that was wanted. A concrete
    kernel shows the laws can hold, and which rules are planned for ever. *)
From S2P Require Import Prelude Buf Lex Op Heap Plan PlanSpec Wire Value ValueSpec InetText Builder BuilderSpec RulePass.
From stdpp Require Import gmap pretty.
#[local] Open Scope Z_scope.

Section Spec.
Context {I : Inet}.
Context (realloc_ok : Z -> bool) {B : Type}.

(** ** The pass on a plan is the pass on its lists *)

Lemma describe_refines grant rule :
  refines (B := B) (describe realloc_ok (O := heap_ops grant) rule) (describe realloc_ok (O := view_ops) rule).
Proof. unfold describe. solve_refines. Qed.

Lemma to_desired_refines grant o :
  refines (B := B) (to_desired (O := heap_ops grant) o) (to_desired (O := view_ops) o).
Proof. unfold to_desired, internf. solve_refines. Qed.

Lemma push_rule_refines grant b (o : op B) why inv :
  refines (push_rule (O := heap_ops grant) b o why inv) (push_rule (O := view_ops) b o why inv).
Proof. unfold push_rule. apply refines_bind; [apply builder_push_refines|intros; apply refines_ret]. Qed.

#[local] Hint Resolve describe_refines to_desired_refines push_rule_refines internf_refines : refines.

Lemma plan_wanted_refines grant b observed rules :
  refines (B := B) (plan_wanted realloc_ok (O := heap_ops grant) b observed rules)
    (plan_wanted realloc_ok (O := view_ops) b observed rules).
Proof.
  induction rules as [|r rules IH]; cbn [plan_wanted]; [apply refines_ret|].
  apply refines_bind; [|done]. unfold plan_rule. solve_refines.
Qed.

Lemma plan_leftovers_refines grant b rules observed :
  refines (B := B) (plan_leftovers realloc_ok (O := heap_ops grant) b rules observed)
    (plan_leftovers realloc_ok (O := view_ops) b rules observed).
Proof. induction observed as [|o observed IH]; cbn [plan_leftovers]; solve_refines. Qed.

Lemma plan_rules_refines grant b observed :
  refines (B := B) (plan_rules realloc_ok (O := heap_ops grant) b observed)
    (plan_rules realloc_ok (O := view_ops) b observed).
Proof. unfold plan_rules. apply refines_bind; [apply plan_wanted_refines|intros; apply plan_leftovers_refines]. Qed.

(** ** What the pass asks for *)

Definition recreated (o : observed_rule) : routing_rule :=
  as_desired (Some (snprintf_cut ERROR_MAX (observed_id o))) o.

Definition rule_change (observed : list observed_rule) (r : routing_rule) : list (op B * option (op B)) :=
  match List.find (same_key r) observed with
  | Some c =>
      if same_rule r c then []
      else if ownership_may_remove (or_ownership c) then
        [(RULE_DEL (Some (recreated c)), None); (RULE_ADD (Some r), Some (RULE_DEL (Some r)))]
      else []
  | None => [(RULE_ADD (Some r), Some (RULE_DEL (Some r)))]
  end.

Definition leftover (rules : list routing_rule) (held : observed_rule) : list (op B * option (op B)) :=
  if ownership_may_remove (or_ownership held) && negb (existsb (fun r => same_key r held) rules)
  then [(RULE_DEL (Some (recreated held)), Some (RULE_ADD (Some (recreated held))))]
  else [].

Definition rule_changes (rules : list routing_rule) (observed : list observed_rule) : list (op B * option (op B)) :=
  (rules ≫= rule_change observed) ++ (observed ≫= leftover rules).

(** No subject of a rule is locked. *)
Definition rules_unlocked (b : builder) : Prop :=
  forall r, locked_subject b (RULE_ADD r : op B) = None /\ locked_subject b (RULE_DEL r : op B) = None.

(** A rule has no interface, so only a lock could keep it out. *)
Lemma push_rule_view b o why inv (v : view B) :
  rules_unlocked b -> (exists r, o = RULE_ADD r \/ o = RULE_DEL r) ->
  exists v', push_rule (O := view_ops) b o why inv v = ((), v') /\ asked_ops v' = asked_ops v ++ [(o, inv)].
Proof.
  intros Hb [r Hr]. unfold push_rule.
  change (@mbind _ (@ops_bind B _ view_ops) ?X ?Y ?k ?m ?s) with (let '(a, s1) := m s in k a s1).
  rewrite push_view. unfold push_reference, silenced, refusal_of.
  assert (op_interface o = None) as Hi by (by destruct Hr as [-> | ->]).
  assert (locked_subject b o = None) as Hl by (destruct Hr as [-> | ->]; apply Hb).
  unfold guarding. rewrite Hi, Hl. cbn. eexists. split; [reflexivity|]. unfold asked_ops. cbn. by rewrite map_app.
Qed.

Lemma internf_view t (v : view B) : internf (O := view_ops) t v = (Some (snprintf_cut ERROR_MAX t), v).
Proof. reflexivity. Qed.

Lemma describe_view r (v : view B) : describe realloc_ok (O := view_ops) r v = (Some (describe_text realloc_ok r), v).
Proof. reflexivity. Qed.

Lemma to_desired_view o (v : view B) : to_desired (O := view_ops) o v = (Some (recreated o), v).
Proof. reflexivity. Qed.

Lemma plan_rule_view b observed r (v : view B) :
  rules_unlocked b ->
  exists v', plan_rule realloc_ok (O := view_ops) b observed r v = ((), v') /\
    asked_ops v' = asked_ops v ++ rule_change observed r.
Proof.
  intros Hb. unfold plan_rule, rule_change. destruct (List.find (same_key r) observed) as [c|].
  - destruct (same_rule r c); [exists v; by rewrite app_nil_r|].
    destruct (ownership_may_remove (or_ownership c)); cbn [negb].
    2:{ eexists. split; [reflexivity|]. unfold asked_ops. cbn. by rewrite app_nil_r. }
    rewrite (view_seq _ _ _ _ _ (internf_view _ _)), (view_seq _ _ _ _ _ (describe_view _ _)),
      (view_seq _ _ _ _ _ (to_desired_view _ _)).
    match goal with |- context [push_rule b (RULE_DEL ?x) ?why None] =>
      destruct (push_rule_view b (RULE_DEL x) why None v Hb) as (v1 & E1 & H1); [eexists; by right|] end.
    rewrite (view_seq _ _ _ _ _ E1), (view_seq _ _ _ _ _ (internf_view _ _)), (view_seq _ _ _ _ _ (describe_view _ _)).
    match goal with |- context [push_rule b (RULE_ADD ?x) ?why ?inv] =>
      destruct (push_rule_view b (RULE_ADD x) why inv v1 Hb) as (v2 & E2 & H2); [eexists; by left|] end.
    exists v2. split; [exact E2|]. rewrite H2, H1. by rewrite <- app_assoc.
  - rewrite (view_seq _ _ _ _ _ (internf_view _ _)), (view_seq _ _ _ _ _ (describe_view _ _)).
    apply push_rule_view; [done|]. eexists. by left.
Qed.

Lemma plan_wanted_view b observed rules : forall v : view B,
  rules_unlocked b ->
  exists v', plan_wanted realloc_ok (O := view_ops) b observed rules v = ((), v') /\
    asked_ops v' = asked_ops v ++ (rules ≫= rule_change observed).
Proof.
  induction rules as [|r rules IH]; intros v Hb; [exists v; by rewrite app_nil_r|]. cbn [plan_wanted].
  destruct (plan_rule_view b observed r v Hb) as (v1 & E1 & H1). rewrite (view_seq _ _ _ _ _ E1).
  destruct (IH v1 Hb) as (v2 & E2 & H2). exists v2. split; [done|]. rewrite H2, H1. cbn. by rewrite app_assoc.
Qed.

Lemma plan_leftovers_view b rules observed : forall v : view B,
  rules_unlocked b ->
  exists v', plan_leftovers realloc_ok (O := view_ops) b rules observed v = ((), v') /\
    asked_ops v' = asked_ops v ++ (observed ≫= leftover rules).
Proof.
  induction observed as [|o observed IH]; intros v Hb; [exists v; by rewrite app_nil_r|]. cbn [plan_leftovers mbind list_bind].
  unfold leftover at 1. destruct (ownership_may_remove (or_ownership o)); cbn [negb andb]; [|by apply IH].
  destruct (existsb (fun r => same_key r o) rules); cbn [negb]; [by apply IH|].
  rewrite (view_seq _ _ _ _ _ (to_desired_view _ _)), (view_seq _ _ _ _ _ (describe_view _ _)).
  match goal with |- context [push_rule b (RULE_DEL ?x) ?why ?inv] =>
    destruct (push_rule_view b (RULE_DEL x) why inv v Hb) as (v1 & E1 & H1); [eexists; by right|] end.
  rewrite (view_seq _ _ _ _ _ E1). destruct (IH v1 Hb) as (v2 & E2 & H2). exists v2. split; [done|].
  rewrite H2, H1. by rewrite <- app_assoc.
Qed.

Lemma plan_rules_view b observed (v : view B) :
  rules_unlocked b ->
  exists v', plan_rules realloc_ok (O := view_ops) b observed v = ((), v') /\
    asked_ops v' = asked_ops v ++ rule_changes (dc_rules (bd_desired b)) observed.
Proof.
  intros Hb. unfold plan_rules, rule_changes.
  destruct (plan_wanted_view b observed (dc_rules (bd_desired b)) v Hb) as (v1 & E1 & H1). rewrite (view_seq _ _ _ _ _ E1).
  destruct (plan_leftovers_view b (dc_rules (bd_desired b)) observed v1 Hb) as (v2 & E2 & H2).
  exists v2. split; [done|]. rewrite H2, H1. by rewrite app_assoc.
Qed.

(** ** The kernel's rules *)

Notation kernel := (gmap (Z * Z) observed_rule).

Definition rule_key (r : routing_rule) : Z * Z := (rr_family r, rr_priority r).
Definition observed_key (o : observed_rule) : Z * Z := (or_family o, or_priority o).

(** ** A rule there and back *)

Context {K : FibRules}.

(** The message a rule is sent as, where one can be made. *)
Definition sent (r : routing_rule) : option fib_rule :=
  spec ← kernel_rule_spec r; rule_request spec.

(** What is observed of a rule once it was installed: what the kernel tells of
    the message, and what is read of that. [None] is a rule that cannot be
    sent, or that the kernel refuses. *)
Definition installed (r : routing_rule) : option observed_rule :=
  m ← sent r; d ← fib_reports m; build_rule (dump_rule d).

(** Carrying one op out: [EEXIST] over a rule that is there, [ENOENT] for one
    that is not. A delete names the rule that was observed, so it matches. *)
Definition exec_rule (k : kernel) (o : op B) : option kernel :=
  match o with
  | RULE_ADD (Some r) =>
      match installed r, k !! rule_key r with
      | Some c, None => Some (<[rule_key r := c]> k)
      | _, _ => None
      end
  | RULE_DEL (Some r) =>
      match sent r, k !! rule_key r with
      | Some _, Some _ => Some (delete (rule_key r) k)
      | _, _ => None
      end
  | _ => None
  end.

Fixpoint exec_rules (k : kernel) (os : list (op B)) : option kernel :=
  match os with
  | [] => Some k
  | o :: rest => match exec_rule k o with Some k' => exec_rules k' rest | None => None end
  end.

(** What an observation of the kernel is: each rule once. *)
Definition sees (k : kernel) (observed : list observed_rule) : Prop :=
  NoDup (map observed_key observed) /\
  forall key c, k !! key = Some c <-> (c ∈ observed /\ observed_key c = key).

(** What a plan for [rules] is to make of the rule at a key. *)
Definition settled (rules : list routing_rule) (key : Z * Z) (now : option observed_rule) : option observed_rule :=
  match List.find (fun r => bool_decide (rule_key r = key)) rules, now with
  | Some r, Some c =>
      if same_rule r c then Some c
      else if ownership_may_remove (or_ownership c) then installed r else Some c
  | Some r, None => installed r
  | None, Some c => if ownership_may_remove (or_ownership c) then None else Some c
  | None, None => None
  end.

Lemma exec_rules_app k os os' :
  exec_rules k (os ++ os') = match exec_rules k os with Some k' => exec_rules k' os' | None => None end.
Proof. revert k. induction os as [|o os IH]; intros k; cbn; [done|]. destruct (exec_rule k o); [apply IH|done]. Qed.

Lemma same_key_spec r o : same_key r o = true <-> observed_key o = rule_key r.
Proof.
  unfold same_key, observed_key, rule_key. rewrite andb_true_iff, !Z.eqb_eq. split; [intros [-> ->]; done|by intros [= -> ->]].
Qed.

(** Looking a rule up in an observation is looking its key up in the kernel. *)
Lemma find_seen k observed r : sees k observed -> List.find (same_key r) observed = k !! rule_key r.
Proof.
  intros [Hnd Hk]. destruct (List.find (same_key r) observed) as [c|] eqn:E.
  - apply find_some in E as [Hin Hs]. apply same_key_spec in Hs. symmetry. apply Hk. split; [by apply list_elem_of_In|done].
  - destruct (k !! rule_key r) as [c|] eqn:Ek; [|done]. apply Hk in Ek as [Hin Hkey].
    apply list_elem_of_In in Hin. pose proof (find_none _ _ E c Hin) as Hn. apply same_key_spec in Hkey. congruence.
Qed.

Definition wf_kernel (k : kernel) : Prop := forall key c, k !! key = Some c -> observed_key c = key.

Lemma sees_wf k observed : sees k observed -> wf_kernel k.
Proof. intros [_ Hk] key c E. by apply Hk in E as [_ ?]. Qed.

Lemma recreated_key c : rule_key (recreated c) = observed_key c.
Proof. reflexivity. Qed.

Context {KL : FibLaws K}.

Lemma sent_inv r m :
  sent r = Some m ->
  exists family priority, rule_family_number (rr_family r) = Some family /\
    ops_narrow UINT32_MAX (rr_priority r) = Some priority /\
    fr_family m = family /\ fra_priority m = Some priority /\ fra_protocol m = Some RTPROT_NETCFGD.
Proof.
  unfold sent, kernel_rule_spec. intros E.
  apply bind_Some in E as (spec & E & Em). repeat setoid_rewrite bind_Some in E.
  destruct E as (family & Ef & action & Ea & priority & Ep & table & Et & E).
  destruct (_ && _); [done|]. repeat setoid_rewrite bind_Some in E.
  destruct E as (from & Efr & to & Eto & [= <-]).
  unfold rule_request in Em. repeat setoid_rewrite bind_Some in Em.
  destruct Em as (mark & _ & mask & _ & suppress & _ & [= <-]). cbn. eauto 10.
Qed.

(** Whatever else is read back of a rule netcfgd installed, its family and
    priority are, and that it is netcfgd's. *)
Lemma installed_ours r c :
  installed r = Some c -> observed_key c = rule_key r /\ or_ownership c = OWNERSHIP_OURS.
Proof.
  unfold installed. intros E. apply bind_Some in E as (m & Em & E).
  apply bind_Some in E as (d & Ed & E). apply fib_tells in Ed.
  destruct Ed as (Hfam & Hprio & _ & _ & Hproto & _).
  destruct (sent_inv r m Em) as (family & priority & Ef & Ep & Hf & Hp & Hr).
  unfold build_rule, dump_rule in E. cbn in E. repeat setoid_rewrite bind_Some in E.
  destruct E as (from & _ & to & _ & [= <-]). unfold observed_key, rule_key. cbn.
  rewrite Hproto, Hr, Hprio, Hp, Hfam, Hf. cbn. split; [|done]. f_equal.
  - unfold rule_family_number, AF_INET, AF_INET6 in *. repeat case_match; simplify_eq; cbn; lia.
  - unfold ops_narrow in Ep. by repeat case_match; simplify_eq.
Qed.

Definition outcome (r : routing_rule) (now : option observed_rule) : option observed_rule :=
  match now with
  | Some c =>
      if same_rule r c then Some c
      else if ownership_may_remove (or_ownership c) then installed r else Some c
  | None => installed r
  end.

(** A rule of netcfgd's that was observed can be asked to go. *)
Definition removable (observed : list observed_rule) : Prop :=
  forall c, c ∈ observed -> ownership_may_remove (or_ownership c) = true -> is_Some (sent (recreated c)).

Lemma exec_change k observed r :
  List.find (same_key r) observed = k !! rule_key r -> wf_kernel k ->
  is_Some (installed r) -> removable observed ->
  exists k', exec_rules k (map fst (rule_change observed r)) = Some k' /\ wf_kernel k' /\
    k' !! rule_key r = outcome r (k !! rule_key r) /\ forall key, key <> rule_key r -> k' !! key = k !! key.
Proof.
  intros Hf Hwf [new Hnew] Hrem. destruct (installed_ours _ _ Hnew) as [Hkey _].
  assert (forall k0 : kernel, wf_kernel k0 -> wf_kernel (<[rule_key r := new]> k0)) as Hins.
  { intros k0 H0 key c E. destruct (decide (rule_key r = key)) as [<-|Hne].
    - rewrite lookup_insert_eq in E. by injection E as <-.
    - rewrite lookup_insert_ne in E by done. by apply H0. }
  unfold rule_change, outcome. rewrite Hnew, Hf. destruct (k !! rule_key r) as [c|] eqn:Ek.
  - destruct (same_rule r c); [by exists k|].
    destruct (ownership_may_remove (or_ownership c)) eqn:Eo; [|by exists k].
    destruct (Hrem c) as [m Hm]; [|done|].
    { apply find_some in Hf as [Hin _]. by apply list_elem_of_In. }
    cbn [map fst exec_rules exec_rule]. rewrite recreated_key, Hm, (Hwf _ _ Ek), Ek, Hnew, lookup_delete_eq.
    eexists. split; [reflexivity|]. split; [|split].
    + apply Hins. intros key d E. apply lookup_delete_Some in E as [_ E]. by apply Hwf.
    + apply lookup_insert_eq.
    + intros key Hne. by rewrite lookup_insert_ne, lookup_delete_ne by done.
  - cbn [map fst exec_rules exec_rule]. rewrite Hnew, Ek. eexists. split; [reflexivity|]. split; [by apply Hins|]. split.
    + apply lookup_insert_eq.
    + intros key Hne. by rewrite lookup_insert_ne.
Qed.

Definition find_rule (rules : list routing_rule) (key : Z * Z) : option routing_rule :=
  List.find (fun r => bool_decide (rule_key r = key)) rules.

Lemma find_rule_none rules key : key ∉ map rule_key rules -> find_rule rules key = None.
Proof.
  intros Hn. destruct (find_rule rules key) as [r|] eqn:E; [|done]. apply find_some in E as [Hin Hr]. unbool.
  exfalso. apply Hn. apply list_elem_of_In, in_map_iff. by exists r.
Qed.

Lemma exec_wanted observed rules : forall k,
  NoDup (map rule_key rules) -> (forall r, r ∈ rules -> List.find (same_key r) observed = k !! rule_key r) -> wf_kernel k ->
  (forall r, r ∈ rules -> is_Some (installed r)) -> removable observed ->
  exists k', exec_rules k (map fst (rules ≫= rule_change observed)) = Some k' /\ wf_kernel k' /\
    forall key, k' !! key = match find_rule rules key with Some r => outcome r (k !! key) | None => k !! key end.
Proof.
  induction rules as [|r rules IH]; intros k Hnd Hf Hwf Hacc Hrem; [by exists k|].
  cbn [map] in Hnd. apply NoDup_cons in Hnd as [Hr Hnd]. cbn [mbind list_bind]. rewrite map_app, exec_rules_app.
  destruct (exec_change k observed r (Hf r ltac:(apply elem_of_cons; by left)) Hwf
              (Hacc r ltac:(apply elem_of_cons; by left)) Hrem) as (k1 & -> & Hwf1 & H1 & Hother).
  destruct (IH k1 Hnd) as (k2 & E2 & Hwf2 & H2);
    [|done|intros r' Hin; apply Hacc, elem_of_cons; by right|done|].
  { intros r' Hin. rewrite Hother; [apply Hf, elem_of_cons; by right|]. intros E. apply Hr. rewrite <- E.
    apply list_elem_of_In, in_map_iff. exists r'. split; [done|by apply list_elem_of_In]. }
  exists k2. split; [exact E2|]. split; [done|]. intros key. rewrite H2. unfold find_rule at 2. cbn [List.find].
  destruct (bool_decide (rule_key r = key)) eqn:E; unbool.
  - subst key. rewrite find_rule_none by done. exact H1.
  - rewrite Hother by done. done.
Qed.

(** Whether the teardown half takes a rule away. *)
Definition going (rules : list routing_rule) (held : observed_rule) : bool :=
  ownership_may_remove (or_ownership held) && negb (existsb (fun r => same_key r held) rules).

Lemma exec_leftovers rules l : forall k,
  NoDup (map observed_key l) ->
  (forall held, held ∈ l -> going rules held = true -> is_Some (k !! observed_key held)) -> removable l ->
  exists k', exec_rules k (map fst (l ≫= leftover rules)) = Some k' /\
    (forall held, held ∈ l -> going rules held = true -> k' !! observed_key held = None) /\
    (forall key, (forall held, held ∈ l -> observed_key held = key -> going rules held = false) -> k' !! key = k !! key).
Proof.
  induction l as [|o l IH]; intros k Hnd Hk Hrem.
  { exists k. split; [done|]. split; [|done]. intros held Hin. by apply elem_of_nil in Hin. }
  cbn [map] in Hnd. apply NoDup_cons in Hnd as [Ho Hnd]. cbn [mbind list_bind]. rewrite map_app, exec_rules_app.
  assert (forall held, held ∈ l -> observed_key held <> observed_key o) as Hdiff.
  { intros held Hin E. apply Ho. rewrite <- E. apply list_elem_of_In, in_map_iff. exists held.
    split; [done|by apply list_elem_of_In]. }
  assert (removable l) as Hreml by (intros c Hc; apply Hrem, elem_of_cons; by right).
  unfold leftover at 1. fold (going rules o). destruct (going rules o) eqn:Eg.
  - cbn [map fst exec_rules exec_rule]. rewrite recreated_key.
    destruct (Hrem o ltac:(apply elem_of_cons; by left)) as [m ->]; [unfold going in Eg; by unbool|].
    destruct (Hk o ltac:(apply elem_of_cons; by left) Eg) as [c ->].
    destruct (IH (delete (observed_key o) k) Hnd) as (k' & E & Hgone & Hstay); [|done|].
    { intros held Hin Hg. rewrite lookup_delete_ne by (symmetry; by apply Hdiff). apply Hk; [apply elem_of_cons; by right|done]. }
    exists k'. split; [exact E|]. split.
    + intros held [->|Hin]%elem_of_cons Hg; [|by apply Hgone].
      rewrite Hstay; [apply lookup_delete_eq|]. intros held Hin He. exfalso. by apply (Hdiff held Hin).
    + intros key Hno. rewrite Hstay by (intros held Hin; apply Hno, elem_of_cons; by right).
      apply lookup_delete_ne. intros E'. pose proof (Hno o ltac:(apply elem_of_cons; by left) E'). congruence.
  - cbn [map exec_rules]. destruct (IH k Hnd) as (k' & E & Hgone & Hstay); [|done|].
    { intros held Hin Hg. apply Hk; [apply elem_of_cons; by right|done]. }
    exists k'. split; [exact E|]. split.
    + intros held [->|Hin]%elem_of_cons Hg; [congruence|by apply Hgone].
    + intros key Hno. apply Hstay. intros held Hin. apply Hno, elem_of_cons. by right.
Qed.

Lemma going_find rules held :
  going rules held = ownership_may_remove (or_ownership held) && bool_decide (find_rule rules (observed_key held) = None).
Proof.
  unfold going. f_equal. destruct (existsb (fun r => same_key r held) rules) eqn:E; cbn [negb].
  - apply existsb_exists in E as (r & Hin & Hs). apply same_key_spec in Hs. symmetry. apply bool_decide_eq_false. intros En.
    pose proof (find_none _ _ En r Hin) as Hf. cbn beta in Hf. unbool. congruence.
  - symmetry. apply bool_decide_eq_true. destruct (find_rule rules (observed_key held)) as [r|] eqn:Ef; [|done].
    apply find_some in Ef as [Hin Hr]. unbool. exfalso. apply not_true_iff_false in E. apply E. apply existsb_exists.
    exists r. split; [done|]. by apply same_key_spec.
Qed.

(** Carrying the whole plan out never fails, and leaves at each key what it
    should be. *)
Lemma exec_changes k rules observed :
  sees k observed -> NoDup (map rule_key rules) ->
  (forall r, r ∈ rules -> is_Some (installed r)) -> removable observed ->
  exists k', exec_rules k (map fst (rule_changes rules observed)) = Some k' /\
    forall key, k' !! key = settled rules key (k !! key).
Proof.
  intros Hs Hnd Hacc Hrem. pose proof (sees_wf _ _ Hs) as Hwf. unfold rule_changes. rewrite map_app, exec_rules_app.
  destruct (exec_wanted observed rules k Hnd (fun r _ => find_seen k observed r Hs) Hwf Hacc Hrem) as (k1 & -> & _ & H1).
  destruct Hs as [Hnd' Hk].
  assert (forall held, held ∈ observed -> going rules held = true -> k1 !! observed_key held = Some held) as Hheld.
  { intros held Hin Hg. rewrite going_find in Hg. unbool. rewrite H1. rewrite H0. by apply Hk. }
  destruct (exec_leftovers rules observed k1 Hnd') as (k' & E & Hgone & Hstay); [|done|].
  { intros held Hin Hg. eexists. by apply Hheld. }
  exists k'. split; [exact E|]. intros key. unfold settled. fold (find_rule rules key).
  destruct (k !! key) as [c|] eqn:Ek.
  - pose proof Ek as [Hin Hkey]%Hk. subst key. destruct (going rules c) eqn:Eg.
    + rewrite (Hgone c Hin Eg). rewrite going_find in Eg. unbool. by rewrite H0, H.
    + rewrite Hstay, H1.
      2:{ intros held Hin' He. assert (k !! observed_key held = Some held) as Eh by (by apply Hk). congruence. }
      rewrite going_find in Eg. destruct (find_rule rules (observed_key c)) as [r|]; [by rewrite Ek|].
      rewrite bool_decide_true, andb_true_r in Eg by done. by rewrite Ek, Eg.
  - rewrite Hstay, H1.
    2:{ intros held Hin' He. assert (k !! observed_key held = Some held) as Eh by (by apply Hk). congruence. }
    rewrite Ek. by destruct (find_rule rules key).
Qed.

Context {L : InetLaws I}.

(** ** Rules that read back as they were stated *)

Definition in_u32 (z : Z) : bool := (0 <=? z) && (z <=? UINT32_MAX).

(** An address of the family with its prefix length, which is not zero. *)
Definition stated_selector (v6 : bool) (text : cstr) : bool :=
  match text with
  | None => true
  | Some _ =>
      match address_parse (cbytes text) with
      | Some a => Bool.eqb (ad_is_ipv6 a) v6 && ad_has_prefix a && negb (ad_prefix a =? 0)
      | None => false
      end
  end.

Definition stated_name (name : cstr) : bool :=
  match name with
  | Some s => (0 <? slen s) && (slen s <? RULE_NAME_MAX) && is_utf8 (bytes s)
  | None => true
  end.

(** A mark that is not zero and its mask, or neither. *)
Definition stated_mark (mark mask : optint) : bool :=
  match mark, mask with
  | Some m, Some k => (0 <? m) && in_u32 m && in_u32 k
  | None, None => true
  | _, _ => false
  end.

Definition stated_table (r : routing_rule) : bool :=
  match rr_table r with
  | Some t => (0 <? t) && (t <=? UINT32_MAX) && negb (rr_l3mdev r)
  | None => rr_l3mdev r || negb (rr_action r =? RULE_ACTION_LOOKUP)
  end.

(** A rule that says in full what the kernel will say of it. *)
Definition stated (r : routing_rule) : bool :=
  ((rr_family r =? 0) || (rr_family r =? 1)) && (0 <=? rr_action r) && (rr_action r <=? 3) &&
  in_u32 (rr_priority r) &&
  stated_selector (rr_family r =? 1) (rr_from r) && stated_selector (rr_family r =? 1) (rr_to r) &&
  stated_name (rr_iif r) && stated_name (rr_oif r) && stated_mark (rr_fwmark r) (rr_fwmask r) &&
  match rr_suppress_prefixlength r with Some n => (0 <=? n) && (n <? UINT32_MAX) | None => true end &&
  stated_table r.

Definition family_number (v6 : bool) : Z := if v6 then AF_INET6 else AF_INET.

(** What a message says of a selector, and what is read of it. *)
Lemma selector_reads_back v6 text :
  stated_selector v6 text = true ->
  exists ip len, selector text (family_number v6) = Some (ip, len) /\
    (ip = None -> text = None) /\ (is_Some ip -> (len =? 0) = false) /\ len <= (if v6 then 128 else 32) /\
    exists back, ip_cidr ip len = Some back /\ same_address text back = true.
Proof.
  unfold stated_selector, selector. destruct text as [t|].
  2:{ intros _. exists None, 0. split_and!; [done|done|by intros [??]|by destruct v6|by exists None]. }
  destruct (address_parse (cbytes (Some t))) as [a|] eqn:Ea; [|done]. rewrite !andb_true_iff.
  intros [[<-%eqb_prop Hlen] Hnz%negb_true_iff].
  pose proof (address_parse_wf _ _ Ea) as [_ Hp]. rewrite Hlen in Hp.
  assert (u8 (ad_prefix a) = ad_prefix a) as Hu.
  { unfold u8, Value.max_prefix in *. destruct (ad_is_ipv6 a); rewrite Z.mod_small by lia; done. }
  unfold ip_family. cbn [fst]. fold (family_number (ad_is_ipv6 a)). rewrite Z.eqb_refl. cbn [negb].
  rewrite Hlen, Hu. exists (Some (ad_is_ipv6 a, ad_bytes a)), (ad_prefix a).
  destruct (canonical_parse _ _ ADDRESS_MAX Ea) as (t' & Et & _); [done|].
  split_and!; [done|done|done|unfold Value.max_prefix in Hp; destruct (ad_is_ipv6 a); lia|].
  exists (Some (String.string_of_list_byte t')). split.
  - unfold address_canonical in Et. rewrite Ea in Et. unfold address_render in Et. unfold ip_cidr.
    rewrite Hlen in Et. repeat case_match; simplify_eq; done.
  - unfold same_address, cbytes. cbn [fmap option_fmap option_map]. rewrite bytes_of_string.
    by apply canonical_equal with ADDRESS_MAX.
Qed.

Lemma name_reads_back name : stated_name name = true -> area_string (held_name name) = name.
Proof.
  unfold stated_name, held_name, area_string. destruct name as [s|]; [|done]. intros H. unbool.
  rewrite bool_decide_false by (intros ->; unfold slen in *; cbn in *; lia).
  by rewrite (proj2 (Z.leb_gt _ _)), H0 by lia.
Qed.

Lemma narrow_in_u32 z : in_u32 z = true -> ops_narrow UINT32_MAX z = Some z.
Proof.
  unfold in_u32, ops_narrow. intros H. unbool.
  by rewrite (proj2 (Z.ltb_ge _ _)), (proj2 (Z.ltb_ge _ _)) by lia.
Qed.

(** The conditions one by one. *)
Lemma stated_inv r :
  stated r = true ->
  (rr_family r = 0 \/ rr_family r = 1) /\ 0 <= rr_action r <= 3 /\ in_u32 (rr_priority r) = true /\
  stated_selector (rr_family r =? 1) (rr_from r) = true /\
  stated_selector (rr_family r =? 1) (rr_to r) = true /\
  stated_name (rr_iif r) = true /\ stated_name (rr_oif r) = true /\
  stated_mark (rr_fwmark r) (rr_fwmask r) = true /\
  (forall n, rr_suppress_prefixlength r = Some n -> 0 <= n < UINT32_MAX) /\
  stated_table r = true.
Proof.
  unfold stated. rewrite !andb_true_iff.
  intros ((((((((((Hfam & Ha0) & Ha3) & Hprio) & Hfrom) & Hto) & Hiif) & Hoif) & Hmark) & Hsup) & Htab).
  split_and!; try done; try lia. intros n E. rewrite E in Hsup. lia.
Qed.

Definition action_number (action : Z) : Z :=
  nth (Z.to_nat action) [FR_ACT_TO_TBL; FR_ACT_BLACKHOLE; FR_ACT_UNREACHABLE; FR_ACT_PROHIBIT] 0.

Lemma stated_table_sent r :
  stated_table r = true ->
  match rr_table r with Some t => ops_narrow UINT32_MAX t | None => Some 0 end = Some (default 0 (rr_table r)) /\
  (if negb (default 0 (rr_table r) =? 0) then Some (default 0 (rr_table r)) else None) = rr_table r.
Proof.
  unfold stated_table. destruct (rr_table r) as [t|]; [|done]. rewrite !andb_true_iff, Z.ltb_lt, Z.leb_le.
  intros [[Hlow Hhigh] _]. cbn. split.
  - unfold ops_narrow. by rewrite (proj2 (Z.ltb_ge _ _)), (proj2 (Z.ltb_ge _ _)) by lia.
  - by rewrite (proj2 (Z.eqb_neq t 0)) by lia.
Qed.

(** What is sent of a rule that is stated in full. *)
Lemma stated_sent r from flen to tlen :
  stated r = true ->
  let v6 := rr_family r =? 1 in
  selector (rr_from r) (family_number v6) = Some (from, flen) ->
  selector (rr_to r) (family_number v6) = Some (to, tlen) ->
  let table := default 0 (rr_table r) in
  sent r = Some (FibRule (family_number v6)
    (match to with Some _ => tlen | None => 0 end) (match from with Some _ => flen | None => 0 end)
    (if table <=? 255 then table else 0) (action_number (rr_action r))
    (rr_invert r) (Some (rr_priority r)) (rr_table r) from to (rr_iif r) (rr_oif r)
    (rr_fwmark r) (rr_fwmask r) (rr_suppress_prefixlength r)
    (if rr_l3mdev r then Some 1 else None) (Some RTPROT_NETCFGD)).
Proof.
  intros H v6 Ef Et table.
  destruct (stated_inv r H) as (Hfam & Ha & Hprio & _ & _ & _ & _ & Hmark & Hsup & Htab).
  assert (rule_family_number (rr_family r) = Some (family_number v6)) as Hf.
  { unfold rule_family_number, family_number, v6. by destruct Hfam as [-> | ->]. }
  assert (rule_action_number (rr_action r) = Some (action_number (rr_action r))) as Hact.
  { assert (rr_action r = 0 \/ rr_action r = 1 \/ rr_action r = 2 \/ rr_action r = 3) as Hr by lia.
    unfold rule_action_number. by destruct Hr as [-> |[-> |[-> | ->]]]. }
  destruct (stated_table_sent r Htab) as [Htb Htn]. fold table in Htb, Htn.
  assert (narrow_opt (rr_suppress_prefixlength r) = Some (rr_suppress_prefixlength r)) as Hs.
  { revert Hsup. destruct (rr_suppress_prefixlength r) as [n|]; [|done]. intros Hsup.
    specialize (Hsup n eq_refl). cbn.
    rewrite narrow_in_u32; [done|]. unfold in_u32. lia. }
  unfold sent, kernel_rule_spec. rewrite Hf, Hact, (narrow_in_u32 _ Hprio), Htb. cbn [mbind option_bind].
  rewrite Ef, Et. revert Hmark. unfold stated_mark.
  destruct (rr_fwmark r) as [m|], (rr_fwmask r) as [k|]; try done; intros Hmark.
  - apply andb_true_iff in Hmark as [[_ Hm]%andb_true_iff Hk].
    cbn -[narrow_opt]. unfold rule_request. cbn -[narrow_opt]. rewrite Hs. cbn.
    rewrite (narrow_in_u32 _ Hm), (narrow_in_u32 _ Hk). cbn. by rewrite Htn.
  - cbn -[narrow_opt]. unfold rule_request. cbn -[narrow_opt]. rewrite Hs. cbn. by rewrite Htn.
Qed.

(** A selector the kernel told back. *)
Lemma selector_told text ip len told told_len :
  (exists back, ip_cidr ip len = Some back /\ same_address text back = true) ->
  (ip = None -> text = None) -> (is_Some ip -> (len =? 0) = false) ->
  (let said := match ip with Some _ => len | None => 0 end in
   if said =? 0 then told = None else told = ip /\ told_len = said) ->
  exists back, ip_cidr told (match told with Some _ => told_len | None => 0 end) = Some back /\
    same_address text back = true.
Proof.
  intros Hback Hnone Hlen Htold. destruct ip as [ip|].
  - cbn in Htold. rewrite Hlen in Htold by eauto. destruct Htold as [-> ->]. exact Hback.
  - rewrite Hnone by done. cbn in Htold. subst told. by exists None.
Qed.

Lemma action_reads_back a :
  0 <= a <= 3 ->
  (if action_number a =? FR_ACT_BLACKHOLE then 1
   else if action_number a =? FR_ACT_UNREACHABLE then 2
   else if action_number a =? FR_ACT_PROHIBIT then 3 else 0) = a.
Proof.
  intros H. assert (a = 0 \/ a = 1 \/ a = 2 \/ a = 3) as Ha by lia.
  by destruct Ha as [-> |[-> |[-> | ->]]].
Qed.

(** A mark that is stated with its mask is told back, and so is its absence. *)
Lemma mark_told mark mask told_mark told_mask :
  stated_mark mark mask = true ->
  told_mark = (if default 0 mark =? 0 then None else mark) ->
  (let held := match mask with Some k => k | None => if default 0 mark =? 0 then 0 else UINT32_MAX end in
   told_mask = (if (default 0 mark =? 0) && (held =? 0) then None else Some held)) ->
  told_mark = mark /\ told_mask = mask.
Proof.
  unfold stated_mark. destruct mark as [m|], mask as [k|]; try done; cbn.
  rewrite !andb_true_iff, Z.ltb_lt. intros [[Hm _] _]. by rewrite (proj2 (Z.eqb_neq m 0)) by lia.
Qed.

Lemma suppress_told (suppress : optint) :
  (forall n, suppress = Some n -> 0 <= n < UINT32_MAX) ->
  (if default UINT32_MAX suppress =? UINT32_MAX then None else Some (default UINT32_MAX suppress)) = suppress.
Proof.
  intros H. destruct suppress as [n|]; cbn; [|done]. specialize (H n eq_refl).
  by rewrite (proj2 (Z.eqb_neq n UINT32_MAX)) by lia.
Qed.

(** A table that is looked up, or left to an l3mdev. *)
Lemma table_told r told header :
  stated_table r = true ->
  (forall t, rr_table r = Some t -> told = Some t) ->
  (rr_table r = None -> rr_l3mdev r = true -> told = Some 0) ->
  rr_action r = RULE_ACTION_LOOKUP ->
  (let t := match told with Some t => t | None => header end in if negb (t =? 0) then Some t else None) =
  rr_table r.
Proof.
  unfold stated_table. intros H Hsome Hnone Ha. destruct (rr_table r) as [t|].
  - rewrite (Hsome t eq_refl). rewrite !andb_true_iff, Z.ltb_lt in H.
    by rewrite (proj2 (Z.eqb_neq t 0)) by lia.
  - rewrite Ha in H. cbn in H. rewrite orb_false_r in H. by rewrite Hnone.
Qed.

(** A message that says in full what the rule is. *)
Lemma stated_sound r m :
  stated r = true -> sent r = Some m -> fib_sound m = true.
Proof.
  intros H Em.
  destruct (stated_inv r H) as (Hfam & Ha & _ & Hfrom & Hto & Hiif & Hoif & _ & _ & Htab).
  destruct (selector_reads_back _ _ Hfrom) as (from & flen & Ef & _ & _ & Hfmax & _).
  destruct (selector_reads_back _ _ Hto) as (to & tlen & Et & _ & _ & Htmax & _).
  rewrite (stated_sent r _ _ _ _ H Ef Et) in Em. injection Em as <-.
  assert (forall name, stated_name name = true ->
    match name with Some s => (0 <? slen s) && (slen s <? RULE_NAME_MAX) | None => true end = true) as Hname.
  { intros [s|]; [|done]. unfold stated_name. by intros [? _]%andb_true_iff. }
  unfold fib_sound. cbn -[action_number]. rewrite (Hname _ Hiif), (Hname _ Hoif), !andb_true_r.
  unfold family_number. rewrite !andb_true_iff, !Z.leb_le. split_and!.
  - revert Htab. unfold stated_table. destruct (rr_table r) as [t|]; [|done].
    rewrite !andb_true_iff, Z.ltb_lt. intros [_ ->%negb_true_iff]. by rewrite andb_false_r.
  - revert Htab. unfold stated_table. destruct (rr_table r) as [t|].
    + rewrite !andb_true_iff, Z.ltb_lt. intros [[Ht _] _]. rewrite (proj2 (Z.eqb_neq t 0)) by lia.
      by rewrite orb_true_r.
    + intros [Hl|Hl]%orb_true_iff; [by rewrite Hl, orb_true_r|].
      assert (rr_action r = 1 \/ rr_action r = 2 \/ rr_action r = 3) as Hr.
      { unfold RULE_ACTION_LOOKUP in Hl. lia. }
      by destruct Hr as [-> |[-> | ->]].
  - destruct (rr_family r =? 1), from; cbn in *; lia.
  - destruct (rr_family r =? 1), to; cbn in *; lia.
Qed.

(** What is observed of a rule that was stated in full, once it was installed,
    is that rule. *)
Lemma installed_stated r :
  stated r = true -> exists c, installed r = Some c /\ same_rule r c = true.
Proof.
  intros H. destruct (stated_inv r H) as (Hfam & Ha & Hprio & Hfrom & Hto & Hiif & Hoif & Hmark & Hsup & Htab).
  destruct (selector_reads_back _ _ Hfrom) as (from & flen & Ef & Hf0 & Hflen & _ & Hfback).
  destruct (selector_reads_back _ _ Hto) as (to & tlen & Et & Ht0 & Htlen & _ & Htback).
  pose proof (stated_sent r _ _ _ _ H Ef Et) as Hm. cbv zeta in Hm.
  destruct (fib_takes _ (stated_sound r _ H Hm)) as [d Hd].
  destruct (fib_tells _ d Hd) as (Tfam & Tprio & Tact & Tinv & Tproto & Tl3 & Tiif & Toif & Tsrc & Tdst &
    Ttab & Ttab0 & Tmark & Tmask & Tsup). unfold held_mask in Tmask.
  cbn [fr_family fr_dst_len fr_src_len fr_table fr_action fr_invert fra_priority fra_table fra_src fra_dst
    fra_iifname fra_oifname fra_fwmark fra_fwmask fra_suppress_prefixlen fra_l3mdev fra_protocol] in *.
  destruct (selector_told _ _ _ _ _ Hfback Hf0 Hflen Tsrc) as (fback & Efb & Hfsame).
  destruct (selector_told _ _ _ _ _ Htback Ht0 Htlen Tdst) as (tback & Etb & Htsame).
  unfold installed. rewrite Hm. cbn [mbind option_bind]. rewrite Hd. cbn [mbind option_bind].
  unfold build_rule, dump_rule. cbn -[action_number area_string]. rewrite Efb, Etb. cbn -[action_number area_string].
  eexists. split; [reflexivity|]. unfold same_rule. cbn -[action_number area_string RULE_ACTION_LOOKUP].
  rewrite Hfsame, Htsame, Tiif, Toif, (name_reads_back _ Hiif), (name_reads_back _ Hoif), Tact, Tinv.
  rewrite (action_reads_back _ Ha), Z.eqb_refl, Bool.eqb_reflx.
  destruct (mark_told _ _ _ _ Hmark Tmark Tmask) as [-> ->]. rewrite Tsup, (suppress_told _ Hsup), Tl3.
  unfold same_text, same_number. rewrite !(bool_decide_true (_ = _)) by done. cbn [andb].
  apply andb_true_iff. split; [by destruct (rr_l3mdev r)|].
  destruct (rr_action r =? RULE_ACTION_LOOKUP) eqn:El; [|done]. apply Z.eqb_eq in El.
  apply bool_decide_eq_true. symmetry. apply table_told; [done|done| |done].
  intros Hn Hl. apply Ttab0; [done|by rewrite Hl].
Qed.

Lemma find_rule_self rules r : NoDup (map rule_key rules) -> r ∈ rules -> find_rule rules (rule_key r) = Some r.
Proof.
  induction rules as [|x rules IH]; intros Hnd Hin; [by apply elem_of_nil in Hin|].
  cbn [map] in Hnd. apply NoDup_cons in Hnd as [Hx Hnd]. unfold find_rule. cbn [List.find].
  destruct (bool_decide (rule_key x = rule_key r)) eqn:E; unbool.
  - apply elem_of_cons in Hin as [->|Hin]; [done|]. exfalso. apply Hx. rewrite E.
    apply list_elem_of_In, in_map_iff. exists r. split; [done|by apply list_elem_of_In].
  - apply elem_of_cons in Hin as [->|Hin]; [done|]. by apply IH.
Qed.

Lemma settled_plans_nothing (k k' : kernel) rules observed :
  NoDup (map rule_key rules) -> (forall key, k' !! key = settled rules key (k !! key)) -> sees k' observed ->
  (forall r, r ∈ rules -> stated r = true) ->
  rule_changes rules observed = [].
Proof.
  intros Hnd Hset Hs Hst. unfold rule_changes.
  assert (forall {X Y} (f : X -> list Y) l, (forall x, x ∈ l -> f x = []) -> l ≫= f = []) as Hbind.
  { intros X Y f l. induction l as [|x l IH]; intros H; [done|]. cbn [mbind list_bind].
    rewrite H by (apply elem_of_cons; by left). apply IH. intros y Hy. apply H, elem_of_cons. by right. }
  rewrite !Hbind; [done| |].
  - intros held Hin. unfold leftover. fold (going rules held). rewrite going_find.
    destruct Hs as [_ Hk]. assert (k' !! observed_key held = Some held) as E by (by apply Hk).
    rewrite Hset in E. unfold settled in E. fold (find_rule rules (observed_key held)) in E.
    destruct (find_rule rules (observed_key held)) as [r|]; [by rewrite bool_decide_false, andb_false_r by done|].
    destruct (k !! observed_key held) as [c|]; [|done]. destruct (ownership_may_remove (or_ownership c)) eqn:Eo; [done|].
    injection E as <-. by rewrite Eo.
  - intros r Hin. unfold rule_change. rewrite (find_seen _ _ _ Hs), Hset. unfold settled.
    fold (find_rule rules (rule_key r)). rewrite find_rule_self by done.
    destruct (installed_stated r (Hst r Hin)) as (new & -> & Hnew).
    destruct (k !! rule_key r) as [c|]; [|by rewrite Hnew].
    destruct (same_rule r c) eqn:E1; [by rewrite E1|].
    destruct (ownership_may_remove (or_ownership c)) eqn:E2; [by rewrite Hnew|]. by rewrite E1, E2.
Qed.

(** C8: a plan for the rules converges. The document names each family and
    priority once, and asks for no rule that cannot be sent or that the kernel
    refuses; the rules observed, at most one to a priority, can be sent back
    where they are netcfgd's; no rule is locked and memory did not run out.
    Then the actions [ncfg_plan_rules] appended can be carried out in order on
    the kernel that was observed without one failing -- a rule is added only
    where there is none -- and leave it as asked: at a priority the document
    names, the rule that was already right, or netcfgd's own replaced by what
    the one wanted is read back as, or a foreign one untouched; elsewhere,
    nothing of netcfgd's and every foreign rule as it was. And where every
    rule wanted says in full what the kernel will say of it -- its selectors
    with a prefix length other than zero, its mark, not zero, with a mask --
    planning again on what is then observed asks for nothing, whatever spelling
    the document and the kernel use for addresses. Without that it may ask for
    the same again, as the examples below do. *)
Theorem rules_converge (grant : nat -> bool) (b : builder) (k : gmap (Z * Z) observed_rule)
    (observed : list observed_rule) (p p' : plan B) (h h' : heap) :
  let rules := dc_rules (bd_desired b) in
  plan_rules realloc_ok (O := heap_ops grant) b observed (p, h) = ((), (p', h')) -> plan_failed p' = false ->
  rules_unlocked b -> NoDup (map rule_key rules) -> sees k observed ->
  (forall r, r ∈ rules -> is_Some (installed r)) -> removable observed ->
  exists asked k',
    map ac_op (p_actions p') = map ac_op (p_actions p) ++ asked /\ exec_rules k asked = Some k' /\
    (forall key, k' !! key = settled rules key (k !! key)) /\
    ((forall r, r ∈ rules -> stated r = true) ->
     forall observed' (v : view B), sees k' observed' ->
       exists v', plan_rules realloc_ok (O := view_ops) b observed' v = ((), v') /\ asked_ops v' = asked_ops v).
Proof.
  intros rules E Hf Hb Hnd Hs Hacc Hrem. destruct (plan_rules_refines grant b observed _ _ _ E Hf) as [_ Hv].
  destruct (plan_rules_view b observed (view_of p) Hb) as (v' & Ev & Hops). cbn in Hv. rewrite Ev in Hv. injection Hv as ->.
  destruct (exec_changes k _ observed Hs Hnd Hacc Hrem) as (k' & Ek & Hset).
  exists (map fst (rule_changes rules observed)), k'. split; [|split; [exact Ek|split; [exact Hset|]]].
  - apply (f_equal (map fst)) in Hops. unfold asked_ops in Hops. rewrite map_app, !map_map in Hops. exact Hops.
  - intros Hst observed' v Hs'. destruct (plan_rules_view b observed' v Hb) as (v1 & E1 & H1). exists v1. split; [done|].
    rewrite H1, (settled_plans_nothing k k') by done. apply app_nil_r.
Qed.
End Spec.

(** The kernel a list of rules describes. *)
Definition kernel_of (observed : list observed_rule) : gmap (Z * Z) observed_rule :=
  list_to_map (map (fun c => (observed_key c, c)) observed).

Lemma sees_kernel_of observed : NoDup (map observed_key observed) -> sees (kernel_of observed) observed.
Proof.
  intros Hnd. split; [done|]. intros key c. unfold kernel_of. rewrite <- elem_of_list_to_map.
  - rewrite list_elem_of_In, in_map_iff. split.
    + intros (c' & [= <- <-] & Hin). split; [by apply list_elem_of_In|done].
    + intros [Hin <-]. exists c. split; [done|by apply list_elem_of_In].
  - change (fmap fst (map (fun c => (observed_key c, c)) observed)) with (map fst (map (fun c => (observed_key c, c)) observed)).
    by rewrite map_map.
Qed.

(** A kernel that meets [FibLaws]: it takes sound messages alone. *)
#[export] Instance fib_core : FibRules := {
  fib_reports m :=
    if fib_sound m then
      let marked := negb (default 0 (fra_fwmark m) =? 0) in
      Some (FibRule (fr_family m) (fr_dst_len m) (fr_src_len m) 0 (fr_action m) (fr_invert m)
        (fra_priority m) (Some (default 0 (fra_table m)))
        (if fr_src_len m =? 0 then None else fra_src m) (if fr_dst_len m =? 0 then None else fra_dst m)
        (held_name (fra_iifname m)) (held_name (fra_oifname m))
        (if marked then fra_fwmark m else None)
        (if marked || negb (held_mask m =? 0) then Some (held_mask m) else None)
        (Some (default UINT32_MAX (fra_suppress_prefixlen m))) (fra_l3mdev m) (fra_protocol m))
    else None }.

#[export] Instance fib_core_laws : FibLaws fib_core.
Proof.
  split.
  - intros m Hm. cbn. rewrite Hm. by eexists.
  - intros m d. cbn. destruct (fib_sound m); [|done]. intros [= <-]. cbn. split_and!; try done.
    + by destruct (fr_src_len m =? 0).
    + by destruct (fr_dst_len m =? 0).
    + by intros t ->.
    + by intros -> _.
    + by destruct (_ =? 0).
    + by destruct (_ =? 0), (held_mask m =? 0).
Qed.

Definition a_rule (id : string) (priority : Z) (from : string) (table : Z) : routing_rule :=
  RoutingRule (Some id) priority 0 (Some from) None None None None None (Some table) 0 None false false.

Definition a_seen (priority : Z) (from : string) (table : Z) (o : ownership) : observed_rule :=
  ObservedRule priority 0 (Some from) None None None None None (Some table) 0 None false false o.

(** What is read back of a rule that does not say in full what the kernel will
    say of it is another rule, and netcfgd's own to replace: every plan asks for
    it to go and to come back. A mark without a mask, which the language takes;
    a selector of length zero; one written without a length, which is sent as
    a host. *)
Definition asks_again (r : routing_rule) : bool :=
  match installed r with
  | Some c =>
      match rule_changes (B := unit) [r] [c] with
      | [(RULE_DEL _, _); (RULE_ADD _, _)] => true
      | _ => false
      end
  | None => false
  end.

Example maskless_mark_again :
  let r := RoutingRule (Some "marked") 100 0 None None None None (Some 42) None (Some 200) 0 None false false in
  asks_again r = true /\ (or_fwmask <$> installed r) = Some (Some UINT32_MAX).
Proof. split; vm_compute; reflexivity. Qed.

Example empty_prefix_again :
  let r := a_rule "all" 100 "0.0.0.0/0" 200 in
  asks_again r = true /\ (or_from <$> installed r) = Some None.
Proof. split; vm_compute; reflexivity. Qed.

Example host_again :
  let r := a_rule "host" 100 "10.0.0.5" 200 in
  asks_again r = true /\ (or_from <$> installed r) = Some (Some "10.0.0.5/32").
Proof. split; vm_compute; reflexivity. Qed.

Definition some_rules : list routing_rule :=
  [a_rule "guests" 100 "10.0.0.0/8" 200; a_rule "lab" 300 "10.1.0.0/16" 7; a_rule "new" 500 "10.2.0.0/16" 9].

Definition some_seen : list observed_rule :=
  [a_seen 100 "10.0.0.0/8" 100 OWNERSHIP_OURS; a_seen 300 "10.9.0.0/16" 7 OWNERSHIP_FOREIGN;
   a_seen 400 "10.0.0.0/8" 1 OWNERSHIP_OURS].

Lemma forallb_elem {X} (f : X -> bool) l : forallb f l = true -> forall x, x ∈ l -> f x = true.
Proof. rewrite forallb_forall. intros H x Hx. by apply H, list_elem_of_In. Qed.

Lemma some_rules_stated : forall r, r ∈ some_rules -> stated r = true.
Proof. apply forallb_elem. vm_compute. reflexivity. Qed.

Lemma some_seen_removable : removable some_seen.
Proof.
  intros c Hc _. eapply bool_decide_eq_true_1. revert c Hc.
  apply (forallb_elem (fun c => bool_decide (is_Some (sent (recreated c))))). vm_compute. reflexivity.
Qed.

Lemma rules_converge_witness :
  let rules := some_rules in
  let observed := some_seen in
  let b := Builder (Document (Globals [] None) [] [] rules) None [] [] [] [] [] [] false in
  let p : plan unit := Plan 0%nat (Pmem arena_init [] 0%nat None) [] None [] None [] None [] None in
  let s := (plan_rules (fun _ => true) (O := heap_ops (fun _ => true)) b observed (p, Heap 1%nat {[ 0%nat ]} false)).2 in
  map (fun a => op_name (ac_op a)) (p_actions s.1) = ["rule.del"; "rule.add"; "rule.add"; "rule.del"] /\
  exists asked k', map ac_op (p_actions s.1) = asked /\ exec_rules (kernel_of observed) asked = Some k' /\
    k' !! (0, 300) = Some (a_seen 300 "10.9.0.0/16" 7 OWNERSHIP_FOREIGN) /\ k' !! (0, 400) = None /\
    forall observed' (v : view unit), sees k' observed' ->
      exists v', plan_rules (fun _ => true) (O := view_ops) b observed' v = ((), v') /\ asked_ops v' = asked_ops v.
Proof.
  intros rules observed b p s. split; [vm_compute; reflexivity|].
  destruct (rules_converge (fun _ => true) (fun _ => true) b (kernel_of observed) observed p s.1
              (Heap 1%nat {[ 0%nat ]} false) s.2) as (asked & k' & Ha & Hk & Hset & Hagain).
  - vm_compute. reflexivity.
  - vm_compute. reflexivity.
  - intros r. unfold locked_subject. cbn [bd_desired dc_globals gl_locked b].
    split; (destruct (op_subject _ _); [|done]; by rewrite bool_decide_false by apply not_elem_of_nil).
  - apply (bool_decide_unpack _). vm_compute. exact I.
  - apply sees_kernel_of. apply (bool_decide_unpack _). vm_compute. exact I.
  - intros r Hr. destruct (installed_stated r (some_rules_stated r Hr)) as (c & Hc & _). by exists c.
  - exact some_seen_removable.
  - exists asked, k'. split; [exact Ha|]. split; [exact Hk|].
    split; [rewrite Hset; vm_compute; reflexivity|]. split; [rewrite Hset; vm_compute; reflexivity|].
    exact (Hagain some_rules_stated).
Defined.
