(* ===== verification/Sysctl.v ===== *)
(** * Sysctl: reading and writing the per-interface sysctls

    The reading half of [observe/host.c] and the writing half of
    [apply/sysctl.c], over the files both name.  A file is known by what its
    path is made of; the two checks that keep a name from naming some other
    file, and a path from being cut, are the source's.  A file holds the bytes
    last written to it, and [writable] says which can be opened for writing. *)
From S2P Require Import Prelude Lex LexFacts Op Wire.
From stdpp Require Import gmap.
#[local] Open Scope Z_scope.

(** [<root>/sys/net/<family>/conf/<iface>/<leaf>], and [<root>/sys/<tail>]. *)
Inductive sysctl_file : Set :=
| CONF (family iface leaf : string)
| TAIL (tail : string).

#[export] Instance sysctl_file_eq_dec : EqDecision sysctl_file.
Proof. solve_decision. Defined.

#[export] Instance sysctl_file_countable : Countable sysctl_file.
Proof.
  apply (inj_countable' (fun f => match f with CONF a b c => inl (a, b, c) | TAIL t => inr t end)
           (fun x => match x with inl (a, b, c) => CONF a b c | inr t => TAIL t end)).
  by intros [].
Defined.

Notation files := (gmap sysctl_file (list byte)).

Definition path_text (root : string) (f : sysctl_file) : string :=
  match f with
  | CONF family iface leaf => root +:+ "/sys/net/" +:+ family +:+ "/conf/" +:+ iface +:+ "/" +:+ leaf
  | TAIL tail => root +:+ "/sys/" +:+ tail
  end.

(** ** Reading ([observe/host.c]) *)

Definition HOST_VALUE_MAX : nat := 256.
Definition HOST_PATH_MAX : nat := 4096 + 256.

Definition is_space (b : byte) : bool := bz b <=? bz " ".

Fixpoint drop_spaces (s : list byte) : list byte :=
  match s with b :: rest => if is_space b then drop_spaces rest else s | [] => [] end.

(** [read_value]: the first 255 bytes, trimmed, up to a NUL. *)
Definition trim (s : list byte) : list byte := drop_spaces (rev (drop_spaces (rev s))).

Fixpoint to_nul (s : list byte) : list byte :=
  match s with b :: rest => if b =b x00 then [] else b :: to_nul rest | [] => [] end.

Definition read_value (fs : files) (f : sysctl_file) : option (list byte) :=
  (fun content => to_nul (trim (take (HOST_VALUE_MAX - 1) content))) <$> fs !! f.

(** [join] and [read_joined]. *)
Definition read_joined (fs : files) (root : string) (f : sysctl_file) : option (list byte) :=
  if (String.length (path_text root f) <? HOST_PATH_MAX)%nat then read_value fs f else None.

(** [family_forwards]. *)
Definition family_forwards (fs : files) (root family name : string) : option bool :=
  (fun value => negb (bytes_eqb value (bytes "0"))) <$> read_joined fs root (CONF family name "forwarding").

(** [ncfg_observe_forwarding]. *)
Definition observe_forwarding (fs : files) (root name : cstr) : option bool :=
  match root, name with
  | Some r, Some n =>
      match family_forwards fs r "ipv4" n with
      | None => None
      | Some four =>
          match family_forwards fs r "ipv6" n with
          | None => None
          | Some six => Some (four && six)
          end
      end
  | _, _ => None
  end.

(** [ncfg_observe_privacy]. *)
Definition observe_privacy (fs : files) (root name : cstr) : option bool :=
  match root, name with
  | Some r, Some n =>
      (fun value => bytes_eqb value (bytes "2")) <$> read_joined fs r (CONF "ipv6" n "use_tempaddr")
  | _, _ => None
  end.

(** [strtoul] in base ten of a text with no space in front, and whether it took
    all of it: [None] where it did not. *)
Definition strtoul_all (s : list byte) : option Z :=
  let '(negative, digits) :=
    match s with
    | b :: rest => if b =b "-" then (true, rest) else if b =b "+" then (false, rest) else (false, s)
    | [] => (false, [])
    end in
  if (length digits =? 0)%nat || negb (forallb is_digit digits) then None
  else
    let v := dec_value 0 digits in
    if v >=? 2 ^ 64 then Some (2 ^ 64 - 1) else Some (if (negative : bool) then u64 (- v) else v).

Record observed_accept_ra := ObservedAcceptRa { ra_value : Z; ra_effective : bool }.

(** [ncfg_observe_accept_ra]. *)
Definition observe_accept_ra (fs : files) (root name : cstr) : option observed_accept_ra :=
  match root, name with
  | Some r, Some n =>
      match read_joined fs r (CONF "ipv6" n "accept_ra") with
      | None => None
      | Some value =>
          match strtoul_all value with
          | None => None
          | Some number =>
              if number >? 255 then None
              else
                let forwards :=
                  match read_joined fs r (CONF "ipv6" n "forwarding") with
                  | Some v => bytes_eqb v (bytes "1")
                  | None => false
                  end in
                Some (ObservedAcceptRa number ((number =? 2) || ((number =? 1) && negb forwards)))
          end
      end
  | _, _ => None
  end.

(** [ncfg_observe_hostname]; [NULL] also when the copy could not be made. *)
Definition observe_hostname (dup_ok : bool) (fs : files) (root : cstr) : option (list byte) :=
  match root with
  | Some r => if dup_ok then read_joined fs r (TAIL "kernel/hostname") else None
  | None => None
  end.

(** ** Writing ([apply/sysctl.c]) *)

Definition SYSCTL_PATH_MAX : nat := 4352.

(** [root_is_usable] and [name_is_a_component]. *)
Definition root_is_usable (root : cstr) : bool :=
  match root with Some r => negb (bool_decide (r = "")) | None => false end.

Definition name_is_a_component (name : cstr) : bool :=
  match name with
  | Some n =>
      negb (bool_decide (n = "")) && negb (bool_decide (n = ".")) && negb (bool_decide (n = "..")) &&
      forallb (fun b => negb (b =b "/")) (bytes n)
  | None => false
  end.

Section Writing.
Context (writable : sysctl_file -> bool).

(** [write_value] of a path [sysctl_path] made: a file that is not there is not
    created. *)
Definition write_value (fs : files) (root : string) (f : sysctl_file) (value : list byte) : option files :=
  if (String.length (path_text root f) <? SYSCTL_PATH_MAX)%nat then
    if fs !! f is Some _ then if writable f then Some (<[f := value]> fs) else None else None
  else None.

(** [ncfg_service_set_forwarding]: the IPv6 half may fail. *)
Definition set_forwarding (fs : files) (root iface : cstr) (enabled : bool) : option files :=
  let value := bytes (if enabled then "1" else "0") in
  if negb (root_is_usable root) || negb (name_is_a_component iface) then None
  else
    match root, iface with
    | Some r, Some i =>
        match write_value fs r (CONF "ipv4" i "forwarding") value with
        | None => None
        | Some fs =>
            match write_value fs r (CONF "ipv6" i "forwarding") value with
            | None => Some fs
            | Some fs => Some fs
            end
        end
    | _, _ => None
    end.

(** [ncfg_service_set_privacy]. *)
Definition set_privacy (fs : files) (root iface : cstr) (prefer_temporary : bool) : option files :=
  if negb (root_is_usable root) || negb (name_is_a_component iface) then None
  else
    match root, iface with
    | Some r, Some i =>
        write_value fs r (CONF "ipv6" i "use_tempaddr") (bytes (if prefer_temporary then "2" else "0"))
    | _, _ => None
    end.

(** [ncfg_service_set_accept_ra]: 1 or 2, and never 0. *)
Definition set_accept_ra (fs : files) (root iface : cstr) (value : Z) : option files :=
  if negb (root_is_usable root) || negb (name_is_a_component iface) then None
  else if negb (value =? 1) && negb (value =? 2) then None
  else
    match root, iface with
    | Some r, Some i =>
        write_value fs r (CONF "ipv6" i "accept_ra") (bytes (if value =? 1 then "1" else "2"))
    | _, _ => None
    end.

(** [ncfg_service_set_hostname]. *)
Definition set_hostname (fs : files) (root name : cstr) : option files :=
  if negb (root_is_usable root) then None
  else
    match root, name with
    | Some r, Some n =>
        if bool_decide (n = "") then None
        else if existsb (fun b => (bz b <? 32) || (bz b =? 127)) (bytes n) then None
        else write_value fs r (TAIL "kernel/hostname") (bytes n)
    | _, _ => None
    end.

End Writing.
