(* ===== verification/SysctlPass.v ===== *)
(** * SysctlPass: the per-interface sysctls the planner writes ([plan/sysctl.c])

    [accept_ra], [use_tempaddr] and [forwarding], each compared with what was
    observed and put back only where netcfgd is what changed it. *)
From S2P Require Import Prelude Lex Op Heap Plan Wire Builder Sysctl.
From stdpp Require Import gmap pretty.
#[local] Open Scope Z_scope.

(** The members of [ncfg_observed_link_t] and [ncfg_observed_t] the passes
    read. *)
Record observed_link := ObservedLink {
  ol_name : cstr; ol_forwarding : option bool; ol_privacy : option bool;
  ol_accept_ra : option observed_accept_ra }.

Record observed := Observed {
  ob_links : list observed_link;
  ob_forwarding_applied : list cstr; ob_privacy_applied : list cstr; ob_accept_ra_applied : list cstr }.

(** [ncfg_observed_link]. *)
Definition find_link (o : observed) (name : cstr) : option observed_link :=
  match name with
  | None => None
  | Some _ => List.find (fun l => bool_decide (ol_name l = name)) (ob_links o)
  end.

(** [asks_for_slaac]. *)
Definition asks_for_slaac (i : interface) (temporary_only : bool) : bool :=
  existsb (fun s =>
    match s with
    | SOURCE_SLAAC privacy =>
        negb temporary_only || bool_decide (privacy = SLAAC_PRIVACY_PREFER_TEMPORARY)
    | _ => false
    end) (if_addressing i).

(** [accept_ra_settled]. *)
Definition accept_ra_settled (i : interface) (state : option observed_accept_ra) (asked : bool) (wanted : Z) : bool :=
  match state with
  | None => false
  | Some s =>
      if negb asked then ra_value s =? wanted
      else
        let forwards :=
          match if_forwarding i with
          | Some f => f
          | None => (ra_value s =? 1) && negb (ra_effective s)
          end in
        (ra_value s =? 2) || ((ra_value s =? 1) && negb forwards)
  end.

Definition word (b : bool) : string := if b then "true" else "false".

Section Passes.
Context {B : Type} {M : Type -> Type} {O : PlanOps B M}.

(** A push gated on the creation of the interface, with an inverse where there
    was a value to go back to: the end each pass shares. *)
Definition push_gated (b : builder) (name : cstr) (o : op B) (why : reason) (inverse : option (op B)) : M unit :=
  deps ← builder_gate b name;
  _ ← builder_push b o why (pi_ids deps) inverse;
  mret ().

(** [accept_ra_observed]. *)
Definition accept_ra_observed (name : cstr) (state : option observed_accept_ra) : M cstr :=
  match state with
  | None => mret (Some "<absent>")
  | Some s =>
      if ra_effective s then internf ("accept_ra " +:+ pretty (ra_value s) +:+ ", advertisements accepted")
      else if ra_value s =? 1 then
        internf ("accept_ra " +:+ pretty (ra_value s) +:+ ", and " +:+ fmt name +:+ " forwards -- advertisements ignored")
      else internf ("accept_ra " +:+ pretty (ra_value s) +:+ ", advertisements ignored")
  end.

(** [ncfg_plan_accept_ra], for one interface. *)
Definition plan_accept_ra_one (b : builder) (o : observed) (i : interface) : M unit :=
  let asked := asks_for_slaac i false in
  match (if asked then Some 2 else if plan_names (ob_accept_ra_applied o) (if_name i) then Some 1 else None) with
  | None => mret ()
  | Some wanted =>
      let link := find_link o (if_name i) in
      let state := link ≫= ol_accept_ra in
      if bool_decide (is_Some link) && negb (bool_decide (is_Some state)) then
        ops_warnf (if_name i) ("the `accept_ra` sysctl for " +:+ fmt (if_name i) +:+
          " cannot be read, so a router advertisement may be ignored and SLAAC obtain no address -- an " +:+
          "IPv6-disabled kernel, or a container without /proc/sys")
      else if accept_ra_settled i state asked wanted then mret ()
      else
        seen ← accept_ra_observed (if_name i) state;
        push_gated b (if_name i) (SYSCTL_SET_ACCEPT_RA (if_name i) wanted)
          (Reason (if_name i) (Some "addressing[slaac]")
             (Some (if asked then "router advertisements accepted" else "accept_ra back to the kernel default")) seen)
          ((fun s => SYSCTL_SET_ACCEPT_RA (if_name i) (ra_value s)) <$> state)
  end.

(** [ncfg_plan_privacy], for one interface. *)
Definition plan_privacy_one (b : builder) (o : observed) (i : interface) : M unit :=
  match (if asks_for_slaac i true then Some true
         else if plan_names (ob_privacy_applied o) (if_name i) then Some false else None) with
  | None => mret ()
  | Some wanted =>
      let link := find_link o (if_name i) in
      let current := link ≫= ol_privacy in
      if bool_decide (is_Some link) && negb (bool_decide (is_Some current)) then
        ops_warnf (if_name i) ("the `use_tempaddr` sysctl for " +:+ fmt (if_name i) +:+
          " cannot be read, so temporary addresses are not configured -- an IPv6-disabled kernel, or a " +:+
          "container without /proc/sys")
      else if bool_decide (current = Some wanted) then mret ()
      else
        let said (v : bool) : string := if v then "prefer_temporary" else "none" in
        push_gated b (if_name i) (SYSCTL_SET_PRIVACY (if_name i) wanted)
          (Reason (if_name i) (Some "addressing[slaac].privacy") (Some (said wanted))
             (Some (default "<absent>" (said <$> current))))
          (SYSCTL_SET_PRIVACY (if_name i) <$> current)
  end.

(** [ncfg_plan_forwarding], for one interface. *)
Definition plan_forwarding_one (b : builder) (o : observed) (i : interface) : M unit :=
  match (match if_forwarding i with
         | Some f => Some f
         | None => if plan_names (ob_forwarding_applied o) (if_name i) then Some false else None
         end) with
  | None => mret ()
  | Some wanted =>
      let current := find_link o (if_name i) ≫= ol_forwarding in
      if bool_decide (current = Some wanted) then mret ()
      else
        push_gated b (if_name i) (SYSCTL_SET_FORWARDING (if_name i) wanted)
          (Reason (if_name i) (Some "forwarding") (Some (word wanted))
             (Some (default "<unreadable>" (word <$> current))))
          (SYSCTL_SET_FORWARDING (if_name i) <$> current)
  end.

(** The loop each of the three is. *)
Fixpoint for_interfaces (one : interface -> M unit) (l : list interface) : M unit :=
  match l with
  | [] => mret ()
  | i :: rest => _ ← one i; for_interfaces one rest
  end.

Definition plan_accept_ra (b : builder) (o : observed) : M unit :=
  for_interfaces (plan_accept_ra_one b o) (dc_interfaces (bd_desired b)).
Definition plan_privacy (b : builder) (o : observed) : M unit :=
  for_interfaces (plan_privacy_one b o) (dc_interfaces (bd_desired b)).
Definition plan_forwarding (b : builder) (o : observed) : M unit :=
  for_interfaces (plan_forwarding_one b o) (dc_interfaces (bd_desired b)).

(** The three in the order [ncfg_plan_build] runs them. *)
Definition plan_sysctls (b : builder) (o : observed) : M unit :=
  _ ← plan_accept_ra b o;
  _ ← plan_forwarding b o;
  plan_privacy b o.

End Passes.

(** ** The executor's arm for a sysctl, and the observer's for a link *)

(** The three arms of the kernel executor that reach [apply/sysctl.c]. *)
Definition exec_sysctl {B} (writable : sysctl_file -> bool) (root : cstr) (fs : files) (o : op B) : option files :=
  match o with
  | SYSCTL_SET_FORWARDING iface enabled => set_forwarding writable fs root iface enabled
  | SYSCTL_SET_PRIVACY iface prefer_temporary => set_privacy writable fs root iface prefer_temporary
  | SYSCTL_SET_ACCEPT_RA iface value => set_accept_ra writable fs root iface value
  | _ => None
  end.

Fixpoint exec_sysctls {B} (writable : sysctl_file -> bool) (root : cstr) (fs : files) (os : list (op B)) : option files :=
  match os with
  | [] => Some fs
  | o :: rest =>
      match exec_sysctl writable root fs o with
      | Some fs' => exec_sysctls writable root fs' rest
      | None => None
      end
  end.

(** What [observe/host.c] fills in of a link. *)
Definition observe_link (root : cstr) (fs : files) (name : string) : observed_link :=
  ObservedLink (Some name) (observe_forwarding fs root (Some name)) (observe_privacy fs root (Some name))
    (observe_accept_ra fs root (Some name)).
