(* ===== verification/SysctlLoop.v ===== *)
(** * SysctlLoop: observing, planning and writing the sysctls converge

    The three components around [/proc/sys] composed: what is observed is
    planned against, what is planned is written, and what is then observed asks
    for nothing more.

    Observe, plan, write, observe again: the files of [/proc/sys] under the
    three components that meet there. *)
From stdpp Require Import gmap pretty.
From S2P Require Import Prelude Lex LexFacts Op Heap Plan PlanSpec Wire Builder BuilderSpec Sysctl SysctlPass.
#[local] Open Scope Z_scope.

Section Plans.
Context {B : Type}.

(** ** The pass on a plan is the pass on its lists *)

Lemma push_gated_refines grant b name (o : op B) why inv :
  refines (push_gated (O := heap_ops grant) b name o why inv) (push_gated (O := view_ops) b name o why inv).
Proof.
  unfold push_gated, builder_gate. apply refines_bind; [apply gate_loop_refines|intros].
  apply refines_bind; [apply builder_push_refines|intros; apply refines_ret].
Qed.

#[local] Hint Resolve push_gated_refines internf_refines : refines.

Lemma for_interfaces_refines (m : interface -> State (plan B * heap) unit) (f : interface -> State (view B) unit) grant l :
  (forall i, refines (m i) (f i)) ->
  refines (for_interfaces (O := heap_ops grant) m l) (for_interfaces (O := view_ops) f l).
Proof.
  intros H. induction l as [|i l IH]; cbn [for_interfaces]; [apply refines_ret|]. by apply refines_bind.
Qed.

Lemma plan_sysctls_refines grant b o :
  refines (B := B) (plan_sysctls (O := heap_ops grant) b o) (plan_sysctls (O := view_ops) b o).
Proof.
  unfold plan_sysctls. apply refines_bind; [|intros; apply refines_bind; [|intros]]; apply for_interfaces_refines; intros i.
  - unfold plan_accept_ra_one, accept_ra_observed. solve_refines.
  - unfold plan_forwarding_one. solve_refines.
  - unfold plan_privacy_one. solve_refines.
Qed.

(** ** What the passes ask for *)

Definition accept_ra_change (o : observed) (i : interface) : list (op B * option (op B)) :=
  let asked := asks_for_slaac i false in
  match (if asked then Some 2 else if plan_names (ob_accept_ra_applied o) (if_name i) then Some 1 else None) with
  | None => []
  | Some wanted =>
      let link := find_link o (if_name i) in
      let state := link ≫= ol_accept_ra in
      if bool_decide (is_Some link) && negb (bool_decide (is_Some state)) then []
      else if accept_ra_settled i state asked wanted then []
      else [(SYSCTL_SET_ACCEPT_RA (if_name i) wanted, (fun s => SYSCTL_SET_ACCEPT_RA (if_name i) (ra_value s)) <$> state)]
  end.

Definition forwarding_wanted (o : observed) (i : interface) : option bool :=
  match if_forwarding i with
  | Some f => Some f
  | None => if plan_names (ob_forwarding_applied o) (if_name i) then Some false else None
  end.

Definition forwarding_change (o : observed) (i : interface) : list (op B * option (op B)) :=
  match forwarding_wanted o i with
  | None => []
  | Some wanted =>
      let current := find_link o (if_name i) ≫= ol_forwarding in
      if bool_decide (current = Some wanted) then []
      else [(SYSCTL_SET_FORWARDING (if_name i) wanted, SYSCTL_SET_FORWARDING (if_name i) <$> current)]
  end.

Definition privacy_wanted (o : observed) (i : interface) : option bool :=
  if asks_for_slaac i true then Some true
  else if plan_names (ob_privacy_applied o) (if_name i) then Some false else None.

Definition privacy_change (o : observed) (i : interface) : list (op B * option (op B)) :=
  match privacy_wanted o i with
  | None => []
  | Some wanted =>
      let link := find_link o (if_name i) in
      let current := link ≫= ol_privacy in
      if bool_decide (is_Some link) && negb (bool_decide (is_Some current)) then []
      else if bool_decide (current = Some wanted) then []
      else [(SYSCTL_SET_PRIVACY (if_name i) wanted, SYSCTL_SET_PRIVACY (if_name i) <$> current)]
  end.

Definition sysctl_changes (o : observed) (l : list interface) : list (op B * option (op B)) :=
  (l ≫= accept_ra_change o) ++ (l ≫= forwarding_change o) ++ (l ≫= privacy_change o).

(** Nothing keeps a sysctl out of the plan. *)
Definition unobstructed (b : builder) : Prop :=
  forall o : op B,
    (kind_of o = OP_SYSCTL_SET_FORWARDING \/ kind_of o = OP_SYSCTL_SET_PRIVACY \/ kind_of o = OP_SYSCTL_SET_ACCEPT_RA) ->
    silenced b o = false /\ forall why, refusal_of b o why = None.

Lemma gate_loop_view gates name out (v : view B) : exists ids, gate_loop (O := view_ops) gates name out v = (ids, v).
Proof.
  revert out. induction gates as [|g gates IH]; intros out; cbn [gate_loop]; [by eexists|].
  destruct (_ && _); [|apply IH].
  assert (exists ids, ids_push (O := view_ops) (B := B) out (pm_id g) v = (ids, v)) as [ids E].
  { unfold ids_push. destruct (_ =? _); eexists; reflexivity. }
  rewrite (view_seq _ _ _ _ _ E). apply IH.
Qed.

Lemma push_gated_view b name (o : op B) why inv v :
  silenced b o = false -> refusal_of b o why = None ->
  exists v', push_gated (O := view_ops) b name o why inv v = ((), v') /\ asked_ops v' = asked_ops v ++ [(o, inv)].
Proof.
  intros Hs Hr. unfold push_gated, builder_gate. destruct (gate_loop_view (bd_gates b) name no_ids v) as [ids E].
  rewrite (view_seq _ _ _ _ _ E).
  assert (builder_push (O := view_ops) b o why (pi_ids ids) inv v = view_add o why (pi_ids ids) inv v) as Ep.
  { rewrite push_view. unfold push_reference. by rewrite Hs, Hr. }
  unfold view_add in Ep. rewrite (view_seq _ _ _ _ _ Ep). eexists. split; [reflexivity|].
  unfold asked_ops. cbn. by rewrite map_app.
Qed.

Definition does (m : State (view B) unit) (changes : list (op B * option (op B))) : Prop :=
  forall v, exists v', m v = ((), v') /\ asked_ops v' = asked_ops v ++ changes.

Lemma does_nothing : does (mret (M := State (view B)) ()) [].
Proof. intros v. exists v. by rewrite app_nil_r. Qed.

Lemma does_warn i t : does (ops_warnf (B := B) (M := State (view B)) i t) [].
Proof. intros v. eexists. split; [reflexivity|]. unfold asked_ops. cbn. by rewrite app_nil_r. Qed.

Lemma does_push b name (o : op B) why inv :
  silenced b o = false -> refusal_of b o why = None -> does (push_gated (O := view_ops) b name o why inv) [(o, inv)].
Proof. intros Hs Hr v. by apply push_gated_view. Qed.

Lemma does_for (one : interface -> State (view B) unit) change l :
  (forall i, does (one i) (change i)) -> does (for_interfaces (O := view_ops) one l) (l ≫= change).
Proof.
  intros H. induction l as [|i l IH]; intros v; [exists v; by rewrite app_nil_r|]. cbn [for_interfaces mbind list_bind].
  destruct (H i v) as (v1 & E1 & H1). rewrite (view_seq _ _ _ _ _ E1). destruct (IH v1) as (v2 & E2 & H2).
  exists v2. split; [done|]. rewrite H2, H1. by rewrite app_assoc.
Qed.

Lemma plan_sysctls_view b o :
  unobstructed b -> does (plan_sysctls (O := view_ops) b o) (sysctl_changes o (dc_interfaces (bd_desired b))).
Proof.
  intros Hb v. unfold plan_sysctls, sysctl_changes.
  destruct (does_for (plan_accept_ra_one (O := view_ops) b o) (accept_ra_change o) (dc_interfaces (bd_desired b))) with v
    as (v1 & E1 & H1).
  { intros i. unfold plan_accept_ra_one, accept_ra_change. cbn zeta. destruct (if asks_for_slaac i false then _ else _) as [w|]; [|apply does_nothing].
    destruct (_ && _); [apply does_warn|]. destruct (accept_ra_settled _ _ _ _); [apply does_nothing|].
    intros v0. assert (exists seen, accept_ra_observed (O := view_ops) (B := B) (if_name i) (find_link o (if_name i) ≫= ol_accept_ra) v0 = (seen, v0)) as [seen Es].
    { unfold accept_ra_observed. destruct (find_link o (if_name i) ≫= ol_accept_ra) as [s|]; [|by eexists].
      destruct (ra_effective s); [by eexists|]. destruct (ra_value s =? 1); by eexists. }
    rewrite (view_seq _ _ _ _ _ Es). apply push_gated_view; apply Hb; auto. }
  unfold plan_accept_ra. rewrite (view_seq _ _ _ _ _ E1).
  destruct (does_for (plan_forwarding_one (O := view_ops) b o) (forwarding_change o) (dc_interfaces (bd_desired b))) with v1
    as (v2 & E2 & H2).
  { intros i. unfold plan_forwarding_one, forwarding_change, forwarding_wanted. cbn zeta.
    destruct (match if_forwarding i with Some f => _ | None => _ end) as [w|]; [|apply does_nothing].
    destruct (bool_decide _); [apply does_nothing|]. apply does_push; apply Hb; auto. }
  unfold plan_forwarding. rewrite (view_seq _ _ _ _ _ E2).
  destruct (does_for (plan_privacy_one (O := view_ops) b o) (privacy_change o) (dc_interfaces (bd_desired b))) with v2
    as (v3 & E3 & H3).
  { intros i. unfold plan_privacy_one, privacy_change, privacy_wanted. cbn zeta.
    destruct (if asks_for_slaac i true then _ else _) as [w|]; [|apply does_nothing].
    destruct (_ && _); [apply does_warn|]. destruct (bool_decide _); [apply does_nothing|]. apply does_push; apply Hb; auto. }
  exists v3. split; [exact E3|]. rewrite H3, H2, H1. by rewrite <- !app_assoc.
Qed.

End Plans.

Section Loop.
Context (writable : sysctl_file -> bool) (root : string).

Notation accept_ra_file n := (CONF "ipv6" n "accept_ra").
Notation privacy_file n := (CONF "ipv6" n "use_tempaddr").
Notation forwarding4 n := (CONF "ipv4" n "forwarding").
Notation forwarding6 n := (CONF "ipv6" n "forwarding").

Definition files_of (n : string) : list sysctl_file :=
  [accept_ra_file n; forwarding4 n; forwarding6 n; privacy_file n].

(** A name whose four files are there, can be written and have paths that
    fit. *)
Definition reachable (n : string) : Prop :=
  name_is_a_component (Some n) = true /\
  forall f, f ∈ files_of n -> writable f = true /\ (String.length (path_text root f) < SYSCTL_PATH_MAX)%nat.

Definition present (fs : files) (n : string) : Prop := forall f, f ∈ files_of n -> is_Some (fs !! f).

Hypothesis Hroot : root_is_usable (Some root) = true.

Lemma write_ok fs n f value :
  reachable n -> f ∈ files_of n -> is_Some (fs !! f) -> write_value writable fs root f value = Some (<[f := value]> fs).
Proof.
  intros [_ Hr] Hin [x Hx]. destruct (Hr f Hin) as [Hw Hl]. unfold write_value.
  rewrite (proj2 (Nat.ltb_lt _ _) Hl), Hx, Hw. done.
Qed.

Lemma read_fits n f fs : reachable n -> f ∈ files_of n -> read_joined fs root f = read_value fs f.
Proof.
  intros [_ Hr] Hin. destruct (Hr f Hin) as [_ Hl]. unfold read_joined.
  change HOST_PATH_MAX with SYSCTL_PATH_MAX. by rewrite (proj2 (Nat.ltb_lt _ _) Hl).
Qed.

(** Writing a set of files with one value. *)
Definition write_all (fs : files) (l : list sysctl_file) (value : list byte) : files :=
  foldl (fun fs f => <[f := value]> fs) fs l.

Lemma write_all_lookup fs l value f :
  write_all fs l value !! f = if bool_decide (f ∈ l) then Some value else fs !! f.
Proof.
  revert fs. induction l as [|g l IH]; intros fs.
  - cbn. rewrite bool_decide_false by apply not_elem_of_nil. done.
  - change (write_all fs (g :: l) value) with (write_all (<[g := value]> fs) l value). rewrite IH. destruct (decide (f ∈ l)) as [Hin|Hin].
    + rewrite !bool_decide_true by (done || apply elem_of_cons; by right). done.
    + rewrite bool_decide_false by done. destruct (decide (g = f)) as [->|Hne].
      * rewrite lookup_insert_eq, bool_decide_true by (apply elem_of_cons; by left). done.
      * rewrite lookup_insert_ne by done. rewrite bool_decide_false; [done|]. rewrite elem_of_cons. naive_solver.
Qed.

(** The files each of the three ops writes. *)
Lemma exec_accept_ra {B} fs n w :
  reachable n -> present fs n -> w = 1 \/ w = 2 ->
  exec_sysctl writable (Some root) fs (SYSCTL_SET_ACCEPT_RA (Some n) w : op B) =
    Some (write_all fs [accept_ra_file n] (bytes (if w =? 1 then "1" else "2"))).
Proof.
  intros Hr Hp Hw. cbn [exec_sysctl]. unfold set_accept_ra. rewrite Hroot, (proj1 Hr). cbn [negb orb].
  replace (negb (w =? 1) && negb (w =? 2)) with false by (destruct Hw as [-> | ->]; done).
  apply (write_ok fs n); [done|unfold files_of; rewrite !elem_of_cons; auto|apply Hp; unfold files_of; rewrite !elem_of_cons; auto].
Qed.

Lemma exec_privacy {B} fs n w :
  reachable n -> present fs n ->
  exec_sysctl writable (Some root) fs (SYSCTL_SET_PRIVACY (Some n) w : op B) =
    Some (write_all fs [privacy_file n] (bytes (if w then "2" else "0"))).
Proof.
  intros Hr Hp. cbn [exec_sysctl]. unfold set_privacy. rewrite Hroot, (proj1 Hr). cbn [negb orb].
  apply (write_ok fs n); [done|unfold files_of; rewrite !elem_of_cons; auto|apply Hp; unfold files_of; rewrite !elem_of_cons; auto].
Qed.

Lemma exec_forwarding {B} fs n w :
  reachable n -> present fs n ->
  exec_sysctl writable (Some root) fs (SYSCTL_SET_FORWARDING (Some n) w : op B) =
    Some (write_all fs [forwarding4 n; forwarding6 n] (bytes (if w then "1" else "0"))).
Proof.
  intros Hr Hp. cbn [exec_sysctl]. unfold set_forwarding. rewrite Hroot, (proj1 Hr). cbn [negb orb].
  rewrite (write_ok fs n); [|done|unfold files_of; rewrite !elem_of_cons; auto|apply Hp; unfold files_of; rewrite !elem_of_cons; auto].
  rewrite (write_ok _ n); [done|done|unfold files_of; rewrite !elem_of_cons; auto|].
  rewrite lookup_insert_ne by done. apply Hp. unfold files_of. rewrite !elem_of_cons. auto.
Qed.

Lemma exec_sysctls_app {B} fs (os os' : list (op B)) :
  exec_sysctls writable (Some root) fs (os ++ os') =
  match exec_sysctls writable (Some root) fs os with
  | Some fs' => exec_sysctls writable (Some root) fs' os'
  | None => None
  end.
Proof. revert fs. induction os as [|o os IH]; intros fs; cbn; [done|]. destruct (exec_sysctl _ _ fs o); [apply IH|done]. Qed.

(** What a file holds afterwards: what was written, or what it held. *)
Definition after (value : option (list byte)) (old : option (list byte)) : option (list byte) :=
  match value with Some v => Some v | None => old end.

(** One of the three phases: each interface asks for at most one write, of files
    no other interface of the phase names. *)
Section Phase.
Context {B : Type} (targets : string -> list sysctl_file) (change : interface -> list (op B * option (op B)))
  (value : interface -> option (list byte)).
Hypothesis targets_apart : forall n m f, f ∈ targets n -> f ∈ targets m -> n = m.
Hypothesis change_writes : forall i n fs, if_name i = Some n -> reachable n -> present fs n ->
  match value i with
  | None => change i = []
  | Some v => exists o inv, change i = [(o, inv)] /\
      exec_sysctl writable (Some root) fs o = Some (write_all fs (targets n) v)
  end.

Lemma exec_phase (l : list interface) : forall fs,
  NoDup (map if_name l) ->
  (forall i, i ∈ l -> exists n, if_name i = Some n /\ reachable n /\ present fs n) ->
  exists fs', exec_sysctls writable (Some root) fs (map fst (l ≫= change)) = Some fs' /\
    (forall f, is_Some (fs !! f) -> is_Some (fs' !! f)) /\
    (forall i n v f, i ∈ l -> if_name i = Some n -> value i = Some v -> f ∈ targets n -> fs' !! f = Some v) /\
    (forall f, (forall i n, i ∈ l -> if_name i = Some n -> is_Some (value i) -> f ∉ targets n) -> fs' !! f = fs !! f).
Proof.
  induction l as [|i l IH]; intros fs Hnd Hl.
  { exists fs. split; [done|]. split; [done|]. split; [|done]. intros i n v f Hin. by apply elem_of_nil in Hin. }
  cbn [map] in Hnd. apply NoDup_cons in Hnd as [Hi Hnd].
  assert (forall j m, j ∈ l -> if_name j = Some m -> if_name i <> Some m) as Hother.
  { intros j m Hj Hm E. apply Hi. rewrite E, <- Hm. apply list_elem_of_In, in_map_iff. exists j. split; [done|by apply list_elem_of_In]. }
  destruct (Hl i ltac:(apply elem_of_cons; by left)) as (n & Hn & Hr & Hp).
  pose proof (change_writes i n fs Hn Hr Hp) as Hc. cbn [mbind list_bind]. rewrite map_app.
  rewrite exec_sysctls_app.
  destruct (value i) as [v|] eqn:Ev.
  - destruct Hc as (o & inv & Ec & Eo). rewrite Ec. cbn [map fst exec_sysctls]. rewrite Eo.
    assert (forall f, is_Some (fs !! f) -> is_Some (write_all fs (targets n) v !! f)) as Hkeep.
    { intros f Hf. rewrite write_all_lookup. by case_bool_decide. }
    destruct (IH (write_all fs (targets n) v) Hnd) as (fs' & E & Hdom & Hset & Hstay).
    { intros j Hj. destruct (Hl j ltac:(apply elem_of_cons; by right)) as (m & Hm & Hrm & Hpm).
      exists m. split; [done|]. split; [done|]. intros f Hf. apply Hkeep, Hpm, Hf. }
    exists fs'. split; [exact E|]. split; [auto|]. split.
    + intros j m w f [->|Hj]%elem_of_cons Hm Hw Hf; [|by apply (Hset j m w)].
      rewrite Ev in Hw. injection Hw as <-. rewrite Hn in Hm. injection Hm as <-.
      rewrite Hstay; [by rewrite write_all_lookup, bool_decide_true|].
      intros j m Hj Hm _ Hf'. apply (Hother j m Hj Hm). rewrite Hn. f_equal. by apply (targets_apart n m f).
    + intros f Hf. rewrite Hstay by (intros j m Hj; apply Hf, elem_of_cons; by right).
      rewrite write_all_lookup, bool_decide_false; [done|]. apply (Hf i n); [apply elem_of_cons; by left|done|by rewrite Ev].
  - rewrite Hc. cbn [map exec_sysctls]. destruct (IH fs Hnd) as (fs' & E & Hdom & Hset & Hstay).
    { intros j Hj. apply Hl, elem_of_cons. by right. }
    exists fs'. split; [exact E|]. split; [done|]. split.
    + intros j m w f [->|Hj]%elem_of_cons Hm Hw Hf; [congruence|by apply (Hset j m w)].
    + intros f Hf. apply Hstay. intros j m Hj. apply Hf, elem_of_cons. by right.
Qed.

Lemma phase_after (l : list interface) fs :
  NoDup (map if_name l) ->
  (forall i, i ∈ l -> exists n, if_name i = Some n /\ reachable n /\ present fs n) ->
  exists fs', exec_sysctls writable (Some root) fs (map fst (l ≫= change)) = Some fs' /\
    (forall i, i ∈ l -> exists n, if_name i = Some n /\ reachable n /\ present fs' n) /\
    (forall i n f, i ∈ l -> if_name i = Some n -> f ∈ targets n -> fs' !! f = after (value i) (fs !! f)) /\
    (forall f, (forall n, f ∉ targets n) -> fs' !! f = fs !! f).
Proof.
  intros Hnd Hl. destruct (exec_phase l fs Hnd Hl) as (fs' & E & Hdom & Hset & Hstay). exists fs'. split; [done|]. split; [|split].
  - intros i Hi. destruct (Hl i Hi) as (n & Hn & Hr & Hp). exists n. split; [done|]. split; [done|]. intros f Hf. by apply Hdom, Hp.
  - intros i n f Hi Hn Hf. destruct (value i) as [v|] eqn:Ev; cbn [after]; [by apply (Hset i n v)|]. apply Hstay.
    intros j m Hj Hm Hv Hf'. rewrite <- (targets_apart n m f Hf Hf'), <- Hn in Hm.
    apply list_elem_of_lookup_1 in Hi as [x Hx]. apply list_elem_of_lookup_1 in Hj as [y Hy].
    assert (x = y) as ->; [|rewrite Hx in Hy; simplify_eq; rewrite Ev in Hv; by destruct Hv].
    apply (NoDup_lookup (map if_name l) x y (if_name i)); [done|..]; change (map if_name l) with (if_name <$> l); rewrite list_lookup_fmap.
    + by rewrite Hx.
    + by rewrite Hy, <- Hm.
  - intros f Hf. apply Hstay. auto.
Qed.

End Phase.

(** ** What is observed depends on the files of the name alone *)

Definition observed_of (fs : files) (links : list string) (fa pa aa : list cstr) : observed :=
  Observed (map (observe_link (Some root) fs) links) fa pa aa.

Lemma find_observed fs links fa pa aa n :
  n ∈ links -> find_link (observed_of fs links fa pa aa) (Some n) = Some (observe_link (Some root) fs n).
Proof.
  cbn [find_link observed_of ob_links]. induction links as [|m links IH]; intros Hin; [by apply elem_of_nil in Hin|].
  cbn [map List.find]. destruct (bool_decide (ol_name (observe_link (Some root) fs m) = Some n)) eqn:E; unbool.
  - cbn in E. by injection E as ->.
  - apply elem_of_cons in Hin as [->|Hin]; [done|by apply IH].
Qed.

Lemma in_files n : accept_ra_file n ∈ files_of n /\ forwarding4 n ∈ files_of n /\ forwarding6 n ∈ files_of n /\ privacy_file n ∈ files_of n.
Proof. unfold files_of. rewrite !elem_of_cons. auto 10. Qed.

Lemma observe_forwarding_files fs n :
  reachable n ->
  observe_forwarding fs (Some root) (Some n) =
  match read_value fs (forwarding4 n), read_value fs (forwarding6 n) with
  | Some a, Some b => Some (negb (bytes_eqb a (bytes "0")) && negb (bytes_eqb b (bytes "0")))
  | _, _ => None
  end.
Proof.
  intros Hr. destruct (in_files n) as (_ & H4 & H6 & _). unfold observe_forwarding, family_forwards.
  rewrite !(read_fits n) by done. by destruct (read_value fs (forwarding4 n)), (read_value fs (forwarding6 n)).
Qed.

Lemma observe_privacy_files fs n :
  reachable n ->
  observe_privacy fs (Some root) (Some n) = (fun v => bytes_eqb v (bytes "2")) <$> read_value fs (privacy_file n).
Proof. intros Hr. destruct (in_files n) as (_ & _ & _ & Hp). unfold observe_privacy. by rewrite (read_fits n). Qed.

Definition ra_number (fs : files) (n : string) : option Z :=
  match read_value fs (accept_ra_file n) with
  | Some value => match strtoul_all value with Some k => if k >? 255 then None else Some k | None => None end
  | None => None
  end.

Definition forwards6 (fs : files) (n : string) : bool :=
  match read_value fs (forwarding6 n) with Some v => bytes_eqb v (bytes "1") | None => false end.

Lemma observe_accept_ra_files fs n :
  reachable n ->
  observe_accept_ra fs (Some root) (Some n) =
  (fun k => ObservedAcceptRa k ((k =? 2) || ((k =? 1) && negb (forwards6 fs n)))) <$> ra_number fs n.
Proof.
  intros Hr. destruct (in_files n) as (Ha & _ & H6 & _). unfold observe_accept_ra, ra_number, forwards6.
  rewrite !(read_fits n) by done. destruct (read_value fs (accept_ra_file n)) as [v|]; [|done].
  destruct (strtoul_all v) as [k|]; [|done]. by destruct (k >? 255).
Qed.

(** A value that was written is the value that is read. *)
Lemma read_value_written fs f (w : string) :
  w = "0" \/ w = "1" \/ w = "2" -> fs !! f = Some (bytes w) -> read_value fs f = Some (bytes w).
Proof. intros Hw E. unfold read_value. rewrite E. by destruct Hw as [-> |[-> | ->]]. Qed.

Lemma read_same fs fs' f : fs' !! f = fs !! f -> read_value fs' f = read_value fs f.
Proof. intros E. unfold read_value. by rewrite E. Qed.

(** ** The three phases, one after another *)

Definition write_of {B} (o : op B) : option (list byte) :=
  match o with
  | SYSCTL_SET_ACCEPT_RA _ w => Some (bytes (if w =? 1 then "1" else "2"))
  | SYSCTL_SET_FORWARDING _ e => Some (bytes (if e then "1" else "0"))
  | SYSCTL_SET_PRIVACY _ e => Some (bytes (if e then "2" else "0"))
  | _ => None
  end.

Definition value_of {B} (l : list (op B * option (op B))) : option (list byte) :=
  match l with (o, _) :: _ => write_of o | [] => None end.

Section Changes.
Context {B : Type} (o : observed).

Lemma accept_ra_writes i n fs :
  if_name i = Some n -> reachable n -> present fs n ->
  match value_of (accept_ra_change (B := B) o i) with
  | None => accept_ra_change (B := B) o i = []
  | Some v => exists a inv, accept_ra_change o i = [(a : op B, inv)] /\
      exec_sysctl writable (Some root) fs a = Some (write_all fs [accept_ra_file n] v)
  end.
Proof.
  intros Hn Hr Hp. unfold accept_ra_change. cbn zeta. rewrite Hn.
  destruct (if asks_for_slaac i false then Some 2 else _) as [w|] eqn:Ew; [|done].
  destruct (_ && _); [done|]. destruct (accept_ra_settled _ _ _ _); [done|]. cbn [value_of write_of].
  eexists _, _. split; [reflexivity|]. apply exec_accept_ra; [done..|].
  destruct (asks_for_slaac i false); [by simplify_eq; right|]. destruct (plan_names _ _); simplify_eq. by left.
Qed.

Lemma forwarding_writes i n fs :
  if_name i = Some n -> reachable n -> present fs n ->
  match value_of (forwarding_change (B := B) o i) with
  | None => forwarding_change (B := B) o i = []
  | Some v => exists a inv, forwarding_change o i = [(a : op B, inv)] /\
      exec_sysctl writable (Some root) fs a = Some (write_all fs [forwarding4 n; forwarding6 n] v)
  end.
Proof.
  intros Hn Hr Hp. unfold forwarding_change. rewrite Hn. destruct (forwarding_wanted o i) as [w|]; [|done]. cbn zeta.
  destruct (bool_decide _); [done|]. cbn [value_of write_of]. eexists _, _. split; [reflexivity|]. by apply exec_forwarding.
Qed.

Lemma privacy_writes i n fs :
  if_name i = Some n -> reachable n -> present fs n ->
  match value_of (privacy_change (B := B) o i) with
  | None => privacy_change (B := B) o i = []
  | Some v => exists a inv, privacy_change o i = [(a : op B, inv)] /\
      exec_sysctl writable (Some root) fs a = Some (write_all fs [privacy_file n] v)
  end.
Proof.
  intros Hn Hr Hp. unfold privacy_change. rewrite Hn. destruct (privacy_wanted o i) as [w|]; [|done]. cbn zeta.
  destruct (_ && _); [done|]. destruct (bool_decide _); [done|]. cbn [value_of write_of].
  eexists _, _. split; [reflexivity|]. by apply exec_privacy.
Qed.

Lemma exec_three (l : list interface) fs :
  NoDup (map if_name l) ->
  (forall i, i ∈ l -> exists n, if_name i = Some n /\ reachable n /\ present fs n) ->
  exists fs', exec_sysctls writable (Some root) fs (map fst (sysctl_changes (B := B) o l)) = Some fs' /\
    forall i n, i ∈ l -> if_name i = Some n ->
      fs' !! accept_ra_file n = after (value_of (accept_ra_change (B := B) o i)) (fs !! accept_ra_file n) /\
      fs' !! forwarding4 n = after (value_of (forwarding_change (B := B) o i)) (fs !! forwarding4 n) /\
      fs' !! forwarding6 n = after (value_of (forwarding_change (B := B) o i)) (fs !! forwarding6 n) /\
      fs' !! privacy_file n = after (value_of (privacy_change (B := B) o i)) (fs !! privacy_file n).
Proof.
  intros Hnd Hl. unfold sysctl_changes. rewrite !map_app, exec_sysctls_app.
  assert (forall (a b : string) n m f, f ∈ [CONF a n b] -> f ∈ [CONF a m b] -> n = m) as Hapart.
  { intros a b n m f. rewrite !list_elem_of_singleton. by intros -> [= ->]. }
  destruct (phase_after (fun n => [accept_ra_file n]) (accept_ra_change (B := B) o) _ (Hapart _ _) accept_ra_writes l fs Hnd Hl)
    as (fs1 & -> & Hl1 & S1 & T1).
  rewrite exec_sysctls_app.
  destruct (phase_after (fun n => [forwarding4 n; forwarding6 n]) (forwarding_change (B := B) o) _
    ltac:(intros n m f; rewrite !elem_of_cons, !elem_of_nil; naive_solver) forwarding_writes l fs1 Hnd Hl1)
    as (fs2 & -> & Hl2 & S2 & T2).
  destruct (phase_after (fun n => [privacy_file n]) (privacy_change (B := B) o) _ (Hapart _ _) privacy_writes l fs2 Hnd Hl2)
    as (fs3 & -> & _ & S3 & T3).
  exists fs3. split; [done|]. intros i n Hi Hn.
  rewrite (T3 (accept_ra_file n)), (T2 (accept_ra_file n)) by (intros; rewrite ?elem_of_cons, ?elem_of_nil; naive_solver).
  rewrite (T3 (forwarding4 n)), (T3 (forwarding6 n)) by (intros; rewrite list_elem_of_singleton; done).
  rewrite (S1 i n), (S2 i n (forwarding4 n)), (S2 i n (forwarding6 n)), (S3 i n) by (done || rewrite ?elem_of_cons; auto).
  rewrite (T1 (forwarding4 n)), (T1 (forwarding6 n)) by (intros; rewrite list_elem_of_singleton; done).
  rewrite (T2 (privacy_file n)), (T1 (privacy_file n)) by (intros; rewrite ?elem_of_cons, ?elem_of_nil; naive_solver). done.
Qed.

End Changes.

(** ** One interface, afterwards *)

Section Interface.
Context {B : Type} (fs fs' : files) (links : list string) (fa pa aa : list cstr) (i : interface) (n : string).
Let o := observed_of fs links fa pa aa.
Let o' := observed_of fs' links fa pa aa.
Hypothesis Hname : if_name i = Some n.
Hypothesis Hlink : n ∈ links.
Hypothesis Hreach : reachable n.
Hypothesis Hra : fs' !! accept_ra_file n = after (value_of (accept_ra_change (B := B) o i)) (fs !! accept_ra_file n).
Hypothesis Hf4 : fs' !! forwarding4 n = after (value_of (forwarding_change (B := B) o i)) (fs !! forwarding4 n).
Hypothesis Hf6 : fs' !! forwarding6 n = after (value_of (forwarding_change (B := B) o i)) (fs !! forwarding6 n).
Hypothesis Hpr : fs' !! privacy_file n = after (value_of (privacy_change (B := B) o i)) (fs !! privacy_file n).

Lemma forwarding_unwanted :
  forwarding_wanted o i = None -> fs' !! forwarding4 n = fs !! forwarding4 n /\ fs' !! forwarding6 n = fs !! forwarding6 n.
Proof. intros E. rewrite Hf4, Hf6. unfold forwarding_change. by rewrite E. Qed.

Lemma forwarding_reached w :
  forwarding_wanted o i = Some w -> observe_forwarding fs' (Some root) (Some n) = Some w.
Proof.
  intros E. unfold forwarding_change in Hf4, Hf6. rewrite E, Hname in Hf4, Hf6. cbn zeta in Hf4, Hf6.
  unfold o in Hf4, Hf6. rewrite find_observed in Hf4, Hf6 by done. cbn [mbind option_bind ol_forwarding observe_link] in Hf4, Hf6.
  destruct (bool_decide (observe_forwarding fs (Some root) (Some n) = Some w)) eqn:Eb; unbool; cbn in Hf4, Hf6.
  - rewrite <- Eb, !observe_forwarding_files by done. by rewrite (read_same _ _ _ Hf4), (read_same _ _ _ Hf6).
  - rewrite observe_forwarding_files by done.
    rewrite (read_value_written fs' (forwarding4 n) (if w then "1" else "0")), (read_value_written fs' (forwarding6 n) (if w then "1" else "0"))
      by (done || destruct w; auto). by destruct w.
Qed.

Lemma forwarding_settled : forwarding_change (B := B) o' i = [].
Proof.
  unfold forwarding_change. change (forwarding_wanted o' i) with (forwarding_wanted o i).
  destruct (forwarding_wanted o i) as [w|] eqn:E; [|done]. cbn zeta. rewrite Hname. unfold o'. rewrite find_observed by done.
  cbn [mbind option_bind ol_forwarding observe_link]. by rewrite (forwarding_reached w E), bool_decide_true.
Qed.

Lemma privacy_reached w :
  privacy_wanted o i = Some w -> is_Some (observe_privacy fs (Some root) (Some n)) ->
  observe_privacy fs' (Some root) (Some n) = Some w.
Proof.
  intros E Hs. unfold privacy_change in Hpr. rewrite E, Hname in Hpr. cbn zeta in Hpr.
  unfold o in Hpr. rewrite find_observed in Hpr by done. cbn [mbind option_bind ol_privacy observe_link] in Hpr.
  rewrite (bool_decide_true (is_Some (observe_privacy _ _ _))), andb_false_r in Hpr by done.
  destruct (bool_decide (observe_privacy fs (Some root) (Some n) = Some w)) eqn:Eb; unbool; cbn in Hpr.
  - rewrite <- Eb, !observe_privacy_files by done. by rewrite (read_same _ _ _ Hpr).
  - rewrite observe_privacy_files by done.
    rewrite (read_value_written fs' (privacy_file n) (if w then "2" else "0")) by (done || destruct w; auto). by destruct w.
Qed.

Lemma privacy_settled : privacy_change (B := B) o' i = [].
Proof.
  unfold privacy_change. change (privacy_wanted o' i) with (privacy_wanted o i).
  destruct (privacy_wanted o i) as [w|] eqn:E; [|done]. cbn zeta. rewrite Hname. unfold o'. rewrite find_observed by done.
  cbn [mbind option_bind ol_privacy observe_link].
  destruct (observe_privacy fs (Some root) (Some n)) as [c|] eqn:Ec.
  - rewrite (privacy_reached w E ltac:(by rewrite Ec)). rewrite (bool_decide_true (Some w = Some w)) by done. by destruct (_ && _).
  - unfold privacy_change in Hpr. rewrite E, Hname in Hpr. cbn zeta in Hpr. unfold o in Hpr. rewrite find_observed in Hpr by done.
    cbn [mbind option_bind ol_privacy observe_link] in Hpr. rewrite Ec in Hpr.
    rewrite bool_decide_true, (bool_decide_false (is_Some None)) in Hpr by (done || by intros []). cbn in Hpr.
    rewrite observe_privacy_files in Ec |- * by done. rewrite (read_same _ _ _ Hpr), Ec.
    by rewrite bool_decide_true, (bool_decide_false (is_Some None)) by (done || by intros []).
Qed.

(** The number [accept_ra] holds afterwards. *)
Lemma ra_number_written w : fs' !! accept_ra_file n = Some (bytes (if w =? 1 then "1" else "2")) ->
  ra_number fs' n = Some (if w =? 1 then 1 else 2).
Proof.
  intros E. unfold ra_number. rewrite (read_value_written fs' (accept_ra_file n) (if w =? 1 then "1" else "2")).
  - by destruct (w =? 1).
  - destruct (w =? 1); auto.
  - by destruct (w =? 1).
Qed.

(** IPv6 forwarding is not turned on behind a document that says nothing. *)
Lemma forwards6_unasked : if_forwarding i = None -> forwards6 fs n = false -> forwards6 fs' n = false.
Proof.
  intros Hnone H6. destruct (forwarding_wanted o i) as [w|] eqn:E.
  - unfold forwarding_wanted in E. rewrite Hnone in E. destruct (plan_names _ _); [|done]. injection E as <-.
    unfold forwarding_change in Hf6. unfold forwarding_wanted in Hf6. rewrite Hnone in Hf6.
    destruct (plan_names _ _); [|by unfold forwards6; rewrite (read_same _ _ _ Hf6)]. cbn zeta in Hf6.
    destruct (bool_decide _); cbn in Hf6; [by unfold forwards6; rewrite (read_same _ _ _ Hf6)|].
    unfold forwards6. by rewrite (read_value_written _ _ "0" ltac:(auto) Hf6).
  - destruct (forwarding_unwanted E) as [_ Hs]. unfold forwards6. by rewrite (read_same _ _ _ Hs).
Qed.

(** What [accept_ra] was, in the two ways the pass can see it. *)
Lemma accept_ra_result wanted :
  (if asks_for_slaac i false then Some 2 else if plan_names aa (if_name i) then Some 1 else None) = Some wanted ->
  match ra_number fs n with
  | None => ra_number fs' n = None
  | Some k =>
      if accept_ra_settled i (Some (ObservedAcceptRa k ((k =? 2) || ((k =? 1) && negb (forwards6 fs n))))) (asks_for_slaac i false) wanted
      then ra_number fs' n = Some k else ra_number fs' n = Some wanted
  end.
Proof.
  intros E. assert (wanted = 1 \/ wanted = 2) as Hw.
  { destruct (asks_for_slaac i false); [injection E as <-; auto|]. destruct (plan_names aa _); [injection E as <-; auto|done]. }
  unfold accept_ra_change in Hra. cbn zeta in Hra. change (ob_accept_ra_applied o) with aa in Hra. rewrite E in Hra. rewrite Hname in Hra.
  unfold o in Hra. rewrite find_observed in Hra by done. cbn [mbind option_bind ol_accept_ra observe_link] in Hra.
  rewrite observe_accept_ra_files in Hra by done. destruct (ra_number fs n) as [k|] eqn:Ek; cbn [fmap option_fmap option_map] in Hra.
  - rewrite !bool_decide_true in Hra by done. cbn [andb negb] in Hra.
    destruct (accept_ra_settled _ _ _ _); cbn in Hra.
    + unfold ra_number in Ek |- *. by rewrite (read_same _ _ _ Hra).
    + rewrite (ra_number_written wanted Hra). by destruct Hw as [-> | ->].
  - rewrite bool_decide_true, (bool_decide_false (is_Some None)) in Hra by (done || by intros []). cbn in Hra.
    unfold ra_number in Ek |- *. by rewrite (read_same _ _ _ Hra).
Qed.

Lemma accept_ra_settled_again : accept_ra_change (B := B) o' i = [].
Proof.
  unfold accept_ra_change. cbn zeta. change (ob_accept_ra_applied o') with aa.
  destruct (if asks_for_slaac i false then Some 2 else if plan_names aa (if_name i) then Some 1 else None) as [wanted|] eqn:E; [|done].
  pose proof (accept_ra_result wanted E) as H. rewrite Hname. unfold o'. rewrite find_observed by done.
  cbn [mbind option_bind ol_accept_ra observe_link]. rewrite observe_accept_ra_files by done.
  destruct (ra_number fs n) as [k|] eqn:Ek.
  2:{ rewrite H. cbn [fmap option_fmap option_map]. by rewrite bool_decide_true, (bool_decide_false (is_Some None)) by (done || by intros []). }
  assert (exists k', ra_number fs' n = Some k' /\
    accept_ra_settled i (Some (ObservedAcceptRa k' ((k' =? 2) || ((k' =? 1) && negb (forwards6 fs' n))))) (asks_for_slaac i false) wanted = true)
    as (k' & -> & Hset).
  { destruct (accept_ra_settled _ _ _ _) eqn:Es in H.
    - exists k. split; [done|]. unfold accept_ra_settled in Es |- *. destruct (asks_for_slaac i false); cbn [negb] in *; [|exact Es].
      destruct (if_forwarding i) as [f|] eqn:Ef; [exact Es|]. cbn [ra_value ra_effective] in *.
      destruct (k =? 2); [done|]. destruct (k =? 1); [|done]. cbn in *. destruct (forwards6 fs n) eqn:E6; [done|].
      by rewrite (forwards6_unasked Ef E6).
    - exists wanted. split; [done|]. unfold accept_ra_settled. destruct (asks_for_slaac i false); cbn [negb].
      + injection E as <-. done.
      + cbn. apply Z.eqb_refl. }
  cbn [fmap option_fmap option_map]. rewrite !bool_decide_true by done. cbn [andb negb]. by rewrite Hset.
Qed.

(** An interface that asks for SLAAC listens to advertisements, unless it was
    left forwarding IPv6 alone. *)
Lemma advertisements_accepted :
  asks_for_slaac i false = true -> is_Some (ra_number fs n) ->
  (if_forwarding i = Some false -> family_forwards fs root "ipv6" n = Some true -> family_forwards fs root "ipv4" n = Some true) ->
  exists s, observe_accept_ra fs' (Some root) (Some n) = Some s /\ ra_effective s = true.
Proof.
  intros Hask [k Ek] Hhalf. pose proof (accept_ra_result 2) as H. rewrite Hask in H. specialize (H eq_refl). rewrite Ek in H.
  rewrite observe_accept_ra_files by done. unfold accept_ra_settled in H. cbn [negb ra_value ra_effective] in H.
  destruct ((k =? 2) || _) eqn:Es in H; rewrite H; cbn [fmap option_fmap option_map]; eexists; (split; [reflexivity|]); cbn; [|done].
  destruct (Z.eqb_spec k 2); [done|]. cbn [orb] in Es |- *. destruct (Z.eqb_spec k 1) as [->|]; [|done]. cbn [andb] in Es |- *.
  destruct (if_forwarding i) as [f|] eqn:Ef.
  - destruct f; [done|]. apply negb_true_iff. assert (forwarding_wanted o i = Some false) as Ew by (unfold forwarding_wanted; by rewrite Ef).
    pose proof (forwarding_reached false Ew) as Hobs. rewrite observe_forwarding_files in Hobs by done.
    unfold forwards6. destruct (read_value fs' (forwarding6 n)) as [v6|] eqn:E6; [|done].
    destruct (bytes_eqb v6 (bytes "1")) eqn:E1; [|done]. apply bytes_eqb_true in E1. subst v6.
    destruct (read_value fs' (forwarding4 n)) as [v4|] eqn:E4; [|done]. cbn in Hobs.
    exfalso. unfold forwarding_change in Hf4, Hf6. rewrite Ew, Hname in Hf4, Hf6. cbn zeta in Hf4, Hf6.
    unfold o in Hf4, Hf6. rewrite find_observed in Hf4, Hf6 by done. cbn [mbind option_bind ol_forwarding observe_link] in Hf4, Hf6.
    destruct (bool_decide _); cbn in Hf4, Hf6.
    + specialize (Hhalf eq_refl). unfold family_forwards in Hhalf. destruct (in_files n) as (_ & H4 & H6' & _).
      rewrite !(read_fits n) in Hhalf by done. rewrite <- (read_same _ _ _ Hf4), <- (read_same _ _ _ Hf6), E4, E6 in Hhalf.
      specialize (Hhalf eq_refl). cbn in Hhalf. rewrite andb_true_r in Hobs. injection Hobs as Hobs. rewrite Hobs in Hhalf. done.
    + rewrite (read_value_written _ _ "0" ltac:(auto) Hf6) in E6. done.
  - change (1 =? 1) with true in Es. cbn in Es. destruct (forwards6 fs n) eqn:E6; [done|]. by rewrite (forwards6_unasked Ef E6).
Qed.

End Interface.
End Loop.

(** ** The loop *)

Lemma bind_nil {X Y} (f : X -> list Y) (l : list X) : (forall x, x ∈ l -> f x = []) -> l ≫= f = [].
Proof.
  induction l as [|x l IH]; intros H; [done|]. cbn [mbind list_bind].
  rewrite H by (apply elem_of_cons; by left). apply IH. intros y Hy. apply H, elem_of_cons. by right.
Qed.

(** C7: one apply is enough for the sysctls. For interfaces that are there, with
    files that can be written and nothing locked, guarded or unmanaged in the
    way: what the three passes append to a plan that did not run out of memory
    can all be written, in order, by the executor; planning again on what the
    observer then reads asks for nothing; the forwarding the document states
    and the temporary addresses it asks for are what is read; and an interface
    that asks for SLAAC has its advertisements accepted, with forwarding turned
    on in the same apply or not -- provided it was not left forwarding IPv6
    alone under a document that says [forwarding = false]. *)
Theorem sysctls_converge {B} (writable : sysctl_file -> bool) (root : string) (grant : nat -> bool) (b : builder)
    (fs : files) (links : list string) (fa pa aa : list cstr) (p p' : plan B) (h h' : heap) :
  let l := dc_interfaces (bd_desired b) in
  root_is_usable (Some root) = true ->
  plan_sysctls (O := heap_ops grant) b (observed_of root fs links fa pa aa) (p, h) = ((), (p', h')) ->
  plan_failed p' = false -> unobstructed (B := B) b -> NoDup (map if_name l) ->
  (forall i, i ∈ l -> exists n, if_name i = Some n /\ n ∈ links /\ reachable writable root n /\ present fs n) ->
  exists asked fs',
    map ac_op (p_actions p') = map ac_op (p_actions p) ++ asked /\
    exec_sysctls writable (Some root) fs asked = Some fs' /\
    (forall v : view B, exists v',
       plan_sysctls (O := view_ops) b (observed_of root fs' links fa pa aa) v = ((), v') /\ asked_ops v' = asked_ops v) /\
    forall i n, i ∈ l -> if_name i = Some n ->
      (forall f, if_forwarding i = Some f -> observe_forwarding fs' (Some root) (Some n) = Some f) /\
      (asks_for_slaac i true = true -> is_Some (observe_privacy fs (Some root) (Some n)) ->
         observe_privacy fs' (Some root) (Some n) = Some true) /\
      (asks_for_slaac i false = true -> is_Some (ra_number fs n) ->
         (if_forwarding i = Some false -> family_forwards fs root "ipv6" n = Some true ->
            family_forwards fs root "ipv4" n = Some true) ->
         exists s, observe_accept_ra fs' (Some root) (Some n) = Some s /\ ra_effective s = true).
Proof.
  intros l Hroot E Hf Hb Hnd Hl. set (o := observed_of root fs links fa pa aa).
  destruct (plan_sysctls_refines grant b o _ _ _ E Hf) as [_ Hv].
  destruct (plan_sysctls_view b o Hb (view_of p)) as (v1 & Ev & Hops). cbn in Hv. rewrite Ev in Hv. injection Hv as ->.
  destruct (exec_three writable root Hroot (B := B) o l fs Hnd) as (fs' & Ex & Hafter).
  { intros i Hi. destruct (Hl i Hi) as (n & Hn & _ & Hr & Hp). eauto. }
  assert (forall i n, i ∈ l -> if_name i = Some n -> n ∈ links /\ reachable writable root n) as Hln.
  { intros i n Hi Hn. destruct (Hl i Hi) as (m & Hm & Hin & Hr & _). rewrite Hn in Hm. by injection Hm as <-. }
  exists (map fst (sysctl_changes o l)), fs'. split; [|split; [exact Ex|split]].
  - apply (f_equal (map fst)) in Hops. unfold asked_ops in Hops. rewrite map_app, !map_map in Hops. exact Hops.
  - intros v. destruct (plan_sysctls_view b (observed_of root fs' links fa pa aa) Hb v) as (v' & E' & H'). exists v'. split; [done|].
    rewrite H'. unfold sysctl_changes. rewrite !bind_nil; [apply app_nil_r|..]; intros i Hi;
      destruct (Hl i Hi) as (n & Hn & Hin & Hr & _); destruct (Hafter i n Hi Hn) as (H1 & H2 & H3 & H4).
    + by apply (privacy_settled writable root fs fs' links fa pa aa i n).
    + by apply (forwarding_settled writable root fs fs' links fa pa aa i n).
    + by apply (accept_ra_settled_again writable root fs fs' links fa pa aa i n).
  - intros i n Hi Hn. destruct (Hln i n Hi Hn) as [Hin Hr]. destruct (Hafter i n Hi Hn) as (H1 & H2 & H3 & H4). split; [|split].
    + intros f Ef. apply (forwarding_reached writable root (B := B) fs fs' links fa pa aa i n); try done.
      unfold forwarding_wanted. by rewrite Ef.
    + intros Ha Hs. apply (privacy_reached writable root (B := B) fs fs' links fa pa aa i n); try done.
      unfold privacy_wanted. by rewrite Ha.
    + intros Ha Hs Hhalf. by apply (advertisements_accepted writable root (B := B) fs fs' links fa pa aa i n).
Qed.

(** ** A router that takes an address from its uplink *)

Definition a_proc (four six ra temp : string) : files :=
  list_to_map [(CONF "ipv4" "eth0" "forwarding", bytes four); (CONF "ipv6" "eth0" "forwarding", bytes six);
               (CONF "ipv6" "eth0" "accept_ra", bytes ra); (CONF "ipv6" "eth0" "use_tempaddr", bytes temp)].

Definition an_interface (f : option bool) : interface :=
  Interface (Some "eth0") None [SOURCE_SLAAC SLAAC_PRIVACY_PREFER_TEMPORARY] f.

Definition a_builder (f : option bool) : builder :=
  Builder (Document (Globals [] None) [an_interface f] [] []) None [] [] [] [] [] [] false.

Lemma a_builder_unobstructed {B} f : unobstructed (B := B) (a_builder f).
Proof.
  intros o _. unfold silenced. assert (forall x, plan_names [] x = false) as Hn by (by intros []).
  cbn [bd_unmanaged bd_declined a_builder]. rewrite !Hn. split; [done|]. intros why.
  assert (locked_subject (a_builder f) o = None) as Hl.
  { unfold locked_subject. destruct (op_subject _ _); [|done]. by rewrite bool_decide_false by apply not_elem_of_nil. }
  assert (guarding (a_builder f) o = None) as Hg.
  { unfold guarding. destruct (op_interface o); [|done]. by destruct (_ && _). }
  unfold refusal_of. by rewrite Hl, Hg.
Qed.

Lemma sysctls_converge_witness :
  let fs := a_proc "0" "0" "1" "0" in
  let p : plan unit := Plan 0%nat (Pmem arena_init [] 0%nat None) [] None [] None [] None [] None in
  let s := (plan_sysctls (O := heap_ops (fun _ => true)) (a_builder (Some true))
              (observed_of "/proc" fs ["eth0"] [] [] []) (p, Heap 1%nat {[ 0%nat ]} false)).2 in
  map (fun a => op_name (ac_op a)) (p_actions s.1) =
    ["sysctl.set_accept_ra"; "sysctl.set_forwarding"; "sysctl.set_privacy"] /\
  exists asked fs', map ac_op (p_actions s.1) = asked /\ exec_sysctls (fun _ => true) (Some "/proc") fs asked = Some fs' /\
    observe_forwarding fs' (Some "/proc") (Some "eth0") = Some true /\
    exists s, observe_accept_ra fs' (Some "/proc") (Some "eth0") = Some s /\ ra_effective s = true.
Proof.
  intros fs p s. split; [vm_compute; reflexivity|].
  destruct (sysctls_converge (fun _ => true) "/proc" (fun _ => true) (a_builder (Some true)) fs ["eth0"] [] [] [] p s.1
              (Heap 1%nat {[ 0%nat ]} false) s.2) as (asked & fs' & Ha & Hx & _ & Hi).
  - reflexivity.
  - vm_compute. reflexivity.
  - vm_compute. reflexivity.
  - apply a_builder_unobstructed.
  - apply NoDup_singleton.
  - intros i Hi. apply list_elem_of_singleton in Hi as ->. exists "eth0". split; [done|].
    split; [by apply list_elem_of_singleton|]. split.
    + split; [vm_compute; reflexivity|]. unfold files_of. intros f. rewrite !elem_of_cons, elem_of_nil.
      intros [->|[->|[->|[->|[]]]]]; (split; [done|vm_compute; lia]).
    + unfold present, files_of. intros f. rewrite !elem_of_cons, elem_of_nil.
      intros [->|[->|[->|[->|[]]]]]; (eexists; vm_compute; reflexivity).
  - exists asked, fs'. split; [exact Ha|]. split; [exact Hx|].
    destruct (Hi (an_interface (Some true)) "eth0") as (H1 & _ & H3); [by apply list_elem_of_singleton|done|].
    split; [by apply H1|]. apply H3; [done|eexists; vm_compute; reflexivity|done].
Defined.

(** ** Two states the code does not leave *)

(** An interface that forwards IPv6 and not IPv4 reads as not forwarding, so
    [forwarding = false] asks for nothing; and its advertisements, which the
    kernel ignores while it forwards, read as settled. *)
Lemma half_forwarding_is_left :
  let fs := a_proc "0" "1" "1" "2" in
  let o := observed_of "/proc" fs ["eth0"] [] [] [] in
  sysctl_changes (B := unit) o [an_interface (Some false)] = [] /\
  family_forwards fs "/proc" "ipv6" "eth0" = Some true /\
  ra_effective <$> observe_accept_ra fs (Some "/proc") (Some "eth0") = Some false.
Proof. vm_compute. auto. Qed.

(** An [accept_ra] of 0 is what the inverse goes back to, and the executor
    refuses to write it. *)
Lemma accept_ra_zero_is_not_restored :
  let fs := a_proc "0" "0" "0" "2" in
  let o := observed_of "/proc" fs ["eth0"] [] [] [] in
  sysctl_changes (B := unit) o [an_interface None] =
    [(SYSCTL_SET_ACCEPT_RA (Some "eth0") 2, Some (SYSCTL_SET_ACCEPT_RA (Some "eth0") 0))] /\
  exists fs', exec_sysctl (B := unit) (fun _ => true) (Some "/proc") fs (SYSCTL_SET_ACCEPT_RA (Some "eth0") 2) = Some fs' /\
    exec_sysctl (B := unit) (fun _ => true) (Some "/proc") fs' (SYSCTL_SET_ACCEPT_RA (Some "eth0") 0) = None.
Proof.
  split; [vm_compute; reflexivity|]. exists (<[CONF "ipv6" "eth0" "accept_ra" := bytes "2"]> (a_proc "0" "0" "0" "2")).
  split; [reflexivity|vm_compute; reflexivity].
Qed.
