(* ===== verification/DocText.v ===== *)
(** * DocText: the texts of the document that are not plain words

    From [model/document.c]: WireGuard keys (base64 of 32 octets), SSIDs
    (lowercase hex), station addresses and prefixes, interface names, the
    [phase2] tokens. Octets are integers below 256. A text of the source ends
    at its NUL; [char_at] is the read of one character, which has no answer
    past the terminator. *)
From S2P Require Import Prelude Lex Wire.
#[local] Open Scope Z_scope.

(** ** Keys *)

Definition NCFG_KEY_LEN : nat := 32.
Definition NCFG_KEY_TEXT_LEN : nat := 44.

Definition base64_alphabet : list byte :=
  bytes "ABCDEFGHIJKLMNOPQRSTUVWXYZabcdefghijklmnopqrstuvwxyz0123456789+/".

Fixpoint index_of (l : list byte) (c : byte) (i : Z) : option Z :=
  match l with [] => None | x :: l => if x =b c then Some i else index_of l c (i + 1) end.

(** [base64_value]. *)
Definition base64_value (digit : byte) : option Z :=
  if digit =b x00 then None else index_of base64_alphabet digit 0.

Inductive key_refusal := KEY_LENGTH (length : nat) | KEY_DIGIT (c : byte) | KEY_OCTETS (written : nat).

(** The loop of [ncfg_key_parse]. *)
Fixpoint key_digits (text : list byte) (accumulator bits : Z) (out : list Z) : key_refusal + list Z :=
  match text with
  | [] => inr out
  | c :: text =>
      match base64_value c with
      | None => inl (KEY_DIGIT c)
      | Some digit =>
          let accumulator := u32 (Z.lor (Z.shiftl accumulator 6) digit) in
          let bits := bits + 6 in
          if bits >=? 8 then
            let bits := bits - 8 in
            key_digits text accumulator bits
              (if (length out <? NCFG_KEY_LEN)%nat then out ++ [Z.land (Z.shiftr accumulator bits) 0xff] else out)
          else key_digits text accumulator bits out
      end
  end.

(** [ncfg_key_parse]. *)
Definition key_parse (text : list byte) : key_refusal + list Z :=
  if negb (length text =? NCFG_KEY_TEXT_LEN)%nat || negb (nth 43 text x00 =b "=") then inl (KEY_LENGTH (length text))
  else
    match key_digits (take 43 text) 0 0 [] with
    | inl e => inl e
    | inr out => if negb (length out =? NCFG_KEY_LEN)%nat then inl (KEY_OCTETS (length out)) else inr out
    end.

(** One block of [ncfg_key_render]: [have] octets, four characters. *)
Fixpoint key_block (octets : list Z) (shift : Z) : Z :=
  match octets with [] => 0 | o :: octets => Z.lor (Z.shiftl o shift) (key_block octets (shift - 8)) end.

Definition key_block_text (octets : list Z) : list byte :=
  let block := key_block octets 16 in
  map (fun j => if (j <? length octets + 1)%nat
                then nth (Z.to_nat (Z.land (Z.shiftr block (18 - 6 * Z.of_nat j)) 0x3f)) base64_alphabet x00
                else "="%byte) [0; 1; 2; 3]%nat.

(** [ncfg_key_render], into a buffer that holds the text. *)
Fixpoint key_render (key : list Z) : list byte :=
  match key with
  | [] => []
  | o0 :: o1 :: o2 :: rest => key_block_text [o0; o1; o2] ++ key_render rest
  | rest => key_block_text rest
  end.

(** ** SSIDs *)

Definition NCFG_SSID_MAX_LEN : nat := 32.

Record ssid := Ssid { ssid_has : bool; ssid_bytes : list Z }.

Inductive ssid_refusal := SSID_NOT_A_STRING | SSID_ODD (length : nat) | SSID_LONG (octets : nat) | SSID_DIGIT (c : byte).

Definition ssid_nibble (digit : byte) : option Z :=
  if byte_between "0" "9" digit then Some (bz digit - bz "0")
  else if byte_between "a" "f" digit then Some (bz digit - bz "a" + 10)
  else None.

(** The loop of [ncfg_ssid_parse_hex]. *)
Fixpoint ssid_octets (text : list byte) : ssid_refusal + list Z :=
  match text with
  | h :: l :: text =>
      match ssid_nibble h, ssid_nibble l with
      | None, _ => inl (SSID_DIGIT h)
      | _, None => inl (SSID_DIGIT l)
      | Some high, Some low =>
          match ssid_octets text with
          | inl e => inl e
          | inr rest => inr (Z.lor (Z.shiftl high 4) low :: rest)
          end
      end
  | _ => inr []
  end.

(** [ncfg_ssid_parse_hex]. *)
Definition ssid_parse_hex (text : option (list byte)) : ssid_refusal + ssid :=
  match text with
  | None => inl SSID_NOT_A_STRING
  | Some text =>
      if negb (length text mod 2 =? 0)%nat then inl (SSID_ODD (length text))
      else if (NCFG_SSID_MAX_LEN <? length text / 2)%nat then inl (SSID_LONG (length text / 2))
      else match ssid_octets text with inl e => inl e | inr octets => inr (Ssid true octets) end
  end.

Definition hex_lower : list byte := bytes "0123456789abcdef".

(** The text [ssid_write] builds. *)
Definition ssid_text (s : ssid) : list byte :=
  take NCFG_SSID_MAX_LEN (ssid_bytes s) ≫= fun o =>
    [nth (Z.to_nat (Z.shiftr o 4)) hex_lower x00; nth (Z.to_nat (Z.land o 0x0f)) hex_lower x00].

(** ** Station addresses *)

Definition NCFG_STATION_ADDRESS_LEN : nat := 17.
Definition NCFG_STATION_PREFIX_LEN : nat := 10.

Definition is_hex_digit (one : byte) : bool := byte_between "0" "9" one || byte_between "a" "f" one || byte_between "A" "F" one.

(** [lower_hex]. *)
Definition lower_hex (one : byte) : byte :=
  if byte_between "A" "F" one then default x00 (Byte.of_N (Z.to_N (bz one - bz "A" + bz "a"))) else one.

(** A read of the text at an index: the terminator, and nothing beyond it. *)
Definition char_at (text : list byte) (i : nat) : option byte := (text ++ [x00]) !! i.

Definition count_byte (c : byte) (text : list byte) : nat := length (filter (fun b => b = c) text).

Inductive station_refusal := STATION_PARTS (parts : nat) | STATION_OCTET (shown : list byte) | STATION_PREFIX.

(** What the refusal of an octet shows: at most three characters, up to the
    separator. *)
Fixpoint octet_shown (separator : byte) (room : nat) (walk : list byte) : list byte :=
  match room, walk with
  | S room, c :: walk => if c =b separator then [] else c :: octet_shown separator room walk
  | _, _ => []
  end.

(** The loop of [ncfg_station_address_normalize] from part [part] on: [None]
    where it reads past the terminator. *)
Fixpoint station_octets (text : list byte) (separator : byte) (remaining part : nat) : option (station_refusal + list byte) :=
  match remaining with
  | O => Some (inr [])
  | S remaining =>
      let walk := (part * 3)%nat in
      let refused := Some (inl (STATION_OCTET (octet_shown separator 3 (drop walk text)))) in
      c0 ← char_at text walk;
      if negb (is_hex_digit c0) then refused
      else
        c1 ← char_at text (walk + 1);
        if negb (is_hex_digit c1) then refused
        else
          c2 ← char_at text (walk + 2);
          if negb (c2 =b separator) && negb (c2 =b x00) then refused
          else
            rest ← station_octets text separator remaining (S part);
            match rest with
            | inl e => Some (inl e)
            | inr out => Some (inr (lower_hex c0 :: lower_hex c1 :: (if (part <? 5)%nat then [":"%byte] else []) ++ out))
            end
  end.

(** [ncfg_station_address_normalize]. *)
Definition station_address_normalize (text : list byte) : option (station_refusal + list byte) :=
  let separator := if existsb (fun b => b =b "-") text then "-"%byte else ":"%byte in
  let parts := S (count_byte separator text) in
  if negb (parts =? 6)%nat then Some (inl (STATION_PARTS parts)) else station_octets text separator 6 0.

(** [ncfg_station_is_prefix]. *)
Definition station_is_prefix (text : option (list byte)) : bool :=
  match text with Some t => match last t with Some c => c =b "*" | None => false end | None => false end.

(** The loop of [ncfg_station_prefix_normalize]. *)
Fixpoint prefix_octets (text : list byte) (separator : byte) (remaining part : nat) : option (station_refusal + list byte) :=
  match remaining with
  | O => Some (inr [])
  | S remaining =>
      let at_ := (part * 3)%nat in
      c0 ← char_at text at_;
      if negb (is_hex_digit c0) then Some (inl STATION_PREFIX)
      else
        c1 ← char_at text (at_ + 1);
        if negb (is_hex_digit c1) then Some (inl STATION_PREFIX)
        else
          bad ← (if (part <? 2)%nat then c2 ← char_at text (at_ + 2); Some (negb (c2 =b separator)) else Some false);
          if (bad : bool) then Some (inl STATION_PREFIX)
          else
            rest ← prefix_octets text separator remaining (S part);
            match rest with
            | inl e => Some (inl e)
            | inr out => Some (inr (lower_hex c0 :: lower_hex c1 :: ":"%byte :: out))
            end
  end.

(** [ncfg_station_prefix_normalize]. *)
Definition station_prefix_normalize (text : list byte) : option (station_refusal + list byte) :=
  let separator := if existsb (fun b => b =b "-") text then "-"%byte else ":"%byte in
  if negb (length text =? NCFG_STATION_PREFIX_LEN)%nat then Some (inl STATION_PREFIX)
  else
    c8 ← char_at text 8;
    if negb (c8 =b separator) then Some (inl STATION_PREFIX)
    else
      c9 ← char_at text 9;
      if negb (c9 =b "*") then Some (inl STATION_PREFIX)
      else
        r ← prefix_octets text separator 3 0;
        match r with inl e => Some (inl e) | inr out => Some (inr (out ++ ["*"%byte])) end.

(** [ncfg_station_entry_matches]. *)
Definition station_entry_matches (entry address : option (list byte)) : bool :=
  match entry, address with
  | Some e, Some a =>
      if station_is_prefix entry then
        (length e =? NCFG_STATION_PREFIX_LEN)%nat && (length a =? NCFG_STATION_ADDRESS_LEN)%nat &&
        bytes_eqb (take 9 e) (take 9 a)
      else bytes_eqb e a
  | _, _ => false
  end.

(** ** Names and tokens *)

Definition NCFG_INTERFACE_NAME_MAX : nat := 15.

Definition name_whitespace (one : byte) : bool :=
  (one =b " ") || (one =b x09) || (one =b x0d) || (one =b x0a) || (one =b x0b) || (one =b x0c).

Fixpoint name_characters (name : list byte) : option string :=
  match name with
  | [] => None
  | c :: name =>
      if c =b "/" then Some "an interface name cannot contain `/`"%string
      else if c =b ":" then Some "an interface name cannot contain `:`"%string
      else if name_whitespace c then Some "an interface name cannot contain whitespace"%string
      else name_characters name
  end.

(** [ncfg_usable_name]: why a name is not one. *)
Definition usable_name (name : option (list byte)) : option string :=
  match name with
  | None | Some [] => Some "an interface name cannot be empty"%string
  | Some n =>
      if (NCFG_INTERFACE_NAME_MAX <? length n)%nat then Some "an interface name is at most 15 characters"%string
      else if bytes_eqb n (bytes ".") || bytes_eqb n (bytes "..")
      then Some "the kernel keeps `.` and `..` for directories"%string
      else name_characters n
  end.

Definition phase2_blank (c : byte) : bool := (c =b " ") || (c =b x09) || (c =b x0a) || (c =b x0d).

Fixpoint skip_phase2_blanks (s : list byte) : list byte :=
  match s with c :: rest => if phase2_blank c then skip_phase2_blanks rest else s | [] => [] end.

(** A token and what follows it. *)
Fixpoint phase2_token (s : list byte) : list byte * list byte :=
  match s with
  | [] => ([], [])
  | c :: rest => if phase2_blank c then ([], s) else let '(t, after) := phase2_token rest in (c :: t, after)
  end.

(** Where the first [=] of a token is; its length where there is none. *)
Fixpoint equals_at (token : list byte) : nat :=
  match token with [] => O | c :: rest => if c =b "=" then O else S (equals_at rest) end.

(** The loop of [ncfg_phase2_pins_nothing]; the fuel is what is left of the
    text, and a turn takes a token. *)
Fixpoint phase2_loop (fuel : nat) (s : list byte) : bool :=
  match fuel, s with
  | S fuel, _ :: _ =>
      let '(token, after) := phase2_token (skip_phase2_blanks s) in
      match token with
      | [] => true
      | _ => if (0 <? equals_at token)%nat && (equals_at token <? length token - 1)%nat then false else phase2_loop fuel after
      end
  | _, _ => true
  end.

(** [ncfg_phase2_pins_nothing]. *)
Definition phase2_pins_nothing (phase2 : option (list byte)) : bool :=
  match phase2 with None => true | Some s => phase2_loop (S (length s)) s end.

(** [ncfg_neighbour_class]. *)
Definition neighbour_class (channel : Z) : Z :=
  if (channel >=? 1) && (channel <=? 13) then 81
  else if channel =? 14 then 82
  else if (channel >=? 36) && (channel <=? 48) then 115
  else if (channel >=? 52) && (channel <=? 64) then 118
  else if (channel >=? 100) && (channel <=? 144) then 121
  else if (channel >=? 149) && (channel <=? 161) then 124
  else if (channel >=? 165) && (channel <=? 177) then 125
  else 0.
