(* ===== verification/DocTextSpec.v ===== *)
(** * DocTextSpec: the codecs of the document's texts

    A key and an SSID are read back from what is written of them; the station
    address normaliser never reads past the end of its text, accepts exactly
    six octets and answers one spelling. *)
From stdpp Require Import sets.
From S2P Require Import Prelude Lex Wire DocText.
#[local] Open Scope Z_scope.

(** ** Keys *)

Definition digit_at (d : Z) : byte := nth (Z.to_nat d) base64_alphabet x00.

Lemma base64_value_at d : 0 <= d < 64 -> base64_value (digit_at d) = Some d.
Proof.
  intros Hd. assert (forallb (fun n => bool_decide (base64_value (digit_at (Z.of_nat n)) = Some (Z.of_nat n))) (seq 0 64) = true) as H
    by (vm_compute; reflexivity).
  rewrite forallb_forall in H. specialize (H (Z.to_nat d)). rewrite Z2Nat.id in H by lia.
  apply bool_decide_eq_true in H; [done|]. apply in_seq. lia.
Qed.

Lemma u32_shift acc d : 0 <= d < 64 -> u32 (Z.lor (Z.shiftl acc 6) d) = (acc * 64 + d) mod 2 ^ 32.
Proof. intros Hd. unfold u32. f_equal. by apply (lor_shiftl acc 6 d). Qed.

Lemma land_ff x : Z.land x 0xff = x mod 256.
Proof. by apply (Z.land_ones x 8). Qed.

Lemma land_3f x : Z.land x 0x3f = x mod 64.
Proof. by apply (Z.land_ones x 6). Qed.

(** One digit of the loop: [r] is what is pending in the low bits of the
    accumulator. *)
Lemma key_digit_first d rest acc out :
  0 <= d < 64 ->
  exists acc', key_digits (digit_at d :: rest) acc 0 out = key_digits rest acc' 6 out /\ acc' mod 64 = d.
Proof.
  intros Hd. cbn [key_digits]. rewrite base64_value_at, u32_shift by done. eexists. split; [reflexivity|zdiv].
Qed.

Lemma key_digit_next bits left r d rest acc out :
  bits = left + 2 -> left = 0 \/ left = 2 \/ left = 4 -> 0 <= d < 64 -> (length out < NCFG_KEY_LEN)%nat -> acc mod 2 ^ bits = r ->
  exists acc', key_digits (digit_at d :: rest) acc bits out = key_digits rest acc' left (out ++ [(r * 64 + d) / 2 ^ left]) /\
    acc' mod 2 ^ left = d mod 2 ^ left.
Proof.
  intros -> Hb Hd Hl Hr. cbn [key_digits]. rewrite base64_value_at, u32_shift by done. cbv zeta.
  replace (left + 2 + 6 - 8) with left by lia. rewrite (proj2 (Z.geb_le _ _)) by lia.
  rewrite (proj2 (Nat.ltb_lt _ _)), land_ff, Z.shiftr_div_pow2 by lia.
  eexists. split; [f_equal; f_equal; f_equal|]; destruct Hb as [->|[->| ->]]; simpl in *; zdiv.
Qed.

Lemma key_block_3 a b c : 0 <= a < 256 -> 0 <= b < 256 -> 0 <= c < 256 -> key_block [a; b; c] 16 = a * 65536 + b * 256 + c.
Proof.
  intros. cbn [key_block]. rewrite Z.lor_0_r. replace (16 - 8 - 8) with 0 by lia. rewrite Z.shiftl_0_r.
  replace (16 - 8) with 8 by lia. rewrite (lor_shiftl b 8 c) by lia. rewrite (lor_shiftl a 16) by lia. lia.
Qed.

Lemma key_block_2 a b : 0 <= a < 256 -> 0 <= b < 256 -> key_block [a; b] 16 = a * 65536 + b * 256.
Proof.
  intros. cbn [key_block]. rewrite Z.lor_0_r. replace (16 - 8) with 8 by lia.
  rewrite (Z.shiftl_mul_pow2 b 8) by lia. rewrite (lor_shiftl a 16) by lia. lia.
Qed.

Ltac fold_digits :=
  repeat match goal with |- context [nth (Z.to_nat ?x) base64_alphabet x00] => change (nth (Z.to_nat x) base64_alphabet x00) with (digit_at x) end.
Ltac digits_equal :=
  repeat match goal with |- _ :: _ = _ :: _ => apply (f_equal2 cons); [try done; apply (f_equal digit_at); simpl Z.of_nat; zdiv|] end; done.

Lemma block_text_3 a b c : 0 <= a < 256 -> 0 <= b < 256 -> 0 <= c < 256 ->
  key_block_text [a; b; c] =
  [digit_at (a / 4); digit_at (a mod 4 * 16 + b / 16); digit_at (b mod 16 * 4 + c / 64); digit_at (c mod 64)].
Proof.
  intros. unfold key_block_text. rewrite key_block_3 by done. cbn [map length Nat.add Nat.ltb Nat.leb].
  rewrite !land_3f, !Z.shiftr_div_pow2 by lia. fold_digits. digits_equal.
Qed.

Lemma block_text_2 a b : 0 <= a < 256 -> 0 <= b < 256 ->
  key_block_text [a; b] = [digit_at (a / 4); digit_at (a mod 4 * 16 + b / 16); digit_at (b mod 16 * 4); "="%byte].
Proof.
  intros. unfold key_block_text. rewrite key_block_2 by done. cbn [map length Nat.add Nat.ltb Nat.leb].
  rewrite !land_3f, !Z.shiftr_div_pow2 by lia. fold_digits. digits_equal.
Qed.

Definition octet (x : Z) : Prop := 0 <= x < 256.

Lemma key_digits_two a b e rest acc out :
  octet a -> octet b -> 0 <= e < 4 -> (length out + 2 <= NCFG_KEY_LEN)%nat ->
  exists acc', acc' mod 4 = e /\
    key_digits (digit_at (a / 4) :: digit_at (a mod 4 * 16 + b / 16) :: digit_at (b mod 16 * 4 + e) :: rest) acc 0 out =
    key_digits rest acc' 2 (out ++ [a; b]).
Proof.
  unfold octet. intros Ha Hb He Hl.
  destruct (key_digit_first (a / 4) (digit_at (a mod 4 * 16 + b / 16) :: digit_at (b mod 16 * 4 + e) :: rest) acc out)
    as (a1 & -> & H1); [zdiv|].
  destruct (key_digit_next 6 4 (a / 4) (a mod 4 * 16 + b / 16) (digit_at (b mod 16 * 4 + e) :: rest) a1 out)
    as (a2 & -> & H2); [done|lia|zdiv|lia|exact H1|].
  replace ((a / 4 * 64 + (a mod 4 * 16 + b / 16)) / 2 ^ 4) with a by (simpl; zdiv).
  destruct (key_digit_next 4 2 (b / 16) (b mod 16 * 4 + e) rest a2 (out ++ [a])) as (a3 & -> & H3);
    [done|lia|zdiv|rewrite length_app; simpl; lia|rewrite H2; simpl; zdiv|].
  exists a3. split; [change (2 ^ 2) with 4 in H3; rewrite H3; zdiv|]. rewrite <- app_assoc. simpl app.
  replace ((b / 16 * 64 + (b mod 16 * 4 + e)) / 2 ^ 2) with b by (simpl; zdiv). done.
Qed.

Lemma key_digits_block a b c rest acc out :
  octet a -> octet b -> octet c -> (length out + 3 <= NCFG_KEY_LEN)%nat ->
  exists acc', key_digits (key_block_text [a; b; c] ++ rest) acc 0 out = key_digits rest acc' 0 (out ++ [a; b; c]).
Proof.
  intros Ha Hb Hc Hl. rewrite block_text_3 by done. cbn [app].
  destruct (key_digits_two a b (c / 64) (digit_at (c mod 64) :: rest) acc out) as (a3 & H3 & ->); [done..|unfold octet in *; zdiv|lia|].
  destruct (key_digit_next 2 0 (c / 64) (c mod 64) rest a3 (out ++ [a; b])) as (a4 & -> & _);
    [done|lia|zdiv|rewrite length_app; simpl; lia|done|].
  exists a4. rewrite <- app_assoc. simpl app. replace ((c / 64 * 64 + c mod 64) / 2 ^ 0) with c by (simpl; zdiv). done.
Qed.

(** All the whole blocks of a key, then the last two octets. *)
Lemma key_digits_render blocks a b acc out :
  Forall octet (blocks ++ [a; b]) -> (length out + length blocks + 2 <= NCFG_KEY_LEN)%nat -> (exists n, length blocks = 3 * n)%nat ->
  exists t, key_render (blocks ++ [a; b]) = t ++ ["="%byte] /\ length t = (length blocks / 3 * 4 + 3)%nat /\
    key_digits t acc 0 out = inr (out ++ blocks ++ [a; b]).
Proof.
  intros Ho Hl [n Hn]. revert blocks acc out Ho Hl Hn. induction n as [|n IH]; intros blocks acc out Ho Hl Hn.
  - destruct blocks; [|done]. simpl in Ho. apply Forall_cons in Ho as [Ha Ho]. apply Forall_cons in Ho as [Hb _].
    cbn [app key_render]. rewrite block_text_2 by done. eexists [_; _; _]. split; [reflexivity|]. split; [done|].
    rewrite <- (Z.add_0_r (b mod 16 * 4)). destruct (key_digits_two a b 0 [] acc out) as (a3 & _ & ->); [done..|lia|simpl in Hl; lia|done].
  - destruct blocks as [|x [|y [|z blocks]]]; try (simpl in Hn; lia). cbn [app] in Ho.
    apply Forall_cons in Ho as [Hx Ho]. apply Forall_cons in Ho as [Hy Ho]. apply Forall_cons in Ho as [Hz Ho].
    simpl in Hl, Hn.
    destruct (IH blocks 0 [] Ho) as (t & Ht & Hlt & _); [simpl; lia|lia|].
    exists (key_block_text [x; y; z] ++ t). cbn [app key_render]. split; [by rewrite Ht, app_assoc|]. split.
    { rewrite length_app, Hlt, block_text_3 by done. simpl length. replace (S (S (S (length blocks)))) with (length blocks + 1 * 3)%nat by lia.
      rewrite Nat.div_add by lia. lia. }
    destruct (key_digits_block x y z t acc out) as (acc' & ->); [done..|lia|].
    destruct (IH blocks acc' (out ++ [x; y; z]) Ho) as (t' & Ht' & _ & E); [rewrite length_app; simpl; lia|lia|].
    rewrite Ht in Ht'. apply app_inj_tail in Ht' as [<- _]. by rewrite E, <- app_assoc.
Qed.

Lemma key_roundtrip key :
  length key = NCFG_KEY_LEN -> Forall octet key ->
  key_parse (key_render key) = inr key /\ length (key_render key) = NCFG_KEY_TEXT_LEN.
Proof.
  intros Hl Ho. rewrite <- (take_drop 30 key) in *.
  assert (length (take 30 key) = 30%nat) as Ht by (rewrite length_take; rewrite take_drop in Hl; unfold NCFG_KEY_LEN in Hl; lia).
  rewrite length_app in Hl. destruct (drop 30 key) as [|a [|b [|? ?]]]; simpl in Hl; unfold NCFG_KEY_LEN in Hl; try lia.
  destruct (key_digits_render (take 30 key) a b 0 [] Ho) as (t & -> & Hlt & E); [unfold NCFG_KEY_LEN; simpl; lia|exists 10%nat; lia|].
  rewrite Ht in Hlt. simpl in Hlt. unfold key_parse. rewrite length_app, Hlt. split; [|done].
  rewrite app_nth2 by lia. rewrite Hlt, take_app_le, take_ge by lia. simpl. rewrite E. simpl app.
  by rewrite length_app, Ht.
Qed.

(** ** SSIDs *)

Lemma ssid_nibble_at d : 0 <= d < 16 -> ssid_nibble (nth (Z.to_nat d) hex_lower x00) = Some d.
Proof.
  intros Hd. assert (forallb (fun n => bool_decide (ssid_nibble (nth n hex_lower x00) = Some (Z.of_nat n))) (seq 0 16) = true) as H
    by (vm_compute; reflexivity).
  rewrite forallb_forall in H. specialize (H (Z.to_nat d)). rewrite Z2Nat.id in H by lia.
  apply bool_decide_eq_true in H; [done|]. apply in_seq. lia.
Qed.

Definition octet_hex (o : Z) : list byte :=
  [nth (Z.to_nat (Z.shiftr o 4)) hex_lower x00; nth (Z.to_nat (Z.land o 0x0f)) hex_lower x00].

Lemma ssid_octets_text l : Forall octet l -> ssid_octets (l ≫= octet_hex) = inr l.
Proof.
  intros H. induction H as [|o l Ho _ IH]; [done|]. change ((o :: l) ≫= octet_hex) with (octet_hex o ++ (l ≫= octet_hex)).
  unfold octet in Ho. cbn [octet_hex app ssid_octets].
  change 0x0f with (Z.ones 4). rewrite Z.shiftr_div_pow2, Z.land_ones by lia. rewrite !ssid_nibble_at by (simpl; zdiv).
  rewrite IH, (lor_shiftl _ 4) by (simpl; zdiv). do 2 f_equal. simpl. zdiv.
Qed.

Lemma octets_text_length l : length (l ≫= octet_hex) = (2 * length l)%nat.
Proof. induction l as [|o l IH]; [done|]. simpl in *. unfold mbind in IH. rewrite IH. lia. Qed.

Lemma ssid_roundtrip l :
  Forall octet l -> (length l <= NCFG_SSID_MAX_LEN)%nat ->
  ssid_parse_hex (Some (ssid_text (Ssid true l))) = inr (Ssid true l).
Proof.
  intros Ho Hl. unfold ssid_text. cbn [ssid_bytes]. rewrite take_ge by done. fold octet_hex. unfold ssid_parse_hex.
  rewrite octets_text_length, Nat.mul_comm, Nat.Div0.mod_mul, Nat.div_mul by lia.
  rewrite (proj2 (Nat.ltb_ge _ _)) by done. simpl. by rewrite ssid_octets_text.
Qed.

(** ** Station addresses *)

(** The one spelling: colons, and hex digits in lower case. *)
Definition spelled (separator c : byte) : byte := if c =b separator then ":"%byte else lower_hex c.

Definition station_separator (separator : byte) : Prop := separator = ":"%byte \/ separator = "-"%byte.

Lemma hex_not_separator separator c : station_separator separator -> is_hex_digit c = true -> (c =b separator) = false.
Proof. intros [->| ->]; by destruct c. Qed.

Lemma lower_hex_digit c : is_hex_digit c = true -> is_hex_digit (lower_hex c) = true /\ lower_hex (lower_hex c) = lower_hex c /\
  lower_hex c <> "-"%byte.
Proof. by destruct c. Qed.

Lemma char_at_drop text n i : (n <= length text)%nat -> char_at text (n + i) = char_at (drop n text) i.
Proof.
  intros Hn. unfold char_at. rewrite <- (take_drop n text) at 1. rewrite <- app_assoc.
  rewrite lookup_app_r by (rewrite length_take; lia). rewrite length_take. f_equal. lia.
Qed.

Lemma count_byte_cons c b text : count_byte c (b :: text) = ((if b =b c then 1 else 0) + count_byte c text)%nat.
Proof.
  unfold count_byte. rewrite filter_cons. destruct (byte_eqb_spec b c) as [->|H]; [by rewrite decide_True|by rewrite decide_False].
Qed.

(** What is accepted: [remaining] octets and a separator after each, then one. *)
Fixpoint station_shape (separator : byte) (remaining : nat) (w : list byte) : bool :=
  match remaining, w with
  | O, [c0; c1] => is_hex_digit c0 && is_hex_digit c1
  | S remaining, c0 :: c1 :: c2 :: w =>
      is_hex_digit c0 && is_hex_digit c1 && (c2 =b separator) && station_shape separator remaining w
  | _, _ => false
  end.

(** One part at a time, over what is left of the text. *)
Lemma station_octets_walk separator text remaining part :
  station_separator separator -> x00 ∉ text -> (part * 3 <= length text)%nat -> (part + S remaining = 6)%nat ->
  count_byte separator (drop (part * 3) text) = remaining ->
  exists r, station_octets text separator (S remaining) part = Some r /\ forall out, r = inr out <->
    station_shape separator remaining (drop (part * 3) text) = true /\ out = map (spelled separator) (drop (part * 3) text).
Proof.
  intros Hsep Hnul. revert part. induction remaining as [remaining IH] using lt_wf_ind. intros part Hle Hpart Hcount.
  cbn [station_octets]. replace (char_at text (part * 3)) with (char_at text (part * 3 + 0)) by (f_equal; lia).
  rewrite !char_at_drop by done. destruct (drop (part * 3) text) as [|c0 w] eqn:Ew; [eexists; split; [done|]; destruct remaining; (split; [done|by intros []])|].
  assert (x00 ∉ c0 :: w) as Hw by (intros Hin; apply Hnul; rewrite <- (take_drop (part * 3) text), Ew; apply elem_of_app; auto).
  assert (forall c, is_hex_digit c = true -> spelled separator c = lower_hex c) as Hsp
    by (intros c Hc; unfold spelled; by rewrite (hex_not_separator separator)).
  cbn [char_at app lookup list_lookup mbind option_bind].
  destruct (is_hex_digit c0) eqn:H0; cycle 1.
  { eexists. split; [done|]. intros out. split; [done|]. intros [H _]. destruct remaining, w as [|? [|? ?]]; simpl in H; rewrite ?H0 in H; done. }
  cbn [negb]. destruct w as [|c1 w]; [eexists; split; [done|]; destruct remaining; (split; [done|by intros []])|].
  cbn [app lookup list_lookup mbind option_bind].
  destruct (is_hex_digit c1) eqn:H1; cycle 1.
  { eexists. split; [done|]. intros out. split; [done|]. intros [H _]. destruct remaining, w as [|? ?]; simpl in H; rewrite ?H0, ?H1 in H; done. }
  cbn [negb]. rewrite !count_byte_cons, !(hex_not_separator separator) in Hcount by done. cbn [Nat.add] in Hcount.
  destruct w as [|c2 w]; cbn [app lookup list_lookup mbind option_bind].
  - change (0 = remaining)%nat in Hcount. subst remaining. rewrite andb_false_r. cbn [station_octets mbind option_bind station_shape].
    eexists. split; [done|]. intros out. rewrite H0, H1, (proj2 (Nat.ltb_ge part 5)) by lia. cbn [map app]. rewrite !Hsp by done. naive_solver.
  - assert (c2 <> x00) as Hc2 by (intros ->; apply Hw; set_solver). rewrite (byte_eqb_neq c2 x00 Hc2), count_byte_cons in *.
    destruct (c2 =b separator) eqn:Hs; cycle 1.
    { eexists. split; [done|]. intros out. split; [done|]. intros [H _]. destruct remaining; simpl in H; rewrite ?H0, ?H1, ?Hs in H; done. }
    cbn [negb andb Nat.add] in *. destruct remaining as [|remaining]; [done|].
    assert (drop (S part * 3) text = w) as Ew'.
    { replace (S part * 3)%nat with (part * 3 + 3)%nat by lia. by rewrite <- drop_drop, Ew. }
    destruct (IH remaining) with (part := S part) as (r & -> & Hr); [lia| |lia|rewrite Ew'; lia|].
    { assert (length (drop (part * 3) text) = length (c0 :: c1 :: c2 :: w)) as E by (by rewrite Ew).
      rewrite length_drop in E. simpl in E. lia. }
    rewrite Ew' in Hr. cbn [mbind option_bind station_shape map]. rewrite H0, H1, Hs, !Hsp by done.
    assert (spelled separator c2 = ":"%byte) as -> by (unfold spelled; by rewrite Hs). cbn [andb].
    rewrite (proj2 (Nat.ltb_lt part 5)) by lia. destruct r as [e|out].
    + eexists. split; [done|]. intros out. split; [done|]. intros [H ->]. discriminate (proj2 (Hr _) (conj H eq_refl)).
    + eexists. split; [done|]. intros o. destruct (proj1 (Hr out) eq_refl) as [Hshape ->]. naive_solver.
Qed.

Definition separator_of (text : list byte) : byte := if existsb (fun b => b =b "-") text then "-"%byte else ":"%byte.

Lemma separator_of_ok text : station_separator (separator_of text).
Proof. unfold station_separator, separator_of. destruct (existsb _ _); auto. Qed.

Lemma shape_count separator n w : station_separator separator -> station_shape separator n w = true -> count_byte separator w = n.
Proof.
  intros Hs. revert w. induction n as [|n IH]; intros [|c0 [|c1 [|c2 w]]] H; simpl in H; try done.
  - apply andb_true_iff in H as [H0 H1]. by rewrite !count_byte_cons, !(hex_not_separator separator).
  - repeat (apply andb_true_iff in H as [H ?]). rewrite !count_byte_cons, !(hex_not_separator separator) by done.
    assert ((c2 =b separator) = true) as -> by done. rewrite (IH w) by done. lia.
Qed.

Lemma shape_length separator n w : station_shape separator n w = true -> length w = (3 * n + 2)%nat.
Proof.
  revert w. induction n as [|n IH]; intros [|c0 [|c1 [|c2 w]]] H; simpl in H; try done.
  repeat (apply andb_true_iff in H as [H ?]). cbn [length]. rewrite (IH w) by done. lia.
Qed.

(** Every text is answered without a read past its end, and exactly the texts
    of six octets with one separator throughout are accepted. *)
Lemma station_accepts text :
  x00 ∉ text ->
  exists r, station_address_normalize text = Some r /\
    forall out, r = inr out <-> station_shape (separator_of text) 5 text = true /\ out = map (spelled (separator_of text)) text.
Proof.
  intros Hn. unfold station_address_normalize. fold (separator_of text).
  destruct (Nat.eqb_spec (S (count_byte (separator_of text) text)) 6) as [H|H]; cbn [negb].
  - apply (station_octets_walk (separator_of text) text 5 0); [apply separator_of_ok|done|lia|done|]. simpl. rewrite drop_0. lia.
  - eexists. split; [done|]. intros out. split; [done|]. intros [Hs _]. apply shape_count in Hs; [lia|apply separator_of_ok].
Qed.

Lemma spelled_shape separator n w : station_separator separator -> station_shape separator n w = true ->
  let out := map (spelled separator) w in
  station_shape ":" n out = true /\ map (spelled ":") out = out /\ separator_of out = ":"%byte /\ x00 ∉ out.
Proof.
  intros Hs H. assert (forall c, is_hex_digit c = true -> spelled separator c = lower_hex c /\ spelled ":" (lower_hex c) = lower_hex c /\
    is_hex_digit (lower_hex c) = true /\ (lower_hex c =b "-") = false /\ lower_hex c <> x00) as Hc.
  { intros c Hc. unfold spelled. rewrite (hex_not_separator separator c) by done. by destruct c. }
  cbv zeta. revert w H. induction n as [|n IH]; intros [|c0 [|c1 [|c2 w]]] H; simpl in H; try done;
    repeat (apply andb_true_iff in H as [H ?]).
  - cbn [map]. destruct (Hc c0) as (-> & E0 & H0' & N0 & Z0); [done|]. destruct (Hc c1) as (-> & E1 & H1' & N1 & Z1); [done|].
    simpl. unfold separator_of. simpl. rewrite E0, E1, H0', H1', N0, N1. set_solver.
  - destruct (Hc c0) as (E & E0 & H0' & N0 & Z0); [done|]. destruct (Hc c1) as (E' & E1 & H1' & N1 & Z1); [done|].
    destruct (IH w) as (I1 & I2 & I3 & I4); [done|]. unfold separator_of in *. cbn [map station_shape existsb] in *. rewrite E, E'.
    assert (spelled separator c2 = ":"%byte) as -> by (unfold spelled; destruct (c2 =b separator); done).
    rewrite E0, E1, H0', H1', N0, N1, I1, I2. destruct (existsb _ _); [done|]. set_solver.
Qed.

(** The normaliser of station addresses is total and answers one spelling.
    Given any text with no NUL, it answers without a read past the end; what
    it accepts is six octets of two hex digits, with colons or with dashes
    throughout; what it answers is that text with colons and lower case, 17
    characters, which it answers again when given it. *)
Theorem station_address_canonical text :
  x00 ∉ text ->
  exists r, station_address_normalize text = Some r /\ forall out, r = inr out ->
    station_shape (separator_of text) 5 text = true /\ out = map (spelled (separator_of text)) text /\
    length out = NCFG_STATION_ADDRESS_LEN /\ station_address_normalize out = Some (inr out).
Proof.
  intros Hn. destruct (station_accepts text Hn) as (r & Hr & Hiff). exists r. split; [done|]. intros out Hout.
  apply Hiff in Hout as [Hs ->]. split_and!; [done|done|by rewrite length_map, (shape_length _ _ _ Hs)|].
  destruct (spelled_shape (separator_of text) 5 text) as (H1 & H2 & H3 & H4); [apply separator_of_ok|done|].
  destruct (station_accepts _ H4) as (r' & -> & Hiff'). f_equal. apply Hiff'. by rewrite H3, H2.
Qed.

Lemma station_address_canonical_witness :
  exists r, station_address_normalize (bytes "AA-bB-0c-DD-ee-9F") = Some r /\ forall out, r = inr out ->
    station_shape (separator_of (bytes "AA-bB-0c-DD-ee-9F")) 5 (bytes "AA-bB-0c-DD-ee-9F") = true /\
    out = map (spelled (separator_of (bytes "AA-bB-0c-DD-ee-9F"))) (bytes "AA-bB-0c-DD-ee-9F") /\
    length out = NCFG_STATION_ADDRESS_LEN /\ station_address_normalize out = Some (inr out).
Proof. apply station_address_canonical. vm_compute. intros H. repeat (apply elem_of_cons in H as [H|H]; [done|]). by apply elem_of_nil in H. Defined.

Example station_address_examples :
  station_address_normalize (bytes "AA-bB-0c-DD-ee-9F") = Some (inr (bytes "aa:bb:0c:dd:ee:9f")) /\
  station_address_normalize (bytes "aa:bb:cc:dd:ee") = Some (inl (STATION_PARTS 5)) /\
  station_address_normalize (bytes "a:b:c:d:e:f") = Some (inl (STATION_OCTET (bytes "a"))).
Proof. vm_compute. auto. Qed.
