(* ===== verification/Field.v ===== *)
(** * Field: the table every struct of the document is read and written by

    [model/field.c] and [field.h]. A struct of the model is described by a
    table: the members of its JSON object in order, each with a kind, flags, a
    range and a default. One engine initialises, reads, writes and leaves out
    members by that table.

    A table is a value of [ftype]; [value t] is the type of the structs it
    describes, a tuple of its members in order. What a table cannot say is a
    [custom]: the functions the source keeps in [ncfg_custom_t], with the type
    they work on. Offsets and sizes are what [value] stands for and have no
    counterpart; freeing has none either. A refusal carries what its sentence
    quotes. A reader is given [grant], which decides on a request for memory by
    its number, and threads that number. *)
From S2P Require Import Prelude Lex Wire Json JsonWrite.
#[local] Open Scope Z_scope.

(** ** Refusals *)

(** What a sentence is about: [`%s` of %s], [an entry of `%s` of %s], or
    words. *)
Inductive subject := OF (name : list byte) (owner : string) | ENTRY_OF (name : list byte) (owner : string) | WORDS (s : string).

Inductive refusal :=
| NOT_A_STRING (what : subject)
| HOLDS_A_NUL (what : subject)
| NOT_A_WHOLE_NUMBER (what : subject)
| OUT_OF_RANGE (what : subject) (value low high : Z)
| NOT_TRUE_OR_FALSE (what : subject)
| NOT_A_WORD (set : string)
| NOT_IN_THE_SET (set : string) (word : list byte)
| NOT_A_LIST (name : list byte) (owner : string)
| LIST_CHANGED (name : list byte) (owner : string)
| NOT_AN_OBJECT (type : string)
| TOO_MANY_MEMBERS (type : string)
| HAS_NO (type : string) (name : list byte)
| UNREADABLE (type : string)
| STATES_TWICE (type : string) (key : list byte)
| DOES_NOT_KNOW (type : string) (key : list byte)
| DOES_NOT_KNOW_AT (type : string) (ordinal : nat)
| OUT_OF_MEMORY
| REFUSED (sentence : string).

(** ** Readers *)

Definition R (A : Type) := (nat -> bool) -> nat -> refusal + A * nat.

Definition ret {A} (x : A) : R A := fun _ n => inr (x, n).
Definition refuse {A} (e : refusal) : R A := fun _ _ => inl e.
Definition bind {A B} (r : R A) (k : A -> R B) : R B :=
  fun grant n => match r grant n with inl e => inl e | inr (x, n) => k x grant n end.

Declare Scope field_scope.
Delimit Scope field_scope with field.
Notation "x <- r ; k" := (bind r (fun x => k)) (at level 100, r at next level, right associativity) : field_scope.
Notation "' p <- r ; k" := (bind r (fun x => let 'p := x in k))
  (at level 100, p pattern, r at next level, right associativity) : field_scope.
#[local] Open Scope field_scope.

(** ** Tables *)

Definition NCFG_FF_REQUIRED : Z := 0x01.
Definition NCFG_FF_OMIT_EMPTY : Z := 0x02.
Definition NCFG_FF_OMIT_TRUE : Z := 0x04.
Definition NCFG_FF_OMIT_FALSE : Z := 0x08.
Definition NCFG_FF_OMIT_ZERO : Z := 0x10.
Definition NCFG_FF_NULL_ABSENT : Z := 0x20.

Definition has_flag (flags bit : Z) : bool := negb (Z.land flags bit =? 0).

(** [ncfg_enum_t]: a table of names, or the pair of functions [value.h]
    publishes for a set it owns. *)
Inductive enum_set :=
| WORD_SET (what : string) (names : list string)
| VALUE_SET (what : string) (name_of : Z -> option (list byte)) (from_name : list byte -> option Z).

(** [ncfg_custom_t], and the value it works on: [cu_zero] is that value in
    zeroed memory; a [NULL] function is [None]. [cu_ok] is the specification's:
    which values the rest of the program may put there. *)
Record custom := Custom {
  cu_value : Set;
  cu_zero : cu_value;
  cu_read : doc -> Z -> cu_value -> R cu_value;
  cu_write : cu_value -> list call;
  cu_omit : option (cu_value -> bool);
  cu_init : option (R cu_value);
  cu_ok : cu_value -> bool }.

(** [ncfg_type_t], its fields and their kinds. A list is of structs or of custom
    values. *)
Inductive ftype : Type := FType (what : string) (fields : ffields) (tag : option (list byte))
with ffields : Type := FNil | FCons (name : string) (flags : Z) (kind : fkind) (rest : ffields)
with fkind : Type :=
| F_BOOL (fallback : bool)
| F_OPT_BOOL
| F_INT (low high fallback : Z)
| F_OPT_INT (low high : Z)
| F_STR
| F_ENUM (choices : enum_set) (fallback : Z)
| F_OPT_ENUM (choices : enum_set)
| F_STRUCT (type : ftype)
| F_OPT_STRUCT (type : ftype)
| F_LIST (type : ftype)
| F_CUSTOM_LIST (c : custom)
| F_STR_LIST
| F_INT_LIST (low high : Z)
| F_CUSTOM (c : custom).

Definition type_what (t : ftype) : string := match t with FType what _ _ => what end.
Definition type_fields (t : ftype) : ffields := match t with FType _ fs _ => fs end.
Definition type_tag (t : ftype) : option (list byte) := match t with FType _ _ tag => tag end.

Fixpoint field_names (fs : ffields) : list (list byte) :=
  match fs with FNil => [] | FCons name _ _ rest => bytes name :: field_names rest end.

(** ** The structs a table describes *)

Fixpoint value (t : ftype) : Set :=
  match t with FType _ fs _ => values fs end
with values (fs : ffields) : Set :=
  match fs with FNil => unit | FCons _ _ k rest => (kvalue k * values rest)%type end
with kvalue (k : fkind) : Set :=
  match k with
  | F_BOOL _ => bool
  | F_OPT_BOOL => option bool
  | F_INT _ _ _ => Z
  | F_OPT_INT _ _ => option Z
  | F_STR => option (list byte)
  | F_ENUM _ _ => Z
  | F_OPT_ENUM _ => option Z
  | F_STRUCT t => value t
  | F_OPT_STRUCT t => option (value t)
  | F_LIST t => list (value t)
  | F_CUSTOM_LIST c => list (cu_value c)
  | F_STR_LIST => list (option (list byte))
  | F_INT_LIST _ _ => list Z
  | F_CUSTOM c => cu_value c
  end.

(** Zeroed memory. *)
Fixpoint zero (t : ftype) : value t :=
  match t with FType _ fs _ => zeros fs end
with zeros (fs : ffields) : values fs :=
  match fs with FNil => tt | FCons _ _ k rest => (kzero k, zeros rest) end
with kzero (k : fkind) : kvalue k :=
  match k with
  | F_BOOL _ => false
  | F_OPT_BOOL => None
  | F_INT _ _ _ => 0
  | F_OPT_INT _ _ => None
  | F_STR => None
  | F_ENUM _ _ => 0
  | F_OPT_ENUM _ => None
  | F_STRUCT t => zero t
  | F_OPT_STRUCT t => None
  | F_LIST t => []
  | F_CUSTOM_LIST c => []
  | F_STR_LIST => []
  | F_INT_LIST _ _ => []
  | F_CUSTOM c => cu_zero c
  end.

(** A member by its name, where a function of the source says [value->name]. *)
Fixpoint kind_of_field (fs : ffields) (name : string) : option fkind :=
  match fs with
  | FNil => None
  | FCons n _ k rest => if String.eqb n name then Some k else kind_of_field rest name
  end.

Definition member_type (o : option fkind) : Set := match o with Some k => kvalue k | None => unit end.

Fixpoint member_of (fs : ffields) (name : string) : values fs -> member_type (kind_of_field fs name) :=
  match fs return values fs -> member_type (kind_of_field fs name) with
  | FNil => fun _ => tt
  | FCons n _ k rest => fun v =>
      match String.eqb n name as b return member_type (if b then Some k else kind_of_field rest name) with
      | true => fst v
      | false => member_of rest name (snd v)
      end
  end.

Definition get (t : ftype) (name : string) : value t -> member_type (kind_of_field (type_fields t) name) :=
  match t with FType _ fs _ => member_of fs name end.

(** An assignment to a member, where the source changes it in place. *)
Fixpoint update_of (fs : ffields) (name : string) :
    (member_type (kind_of_field fs name) -> member_type (kind_of_field fs name)) -> values fs -> values fs :=
  match fs return (member_type (kind_of_field fs name) -> member_type (kind_of_field fs name)) -> values fs -> values fs with
  | FNil => fun _ v => v
  | FCons n _ k rest =>
      match String.eqb n name as b return
        (member_type (if b then Some k else kind_of_field rest name) -> member_type (if b then Some k else kind_of_field rest name)) ->
        kvalue k * values rest -> kvalue k * values rest with
      | true => fun f v => (f (fst v), snd v)
      | false => fun f v => (fst v, update_of rest name f (snd v))
      end
  end.

Definition update (t : ftype) (name : string) :
    (member_type (kind_of_field (type_fields t) name) -> member_type (kind_of_field (type_fields t) name)) -> value t -> value t :=
  match t with FType _ fs _ => update_of fs name end.

Fixpoint field_count (fs : ffields) : nat := match fs with FNil => O | FCons _ _ _ rest => S (field_count rest) end.

(** ** Closed sets *)

Definition set_what (s : enum_set) : string := match s with WORD_SET what _ => what | VALUE_SET what _ _ => what end.

(** [ncfg_field_enum_name]. *)
Definition enum_name (s : enum_set) (v : Z) : option (list byte) :=
  match s with
  | VALUE_SET _ name_of _ => name_of v
  | WORD_SET _ names => if (v <? 0) || (zlen names <=? v) then None else bytes <$> names !! Z.to_nat v
  end.

Fixpoint index_of_word (names : list string) (word : list byte) (i : Z) : option Z :=
  match names with
  | [] => None
  | n :: names => if bytes_eqb (bytes n) word then Some i else index_of_word names word (i + 1)
  end.

Definition has_nul (s : list byte) : bool := existsb (fun b => b =b x00) s.

(** One request for memory. *)
Definition alloc : R unit := fun grant n => if grant n then inr (tt, S n) else inl OUT_OF_MEMORY.

Section Scalars.
Context (d : doc).

(** [ncfg_field_string]. *)
Definition field_string (node : Z) (what : subject) : R (list byte) :=
  match json_string d node with
  | None => refuse (NOT_A_STRING what)
  | Some s => if has_nul s then refuse (HOLDS_A_NUL what) else _ <- alloc; ret s
  end.

(** [read_int]: asked twice with two fallbacks. *)
Definition read_int (node : Z) : option Z :=
  let low := json_int d node INT64_MIN in
  let high := json_int d node INT64_MAX in
  if negb (bool_decide (json_get_type d node = NCFG_JSON_NUMBER)) || negb (low =? high) then None else Some low.

Definition read_bounded (node : Z) (what : subject) (low high : Z) : R Z :=
  match read_int node with
  | None => refuse (NOT_A_WHOLE_NUMBER what)
  | Some v => if (v <? low) || (high <? v) then refuse (OUT_OF_RANGE what v low high) else ret v
  end.

Definition read_bool (node : Z) (what : subject) : R bool :=
  if bool_decide (json_get_type d node = NCFG_JSON_BOOL) then ret (json_bool d node false)
  else refuse (NOT_TRUE_OR_FALSE what).

(** [ncfg_field_enum]. *)
Definition field_enum (s : enum_set) (node : Z) : R Z :=
  match json_string d node with
  | None => refuse (NOT_A_WORD (set_what s))
  | Some word =>
      if (64 <=? zlen word) || has_nul word then refuse (NOT_IN_THE_SET (set_what s) (take 32 word))
      else
        match s with
        | VALUE_SET what _ from_name =>
            match from_name word with Some v => ret v | None => refuse (NOT_IN_THE_SET what word) end
        | WORD_SET what names =>
            match index_of_word names word 0 with Some v => ret v | None => refuse (NOT_IN_THE_SET what word) end
        end
  end.

(** [ncfg_field_only_member]. *)
Definition only_member (object : Z) : Z :=
  match json_node d object with
  | Some n => if bool_decide (n_type n = NCFG_JSON_OBJECT) && (n_child_count n =? 1) then n_first_child n else NCFG_JSON_NONE
  | None => NCFG_JSON_NONE
  end.

(** [string_arena]: whether there is a string below the object to locate the
    text by. Every pointer it answers is the start of the document's text. The
    fuel is the depth, which the reader bounds by [NCFG_JSON_MAX_DEPTH]. *)
Fixpoint arena_in (below : Z -> bool) (fuel : nat) (child : Z) : bool :=
  match fuel with
  | O => false
  | S fuel =>
      if child =? NCFG_JSON_NONE then false
      else
        match json_node d child with
        | None => false
        | Some n =>
            match json_string d child with
            | Some _ => true
            | None =>
                match n_type n with
                | NCFG_JSON_OBJECT | NCFG_JSON_ARRAY =>
                    if below child then true else arena_in below fuel (n_next_sibling n)
                | _ => arena_in below fuel (n_next_sibling n)
                end
            end
        end
  end.

Fixpoint string_arena (depth : nat) (object : Z) : bool :=
  match depth with
  | O => false
  | S depth =>
      match json_node d object with
      | None => false
      | Some n => arena_in (string_arena depth) (S (length (d_nodes d))) (n_first_child n)
      end
  end.

Definition KEY_ROOM : Z := 128.

(** [member_key]: the name of a member nothing claimed, where the arithmetic
    agrees on a member that was claimed. *)
Definition member_key (object member : Z) (proof : option (Z * list byte)) : option (list byte) :=
  match proof with
  | None => None
  | Some (witness, name) =>
      if negb (string_arena (S NCFG_JSON_MAX_DEPTH) object) then None
      else
        match json_node d witness, json_node d member with
        | Some w, Some n =>
            if (n_key_length n =? 0) || (KEY_ROOM <=? n_key_length n) then None
            else if negb (zlen name =? n_key_length w) || negb (bytes_eqb (text_at d (n_key_offset w) (n_key_length w)) name)
            then None
            else
              let key := text_at d (n_key_offset n) (n_key_length n) in
              if forallb (byte_between x20 x7e) key then Some key else None
        | _, _ => None
        end
  end.

(** [refuse_stray_member]. *)
Fixpoint stray_member (t : ftype) (object : Z) (claimed : list Z) (proof : option (Z * list byte))
    (fuel ordinal : nat) (child : Z) : refusal :=
  match fuel with
  | O => UNREADABLE (type_what t)
  | S fuel =>
      match (if child =? NCFG_JSON_NONE then None else json_node d child) with
      | None => UNREADABLE (type_what t)
      | Some n =>
          if existsb (Z.eqb child) claimed then stray_member t object claimed proof fuel (S ordinal) (n_next_sibling n)
          else
            match member_key object child proof with
            | None => DOES_NOT_KNOW_AT (type_what t) (S ordinal)
            | Some key =>
                if existsb (bytes_eqb key) (field_names (type_fields t)) then STATES_TWICE (type_what t) key
                else if bool_decide (type_tag t = Some key) then STATES_TWICE (type_what t) key
                else DOES_NOT_KNOW (type_what t) key
            end
      end
  end.

Definition refuse_stray_member (t : ftype) (object : Z) (claimed : list Z) (proof : option (Z * list byte)) : refusal :=
  match json_node d object with
  | None => UNREADABLE (type_what t)
  | Some n => stray_member t object claimed proof (S (length (d_nodes d))) 0 (n_first_child n)
  end.

(** The loop of the three list readers over the children; an array the reader
    built has as many as it counts, and the rest of the allocation would stay
    zeroed. *)
Fixpoint read_children {A} (read : Z -> R A) (blank : A) (changed : refusal) (remaining : nat) (child : Z) : R (list A) :=
  if child =? NCFG_JSON_NONE then ret (repeat blank remaining)
  else
    match json_node d child, remaining with
    | Some n, S remaining =>
        x <- read child;
        rest <- read_children read blank changed remaining (n_next_sibling n);
        ret (x :: rest)
    | _, _ => refuse changed
    end.

Definition read_array {A} (name : list byte) (owner : string) (read : Z -> R A) (blank : A) (node : Z) : R (list A) :=
  match json_node d node with
  | Some n =>
      if bool_decide (n_type n = NCFG_JSON_ARRAY) then
        if n_child_count n =? 0 then ret []
        else
          _ <- alloc;
          read_children read blank (LIST_CHANGED name owner) (Z.to_nat (n_child_count n)) (n_first_child n)
      else refuse (NOT_A_LIST name owner)
  | None => refuse (NOT_A_LIST name owner)
  end.
End Scalars.

(** ** Defaults: [ncfg_type_init] *)

Fixpoint type_init (t : ftype) : R (value t) :=
  match t with FType _ fs _ => fields_init fs end
with fields_init (fs : ffields) : R (values fs) :=
  match fs with
  | FNil => ret tt
  | FCons _ _ k rest => v <- field_init k; vs <- fields_init rest; ret (v, vs)
  end
with field_init (k : fkind) : R (kvalue k) :=
  match k with
  | F_BOOL fallback => ret fallback
  | F_ENUM _ fallback => ret fallback
  | F_INT _ _ fallback => ret fallback
  | F_STRUCT t => type_init t
  | F_CUSTOM c => match cu_init c with Some init => init | None => ret (cu_zero c) end
  | k => ret (kzero k)
  end.

(** ** Reading *)

Definition field_is_optional (k : fkind) : bool :=
  match k with
  | F_OPT_BOOL | F_OPT_INT _ _ | F_OPT_ENUM _ | F_STR | F_OPT_STRUCT _ => true
  | _ => false
  end.

Definition CLAIMED_MAX : nat := 80.

(** What is known after the members looked at so far: the nodes claimed, and
    the first of them with its name. *)
Definition claims := (list Z * option (Z * list byte))%type.

Definition claim (c : claims) (node : Z) (name : list byte) : claims :=
  (c.1 ++ [node], match c.2 with None => Some (node, name) | some => some end).

Section Reading.
Context (d : doc).

(** [ncfg_type_read], its loop over the fields, and [read_one]. *)
Fixpoint type_read (t : ftype) (node : Z) (base : value t) {struct t} : R (value t) :=
  match t as t0 return value t0 -> R (value t0) with
  | FType what fs tag => fun base =>
      if negb (bool_decide (json_get_type d node = NCFG_JSON_OBJECT)) then refuse (NOT_AN_OBJECT what)
      else if (CLAIMED_MAX <? field_count fs + 1)%nat then refuse (TOO_MANY_MEMBERS what)
      else
        let tagged :=
          match tag with
          | Some name =>
              let found := json_member d node name in
              if found =? NCFG_JSON_NONE then ([], None) else claim ([], None) found name
          | None => ([], None)
          end in
        '(v, c) <- fields_read fs what node base tagged;
        if json_count d node =? zlen c.1 then ret v
        else refuse (refuse_stray_member d (FType what fs tag) node c.1 c.2)
  end base
with fields_read (fs : ffields) (owner : string) (node : Z) (base : values fs) (c : claims) {struct fs}
    : R (values fs * claims) :=
  match fs as fs0 return values fs0 -> R (values fs0 * claims) with
  | FNil => fun _ => ret (tt, c)
  | FCons name flags k rest => fun base =>
      let found := json_member d node (bytes name) in
      if found =? NCFG_JSON_NONE then
        if has_flag flags NCFG_FF_REQUIRED then refuse (HAS_NO owner (bytes name))
        else '(vs, c) <- fields_read rest owner node (snd base) c; ret ((fst base, vs), c)
      else
        v <- read_one k (bytes name) owner found (fst base);
        '(vs, c) <- fields_read rest owner node (snd base) (claim c found (bytes name));
        ret ((v, vs), c)
  end base
with read_one (k : fkind) (name : list byte) (owner : string) (node : Z) (old : kvalue k) {struct k} : R (kvalue k) :=
  let what := OF name owner in
  if bool_decide (json_get_type d node = NCFG_JSON_NULL) && field_is_optional k then ret (kzero k)
  else
    match k as k0 return kvalue k0 -> R (kvalue k0) with
    | F_BOOL _ => fun _ => read_bool d node what
    | F_OPT_BOOL => fun _ => b <- read_bool d node what; ret (Some b)
    | F_INT low high _ => fun _ => read_bounded d node what low high
    | F_OPT_INT low high => fun _ => v <- read_bounded d node what low high; ret (Some v)
    | F_STR => fun _ => s <- field_string d node what; ret (Some s)
    | F_ENUM choices _ => fun _ => field_enum d choices node
    | F_OPT_ENUM choices => fun _ => v <- field_enum d choices node; ret (Some v)
    | F_STRUCT t => fun old => type_read t node old
    | F_OPT_STRUCT t => fun old =>
        base <- match old with
                | Some base => ret base
                | None => _ <- alloc; type_init t
                end;
        v <- type_read t node base;
        ret (Some v)
    | F_LIST t => fun _ =>
        read_array d name owner (fun child => base <- type_init t; type_read t child base) (zero t) node
    | F_CUSTOM_LIST c => fun _ =>
        read_array d name owner
          (fun child => base <- match cu_init c with Some init => init | None => ret (cu_zero c) end; cu_read c d child base)
          (cu_zero c) node
    | F_STR_LIST => fun _ =>
        read_array d name owner (fun child => s <- field_string d child (ENTRY_OF name owner); ret (Some s)) None node
    | F_INT_LIST low high => fun _ =>
        read_array d name owner (fun child => read_bounded d child (ENTRY_OF name owner) low high) 0 node
    | F_CUSTOM c => fun old => cu_read c d node old
    end old.
End Reading.

(** ** Writing *)

(** [omit]. *)
Definition omit (flags : Z) (k : fkind) : kvalue k -> bool :=
  if has_flag flags NCFG_FF_NULL_ABSENT then fun _ => false
  else
    match k return kvalue k -> bool with
    | F_BOOL _ => fun v =>
        if has_flag flags NCFG_FF_OMIT_TRUE && v then true else has_flag flags NCFG_FF_OMIT_FALSE && negb v
    | F_INT _ _ _ => fun v => has_flag flags NCFG_FF_OMIT_ZERO && (v =? 0)
    | F_OPT_BOOL => fun v => match v with None => true | Some _ => false end
    | F_OPT_INT _ _ => fun v => match v with None => true | Some _ => false end
    | F_OPT_ENUM _ => fun v => match v with None => true | Some _ => false end
    | F_STR => fun v => match v with None => true | Some _ => false end
    | F_OPT_STRUCT t => fun v => match v with None => true | Some _ => false end
    | F_LIST t => fun v => has_flag flags NCFG_FF_OMIT_EMPTY && match v with [] => true | _ => false end
    | F_CUSTOM_LIST c => fun v => has_flag flags NCFG_FF_OMIT_EMPTY && match v with [] => true | _ => false end
    | F_STR_LIST => fun v => has_flag flags NCFG_FF_OMIT_EMPTY && match v with [] => true | _ => false end
    | F_INT_LIST _ _ => fun v => has_flag flags NCFG_FF_OMIT_EMPTY && match v with [] => true | _ => false end
    | F_CUSTOM c => fun v => match cu_omit c with Some f => f v | None => false end
    | F_ENUM _ _ => fun _ => false
    | F_STRUCT t => fun _ => false
    end.

Definition write_enum (s : enum_set) (v : Z) : list call :=
  match enum_name s v with Some word => [STRING (Some word)] | None => [] end.

Definition in_object (calls : list call) : list call := OBJECT_BEGIN :: calls ++ [OBJECT_END].
Definition in_array (items : list (list call)) : list call := ARRAY_BEGIN :: concat items ++ [ARRAY_END].

(** [ncfg_type_write] and [write_one], as the calls they make of the writer. An
    absent struct never gets here: [omit] leaves it out. *)
Fixpoint type_write (t : ftype) : value t -> list call :=
  match t with FType _ fs _ => fields_write fs end
with fields_write (fs : ffields) : values fs -> list call :=
  match fs return values fs -> list call with
  | FNil => fun _ => []
  | FCons name flags k rest => fun v =>
      (if omit flags k (fst v) then [] else MEMBER (Some (bytes name)) :: write_one k (fst v)) ++ fields_write rest (snd v)
  end
with write_one (k : fkind) : kvalue k -> list call :=
  match k return kvalue k -> list call with
  | F_BOOL _ => fun v => [BOOL v]
  | F_OPT_BOOL => fun v => [BOOL (default false v)]
  | F_INT _ _ _ => fun v => [INT v]
  | F_OPT_INT _ _ => fun v => match v with Some v => [INT v] | None => [NULL_VALUE] end
  | F_STR => fun v => [STRING v]
  | F_ENUM choices _ => fun v => write_enum choices v
  | F_OPT_ENUM choices => fun v => write_enum choices (default 0 v)
  | F_STRUCT t => fun v => in_object (type_write t v)
  | F_OPT_STRUCT t => fun v => match v with Some v => in_object (type_write t v) | None => [] end
  | F_LIST t => fun v => in_array (map (fun x => in_object (type_write t x)) v)
  | F_CUSTOM_LIST c => fun v => in_array (map (cu_write c) v)
  | F_STR_LIST => fun v => in_array (map (fun s => [STRING s]) v)
  | F_INT_LIST _ _ => fun v => in_array (map (fun x => [INT x]) v)
  | F_CUSTOM c => fun v => cu_write c v
  end.

(** ** Structs a table can carry

    What the rest of the program may put in a struct: numbers in range, words
    of their set, strings without a NUL, nothing required absent. *)

Definition in_range (low high v : Z) : bool := (low <=? v) && (v <=? high).
Definition in_int (v : Z) : bool := in_range (- 2 ^ 31) (2 ^ 31 - 1) v.
Definition set_ok (s : enum_set) (v : Z) : bool := in_int v && match enum_name s v with Some _ => true | None => false end.
Definition str_ok (o : option (list byte)) : bool := match o with Some s => negb (has_nul s) | None => false end.
Definition opt_ok {A} (p : A -> bool) (o : option A) : bool := match o with Some x => p x | None => true end.

Fixpoint type_ok (t : ftype) : value t -> bool :=
  match t with FType _ fs _ => fields_ok fs end
with fields_ok (fs : ffields) : values fs -> bool :=
  match fs return values fs -> bool with
  | FNil => fun _ => true
  | FCons _ flags k rest => fun v =>
      negb (has_flag flags NCFG_FF_REQUIRED && omit flags k (fst v)) && kind_ok k (fst v) && fields_ok rest (snd v)
  end
with kind_ok (k : fkind) : kvalue k -> bool :=
  match k return kvalue k -> bool with
  | F_BOOL _ => fun _ => true
  | F_OPT_BOOL => fun _ => true
  | F_INT low high _ => in_range low high
  | F_OPT_INT low high => opt_ok (in_range low high)
  | F_STR => opt_ok (fun s => negb (has_nul s))
  | F_ENUM s _ => set_ok s
  | F_OPT_ENUM s => opt_ok (set_ok s)
  | F_STRUCT t => type_ok t
  | F_OPT_STRUCT t => opt_ok (type_ok t)
  | F_LIST t => forallb (type_ok t)
  | F_CUSTOM_LIST c => forallb (cu_ok c)
  | F_STR_LIST => forallb str_ok
  | F_INT_LIST low high => forallb (in_range low high)
  | F_CUSTOM c => cu_ok c
  end.
