(* ===== verification/FieldSpec.v ===== *)
(** * FieldSpec: what a table writes, the same table reads

    [Field.type_ok t v] says that the struct [v] is one the table [t] can carry.
    [type_lawful t] says that the table itself is
    coherent: a member that is left out has the value that reading nothing
    gives, the names are distinct, every set and every custom reads back what
    it writes. [table_read_back] is then the round trip for every table at
    once, by induction on tables. *)
From stdpp Require Import sets.
From S2P Require Import Prelude Lex LexFacts Wire WireSpec Decimal Json JsonFacts JsonSpec JsonRead JsonWrite JsonPrint JsonWriteSpec RequestRoundtrip Field.
#[local] Open Scope Z_scope.

(** ** Coherent tables *)

Definition grants (grant : nat -> bool) : Prop := forall n, grant n = true.

(** What initialisation leaves when memory is granted. *)
Definition cinit (c : custom) : cu_value c :=
  match cu_init c with
  | Some init => match init (fun _ => true) O with inr (v, _) => v | inl _ => cu_zero c end
  | None => cu_zero c
  end.

Fixpoint tinit (t : ftype) : value t :=
  match t with FType _ fs _ => finit fs end
with finit (fs : ffields) : values fs :=
  match fs with FNil => tt | FCons _ _ k rest => (kinit k, finit rest) end
with kinit (k : fkind) : kvalue k :=
  match k with
  | F_BOOL fallback => fallback
  | F_ENUM _ fallback => fallback
  | F_INT _ _ fallback => fallback
  | F_STRUCT t => tinit t
  | F_CUSTOM c => cinit c
  | k => kzero k
  end.

Definition set_from (s : enum_set) (word : list byte) : option Z :=
  match s with
  | VALUE_SET _ _ from_name => from_name word
  | WORD_SET _ names => index_of_word names word 0
  end.

Definition set_lawful (s : enum_set) : Prop :=
  forall v w, in_int v = true -> enum_name s v = Some w -> zlen w < 64 /\ has_nul w = false /\ set_from s w = Some v.

(** [reads read v t]: at any node that stands for [t], [read] answers [v]. *)
Definition reads {A} (read : doc -> Z -> R A) (v : A) (t : json) : Prop :=
  forall d i key grant n, grants grant -> value_at d i key t -> exists n', read d i grant n = inr (v, n').

Definition custom_omits (c : custom) (v : cu_value c) : bool := match cu_omit c with Some f => f v | None => false end.

Record custom_lawful (c : custom) : Prop := CustomLawful {
  cl_init : forall init grant n, cu_init c = Some init -> grants grant -> exists n', init grant n = inr (cinit c, n');
  cl_omit : forall v, cu_ok c v = true -> custom_omits c v = true -> v = cinit c;
  cl_write : forall v, cu_ok c v = true -> custom_omits c v = false ->
    exists t, emits (cu_write c v) t /\ reads (fun d i => cu_read c d i (cinit c)) v t }.

Definition range_lawful (low high : Z) : Prop := INT64_MIN <= low /\ high <= INT64_MAX.

Fixpoint type_lawful (t : ftype) : Prop :=
  match t with
  | FType _ fs tag =>
      (field_count fs + 1 <= CLAIMED_MAX)%nat /\ NoDup (field_names fs) /\
      (forall name, tag = Some name -> plain name /\ name ∉ field_names fs) /\ fields_lawful fs
  end
with fields_lawful (fs : ffields) : Prop :=
  match fs with
  | FNil => True
  | FCons name flags k rest => plain (bytes name) /\ kind_lawful flags k /\ fields_lawful rest
  end
with kind_lawful (flags : Z) (k : fkind) : Prop :=
  (has_flag flags NCFG_FF_NULL_ABSENT = true -> match k with F_OPT_INT _ _ => True | _ => False end) /\
  match k with
  | F_BOOL fallback =>
      (has_flag flags NCFG_FF_OMIT_TRUE = true -> fallback = true) /\ (has_flag flags NCFG_FF_OMIT_FALSE = true -> fallback = false)
  | F_INT low high fallback => range_lawful low high /\ (has_flag flags NCFG_FF_OMIT_ZERO = true -> fallback = 0)
  | F_OPT_INT low high | F_INT_LIST low high => range_lawful low high
  | F_ENUM s _ | F_OPT_ENUM s => set_lawful s
  | F_STRUCT t | F_OPT_STRUCT t | F_LIST t => type_lawful t
  | F_CUSTOM_LIST c => custom_lawful c /\ forall v, custom_omits c v = false
  | F_CUSTOM c => custom_lawful c
  | _ => True
  end.

Scheme ftype_rec_ind := Induction for ftype Sort Prop
  with ffields_rec_ind := Induction for ffields Sort Prop
  with fkind_rec_ind := Induction for fkind Sort Prop.
Combined Scheme table_ind from ftype_rec_ind, ffields_rec_ind, fkind_rec_ind.

(** ** Initialisation *)

Lemma custom_init_exact c grant n :
  custom_lawful c -> grants grant ->
  exists n', match cu_init c with Some init => init | None => ret (cu_zero c) end grant n = inr (cinit c, n').
Proof.
  intros Hc Hg. destruct (cu_init c) as [init|] eqn:E; [by apply (cl_init c Hc)|].
  exists n. unfold ret, cinit. by rewrite E.
Qed.

Lemma init_exact :
  (forall t, type_lawful t -> forall grant n, grants grant -> exists n', type_init t grant n = inr (tinit t, n')) /\
  (forall fs, fields_lawful fs -> forall grant n, grants grant -> exists n', fields_init fs grant n = inr (finit fs, n')) /\
  (forall k flags, kind_lawful flags k -> forall grant n, grants grant -> exists n', field_init k grant n = inr (kinit k, n')).
Proof.
  apply table_ind; intros; simpl in *; unfold ret; eauto.
  - destruct H0 as (_ & _ & _ & H0). by apply H.
  - destruct H1 as (_ & H1 & H3). unfold bind. destruct (H _ H1 grant n H2) as [n' ->]. destruct (H0 H3 grant n' H2) as [n'' ->].
    eauto.
  - destruct H0 as [_ H0]. by apply H.
  - destruct H as [_ H]. by apply custom_init_exact.
Qed.

(** ** Scalars *)

Lemma no_nul_plain s : has_nul s = false -> plain s.
Proof.
  unfold plain. induction s as [|b s IH]; [done|]. cbn [has_nul existsb to_nul]. intros [Hb Hs]%orb_false_iff.
  rewrite Hb. by rewrite IH.
Qed.

Lemma alloc_granted grant n : grants grant -> alloc grant n = inr (tt, S n).
Proof. intros Hg. unfold alloc. by rewrite Hg. Qed.

Lemma field_string_reads what s : has_nul s = false -> reads (fun d i => field_string d i what) s (JString s).
Proof.
  intros Hs d i key grant n Hg Hv. unfold field_string. rewrite (string_lookup _ _ _ _ Hv), Hs.
  unfold bind. rewrite alloc_granted by done. by eexists.
Qed.

Lemma read_int_reads d i key v : INT64_MIN <= v <= INT64_MAX -> value_at d i key (JNumber (num v)) -> read_int d i = Some v.
Proof.
  intros Hv Ha. unfold read_int. rewrite !(int_lookup _ _ _ _ _ Ha), (type_lookup _ _ _ _ Ha), num_int by done.
  simpl. by rewrite Z.eqb_refl.
Qed.

Lemma read_bounded_reads what low high v :
  range_lawful low high -> in_range low high v = true -> reads (fun d i => read_bounded d i what low high) v (JNumber (num v)).
Proof.
  intros [Hl Hh] Hr d i key grant n Hg Ha. unfold in_range in Hr. unbool. unfold read_bounded.
  rewrite (read_int_reads d i key v) by (done || lia).
  rewrite (proj2 (Z.ltb_ge _ _)), (proj2 (Z.ltb_ge _ _)) by lia. by eexists.
Qed.

Lemma read_bool_reads what b : reads (fun d i => read_bool d i what) b (JBool b).
Proof.
  intros d i key grant n Hg Ha. unfold read_bool. rewrite (type_lookup _ _ _ _ Ha), (bool_lookup _ _ _ _ _ Ha). by eexists.
Qed.

Lemma field_enum_reads s v w :
  set_lawful s -> in_int v = true -> enum_name s v = Some w -> reads (fun d i => field_enum d s i) v (JString w).
Proof.
  intros Hs Hi Hw d i key grant n Hg Ha. destruct (Hs _ _ Hi Hw) as (Hl & Hn & Hf). unfold field_enum.
  rewrite (string_lookup _ _ _ _ Ha), Hn, (proj2 (Z.leb_gt _ _)) by lia. simpl.
  destruct s; simpl in Hf; rewrite Hf; by eexists.
Qed.

(** ** Lists *)

Lemma read_children_walk {A} d i key ts (read : Z -> R A) blank changed grant :
  value_at d i key (JArray ts) ->
  forall l1 l2 vs n, ts = l1 ++ l2 ->
  Forall2 (fun t v => forall c m, value_at d c None t -> exists m', read c grant m = inr (v, m')) l2 vs ->
  exists n', read_children d read blank changed (length l2) (first l2 (i + 1 + sum_of size_of l1)) grant n = inr (vs, n').
Proof.
  intros Hv l1 l2 vs n Hts H2. revert l1 n Hts. induction H2 as [|t v l2 vs Ht _ IH]; intros l1 n Hts.
  { exists n. reflexivity. }
  pose proof (array_children _ _ _ _ Hv) as (nd & before & after & off & _ & _ & _ & _ & E & Hb & _).
  destruct (chain_walk size_of (fun t => zlen (text_of t)) lay_element (fun t b o n => layout_length t b o None n)
    (fun t b o => layout_next t b o None) d before ts after (i + 1) off E Hb (va_small _ _ _ _ Hv) l1 t l2 Hts)
    as (node & tl & Hlk & _ & Hnext & Hr).
  pose proof (element_value d i key ts l1 t l2 Hv Hts) as He.
  destruct (value_node _ _ _ _ He) as (node' & _ & _ & _ & _ & Hn & _ & _ & _ & Hlk').
  assert (node' = node) as -> by congruence.
  cbn [length first read_children]. destruct (Z.eqb_spec (i + 1 + sum_of size_of l1) NCFG_JSON_NONE); [lia|].
  rewrite Hn. unfold bind. destruct (Ht _ n He) as [n1 ->].
  rewrite Hnext. destruct (IH (l1 ++ [t]) n1) as [n2 ->]; [by rewrite <- app_assoc|]. by eexists.
Qed.

Lemma read_array_reads {A} name owner (read : doc -> Z -> R A) blank vs ts :
  Forall2 (reads read) vs ts ->
  reads (fun d i => read_array d name owner (read d) blank i) vs (JArray ts).
Proof.
  intros H2 d i key grant n Hg Hv.
  pose proof (array_children _ _ _ _ Hv) as (nd & before & after & off & Hn & Hty & Hfc & Hc & _).
  unfold read_array. rewrite Hn, Hty, bool_decide_eq_true_2, Hc by done.
  destruct H2 as [|v t vs ts Hvt H2]; [by eexists|].
  rewrite (proj2 (Z.eqb_neq _ _)) by (rewrite zlen_cons; pose proof (zlen_nonneg ts); lia).
  unfold bind. rewrite alloc_granted by done. unfold zlen. rewrite Nat2Z.id, Hfc.
  destruct (read_children_walk d i key (t :: ts) (read d) blank (LIST_CHANGED name owner) grant Hv [] (t :: ts) (v :: vs) (S n) eq_refl)
    as [n' E].
  - constructor; [intros c m Ht; by eapply Hvt|]. clear -H2 Hg. induction H2 as [|v t vs ts Hvt _ IH]; constructor; [|done].
    intros c m Ht. by eapply Hvt.
  - change (sum_of size_of []) with 0 in E. rewrite Z.add_0_r in E. by exists n'.
Qed.

(** Writing a list whose elements read back. *)
Lemma each_back {A} (read : doc -> Z -> R A) (write : A -> list call) (ok : A -> bool) vs :
  (forall v, ok v = true -> exists t, emits (write v) t /\ reads read v t) -> forallb ok vs = true ->
  exists ts, emits (in_array (map write vs)) (JArray ts) /\ Forall2 (reads read) vs ts.
Proof.
  intros H Hok. assert (exists ts, Forall2 emits (map write vs) ts /\ Forall2 (reads read) vs ts) as (ts & H1 & H2).
  { induction vs as [|v vs IH]; [by exists []|]. simpl in Hok. apply andb_true_iff in Hok as [Hv Hvs].
    destruct (H v Hv) as (t & He & Hr). destruct (IH Hvs) as (ts & H1 & H2). exists (t :: ts). by split; constructor. }
  exists ts. split; [by apply emits_array|done].
Qed.

Lemma array_back {A} (read : doc -> Z -> R A) blank (write : A -> list call) (ok : A -> bool) vs :
  (forall v, ok v = true -> exists t, emits (write v) t /\ reads read v t) -> forallb ok vs = true ->
  exists t, emits (in_array (map write vs)) t /\
    forall name owner, reads (fun d i => read_array d name owner (read d) blank i) vs t.
Proof.
  intros H Hok. destruct (each_back read write ok vs H Hok) as (ts & H1 & H2). exists (JArray ts). split; [done|]. intros. by apply read_array_reads.
Qed.

(** ** Members *)

Definition kv_at (l : list (list byte * json)) (name : list byte) : option (list byte * json) :=
  find (fun kv => bytes_eqb (fst kv) name) l.

Definition kind_back (k : fkind) : Prop := forall flags, kind_lawful flags k -> forall v, kind_ok k v = true ->
  (omit flags k v = true -> v = kinit k) /\
  (omit flags k v = false -> exists t, emits (write_one k v) t /\
     forall name owner, reads (fun d i => read_one d k name owner i (kinit k)) v t).

Definition fields_back (fs : ffields) : Prop := fields_lawful fs -> forall v, fields_ok fs v = true ->
  exists kvs, adds (fields_write fs v) kvs /\ sublist kvs.*1 (field_names fs) /\
    forall d i key l c owner grant n, grants grant -> NoDup (field_names fs) -> value_at d i key (JObject l) ->
    (forall name, name ∈ field_names fs -> kv_at l name = kv_at kvs name) ->
    exists n' c', fields_read d fs owner i (finit fs) c grant n = inr ((v, c'), n') /\
      length (fst c') = (length (fst c) + length kvs)%nat.

Definition type_back (t : ftype) : Prop := type_lawful t -> forall v, type_ok t v = true ->
  exists kvs, adds (type_write t v) kvs /\ sublist kvs.*1 (field_names (type_fields t)) /\
    forall d i key pre grant n, grants grant ->
      (pre = [] \/ exists name x, type_tag t = Some name /\ pre = [(name, x)]) ->
      value_at d i key (JObject (pre ++ kvs)) ->
      exists n', type_read d t i (tinit t) grant n = inr (v, n').

Lemma kv_none l name : name ∉ l.*1 -> kv_at l name = None.
Proof. apply find_member_none. Qed.

Lemma kv_app pre l name : name ∉ pre.*1 -> kv_at (pre ++ l) name = kv_at l name.
Proof.
  unfold kv_at. induction pre as [|[k x] pre IH]; [done|]. simpl. intros [Hk Hp]%not_elem_of_cons.
  destruct (bytes_eqb k name) eqn:E; [by apply bytes_eqb_true in E|]. by apply IH.
Qed.

Lemma sublist_elem {A} (l k : list A) x : sublist l k -> x ∈ l -> x ∈ k.
Proof. intros H. induction H; set_solver. Qed.

(** A member that is written reads back; one that is left out is what was there. *)
Lemma kv_present d i key l name t :
  value_at d i key (JObject l) -> kv_at l name = Some (name, t) ->
  value_at d (json_member d i name) (Some name) t /\ (json_member d i name =? NCFG_JSON_NONE) = false.
Proof.
  intros Hv Hm. pose proof (member_lookup d i key l name Hv) as Hl. fold (kv_at l name) in Hl. rewrite Hm in Hl.
  split; [done|]. destruct (value_node _ _ _ _ Hl) as (? & ? & ? & ? & ? & _ & _ & _ & Hr & _). apply Z.eqb_neq. lia.
Qed.

Lemma kv_absent d i key l name :
  value_at d i key (JObject l) -> kv_at l name = None -> (json_member d i name =? NCFG_JSON_NONE) = true.
Proof.
  intros Hv Hm. pose proof (member_lookup d i key l name Hv) as Hl. fold (kv_at l name) in Hl. rewrite Hm in Hl.
  by apply Z.eqb_eq.
Qed.

Lemma fields_back_cons name flags k rest :
  kind_back k -> fields_back rest -> fields_back (FCons name flags k rest).
Proof.
  intros Hk Hr (Hp & Hlk & Hlr) [v vs] Hok. simpl in Hok.
  apply andb_true_iff in Hok as [[Hreq Hokv]%andb_true_iff Hokr]. apply negb_true_iff in Hreq.
  destruct (Hk flags Hlk v Hokv) as [Homit Hwrite]. destruct (Hr Hlr vs Hokr) as (kvs & Ha & Hsub & Hread).
  destruct (omit flags k v) eqn:Eo.
  - exists kvs. cbn [fields_write field_names fst snd]. rewrite Eo. split; [done|]. split; [by constructor|].
    intros d i key l c owner grant n Hg Hnd Hv Hmem. apply NoDup_cons in Hnd as [Hnin Hnd].
    cbn [fields_read field_names finit fst snd] in *.
    rewrite (kv_absent d i key l _ Hv).
    2: { rewrite (Hmem _ (list_elem_of_here _ _)). apply kv_none. intros Hin. apply Hnin. by eapply sublist_elem. }
    rewrite andb_true_r in Hreq. rewrite Hreq. unfold bind.
    destruct (Hread d i key l c owner grant n Hg Hnd Hv) as (n' & c' & -> & Hc); [intros x Hx; apply Hmem; by constructor|].
    exists n', c'. by rewrite <- Homit.
  - destruct (Hwrite eq_refl) as (t & He & Hrd). exists ((bytes name, t) :: kvs). cbn [fields_write field_names fst snd]. rewrite Eo.
    split; [apply (adds_app _ [_]); [by apply adds_member|done]|]. split; [by constructor|].
    intros d i key l c owner grant n Hg Hnd Hv Hmem. apply NoDup_cons in Hnd as [Hnin Hnd].
    cbn [fields_read field_names finit fst snd] in *.
    destruct (kv_present d i key l (bytes name) t Hv) as [Ht ->].
    { rewrite (Hmem _ (list_elem_of_here _ _)). unfold kv_at. simpl. by rewrite bytes_eqb_refl. }
    unfold bind. destruct (Hrd (bytes name) owner d _ _ grant n Hg Ht) as [n1 ->].
    destruct (Hread d i key l (claim c (json_member d i (bytes name)) (bytes name)) owner grant n1 Hg Hnd Hv) as (n' & c' & -> & Hc).
    { intros x Hx. rewrite (Hmem x) by (by constructor). unfold kv_at. simpl.
      destruct (bytes_eqb (bytes name) x) eqn:E; [|done]. apply bytes_eqb_true in E. by subst x. }
    exists n', c'. split; [done|]. rewrite Hc. simpl. rewrite length_app. simpl. lia.
Qed.

Lemma type_back_fields what fs tag : fields_back fs -> type_back (FType what fs tag).
Proof.
  intros Hf (Hcount & Hnd & Htag & Hl) v Hok. destruct (Hf Hl v Hok) as (kvs & Ha & Hsub & Hread).
  exists kvs. split; [done|]. split; [done|]. intros d i key pre grant n Hg Hpre Hv. cbn [type_read tinit type_tag type_fields] in *.
  rewrite (type_lookup _ _ _ _ Hv). rewrite bool_decide_eq_true_2 by done.
  rewrite (proj2 (Nat.ltb_ge _ _)) by done.
  assert (forall name, name ∈ field_names fs -> name ∉ pre.*1) as Hfresh.
  { destruct Hpre as [->|(name & x & Et & ->)]; [set_solver|]. destruct (Htag _ Et) as [_ Hn]. set_solver. }
  set (tagged := match tag with Some name => _ | None => _ end).
  assert (length (fst tagged) = length pre) as Hlen.
  { unfold tagged. destruct Hpre as [->|(name & x & -> & ->)].
    - destruct tag as [name|]; [|done]. rewrite (kv_absent d i key _ name Hv); [done|].
      apply kv_none. intros Hin. destruct (Htag name eq_refl) as [_ Hn]. apply Hn. by eapply sublist_elem.
    - destruct (kv_present d i key _ name x Hv) as [_ ->]; [|done]. unfold kv_at. simpl. by rewrite bytes_eqb_refl. }
  cbn [negb]. unfold bind. destruct (Hread d i key _ tagged what grant n Hg Hnd Hv) as (n' & c' & -> & Hc).
  { intros name Hn. apply kv_app. by apply Hfresh. }
  rewrite (count_lookup_object _ _ _ _ Hv). rewrite (proj2 (Z.eqb_eq _ _)); [by eexists|].
  unfold zlen. rewrite length_app. lia.
Qed.

(** ** Kinds *)

(** Enters a kind that is never written as null. *)
Ltac enter_kind :=
  let Hn := fresh in
  intros flags [Hn Hl] v Hok; unfold omit; destruct (has_flag flags NCFG_FF_NULL_ABSENT) eqn:?; [by destruct (Hn eq_refl)|];
  clear Hn; cbn [kind_ok write_one kinit kzero kind_lawful] in *; split.

(** A reader that answers in an optional. *)
Lemma reads_some {A} (read : doc -> Z -> R A) v t :
  reads read v t -> t <> JNull ->
  reads (fun d i => if bool_decide (json_get_type d i = NCFG_JSON_NULL) && true then ret None else bind (read d i) (fun x => ret (Some x))) (Some v) t.
Proof.
  intros H Ht d i key grant n Hg Hv. rewrite (type_lookup _ _ _ _ Hv), bool_decide_eq_false_2 by (by destruct t).
  cbn [andb]. unfold bind. destruct (H d i key grant n Hg Hv) as [n' ->]. by eexists.
Qed.

Lemma reads_plain {A} (read : doc -> Z -> R A) alt v t :
  reads read v t -> reads (fun d i => if bool_decide (json_get_type d i = NCFG_JSON_NULL) && false then alt else read d i) v t.
Proof. intros H d i key grant n Hg Hv. rewrite andb_false_r. by eapply H. Qed.

Lemma enum_emits s v : set_lawful s -> set_ok s v = true ->
  exists w, emits (write_enum s v) (JString w) /\ reads (fun d i => field_enum d s i) v (JString w).
Proof.
  unfold set_ok, write_enum. intros Hs [Hi Hv]%andb_true_iff. destruct (enum_name s v) as [w|] eqn:E; [|done]. exists w. split.
  - apply emits_string, no_nul_plain. by apply (Hs _ _ Hi E).
  - by apply field_enum_reads.
Qed.

Lemma bool_back fallback : kind_back (F_BOOL fallback).
Proof.
  enter_kind.
  - destruct Hl as [Ht Hf]. destruct v; [rewrite andb_true_r, andb_false_r|rewrite andb_false_r, andb_true_r]; intros H.
    + symmetry. apply Ht. by destruct (has_flag flags NCFG_FF_OMIT_TRUE).
    + symmetry. by apply Hf.
  - intros _. exists (JBool v). split; [apply emits_bool|]. intros. apply reads_plain, read_bool_reads.
Qed.

Lemma opt_bool_back : kind_back F_OPT_BOOL.
Proof.
  enter_kind; destruct v as [b|]; try done. intros _. exists (JBool b). split; [apply emits_bool|]. intros.
  by apply reads_some; [apply read_bool_reads|].
Qed.

Lemma int_back low high fallback : kind_back (F_INT low high fallback).
Proof.
  enter_kind; destruct Hl as [Hl Hz].
  - intros [Hf ->%Z.eqb_eq]%andb_true_iff. symmetry. by apply Hz.
  - intros _. exists (JNumber (num v)). split; [|intros; by apply reads_plain, read_bounded_reads].
    apply emits_int. unfold in_range in Hok. unbool. destruct Hl. lia.
Qed.

Lemma opt_int_back low high : kind_back (F_OPT_INT low high).
Proof.
  intros flags [_ Hl] v Hok. unfold omit. cbn [kind_ok write_one kinit kzero kind_lawful] in *. destruct v as [v|]; split; try done.
  - by destruct (has_flag _ _).
  - intros _. exists (JNumber (num v)). split; [|intros; by apply reads_some; [apply read_bounded_reads|]].
    apply emits_int. simpl in Hok. unfold in_range in Hok. unbool. destruct Hl. lia.
  - intros _. exists JNull. split; [apply emits_null|]. intros name owner d i key grant n Hg Hv. cbn [read_one].
    rewrite (type_lookup _ _ _ _ Hv). by eexists.
Qed.

Lemma str_back : kind_back F_STR.
Proof.
  enter_kind; destruct v as [s|]; try done. intros _. exists (JString s). simpl in Hok. apply negb_true_iff in Hok.
  split; [by apply emits_string, no_nul_plain|]. intros. by apply reads_some; [apply field_string_reads|].
Qed.

Lemma enum_back s fallback : kind_back (F_ENUM s fallback).
Proof.
  enter_kind; [done|]. intros _. destruct (enum_emits s v Hl Hok) as (w & He & Hr). exists (JString w).
  split; [done|]. intros. by apply reads_plain.
Qed.

Lemma opt_enum_back s : kind_back (F_OPT_ENUM s).
Proof.
  enter_kind; destruct v as [v|]; try done. intros _. destruct (enum_emits s v Hl Hok) as (w & He & Hr). exists (JString w).
  split; [done|]. intros. by apply reads_some.
Qed.

(** What [type_back] says of a struct in an object of its own. *)
Lemma object_back t v : type_back t -> type_lawful t -> type_ok t v = true ->
  exists kvs, emits (in_object (type_write t v)) (JObject kvs) /\ reads (fun d i => type_read d t i (tinit t)) v (JObject kvs).
Proof.
  intros Ht Hl Hok. destruct (Ht Hl v Hok) as (kvs & Ha & _ & Hr). exists kvs. split; [by apply emits_object|].
  intros d i key grant n Hg Hv. apply (Hr d i key [] grant n Hg); auto.
Qed.

Lemma struct_back t : type_back t -> kind_back (F_STRUCT t).
Proof.
  intros Ht. enter_kind; [done|]. intros _. destruct (object_back t v Ht Hl Hok) as (kvs & He & Hr). exists (JObject kvs).
  split; [done|]. intros. by apply reads_plain.
Qed.

(** A struct read into memory that was just initialised. *)
Lemma fresh_reads t v kvs : type_lawful t ->
  reads (fun d i => type_read d t i (tinit t)) v (JObject kvs) ->
  reads (fun d i => bind (type_init t) (fun base => type_read d t i base)) v (JObject kvs).
Proof.
  intros Hl Hr d i key grant n Hg Hv. unfold bind. destruct (proj1 init_exact t Hl grant n Hg) as [n' ->].
  by apply (Hr d i key grant n').
Qed.

Lemma opt_struct_back t : type_back t -> kind_back (F_OPT_STRUCT t).
Proof.
  intros Ht. enter_kind; destruct v as [v|]; try done. intros _.
  destruct (object_back t v Ht Hl Hok) as (kvs & He & Hr). exists (JObject kvs). split; [done|]. intros.
  intros d i key grant n Hg Hv. cbn [read_one kinit kzero].
  rewrite (type_lookup _ _ _ _ Hv), bool_decide_eq_false_2 by done. cbn [andb].
  destruct (fresh_reads t v kvs Hl Hr d i key grant (S n) Hg Hv) as [n' E]. exists n'. unfold bind in *.
  rewrite alloc_granted by done. destruct (type_init t grant (S n)) as [|[base m]]; [done|]. by rewrite E.
Qed.

Lemma omitted_nil flags {A : Type} (v : list A) :
  has_flag flags NCFG_FF_OMIT_EMPTY && match v with [] => true | _ => false end = true -> v = [].
Proof. destruct (has_flag _ _), v; done. Qed.

Lemma list_back t : type_back t -> kind_back (F_LIST t).
Proof.
  intros Ht. enter_kind; [apply omitted_nil|]. intros _.
  destruct (array_back (fun d child => bind (type_init t) (fun base => type_read d t child base)) (zero t)
    (fun x => in_object (type_write t x)) (type_ok t) v) as (a & He & Hr); [|done|].
  { intros x Hx. destruct (object_back t x Ht Hl Hx) as (kvs & ? & ?). exists (JObject kvs). split; [done|by apply fresh_reads]. }
  exists a. split; [done|]. intros. apply reads_plain, Hr.
Qed.

Lemma custom_back c : kind_back (F_CUSTOM c).
Proof.
  enter_kind; [by apply (cl_omit c Hl)|]. intros Ho. destruct (cl_write c Hl v Hok Ho) as (t & He & Hr). exists t.
  split; [done|]. intros. by apply reads_plain.
Qed.

Lemma custom_list_back c : kind_back (F_CUSTOM_LIST c).
Proof.
  enter_kind; [apply omitted_nil|]. intros _. destruct Hl as [Hl Hno].
  destruct (array_back (fun d child => bind match cu_init c with Some init => init | None => ret (cu_zero c) end (fun base => cu_read c d child base))
    (cu_zero c) (cu_write c) (cu_ok c) v) as (a & He & Hr); [|done|].
  { intros x Hx. destruct (cl_write c Hl x Hx (Hno x)) as (t & ? & Hx'). exists t. split; [done|]. intros d i key grant n Hg Hv.
    unfold bind. destruct (custom_init_exact c grant n Hl Hg) as [n' ->]. by apply (Hx' d i key grant n'). }
  exists a. split; [done|]. intros. apply reads_plain, Hr.
Qed.

Lemma str_list_back : kind_back F_STR_LIST.
Proof.
  enter_kind; [apply omitted_nil|]. intros _. assert (exists ss, v = map Some ss /\ forallb (fun s => negb (has_nul s)) ss = true) as (ss & -> & Hs).
  { clear -Hok. induction v as [|[s|] v IH]; [by exists []| |done]. simpl in Hok. apply andb_true_iff in Hok as [Hs Hv].
    destruct (IH Hv) as (ss & -> & Hss). exists (s :: ss). simpl. by rewrite Hs, Hss. }
  assert (Forall2 emits (map (fun s => [STRING s]) (map Some ss)) (map JString ss)) as He.
  { rewrite map_map. clear Hok. induction ss as [|s ss IH]; [constructor|]. simpl in Hs. apply andb_true_iff in Hs as [Hs Hss].
    constructor; [|by apply IH]. by apply emits_string, no_nul_plain, negb_true_iff. }
  exists (JArray (map JString ss)). split; [by apply emits_array|]. intros name owner. apply reads_plain.
  apply (read_array_reads name owner (fun d child => bind (field_string d child (ENTRY_OF name owner)) (fun s => ret (Some s))) None).
  clear Hok He. induction ss as [|s ss IH]; [constructor|]. simpl in Hs. apply andb_true_iff in Hs as [Hs%negb_true_iff Hss].
  constructor; [|by apply IH]. intros d i key grant n Hg Hv. unfold bind.
  destruct (field_string_reads (ENTRY_OF name owner) s Hs d i key grant n Hg Hv) as [n' ->]. by eexists.
Qed.

Lemma int_list_back low high : kind_back (F_INT_LIST low high).
Proof.
  enter_kind; [apply omitted_nil|]. intros _.
  assert (Forall2 emits (map (fun x => [INT x]) v) (map (fun x => JNumber (num x)) v)) as He.
  { clear -Hok Hl. induction v as [|x v IH]; [constructor|]. simpl in Hok. apply andb_true_iff in Hok as [Hx Hv].
    constructor; [|by apply IH]. apply emits_int. unfold in_range in Hx. unbool. destruct Hl. lia. }
  exists (JArray (map (fun x => JNumber (num x)) v)). split; [by apply emits_array|]. intros name owner. apply reads_plain.
  apply (read_array_reads name owner (fun d child => read_bounded d child (ENTRY_OF name owner) low high) 0).
  clear He. induction v as [|x v IH]; [constructor|]. simpl in Hok. apply andb_true_iff in Hok as [Hx Hv].
  constructor; [|by apply IH]. by apply read_bounded_reads.
Qed.

Lemma fields_back_nil : fields_back FNil.
Proof.
  intros _ [] _. exists []. split; [apply adds_nil|]. split; [constructor|]. intros. eexists _, _. split; [done|]. simpl. lia.
Qed.

Lemma tables_back : (forall t, type_back t) /\ (forall fs, fields_back fs) /\ (forall k, kind_back k).
Proof.
  apply table_ind; intros.
  - by apply type_back_fields.
  - apply fields_back_nil.
  - by apply fields_back_cons.
  - apply bool_back.
  - apply opt_bool_back.
  - apply int_back.
  - apply opt_int_back.
  - apply str_back.
  - apply enum_back.
  - apply opt_enum_back.
  - by apply struct_back.
  - by apply opt_struct_back.
  - by apply list_back.
  - apply custom_list_back.
  - apply str_list_back.
  - apply int_list_back.
  - apply custom_back.
Qed.
