(* ===== verification/Document.v ===== *)
(** * Document: the tables of the desired-state document

    [model/document.c]: every table, set and custom of the document, in the
    order of the source. A [fields] list is one [ncfg_field_t] array: the name,
    the flags, and the kind with its range, default, set, type or custom. A
    tagged union of the source is a struct with an arm per tag, of which the
    tag's is the only one that is read or written; here it is a [union], the
    tag with the struct of its arm. Each [.._ok] says which values of a custom
    the rest of the program may store; it is part of the specification. *)
From S2P Require Import Prelude Lex Wire Value Json JsonWrite DocText Field.
#[local] Open Scope string_scope.
#[local] Open Scope list_scope.
#[local] Open Scope Z_scope.
#[local] Open Scope field_scope.

Fixpoint fields (l : list (string * Z * fkind)) : ffields :=
  match l with [] => FNil | (name, flags, kind) :: l => FCons name flags kind (fields l) end.

(** ** Ranges *)

Definition R_U8 : Z * Z := (0, 255).
Definition R_U16 : Z * Z := (0, 65535).
Definition R_U32 : Z * Z := (0, 4294967295).
Definition R_U64 : Z * Z := (0, INT64_MAX).
Definition R_I32 : Z * Z := (-2147483647 - 1, 2147483647).

(** A field whose initialiser names no range. *)
Definition NO_RANGE : Z * Z := (0, 0).

Definition INT_IN (r : Z * Z) (fallback : Z) : fkind := F_INT r.1 r.2 fallback.
Definition OPT_INT_IN (r : Z * Z) : fkind := F_OPT_INT r.1 r.2.
Definition INT_LIST_IN (r : Z * Z) : fkind := F_INT_LIST r.1 r.2.

(** ** The enumerators the tables name *)

Definition NCFG_ADDRESS_SOURCE_DELEGATED : Z := 1.
Definition NCFG_ADDRESS_SOURCE_DHCP4 : Z := 2.
Definition NCFG_ADDRESS_SOURCE_DHCP6 : Z := 3.
Definition NCFG_ADDRESS_SOURCE_LINK_LOCAL : Z := 5.
Definition NCFG_ADDRESS_SOURCE_SLAAC : Z := 4.
Definition NCFG_ADDRESS_SOURCE_STATIC : Z := 0.
Definition NCFG_BOND_MODE_ACTIVE_BACKUP : Z := 1.
Definition NCFG_DHCP4_BACKEND_AUTO : Z := 0.
Definition NCFG_DHCP6_MODE_MANAGED : Z := 0.
Definition NCFG_DNS_MODE_EXEC : Z := 7.
Definition NCFG_DRIFT_POLICY_RECONCILE : Z := 1.
Definition NCFG_HOSTNAME_MODE_NONE : Z := 0.
Definition NCFG_HOSTNAME_POLICY_STATIC : Z := 2.
Definition NCFG_KIND_BOND : Z := 2.
Definition NCFG_KIND_BRIDGE : Z := 1.
Definition NCFG_KIND_DUMMY : Z := 8.
Definition NCFG_KIND_IFB : Z := 14.
Definition NCFG_KIND_MACVLAN : Z := 11.
Definition NCFG_KIND_MESH_POINT : Z := 15.
Definition NCFG_KIND_OPENVPN : Z := 7.
Definition NCFG_KIND_PPPOE : Z := 6.
Definition NCFG_KIND_RADIO : Z := 16.
Definition NCFG_KIND_TUN : Z := 13.
Definition NCFG_KIND_TUNNEL : Z := 12.
Definition NCFG_KIND_VETH : Z := 9.
Definition NCFG_KIND_VLAN : Z := 3.
Definition NCFG_KIND_VRF : Z := 10.
Definition NCFG_KIND_VXLAN : Z := 4.
Definition NCFG_KIND_WIREGUARD : Z := 5.
Definition NCFG_MACVLAN_MODE_PRIVATE : Z := 0.
Definition NCFG_MAC_POLICY_PERMANENT : Z := 0.
Definition NCFG_NETWORKING_ON : Z := 0.
Definition NCFG_ON_UNMANAGE_LEAVE : Z := 0.
Definition NCFG_POWERSAVE_DEFAULT : Z := 0.
Definition NCFG_PRINCIPAL_GROUP : Z := 3.
Definition NCFG_PRINCIPAL_USER : Z := 2.
Definition NCFG_PSK_PROTO_WPA2_WPA3 : Z := 2.
Definition NCFG_RA_BACKEND_EXEC : Z := 3.
Definition NCFG_REQUIRES_ROUTE : Z := 0.
Definition NCFG_RULE_ACTION_LOOKUP : Z := 0.
Definition NCFG_RULE_FAMILY_INET : Z := 0.
Definition NCFG_SECRET_PROVIDER_FILE : Z := 0.
Definition NCFG_SECURITY_EAP : Z := 2.
Definition NCFG_SECURITY_OWE : Z := 3.
Definition NCFG_SECURITY_PSK : Z := 1.
Definition NCFG_SLAAC_PRIVACY_NONE : Z := 0.
Definition NCFG_TUN_MODE_TUN : Z := 0.
Definition NCFG_VLAN_PROTOCOL_DOT1Q : Z := 0.
Definition NCFG_WIFI_BACKEND_AUTO : Z := 0.

(** ** The six sets [value.h] owns, through [VALUE_SHIM] *)

Definition shim_name (name : Z -> option string) (v : Z) : option (list byte) := bytes <$> name v.
Definition shim_read (from_name : option string -> option Z) (word : list byte) : option Z :=
  from_name (Some (String.string_of_list_byte word)).

(** ** Tagged unions *)

Definition union (arm : Z -> ftype) : Set := {kind : Z & value (arm kind)}.

Definition union_read (what : string) (set : enum_set) (tag : string) (arm : Z -> ftype) (d : doc) (node : Z) : R (union arm) :=
  if negb (bool_decide (json_get_type d node = NCFG_JSON_OBJECT)) then refuse (REFUSED (what +:+ " is an object, and this is not one"))
  else
    let found := json_member d node (bytes tag) in
    if found =? NCFG_JSON_NONE then refuse (REFUSED (what +:+ " has no `" +:+ tag +:+ "`"))
    else
      kind <- field_enum d set found;
      base <- type_init (arm kind);
      v <- type_read d (arm kind) node base;
      ret (existT kind v).

Definition union_write (set : enum_set) (tag : string) (arm : Z -> ftype) (u : union arm) : list call :=
  in_object (match enum_name set (projT1 u) with
             | Some word => [MEMBER (Some (bytes tag)); STRING (Some word)]
             | None => []
             end ++ type_write (arm (projT1 u)) (projT2 u)).

Definition union_ok (arm : Z -> ftype) (set : enum_set) (u : union arm) : bool :=
  set_ok set (projT1 u) && type_ok (arm (projT1 u)) (projT2 u).

Definition union_custom (arm : Z -> ftype) (set : enum_set) (read : doc -> Z -> union arm -> R (union arm))
    (write : union arm -> list call) : custom :=
  Custom (union arm) (existT 0 (zero (arm 0))) read write None None (union_ok arm set).

(** The loop over words of [ra_backend_read] and its like. *)
Fixpoint string_among (d : doc) (node : Z) (words : list string) (i : Z) : option Z :=
  match words with
  | [] => None
  | w :: words => if json_string_equals d node (bytes w) then Some i else string_among d node words (i + 1)
  end.

Definition write_word (words : list string) (kind : Z) : list call :=
  if (kind >=? 0) && (kind <? zlen words) then [STRING (bytes <$> words !! Z.to_nat kind)] else [].

Section Document.
Context {I : Inet}.

Definition hook_phase_set : enum_set := VALUE_SET "hook phase" (shim_name hook_phase_word) (shim_read hook_phase_from_name).
Definition rule_action_set : enum_set := VALUE_SET "rule action" (shim_name rule_action_name) (shim_read rule_action_from_name).
Definition rule_family_set : enum_set := VALUE_SET "rule family" (shim_name rule_family_name) (shim_read rule_family_from_name).
Definition bluetooth_profile_set : enum_set := VALUE_SET "bluetooth profile" (shim_name bluetooth_profile_name) (shim_read bluetooth_profile_from_name).
Definition drift_policy_set : enum_set := VALUE_SET "drift policy" (shim_name drift_policy_name) (shim_read drift_policy_from_name).
Definition dns_mode_set : enum_set := VALUE_SET "dns mode" (shim_name dns_mode_name) (shim_read dns_mode_from_name).
Definition secret_provider_words : list string := ["file"; "keyring"; "pass"; "exec"; "estate"].
Definition secret_provider_set : enum_set := WORD_SET "secret provider" secret_provider_words.
Definition hostname_mode_words : list string := ["none"; "send"; "send_fqdn"].
Definition hostname_mode_set : enum_set := WORD_SET "hostname mode" hostname_mode_words.
Definition dhcp4_backend_words : list string := ["auto"; "dhcpcd"; "udhcpc"; "builtin"].
Definition dhcp4_backend_set : enum_set := WORD_SET "dhcp4 backend" dhcp4_backend_words.
Definition dhcp6_mode_words : list string := ["managed"; "other_conf"].
Definition dhcp6_mode_set : enum_set := WORD_SET "dhcp6 mode" dhcp6_mode_words.
Definition slaac_privacy_words : list string := ["none"; "prefer_temporary"].
Definition slaac_privacy_set : enum_set := WORD_SET "slaac privacy" slaac_privacy_words.
Definition address_source_words : list string := ["static"; "delegated"; "dhcp4"; "dhcp6"; "slaac"; "link_local"; "reported"].
Definition address_source_set : enum_set := WORD_SET "addressing source" address_source_words.
Definition route_scope_words : list string := ["global"; "link"; "host"].
Definition route_scope_set : enum_set := WORD_SET "route scope" route_scope_words.
Definition dnssec_words : list string := ["no"; "allow"; "yes"].
Definition dnssec_set : enum_set := WORD_SET "dnssec posture" dnssec_words.
Definition dns_transport_words : list string := ["plain"; "tls"; "https"].
Definition dns_transport_set : enum_set := WORD_SET "dns transport" dns_transport_words.
Definition eap_method_words : list string := ["peap"; "ttls"; "tls"; "pwd"].
Definition eap_method_set : enum_set := WORD_SET "eap method" eap_method_words.
Definition psk_proto_words : list string := ["wpa2"; "wpa3"; "wpa2_wpa3"].
Definition psk_proto_set : enum_set := WORD_SET "wpa generation" psk_proto_words.
Definition security_words : list string := ["open"; "psk"; "eap"; "owe"].
Definition security_set : enum_set := WORD_SET "security type" security_words.
Definition vlan_protocol_words : list string := ["dot1q"; "dot1ad"].
Definition vlan_protocol_set : enum_set := WORD_SET "vlan protocol" vlan_protocol_words.
Definition bond_mode_words : list string := ["balance-rr"; "active-backup"; "balance-xor"; "broadcast"; "802.3ad"; "balance-tlb"; "balance-alb"].
Definition bond_mode_set : enum_set := WORD_SET "bond mode" bond_mode_words.
Definition macvlan_mode_words : list string := ["private"; "vepa"; "bridge"; "passthru"].
Definition macvlan_mode_set : enum_set := WORD_SET "macvlan mode" macvlan_mode_words.
Definition tunnel_kind_words : list string := ["gre"; "gretap"; "ip6gre"; "ipip"; "sit"; "ip6tnl"; "geneve"].
Definition tunnel_kind_set : enum_set := WORD_SET "tunnel encapsulation" tunnel_kind_words.
Definition tun_mode_words : list string := ["tun"; "tap"].
Definition tun_mode_set : enum_set := WORD_SET "tun mode" tun_mode_words.
Definition interface_kind_words : list string := ["physical"; "bridge"; "bond"; "vlan"; "vxlan"; "wire_guard"; "pppoe"; "open_vpn"; "dummy"; "veth"; "vrf"; "macvlan"; "tunnel"; "tun"; "ifb"; "mesh_point"; "radio"].
Definition interface_kind_set : enum_set := WORD_SET "interface kind" interface_kind_words.
Definition qdisc_kind_words : list string := ["fq_codel"; "cake"; "fq"; "pfifo_fast"; "noqueue"].
Definition qdisc_kind_set : enum_set := WORD_SET "queueing discipline" qdisc_kind_words.
Definition toggle_words : list string := ["unmanaged"; "on"; "off"].
Definition toggle_set : enum_set := WORD_SET "toggle" toggle_words.
Definition wifi_backend_words : list string := ["auto"; "iwd"; "wpa_supplicant"].
Definition wifi_backend_set : enum_set := WORD_SET "wifi backend" wifi_backend_words.
Definition powersave_words : list string := ["default"; "on"; "off"].
Definition powersave_set : enum_set := WORD_SET "powersave setting" powersave_words.
Definition mac_policy_words : list string := ["permanent"; "per_network"; "per_connection"].
Definition mac_policy_set : enum_set := WORD_SET "mac policy" mac_policy_words.
Definition on_unmanage_words : list string := ["leave"; "clear"].
Definition on_unmanage_set : enum_set := WORD_SET "unmanage policy" on_unmanage_words.
Definition acl_policy_words : list string := ["deny"; "allow"].
Definition acl_policy_set : enum_set := WORD_SET "access control policy" acl_policy_words.
Definition requires_words : list string := ["route"; "probe"; "address"].
Definition requires_set : enum_set := WORD_SET "connectivity requirement" requires_words.
Definition networking_words : list string := ["on"; "off"].
Definition networking_set : enum_set := WORD_SET "networking setting" networking_words.
Definition cert_source_words : list string := ["path"; "stored"].
Definition principal_words : list string := ["root"; "any"; "user"; "group"].
Definition hostname_policy_words : list string := ["none"; "from_dhcp"; "static"].
Definition ra_backend_words : list string := ["auto"; "odhcpd"; "radvd"; "exec"].
Definition language_kind_words : list string := ["physical"; "bridge"; "bond"; "vlan"; "vxlan"; "wireguard"; "pppoe"; "openvpn"; "dummy"; "veth"; "vrf"; "macvlan"; "tunnel"; "tun"; "ifb"; "mesh_point"; "radio"].
Definition language_kind_set : enum_set := WORD_SET "interface kind" language_kind_words.
Definition offload_gro : list string := ["rx-gro"].
Definition offload_gso : list string := ["tx-generic-segmentation"].
Definition offload_tso : list string := ["tx-tcp-segmentation"].
Definition offload_rx_checksum : list string := ["rx-checksum"].
Definition offload_tx_checksum : list string := ["tx-checksum-ip-generic"; "tx-checksum-ipv4"; "tx-checksum-ipv6"].

(** [address_text]: an address with no prefix length, kept as it is rendered. *)
Definition address_text_read (d : doc) (node : Z) (slot : option (list byte)) : R (option (list byte)) :=
  text <- field_string d node (WORDS "an address");
  match address_parse (Some text) with
  | None => refuse (REFUSED "address")
  | Some address =>
      if ad_has_prefix address then refuse (REFUSED "carries a prefix length, and this is an address")
      else
        match address_render address ADDRESS_MAX with
        | None => refuse (REFUSED "address")
        | Some rendered => _ <- alloc; ret (Some rendered)
        end
  end.

Definition address_text_ok (slot : option (list byte)) : bool :=
  match slot with
  | None => true
  | Some s =>
      negb (has_nul s) &&
      match address_parse (Some s) with
      | Some a => negb (ad_has_prefix a) && bool_decide (address_render a ADDRESS_MAX = Some s)
      | None => false
      end
  end.

Definition address_text_write (slot : option (list byte)) : list call := [STRING slot].
Definition address_text_omit (slot : option (list byte)) : bool := match slot with None => true | Some _ => false end.

Definition address_text : custom :=
  Custom (option (list byte)) None address_text_read address_text_write (Some address_text_omit) None address_text_ok.

Definition version_fields : ffields := fields [
  ("major", NCFG_FF_REQUIRED, INT_IN R_U16 0);
  ("minor", NCFG_FF_REQUIRED, INT_IN R_U16 0)].
Definition version_type : ftype := FType "schema version" version_fields None.

Definition secret_ref_fields : ffields := fields [
  ("provider", 0, F_ENUM secret_provider_set NCFG_SECRET_PROVIDER_FILE);
  ("name", NCFG_FF_REQUIRED, F_STR)].
Definition secret_ref_type : ftype := FType "secret reference" secret_ref_fields None.

Definition prefix_ref_fields : ffields := fields [
  ("source", NCFG_FF_REQUIRED, F_STR);
  ("index", 0, INT_IN R_U8 0);
  ("subnet", 0, INT_IN R_U16 0)].
Definition prefix_ref_type : ftype := FType "prefix reference" prefix_ref_fields None.

Definition static_fields : ffields := fields [
  ("address", NCFG_FF_REQUIRED, F_STR);
  ("peer", 0, F_STR);
  ("preferred_lifetime", 0, OPT_INT_IN R_U32);
  ("valid_lifetime", 0, OPT_INT_IN R_U32)].
Definition static_type : ftype := FType "static address" static_fields (Some (bytes "source")).

Definition delegated_fields : ffields := fields [
  ("prefix", NCFG_FF_REQUIRED, F_STRUCT prefix_ref_type);
  ("suffix", NCFG_FF_REQUIRED, F_STR)].
Definition delegated_type : ftype := FType "delegated address" delegated_fields (Some (bytes "source")).

Definition pd_request_fields : ffields := fields [
  ("hint", 0, F_STR);
  ("length", 0, OPT_INT_IN R_U8)].
Definition pd_request_type : ftype := FType "prefix delegation request" pd_request_fields None.

Definition dhcp4_fields : ffields := fields [
  ("hostname_mode", 0, F_ENUM hostname_mode_set NCFG_HOSTNAME_MODE_NONE);
  ("client_id", 0, F_STR);
  ("metric", 0, OPT_INT_IN R_U32);
  ("request_options", 0, INT_LIST_IN R_U8);
  ("backend", 0, F_ENUM dhcp4_backend_set NCFG_DHCP4_BACKEND_AUTO)].
Definition dhcp4_type : ftype := FType "dhcp4 lease" dhcp4_fields (Some (bytes "source")).

Definition dhcp6_fields : ffields := fields [
  ("mode", 0, F_ENUM dhcp6_mode_set NCFG_DHCP6_MODE_MANAGED);
  ("rapid_commit", 0, F_BOOL false);
  ("prefix_delegation", 0, F_OPT_STRUCT pd_request_type)].
Definition dhcp6_type : ftype := FType "dhcp6 lease" dhcp6_fields (Some (bytes "source")).

Definition slaac_fields : ffields := fields [
  ("privacy", 0, F_ENUM slaac_privacy_set NCFG_SLAAC_PRIVACY_NONE)].
Definition slaac_type : ftype := FType "slaac" slaac_fields (Some (bytes "source")).
Definition link_local_type : ftype := FType "link-local addressing" FNil (Some (bytes "source")).
Definition reported_type : ftype := FType "reported addressing" FNil (Some (bytes "source")).

(** The arm each tag chooses. *)
Definition address_source_arm (kind : Z) : ftype :=
  if kind =? NCFG_ADDRESS_SOURCE_STATIC then static_type
  else if kind =? NCFG_ADDRESS_SOURCE_DELEGATED then delegated_type
  else if kind =? NCFG_ADDRESS_SOURCE_DHCP4 then dhcp4_type
  else if kind =? NCFG_ADDRESS_SOURCE_DHCP6 then dhcp6_type
  else if kind =? NCFG_ADDRESS_SOURCE_SLAAC then slaac_type
  else if kind =? NCFG_ADDRESS_SOURCE_LINK_LOCAL then link_local_type
  else reported_type.

Definition address_source_read (d : doc) (node : Z) : R (union address_source_arm) :=
  union_read "an addressing source" address_source_set "source" address_source_arm d node.

Definition address_source_write (source : union address_source_arm) : list call :=
  union_write address_source_set "source" address_source_arm source.

Definition address_source_custom : custom := union_custom address_source_arm address_source_set
  (fun d node _ => address_source_read d node) address_source_write.

Definition route_fields : ffields := fields [
  ("destination", NCFG_FF_REQUIRED, F_STR);
  ("via", 0, F_CUSTOM address_text);
  ("metric", 0, OPT_INT_IN R_U32);
  ("table", 0, OPT_INT_IN R_U32);
  ("src", 0, F_CUSTOM address_text);
  ("scope", 0, F_OPT_ENUM route_scope_set);
  ("onlink", 0, F_BOOL false);
  ("proto", 0, OPT_INT_IN R_U8)].
Definition route_type : ftype := FType "route" route_fields None.

Definition hook_fields : ffields := fields [
  ("phase", NCFG_FF_REQUIRED, F_ENUM hook_phase_set 0);
  ("path", NCFG_FF_REQUIRED, F_STR);
  ("sha256", NCFG_FF_REQUIRED, F_STR);
  ("run_as", 0, F_STR);
  ("timeout", 0, OPT_INT_IN R_U32)].
Definition hook_type : ftype := FType "hook" hook_fields None.

(** [ncfg_dns_mode_value_t]. *)
Record dns_mode_value := DnsMode { dm_mode : Z; dm_command : option (list byte) }.

Definition dns_mode_read (d : doc) (node : Z) (value : dns_mode_value) : R dns_mode_value :=
  if bool_decide (json_get_type d node = NCFG_JSON_STRING) then
    mode <- field_enum d dns_mode_set node; ret (DnsMode mode (dm_command value))
  else
    let only := only_member d node in
    if (only =? NCFG_JSON_NONE) || negb (json_member d node (bytes "exec") =? only) then refuse (REFUSED "a dns mode is a word")
    else command <- field_string d only (WORDS "the command of dns mode `exec`"); ret (DnsMode NCFG_DNS_MODE_EXEC (Some command)).

Definition dns_mode_write (value : dns_mode_value) : list call :=
  if dm_mode value =? NCFG_DNS_MODE_EXEC then in_object [MEMBER (Some (bytes "exec")); STRING (dm_command value)]
  else match enum_name dns_mode_set (dm_mode value) with Some word => [STRING (Some word)] | None => [] end.

Definition dns_mode_ok (value : dns_mode_value) : bool :=
  if dm_mode value =? NCFG_DNS_MODE_EXEC then str_ok (dm_command value)
  else set_ok dns_mode_set (dm_mode value) && bool_decide (dm_command value = None).

Definition dns_mode_custom : custom := Custom dns_mode_value (DnsMode 0 None) dns_mode_read dns_mode_write None None dns_mode_ok.

Definition dns_server_fields : ffields := fields [
  ("addr", NCFG_FF_REQUIRED, F_CUSTOM address_text);
  ("port", 0, OPT_INT_IN R_U16);
  ("sni", 0, F_STR)].
Definition dns_server_type : ftype := FType "dns server" dns_server_fields None.

Definition routing_domain_fields : ffields := fields [
  ("suffix", NCFG_FF_REQUIRED, F_STR);
  ("exclusive", 0, F_BOOL false)].
Definition routing_domain_type : ftype := FType "routing domain" routing_domain_fields None.

Definition dns_policy_fields : ffields := fields [
  ("mode", 0, F_CUSTOM dns_mode_custom);
  ("servers", 0, F_LIST dns_server_type);
  ("search", 0, F_STR_LIST);
  ("domains", 0, F_LIST routing_domain_type);
  ("options", 0, F_STR_LIST);
  ("dnssec", 0, F_OPT_ENUM dnssec_set);
  ("transport", 0, F_OPT_ENUM dns_transport_set)].
Definition dns_policy_type : ftype := FType "dns policy" dns_policy_fields None.

(** [ncfg_cert_source_t]: absent, a path, or stored material. *)
Inductive cert_source := CERT_ABSENT | CERT_PATH (path : list byte) | CERT_STORED (stored : value secret_ref_type).

Definition cert_source_read (d : doc) (node : Z) : R cert_source :=
  let only := only_member d node in
  if negb (only =? NCFG_JSON_NONE) && (json_member d node (bytes "path") =? only) then
    path <- field_string d only (WORDS "a certificate path"); ret (CERT_PATH path)
  else if negb (only =? NCFG_JSON_NONE) && (json_member d node (bytes "stored") =? only) then
    base <- type_init secret_ref_type;
    stored <- type_read d secret_ref_type only base;
    ret (CERT_STORED stored)
  else refuse (REFUSED "certificate material is a path or stored").

Definition cert_source_write (source : cert_source) : list call :=
  match source with
  | CERT_PATH path => in_object [MEMBER (Some (bytes "path")); STRING (Some path)]
  | CERT_STORED stored => in_object (MEMBER (Some (bytes "stored")) :: in_object (type_write secret_ref_type stored))
  | CERT_ABSENT => in_object [MEMBER (Some (bytes "path")); STRING None]
  end.

Definition cert_source_omit (source : cert_source) : bool := match source with CERT_ABSENT => true | _ => false end.

Definition cert_source_ok (source : cert_source) : bool :=
  match source with
  | CERT_ABSENT => true
  | CERT_PATH path => negb (has_nul path)
  | CERT_STORED stored => type_ok secret_ref_type stored
  end.

Definition cert_source_custom : custom :=
  Custom cert_source CERT_ABSENT (fun d node _ => cert_source_read d node) cert_source_write (Some cert_source_omit) None cert_source_ok.

Definition eap_fields : ffields := fields [
  ("method", NCFG_FF_REQUIRED, F_ENUM eap_method_set 0);
  ("identity", NCFG_FF_REQUIRED, F_STR);
  ("anonymous_identity", 0, F_STR);
  ("password", 0, F_OPT_STRUCT secret_ref_type);
  ("domain_suffix_match", 0, F_STR);
  ("ca_cert", 0, F_CUSTOM cert_source_custom);
  ("client_cert", 0, F_CUSTOM cert_source_custom);
  ("private_key", 0, F_CUSTOM cert_source_custom);
  ("phase2", 0, F_STR)].
Definition eap_type : ftype := FType "802.1X configuration" eap_fields None.
Definition eap_security_type : ftype := FType "eap network" eap_fields (Some (bytes "type")).

Definition psk_fields : ffields := fields [
  ("passphrase", NCFG_FF_REQUIRED, F_STRUCT secret_ref_type);
  ("proto", 0, F_ENUM psk_proto_set NCFG_PSK_PROTO_WPA2_WPA3)].
Definition psk_type : ftype := FType "psk network" psk_fields (Some (bytes "type")).
Definition open_security_type : ftype := FType "open network" FNil (Some (bytes "type")).
Definition owe_security_type : ftype := FType "owe network" FNil (Some (bytes "type")).
Definition security_arm (kind : Z) : ftype :=
  if kind =? NCFG_SECURITY_PSK then psk_type
  else if kind =? NCFG_SECURITY_EAP then eap_security_type
  else if kind =? NCFG_SECURITY_OWE then owe_security_type
  else open_security_type.

Definition security_read (d : doc) (node : Z) : R (union security_arm) :=
  union_read "a security choice" security_set "type" security_arm d node.

Definition security_write (security : union security_arm) : list call := union_write security_set "type" security_arm security.

Definition security_custom : custom := union_custom security_arm security_set (fun d node _ => security_read d node) security_write.

Definition bridge_fields : ffields := fields [
  ("members", 0, F_STR_LIST);
  ("stp", 0, F_BOOL false);
  ("forward_delay", 0, OPT_INT_IN R_U32);
  ("hello_time", 0, OPT_INT_IN R_U32);
  ("ageing_time", 0, OPT_INT_IN R_U32);
  ("priority", 0, OPT_INT_IN R_U16);
  ("vlan_filtering", 0, F_BOOL false)].
Definition bridge_type : ftype := FType "bridge" bridge_fields (Some (bytes "kind")).

Definition bond_fields : ffields := fields [
  ("members", NCFG_FF_REQUIRED, F_STR_LIST);
  ("mode", 0, F_ENUM bond_mode_set NCFG_BOND_MODE_ACTIVE_BACKUP);
  ("miimon", 0, OPT_INT_IN R_U32)].
Definition bond_type : ftype := FType "bond" bond_fields (Some (bytes "kind")).

Definition vlan_fields : ffields := fields [
  ("parent", NCFG_FF_REQUIRED, F_STR);
  ("id", NCFG_FF_REQUIRED, INT_IN R_U16 0);
  ("protocol", 0, F_ENUM vlan_protocol_set NCFG_VLAN_PROTOCOL_DOT1Q)].
Definition vlan_type : ftype := FType "vlan" vlan_fields (Some (bytes "kind")).

Definition vxlan_fields : ffields := fields [
  ("id", NCFG_FF_REQUIRED, INT_IN R_U32 0);
  ("parent", 0, F_STR);
  ("local", 0, F_CUSTOM address_text);
  ("remote", 0, F_CUSTOM address_text);
  ("port", 0, OPT_INT_IN R_U16)].
Definition vxlan_type : ftype := FType "vxlan" vxlan_fields (Some (bytes "kind")).
Definition public_key_read (d : doc) (node : Z) : R (list Z) :=
  match json_string d node with
  | None => refuse (REFUSED "a key is 44 characters of base64")
  | Some text => match key_parse text with inl _ => refuse (REFUSED "a key is base64") | inr key => ret key end
  end.

Definition public_key_write (key : list Z) : list call := [STRING (Some (key_render key))].

Definition public_key_ok (key : list Z) : bool := (length key =? NCFG_KEY_LEN)%nat && forallb (fun o => (0 <=? o) && (o <? 256)) key.

Definition public_key_custom : custom :=
  Custom (list Z) (replicate NCFG_KEY_LEN 0) (fun d node _ => public_key_read d node) public_key_write None None public_key_ok.

Definition wg_peer_fields : ffields := fields [
  ("name", NCFG_FF_REQUIRED, F_STR);
  ("public_key", NCFG_FF_REQUIRED, F_CUSTOM public_key_custom);
  ("preshared_key", 0, F_OPT_STRUCT secret_ref_type);
  ("endpoint", 0, F_STR);
  ("allowed_ips", NCFG_FF_REQUIRED, F_STR_LIST);
  ("keepalive", 0, OPT_INT_IN R_U16)].
Definition wg_peer_type : ftype := FType "wireguard peer" wg_peer_fields None.

Definition wireguard_fields : ffields := fields [
  ("private_key", NCFG_FF_REQUIRED, F_STRUCT secret_ref_type);
  ("listen_port", 0, OPT_INT_IN R_U16);
  ("fwmark", 0, OPT_INT_IN R_U32);
  ("peers", NCFG_FF_REQUIRED, F_LIST wg_peer_type)].
Definition wireguard_type : ftype := FType "wireguard tunnel" wireguard_fields (Some (bytes "kind")).

Definition pppoe_fields : ffields := fields [
  ("parent", NCFG_FF_REQUIRED, F_STR);
  ("username", NCFG_FF_REQUIRED, F_STR);
  ("password", NCFG_FF_REQUIRED, F_STRUCT secret_ref_type);
  ("service", 0, F_STR);
  ("ac", 0, F_STR)].
Definition pppoe_type : ftype := FType "pppoe session" pppoe_fields (Some (bytes "kind")).

Definition openvpn_fields : ffields := fields [
  ("config", NCFG_FF_REQUIRED, F_STR);
  ("username", 0, F_STR);
  ("password", 0, F_OPT_STRUCT secret_ref_type)].
Definition openvpn_type : ftype := FType "openvpn tunnel" openvpn_fields (Some (bytes "kind")).

Definition veth_fields : ffields := fields [
  ("peer", NCFG_FF_REQUIRED, F_STR)].
Definition veth_type : ftype := FType "veth" veth_fields (Some (bytes "kind")).

Definition vrf_fields : ffields := fields [
  ("table", NCFG_FF_REQUIRED, INT_IN R_U32 0)].
Definition vrf_type : ftype := FType "vrf" vrf_fields (Some (bytes "kind")).

Definition macvlan_fields : ffields := fields [
  ("parent", NCFG_FF_REQUIRED, F_STR);
  ("mode", 0, F_ENUM macvlan_mode_set NCFG_MACVLAN_MODE_PRIVATE)].
Definition macvlan_type : ftype := FType "macvlan" macvlan_fields (Some (bytes "kind")).

Definition tunnel_fields : ffields := fields [
  ("mode", NCFG_FF_REQUIRED, F_ENUM tunnel_kind_set 0);
  ("local", 0, F_CUSTOM address_text);
  ("remote", 0, F_CUSTOM address_text);
  ("parent", 0, F_STR);
  ("ttl", 0, OPT_INT_IN R_U8);
  ("key", 0, OPT_INT_IN R_U32)].
Definition tunnel_type : ftype := FType "tunnel" tunnel_fields (Some (bytes "kind")).

Definition tun_fields : ffields := fields [
  ("mode", 0, F_ENUM tun_mode_set NCFG_TUN_MODE_TUN);
  ("owner", 0, F_STR);
  ("group", 0, F_STR)].
Definition tun_type : ftype := FType "tun device" tun_fields (Some (bytes "kind")).

Definition mesh_point_fields : ffields := fields [
  ("parent", NCFG_FF_REQUIRED, F_STR)].
Definition mesh_point_type : ftype := FType "mesh point" mesh_point_fields (Some (bytes "kind")).

Definition radio_fields : ffields := fields [
  ("phy", NCFG_FF_REQUIRED, F_STR)].
Definition radio_type : ftype := FType "radio" radio_fields (Some (bytes "kind")).
Definition physical_type : ftype := FType "physical device" FNil (Some (bytes "kind")).
Definition dummy_type : ftype := FType "dummy device" FNil (Some (bytes "kind")).
Definition ifb_type : ftype := FType "ifb device" FNil (Some (bytes "kind")).

(** [kind_arm]. *)
Definition kind_arm (kind : Z) : ftype :=
  if kind =? NCFG_KIND_BRIDGE then bridge_type
  else if kind =? NCFG_KIND_BOND then bond_type
  else if kind =? NCFG_KIND_VLAN then vlan_type
  else if kind =? NCFG_KIND_VXLAN then vxlan_type
  else if kind =? NCFG_KIND_WIREGUARD then wireguard_type
  else if kind =? NCFG_KIND_PPPOE then pppoe_type
  else if kind =? NCFG_KIND_OPENVPN then openvpn_type
  else if kind =? NCFG_KIND_VETH then veth_type
  else if kind =? NCFG_KIND_VRF then vrf_type
  else if kind =? NCFG_KIND_MACVLAN then macvlan_type
  else if kind =? NCFG_KIND_TUNNEL then tunnel_type
  else if kind =? NCFG_KIND_TUN then tun_type
  else if kind =? NCFG_KIND_DUMMY then dummy_type
  else if kind =? NCFG_KIND_IFB then ifb_type
  else if kind =? NCFG_KIND_MESH_POINT then mesh_point_type
  else if kind =? NCFG_KIND_RADIO then radio_type
  else physical_type.

Definition interface_kind_read (d : doc) (node : Z) : R (union kind_arm) :=
  union_read "an interface kind" interface_kind_set "kind" kind_arm d node.

Definition interface_kind_write (value : union kind_arm) : list call := union_write interface_kind_set "kind" kind_arm value.

Definition interface_kind_custom : custom :=
  union_custom kind_arm interface_kind_set (fun d node _ => interface_kind_read d node) interface_kind_write.

Definition bridge_vlan_fields : ffields := fields [
  ("vid", NCFG_FF_REQUIRED, INT_IN R_U16 0);
  ("pvid", 0, F_BOOL false);
  ("untagged", 0, F_BOOL false)].
Definition bridge_vlan_type : ftype := FType "bridge vlan" bridge_vlan_fields None.

Definition qdisc_fields : ffields := fields [
  ("kind", NCFG_FF_REQUIRED, F_ENUM qdisc_kind_set 0);
  ("bandwidth_bits", 0, OPT_INT_IN R_U64);
  ("ingress_bandwidth_bits", 0, OPT_INT_IN R_U64);
  ("ingress", NCFG_FF_OMIT_FALSE, F_BOOL false)].
Definition qdisc_type : ftype := FType "qdisc policy" qdisc_fields None.

Definition link_settings_fields : ffields := fields [
  ("autoneg", 0, F_ENUM toggle_set 0);
  ("speed", 0, OPT_INT_IN R_U32);
  ("duplex", 0, F_STR);
  ("wol", 0, F_STR);
  ("rx_ring", 0, OPT_INT_IN R_U32);
  ("tx_ring", 0, OPT_INT_IN R_U32);
  ("gro", 0, F_ENUM toggle_set 0);
  ("gso", 0, F_ENUM toggle_set 0);
  ("tso", 0, F_ENUM toggle_set 0);
  ("rx_checksum", 0, F_ENUM toggle_set 0);
  ("tx_checksum", 0, F_ENUM toggle_set 0)].
Definition link_settings_type : ftype := FType "link settings" link_settings_fields None.

Definition device_match_fields : ffields := fields [
  ("mac", 0, F_STR);
  ("path", 0, F_STR);
  ("driver", 0, F_STR);
  ("name_glob", 0, F_STR)].
Definition device_match_type : ftype := FType "device match" device_match_fields None.

Definition wifi_device_fields : ffields := fields [
  ("backend", 0, F_ENUM wifi_backend_set NCFG_WIFI_BACKEND_AUTO);
  ("autoconnect", 0, F_BOOL true);
  ("portal_check", 0, F_STR);
  ("regdom", 0, F_STR);
  ("powersave", 0, F_ENUM powersave_set NCFG_POWERSAVE_DEFAULT);
  ("mac_policy", 0, F_ENUM mac_policy_set NCFG_MAC_POLICY_PERMANENT);
  ("scan_randomization", 0, F_BOOL false);
  ("wds", NCFG_FF_OMIT_FALSE, F_BOOL false)].
Definition wifi_device_type : ftype := FType "wifi device policy" wifi_device_fields None.

Definition modem_fields : ffields := fields [
  ("sim", NCFG_FF_OMIT_EMPTY, F_STR_LIST);
  ("apn", 0, F_STR)].
Definition modem_type : ftype := FType "modem policy" modem_fields None.

Definition device_fields : ffields := fields [
  ("name", NCFG_FF_REQUIRED, F_STR);
  ("match", 0, F_OPT_STRUCT device_match_type);
  ("managed", 0, F_BOOL true);
  ("on_unmanage", 0, F_ENUM on_unmanage_set NCFG_ON_UNMANAGE_LEAVE);
  ("wifi", 0, F_OPT_STRUCT wifi_device_type);
  ("modem", 0, F_OPT_STRUCT modem_type);
  ("mtu", 0, OPT_INT_IN R_U32);
  ("mac", 0, F_STR);
  ("link_settings", 0, F_OPT_STRUCT link_settings_type);
  ("kind", 0, F_CUSTOM interface_kind_custom);
  ("master", 0, F_STR);
  ("qdisc", 0, F_OPT_STRUCT qdisc_type);
  ("ingress_redirect", 0, F_STR);
  ("bridge_vlans", 0, F_LIST bridge_vlan_type);
  ("declared", 0, F_BOOL false)].
Definition device_type : ftype := FType "device" device_fields None.

(** [ncfg_ra_backend_t]. *)
Record ra_backend := RaBackend { rb_kind : Z; rb_command : option (list byte) }.

Definition ra_backend_read (d : doc) (node : Z) (value : ra_backend) : R ra_backend :=
  if bool_decide (json_get_type d node = NCFG_JSON_STRING) then
    match string_among d node (take 3 ra_backend_words) 0 with
    | Some i => ret (RaBackend i (rb_command value))
    | None => refuse (REFUSED "that is not a router advertisement backend")
    end
  else
    let only := only_member d node in
    if (only =? NCFG_JSON_NONE) || negb (json_member d node (bytes "exec") =? only)
    then refuse (REFUSED "a router advertisement backend is a word")
    else command <- field_string d only (WORDS "the command of backend `exec`"); ret (RaBackend NCFG_RA_BACKEND_EXEC (Some command)).

Definition ra_backend_write (value : ra_backend) : list call :=
  if rb_kind value =? NCFG_RA_BACKEND_EXEC then in_object [MEMBER (Some (bytes "exec")); STRING (rb_command value)]
  else write_word ra_backend_words (rb_kind value).

Definition ra_backend_ok (value : ra_backend) : bool :=
  if rb_kind value =? NCFG_RA_BACKEND_EXEC then str_ok (rb_command value)
  else in_range 0 2 (rb_kind value) && bool_decide (rb_command value = None).

Definition ra_backend_custom : custom := Custom ra_backend (RaBackend 0 None) ra_backend_read ra_backend_write None None ra_backend_ok.

Definition ra_fields : ffields := fields [
  ("backend", 0, F_CUSTOM ra_backend_custom);
  ("prefixes", 0, F_LIST prefix_ref_type);
  ("static_prefixes", NCFG_FF_OMIT_EMPTY, F_STR_LIST);
  ("managed", 0, F_BOOL false);
  ("other_config", 0, F_BOOL false);
  ("dns", 0, F_BOOL true);
  ("lifetime", 0, OPT_INT_IN R_U32)].
Definition ra_type : ftype := FType "router advertisement policy" ra_fields None.

Definition dhcp_host_fields : ffields := fields [
  ("name", NCFG_FF_REQUIRED, F_STR);
  ("mac", NCFG_FF_REQUIRED, F_STR);
  ("address", NCFG_FF_REQUIRED, F_STR)].
Definition dhcp_host_type : ftype := FType "DHCP reservation" dhcp_host_fields None.
Definition dhcp_option_kind_words : list string := ["ip"; "text"; "u8"; "u16"; "u32"; "bool"; "hex"].
Definition dhcp_option_kind_set : enum_set := WORD_SET "DHCP option type" dhcp_option_kind_words.

Definition dhcp_option_fields : ffields := fields [
  ("name", NCFG_FF_REQUIRED, F_STR);
  ("code", NCFG_FF_REQUIRED, INT_IN R_U8 0);
  ("kind", NCFG_FF_REQUIRED, F_ENUM dhcp_option_kind_set 0);
  ("ip", NCFG_FF_OMIT_EMPTY, F_STR_LIST);
  ("text", 0, F_STR);
  ("number", 0, OPT_INT_IN NO_RANGE)].
Definition dhcp_option_type : ftype := FType "DHCP option" dhcp_option_fields None.

Definition dhcp_server_fields : ffields := fields [
  ("range_start", 0, F_STR);
  ("range_end", 0, F_STR);
  ("lease", 0, OPT_INT_IN R_U32);
  ("dns", NCFG_FF_OMIT_EMPTY, F_STR_LIST);
  ("hosts", NCFG_FF_OMIT_EMPTY, F_LIST dhcp_host_type);
  ("dns_forward", NCFG_FF_OMIT_FALSE, F_BOOL false);
  ("dns_intercept", NCFG_FF_OMIT_FALSE, F_BOOL false);
  ("gateway", 0, F_STR);
  ("domain", 0, F_STR);
  ("ntp", NCFG_FF_OMIT_EMPTY, F_STR_LIST);
  ("boot_file", 0, F_STR);
  ("boot_server", 0, F_STR);
  ("tftp_server", 0, F_STR);
  ("wpad", 0, F_STR);
  ("options", NCFG_FF_OMIT_EMPTY, F_LIST dhcp_option_type);
  ("range6_start", 0, F_STR);
  ("range6_end", 0, F_STR);
  ("relay", NCFG_FF_OMIT_EMPTY, F_STR_LIST);
  ("block", NCFG_FF_OMIT_EMPTY, F_STR_LIST)].
Definition dhcp_server_type : ftype := FType "DHCP server" dhcp_server_fields None.
Definition port_forward_proto_words : list string := ["tcp"; "udp"].
Definition port_forward_proto_set : enum_set := WORD_SET "port forward protocol" port_forward_proto_words.

Definition port_forward_fields : ffields := fields [
  ("name", NCFG_FF_REQUIRED, F_STR);
  ("protocol", NCFG_FF_REQUIRED, F_ENUM port_forward_proto_set 0);
  ("port", NCFG_FF_REQUIRED, INT_IN R_U16 0);
  ("to", NCFG_FF_REQUIRED, F_STR);
  ("to_host", 0, F_STR);
  ("to_port", 0, OPT_INT_IN R_U16);
  ("hairpin", 0, F_OPT_BOOL)].
Definition port_forward_type : ftype := FType "port forward" port_forward_fields None.

Definition guard_fields : ffields := fields [
  ("reason", NCFG_FF_REQUIRED, F_STR)].
Definition guard_type : ftype := FType "guard" guard_fields None.

Definition probe_fields : ffields := fields [
  ("command", NCFG_FF_REQUIRED, F_STR);
  ("args", NCFG_FF_OMIT_EMPTY, F_STR_LIST);
  ("interval", NCFG_FF_REQUIRED, INT_IN R_U32 0);
  ("timeout", NCFG_FF_REQUIRED, INT_IN R_U32 0);
  ("down_after", NCFG_FF_REQUIRED, INT_IN R_U32 0);
  ("require_lease", NCFG_FF_OMIT_TRUE, F_BOOL true);
  ("up_after", NCFG_FF_REQUIRED, INT_IN R_U32 0);
  ("hold_down", NCFG_FF_OMIT_ZERO, INT_IN R_U32 0)].
Definition probe_type : ftype := FType "probe policy" probe_fields None.

Definition interface_fields : ffields := fields [
  ("name", NCFG_FF_REQUIRED, F_STR);
  ("enabled", 0, F_BOOL true);
  ("addressing", 0, F_CUSTOM_LIST address_source_custom);
  ("routes", 0, F_LIST route_type);
  ("dns", 0, F_OPT_STRUCT dns_policy_type);
  ("hooks", 0, F_LIST hook_type);
  ("on_drift", 0, F_OPT_ENUM drift_policy_set);
  ("dot1x", 0, F_OPT_STRUCT eap_type);
  ("advertise", 0, F_OPT_STRUCT ra_type);
  ("dhcp_server", 0, F_OPT_STRUCT dhcp_server_type);
  ("port_forwards", NCFG_FF_OMIT_EMPTY, F_LIST port_forward_type);
  ("forwarding", 0, F_OPT_BOOL);
  ("nat", 0, F_OPT_BOOL);
  ("guard", 0, F_OPT_STRUCT guard_type);
  ("ipv6_token", 0, F_STR);
  ("preference", 0, OPT_INT_IN R_U32);
  ("probe", 0, F_OPT_STRUCT probe_type)].
Definition interface_type : ftype := FType "interface" interface_fields None.
Definition ssid_read (d : doc) (node : Z) : R ssid :=
  match ssid_parse_hex (json_string d node) with inl _ => refuse (REFUSED "an ssid is lowercase hex") | inr s => ret s end.

Definition ssid_write (s : ssid) : list call := [STRING (Some (ssid_text s))].
Definition ssid_omit (s : ssid) : bool := negb (ssid_has s).

Definition ssid_stated (s : ssid) : bool :=
  ssid_has s && (length (ssid_bytes s) <=? NCFG_SSID_MAX_LEN)%nat && forallb (fun o => (0 <=? o) && (o <? 256)) (ssid_bytes s).

Definition ssid_ok (s : ssid) : bool := if ssid_has s then ssid_stated s else bool_decide (ssid_bytes s = []).

Definition ssid_custom : custom :=
  Custom ssid (Ssid false []) (fun d node _ => ssid_read d node) ssid_write (Some ssid_omit) None ssid_ok.

Definition ssid_required_custom : custom :=
  Custom ssid (Ssid false []) (fun d node _ => ssid_read d node) ssid_write None None ssid_stated.

Definition roam_fields : ffields := fields [
  ("signal", NCFG_FF_REQUIRED, INT_IN R_I32 0);
  ("interval", NCFG_FF_REQUIRED, INT_IN R_U32 0);
  ("slow_interval", NCFG_FF_REQUIRED, INT_IN R_U32 0)].
Definition roam_type : ftype := FType "roam policy" roam_fields None.

Definition network_fields : ffields := fields [
  ("id", NCFG_FF_REQUIRED, F_STR);
  ("ssid", 0, F_CUSTOM ssid_custom);
  ("hidden", 0, F_BOOL false);
  ("security", NCFG_FF_REQUIRED, F_CUSTOM security_custom);
  ("metric", 0, OPT_INT_IN R_U32);
  ("autoconnect", 0, F_BOOL true);
  ("metered", 0, F_BOOL false);
  ("bssid", NCFG_FF_OMIT_EMPTY, F_STR_LIST);
  ("roam", 0, F_OPT_STRUCT roam_type);
  ("addressing", 0, F_CUSTOM_LIST address_source_custom);
  ("routes", 0, F_LIST route_type);
  ("dns", 0, F_OPT_STRUCT dns_policy_type);
  ("hooks", 0, F_LIST hook_type)].
Definition network_type : ftype := FType "wifi network" network_fields None.

Definition access_control_fields : ffields := fields [
  ("policy", NCFG_FF_REQUIRED, F_ENUM acl_policy_set 0);
  ("stations", NCFG_FF_REQUIRED, F_STR_LIST);
  ("prefixes", NCFG_FF_OMIT_EMPTY, F_STR_LIST);
  ("lists", NCFG_FF_OMIT_EMPTY, F_STR_LIST);
  ("written", NCFG_FF_OMIT_EMPTY, F_STR_LIST)].
Definition access_control_type : ftype := FType "access control list" access_control_fields None.

Definition neighbour_fields : ffields := fields [
  ("bssid", NCFG_FF_REQUIRED, F_STR);
  ("channel", 0, OPT_INT_IN R_U16)].
Definition neighbour_type : ftype := FType "neighbour" neighbour_fields None.

Definition steering_fields : ffields := fields [
  ("signal", 0, OPT_INT_IN R_I32);
  ("band", NCFG_FF_OMIT_FALSE, F_BOOL false)].
Definition steering_type : ftype := FType "steering" steering_fields None.

Definition access_point_fields : ffields := fields [
  ("id", NCFG_FF_REQUIRED, F_STR);
  ("ssid", NCFG_FF_REQUIRED, F_CUSTOM ssid_required_custom);
  ("device", NCFG_FF_REQUIRED, F_STR);
  ("security", NCFG_FF_REQUIRED, F_CUSTOM security_custom);
  ("channel", 0, OPT_INT_IN R_U16);
  ("band", 0, F_STR);
  ("hidden", 0, F_BOOL false);
  ("regdom", 0, F_STR);
  ("access_control", 0, F_OPT_STRUCT access_control_type);
  ("fast_roaming", NCFG_FF_OMIT_FALSE, F_BOOL false);
  ("mobility_domain", 0, F_STR);
  ("wds", NCFG_FF_OMIT_FALSE, F_BOOL false);
  ("roaming_key", 0, F_OPT_STRUCT secret_ref_type);
  ("neighbour_reports", NCFG_FF_OMIT_FALSE, F_BOOL false);
  ("isolate_stations", NCFG_FF_OMIT_FALSE, F_BOOL false);
  ("neighbours", NCFG_FF_OMIT_EMPTY, F_LIST neighbour_type);
  ("steering", 0, F_OPT_STRUCT steering_type);
  ("width", 0, OPT_INT_IN R_U16)].
Definition access_point_type : ftype := FType "access point" access_point_fields None.

Definition mesh_fields : ffields := fields [
  ("id", NCFG_FF_REQUIRED, F_STR);
  ("mesh_id", NCFG_FF_REQUIRED, F_CUSTOM ssid_required_custom);
  ("device", NCFG_FF_REQUIRED, F_STR);
  ("security", NCFG_FF_REQUIRED, F_CUSTOM security_custom);
  ("channel", 0, OPT_INT_IN R_U16);
  ("band", 0, F_STR)].
Definition mesh_type : ftype := FType "mesh" mesh_fields None.

Definition dns_record_fields : ffields := fields [
  ("name", NCFG_FF_REQUIRED, F_STR);
  ("address", NCFG_FF_OMIT_EMPTY, F_STR_LIST);
  ("cname", 0, F_STR);
  ("mx", 0, F_STR);
  ("preference", 0, OPT_INT_IN R_U16);
  ("txt", 0, F_STR);
  ("srv", 0, F_STR);
  ("port", 0, OPT_INT_IN R_U16);
  ("priority", 0, OPT_INT_IN R_U16);
  ("weight", 0, OPT_INT_IN R_U16);
  ("forward", NCFG_FF_OMIT_EMPTY, F_STR_LIST)].
Definition dns_record_type : ftype := FType "DNS record" dns_record_fields None.

Definition block_list_fields : ffields := fields [
  ("name", NCFG_FF_REQUIRED, F_STR);
  ("domain", NCFG_FF_OMIT_EMPTY, F_STR_LIST);
  ("file", NCFG_FF_OMIT_EMPTY, F_STR_LIST);
  ("url", NCFG_FF_OMIT_EMPTY, F_STR_LIST);
  ("allow", NCFG_FF_OMIT_EMPTY, F_STR_LIST)].
Definition block_list_type : ftype := FType "block list" block_list_fields None.

Definition host_list_fields : ffields := fields [
  ("name", NCFG_FF_REQUIRED, F_STR);
  ("mac", 0, F_STR_LIST)].
Definition host_list_type : ftype := FType "host list" host_list_fields None.

Definition rule_fields : ffields := fields [
  ("id", NCFG_FF_REQUIRED, F_STR);
  ("priority", NCFG_FF_REQUIRED, INT_IN R_U32 0);
  ("family", 0, F_ENUM rule_family_set NCFG_RULE_FAMILY_INET);
  ("from", 0, F_STR);
  ("to", 0, F_STR);
  ("iif", 0, F_STR);
  ("oif", 0, F_STR);
  ("fwmark", 0, OPT_INT_IN R_U32);
  ("fwmask", 0, OPT_INT_IN R_U32);
  ("table", 0, OPT_INT_IN R_U32);
  ("action", 0, F_ENUM rule_action_set NCFG_RULE_ACTION_LOOKUP);
  ("suppress_prefixlength", 0, OPT_INT_IN R_U32);
  ("l3mdev", 0, F_BOOL false);
  ("invert", 0, F_BOOL false)].
Definition rule_type : ftype := FType "routing rule" rule_fields None.

Definition bluetooth_fields : ffields := fields [
  ("id", NCFG_FF_REQUIRED, F_STR);
  ("address", NCFG_FF_REQUIRED, F_STR);
  ("profile", NCFG_FF_REQUIRED, F_ENUM bluetooth_profile_set 0);
  ("autoconnect", NCFG_FF_REQUIRED, F_BOOL false)].
Definition bluetooth_type : ftype := FType "bluetooth device" bluetooth_fields None.

Definition linkset_fields : ffields := fields [
  ("name", NCFG_FF_REQUIRED, F_STR);
  ("members", NCFG_FF_REQUIRED, F_STR_LIST)].
Definition linkset_type : ftype := FType "linkset" linkset_fields None.

(** [ncfg_principal_t]. *)
Record principal_value := PrincipalValue { pr_kind : Z; pr_name : option (list byte) }.

Definition principal_read (d : doc) (node : Z) (principal : principal_value) : R principal_value :=
  if bool_decide (json_get_type d node = NCFG_JSON_STRING) then
    match string_among d node (take 2 principal_words) 0 with
    | Some i => ret (PrincipalValue i (pr_name principal))
    | None => refuse (REFUSED "a principal is root, any, a user or a group")
    end
  else
    let only := only_member d node in
    if negb (only =? NCFG_JSON_NONE) && (json_member d node (bytes "user") =? only) then
      name <- field_string d only (WORDS "the name of a principal"); ret (PrincipalValue 2 (Some name))
    else if negb (only =? NCFG_JSON_NONE) && (json_member d node (bytes "group") =? only) then
      name <- field_string d only (WORDS "the name of a principal"); ret (PrincipalValue 3 (Some name))
    else refuse (REFUSED "a principal").

Definition principal_write (principal : principal_value) : list call :=
  if (pr_kind principal =? NCFG_PRINCIPAL_USER) || (pr_kind principal =? NCFG_PRINCIPAL_GROUP) then
    in_object (MEMBER (bytes <$> principal_words !! Z.to_nat (pr_kind principal)) :: [STRING (pr_name principal)])
  else write_word principal_words (pr_kind principal).

Definition principal_ok (principal : principal_value) : bool :=
  if (pr_kind principal =? NCFG_PRINCIPAL_USER) || (pr_kind principal =? NCFG_PRINCIPAL_GROUP) then str_ok (pr_name principal)
  else in_range 0 1 (pr_kind principal) && bool_decide (pr_name principal = None).

Definition principal_custom : custom :=
  Custom principal_value (PrincipalValue 0 None) principal_read principal_write None None principal_ok.

Definition control_fields : ffields := fields [
  ("observe", 0, F_CUSTOM principal_custom);
  ("wifi", 0, F_CUSTOM principal_custom);
  ("admin", 0, F_CUSTOM principal_custom)].
Definition control_type : ftype := FType "control policy" control_fields None.

Definition remote_fields : ffields := fields [
  ("observe", 0, F_BOOL false);
  ("wifi", 0, F_BOOL false);
  ("admin", 0, F_BOOL false);
  ("agent", 0, F_CUSTOM principal_custom)].
Definition remote_type : ftype := FType "remote policy" remote_fields None.

Definition connectivity_fields : ffields := fields [
  ("requires", 0, F_ENUM requires_set NCFG_REQUIRES_ROUTE);
  ("ignore", 0, F_STR_LIST)].
Definition connectivity_type : ftype := FType "connectivity policy" connectivity_fields None.
Definition connectivity_default_ignore_words : list string := ["docker*"; "br-*"; "veth*"; "virbr*"; "vnet*"].

(** [connectivity_default_ignore]: the array and a copy of each pattern. *)
Definition connectivity_default_ignore : R (list (option (list byte))) :=
  _ <- alloc;
  foldr (fun word rest => _ <- alloc; l <- rest; ret (Some (bytes word) :: l)) (ret []) connectivity_default_ignore_words.

Definition connectivity_init : R (value connectivity_type) :=
  ignore <- connectivity_default_ignore; ret (0, (ignore, tt)).

Definition connectivity_read (d : doc) (node : Z) (policy : value connectivity_type) : R (value connectivity_type) :=
  let stated := negb (json_member d node (bytes "ignore") =? NCFG_JSON_NONE) in
  policy <- type_read d connectivity_type node policy;
  if stated then ret policy
  else ignore <- connectivity_default_ignore; ret (fst policy, (ignore, tt)).

Definition connectivity_write (policy : value connectivity_type) : list call := in_object (type_write connectivity_type policy).

Definition connectivity_omit (policy : value connectivity_type) : bool :=
  (get connectivity_type "requires" policy =? NCFG_REQUIRES_ROUTE) &&
  bool_decide (get connectivity_type "ignore" policy = map (fun word => Some (bytes word)) connectivity_default_ignore_words).

Definition connectivity_custom : custom :=
  Custom (value connectivity_type) (zero connectivity_type) connectivity_read connectivity_write
    (Some connectivity_omit) (Some connectivity_init) (type_ok connectivity_type).

(** [ncfg_hostname_policy_t]. *)
Record hostname_policy := HostnamePolicy { hp_kind : Z; hp_name : option (list byte) }.

Definition hostname_policy_read (d : doc) (node : Z) (policy : hostname_policy) : R hostname_policy :=
  if bool_decide (json_get_type d node = NCFG_JSON_STRING) then
    match string_among d node (take 2 hostname_policy_words) 0 with
    | Some i => ret (HostnamePolicy i (hp_name policy))
    | None => refuse (REFUSED "a hostname policy is none, from_dhcp or a static name")
    end
  else
    let only := only_member d node in
    if (only =? NCFG_JSON_NONE) || negb (json_member d node (bytes "static") =? only) then refuse (REFUSED "a hostname policy")
    else name <- field_string d only (WORDS "a static hostname"); ret (HostnamePolicy NCFG_HOSTNAME_POLICY_STATIC (Some name)).

Definition hostname_policy_write (policy : hostname_policy) : list call :=
  if hp_kind policy =? NCFG_HOSTNAME_POLICY_STATIC then in_object [MEMBER (Some (bytes "static")); STRING (hp_name policy)]
  else write_word hostname_policy_words (hp_kind policy).

Definition hostname_policy_ok (policy : hostname_policy) : bool :=
  if hp_kind policy =? NCFG_HOSTNAME_POLICY_STATIC then str_ok (hp_name policy)
  else in_range 0 1 (hp_kind policy) && bool_decide (hp_name policy = None).

Definition hostname_policy_custom : custom :=
  Custom hostname_policy (HostnamePolicy 0 None) hostname_policy_read hostname_policy_write None None hostname_policy_ok.

Definition upnp_fields : ffields := fields [
  ("lan", NCFG_FF_REQUIRED, F_STR_LIST);
  ("uplink", NCFG_FF_REQUIRED, F_STR)].
Definition upnp_type : ftype := FType "upnp" upnp_fields None.

Definition globals_fields : ffields := fields [
  ("dns", 0, F_STRUCT dns_policy_type);
  ("on_drift_default", 0, F_ENUM drift_policy_set NCFG_DRIFT_POLICY_RECONCILE);
  ("confirm_default", NCFG_FF_NULL_ABSENT, OPT_INT_IN R_U32);
  ("networking", 0, F_ENUM networking_set NCFG_NETWORKING_ON);
  ("profile", 0, F_STR);
  ("regdom", 0, F_STR);
  ("hostname_policy", 0, F_CUSTOM hostname_policy_custom);
  ("control", 0, F_STRUCT control_type);
  ("remote", 0, F_STRUCT remote_type);
  ("connectivity", 0, F_CUSTOM connectivity_custom);
  ("locked", NCFG_FF_OMIT_EMPTY, F_STR_LIST);
  ("upnp", 0, F_OPT_STRUCT upnp_type)].
Definition globals_type : ftype := FType "globals block" globals_fields None.
Definition firewall_action_words : list string := ["accept"; "drop"; "reject"].
Definition firewall_action_set : enum_set := WORD_SET "firewall action" firewall_action_words.
Definition firewall_policy_words : list string := ["accept"; "drop"].
Definition firewall_policy_set : enum_set := WORD_SET "firewall policy" firewall_policy_words.
Definition firewall_proto_words : list string := ["any"; "tcp"; "udp"; "icmp"; "icmpv6"].
Definition firewall_proto_set : enum_set := WORD_SET "firewall protocol" firewall_proto_words.

Definition firewall_rule_fields : ffields := fields [
  ("name", NCFG_FF_REQUIRED, F_STR);
  ("action", NCFG_FF_REQUIRED, F_ENUM firewall_action_set 0);
  ("protocol", 0, F_ENUM firewall_proto_set 0);
  ("ports", NCFG_FF_OMIT_EMPTY, INT_LIST_IN R_U16);
  ("from", NCFG_FF_OMIT_EMPTY, F_STR_LIST);
  ("to", NCFG_FF_OMIT_EMPTY, F_STR_LIST);
  ("interface", 0, F_STR);
  ("out_interface", 0, F_STR);
  ("states", NCFG_FF_OMIT_EMPTY, F_STR_LIST);
  ("translated", NCFG_FF_OMIT_FALSE, F_BOOL false);
  ("mac", NCFG_FF_OMIT_EMPTY, F_STR_LIST);
  ("mac_lists", NCFG_FF_OMIT_EMPTY, F_STR_LIST);
  ("mac_written", NCFG_FF_OMIT_EMPTY, F_STR_LIST);
  ("hours", 0, F_STR);
  ("days", NCFG_FF_OMIT_EMPTY, F_STR_LIST);
  ("utc_pieces", NCFG_FF_OMIT_EMPTY, F_STR_LIST)].
Definition firewall_rule_type : ftype := FType "firewall rule" firewall_rule_fields None.

Definition firewall_chain_fields : ffields := fields [
  ("policy", NCFG_FF_REQUIRED, F_ENUM firewall_policy_set 0);
  ("rules", NCFG_FF_OMIT_EMPTY, F_LIST firewall_rule_type)].
Definition firewall_chain_type : ftype := FType "firewall chain" firewall_chain_fields None.

Definition firewall_fields : ffields := fields [
  ("input", 0, F_STRUCT firewall_chain_type);
  ("forward", 0, F_STRUCT firewall_chain_type);
  ("output", 0, F_STRUCT firewall_chain_type)].
Definition firewall_type : ftype := FType "firewall" firewall_fields None.

Definition document_fields : ffields := fields [
  ("schema_version", NCFG_FF_REQUIRED, F_STRUCT version_type);
  ("generated_by", 0, F_STR);
  ("globals", NCFG_FF_REQUIRED, F_STRUCT globals_type);
  ("devices", NCFG_FF_REQUIRED, F_LIST device_type);
  ("interfaces", NCFG_FF_REQUIRED, F_LIST interface_type);
  ("networks", NCFG_FF_REQUIRED, F_LIST network_type);
  ("bluetooth", NCFG_FF_OMIT_EMPTY, F_LIST bluetooth_type);
  ("rules", 0, F_LIST rule_type);
  ("access_points", 0, F_LIST access_point_type);
  ("linksets", NCFG_FF_OMIT_EMPTY, F_LIST linkset_type);
  ("firewall", 0, F_OPT_STRUCT firewall_type);
  ("meshes", NCFG_FF_OMIT_EMPTY, F_LIST mesh_type);
  ("host_lists", NCFG_FF_OMIT_EMPTY, F_LIST host_list_type);
  ("dns_records", NCFG_FF_OMIT_EMPTY, F_LIST dns_record_type);
  ("block_lists", NCFG_FF_OMIT_EMPTY, F_LIST block_list_type)].
Definition document_type : ftype := FType "document" document_fields None.
End Document.
