(* ===== verification/DocumentSpec.v ===== *)
(** * DocumentSpec: the document reads back what it writes

    Every set, custom and table of [Document] is lawful in the sense of
    [FieldSpec], so the round trip of tables holds of the whole document. *)
From stdpp Require Import sets.
From S2P Require Import Prelude Lex LexFacts Wire WireSpec Decimal Value Json JsonFacts JsonSpec JsonRead JsonWrite JsonPrint JsonWriteSpec DocText DocTextSpec Field FieldSpec Document.
#[local] Open Scope Z_scope.

(** ** Sets *)

Lemma index_of_word_at names k n i :
  NoDup names -> names !! k = Some n -> index_of_word names (bytes n) i = Some (i + Z.of_nat k).
Proof.
  intros Hnd. revert k i. induction Hnd as [|m names Hm _ IH]; intros k i Hk; [done|]. cbn [index_of_word].
  destruct k as [|k]; simpl in Hk.
  - injection Hk as ->. rewrite bytes_eqb_refl. f_equal. lia.
  - destruct (bytes_eqb (bytes m) (bytes n)) eqn:E.
    + apply bytes_eqb_true, bytes_inj in E. subst m. destruct Hm. by eapply list_elem_of_lookup_2.
    + rewrite (IH k) by done. f_equal. lia.
Qed.

Lemma word_index_at names k n i :
  NoDup names -> names !! k = Some n -> word_index names n i = Some (i + Z.of_nat k).
Proof.
  intros Hnd. revert k i. induction Hnd as [|m names Hm _ IH]; intros k i Hk; [done|]. cbn [word_index].
  destruct k as [|k]; simpl in Hk.
  - injection Hk as ->. rewrite bool_decide_eq_true_2 by done. f_equal. lia.
  - rewrite bool_decide_eq_false_2; [rewrite (IH k) by done; f_equal; lia|]. intros ->. destruct Hm. by eapply list_elem_of_lookup_2.
Qed.

(** What is checked of a table of words, by computation. *)
Definition words_ok (names : list string) : bool :=
  bool_decide (NoDup names) && (zlen names <? 2 ^ 31) && forallb (fun n => (zlen (bytes n) <? 64) && negb (has_nul (bytes n))) names.

Lemma words_ok_at names k n : words_ok names = true -> names !! k = Some n -> zlen (bytes n) < 64 /\ has_nul (bytes n) = false.
Proof.
  intros H Hk. apply andb_true_iff in H as [_ H]. rewrite forallb_forall in H.
  apply list_elem_of_lookup_2, list_elem_of_In, H in Hk. unbool. by split.
Qed.

Lemma word_set_lawful what names : words_ok names = true -> set_lawful (WORD_SET what names).
Proof.
  intros H v w _ Hw. simpl in Hw. destruct ((v <? 0) || (zlen names <=? v)) eqn:E; [done|]. apply orb_false_iff in E as [E1 E2]. unbool.
  destruct (names !! Z.to_nat v) as [n|] eqn:Hn; [|done]. injection Hw as <-.
  destruct (words_ok_at _ _ _ H Hn). split_and!; [done..|]. simpl. rewrite (index_of_word_at _ (Z.to_nat v)); [f_equal; lia| |done].
  unfold words_ok in H. unbool. done.
Qed.

Lemma name_of_at names v s : zlen names < 2 ^ 31 -> in_int v = true -> name_of names v = Some s -> 0 <= v /\ names !! Z.to_nat v = Some s.
Proof.
  intros Hl Hi. unfold name_of, in_int, in_range in *. unbool. destruct (Z.geb_spec (u32 v) (zlen names)) as [|Hu]; [done|].
  assert (0 <= v) as Hv by (unfold u32 in Hu; pose proof (Z.mod_pos_bound v (2 ^ 32)); zdiv).
  rewrite u32_small by lia. done.
Qed.

Lemma shim_lawful what name from_name names :
  words_ok names = true -> (forall v, name v = name_of names v) ->
  (forall n, n ∈ names -> from_name (Some n) = value_of names (Some n)) ->
  set_lawful (VALUE_SET what (shim_name name) (shim_read from_name)).
Proof.
  intros H Hname Hfrom v w Hi Hw. simpl in Hw. unfold shim_name in Hw. rewrite Hname in Hw.
  destruct (name_of names v) as [n|] eqn:E; [|done]. injection Hw as <-.
  assert (zlen names < 2 ^ 31 /\ NoDup names) as [Hz Hd] by (unfold words_ok in H; unbool; done).
  apply name_of_at in E as [Hv Hn]; [|done..].
  destruct (words_ok_at _ _ _ H Hn). split_and!; [done..|]. simpl. unfold shim_read, bytes.
  rewrite String.string_of_list_byte_of_string, Hfrom by (by eapply list_elem_of_lookup_2). simpl.
  rewrite (word_index_at _ (Z.to_nat v)) by done. f_equal. lia.
Qed.

Lemma dns_mode_set_lawful : set_lawful dns_mode_set.
Proof.
  apply (shim_lawful _ _ _ dns_mode_names); [vm_compute; reflexivity|done|]. intros n Hn. unfold dns_mode_from_name.
  rewrite bool_decide_eq_false_2; [done|]. intros [= ->].
  assert (bool_decide ("resolv.conf"%string ∈ dns_mode_names) = false) as E by (vm_compute; reflexivity).
  by apply bool_decide_eq_false in E.
Qed.

Ltac set_lawful_tac :=
  match goal with
  | |- set_lawful dns_mode_set => apply dns_mode_set_lawful
  | |- set_lawful hook_phase_set => apply (shim_lawful _ _ _ hook_phase_names); [vm_compute; reflexivity|done|done]
  | |- set_lawful rule_action_set => apply (shim_lawful _ _ _ rule_action_names); [vm_compute; reflexivity|done|done]
  | |- set_lawful rule_family_set => apply (shim_lawful _ _ _ rule_family_names); [vm_compute; reflexivity|done|done]
  | |- set_lawful bluetooth_profile_set => apply (shim_lawful _ _ _ bluetooth_profile_names); [vm_compute; reflexivity|done|done]
  | |- set_lawful drift_policy_set => apply (shim_lawful _ _ _ drift_policy_names); [vm_compute; reflexivity|done|done]
  | |- set_lawful _ => apply word_set_lawful; vm_compute; reflexivity
  end.

(** ** Objects with one member *)

Lemma only_lookup d i key k t :
  value_at d i key (JObject [(k, t)]) ->
  only_member d i = json_member d i k /\ value_at d (json_member d i k) (Some k) t /\ json_member d i k <> NCFG_JSON_NONE.
Proof.
  intros Hv. pose proof (object_children _ _ _ _ Hv) as (n & ? & ? & ? & Hn & Hty & Hfc & Hc & _).
  destruct (kv_present d i key [(k, t)] k t Hv) as [Ht Hne]; [unfold kv_at; simpl; by rewrite bytes_eqb_refl|].
  apply Z.eqb_neq in Hne. split_and!; [|done|done]. unfold only_member. rewrite Hn, Hty, Hc, Hfc. simpl.
  destruct (member_position d i key [(k, t)] k Hv) as [(l1 & t' & l2 & E & H1 & ->)|[H Hm]]; [|done].
  destruct l1 as [|kv l1]; [unfold sum_of; simpl; lia|]. apply (f_equal length) in E. rewrite length_app in E. simpl in E. lia.
Qed.

Lemma other_member d i key k t k' : value_at d i key (JObject [(k, t)]) -> k' <> k -> json_member d i k' = NCFG_JSON_NONE.
Proof.
  intros Hv Hk. apply Z.eqb_eq. apply (kv_absent d i key [(k, t)]); [done|]. apply kv_none. set_solver.
Qed.

(** What [{"name": text}] is written as and read by. *)
Lemma emits_one name s : plain (bytes name) -> has_nul s = false ->
  emits (in_object [MEMBER (Some (bytes name)); STRING (Some s)]) (JObject [(bytes name, JString s)]).
Proof. intros Hn Hs. apply emits_object. apply adds_member; [done|]. by apply emits_string, no_nul_plain. Qed.

Lemma string_equals_lookup d i key s w : value_at d i key (JString s) -> json_string_equals d i w = bytes_eqb s w.
Proof.
  intros Hv. unfold json_string_equals. by rewrite (string_lookup _ _ _ _ Hv).
Qed.

(** ** Customs *)

(** A custom that nothing initialises starts zeroed. *)
Lemma custom_lawful_plain c :
  cu_init c = None ->
  (forall v, cu_ok c v = true -> custom_omits c v = true -> v = cu_zero c) ->
  (forall v, cu_ok c v = true -> custom_omits c v = false ->
     exists t, emits (cu_write c v) t /\ reads (fun d i => cu_read c d i (cu_zero c)) v t) ->
  custom_lawful c.
Proof.
  intros Hi Ho Hw. assert (cinit c = cu_zero c) as Hc by (unfold cinit; by rewrite Hi).
  split; [intros init grant n E; by rewrite Hi in E|by rewrite Hc..].
Qed.

(** A word, or an object whose one member is a text. *)
Lemma word_reads {A} (read : doc -> Z -> R A) words k w v :
  NoDup words -> words !! k = Some w ->
  (forall d i grant n, json_get_type d i = NCFG_JSON_STRING -> string_among d i words 0 = Some (Z.of_nat k) -> exists n', read d i grant n = inr (v, n')) ->
  reads read v (JString (bytes w)).
Proof.
  intros Hnd Hk Hr d i key grant n Hg Hv. apply Hr; [by rewrite (type_lookup _ _ _ _ Hv)|].
  assert (forall words z, string_among d i words z = index_of_word words (bytes w) z) as E.
  { clear -Hv. intros words. induction words as [|x words IH]; intros z; [done|]. cbn [string_among index_of_word].
    rewrite (string_equals_lookup _ _ _ _ _ Hv), IH. unfold bytes_eqb. by rewrite (bool_decide_ext _ _ (eq_comm _ _)). }
  by rewrite E, (index_of_word_at _ k).
Qed.

Lemma one_reads {A} (read : doc -> Z -> R A) name s v :
  (forall d i grant n, grants grant ->
     json_get_type d i = NCFG_JSON_OBJECT -> only_member d i = json_member d i (bytes name) -> json_member d i (bytes name) <> NCFG_JSON_NONE ->
     (forall other, other <> bytes name -> json_member d i other = NCFG_JSON_NONE) ->
     (forall what m, exists m', field_string d (json_member d i (bytes name)) what grant m = inr (s, m')) ->
     exists n', read d i grant n = inr (v, n')) ->
  has_nul s = false -> reads read v (JObject [(bytes name, JString s)]).
Proof.
  intros Hr Hs d i key grant n Hg Hv. destruct (only_lookup _ _ _ _ _ Hv) as (Ho & Ht & Hne).
  apply Hr; [done|by rewrite (type_lookup _ _ _ _ Hv)|done|done| |].
  - intros other Hother. by apply (other_member d i key (bytes name) (JString s)).
  - intros what m. by apply (field_string_reads what s Hs d _ _ grant m Hg Ht).
Qed.

Ltac one_reads_tac :=
  apply one_reads; [|done]; intros d i grant n Hg Hty Ho Hne Hother Hf; rewrite ?Hty, ?Ho; try rewrite bool_decide_eq_false_2 by done;
  rewrite ?(proj2 (Z.eqb_neq _ _) Hne), ?Z.eqb_refl; cbn [negb orb andb]; unfold bind.

Lemma str_ok_some o : str_ok o = true -> exists s, o = Some s /\ has_nul s = false.
Proof. destruct o as [s|]; [|done]. simpl. intros H%negb_true_iff. eauto. Qed.

Lemma dns_mode_lawful : custom_lawful dns_mode_custom.
Proof.
  apply custom_lawful_plain; [done|done|]. intros [mode command] Hok _. cbn [dns_mode_custom cu_ok cu_write cu_read cu_zero cu_value] in *.
  unfold dns_mode_ok, dns_mode_write, dns_mode_read in *. cbn [dm_mode dm_command] in *.
  destruct (Z.eqb_spec mode NCFG_DNS_MODE_EXEC) as [->|Hne].
  - apply str_ok_some in Hok as (s & -> & Hs). exists (JObject [(bytes "exec", JString s)]). split; [by apply emits_one|].
    one_reads_tac. destruct (Hf (WORDS "the command of dns mode `exec`") n) as [n' ->]. by eexists.
  - apply andb_true_iff in Hok as [Hset ->%bool_decide_eq_true].
    destruct (enum_emits dns_mode_set mode dns_mode_set_lawful Hset) as (w & He & Hr). exists (JString w). split; [exact He|].
    intros d i key grant n Hg Hv. rewrite (type_lookup _ _ _ _ Hv), bool_decide_eq_true_2 by done. unfold bind.
    destruct (Hr d i key grant n Hg Hv) as [n' ->]. by eexists.
Qed.

Lemma write_word_emits words k w : words !! k = Some w -> words_ok words = true ->
  emits (write_word words (Z.of_nat k)) (JString (bytes w)).
Proof.
  intros Hk Hok. unfold write_word. pose proof (lookup_lt_Some _ _ _ Hk).
  rewrite (proj2 (Z.geb_le _ _)), (proj2 (Z.ltb_lt _ _)) by (unfold zlen; lia). rewrite Nat2Z.id, Hk.
  apply emits_string, no_nul_plain. by apply (words_ok_at _ _ _ Hok Hk).
Qed.

(** Which of the words in front a kind in range is. *)
Lemma kind_word (words : list string) (n : nat) kind :
  in_range 0 (Z.of_nat n - 1) kind = true -> (n <= length words)%nat ->
  exists k w, kind = Z.of_nat k /\ take n words !! k = Some w /\ words !! k = Some w.
Proof.
  unfold in_range. intros H Hl. unbool. exists (Z.to_nat kind).
  destruct (lookup_lt_is_Some_2 words (Z.to_nat kind)) as [w Hw]; [lia|]. exists w. split_and!; [lia| |done].
  rewrite lookup_take_lt by lia. done.
Qed.

Lemma ra_backend_lawful : custom_lawful ra_backend_custom.
Proof.
  apply custom_lawful_plain; [done|done|]. intros [kind command] Hok _. cbn [ra_backend_custom cu_ok cu_write cu_read cu_zero cu_value] in *.
  unfold ra_backend_ok, ra_backend_write, ra_backend_read in *. cbn [rb_kind rb_command] in *.
  destruct (Z.eqb_spec kind NCFG_RA_BACKEND_EXEC) as [->|Hne].
  - apply str_ok_some in Hok as (s & -> & Hs). exists (JObject [(bytes "exec", JString s)]). split; [by apply emits_one|].
    one_reads_tac. destruct (Hf (WORDS "the command of backend `exec`") n) as [n' ->]. by eexists.
  - apply andb_true_iff in Hok as [Hr ->%bool_decide_eq_true].
    destruct (kind_word ra_backend_words 3 kind Hr) as (k & w & -> & Hk & Hw); [simpl; lia|]. exists (JString (bytes w)).
    split; [by apply write_word_emits|]. apply (word_reads _ (take 3 ra_backend_words) k); [by apply (bool_decide_unpack _)|done|].
    intros d i grant n Hty E. rewrite Hty, bool_decide_eq_true_2, E by done. by eexists.
Qed.

Lemma principal_lawful : custom_lawful principal_custom.
Proof.
  apply custom_lawful_plain; [done|done|]. intros [kind name] Hok _. cbn [principal_custom cu_ok cu_write cu_read cu_zero cu_value] in *.
  unfold principal_ok, principal_write, principal_read in *. cbn [pr_kind pr_name] in *.
  destruct (Z.eqb_spec kind NCFG_PRINCIPAL_USER) as [->|Hu]; [|destruct (Z.eqb_spec kind NCFG_PRINCIPAL_GROUP) as [->|Hne]]; cbn [orb] in *.
  - apply str_ok_some in Hok as (s & -> & Hs). exists (JObject [(bytes "user", JString s)]). split; [by apply (emits_one "user")|].
    one_reads_tac. destruct (Hf (WORDS "the name of a principal") n) as [n' ->]. by eexists.
  - apply str_ok_some in Hok as (s & -> & Hs). exists (JObject [(bytes "group", JString s)]). split; [by apply (emits_one "group")|].
    apply one_reads; [|done]. intros d i grant n Hg Hty Ho Hne Hother Hf. rewrite Hty, Ho, bool_decide_eq_false_2 by done.
    rewrite (Hother (bytes "user")) by done. rewrite (proj2 (Z.eqb_neq NCFG_JSON_NONE _) (not_eq_sym Hne)), andb_false_r.
    rewrite (proj2 (Z.eqb_neq _ _) Hne), Z.eqb_refl. cbn [negb andb]. unfold bind. destruct (Hf (WORDS "the name of a principal") n) as [n' ->]. by eexists.
  - apply andb_true_iff in Hok as [Hr ->%bool_decide_eq_true].
    destruct (kind_word principal_words 2 kind Hr) as (k & w & -> & Hk & Hw); [simpl; lia|]. exists (JString (bytes w)).
    split; [by apply write_word_emits|]. apply (word_reads _ (take 2 principal_words) k); [by apply (bool_decide_unpack _)|done|].
    intros d i grant n Hty E. rewrite Hty, bool_decide_eq_true_2, E by done. by eexists.
Qed.

Lemma hostname_policy_lawful : custom_lawful hostname_policy_custom.
Proof.
  apply custom_lawful_plain; [done|done|]. intros [kind name] Hok _. cbn [hostname_policy_custom cu_ok cu_write cu_read cu_zero cu_value] in *.
  unfold hostname_policy_ok, hostname_policy_write, hostname_policy_read in *. cbn [hp_kind hp_name] in *.
  destruct (Z.eqb_spec kind NCFG_HOSTNAME_POLICY_STATIC) as [->|Hne].
  - apply str_ok_some in Hok as (s & -> & Hs). exists (JObject [(bytes "static", JString s)]). split; [by apply emits_one|].
    one_reads_tac. destruct (Hf (WORDS "a static hostname") n) as [n' ->]. by eexists.
  - apply andb_true_iff in Hok as [Hr ->%bool_decide_eq_true].
    destruct (kind_word hostname_policy_words 2 kind Hr) as (k & w & -> & Hk & Hw); [simpl; lia|]. exists (JString (bytes w)).
    split; [by apply write_word_emits|]. apply (word_reads _ (take 2 hostname_policy_words) k); [by apply (bool_decide_unpack _)|done|].
    intros d i grant n Hty E. rewrite Hty, bool_decide_eq_true_2, E by done. by eexists.
Qed.

Lemma forallb_octets l : forallb (fun o => (0 <=? o) && (o <? 256)) l = true -> Forall octet l.
Proof. rewrite forallb_forall, Forall_forall. intros H o Ho%list_elem_of_In%H. unbool. unfold octet. lia. Qed.

(** A text that is accepted has no NUL in it. *)
Lemma key_digits_no_nul text acc bits out key : key_digits text acc bits out = inr key -> has_nul text = false.
Proof.
  revert acc bits out. induction text as [|c text IH]; intros acc bits out H; [done|]. cbn [key_digits has_nul existsb] in *.
  unfold base64_value in H. destruct (c =b x00); [done|]. destruct (index_of _ _ _); [|done].
  destruct (_ >=? _); by eapply IH.
Qed.

Lemma has_nul_app a b : has_nul (a ++ b) = has_nul a || has_nul b.
Proof. apply existsb_app. Qed.

Lemma key_parse_no_nul text key : key_parse text = inr key -> has_nul text = false.
Proof.
  unfold key_parse. destruct (negb (length text =? _)%nat || _) eqn:E; [done|]. apply orb_false_iff in E as [El Ec]. unbool.
  apply Nat.eqb_eq in El. intros H. rewrite <- (take_drop 43 text), has_nul_app. destruct (key_digits _ _ _ _) eqn:Ek; [done|].
  rewrite (key_digits_no_nul _ _ _ _ _ Ek). destruct (byte_eqb_spec (nth 43 text x00) "="); [|done].
  destruct (drop 43 text) as [|c [|? ?]] eqn:Ed; apply (f_equal length) in Ed as Hlen; rewrite length_drop, El in Hlen;
    simpl in Hlen; unfold NCFG_KEY_TEXT_LEN in Hlen; try lia.
  rewrite <- (take_drop 43 text), Ed, app_nth2 in e by (rewrite length_take, El; unfold NCFG_KEY_TEXT_LEN; simpl; lia).
  rewrite length_take, El in e. simpl in e. by rewrite e.
Qed.

Lemma public_key_lawful : custom_lawful public_key_custom.
Proof.
  apply custom_lawful_plain; [done|done|]. intros key Hok _. cbn [public_key_custom cu_ok cu_write cu_read cu_zero cu_value] in *.
  unfold public_key_ok in Hok. apply andb_true_iff in Hok as [Hl%Nat.eqb_eq Ho%forallb_octets].
  destruct (key_roundtrip key Hl Ho) as [Hp _]. exists (JString (key_render key)). split.
  - apply emits_string, no_nul_plain. by eapply key_parse_no_nul.
  - intros d i k grant n Hg Hv. unfold public_key_read. rewrite (string_lookup _ _ _ _ Hv), Hp. by eexists.
Qed.

Lemma hex_text_no_nul l : Forall octet l -> has_nul (l ≫= octet_hex) = false.
Proof.
  assert (forall x, 0 <= x < 16 -> (nth (Z.to_nat x) hex_lower x00 =b x00) = false) as Hd.
  { intros x Hx. apply byte_eqb_neq. intros E. pose proof (ssid_nibble_at x Hx) as H. by rewrite E in H. }
  induction 1 as [|o l Ho _ IH]; [done|]. change ((o :: l) ≫= octet_hex) with (octet_hex o ++ (l ≫= octet_hex)).
  rewrite has_nul_app, IH, orb_false_r. unfold octet in Ho. unfold octet_hex. change 0x0f with (Z.ones 4).
  rewrite Z.shiftr_div_pow2, Z.land_ones by lia. cbn [has_nul existsb]. by rewrite !Hd by (simpl; zdiv).
Qed.

Lemma ssid_back s : ssid_stated s = true ->
  exists t, emits (ssid_write s) t /\ reads (fun d i => ssid_read d i) s t.
Proof.
  destruct s as [has l]. unfold ssid_stated. cbn [ssid_has ssid_bytes]. intros [[Hh Hl]%andb_true_iff Ho]%andb_true_iff.
  apply forallb_octets in Ho. apply Nat.leb_le in Hl. destruct has; [|done].
  exists (JString (ssid_text (Ssid true l))). split.
  - apply emits_string, no_nul_plain. unfold ssid_text. cbn [ssid_bytes]. rewrite take_ge by done. by apply hex_text_no_nul.
  - intros d i k grant n Hg Hv. unfold ssid_read. rewrite (string_lookup _ _ _ _ Hv), ssid_roundtrip by done. by eexists.
Qed.

Lemma ssid_lawful : custom_lawful ssid_custom.
Proof.
  apply custom_lawful_plain; [done|..]; intros [has l] Hok Ho;
    cbn [ssid_custom cu_ok cu_write cu_read cu_zero custom_omits cu_omit] in *; unfold ssid_ok, ssid_omit in *;
    cbn [ssid_has ssid_bytes] in *; destruct has; try done.
  - apply bool_decide_eq_true in Hok. by subst l.
  - by apply ssid_back.
Qed.

Lemma ssid_required_lawful : custom_lawful ssid_required_custom.
Proof. apply custom_lawful_plain; [done|done|]. intros s Hok _. by apply ssid_back. Qed.

(** ** Unions *)

(** An arm of its own table, tagged by the union's. *)
Definition arm_lawful (tag : string) (t : ftype) : Prop := type_lawful t /\ type_tag t = Some (bytes tag).

Lemma union_lawful what set tag arm c :
  c = union_custom arm set (fun d node _ => union_read what set tag arm d node) (union_write set tag arm) ->
  set_lawful set -> plain (bytes tag) -> (forall kind, arm_lawful tag (arm kind)) -> custom_lawful c.
Proof.
  intros -> Hset Hplain Harm. apply custom_lawful_plain; [done|done|]. intros [kind v] Hok _.
  cbn [union_custom cu_ok cu_write cu_read cu_zero cu_value] in *. unfold union_ok in Hok. cbn [projT1 projT2] in Hok.
  apply andb_true_iff in Hok as [Hk Hv]. destruct (Harm kind) as [Hl Htag].
  destruct (enum_emits set kind Hset Hk) as (w & He & Hr).
  unfold set_ok in Hk. apply andb_true_iff in Hk as [Hint Hk]. destruct (enum_name set kind) as [w'|] eqn:Ew; [|done].
  destruct (proj1 tables_back (arm kind) Hl v Hv) as (kvs & Ha & _ & Hread).
  exists (JObject ((bytes tag, JString w') :: kvs)). split.
  - unfold union_write. cbn [projT1 projT2]. rewrite Ew. apply emits_object.
    apply (adds_app _ [_]); [|done]. apply adds_member; [done|]. apply emits_string, no_nul_plain. by apply (Hset _ _ Hint Ew).
  - intros d i key grant n Hg Hd. unfold union_read. rewrite (type_lookup _ _ _ _ Hd), bool_decide_eq_true_2 by done. cbn [negb].
    destruct (kv_present d i key _ (bytes tag) (JString w') Hd) as [Ht ->]; [unfold kv_at; simpl; by rewrite bytes_eqb_refl|].
    unfold bind. destruct (field_enum_reads set kind w' Hset Hint Ew d _ _ grant n Hg Ht) as [n1 ->].
    destruct (proj1 init_exact (arm kind) Hl grant n1 Hg) as [n2 ->].
    destruct (Hread d i key [(bytes tag, JString w')] grant n2 Hg) as [n3 ->]; [right; eauto|done|by eexists].
Qed.

(** ** Tables *)

(** What of a table is checked by computation. *)
Definition names_ok (fs : ffields) (tag : option (list byte)) : bool :=
  (field_count fs + 1 <=? CLAIMED_MAX)%nat && bool_decide (NoDup (field_names fs)) &&
  match tag with Some name => bytes_eqb (to_nul name) name && negb (bool_decide (name ∈ field_names fs)) | None => true end &&
  forallb (fun n => bytes_eqb (to_nul n) n) (field_names fs).

(** Every kind of a table is lawful with its flags. *)
Fixpoint kinds_lawful (fs : ffields) : Prop :=
  match fs with FNil => True | FCons _ flags k rest => kind_lawful flags k /\ kinds_lawful rest end.

Lemma table_lawful what fs tag : names_ok fs tag = true -> kinds_lawful fs -> type_lawful (FType what fs tag).
Proof.
  unfold names_ok. intros Hn Hk. apply andb_true_iff in Hn as [[[Hc Hd]%andb_true_iff Ht]%andb_true_iff Hp]. unbool.
  split_and!; [done|done| |].
  - intros name ->. apply andb_true_iff in Ht as [H1%bytes_eqb_true H2]. unbool. by split.
  - clear Hc Hd Ht. induction fs as [|name flags k rest IH]; [done|]. cbn [field_names forallb] in Hp.
    apply andb_true_iff in Hp as [Hp%bytes_eqb_true Hr]. destruct Hk. split_and!; auto.
Qed.

Create HintDb lawful.

(** A table, field by field. *)
Ltac table_lawful_tac :=
  apply table_lawful; [vm_compute; reflexivity|];
  repeat match goal with
         | |- kinds_lawful ?fs => try (match fs with ?f _ => unfold f | _ => unfold fs end); cbn [fields kinds_lawful]; unfold INT_IN, OPT_INT_IN, INT_LIST_IN
         | |- _ /\ _ => split
         | |- True => exact Logic.I
         | |- has_flag _ _ = true -> True => intros _; exact Logic.I
         | |- has_flag _ _ = true -> _ = _ => solve [reflexivity | intros H; exfalso; vm_compute in H; discriminate]
         | |- has_flag _ _ = true -> False => intros H; vm_compute in H; discriminate
         | |- kind_lawful _ _ => cbn [kind_lawful]
         | |- range_lawful _ _ => split; vm_compute; discriminate
         | |- set_lawful _ => set_lawful_tac
         | |- forall v, custom_omits _ v = false => reflexivity
         | |- _ => solve [eauto with lawful]
         end.

(** Every arm of a union, by its tag. *)
Ltac arms_tac := repeat match goal with |- context [?a =? ?b] => destruct (a =? b); [split; [eauto with lawful|reflexivity]|] end; split; [eauto with lawful|reflexivity].

Section Lawful.
Context {I : Inet}.

Lemma address_text_lawful : custom_lawful address_text.
Proof.
  apply custom_lawful_plain; [done|by intros [s|]|]. intros [s|] Hok Ho; [|done].
  cbn [address_text cu_ok cu_write cu_read cu_zero cu_value] in *. unfold address_text_ok in Hok.
  apply andb_true_iff in Hok as [Hn%negb_true_iff Hp]. destruct (address_parse (Some s)) as [a|] eqn:Ea; [|done].
  apply andb_true_iff in Hp as [Hpre%negb_true_iff Hr%bool_decide_eq_true]. exists (JString s).
  split; [by apply emits_string, no_nul_plain|]. intros d i key grant n Hg Hv. unfold address_text_read, bind.
  destruct (field_string_reads (WORDS "an address") s Hn d i key grant n Hg Hv) as [n' ->].
  rewrite Ea, Hpre, Hr, alloc_granted by done. by eexists.
Qed.

#[local] Hint Resolve address_text_lawful dns_mode_lawful ra_backend_lawful principal_lawful hostname_policy_lawful public_key_lawful ssid_lawful ssid_required_lawful : lawful.

Lemma version_lawful : type_lawful version_type.
Proof. table_lawful_tac. Qed.
#[local] Hint Resolve version_lawful : lawful.

Lemma secret_ref_lawful : type_lawful secret_ref_type.
Proof. table_lawful_tac. Qed.
#[local] Hint Resolve secret_ref_lawful : lawful.

Lemma prefix_ref_lawful : type_lawful prefix_ref_type.
Proof. table_lawful_tac. Qed.
#[local] Hint Resolve prefix_ref_lawful : lawful.

Lemma static_lawful : type_lawful static_type.
Proof. table_lawful_tac. Qed.
#[local] Hint Resolve static_lawful : lawful.

Lemma delegated_lawful : type_lawful delegated_type.
Proof. table_lawful_tac. Qed.
#[local] Hint Resolve delegated_lawful : lawful.

Lemma pd_request_lawful : type_lawful pd_request_type.
Proof. table_lawful_tac. Qed.
#[local] Hint Resolve pd_request_lawful : lawful.

Lemma dhcp4_lawful : type_lawful dhcp4_type.
Proof. table_lawful_tac. Qed.
#[local] Hint Resolve dhcp4_lawful : lawful.

Lemma dhcp6_lawful : type_lawful dhcp6_type.
Proof. table_lawful_tac. Qed.
#[local] Hint Resolve dhcp6_lawful : lawful.

Lemma slaac_lawful : type_lawful slaac_type.
Proof. table_lawful_tac. Qed.
#[local] Hint Resolve slaac_lawful : lawful.

Lemma link_local_lawful : type_lawful link_local_type.
Proof. table_lawful_tac. Qed.
#[local] Hint Resolve link_local_lawful : lawful.

Lemma reported_lawful : type_lawful reported_type.
Proof. table_lawful_tac. Qed.
#[local] Hint Resolve reported_lawful : lawful.

Lemma address_source_lawful : custom_lawful address_source_custom.
Proof.
  eapply union_lawful; [reflexivity|set_lawful_tac|reflexivity|]. intros kind. unfold address_source_arm, arm_lawful. arms_tac.
Qed.
#[local] Hint Resolve address_source_lawful : lawful.

Lemma route_lawful : type_lawful route_type.
Proof. table_lawful_tac. Qed.
#[local] Hint Resolve route_lawful : lawful.

Lemma hook_lawful : type_lawful hook_type.
Proof. table_lawful_tac. Qed.
#[local] Hint Resolve hook_lawful : lawful.

Lemma dns_server_lawful : type_lawful dns_server_type.
Proof. table_lawful_tac. Qed.
#[local] Hint Resolve dns_server_lawful : lawful.

Lemma routing_domain_lawful : type_lawful routing_domain_type.
Proof. table_lawful_tac. Qed.
#[local] Hint Resolve routing_domain_lawful : lawful.

Lemma dns_policy_lawful : type_lawful dns_policy_type.
Proof. table_lawful_tac. Qed.
#[local] Hint Resolve dns_policy_lawful : lawful.

Lemma cert_source_lawful : custom_lawful cert_source_custom.
Proof.
  apply custom_lawful_plain; [done|by intros []|]. intros [|path|stored] Hok Hom; [done|..]; clear Hom;
    cbn [cert_source_custom cu_ok cu_write cu_read cu_zero cu_value cert_source_ok] in *.
  - apply negb_true_iff in Hok. exists (JObject [(bytes "path", JString path)]). split; [by apply emits_one|].
    unfold cert_source_read. one_reads_tac. destruct (Hf (WORDS "a certificate path") n) as [n' ->]. by eexists.
  - destruct (object_back secret_ref_type stored) as (kvs & He & Hr); [apply tables_back|apply secret_ref_lawful|done|].
    exists (JObject [(bytes "stored", JObject kvs)]). split; [apply emits_object; by apply adds_member|].
    intros d i key grant n Hg Hv. destruct (only_lookup _ _ _ _ _ Hv) as (Hon & Ht & Hne). unfold cert_source_read. rewrite Hon.
    rewrite (other_member d i key (bytes "stored") (JObject kvs) (bytes "path") Hv) by done.
    rewrite (proj2 (Z.eqb_neq NCFG_JSON_NONE _) (not_eq_sym Hne)), andb_false_r, (proj2 (Z.eqb_neq _ _) Hne), Z.eqb_refl. cbn [negb andb].
    destruct (fresh_reads secret_ref_type stored kvs secret_ref_lawful Hr d _ _ grant n Hg Ht) as [n' E]. unfold bind in *.
    destruct (type_init secret_ref_type grant n) as [|[base m]]; [done|]. rewrite E. by eexists.
Qed.
#[local] Hint Resolve cert_source_lawful : lawful.

Lemma eap_lawful : type_lawful eap_type.
Proof. table_lawful_tac. Qed.
#[local] Hint Resolve eap_lawful : lawful.

Lemma eap_security_lawful : type_lawful eap_security_type.
Proof. table_lawful_tac. Qed.
#[local] Hint Resolve eap_security_lawful : lawful.

Lemma psk_lawful : type_lawful psk_type.
Proof. table_lawful_tac. Qed.
#[local] Hint Resolve psk_lawful : lawful.

Lemma open_security_lawful : type_lawful open_security_type.
Proof. table_lawful_tac. Qed.
#[local] Hint Resolve open_security_lawful : lawful.

Lemma owe_security_lawful : type_lawful owe_security_type.
Proof. table_lawful_tac. Qed.
#[local] Hint Resolve owe_security_lawful : lawful.

Lemma security_lawful : custom_lawful security_custom.
Proof. eapply union_lawful; [reflexivity|set_lawful_tac|reflexivity|]. intros kind. unfold security_arm, arm_lawful. arms_tac. Qed.
#[local] Hint Resolve security_lawful : lawful.

Lemma bridge_lawful : type_lawful bridge_type.
Proof. table_lawful_tac. Qed.
#[local] Hint Resolve bridge_lawful : lawful.

Lemma bond_lawful : type_lawful bond_type.
Proof. table_lawful_tac. Qed.
#[local] Hint Resolve bond_lawful : lawful.

Lemma vlan_lawful : type_lawful vlan_type.
Proof. table_lawful_tac. Qed.
#[local] Hint Resolve vlan_lawful : lawful.

Lemma vxlan_lawful : type_lawful vxlan_type.
Proof. table_lawful_tac. Qed.
#[local] Hint Resolve vxlan_lawful : lawful.

Lemma wg_peer_lawful : type_lawful wg_peer_type.
Proof. table_lawful_tac. Qed.
#[local] Hint Resolve wg_peer_lawful : lawful.

Lemma wireguard_lawful : type_lawful wireguard_type.
Proof. table_lawful_tac. Qed.
#[local] Hint Resolve wireguard_lawful : lawful.

Lemma pppoe_lawful : type_lawful pppoe_type.
Proof. table_lawful_tac. Qed.
#[local] Hint Resolve pppoe_lawful : lawful.

Lemma openvpn_lawful : type_lawful openvpn_type.
Proof. table_lawful_tac. Qed.
#[local] Hint Resolve openvpn_lawful : lawful.

Lemma veth_lawful : type_lawful veth_type.
Proof. table_lawful_tac. Qed.
#[local] Hint Resolve veth_lawful : lawful.

Lemma vrf_lawful : type_lawful vrf_type.
Proof. table_lawful_tac. Qed.
#[local] Hint Resolve vrf_lawful : lawful.

Lemma macvlan_lawful : type_lawful macvlan_type.
Proof. table_lawful_tac. Qed.
#[local] Hint Resolve macvlan_lawful : lawful.

Lemma tunnel_lawful : type_lawful tunnel_type.
Proof. table_lawful_tac. Qed.
#[local] Hint Resolve tunnel_lawful : lawful.

Lemma tun_lawful : type_lawful tun_type.
Proof. table_lawful_tac. Qed.
#[local] Hint Resolve tun_lawful : lawful.

Lemma mesh_point_lawful : type_lawful mesh_point_type.
Proof. table_lawful_tac. Qed.
#[local] Hint Resolve mesh_point_lawful : lawful.

Lemma radio_lawful : type_lawful radio_type.
Proof. table_lawful_tac. Qed.
#[local] Hint Resolve radio_lawful : lawful.

Lemma physical_lawful : type_lawful physical_type.
Proof. table_lawful_tac. Qed.
#[local] Hint Resolve physical_lawful : lawful.

Lemma dummy_lawful : type_lawful dummy_type.
Proof. table_lawful_tac. Qed.
#[local] Hint Resolve dummy_lawful : lawful.

Lemma ifb_lawful : type_lawful ifb_type.
Proof. table_lawful_tac. Qed.
#[local] Hint Resolve ifb_lawful : lawful.

Lemma interface_kind_lawful : custom_lawful interface_kind_custom.
Proof. eapply union_lawful; [reflexivity|set_lawful_tac|reflexivity|]. intros kind. unfold kind_arm, arm_lawful. arms_tac. Qed.
#[local] Hint Resolve interface_kind_lawful : lawful.

Lemma bridge_vlan_lawful : type_lawful bridge_vlan_type.
Proof. table_lawful_tac. Qed.
#[local] Hint Resolve bridge_vlan_lawful : lawful.

Lemma qdisc_lawful : type_lawful qdisc_type.
Proof. table_lawful_tac. Qed.
#[local] Hint Resolve qdisc_lawful : lawful.

Lemma link_settings_lawful : type_lawful link_settings_type.
Proof. table_lawful_tac. Qed.
#[local] Hint Resolve link_settings_lawful : lawful.

Lemma device_match_lawful : type_lawful device_match_type.
Proof. table_lawful_tac. Qed.
#[local] Hint Resolve device_match_lawful : lawful.

Lemma wifi_device_lawful : type_lawful wifi_device_type.
Proof. table_lawful_tac. Qed.
#[local] Hint Resolve wifi_device_lawful : lawful.

Lemma modem_lawful : type_lawful modem_type.
Proof. table_lawful_tac. Qed.
#[local] Hint Resolve modem_lawful : lawful.

Lemma device_lawful : type_lawful device_type.
Proof. table_lawful_tac. Qed.
#[local] Hint Resolve device_lawful : lawful.

Lemma ra_lawful : type_lawful ra_type.
Proof. table_lawful_tac. Qed.
#[local] Hint Resolve ra_lawful : lawful.

Lemma dhcp_host_lawful : type_lawful dhcp_host_type.
Proof. table_lawful_tac. Qed.
#[local] Hint Resolve dhcp_host_lawful : lawful.

Lemma dhcp_option_lawful : type_lawful dhcp_option_type.
Proof. table_lawful_tac. Qed.
#[local] Hint Resolve dhcp_option_lawful : lawful.

Lemma dhcp_server_lawful : type_lawful dhcp_server_type.
Proof. table_lawful_tac. Qed.
#[local] Hint Resolve dhcp_server_lawful : lawful.

Lemma port_forward_lawful : type_lawful port_forward_type.
Proof. table_lawful_tac. Qed.
#[local] Hint Resolve port_forward_lawful : lawful.

Lemma guard_lawful : type_lawful guard_type.
Proof. table_lawful_tac. Qed.
#[local] Hint Resolve guard_lawful : lawful.

Lemma probe_lawful : type_lawful probe_type.
Proof. table_lawful_tac. Qed.
#[local] Hint Resolve probe_lawful : lawful.

Lemma interface_lawful : type_lawful interface_type.
Proof. table_lawful_tac. Qed.
#[local] Hint Resolve interface_lawful : lawful.

Lemma roam_lawful : type_lawful roam_type.
Proof. table_lawful_tac. Qed.
#[local] Hint Resolve roam_lawful : lawful.

Lemma network_lawful : type_lawful network_type.
Proof. table_lawful_tac. Qed.
#[local] Hint Resolve network_lawful : lawful.

Lemma access_control_lawful : type_lawful access_control_type.
Proof. table_lawful_tac. Qed.
#[local] Hint Resolve access_control_lawful : lawful.

Lemma neighbour_lawful : type_lawful neighbour_type.
Proof. table_lawful_tac. Qed.
#[local] Hint Resolve neighbour_lawful : lawful.

Lemma steering_lawful : type_lawful steering_type.
Proof. table_lawful_tac. Qed.
#[local] Hint Resolve steering_lawful : lawful.

Lemma access_point_lawful : type_lawful access_point_type.
Proof. table_lawful_tac. Qed.
#[local] Hint Resolve access_point_lawful : lawful.

Lemma mesh_lawful : type_lawful mesh_type.
Proof. table_lawful_tac. Qed.
#[local] Hint Resolve mesh_lawful : lawful.

Lemma dns_record_lawful : type_lawful dns_record_type.
Proof. table_lawful_tac. Qed.
#[local] Hint Resolve dns_record_lawful : lawful.

Lemma block_list_lawful : type_lawful block_list_type.
Proof. table_lawful_tac. Qed.
#[local] Hint Resolve block_list_lawful : lawful.

Lemma host_list_lawful : type_lawful host_list_type.
Proof. table_lawful_tac. Qed.
#[local] Hint Resolve host_list_lawful : lawful.

Lemma rule_lawful : type_lawful rule_type.
Proof. table_lawful_tac. Qed.
#[local] Hint Resolve rule_lawful : lawful.

Lemma bluetooth_lawful : type_lawful bluetooth_type.
Proof. table_lawful_tac. Qed.
#[local] Hint Resolve bluetooth_lawful : lawful.

Lemma linkset_lawful : type_lawful linkset_type.
Proof. table_lawful_tac. Qed.
#[local] Hint Resolve linkset_lawful : lawful.

Lemma control_lawful : type_lawful control_type.
Proof. table_lawful_tac. Qed.
#[local] Hint Resolve control_lawful : lawful.

Lemma remote_lawful : type_lawful remote_type.
Proof. table_lawful_tac. Qed.
#[local] Hint Resolve remote_lawful : lawful.

Lemma connectivity_table_lawful : type_lawful connectivity_type.
Proof. table_lawful_tac. Qed.

(** The patterns a host that says nothing has. *)
Definition default_ignore : list (option (list byte)) := map (fun word => Some (bytes word)) connectivity_default_ignore_words.

Lemma default_ignore_made grant n : grants grant -> exists n', connectivity_default_ignore grant n = inr (default_ignore, n').
Proof. intros Hg. unfold connectivity_default_ignore, bind, alloc. cbn [foldr connectivity_default_ignore_words]. rewrite !Hg. by eexists. Qed.

Lemma connectivity_cinit : cinit connectivity_custom = (0, (default_ignore, tt)).
Proof. reflexivity. Qed.

Lemma requires_set_lawful : set_lawful requires_set.
Proof. set_lawful_tac. Qed.

(** Both members are always written, so nothing is left of what was there. *)
Lemma connectivity_back v : type_ok connectivity_type v = true ->
  exists t, emits (connectivity_write v) t /\ reads (fun d i => connectivity_read d i (cinit connectivity_custom)) v t.
Proof.
  destruct v as [requires [ignore []]]. intros Hok. assert (set_ok requires_set requires = true /\ forallb str_ok ignore = true) as [Hr Hi].
  { revert Hok. cbn -[set_ok]. rewrite !andb_true_r. apply andb_true_iff. }
  destruct (enum_emits requires_set requires requires_set_lawful Hr) as (w & He & Hread).
  destruct (str_list_back 0) with (v := ignore) as [_ (t & Ht & Hback)]; [split; [done|exact Logic.I]|done|done|].
  exists (JObject [(bytes "requires", JString w); (bytes "ignore", t)]). split.
  - apply emits_object. apply (adds_app (_ :: _) [_] _ [_]); [by apply adds_member|]. rewrite app_nil_r. by apply adds_member.
  - intros d i key grant n Hg Hv.
    destruct (kv_present d i key _ (bytes "requires") (JString w) Hv eq_refl) as [H1 N1].
    destruct (kv_present d i key _ (bytes "ignore") t Hv eq_refl) as [H2 N2].
    set (name := bytes "requires") in *. set (name' := bytes "ignore") in *. set (owner := "connectivity policy"%string) in *.
    assert (exists n1, read_one d (F_ENUM requires_set NCFG_REQUIRES_ROUTE) name owner (json_member d i name) 0 grant n = inr (requires, n1))
      as [n1 E1] by exact (reads_plain _ (ret 0) _ _ Hread d _ _ grant n Hg H1).
    assert (exists n2, read_one d F_STR_LIST name' owner (json_member d i name') default_ignore grant n1 = inr (ignore, n2))
      as [n2 E2] by exact (Hback name' owner d _ _ grant n1 Hg H2).
    assert (type_read d connectivity_type i (0, (default_ignore, tt)) grant n = inr ((requires, (ignore, tt)), n2)) as E.
    { unfold connectivity_type, connectivity_fields. cbn [fields type_read fields_read field_count fst snd]. fold name name' owner.
      rewrite (type_lookup _ _ _ _ Hv), bool_decide_eq_true_2, N1, N2, (count_lookup_object _ _ _ _ Hv) by done.
      unfold bind. cbn [negb Nat.add Nat.ltb Nat.leb CLAIMED_MAX]. by rewrite E1, E2. }
    exists n2. rewrite connectivity_cinit. unfold connectivity_read. fold name'. rewrite N2. unfold bind. by rewrite E.
Qed.

Lemma connectivity_lawful : custom_lawful connectivity_custom.
Proof.
  split.
  - intros init grant n [= <-] Hg. rewrite connectivity_cinit. unfold connectivity_init, bind.
    destruct (default_ignore_made grant n Hg) as [n' ->]. by eexists.
  - intros [requires [ignore []]] _ Ho. rewrite connectivity_cinit. unfold custom_omits in Ho. cbn [connectivity_custom cu_omit] in Ho.
    unfold connectivity_omit in Ho. apply andb_true_iff in Ho as [H1%Z.eqb_eq H2%bool_decide_eq_true].
    change (requires = 0) in H1. change (ignore = default_ignore) in H2. by subst.
  - intros v Hok _. by apply connectivity_back.
Qed.
#[local] Hint Resolve connectivity_lawful : lawful.



Lemma upnp_lawful : type_lawful upnp_type.
Proof. table_lawful_tac. Qed.
#[local] Hint Resolve upnp_lawful : lawful.

Lemma globals_lawful : type_lawful globals_type.
Proof. table_lawful_tac. Qed.
#[local] Hint Resolve globals_lawful : lawful.

Lemma firewall_rule_lawful : type_lawful firewall_rule_type.
Proof. table_lawful_tac. Qed.
#[local] Hint Resolve firewall_rule_lawful : lawful.

Lemma firewall_chain_lawful : type_lawful firewall_chain_type.
Proof. table_lawful_tac. Qed.
#[local] Hint Resolve firewall_chain_lawful : lawful.

Lemma firewall_lawful : type_lawful firewall_type.
Proof. table_lawful_tac. Qed.
#[local] Hint Resolve firewall_lawful : lawful.

Lemma document_lawful : type_lawful document_type.
Proof. table_lawful_tac. Qed.
#[local] Hint Resolve document_lawful : lawful.
End Lawful.
