(* ===== verification/Canonical.v ===== *)
(** * Canonical: canonicalisation and validation of a document

    [model/canonical.c]. A comparison answers an integer of which the sign
    counts. Sorting in place is a function on lists; a member that is sorted
    in place is an [update]. *)
From S2P Require Import Prelude Lex Wire Value Json JsonWrite DocText Field Document.
#[local] Open Scope string_scope.
#[local] Open Scope list_scope.
#[local] Open Scope Z_scope.

(** ** The sort *)

Section Sort.
Context {A : Type} (compare : A -> A -> Z).

(** The inner loop of [stable_sort]: an item sinks below the items before it,
    nearest first, while they are strictly greater. *)
Fixpoint sink (earlier : list A) (item : A) : list A :=
  match earlier with
  | [] => [item]
  | e :: before => if compare e item <=? 0 then item :: earlier else e :: sink before item
  end.

(** [stable_sort]; the items already in order are kept last first. *)
Definition stable_sort (items : list A) : list A := rev (foldl sink [] items).
End Sort.

(** ** Comparisons *)

(** The sign of [strcmp] and [memcmp]: the first difference. *)
Fixpoint octets_compare (a b : list Z) : Z :=
  match a, b with
  | [], [] => 0
  | [], _ :: _ => -1
  | _ :: _, [] => 1
  | x :: a, y :: b => if x =? y then octets_compare a b else x - y
  end.

Definition text_compare (a b : list byte) : Z := octets_compare (map bz a) (map bz b).

Definition flag (b : bool) : Z := if b then 1 else 0.
Definition present {A} (o : option A) : Z := match o with Some _ => 1 | None => 0 end.

Definition compare_text (left right : option (list byte)) : Z :=
  match left, right with
  | Some l, Some r => text_compare l r
  | _, _ => present left - present right
  end.

Definition compare_optint (left right : option Z) : Z :=
  match left, right with
  | Some _, None => 1
  | None, Some _ => -1
  | None, None => 0
  | Some l, Some r => if l =? r then 0 else if l <? r then -1 else 1
  end.

Definition compare_flag (left right : bool) : Z := flag left - flag right.

Definition compare_int (left right : Z) : Z := if left =? right then 0 else if left <? right then -1 else 1.

(** The chain of comparisons of the source, each asked when those before it
    said nothing. *)
Definition then_compare (difference : Z) (next : Z) : Z := if negb (difference =? 0) then difference else next.
Notation "a ⨾ b" := (then_compare a b) (at level 60, right associativity).

Section Canonical.
Context {I : Inet}.

Definition compare_address (left right : option (list byte)) : Z :=
  match left, right with
  | Some l, Some r =>
      match address_parse left, address_parse right with
      | Some one, Some other =>
          if negb (bool_decide (ad_is_ipv6 one = ad_is_ipv6 other)) then if ad_is_ipv6 one then 1 else -1
          else
            let n := width (ad_is_ipv6 one) in
            octets_compare (take n (ad_bytes one)) (take n (ad_bytes other)) ⨾
            (if negb (bool_decide (ad_has_prefix one = ad_has_prefix other)) then if ad_has_prefix one then 1 else -1
             else compare_int (ad_prefix one) (ad_prefix other))
      | _, _ => text_compare l r
      end
  | _, _ => present left - present right
  end.

Definition compare_strings (left right : option (list byte)) : Z := compare_text left right.

Definition compare_device (left right : value device_type) : Z := compare_text (get device_type "name" left) (get device_type "name" right).
Definition compare_interface (left right : value interface_type) : Z :=
  compare_text (get interface_type "name" left) (get interface_type "name" right).
Definition compare_network (left right : value network_type) : Z := compare_text (get network_type "id" left) (get network_type "id" right).
Definition compare_bluetooth (left right : value bluetooth_type) : Z := compare_text (get bluetooth_type "id" left) (get bluetooth_type "id" right).
Definition compare_access_point (left right : value access_point_type) : Z :=
  compare_text (get access_point_type "id" left) (get access_point_type "id" right).
Definition compare_mesh (left right : value mesh_type) : Z := compare_text (get mesh_type "id" left) (get mesh_type "id" right).
Definition compare_neighbour (left right : value neighbour_type) : Z :=
  compare_text (get neighbour_type "bssid" left) (get neighbour_type "bssid" right).
Definition compare_dns_record (left right : value dns_record_type) : Z :=
  compare_text (get dns_record_type "name" left) (get dns_record_type "name" right).
Definition compare_block_list (left right : value block_list_type) : Z :=
  compare_text (get block_list_type "name" left) (get block_list_type "name" right).
Definition compare_dhcp_option (left right : value dhcp_option_type) : Z :=
  compare_text (get dhcp_option_type "name" left) (get dhcp_option_type "name" right).
Definition compare_dhcp_host (left right : value dhcp_host_type) : Z :=
  compare_text (get dhcp_host_type "name" left) (get dhcp_host_type "name" right).
Definition compare_port_forward (left right : value port_forward_type) : Z :=
  compare_text (get port_forward_type "name" left) (get port_forward_type "name" right).
Definition compare_host_list (left right : value host_list_type) : Z :=
  compare_text (get host_list_type "name" left) (get host_list_type "name" right).
Definition compare_linkset (left right : value linkset_type) : Z := compare_text (get linkset_type "name" left) (get linkset_type "name" right).
Definition compare_peer (left right : value wg_peer_type) : Z := compare_text (get wg_peer_type "name" left) (get wg_peer_type "name" right).

Definition compare_rule (one other : value rule_type) : Z :=
  compare_int (get rule_type "priority" one) (get rule_type "priority" other) ⨾
  compare_text (shim_name rule_family_name (get rule_type "family" one)) (shim_name rule_family_name (get rule_type "family" other)) ⨾
  compare_text (get rule_type "id" one) (get rule_type "id" other).

Definition compare_route (one other : value route_type) : Z :=
  compare_text (get route_type "destination" one) (get route_type "destination" other) ⨾
  compare_address (get route_type "via" one) (get route_type "via" other) ⨾
  compare_optint (get route_type "metric" one) (get route_type "metric" other) ⨾
  compare_optint (get route_type "table" one) (get route_type "table" other) ⨾
  compare_address (get route_type "src" one) (get route_type "src" other) ⨾
  compare_optint (get route_type "scope" one) (get route_type "scope" other) ⨾
  compare_flag (get route_type "onlink" one) (get route_type "onlink" other) ⨾
  compare_optint (get route_type "proto" one) (get route_type "proto" other).

Definition compare_hook (one other : value hook_type) : Z :=
  compare_int (get hook_type "phase" one) (get hook_type "phase" other) ⨾
  compare_text (get hook_type "path" one) (get hook_type "path" other) ⨾
  compare_text (get hook_type "sha256" one) (get hook_type "sha256" other) ⨾
  compare_text (get hook_type "run_as" one) (get hook_type "run_as" other) ⨾
  compare_optint (get hook_type "timeout" one) (get hook_type "timeout" other).

Definition compare_bridge_vlan (one other : value bridge_vlan_type) : Z :=
  compare_int (get bridge_vlan_type "vid" one) (get bridge_vlan_type "vid" other) ⨾
  compare_flag (get bridge_vlan_type "pvid" one) (get bridge_vlan_type "pvid" other) ⨾
  compare_flag (get bridge_vlan_type "untagged" one) (get bridge_vlan_type "untagged" other).

Definition compare_prefix_ref (one other : value prefix_ref_type) : Z :=
  compare_text (get prefix_ref_type "source" one) (get prefix_ref_type "source" other) ⨾
  compare_int (get prefix_ref_type "index" one) (get prefix_ref_type "index" other) ⨾
  compare_int (get prefix_ref_type "subnet" one) (get prefix_ref_type "subnet" other).

Definition compare_dns_server (one other : value dns_server_type) : Z :=
  compare_address (get dns_server_type "addr" one) (get dns_server_type "addr" other) ⨾
  compare_optint (get dns_server_type "port" one) (get dns_server_type "port" other) ⨾
  compare_text (get dns_server_type "sni" one) (get dns_server_type "sni" other).

Definition compare_routing_domain (one other : value routing_domain_type) : Z :=
  compare_text (get routing_domain_type "suffix" one) (get routing_domain_type "suffix" other) ⨾
  compare_flag (get routing_domain_type "exclusive" one) (get routing_domain_type "exclusive" other).

(** ** Sets of strings *)

(** The loop of [sort_set] over the sorted items; [kept] is the last kept. *)
Fixpoint drop_repeats (kept : option (list byte)) (items : list (option (list byte))) : list (option (list byte)) :=
  match items with
  | [] => []
  | x :: items => if compare_text kept x =? 0 then drop_repeats kept items else x :: drop_repeats x items
  end.

Definition sort_set (items : list (option (list byte))) : list (option (list byte)) :=
  match stable_sort compare_strings items with [] => [] | x :: rest => x :: drop_repeats x rest end.

(** ** Canonicalisation *)

(** The arm a tag names, changed in place. *)
Definition on_arm (arm : Z -> ftype) (tag : Z) (f : value (arm tag) -> value (arm tag)) (u : union arm) : union arm :=
  match decide (projT1 u = tag) with
  | left e => existT tag (f (eq_rect (projT1 u) (fun k => value (arm k)) (projT2 u) tag e))
  | right _ => u
  end.

Definition canonicalize_dns (dns : value dns_policy_type) : value dns_policy_type :=
  update dns_policy_type "domains" (stable_sort compare_routing_domain)
    (update dns_policy_type "servers" (stable_sort compare_dns_server) dns).

Definition canonicalize_access_control (acl : value access_control_type) : value access_control_type :=
  update access_control_type "written" sort_set
    (update access_control_type "lists" sort_set
      (update access_control_type "prefixes" sort_set
        (update access_control_type "stations" sort_set acl))).

Definition canonicalize_access_point (ap : value access_point_type) : value access_point_type :=
  update access_point_type "access_control" (option_map canonicalize_access_control)
    (update access_point_type "neighbours" (stable_sort compare_neighbour) ap).

Definition canonicalize_firewall_rule (rule : value firewall_rule_type) : value firewall_rule_type :=
  update firewall_rule_type "mac_written" sort_set
    (update firewall_rule_type "mac_lists" sort_set (update firewall_rule_type "mac" sort_set rule)).

Definition canonicalize_chain (chain : value firewall_chain_type) : value firewall_chain_type :=
  update firewall_chain_type "rules" (map canonicalize_firewall_rule) chain.

Definition canonicalize_firewall (firewall : value firewall_type) : value firewall_type :=
  update firewall_type "output" canonicalize_chain
    (update firewall_type "forward" canonicalize_chain (update firewall_type "input" canonicalize_chain firewall)).

Definition canonicalize_dhcp_server (server : value dhcp_server_type) : value dhcp_server_type :=
  update dhcp_server_type "options" (stable_sort compare_dhcp_option)
    (update dhcp_server_type "hosts" (stable_sort compare_dhcp_host) server).

(** The first loop over the interfaces: the server and the port forwards. *)
Definition canonicalize_served (interface : value interface_type) : value interface_type :=
  update interface_type "port_forwards" (stable_sort compare_port_forward)
    (update interface_type "dhcp_server" (option_map canonicalize_dhcp_server) interface).

Definition canonicalize_host_list (list : value host_list_type) : value host_list_type := update host_list_type "mac" sort_set list.

Definition canonicalize_peer (peer : value wg_peer_type) : value wg_peer_type :=
  update wg_peer_type "allowed_ips" (stable_sort compare_strings) peer.

Definition canonicalize_wireguard (wireguard : value wireguard_type) : value wireguard_type :=
  update wireguard_type "peers" (fun peers => map canonicalize_peer (stable_sort compare_peer peers)) wireguard.

(** The [switch] on the kind; the tags are distinct, so one arm at most is
    reached. *)
Definition canonicalize_kind (kind : union kind_arm) : union kind_arm :=
  on_arm kind_arm NCFG_KIND_BOND (update bond_type "members" (stable_sort compare_strings))
    (on_arm kind_arm NCFG_KIND_BRIDGE (update bridge_type "members" (stable_sort compare_strings))
      (on_arm kind_arm NCFG_KIND_WIREGUARD canonicalize_wireguard kind)).

Definition canonicalize_device (device : value device_type) : value device_type :=
  update device_type "kind" canonicalize_kind (update device_type "bridge_vlans" (stable_sort compare_bridge_vlan) device).

Definition canonicalize_advertise (advertise : value ra_type) : value ra_type :=
  update ra_type "static_prefixes" sort_set (update ra_type "prefixes" (stable_sort compare_prefix_ref) advertise).

(** The second loop over the interfaces. *)
Definition canonicalize_interface (interface : value interface_type) : value interface_type :=
  update interface_type "advertise" (option_map canonicalize_advertise)
    (update interface_type "dns" (option_map canonicalize_dns)
      (update interface_type "hooks" (stable_sort compare_hook)
        (update interface_type "routes" (stable_sort compare_route) interface))).

Definition canonicalize_network (network : value network_type) : value network_type :=
  update network_type "dns" (option_map canonicalize_dns)
    (update network_type "hooks" (stable_sort compare_hook)
      (update network_type "routes" (stable_sort compare_route) network)).

(** [ncfg_document_canonicalize], a step per statement. *)
Definition document_canonicalize (document : value document_type) : value document_type :=
  let document := update document_type "devices" (stable_sort compare_device) document in
  let document := update document_type "interfaces" (stable_sort compare_interface) document in
  let document := update document_type "networks" (stable_sort compare_network) document in
  let document := update document_type "bluetooth" (stable_sort compare_bluetooth) document in
  let document := update document_type "rules" (stable_sort compare_rule) document in
  let document := update document_type "access_points" (stable_sort compare_access_point) document in
  let document := update document_type "meshes" (stable_sort compare_mesh) document in
  let document := update document_type "linksets" (stable_sort compare_linkset) document in
  let document := update document_type "access_points" (map canonicalize_access_point) document in
  let document := update document_type "firewall" (option_map canonicalize_firewall) document in
  let document := update document_type "host_lists" (stable_sort compare_host_list) document in
  let document := update document_type "dns_records" (stable_sort compare_dns_record) document in
  let document := update document_type "block_lists" (stable_sort compare_block_list) document in
  let document := update document_type "interfaces" (map canonicalize_served) document in
  let document := update document_type "host_lists" (map canonicalize_host_list) document in
  let document := update document_type "devices" (map canonicalize_device) document in
  let document := update document_type "interfaces" (map canonicalize_interface) document in
  let document := update document_type "networks" (map canonicalize_network) document in
  update document_type "globals" (update globals_type "dns" canonicalize_dns) document.

(** ** Validation *)

Definition NCFG_SCHEMA_MAJOR : Z := 1.
Definition NCFG_SCHEMA_MINOR : Z := 1.

Inductive invalid :=
| WRONG_SCHEMA (major minor : Z)
| DUPLICATE (collection : string) (key : option (list byte))
| MORE_THAN_ONCE (scope : option (list byte)) (kind : Z)
| CANNOT_ROUTE (scope : option (list byte)) (mode : Z)
| NOT_ABSOLUTE (path : option (list byte))
| NO_MEMORY_TO_VALIDATE.

(** [check_unique]: each key against those before it. *)
Fixpoint check_unique (collection : string) (before keys : list (option (list byte))) : option invalid :=
  match keys with
  | [] => None
  | k :: keys =>
      if existsb (fun b => compare_text k b =? 0) before then Some (DUPLICATE collection k)
      else check_unique collection (before ++ [k]) keys
  end.

(** [ncfg_address_source_is_singleton]. *)
Definition address_source_is_singleton (kind : Z) : bool :=
  (kind =? NCFG_ADDRESS_SOURCE_DHCP4) || (kind =? NCFG_ADDRESS_SOURCE_DHCP6) || (kind =? NCFG_ADDRESS_SOURCE_SLAAC) ||
  (kind =? NCFG_ADDRESS_SOURCE_LINK_LOCAL) || (kind =? 6).

Fixpoint check_multiplicity (scope : option (list byte)) (before kinds : list Z) : option invalid :=
  match kinds with
  | [] => None
  | k :: kinds =>
      if address_source_is_singleton k && existsb (Z.eqb k) before then Some (MORE_THAN_ONCE scope k)
      else check_multiplicity scope (before ++ [k]) kinds
  end.

(** [ncfg_dns_mode_can_route]: not [none], [write_resolv_conf] or [resolvconf]. *)
Definition dns_mode_can_route (mode : Z) : bool := negb ((mode =? 0) || (mode =? 1) || (mode =? 2)).

(** [ncfg_dns_policy_needs_routing]. *)
Definition dns_policy_needs_routing (policy : option (value dns_policy_type)) : bool :=
  match policy with
  | Some p => match (get dns_policy_type "domains" p : list (value routing_domain_type)) with [] => false | _ => true end
  | None => false
  end.

Definition check_dns_capability (scope : option (list byte)) (dns : option (value dns_policy_type)) (host_mode : Z) : option invalid :=
  match dns with
  | None => None
  | Some p =>
      let mode := dm_mode (get dns_policy_type "mode" p) in
      let effective := if mode =? 0 then host_mode else mode in
      if dns_policy_needs_routing dns && negb (dns_mode_can_route effective) then Some (CANNOT_ROUTE scope effective) else None
  end.

Fixpoint check_hooks (paths : list (option (list byte))) : option invalid :=
  match paths with
  | [] => None
  | path :: paths =>
      match path with
      | Some (c :: _) => if c =b "/" then check_hooks paths else Some (NOT_ABSOLUTE path)
      | _ => Some (NOT_ABSOLUTE path)
      end
  end.

(** The first refusal of a sequence of checks. *)
Definition first_of (a b : option invalid) : option invalid := match a with Some e => Some e | None => b end.
Notation "a ⨟ b" := (first_of a b) (at level 60, right associativity).

Fixpoint first_among {A} (check : A -> option invalid) (l : list A) : option invalid :=
  match l with [] => None | x :: l => check x ⨟ first_among check l end.

Definition check_scope (scope : option (list byte)) (addressing : list (union address_source_arm))
    (dns : option (value dns_policy_type)) (hooks : list (value hook_type)) (host_mode : Z) : option invalid :=
  check_multiplicity scope [] (map (fun s => projT1 s) addressing) ⨟
  check_dns_capability scope dns host_mode ⨟
  check_hooks (map (get hook_type "path") hooks).

(** [ncfg_document_validate]; [grant] answers the request for the keys, which
    is made when there is anything to hold. *)
Definition document_validate (grant : bool) (document : value document_type) : option invalid :=
  let version := get document_type "schema_version" document in
  let devices : list (value device_type) := get document_type "devices" document in
  let interfaces : list (value interface_type) := get document_type "interfaces" document in
  let networks : list (value network_type) := get document_type "networks" document in
  let globals := get document_type "globals" document in
  let dns : value dns_policy_type := get globals_type "dns" globals in
  let host_mode := dm_mode (get dns_policy_type "mode" dns) in
  (if negb (get version_type "major" version =? NCFG_SCHEMA_MAJOR)
   then Some (WRONG_SCHEMA (get version_type "major" version) (get version_type "minor" version)) else None) ⨟
  (if negb ((length devices =? 0)%nat && (length interfaces =? 0)%nat && (length networks =? 0)%nat) && negb grant
   then Some NO_MEMORY_TO_VALIDATE else None) ⨟
  check_unique "device" [] (map (get device_type "name") devices) ⨟
  check_unique "interface" [] (map (get interface_type "name") interfaces) ⨟
  check_unique "network" [] (map (get network_type "id") networks) ⨟
  check_dns_capability (Some (bytes "globals")) (Some dns) host_mode ⨟
  first_among (fun interface : value interface_type =>
    check_scope (get interface_type "name" interface) (get interface_type "addressing" interface)
      (get interface_type "dns" interface) (get interface_type "hooks" interface) host_mode) interfaces ⨟
  first_among (fun network : value network_type =>
    check_scope (get network_type "id" network) (get network_type "addressing" network)
      (get network_type "dns" network) (get network_type "hooks" network) host_mode) networks.
End Canonical.
