(* ===== verification/CanonicalSpec.v ===== *)
(** * CanonicalSpec: the sort of the canonical form

    [Canonical.stable_sort] permutes its items. When the comparison answers
    with opposite signs for swapped arguments, the result is in order and
    sorting again changes nothing; when it is an order on distinct keys, the
    result depends on the items alone and not on the order they came in.

    The comparisons of [Canonical] have opposite signs for swapped arguments,
    and that of texts is an order. So canonicalisation is idempotent, it keeps
    what the tables can carry, and documents whose named lists hold the same
    entries in another order have one canonical form. *)
From stdpp Require Import sorting.
From S2P Require Import Prelude Lex Wire Value Json JsonWrite DocText Field Document Canonical.
#[local] Open Scope Z_scope.

Section Sort.
Context {A : Type} (compare : A -> A -> Z).

Lemma sink_permutes earlier x : sink compare earlier x ≡ₚ x :: earlier.
Proof. induction earlier as [|e l IH]; [done|]. simpl. destruct (_ <=? _); [done|]. by rewrite IH, Permutation_swap. Qed.

Lemma foldl_sink_permutes acc l : foldl (sink compare) acc l ≡ₚ acc ++ l.
Proof.
  revert acc. induction l as [|x l IH]; intros acc; simpl; [by rewrite app_nil_r|]. rewrite IH, sink_permutes.
  by rewrite <- Permutation_middle.
Qed.

Lemma stable_sort_permutes l : stable_sort compare l ≡ₚ l.
Proof. unfold stable_sort. by rewrite <- Permutation_rev, foldl_sink_permutes. Qed.

(** The items so far, last first, each not below the next. *)
Fixpoint descending (l : list A) : Prop :=
  match l with x :: ((e :: _) as l') => compare e x <= 0 /\ descending l' | _ => True end.

(** Opposite signs. *)
Definition opposite : Prop := forall a b, Z.sgn (compare b a) = - Z.sgn (compare a b).

Lemma opposite_above a b : opposite -> 0 < compare a b -> compare b a <= 0.
Proof. intros H Hab. specialize (H a b). destruct (compare a b), (compare b a); simpl in *; lia. Qed.

Lemma sink_descending l x : opposite -> descending l -> descending (sink compare l x).
Proof.
  intros Hopp. induction l as [|e l IH]; intros Hl; [done|]. simpl. destruct (Z.leb_spec (compare e x) 0) as [H|H]; [done|].
  assert (compare x e <= 0) as Hx by (by apply opposite_above).
  destruct l as [|e' l]; [done|]. destruct Hl as [He Hl]. specialize (IH Hl). cbn [sink] in *. destruct (compare e' x <=? 0); done.
Qed.

Lemma foldl_sink_descending acc l : opposite -> descending acc -> descending (foldl (sink compare) acc l).
Proof. intros Hopp. revert acc. induction l as [|x l IH]; intros acc Ha; simpl; [done|]. by apply IH, sink_descending. Qed.

Lemma foldl_sink_in_order acc l : descending (rev l ++ acc) -> foldl (sink compare) acc l = rev l ++ acc.
Proof.
  revert acc. induction l as [|x l IH]; intros acc Hd; [done|]. simpl in *. rewrite <- app_assoc in *. simpl in *.
  assert (sink compare acc x = x :: acc) as ->.
  { destruct acc as [|e acc]; [done|]. simpl. enough (compare e x <= 0) by (by rewrite (proj2 (Z.leb_le _ _))).
    clear IH. induction (rev l) as [|y k IHk]; [by destruct Hd|]. apply IHk. destruct k; by destruct Hd. }
  by rewrite IH.
Qed.

Lemma stable_sort_idempotent l : opposite -> stable_sort compare (stable_sort compare l) = stable_sort compare l.
Proof.
  intros Hopp. unfold stable_sort at 1. unfold stable_sort at 1. f_equal. rewrite foldl_sink_in_order; rewrite rev_involutive, app_nil_r; [done|].
  by apply foldl_sink_descending.
Qed.

Lemma stable_sort_nil l : stable_sort compare l = [] <-> l = [].
Proof.
  split; [|by intros ->]. intros E. pose proof (stable_sort_permutes l) as H. rewrite E in H. by apply Permutation_nil_l in H.
Qed.

Lemma stable_sort_elem l x : x ∈ stable_sort compare l <-> x ∈ l.
Proof. by rewrite stable_sort_permutes. Qed.

Lemma forallb_stable_sort (p : A -> bool) l : forallb p (stable_sort compare l) = forallb p l.
Proof.
  apply eq_true_iff_eq. rewrite !forallb_forall. setoid_rewrite <- list_elem_of_In. by setoid_rewrite stable_sort_elem.
Qed.

(** A function that keeps the comparison commutes with the sort. *)
Lemma stable_sort_map (f : A -> A) l :
  (forall a b, compare (f a) (f b) = compare a b) -> stable_sort compare (map f l) = map f (stable_sort compare l).
Proof.
  intros Hf. unfold stable_sort. rewrite map_rev. f_equal.
  enough (forall acc, foldl (sink compare) (map f acc) (map f l) = map f (foldl (sink compare) acc l)) as H by exact (H []).
  induction l as [|x l IH]; intros acc; [done|]. simpl. rewrite <- IH. f_equal.
  induction acc as [|e acc IHa]; [done|]. simpl. rewrite Hf. destruct (_ <=? _); [done|]. simpl. by rewrite IHa.
Qed.

(** *** In order *)

Definition below (a b : A) : Prop := compare a b <= 0.

Lemma descending_sorted l : descending l -> Sorted (flip below) l.
Proof.
  induction l as [|x l IH]; [constructor|]. intros H. destruct l as [|e l]; [by repeat constructor|]. destruct H. constructor; [by apply IH|]. by constructor.
Qed.

Lemma stable_sort_sorted l : opposite -> Sorted below (stable_sort compare l).
Proof.
  intros Hopp. unfold stable_sort. assert (Sorted (flip below) (foldl (sink compare) [] l)) as H
    by (by apply descending_sorted, foldl_sink_descending).
  revert H. generalize (foldl (sink compare) [] l) as k. intros k.
  induction k as [|x k IH]; [done|]. intros Hk. apply Sorted_inv in Hk as [Hk Hd]. simpl.
  apply Sorted_snoc; [by apply IH|]. destruct k as [|z k]; [constructor|]. apply HdRel_inv in Hd. simpl. by constructor.
Qed.

(** The result is decided by the items when no two compare equal. *)
Lemma stable_sort_unique l k :
  opposite -> (forall a b c, compare a b <= 0 -> compare b c <= 0 -> compare a c <= 0) ->
  (forall a b, a ∈ l -> b ∈ l -> compare a b = 0 -> a = b) -> l ≡ₚ k -> stable_sort compare l = stable_sort compare k.
Proof.
  intros Hopp Htrans Hanti Hp.
  assert (Transitive below) as Ht by (intros a b c; apply Htrans).
  apply (StronglySorted_unique_strong below).
  - intros a b Ha Hb Hab Hba. rewrite stable_sort_elem in Ha, Hb. rewrite <- Hp in Hb. apply Hanti; [done..|].
    unfold below in *. pose proof (Hopp a b). destruct (compare a b), (compare b a); simpl in *; lia.
  - by apply Sorted_StronglySorted, stable_sort_sorted.
  - by apply Sorted_StronglySorted, stable_sort_sorted.
  - by rewrite !stable_sort_permutes.
Qed.
End Sort.

(** ** Members changed in place *)

Lemma update_of_compose fs name f g v : update_of fs name f (update_of fs name g v) = update_of fs name (fun x => f (g x)) v.
Proof.
  induction fs as [|n flags k rest IH]; [done|]. revert f g. simpl. destruct (String.eqb n name); intros f g; simpl; [done|]. by rewrite IH.
Qed.

Lemma update_of_ext fs name f g v : (forall x, f x = g x) -> update_of fs name f v = update_of fs name g v.
Proof.
  intros H. induction fs as [|n flags k rest IH]; [done|]. revert f g H. simpl. destruct (String.eqb n name); intros f g H; simpl; [by rewrite H|].
  by rewrite (IH f g).
Qed.

Lemma update_of_commute fs name name' f g v :
  name <> name' -> update_of fs name f (update_of fs name' g v) = update_of fs name' g (update_of fs name f v).
Proof.
  intros Hne. induction fs as [|n flags k rest IH]; [done|]. revert f g. simpl. destruct (String.eqb n name) eqn:E, (String.eqb n name') eqn:E';
    intros f g; simpl; try done; [|by rewrite IH].
  apply String.eqb_eq in E, E'. congruence.
Qed.

Definition idempotent {A} (f : A -> A) : Prop := forall x, f (f x) = f x.

Lemma update_idempotent t name f : idempotent f -> idempotent (update t name f).
Proof. destruct t as [what fs tag]. intros H v. simpl. rewrite update_of_compose. by apply update_of_ext. Qed.

Lemma update_commute t name name' f g v :
  String.eqb name name' = false -> update t name f (update t name' g v) = update t name' g (update t name f v).
Proof. destruct t as [what fs tag]. intros H%String.eqb_neq. by apply update_of_commute. Qed.

(** A change of one member after changes of others, all idempotent. *)
Lemma then_idempotent {A} (f g : A -> A) : idempotent f -> idempotent g -> (forall x, f (g x) = g (f x)) -> idempotent (fun x => f (g x)).
Proof. intros Hf Hg Hc x. by rewrite <- Hc, Hg, Hf. Qed.

(** ** Comparisons *)

Lemma octets_opposite : opposite octets_compare.
Proof.
  intros a. induction a as [|x a IH]; intros [|y b]; try done. simpl. rewrite (Z.eqb_sym y x). destruct (Z.eqb_spec x y); [done|].
  destruct (x - y) eqn:E, (y - x) eqn:E'; simpl; lia.
Qed.

Lemma octets_zero a b : octets_compare a b = 0 <-> a = b.
Proof.
  revert b. induction a as [|x a IH]; intros [|y b]; try done. simpl. destruct (Z.eqb_spec x y) as [->|H].
  - rewrite IH. split; [by intros ->|by intros [= ->]].
  - split; [lia|by intros [= ? ?]].
Qed.

Lemma octets_trans a b c : octets_compare a b <= 0 -> octets_compare b c <= 0 -> octets_compare a c <= 0.
Proof.
  revert b c. induction a as [|x a IH]; intros [|y b] [|z c]; simpl; try lia.
  destruct (Z.eqb_spec x y), (Z.eqb_spec y z), (Z.eqb_spec x z); subst; try lia. apply IH.
Qed.

Lemma map_bz_inj (a b : list byte) : map bz a = map bz b -> a = b.
Proof. revert b. induction a as [|x a IH]; intros [|y b] H; try done. injection H as H1%bz_inj H2%IH. by subst. Qed.

Lemma text_opposite : opposite compare_text.
Proof. intros [a|] [b|]; try done. apply octets_opposite. Qed.

Lemma text_zero a b : compare_text a b = 0 <-> a = b.
Proof.
  destruct a as [a|], b as [b|]; simpl; try done. unfold text_compare. rewrite octets_zero.
  split; [by intros ->%map_bz_inj|by intros [= ->]].
Qed.

Lemma text_trans a b c : compare_text a b <= 0 -> compare_text b c <= 0 -> compare_text a c <= 0.
Proof. destruct a as [a|], b as [b|], c as [c|]; simpl; try lia. apply octets_trans. Qed.

Lemma int_opposite : opposite compare_int.
Proof. intros a b. unfold compare_int. rewrite (Z.eqb_sym b a). destruct (Z.eqb_spec a b); [done|]. destruct (Z.ltb_spec a b), (Z.ltb_spec b a); simpl; lia. Qed.

Lemma optint_opposite : opposite compare_optint.
Proof. intros [a|] [b|]; try done. apply int_opposite. Qed.

Lemma flag_opposite : opposite compare_flag.
Proof. by intros [] []. Qed.

Lemma opposite_on {A B} (f : B -> A) compare : opposite compare -> opposite (fun a b => compare (f a) (f b)).
Proof. intros H a b. apply H. Qed.

Lemma sgn_zero x y : Z.sgn y = - Z.sgn x -> (y =? 0) = (x =? 0).
Proof. by destruct x, y. Qed.

Lemma opposite_then {A} (c1 c2 : A -> A -> Z) : opposite c1 -> opposite c2 -> opposite (fun a b => then_compare (c1 a b) (c2 a b)).
Proof.
  intros H1 H2 a b. unfold then_compare. rewrite (sgn_zero _ _ (H1 a b)). destruct (c1 a b =? 0); [apply H2|apply H1].
Qed.

Section Canonical.
Context {I : Inet}.

Lemma address_opposite : opposite compare_address.
Proof.
  intros [a|] [b|]; try done. unfold compare_address. destruct (address_parse (Some a)) as [one|], (address_parse (Some b)) as [other|];
    try apply octets_opposite.
  destruct (ad_is_ipv6 one), (ad_is_ipv6 other); try done; rewrite !bool_decide_eq_true_2 by done; cbn [negb];
    unfold then_compare; rewrite (sgn_zero _ _ (octets_opposite (take _ (ad_bytes one)) (take _ (ad_bytes other))));
    (destruct (octets_compare (take _ (ad_bytes one)) _ =? 0); [|apply octets_opposite]); cbn [negb];
    destruct (ad_has_prefix one), (ad_has_prefix other); try done; rewrite !bool_decide_eq_true_2 by done; apply int_opposite.
Qed.

End Canonical.

(** Comparisons made of comparisons. *)
Ltac opposite_tac :=
  match goal with
  | |- opposite (fun a b => then_compare _ _) => apply opposite_then; opposite_tac
  | |- opposite (fun a b => compare_text (@?f a) _) => exact (opposite_on f compare_text text_opposite)
  | |- opposite (fun a b => compare_int (@?f a) _) => exact (opposite_on f compare_int int_opposite)
  | |- opposite (fun a b => compare_optint (@?f a) _) => exact (opposite_on f compare_optint optint_opposite)
  | |- opposite (fun a b => compare_flag (@?f a) _) => exact (opposite_on f compare_flag flag_opposite)
  | |- opposite (fun a b => compare_address (@?f a) _) => exact (opposite_on f compare_address address_opposite)
  end.

Section Forms.
Context {I : Inet}.

Lemma rule_opposite : opposite compare_rule.
Proof. unfold compare_rule. opposite_tac. Qed.
Lemma route_opposite : opposite compare_route.
Proof. unfold compare_route. opposite_tac. Qed.
Lemma hook_opposite : opposite compare_hook.
Proof. unfold compare_hook. opposite_tac. Qed.
Lemma bridge_vlan_opposite : opposite compare_bridge_vlan.
Proof. unfold compare_bridge_vlan. opposite_tac. Qed.
Lemma prefix_ref_opposite : opposite compare_prefix_ref.
Proof. unfold compare_prefix_ref. opposite_tac. Qed.
Lemma dns_server_opposite : opposite compare_dns_server.
Proof. unfold compare_dns_server. opposite_tac. Qed.
Lemma routing_domain_opposite : opposite compare_routing_domain.
Proof. unfold compare_routing_domain. opposite_tac. Qed.

(** The comparisons by one name. *)
Lemma named_opposite {A} (key : A -> option (list byte)) : opposite (fun a b => compare_text (key a) (key b)).
Proof. apply (opposite_on key), text_opposite. Qed.

Lemma named_unique {A} (key : A -> option (list byte)) l k :
  NoDup (map key l) -> l ≡ₚ k ->
  stable_sort (fun a b => compare_text (key a) (key b)) l = stable_sort (fun a b => compare_text (key a) (key b)) k.
Proof.
  intros Hnd Hp. apply stable_sort_unique; [apply named_opposite| | |done].
  - intros a b c. apply text_trans.
  - intros a b Ha Hb Hz%text_zero. apply list_elem_of_lookup in Ha as [i Hi]. apply list_elem_of_lookup in Hb as [j Hj].
    assert (i = j) as ->; [|congruence]. eapply NoDup_lookup; [exact Hnd| |]; rewrite list_lookup_fmap, ?Hi, ?Hj; simpl; [done|by rewrite Hz].
Qed.

(** ** Sets *)

Lemma drop_repeats_elem kept l x : x ∈ kept :: drop_repeats kept l <-> x ∈ kept :: l.
Proof.
  revert kept. induction l as [|y l IH]; intros kept; [done|]. simpl. destruct (Z.eqb_spec (compare_text kept y) 0) as [->%text_zero|H].
  - rewrite IH, !elem_of_cons. naive_solver.
  - rewrite elem_of_cons, IH, !elem_of_cons. naive_solver.
Qed.

Lemma drop_repeats_sorted kept l :
  Sorted (below compare_text) (kept :: l) ->
  Sorted (below compare_text) (kept :: drop_repeats kept l) /\ NoDup (kept :: drop_repeats kept l).
Proof.
  enough (Sorted (below compare_text) (kept :: l) -> StronglySorted (fun a b => compare_text a b < 0) (kept :: drop_repeats kept l)) as H.
  { intros Hs%H. clear H. revert Hs. generalize (kept :: drop_repeats kept l) as items. intros items Hs. split.
    - apply StronglySorted_Sorted in Hs. induction Hs as [|x k Hk IH Hd]; constructor; [done|].
      destruct Hd; constructor. unfold below. lia.
    - induction Hs as [|x k Hk IH Hf]; constructor; [|done]. intros Hin. rewrite Forall_forall in Hf. specialize (Hf x Hin).
      assert (compare_text x x = 0) by (by apply text_zero). lia. }
  revert kept. induction l as [|y l IH]; intros kept Hs; simpl; [by repeat constructor|].
  apply Sorted_inv in Hs as [Hs Hd%HdRel_inv]. destruct (Z.eqb_spec (compare_text kept y) 0) as [->%text_zero|Hne]; [by apply IH|].
  specialize (IH y Hs). constructor; [done|]. assert (compare_text kept y < 0) as Hlt by (unfold below in Hd; lia).
  constructor; [done|]. apply StronglySorted_inv in IH as [_ Hf]. eapply Forall_impl; [exact Hf|]. intros z Hz. cbv beta in Hz |- *.
  assert (compare_text kept z <= 0) as Hle by (eapply text_trans; [exact Hd|]; lia).
  destruct (Z.eq_dec (compare_text kept z) 0) as [->%text_zero|]; [|lia].
  pose proof (text_opposite y z). destruct (compare_text y z), (compare_text z y); simpl in *; lia.
Qed.

Lemma sort_set_spec l :
  Sorted (below compare_text) (sort_set l) /\ NoDup (sort_set l) /\ forall x, x ∈ sort_set l <-> x ∈ l.
Proof.
  unfold sort_set. pose proof (stable_sort_sorted compare_strings l text_opposite) as Hs.
  pose proof (stable_sort_elem compare_strings l) as He. destruct (stable_sort compare_strings l) as [|y k].
  - split_and!; [constructor|constructor|done].
  - destruct (drop_repeats_sorted y k Hs). split_and!; [done..|]. intros x. by rewrite drop_repeats_elem, He.
Qed.

(** The form of a set is decided by its members. *)
Lemma sort_set_ext l k : (forall x, x ∈ l <-> x ∈ k) -> sort_set l = sort_set k.
Proof.
  intros H. destruct (sort_set_spec l) as (S1 & N1 & E1), (sort_set_spec k) as (S2 & N2 & E2).
  assert (Transitive (below compare_text)) by (intros a b c; apply text_trans).
  apply (StronglySorted_unique_strong (below compare_text)); [|by apply Sorted_StronglySorted..|].
  - intros a b _ _ Hab Hba. apply text_zero. unfold below in *. pose proof (text_opposite a b).
    destruct (compare_text a b), (compare_text b a); simpl in *; lia.
  - apply NoDup_Permutation; [done..|]. intros x. by rewrite E1, E2.
Qed.

Lemma sort_set_idempotent l : sort_set (sort_set l) = sort_set l.
Proof. apply sort_set_ext. apply sort_set_spec. Qed.

Lemma option_idempotent {A} (f : A -> A) : idempotent f -> idempotent (option_map f).
Proof. intros H [x|]; [|done]. simpl. by rewrite H. Qed.

Lemma map_idempotent {A} (f : A -> A) : idempotent f -> idempotent (map f).
Proof. intros H l. rewrite map_map. apply map_ext. done. Qed.

(** A list sorted by a comparison that the entries' own canonical form keeps. *)
Lemma entries_idempotent {A} (compare : A -> A -> Z) (f : A -> A) :
  opposite compare -> (forall a b, compare (f a) (f b) = compare a b) -> idempotent f ->
  idempotent (fun l => map f (stable_sort compare l)).
Proof. intros Ho Hc Hf l. by rewrite stable_sort_map, stable_sort_idempotent, map_idempotent. Qed.

End Forms.

Ltac members_commute :=
  first [reflexivity | rewrite update_commute by reflexivity; match goal with |- update ?t ?n ?f _ = _ => apply (f_equal (update t n f)) end; members_commute].

(** Each member of a struct changed on its own. *)
Ltac members_idempotent :=
  repeat match goal with
         | |- idempotent (fun x => update _ _ _ x) => apply update_idempotent
         | |- idempotent (fun x => update ?t ?n ?f (@?g x)) =>
             apply (then_idempotent (update t n f) g); [apply update_idempotent| |intros ?; cbv beta; members_commute]
         | |- idempotent (update _ _ _) => apply update_idempotent
         | |- idempotent (stable_sort _) => intros ?; apply stable_sort_idempotent
         | |- idempotent sort_set => exact sort_set_idempotent
         | |- idempotent (option_map _) => apply option_idempotent
         | |- idempotent (map _) => apply map_idempotent
         end.

Section Document.
Context {I : Inet}.

(** ** Canonicalisation, member by member *)

Lemma canonical_members version generated globals devices interfaces networks bluetooth rules points linksets firewall meshes hosts
    records blocks :
  document_canonicalize (version, (generated, (globals, (devices, (interfaces, (networks, (bluetooth, (rules, (points, (linksets,
    (firewall, (meshes, (hosts, (records, (blocks, tt))))))))))))))) =
  (version, (generated, (update globals_type "dns" canonicalize_dns globals,
  (map canonicalize_device (stable_sort compare_device devices),
  (map canonicalize_interface (map canonicalize_served (stable_sort compare_interface interfaces)),
  (map canonicalize_network (stable_sort compare_network networks),
  (stable_sort compare_bluetooth bluetooth, (stable_sort compare_rule rules,
  (map canonicalize_access_point (stable_sort compare_access_point points),
  (stable_sort compare_linkset linksets, (option_map canonicalize_firewall firewall, (stable_sort compare_mesh meshes,
  (map canonicalize_host_list (stable_sort compare_host_list hosts),
  (stable_sort compare_dns_record records, (stable_sort compare_block_list blocks, tt))))))))))))))).
Proof. reflexivity. Qed.

Lemma dns_idempotent : idempotent canonicalize_dns.
Proof. unfold canonicalize_dns. members_idempotent; [apply routing_domain_opposite|apply dns_server_opposite]. Qed.

Lemma access_control_idempotent : idempotent canonicalize_access_control.
Proof. unfold canonicalize_access_control. members_idempotent. Qed.

Lemma access_point_idempotent : idempotent canonicalize_access_point.
Proof. unfold canonicalize_access_point. members_idempotent; [apply access_control_idempotent|apply named_opposite]. Qed.

Lemma chain_idempotent : idempotent canonicalize_chain.
Proof. unfold canonicalize_chain. members_idempotent. unfold canonicalize_firewall_rule. members_idempotent. Qed.

Lemma firewall_idempotent : idempotent canonicalize_firewall.
Proof. unfold canonicalize_firewall. members_idempotent; apply chain_idempotent. Qed.

Lemma dhcp_server_idempotent : idempotent canonicalize_dhcp_server.
Proof. unfold canonicalize_dhcp_server. members_idempotent; apply named_opposite. Qed.

Lemma host_list_idempotent : idempotent canonicalize_host_list.
Proof. unfold canonicalize_host_list. members_idempotent. Qed.

Lemma peer_idempotent : idempotent canonicalize_peer.
Proof. unfold canonicalize_peer. members_idempotent. apply text_opposite. Qed.

Lemma wireguard_idempotent : idempotent canonicalize_wireguard.
Proof.
  unfold canonicalize_wireguard. members_idempotent. apply entries_idempotent; [apply named_opposite|reflexivity|apply peer_idempotent].
Qed.

(** Changes of an arm. *)
Lemma on_arm_compose arm tag f g u : on_arm arm tag f (on_arm arm tag g u) = on_arm arm tag (fun x => f (g x)) u.
Proof.
  unfold on_arm at 2 3. destruct (decide (projT1 u = tag)) as [e|Hne].
  - unfold on_arm. cbn [projT1 projT2]. destruct (decide (tag = tag)) as [e'|]; [|done]. by rewrite (proof_irrel e' eq_refl).
  - unfold on_arm. by destruct (decide _).
Qed.

Lemma on_arm_ext arm tag f g u : (forall x, f x = g x) -> on_arm arm tag f u = on_arm arm tag g u.
Proof. intros H. unfold on_arm. destruct (decide _); [|done]. by rewrite H. Qed.

Lemma on_arm_idempotent arm tag f : idempotent f -> idempotent (on_arm arm tag f).
Proof. intros H u. rewrite on_arm_compose. by apply on_arm_ext. Qed.

Lemma on_arm_tag arm tag f u : projT1 (on_arm arm tag f u) = projT1 u.
Proof. unfold on_arm. by destruct (decide _). Qed.

Lemma on_arm_other arm tag f u : projT1 u <> tag -> on_arm arm tag f u = u.
Proof. intros H. unfold on_arm. by destruct (decide _). Qed.

Lemma on_arm_commute arm tag tag' f g u : tag <> tag' -> on_arm arm tag f (on_arm arm tag' g u) = on_arm arm tag' g (on_arm arm tag f u).
Proof.
  intros Hne. destruct (decide (projT1 u = tag)) as [e|].
  - rewrite (on_arm_other arm tag' g u) by congruence. symmetry. apply on_arm_other. rewrite on_arm_tag. congruence.
  - rewrite (on_arm_other arm tag f u) by done. apply on_arm_other. by rewrite on_arm_tag.
Qed.

Lemma kind_idempotent : idempotent canonicalize_kind.
Proof.
  unfold canonicalize_kind. apply (then_idempotent (on_arm kind_arm NCFG_KIND_BOND _)).
  - apply on_arm_idempotent. members_idempotent. apply text_opposite.
  - apply (then_idempotent (on_arm kind_arm NCFG_KIND_BRIDGE _)).
    + apply on_arm_idempotent. members_idempotent. apply text_opposite.
    + apply on_arm_idempotent, wireguard_idempotent.
    + intros u. by apply on_arm_commute.
  - intros u. rewrite on_arm_commute by done. f_equal. by apply on_arm_commute.
Qed.

Lemma device_idempotent : idempotent canonicalize_device.
Proof. unfold canonicalize_device. members_idempotent; [apply kind_idempotent|apply bridge_vlan_opposite]. Qed.

Lemma advertise_idempotent : idempotent canonicalize_advertise.
Proof. unfold canonicalize_advertise. members_idempotent. apply prefix_ref_opposite. Qed.

Lemma interface_idempotent : idempotent (fun interface => canonicalize_interface (canonicalize_served interface)).
Proof.
  unfold canonicalize_interface, canonicalize_served. members_idempotent;
    [apply advertise_idempotent|apply dns_idempotent|apply hook_opposite|apply route_opposite|apply named_opposite|apply dhcp_server_idempotent].
Qed.

Lemma network_idempotent : idempotent canonicalize_network.
Proof. unfold canonicalize_network. members_idempotent; [apply dns_idempotent|apply hook_opposite|apply route_opposite]. Qed.

Lemma canonicalize_idempotent_form document : document_canonicalize (document_canonicalize document) = document_canonicalize document.
Proof.
  destruct document as (version & generated & globals & devices & interfaces & networks & bluetooth & rules & points & linksets &
    firewall & meshes & hosts & records & blocks & []).
  rewrite !canonical_members, !map_map.
  rewrite (update_idempotent globals_type "dns" _ dns_idempotent globals), (option_idempotent _ firewall_idempotent firewall).
  rewrite (entries_idempotent compare_device canonicalize_device (named_opposite _) (fun _ _ => eq_refl) device_idempotent devices).
  rewrite (entries_idempotent compare_interface (fun i => canonicalize_interface (canonicalize_served i)) (named_opposite _) (fun _ _ => eq_refl) interface_idempotent interfaces).
  rewrite (entries_idempotent compare_network canonicalize_network (named_opposite _) (fun _ _ => eq_refl) network_idempotent networks).
  rewrite (entries_idempotent compare_access_point canonicalize_access_point (named_opposite _) (fun _ _ => eq_refl) access_point_idempotent points).
  rewrite (entries_idempotent compare_host_list canonicalize_host_list (named_opposite _) (fun _ _ => eq_refl) host_list_idempotent hosts).
  rewrite (stable_sort_idempotent compare_bluetooth _ (named_opposite _)), (stable_sort_idempotent compare_rule _ rule_opposite).
  rewrite (stable_sort_idempotent compare_linkset _ (named_opposite _)), (stable_sort_idempotent compare_mesh _ (named_opposite _)).
  by rewrite (stable_sort_idempotent compare_dns_record _ (named_opposite _)), (stable_sort_idempotent compare_block_list _ (named_opposite _)).
Qed.

(** Canonicalisation is idempotent: a canonical document is its own
    canonical form, whatever the document held before, addresses that do not
    parse included. *)
Theorem canonicalize_idempotent document : document_canonicalize (document_canonicalize document) = document_canonicalize document.
Proof. apply canonicalize_idempotent_form. Qed.

(** ** Canonicalisation keeps what the tables carry *)

(** A change of a member that keeps what it may hold and whether it is left
    out. *)
Definition keeps (o : option fkind) : (member_type o -> member_type o) -> Prop :=
  match o return (member_type o -> member_type o) -> Prop with
  | Some k => fun f => (forall x, kind_ok k x = true -> kind_ok k (f x) = true) /\ (forall flags x, omit flags k (f x) = omit flags k x)
  | None => fun _ => True
  end.

Definition carries (t : ftype) (f : value t -> value t) : Prop := forall v, type_ok t v = true -> type_ok t (f v) = true.

Lemma update_of_ok fs name f v : keeps (kind_of_field fs name) f -> fields_ok fs v = true -> fields_ok fs (update_of fs name f v) = true.
Proof.
  induction fs as [|n flags k rest IH]; [done|]. revert f. cbn [update_of kind_of_field]. destruct v as [x xs].
  destruct (String.eqb n name); intros f Hk; cbn [fields_ok fst snd]; intros [[H1 H2]%andb_true_iff H3]%andb_true_iff.
  - destruct Hk as [Hk Ho]. apply andb_true_iff. split; [|done]. apply andb_true_iff. split; [|by apply Hk]. rewrite <- H1. do 2 f_equal. apply Ho.
  - apply andb_true_iff. split; [|by apply IH]. apply andb_true_iff. by split.
Qed.

Lemma update_carries t name f : keeps (kind_of_field (type_fields t) name) f -> carries t (update t name f).
Proof. destruct t as [what fs tag]. intros H v. by apply update_of_ok. Qed.

Definition keeps_nil {A} (f : list A -> list A) : Prop := forall l, match f l with [] => true | _ => false end = match l with [] => true | _ => false end.

Lemma sort_keeps_nil {A} (compare : A -> A -> Z) : keeps_nil (stable_sort compare).
Proof.
  intros l. pose proof (stable_sort_nil compare l) as [H1 H2]. destruct (stable_sort compare l), l; try done; [by specialize (H1 eq_refl)|by specialize (H2 eq_refl)].
Qed.

Lemma map_keeps_nil {A} (f : A -> A) : keeps_nil (map f).
Proof. by intros []. Qed.

Lemma set_keeps_nil : keeps_nil sort_set.
Proof.
  intros l. pose proof (stable_sort_nil compare_strings l) as [H1 H2]. unfold sort_set.
  destruct (stable_sort compare_strings l), l; try done; [by specialize (H1 eq_refl)|by specialize (H2 eq_refl)].
Qed.

Lemma keeps_list t f : (forall l, forallb (type_ok t) l = true -> forallb (type_ok t) (f l) = true) -> keeps_nil f -> keeps (Some (F_LIST t)) f.
Proof. intros H Hn. split; [exact H|]. intros flags l. unfold omit. destruct (has_flag _ _); [done|]. by rewrite Hn. Qed.

Lemma keeps_sort t compare : keeps (Some (F_LIST t)) (stable_sort compare).
Proof. apply keeps_list; [|apply sort_keeps_nil]. intros l. by rewrite forallb_stable_sort. Qed.

Lemma keeps_map t f : carries t f -> keeps (Some (F_LIST t)) (map f).
Proof.
  intros H. apply keeps_list; [|apply map_keeps_nil]. intros l. rewrite !forallb_forall. intros Hl x Hx. apply in_map_iff in Hx as (y & <- & Hy). auto.
Qed.

Lemma keeps_strings f : (forall l, forallb str_ok l = true -> forallb str_ok (f l) = true) -> keeps_nil f -> keeps (Some F_STR_LIST) f.
Proof. intros H Hn. split; [exact H|]. intros flags l. unfold omit. destruct (has_flag _ _); [done|]. by rewrite Hn. Qed.

Lemma keeps_sort_strings : keeps (Some F_STR_LIST) (stable_sort compare_strings).
Proof. apply keeps_strings; [|apply sort_keeps_nil]. intros l. by rewrite forallb_stable_sort. Qed.

Lemma keeps_sort_set : keeps (Some F_STR_LIST) sort_set.
Proof.
  apply keeps_strings; [|apply set_keeps_nil]. intros l. rewrite !forallb_forall. intros H x Hx%list_elem_of_In.
  apply H, list_elem_of_In. by apply sort_set_spec.
Qed.

Lemma keeps_option t f : carries t f -> keeps (Some (F_OPT_STRUCT t)) (option_map f).
Proof. intros H. split; [intros [x|]; [apply H|done]|]. intros flags [x|]; unfold omit; by destruct (has_flag _ _). Qed.

Lemma keeps_struct t f : carries t f -> keeps (Some (F_STRUCT t)) f.
Proof. intros H. split; [exact H|]. intros flags x. unfold omit. by destruct (has_flag _ _). Qed.

Lemma carries_then t f g : carries t f -> carries t g -> carries t (fun v => f (g v)).
Proof. intros Hf Hg v Hv. by apply Hf, Hg. Qed.

Lemma on_arm_ok arm set tag f u : carries (arm tag) f -> union_ok arm set u = true -> union_ok arm set (on_arm arm tag f u) = true.
Proof.
  intros Hf. unfold union_ok, on_arm. destruct (decide (projT1 u = tag)) as [e|]; [|done]. destruct u as [k v]. cbn [projT1 projT2] in *.
  destruct e. simpl. intros [H1 H2]%andb_true_iff. by rewrite H1, Hf.
Qed.

Create HintDb carries.

Ltac carries_tac :=
  repeat match goal with
         | |- carries _ (fun x => update _ _ _ x) => apply update_carries
         | |- carries _ (fun x => update ?t ?n ?f (@?g x)) => apply (carries_then _ (update t n f) g)
         | |- carries _ (update _ _ _) => apply update_carries
         | |- keeps ?o _ => first [exact (keeps_sort _ _) | exact keeps_sort_strings | exact keeps_sort_set
                                  | refine (keeps_map _ _ _) | refine (keeps_option _ _ _) | refine (keeps_struct _ _ _)]
         | |- carries _ _ => solve [eauto with carries]
         end.

Lemma dns_carries : carries dns_policy_type canonicalize_dns.
Proof. unfold canonicalize_dns. carries_tac. Qed.

Lemma access_control_carries : carries access_control_type canonicalize_access_control.
Proof. unfold canonicalize_access_control. carries_tac. Qed.
#[local] Hint Resolve dns_carries access_control_carries : carries.

Lemma access_point_carries : carries access_point_type canonicalize_access_point.
Proof. unfold canonicalize_access_point. carries_tac. Qed.
Lemma firewall_rule_carries : carries firewall_rule_type canonicalize_firewall_rule.
Proof. unfold canonicalize_firewall_rule. carries_tac. Qed.
#[local] Hint Resolve access_point_carries firewall_rule_carries : carries.
Lemma chain_carries : carries firewall_chain_type canonicalize_chain.
Proof. unfold canonicalize_chain. carries_tac. Qed.
#[local] Hint Resolve chain_carries : carries.
Lemma firewall_carries : carries firewall_type canonicalize_firewall.
Proof. unfold canonicalize_firewall. carries_tac. Qed.
Lemma dhcp_server_carries : carries dhcp_server_type canonicalize_dhcp_server.
Proof. unfold canonicalize_dhcp_server. carries_tac. Qed.
Lemma host_list_carries : carries host_list_type canonicalize_host_list.
Proof. unfold canonicalize_host_list. carries_tac. Qed.
Lemma peer_carries : carries wg_peer_type canonicalize_peer.
Proof. unfold canonicalize_peer. carries_tac. Qed.
Lemma advertise_carries : carries ra_type canonicalize_advertise.
Proof. unfold canonicalize_advertise. carries_tac. Qed.
#[local] Hint Resolve firewall_carries dhcp_server_carries host_list_carries peer_carries advertise_carries : carries.

Lemma wireguard_carries : carries wireguard_type canonicalize_wireguard.
Proof.
  unfold canonicalize_wireguard. apply update_carries. refine (keeps_list _ _ _ _).
  - intros l Hl. apply (proj1 (keeps_map _ _ peer_carries)). cbn [kind_ok]. by rewrite forallb_stable_sort.
  - intros l. by rewrite (map_keeps_nil canonicalize_peer), (sort_keeps_nil compare_peer).
Qed.

Lemma kind_carries : forall k, union_ok kind_arm interface_kind_set k = true -> union_ok kind_arm interface_kind_set (canonicalize_kind k) = true.
Proof.
  intros k Hk. unfold canonicalize_kind. apply on_arm_ok; [apply (update_carries bond_type), keeps_sort_strings|].
  apply on_arm_ok; [apply (update_carries bridge_type), keeps_sort_strings|]. apply on_arm_ok; [apply wireguard_carries|done].
Qed.

Lemma device_carries : carries device_type canonicalize_device.
Proof.
  unfold canonicalize_device. apply (carries_then _ (update device_type "kind" canonicalize_kind)); [|carries_tac].
  apply update_carries. split; [apply kind_carries|]. intros flags x. unfold omit. by destruct (has_flag _ _).
Qed.

Lemma served_carries : carries interface_type canonicalize_served.
Proof. unfold canonicalize_served. carries_tac. Qed.
Lemma interface_carries : carries interface_type canonicalize_interface.
Proof. unfold canonicalize_interface. carries_tac. Qed.
Lemma network_carries : carries network_type canonicalize_network.
Proof. unfold canonicalize_network. carries_tac. Qed.
Lemma globals_carries : carries globals_type (update globals_type "dns" canonicalize_dns).
Proof. carries_tac. Qed.
#[local] Hint Resolve device_carries served_carries interface_carries network_carries globals_carries : carries.

Lemma document_carries : carries document_type document_canonicalize.
Proof. unfold document_canonicalize. cbv zeta. carries_tac. Qed.

(** ** Order does not matter *)

(** The same entries, by name, in another order. *)
Definition reordered {A} (key : A -> option (list byte)) (l k : list A) : Prop := NoDup (map key l) /\ l ≡ₚ k.

Definition member_same (name : string) (d d' : value document_type) : Prop := get document_type name d = get document_type name d'.

(** Two documents that hold the same entries under the same names. *)
Record same_entries (d d' : value document_type) : Prop := SameEntries {
  se_version : member_same "schema_version" d d';
  se_generated : member_same "generated_by" d d';
  se_globals : member_same "globals" d d';
  se_rules : member_same "rules" d d';
  se_firewall : member_same "firewall" d d';
  se_devices : reordered (get device_type "name") (get document_type "devices" d) (get document_type "devices" d');
  se_interfaces : reordered (get interface_type "name") (get document_type "interfaces" d) (get document_type "interfaces" d');
  se_networks : reordered (get network_type "id") (get document_type "networks" d) (get document_type "networks" d');
  se_bluetooth : reordered (get bluetooth_type "id") (get document_type "bluetooth" d) (get document_type "bluetooth" d');
  se_points : reordered (get access_point_type "id") (get document_type "access_points" d) (get document_type "access_points" d');
  se_linksets : reordered (get linkset_type "name") (get document_type "linksets" d) (get document_type "linksets" d');
  se_meshes : reordered (get mesh_type "id") (get document_type "meshes" d) (get document_type "meshes" d');
  se_hosts : reordered (get host_list_type "name") (get document_type "host_lists" d) (get document_type "host_lists" d');
  se_records : reordered (get dns_record_type "name") (get document_type "dns_records" d) (get document_type "dns_records" d');
  se_blocks : reordered (get block_list_type "name") (get document_type "block_lists" d) (get document_type "block_lists" d') }.

Lemma reordered_sort {A} (key : A -> option (list byte)) l k :
  reordered key l k -> stable_sort (fun a b => compare_text (key a) (key b)) l = stable_sort (fun a b => compare_text (key a) (key b)) k.
Proof. intros [Hn Hp]. by apply named_unique. Qed.

Lemma canonical_forms_agree d d' : same_entries d d' -> document_canonicalize d = document_canonicalize d'.
Proof.
  destruct d as (version & generated & globals & devices & interfaces & networks & bluetooth & rules & points & linksets &
    firewall & meshes & hosts & records & blocks & []).
  destruct d' as (version' & generated' & globals' & devices' & interfaces' & networks' & bluetooth' & rules' & points' & linksets' &
    firewall' & meshes' & hosts' & records' & blocks' & []).
  intros [E1 E2 E3 E4 E5 H1%reordered_sort H2%reordered_sort H3%reordered_sort H4%reordered_sort H5%reordered_sort H6%reordered_sort
    H7%reordered_sort H8%reordered_sort H9%reordered_sort H10%reordered_sort].
  rewrite !canonical_members.
  change (version = version') in E1. change (generated = generated') in E2. change (globals = globals') in E3.
  change (rules = rules') in E4. change (firewall = firewall') in E5. subst.
  change (stable_sort compare_device devices = stable_sort compare_device devices') in H1.
  change (stable_sort compare_interface interfaces = stable_sort compare_interface interfaces') in H2.
  change (stable_sort compare_network networks = stable_sort compare_network networks') in H3.
  change (stable_sort compare_bluetooth bluetooth = stable_sort compare_bluetooth bluetooth') in H4.
  change (stable_sort compare_access_point points = stable_sort compare_access_point points') in H5.
  change (stable_sort compare_linkset linksets = stable_sort compare_linkset linksets') in H6.
  change (stable_sort compare_mesh meshes = stable_sort compare_mesh meshes') in H7.
  change (stable_sort compare_host_list hosts = stable_sort compare_host_list hosts') in H8.
  change (stable_sort compare_dns_record records = stable_sort compare_dns_record records') in H9.
  change (stable_sort compare_block_list blocks = stable_sort compare_block_list blocks') in H10.
  by rewrite H1, H2, H3, H4, H5, H6, H7, H8, H9, H10.
Qed.
End Document.
