(* ===== verification/DocumentOps.v ===== *)
(** * DocumentOps: the operations on a whole document

    The end of [model/document.c]: a new document, reading and writing one,
    the canonical encoding, the copy of a firewall, and the lookups by name.
    [grant] answers the requests for memory of the reader, by number;
    [realloc_ok] those of the buffers and of the JSON reader. *)
From S2P Require Import Prelude Buf Lex Wire Value Json JsonWrite DocText Field Document Canonical.
#[local] Open Scope string_scope.
#[local] Open Scope list_scope.
#[local] Open Scope Z_scope.
#[local] Open Scope field_scope.

Section Document.
Context {I : Inet} (realloc_ok : Z -> bool) (grant : nat -> bool).

Inductive document_refusal := NOT_JSON (e : string * Z) | NOT_A_DOCUMENT (e : refusal) | NOT_VALID (e : invalid).

(** [ncfg_document_new]. *)
Definition document_new : option (value document_type) :=
  match (_ <- alloc; type_init document_type) grant 0%nat with
  | inl _ => None
  | inr (document, _) =>
      Some (update document_type "schema_version" (fun _ => (NCFG_SCHEMA_MAJOR, (NCFG_SCHEMA_MINOR, tt))) document)
  end.

(** [ncfg_document_mesh]: the first mesh of a device. *)
Definition document_mesh (document : option (value document_type)) (device : option (list byte)) : option (value mesh_type) :=
  match document, device with
  | Some d, Some name =>
      find (fun m : value mesh_type =>
        match (get mesh_type "device" m : option (list byte)) with Some n => bytes_eqb n name | None => false end)
        (get document_type "meshes" d : list (value mesh_type))
  | _, _ => None
  end.

(** [ncfg_document_device]. *)
Definition document_device (document : option (value document_type)) (name : option (list byte)) : option (value device_type) :=
  match document, name with
  | Some d, Some name =>
      find (fun m : value device_type =>
        match (get device_type "name" m : option (list byte)) with Some n => bytes_eqb n name | None => false end)
        (get document_type "devices" d : list (value device_type))
  | _, _ => None
  end.

(** A struct of a table written as a whole text. *)
Definition write_object (calls : list call) (out : buf) : writer := write_calls realloc_ok (write_init out) (in_object calls).

(** [ncfg_firewall_copy]: through the writer and the reader of its table. *)
Definition firewall_copy (malloc_ok : bool) (firewall : option (value firewall_type)) : option (value firewall_type) :=
  match firewall with
  | None => None
  | Some firewall =>
      let text := w_buf (write_object (type_write firewall_type firewall) (buf_init 0)) in
      if negb (grant 0%nat) || buf_failed text then None
      else
        match json_parse realloc_ok malloc_ok (buf_text text) with
        | Some (inr json) =>
            match (base <- type_init firewall_type; type_read json firewall_type (json_root json) base) grant 1%nat with
            | inr (copy, _) => Some copy
            | inl _ => None
            end
        | _ => None
        end
  end.

(** [ncfg_document_read]. The outer [None] is the reader of JSON out of fuel,
    which it is not. *)
Definition document_read (malloc_ok : bool) (text : list byte) : option (document_refusal + value document_type) :=
  match json_parse realloc_ok malloc_ok text with
  | None => None
  | Some (inl e) => Some (inl (NOT_JSON e))
  | Some (inr json) =>
      match (_ <- alloc; base <- type_init document_type; type_read json document_type (json_root json) base) grant 0%nat with
      | inl e => Some (inl (NOT_A_DOCUMENT e))
      | inr (document, n) =>
          match document_validate (grant n) document with
          | Some e => Some (inl (NOT_VALID e))
          | None => Some (inr document)
          end
      end
  end.

(** [ncfg_document_write_members]. *)
Definition document_write_members (document : value document_type) : list call := type_write document_type document.

Inductive write_refusal := COULD_NOT_BE_WRITTEN (why : string) | COULD_NOT_BE_LAID_OUT | NOT_CANONICAL (e : invalid).

(** [ncfg_document_write]. *)
Definition document_write (document : value document_type) (out : buf) : option write_refusal * buf :=
  let w := write_object (document_write_members document) out in
  if write_done w then (None, w_buf w)
  else (Some (COULD_NOT_BE_WRITTEN (default "it did not fit" (write_failure w))), w_buf w).

(** [ncfg_document_write_canonical]: the document is left canonical. *)
Definition document_write_canonical (document : value document_type) (out : buf) : value document_type * option write_refusal * buf :=
  let document := document_canonicalize document in
  match document_validate (grant 0%nat) document with
  | Some e => (document, Some (NOT_CANONICAL e), out)
  | None =>
      match document_write document (buf_init 0) with
      | (Some why, _) => (document, Some why, out)
      | (None, compact) =>
          let '(laid_out, out) := json_pretty realloc_ok (buf_text compact) out in
          (document, if laid_out then None else Some COULD_NOT_BE_LAID_OUT, out)
      end
  end.
End Document.

(** ** The small questions of [document.c] *)

Definition address_source_kind_name (kind : Z) : option (list byte) := enum_name address_source_set kind.
Definition interface_kind_word (kind : Z) : option (list byte) := enum_name interface_kind_set kind.
Definition interface_kind_language_name (kind : Z) : option (list byte) := enum_name language_kind_set kind.
Definition mac_policy_name (policy : Z) : option (list byte) := enum_name mac_policy_set policy.
Definition tunnel_kind_name (kind : Z) : option (list byte) := enum_name tunnel_kind_set kind.
Definition vlan_protocol_name (protocol : Z) : option (list byte) := enum_name vlan_protocol_set protocol.

(** [ncfg_bond_mode_number] and its like: -1 for what is not in the set. *)
Definition bond_mode_number (mode : Z) : Z := match enum_name bond_mode_set mode with Some _ => mode | None => -1 end.
Definition macvlan_mode_number (mode : Z) : Z := match enum_name macvlan_mode_set mode with Some _ => Z.shiftl 1 mode | None => -1 end.
Definition vlan_protocol_ethertype (protocol : Z) : Z := if protocol =? 0 then 0x8100 else if protocol =? 1 then 0x88a8 else -1.

(** [ncfg_offload_field_t] and the kernel's names of each field. *)
Definition offload_field_names (field : Z) : list string :=
  if field =? 0 then ["rx-gro"]
  else if field =? 1 then ["tx-generic-segmentation"]
  else if field =? 2 then ["tx-tcp-segmentation"]
  else if field =? 3 then ["rx-checksum"]
  else if field =? 4 then ["tx-checksum-ip-generic"; "tx-checksum-ipv4"; "tx-checksum-ipv6"]
  else [].

Definition link_settings_offload (settings : option (value link_settings_type)) (field : Z) : Z :=
  match settings with
  | None => 0
  | Some s =>
      if field =? 0 then get link_settings_type "gro" s
      else if field =? 1 then get link_settings_type "gso" s
      else if field =? 2 then get link_settings_type "tso" s
      else if field =? 3 then get link_settings_type "rx_checksum" s
      else if field =? 4 then get link_settings_type "tx_checksum" s
      else 0
  end.

(** [ncfg_access_control_names]: whether a list or a prefix names a station. *)
Definition access_control_names (acl : option (value access_control_type)) (address : option (list byte)) : bool :=
  match acl, address with
  | Some acl, Some _ =>
      existsb (fun e => station_entry_matches e address) (get access_control_type "stations" acl) ||
      existsb (fun e => station_entry_matches e address) (get access_control_type "prefixes" acl)
  | _, _ => false
  end.
