(* ===== verification/DocumentRoundtrip.v ===== *)
(** * DocumentRoundtrip: documents through their text

    What is written of a document is read as that document, compact or in the
    canonical layout; a copy of a firewall is that firewall; what validation
    accepts is stated without its loops. *)
From S2P Require Import Prelude Buf Lex LexFacts Wire WireSpec Decimal Value InetText Json JsonFacts JsonSpec JsonRead JsonWrite JsonPrint JsonWriteSpec JsonPretty Request RequestSpec DocText DocTextSpec Field FieldSpec Document DocumentSpec Canonical CanonicalSpec DocumentOps.
#[local] Open Scope Z_scope.

(** A text that stands for a value, given to a reader of that value. *)
Lemma text_reads {A} realloc_ok (read : doc -> Z -> R A) v tree text :
  (forall n, realloc_ok n = true) -> zlen text < 2 ^ 30 -> ref_parse text = inr tree -> reads read v tree ->
  exists d, json_parse realloc_ok true text = Some (inr d) /\ json_root d = 0 /\
    forall grant n, grants grant -> exists n', read d (json_root d) grant n = inr (v, n').
Proof.
  intros Hm Hl Hr Hread. destruct (json_parse_ref realloc_ok text Hm Hl) as [cap Hp]. rewrite Hr in Hp.
  destruct (read_line_value _ _ _ Hm Hl Hp) as (t & Ht & Hroot & Hv). rewrite Hr in Ht. injection Ht as <-.
  exists (doc_of tree cap). split_and!; [done..|]. intros grant n Hg. rewrite Hroot. by apply (Hread _ _ _ grant n Hg Hv).
Qed.

(** What a table wrote, as the value it stands for. *)
Record written (t : ftype) (v : value t) (text : list byte) (tree : json) : Prop := Written {
  wr_text : text = compact tree;
  wr_short : zlen text < 2 ^ 30;
  wr_parses : ref_parse text = inr tree;
  wr_fits : fits NCFG_JSON_MAX_DEPTH tree;
  wr_reads : reads (fun d i => bind (type_init t) (fun base => type_read d t i base)) v tree }.

Lemma table_written realloc_ok limit t v :
  0 <= limit < 2 ^ 30 -> type_lawful t -> type_ok t v = true ->
  write_done (write_object realloc_ok (type_write t v) (buf_init limit)) = true ->
  exists tree, written t v (b_bytes (w_buf (write_object realloc_ok (type_write t v) (buf_init limit)))) tree.
Proof.
  intros Hlim Hl Hok Hd. destruct (object_back t v (proj1 tables_back t) Hl Hok) as (kvs & He & Hr).
  destruct (writer_reads_back realloc_ok limit _ Hlim (proj1 He) Hd) as (tree & cap & Hdesc & Hb & _ & Hlen & _ & Href).
  pose proof (emits_described _ _ _ He Hdesc) as ->. exists (JObject kvs). split; [done..| |].
  - by eapply described_fits.
  - by apply fresh_reads.
Qed.

Lemma done_text w : write_done w = true -> buf_text (w_buf w) = b_bytes (w_buf w) /\ buf_failed (w_buf w) = false.
Proof.
  unfold write_done, write_failed, buf_failed, buf_text, b_bytes. destruct (w_failure w); [done|]. by destruct (b_failed (w_buf w)).
Qed.

(** What a table wrote, laid out: the text of the same value. *)
Lemma laid_out_reads writer_ok limit t v out :
  0 <= limit < 2 ^ 30 -> type_lawful t -> type_ok t v = true ->
  write_done (write_object writer_ok (type_write t v) (buf_init 0)) = true ->
  json_pretty writer_ok (buf_text (w_buf (write_object writer_ok (type_write t v) (buf_init 0)))) (buf_init limit) = (true, out) ->
  b_failed out = false ->
  exists tree, ref_parse (b_bytes out) = inr tree /\
    reads (fun d i => bind (type_init t) (fun base => type_read d t i base)) v tree.
Proof.
  intros Hlim Hl Hok Hd Hp Hf. destruct (table_written writer_ok 0 t v ltac:(lia) Hl Hok Hd) as (tree & Hwr). exists tree.
  rewrite (proj1 (done_text _ Hd)), (wr_text _ _ _ _ Hwr) in Hp.
  assert (buf_wf (buf_init limit)) as Hwf by (apply buf_init_wf; unfold SIZE_MAX; lia).
  pose proof (pretty_prints writer_ok tree (buf_init limit) (wr_fits _ _ _ _ Hwr) Hwf) as Hprint.
  rewrite Hp in Hprint. destruct Hprint as (_ & Hb & Hparse & _). specialize (Hb Hf). change (b_bytes (buf_init limit)) with (@nil byte) in Hb.
  rewrite Hb. split; [done|apply Hwr].
Qed.

Section Document.
Context {I : Inet}.

(** Reading a text that stands for a document. *)
Lemma document_read_back realloc_ok grant d text tree :
  (forall n, realloc_ok n = true) -> grants grant -> zlen text < 2 ^ 30 -> ref_parse text = inr tree ->
  reads (fun j i => bind (type_init document_type) (fun base => type_read j document_type i base)) d tree ->
  document_validate true d = None -> document_read realloc_ok grant true text = Some (inr d).
Proof.
  intros Hm Hg Hl Hr Hread Hv. destruct (text_reads realloc_ok _ _ _ _ Hm Hl Hr Hread) as (j & Hp & _ & Hj).
  unfold document_read. rewrite Hp. unfold bind at 1. rewrite alloc_granted by done.
  destruct (Hj grant 1%nat Hg) as [n' ->]. by rewrite Hg, Hv.
Qed.

Lemma written_document writer_ok document b out :
  document_write writer_ok document b = (None, out) ->
  write_done (write_object writer_ok (type_write document_type document) b) = true /\
  w_buf (write_object writer_ok (type_write document_type document) b) = out.
Proof.
  unfold document_write, document_write_members. generalize (write_object writer_ok (type_write document_type document) b) as w. intros w.
  by destruct (write_done w); intros [= E].
Qed.

(** C9: the document round trip. Any valid document the tables can carry, once
    [ncfg_document_write] has written it, is read by [ncfg_document_read] as
    the same document: no member is lost, defaulted or refused, for the whole
    of the schema. *)
Theorem document_roundtrip writer_ok realloc_ok grant limit document out :
  (forall n, realloc_ok n = true) -> grants grant -> 0 <= limit < 2 ^ 30 ->
  type_ok document_type document = true -> document_validate true document = None ->
  document_write writer_ok document (buf_init limit) = (None, out) ->
  document_read realloc_ok grant true (b_bytes out) = Some (inr document).
Proof.
  intros Hm Hg Hlim Hok Hv Hw. apply written_document in Hw as [Hd <-].
  destruct (table_written writer_ok limit document_type document Hlim document_lawful Hok Hd) as (tree & Hwr).
  by eapply document_read_back; try apply Hwr.
Qed.

(** C19: the canonical encoding is the canonical document. When
    [ncfg_document_write_canonical] answers yes for a document the tables can
    carry, into a buffer that held it, the document is left canonical and the
    laid-out text is read as that canonical document; a second encoding of what
    was read gives the same bytes. *)
Theorem canonical_text_reads_back writer_ok realloc_ok grant limit document document' out :
  (forall n, realloc_ok n = true) -> grants grant -> 0 <= limit < 2 ^ 30 ->
  type_ok document_type document = true ->
  document_write_canonical writer_ok grant document (buf_init limit) = (document', None, out) -> b_failed out = false ->
  zlen (b_bytes out) < 2 ^ 30 ->
  document' = document_canonicalize document /\ document_read realloc_ok grant true (b_bytes out) = Some (inr document') /\
  document_write_canonical writer_ok grant document' (buf_init limit) = (document', None, out).
Proof.
  intros Hm Hg Hlim Hok H Hf Hlen. pose proof (canonicalize_idempotent_form document) as Hidem.
  pose proof (document_carries document Hok : type_ok document_type (document_canonicalize document) = true) as Hc.
  unfold document_write_canonical in *. revert H Hidem Hc. generalize (document_canonicalize document) as c. intros c H Hidem Hc.
  rewrite Hg in *. destruct (document_validate true c) as [e|] eqn:Hv; [done|].
  destruct (document_write writer_ok c (buf_init 0)) as [[why|] compact] eqn:Hw; [done|].
  destruct (json_pretty writer_ok (buf_text compact) (buf_init limit)) as [laid o] eqn:Hp.
  assert (document' = c /\ laid = true /\ o = out) as (-> & -> & ->) by (destruct laid; [by simplify_eq|discriminate]).
  split; [done|]. split; [|by rewrite Hidem, Hv, Hw, Hp].
  apply written_document in Hw as [Hd <-].
  destruct (laid_out_reads writer_ok limit document_type c out Hlim document_lawful Hc Hd Hp Hf) as (tree & Hr & Hreads).
  by eapply document_read_back.
Qed.

(** C20: one document has one text. Documents that hold the same devices,
    interfaces, networks, access points and other named entries, each name
    once, and differ in the order they list them, are given the same canonical
    bytes, so the same identity. *)
Theorem canonical_text_order_independent writer_ok grant d d' out :
  same_entries d d' -> document_write_canonical writer_ok grant d out = document_write_canonical writer_ok grant d' out.
Proof. intros H. unfold document_write_canonical. by rewrite (canonical_forms_agree d d' H). Qed.

(** A copy of a firewall is that firewall, unless memory or the buffer ran
    out. *)
Theorem firewall_copy_exact realloc_ok grant firewall :
  (forall n, realloc_ok n = true) -> grants grant -> type_ok firewall_type firewall = true ->
  write_done (write_object realloc_ok (type_write firewall_type firewall) (buf_init 0)) = true ->
  firewall_copy realloc_ok grant true (Some firewall) = Some firewall.
Proof.
  intros Hm Hg Hok Hd. destruct (table_written realloc_ok 0 firewall_type firewall ltac:(lia) firewall_lawful Hok Hd) as (tree & Hwr).
  unfold firewall_copy. destruct (done_text _ Hd) as [-> ->]. rewrite Hg. cbn [negb orb].
  destruct (text_reads realloc_ok _ _ _ _ Hm (wr_short _ _ _ _ Hwr) (wr_parses _ _ _ _ Hwr) (wr_reads _ _ _ _ Hwr)) as (j & -> & _ & Hj).
  destruct (Hj grant 1%nat Hg) as [n' ->]. done.
Qed.

(** ** What validation accepts *)

Lemma unique_keys collection before keys :
  check_unique collection before keys = None <-> NoDup keys /\ forall k, k ∈ keys -> k ∉ before.
Proof.
  revert before. induction keys as [|k keys IH]; intros before; cbn [check_unique]; [split; [split; [constructor|by intros ? []%elem_of_nil]|done]|].
  destruct (existsb _ before) eqn:E.
  - split; [done|]. intros [_ H]. exfalso. apply existsb_exists in E as (b & Hb & Hz%Z.eqb_eq%text_zero). subst b.
    apply (H k); [by constructor|by apply list_elem_of_In].
  - rewrite IH. assert (k ∉ before) as Hk.
    { intros Hin. apply not_true_iff_false in E. apply E. apply existsb_exists. exists k. split; [by apply list_elem_of_In|]. apply Z.eqb_eq. by apply text_zero. }
    rewrite NoDup_cons. setoid_rewrite elem_of_app. setoid_rewrite elem_of_cons. setoid_rewrite elem_of_nil. naive_solver.
Qed.

(** At most one entry of each source that may appear once. *)
Definition sources_single (before kinds : list Z) : Prop :=
  forall l1 k l2, kinds = l1 ++ k :: l2 -> address_source_is_singleton k = true -> k ∉ before ++ l1.

Lemma single_sources scope before kinds : check_multiplicity scope before kinds = None <-> sources_single before kinds.
Proof.
  revert before. induction kinds as [|k kinds IH]; intros before; cbn [check_multiplicity].
  - split; [|done]. intros _ [|? ?] ? ? E; done.
  - assert (existsb (Z.eqb k) before = true <-> k ∈ before) as Hin.
    { rewrite existsb_exists. setoid_rewrite <- list_elem_of_In. setoid_rewrite Z.eqb_eq. naive_solver. }
    destruct (address_source_is_singleton k && existsb (Z.eqb k) before) eqn:E.
    + split; [done|]. intros H. apply andb_true_iff in E as [Hs Hb%Hin]. exfalso. apply (H [] k kinds eq_refl Hs). by rewrite app_nil_r.
    + rewrite IH. split.
      * intros H [|x l1] y l2 Hy Hs; injection Hy as -> ->.
        -- rewrite app_nil_r, <- Hin. rewrite Hs in E. cbn [andb] in E. by rewrite E.
        -- specialize (H l1 y l2 eq_refl Hs). by rewrite <- app_assoc in H.
      * intros H l1 y l2 -> Hs. specialize (H (k :: l1) y l2 eq_refl Hs). by rewrite <- app_assoc.
Qed.

Definition routes_ok (dns : option (value dns_policy_type)) (host_mode : Z) : Prop :=
  match dns with
  | None => True
  | Some p =>
      let mode := dm_mode (get dns_policy_type "mode" p) in
      (get dns_policy_type "domains" p : list (value routing_domain_type)) = [] \/
      dns_mode_can_route (if mode =? 0 then host_mode else mode) = true
  end.

Lemma dns_capable scope dns host_mode : check_dns_capability scope dns host_mode = None <-> routes_ok dns host_mode.
Proof.
  destruct dns as [p|]; [|done]. cbn [check_dns_capability routes_ok dns_policy_needs_routing].
  destruct (get dns_policy_type "domains" p : list (value routing_domain_type)) as [|x l]; cbn [andb]; [by split; [left|]|].
  destruct (dns_mode_can_route _); cbn [negb]; split; try done; [by right|by intros [|]].
Qed.

Definition absolute (path : option (list byte)) : Prop := exists rest, path = Some ("/"%byte :: rest).

Lemma hooks_absolute paths : check_hooks paths = None <-> Forall absolute paths.
Proof.
  induction paths as [|path paths IH]; [done|]. cbn [check_hooks]. rewrite Forall_cons, <- IH. unfold absolute.
  destruct path as [[|c rest]|]; [by split; [|intros [[? ?] _]]| |by split; [|intros [[? ?] _]]].
  destruct (byte_eqb_spec c "/") as [->|H]; [naive_solver|]. split; [done|]. intros [[r [= ->]] _]. done.
Qed.

(** What validation asks of an interface, and of a network. *)
Record scope_ok (addressing : list (union address_source_arm)) (dns : option (value dns_policy_type)) (hooks : list (value hook_type))
    (host_mode : Z) : Prop := ScopeOk {
  so_sources : sources_single [] (map (fun s => projT1 s) addressing);
  so_dns : routes_ok dns host_mode;
  so_hooks : Forall absolute (map (get hook_type "path") hooks) }.

Lemma first_none a b : first_of a b = None <-> a = None /\ b = None.
Proof. destruct a; simpl; naive_solver. Qed.

Lemma among_none {A} (check : A -> option invalid) l : first_among check l = None <-> Forall (fun x => check x = None) l.
Proof. induction l as [|x l IH]; [done|]. cbn [first_among]. by rewrite first_none, IH, Forall_cons. Qed.

Lemma scope_checks scope addressing dns hooks host_mode :
  check_scope scope addressing dns hooks host_mode = None <-> scope_ok addressing dns hooks host_mode.
Proof.
  unfold check_scope. rewrite !first_none, single_sources, dns_capable, hooks_absolute. split; [intros (? & ? & ?); by split|by intros []].
Qed.

(** What [ncfg_document_validate] promises of a document. *)
Record document_valid (document : value document_type) : Prop := DocumentValid {
  dv_schema : get version_type "major" (get document_type "schema_version" document) = NCFG_SCHEMA_MAJOR;
  dv_devices : NoDup (map (get device_type "name") (get document_type "devices" document));
  dv_interfaces : NoDup (map (get interface_type "name") (get document_type "interfaces" document));
  dv_networks : NoDup (map (get network_type "id") (get document_type "networks" document));
  dv_dns : routes_ok (Some (get globals_type "dns" (get document_type "globals" document)))
    (dm_mode (get dns_policy_type "mode" (get globals_type "dns" (get document_type "globals" document))));
  dv_scopes : Forall (fun i : value interface_type => scope_ok (get interface_type "addressing" i) (get interface_type "dns" i)
      (get interface_type "hooks" i) (dm_mode (get dns_policy_type "mode" (get globals_type "dns" (get document_type "globals" document)))))
    (get document_type "interfaces" document);
  dv_wireless : Forall (fun n : value network_type => scope_ok (get network_type "addressing" n) (get network_type "dns" n)
      (get network_type "hooks" n) (dm_mode (get dns_policy_type "mode" (get globals_type "dns" (get document_type "globals" document)))))
    (get document_type "networks" document) }.

Lemma Forall_iff_of {A} (p q : A -> Prop) l : (forall x, p x <-> q x) -> Forall p l <-> Forall q l.
Proof. intros H. split; intros Hl; (eapply Forall_impl; [exact Hl|]); intros x; apply H. Qed.

(** C23: validation is exact. With memory granted, [ncfg_document_validate]
    accepts a document exactly when its schema is this build's, no device,
    interface or network shares a name, no interface or network takes two
    leases of a kind, every scope with routing domains is delivered by a mode
    that can route them, the host's where the scope names none, and every hook
    is an absolute path. *)
Theorem validate_exact document : document_validate true document = None <-> document_valid document.
Proof.
  unfold document_validate. cbv zeta. rewrite !first_none, !unique_keys, !among_none, dns_capable. rewrite andb_false_r.
  rewrite (Forall_iff_of _ (fun i : value interface_type => scope_ok (get interface_type "addressing" i) (get interface_type "dns" i)
    (get interface_type "hooks" i) _)) by (intros i; apply scope_checks).
  rewrite (Forall_iff_of _ (fun n : value network_type => scope_ok (get network_type "addressing" n) (get network_type "dns" n)
    (get network_type "hooks" n) _)) by (intros n; apply scope_checks).
  assert (forall keys : list (option (list byte)), NoDup keys /\ (forall k, k ∈ keys -> k ∉ []) <-> NoDup keys) as Hk.
  { intros keys. split; [by intros []|]. intros H. split; [done|]. intros k _ Hin%elem_of_nil. done. }
  rewrite !Hk. split.
  - intros (H1 & _ & H2 & H3 & H4 & H5 & H6 & H7). split; try assumption.
    apply Z.eqb_eq. by destruct (_ =? NCFG_SCHEMA_MAJOR).
  - intros [H1 H2 H3 H4 H5 H6 H7]. rewrite H1. split_and!; try assumption; done.
Qed.
End Document.

(** ** A document to try them on *)

(** An equation of closed terms, by the virtual machine. *)
Ltac by_vm := match goal with |- ?a = ?b => exact (@eq_refl _ b <: a = b) end.

(** A JSON text written with apostrophes for quotation marks. *)
Definition json_text (s : string) : list byte := map (fun b => if b =b "'" then QUOTE else b) (bytes s).

Definition sample_document_text : list byte := json_text
  "{'schema_version':{'major':1,'minor':1},'globals':{'hostname_policy':{'static':'host'},'confirm_default':90},'devices':[{'name':'wg0','kind':{'kind':'wire_guard','private_key':{'name':'wg0'},'listen_port':51820,'peers':[{'name':'office','public_key':'xTIBA5rboUvnH4htodjb6e697QjLERt1NAB4mZqp8Dg=','allowed_ips':['10.9.0.0/24']}]}},{'name':'br0','kind':{'kind':'bridge','members':['eth2','eth1']}}],'interfaces':[{'name':'br0','addressing':[{'source':'dhcp4'},{'source':'static','address':'10.9.0.2/24'}],'routes':[{'destination':'default','via':'192.0.2.1'}]}],'networks':[{'id':'home','ssid':'6c616e','security':{'type':'psk','passphrase':{'name':'home'}}}]}".

Definition sample_document : value document_type :=
  match document_read (fun _ => true) (fun _ => true) true sample_document_text with Some (inr d) => d | _ => zero document_type end.

Definition sample_written : buf := snd (document_write (fun _ => true) sample_document (buf_init 0)).

Lemma document_roundtrip_witness :
  document_read (fun _ => true) (fun _ => true) true (b_bytes sample_written) = Some (inr sample_document) /\
  length (get document_type "devices" sample_document : list (value device_type)) = 2%nat.
Proof.
  split.
  - apply (document_roundtrip (fun _ => true) (fun _ => true) (fun _ => true) 0).
    + reflexivity.
    + intros n. reflexivity.
    + lia.
    + by_vm.
    + by_vm.
    + by_vm.
  - by_vm.
Defined.

(** A smaller one, its interfaces out of order. *)
Definition short_document : value document_type :=
  match document_read (fun _ => true) (fun _ => true) true (json_text
    "{'schema_version':{'major':1,'minor':1},'globals':{},'devices':[],'interfaces':[{'name':'eth1'},{'name':'eth0'}],'networks':[]}")
  with Some (inr d) => d | _ => zero document_type end.

Abbreviation short_run := (document_write_canonical (fun _ => true) (fun _ => true) short_document (buf_init 0)).

Lemma three_parts {A B C} (x : A * option B * C) : x.1.2 = None -> x = (x.1.1, None, x.2).
Proof. destruct x as [[a o] c]. cbn. by intros ->. Qed.

Lemma canonical_text_reads_back_witness :
  short_run.1.1 = document_canonicalize short_document /\
  document_read (fun _ => true) (fun _ => true) true (b_bytes short_run.2) = Some (inr short_run.1.1) /\
  document_write_canonical (fun _ => true) (fun _ => true) short_run.1.1 (buf_init 0) = (short_run.1.1, None, short_run.2).
Proof.
  refine (canonical_text_reads_back (fun _ => true) (fun _ => true) (fun _ => true) 0 short_document _ _ _ _ _ _ (three_parts short_run _) _ _).
  - reflexivity.
  - intros n. reflexivity.
  - lia.
  - by_vm.
  - by_vm.
  - by_vm.
  - apply Z.ltb_lt. by_vm.
Defined.

(** A document with its devices the other way round. *)
Definition names_once (d : value document_type) : bool :=
  bool_decide (NoDup (map (get device_type "name") (get document_type "devices" d))) &&
  bool_decide (NoDup (map (get interface_type "name") (get document_type "interfaces" d))) &&
  bool_decide (NoDup (map (get network_type "id") (get document_type "networks" d))) &&
  bool_decide (NoDup (map (get bluetooth_type "id") (get document_type "bluetooth" d))) &&
  bool_decide (NoDup (map (get access_point_type "id") (get document_type "access_points" d))) &&
  bool_decide (NoDup (map (get linkset_type "name") (get document_type "linksets" d))) &&
  bool_decide (NoDup (map (get mesh_type "id") (get document_type "meshes" d))) &&
  bool_decide (NoDup (map (get host_list_type "name") (get document_type "host_lists" d))) &&
  bool_decide (NoDup (map (get dns_record_type "name") (get document_type "dns_records" d))) &&
  bool_decide (NoDup (map (get block_list_type "name") (get document_type "block_lists" d))).

Definition devices_reversed (d : value document_type) : value document_type := update document_type "devices" (@rev _) d.

Lemma reversed_same d : names_once d = true -> same_entries d (devices_reversed d).
Proof.
  unfold names_once. intros H. repeat (apply andb_true_iff in H as [H ?]).
  repeat match goal with E : bool_decide _ = true |- _ => apply bool_decide_eq_true in E end.
  destruct d as (version & generated & globals & devices & interfaces & networks & bluetooth & rules & points & linksets &
    firewall & meshes & hosts & records & blocks & []).
  split; try reflexivity; (split; [assumption|]); try reflexivity. apply Permutation_rev.
Qed.

Lemma canonical_text_order_independent_witness :
  document_write_canonical (fun _ => true) (fun _ => true) sample_document (buf_init 0) =
  document_write_canonical (fun _ => true) (fun _ => true) (devices_reversed sample_document) (buf_init 0).
Proof. apply canonical_text_order_independent. apply reversed_same. by_vm. Defined.

Definition sample_firewall : value firewall_type :=
  ((1, ([(Some (bytes "ssh"), (0, (1, ([22], ([Some (bytes "10.0.0.0/8")], ([], (None, (None, ([], (false, ([], ([], ([], (None, ([], ([], tt))))))))))))))))], tt)),
   ((0, ([], tt)), ((0, ([], tt)), tt))).

Lemma firewall_copy_exact_witness : firewall_copy (fun _ => true) (fun _ => true) true (Some sample_firewall) = Some sample_firewall.
Proof.
  apply firewall_copy_exact.
  - reflexivity.
  - intros n. reflexivity.
  - by_vm.
  - by_vm.
Defined.

(** ** Where the tables part from the document *)

(** A DHCP option with a number, as the lowering of a [u16] option builds it. *)
Definition sample_option : value dhcp_option_type := (Some (bytes "mtu"), (26, (3, ([], (None, (Some 1500, tt)))))).

(** The table of an option names no range for its number, so what is written of
    a number other than 0 is refused on the way back: such a document cannot be
    read. *)
Example dhcp_option_number_refused :
  type_ok dhcp_option_type sample_option = false /\
  match json_parse (fun _ => true) true (b_bytes (w_buf (write_object (fun _ => true) (type_write dhcp_option_type sample_option) (buf_init 0)))) with
  | Some (inr json) =>
      type_read json dhcp_option_type (json_root json) (tinit dhcp_option_type) (fun _ => true) 0%nat =
      inl (OUT_OF_RANGE (OF (bytes "number") "DHCP option") 1500 0 0)
  | _ => False
  end.
Proof. vm_compute. auto. Qed.

(** The bare word [exec] is read as a mode with no command, and such a mode
    cannot be written. *)
Example bare_exec_unwritable :
  match json_parse (fun _ => true) true (json_text "{'mode':'exec'}") with
  | Some (inr json) =>
      match type_read json dns_policy_type (json_root json) (tinit dns_policy_type) (fun _ => true) 0%nat with
      | inr (policy, _) =>
          get dns_policy_type "mode" policy = DnsMode NCFG_DNS_MODE_EXEC None /\
          write_done (write_object (fun _ => true) (type_write dns_policy_type policy) (buf_init 0)) = false
      | inl _ => False
      end
  | _ => False
  end.
Proof. vm_compute. auto. Qed.
