(* ===== verification/Observed.v ===== *)
(** * Observed: the tables of the observation

    [model/observed.c]: every table, set and custom of what a machine was seen
    to be, in the order of the source. Names the document's tables have too are
    prefixed with [observed_]. Four customs are copies of the document's, the
    source says so and their bodies are those of [document.c]: [address_text],
    [public_key_custom], [dns_mode_custom], and [ssid_custom], which is the
    document's [ssid_required_custom]; these are used here from [Document]. *)
From S2P Require Import Prelude Lex Wire Value Json JsonWrite DocText Field Document.
#[local] Open Scope string_scope.
#[local] Open Scope list_scope.
#[local] Open Scope Z_scope.
#[local] Open Scope field_scope.

(** ** Enumerators of [observed.h] *)

Definition NCFG_OWNERSHIP_OURS : Z := 0.
Definition NCFG_OWNERSHIP_FOREIGN : Z := 1.
Definition NCFG_OWNERSHIP_UNKNOWN : Z := 2.

Definition NCFG_ORIGIN_STATIC : Z := 0.
Definition NCFG_ORIGIN_DHCP4 : Z := 1.
Definition NCFG_ORIGIN_DHCP6 : Z := 2.
Definition NCFG_ORIGIN_SLAAC : Z := 3.
Definition NCFG_ORIGIN_LINK_LOCAL : Z := 4.
Definition NCFG_ORIGIN_DELEGATED : Z := 5.

Definition NCFG_BACKEND_DHCP4 : Z := 0.
Definition NCFG_BACKEND_DHCP6 : Z := 1.
Definition NCFG_BACKEND_SUPPLICANT : Z := 2.
Definition NCFG_BACKEND_ACCESS_POINT : Z := 3.
Definition NCFG_BACKEND_WIREGUARD : Z := 4.
Definition NCFG_BACKEND_PPPOE : Z := 5.
Definition NCFG_BACKEND_OPENVPN : Z := 6.
Definition NCFG_BACKEND_DNS : Z := 7.
Definition NCFG_BACKEND_ROUTER_ADVERT : Z := 8.
Definition NCFG_BACKEND_LINK_LOCAL : Z := 9.
Definition NCFG_BACKEND_DHCP_SERVER : Z := 10.
Definition NCFG_BACKEND_UPNP : Z := 11.

Definition NCFG_LINK_CATEGORY_LOOPBACK : Z := 0.
Definition NCFG_LINK_CATEGORY_ETHERNET : Z := 1.
Definition NCFG_LINK_CATEGORY_WIFI : Z := 2.
Definition NCFG_LINK_CATEGORY_MODEM : Z := 3.
Definition NCFG_LINK_CATEGORY_BRIDGE : Z := 4.
Definition NCFG_LINK_CATEGORY_BOND : Z := 5.
Definition NCFG_LINK_CATEGORY_VLAN : Z := 6.
Definition NCFG_LINK_CATEGORY_WIREGUARD : Z := 7.
Definition NCFG_LINK_CATEGORY_TUNNEL : Z := 8.
Definition NCFG_LINK_CATEGORY_VIRTUAL : Z := 9.
Definition NCFG_LINK_CATEGORY_LINKSET : Z := 10.
Definition NCFG_LINK_CATEGORY_OTHER : Z := 11.

Definition NCFG_PRESENCE_PRESENT : Z := 0.
Definition NCFG_PRESENCE_ABSENT : Z := 1.
Definition NCFG_PRESENCE_UNKNOWN : Z := 2.

Definition NCFG_SUBJECT_INTERFACE : Z := 0.
Definition NCFG_SUBJECT_NETWORK : Z := 1.
Definition NCFG_SUBJECT_LINKSET : Z := 2.

Definition NCFG_INELIGIBLE_ABSENT : Z := 0.
Definition NCFG_INELIGIBLE_UNJOINED : Z := 1.
Definition NCFG_INELIGIBLE_NO_CARRIER : Z := 2.
Definition NCFG_INELIGIBLE_PROBE : Z := 3.
Definition NCFG_INELIGIBLE_EMPTY : Z := 4.
Definition NCFG_INELIGIBLE_CYCLE : Z := 5.

Definition NCFG_RUNG_OFFLINE : Z := 0.
Definition NCFG_RUNG_LOCAL : Z := 1.
Definition NCFG_RUNG_ROUTED : Z := 2.
Definition NCFG_RUNG_ONLINE : Z := 3.

Definition NCFG_OBSERVED_POLICY_UNSET : Z := 0.
Definition NCFG_OBSERVED_POLICY_SET : Z := 1.
Definition NCFG_OBSERVED_POLICY_UNKNOWN : Z := 2.

Definition NCFG_DHCP_ROUTE_PROTO : Z := 16.

Section Observed.
Context {I : Inet}.

Definition ownership_words : list string := ["ours"; "foreign"; "unknown"].
Definition ownership_set : enum_set := WORD_SET "ownership" ownership_words.
Definition origin_words : list string := ["static"; "dhcp4"; "dhcp6"; "slaac"; "link_local"; "delegated"].
Definition origin_set : enum_set := WORD_SET "addressing origin" origin_words.
Definition backend_kind_words : list string := ["dhcp4"; "dhcp6"; "supplicant"; "access_point"; "wire_guard"; "pppoe"; "open_vpn"; "dns"; "router_advert"; "link_local"; "dhcp_server"; "upnp"].
Definition backend_kind_set : enum_set := WORD_SET "backend kind" backend_kind_words.
Definition link_category_words : list string := ["loopback"; "ethernet"; "wifi"; "modem"; "bridge"; "bond"; "vlan"; "wireguard"; "tunnel"; "virtual"; "linkset"; "other"].
Definition link_category_set : enum_set := WORD_SET "link category" link_category_words.
Definition presence_words : list string := ["present"; "absent"; "unknown"].
Definition presence_set : enum_set := WORD_SET "presence" presence_words.
Definition subject_words : list string := ["interface"; "network"; "linkset"].
Definition subject_set : enum_set := WORD_SET "row subject" subject_words.
Definition rung_words : list string := ["offline"; "local"; "routed"; "online"].
Definition rung_set : enum_set := WORD_SET "connectivity rung" rung_words.
Definition ineligible_words : list string := ["absent"; "unjoined"; "no_carrier"; "probe"; "empty"; "cycle"].
Definition ineligible_set : enum_set := WORD_SET "ineligibility" ineligible_words.
Definition observed_route_scope_words : list string := ["global"; "link"; "host"].
Definition observed_route_scope_set : enum_set := WORD_SET "route scope" observed_route_scope_words.
Definition observed_acl_policy_words : list string := ["deny"; "allow"].
Definition observed_acl_policy_set : enum_set := WORD_SET "access control policy" observed_acl_policy_words.
Definition observed_dnssec_words : list string := ["no"; "allow"; "yes"].
Definition observed_dnssec_set : enum_set := WORD_SET "dnssec posture" observed_dnssec_words.
Definition observed_dns_transport_words : list string := ["plain"; "tls"; "https"].
Definition observed_dns_transport_set : enum_set := WORD_SET "dns transport" observed_dns_transport_words.

(** [text_always]: a text that is written even where there is none. *)
Definition text_always_read (d : doc) (node : Z) (slot : option (list byte)) : R (option (list byte)) :=
  text <- field_string d node (WORDS "a link kind"); ret (Some text).

Definition text_always_write (slot : option (list byte)) : list call := [STRING (Some (default [] slot))].

Definition text_always : custom :=
  Custom (option (list byte)) None text_always_read text_always_write None None str_ok.

(** [ncfg_observed_key_t]: a key that may be absent. The octets of an absent
    one are zero and nothing reads them. *)
Definition device_key_read (d : doc) (node : Z) (key : option (list Z)) : R (option (list Z)) :=
  octets <- public_key_read d node; ret (Some octets).

Definition device_key_write (key : option (list Z)) : list call := public_key_write (default (repeat 0 NCFG_KEY_LEN) key).
Definition device_key_omit (key : option (list Z)) : bool := match key with None => true | Some _ => false end.
Definition device_key_ok (key : option (list Z)) : bool := match key with None => true | Some octets => public_key_ok octets end.

Definition device_key_custom : custom :=
  Custom (option (list Z)) None device_key_read device_key_write (Some device_key_omit) None device_key_ok.

Definition observed_dns_server_fields : ffields := fields [
  ("addr", NCFG_FF_REQUIRED, F_CUSTOM address_text);
  ("port", 0, OPT_INT_IN R_U16);
  ("sni", 0, F_STR)].
Definition observed_dns_server_type : ftype := FType "dns server" observed_dns_server_fields None.

Definition observed_routing_domain_fields : ffields := fields [
  ("suffix", NCFG_FF_REQUIRED, F_STR);
  ("exclusive", 0, F_BOOL false)].
Definition observed_routing_domain_type : ftype := FType "routing domain" observed_routing_domain_fields None.

Definition observed_dns_policy_fields : ffields := fields [
  ("mode", 0, F_CUSTOM dns_mode_custom);
  ("servers", 0, F_LIST observed_dns_server_type);
  ("search", 0, F_STR_LIST);
  ("domains", 0, F_LIST observed_routing_domain_type);
  ("options", 0, F_STR_LIST);
  ("dnssec", 0, F_OPT_ENUM observed_dnssec_set);
  ("transport", 0, F_OPT_ENUM observed_dns_transport_set)].
Definition observed_dns_policy_type : ftype := FType "dns policy" observed_dns_policy_fields None.

Definition link_entry_fields : ffields := fields [
  ("name", NCFG_FF_REQUIRED, F_STR);
  ("category", NCFG_FF_REQUIRED, F_ENUM link_category_set 0);
  ("presence", NCFG_FF_REQUIRED, F_ENUM presence_set 0);
  ("configured", NCFG_FF_REQUIRED, F_BOOL false);
  ("subject", NCFG_FF_REQUIRED, F_ENUM subject_set 0);
  ("carrier", 0, F_STR);
  ("sets", NCFG_FF_OMIT_EMPTY, F_STR_LIST)].
Definition link_entry_type : ftype := FType "link row" link_entry_fields None.

Definition standing_fields : ffields := fields [
  ("name", NCFG_FF_REQUIRED, F_STR);
  ("interface", 0, F_STR);
  ("metric", 0, OPT_INT_IN R_U32);
  ("ineligible", 0, F_OPT_ENUM ineligible_set)].
Definition standing_type : ftype := FType "linkset member" standing_fields None.

Definition chosen_fields : ffields := fields [
  ("name", NCFG_FF_REQUIRED, F_STR);
  ("active", 0, F_STR);
  ("interface", 0, F_STR);
  ("members", NCFG_FF_REQUIRED, F_LIST standing_type)].
Definition chosen_type : ftype := FType "linkset choice" chosen_fields None.

Definition primary_fields : ffields := fields [
  ("interface", NCFG_FF_REQUIRED, F_STR);
  ("label", NCFG_FF_REQUIRED, F_STR);
  ("wireless", NCFG_FF_REQUIRED, F_BOOL false)].
Definition primary_type : ftype := FType "primary link" primary_fields None.

Definition observed_connectivity_fields : ffields := fields [
  ("rung", NCFG_FF_REQUIRED, F_ENUM rung_set 0);
  ("primary", 0, F_OPT_STRUCT primary_type)].
Definition observed_connectivity_type : ftype := FType "connectivity verdict" observed_connectivity_fields None.

Definition rfkill_fields : ffields := fields [
  ("switch", NCFG_FF_REQUIRED, F_STR);
  ("soft", 0, F_BOOL false);
  ("hard", 0, F_BOOL false)].
Definition rfkill_type : ftype := FType "rfkill switch" rfkill_fields None.

Definition accept_ra_fields : ffields := fields [
  ("value", NCFG_FF_REQUIRED, INT_IN R_U8 0);
  ("effective", NCFG_FF_REQUIRED, F_BOOL false)].
Definition accept_ra_type : ftype := FType "accept_ra state" accept_ra_fields None.

Definition observed_bond_fields : ffields := fields [
  ("mode", 0, F_STR);
  ("miimon", 0, OPT_INT_IN R_U32)].
Definition observed_bond_type : ftype := FType "observed bond" observed_bond_fields None.

Definition observed_bridge_fields : ffields := fields [
  ("stp", 0, F_BOOL false);
  ("forward_delay", 0, OPT_INT_IN R_U32);
  ("hello_time", 0, OPT_INT_IN R_U32);
  ("ageing_time", 0, OPT_INT_IN R_U32);
  ("priority", 0, OPT_INT_IN R_U16);
  ("vlan_filtering", 0, F_BOOL false)].
Definition observed_bridge_type : ftype := FType "observed bridge" observed_bridge_fields None.

Definition observed_macvlan_fields : ffields := fields [
  ("mode", 0, F_STR)].
Definition observed_macvlan_type : ftype := FType "observed macvlan" observed_macvlan_fields None.

Definition observed_vlan_fields : ffields := fields [
  ("id", 0, OPT_INT_IN R_U16);
  ("protocol", 0, F_STR)].
Definition observed_vlan_type : ftype := FType "observed vlan" observed_vlan_fields None.

Definition observed_tunnel_fields : ffields := fields [
  ("local", 0, F_CUSTOM address_text);
  ("remote", 0, F_CUSTOM address_text);
  ("ttl", 0, OPT_INT_IN R_U8);
  ("key", 0, OPT_INT_IN R_U32)].
Definition observed_tunnel_type : ftype := FType "observed tunnel" observed_tunnel_fields None.

Definition observed_vxlan_fields : ffields := fields [
  ("id", 0, OPT_INT_IN R_U32);
  ("local", 0, F_CUSTOM address_text);
  ("remote", 0, F_CUSTOM address_text);
  ("port", 0, OPT_INT_IN R_U16)].
Definition observed_vxlan_type : ftype := FType "observed vxlan" observed_vxlan_fields None.

Definition observed_wg_peer_fields : ffields := fields [
  ("public_key", NCFG_FF_REQUIRED, F_CUSTOM public_key_custom);
  ("preshared_key", NCFG_FF_OMIT_FALSE, F_BOOL false);
  ("preshared_matches", 0, F_OPT_BOOL);
  ("endpoint", 0, F_STR);
  ("allowed_ips", NCFG_FF_OMIT_EMPTY, F_STR_LIST);
  ("keepalive", 0, OPT_INT_IN R_U16)].
Definition observed_wg_peer_type : ftype := FType "observed wireguard peer" observed_wg_peer_fields None.

Definition observed_wireguard_fields : ffields := fields [
  ("public_key", 0, F_CUSTOM device_key_custom);
  ("listen_port", 0, OPT_INT_IN R_U16);
  ("fwmark", 0, OPT_INT_IN R_U32);
  ("key_matches", 0, F_OPT_BOOL);
  ("peers", NCFG_FF_OMIT_EMPTY, F_LIST observed_wg_peer_type)].
Definition observed_wireguard_type : ftype := FType "observed wireguard device" observed_wireguard_fields None.

Definition observed_link_fields : ffields := fields [
  ("name", NCFG_FF_REQUIRED, F_STR);
  ("index", NCFG_FF_REQUIRED, INT_IN R_U32 0);
  ("kind", 0, F_CUSTOM text_always);
  ("wireless", 0, F_BOOL false);
  ("wds", NCFG_FF_OMIT_FALSE, F_BOOL false);
  ("mesh_peers", NCFG_FF_OMIT_EMPTY, F_STR_LIST);
  ("high_throughput", 0, F_OPT_BOOL);
  ("forty_mhz", NCFG_FF_OMIT_EMPTY, F_STR_LIST);
  ("very_high_throughput", NCFG_FF_OMIT_FALSE, F_BOOL false);
  ("hundred_sixty_mhz", NCFG_FF_OMIT_FALSE, F_BOOL false);
  ("high_efficiency", NCFG_FF_OMIT_EMPTY, F_STR_LIST);
  ("category", 0, F_OPT_ENUM link_category_set);
  ("network", 0, F_STR);
  ("up", NCFG_FF_REQUIRED, F_BOOL false);
  ("carrier", NCFG_FF_REQUIRED, F_BOOL false);
  ("reachable", 0, F_OPT_BOOL);
  ("probe_detail", 0, F_STR);
  ("mtu", NCFG_FF_REQUIRED, INT_IN R_U32 0);
  ("mac", 0, F_STR);
  ("master", 0, F_STR);
  ("parent", 0, F_STR);
  ("offloads", 0, F_STR_LIST);
  ("offloads_fixed", NCFG_FF_OMIT_EMPTY, F_STR_LIST);
  ("ipv6_token", 0, F_STR);
  ("qdisc", 0, F_STR);
  ("qdisc_bandwidth_bits", 0, OPT_INT_IN R_U64);
  ("qdisc_ingress", 0, F_BOOL false);
  ("ingress_redirect", 0, F_STR);
  ("forwarding", 0, F_OPT_BOOL);
  ("rfkill", 0, F_OPT_STRUCT rfkill_type);
  ("privacy", 0, F_OPT_BOOL);
  ("accept_ra", 0, F_OPT_STRUCT accept_ra_type);
  ("ownership", 0, F_ENUM ownership_set NCFG_OWNERSHIP_UNKNOWN);
  ("private_key_loaded", 0, F_BOOL false);
  ("bond", 0, F_OPT_STRUCT observed_bond_type);
  ("bridge", 0, F_OPT_STRUCT observed_bridge_type);
  ("macvlan", 0, F_OPT_STRUCT observed_macvlan_type);
  ("vlan", 0, F_OPT_STRUCT observed_vlan_type);
  ("tunnel", 0, F_OPT_STRUCT observed_tunnel_type);
  ("vxlan", 0, F_OPT_STRUCT observed_vxlan_type);
  ("wireguard", 0, F_OPT_STRUCT observed_wireguard_type)].
Definition observed_link_type : ftype := FType "observed link" observed_link_fields None.

Definition observed_bluetooth_fields : ffields := fields [
  ("name", NCFG_FF_REQUIRED, F_STR);
  ("rfkill", 0, F_OPT_STRUCT rfkill_type)].
Definition observed_bluetooth_type : ftype := FType "bluetooth adapter" observed_bluetooth_fields None.

Definition observed_port_fields : ffields := fields [
  ("device", NCFG_FF_REQUIRED, F_STR);
  ("index", NCFG_FF_REQUIRED, INT_IN R_U32 0);
  ("type", NCFG_FF_REQUIRED, F_STR);
  ("interface", 0, F_STR);
  ("rdma", 0, F_STR)].
Definition observed_port_type : ftype := FType "card port" observed_port_fields None.

Definition observed_address_fields : ffields := fields [
  ("interface", NCFG_FF_REQUIRED, F_STR);
  ("address", NCFG_FF_REQUIRED, F_STR);
  ("proto", 0, OPT_INT_IN R_U8);
  ("ownership", NCFG_FF_REQUIRED, F_ENUM ownership_set 0);
  ("origin", 0, F_OPT_ENUM origin_set)].
Definition observed_address_type : ftype := FType "observed address" observed_address_fields None.

Definition observed_route_fields : ffields := fields [
  ("interface", NCFG_FF_REQUIRED, F_STR);
  ("destination", NCFG_FF_REQUIRED, F_STR);
  ("via", 0, F_CUSTOM address_text);
  ("metric", 0, OPT_INT_IN R_U32);
  ("table", 0, OPT_INT_IN R_U32);
  ("src", 0, F_CUSTOM address_text);
  ("scope", 0, F_OPT_ENUM observed_route_scope_set);
  ("proto", 0, OPT_INT_IN R_U8);
  ("ownership", NCFG_FF_REQUIRED, F_ENUM ownership_set 0);
  ("origin", 0, F_OPT_ENUM origin_set)].
Definition observed_route_type : ftype := FType "observed route" observed_route_fields None.

Definition observed_rule_fields : ffields := fields [
  ("priority", NCFG_FF_REQUIRED, INT_IN R_U32 0);
  ("family", NCFG_FF_REQUIRED, F_ENUM rule_family_set 0);
  ("from", 0, F_STR);
  ("to", 0, F_STR);
  ("iif", 0, F_STR);
  ("oif", 0, F_STR);
  ("fwmark", 0, OPT_INT_IN R_U32);
  ("fwmask", 0, OPT_INT_IN R_U32);
  ("table", 0, OPT_INT_IN R_U32);
  ("action", NCFG_FF_REQUIRED, F_ENUM rule_action_set 0);
  ("suppress_prefixlength", 0, OPT_INT_IN R_U32);
  ("l3mdev", 0, F_BOOL false);
  ("invert", 0, F_BOOL false);
  ("ownership", NCFG_FF_REQUIRED, F_ENUM ownership_set 0)].
Definition observed_rule_type : ftype := FType "observed routing rule" observed_rule_fields None.

Definition observed_bridge_vlan_fields : ffields := fields [
  ("index", NCFG_FF_REQUIRED, INT_IN R_U32 0);
  ("vid", NCFG_FF_REQUIRED, INT_IN R_U16 0);
  ("pvid", NCFG_FF_REQUIRED, F_BOOL false);
  ("untagged", NCFG_FF_REQUIRED, F_BOOL false)].
Definition observed_bridge_vlan_type : ftype := FType "observed bridge vlan" observed_bridge_vlan_fields None.

Definition delegation_fields : ffields := fields [
  ("interface", NCFG_FF_REQUIRED, F_STR);
  ("prefixes", NCFG_FF_REQUIRED, F_STR_LIST)].
Definition delegation_type : ftype := FType "delegation" delegation_fields None.

Definition reported_route_fields : ffields := fields [
  ("destination", NCFG_FF_REQUIRED, F_STR);
  ("via", 0, F_STR)].
Definition reported_route_type : ftype := FType "reported route" reported_route_fields None.

Definition observed_report_fields : ffields := fields [
  ("interface", NCFG_FF_REQUIRED, F_STR);
  ("addresses", NCFG_FF_REQUIRED, F_STR_LIST);
  ("gateways", NCFG_FF_REQUIRED, F_STR_LIST);
  ("nameservers", NCFG_FF_REQUIRED, F_STR_LIST);
  ("search", NCFG_FF_OMIT_EMPTY, F_STR_LIST);
  ("routes", 0, F_LIST reported_route_type);
  ("iccid", 0, F_STR);
  ("sim", 0, F_STR)].
Definition observed_report_type : ftype := FType "interface report" observed_report_fields None.

(** [ncfg_observed_policy_t]. *)
Record observed_policy := ObservedPolicy { op_kind : Z; op_policy : Z }.

Definition observed_policy_read (d : doc) (node : Z) (value : observed_policy) : R observed_policy :=
  if bool_decide (json_get_type d node = NCFG_JSON_STRING) then
    if json_string_equals d node (bytes "unset") then ret (ObservedPolicy NCFG_OBSERVED_POLICY_UNSET (op_policy value))
    else if json_string_equals d node (bytes "unknown") then ret (ObservedPolicy NCFG_OBSERVED_POLICY_UNKNOWN (op_policy value))
    else refuse (REFUSED "an access point policy is `unset`, `unknown`, or `{set: ...}`")
  else
    let only := only_member d node in
    if (only =? NCFG_JSON_NONE) || negb (json_member d node (bytes "set") =? only)
    then refuse (REFUSED "an access point policy is `unset`, `unknown`, or `{set: ...}`")
    else policy <- field_enum d observed_acl_policy_set only; ret (ObservedPolicy NCFG_OBSERVED_POLICY_SET policy).

Definition observed_policy_write (value : observed_policy) : list call :=
  if op_kind value =? NCFG_OBSERVED_POLICY_SET then
    in_object (match enum_name observed_acl_policy_set (op_policy value) with
               | Some word => [MEMBER (Some (bytes "set")); STRING (Some word)]
               | None => []
               end)
  else if op_kind value =? NCFG_OBSERVED_POLICY_UNSET then [STRING (Some (bytes "unset"))]
  else if op_kind value =? NCFG_OBSERVED_POLICY_UNKNOWN then [STRING (Some (bytes "unknown"))]
  else [].

Definition observed_policy_ok (value : observed_policy) : bool :=
  if op_kind value =? NCFG_OBSERVED_POLICY_SET then set_ok observed_acl_policy_set (op_policy value)
  else ((op_kind value =? NCFG_OBSERVED_POLICY_UNSET) || (op_kind value =? NCFG_OBSERVED_POLICY_UNKNOWN)) && (op_policy value =? 0).

Definition observed_policy_custom : custom :=
  Custom observed_policy (ObservedPolicy 0 0) observed_policy_read observed_policy_write None None observed_policy_ok.

Definition observed_neighbour_fields : ffields := fields [
  ("bssid", NCFG_FF_REQUIRED, F_STR);
  ("ssid", NCFG_FF_REQUIRED, F_STR);
  ("nr", NCFG_FF_REQUIRED, F_STR)].
Definition observed_neighbour_type : ftype := FType "observed neighbour" observed_neighbour_fields None.

Definition observed_steerable_fields : ffields := fields [
  ("address", NCFG_FF_REQUIRED, F_STR);
  ("signal", 0, OPT_INT_IN R_I32);
  ("connected", 0, OPT_INT_IN R_U32);
  ("inactive", 0, OPT_INT_IN R_U32)].
Definition observed_steerable_type : ftype := FType "steerable station" observed_steerable_fields None.

Definition observed_steered_fields : ffields := fields [
  ("station", NCFG_FF_REQUIRED, F_STR);
  ("ago", NCFG_FF_REQUIRED, INT_IN R_U32 0);
  ("imminent", NCFG_FF_OMIT_FALSE, F_BOOL false)].
Definition observed_steered_type : ftype := FType "steered station" observed_steered_fields None.

Definition observed_access_control_fields : ffields := fields [
  ("policy", NCFG_FF_REQUIRED, F_CUSTOM observed_policy_custom);
  ("denied", NCFG_FF_REQUIRED, F_STR_LIST);
  ("accepted", NCFG_FF_REQUIRED, F_STR_LIST);
  ("associated", NCFG_FF_OMIT_EMPTY, F_STR_LIST);
  ("associated_unread", NCFG_FF_OMIT_FALSE, F_BOOL false);
  ("neighbours", NCFG_FF_OMIT_EMPTY, F_LIST observed_neighbour_type);
  ("steerable", NCFG_FF_OMIT_EMPTY, F_LIST observed_steerable_type);
  ("steered", NCFG_FF_OMIT_EMPTY, F_LIST observed_steered_type)].
Definition observed_access_control_type : ftype := FType "observed access control" observed_access_control_fields None.

Definition observed_access_point_fields : ffields := fields [
  ("ssid", NCFG_FF_REQUIRED, F_CUSTOM ssid_required_custom);
  ("band", 0, F_STR);
  ("channel", 0, OPT_INT_IN R_U16);
  ("key_mgmt", 0, F_STR);
  ("hidden", 0, F_BOOL false);
  ("regdom", 0, F_STR);
  ("mobility_domain", 0, F_STR);
  ("wds", NCFG_FF_OMIT_FALSE, F_BOOL false);
  ("neighbour_reports", NCFG_FF_OMIT_FALSE, F_BOOL false);
  ("isolate_stations", NCFG_FF_OMIT_FALSE, F_BOOL false);
  ("high_throughput", NCFG_FF_OMIT_FALSE, F_BOOL false);
  ("forty_mhz", NCFG_FF_OMIT_FALSE, F_BOOL false);
  ("very_high_throughput", NCFG_FF_OMIT_FALSE, F_BOOL false);
  ("eighty_mhz", NCFG_FF_OMIT_FALSE, F_BOOL false);
  ("hundred_sixty_mhz", NCFG_FF_OMIT_FALSE, F_BOOL false);
  ("high_efficiency", NCFG_FF_OMIT_FALSE, F_BOOL false)].
Definition observed_access_point_type : ftype := FType "running access point" observed_access_point_fields None.

Definition observed_lease_fields : ffields := fields [
  ("address", NCFG_FF_REQUIRED, F_STR);
  ("mac", 0, F_STR);
  ("hostname", 0, F_STR);
  ("expires", 0, INT_IN NO_RANGE 0)].
Definition observed_lease_type : ftype := FType "lease" observed_lease_fields None.

Definition observed_mapping_fields : ffields := fields [
  ("protocol", NCFG_FF_REQUIRED, F_STR);
  ("external_port", 0, INT_IN NO_RANGE 0);
  ("address", NCFG_FF_REQUIRED, F_STR);
  ("internal_port", 0, INT_IN NO_RANGE 0);
  ("expires", 0, INT_IN NO_RANGE 0);
  ("description", 0, F_STR)].
Definition observed_mapping_type : ftype := FType "mapping" observed_mapping_fields None.

Definition observed_backend_fields : ffields := fields [
  ("kind", NCFG_FF_REQUIRED, F_ENUM backend_kind_set 0);
  ("interface", NCFG_FF_REQUIRED, F_STR);
  ("running", NCFG_FF_REQUIRED, F_BOOL false);
  ("answering", 0, F_OPT_BOOL);
  ("access_control", 0, F_OPT_STRUCT observed_access_control_type);
  ("started_metric", 0, OPT_INT_IN R_U32);
  ("started_with", 0, F_OPT_STRUCT observed_access_point_type);
  ("secret_matches", 0, F_OPT_BOOL);
  ("networks_match", 0, F_OPT_BOOL);
  ("config_matches", 0, F_OPT_BOOL);
  ("config_present", 0, F_OPT_BOOL);
  ("advertised", NCFG_FF_OMIT_EMPTY, F_STR_LIST);
  ("served", 0, F_STR);
  ("leases", NCFG_FF_OMIT_EMPTY, F_LIST observed_lease_type);
  ("mappings", NCFG_FF_OMIT_EMPTY, F_LIST observed_mapping_type)].
Definition observed_backend_type : ftype := FType "backend" observed_backend_fields None.

(** [ncfg_backend_restart_t]: [(kind, interface, count)], a list of three. *)
Record backend_restart := BackendRestart { br_kind : Z; br_interface : option (list byte); br_count : Z }.

Definition backend_restart_read (d : doc) (node : Z) (entry : backend_restart) : R backend_restart :=
  if negb (bool_decide (json_get_type d node = NCFG_JSON_ARRAY)) || negb (json_count d node =? 3)
  then refuse (REFUSED "a backend restart count is a list of a kind, an interface and a number")
  else
    kind <- field_enum d backend_kind_set (json_at d node 0);
    interface <- field_string d (json_at d node 1) (WORDS "the interface of a backend restart count");
    let count := json_int d (json_at d node 2) (-1) in
    if negb (bool_decide (json_get_type d (json_at d node 2) = NCFG_JSON_NUMBER)) || (count <? 0) || (4294967295 <? count)
    then refuse (REFUSED "a backend restart count is a whole number from 0 to 4294967295")
    else ret (BackendRestart kind (Some interface) count).

Definition backend_restart_write (entry : backend_restart) : list call :=
  in_array [match enum_name backend_kind_set (br_kind entry) with Some word => [STRING (Some word)] | None => [] end;
            [STRING (br_interface entry)]; [INT (br_count entry)]].

Definition backend_restart_ok (entry : backend_restart) : bool :=
  set_ok backend_kind_set (br_kind entry) && str_ok (br_interface entry) && in_range 0 4294967295 (br_count entry).

Definition backend_restart_custom : custom :=
  Custom backend_restart (BackendRestart 0 None 0) backend_restart_read backend_restart_write None None backend_restart_ok.

Definition applied_dns_fields : ffields := fields [
  ("scope", NCFG_FF_REQUIRED, F_STR);
  ("policy", NCFG_FF_REQUIRED, F_STRUCT observed_dns_policy_type)].
Definition applied_dns_type : ftype := FType "applied dns scope" applied_dns_fields None.

Definition hook_state_fields : ffields := fields [
  ("interface", NCFG_FF_REQUIRED, F_STR);
  ("phase", NCFG_FF_REQUIRED, F_ENUM hook_phase_set 0);
  ("value", NCFG_FF_REQUIRED, F_STR)].
Definition hook_state_type : ftype := FType "hook state" hook_state_fields None.

Definition observed_firewall_rule_fields : ffields := fields [
  ("chain", NCFG_FF_REQUIRED, F_STR);
  ("name", NCFG_FF_REQUIRED, F_STR);
  ("digest", NCFG_FF_REQUIRED, F_STR);
  ("action", NCFG_FF_REQUIRED, F_STR);
  ("protocol", NCFG_FF_REQUIRED, F_STR);
  ("port", 0, OPT_INT_IN R_U16);
  ("from", 0, F_STR);
  ("to", 0, F_STR);
  ("interface", 0, F_STR);
  ("out_interface", 0, F_STR);
  ("states", NCFG_FF_OMIT_EMPTY, F_STR_LIST);
  ("translated", NCFG_FF_OMIT_FALSE, F_BOOL false);
  ("mac", 0, F_STR);
  ("time", 0, F_STR)].
Definition observed_firewall_rule_type : ftype := FType "observed firewall rule" observed_firewall_rule_fields None.

Definition observed_firewall_fields : ffields := fields [
  ("input", 0, F_STR);
  ("forward", 0, F_STR);
  ("output", 0, F_STR);
  ("rules", 0, F_LIST observed_firewall_rule_type);
  ("unread", NCFG_FF_OMIT_EMPTY, F_STR_LIST)].
Definition observed_firewall_type : ftype := FType "observed firewall" observed_firewall_fields None.

Definition observed_forward_fields : ffields := fields [
  ("kind", 0, F_STR);
  ("address", 0, F_STR);
  ("network", 0, F_STR);
  ("via", 0, F_STR);
  ("interface", 0, F_STR);
  ("name", 0, F_STR);
  ("digest", 0, F_STR);
  ("protocol", 0, F_STR);
  ("port", 0, INT_IN R_U16 0);
  ("to", 0, F_STR);
  ("to_port", 0, INT_IN R_U16 0)].
Definition observed_forward_type : ftype := FType "observed port forward" observed_forward_fields None.

Definition observed_fields : ffields := fields [
  ("connectivity", 0, F_OPT_STRUCT observed_connectivity_type);
  ("inventory", NCFG_FF_OMIT_EMPTY, F_LIST link_entry_type);
  ("linksets", NCFG_FF_OMIT_EMPTY, F_LIST chosen_type);
  ("links", 0, F_LIST observed_link_type);
  ("bluetooth", NCFG_FF_OMIT_EMPTY, F_LIST observed_bluetooth_type);
  ("ports", NCFG_FF_OMIT_EMPTY, F_LIST observed_port_type);
  ("regdom", 0, F_STR);
  ("hostapd_has_he", 0, F_OPT_BOOL);
  ("hostapd_lacks", NCFG_FF_OMIT_EMPTY, F_STR_LIST);
  ("regdom_set_by", 0, F_STR);
  ("addresses", 0, F_LIST observed_address_type);
  ("routes", 0, F_LIST observed_route_type);
  ("backends", 0, F_LIST observed_backend_type);
  ("dns", 0, F_LIST applied_dns_type);
  ("rules", 0, F_LIST observed_rule_type);
  ("bridge_vlans", 0, F_LIST observed_bridge_vlan_type);
  ("delegations", 0, F_LIST delegation_type);
  ("reports", 0, F_LIST observed_report_type);
  ("qdisc_applied", 0, F_STR_LIST);
  ("ingress_applied", 0, F_STR_LIST);
  ("privacy_applied", 0, F_STR_LIST);
  ("backend_restarts", 0, F_CUSTOM_LIST backend_restart_custom);
  ("accept_ra_applied", 0, F_STR_LIST);
  ("forwarding_applied", 0, F_STR_LIST);
  ("nat", 0, F_STR_LIST);
  ("nat_conflicts", 0, F_STR_LIST);
  ("hook_state", 0, F_LIST hook_state_type);
  ("hostname", 0, F_STR);
  ("address_proto_supported", 0, F_BOOL false);
  ("firewall", 0, F_OPT_STRUCT observed_firewall_type);
  ("filter_neighbours", NCFG_FF_OMIT_EMPTY, F_STR_LIST);
  ("port_forwards", NCFG_FF_OMIT_EMPTY, F_LIST observed_forward_type);
  ("port_forwards_unread", NCFG_FF_OMIT_EMPTY, F_STR_LIST);
  ("seen_stations", NCFG_FF_OMIT_EMPTY, F_STR_LIST)].
Definition observed_type : ftype := FType "observation" observed_fields None.
Definition status_type : ftype := FType "status answer" observed_fields (Some (bytes "response")).
End Observed.
