(* ===== verification/ObservedOps.v ===== *)
(** * ObservedOps: the operations on an observation

    The end of [model/observed.c] (a new observation, reading one from a text or
    from a status answer, writing it, and the two lists the ownership record
    shares with it) and [model/observed_link.c] (the canonical order and the
    questions an observation is asked). [stable_sort], [compare_text] and
    [compare_optint] are written out in [observed_link.c] a second time and are
    the definitions of [Canonical]. *)
From S2P Require Import Prelude Buf Lex Wire Value Json JsonWrite DocText Field Document Canonical DocumentOps Observed.
#[local] Open Scope string_scope.
#[local] Open Scope list_scope.
#[local] Open Scope Z_scope.
#[local] Open Scope field_scope.
Notation "a ⨾ b" := (then_compare a b) (at level 60, right associativity).

Section Observed.
Context {I : Inet}.

(** ** The canonical order *)

Definition compare_links (one other : value observed_link_type) : Z :=
  compare_text (get observed_link_type "name" one) (get observed_link_type "name" other).

Definition compare_addresses (one other : value observed_address_type) : Z :=
  compare_text (get observed_address_type "interface" one) (get observed_address_type "interface" other) ⨾
  compare_text (get observed_address_type "address" one) (get observed_address_type "address" other).

Definition compare_routes (one other : value observed_route_type) : Z :=
  compare_text (get observed_route_type "interface" one) (get observed_route_type "interface" other) ⨾
  compare_text (get observed_route_type "destination" one) (get observed_route_type "destination" other) ⨾
  compare_optint (get observed_route_type "metric" one) (get observed_route_type "metric" other).

Definition compare_backends (one other : value observed_backend_type) : Z :=
  compare_text (get observed_backend_type "interface" one) (get observed_backend_type "interface" other) ⨾
  (get observed_backend_type "kind" one - get observed_backend_type "kind" other).

Definition compare_dns (one other : value applied_dns_type) : Z :=
  compare_text (get applied_dns_type "scope" one) (get applied_dns_type "scope" other).

(** [ncfg_observed_canonicalize]. *)
Definition observed_canonicalize (observed : value observed_type) : value observed_type :=
  let observed := update observed_type "links" (stable_sort compare_links) observed in
  let observed := update observed_type "addresses" (stable_sort compare_addresses) observed in
  let observed := update observed_type "routes" (stable_sort compare_routes) observed in
  let observed := update observed_type "backends" (stable_sort compare_backends) observed in
  update observed_type "dns" (stable_sort compare_dns) observed.

(** ** Reading and writing *)

Section Memory.
Context (realloc_ok : Z -> bool) (grant : nat -> bool).

Inductive observed_refusal := OBSERVED_NOT_JSON (e : string * Z) | NOT_AN_OBSERVATION (e : refusal) | NO_STATUS.

(** [ncfg_observed_new]. *)
Definition observed_new : option (value observed_type) :=
  match (_ <- alloc; type_init observed_type) grant 0%nat with inl _ => None | inr (observed, _) => Some observed end.

(** [ncfg_observed_from_status]: the observation in a status answer, whose
    [response] the decoder has read. *)
Definition observed_from_status (d : option doc) (object : Z) : observed_refusal + value observed_type :=
  match d with
  | None => inl NO_STATUS
  | Some d =>
      if object =? NCFG_JSON_NONE then inl NO_STATUS
      else
        match (_ <- alloc; base <- type_init status_type; type_read d status_type object base) grant 0%nat with
        | inl e => inl (NOT_AN_OBSERVATION e)
        | inr (observed, _) => inr observed
        end
  end.

(** [ncfg_observed_read]. *)
Definition observed_read (malloc_ok : bool) (text : list byte) : option (observed_refusal + value observed_type) :=
  match json_parse realloc_ok malloc_ok text with
  | None => None
  | Some (inl e) => Some (inl (OBSERVED_NOT_JSON e))
  | Some (inr json) =>
      match (_ <- alloc; base <- type_init observed_type; type_read json observed_type (json_root json) base) grant 0%nat with
      | inl e => Some (inl (NOT_AN_OBSERVATION e))
      | inr (observed, _) => Some (inr observed)
      end
  end.

Definition observed_write_members (observed : value observed_type) : list call := type_write observed_type observed.

(** [ncfg_observed_write]. *)
Definition observed_write (observed : value observed_type) (out : buf) : option write_refusal * buf :=
  let w := write_object realloc_ok (observed_write_members observed) out in
  if write_done w then (None, w_buf w)
  else (Some (COULD_NOT_BE_WRITTEN (default "it did not fit" (write_failure w))), w_buf w).

(** [ncfg_observed_write_canonical]. *)
Definition observed_write_canonical (observed : value observed_type) (out : buf) : value observed_type * option write_refusal * buf :=
  let observed := observed_canonicalize observed in
  match observed_write observed (buf_init 0) with
  | (Some why, _) => (observed, Some why, out)
  | (None, compact) =>
      let '(laid_out, out) := json_pretty realloc_ok (buf_text compact) out in
      (observed, if laid_out then None else Some COULD_NOT_BE_LAID_OUT, out)
  end.

(** [ncfg_daemon_status_encode] of [daemon/report.c] and its [finish]: the
    answer to [status]. *)
Definition daemon_status_encode (observed : option (value observed_type)) (out : buf) : option string * buf :=
  match observed with
  | None => (Some "this daemon has not managed to observe the machine, so there is no status to report", out)
  | Some observed =>
      let w := write_object realloc_ok
        ([MEMBER (Some (bytes "response")); STRING (Some (bytes "status"))] ++ observed_write_members observed) out in
      if write_done w then (None, w_buf w)
      else (Some (default "it was left unfinished" (write_failure w)), w_buf w)
  end.
End Memory.

(** ** The two lists the ownership record has too *)

Definition read_elements (t : ftype) (d : doc) (node : Z) : R (list (value t)) :=
  read_array d (bytes (type_what t)) "record" (fun child => base <- type_init t; type_read d t child base) (zero t) node.

Definition write_elements (t : ftype) (items : list (value t)) : list call :=
  in_array (map (fun item => in_object (type_write t item)) items).

Definition observed_backends_read : doc -> Z -> R (list (value observed_backend_type)) := read_elements observed_backend_type.
Definition observed_backends_write : list (value observed_backend_type) -> list call := write_elements observed_backend_type.
Definition applied_dns_read : doc -> Z -> R (list (value applied_dns_type)) := read_elements applied_dns_type.
Definition applied_dns_write : list (value applied_dns_type) -> list call := write_elements applied_dns_type.

(** One element on its own. *)
Definition observed_link_write (link : value observed_link_type) : list call := type_write observed_link_type link.
Definition observed_address_write (address : value observed_address_type) : list call := type_write observed_address_type address.
Definition observed_route_write (route : value observed_route_type) : list call := type_write observed_route_type route.

(** ** Names *)

Definition ownership_name (ownership : Z) : option (list byte) := enum_name ownership_set ownership.
Definition origin_name (origin : Z) : option (list byte) := enum_name origin_set origin.
Definition backend_kind_name (kind : Z) : option (list byte) := enum_name backend_kind_set kind.
Definition link_category_name (category : Z) : option (list byte) := enum_name link_category_set category.
Definition presence_name (presence : Z) : option (list byte) := enum_name presence_set presence.
Definition subject_name (subject : Z) : option (list byte) := enum_name subject_set subject.
Definition rung_name (rung : Z) : option (list byte) := enum_name rung_set rung.

(** [ncfg_ineligible_name]: the words of a status line. *)
Definition ineligible_name (reason : Z) : option string :=
  if reason =? NCFG_INELIGIBLE_ABSENT then Some "absent"
  else if reason =? NCFG_INELIGIBLE_UNJOINED then Some "unjoined"
  else if reason =? NCFG_INELIGIBLE_NO_CARRIER then Some "no carrier"
  else if reason =? NCFG_INELIGIBLE_PROBE then Some "probe failed"
  else if reason =? NCFG_INELIGIBLE_EMPTY then Some "empty"
  else if reason =? NCFG_INELIGIBLE_CYCLE then Some "cycle"
  else None.

Definition ownership_may_remove (ownership : Z) : bool := ownership =? NCFG_OWNERSHIP_OURS.

(** ** Questions *)

Definition observed_hostapd_lacks (observed : option (value observed_type)) (key : option (list byte)) : bool :=
  match observed, key with
  | Some o, Some key =>
      existsb (fun lacks => match lacks with Some word => bytes_eqb word key | None => false end)
        (get observed_type "hostapd_lacks" o : list (option (list byte)))
  | _, _ => false
  end.

Definition rfkill_blocked (rfkill : option (value rfkill_type)) : bool :=
  match rfkill with Some r => get rfkill_type "soft" r || get rfkill_type "hard" r | None => false end.

(** [ncfg_rfkill_remedy]: the sentence, where it fits. *)
Definition rfkill_remedy (rfkill : option (value rfkill_type)) (out_size : Z) : option (list byte) :=
  match rfkill with
  | None => None
  | Some r =>
      let at_ := default (bytes "an unnamed switch") (get rfkill_type "switch" r : option (list byte)) in
      let text :=
        if get rfkill_type "hard" r then
          bytes "the radio is switched off at " ++ at_ ++
          bytes " by a hardware switch -- the button or slider on the machine, which nothing in software can clear"
        else bytes "the radio is switched off at " ++ at_ ++ bytes " in software, which `rfkill unblock wifi` clears" in
      if zlen text <? out_size then Some text else None
  end.

Definition connectivity_connected (connectivity : option (value observed_connectivity_type)) : bool :=
  match connectivity with Some c => NCFG_RUNG_ROUTED <=? get observed_connectivity_type "rung" c | None => false end.

(** [ncfg_observed_access_control_list]: policy 0 is [deny], 1 is [allow]. *)
Definition observed_access_control_list (control : option (value observed_access_control_type)) (policy : Z) : list (option (list byte)) :=
  match control with
  | None => []
  | Some c =>
      if policy =? 0 then get observed_access_control_type "denied" c
      else if policy =? 1 then get observed_access_control_type "accepted" c
      else []
  end.

(** [ncfg_observed_link]. *)
Definition observed_link (observed : option (value observed_type)) (name : option (list byte)) : option (value observed_link_type) :=
  match observed, name with
  | Some o, Some _ =>
      find (fun link : value observed_link_type => compare_text (get observed_link_type "name" link) name =? 0)
        (get observed_type "links" o : list (value observed_link_type))
  | _, _ => None
  end.

(** [ncfg_observed_joined_network]. *)
Definition observed_joined_network (observed : option (value observed_type)) (desired : option (value document_type))
    (link : option (list byte)) : option (value network_type) :=
  match observed_link observed link, desired with
  | Some found, Some d =>
      match (get observed_link_type "network" found : option (list byte)) with
      | None => None
      | Some network =>
          find (fun n : value network_type => match (get network_type "id" n : option (list byte)) with Some id => bytes_eqb id network | None => false end)
            (get document_type "networks" d : list (value network_type))
      end
  | _, _ => None
  end.

Definition observed_delegation (observed : option (value observed_type)) (interface : option (list byte)) : option (value delegation_type) :=
  match observed, interface with
  | Some o, Some _ =>
      find (fun one : value delegation_type => compare_text (get delegation_type "interface" one) interface =? 0)
        (get observed_type "delegations" o : list (value delegation_type))
  | _, _ => None
  end.

(** [ncfg_observed_prefix_of]. *)
Definition observed_prefix_of (observed : option (value observed_type)) (reference : option (value prefix_ref_type)) (out_size : Z) :
    option (list byte) :=
  match reference with
  | None => None
  | Some reference =>
      if out_size =? 0 then None
      else
        match observed_delegation observed (get prefix_ref_type "source" reference) with
        | None => None
        | Some delegation =>
            let index := get prefix_ref_type "index" reference in
            let prefixes := (get delegation_type "prefixes" delegation : list (option (list byte))) in
            if (index <? 0) || (zlen prefixes <=? index) then None
            else
              match prefixes !! Z.to_nat index with
              | Some prefix => address_from_delegation prefix (get prefix_ref_type "subnet" reference) (Some (bytes "::/64")) out_size
              | None => None
              end
        end
  end.

(** The metric of the network a link is on, where the first network of that
    name states one. *)
Fixpoint network_metric (networks : list (value network_type)) (joined : list byte) : option Z :=
  match networks with
  | [] => None
  | n :: networks =>
      match (get network_type "id" n : option (list byte)) with
      | Some id => if bytes_eqb id joined then get network_type "metric" n else network_metric networks joined
      | None => network_metric networks joined
      end
  end.

(** [ncfg_observed_effective_metric]. *)
Definition observed_effective_metric (desired : option (value document_type)) (observed : option (value observed_type))
    (interface : option (value interface_type)) : option Z :=
  match interface with
  | None => None
  | Some interface =>
      let preference := (get interface_type "preference" interface : option Z) in
      match desired, observed_link observed (get interface_type "name" interface) with
      | Some d, Some link =>
          match (get observed_link_type "network" link : option (list byte)) with
          | Some joined =>
              match network_metric (get document_type "networks" d) joined with Some metric => Some metric | None => preference end
          | None => preference
          end
      | _, _ => preference
      end
  end.

Definition observed_dns_for (observed : option (value observed_type)) (scope : option (list byte)) : option (value observed_dns_policy_type) :=
  match observed, scope with
  | Some o, Some _ =>
      match find (fun one : value applied_dns_type => compare_text (get applied_dns_type "scope" one) scope =? 0)
              (get observed_type "dns" o : list (value applied_dns_type)) with
      | Some one => Some (get applied_dns_type "policy" one)
      | None => None
      end
  | _, _ => None
  end.

(** [ncfg_observed_has_dhcp_lease]: a route the DHCP client installed. *)
Definition observed_has_dhcp_lease (observed : option (value observed_type)) (interface : option (list byte)) : bool :=
  match observed, interface with
  | Some o, Some _ =>
      existsb (fun route : value observed_route_type =>
        (compare_text (get observed_route_type "interface" route) interface =? 0) &&
        match (get observed_route_type "proto" route : option Z) with Some proto => proto =? NCFG_DHCP_ROUTE_PROTO | None => false end)
        (get observed_type "routes" o : list (value observed_route_type))
  | _, _ => false
  end.

Definition observed_backend_restarts (observed : option (value observed_type)) (kind : Z) (interface : option (list byte)) : Z :=
  match observed, interface with
  | Some o, Some _ =>
      match find (fun entry : backend_restart => (br_kind entry =? kind) && (compare_text (br_interface entry) interface =? 0))
              (get observed_type "backend_restarts" o : list backend_restart) with
      | Some entry => br_count entry
      | None => 0
      end
  | _, _ => 0
  end.

Definition observed_backend_running (observed : option (value observed_type)) (kind : Z) (interface : option (list byte)) : bool :=
  match observed, interface with
  | Some o, Some _ =>
      existsb (fun backend : value observed_backend_type =>
        (get observed_backend_type "kind" backend =? kind) && get observed_backend_type "running" backend &&
        (compare_text (get observed_backend_type "interface" backend) interface =? 0))
        (get observed_type "backends" o : list (value observed_backend_type))
  | _, _ => false
  end.

(** ** Presence and category *)

Definition presence_of_interface (name : option (list byte)) (observed : option (value observed_type)) : Z :=
  match observed_link observed name with Some _ => NCFG_PRESENCE_PRESENT | None => NCFG_PRESENCE_ABSENT end.

(** [ncfg_presence_of_network]: [seen] is what a scan said, where one was read. *)
Definition presence_of_network (hidden associated : bool) (seen : option bool) : Z :=
  if associated then NCFG_PRESENCE_PRESENT
  else if hidden then NCFG_PRESENCE_UNKNOWN
  else
    match seen with
    | None => NCFG_PRESENCE_UNKNOWN
    | Some true => NCFG_PRESENCE_PRESENT
    | Some false => NCFG_PRESENCE_ABSENT
    end.

Definition is_modem (link : value observed_link_type) (document : value document_type) : bool :=
  existsb (fun device : value device_type =>
    match (get device_type "modem" device : option (value modem_type)) with Some _ => true | None => false end &&
    (compare_text (get device_type "name" device) (get observed_link_type "name" link) =? 0))
    (get document_type "devices" document : list (value device_type)).

Definition kind_among (kind : list byte) (words : list string) : bool := existsb (fun word => bytes_eqb kind (bytes word)) words.

(** [ncfg_link_category_of]. *)
Definition link_category_of (link : option (value observed_link_type)) (document : option (value document_type)) : Z :=
  match link with
  | None => NCFG_LINK_CATEGORY_OTHER
  | Some link =>
      let kind := default [] (get observed_link_type "kind" link : option (list byte)) in
      if match document with Some d => is_modem link d | None => false end then NCFG_LINK_CATEGORY_MODEM
      else if compare_text (get observed_link_type "name" link) (Some (bytes "lo")) =? 0 then NCFG_LINK_CATEGORY_LOOPBACK
      else if get observed_link_type "wireless" link then NCFG_LINK_CATEGORY_WIFI
      else if kind_among kind [""; "ether"] then NCFG_LINK_CATEGORY_ETHERNET
      else if kind_among kind ["bridge"] then NCFG_LINK_CATEGORY_BRIDGE
      else if kind_among kind ["bond"] then NCFG_LINK_CATEGORY_BOND
      else if kind_among kind ["vlan"; "macvlan"; "macvtap"] then NCFG_LINK_CATEGORY_VLAN
      else if kind_among kind ["wireguard"] then NCFG_LINK_CATEGORY_WIREGUARD
      else if kind_among kind ["gre"; "gretap"; "ip6gre"; "ip6tnl"; "ipip"; "sit"; "vxlan"; "tun"; "tap"; "ppp"; "vti"; "vti6"]
        then NCFG_LINK_CATEGORY_TUNNEL
      else if kind_among kind ["veth"; "dummy"; "ifb"; "vrf"] then NCFG_LINK_CATEGORY_VIRTUAL
      else NCFG_LINK_CATEGORY_OTHER
  end.
End Observed.
