(* ===== verification/ObservedRoundtrip.v ===== *)
(** * ObservedRoundtrip: the observation reads back what it writes

    Every set, custom and table of [Observed] is lawful, so the round trip of
    tables holds of the whole observation.

    What the daemon writes of an observation, to its file or as the answer to
    [status], is read as that observation; the canonical order is reached in
    one pass; the two members of the observation whose tables name no range. *)
From stdpp Require Import sets.
From S2P Require Import Prelude Lex LexFacts Wire WireSpec Decimal Value Json JsonFacts JsonSpec JsonRead JsonWrite JsonPrint JsonWriteSpec RequestRoundtrip DocText DocTextSpec Field FieldSpec Document DocumentSpec Observed Buf InetText JsonPretty Canonical CanonicalSpec DocumentOps DocumentRoundtrip ObservedOps.
#[local] Open Scope Z_scope.

Section Lawful.
Context {I : Inet}.

(** The tables that are written twice agree: the copies of [observed.c] are
    the document's. *)
Lemma copies_agree :
  observed_dns_policy_type = dns_policy_type /\ observed_route_scope_set = route_scope_set /\ observed_acl_policy_set = acl_policy_set.
Proof. repeat split; reflexivity. Qed.

(** ** Customs *)

Lemma text_always_lawful : custom_lawful text_always.
Proof.
  apply custom_lawful_plain; [done|done|]. intros v Hok _. cbn [text_always cu_ok cu_write cu_read cu_zero cu_value] in *.
  apply str_ok_some in Hok as (s & -> & Hs). exists (JString s). split; [by apply emits_string, no_nul_plain|].
  intros d i key grant n Hg Hv. unfold text_always_read, bind.
  destruct (field_string_reads (WORDS "a link kind") s Hs d i key grant n Hg Hv) as [n' ->]. by eexists.
Qed.

Lemma device_key_lawful : custom_lawful device_key_custom.
Proof.
  apply custom_lawful_plain; [done|by intros [key|]|]. intros [key|] Hok Ho; [|done].
  destruct (cl_write public_key_custom public_key_lawful key Hok eq_refl) as (t & He & Hr). exists t. split; [exact He|].
  intros d i k grant n Hg Hv. cbn [device_key_custom cu_read]. unfold device_key_read, bind.
  destruct (Hr d i k grant n Hg Hv) as [n' E]. cbn [public_key_custom cu_read] in E. rewrite E. by eexists.
Qed.

(** The word of a value of a set, written and read. *)
Lemma set_word s v : set_lawful s -> set_ok s v = true ->
  exists w, enum_name s v = Some w /\ has_nul w = false /\ reads (fun d i => field_enum d s i) v (JString w).
Proof.
  unfold set_ok. intros Hs Hok. apply andb_true_iff in Hok as [Hi Hn]. destruct (enum_name s v) as [w|] eqn:E; [|done].
  exists w. destruct (Hs v w Hi E) as (_ & Hw & _). split_and!; [done|done|]. by apply field_enum_reads.
Qed.

Lemma acl_policy_lawful : set_lawful observed_acl_policy_set.
Proof. set_lawful_tac. Qed.

Lemma backend_kind_lawful : set_lawful backend_kind_set.
Proof. set_lawful_tac. Qed.

Lemma observed_policy_lawful : custom_lawful observed_policy_custom.
Proof.
  apply custom_lawful_plain; [done|done|]. intros [kind policy] Hok _. cbn [observed_policy_custom cu_ok cu_write cu_read cu_zero cu_value] in *.
  unfold observed_policy_ok, observed_policy_write, observed_policy_read in *. cbn [op_kind op_policy] in *.
  destruct (Z.eqb_spec kind NCFG_OBSERVED_POLICY_SET) as [->|Hne].
  - destruct (set_word _ policy acl_policy_lawful Hok) as (w & -> & Hw & Hr). exists (JObject [(bytes "set", JString w)]).
    split; [by apply emits_one|]. intros d i key grant n Hg Hv. destruct (only_lookup _ _ _ _ _ Hv) as (Ho & Ht & Hm).
    rewrite (type_lookup _ _ _ _ Hv), Ho, Z.eqb_refl, (proj2 (Z.eqb_neq _ _) Hm), bool_decide_eq_false_2 by done.
    cbn [negb orb]. unfold bind.
    destruct (Hr d _ _ grant n Hg Ht) as [n' ->]. by eexists.
  - apply andb_true_iff in Hok as [Hk Hz%Z.eqb_eq]. subst policy. destruct (Z.eqb_spec kind NCFG_OBSERVED_POLICY_UNSET) as [E|Hu]; [subst kind|].
    + exists (JString (bytes "unset")). split; [by apply emits_string|]. intros d i key grant n Hg Hv.
      rewrite (type_lookup _ _ _ _ Hv), (string_equals_lookup _ _ _ _ _ Hv). by eexists.
    + cbn [orb] in Hk. rewrite Hk. apply Z.eqb_eq in Hk as ->. exists (JString (bytes "unknown")). split; [by apply emits_string|].
      intros d i key grant n Hg Hv. rewrite (type_lookup _ _ _ _ Hv), !(string_equals_lookup _ _ _ _ _ Hv). by eexists.
Qed.

Lemma backend_restart_lawful : custom_lawful backend_restart_custom.
Proof.
  apply custom_lawful_plain; [done|done|]. intros [kind interface count] Hok _.
  cbn [backend_restart_custom cu_ok cu_write cu_read cu_zero cu_value] in *. unfold backend_restart_ok, backend_restart_write in *.
  cbn [br_kind br_interface br_count] in *. apply andb_true_iff in Hok as [[Hk (s & -> & Hs)%str_ok_some]%andb_true_iff Hc].
  destruct (set_word _ kind backend_kind_lawful Hk) as (w & -> & Hw & Hr). unfold in_range in Hc. unbool.
  exists (JArray [JString w; JString s; JNumber (num count)]). split.
  - apply emits_array. constructor; [by apply emits_string, no_nul_plain|]. constructor; [by apply emits_string, no_nul_plain|].
    constructor; [|constructor]. apply emits_int. unfold INT64_MIN, INT64_MAX. lia.
  - intros d i key grant n Hg Hv. unfold backend_restart_read.
    pose proof (at_lookup_array d i key _ 0 Hv) as A0. pose proof (at_lookup_array d i key _ 1 Hv) as A1.
    pose proof (at_lookup_array d i key _ 2 Hv) as A2. simpl in A0, A1, A2.
    rewrite (type_lookup _ _ _ _ Hv), (count_lookup _ _ _ _ Hv), (type_lookup _ _ _ _ A2), (int_lookup _ _ _ _ _ A2), num_int
      by (unfold INT64_MIN, INT64_MAX; lia).
    rewrite !bool_decide_eq_true_2 by done. change (zlen [JString w; JString s; JNumber (num count)] =? 3) with true. change (default (-1) (Some count)) with count. cbn [negb orb]. unfold bind.
    destruct (Hr d _ _ grant n Hg A0) as [n1 ->].
    destruct (field_string_reads (WORDS "the interface of a backend restart count") s Hs d _ _ grant n1 Hg A1) as [n2 ->].
    rewrite (proj2 (Z.ltb_ge count 0)), (proj2 (Z.ltb_ge 4294967295 count)) by lia. by eexists.
Qed.

#[local] Hint Resolve address_text_lawful dns_mode_lawful public_key_lawful ssid_required_lawful text_always_lawful device_key_lawful observed_policy_lawful backend_restart_lawful : lawful.

(** ** Tables *)

Lemma observed_dns_server_lawful : type_lawful observed_dns_server_type.
Proof. table_lawful_tac. Qed.
#[local] Hint Resolve observed_dns_server_lawful : lawful.

Lemma observed_routing_domain_lawful : type_lawful observed_routing_domain_type.
Proof. table_lawful_tac. Qed.
#[local] Hint Resolve observed_routing_domain_lawful : lawful.

Lemma observed_dns_policy_lawful : type_lawful observed_dns_policy_type.
Proof. table_lawful_tac. Qed.
#[local] Hint Resolve observed_dns_policy_lawful : lawful.

Lemma observed_link_entry_lawful : type_lawful link_entry_type.
Proof. table_lawful_tac. Qed.
#[local] Hint Resolve observed_link_entry_lawful : lawful.

Lemma observed_standing_lawful : type_lawful standing_type.
Proof. table_lawful_tac. Qed.
#[local] Hint Resolve observed_standing_lawful : lawful.

Lemma observed_chosen_lawful : type_lawful chosen_type.
Proof. table_lawful_tac. Qed.
#[local] Hint Resolve observed_chosen_lawful : lawful.

Lemma observed_primary_lawful : type_lawful primary_type.
Proof. table_lawful_tac. Qed.
#[local] Hint Resolve observed_primary_lawful : lawful.

Lemma observed_connectivity_lawful : type_lawful observed_connectivity_type.
Proof. table_lawful_tac. Qed.
#[local] Hint Resolve observed_connectivity_lawful : lawful.

Lemma observed_rfkill_lawful : type_lawful rfkill_type.
Proof. table_lawful_tac. Qed.
#[local] Hint Resolve observed_rfkill_lawful : lawful.

Lemma observed_accept_ra_lawful : type_lawful accept_ra_type.
Proof. table_lawful_tac. Qed.
#[local] Hint Resolve observed_accept_ra_lawful : lawful.

Lemma observed_bond_lawful : type_lawful observed_bond_type.
Proof. table_lawful_tac. Qed.
#[local] Hint Resolve observed_bond_lawful : lawful.

Lemma observed_bridge_lawful : type_lawful observed_bridge_type.
Proof. table_lawful_tac. Qed.
#[local] Hint Resolve observed_bridge_lawful : lawful.

Lemma observed_macvlan_lawful : type_lawful observed_macvlan_type.
Proof. table_lawful_tac. Qed.
#[local] Hint Resolve observed_macvlan_lawful : lawful.

Lemma observed_vlan_lawful : type_lawful observed_vlan_type.
Proof. table_lawful_tac. Qed.
#[local] Hint Resolve observed_vlan_lawful : lawful.

Lemma observed_tunnel_lawful : type_lawful observed_tunnel_type.
Proof. table_lawful_tac. Qed.
#[local] Hint Resolve observed_tunnel_lawful : lawful.

Lemma observed_vxlan_lawful : type_lawful observed_vxlan_type.
Proof. table_lawful_tac. Qed.
#[local] Hint Resolve observed_vxlan_lawful : lawful.

Lemma observed_wg_peer_lawful : type_lawful observed_wg_peer_type.
Proof. table_lawful_tac. Qed.
#[local] Hint Resolve observed_wg_peer_lawful : lawful.

Lemma observed_wireguard_lawful : type_lawful observed_wireguard_type.
Proof. table_lawful_tac. Qed.
#[local] Hint Resolve observed_wireguard_lawful : lawful.

Lemma observed_link_lawful : type_lawful observed_link_type.
Proof. table_lawful_tac. Qed.
#[local] Hint Resolve observed_link_lawful : lawful.

Lemma observed_bluetooth_lawful : type_lawful observed_bluetooth_type.
Proof. table_lawful_tac. Qed.
#[local] Hint Resolve observed_bluetooth_lawful : lawful.

Lemma observed_port_lawful : type_lawful observed_port_type.
Proof. table_lawful_tac. Qed.
#[local] Hint Resolve observed_port_lawful : lawful.

Lemma observed_address_lawful : type_lawful observed_address_type.
Proof. table_lawful_tac. Qed.
#[local] Hint Resolve observed_address_lawful : lawful.

Lemma observed_route_lawful : type_lawful observed_route_type.
Proof. table_lawful_tac. Qed.
#[local] Hint Resolve observed_route_lawful : lawful.

Lemma observed_rule_lawful : type_lawful observed_rule_type.
Proof. table_lawful_tac. Qed.
#[local] Hint Resolve observed_rule_lawful : lawful.

Lemma observed_bridge_vlan_lawful : type_lawful observed_bridge_vlan_type.
Proof. table_lawful_tac. Qed.
#[local] Hint Resolve observed_bridge_vlan_lawful : lawful.

Lemma observed_delegation_lawful : type_lawful delegation_type.
Proof. table_lawful_tac. Qed.
#[local] Hint Resolve observed_delegation_lawful : lawful.

Lemma observed_reported_route_lawful : type_lawful reported_route_type.
Proof. table_lawful_tac. Qed.
#[local] Hint Resolve observed_reported_route_lawful : lawful.

Lemma observed_report_lawful : type_lawful observed_report_type.
Proof. table_lawful_tac. Qed.
#[local] Hint Resolve observed_report_lawful : lawful.

Lemma observed_neighbour_lawful : type_lawful observed_neighbour_type.
Proof. table_lawful_tac. Qed.
#[local] Hint Resolve observed_neighbour_lawful : lawful.

Lemma observed_steerable_lawful : type_lawful observed_steerable_type.
Proof. table_lawful_tac. Qed.
#[local] Hint Resolve observed_steerable_lawful : lawful.

Lemma observed_steered_lawful : type_lawful observed_steered_type.
Proof. table_lawful_tac. Qed.
#[local] Hint Resolve observed_steered_lawful : lawful.

Lemma observed_access_control_lawful : type_lawful observed_access_control_type.
Proof. table_lawful_tac. Qed.
#[local] Hint Resolve observed_access_control_lawful : lawful.

Lemma observed_access_point_lawful : type_lawful observed_access_point_type.
Proof. table_lawful_tac. Qed.
#[local] Hint Resolve observed_access_point_lawful : lawful.

Lemma observed_lease_lawful : type_lawful observed_lease_type.
Proof. table_lawful_tac. Qed.
#[local] Hint Resolve observed_lease_lawful : lawful.

Lemma observed_mapping_lawful : type_lawful observed_mapping_type.
Proof. table_lawful_tac. Qed.
#[local] Hint Resolve observed_mapping_lawful : lawful.

Lemma observed_backend_lawful : type_lawful observed_backend_type.
Proof. table_lawful_tac. Qed.
#[local] Hint Resolve observed_backend_lawful : lawful.

Lemma observed_applied_dns_lawful : type_lawful applied_dns_type.
Proof. table_lawful_tac. Qed.
#[local] Hint Resolve observed_applied_dns_lawful : lawful.

Lemma observed_hook_state_lawful : type_lawful hook_state_type.
Proof. table_lawful_tac. Qed.
#[local] Hint Resolve observed_hook_state_lawful : lawful.

Lemma observed_firewall_rule_lawful : type_lawful observed_firewall_rule_type.
Proof. table_lawful_tac. Qed.
#[local] Hint Resolve observed_firewall_rule_lawful : lawful.

Lemma observed_firewall_lawful : type_lawful observed_firewall_type.
Proof. table_lawful_tac. Qed.
#[local] Hint Resolve observed_firewall_lawful : lawful.

Lemma observed_forward_lawful : type_lawful observed_forward_type.
Proof. table_lawful_tac. Qed.
#[local] Hint Resolve observed_forward_lawful : lawful.

Lemma observed_lawful : type_lawful observed_type.
Proof. table_lawful_tac. Qed.

Lemma status_lawful : type_lawful status_type.
Proof. table_lawful_tac. Qed.
End Lawful.

Section Observed.
Context {I : Inet}.

(** Calls that stand for a value, once a writer has taken them. *)
Lemma emitted_reads {A} writer_ok limit calls (read : doc -> Z -> R A) v tree :
  0 <= limit < 2 ^ 30 -> emits calls tree -> reads read v tree -> write_done (write_calls writer_ok (write_init (buf_init limit)) calls) = true ->
  forall realloc_ok, (forall n, realloc_ok n = true) ->
  exists d, json_parse realloc_ok true (b_bytes (w_buf (write_calls writer_ok (write_init (buf_init limit)) calls))) = Some (inr d) /\
    json_root d = 0 /\ forall grant n, grants grant -> exists n', read d (json_root d) grant n = inr (v, n').
Proof.
  intros Hlim He Hr Hd realloc_ok Hm. destruct (writer_reads_back writer_ok limit _ Hlim (proj1 He) Hd) as (t & cap & Hdesc & Hb & _ & Hlen & _ & Href).
  pose proof (emits_described _ _ _ He Hdesc) as ->. by apply text_reads with (tree := tree).
Qed.

(** An object of a table behind its tag. *)
Lemma tagged_back t v tag word :
  type_lawful t -> type_tag t = Some (bytes tag) -> plain (bytes tag) -> plain (bytes word) -> type_ok t v = true ->
  exists tree, emits (in_object ([MEMBER (Some (bytes tag)); STRING (Some (bytes word))] ++ type_write t v)) tree /\
    reads (fun d i => bind (type_init t) (fun base => type_read d t i base)) v tree.
Proof.
  intros Hl Ht Hp Hw Hok. destruct (proj1 tables_back t Hl v Hok) as (kvs & Ha & _ & Hread).
  exists (JObject ((bytes tag, JString (bytes word)) :: kvs)). split.
  - apply emits_object, (adds_app _ [_]); [|done]. apply adds_member; [done|]. by apply emits_string.
  - intros d i key grant n Hg Hd. unfold bind. destruct (proj1 init_exact t Hl grant n Hg) as [n1 ->].
    apply (Hread d i key [(bytes tag, JString (bytes word))] grant n1 Hg); [right; eauto|done].
Qed.

(** C21: the status answer round trip, daemon to client, for the observations
    whose every number lies in the range its field names ([type_ok]). That is a
    restriction: the fields for the expiry of a lease and for the ports and the
    expiry of a port mapping name no range, so an observation with a lease that
    expires or with a port mapping is left out, and its answer is one the client
    refuses (examples [lease_expiry_refused], [mapping_port_refused] below).
    For the others, what [ncfg_daemon_status_encode] answers is parsed by the
    client and read by [ncfg_observed_from_status] as the same observation, with
    the answer's own tag recognised and nothing else lost, defaulted or
    refused. *)
Theorem status_answer_roundtrip writer_ok realloc_ok grant limit observed out :
  (forall n, realloc_ok n = true) -> grants grant -> 0 <= limit < 2 ^ 30 -> type_ok observed_type observed = true ->
  daemon_status_encode writer_ok (Some observed) (buf_init limit) = (None, out) ->
  exists d, json_parse realloc_ok true (b_bytes out) = Some (inr d) /\
    observed_from_status grant (Some d) (json_root d) = inr observed.
Proof.
  intros Hm Hg Hlim Hok Hw. unfold daemon_status_encode, observed_write_members in Hw.
  destruct (tagged_back status_type observed "response" "status" status_lawful eq_refl eq_refl eq_refl Hok) as (tree & He & Hr).
  change (type_write observed_type observed) with (type_write status_type observed) in Hw. unfold write_object in Hw.
  revert Hw He. generalize (in_object ([MEMBER (Some (bytes "response")); STRING (Some (bytes "status"))] ++ type_write status_type observed)) as calls.
  intros calls Hw He. destruct (write_done (write_calls writer_ok (write_init (buf_init limit)) calls)) eqn:Hd; [|done]. injection Hw as <-.
  destruct (emitted_reads writer_ok limit calls _ _ tree Hlim He Hr Hd realloc_ok Hm) as (d & Hp & Hroot & Hread). exists d. split; [done|].
  unfold observed_from_status. rewrite Hroot in *. cbn [Z.eqb NCFG_JSON_NONE]. unfold bind at 1. rewrite alloc_granted by done.
  destruct (Hread grant 1%nat Hg) as [n' ->]. done.
Qed.

Lemma written_observation writer_ok observed b out :
  observed_write writer_ok observed b = (None, out) ->
  write_done (write_object writer_ok (type_write observed_type observed) b) = true /\
  w_buf (write_object writer_ok (type_write observed_type observed) b) = out.
Proof.
  unfold observed_write, observed_write_members. generalize (write_object writer_ok (type_write observed_type observed) b) as w. intros w.
  by destruct (write_done w); intros [= E].
Qed.

Lemma observed_read_back realloc_ok grant o text tree :
  (forall n, realloc_ok n = true) -> grants grant -> zlen text < 2 ^ 30 -> ref_parse text = inr tree ->
  reads (fun j i => bind (type_init observed_type) (fun base => type_read j observed_type i base)) o tree ->
  observed_read realloc_ok grant true text = Some (inr o).
Proof.
  intros Hm Hg Hl Hr Hread. destruct (text_reads realloc_ok _ _ _ _ Hm Hl Hr Hread) as (j & Hp & _ & Hj).
  unfold observed_read. rewrite Hp. unfold bind at 1. rewrite alloc_granted by done. by destruct (Hj grant 1%nat Hg) as [n' ->].
Qed.

(** ** The canonical order *)

Lemma backends_opposite : opposite compare_backends.
Proof. unfold compare_backends. apply opposite_then; [opposite_tac|]. intros a b. lia. Qed.

Lemma observed_idempotent : idempotent observed_canonicalize.
Proof.
  unfold observed_canonicalize. cbv zeta. members_idempotent;
    [apply named_opposite|apply backends_opposite|unfold compare_routes; opposite_tac|unfold compare_addresses; opposite_tac|apply named_opposite].
Qed.

Lemma observed_carries : carries observed_type observed_canonicalize.
Proof.
  intros v Hv. unfold observed_canonicalize. cbv zeta. do 5 (apply update_carries; [apply keeps_sort|]). done.
Qed.

(** What a canonical writing that answered yes did. *)
Lemma canonical_observation writer_ok observed b observed' out :
  observed_write_canonical writer_ok observed b = (observed', None, out) ->
  observed' = observed_canonicalize observed /\
  exists compact, observed_write writer_ok observed' (buf_init 0) = (None, compact) /\ json_pretty writer_ok (buf_text compact) b = (true, out).
Proof.
  unfold observed_write_canonical. generalize (observed_canonicalize observed) as c. intros c. cbv zeta.
  destruct (observed_write writer_ok c (buf_init 0)) as [[why|] compact] eqn:Hw; [discriminate|].
  destruct (json_pretty writer_ok (buf_text compact) b) as [[|] o] eqn:Hp; [|discriminate]. intros [= <- <-]. split; [reflexivity|].
  exists compact. split; [exact Hw|exact Hp].
Qed.

(** The observation's file. When [ncfg_observed_write_canonical] answers
    yes for an observation the tables can carry, into a buffer that held it,
    the observation is left in its canonical order, what is laid out reads as
    that observation, and writing it again gives the same bytes. *)
Theorem observed_text_reads_back writer_ok realloc_ok grant limit observed observed' out :
  (forall n, realloc_ok n = true) -> grants grant -> 0 <= limit < 2 ^ 30 -> type_ok observed_type observed = true ->
  observed_write_canonical writer_ok observed (buf_init limit) = (observed', None, out) -> b_failed out = false ->
  zlen (b_bytes out) < 2 ^ 30 ->
  observed' = observed_canonicalize observed /\ observed_read realloc_ok grant true (b_bytes out) = Some (inr observed') /\
  observed_write_canonical writer_ok observed' (buf_init limit) = (observed', None, out).
Proof.
  intros Hm Hg Hlim Hok H Hf Hlen. pose proof H as H'. apply canonical_observation in H' as (E & compact & Hw & Hp).
  pose proof (observed_carries observed Hok) as Hc. rewrite <- E in Hc. split; [exact E|].
  assert (observed_canonicalize observed' = observed') as Hi by (rewrite E; apply observed_idempotent).
  split; [|unfold observed_write_canonical; cbv zeta; rewrite Hi, Hw, Hp; reflexivity].
  apply written_observation in Hw as [Hd <-].
  destruct (laid_out_reads writer_ok limit observed_type observed' out Hlim observed_lawful Hc Hd Hp Hf) as (tree & Hr & Hreads).
  exact (observed_read_back realloc_ok grant observed' _ tree Hm Hg Hlen Hr Hreads).
Qed.

(** ** The lists of the ownership record *)

(** The list of backends, and of delivered DNS scopes, of the ownership record
    is read as it was written. *)
Theorem elements_roundtrip t items :
  type_lawful t -> forallb (type_ok t) items = true ->
  exists tree, emits (write_elements t items) tree /\ reads (read_elements t) items tree.
Proof.
  intros Hl Hok. destruct (array_back (fun d child => bind (type_init t) (fun base => type_read d t child base)) (zero t)
    (fun x => in_object (type_write t x)) (type_ok t) items) as (a & He & Hr); [|done|exists a; split; [done|apply Hr]].
  intros v Hv. destruct (object_back t v (proj1 tables_back t) Hl Hv) as (kvs & He & Hr). exists (JObject kvs).
  split; [done|by apply fresh_reads].
Qed.
End Observed.

(** ** An observation to try them on *)

Definition sample_observation_text : list byte := json_text
  "{'links':[{'name':'wlan0','index':3,'kind':'','wireless':true,'up':true,'carrier':true,'mtu':1500,'network':'home'},{'name':'eth0','index':2,'kind':'','up':true,'carrier':true,'mtu':1500,'reachable':false}],'addresses':[{'interface':'eth0','address':'192.0.2.7/24','ownership':'ours','origin':'dhcp4'}],'routes':[{'interface':'eth0','destination':'default','via':'192.0.2.1','metric':100,'proto':16,'ownership':'foreign'}],'backends':[{'kind':'dhcp4','interface':'eth0','running':true}],'dns':[{'scope':'eth0','policy':{'mode':'resolvconf','servers':[{'addr':'192.0.2.53'}]}}],'backend_restarts':[['dhcp4','eth0',2]]}".

Definition sample_observation : value observed_type :=
  match observed_read (fun _ => true) (fun _ => true) true sample_observation_text with Some (inr o) => o | _ => zero observed_type end.

Definition sample_status : buf := snd (daemon_status_encode (fun _ => true) (Some sample_observation) (buf_init 0)).

Lemma status_answer_roundtrip_witness :
  length (get observed_type "links" sample_observation : list (value observed_link_type)) = 2%nat /\
  exists d, json_parse (fun _ => true) true (b_bytes sample_status) = Some (inr d) /\
    observed_from_status (fun _ => true) (Some d) (json_root d) = inr sample_observation.
Proof.
  split; [by_vm|]. apply (status_answer_roundtrip (fun _ => true) (fun _ => true) (fun _ => true) 0).
  - reflexivity.
  - intros n. reflexivity.
  - lia.
  - by_vm.
  - by_vm.
Defined.

(** ** Where the tables part from the observation *)

(** A lease with the second it expires at, and a port mapping, as the backends
    report them: their tables name no range for these numbers. *)
Definition sample_lease : value observed_lease_type := (Some (bytes "192.0.2.9"), (None, (None, (1785000000, tt)))).
Definition sample_mapping : value observed_mapping_type :=
  (Some (bytes "tcp"), (8080, (Some (bytes "192.0.2.9"), (80, (0, (None, tt)))))).

Definition read_written (t : ftype) (v : value t) : option (refusal + value t) :=
  match json_parse (fun _ => true) true (b_bytes (w_buf (write_object (fun _ => true) (type_write t v) (buf_init 0)))) with
  | Some (inr json) =>
      match type_read json t (json_root json) (tinit t) (fun _ => true) 0%nat with inl e => Some (inl e) | inr (v, _) => Some (inr v) end
  | _ => None
  end.

(** What is written of a lease that expires, or of a mapping of any port, is
    refused on the way back, and with it the whole status answer. *)
Example lease_expiry_refused :
  read_written observed_lease_type sample_lease = Some (inl (OUT_OF_RANGE (OF (bytes "expires") "lease") 1785000000 0 0)).
Proof. by_vm. Qed.

Example mapping_port_refused :
  read_written observed_mapping_type sample_mapping = Some (inl (OUT_OF_RANGE (OF (bytes "external_port") "mapping") 8080 0 0)).
Proof. by_vm. Qed.
