(* ===== verification/Linkset.v ===== *)
(** * Linkset: which member of a set of links is in use, and the list of links

    [model/linkset.c] and [model/inventory.c]. A standing, a choice and a row
    of the inventory are structs of the observation's tables. The functions run
    in the reader's monad of [Field] for their requests for memory; a text that
    is absent is copied without one. *)
From S2P Require Import Prelude Lex Wire Value Json JsonWrite DocText Field Document Canonical DocumentOps Observed ObservedOps.
#[local] Open Scope string_scope.
#[local] Open Scope list_scope.
#[local] Open Scope Z_scope.
#[local] Open Scope field_scope.

Definition NCFG_LINKSET_MAX_DEPTH : nat := 8.

(** Two names, either of which may be [NULL]. *)
Definition same_text (left right : option (list byte)) : bool :=
  match left, right with
  | Some l, Some r => bytes_eqb l r
  | None, None => true
  | _, _ => false
  end.

Definition copy_text (text : option (list byte)) : R (option (list byte)) :=
  match text with None => ret None | Some t => _ <- alloc; ret (Some t) end.

Section Linkset.
Context {I : Inet}.

Abbreviation standing := (value standing_type).
Abbreviation chosen := (value chosen_type).

(** A member of a choice: its name, the interface that carries it, its metric,
    and why it may not be used. *)
Definition Standing (name interface : option (list byte)) (metric ineligible : option Z) : standing :=
  (name, (interface, (metric, (ineligible, tt)))).
Definition Chosen (name active interface : option (list byte)) (members : list standing) : chosen :=
  (name, (active, (interface, (members, tt)))).

Definition st_name (s : standing) : option (list byte) := get standing_type "name" s.
Definition st_interface (s : standing) : option (list byte) := get standing_type "interface" s.
Definition st_metric (s : standing) : option Z := get standing_type "metric" s.
Definition st_ineligible (s : standing) : option Z := get standing_type "ineligible" s.

(** [rank_of]: absent is 0, the strongest. *)
Definition rank_of (s : standing) : Z := default 0 (st_metric s).

Section Within.
Context (document : option (value document_type)) (observed : option (value observed_type)).

Definition linkset_find (name : option (list byte)) : option (value linkset_type) :=
  match document, name with
  | Some d, Some _ => find (fun s => same_text (get linkset_type "name" s) name) (get document_type "linksets" d : list (value linkset_type))
  | _, _ => None
  end.

Definition find_network (id : option (list byte)) : option (value network_type) :=
  match document, id with
  | Some d, Some _ => find (fun n => same_text (get network_type "id" n) id) (get document_type "networks" d : list (value network_type))
  | _, _ => None
  end.

Definition find_interface (name : option (list byte)) : option (value interface_type) :=
  match document, name with
  | Some d, Some _ => find (fun i => same_text (get interface_type "name" i) name) (get document_type "interfaces" d : list (value interface_type))
  | _, _ => None
  end.

Definition link_on_network (id : option (list byte)) : option (value observed_link_type) :=
  match observed, id with
  | Some o, Some _ =>
      find (fun l => same_text (get observed_link_type "network" l) id) (get observed_type "links" o : list (value observed_link_type))
  | _, _ => None
  end.

(** [unusable]: what stops a link from carrying traffic. *)
Definition unusable (interface : option (list byte)) : option Z :=
  match observed_link observed interface with
  | None => None
  | Some link =>
      if negb (get observed_link_type "carrier" link) then Some NCFG_INELIGIBLE_NO_CARRIER
      else
        match (get observed_link_type "reachable" link : option bool) with
        | Some false => Some NCFG_INELIGIBLE_PROBE
        | _ => None
        end
  end.

Definition stand_on_network (name member : option (list byte)) : R standing :=
  let metric := match find_network member with Some network => get network_type "metric" network | None => None end in
  match link_on_network member with
  | None => ret (Standing name None metric (Some NCFG_INELIGIBLE_UNJOINED))
  | Some link =>
      interface <- copy_text (get observed_link_type "name" link);
      ret (Standing name interface metric (unusable (get observed_link_type "name" link)))
  end.

Definition stand_on_interface (name member : option (list byte)) : R standing :=
  let metric := match find_interface member with Some interface => get interface_type "preference" interface | None => None end in
  match observed_link observed member with
  | None => ret (Standing name None metric (Some NCFG_INELIGIBLE_ABSENT))
  | Some _ =>
      interface <- copy_text member;
      ret (Standing name interface metric (unusable member))
  end.

(** The walk of [choose_within] for the best member: the first of the lowest
    rank among those nothing stops. *)
Definition better (best : option standing) (member : standing) : option standing :=
  match st_ineligible member with
  | Some _ => best
  | None =>
      match best with
      | None => Some member
      | Some b => if rank_of member <? rank_of b then Some member else best
      end
  end.

Definition best_member (members : list standing) : option standing := foldl better None members.

(** [choose_within] and [stand_on_set] call each other: what is below is written
    over [choose], the choice among a set one deeper. [within] is the sets in
    progress, outermost first. *)
Section Stand.
Context (choose : list (list byte) -> option (list byte) -> R (option chosen)) (within : list (list byte)).

Definition winner_of (inner : chosen) : option standing :=
  let active := (get chosen_type "active" inner : option (list byte)) in
  match active with
  | None => None
  | Some _ => find (fun s => same_text (st_name s) active) (get chosen_type "members" inner : list standing)
  end.

Definition stand_on_set (copy : option (list byte)) (member : list byte) : R standing :=
  if existsb (bytes_eqb member) within then ret (Standing copy None None (Some NCFG_INELIGIBLE_CYCLE))
  else if (NCFG_LINKSET_MAX_DEPTH <=? length within)%nat then ret (Standing copy None None (Some NCFG_INELIGIBLE_CYCLE))
  else
    inner <- choose (within ++ [member]) (Some member);
    match inner with
    | None => ret (Standing copy None None (Some NCFG_INELIGIBLE_ABSENT))
    | Some inner =>
        interface <- copy_text (get chosen_type "interface" inner);
        match winner_of inner with
        | Some winner => ret (Standing copy interface (st_metric winner) None)
        | None => ret (Standing copy interface None (Some NCFG_INELIGIBLE_EMPTY))
        end
    end.

Definition stand (member : option (list byte)) : R standing :=
  copy <- copy_text member;
  match linkset_find member, member with
  | Some _, Some m => stand_on_set copy m
  | _, _ => match find_network member with Some _ => stand_on_network copy member | None => stand_on_interface copy member end
  end.

Fixpoint stand_all (members : list (option (list byte))) : R (list standing) :=
  match members with
  | [] => ret []
  | m :: members => s <- stand m; rest <- stand_all members; ret (s :: rest)
  end.

Definition choose_from (name : option (list byte)) : R (option chosen) :=
  match linkset_find name with
  | None => ret None
  | Some set =>
      _ <- alloc;
      copy <- copy_text (get linkset_type "name" set);
      _ <- (match (get linkset_type "members" set : list (option (list byte))) with [] => ret tt | _ => alloc end);
      members <- stand_all (get linkset_type "members" set);
      match best_member members with
      | None => ret (Some (Chosen copy None None members))
      | Some best =>
          active <- copy_text (st_name best);
          interface <- copy_text (st_interface best);
          ret (Some (Chosen copy active interface members))
      end
  end.
End Stand.

(** [choose_within]: the fuel bounds the nesting, which the guard bounds as
    well. *)
Fixpoint choose_within (fuel : nat) (within : list (list byte)) (name : option (list byte)) : R (option chosen) :=
  match fuel with
  | O => refuse (REFUSED "no fuel")
  | S fuel => choose_from (choose_within fuel) within name
  end.

(** [ncfg_linkset_choose]: the set that is asked about is in progress. *)
Definition linkset_choose (name : option (list byte)) : R (option chosen) :=
  match name with
  | None => ret None
  | Some n => choose_within (S NCFG_LINKSET_MAX_DEPTH) [n] name
  end.

(** [ncfg_linkset_sets_containing]: under either of a link's names. *)
Definition in_set (link : list byte) (set : value linkset_type) : bool :=
  existsb (fun member =>
    same_text member (Some link) ||
    match link_on_network member with Some carrier => same_text (get observed_link_type "name" carrier) (Some link) | None => false end)
    (get linkset_type "members" set : list (option (list byte))).

Fixpoint copy_names (sets : list (value linkset_type)) : R (list (option (list byte))) :=
  match sets with
  | [] => ret []
  | set :: sets => name <- copy_text (get linkset_type "name" set); rest <- copy_names sets; ret (name :: rest)
  end.

Definition sets_containing (link : option (list byte)) : R (list (option (list byte))) :=
  match document, link with
  | Some d, Some link =>
      match (get document_type "linksets" d : list (value linkset_type)) with
      | [] => ret []
      | sets => _ <- alloc; copy_names (List.filter (in_set link) sets)
      end
  | _, _ => ret []
  end.

(** ** The inventory: [model/inventory.c] *)

Abbreviation row := (value link_entry_type).

Definition Row (name : option (list byte)) (category presence : Z) (configured : bool) (subject : Z) (carrier : option (list byte))
    (sets : list (option (list byte))) : row :=
  (name, (category, (presence, (configured, (subject, (carrier, (sets, tt))))))).

Definition row_name (r : row) : option (list byte) := get link_entry_type "name" r.

Definition name_row (name : option (list byte)) : R (option (list byte) * list (option (list byte))) :=
  copy <- copy_text name; sets <- sets_containing name; ret (copy, sets).

Definition carries_a_configured_network (link : value observed_link_type) : bool :=
  match (get observed_link_type "network" link : option (list byte)), document with
  | Some network, Some d =>
      existsb (fun n => same_text (get network_type "id" n) (Some network)) (get document_type "networks" d : list (value network_type))
  | _, _ => false
  end.

Definition document_names_interface (name : option (list byte)) : bool :=
  match document with
  | Some d => existsb (fun i => same_text (get interface_type "name" i) name) (get document_type "interfaces" d : list (value interface_type))
  | None => false
  end.

Definition link_row (link : value observed_link_type) : R row :=
  '(name, sets) <- name_row (get observed_link_type "name" link);
  ret (Row name
    (match (get observed_link_type "category" link : option Z) with Some c => c | None => link_category_of (Some link) document end)
    NCFG_PRESENCE_PRESENT (document_names_interface (get observed_link_type "name" link)) NCFG_SUBJECT_INTERFACE None sets).

Definition absent_row (interface : value interface_type) : R row :=
  '(name, sets) <- name_row (get interface_type "name" interface);
  ret (Row name NCFG_LINK_CATEGORY_OTHER (presence_of_interface (get interface_type "name" interface) observed) true
    NCFG_SUBJECT_INTERFACE None sets).

Definition network_row (network : value network_type) : R row :=
  let id := (get network_type "id" network : option (list byte)) in
  let carrier := match observed with
    | Some o => find (fun l => same_text (get observed_link_type "network" l) id) (get observed_type "links" o : list (value observed_link_type))
    | None => None
    end in
  '(name, sets) <- name_row id;
  on <- (match carrier with Some l => copy_text (get observed_link_type "name" l) | None => ret None end);
  ret (Row name NCFG_LINK_CATEGORY_WIFI
    (presence_of_network (get network_type "hidden" network) (match carrier with Some _ => true | None => false end) None)
    true NCFG_SUBJECT_NETWORK on sets).

Definition linkset_row (set : value linkset_type) : R row :=
  let id := (get linkset_type "name" set : option (list byte)) in
  '(name, sets) <- name_row id;
  choice <- linkset_choose id;
  carrier <- (match choice with Some c => copy_text (get chosen_type "interface" c) | None => ret None end);
  ret (Row name NCFG_LINK_CATEGORY_LINKSET (match carrier with Some _ => NCFG_PRESENCE_PRESENT | None => NCFG_PRESENCE_ABSENT end)
    true NCFG_SUBJECT_LINKSET carrier sets).

Fixpoint rows {A} (make : A -> R row) (l : list A) : R (list row) :=
  match l with
  | [] => ret []
  | x :: l => r <- make x; rest <- rows make l; ret (r :: rest)
  end.

Definition compare_rows (one other : row) : Z := compare_text (row_name one) (row_name other).

(** [ncfg_link_inventory]. *)
Definition link_inventory : R (list row) :=
  let links := match observed with Some o => (get observed_type "links" o : list (value observed_link_type)) | None => [] end in
  let capacity := (length links + match document with
    | Some d => length (get document_type "interfaces" d : list (value interface_type)) +
        length (get document_type "networks" d : list (value network_type)) + length (get document_type "linksets" d : list (value linkset_type))
    | None => 0
    end)%nat in
  match capacity with
  | O => ret []
  | S _ =>
      _ <- alloc;
      present <- rows link_row (List.filter (fun l => negb (carries_a_configured_network l)) links);
      match document with
      | None => ret (stable_sort compare_rows present)
      | Some d =>
          absent <- rows absent_row
            (List.filter (fun i : value interface_type => match observed_link observed (get interface_type "name" i) with Some _ => false | None => true end)
              (get document_type "interfaces" d : list (value interface_type)));
          networks <- rows network_row (get document_type "networks" d);
          sets <- rows linkset_row (get document_type "linksets" d);
          ret (stable_sort compare_rows (present ++ absent ++ networks ++ sets))
      end
  end.
End Within.
End Linkset.
