(* ===== verification/LinksetSpec.v ===== *)
(** * LinksetSpec: what a set of links settles on

    A choice always comes back, whatever the sets name, and what it settles on
    is the best member that works. *)
From stdpp Require Import sets sorting.
From S2P Require Import Prelude Lex LexFacts Wire Value InetText Json JsonWrite DocText Field FieldSpec Document Canonical CanonicalSpec DocumentOps DocumentRoundtrip Observed ObservedOps Linkset.
#[local] Open Scope Z_scope.

(** ** Total correctness of the memory-threading functions *)

(** A function that answers: it is refused only for want of memory, and then
    memory was refused; what it answers has the property. *)
Definition answers {A} (r : R A) (P : A -> Prop) : Prop :=
  forall grant n, match r grant n with
  | inl e => e = OUT_OF_MEMORY /\ ~ grants grant
  | inr (x, _) => P x
  end.

Lemma answers_ret {A} (x : A) (P : A -> Prop) : P x -> answers (ret x) P.
Proof. by intros H grant n. Qed.

Lemma answers_bind {A B} (r : R A) (k : A -> R B) (P : A -> Prop) (Q : B -> Prop) :
  answers r P -> (forall x, P x -> answers (k x) Q) -> answers (bind r k) Q.
Proof.
  intros Hr Hk grant n. unfold bind. specialize (Hr grant n). destruct (r grant n) as [e|[x m]]; [done|]. apply (Hk x Hr grant m).
Qed.

Lemma answers_mono {A} (r : R A) (P Q : A -> Prop) : answers r P -> (forall x, P x -> Q x) -> answers r Q.
Proof. intros Hr H grant n. specialize (Hr grant n). destruct (r grant n) as [e|[x m]]; auto. Qed.

Lemma answers_alloc (P : unit -> Prop) : P tt -> answers alloc P.
Proof. intros H grant n. unfold alloc. destruct (grant n) eqn:E; [done|]. split; [done|]. intros Hg. by rewrite Hg in E. Qed.

Lemma answers_copy text (P : option (list byte) -> Prop) : P text -> answers (copy_text text) P.
Proof.
  intros H. destruct text as [t|]; [|by apply answers_ret]. apply (answers_bind _ _ (fun _ => True)); [by apply answers_alloc|].
  intros _ _. by apply answers_ret.
Qed.

(** With memory granted there is an answer. *)
Lemma answers_granted {A} (r : R A) (P : A -> Prop) grant n : answers r P -> grants grant -> exists x m, r grant n = inr (x, m) /\ P x.
Proof. intros Hr Hg. specialize (Hr grant n). destruct (r grant n) as [e|[x m]]; [by destruct Hr|]. by exists x, m. Qed.

(** One step of a function: what is bound is answered as such. *)
Ltac step := lazymatch goal with
  | |- answers (bind (copy_text ?t) _) _ => apply (answers_bind _ _ (fun x => x = t)); [by apply answers_copy|intros ? ->]
  | |- answers (bind alloc _) _ => apply (answers_bind _ _ (fun _ => True)); [by apply answers_alloc|intros [] _]
  | |- answers (ret _) _ => apply answers_ret
  end.

Lemma same_text_true a b : same_text a b = true <-> a = b.
Proof.
  destruct a as [a|], b as [b|]; simpl; try (by split; intros). rewrite bytes_eqb_true. split; [by intros ->|by intros [= ->]].
Qed.

Lemma compare_same a b : (compare_text a b =? 0) = same_text a b.
Proof. apply eq_true_iff_eq. by rewrite same_text_true, Z.eqb_eq, text_zero. Qed.

Section Linkset.
Context {I : Inet} (document : option (value document_type)) (observed : option (value observed_type)).
Abbreviation standing := (value standing_type).
Abbreviation chosen := (value chosen_type).

(** ** The best member *)

Definition eligible (s : standing) : Prop := st_ineligible s = None.

(** Nothing that may be used comes before it as good, or after it better. *)
Record is_best (b : standing) (before after : list standing) : Prop := IsBest {
  ib_eligible : eligible b;
  ib_before : Forall (fun s => eligible s -> rank_of b < rank_of s) before;
  ib_after : Forall (fun s => eligible s -> rank_of b <= rank_of s) after }.

Lemma best_member_spec members :
  match best_member members with
  | Some b => exists before after, members = before ++ b :: after /\ is_best b before after
  | None => Forall (fun s => ~ eligible s) members
  end.
Proof.
  unfold best_member. induction members as [|m members IH] using rev_ind; [constructor|].
  rewrite foldl_app. cbn [foldl]. destruct (foldl better None members) as [b|]; unfold better; destruct (st_ineligible m) as [reason|] eqn:Em.
  - destruct IH as (before & after & -> & [H1 H2 H3]). exists before, (after ++ [m]). rewrite <- app_assoc. split; [done|].
    split; [done..|]. rewrite Forall_app. split; [done|]. constructor; [|done]. unfold eligible. by rewrite Em.
  - destruct IH as (before & after & -> & [H1 H2 H3]). destruct (Z.ltb_spec (rank_of m) (rank_of b)) as [Hlt|Hge].
    + exists (before ++ b :: after), []. split; [done|]. split; [done| |done]. rewrite Forall_app, Forall_cons. split_and!.
      * eapply Forall_impl; [exact H2|]. intros s Hs He. specialize (Hs He). lia.
      * intros _. lia.
      * eapply Forall_impl; [exact H3|]. intros s Hs He. specialize (Hs He). lia.
    + exists before, (after ++ [m]). rewrite <- app_assoc. split; [done|]. split; [done..|]. rewrite Forall_app. split; [done|].
      constructor; [|done]. intros _. lia.
  - rewrite Forall_app. split; [done|]. constructor; [|done]. unfold eligible. by rewrite Em.
  - exists members, []. split; [done|]. split; [done| |done]. eapply Forall_impl; [exact IH|]. intros s Hs He. by destruct (Hs He).
Qed.

Lemma best_member_elem members b : best_member members = Some b -> b ∈ members /\ eligible b.
Proof.
  intros E. pose proof (best_member_spec members) as H. rewrite E in H. destruct H as (l1 & l2 & -> & Hb).
  split; [set_solver|]. apply Hb.
Qed.

(** ** Links that work *)

(** A link with carrier that has not failed its probe. *)
Definition works (interface : list byte) : Prop :=
  exists link, observed_link observed (Some interface) = Some link /\
    get observed_link_type "carrier" link = true /\ (get observed_link_type "reachable" link : option bool) <> Some false.

(** The kernel gives every link a name. *)
Definition links_named : Prop :=
  forall o, observed = Some o -> Forall (fun l : value observed_link_type => get observed_link_type "name" l <> None) (get observed_type "links" o).

Lemma find_some_iff {A} (p : A -> bool) l x : find p l = Some x -> x ∈ l /\ p x = true.
Proof. intros H. apply find_some in H as [H1 H2]. split; [by apply list_elem_of_In|done]. Qed.

Lemma link_found name link : link_on_network observed name = Some link -> links_named ->
  exists i found, (get observed_link_type "name" link : option (list byte)) = Some i /\ observed_link observed (Some i) = Some found.
Proof.
  intros H Hn. unfold link_on_network in H. destruct observed as [o|] eqn:Eo; [|done]. destruct name as [n|]; [|done].
  apply find_some_iff in H as [Hin _]. specialize (Hn o Eo). rewrite Forall_forall in Hn. specialize (Hn link Hin).
  destruct (get observed_link_type "name" link : option (list byte)) as [i|] eqn:Ei; [|done]. exists i. unfold observed_link.
  destruct (find _ _) as [found|] eqn:Ef; [by exists found|]. exfalso.
  apply list_elem_of_In in Hin. pose proof (find_none _ _ Ef link Hin) as Hc. cbv beta in Hc. rewrite compare_same, Ei in Hc.
  by rewrite (proj2 (same_text_true _ _) eq_refl) in Hc.
Qed.

(** What a member that may be used stands on. *)
Definition stands (s : standing) : Prop := eligible s -> exists i, st_interface s = Some i /\ works i.

Lemma unusable_works i link : observed_link observed (Some i) = Some link -> unusable observed (Some i) = None -> works i.
Proof.
  unfold unusable. intros E. rewrite E. intros H. exists link. split; [done|].
  destruct (get observed_link_type "carrier" link); [|done]. split; [done|]. cbn [negb] in H.
  by destruct (get observed_link_type "reachable" link : option bool) as [[]|].
Qed.

Lemma network_stands name member :
  answers (stand_on_network document observed name member) (fun s => st_name s = name /\ (links_named -> stands s)).
Proof.
  unfold stand_on_network. destruct (link_on_network observed member) as [link|] eqn:El; [|by step].
  step. step. split; [done|]. intros Hn Hs. destruct (link_found _ _ El Hn) as (i & found & Ei & Ef).
  change (unusable observed (get observed_link_type "name" link) = None) in Hs. exists i. split; [exact Ei|].
  rewrite Ei in Hs. by apply (unusable_works i found).
Qed.

Lemma interface_stands name member :
  answers (stand_on_interface document observed name member) (fun s => st_name s = name /\ stands s).
Proof.
  unfold stand_on_interface. destruct (observed_link observed member) as [link|] eqn:El; [|by step].
  step. step. split; [done|]. intros Hs. change (unusable observed member = None) in Hs.
  destruct member as [i|]; [|by unfold observed_link in El; destruct observed]. exists i. split; [done|]. by apply (unusable_works i link).
Qed.

(** ** A choice *)

Definition ch_active (c : chosen) : option (list byte) := get chosen_type "active" c.
Definition ch_interface (c : chosen) : option (list byte) := get chosen_type "interface" c.
Definition ch_members (c : chosen) : list standing := get chosen_type "members" c.

Record choice_of (set : value linkset_type) (c : chosen) : Prop := ChoiceOf {
  co_name : get chosen_type "name" c = get linkset_type "name" set;
  co_members : map st_name (ch_members c) = get linkset_type "members" set;
  co_active : ch_active c = best_member (ch_members c) ≫= st_name;
  co_interface : ch_interface c = best_member (ch_members c) ≫= st_interface;
  co_stands : links_named -> Forall stands (ch_members c) }.

(** A choice with a winner names a link that works. *)
Lemma choice_works set c : choice_of set c -> links_named -> ch_active c <> None -> exists i, ch_interface c = Some i /\ works i.
Proof.
  intros [_ _ Ha Hi Hs] Hn Hne. rewrite Ha in Hne. rewrite Hi. destruct (best_member (ch_members c)) as [b|] eqn:Eb; [|done].
  apply best_member_elem in Eb as [Hin He]. specialize (Hs Hn). rewrite Forall_forall in Hs. exact (Hs b Hin He).
Qed.

(** Settling on a member is having a winner. *)
Lemma winner_active set c : choice_of set c -> winner_of c = None <-> ch_active c = None.
Proof.
  intros [_ _ Ha _ _]. unfold winner_of. change (get chosen_type "active" c : option (list byte)) with (ch_active c).
  destruct (ch_active c) as [a|]; [|done]. split; [|done]. intros Hf. exfalso.
  destruct (best_member (ch_members c)) as [b|] eqn:Eb; [|done]. apply best_member_elem in Eb as [Hin _].
  cbn [mbind option_bind] in Ha. apply list_elem_of_In in Hin. pose proof (find_none _ _ Hf b Hin) as Hn. cbv beta in Hn.
  by rewrite <- Ha, (proj2 (same_text_true _ _) eq_refl) in Hn.
Qed.

(** What stops a member that is not a set: a network no link is on, a link the
    machine does not have, or what stops the link. *)
Definition reason_of (name : option (list byte)) : option Z :=
  match find_network document name with
  | Some _ =>
      match link_on_network observed name with
      | Some link => unusable observed (get observed_link_type "name" link)
      | None => Some NCFG_INELIGIBLE_UNJOINED
      end
  | None =>
      match observed_link observed name with
      | Some _ => unusable observed name
      | None => Some NCFG_INELIGIBLE_ABSENT
      end
  end.

(** Why a member of a set may not be used, or that it may, given the sets in
    progress: a set that is in progress already, or that lies too deep, is a
    cycle; another is empty exactly where its own choice names nothing, and
    the members of that choice are accounted for in turn. *)
Inductive accounted : list (list byte) -> standing -> Prop :=
| accounted_link within s :
    linkset_find document (st_name s) = None -> st_ineligible s = reason_of (st_name s) -> accounted within s
| accounted_cycle within s set m :
    linkset_find document (st_name s) = Some set -> st_name s = Some m ->
    m ∈ within \/ (NCFG_LINKSET_MAX_DEPTH <= length within)%nat ->
    st_ineligible s = Some NCFG_INELIGIBLE_CYCLE -> accounted within s
| accounted_set within s set m c :
    linkset_find document (st_name s) = Some set -> st_name s = Some m ->
    m ∉ within -> (length within < NCFG_LINKSET_MAX_DEPTH)%nat ->
    choice_of set c -> Forall (accounted (within ++ [m])) (ch_members c) ->
    st_ineligible s = (match ch_active c with Some _ => None | None => Some NCFG_INELIGIBLE_EMPTY end) ->
    accounted within s.

Definition answers_choice (choose : list (list byte) -> option (list byte) -> R (option chosen)) (within : list (list byte)) : Prop :=
  forall name, answers (choose within name) (fun r =>
    match linkset_find document name with
    | None => r = None
    | Some set => exists c, r = Some c /\ choice_of set c /\ Forall (accounted within) (ch_members c)
    end).

(** Where a member stands, given what the choices below answer. *)
Section Stand.
Context (choose : list (list byte) -> option (list byte) -> R (option chosen)) (within : list (list byte)).
Context (Hchoose : (length within < NCFG_LINKSET_MAX_DEPTH)%nat -> forall member, answers_choice choose (within ++ [member])).

Lemma set_stands set member :
  linkset_find document (Some member) = Some set ->
  answers (stand_on_set choose within (Some member) member) (fun s =>
    st_name s = Some member /\ (links_named -> stands s) /\ accounted within s).
Proof.
  intros Hset. unfold stand_on_set. destruct (existsb _ _) eqn:Ec.
  { step. split_and!; [done|done|]. eapply accounted_cycle; [exact Hset|done| |done]. left.
    apply existsb_exists in Ec as (x & Hx & He). apply bytes_eqb_true in He as <-. by apply list_elem_of_In. }
  destruct (Nat.leb_spec NCFG_LINKSET_MAX_DEPTH (length within)) as [Hd|Hd].
  { step. split_and!; [done|done|]. eapply accounted_cycle; [exact Hset|done|by right|done]. }
  assert (member ∉ within) as Hfresh.
  { intros Hin. apply not_true_iff_false in Ec. apply Ec, existsb_exists. exists member.
    split; [by apply list_elem_of_In|by apply bytes_eqb_true]. }
  eapply answers_bind; [apply (Hchoose Hd)|]. cbv beta. intros r Hr. rewrite Hset in Hr.
  destruct Hr as (c & -> & Hc & Hall). pose proof (winner_active set c Hc) as Hw.
  step. destruct (winner_of c) as [w|] eqn:Ew; step.
  - split_and!; [done| |].
    + intros Hn _. apply (choice_works set c Hc Hn). intros E. by apply Hw in E.
    + eapply accounted_set; [exact Hset|done|done|done|exact Hc|exact Hall|].
      destruct (ch_active c); [done|]. discriminate (proj2 Hw eq_refl).
  - split_and!; [done|done|].
    eapply accounted_set; [exact Hset|done|done|done|exact Hc|exact Hall|]. by rewrite (proj1 Hw eq_refl).
Qed.

Lemma leaf_accounted member :
  linkset_find document member = None ->
  answers (match find_network document member with
    | Some _ => stand_on_network document observed member member
    | None => stand_on_interface document observed member member end) (fun s => st_ineligible s = reason_of member).
Proof.
  intros _. unfold reason_of. destruct (find_network document member).
  - unfold stand_on_network. destruct (link_on_network observed member); [step; by step|by step].
  - unfold stand_on_interface. destruct (observed_link observed member); [step; by step|by step].
Qed.

Lemma answers_both {A} (r : R A) (P Q : A -> Prop) : answers r P -> answers r Q -> answers r (fun x => P x /\ Q x).
Proof. intros HP HQ grant n. specialize (HP grant n). specialize (HQ grant n). by destruct (r grant n) as [e|[x m]]. Qed.

Lemma member_stands member : answers (stand document observed choose within member) (fun s =>
  st_name s = member /\ (links_named -> stands s) /\ accounted within s).
Proof.
  unfold stand. step. destruct (linkset_find document member) as [set|] eqn:Eset.
  { destruct member as [m|]; [by eapply set_stands|]. by destruct document. }
  assert (answers (match find_network document member with
    | Some _ => stand_on_network document observed member member
    | None => stand_on_interface document observed member member end) (fun s => st_name s = member /\ (links_named -> stands s))) as H.
  { destruct (find_network document member); [apply network_stands|]. eapply answers_mono; [apply interface_stands|]. by intros s [? ?]. }
  eapply answers_mono; [exact (answers_both _ _ _ H (leaf_accounted _ Eset))|]. intros s [[Hn Hs] Hr].
  split_and!; [done|done|]. apply accounted_link; by rewrite Hn.
Qed.

Lemma members_stand members :
  answers (stand_all document observed choose within members) (fun l =>
    map st_name l = members /\ (links_named -> Forall stands l) /\ Forall (accounted within) l).
Proof.
  induction members as [|m members IH]; cbn [stand_all]; [by step|].
  eapply answers_bind; [apply member_stands|]. intros s (Hs1 & Hs2 & Hs3). eapply answers_bind; [apply IH|]. intros l (Hl1 & Hl2 & Hl3).
  step. split; [simpl; by f_equal|]. split; [|by constructor]. intros Hn. constructor; auto.
Qed.

Lemma from_answers : answers_choice (choose_from document observed choose) within.
Proof.
  intros name. unfold choose_from. destruct (linkset_find document name) as [set|]; [|by step]. step. step.
  apply (answers_bind _ _ (fun _ => True)); [destruct (get linkset_type "members" set : list (option (list byte))); [by step|by apply answers_alloc]|].
  intros [] _. eapply answers_bind; [apply members_stand|]. intros l (Hl1 & Hl2 & Hl3).
  destruct (best_member l) as [b|] eqn:Eb; [step; step|]; step; eexists; (split; [reflexivity|]); (split; [|exact Hl3]); split; try done;
    match goal with |- context [ch_members ?c] => change (ch_members c) with l end; by rewrite Eb.
Qed.
End Stand.

(** Every nesting answers, within the bound of the guard. *)
Lemma within_answers fuel within :
  (NCFG_LINKSET_MAX_DEPTH < fuel + length within)%nat -> (length within <= NCFG_LINKSET_MAX_DEPTH)%nat ->
  answers_choice (choose_within document observed fuel) within.
Proof.
  revert within. induction fuel as [|fuel IH]; intros within Hf Hw; [lia|]. apply from_answers. intros Hd member. apply IH; rewrite length_app; simpl; lia.
Qed.

Lemma choose_accounts name :
  answers (linkset_choose document observed (Some name)) (fun r =>
    match linkset_find document (Some name) with
    | None => r = None
    | Some set => exists c, r = Some c /\ choice_of set c /\ Forall (accounted [name]) (ch_members c)
    end).
Proof. apply within_answers; unfold NCFG_LINKSET_MAX_DEPTH; simpl; lia. Qed.

Lemma choose_answers name :
  answers (linkset_choose document observed (Some name)) (fun r =>
    match linkset_find document (Some name) with None => r = None | Some set => exists c, r = Some c /\ choice_of set c end).
Proof.
  eapply answers_mono; [apply choose_accounts|]. cbv beta. intros r Hr.
  destruct (linkset_find document (Some name)); [|done]. destruct Hr as (c & Hr & Hc & _). by exists c.
Qed.

(** C12: a set settles on its best member. For every document, however its sets
    nest or name one another, and every observation, [ncfg_linkset_choose]
    answers unless memory runs out: nothing where there is no such set, and
    otherwise a choice that lists every member in the order declared and
    settles on the first of the lowest rank among those that may be used, with
    the interface that carries it, or on nothing exactly where none may. Of
    every member listed it says why it may not be used, or that it may: for a
    network or a link what stops it, if anything does; for a set that is the
    one asked about, a cycle; and for any other set, that it is empty, exactly
    where the choice among its own members, accounted for the same way down to
    the bound on nesting, names nothing. A member that may be used and is not
    the one in use carries no reason. *)
Theorem linkset_settles name :
  answers (linkset_choose document observed (Some name)) (fun r =>
    match linkset_find document (Some name) with
    | None => r = None
    | Some set => exists c, r = Some c /\ map st_name (ch_members c) = get linkset_type "members" set /\
        ((exists b before after, ch_members c = before ++ b :: after /\ is_best b before after /\
            ch_active c = st_name b /\ ch_interface c = st_interface b) \/
         (Forall (fun s => ~ eligible s) (ch_members c) /\ ch_active c = None /\ ch_interface c = None)) /\
        Forall (accounted [name]) (ch_members c)
    end).
Proof.
  eapply answers_mono; [apply choose_accounts|]. cbv beta. intros r Hr. destruct (linkset_find document (Some name)) as [set|]; [|done].
  destruct Hr as (c & -> & [_ Hm Ha Hi _] & Hall). exists c. split_and!; [done..| |exact Hall]. pose proof (best_member_spec (ch_members c)) as Hb.
  destruct (best_member (ch_members c)) as [b|]; [|by right]. left. destruct Hb as (l1 & l2 & E & Hb). by exists b, l1, l2.
Qed.

(** C24: what a set settles on works. Whenever [ncfg_linkset_choose] names a
    member, through any nesting of sets, the interface it gives is a link the
    machine has, with carrier, that has not failed its probe. *)
Theorem linkset_choice_works name :
  links_named ->
  answers (linkset_choose document observed (Some name)) (fun r => forall c, r = Some c -> ch_active c <> None ->
    exists i, ch_interface c = Some i /\ works i).
Proof.
  intros Hn. eapply answers_mono; [apply choose_answers|]. cbv beta. intros r Hr c -> Ha.
  destruct (linkset_find document (Some name)) as [set|]; [|done]. destruct Hr as (c' & [= <-] & Hc). by apply (choice_works set).
Qed.

(** ** The inventory *)

Lemma names_copied sets : answers (copy_names sets) (fun l => l = map (get linkset_type "name") sets).
Proof.
  induction sets as [|set sets IH]; cbn [copy_names]; [by step|]. step. eapply answers_bind; [apply IH|]. intros l ->. by step.
Qed.

(** The sets a link is in, under either of its names. *)
Definition sets_of (link : list byte) : list (option (list byte)) :=
  match document with
  | Some d => map (get linkset_type "name") (List.filter (in_set observed link) (get document_type "linksets" d))
  | None => []
  end.

Lemma sets_answers link : answers (sets_containing document observed (Some link)) (fun l => l = sets_of link).
Proof.
  unfold sets_containing, sets_of. destruct document as [d|]; [|by step].
  destruct (get document_type "linksets" d : list (value linkset_type)) as [|s sets]; [by step|]. step. apply names_copied.
Qed.

Abbreviation row := (value link_entry_type).

Lemma row_named name : answers (name_row document observed name) (fun r => r.1 = name).
Proof.
  unfold name_row. step. apply (answers_bind _ _ (fun _ => True)); [|by intros sets _; step].
  destruct name as [n|]; [|unfold sets_containing; destruct document; by step]. eapply answers_mono; [apply sets_answers|done].
Qed.

Ltac row_step := eapply answers_bind; [apply row_named|]; intros [? ?] E; cbn in E; subst.

(** What a row says of its link: its name, what it is a row of, and whether
    the document names it. *)
Definition heading (r : row) : option (list byte) * Z * bool := (row_name r, get link_entry_type "subject" r, get link_entry_type "configured" r).

Lemma rows_answer {A} (make : A -> R row) (key : A -> option (list byte) * Z * bool) l :
  (forall x, answers (make x) (fun r => heading r = key x)) -> answers (rows make l) (fun rs => map heading rs = map key l).
Proof.
  intros H. induction l as [|x l IH]; cbn [rows]; [by step|]. eapply answers_bind; [apply H|]. intros r Hr.
  eapply answers_bind; [apply IH|]. intros rs Hrs. step. simpl. by f_equal.
Qed.

Definition observed_links : list (value observed_link_type) := match observed with Some o => get observed_type "links" o | None => [] end.
Definition link_names : list (option (list byte)) := map (get observed_link_type "name") observed_links.

(** A name among others. *)
Definition known (name : option (list byte)) (names : list (option (list byte))) : Prop := name <> None /\ name ∈ names.

#[local] Instance known_decision name names : Decision (known name names).
Proof. unfold known. apply _. Defined.

(** Every row there is to be: a link that is on no configured network, an
    interface the machine does not have, every network, every set. *)
Definition inventory_headings : list (option (list byte) * Z * bool) :=
  let named := match document with Some d => map (get interface_type "name") (get document_type "interfaces" d) | None => [] end in
  let networks := match document with Some d => map (get network_type "id") (get document_type "networks" d) | None => [] end in
  map (fun l => (get observed_link_type "name" l, NCFG_SUBJECT_INTERFACE, bool_decide ((get observed_link_type "name" l : option (list byte)) ∈ named)))
    (List.filter (fun l => bool_decide (~ known (get observed_link_type "network" l) networks)) observed_links) ++
  map (fun name => (name, NCFG_SUBJECT_INTERFACE, true)) (List.filter (fun name => bool_decide (~ known name link_names)) named) ++
  map (fun id => (id, NCFG_SUBJECT_NETWORK, true)) networks ++
  map (fun name => (name, NCFG_SUBJECT_LINKSET, true))
    (match document with Some d => map (get linkset_type "name") (get document_type "linksets" d) | None => [] end).

(** The searches of the code, as membership. *)
Lemma among {A} (key : A -> option (list byte)) name l : existsb (fun x => same_text (key x) name) l = bool_decide (name ∈ map key l).
Proof.
  apply eq_true_iff_eq. rewrite existsb_exists, bool_decide_eq_true, list_elem_of_In, in_map_iff. setoid_rewrite same_text_true. naive_solver.
Qed.

Lemma carries_exact l : carries_a_configured_network document l =
  bool_decide (known (get observed_link_type "network" l) (match document with Some d => map (get network_type "id") (get document_type "networks" d) | None => [] end)).
Proof.
  unfold carries_a_configured_network. destruct (get observed_link_type "network" l : option (list byte)) as [n|]; [|by rewrite bool_decide_eq_false_2 by (by intros [? _])].
  destruct document as [d|]; [|rewrite bool_decide_eq_false_2; [done|by intros [_ Hn%elem_of_nil]]].
  rewrite among. apply bool_decide_ext. unfold known. naive_solver.
Qed.

Lemma names_exact name : document_names_interface document name =
  bool_decide (name ∈ match document with Some d => map (get interface_type "name") (get document_type "interfaces" d) | None => [] end).
Proof. unfold document_names_interface. destruct document as [d|]; [apply among|]. by rewrite bool_decide_eq_false_2 by apply not_elem_of_nil. Qed.

Lemma find_among {A} (p : A -> bool) (key : A -> option (list byte)) name l :
  (forall x, p x = same_text (key x) name) -> match find p l with Some _ => false | None => true end = bool_decide (name ∉ map key l).
Proof.
  intros Hp. rewrite bool_decide_not, <- among. symmetry. destruct (find p l) as [x|] eqn:E.
  - apply find_some in E as [H1 H2]. rewrite Hp in H2. apply negb_false_iff, existsb_exists. eauto.
  - apply negb_true_iff, not_true_iff_false. rewrite existsb_exists. intros (x & Hx & Hs). pose proof (find_none _ _ E x Hx) as Hn. rewrite Hp in Hn. congruence.
Qed.

Lemma absent_exact name : match observed_link observed name with Some _ => false | None => true end = bool_decide (~ known name link_names).
Proof.
  unfold observed_link, link_names, observed_links. destruct observed as [o|]; [|by rewrite bool_decide_eq_true_2 by (by intros [_ Hn%elem_of_nil])].
  destruct name as [n|]; [|by rewrite bool_decide_eq_true_2 by (by intros [? _])].
  rewrite (find_among _ (get observed_link_type "name") (Some n)) by (intros l; apply compare_same). apply bool_decide_ext. unfold known. naive_solver.
Qed.

Lemma link_row_headed l : answers (link_row document observed l) (fun r => heading r =
  (get observed_link_type "name" l, NCFG_SUBJECT_INTERFACE, document_names_interface document (get observed_link_type "name" l))).
Proof. unfold link_row. row_step. by step. Qed.

Lemma absent_row_headed i : answers (absent_row document observed i) (fun r => heading r = (get interface_type "name" i, NCFG_SUBJECT_INTERFACE, true)).
Proof. unfold absent_row. row_step. by step. Qed.

Lemma network_row_headed n : answers (network_row document observed n) (fun r => heading r = (get network_type "id" n, NCFG_SUBJECT_NETWORK, true)).
Proof.
  unfold network_row. row_step. match goal with |- answers (bind ?r _) _ => apply (answers_bind r _ (fun _ => True)) end; [|by intros on _; step].
  destruct (match observed with Some o => _ | None => _ end); [by apply answers_copy|by step].
Qed.

Lemma linkset_row_headed set : answers (linkset_row document observed set) (fun r => heading r = (get linkset_type "name" set, NCFG_SUBJECT_LINKSET, true)).
Proof.
  unfold linkset_row. row_step. apply (answers_bind _ _ (fun _ => True)).
  { destruct (get linkset_type "name" set : option (list byte)) as [n|]; [|by apply answers_ret]. eapply answers_mono; [apply choose_answers|done]. }
  intros choice _. match goal with |- answers (bind ?r _) _ => apply (answers_bind r _ (fun _ => True)) end; [|by intros on _; step].
  destruct choice; [by apply answers_copy|by step].
Qed.

Lemma rows_opposite : opposite compare_rows.
Proof. apply (opposite_on row_name), text_opposite. Qed.

(** The rows of a walk, once sorted. *)
Lemma sorted_rows rs headings : map heading rs = headings ->
  Sorted (below compare_rows) (stable_sort compare_rows rs) /\ map heading (stable_sort compare_rows rs) ≡ₚ headings.
Proof. intros <-. split; [apply stable_sort_sorted, rows_opposite|]. by rewrite stable_sort_permutes. Qed.

Lemma present_headings :
  map (fun l => (get observed_link_type "name" l, NCFG_SUBJECT_INTERFACE, document_names_interface document (get observed_link_type "name" l)))
    (List.filter (fun l => negb (carries_a_configured_network document l)) observed_links) =
  map (fun l => (get observed_link_type "name" l, NCFG_SUBJECT_INTERFACE, bool_decide ((get observed_link_type "name" l : option (list byte)) ∈
      match document with Some d => map (get interface_type "name") (get document_type "interfaces" d) | None => [] end)))
    (List.filter (fun l => bool_decide (~ known (get observed_link_type "network" l)
      match document with Some d => map (get network_type "id") (get document_type "networks" d) | None => [] end)) observed_links).
Proof.
  rewrite (filter_ext _ (fun l => bool_decide (~ known (get observed_link_type "network" l) _))) by (intros l; rewrite bool_decide_not; f_equal; apply carries_exact).
  apply map_ext. intros l. by rewrite names_exact.
Qed.

Lemma filter_mapped {A B} (f : A -> B) (p : B -> bool) l : List.filter p (map f l) = map f (List.filter (fun x => p (f x)) l).
Proof. induction l as [|x l IH]; [done|]. simpl. destruct (p (f x)); simpl; by rewrite IH. Qed.

Lemma absent_headings (l : list (value interface_type)) :
  map (fun i => (get interface_type "name" i, NCFG_SUBJECT_INTERFACE, true))
    (List.filter (fun i => match observed_link observed (get interface_type "name" i) with Some _ => false | None => true end) l) =
  map (fun name => (name, NCFG_SUBJECT_INTERFACE, true)) (List.filter (fun name => bool_decide (~ known name link_names)) (map (get interface_type "name") l)).
Proof. rewrite filter_mapped, List.map_map. f_equal. apply filter_ext. intros i. apply absent_exact. Qed.

(** C25: the inventory is the union it promises, in order. Unless memory runs
    out, [ncfg_link_inventory] answers with exactly one row for each link of
    the machine that is on no configured network, each configured interface
    the machine does not have, each configured network and each set, a row of
    that kind and marked as configured exactly when the document names it, all
    sorted by name. *)
Theorem inventory_exact :
  answers (link_inventory document observed) (fun rs => Sorted (below compare_rows) rs /\ map heading rs ≡ₚ inventory_headings).
Proof.
  unfold link_inventory. fold observed_links.
  match goal with |- context [match ?c with O => _ | S _ => _ end] => destruct c eqn:Ecap end.
  { step. split; [constructor|]. apply Nat.eq_add_0 in Ecap as [Hl%length_zero_iff_nil Ecap]. unfold inventory_headings, link_names. rewrite Hl.
    destruct document as [d|]; [|done]. apply Nat.eq_add_0 in Ecap as [[E1%length_zero_iff_nil E2%length_zero_iff_nil]%Nat.eq_add_0 E3%length_zero_iff_nil].
    by rewrite E1, E2, E3. }
  step. eapply answers_bind; [apply rows_answer, link_row_headed|]. intros r1 H1. apply (fun H => eq_trans H present_headings) in H1. unfold inventory_headings.
  destruct document as [d|] eqn:Ed; [|step; apply sorted_rows; rewrite H1; cbn [map List.filter]; by rewrite app_nil_r].
  rewrite <- Ed. eapply answers_bind; [apply rows_answer, absent_row_headed|]. intros r2 H2. apply (fun H => eq_trans H (absent_headings _)) in H2.
  eapply answers_bind; [apply rows_answer, network_row_headed|]. intros r3 H3.
  eapply answers_bind; [apply rows_answer, linkset_row_headed|]. intros r4 H4.
  step. apply sorted_rows. rewrite !map_app, H1, H2, H3, H4, !List.map_map. subst document. done.
Qed.
End Linkset.

(** ** Sets to try them on *)

Definition sample_links : value observed_type :=
  match observed_read (fun _ => true) (fun _ => true) true (json_text
    "{'links':[{'name':'eth0','index':2,'up':true,'carrier':true,'mtu':1500,'reachable':false},{'name':'wlan0','index':3,'wireless':true,'network':'home','up':true,'carrier':true,'mtu':1500},{'name':'wlan1','index':4,'wireless':true,'network':'home','up':true,'carrier':true,'mtu':1500}]}") with
  | Some (inr o) => o
  | _ => zero observed_type
  end.

Definition sample_sets : value document_type :=
  match document_read (fun _ => true) (fun _ => true) true (json_text
    "{'schema_version':{'major':1,'minor':1},'globals':{},'devices':[],'interfaces':[],'networks':[{'id':'home','ssid':'6c616e','security':{'type':'open'},'metric':600}],'linksets':[{'name':'uplink','members':['office','modem']},{'name':'office','members':['eth0','home']},{'name':'loop','members':['loop','round']},{'name':'round','members':['loop']}]}") with
  | Some (inr d) => d
  | _ => zero document_type
  end.

Definition choice (name : string) : option (list (option (list byte) * option Z) * option (list byte) * option (list byte)) :=
  match linkset_choose (Some sample_sets) (Some sample_links) (Some (bytes name)) (fun _ => true) 0%nat with
  | inr (Some c, _) => Some (map (fun s => (st_name s, st_ineligible s)) (ch_members c), ch_active c, ch_interface c)
  | _ => None
  end.

(** A set within a set, whose cable has failed its probe, settles on the radio
    that joined the network; sets that name themselves are reported as such. *)
Example uplink_settles :
  choice "uplink" =
  Some ([(Some (bytes "office"), None); (Some (bytes "modem"), Some NCFG_INELIGIBLE_ABSENT)], Some (bytes "office"), Some (bytes "wlan0")).
Proof. by_vm. Qed.

Example loop_settles :
  choice "loop" =
  Some ([(Some (bytes "loop"), Some NCFG_INELIGIBLE_CYCLE); (Some (bytes "round"), Some NCFG_INELIGIBLE_EMPTY)], None, None).
Proof. by_vm. Qed.

Definition named_links (o : value observed_type) : bool :=
  forallb (fun l : value observed_link_type => match (get observed_link_type "name" l : option (list byte)) with Some _ => true | None => false end)
    (get observed_type "links" o).

Lemma named_links_ok o : named_links o = true -> links_named (Some o).
Proof.
  intros H o' [= <-]. unfold named_links in H. rewrite forallb_forall in H. rewrite Forall_forall. intros l Hl%list_elem_of_In%H.
  by destruct (get observed_link_type "name" l : option (list byte)).
Qed.

Lemma linkset_choice_works_witness :
  answers (linkset_choose (Some sample_sets) (Some sample_links) (Some (bytes "uplink"))) (fun r => forall c, r = Some c -> ch_active c <> None ->
    exists i, ch_interface c = Some i /\ works (Some sample_links) i).
Proof. apply linkset_choice_works. apply named_links_ok. by_vm. Defined.

Definition inventory_rows : list (option (list byte) * option (list byte)) :=
  match link_inventory (Some sample_sets) (Some sample_links) (fun _ => true) 0%nat with
  | inr (rs, _) => map (fun r => (row_name r, get link_entry_type "carrier" r)) rs
  | inl _ => []
  end.

(** Two radios on one configured network: the network's row names the first,
    and the second has no row. *)
Example second_radio_hidden :
  inventory_rows =
  [(Some (bytes "eth0"), None); (Some (bytes "home"), Some (bytes "wlan0")); (Some (bytes "loop"), None);
   (Some (bytes "office"), Some (bytes "wlan0")); (Some (bytes "round"), None); (Some (bytes "uplink"), Some (bytes "wlan0"))].
Proof. by_vm. Qed.
