(* ===== verification/Sha256.v ===== *)
(** * Sha256: the digest of hooks and configurations

    [base/sha256.c]. A word is a [Z] below [2^32], an octet one below 256; sums
    and shifts to the left wrap as [uint32_t] does.

    The digest against FIPS 180-4, which module [Fips] states on its own and
    shares nothing with the code: constants from the roots of the primes,
    rotations by division, logical functions by their truth tables, the message
    padded as a whole. The tail buffer holds what the padding says, on every
    length, and every round is the standard's. *)
From S2P Require Import Prelude Lex DocText.
#[local] Open Scope Z_scope.

(** Six constants to a row, as the table is set. *)
Definition row (a b c d e f : Z) : list Z := [a; b; c; d; e; f].

Definition K : list Z :=
  row 0x428a2f98 0x71374491 0xb5c0fbcf 0xe9b5dba5 0x3956c25b 0x59f111f1 ++
  row 0x923f82a4 0xab1c5ed5 0xd807aa98 0x12835b01 0x243185be 0x550c7dc3 ++
  row 0x72be5d74 0x80deb1fe 0x9bdc06a7 0xc19bf174 0xe49b69c1 0xefbe4786 ++
  row 0x0fc19dc6 0x240ca1cc 0x2de92c6f 0x4a7484aa 0x5cb0a9dc 0x76f988da ++
  row 0x983e5152 0xa831c66d 0xb00327c8 0xbf597fc7 0xc6e00bf3 0xd5a79147 ++
  row 0x06ca6351 0x14292967 0x27b70a85 0x2e1b2138 0x4d2c6dfc 0x53380d13 ++
  row 0x650a7354 0x766a0abb 0x81c2c92e 0x92722c85 0xa2bfe8a1 0xa81a664b ++
  row 0xc24b8b70 0xc76c51a3 0xd192e819 0xd6990624 0xf40e3585 0x106aa070 ++
  row 0x19a4c116 0x1e376c08 0x2748774c 0x34b0bcb5 0x391c0cb3 0x4ed8aa4a ++
  row 0x5b9cca4f 0x682e6ff3 0x748f82ee 0x78a5636f 0x84c87814 0x8cc70208 ++
  [0x90befffa; 0xa4506ceb; 0xbef9a3f7; 0xc67178f2].

Definition rotate_right (value bits : Z) : Z := Z.lor (Z.shiftr value bits) (u32 (Z.shiftl value (32 - bits))).

(** ** One block *)

Definition word_at (block : list Z) (i : nat) : Z :=
  Z.lor (Z.lor (Z.lor (u32 (Z.shiftl (block !!! (i * 4)%nat) 24)) (u32 (Z.shiftl (block !!! (i * 4 + 1)%nat) 16)))
    (u32 (Z.shiftl (block !!! (i * 4 + 2)%nat) 8))) (block !!! (i * 4 + 3)%nat).

(** The next word of the schedule from those before it. *)
Definition next_word (w : list Z) (i : nat) : Z :=
  let s0 := Z.lxor (Z.lxor (rotate_right (w !!! (i - 15)%nat) 7) (rotate_right (w !!! (i - 15)%nat) 18)) (Z.shiftr (w !!! (i - 15)%nat) 3) in
  let s1 := Z.lxor (Z.lxor (rotate_right (w !!! (i - 2)%nat) 17) (rotate_right (w !!! (i - 2)%nat) 19)) (Z.shiftr (w !!! (i - 2)%nat) 10) in
  u32 (w !!! (i - 16)%nat + s0 + w !!! (i - 7)%nat + s1).

Definition schedule (block : list Z) : list Z :=
  foldl (fun w i => w ++ [next_word w i]) (map (word_at block) (seq 0 16)) (seq 16 48).

Record state := State { sa : Z; sb : Z; sc : Z; sd : Z; se : Z; sf : Z; sg : Z; sh : Z }.

Definition round (w : list Z) (s : state) (i : nat) : state :=
  let s1 := Z.lxor (Z.lxor (rotate_right (se s) 6) (rotate_right (se s) 11)) (rotate_right (se s) 25) in
  let choose := Z.lxor (Z.land (se s) (sf s)) (Z.land (Z.lxor (se s) 0xffffffff) (sg s)) in
  let temp1 := u32 (sh s + s1 + choose + K !!! i + w !!! i) in
  let s0 := Z.lxor (Z.lxor (rotate_right (sa s) 2) (rotate_right (sa s) 13)) (rotate_right (sa s) 22) in
  let majority := Z.lxor (Z.lxor (Z.land (sa s) (sb s)) (Z.land (sa s) (sc s))) (Z.land (sb s) (sc s)) in
  let temp2 := u32 (s0 + majority) in
  State (u32 (temp1 + temp2)) (sa s) (sb s) (sc s) (u32 (sd s + temp1)) (se s) (sf s) (sg s).

Definition compress (s : state) (block : list Z) : state :=
  let t := foldl (round (schedule block)) s (seq 0 64) in
  State (u32 (sa s + sa t)) (u32 (sb s + sb t)) (u32 (sc s + sc t)) (u32 (sd s + sd t))
    (u32 (se s + se t)) (u32 (sf s + sf t)) (u32 (sg s + sg t)) (u32 (sh s + sh t)).

Definition initial : state :=
  State 0x6a09e667 0xbb67ae85 0x3c6ef372 0xa54ff53a 0x510e527f 0x9b05688c 0x1f83d9ab 0x5be0cd19.

(** ** The message *)

(** The hexadecimal digits of a word, from its highest octet. *)
Definition word_hex (v : Z) : list byte :=
  flat_map (fun shift => [nth (Z.to_nat (Z.land (Z.shiftr v (shift * 8 + 4)) 0xf)) hex_lower x00;
                          nth (Z.to_nat (Z.land (Z.shiftr v (shift * 8)) 0xf)) hex_lower x00]) [3; 2; 1; 0].

Definition state_hex (s : state) : list byte :=
  flat_map word_hex [sa s; sb s; sc s; sd s; se s; sf s; sg s; sh s].

(** The tail buffer: 128 octets of zero, the rest of the message, the bit that
    ends it, and the length in bits at the end of the block that is last. *)
Definition put_length (tail_length : nat) (bits : Z) (tail : list Z) (i : nat) : list Z :=
  <[(tail_length - 1 - i)%nat := Z.land (Z.shiftr bits (8 * Z.of_nat i)) 0xff]> tail.

Definition tail_of (rest : list Z) (bits : Z) : nat * list Z :=
  let tail := rest ++ repeat 0 (128 - length rest) in
  let tail := <[length rest := 0x80]> tail in
  let tail_length := (if length rest <? 56 then 64 else 128)%nat in
  (tail_length, foldl (put_length tail_length bits) tail (seq 0 8)).

(** [ncfg_sha256_hex]. *)
Definition sha256_hex (input : list Z) : list byte :=
  let whole := (length input / 64)%nat in
  let rest := drop (whole * 64) input in
  let s := foldl (fun s i => compress s (take 64 (drop (i * 64) input))) initial (seq 0 whole) in
  let '(tail_length, tail) := tail_of rest (u64 (u64 (Z.of_nat (length input)) * 8)) in
  let s := compress s (take 64 tail) in
  let s := if (tail_length =? 128)%nat then compress s (drop 64 tail) else s in
  state_hex s.

(** ** FIPS 180-4

    The standard, in its own terms: words as integers modulo [2^32], rotations
    and shifts by division, the logical functions by their truth tables, the
    constants from the primes they are the roots of, and the message padded as
    a whole and parsed into blocks. Nothing of it is shared with what is
    above. *)
Module Fips.

(** Section 2.2: an operation on words bit by bit. *)
Definition of_bits (f : Z -> bool) : Z := foldr (fun i acc => Z.b2z (f i) + 2 * acc) 0 (seqZ 0 32).

Definition bitwise (f : bool -> bool -> bool -> bool) (x y z : Z) : Z :=
  of_bits (fun i => f (Z.testbit x i) (Z.testbit y i) (Z.testbit z i)).

Definition ROTR (n x : Z) : Z := x / 2 ^ n + (x mod 2 ^ n) * 2 ^ (32 - n).
Definition SHR (n x : Z) : Z := x / 2 ^ n.

(** Section 4.1.2. *)
Definition Ch : Z -> Z -> Z -> Z := bitwise (fun x y z => if x then y else z).
Definition Maj : Z -> Z -> Z -> Z := bitwise (fun x y z => (x && y) || (x && z) || (y && z)).
Definition parity : Z -> Z -> Z -> Z := bitwise (fun x y z => xorb x (xorb y z)).

Definition Sigma0 (x : Z) : Z := parity (ROTR 2 x) (ROTR 13 x) (ROTR 22 x).
Definition Sigma1 (x : Z) : Z := parity (ROTR 6 x) (ROTR 11 x) (ROTR 25 x).
Definition sigma0 (x : Z) : Z := parity (ROTR 7 x) (ROTR 18 x) (SHR 3 x).
Definition sigma1 (x : Z) : Z := parity (ROTR 17 x) (ROTR 19 x) (SHR 10 x).

(** Sections 4.2.2 and 5.3.3: the first 32 bits of the fractional parts of the
    cube roots of the first 64 primes, and of the square roots of the first
    eight. [root e n] is the whole part of the [e]th root, a bit at a time; the
    64th prime is 311. *)
Definition is_prime (n : Z) : bool := (2 <=? n) && forallb (fun d => negb (n mod d =? 0)) (seqZ 2 (n - 2)).

Definition primes : list Z := List.filter is_prime (seqZ 2 310).

Definition root (e n : Z) : Z :=
  foldl (fun r i => if (r + 2 ^ i) ^ e <=? n then r + 2 ^ i else r) 0 (rev (seqZ 0 40)).

Definition fraction (e p : Z) : Z := root e (p * 2 ^ (32 * e)) mod 2 ^ 32.

Definition K : list Z := map (fraction 3) primes.
Definition H0 : list Z := map (fraction 2) (take 8 primes).

(** Section 5.1.1: the bit [1], as few zeros as leave 64 bits of a block, and
    the length of the message in bits. *)
Definition length_octets (bits : Z) : list Z := map (fun i => (bits / 2 ^ (8 * i)) mod 256) [7; 6; 5; 4; 3; 2; 1; 0].

Definition zeros_after (n : nat) : nat := Z.to_nat ((55 - Z.of_nat n) mod 64).

Definition padded (m : list Z) : list Z :=
  m ++ [0x80] ++ repeat 0 (zeros_after (length m)) ++ length_octets (8 * Z.of_nat (length m)).

(** Section 5.2.1: blocks of 64 octets, sixteen words to a block. *)
Fixpoint blocks (n : nat) (m : list Z) : list (list Z) :=
  match n with O => [] | S n => take 64 m :: blocks n (drop 64 m) end.

Fixpoint words (block : list Z) : list Z :=
  match block with
  | a :: b :: c :: d :: rest => ((a * 256 + b) * 256 + c) * 256 + d :: words rest
  | _ => []
  end.

(** Section 6.2.2. The schedule, its newest word first. *)
Definition next (w : list Z) : Z :=
  (sigma1 (w !!! 1%nat) + w !!! 6%nat + sigma0 (w !!! 14%nat) + w !!! 15%nat) mod 2 ^ 32.

Fixpoint extend (n : nat) (w : list Z) : list Z := match n with O => w | S n => extend n (next w :: w) end.

Definition schedule (block : list Z) : list Z := rev (extend 48 (rev (words block))).

Definition step (s : list Z) (kw : Z * Z) : list Z :=
  match s with
  | [a; b; c; d; e; f; g; h] =>
      let T1 := (h + Sigma1 e + Ch e f g + kw.1 + kw.2) mod 2 ^ 32 in
      let T2 := (Sigma0 a + Maj a b c) mod 2 ^ 32 in
      [(T1 + T2) mod 2 ^ 32; a; b; c; (d + T1) mod 2 ^ 32; e; f; g]
  | _ => s
  end.

Definition hash_block (s : list Z) (block : list Z) : list Z :=
  zip_with (fun x y => (x + y) mod 2 ^ 32) s (foldl step s (zip K (schedule block))).

(** A word as eight hexadecimal digits. *)
Definition hex_word (v : Z) : list byte :=
  map (fun i => nth (Z.to_nat ((v / 16 ^ i) mod 16)) (bytes "0123456789abcdef") x00) [7; 6; 5; 4; 3; 2; 1; 0].

Definition digest (m : list Z) : list byte :=
  flat_map hex_word (foldl hash_block H0 (blocks (length (padded m) / 64) (padded m))).

End Fips.
Import Fips(length_octets, zeros_after, padded, blocks).

Example sha256_vectors :
  sha256_hex (map bz (bytes "abc")) = bytes "ba7816bf8f01cfea414140de5dae2223b00361a396177a9cb410ff61f20015ad" /\
  sha256_hex [] = bytes "e3b0c44298fc1c149afbf4c8996fb92427ae41e4649b934ca495991b7852b855" /\
  sha256_hex (map bz (bytes "abcdbcdecdefdefgefghfghighijhijkijkljklmklmnlmnomnopnopq")) =
    bytes "248d6a61d20638b8e5c026930c3e6039a33ce45964ff2167f6ecedd419db06c1".
Proof. vm_compute. auto. Qed.

(** ** Blocks *)

Lemma blocks_app n k a b : length a = (n * 64)%nat -> blocks (n + k) (a ++ b) = blocks n a ++ blocks k b.
Proof.
  revert a. induction n as [|n IH]; intros a Ha; simpl; [by apply length_zero_iff_nil in Ha as ->|].
  rewrite take_app_le, drop_app_le by lia. f_equal. apply IH. rewrite length_drop. lia.
Qed.

(** Walking over the whole blocks of a message is walking over its blocks. *)
Lemma blocks_walk s n m b :
  (n * 64 <= length m)%nat ->
  foldl (fun s i => compress s (take 64 (drop (i * 64) m))) s (seq b n) = foldl compress s (blocks n (drop (b * 64) m)).
Proof.
  revert s b. induction n as [|n IH]; intros s b Hn; [done|]. cbn [seq foldl blocks]. rewrite IH by lia. do 2 f_equal.
  rewrite drop_drop. f_equal. lia.
Qed.

(** ** The tail *)

Lemma length_octet bits i : 0 <= i <= 56 -> Z.land (Z.shiftr (u64 bits) i) 0xff = (bits / 2 ^ i) mod 256.
Proof.
  intros Hi. change 0xff with (Z.ones 8). unfold u64. rewrite Z.land_ones by lia. change (2 ^ 8) with 256. change 256 with (2 ^ 8).
  rewrite Z.shiftr_div_pow2 by lia. apply Z.bits_inj'. intros n Hn. destruct (Z.ltb_spec n 8).
  - rewrite !Z.mod_pow2_bits_low, !Z.div_pow2_bits, Z.mod_pow2_bits_low by lia. done.
  - rewrite !Z.mod_pow2_bits_high by lia. done.
Qed.

(** Writing the length into the eight octets before the end of a block. *)
Lemma put_length_at a c bits :
  foldl (put_length (length a + 8) (u64 bits)) (a ++ repeat 0 8 ++ c) (seq 0 8) = a ++ length_octets bits ++ c.
Proof.
  assert (forall i v l, (i < 8)%nat -> <[(length a + 8 - 1 - i)%nat := v]> (a ++ l) = a ++ <[(7 - i)%nat := v]> l) as H.
  { intros i v l Hi. replace (length a + 8 - 1 - i)%nat with (length a + (7 - i))%nat by lia. apply insert_app_r. }
  cbn [seq foldl]. unfold put_length. rewrite !H by lia. f_equal.
  rewrite !length_octet by lia. reflexivity.
Qed.

(** The whole of the tail buffer, and the part of it that is compressed. *)
Lemma tail_exact rest bits :
  (length rest < 64)%nat ->
  let '(n, tail) := tail_of rest (u64 bits) in
  length tail = 128%nat /\ n = (if length rest <? 56 then 64 else 128)%nat /\
  take n tail = rest ++ [0x80] ++ repeat 0 (n - 9 - length rest) ++ length_octets bits.
Proof.
  intros Hr. unfold tail_of. set (n := (if (length rest <? 56)%nat then 64%nat else 128%nat)).
  assert (length rest + 9 <= n <= 128)%nat as Hn by (subst n; destruct (Nat.ltb_spec (length rest) 56); lia).
  set (a := rest ++ [0x80] ++ repeat 0 (n - 9 - length rest)).
  assert (length a + 8 = n)%nat as Ha by (subst a; rewrite !length_app, repeat_length; simpl; lia).
  assert (<[length rest := 0x80]> (rest ++ repeat 0 (128 - length rest)) = a ++ repeat 0 8 ++ repeat 0 (128 - n)) as ->.
  { replace (length rest) with (length rest + 0)%nat at 1 by lia. rewrite insert_app_r. subst a. rewrite <- app_assoc. f_equal.
    replace (128 - length rest)%nat with (1 + ((n - 9 - length rest) + (8 + (128 - n))))%nat by lia.
    rewrite !repeat_app. reflexivity. }
  pose proof (put_length_at a (repeat 0 (128 - n)) bits) as Hput. rewrite Ha in Hput. rewrite Hput. split_and!; [|done|].
  - rewrite !length_app, repeat_length. change (length (length_octets bits)) with 8%nat. lia.
  - rewrite app_assoc, take_app_length'; [by subst a; rewrite <- !app_assoc|]. rewrite length_app. simpl. lia.
Qed.

(** The digest is the padded message folded block by block. *)
Lemma sha256_folds input :
  sha256_hex input = state_hex (foldl compress initial (blocks (length (padded input) / 64) (padded input))).
Proof.
  unfold sha256_hex. set (whole := (length input / 64)%nat).
  pose proof (Nat.div_mod_eq (length input) 64) as Hdm. pose proof (Nat.mod_upper_bound (length input) 64 ltac:(lia)) as Hmod. fold whole in Hdm.
  set (rest := drop (whole * 64) input). assert (length rest = (length input mod 64)%nat) as Hrest by (subst rest; rewrite length_drop; lia).
  assert (u64 (u64 (Z.of_nat (length input)) * 8) = u64 (8 * Z.of_nat (length input))) as ->.
  { unfold u64. rewrite Z.mul_mod_idemp_l by lia. f_equal. lia. }
  pose proof (tail_exact rest (8 * Z.of_nat (length input)) ltac:(lia)) as Ht.
  destruct (tail_of rest _) as [n tail]. destruct Ht as (Hl & Hn & Htake).
  assert (padded input = take (whole * 64) input ++ take n tail) as Hp.
  { rewrite Htake. unfold padded. rewrite <- (take_drop (whole * 64) input) at 1. fold rest. rewrite <- app_assoc. do 3 f_equal.
    unfold zeros_after. subst n. do 2 f_equal. destruct (Nat.ltb_spec (length rest) 56); zdiv. }
  assert (length (take (whole * 64) input) = whole * 64)%nat as Hw by (rewrite length_take; lia).
  rewrite blocks_walk by lia. rewrite drop_0, Hp, length_app, Hw.
  assert (length (take n tail) = n) as Hlen by (rewrite length_take; destruct (length rest <? 56)%nat; lia). rewrite Hlen.
  replace ((whole * 64 + n) / 64)%nat with (whole + n / 64)%nat by (symmetry; rewrite (Nat.add_comm (whole * 64)), Nat.div_add by lia; lia).
  rewrite blocks_app, foldl_app by done. assert (blocks whole input = blocks whole (take (whole * 64) input)) as <-.
  { rewrite <- (take_drop (whole * 64) input) at 1. rewrite <- (Nat.add_0_r whole) at 1. rewrite blocks_app by done. simpl. by rewrite app_nil_r. }
  f_equal. subst n. destruct (length rest <? 56)%nat.
  - change (64 / 64)%nat with 1%nat. cbn [Nat.eqb blocks foldl]. by rewrite take_take.
  - change (128 / 64)%nat with 2%nat. cbn [Nat.eqb blocks foldl].
    rewrite !take_take, (take_ge tail 128), (take_ge (drop 64 tail)) by (rewrite ?length_drop; lia). done.
Qed.

(** ** The words of the standard *)

Definition word (v : Z) : Prop := 0 <= v < 2 ^ 32.

Lemma word_mod z : word (z mod 2 ^ 32).
Proof. apply Z.mod_pos_bound. lia. Qed.

Lemma high_bits v k : 0 <= v < 2 ^ k -> forall i, k <= i -> Z.testbit v i = false.
Proof.
  intros Hv i Hi. destruct (Z.eq_dec v 0) as [->|]; [apply Z.testbit_0_l|].
  apply Z.bits_above_log2; [lia|]. apply Z.log2_lt_pow2; [lia|].
  eapply Z.lt_le_trans; [apply Hv|]. apply Z.pow_le_mono_r; lia.
Qed.

(** What is below a multiple of [2^k] and what is above it share no bit. *)
Lemma lor_add a b k : 0 <= k -> 0 <= a < 2 ^ k -> Z.lor a (b * 2 ^ k) = a + b * 2 ^ k.
Proof.
  intros Hk Ha. assert (Z.land a (b * 2 ^ k) = 0) as Hl.
  { apply Z.bits_inj'. intros i Hi. rewrite Z.land_spec, Z.testbit_0_l. destruct (Z.ltb_spec i k).
    - by rewrite Z.mul_pow2_bits_low, andb_false_r.
    - by rewrite (high_bits a k) by done. }
  rewrite (Z.add_nocarry_lxor _ _ Hl). by rewrite Z.lxor_lor.
Qed.

Lemma of_bits_testbit_from f a n i :
  0 <= i -> 0 <= n ->
  Z.testbit (foldr (fun i acc => Z.b2z (f i) + 2 * acc) 0 (seqZ a n)) i = (i <? n) && f (a + i).
Proof.
  intros Hi Hn. revert a i Hi. pattern n. apply natlike_ind; [| |done].
  - intros a i Hi. rewrite seqZ_nil by lia. rewrite Z.testbit_0_l. by rewrite (proj2 (Z.ltb_ge _ _)) by lia.
  - intros m Hm IH a i Hi. rewrite seqZ_cons by lia. cbn [foldr].
    rewrite Z.add_comm. destruct (Z.eq_dec i 0) as [->|Hne].
    + rewrite Z.testbit_0_r. rewrite Z.add_0_r. by rewrite (proj2 (Z.ltb_lt _ _)) by lia.
    + replace i with (Z.succ (i - 1)) at 1 by lia. rewrite Z.testbit_succ_r by lia.
      replace (Z.pred (Z.succ m)) with m by lia. rewrite IH by lia.
      replace (Z.succ a + (i - 1)) with (a + i) by lia. f_equal.
      destruct (Z.ltb_spec (i - 1) m), (Z.ltb_spec i (Z.succ m)); lia.
Qed.

Lemma bitwise_testbit f x y z i :
  0 <= i < 32 -> Z.testbit (Fips.bitwise f x y z) i = f (Z.testbit x i) (Z.testbit y i) (Z.testbit z i).
Proof.
  intros Hi. unfold Fips.bitwise, Fips.of_bits. rewrite of_bits_testbit_from by lia.
  by rewrite (proj2 (Z.ltb_lt _ _)), Z.add_0_l by lia.
Qed.

Lemma bitwise_is f x y z v :
  word v -> (forall i, 0 <= i < 32 -> Z.testbit v i = f (Z.testbit x i) (Z.testbit y i) (Z.testbit z i)) ->
  v = Fips.bitwise f x y z.
Proof.
  intros Hv H. apply Z.bits_inj'. intros i Hi. destruct (Z.ltb_spec i 32) as [Hlt|Hge].
  - rewrite bitwise_testbit by lia. by apply H.
  - rewrite (high_bits v 32) by done. unfold Fips.bitwise, Fips.of_bits. rewrite of_bits_testbit_from by lia.
    by rewrite (proj2 (Z.ltb_ge _ _)) by lia.
Qed.

(** An operation of words is a word. *)
Lemma word_bits v : 0 <= v -> (forall i, 32 <= i -> Z.testbit v i = false) -> word v.
Proof.
  intros H0 H. split; [done|]. apply Z.nle_gt. intros Hle.
  assert (32 <= Z.log2 v) as Hlog by (change 32 with (Z.log2 (2 ^ 32)); by apply Z.log2_le_mono).
  specialize (H (Z.log2 v) Hlog). rewrite Z.bit_log2 in H; [done|]. lia.
Qed.

Lemma word_lxor x y : word x -> word y -> word (Z.lxor x y).
Proof.
  intros Hx Hy. apply word_bits; [apply Z.lxor_nonneg; unfold word in *; lia|]. intros i Hi.
  by rewrite Z.lxor_spec, (high_bits x 32), (high_bits y 32).
Qed.

Lemma word_land x y : word x -> word y -> word (Z.land x y).
Proof.
  intros Hx Hy. apply word_bits; [apply Z.land_nonneg; left; apply Hx|]. intros i Hi.
  by rewrite Z.land_spec, (high_bits x 32).
Qed.

Lemma word_shift x n : 0 <= n -> word x -> word (x / 2 ^ n).
Proof.
  intros Hn Hx. unfold word in *. split; [apply Z.div_pos; lia|].
  apply Z.le_lt_trans with x; [|lia]. apply Z.div_le_upper_bound; [lia|]. nia.
Qed.

Lemma rotate_right_is v n : word v -> 0 < n < 32 -> rotate_right v n = Fips.ROTR n v.
Proof.
  intros Hv Hn. unfold rotate_right, Fips.ROTR, u32. rewrite Z.shiftr_div_pow2, Z.shiftl_mul_pow2 by lia.
  assert ((v * 2 ^ (32 - n)) mod 2 ^ 32 = (v mod 2 ^ n) * 2 ^ (32 - n)) as ->.
  { replace (2 ^ 32) with (2 ^ n * 2 ^ (32 - n)) by (rewrite <- Z.pow_add_r by lia; f_equal; lia).
    by rewrite Z.mul_mod_distr_r by lia. }
  apply lor_add; [lia|]. unfold word in Hv. split; [apply Z.div_pos; lia|].
  apply Z.div_lt_upper_bound; [lia|]. rewrite <- Z.pow_add_r by lia. replace (n + (32 - n)) with 32 by lia. apply Hv.
Qed.

Lemma word_ROTR v n : word v -> 0 < n < 32 -> word (Fips.ROTR n v).
Proof.
  intros Hv Hn. rewrite <- rotate_right_is by done. unfold rotate_right. apply word_bits.
  - apply Z.lor_nonneg. split; [apply Z.shiftr_nonneg, Hv|apply (word_mod (Z.shiftl v (32 - n)))].
  - intros i Hi. rewrite Z.lor_spec, Z.shiftr_spec, (high_bits v 32) by (lia || done).
    by apply (high_bits _ 32 (word_mod (Z.shiftl v (32 - n)))).
Qed.

Lemma parity_is x y z : word x -> word y -> word z -> Z.lxor (Z.lxor x y) z = Fips.parity x y z.
Proof.
  intros Hx Hy Hz. apply bitwise_is; [by repeat apply word_lxor|]. intros i _. rewrite !Z.lxor_spec.
  by destruct (Z.testbit x i), (Z.testbit y i), (Z.testbit z i).
Qed.

Lemma Ch_is x y z : word x -> word y -> word z -> Z.lxor (Z.land x y) (Z.land (Z.lxor x 0xffffffff) z) = Fips.Ch x y z.
Proof.
  intros Hx Hy Hz. assert (word 0xffffffff) as Hones by (unfold word; lia). apply bitwise_is.
  - apply word_lxor; apply word_land; try done. by apply word_lxor.
  - intros i Hi. rewrite Z.lxor_spec, !Z.land_spec, Z.lxor_spec. change 0xffffffff with (Z.ones 32).
    rewrite Z.ones_spec_low by lia. by destruct (Z.testbit x i), (Z.testbit y i), (Z.testbit z i).
Qed.

Lemma Maj_is x y z :
  word x -> word y -> word z -> Z.lxor (Z.lxor (Z.land x y) (Z.land x z)) (Z.land y z) = Fips.Maj x y z.
Proof.
  intros Hx Hy Hz. apply bitwise_is; [by repeat apply word_lxor; apply word_land|].
  intros i Hi. rewrite !Z.lxor_spec, !Z.land_spec. by destruct (Z.testbit x i), (Z.testbit y i), (Z.testbit z i).
Qed.

(** The constants are those the standard derives from the primes. *)
Lemma K_is : K = Fips.K.
Proof. vm_compute. reflexivity. Qed.

Definition state_words (s : state) : list Z := [sa s; sb s; sc s; sd s; se s; sf s; sg s; sh s].

Lemma initial_is : state_words initial = Fips.H0.
Proof. vm_compute. reflexivity. Qed.

(** ** The message schedule *)

Abbreviation octets_of := (Forall (fun x : Z => 0 <= x < 256)).

Lemma octets_lookup block i : octets_of block -> 0 <= block !!! i < 256.
Proof.
  intros H. destruct (block !! i) as [x|] eqn:E.
  - rewrite (list_lookup_total_correct _ _ _ E). rewrite Forall_forall in H. apply H. by eapply list_elem_of_lookup_2.
  - rewrite list_lookup_total_alt, E. cbn. lia.
Qed.

Lemma word_at_is block i :
  octets_of block ->
  word_at block i = ((block !!! (i * 4)%nat * 256 + block !!! (i * 4 + 1)%nat) * 256 + block !!! (i * 4 + 2)%nat) * 256 +
    block !!! (i * 4 + 3)%nat.
Proof.
  intros H. unfold word_at.
  pose proof (octets_lookup block (i * 4) H) as Ha. pose proof (octets_lookup block (i * 4 + 1) H) as Hb.
  pose proof (octets_lookup block (i * 4 + 2) H) as Hc. pose proof (octets_lookup block (i * 4 + 3) H) as Hd.
  generalize dependent (block !!! (i * 4)%nat). intros a Ha. generalize dependent (block !!! (i * 4 + 1)%nat). intros b Hb.
  generalize dependent (block !!! (i * 4 + 2)%nat). intros c Hc. generalize dependent (block !!! (i * 4 + 3)%nat). intros d Hd.
  unfold u32. rewrite !Z.shiftl_mul_pow2 by lia. rewrite !Z.mod_small by lia.
  rewrite (Z.lor_comm (a * _)), (lor_add (b * 2 ^ 16) a 24) by lia.
  replace (b * 2 ^ 16 + a * 2 ^ 24) with ((b + a * 2 ^ 8) * 2 ^ 16) by lia.
  rewrite (Z.lor_comm (_ * 2 ^ 16)), (lor_add (c * 2 ^ 8) _ 16) by lia.
  replace (c * 2 ^ 8 + (b + a * 2 ^ 8) * 2 ^ 16) with ((c + (b + a * 2 ^ 8) * 2 ^ 8) * 2 ^ 8) by lia.
  rewrite (Z.lor_comm (_ * 2 ^ 8)), (lor_add d _ 8) by lia. lia.
Qed.

Lemma words_of_block block :
  length block = 64%nat -> octets_of block -> map (word_at block) (seq 0 16) = Fips.words block /\ Forall word (Fips.words block).
Proof.
  intros Hl Ho. assert (map (word_at block) (seq 0 16) = Fips.words block) as E.
  { cbn [map seq]. rewrite !word_at_is by done. do 64 (destruct block as [|? block]; [discriminate|]).
    destruct block; [reflexivity|discriminate]. }
  split; [done|]. rewrite <- E. apply Forall_fmap, Forall_forall. intros i _. cbn. rewrite word_at_is by done.
  pose proof (octets_lookup block (i * 4) Ho). pose proof (octets_lookup block (i * 4 + 1) Ho).
  pose proof (octets_lookup block (i * 4 + 2) Ho). pose proof (octets_lookup block (i * 4 + 3) Ho). unfold word. lia.
Qed.

Lemma word_lookup w i : Forall word w -> word (w !!! i).
Proof.
  intros H. destruct (w !! i) as [x|] eqn:E.
  - rewrite (list_lookup_total_correct _ _ _ E). rewrite Forall_forall in H. apply H. by eapply list_elem_of_lookup_2.
  - rewrite list_lookup_total_alt, E. cbn. unfold word. lia.
Qed.

Lemma newest_first (w : list Z) i k : (k < i)%nat -> length w = i -> rev w !!! (i - S k)%nat = w !!! k.
Proof.
  intros Hk Hl. rewrite !list_lookup_total_alt. f_equal.
  rewrite rev_alt. fold (reverse w). rewrite reverse_lookup by lia. f_equal. lia.
Qed.

Lemma next_word_is w i : (16 <= i)%nat -> length w = i -> Forall word w -> next_word (rev w) i = Fips.next w.
Proof.
  intros Hi Hl Hw. unfold next_word, Fips.next.
  rewrite (newest_first w i 14), (newest_first w i 1), (newest_first w i 15), (newest_first w i 6) by lia.
  rewrite !rotate_right_is, !Z.shiftr_div_pow2 by (lia || by apply word_lookup).
  unfold Fips.sigma0, Fips.sigma1, Fips.SHR.
  rewrite !parity_is by (first [apply word_ROTR; [by apply word_lookup|lia] | apply word_shift; [lia|by apply word_lookup]]).
  unfold u32. f_equal. lia.
Qed.

Lemma schedule_is_from n : forall w i,
  (16 <= i)%nat -> length w = i -> Forall word w ->
  foldl (fun w i => w ++ [next_word w i]) (rev w) (seq i n) = rev (Fips.extend n w) /\ Forall word (Fips.extend n w).
Proof.
  induction n as [|n IH]; intros w i Hi Hl Hw; [done|]. cbn [seq foldl Fips.extend].
  rewrite (next_word_is w i Hi Hl Hw). change (rev w ++ [Fips.next w]) with (rev (Fips.next w :: w)).
  apply IH; [lia|cbn; lia|]. constructor; [apply word_mod|done].
Qed.

Lemma schedule_is block :
  length block = 64%nat -> octets_of block -> schedule block = Fips.schedule block /\ Forall word (schedule block).
Proof.
  intros Hl Ho. destruct (words_of_block block Hl Ho) as [E Hw]. unfold schedule, Fips.schedule.
  rewrite E. rewrite <- (rev_involutive (Fips.words block)) at 1 3.
  assert (length (Fips.words block) = 16%nat) as Hlen by (by rewrite <- E).
  destruct (schedule_is_from 48 (rev (Fips.words block)) 16) as [-> Hf].
  - lia.
  - by rewrite length_rev.
  - by apply Forall_rev.
  - split; [done|by apply Forall_rev].
Qed.

(** ** The rounds *)

Lemma words_of_state s : Forall word (state_words s) <->
  word (sa s) /\ word (sb s) /\ word (sc s) /\ word (sd s) /\ word (se s) /\ word (sf s) /\ word (sg s) /\ word (sh s).
Proof. unfold state_words. rewrite !Forall_cons. split; [intros (?&?&?&?&?&?&?&?&_); by split_and!|intros (?&?&?&?&?&?&?&?); by split_and!]. Qed.

Lemma mod_sum z : u32 z = z mod 2 ^ 32.
Proof. reflexivity. Qed.

Lemma round_is w s i :
  Forall word (state_words s) ->
  state_words (round w s i) = Fips.step (state_words s) (K !!! i, w !!! i) /\ Forall word (state_words (round w s i)).
Proof.
  intros (Ha & Hb & Hc & Hd & He & Hf & Hg & Hh)%words_of_state. destruct s as [a b c d e f g h]. cbn in *.
  assert (state_words (round w (State a b c d e f g h) i) = Fips.step [a; b; c; d; e; f; g; h] (K !!! i, w !!! i)) as E.
  { unfold round, Fips.step, state_words. cbn [sa sb sc sd se sf sg sh fst snd].
    rewrite !rotate_right_is by (done || lia). rewrite !parity_is by (apply word_ROTR; [done|lia]).
    rewrite Ch_is, Maj_is by done. reflexivity. }
  split; [exact E|]. apply words_of_state. cbn. split_and!; try done; apply word_mod.
Qed.

(** Taking two lists by their index is taking them together. *)
Lemma zip_by_index {A B} `{Inhabited A} `{Inhabited B} (l1 : list A) (l2 : list B) n :
  length l1 = n -> length l2 = n -> zip l1 l2 = map (fun i => (l1 !!! i, l2 !!! i)) (seq 0 n).
Proof.
  revert l2 n. induction l1 as [|x l1 IH]; intros [|y l2] [|n] H1 H2; try discriminate; [done|].
  cbn [zip_with seq map]. f_equal. rewrite <- seq_shift, map_map. apply IH; cbn in *; lia.
Qed.

Lemma rounds_are w l s :
  Forall word (state_words s) ->
  state_words (foldl (round w) s l) = foldl Fips.step (state_words s) (map (fun i => (K !!! i, w !!! i)) l) /\
  Forall word (state_words (foldl (round w) s l)).
Proof.
  revert s. induction l as [|i l IH]; intros s Hs; [done|]. cbn [foldl map].
  destruct (round_is w s i Hs) as [<- Hr]. by apply IH.
Qed.

Lemma extend_length n w : length (Fips.extend n w) = (n + length w)%nat.
Proof. revert w. induction n as [|n IH]; intros w; cbn [Fips.extend]; [done|]. rewrite IH. cbn. lia. Qed.

Lemma constants_scheduled block :
  length block = 64%nat -> octets_of block ->
  zip Fips.K (Fips.schedule block) = map (fun i => (K !!! i, schedule block !!! i)) (seq 0 64).
Proof.
  intros Hl Ho. destruct (schedule_is block Hl Ho) as [-> _]. rewrite <- K_is. apply zip_by_index; [reflexivity|].
  unfold Fips.schedule. rewrite length_rev, extend_length, length_rev.
  destruct (words_of_block block Hl Ho) as [<- _]. by rewrite length_map, length_seq.
Qed.

#[local] Opaque K Fips.K schedule Fips.schedule.

Lemma compress_is s block :
  Forall word (state_words s) -> length block = 64%nat -> octets_of block ->
  state_words (compress s block) = Fips.hash_block (state_words s) block /\ Forall word (state_words (compress s block)).
Proof.
  intros Hs Hl Ho. unfold compress, Fips.hash_block. rewrite (constants_scheduled block Hl Ho).
  destruct (rounds_are (schedule block) (seq 0 64) s Hs) as [<- _].
  generalize (foldl (round (schedule block)) s (seq 0 64)) as t. intros t.
  split; [reflexivity|]. apply words_of_state. cbn. split_and!; apply word_mod.
Qed.

Lemma blocks_are bs s :
  Forall word (state_words s) -> Forall (fun b => length b = 64%nat /\ octets_of b) bs ->
  state_words (foldl compress s bs) = foldl Fips.hash_block (state_words s) bs.
Proof.
  revert s. induction bs as [|b bs IH]; intros s Hs Hb; [done|]. apply Forall_cons in Hb as [[Hl Ho] Hb].
  cbn [foldl]. destruct (compress_is s b Hs Hl Ho) as [<- Hw]. by apply IH.
Qed.

(** ** The message *)

Lemma blocks_whole n m :
  (n * 64 <= length m)%nat -> octets_of m -> Forall (fun b => length b = 64%nat /\ octets_of b) (blocks n m).
Proof.
  revert m. induction n as [|n IH]; intros m Hn Hm; [constructor|]. cbn [blocks]. constructor.
  - split; [rewrite length_take; lia|by apply Forall_take].
  - apply IH; [rewrite length_drop; lia|by apply Forall_drop].
Qed.

Lemma padded_octets m : octets_of m -> octets_of (padded m).
Proof.
  intros Hm. unfold padded. rewrite !Forall_app. split_and!; [done| | |].
  - by repeat constructor.
  - apply Forall_forall. intros x Hx. apply list_elem_of_In, repeat_spec in Hx. lia.
  - unfold length_octets. apply Forall_fmap, Forall_forall. intros i _. cbn. apply Z.mod_pos_bound. lia.
Qed.

Lemma word_hex_is v : word_hex v = Fips.hex_word v.
Proof.
  assert (forall n, 0 <= n -> Z.land (Z.shiftr v n) 0xf = (v / 2 ^ n) mod 16) as H.
  { intros n Hn. change 0xf with (Z.ones 4). rewrite Z.land_ones, Z.shiftr_div_pow2 by lia. done. }
  unfold word_hex, Fips.hex_word. cbn [flat_map map app]. rewrite !H by lia. reflexivity.
Qed.

(** C26: the digest is SHA-256. On every input [ncfg_sha256_hex] is the digest
    FIPS 180-4 defines, stated on its own: the constants are the roots of the
    primes, worked out; rotations, shifts and the logical functions are given
    by division and by truth tables; the schedule, the rounds, the padding of
    the message as a whole and its parsing into words are the standard's, and
    the digest is its eight words in hexadecimal. 55, 56 and 64 octets of rest,
    which the code treats apart, are among the inputs. *)
Theorem sha256_exact (message : list byte) : sha256_hex (map bz message) = Fips.digest (map bz message).
Proof.
  set (input := map bz message).
  assert (octets_of input) as Ho.
  { apply Forall_fmap, Forall_forall. intros b _. apply bz_range. }
  rewrite sha256_folds. unfold Fips.digest, state_hex. fold (state_words (foldl compress initial (blocks (length (padded input) / 64) (padded input)))).
  rewrite blocks_are, initial_is.
  - apply flat_map_ext. apply word_hex_is.
  - apply words_of_state. unfold initial, word. cbn [sa sb sc sd se sf sg sh]. lia.
  - apply blocks_whole; [|by apply padded_octets]. rewrite Nat.mul_comm. apply Nat.Div0.mul_div_le.
Qed.

(** ** Words and digits *)

(** [rotate_right] is a rotation of 32 bits. *)
Lemma rotate_right_bits v bits i :
  0 <= v < 2 ^ 32 -> 0 < bits < 32 -> 0 <= i < 32 -> Z.testbit (rotate_right v bits) i = Z.testbit v ((i + bits) mod 32).
Proof.
  intros Hv Hb Hi. unfold rotate_right, u32. rewrite Z.lor_spec, Z.shiftr_spec, Z.mod_pow2_bits_low, Z.shiftl_spec by lia.
  destruct (Z.ltb_spec (i + bits) 32) as [H|H].
  - rewrite Z.mod_small by lia. by rewrite (Z.testbit_neg_r _ (i - (32 - bits))) by lia; rewrite orb_false_r.
  - replace ((i + bits) mod 32) with (i - (32 - bits)) by zdiv.
    rewrite (Z.bits_above_log2 v (i + bits)); [done|lia|]. destruct (Z.eq_dec v 0) as [->|]; [simpl; lia|].
    apply Z.log2_lt_pow2; [lia|]. eapply Z.lt_le_trans; [apply Hv|]. apply Z.pow_le_mono_r; lia.
Qed.

Lemma word_hex_digits v : length (word_hex v) = 8%nat /\ Forall (fun c => c ∈ hex_lower) (word_hex v).
Proof.
  assert (forall x, nth (Z.to_nat (Z.land x 0xf)) hex_lower x00 ∈ hex_lower) as H.
  { intros x. apply list_elem_of_In, nth_In. change 0xf with (Z.ones 4). rewrite Z.land_ones by lia.
    pose proof (Z.mod_pos_bound x (2 ^ 4)). change (length hex_lower) with 16%nat. lia. }
  split; [done|]. unfold word_hex. cbn [flat_map app]. repeat (constructor; [apply H|]). constructor.
Qed.

(** A digest is 64 lowercase hexadecimal digits. *)
Theorem sha256_shape input : length (sha256_hex input) = 64%nat /\ Forall (fun c => c ∈ hex_lower) (sha256_hex input).
Proof.
  unfold sha256_hex. destruct (tail_of _ _) as [n tail]. match goal with |- context [state_hex ?x] => generalize x as s end. intros s.
  unfold state_hex. cbn [flat_map]. rewrite !length_app. rewrite !(proj1 (word_hex_digits _)). split; [done|].
  repeat (apply Forall_app; split; [apply word_hex_digits|]). constructor.
Qed.
