(* ===== verification/Owned.v ===== *)
(** * Owned: the record of what netcfgd may take away

    [apply/owned.c], the fold of an apply's journal into the record, and the
    part of [host/state.c] that reads and writes it ([owned.json] in the run
    directory). The functions run in the reader's monad of [Field] for their
    requests for memory; a fold or a read that fails leaves no record behind, so
    a half-changed one has no counterpart. The names of a record are never
    [NULL]: every function that adds one refuses that. *)
From S2P Require Import Prelude Buf Lex Wire Value Op Plan Journal Json JsonWrite DocText Field Document Canonical DocumentOps Observed ObservedOps.
#[local] Open Scope string_scope.
#[local] Open Scope list_scope.
#[local] Open Scope Z_scope.
#[local] Open Scope field_scope.

(** [ncfg_owned_object_t], and what an event hook was last told. *)
Record owned_object := OwnedObject { ob_interface : list byte; ob_key : list byte; ob_origin : Z }.
Record hook_told := HookTold { ht_interface : list byte; ht_phase : Z; ht_value : list byte }.

Section Owned.
Context {I : Inet}.

(** [ncfg_owned_state_t]. *)
Record owned_state := OwnedState {
  ow_boot : option (list byte);
  ow_created_links : list (list byte);
  ow_addresses : list owned_object;
  ow_routes : list owned_object;
  ow_backends : list (value observed_backend_type);
  ow_backend_restarts : list backend_restart;
  ow_dns : list (value applied_dns_type);
  ow_forwarding : list (list byte);
  ow_privacy : list (list byte);
  ow_accept_ra : list (list byte);
  ow_hook_state : list hook_told;
  ow_qdisc : list (list byte);
  ow_ingress : list (list byte) }.

Definition owned_none : owned_state := OwnedState None [] [] [] [] [] [] [] [] [] [] [] [].

(** Assignments to one member. *)
Definition set_created_links l (o : owned_state) := OwnedState (ow_boot o) l (ow_addresses o) (ow_routes o) (ow_backends o) (ow_backend_restarts o) (ow_dns o) (ow_forwarding o) (ow_privacy o) (ow_accept_ra o) (ow_hook_state o) (ow_qdisc o) (ow_ingress o).
Definition set_addresses l (o : owned_state) := OwnedState (ow_boot o) (ow_created_links o) l (ow_routes o) (ow_backends o) (ow_backend_restarts o) (ow_dns o) (ow_forwarding o) (ow_privacy o) (ow_accept_ra o) (ow_hook_state o) (ow_qdisc o) (ow_ingress o).
Definition set_routes l (o : owned_state) := OwnedState (ow_boot o) (ow_created_links o) (ow_addresses o) l (ow_backends o) (ow_backend_restarts o) (ow_dns o) (ow_forwarding o) (ow_privacy o) (ow_accept_ra o) (ow_hook_state o) (ow_qdisc o) (ow_ingress o).
Definition set_backends l (o : owned_state) := OwnedState (ow_boot o) (ow_created_links o) (ow_addresses o) (ow_routes o) l (ow_backend_restarts o) (ow_dns o) (ow_forwarding o) (ow_privacy o) (ow_accept_ra o) (ow_hook_state o) (ow_qdisc o) (ow_ingress o).
Definition set_restarts l (o : owned_state) := OwnedState (ow_boot o) (ow_created_links o) (ow_addresses o) (ow_routes o) (ow_backends o) l (ow_dns o) (ow_forwarding o) (ow_privacy o) (ow_accept_ra o) (ow_hook_state o) (ow_qdisc o) (ow_ingress o).
Definition set_dns l (o : owned_state) := OwnedState (ow_boot o) (ow_created_links o) (ow_addresses o) (ow_routes o) (ow_backends o) (ow_backend_restarts o) l (ow_forwarding o) (ow_privacy o) (ow_accept_ra o) (ow_hook_state o) (ow_qdisc o) (ow_ingress o).
Definition set_forwarding l (o : owned_state) := OwnedState (ow_boot o) (ow_created_links o) (ow_addresses o) (ow_routes o) (ow_backends o) (ow_backend_restarts o) (ow_dns o) l (ow_privacy o) (ow_accept_ra o) (ow_hook_state o) (ow_qdisc o) (ow_ingress o).
Definition set_privacy l (o : owned_state) := OwnedState (ow_boot o) (ow_created_links o) (ow_addresses o) (ow_routes o) (ow_backends o) (ow_backend_restarts o) (ow_dns o) (ow_forwarding o) l (ow_accept_ra o) (ow_hook_state o) (ow_qdisc o) (ow_ingress o).
Definition set_accept_ra l (o : owned_state) := OwnedState (ow_boot o) (ow_created_links o) (ow_addresses o) (ow_routes o) (ow_backends o) (ow_backend_restarts o) (ow_dns o) (ow_forwarding o) (ow_privacy o) l (ow_hook_state o) (ow_qdisc o) (ow_ingress o).
Definition set_hook_state l (o : owned_state) := OwnedState (ow_boot o) (ow_created_links o) (ow_addresses o) (ow_routes o) (ow_backends o) (ow_backend_restarts o) (ow_dns o) (ow_forwarding o) (ow_privacy o) (ow_accept_ra o) l (ow_qdisc o) (ow_ingress o).
Definition set_qdisc l (o : owned_state) := OwnedState (ow_boot o) (ow_created_links o) (ow_addresses o) (ow_routes o) (ow_backends o) (ow_backend_restarts o) (ow_dns o) (ow_forwarding o) (ow_privacy o) (ow_accept_ra o) (ow_hook_state o) l (ow_ingress o).
Definition set_ingress l (o : owned_state) := OwnedState (ow_boot o) (ow_created_links o) (ow_addresses o) (ow_routes o) (ow_backends o) (ow_backend_restarts o) (ow_dns o) (ow_forwarding o) (ow_privacy o) (ow_accept_ra o) (ow_hook_state o) (ow_qdisc o) l.

(** ** Lists of names and of objects *)

(** The first that matches taken out, the order of the rest kept. *)
Fixpoint drop_first {A} (is_it : A -> bool) (l : list A) : list A :=
  match l with [] => [] | x :: l => if is_it x then l else x :: drop_first is_it l end.

(** [ncfg_owned_remember]. *)
Definition owned_remember (l : list (list byte)) (interface : cstr) (ours : bool) : R (list (list byte)) :=
  match interface with
  | None => refuse (REFUSED "no interface")
  | Some i =>
      let kept := drop_first (bytes_eqb (bytes i)) l in
      if ours then _ <- alloc; _ <- alloc; ret (kept ++ [bytes i]) else ret kept
  end.

Definition is_object (interface key : list byte) (o : owned_object) : bool := bytes_eqb (ob_interface o) interface && bytes_eqb (ob_key o) key.

(** [object_drop]; a name that is [NULL] would be compared by [strcmp] and is
    refused here. *)
Definition object_drop (l : list owned_object) (interface key : cstr) : R (list owned_object) :=
  match interface, key with
  | Some i, Some k => ret (drop_first (is_object (bytes i) (bytes k)) l)
  | _, _ => match l with [] => ret [] | _ => refuse (REFUSED "strcmp of NULL") end
  end.

Definition object_put (l : list owned_object) (interface key : cstr) (origin : Z) : R (list owned_object) :=
  match interface, key with
  | Some i, Some k =>
      _ <- alloc; _ <- alloc; _ <- alloc;
      ret (drop_first (is_object (bytes i) (bytes k)) l ++ [OwnedObject (bytes i) (bytes k) origin])
  | _, _ => refuse (REFUSED "no interface")
  end.

(** [ncfg_owned_note_hook_state]. *)
Definition owned_note_hook_state (owned : owned_state) (interface : cstr) (phase : Z) (told : cstr) : R owned_state :=
  match interface, told with
  | Some i, Some v =>
      let kept := drop_first (fun h => (ht_phase h =? phase) && bytes_eqb (ht_interface h) (bytes i)) (ow_hook_state owned) in
      _ <- alloc; _ <- alloc; _ <- alloc;
      ret (set_hook_state (kept ++ [HookTold (bytes i) phase (bytes v)]) owned)
  | _, _ => refuse (REFUSED "no interface")
  end.

(** ** Backends *)

(** The enumerators of [ncfg_backend_kind_t] and of [ncfg_hook_phase_t]. *)
Definition backend_number (k : backend_kind) : Z :=
  match k with
  | BACKEND_DHCP4 => NCFG_BACKEND_DHCP4 | BACKEND_DHCP6 => NCFG_BACKEND_DHCP6 | BACKEND_SUPPLICANT => NCFG_BACKEND_SUPPLICANT
  | BACKEND_ACCESS_POINT => NCFG_BACKEND_ACCESS_POINT | BACKEND_WIREGUARD => NCFG_BACKEND_WIREGUARD | BACKEND_PPPOE => NCFG_BACKEND_PPPOE
  | BACKEND_OPENVPN => NCFG_BACKEND_OPENVPN | BACKEND_DNS => NCFG_BACKEND_DNS | BACKEND_ROUTER_ADVERT => NCFG_BACKEND_ROUTER_ADVERT
  | BACKEND_LINK_LOCAL => NCFG_BACKEND_LINK_LOCAL | BACKEND_DHCP_SERVER => NCFG_BACKEND_DHCP_SERVER | BACKEND_UPNP => NCFG_BACKEND_UPNP
  end.

Definition phase_number (p : hook_phase) : Z :=
  match p with
  | HOOK_PHASE_PRE_UP => 0 | HOOK_PHASE_UP => 1 | HOOK_PHASE_POST_UP => 2 | HOOK_PHASE_PRE_DOWN => 3 | HOOK_PHASE_DOWN => 4
  | HOOK_PHASE_POST_DOWN => 5 | HOOK_PHASE_CARRIER => 6 | HOOK_PHASE_LEASE => 7 | HOOK_PHASE_ROAM => 8 | HOOK_PHASE_PORTAL => 9
  | HOOK_PHASE_DRIFT => 10
  end.

Definition named (o : option (list byte)) (interface : list byte) : bool := match o with Some n => bytes_eqb n interface | None => false end.

(** [backend_at], as whether the entry is the one. *)
Definition is_backend (kind : Z) (interface : list byte) (b : value observed_backend_type) : bool :=
  (get observed_backend_type "kind" b =? kind) && named (get observed_backend_type "interface" b) interface.

(** The entry of a backend that was started: zeroed but for three members. *)
Definition started_backend (kind : Z) (interface : list byte) : value observed_backend_type :=
  update observed_backend_type "running" (fun _ => true)
    (update observed_backend_type "interface" (fun _ => Some interface)
      (update observed_backend_type "kind" (fun _ => kind) (zero observed_backend_type))).

Definition backend_started (owned : owned_state) (kind : Z) (interface : cstr) : R owned_state :=
  match interface with
  | None => refuse (REFUSED "no interface")
  | Some i =>
      if existsb (is_backend kind (bytes i)) (ow_backends owned) then ret owned
      else _ <- alloc; _ <- alloc; ret (set_backends (ow_backends owned ++ [started_backend kind (bytes i)]) owned)
  end.

Definition backend_stopped (owned : owned_state) (kind : Z) (interface : cstr) : owned_state :=
  match interface with
  | None => owned
  | Some i => set_backends (drop_first (is_backend kind (bytes i)) (ow_backends owned)) owned
  end.

Definition is_restart (kind : Z) (interface : list byte) (r : backend_restart) : bool := (br_kind r =? kind) && named (br_interface r) interface.

Fixpoint count_up (kind : Z) (interface : list byte) (l : list backend_restart) : option (list backend_restart) :=
  match l with
  | [] => None
  | r :: l =>
      if is_restart kind interface r then Some (BackendRestart (br_kind r) (br_interface r) (br_count r + 1) :: l)
      else match count_up kind interface l with Some l => Some (r :: l) | None => None end
  end.

Definition restart_counted (owned : owned_state) (kind : Z) (interface : cstr) : R owned_state :=
  match interface with
  | None => refuse (REFUSED "no interface")
  | Some i =>
      match count_up kind (bytes i) (ow_backend_restarts owned) with
      | Some l => ret (set_restarts l owned)
      | None => _ <- alloc; _ <- alloc; ret (set_restarts (ow_backend_restarts owned ++ [BackendRestart kind (Some (bytes i)) 1]) owned)
      end
  end.

(** [restart_cleared], and whether there was a count to clear. *)
Definition restart_cleared (owned : owned_state) (kind : Z) (interface : option (list byte)) : bool * owned_state :=
  match interface with
  | None => (false, owned)
  | Some i =>
      (existsb (is_restart kind i) (ow_backend_restarts owned),
       set_restarts (drop_first (is_restart kind i) (ow_backend_restarts owned)) owned)
  end.

(** [restarts_cleared_by_running]: how many were cleared. *)
Definition clear_running (s : nat * owned_state) (b : value observed_backend_type) : nat * owned_state :=
  match (get observed_backend_type "interface" b : option (list byte)) with
  | Some i =>
      if get observed_backend_type "running" b then
        let '(cleared, owned) := restart_cleared s.2 (get observed_backend_type "kind" b) (Some i) in
        ((s.1 + if cleared then 1 else 0)%nat, owned)
      else s
  | None => s
  end.

Definition restarts_cleared_by_running (owned : owned_state) (observed : option (value observed_type)) : nat * owned_state :=
  match observed with
  | None => (0%nat, owned)
  | Some o => foldl clear_running (0%nat, owned) (get observed_type "backends" o : list (value observed_backend_type))
  end.

(** ** One action: [ncfg_owned_absorb] *)

Definition into {A} (r : R A) (put : A -> owned_state -> owned_state) (owned : owned_state) : R owned_state := x <- r; ret (put x owned).

Definition owned_absorb {B} (owned : owned_state) (o : op B) : R owned_state :=
  match o with
  | LINK_CREATE name _ => into (owned_remember (ow_created_links owned) name true) set_created_links owned
  | LINK_DELETE name => into (owned_remember (ow_created_links owned) name false) set_created_links owned
  | ADDR_ADD iface addr _ _ => into (object_put (ow_addresses owned) iface addr NCFG_ORIGIN_STATIC) set_addresses owned
  | ADDR_DEL iface addr => into (object_drop (ow_addresses owned) iface addr) set_addresses owned
  | ROUTE_ADD iface rt =>
      match rt with
      | None => refuse (REFUSED "no route")
      | Some r => into (object_put (ow_routes owned) iface (rt_destination r) NCFG_ORIGIN_STATIC) set_routes owned
      end
  | ROUTE_DEL iface rt =>
      match rt with
      | None => refuse (REFUSED "no route")
      | Some r => into (object_drop (ow_routes owned) iface (rt_destination r)) set_routes owned
      end
  | SYSCTL_SET_FORWARDING iface enabled => into (owned_remember (ow_forwarding owned) iface enabled) set_forwarding owned
  | SYSCTL_SET_PRIVACY iface prefer => into (owned_remember (ow_privacy owned) iface prefer) set_privacy owned
  | SYSCTL_SET_ACCEPT_RA iface v => into (owned_remember (ow_accept_ra owned) iface (negb (v =? 1))) set_accept_ra owned
  | QDISC_SET iface _ _ _ => into (owned_remember (ow_qdisc owned) iface true) set_qdisc owned
  | QDISC_RESET iface => into (owned_remember (ow_qdisc owned) iface false) set_qdisc owned
  | INGRESS_REDIRECT iface _ => into (owned_remember (ow_ingress owned) iface true) set_ingress owned
  | INGRESS_REDIRECT_CLEAR iface => into (owned_remember (ow_ingress owned) iface false) set_ingress owned
  | HOOK_RUN iface phase _ told =>
      match told, phase with
      | Some _, (HOOK_PHASE_LEASE | HOOK_PHASE_CARRIER) => owned_note_hook_state owned iface (phase_number phase) told
      | _, _ => ret owned
      end
  | BACKEND_START kind iface =>
      owned <- restart_counted owned (backend_number kind) iface;
      backend_started owned (backend_number kind) iface
  | BACKEND_STOP kind iface =>
      let owned := (restart_cleared owned (backend_number kind) (bytes <$> iface)).2 in
      ret (backend_stopped owned (backend_number kind) iface)
  | _ => ret owned
  end.

(** ** A whole journal *)

(** [ncfg_dns_scope_t]. *)
Definition dns_scope := (option (list byte) * option (value observed_dns_policy_type))%type.

(** [note_dns]: the delivered scopes through the model's own tables. *)
Definition borrowed_scopes (scopes : list dns_scope) : list (value applied_dns_type) :=
  omap (fun s : dns_scope => match s with (Some name, Some policy) => Some (Some name, (policy, tt)) | _ => None end) scopes.

Definition note_dns (realloc_ok : Z -> bool) (malloc_ok : bool) (owned : owned_state) (scopes : list dns_scope) : R owned_state :=
  _ <- (match scopes with [] => ret tt | _ => alloc end);
  let borrowed := borrowed_scopes scopes in
  let rendered := w_buf (write_calls realloc_ok (write_init (buf_init 0)) (applied_dns_write borrowed)) in
  if buf_failed rendered then refuse (REFUSED "not rendered")
  else
    match json_parse realloc_ok malloc_ok (buf_text rendered) with
    | Some (inr json) =>
        copied <- (match borrowed with [] => ret [] | _ => applied_dns_read json (json_root json) end);
        ret (set_dns copied owned)
    | _ => refuse (REFUSED "not parsed")
    end.

(** [action_with_id]. *)
Definition action_with_id {B} (actions : list (action B)) (id : Z) : option (action B) := find (fun a => ac_id a =? id) actions.

Definition is_dns_apply {B} (o : op B) : bool := match o with DNS_APPLY _ _ => true | _ => false end.

(** The walk of [fold] over the journal, with whether a [dns.apply] reached the
    machine. *)
Fixpoint fold_records {B} (actions : list (action B)) (records : list record) (owned : owned_state) (delivered_dns : bool) : R (owned_state * bool) :=
  match records with
  | [] => ret (owned, delivered_dns)
  | r :: records =>
      match action_with_id actions (rc_id r) with
      | None => fold_records actions records owned delivered_dns
      | Some a =>
          let delivered_dns := match rc_outcome r with
            | OUTCOME_DONE | OUTCOME_REVERTED => if is_dns_apply (ac_op a) then true else delivered_dns
            | _ => delivered_dns
            end in
          match rc_outcome r, ac_inverse a with
          | OUTCOME_DONE, _ => owned <- owned_absorb owned (ac_op a); fold_records actions records owned delivered_dns
          | OUTCOME_REVERTED, Some inverse => owned <- owned_absorb owned inverse; fold_records actions records owned delivered_dns
          | _, _ => fold_records actions records owned delivered_dns
          end
      end
  end.

(** [fold]: [None] where there is nothing to record. *)
Definition fold {B} (realloc_ok : Z -> bool) (malloc_ok : bool) (actions : list (action B)) (records : list record) (delivered : option (list dns_scope))
    (observed : option (value observed_type)) (owned : owned_state) : R (option owned_state) :=
  let '(cleared, owned) := restarts_cleared_by_running owned observed in
  match records, cleared with
  | [], O => ret None
  | _, _ =>
      '(owned, delivered_dns) <- fold_records actions records owned false;
      match delivered with
      | Some scopes =>
          if (delivered_dns : bool) then owned <- note_dns realloc_ok malloc_ok owned scopes; ret (Some owned) else ret (Some owned)
      | None => ret (Some owned)
      end
  end.

(** ** The record as text: [host/state.c] *)

Section Text.
Context (d : doc).

Definition key_is (node : Z) (name : string) : bool := match json_key d node with Some k => bytes_eqb k (bytes name) | None => false end.

(** [string_of]: a copy that ends where a C string does. *)
Definition string_of (node : Z) : R (list byte) :=
  match json_string d node with None => refuse (REFUSED "not a string") | Some s => _ <- alloc; ret (to_nul s) end.

(** The nodes of a container, by position. *)
Definition nodes_of (node : Z) : list Z := map (json_at d node) (seq 0 (Z.to_nat (json_count d node))).

Fixpoint read_each {A} (read : Z -> R A) (nodes : list Z) : R (list A) :=
  match nodes with
  | [] => ret []
  | n :: nodes => x <- read n; rest <- read_each read nodes; ret (x :: rest)
  end.

Definition read_list_of {A} (allocates : bool) (read : Z -> R A) (node : Z) : R (list A) :=
  if negb (bool_decide (json_get_type d node = NCFG_JSON_ARRAY)) then refuse (REFUSED "not a list")
  else _ <- (if allocates && negb (json_count d node =? 0) then alloc else ret tt); read_each read (nodes_of node).

(** [read_strings]. *)
Definition read_strings (node : Z) : R (list (list byte)) := read_list_of false string_of node.

Definition only_members (node : Z) (names : list string) : bool := forallb (fun child => existsb (key_is child) names) (nodes_of node).

(** [origin_from_name], [backend_kind_from_name]: through the model's tables. *)
Definition from_words (words : list string) (word : list byte) : R Z :=
  match index_of_word words word 0 with Some v => ret v | None => refuse (REFUSED "not a word") end.

(** [read_objects]. *)
Definition read_object (element : Z) : R owned_object :=
  if negb (bool_decide (json_get_type d element = NCFG_JSON_OBJECT)) then refuse (REFUSED "not an object")
  else if negb (only_members element ["interface"; "key"; "origin"]) then refuse (REFUSED "another member")
  else
    interface <- string_of (json_member d element (bytes "interface"));
    key <- string_of (json_member d element (bytes "key"));
    word <- string_of (json_member d element (bytes "origin"));
    origin <- from_words origin_words word;
    ret (OwnedObject interface key origin).

Definition read_objects (node : Z) : R (list owned_object) := read_list_of true read_object node.

(** [read_restarts]. *)
Definition read_restart (element : Z) : R backend_restart :=
  if negb (bool_decide (json_get_type d element = NCFG_JSON_ARRAY)) || negb (json_count d element =? 3) then refuse (REFUSED "not three")
  else
    word <- string_of (json_at d element 0);
    kind <- from_words backend_kind_words word;
    interface <- string_of (json_at d element 1);
    let number := json_at d element 2 in
    let count := json_int d number (-1) in
    if negb (bool_decide (json_get_type d number = NCFG_JSON_NUMBER)) || (count <? 0) || (4294967295 <? count) then refuse (REFUSED "not a count")
    else ret (BackendRestart kind (Some interface) count).

Definition read_restarts (node : Z) : R (list backend_restart) := read_list_of true read_restart node.

(** [read_hook_state]. *)
Definition read_hook (element : Z) : R hook_told :=
  if negb (bool_decide (json_get_type d element = NCFG_JSON_OBJECT)) then refuse (REFUSED "not an object")
  else if negb (only_members element ["interface"; "phase"; "value"]) then refuse (REFUSED "another member")
  else
    interface <- string_of (json_member d element (bytes "interface"));
    told <- string_of (json_member d element (bytes "value"));
    word <- string_of (json_member d element (bytes "phase"));
    match hook_phase_from_name (Some (String.string_of_list_byte word)) with
    | Some phase => ret (HookTold interface phase told)
    | None => refuse (REFUSED "not a phase")
    end.

Definition read_hook_state (node : Z) : R (list hook_told) := read_list_of true read_hook node.

Definition owned_members : list string :=
  ["boot"; "created_links"; "addresses"; "routes"; "backends"; "backend_restarts"; "dns"; "forwarding"; "privacy"; "accept_ra";
   "hook_state"; "qdisc"; "ingress"].

(** A member that may be absent. *)
Definition member_or {A} (root : Z) (name : string) (read : Z -> R A) (absent : A) : R A :=
  let member := json_member d root (bytes name) in if member =? NCFG_JSON_NONE then ret absent else read member.

(** [read_owned_text], given the parsed text. *)
Definition read_owned (root : Z) : R owned_state :=
  if negb (bool_decide (json_get_type d root = NCFG_JSON_OBJECT)) then refuse (REFUSED "not an object")
  else if negb (only_members root owned_members) then refuse (REFUSED "another member")
  else
    boot <- member_or root "boot" (fun n => s <- string_of n; ret (Some s)) None;
    created_links <- member_or root "created_links" read_strings [];
    addresses <- member_or root "addresses" read_objects [];
    routes <- member_or root "routes" read_objects [];
    backends <- member_or root "backends" (observed_backends_read d) [];
    restarts <- member_or root "backend_restarts" read_restarts [];
    dns <- member_or root "dns" (applied_dns_read d) [];
    forwarding <- member_or root "forwarding" read_strings [];
    privacy <- member_or root "privacy" read_strings [];
    accept_ra <- member_or root "accept_ra" read_strings [];
    hook_state <- member_or root "hook_state" read_hook_state [];
    qdisc <- member_or root "qdisc" read_strings [];
    ingress <- member_or root "ingress" read_strings [];
    ret (OwnedState boot created_links addresses routes backends restarts dns forwarding privacy accept_ra hook_state qdisc ingress).
End Text.

(** [STATE_FILE_MAX]: a record past this is a fault rather than content. *)
Definition STATE_FILE_MAX : Z := 16 * 1024 * 1024.

(** The room [ncfg_host_read_file] makes for a file of [length] bytes: from 8
    KiB, twice as much at a time, up to two bytes past the ceiling; more is asked
    for when what there is has been filled. [fuel] bounds the growths; 64 are
    more than any ceiling that fits 64 bits takes. *)
Fixpoint read_room (fuel : nat) (realloc_ok : Z -> bool) (ceiling length capacity : Z) : bool :=
  if length + 1 <? capacity then true
  else
    match fuel with
    | O => false
    | S fuel =>
        let want := Z.min (if capacity =? 0 then 8192 else capacity * 2) (ceiling + 2) in
        if want <=? capacity then false
        else if realloc_ok want then read_room fuel realloc_ok ceiling length want
        else false
    end.

(** [ncfg_host_read_file]: nothing of a file past the ceiling, or where the
    room for it was refused. *)
Definition host_read_file (realloc_ok : Z -> bool) (ceiling : Z) (file : option (list byte)) : option (list byte) :=
  match file with
  | Some text =>
      if (zlen text <=? ceiling) && read_room 64 realloc_ok ceiling (zlen text) 0 then Some text else None
  | None => None
  end.

(** [ncfg_owned_read]: an absent file, one past the ceiling, one that does not
    read and one of another boot are a record of nothing. [now] is the boot id
    of the kernel, where it gives one. *)
Definition owned_read (realloc_ok : Z -> bool) (malloc_ok : bool) (grant : nat -> bool) (file now : option (list byte)) : owned_state :=
  match host_read_file realloc_ok STATE_FILE_MAX file with
  | None => owned_none
  | Some text =>
      let owned := match json_parse realloc_ok malloc_ok text with
        | Some (inr json) => match read_owned json (json_root json) grant 0%nat with inr (owned, _) => owned | inl _ => owned_none end
        | _ => owned_none
        end in
      match ow_boot owned, now with
      | Some ((_ :: _) as boot), Some now => if bytes_eqb now boot then owned else owned_none
      | _, _ => owned
      end
  end.

Definition write_strings (name : string) (items : list (list byte)) : list call :=
  MEMBER (Some (bytes name)) :: in_array (map (fun i => [STRING (Some i)]) items).

Definition member_string (name : string) (v : list byte) : list call := [MEMBER (Some (bytes name)); STRING (Some v)].

Definition write_object_of (o : owned_object) : list call :=
  in_object (member_string "interface" (ob_interface o) ++ member_string "key" (ob_key o) ++
    match origin_name (ob_origin o) with Some word => member_string "origin" word | None => [] end).

Definition write_objects (name : string) (items : list owned_object) : list call :=
  MEMBER (Some (bytes name)) :: in_array (map write_object_of items).

Definition write_restart (r : backend_restart) : list call :=
  in_array [match ObservedOps.backend_kind_name (br_kind r) with Some word => [STRING (Some word)] | None => [] end;
            [STRING (Some (default [] (br_interface r)))]; [INT (br_count r)]].

Definition write_hook (h : hook_told) : list call :=
  in_object (member_string "interface" (ht_interface h) ++
    match hook_phase_word (ht_phase h) with Some word => member_string "phase" (bytes word) | None => [] end ++
    member_string "value" (ht_value h)).

(** The calls of [ncfg_owned_write]; the boot is stamped here. *)
Definition write_owned (boot : option (list byte)) (owned : owned_state) : list call :=
  in_object (member_string "boot" (default [] boot) ++
    write_strings "created_links" (ow_created_links owned) ++
    write_objects "addresses" (ow_addresses owned) ++
    write_objects "routes" (ow_routes owned) ++
    (MEMBER (Some (bytes "backends")) :: observed_backends_write (ow_backends owned)) ++
    (MEMBER (Some (bytes "backend_restarts")) :: in_array (map write_restart (ow_backend_restarts owned))) ++
    (MEMBER (Some (bytes "dns")) :: applied_dns_write (ow_dns owned)) ++
    write_strings "forwarding" (ow_forwarding owned) ++
    write_strings "privacy" (ow_privacy owned) ++
    write_strings "accept_ra" (ow_accept_ra owned) ++
    (MEMBER (Some (bytes "hook_state")) :: in_array (map write_hook (ow_hook_state owned))) ++
    write_strings "qdisc" (ow_qdisc owned) ++
    write_strings "ingress" (ow_ingress owned)).

Definition STATE_BUILD_MAX : Z := 32 * 1024 * 1024.

(** [ncfg_owned_write]: the text that replaces the file, where there is one. *)
Definition owned_write (realloc_ok : Z -> bool) (boot : option (list byte)) (owned : owned_state) : option (list byte) :=
  let w := write_calls realloc_ok (write_init (buf_init STATE_BUILD_MAX)) (write_owned boot owned) in
  if write_done w then
    match json_pretty realloc_ok (buf_text (w_buf w)) (buf_init 0) with
    | (true, laid_out) => Some (buf_text laid_out)
    | (false, _) => None
    end
  else None.

(** [ncfg_owned_update] with the lock held: whether it answered yes, and the
    file after it. [saved] is whether the file could be replaced, which happens
    whole or not at all. *)
Definition owned_update (realloc_ok : Z -> bool) (malloc_ok saved : bool) (grant : nat -> bool) (now : option (list byte))
    (change : owned_state -> R (option owned_state)) (file : option (list byte)) : bool * option (list byte) :=
  match change (owned_read realloc_ok malloc_ok grant file now) grant 0%nat with
  | inr (Some owned, _) =>
      match owned_write realloc_ok now owned with
      | Some text => if saved then (true, Some text) else (false, file)
      | None => (false, file)
      end
  | _ => (false, file)
  end.
End Owned.
