(* ===== verification/OwnedSpec.v ===== *)
(** * OwnedSpec: the record claims what is in effect, and nothing else

    The record against an abstract one: a set of claims, each "netcfgd may take
    this away". Every operation makes or gives up one claim or none, and the
    fold of a journal is the replay of the operations in effect. *)
From stdpp Require Import sets.
From S2P Require Import Prelude Buf Lex LexFacts Wire Value InetText Op Plan Journal Json JsonWrite DocText Field FieldSpec Document DocumentOps DocumentRoundtrip Observed ObservedOps Linkset LinksetSpec Owned.
#[local] Open Scope Z_scope.

(** ** Lists with a key *)

Section Keys.
Context {A K : Type} `{EqDecision K} (key : A -> K).

(** Taking out the first of a key, where each key is there once. *)
Lemma drop_first_key is_it k l :
  (forall x, is_it x = true <-> key x = k) -> NoDup (map key l) ->
  NoDup (map key (drop_first is_it l)) /\ forall y, y ∈ map key (drop_first is_it l) <-> y ∈ map key l /\ y <> k.
Proof.
  intros Hk. induction l as [|x l IH]; intros Hnd; [split; [done|]; set_solver|]. cbn [map drop_first] in *.
  apply NoDup_cons in Hnd as [Hx Hnd]. destruct (is_it x) eqn:E.
  - apply Hk in E. split; [done|]. intros y. rewrite elem_of_cons. split; [|set_solver]. intros Hy. split; [by right|]. intros ->. by rewrite E in Hx.
  - specialize (IH Hnd) as [IH1 IH2]. assert (key x <> k) by (intros Hc%Hk; congruence). cbn [map]. split.
    + constructor; [|done]. rewrite IH2. tauto.
    + intros y. rewrite !elem_of_cons, IH2. naive_solver.
Qed.

(** And putting one of that key at the end. *)
Lemma replace_key is_it k l v :
  (forall x, is_it x = true <-> key x = k) -> key v = k -> NoDup (map key l) ->
  NoDup (map key (drop_first is_it l ++ [v])) /\ forall y, y ∈ map key (drop_first is_it l ++ [v]) <-> y = k \/ y ∈ map key l.
Proof.
  intros Hk Hv Hnd. destruct (drop_first_key is_it k l Hk Hnd) as [H1 H2]. rewrite map_app. cbn [map]. rewrite Hv. split.
  - apply NoDup_app. split_and!; [done| |apply NoDup_singleton]. intros y Hy. apply H2 in Hy. set_solver.
  - intros y. rewrite elem_of_app, H2, list_elem_of_singleton. destruct (decide (y = k)); tauto.
Qed.
End Keys.

(** ** The abstract record *)

(** What netcfgd may take away: a link it made, an address or a route it put
    on, a knob it turned, a backend it started. *)
Inductive claim :=
| LINK (interface : list byte)
| ADDRESS (interface key : list byte)
| ROUTE (interface key : list byte)
| FORWARDING (interface : list byte)
| PRIVACY (interface : list byte)
| ACCEPT_RA (interface : list byte)
| QDISC (interface : list byte)
| INGRESS (interface : list byte)
| BACKEND (kind : Z) (interface : list byte).

#[export] Instance claim_eq_dec : EqDecision claim.
Proof. solve_decision. Defined.

(** The claim an operation makes ([true]) or gives up. *)
Definition effect {B} (o : op B) : option (claim * bool) :=
  match o with
  | LINK_CREATE (Some i) _ => Some (LINK (bytes i), true)
  | LINK_DELETE (Some i) => Some (LINK (bytes i), false)
  | ADDR_ADD (Some i) (Some a) _ _ => Some (ADDRESS (bytes i) (bytes a), true)
  | ADDR_DEL (Some i) (Some a) => Some (ADDRESS (bytes i) (bytes a), false)
  | ROUTE_ADD (Some i) (Some r) => match rt_destination r with Some k => Some (ROUTE (bytes i) (bytes k), true) | None => None end
  | ROUTE_DEL (Some i) (Some r) => match rt_destination r with Some k => Some (ROUTE (bytes i) (bytes k), false) | None => None end
  | SYSCTL_SET_FORWARDING (Some i) on => Some (FORWARDING (bytes i), on)
  | SYSCTL_SET_PRIVACY (Some i) on => Some (PRIVACY (bytes i), on)
  | SYSCTL_SET_ACCEPT_RA (Some i) v => Some (ACCEPT_RA (bytes i), negb (v =? 1))
  | QDISC_SET (Some i) _ _ _ => Some (QDISC (bytes i), true)
  | QDISC_RESET (Some i) => Some (QDISC (bytes i), false)
  | INGRESS_REDIRECT (Some i) _ => Some (INGRESS (bytes i), true)
  | INGRESS_REDIRECT_CLEAR (Some i) => Some (INGRESS (bytes i), false)
  | BACKEND_START k (Some i) => Some (BACKEND (backend_number k) (bytes i), true)
  | BACKEND_STOP k (Some i) => Some (BACKEND (backend_number k) (bytes i), false)
  | _ => None
  end.

(** The operations that say what they act on, as a plan's do. *)
Definition names_it {B} (o : op B) : bool :=
  match o with
  | LINK_CREATE i _ | LINK_DELETE i | SYSCTL_SET_FORWARDING i _ | SYSCTL_SET_PRIVACY i _ | SYSCTL_SET_ACCEPT_RA i _
  | QDISC_SET i _ _ _ | QDISC_RESET i | INGRESS_REDIRECT i _ | INGRESS_REDIRECT_CLEAR i | BACKEND_START _ i | BACKEND_STOP _ i
  | HOOK_RUN i _ _ _ => bool_decide (i <> None)
  | ADDR_ADD i k _ _ | ADDR_DEL i k => bool_decide (i <> None /\ k <> None)
  | ROUTE_ADD i r | ROUTE_DEL i r => match r with Some r => bool_decide (i <> None /\ rt_destination r <> None) | None => false end
  | _ => true
  end.

(** The operations a journal says are in effect, in its order. *)
Definition in_effect {B} (actions : list (action B)) (r : record) : option (op B) :=
  a ← action_with_id actions (rc_id r);
  match rc_outcome r with OUTCOME_DONE => Some (ac_op a) | OUTCOME_REVERTED => ac_inverse a | _ => None end.

(** Whether a claim stands after an operation, and after a run of them: the
    last one to speak of it decides. *)
Definition after {B} (c : claim) (held : Prop) (o : op B) : Prop :=
  match effect o with Some (c', made) => if decide (c = c') then made = true else held | None => held end.

Definition replay {B} (ops : list (op B)) (c : claim) (held : Prop) : Prop := foldl (after c) held ops.

Section Owned.
Context {I : Inet}.

Definition object_key (o : owned_object) := (ob_interface o, ob_key o).
Definition backend_key (b : value observed_backend_type) : Z * option (list byte) :=
  (get observed_backend_type "kind" b, get observed_backend_type "interface" b).

Definition holds (o : owned_state) (c : claim) : Prop :=
  match c with
  | LINK i => i ∈ map id (ow_created_links o)
  | ADDRESS i k => (i, k) ∈ map object_key (ow_addresses o)
  | ROUTE i k => (i, k) ∈ map object_key (ow_routes o)
  | FORWARDING i => i ∈ map id (ow_forwarding o)
  | PRIVACY i => i ∈ map id (ow_privacy o)
  | ACCEPT_RA i => i ∈ map id (ow_accept_ra o)
  | QDISC i => i ∈ map id (ow_qdisc o)
  | INGRESS i => i ∈ map id (ow_ingress o)
  | BACKEND k i => (k, Some i) ∈ map backend_key (ow_backends o)
  end.

(** Nothing is recorded twice. *)
Record owned_wf (o : owned_state) : Prop := OwnedWf {
  wf_created_links : NoDup (map id (ow_created_links o));
  wf_addresses : NoDup (map object_key (ow_addresses o));
  wf_routes : NoDup (map object_key (ow_routes o));
  wf_forwarding : NoDup (map id (ow_forwarding o));
  wf_privacy : NoDup (map id (ow_privacy o));
  wf_accept_ra : NoDup (map id (ow_accept_ra o));
  wf_qdisc : NoDup (map id (ow_qdisc o));
  wf_ingress : NoDup (map id (ow_ingress o));
  wf_backends : NoDup (map backend_key (ow_backends o)) }.

(** A list after a key was put in it or taken out. *)
Definition changed {A K} (key : A -> K) (k : K) (made : bool) (l l' : list A) : Prop :=
  NoDup (map key l') /\ forall y, y ∈ map key l' <-> if made then y = k \/ y ∈ map key l else y ∈ map key l /\ y <> k.

Lemma remember_changes l i made : NoDup (map id l) -> answers (owned_remember l (Some i) made) (changed id (bytes i) made l).
Proof.
  intros Hnd. unfold owned_remember. assert (forall x, bytes_eqb (bytes i) x = true <-> id x = bytes i) as Hk by (intros x; rewrite bytes_eqb_true; naive_solver).
  destruct made; repeat step; [by apply replace_key|by apply drop_first_key].
Qed.

Lemma is_object_key i k o : is_object i k o = true <-> object_key o = (i, k).
Proof. unfold is_object, object_key. rewrite andb_true_iff, !bytes_eqb_true. naive_solver. Qed.

Lemma put_changes l i k origin :
  NoDup (map object_key l) -> answers (object_put l (Some i) (Some k) origin) (changed object_key (bytes i, bytes k) true l).
Proof. intros Hnd. unfold object_put. repeat step. apply replace_key; [apply is_object_key|done|done]. Qed.

Lemma drop_changes l i k : NoDup (map object_key l) -> answers (object_drop l (Some i) (Some k)) (changed object_key (bytes i, bytes k) false l).
Proof. intros Hnd. unfold object_drop. step. apply drop_first_key; [apply is_object_key|done]. Qed.

Lemma is_backend_key k i b : is_backend k i b = true <-> backend_key b = (k, Some i).
Proof.
  unfold is_backend, backend_key, named. rewrite andb_true_iff, Z.eqb_eq.
  destruct (get observed_backend_type "interface" b : option (list byte)) as [n|]; [rewrite bytes_eqb_true|]; naive_solver.
Qed.

(** What the counts of restarts and of hooks are does not matter to the claims. *)
Definition same_claims (o o' : owned_state) : Prop := (owned_wf o -> owned_wf o') /\ forall c, holds o' c <-> holds o c.

Lemma restarts_same o l : same_claims o (set_restarts l o).
Proof. split; [intros []; constructor; done|by intros []]. Qed.

Lemma hooks_same o l : same_claims o (set_hook_state l o).
Proof. split; [intros []; constructor; done|by intros []]. Qed.

Lemma dns_same o l : same_claims o (set_dns l o).
Proof. split; [intros []; constructor; done|by intros []]. Qed.

Lemma same_trans a b c : same_claims a b -> same_claims b c -> same_claims a c.
Proof. intros [Hab1 Hab2] [Hbc1 Hbc2]. split; [auto|]. intros x. by rewrite Hbc2, Hab2. Qed.

Lemma cleared_same o k i : same_claims o (restart_cleared o k i).2.
Proof. destruct i; [apply restarts_same|by split]. Qed.

Lemma running_same o observed : same_claims o (restarts_cleared_by_running o observed).2.
Proof.
  destruct observed as [v|]; [|by split]. unfold restarts_cleared_by_running.
  generalize (get observed_type "backends" v : list (value observed_backend_type)) as l. generalize 0%nat as n. intros n l. revert n o.
  induction l as [|b l IH]; intros n o; [by split|]. cbn [foldl]. unfold clear_running at 2. cbn [fst snd].
  destruct (get observed_backend_type "interface" b : option (list byte)) as [i|]; [|apply IH].
  destruct (get observed_backend_type "running" b : bool); [|apply IH].
  destruct (restart_cleared o (get observed_backend_type "kind" b) (Some i)) as [cleared o'] eqn:E.
  eapply same_trans; [|apply IH]. pose proof (cleared_same o (get observed_backend_type "kind" b) (Some i)) as Hs. by rewrite E in Hs.
Qed.

Lemma counted_same o k i : answers (restart_counted o k (Some i)) (same_claims o).
Proof.
  unfold restart_counted. destruct (count_up k (bytes i) (ow_backend_restarts o)); repeat step; apply restarts_same.
Qed.

(** ** One operation *)

(** The record after an operation that speaks of one claim. *)
Definition updated (c : claim) (made : bool) (o o' : owned_state) : Prop :=
  owned_wf o' /\ forall c', holds o' c' <-> if decide (c' = c) then made = true else holds o c'.

Lemma into_updates {A K} (key : A -> K) (put : list A -> owned_state -> owned_state) (r : R (list A)) k made l o c :
  owned_wf o -> answers r (changed key k made l) ->
  (forall l', changed key k made l l' -> updated c made o (put l' o)) ->
  answers (into r put o) (updated c made o).
Proof. intros Hwf Hr Hput. eapply answers_bind; [apply Hr|]. intros l' Hl'. step. by apply Hput. Qed.

(** One list changed, of the lists the claims are read from. *)
Ltac lists := cbn [holds ow_created_links ow_addresses ow_routes ow_forwarding ow_privacy ow_accept_ra ow_qdisc ow_ingress ow_backends
  set_created_links set_addresses set_routes set_forwarding set_privacy set_accept_ra set_qdisc set_ingress set_backends].

Ltac one_list :=
  match goal with Hc : changed _ _ ?made _ _, Hwf : owned_wf _ |- updated _ _ _ _ => clear -Hc Hwf;
    let H1 := fresh in let H2 := fresh in destruct Hc as [H1 H2];
    split; [destruct Hwf; by constructor|];
    let c := fresh "c" in intros c; case_decide; [subst c|destruct c; try reflexivity]; lists; rewrite H2; lazymatch made with true => idtac | false => idtac | _ => destruct made end; naive_solver
  end.

Ltac by_list Hchange := eapply into_updates; [done|apply Hchange; by match goal with H : owned_wf _ |- _ => destruct H end|]; intros l' Hc; one_list.

Ltac by_name n Hone := destruct n as [i|]; [|done]; eapply Hone; [done|]; by_list remember_changes.

Lemma backends_updated o k i made l' :
  owned_wf o -> changed backend_key (k, Some i) made (ow_backends o) l' -> updated (BACKEND k i) made o (set_backends l' o).
Proof. intros Hwf Hc. one_list. Qed.

Lemma started_updates o k i : owned_wf o -> answers (backend_started o k (Some i)) (updated (BACKEND k (bytes i)) true o).
Proof.
  intros Hwf. unfold backend_started. assert (existsb (is_backend k (bytes i)) (ow_backends o) = true <-> (k, Some (bytes i)) ∈ map backend_key (ow_backends o)) as He.
  { rewrite existsb_exists, list_elem_of_In, in_map_iff. setoid_rewrite is_backend_key. naive_solver. }
  destruct (existsb _ _).
  - step. split; [done|]. intros c. case_decide; [|done]. subst c. cbn [holds]. tauto.
  - assert (changed backend_key (k, Some (bytes i)) true (ow_backends o) (ow_backends o ++ [started_backend k (bytes i)])) as Hc; [|repeat step; by apply backends_updated].
    unfold changed. rewrite map_app. cbn [map]. change (backend_key (started_backend k (bytes i))) with (k, Some (bytes i)). split.
    + apply NoDup_app. split_and!; [apply Hwf| |apply NoDup_singleton]. intros y Hy Hy'%list_elem_of_singleton. subst y. apply He in Hy. discriminate.
    + intros y. rewrite elem_of_app, list_elem_of_singleton. tauto.
Qed.

Lemma stopped_updates o k i : owned_wf o -> updated (BACKEND k (bytes i)) false o (backend_stopped o k (Some i)).
Proof.
  intros Hwf. unfold backend_stopped.
  pose proof (drop_first_key backend_key (is_backend k (bytes i)) (k, Some (bytes i)) (ow_backends o) (is_backend_key k (bytes i)) (wf_backends _ Hwf)).
  by apply backends_updated.
Qed.

Lemma same_updated c made o o1 o2 : same_claims o o1 -> updated c made o1 o2 -> updated c made o o2.
Proof. intros [_ Hs] [Hwf Hu]. split; [done|]. intros c'. rewrite Hu. case_decide; [done|apply Hs]. Qed.

(** An operation that says what it acts on is absorbed, unless memory is
    refused: the record stays without repetitions, and it makes or gives up
    the claim the operation is about, and no other. *)
Lemma absorb_answers {B} (o : owned_state) (p : op B) :
  owned_wf o -> names_it p = true -> answers (owned_absorb o p) (fun o' => owned_wf o' /\ forall c, holds o' c <-> after c (holds o c) p).
Proof.
  intros Hwf Hn. assert (forall c made, effect p = Some (c, made) -> answers (owned_absorb o p) (updated c made o) ->
    answers (owned_absorb o p) (fun o' => owned_wf o' /\ forall c, holds o' c <-> after c (holds o c) p)) as Hone.
  { intros c made E Ha. eapply answers_mono; [exact Ha|]. intros o' [Hw Hu]. split; [done|]. intros c'. rewrite Hu. unfold after. by rewrite E. }
  assert (effect p = None -> answers (owned_absorb o p) (same_claims o) ->
    answers (owned_absorb o p) (fun o' => owned_wf o' /\ forall c, holds o' c <-> after c (holds o c) p)) as Hnone.
  { intros E Ha. eapply answers_mono; [exact Ha|]. intros o' [Hw Hs]. split; [auto|]. intros c. unfold after. by rewrite E. }
  destruct p; try (apply Hnone; [done|by apply answers_ret]).
  - by_name name Hone.
  - by_name name Hone.
  - destruct iface as [i|], addr as [k|]; try done. eapply Hone; [done|]. by_list put_changes.
  - destruct iface as [i|], addr as [k|]; try done. eapply Hone; [done|]. by_list drop_changes.
  - destruct rt as [r|]; [|done]. cbn [owned_absorb effect names_it] in *. destruct iface as [i|], (rt_destination r) as [k|]; try done.
    eapply Hone; [done|]. by_list put_changes.
  - destruct rt as [r|]; [|done]. cbn [owned_absorb effect names_it] in *. destruct iface as [i|], (rt_destination r) as [k|]; try done.
    eapply Hone; [done|]. by_list drop_changes.
  - destruct iface as [i|]; [|done]. eapply Hone; [done|]. eapply answers_bind; [apply counted_same|]. intros o' Hs.
    eapply answers_mono; [apply started_updates, Hs, Hwf|]. intros o2. by apply same_updated.
  - destruct iface as [i|]; [|done]. eapply Hone; [done|]. apply answers_ret. pose proof (cleared_same o (backend_number kind) (bytes <$> Some i)) as Hs.
    eapply same_updated; [exact Hs|]. apply stopped_updates, Hs, Hwf.
  - by_name iface Hone.
  - by_name iface Hone.
  - by_name iface Hone.
  - by_name iface Hone.
  - by_name iface Hone.
  - by_name iface Hone.
  - by_name iface Hone.
  - destruct iface as [i|]; [|done]. apply Hnone; [done|]. cbn [owned_absorb].
    destruct value as [v|]; [|by apply answers_ret]. destruct phase; try (by apply answers_ret); unfold owned_note_hook_state; repeat step; apply hooks_same.
Qed.

(** ** A whole journal *)

Definition action_named {B} (a : action B) : bool := names_it (ac_op a) && match ac_inverse a with Some i => names_it i | None => true end.

Lemma replay_iff {B} (ops : list (op B)) c (P Q : Prop) : (P <-> Q) -> replay ops c P <-> replay ops c Q.
Proof.
  unfold replay. revert P Q. induction ops as [|o ops IH]; intros P Q H; [done|]. cbn [foldl]. apply IH. unfold after.
  destruct (effect o) as [[c' made]|]; [by case_decide|done].
Qed.

Lemma in_effect_named {B} (actions : list (action B)) r o :
  forallb action_named actions = true -> in_effect actions r = Some o -> names_it o = true.
Proof.
  rewrite forallb_forall. intros Hn. unfold in_effect, action_with_id. destruct (find _ actions) as [a|] eqn:E; [|done].
  apply find_some in E as [Ha _]. apply Hn in Ha. unfold action_named in Ha. apply andb_prop in Ha as [H1 H2]. cbn.
  destruct (rc_outcome r); intros Hi; try discriminate; [by injection Hi as <-|by rewrite Hi in H2].
Qed.

Lemma records_answers {B} (actions : list (action B)) records o delivered :
  owned_wf o -> forallb action_named actions = true ->
  answers (fold_records actions records o delivered)
    (fun s => owned_wf s.1 /\ forall c, holds s.1 c <-> replay (omap (in_effect actions) records) c (holds o c)).
Proof.
  intros Hwf Hn. revert o delivered Hwf. induction records as [|r records IH]; intros o delivered Hwf; [by apply answers_ret|].
  cbn [fold_records omap list_omap]. pose proof (fun p => in_effect_named actions r p Hn) as Hname. unfold in_effect at 1 in Hname. unfold in_effect at 1.
  destruct (action_with_id actions (rc_id r)) as [a|]; [|by apply IH]. cbn [mbind option_bind] in *.
  assert (forall p dns, names_it p = true -> answers (bind (owned_absorb o p) (fun o' => fold_records actions records o' dns))
    (fun s => owned_wf s.1 /\ forall c, holds s.1 c <-> replay (p :: omap (in_effect actions) records) c (holds o c))) as Hop.
  { intros p dns Hp. eapply answers_bind; [by apply absorb_answers|]. intros o' [Hwf' Ho']. eapply answers_mono; [by apply IH|].
    intros s [Hs1 Hs2]. split; [done|]. intros c. rewrite Hs2.
    apply (replay_iff (omap (in_effect actions) records) c (holds o' c) (after c (holds o c) p)), Ho'. }
  destruct (rc_outcome r); try (by apply IH); [by apply Hop, Hname|].
  destruct (ac_inverse a) as [i|]; [by apply Hop, Hname|by apply IH].
Qed.

Lemma fold_cases {B} realloc_ok malloc_ok (actions : list (action B)) records delivered observed owned :
  (records = [] /\ fold realloc_ok malloc_ok actions records delivered observed owned = ret None) \/
  fold realloc_ok malloc_ok actions records delivered observed owned =
    bind (fold_records actions records (restarts_cleared_by_running owned observed).2 false) (fun x => let '(o, dns) := x in
      match delivered with
      | Some scopes => if (dns : bool) then bind (note_dns realloc_ok malloc_ok o scopes) (fun o => ret (Some o)) else ret (Some o)
      | None => ret (Some o)
      end).
Proof. unfold fold. destruct (restarts_cleared_by_running owned observed) as [cleared o], records, cleared; auto. Qed.

(** Copying what DNS was delivered changes no claim. *)
Lemma note_dns_same realloc_ok malloc_ok o scopes grant n :
  match note_dns realloc_ok malloc_ok o scopes grant n with inr (o', _) => same_claims o o' | inl _ => True end.
Proof.
  unfold note_dns. unfold bind at 1. destruct (match scopes with [] => ret tt | _ => alloc end grant n) as [e|[[] m]]; [done|].
  cbv zeta. generalize (borrowed_scopes scopes) as borrowed. intros borrowed.
  destruct (buf_failed _); [done|]. destruct (json_parse _ _ _) as [[e|json]|]; [done| |done]. unfold bind.
  destruct (match borrowed with [] => ret [] | _ => applied_dns_read json (json_root json) end grant m) as [e|[copied k]]; [done|]. apply dns_same.
Qed.

(** What is claimed afterwards was claimed before, or an operation in effect
    made the claim. *)
Lemma replay_earned {B} (ops : list (op B)) c (held : Prop) : replay ops c held -> held \/ exists o, o ∈ ops /\ effect o = Some (c, true).
Proof.
  unfold replay. revert held. induction ops as [|o ops IH]; intros held H; [by left|]. cbn [foldl] in H.
  destruct (IH _ H) as [Ha|(o' & Ho & He)]; [|right; exists o'; split; [by right|done]]. unfold after in Ha.
  destruct (effect o) as [[c' made]|] eqn:E; [|by left]. case_decide; [|by left]. subst. right. exists o. split; [by left|done].
Qed.

Lemma records_earned {B} (actions : list (action B)) records c held :
  replay (omap (in_effect actions) records) c held -> held \/ exists r o, r ∈ records /\ in_effect actions r = Some o /\ effect o = Some (c, true).
Proof.
  intros [Hc|(o & Ho & He)]%replay_earned; [by left|right]. apply list_elem_of_omap in Ho as (r & Hr & Ho). by exists r, o.
Qed.

(** C10: the record is the replay of the journal. When the fold of an apply's
    journal into a record without repetitions answers, the record it leaves
    has none either, and a claim to take something away stands in it exactly
    when the last operation in effect that spoke of it made it (an action that
    was done, or the inverse of one that was reverted, in the journal's
    order), or none spoke of it and it stood before. Failed, skipped and unmet
    actions count for nothing: what is claimed afterwards was claimed before,
    or an operation in effect made the claim. There is nothing to record only for an empty
    journal, and the fold fails only when memory was refused or a DNS delivery
    could not be copied. *)
Theorem fold_claims {B} realloc_ok malloc_ok (actions : list (action B)) records delivered observed owned grant n :
  owned_wf owned -> forallb action_named actions = true ->
  match fold realloc_ok malloc_ok actions records delivered observed owned grant n with
  | inr (Some owned', _) =>
      owned_wf owned' /\ (forall c, holds owned' c <-> replay (omap (in_effect actions) records) c (holds owned c)) /\
      forall c, holds owned' c -> holds owned c \/ exists r o, r ∈ records /\ in_effect actions r = Some o /\ effect o = Some (c, true)
  | inr (None, _) => records = []
  | inl e => (e = OUT_OF_MEMORY /\ ~ grants grant) \/ delivered <> None
  end.
Proof.
  intros Hwf Hn. pose proof (running_same owned observed) as [Hs1 Hs2].
  destruct (fold_cases realloc_ok malloc_ok actions records delivered observed owned) as [[-> ->]| ->]; [done|]. unfold bind at 1.
  pose proof (records_answers actions records _ false (Hs1 Hwf) Hn grant n) as Hr. revert Hr.
  destruct (fold_records _ _ _ _ grant n) as [e|[[o dns] m]]; intros Hr; [by left|]. cbn [fst] in Hr. destruct Hr as [Hr1 Hr2].
  assert (forall o', owned_wf o' -> (forall c, holds o' c <-> replay (omap (in_effect actions) records) c (holds owned c)) ->
    owned_wf o' /\ (forall c, holds o' c <-> replay (omap (in_effect actions) records) c (holds owned c)) /\
    forall c, holds o' c -> holds owned c \/ exists r o, r ∈ records /\ in_effect actions r = Some o /\ effect o = Some (c, true)) as Hall.
  { intros o' Hw Hc. split_and!; [done..|]. intros c Hh%Hc. by apply records_earned. }
  assert (owned_wf o /\ forall c, holds o c <-> replay (omap (in_effect actions) records) c (holds owned c)) as Ho.
  { split; [done|]. intros c. rewrite Hr2. apply replay_iff, Hs2. }
  destruct delivered as [scopes|]; [|destruct Ho; by apply Hall]. destruct dns; [|destruct Ho; by apply Hall]. unfold bind at 1.
  pose proof (note_dns_same realloc_ok malloc_ok o scopes grant m) as Hd. revert Hd.
  destruct (note_dns _ _ _ _ _ _) as [e|[o' m']]; intros Hd; [by right|]. destruct Hd as [Hd1 Hd2], Ho as [Ho1 Ho2].
  apply Hall; [auto|]. intros c. by rewrite Hd2.
Qed.
End Owned.

(** ** A journal to try them on *)

Definition sample_reason : reason := Reason None None None None.

Definition sample_actions : list (action unit) :=
  [Action 1 (LINK_CREATE (Some "br0"%string) None) sample_reason [] (Some (LINK_DELETE (Some "br0"%string)));
   Action 2 (ADDR_ADD (Some "br0"%string) (Some "192.0.2.7/24"%string) None None) sample_reason [1] (Some (ADDR_DEL (Some "br0"%string) (Some "192.0.2.7/24"%string)));
   Action 3 (BACKEND_START BACKEND_DHCP4 (Some "eth0"%string)) sample_reason [] None].

Definition line (id : Z) (outcome : Journal.outcome) : record := Record_ id None None sample_reason outcome None.

Definition sample_journal : list record := [line 1 OUTCOME_DONE; line 2 OUTCOME_FAILED; line 3 OUTCOME_DONE].

Definition sample_fold (owned : owned_state) : owned_state :=
  match fold (fun _ => true) true sample_actions sample_journal None None owned (fun _ => true) 0%nat with inr (Some o, _) => o | _ => owned_none end.

Lemma nothing_wf : owned_wf owned_none.
Proof. split; constructor. Qed.

Lemma sample_folds :
  fold (fun _ => true) true sample_actions sample_journal None None owned_none (fun _ => true) 0%nat = inr (Some (sample_fold owned_none), 6%nat).
Proof. by_vm. Qed.

Lemma fold_claims_witness :
  holds (sample_fold owned_none) (LINK (bytes "br0")) /\ ~ holds (sample_fold owned_none) (ADDRESS (bytes "br0") (bytes "192.0.2.7/24")) /\
  exists r o, r ∈ sample_journal /\ in_effect sample_actions r = Some o /\ effect o = Some (BACKEND NCFG_BACKEND_DHCP4 (bytes "eth0"), true).
Proof.
  pose proof (fold_claims (fun _ => true) true sample_actions sample_journal None None owned_none (fun _ => true) 0%nat nothing_wf eq_refl) as H.
  rewrite sample_folds in H. destruct H as (_ & Hr & He). split_and!.
  - apply Hr. vm_compute. reflexivity.
  - rewrite Hr. vm_compute. intros Hc. by apply elem_of_nil in Hc.
  - destruct (He (BACKEND NCFG_BACKEND_DHCP4 (bytes "eth0"))) as [Hc|Hc]; [apply Hr; vm_compute; reflexivity|by apply elem_of_nil in Hc|exact Hc].
Defined.

(** Folding the same journal again changes no claim, but counts the restart
    again. *)
Example second_fold_counts :
  map br_count (ow_backend_restarts (sample_fold owned_none)) = [1] /\
  map br_count (ow_backend_restarts (sample_fold (sample_fold owned_none))) = [2] /\
  ow_backends (sample_fold (sample_fold owned_none)) = ow_backends (sample_fold owned_none).
Proof. split_and!; vm_compute; reflexivity. Qed.

(** A count is cleared by the backend being stopped, or seen running. *)
Example stopping_clears :
  match owned_absorb (B := unit) (sample_fold owned_none) (BACKEND_STOP BACKEND_DHCP4 (Some "eth0"%string)) (fun _ => true) 0%nat with
  | inr (o, _) => ow_backend_restarts o = [] /\ ow_backends o = []
  | inl _ => False
  end.
Proof. vm_compute. by split. Qed.
