(* ===== verification/OwnedRoundtrip.v ===== *)
(** * OwnedRoundtrip: the ownership record through its file

    What [ncfg_owned_write] lays out is read by [ncfg_owned_read] as the same
    record, on the boot it was written on; on another it is a record of
    nothing. *)
From S2P Require Import Prelude Buf Lex LexFacts Wire Value InetText Op Plan Journal Json JsonFacts JsonSpec JsonRead JsonWrite JsonPrint JsonWriteSpec JsonPretty RequestRoundtrip DocText Field FieldSpec Document DocumentSpec Canonical CanonicalSpec DocumentOps DocumentRoundtrip Observed ObservedOps ObservedRoundtrip Owned.
#[local] Open Scope Z_scope.

(** ** Readers of [host/state.c] *)

Lemma string_of_reads s : plain s -> reads string_of s (JString s).
Proof.
  intros Hs d i key grant n Hg Hv. unfold string_of. rewrite (string_lookup _ _ _ _ Hv). unfold bind. rewrite alloc_granted by done.
  rewrite Hs. by eexists.
Qed.

Lemma read_each_reads {A} (read : doc -> Z -> R A) d i key ts pre vs rest grant :
  grants grant -> value_at d i key (JArray ts) -> ts = pre ++ rest -> Forall2 (reads read) vs rest ->
  forall n, exists n', read_each (read d) (map (json_at d i) (seq (length pre) (length rest))) grant n = inr (vs, n').
Proof.
  intros Hg Hv E H. revert pre E. induction H as [|v t vs rest Hr H IH]; intros pre E n; [by eexists|]. cbn [length seq map read_each].
  pose proof (at_lookup_array d i key ts (length pre) Hv) as Ht. rewrite E, list_lookup_middle in Ht by done. unfold bind.
  destruct (Hr _ _ _ grant n Hg Ht) as [n1 ->]. destruct (IH (pre ++ [t]) ltac:(by rewrite E, <- app_assoc) n1) as [n2 H2].
  rewrite length_app, Nat.add_1_r in H2. rewrite H2. by eexists.
Qed.

Lemma list_of_reads {A} allocates (read : doc -> Z -> R A) vs ts :
  Forall2 (reads read) vs ts -> reads (fun d i => read_list_of d allocates (read d) i) vs (JArray ts).
Proof.
  intros H d i key grant n Hg Hv. unfold read_list_of. rewrite (type_lookup _ _ _ _ Hv), bool_decide_eq_true_2 by done. cbn [negb]. unfold bind.
  assert (exists m, (if allocates && negb (json_count d i =? 0) then alloc else ret tt) grant n = inr (tt, m)) as [m ->].
  { destruct (allocates && _); [rewrite alloc_granted by done|]; by eexists. }
  unfold nodes_of. rewrite (count_lookup _ _ _ _ Hv). unfold zlen. rewrite Nat2Z.id.
  by apply (read_each_reads read d i key ts [] vs ts grant Hg Hv).
Qed.

Lemma list_of_back {A} allocates (read : doc -> Z -> R A) (write : A -> list call) (ok : A -> bool) vs :
  (forall v, ok v = true -> exists t, emits (write v) t /\ reads read v t) -> forallb ok vs = true ->
  exists t, emits (in_array (map write vs)) t /\ reads (fun d i => read_list_of d allocates (read d) i) vs t.
Proof.
  intros H Hok. destruct (each_back read write ok vs H Hok) as (ts & He & Hr). exists (JArray ts). split; [done|by apply list_of_reads].
Qed.

(** No member but those of the list. *)
Lemma members_only d i key l names :
  value_at d i key (JObject l) -> forallb (fun kv => existsb (fun name => bytes_eqb kv.1 (bytes name)) names) l = true -> only_members d i names = true.
Proof.
  intros Hv Hl. unfold only_members, nodes_of. rewrite (count_lookup_object _ _ _ _ Hv). unfold zlen. rewrite Nat2Z.id.
  apply forallb_forall. intros node Hn. apply in_map_iff in Hn as (n & <- & Hn). apply in_seq in Hn as [_ Hn]. cbn in Hn.
  destruct (lookup_lt_is_Some_2 l n Hn) as [[k t] Ht].
  assert (value_at d (json_at d i n) (Some k) t) as Hk.
  { rewrite (at_lookup_object _ _ _ _ _ Hv), (proj2 (Nat.ltb_lt _ _)) by done. eapply member_value; [exact Hv|]. symmetry. by apply take_drop_middle. }
  rewrite forallb_forall in Hl. specialize (Hl (k, t)). rewrite <- list_elem_of_In in Hl. specialize (Hl (list_elem_of_lookup_2 _ _ _ Ht)).
  apply existsb_exists in Hl as (name & Hname & Hl). apply existsb_exists. exists name. split; [done|].
  unfold key_is. by rewrite (key_lookup _ _ _ _ Hk).
Qed.

(** A member that is there. *)
Lemma member_reads {A} (read : doc -> Z -> R A) d i key l name v t grant n :
  grants grant -> value_at d i key (JObject l) -> kv_at l (bytes name) = Some (bytes name, t) -> reads read v t ->
  exists n', read d (json_member d i (bytes name)) grant n = inr (v, n').
Proof. intros Hg Hv Hk Hr. destruct (kv_present d i key l (bytes name) t Hv Hk) as [Hm _]. by apply (Hr _ _ _ grant n Hg Hm). Qed.

Lemma member_or_reads {A} (read : doc -> Z -> R A) d i key l name absent v t grant n :
  grants grant -> value_at d i key (JObject l) -> kv_at l (bytes name) = Some (bytes name, t) -> reads read v t ->
  exists n', member_or d i name (read d) absent grant n = inr (v, n').
Proof.
  intros Hg Hv Hk Hr. unfold member_or. destruct (kv_present d i key l (bytes name) t Hv Hk) as [_ ->]. by eapply member_reads.
Qed.

(** ** What the file can carry *)

Definition name_ok (s : list byte) : bool := negb (has_nul s).
Definition object_ok (o : owned_object) : bool := name_ok (ob_interface o) && name_ok (ob_key o) && set_ok origin_set (ob_origin o).
Definition restart_ok (r : backend_restart) : bool :=
  str_ok (br_interface r) && set_ok backend_kind_set (br_kind r) && in_range 0 4294967295 (br_count r).
Definition hook_ok (h : hook_told) : bool := name_ok (ht_interface h) && name_ok (ht_value h) && set_ok hook_phase_set (ht_phase h).

Lemma name_ok_plain s : name_ok s = true -> plain s.
Proof. intros H. by apply no_nul_plain, negb_true_iff. Qed.

(** A list of names. *)
Lemma strings_back l : forallb name_ok l = true -> exists t, emits (in_array (map (fun i => [STRING (Some i)]) l)) t /\ reads read_strings l t.
Proof.
  apply (list_of_back false string_of). intros s Hs%name_ok_plain. exists (JString s). split; [by apply emits_string|by apply string_of_reads].
Qed.

Lemma origin_lawful : set_lawful origin_set.
Proof. apply word_set_lawful. vm_compute. reflexivity. Qed.

Lemma hook_phase_lawful : set_lawful hook_phase_set.
Proof. apply (shim_lawful _ _ _ hook_phase_names); [vm_compute; reflexivity|done|done]. Qed.

(** A word of a set the reader knows. *)
Lemma word_back s v : set_lawful s -> set_ok s v = true -> exists w, enum_name s v = Some w /\ plain w /\ set_from s w = Some v.
Proof.
  unfold set_ok. intros Hs [Hi Hv]%andb_true_iff. destruct (enum_name s v) as [w|] eqn:E; [|done]. destruct (Hs v w Hi E) as (_ & Hn & Hf).
  exists w. split_and!; [done|by apply no_nul_plain|done].
Qed.

(** Three members of text, one after another. *)
Lemma three_members a va b vb c vc :
  plain (bytes a) -> plain (bytes b) -> plain (bytes c) -> plain va -> plain vb -> plain vc ->
  emits (in_object (member_string a va ++ member_string b vb ++ member_string c vc))
    (JObject [(bytes a, JString va); (bytes b, JString vb); (bytes c, JString vc)]).
Proof.
  intros. apply emits_object. apply (adds_app _ [_]); [|apply (adds_app _ [_] _ [_])]; (apply adds_member; [done|by apply emits_string]).
Qed.

Ltac read_member Hg Hv name Hplain :=
  lazymatch type of Hv with value_at ?d ?i ?key (JObject ?l) =>
    lazymatch goal with |- context [bind _ _ ?grant ?n] =>
      let n' := fresh "n" in unfold bind at 1;
      destruct (member_reads string_of d i key l name _ _ grant n Hg Hv eq_refl (string_of_reads _ Hplain)) as [n' ->]
    end
  end.

Lemma object_reads_back o : object_ok o = true -> exists t, emits (write_object_of o) t /\ reads read_object o t.
Proof.
  unfold object_ok. rewrite !andb_true_iff. intros [[Hi%name_ok_plain Hk%name_ok_plain] Ho].
  destruct (word_back _ _ origin_lawful Ho) as (w & Hw & Hp & Hf). unfold write_object_of, origin_name. rewrite Hw.
  eexists. split; [by apply three_members|]. intros d i key grant n Hg Hv. unfold read_object.
  rewrite (type_lookup _ _ _ _ Hv), bool_decide_eq_true_2, (members_only d i key _ _ Hv) by done. cbn [negb].
  read_member Hg Hv "interface"%string Hi. read_member Hg Hv "key"%string Hk. read_member Hg Hv "origin"%string Hp.
  unfold bind, from_words. cbn [set_from origin_set] in Hf. rewrite Hf. destruct o. by eexists.
Qed.

Lemma hook_reads_back h : hook_ok h = true -> exists t, emits (write_hook h) t /\ reads read_hook h t.
Proof.
  unfold hook_ok. rewrite !andb_true_iff. intros [[Hi%name_ok_plain Hk%name_ok_plain] Ho].
  destruct (word_back _ _ hook_phase_lawful Ho) as (w & Hw & Hp & Hf). unfold write_hook. cbn [enum_name hook_phase_set] in Hw. unfold shim_name in Hw.
  destruct (hook_phase_word (ht_phase h)) as [word|]; [|done]. injection Hw as Hw. rewrite Hw.
  eexists. split; [by apply three_members|]. intros d i key grant n Hg Hv. unfold read_hook.
  rewrite (type_lookup _ _ _ _ Hv), bool_decide_eq_true_2, (members_only d i key _ _ Hv) by done. cbn [negb].
  read_member Hg Hv "interface"%string Hi. read_member Hg Hv "value"%string Hk. read_member Hg Hv "phase"%string Hp.
  cbn [set_from hook_phase_set] in Hf. unfold shim_read in Hf. rewrite Hf. destruct h. by eexists.
Qed.

Lemma restart_reads_back r : restart_ok r = true -> exists t, emits (write_restart r) t /\ reads read_restart r t.
Proof.
  destruct r as [kind interface count]. unfold restart_ok, write_restart, in_range. cbn [br_kind br_interface br_count]. rewrite !andb_true_iff.
  intros [[Hi Hk] [H0 H1]]. unbool. destruct interface as [s|]; [|done]. apply name_ok_plain in Hi.
  destruct (word_back _ _ backend_kind_lawful Hk) as (w & Hw & Hp & Hf). unfold ObservedOps.backend_kind_name. rewrite Hw.
  exists (JArray [JString w; JString s; JNumber (num count)]). split.
  - apply emits_array. do 2 (constructor; [by apply emits_string|]). constructor; [|constructor]. apply emits_int. unfold INT64_MIN, INT64_MAX. lia.
  - intros d i key grant n Hg Hv. unfold read_restart.
    pose proof (at_lookup_array _ _ _ _ 0 Hv) as V0. pose proof (at_lookup_array _ _ _ _ 1 Hv) as V1. pose proof (at_lookup_array _ _ _ _ 2 Hv) as V2.
    cbn [lookup list_lookup] in V0, V1, V2.
    rewrite (type_lookup _ _ _ _ Hv), bool_decide_eq_true_2, (count_lookup _ _ _ _ Hv) by done. change (zlen [JString w; JString s; JNumber (num count)] =? 3) with true. cbn [negb orb].
    unfold bind. destruct (string_of_reads w Hp _ _ _ grant n Hg V0) as [n1 ->]. unfold from_words. cbn [set_from backend_kind_set] in Hf. rewrite Hf. cbn [ret].
    unfold ret. destruct (string_of_reads s Hi _ _ _ grant n1 Hg V1) as [n2 ->]. cbv zeta.
    rewrite (type_lookup _ _ _ _ V2), (int_lookup _ _ _ _ _ V2), num_int, bool_decide_eq_true_2 by (done || unfold INT64_MIN, INT64_MAX; lia). cbn [from_option id negb orb].
    rewrite (proj2 (Z.ltb_ge _ _)), (proj2 (Z.ltb_ge _ _)) by lia. by eexists.
Qed.

(** ** The whole record *)

(** A text the writer built and laid out is the text of what it stands for. *)
Lemma laid_out_text writer_ok limit calls tree out :
  0 <= limit < 2 ^ 30 -> emits calls tree -> write_done (write_calls writer_ok (write_init (buf_init limit)) calls) = true ->
  json_pretty writer_ok (buf_text (w_buf (write_calls writer_ok (write_init (buf_init limit)) calls))) (buf_init 0) = (true, out) ->
  b_failed out = false -> ref_parse (b_bytes out) = inr tree.
Proof.
  intros Hlim He Hd Hp Hf. destruct (writer_reads_back writer_ok limit _ Hlim (proj1 He) Hd) as (t & cap & Hdesc & Hb & _).
  pose proof (described_fits _ _ Hdesc) as Hfits. pose proof (emits_described _ _ _ He Hdesc) as ->. rewrite (proj1 (done_text _ Hd)), Hb in Hp.
  pose proof (pretty_prints writer_ok tree (buf_init 0) Hfits (buf_init_wf 0 ltac:(unfold SIZE_MAX; lia))) as Hprint.
  rewrite Hp in Hprint. destruct Hprint as (_ & Hb' & Hparse & _). specialize (Hb' Hf). change (b_bytes (buf_init 0)) with (@nil byte) in Hb'.
  by rewrite Hb'.
Qed.

Lemma objects_back l : forallb object_ok l = true -> exists t, emits (in_array (map write_object_of l)) t /\ reads read_objects l t.
Proof. apply (list_of_back true read_object), object_reads_back. Qed.

Lemma restarts_back l : forallb restart_ok l = true -> exists t, emits (in_array (map write_restart l)) t /\ reads read_restarts l t.
Proof. apply (list_of_back true read_restart), restart_reads_back. Qed.

Lemma hooks_back l : forallb hook_ok l = true -> exists t, emits (in_array (map write_hook l)) t /\ reads read_hook_state l t.
Proof. apply (list_of_back true read_hook), hook_reads_back. Qed.

Section Owned.
Context {I : Inet}.

Lemma backends_back l : forallb (type_ok observed_backend_type) l = true -> exists t, emits (observed_backends_write l) t /\ reads observed_backends_read l t.
Proof. apply elements_roundtrip, observed_backend_lawful. Qed.

Lemma applied_dns_back l : forallb (type_ok applied_dns_type) l = true -> exists t, emits (applied_dns_write l) t /\ reads applied_dns_read l t.
Proof. apply elements_roundtrip, observed_applied_dns_lawful. Qed.

Definition owned_ok (o : owned_state) : bool :=
  forallb name_ok (ow_created_links o) && forallb object_ok (ow_addresses o) && forallb object_ok (ow_routes o) &&
  forallb (type_ok observed_backend_type) (ow_backends o) && forallb restart_ok (ow_backend_restarts o) &&
  forallb (type_ok applied_dns_type) (ow_dns o) && forallb name_ok (ow_forwarding o) && forallb name_ok (ow_privacy o) &&
  forallb name_ok (ow_accept_ra o) && forallb hook_ok (ow_hook_state o) && forallb name_ok (ow_qdisc o) && forallb name_ok (ow_ingress o).

(** The record with the boot it is written on. *)
Definition stamped (boot : option (list byte)) (o : owned_state) : owned_state :=
  OwnedState (Some (default [] boot)) (ow_created_links o) (ow_addresses o) (ow_routes o) (ow_backends o) (ow_backend_restarts o) (ow_dns o)
    (ow_forwarding o) (ow_privacy o) (ow_accept_ra o) (ow_hook_state o) (ow_qdisc o) (ow_ingress o).

Lemma boot_reads s : plain s -> reads (fun d n => bind (string_of d n) (fun s => ret (Some s))) (Some s) (JString s).
Proof. intros Hs d i key grant n Hg Hv. unfold bind. destruct (string_of_reads s Hs d i key grant n Hg Hv) as [n' ->]. by eexists. Qed.

Ltac read_or Hg Hv name Hr :=
  lazymatch type of Hv with value_at ?d ?i ?key (JObject ?l) =>
    lazymatch goal with |- context [bind (member_or _ _ _ _ ?absent) _ ?grant ?n] =>
      let n' := fresh "n" in unfold bind at 1;
      destruct (member_or_reads _ d i key l name absent _ _ grant n Hg Hv eq_refl Hr) as [n' ->]
    end
  end.

Lemma owned_reads_back boot o :
  match boot with Some b => name_ok b = true | None => True end -> owned_ok o = true ->
  exists t, emits (write_owned boot o) t /\ reads read_owned (stamped boot o) t.
Proof.
  intros Hb Hok. unfold owned_ok in Hok. rewrite !andb_true_iff in Hok. destruct Hok as [[[[[[[[[[[H1 H2] H3] H4] H5] H6] H7] H8] H9] H10] H11] H12].
  assert (plain (default [] boot)) as H0 by (destruct boot as [b|]; [by apply name_ok_plain|done]).
  destruct (strings_back _ H1) as (t1 & E1 & R1).
  destruct (objects_back _ H2) as (t2 & E2 & R2).
  destruct (objects_back _ H3) as (t3 & E3 & R3).
  destruct (backends_back _ H4) as (t4 & E4 & R4).
  destruct (restarts_back _ H5) as (t5 & E5 & R5).
  destruct (applied_dns_back _ H6) as (t6 & E6 & R6).
  destruct (strings_back _ H7) as (t7 & E7 & R7). destruct (strings_back _ H8) as (t8 & E8 & R8). destruct (strings_back _ H9) as (t9 & E9 & R9).
  destruct (hooks_back _ H10) as (t10 & E10 & R10).
  destruct (strings_back _ H11) as (t11 & E11 & R11). destruct (strings_back _ H12) as (t12 & E12 & R12).
  exists (JObject [(bytes "boot", JString (default [] boot)); (bytes "created_links", t1); (bytes "addresses", t2); (bytes "routes", t3);
    (bytes "backends", t4); (bytes "backend_restarts", t5); (bytes "dns", t6); (bytes "forwarding", t7); (bytes "privacy", t8);
    (bytes "accept_ra", t9); (bytes "hook_state", t10); (bytes "qdisc", t11); (bytes "ingress", t12)]). split.
  - apply emits_object. repeat (apply (adds_app _ [_]); [apply adds_member; [done|by try apply emits_string]|]). by apply adds_member.
  - clear -R1 R2 R3 R4 R5 R6 R7 R8 R9 R10 R11 R12 H0. intros d i key grant n Hg Hv. unfold read_owned.
    rewrite (type_lookup _ _ _ _ Hv), bool_decide_eq_true_2, (members_only d i key _ _ Hv) by done. cbn [negb].
    read_or Hg Hv "boot"%string (boot_reads _ H0). read_or Hg Hv "created_links"%string R1. read_or Hg Hv "addresses"%string R2.
    read_or Hg Hv "routes"%string R3. read_or Hg Hv "backends"%string R4. read_or Hg Hv "backend_restarts"%string R5.
    read_or Hg Hv "dns"%string R6. read_or Hg Hv "forwarding"%string R7. read_or Hg Hv "privacy"%string R8. read_or Hg Hv "accept_ra"%string R9.
    read_or Hg Hv "hook_state"%string R10. read_or Hg Hv "qdisc"%string R11. read_or Hg Hv "ingress"%string R12. by eexists.
Qed.

(** Where the record was laid out. *)
Lemma written_record writer_ok boot owned text :
  owned_write writer_ok boot owned = Some text -> text <> [] ->
  exists out, write_done (write_calls writer_ok (write_init (buf_init STATE_BUILD_MAX)) (write_owned boot owned)) = true /\
    json_pretty writer_ok (buf_text (w_buf (write_calls writer_ok (write_init (buf_init STATE_BUILD_MAX)) (write_owned boot owned)))) (buf_init 0) = (true, out) /\
    b_failed out = false /\ text = b_bytes out.
Proof.
  unfold owned_write. cbv zeta. generalize (write_calls writer_ok (write_init (buf_init STATE_BUILD_MAX)) (write_owned boot owned)) as w. intros w.
  destruct (write_done w); [|done]. destruct (json_pretty writer_ok (buf_text (w_buf w)) (buf_init 0)) as [[|] out]; [|done].
  intros [= <-] Hne. exists out. unfold buf_text in *. destruct (b_failed out); [done|]. by split_and!.
Qed.

Lemma read_room_fits fuel realloc_ok ceiling length capacity :
  length + 1 < capacity -> read_room fuel realloc_ok ceiling length capacity = true.
Proof. intros H. destruct fuel; cbn; by rewrite (proj2 (Z.ltb_lt _ _) H). Qed.

Lemma read_room_grows fuel realloc_ok ceiling length capacity want :
  (forall n, realloc_ok n = true) -> want = Z.min (if capacity =? 0 then 8192 else capacity * 2) (ceiling + 2) ->
  capacity < want -> read_room fuel realloc_ok ceiling length want = true ->
  read_room (S fuel) realloc_ok ceiling length capacity = true.
Proof.
  intros Hm -> Hlt H. cbn [read_room]. destruct (length + 1 <? capacity); [done|]. cbv zeta.
  by rewrite (proj2 (Z.leb_gt _ _) Hlt), Hm.
Qed.

(** A file no longer than the ceiling has room made for it, in thirteen
    growths at most. *)
Lemma read_room_granted realloc_ok length :
  (forall n, realloc_ok n = true) -> length <= STATE_FILE_MAX -> read_room 64 realloc_ok STATE_FILE_MAX length 0 = true.
Proof.
  intros Hm Hl. do 13 (eapply read_room_grows; [exact Hm|vm_compute; reflexivity|reflexivity|]).
  apply read_room_fits. unfold STATE_FILE_MAX in Hl. lia.
Qed.

(** Where memory is not refused, a file is read exactly where it is no longer
    than the ceiling. *)
Lemma host_read_granted realloc_ok file :
  (forall n, realloc_ok n = true) ->
  host_read_file realloc_ok STATE_FILE_MAX (Some file) = if zlen file <=? STATE_FILE_MAX then Some file else None.
Proof.
  intros Hm. unfold host_read_file. destruct (Z.leb_spec (zlen file) STATE_FILE_MAX); [|done].
  by rewrite read_room_granted.
Qed.

(** A record longer than the ceiling is written, and then read as none: the
    buffer it is built in holds twice as much. *)
Lemma oversized_record_is_lost realloc_ok malloc_ok grant text now :
  STATE_FILE_MAX < zlen text -> owned_read realloc_ok malloc_ok grant (Some text) now = owned_none.
Proof. intros H. unfold owned_read, host_read_file. by rewrite (proj2 (Z.leb_gt _ _)). Qed.

(** C22: the ownership record survives its file, and dies with its boot. When
    [ncfg_owned_write] leaves a file that is not empty, and no longer than the
    16 MiB a record is read up to, for a record the file can carry,
    [ncfg_owned_read] of that file on the same boot is the record,
    every list in its order, with the boot stamped on it; on a boot of another
    name it is a record of nothing, so nothing is taken away that an earlier
    boot had put there. *)
Theorem owned_roundtrip writer_ok realloc_ok grant boot owned text now :
  (forall n, realloc_ok n = true) -> grants grant -> match boot with Some b => name_ok b = true | None => True end -> owned_ok owned = true ->
  owned_write writer_ok boot owned = Some text -> text <> [] -> zlen text <= STATE_FILE_MAX ->
  owned_read realloc_ok true grant (Some text) now =
    match boot, now with
    | Some ((_ :: _) as b), Some now => if bytes_eqb now b then stamped boot owned else owned_none
    | _, _ => stamped boot owned
    end.
Proof.
  intros Hm Hg Hb Hok Hw Hne Hlen. destruct (written_record _ _ _ _ Hw Hne) as (out & Hd & Hp & Hf & ->).
  destruct (owned_reads_back boot owned Hb Hok) as (tree & He & Hr).
  pose proof (laid_out_text writer_ok STATE_BUILD_MAX _ tree out ltac:(unfold STATE_BUILD_MAX; lia) He Hd Hp Hf) as Href.
  assert (zlen (b_bytes out) < 2 ^ 30) as Hbig by (unfold STATE_FILE_MAX in Hlen; lia).
  destruct (text_reads realloc_ok read_owned (stamped boot owned) tree _ Hm Hbig Href Hr)
    as (d & Hparse & _ & Hread).
  unfold owned_read. rewrite (host_read_granted _ _ Hm), (proj2 (Z.leb_le _ _) Hlen), Hparse. destruct (Hread grant 0%nat Hg) as [n ->]. cbv zeta. cbn [ow_boot stamped].
  destruct boot as [[|x b]|], now as [t|]; reflexivity.
Qed.
End Owned.

(** ** A record to try them on *)

Definition sample_record : owned_state := OwnedState None [bytes "br0"] [OwnedObject (bytes "eth0") (bytes "192.0.2.7/24") NCFG_ORIGIN_STATIC]
  [OwnedObject (bytes "eth0") (bytes "default") NCFG_ORIGIN_STATIC] [started_backend NCFG_BACKEND_DHCP4 (bytes "eth0")]
  [BackendRestart NCFG_BACKEND_DHCP4 (Some (bytes "eth0")) 2] [] [bytes "eth0"] [] [] [HookTold (bytes "eth0") 6 (bytes "up")] [] [].

Definition sample_file : list byte := default [] (owned_write (fun _ => true) (Some (bytes "boot-1")) sample_record).

Lemma owned_roundtrip_witness :
  owned_read (fun _ => true) true (fun _ => true) (Some sample_file) (Some (bytes "boot-1")) = stamped (Some (bytes "boot-1")) sample_record /\
  owned_read (fun _ => true) true (fun _ => true) (Some sample_file) (Some (bytes "boot-2")) = owned_none.
Proof.
  assert (sample_file <> []) as Hne by (vm_compute; discriminate).
  assert (owned_write (fun _ => true) (Some (bytes "boot-1")) sample_record = Some sample_file) as Hw by (vm_compute; reflexivity).
  assert (zlen sample_file <= STATE_FILE_MAX) as Hlen by (vm_compute; discriminate). assert (owned_ok sample_record = true) as Hok by (vm_compute; reflexivity).
  split.
  - exact (owned_roundtrip (fun _ => true) (fun _ => true) (fun _ => true) (Some (bytes "boot-1")) sample_record sample_file (Some (bytes "boot-1"))
      (fun _ => eq_refl) (fun _ => eq_refl) eq_refl Hok Hw Hne Hlen).
  - exact (owned_roundtrip (fun _ => true) (fun _ => true) (fun _ => true) (Some (bytes "boot-1")) sample_record sample_file (Some (bytes "boot-2"))
      (fun _ => eq_refl) (fun _ => eq_refl) eq_refl Hok Hw Hne Hlen).
Defined.

(** Memory refused while the text is laid out: the layout answers yes, the text
    of a failed buffer is empty, and the file is replaced with nothing. *)
Example refused_layout_empties_the_record :
  exists limit, owned_write (fun n => n <=? limit) (Some (bytes "boot-1")) sample_record = Some [] /\
    owned_read (fun _ => true) true (fun _ => true) (Some []) (Some (bytes "boot-1")) = owned_none.
Proof. exists 512. split; by_vm. Qed.
