(* ===== verification/AddressPass.v ===== *)
(** * AddressPass: addresses, routes and what serves them, in both directions

    The planner's passes over the whole document and the whole observation:
    [plan/address.c], [delegated.c], [reported.c], [standby.c], [backend.c] and
    [session.c], the rules of [dot1x.c], [radio.c] and [access_point.c] for when
    a helper is started and when it is kept, and the rest of [clear.c]. They are
    written against [PlanOps], as the passes of [RulePass] are.

    [planner] is [ncfg_builder_t]: the part [Builder] has, the document and the
    observation as the tables type them, and the lists these passes keep. The
    texts of documents are bytes, those of a plan strings: [cs] goes from one to
    the other. [pl_cycle] is the interfaces the options ask to take down and up
    again. *)
From stdpp Require Import gmap pretty.
From S2P Require Import Prelude Wire Op Heap Plan Value Builder Json JsonWrite DocText Field Document Canonical DocumentOps Observed ObservedOps Linkset Owned.
#[local] Open Scope string_scope.
#[local] Open Scope list_scope.
#[local] Open Scope Z_scope.

Abbreviation text := (option (list byte)).

Definition cs (t : text) : cstr := String.string_of_list_byte <$> t.

(** A function of the model that asks for memory, called by a pass: refused, it
    marks the plan failed. *)
Class ReadOps (M : Type -> Type) := ops_run : forall {A}, R A -> M (option A).

#[export] Instance heap_reads {B} (grant : nat -> bool) : ReadOps (Heap.State (plan B * heap)%type) :=
  fun A r '(p, h) =>
    match r grant (h_ticks h) with
    | inr (x, n) => (Some x, (p, Heap n (h_live h) (h_fault h)))
    | inl _ =>
        (None, (with_mem p (with_arena (p_mem p) (arena_fail (m_arena (p_mem p)))), Heap (S (h_ticks h)) (h_live h) (h_fault h)))
    end.

#[export] Instance view_reads {B} : ReadOps (Heap.State (view B)) :=
  fun A r v => (match r (fun _ => true) 0%nat with inr (x, _) => Some x | inl _ => None end, v).

(** [ncfg_plan_added_t] and [ncfg_plan_standby_t]. *)
Record plan_added := PlanAdded { pa_interface : cstr; pa_address : cstr; pa_id : Z }.
Record plan_standby := PlanStandby { ps_interface : cstr; ps_set : cstr; ps_instead : cstr }.

Definition NCFG_ROUTE_MAIN_TABLE : Z := 254.
Definition NCFG_PLAN_RESTART_LIMIT : Z := 5.
Definition NCFG_ADDRESS_SOURCE_REPORTED : Z := 6.

(** The arm a tag names, where it is the union's. *)
Definition arm_at (arm : Z -> ftype) (tag : Z) (u : union arm) : option (value (arm tag)) :=
  match decide (projT1 u = tag) with
  | left e => Some (eq_rect (projT1 u) (fun k => value (arm k)) (projT2 u) tag e)
  | right _ => None
  end.

(** ** Texts *)

Definition text_equal (left right : cstr) : bool :=
  match left, right with
  | Some l, Some r => String.eqb l r
  | None, None => true
  | _, _ => false
  end.

(** [strcmp] of two names neither of which is [NULL]. *)
Definition named (left right : cstr) : bool :=
  match left, right with Some l, Some r => String.eqb l r | _, _ => false end.

(** [ncfg_plan_reason_absent], [_differs] and [_unwanted]. *)
Definition reason_absent (interface field desired : cstr) : reason := Reason interface field desired (Some "<absent>").
Definition reason_differs (interface field desired observed : cstr) : reason := Reason interface field desired observed.
Definition reason_unwanted (interface field observed : cstr) : reason := Reason interface field (Some "<absent>") observed.

Definition absent_text (t : text) : string := default "<absent>" (cs t).

Section Passes.
Context {I : Inet}.

Abbreviation iface := (value interface_type).
Abbreviation source := (union address_source_arm).

Record planner := Planner {
  pl_builder : builder;
  pl_desired : value document_type;
  pl_observed : value observed_type;
  pl_enslavements : list plan_mark;
  pl_link_up : list plan_mark;
  pl_added : list plan_added;
  pl_stopped_early : list cstr;
  pl_unfiltered : option (value document_type);
  pl_standby : list plan_standby;
  pl_cycle : list cstr }.

(** Assignments to one member. *)
Definition with_added l (p : planner) := Planner (pl_builder p) (pl_desired p) (pl_observed p) (pl_enslavements p) (pl_link_up p) l (pl_stopped_early p) (pl_unfiltered p) (pl_standby p) (pl_cycle p).
Definition with_standby l (p : planner) := Planner (pl_builder p) (pl_desired p) (pl_observed p) (pl_enslavements p) (pl_link_up p) (pl_added p) (pl_stopped_early p) (pl_unfiltered p) l (pl_cycle p).
Definition with_stopped l (p : planner) := Planner (pl_builder p) (pl_desired p) (pl_observed p) (pl_enslavements p) (pl_link_up p) (pl_added p) l (pl_unfiltered p) (pl_standby p) (pl_cycle p).
Definition with_link_up l (p : planner) := Planner (pl_builder p) (pl_desired p) (pl_observed p) (pl_enslavements p) l (pl_added p) (pl_stopped_early p) (pl_unfiltered p) (pl_standby p) (pl_cycle p).
Definition with_documents d u (p : planner) := Planner (pl_builder p) d (pl_observed p) (pl_enslavements p) (pl_link_up p) (pl_added p) (pl_stopped_early p) u (pl_standby p) (pl_cycle p).
Definition with_builder b (p : planner) := Planner b (pl_desired p) (pl_observed p) (pl_enslavements p) (pl_link_up p) (pl_added p) (pl_stopped_early p) (pl_unfiltered p) (pl_standby p) (pl_cycle p).
Definition with_enslavements l (p : planner) := Planner (pl_builder p) (pl_desired p) (pl_observed p) l (pl_link_up p) (pl_added p) (pl_stopped_early p) (pl_unfiltered p) (pl_standby p) (pl_cycle p).

Definition iface_name (i : iface) : cstr := cs (get interface_type "name" i).
Definition addressing (i : iface) : list source := get interface_type "addressing" i.
Definition preference (i : iface) : option Z := get interface_type "preference" i.
Definition addresses (o : value observed_type) : list (value observed_address_type) := get observed_type "addresses" o.
Definition routes (o : value observed_type) : list (value observed_route_type) := get observed_type "routes" o.
Definition backends (o : value observed_type) : list (value observed_backend_type) := get observed_type "backends" o.
Definition links (o : value observed_type) : list (value observed_link_type) := get observed_type "links" o.
Definition oa_interface (a : value observed_address_type) : cstr := cs (get observed_address_type "interface" a).
Definition oa_address (a : value observed_address_type) : text := get observed_address_type "address" a.

(** [ncfg_plan_device] and [ncfg_plan_interface]. *)
Definition plan_device (desired : value document_type) (name : text) : option (value device_type) := document_device (Some desired) name.

Definition plan_interface (desired : value document_type) (name : text) : option iface :=
  List.find (fun i : iface => named (iface_name i) (cs name)) (get document_type "interfaces" desired : list iface).

Definition device_kind (d : value device_type) : Z := projT1 (get device_type "kind" d : union kind_arm).

(** [ncfg_builder_link_up]. *)
Definition builder_link_up (p : planner) (name : cstr) : Z :=
  match List.find (fun m => named (pm_name m) name) (pl_link_up p) with Some m => pm_id m | None => NO_ACTION end.

(** ** Routes as the plan has them *)

Definition route_of (r : value route_type) : route :=
  Route (cs (get route_type "destination" r)) (cs (get route_type "via" r : text)) (get route_type "metric" r) (get route_type "table" r)
    (cs (get route_type "src" r : text)) (get route_type "scope" r) (get route_type "onlink" r) (get route_type "proto" r).

(** What the kernel holds, as [teardown_routes] writes it. *)
Definition route_seen (r : value observed_route_type) : route :=
  Route (cs (get observed_route_type "destination" r)) (cs (get observed_route_type "via" r : text)) (get observed_route_type "metric" r)
    (get observed_route_type "table" r) (cs (get observed_route_type "src" r : text)) (get observed_route_type "scope" r) false
    (get observed_route_type "proto" r).

Definition or_interface (r : value observed_route_type) : cstr := cs (get observed_route_type "interface" r).

(** [ncfg_plan_route_matches]. *)
Definition route_matches (desired : route) (observed : value observed_route_type) : bool :=
  let seen := route_seen observed in
  text_equal (rt_destination desired) (rt_destination seen) && text_equal (rt_via desired) (rt_via seen) &&
  (default NCFG_ROUTE_MAIN_TABLE (rt_table desired) =? default NCFG_ROUTE_MAIN_TABLE (rt_table seen)) &&
  text_equal (rt_src desired) (rt_src seen) &&
  match rt_metric desired with
  | None => true
  | Some m => match rt_metric seen with Some n => m =? n | None => false end
  end.

(** The text [ncfg_plan_render_route] interns: each piece goes where the last
    ended, in the room that is left, so the whole is cut once. *)
Definition route_text (r : route) : string :=
  snprintf_cut ERROR_MAX
    (default "" (rt_destination r) +:+
     match rt_via r with Some via => " via " +:+ via | None => "" end +:+
     match rt_metric r with Some m => " metric " +:+ pretty m | None => "" end).

(** [with_metric]. *)
Definition with_metric (p : planner) (r : route) (interface : iface) : route :=
  match rt_metric r with
  | Some _ => r
  | None =>
      match observed_effective_metric (Some (pl_desired p)) (Some (pl_observed p)) (Some interface) with
      | Some m => Route (rt_destination r) (rt_via r) (Some m) (rt_table r) (rt_src r) (rt_scope r) (rt_onlink r) (rt_proto r)
      | None => r
      end
  end.

(** ** What the document does not say itself *)

Definition source_kind (s : source) : Z := projT1 s.
Definition static_of (s : source) : option (value static_type) := arm_at address_source_arm NCFG_ADDRESS_SOURCE_STATIC s.
Definition delegated_of (s : source) : option (value delegated_type) := arm_at address_source_arm NCFG_ADDRESS_SOURCE_DELEGATED s.

(** The sentence [ncfg_address_from_delegation] gives where it derives nothing. *)
Definition delegation_sentence (delegation : text) (subnet : Z) (suffix : text) : string :=
  match delegation, suffix with
  | Some d, Some s =>
      match address_parse delegation, address_parse suffix with
      | Some block, other =>
          if negb (ad_is_ipv6 block) || negb (ad_has_prefix block) then "`" +:+ String.string_of_list_byte d +:+ "` is not an IPv6 prefix"
          else
            match other with
            | None => "`" +:+ String.string_of_list_byte s +:+ "` is not an IPv6 address with a prefix length"
            | Some host =>
                if negb (ad_is_ipv6 host) || negb (ad_has_prefix host) then
                  "`" +:+ String.string_of_list_byte s +:+ "` is not an IPv6 address with a prefix length"
                else if ad_prefix host <? ad_prefix block then
                  "a /" +:+ pretty (ad_prefix host) +:+ " cannot be carved out of a /" +:+ pretty (ad_prefix block) +:+
                  "; the suffix's prefix length must be at least as long as the delegation's"
                else if (subnet <? 0) || (subnet >? 65535) then
                  "a subnet selector of " +:+ pretty subnet +:+ " is outside the 0 to 65535 a prefix reference carries"
                else
                  let spare := ad_prefix host - ad_prefix block in
                  if (spare <? 16) && (u64 subnet >=? Z.shiftl 1 spare) then
                    "subnet " +:+ pretty subnet +:+ " does not fit: a /" +:+ pretty (ad_prefix block) +:+ " delegation split into /" +:+
                    pretty (ad_prefix host) +:+ " blocks has " +:+ pretty (Z.shiftl 1 spare) +:+ " of them"
                  else
                    match foldl (put_subnet_bit subnet (ad_prefix host)) (Some (keep_top_bits (ad_bytes block) (ad_prefix block))) (seqZ 0 16) with
                    | None => "subnet " +:+ pretty subnet +:+ " does not fit inside a /" +:+ pretty (ad_prefix host)
                    | Some _ => "an address of 16 bytes could not be rendered"
                    end
            end
      | None, _ => "`" +:+ String.string_of_list_byte d +:+ "` is not an IPv6 prefix"
      end
  | _, _ => "a delegated address needs both a prefix and a suffix"
  end.

(** [ncfg_plan_delegated_address]: the address, or the sentence. *)
Definition delegated_address (observed : value observed_type) (d : value delegated_type) : string + list byte :=
  let prefix := get delegated_type "prefix" d in
  let from := (get prefix_ref_type "source" prefix : text) in
  let index := get prefix_ref_type "index" prefix in
  match observed_delegation (Some observed) from with
  | None => inl ("waiting on a delegated prefix from " +:+ absent_text from +:+ ", so nothing is planned for it")
  | Some delegation =>
      let prefixes := (get delegation_type "prefixes" delegation : list text) in
      if (index <? 0) || (zlen prefixes <=? index) then
        inl (absent_text from +:+ " has " +:+ pretty (zlen prefixes) +:+ " delegated prefix(es) and this source asks for index " +:+ pretty index)
      else
        let prefix_text := default None (prefixes !! Z.to_nat index) in
        let subnet := get prefix_ref_type "subnet" prefix in
        let suffix := (get delegated_type "suffix" d : text) in
        match address_from_delegation prefix_text subnet suffix ADDRESS_MAX with
        | Some a => inr a
        | None => inl (delegation_sentence prefix_text subnet suffix)
        end
  end.

(** [ncfg_plan_takes_reports]. *)
Definition takes_reports (desired : value document_type) (interface : iface) : bool :=
  existsb (fun s => source_kind s =? NCFG_ADDRESS_SOURCE_REPORTED) (addressing interface) ||
  match plan_device desired (get interface_type "name" interface) with
  | Some device => (device_kind device =? NCFG_KIND_OPENVPN) || (device_kind device =? NCFG_KIND_PPPOE)
  | None => false
  end.

Abbreviation report := (value observed_report_type).

(** [ncfg_plan_report_for]. *)
Definition report_for (observed : value observed_type) (name : cstr) : option report :=
  List.find (fun r : report => named (cs (get observed_report_type "interface" r)) name) (get observed_type "reports" observed : list report).

(** [ncfg_plan_reported_holds]. *)
Definition reported_holds (observed : value observed_type) (interface : cstr) (address : text) : bool :=
  match report_for observed interface with
  | None => false
  | Some r => existsb (fun a => plan_address_equal a address) (get observed_report_type "addresses" r : list text)
  end.

(** [destination_of]: what a report calls a destination, as the kernel would
    spell it. *)
Definition blank (b : byte) : bool := existsb (byte_eqb b) (bytes " " ++ [x09; x0a; x0d]).

Fixpoint drop_blank (l : list byte) : list byte :=
  match l with [] => [] | b :: rest => if blank b then drop_blank rest else l end.

Definition destination_of (t : text) (out_size : Z) : option (list byte) :=
  match t with
  | None => None
  | Some t =>
      let out := rev (drop_blank (rev (drop_blank t))) in
      if (zlen out =? 0) || (out_size <=? zlen out) then None
      else if bytes_eqb out (bytes "default") || bytes_eqb out (bytes "0.0.0.0/0") || bytes_eqb out (bytes "::/0") then
        if out_size <? zlen (bytes "default") + 1 then None else Some (bytes "default")
      else
        match address_parse (Some out) with
        | Some a => if ad_has_prefix a then address_render a out_size else None
        | None => None
        end
  end.

(** [ncfg_plan_standby_of]. *)
Definition standby_of (p : planner) (name : cstr) : option plan_standby :=
  List.find (fun s => named (ps_interface s) name) (pl_standby p).

(** ** Which helpers are wanted *)

(** [addressing_asks_for]. *)
Definition addressing_asks_for (interface : iface) (kind : Z) : bool :=
  let asks s := existsb (fun one => source_kind one =? s) (addressing interface) in
  if kind =? NCFG_BACKEND_DHCP4 then asks NCFG_ADDRESS_SOURCE_DHCP4
  else if kind =? NCFG_BACKEND_DHCP6 then asks NCFG_ADDRESS_SOURCE_DHCP6
  else if kind =? NCFG_BACKEND_LINK_LOCAL then asks NCFG_ADDRESS_SOURCE_LINK_LOCAL
  else false.

(** [ncfg_plan_access_point_wanted]. *)
Definition access_point_wanted (desired : value document_type) (name : text) : bool :=
  existsb (fun a : value access_point_type => named (cs (get access_point_type "device" a)) (cs name))
    (get document_type "access_points" desired : list (value access_point_type)).

Definition observed_wireless (observed : value observed_type) (name : text) : bool :=
  match observed_link (Some observed) name with Some link => get observed_link_type "wireless" link | None => false end.

(** [ncfg_plan_radio_supplicant_wanted]. *)
Definition radio_supplicant_wanted (desired : value document_type) (observed : value observed_type) (name : text) : bool :=
  let device := plan_device desired name in
  match document_mesh (Some desired) name with
  | Some _ =>
      match device with
      | Some d =>
          if negb (get device_type "managed" d) then false
          else if device_kind d =? NCFG_KIND_MESH_POINT then true
          else observed_wireless observed name
      | None => observed_wireless observed name
      end
  | None =>
      match device with
      | Some d =>
          if negb (get device_type "managed" d) || negb (bool_decide (is_Some (get device_type "wifi" d : option (value wifi_device_type)))) then false
          else if access_point_wanted desired name then false
          else if device_kind d =? NCFG_KIND_RADIO then true
          else observed_wireless observed name
      | None => false
      end
  end.

Definition has_dot1x (i : iface) : bool := bool_decide (is_Some (get interface_type "dot1x" i : option (value eap_type))).

(** [ncfg_plan_supplicant_wanted]. *)
Definition supplicant_wanted (desired : value document_type) (observed : value observed_type) (name : text) : bool :=
  match plan_interface desired name with Some i => has_dot1x i | None => false end ||
  radio_supplicant_wanted desired observed name.

(** [session_kind_of]: the kind and the field. *)
Definition session_kind_of (device : value device_type) : option (backend_kind * string) :=
  if device_kind device =? NCFG_KIND_PPPOE then Some (BACKEND_PPPOE, "pppoe")
  else if device_kind device =? NCFG_KIND_OPENVPN then Some (BACKEND_OPENVPN, "openvpn")
  else None.

(** [ncfg_plan_session_wanted]: asked of the two kinds of session. *)
Definition session_wanted (desired : value document_type) (name : text) (kind : Z) : bool :=
  match plan_device desired name with
  | Some d => match session_kind_of d with Some (k, _) => backend_number k =? kind | None => false end
  | None => false
  end.

(** [backend_wanted], with the field that decides it. *)
Definition backend_wanted (p : planner) (backend : value observed_backend_type) : bool * string :=
  let kind := get observed_backend_type "kind" backend in
  let name := (get observed_backend_type "interface" backend : text) in
  let interface := plan_interface (pl_desired p) name in
  let asks (f : iface -> bool) := match interface with Some i => f i | None => false end in
  if (kind =? NCFG_BACKEND_DHCP4) || (kind =? NCFG_BACKEND_DHCP6) || (kind =? NCFG_BACKEND_LINK_LOCAL) then
    (asks (fun i => addressing_asks_for i kind), "addressing")
  else if kind =? NCFG_BACKEND_SUPPLICANT then (supplicant_wanted (pl_desired p) (pl_observed p) name, "wifi/dot1x")
  else if kind =? NCFG_BACKEND_ROUTER_ADVERT then
    (asks (fun i => bool_decide (is_Some (get interface_type "advertise" i : option (value ra_type)))), "advertise")
  else if kind =? NCFG_BACKEND_DHCP_SERVER then
    (asks (fun i => bool_decide (is_Some (get interface_type "dhcp_server" i : option (value dhcp_server_type)))), "dhcp_server")
  else if kind =? NCFG_BACKEND_ACCESS_POINT then (access_point_wanted (pl_desired p) name, "access_point")
  else if (kind =? NCFG_BACKEND_PPPOE) || (kind =? NCFG_BACKEND_OPENVPN) then
    (session_wanted (pl_desired p) name kind, if kind =? NCFG_BACKEND_PPPOE then "pppoe" else "openvpn")
  else (true, "").

(** [installed_metric] and [started_with_another]. *)
Definition installed_metric (observed : value observed_type) (name : cstr) : option Z :=
  match List.find (fun r : value observed_route_type =>
      named (or_interface r) name && named (cs (get observed_route_type "destination" r)) (Some "default") &&
      match (get observed_route_type "proto" r : option Z) with Some n => n =? NCFG_DHCP_ROUTE_PROTO | None => false end) (routes observed) with
  | Some r => get observed_route_type "metric" r
  | None => None
  end.

Definition started_with_another (observed : value observed_type) (name : cstr) (wanted : Z) : option Z :=
  match List.find (fun b : value observed_backend_type =>
      (get observed_backend_type "kind" b =? NCFG_BACKEND_DHCP4) && get observed_backend_type "running" b &&
      named (cs (get observed_backend_type "interface" b)) name) (backends observed) with
  | Some b => match (get observed_backend_type "started_metric" b : option Z) with Some m => if m =? wanted then None else Some m | None => None end
  | None => None
  end.

(** The kind a number of the observation stands for. *)
Definition backend_kinds : list backend_kind :=
  [BACKEND_DHCP4; BACKEND_DHCP6; BACKEND_SUPPLICANT; BACKEND_ACCESS_POINT; BACKEND_WIREGUARD; BACKEND_PPPOE; BACKEND_OPENVPN;
   BACKEND_DNS; BACKEND_ROUTER_ADVERT; BACKEND_LINK_LOCAL; BACKEND_DHCP_SERVER; BACKEND_UPNP].
Definition backend_of_number (n : Z) : option backend_kind := List.find (fun k => backend_number k =? n) backend_kinds.

(** ** What is wanted, for the teardown *)

Definition ours_from_config (ownership : Z) (origin : option Z) : bool :=
  ownership_may_remove ownership && match origin with Some o => o =? NCFG_ORIGIN_STATIC | None => false end.

(** The loop of [teardown_addresses] over the sources. *)
Definition source_holds (observed : value observed_type) (seen : value observed_address_type) (s : source) : bool :=
  match static_of s with
  | Some st => text_equal (cs (get static_type "address" st)) (cs (oa_address seen))
  | None => false
  end ||
  match delegated_of s with
  | Some d => match delegated_address observed d with inr a => plan_address_equal (Some a) (oa_address seen) | inl _ => false end
  | None => false
  end ||
  ((source_kind s =? NCFG_ADDRESS_SOURCE_REPORTED) && reported_holds observed (oa_interface seen) (oa_address seen)).

Definition address_wanted (desired : value document_type) (observed : value observed_type) (seen : value observed_address_type) : bool :=
  match plan_interface desired (get observed_address_type "interface" seen) with
  | Some i => existsb (source_holds observed seen) (addressing i)
  | None => false
  end.

(** ** The passes *)

Section Pass.
Context {B : Type} {M : Type -> Type} {O : PlanOps B M} {RO : ReadOps M}.

(** [ncfg_plan_ids_extend]. *)
Fixpoint ids_extend (ids : plan_ids) (from : list Z) : M plan_ids :=
  match from with
  | [] => mret ids
  | id :: rest => ids ← ids_push ids id; ids_extend ids rest
  end.

(** An id that is there, pushed. *)
Definition ids_note (ids : plan_ids) (id : Z) : M plan_ids := if id =? NO_ACTION then mret ids else ids_push ids id.

(** *** Helpers *)

(** [ncfg_plan_backend]. *)
Definition plan_backend (p : planner) (name : text) (kind : backend_kind) (field : cstr) (base out : plan_ids) : M plan_ids :=
  let number := backend_number kind in
  if observed_backend_running (Some (pl_observed p)) number name then mret out
  else
    let restarts := observed_backend_restarts (Some (pl_observed p)) number name in
    if NCFG_PLAN_RESTART_LIMIT <=? restarts then
      _ ← ops_warnf (cs name) ("netcfgd has started the " +:+ fmt (cs (backend_kind_name number)) +:+ " backend on " +:+ fmt (cs name) +:+ " " +:+
            pretty restarts +:+ " times and it has not stayed up; not starting it again. Whatever it says about why is in /run/netcfgd, " +:+
            "and the count clears the moment it is seen running -- or when the document stops asking for it");
      mret out
    else
      deps ← ids_extend no_ids (pi_ids base);
      deps ← ids_note deps (builder_link_up p (cs name));
      id ← builder_push (pl_builder p) (BACKEND_START kind (cs name)) (reason_absent (cs name) field (cs (backend_kind_name number)))
             (pi_ids deps) (Some (BACKEND_STOP kind (cs name)));
      ids_note out id.

(** [ncfg_plan_note_added]. *)
Definition note_added (p : planner) (interface address : cstr) (id : Z) : M planner :=
  ok ← ops_room;
  mret (if (ok : bool) then with_added (pl_added p ++ [PlanAdded interface address id]) p else p).

(** [addr.add] and its undoing, pushed and noted. *)
Definition push_address (p : planner) (interface address : cstr) (preferred valid : optint) (why : reason) (base out : plan_ids) :
    M (planner * plan_ids) :=
  id ← builder_push (pl_builder p) (ADDR_ADD interface address preferred valid) why (pi_ids base) (Some (ADDR_DEL interface address));
  if id =? NO_ACTION then mret (p, out)
  else
    out ← ids_push out id;
    p ← note_added p interface address id;
    mret (p, out).

Definition addressing_field (index : nat) : M cstr := internf ("addressing[" +:+ pretty index +:+ "]").

(** [ncfg_plan_delegated]. *)
Definition plan_delegated (p : planner) (interface : iface) (index : nat) (d : value delegated_type) (base out : plan_ids) :
    M (planner * plan_ids) :=
  let name := iface_name interface in
  match delegated_address (pl_observed p) d with
  | inl message =>
      _ ← ops_warnf name ("addressing[" +:+ pretty index +:+ "]: " +:+ snprintf_cut ERROR_MAX message);
      mret (p, out)
  | inr derived =>
      if existsb (fun seen => named (oa_interface seen) name && plan_address_equal (oa_address seen) (Some derived)) (addresses (pl_observed p))
      then mret (p, out)
      else
        address ← ops_intern (cs (Some derived));
        match address with
        | None => mret (p, out)
        | Some a =>
            field ← addressing_field index;
            desired ← internf (a +:+ " (from " +:+ absent_text (get prefix_ref_type "source" (get delegated_type "prefix" d)) +:+ ")");
            push_address p name (Some a) None None (reason_absent name field desired) base out
        end
  end.

(** The loop of [ncfg_plan_reported] over the addresses of the report. *)
Fixpoint plan_report_addresses (p : planner) (name field : cstr) (reported : list text) (base out : plan_ids) : M (planner * plan_ids) :=
  match reported with
  | [] => mret (p, out)
  | None :: rest => plan_report_addresses p name field rest base out
  | Some a :: rest =>
      if existsb (fun seen => named (oa_interface seen) name && plan_address_equal (oa_address seen) (Some a)) (addresses (pl_observed p))
      then plan_report_addresses p name field rest base out
      else
        desired ← internf (String.string_of_list_byte a +:+ " (reported)");
        r ← push_address p name (cs (Some a)) None None (reason_absent name field desired) base out;
        plan_report_addresses r.1 name field rest base r.2
  end.

(** [ncfg_plan_reported]. *)
Definition plan_reported (p : planner) (interface : iface) (index : nat) (base out : plan_ids) : M (planner * plan_ids) :=
  let name := iface_name interface in
  field ← addressing_field index;
  match report_for (pl_observed p) name with
  | None =>
      _ ← ops_warnf name ("`" +:+ fmt name +:+ "` takes its addresses from whatever reports them, and nothing has -- there is no file at " +:+
            "/run/netcfgd/reported/" +:+ fmt name +:+ ". Addresses are planned when a report arrives; see doc/interface-report.md");
      mret (p, out)
  | Some r =>
      match (get observed_report_type "addresses" r : list text) with
      | [] =>
          _ ← ops_warnf name ("`" +:+ fmt name +:+ "` is reported with no addresses, so the link is down");
          mret (p, out)
      | reported => plan_report_addresses p name field reported base out
      end
  end.

(** A source that a client serves. *)
Definition plan_client (p : planner) (interface : iface) (index : nat) (kind : backend_kind) (base out : plan_ids) : M (planner * plan_ids) :=
  field ← addressing_field index;
  out ← plan_backend p (get interface_type "name" interface) kind field base out;
  mret (p, out).

(** The end of [ncfg_plan_source], for a static address. *)
Definition plan_static (p : planner) (interface : iface) (index : nat) (s : value static_type) (base out : plan_ids) : M (planner * plan_ids) :=
  let name := iface_name interface in
  match (get static_type "address" s : text) with
  | None => mret (p, out)
  | Some a =>
      let address := cs (Some a) in
      if existsb (fun seen => text_equal (oa_interface seen) name && text_equal (cs (oa_address seen)) address) (addresses (pl_observed p))
      then mret (p, out)
      else
        field ← addressing_field index;
        push_address p name address (get static_type "preferred_lifetime" s) (get static_type "valid_lifetime" s)
          (reason_absent name field address) base out
  end.

(** [ncfg_plan_source]. *)
Definition plan_source (p : planner) (interface : iface) (index : nat) (s : source) (base out : plan_ids) : M (planner * plan_ids) :=
  let kind := source_kind s in
  if kind =? NCFG_ADDRESS_SOURCE_DHCP4 then plan_client p interface index BACKEND_DHCP4 base out
  else if kind =? NCFG_ADDRESS_SOURCE_DHCP6 then plan_client p interface index BACKEND_DHCP6 base out
  else if kind =? NCFG_ADDRESS_SOURCE_LINK_LOCAL then plan_client p interface index BACKEND_LINK_LOCAL base out
  else if kind =? NCFG_ADDRESS_SOURCE_REPORTED then plan_reported p interface index base out
  else
    match delegated_of s, static_of s with
    | Some d, _ => plan_delegated p interface index d base out
    | None, Some s => plan_static p interface index s base out
    | None, None => mret (p, out)
    end.

(** The loop of [ncfg_plan_interface_contents] over the sources. *)
Fixpoint plan_sources (p : planner) (interface : iface) (index : nat) (l : list source) (base out : plan_ids) : M (planner * plan_ids) :=
  match l with
  | [] => mret (p, out)
  | s :: rest =>
      r ← plan_source p interface index s base out;
      plan_sources r.1 interface (S index) rest base r.2
  end.

(** *** Sets of links *)

(** [reserve]. *)
Fixpoint replace_standby (l : list plan_standby) (interface set instead : cstr) : option (list plan_standby) :=
  match l with
  | [] => None
  | s :: rest =>
      if named (ps_interface s) interface then Some (PlanStandby (ps_interface s) set instead :: rest)
      else (fun rest => s :: rest) <$> replace_standby rest interface set instead
  end.

Definition reserve (p : planner) (interface set instead : cstr) : M planner :=
  match replace_standby (pl_standby p) interface set instead with
  | Some l => mret (with_standby l p)
  | None =>
      ok ← ops_room;
      mret (if (ok : bool) then with_standby (pl_standby p ++ [PlanStandby interface set instead]) p else p)
  end.

(** [drop_the_chosen]. *)
Definition drop_the_chosen (p : planner) (chosen : list cstr) : planner :=
  with_standby (List.filter (fun s => negb (plan_names chosen (ps_interface s))) (pl_standby p)) p.

(** The loop of [ncfg_plan_standby_collect] over the members of a choice. *)
Fixpoint reserve_members (p : planner) (members : list (value standing_type)) (set instead : cstr) : M planner :=
  match members with
  | [] => mret p
  | m :: rest =>
      match st_interface m with
      | None => reserve_members p rest set instead
      | Some i =>
          member ← ops_intern (cs (Some i));
          match member with
          | None => mret p
          | Some _ =>
              p ← reserve p member set instead;
              reserve_members p rest set instead
          end
      end
  end.

(** Its loop over the sets; [None] is a set at which it stops. *)
Definition standby_of_set (p : planner) (chosen : list cstr) (set : value linkset_type) : M (option (planner * list cstr)) :=
  match (get linkset_type "name" set : text) with
  | None => mret (Some (p, chosen))
  | Some n =>
      decision ← ops_run (linkset_choose (Some (pl_desired p)) (Some (pl_observed p)) (Some n));
      match decision with
      | None => mret None
      | Some None => mret (Some (p, chosen))
      | Some (Some d) =>
          let active := (get chosen_type "active" d : text) in
          let winner := (get chosen_type "interface" d : text) in
          set_name ← ops_intern (cs (Some n));
          instead ← match active with Some _ => ops_intern (cs active) | None => mret None end;
          match set_name, active, instead with
          | None, _, _ | _, Some _, None => mret None
          | _, _, _ =>
              noted ← match winner with
                      | None => mret (Some chosen)
                      | Some _ =>
                          w ← ops_intern (cs winner);
                          match w with
                          | None => mret None
                          | Some _ => chosen ← note_string chosen w; mret (Some chosen)
                          end
                      end;
              match noted with
              | None => mret None
              | Some chosen =>
                  p ← reserve_members p (get chosen_type "members" d) set_name instead;
                  mret (Some (p, chosen))
              end
          end
      end
  end.

Fixpoint standby_sets (p : planner) (chosen : list cstr) (sets : list (value linkset_type)) : M (planner * list cstr) :=
  match sets with
  | [] => mret (p, chosen)
  | set :: rest =>
      r ← standby_of_set p chosen set;
      match r with
      | None => mret (p, chosen)
      | Some (p, chosen) => standby_sets p chosen rest
      end
  end.

(** [ncfg_plan_standby_collect]. *)
Definition standby_collect (p : planner) : M planner :=
  r ← standby_sets p [] (get document_type "linksets" (pl_desired p));
  mret (drop_the_chosen r.1 r.2).

(** [ncfg_plan_standby_warn]. *)
Definition standby_warn (p : planner) (name : cstr) : M unit :=
  match standby_of p name with
  | None => mret ()
  | Some s =>
      match ps_instead s with
      | Some instead =>
          ops_warnf name ("`" +:+ fmt (ps_set s) +:+ "` is using " +:+ instead +:+ ", so " +:+ fmt name +:+ "'s routes are not installed")
      | None =>
          ops_warnf name ("`" +:+ fmt (ps_set s) +:+ "` has nothing it can use, so " +:+ fmt name +:+ "'s routes are not installed")
      end
  end.

(** *** Routes *)

(** [own]. *)
Definition own (t : cstr) : M cstr :=
  ok ← ops_room;
  mret (if (ok : bool) then t else None).

(** A route of a report, synthesised; [None] where there was no room. *)
Definition report_route (destination via : cstr) : M (option route) :=
  destination ← own destination;
  taken ← match via with Some _ => own via | None => mret None end;
  mret (match destination, via, taken with
        | None, _, _ | _, Some _, None => None
        | _, _, _ => Some (Route destination taken None None None None (bool_decide (is_Some via)) None)
        end).

(** The loops of [ncfg_plan_routes_for] over the gateways and the routes of the
    report: what was written so far, and whether there was room. *)
Fixpoint gateway_routes (l : list route) (gateways : list text) : M (list route * bool) :=
  match gateways with
  | [] => mret (l, true)
  | g :: rest =>
      match match g with Some _ => address_canonical g ADDRESS_MAX | None => None end with
      | None => gateway_routes l rest
      | Some canonical =>
          r ← report_route (Some "default") (cs (Some canonical));
          match r with
          | None => mret (l, false)
          | Some r => gateway_routes (l ++ [r]) rest
          end
      end
  end.

Fixpoint named_routes (l : list route) (reported : list (value reported_route_type)) : M (list route) :=
  match reported with
  | [] => mret l
  | one :: rest =>
      match destination_of (get reported_route_type "destination" one) ADDRESS_MAX with
      | None => named_routes l rest
      | Some destination =>
          let via := (get reported_route_type "via" one : text) in
          match via, match via with Some _ => address_canonical via ADDRESS_MAX | None => None end with
          | Some _, None => named_routes l rest
          | _, canonical =>
              r ← report_route (cs (Some destination)) (cs canonical);
              match r with
              | None => mret l
              | Some r => named_routes (l ++ [r]) rest
              end
          end
      end
  end.

(** [ncfg_plan_routes_for]. *)
Definition routes_for (p : planner) (interface : iface) : M (list route) :=
  let documented := map route_of (get interface_type "routes" interface : list (value route_type)) in
  room ← match documented with [] => mret true | _ => ops_room end;
  if negb (room : bool) then mret []
  else if negb (takes_reports (pl_desired p) interface) then mret documented
  else
    match report_for (pl_observed p) (iface_name interface) with
    | None => mret documented
    | Some r =>
        let gateways := (get observed_report_type "gateways" r : list text) in
        let reported := (get observed_report_type "routes" r : list (value reported_route_type)) in
        if ((length gateways + length reported =? 0)%nat) then mret documented
        else
          room ← ops_room;
          if negb (room : bool) then mret documented
          else
            l ← gateway_routes documented gateways;
            if negb (l.2 : bool) then mret l.1
            else named_routes l.1 reported
    end.

(** Rule 4: the additions of the plan whose subnet the next hop lies in. *)
Fixpoint wait_for_added (interface via : cstr) (added : list plan_added) (deps : plan_ids) : M plan_ids :=
  match added with
  | [] => mret deps
  | a :: rest =>
      if text_equal (pa_interface a) interface && subnet_contains (bytes <$> pa_address a) (bytes <$> via) then
        deps ← ids_push deps (pa_id a);
        wait_for_added interface via rest deps
      else wait_for_added interface via rest deps
  end.

(** What withholds the routes of an interface that has a preference. *)
Definition no_carrier (p : planner) (interface : iface) : bool :=
  match preference interface, observed_link (Some (pl_observed p)) (get interface_type "name" interface) with
  | Some _, Some link => negb (get observed_link_type "carrier" link)
  | _, _ => false
  end.

Definition unreachable (p : planner) (interface : iface) : bool :=
  match preference interface, observed_link (Some (pl_observed p)) (get interface_type "name" interface) with
  | Some _, Some link => match (get observed_link_type "reachable" link : option bool) with Some r => negb r | None => false end
  | _, _ => false
  end.

(** [ncfg_plan_route]. *)
Definition plan_route (p : planner) (interface : iface) (r : route) (base : plan_ids) : M unit :=
  let name := iface_name interface in
  let wanted := with_metric p r interface in
  match standby_of p name with
  | Some _ => standby_warn p name
  | None =>
      if no_carrier p interface then
        ops_warnf name ("no carrier, so " +:+ fmt name +:+ "'s routes are not installed")
      else if unreachable p interface then
        ops_warnf name (fmt name +:+ "'s probe says it is not reaching anything, so its routes are not installed")
      else if existsb (fun seen => text_equal (or_interface seen) name && route_matches wanted seen) (routes (pl_observed p)) then mret ()
      else
        deps ← ids_extend no_ids (pi_ids base);
        deps ← ids_note deps (builder_link_up p name);
        deps ← (if negb (rt_onlink wanted) && bool_decide (is_Some (rt_via wanted))
                then wait_for_added name (rt_via wanted) (pl_added p) deps else mret deps);
        rendered ← ops_intern (Some (route_text wanted));
        _ ← builder_push (pl_builder p) (ROUTE_ADD name (Some wanted)) (reason_absent name (Some "routes") rendered)
              (pi_ids deps) (Some (ROUTE_DEL name (Some wanted)));
        mret ()
  end.

Fixpoint plan_routes (p : planner) (interface : iface) (l : list route) (base : plan_ids) : M unit :=
  match l with
  | [] => mret ()
  | r :: rest => _ ← plan_route p interface r base; plan_routes p interface rest base
  end.

(** *** Helpers that stop, start and start again *)

(** [ncfg_plan_metric_restart]. *)
Definition metric_restart (p : planner) (interface : iface) (base : plan_ids) : M unit :=
  let name := iface_name interface in
  match (get interface_type "name" interface : text), observed_effective_metric (Some (pl_desired p)) (Some (pl_observed p)) (Some interface) with
  | Some n, Some wanted =>
      if negb (addressing_asks_for interface NCFG_BACKEND_DHCP4) ||
         negb (observed_backend_running (Some (pl_observed p)) NCFG_BACKEND_DHCP4 (Some n)) then mret ()
      else
        let installed := installed_metric (pl_observed p) name in
        let differs (seen : option Z) := match seen with Some m => negb (m =? wanted) | None => false end in
        let seen := if differs installed then installed else started_with_another (pl_observed p) name wanted in
        match seen with
        | None => mret ()
        | Some seen =>
            if seen =? wanted then mret ()
            else
              let restarts := observed_backend_restarts (Some (pl_observed p)) NCFG_BACKEND_DHCP4 (Some n) in
              if NCFG_PLAN_RESTART_LIMIT <=? restarts then
                ops_warnf name (fmt name +:+ "'s lease route still carries metric " +:+ pretty seen +:+ " rather than the " +:+ pretty wanted +:+
                  " its network asks for, and the client has been restarted " +:+ pretty restarts +:+
                  " times -- netcfgd is leaving it alone rather than looping")
              else
                _ ← ops_warnf name ("restarting the DHCP client on " +:+ fmt name +:+ " so its route takes metric " +:+ pretty wanted +:+
                      " rather than " +:+ pretty seen +:+ "; the lease is dropped for as long as the exchange takes");
                desired ← internf (pretty wanted);
                observed ← internf (pretty seen);
                let why := reason_differs name (Some "route.metric") desired observed in
                deps ← ids_extend no_ids (pi_ids base);
                stop ← builder_push (pl_builder p) (BACKEND_STOP BACKEND_DHCP4 name) why (pi_ids deps) (Some (BACKEND_START BACKEND_DHCP4 name));
                if stop =? NO_ACTION then mret ()
                else
                  _ ← builder_push (pl_builder p) (BACKEND_START BACKEND_DHCP4 name) why [stop] (Some (BACKEND_STOP BACKEND_DHCP4 name));
                  mret ()
        end
  | _, _ => mret ()
  end.

(** [ncfg_plan_stale_tunnel]. *)
Definition stale_tunnel (p : planner) (device : value device_type) : M unit :=
  let name := cs (get device_type "name" device) in
  let running := List.find (fun b : value observed_backend_type =>
    (get observed_backend_type "kind" b =? NCFG_BACKEND_OPENVPN) && get observed_backend_type "running" b &&
    named (cs (get observed_backend_type "interface" b)) name) (backends (pl_observed p)) in
  if negb (device_kind device =? NCFG_KIND_OPENVPN) then mret ()
  else
    match name, running with
    | Some n, Some backend =>
        match (get observed_backend_type "config_present" backend : option bool), (get observed_backend_type "config_matches" backend : option bool) with
        | Some false, _ =>
            ops_warnf name ("the openvpn configuration for " +:+ n +:+ " cannot be read, so netcfgd cannot tell whether the running tunnel " +:+
              "still matches it -- the tunnel is left alone rather than dropped, and it is still running the file it was started with")
        | _, Some false =>
            _ ← ops_warnf name ("the openvpn configuration for " +:+ n +:+ " has changed since the tunnel was started, and openvpn reads it " +:+
                  "once -- so the tunnel is restarted, which drops it for as long as the handshake takes");
            let why := reason_differs name (Some "openvpn.config") (Some "the file as it is now") (Some "the file the tunnel was started from") in
            stop ← builder_push (pl_builder p) (BACKEND_STOP BACKEND_OPENVPN name) why [] (Some (BACKEND_START BACKEND_OPENVPN name));
            if stop =? NO_ACTION then mret ()
            else
              _ ← builder_push (pl_builder p) (BACKEND_START BACKEND_OPENVPN name) why [stop] (Some (BACKEND_STOP BACKEND_OPENVPN name));
              mret ()
        | _, _ => mret ()
        end
    | _, _ => mret ()
    end.

(** [ncfg_plan_session]. *)
Definition plan_session (p : planner) (device : value device_type) : M unit :=
  match session_kind_of device with
  | None => mret ()
  | Some (kind, field) =>
      let name := (get device_type "name" device : text) in
      base ← builder_gate (pl_builder p) (cs name);
      _ ← plan_backend p name kind (Some field) base no_ids;
      match observed_link (Some (pl_observed p)) name with
      | Some _ => mret ()
      | None =>
          ops_warnf (cs name) (fmt (cs name) +:+ " is not up yet; addressing and routes are planned once its " +:+ field +:+
            " daemon has brought it into existence")
      end
  end.

(** [ncfg_plan_dot1x]. *)
Definition plan_dot1x (p : planner) (interface : iface) (base out : plan_ids) : M plan_ids :=
  if has_dot1x interface then plan_backend p (get interface_type "name" interface) BACKEND_SUPPLICANT (Some "dot1x") base out else mret out.

(** [ncfg_plan_access_point]. *)
Definition running_supplicant (observed : value observed_type) (name : cstr) : option (value observed_backend_type) :=
  last (List.filter (fun b : value observed_backend_type =>
    get observed_backend_type "running" b && (get observed_backend_type "kind" b =? NCFG_BACKEND_SUPPLICANT) &&
    named (cs (get observed_backend_type "interface" b)) name) (backends observed)).

Definition plan_access_point (p : planner) (interface : iface) (base out : plan_ids) : M (planner * plan_ids) :=
  let raw := (get interface_type "name" interface : text) in
  let name := iface_name interface in
  let making := match plan_device (pl_desired p) raw, observed_link (Some (pl_observed p)) raw with
                | Some d, None => device_kind d =? NCFG_KIND_RADIO
                | _, _ => false
                end in
  if has_dot1x interface || negb (access_point_wanted (pl_desired p) raw) then mret (p, out)
  else if making then
    _ ← ops_warnf name ("the access point on `" +:+ fmt name +:+ "` starts once the radio exists: what it can do is read from it, so the apply " +:+
          "after this one starts it");
    mret (p, out)
  else
    gated ← ids_extend no_ids (pi_ids base);
    match running_supplicant (pl_observed p) name with
    | Some running =>
        if supplicant_wanted (pl_desired p) (pl_observed p) raw then
          out ← plan_backend p raw BACKEND_ACCESS_POINT (Some "access_point") gated out;
          mret (p, out)
        else
          let on := cs (get observed_backend_type "interface" running) in
          id ← builder_push (pl_builder p) (BACKEND_STOP BACKEND_SUPPLICANT on)
                 (reason_unwanted on (Some "wifi/dot1x") (cs (backend_kind_name NCFG_BACKEND_SUPPLICANT))) (pi_ids base)
                 (Some (BACKEND_START BACKEND_SUPPLICANT on));
          gated ← ids_push gated id;
          stopped ← note_string (pl_stopped_early p) on;
          let p := with_stopped stopped p in
          out ← plan_backend p raw BACKEND_ACCESS_POINT (Some "access_point") gated out;
          mret (p, out)
    | None =>
        out ← plan_backend p raw BACKEND_ACCESS_POINT (Some "access_point") gated out;
        mret (p, out)
    end.

(** [ncfg_plan_radio_supplicant]. *)
Definition plan_radio_supplicant (p : planner) (interface : iface) (base out : plan_ids) : M plan_ids :=
  let name := (get interface_type "name" interface : text) in
  if has_dot1x interface || negb (radio_supplicant_wanted (pl_desired p) (pl_observed p) name) then mret out
  else
    plan_backend p name BACKEND_SUPPLICANT
      (Some (match document_mesh (Some (pl_desired p)) name with Some _ => "mesh" | None => "wifi" end)) base out.

(** *** Teardown *)

(** What [teardown_routes] asks of one route. *)
Definition route_wanted (p : planner) (seen : value observed_route_type) : M bool :=
  match plan_interface (pl_desired p) (get observed_route_type "interface" seen) with
  | None => mret false
  | Some interface =>
      if no_carrier p interface then mret false
      else if unreachable p interface then mret false
      else
        match standby_of p (iface_name interface) with
        | Some _ => mret false
        | None =>
            l ← routes_for p interface;
            mret (existsb (fun r => route_matches (with_metric p r interface) seen) l)
        end
  end.

Fixpoint teardown_routes (p : planner) (l : list (value observed_route_type)) : M unit :=
  match l with
  | [] => mret ()
  | seen :: rest =>
      if negb (ours_from_config (get observed_route_type "ownership" seen) (get observed_route_type "origin" seen)) then teardown_routes p rest
      else
        wanted ← route_wanted p seen;
        if (wanted : bool) then teardown_routes p rest
        else
          let name := or_interface seen in
          let model := route_seen seen in
          rendered ← ops_intern (Some (route_text model));
          _ ← builder_push (pl_builder p) (ROUTE_DEL name (Some model)) (reason_unwanted name (Some "routes") rendered) []
                (Some (ROUTE_ADD name (Some model)));
          teardown_routes p rest
  end.

Fixpoint teardown_addresses (p : planner) (l : list (value observed_address_type)) : M unit :=
  match l with
  | [] => mret ()
  | seen :: rest =>
      if negb (ours_from_config (get observed_address_type "ownership" seen) (get observed_address_type "origin" seen)) then teardown_addresses p rest
      else if address_wanted (pl_desired p) (pl_observed p) seen then teardown_addresses p rest
      else
        let name := oa_interface seen in
        let address := cs (oa_address seen) in
        _ ← builder_push (pl_builder p) (ADDR_DEL name address) (reason_unwanted name (Some "addressing") address) []
              (Some (ADDR_ADD name address None None));
        teardown_addresses p rest
  end.

(** [ncfg_plan_teardown_backends]. *)
Definition stopped_already (p : planner) (backend : value observed_backend_type) : bool :=
  (get observed_backend_type "kind" backend =? NCFG_BACKEND_SUPPLICANT) &&
  plan_names (pl_stopped_early p) (cs (get observed_backend_type "interface" backend)).

Fixpoint teardown_backends (p : planner) (l : list (value observed_backend_type)) : M unit :=
  match l with
  | [] => mret ()
  | backend :: rest =>
      if negb (get observed_backend_type "running" backend) || (backend_wanted p backend).1 || stopped_already p backend then teardown_backends p rest
      else
        let name := cs (get observed_backend_type "interface" backend) in
        match backend_of_number (get observed_backend_type "kind" backend) with
        | None => teardown_backends p rest
        | Some kind =>
            _ ← builder_push (pl_builder p) (BACKEND_STOP kind name)
                  (reason_unwanted name (Some (backend_wanted p backend).2) (cs (backend_kind_name (backend_number kind)))) []
                  (Some (BACKEND_START kind name));
            teardown_backends p rest
        end
  end.

Fixpoint teardown_links (p : planner) (l : list (value observed_link_type)) : M unit :=
  match l with
  | [] => mret ()
  | link :: rest =>
      let name := (get observed_link_type "name" link : text) in
      if negb (ownership_may_remove (get observed_link_type "ownership" link)) || bool_decide (is_Some (plan_device (pl_desired p) name))
      then teardown_links p rest
      else
        _ ← builder_push (pl_builder p) (LINK_DELETE (cs name))
              (reason_unwanted (cs name) (Some "kind") (Some (absent_text (get observed_link_type "kind" link)))) [] None;
        teardown_links p rest
  end.

(** [ncfg_plan_teardown]. *)
Definition plan_teardown (p : planner) : M unit :=
  _ ← teardown_routes p (routes (pl_observed p));
  _ ← teardown_addresses p (addresses (pl_observed p));
  _ ← teardown_backends p (backends (pl_observed p));
  teardown_links p (links (pl_observed p)).

(** *** Clearing a device the document gave up *)

Definition with_clearing (b : builder) (clearing : list cstr) (tearing_down : bool) : builder :=
  Builder (bd_desired b) (bd_options b) (bd_guards b) (bd_gates b) (bd_declined b) (bd_appearing b) (bd_unmanaged b) clearing tearing_down.

(** The document [ncfg_plan_clearing_begin] puts in place of the one it has. *)
Definition without_clearing (b : builder) (desired : value document_type) : value document_type :=
  update document_type "devices"
    (List.filter (fun d : value device_type => negb (plan_clearing b (cs (get device_type "name" d)))))
    (update document_type "interfaces" (List.filter (fun i : iface => negb (plan_clearing b (iface_name i)))) desired).

(** An array of as many elements; none is asked for where there are none. *)
Definition room_unless_empty {A} (l : list A) : M bool := match l with [] => mret true | _ => ops_room end.

(** [ncfg_plan_clearing_begin]. *)
Definition clearing_begin (p : planner) : M planner :=
  let p := with_builder (with_clearing (pl_builder p) (bd_clearing (pl_builder p)) true) p in
  match bd_clearing (pl_builder p) with
  | [] => mret p
  | _ =>
      copy ← ops_room;
      interfaces ← room_unless_empty (get document_type "interfaces" (pl_desired p) : list iface);
      devices ← room_unless_empty (get document_type "devices" (pl_desired p) : list (value device_type));
      mret (if (copy : bool) && interfaces && devices
            then with_documents (without_clearing (pl_builder p) (pl_desired p)) (Some (pl_desired p)) p else p)
  end.

(** [ncfg_plan_clearing_end]. *)
Definition clearing_end (p : planner) : planner :=
  let p := with_builder (with_clearing (pl_builder p) [] false) p in
  match pl_unfiltered p with Some d => with_documents d None p | None => p end.

(** The end of [ncfg_plan_build]. *)
Definition plan_ending (p : planner) : M planner :=
  p ← clearing_begin p;
  _ ← plan_teardown p;
  mret (clearing_end p).

End Pass.
End Passes.
