(* ===== verification/AddressSpec.v ===== *)
(** * AddressSpec: what the teardown takes away, and in what order addresses and
    routes go in *)
From Stdlib Require Import Sorting.Sorted.
From stdpp Require Import gmap pretty.
From S2P Require Import Prelude Wire Op Heap Plan PlanSpec Value ValueSpec InetText Builder BuilderSpec Json JsonWrite DocText Field Document Canonical DocumentOps DocumentRoundtrip Observed ObservedOps Linkset LinksetSpec Owned AddressPass.
#[local] Open Scope string_scope.
#[local] Open Scope list_scope.
#[local] Open Scope Z_scope.

(** ** The passes on a plan are the passes on its lists *)

(** A function of the model whose answer does not depend on which requests for
    memory were made before. *)
Definition steady {A} (r : R A) : Prop :=
  forall grant n x m, r grant n = inr (x, m) -> forall n', exists m', r (fun _ => true) n' = inr (x, m').

Lemma steady_ret {A} (x : A) : steady (ret x).
Proof. intros grant n y m [= <- <-] n'. by eexists. Qed.

Lemma steady_bind {A C} (r : R A) (k : A -> R C) : steady r -> (forall x, steady (k x)) -> steady (bind r k).
Proof.
  intros Hr Hk grant n y m E n'. unfold bind in *. destruct (r grant n) as [|[x m1]] eqn:Er; [done|].
  destruct (Hr _ _ _ _ Er n') as [m2 ->]. exact (Hk x _ _ _ _ E m2).
Qed.

Lemma steady_alloc : steady alloc.
Proof. intros grant n y m E n'. unfold alloc in *. destruct (grant n); [|done]. injection E as <- <-. by eexists. Qed.

Lemma steady_refuse {A} e : steady (refuse e : R A).
Proof. by intros grant n y m E. Qed.

Create HintDb steady.
#[export] Hint Resolve steady_ret steady_alloc steady_refuse : steady.

Ltac solve_steady :=
  repeat first
    [ progress intros
    | solve [eauto with steady]
    | apply steady_bind
    | match goal with |- steady (match ?x with _ => _ end) => destruct x end
    | match goal with |- steady (if ?x then _ else _) => destruct x end ].

Lemma steady_copy t : steady (copy_text t).
Proof. unfold copy_text. solve_steady. Qed.

#[export] Hint Resolve steady_copy : steady.

Section Steady.
Context {I : Inet} (document : option (value document_type)) (observed : option (value observed_type)).

Lemma steady_stand choose within member :
  (forall w n, steady (choose w n)) -> steady (stand document observed choose within member).
Proof.
  intros H. unfold stand, stand_on_set, stand_on_network, stand_on_interface. solve_steady.
Qed.

Lemma steady_stand_all choose within members :
  (forall w n, steady (choose w n)) -> steady (stand_all document observed choose within members).
Proof. intros H. induction members as [|m members IH]; cbn [stand_all]; [apply steady_ret|]. apply steady_bind; [by apply steady_stand|]. solve_steady. Qed.

Lemma steady_within fuel : forall within name, steady (choose_within document observed fuel within name).
Proof.
  induction fuel as [|fuel IH]; intros within name; cbn [choose_within]; [apply steady_refuse|]. unfold choose_from.
  destruct (linkset_find document name); [|apply steady_ret]. apply steady_bind; [apply steady_alloc|intros _].
  apply steady_bind; [apply steady_copy|intros copy]. apply steady_bind; [by destruct (get linkset_type "members" _); auto with steady|intros _].
  apply steady_bind; [by apply steady_stand_all|]. solve_steady.
Qed.

Lemma steady_choose name : steady (linkset_choose document observed name).
Proof. destruct name as [n|]; [apply steady_within|apply steady_ret]. Qed.

End Steady.

Section Refinement.
Context {I : Inet} {B : Type} (grant : nat -> bool).

Lemma run_refines {A} (r : R A) : steady r -> refines (B := B) (heap_reads grant A r) (view_reads A r).
Proof.
  intros Hr [p h] a [p' h'] E Hf. unfold heap_reads in E. destruct (r grant (h_ticks h)) as [e|[x n]] eqn:Er; [by simplify_eq|].
  injection E as <- <- <-. split; [done|]. unfold view_reads. destruct (Hr _ _ _ _ Er 0%nat) as [m ->]. done.
Qed.

Lemma run_choose_refines d o n :
  refines (B := B) (ops_run (ReadOps := heap_reads grant) (linkset_choose d o n)) (ops_run (ReadOps := view_reads) (linkset_choose d o n)).
Proof. apply run_refines, steady_choose. Qed.

Lemma push_refines b (o : op B) why deps inv :
  refines (builder_push (O := heap_ops grant) b o why deps inv) (builder_push (O := view_ops) b o why deps inv).
Proof. apply builder_push_refines. Qed.

Lemma ids_push_refines ids id : refines (B := B) (ids_push (O := heap_ops grant) ids id) (ids_push (O := view_ops) ids id).
Proof. unfold ids_push. solve_refines. Qed.

Lemma note_string_refines l v : refines (B := B) (note_string (O := heap_ops grant) l v) (note_string (O := view_ops) l v).
Proof. unfold note_string. solve_refines. Qed.

#[local] Hint Resolve push_refines ids_push_refines internf_refines note_string_refines run_choose_refines : refines.

Lemma ids_extend_refines from : forall ids, refines (B := B) (ids_extend (O := heap_ops grant) ids from) (ids_extend (O := view_ops) ids from).
Proof. induction from as [|id from IH]; intros ids; cbn [ids_extend]; solve_refines. Qed.

#[local] Hint Resolve gate_loop_refines ids_extend_refines : refines.

Lemma ids_note_refines ids id : refines (B := B) (ids_note (O := heap_ops grant) ids id) (ids_note (O := view_ops) ids id).
Proof. unfold ids_note. solve_refines. Qed.

#[local] Hint Resolve ids_note_refines : refines.

Lemma plan_backend_refines p name kind field base out :
  refines (B := B) (plan_backend (O := heap_ops grant) p name kind field base out) (plan_backend (O := view_ops) p name kind field base out).
Proof. unfold plan_backend. solve_refines. Qed.

Lemma push_address_refines p interface address pref valid why base out :
  refines (B := B) (push_address (O := heap_ops grant) p interface address pref valid why base out)
    (push_address (O := view_ops) p interface address pref valid why base out).
Proof. unfold push_address, note_added. solve_refines. Qed.

#[local] Hint Resolve plan_backend_refines push_address_refines : refines.

Lemma report_addresses_refines name field reported base : forall p out,
  refines (B := B) (plan_report_addresses (O := heap_ops grant) p name field reported base out)
    (plan_report_addresses (O := view_ops) p name field reported base out).
Proof. induction reported as [|[a|] reported IH]; intros p out; cbn [plan_report_addresses]; solve_refines. Qed.

#[local] Hint Resolve report_addresses_refines : refines.

Lemma plan_source_refines p interface index s base out :
  refines (B := B) (plan_source (O := heap_ops grant) p interface index s base out) (plan_source (O := view_ops) p interface index s base out).
Proof. unfold plan_source, plan_client, plan_reported, plan_delegated, plan_static, addressing_field. solve_refines. Qed.

#[local] Hint Resolve plan_source_refines : refines.

Lemma plan_sources_refines interface l base : forall p index out,
  refines (B := B) (plan_sources (O := heap_ops grant) p interface index l base out) (plan_sources (O := view_ops) p interface index l base out).
Proof. induction l as [|s l IH]; intros p index out; cbn [plan_sources]; solve_refines. Qed.

Lemma report_route_refines d v : refines (B := B) (report_route (O := heap_ops grant) d v) (report_route (O := view_ops) d v).
Proof. unfold report_route, own. solve_refines. Qed.

#[local] Hint Resolve report_route_refines : refines.

Lemma gateway_routes_refines gateways : forall l,
  refines (B := B) (gateway_routes (O := heap_ops grant) l gateways) (gateway_routes (O := view_ops) l gateways).
Proof. induction gateways as [|g gateways IH]; intros l; cbn [gateway_routes]; solve_refines. Qed.

Lemma named_routes_refines reported : forall l,
  refines (B := B) (named_routes (O := heap_ops grant) l reported) (named_routes (O := view_ops) l reported).
Proof. induction reported as [|g reported IH]; intros l; cbn [named_routes]; solve_refines. Qed.

#[local] Hint Resolve gateway_routes_refines named_routes_refines : refines.

Lemma routes_for_refines p interface : refines (B := B) (routes_for (O := heap_ops grant) p interface) (routes_for (O := view_ops) p interface).
Proof. unfold routes_for. solve_refines. Qed.

Lemma wait_for_added_refines interface via added : forall deps,
  refines (B := B) (wait_for_added (O := heap_ops grant) interface via added deps) (wait_for_added (O := view_ops) interface via added deps).
Proof. induction added as [|a added IH]; intros deps; cbn [wait_for_added]; solve_refines. Qed.

#[local] Hint Resolve routes_for_refines wait_for_added_refines : refines.

Lemma plan_route_refines p interface r base :
  refines (B := B) (plan_route (O := heap_ops grant) p interface r base) (plan_route (O := view_ops) p interface r base).
Proof. unfold plan_route, standby_warn. solve_refines. Qed.

#[local] Hint Resolve plan_route_refines : refines.

Lemma plan_routes_refines p interface l base :
  refines (B := B) (plan_routes (O := heap_ops grant) p interface l base) (plan_routes (O := view_ops) p interface l base).
Proof. induction l as [|r l IH]; cbn [plan_routes]; solve_refines. Qed.

Lemma route_wanted_refines p seen : refines (B := B) (route_wanted (O := heap_ops grant) p seen) (route_wanted (O := view_ops) p seen).
Proof. unfold route_wanted. solve_refines. Qed.

#[local] Hint Resolve plan_routes_refines route_wanted_refines : refines.

Lemma teardown_routes_refines p l : refines (B := B) (teardown_routes (O := heap_ops grant) p l) (teardown_routes (O := view_ops) p l).
Proof. induction l as [|r l IH]; cbn [teardown_routes]; solve_refines. Qed.

Lemma teardown_addresses_refines p l : refines (B := B) (teardown_addresses (O := heap_ops grant) p l) (teardown_addresses (O := view_ops) p l).
Proof. induction l as [|r l IH]; cbn [teardown_addresses]; solve_refines. Qed.

Lemma teardown_backends_refines p l : refines (B := B) (teardown_backends (O := heap_ops grant) p l) (teardown_backends (O := view_ops) p l).
Proof. induction l as [|r l IH]; cbn [teardown_backends]; solve_refines. Qed.

Lemma teardown_links_refines p l : refines (B := B) (teardown_links (O := heap_ops grant) p l) (teardown_links (O := view_ops) p l).
Proof. induction l as [|r l IH]; cbn [teardown_links]; solve_refines. Qed.

#[local] Hint Resolve teardown_routes_refines teardown_addresses_refines teardown_backends_refines teardown_links_refines : refines.

Lemma plan_teardown_refines p : refines (B := B) (plan_teardown (O := heap_ops grant) p) (plan_teardown (O := view_ops) p).
Proof. unfold plan_teardown. solve_refines. Qed.

#[local] Hint Resolve plan_teardown_refines : refines.

Lemma plan_ending_refines p : refines (B := B) (plan_ending (O := heap_ops grant) p) (plan_ending (O := view_ops) p).
Proof. unfold plan_ending, clearing_begin, room_unless_empty. solve_refines. Qed.

End Refinement.

(** ** What a pass asks for *)

(** A pass that only ever adds actions to the plan, each of them [ok]. *)
Section Asks.
Context {B : Type}.

Definition extends (ok : op B -> Prop) (v v' : view B) : Prop := exists l, v_actions v' = v_actions v ++ l /\ Forall (fun a => ok (ac_op a)) l.

Definition asks {A} (ok : op B -> Prop) (m : Heap.State (view B) A) : Prop := forall v x v', m v = (x, v') -> extends ok v v'.

Lemma extends_refl ok v : extends ok v v.
Proof. exists []. by rewrite app_nil_r. Qed.

Lemma extends_trans ok v1 v2 v3 : extends ok v1 v2 -> extends ok v2 v3 -> extends ok v1 v3.
Proof. intros (l1 & E1 & H1) (l2 & E2 & H2). exists (l1 ++ l2). rewrite E2, E1, app_assoc. split; [done|]. by apply Forall_app. Qed.

Lemma extends_mono (ok ok' : op B -> Prop) v v' : (forall o, ok o -> ok' o) -> extends ok v v' -> extends ok' v v'.
Proof. intros H (l & E & Hl). exists l. split; [done|]. eapply Forall_impl; [exact Hl|]. cbn. auto. Qed.

Lemma asks_mono {A} (ok ok' : op B -> Prop) (m : Heap.State (view B) A) : asks ok m -> (forall o, ok o -> ok' o) -> asks ok' m.
Proof. intros Hm H v x v' E. eapply extends_mono; [exact H|by eapply Hm]. Qed.

Lemma asks_ret {A} ok (x : A) : asks ok (@mret _ (@ops_ret B _ view_ops) A x).
Proof. intros v y v' [= <- <-]. apply extends_refl. Qed.

Lemma asks_bind {A C} ok (m : Heap.State (view B) A) (k : A -> Heap.State (view B) C) :
  asks ok m -> (forall x, asks ok (k x)) -> asks ok (@mbind _ (@ops_bind B _ view_ops) _ _ k m).
Proof.
  intros Hm Hk v y v' E. change ((let '(a, s1) := m v in k a s1) = (y, v')) in E. destruct (m v) as [x v1] eqn:Em.
  eapply extends_trans; [by eapply Hm|by eapply Hk].
Qed.

Lemma asks_warnf ok i t : asks ok (@ops_warnf B _ view_ops i t).
Proof. intros v x v' [= <- <-]. exists []. by rewrite app_nil_r. Qed.

Lemma asks_intern ok t : asks ok (@ops_intern B _ view_ops t).
Proof. intros v x v' [= <- <-]. apply extends_refl. Qed.

Lemma asks_room ok : asks ok (@ops_room B _ view_ops).
Proof. intros v x v' [= <- <-]. apply extends_refl. Qed.

Lemma asks_run {A} ok (r : R A) : asks ok (@ops_run _ view_reads A r).
Proof. intros v x v' E. injection E as _ <-. apply extends_refl. Qed.

Lemma asks_push ok b (o : op B) why deps inv : ok o -> asks ok (builder_push (O := view_ops) b o why deps inv).
Proof.
  intros Ho v x v'. rewrite push_view. unfold push_reference, view_add. destruct (silenced b o); [intros [= <- <-]; apply extends_refl|].
  destruct (refusal_of b o why); intros [= <- <-]; [exists []; by rewrite app_nil_r|]. eexists. split; [reflexivity|]. by repeat constructor.
Qed.

End Asks.

Create HintDb asks.
#[export] Hint Resolve asks_ret asks_warnf asks_intern asks_room asks_run : asks.

Ltac solve_asks :=
  repeat first
    [ progress intros
    | solve [eauto with asks]
    | apply asks_bind
    | apply asks_push; cbn; solve [auto]
    | progress cbn zeta
    | match goal with |- asks _ (match ?x with _ => _ end) => destruct x end
    | match goal with |- asks _ (if ?x then _ else _) => destruct x end ].

(** An op that adds an address or a route. *)
Definition adds {B} (o : op B) : Prop := match o with ADDR_ADD _ _ _ _ | ROUTE_ADD _ _ => True | _ => False end.

Definition is_backend {B} (o : op B) : Prop := match o with BACKEND_START _ _ | BACKEND_STOP _ _ => True | _ => False end.

Section Steps.
Context {I : Inet} {B : Type}.

Lemma asks_internf (ok : op B -> Prop) t : asks ok (internf (O := view_ops) t).
Proof. unfold internf. solve_asks. Qed.

Lemma asks_ids_push (ok : op B -> Prop) ids id : asks ok (ids_push (O := view_ops) ids id).
Proof. unfold ids_push. solve_asks. Qed.

Lemma asks_note_string (ok : op B -> Prop) l v : asks ok (note_string (O := view_ops) l v).
Proof. unfold note_string. solve_asks. Qed.

#[local] Hint Resolve asks_internf asks_ids_push asks_note_string : asks.

Lemma asks_ids_note (ok : op B -> Prop) ids id : asks ok (ids_note (O := view_ops) ids id).
Proof. unfold ids_note. solve_asks. Qed.

Lemma asks_ids_extend (ok : op B -> Prop) from : forall ids, asks ok (ids_extend (O := view_ops) ids from).
Proof. induction from as [|id from IH]; intros ids; cbn [ids_extend]; solve_asks. Qed.

Lemma asks_gate (ok : op B -> Prop) b name : asks ok (builder_gate (O := view_ops) b name).
Proof. unfold builder_gate. generalize no_ids. induction (bd_gates b) as [|g gates IH]; intros out; cbn [gate_loop]; solve_asks. Qed.

#[local] Hint Resolve asks_ids_note asks_ids_extend asks_gate : asks.

Lemma plan_backend_asks p name kind field base out : asks is_backend (plan_backend (B := B) (O := view_ops) p name kind field base out).
Proof. unfold plan_backend. solve_asks. Qed.

#[local] Hint Resolve plan_backend_asks : asks.

Lemma metric_restart_asks p interface base : asks is_backend (metric_restart (B := B) (O := view_ops) p interface base).
Proof. unfold metric_restart. solve_asks. Qed.

Lemma plan_dot1x_asks p interface base out : asks is_backend (plan_dot1x (B := B) (O := view_ops) p interface base out).
Proof. unfold plan_dot1x. solve_asks. Qed.

Lemma plan_radio_supplicant_asks p interface base out : asks is_backend (plan_radio_supplicant (B := B) (O := view_ops) p interface base out).
Proof. unfold plan_radio_supplicant. solve_asks. Qed.

Lemma plan_access_point_asks p interface base out : asks is_backend (plan_access_point (B := B) (O := view_ops) p interface base out).
Proof. unfold plan_access_point. solve_asks. Qed.

Lemma plan_session_asks p d : asks is_backend (plan_session (B := B) (O := view_ops) p d).
Proof. unfold plan_session. solve_asks. Qed.

Lemma stale_tunnel_asks p d : asks is_backend (stale_tunnel (B := B) (O := view_ops) p d).
Proof. unfold stale_tunnel. solve_asks. Qed.

End Steps.

#[export] Hint Resolve asks_internf asks_ids_push asks_note_string asks_ids_note asks_ids_extend asks_gate : asks.
#[export] Hint Resolve plan_backend_asks metric_restart_asks plan_dot1x_asks plan_radio_supplicant_asks plan_access_point_asks
  plan_session_asks stale_tunnel_asks : asks.

(** ** The routes of an interface *)

Section Routes.
Context {I : Inet}.

(** What a report's gateway and a report's route stand for. *)
Definition gateway_route (g : text) : option route :=
  match g with
  | Some _ => (fun c => Route (Some "default") (cs (Some c)) None None None None true None) <$> address_canonical g ADDRESS_MAX
  | None => None
  end.

Definition named_route (one : value reported_route_type) : option route :=
  match destination_of (get reported_route_type "destination" one) ADDRESS_MAX, (get reported_route_type "via" one : text) with
  | None, _ => None
  | Some d, None => Some (Route (cs (Some d)) None None None None None false None)
  | Some d, Some via =>
      (fun c => Route (cs (Some d)) (cs (Some c)) None None None None true None) <$> address_canonical (Some via) ADDRESS_MAX
  end.

(** The routes an interface should have: the document's, then the report's. *)
Definition wanted_routes (desired : value document_type) (observed : value observed_type) (interface : value interface_type) : list route :=
  map route_of (get interface_type "routes" interface : list (value route_type)) ++
  match (if takes_reports desired interface then report_for observed (iface_name interface) else None) with
  | Some r =>
      omap gateway_route (get observed_report_type "gateways" r : list text) ++
      omap named_route (get observed_report_type "routes" r : list (value reported_route_type))
  | None => []
  end.

Context {B : Type}.

Lemma report_route_view d via (v : view B) :
  report_route (O := view_ops) (Some d) via v =
  (Some (Route (Some d) via None None None None (bool_decide (is_Some via)) None), v).
Proof. by destruct via. Qed.

Lemma gateway_routes_view gateways : forall l (v : view B), gateway_routes (O := view_ops) l gateways v = (l ++ omap gateway_route gateways, true, v).
Proof.
  induction gateways as [|g gateways IH]; intros l v; cbn [gateway_routes omap list_omap]; [by rewrite app_nil_r|].
  unfold gateway_route at 1. destruct g as [g|]; [|apply IH]. destruct (address_canonical (Some g) ADDRESS_MAX) as [c|]; cbn [fmap option_fmap option_map]; [|apply IH].
  rewrite (view_seq _ _ _ _ _ (report_route_view _ _ _)). rewrite IH. by rewrite <- app_assoc.
Qed.

Lemma named_routes_view reported : forall l (v : view B), named_routes (O := view_ops) l reported v = (l ++ omap named_route reported, v).
Proof.
  induction reported as [|one reported IH]; intros l v; cbn [named_routes omap list_omap]; [by rewrite app_nil_r|].
  unfold named_route at 1. destruct (destination_of _ _) as [d|]; [|apply IH].
  change (cs (Some d)) with (Some (String.string_of_list_byte d)).
  destruct (get reported_route_type "via" one : text) as [via|]; cbn [fmap option_fmap option_map].
  - destruct (address_canonical (Some via) ADDRESS_MAX) as [c|]; [|apply IH]. rewrite (view_seq _ _ _ _ _ (report_route_view _ _ _)), IH. by rewrite <- app_assoc.
  - rewrite (view_seq _ _ _ _ _ (report_route_view _ None _)), IH. by rewrite <- app_assoc.
Qed.

Lemma routes_for_view p interface (v : view B) :
  routes_for (O := view_ops) p interface v = (wanted_routes (pl_desired p) (pl_observed p) interface, v).
Proof.
  unfold routes_for, wanted_routes. cbn zeta. set (documented := map route_of _).
  assert (forall k : bool -> Heap.State (view B) (list route),
    @mbind _ (@ops_bind B _ view_ops) _ _ k (match documented with [] => mret true | _ => ops_room end) v = k true v) as ->
    by (intros k; by destruct documented).
  cbn [negb]. destruct (takes_reports _ _); cbn [negb]; [|by rewrite app_nil_r].
  destruct (report_for _ _) as [r|]; [|by rewrite app_nil_r].
  destruct (Nat.eqb_spec (length (get observed_report_type "gateways" r : list text) +
    length (get observed_report_type "routes" r : list (value reported_route_type))) 0) as [E|_].
  - apply Nat.eq_add_0 in E as [E1%length_zero_iff_nil E2%length_zero_iff_nil]. rewrite E1, E2. by rewrite app_nil_r.
  - rewrite (view_seq _ _ _ true v) by done. cbn [negb].
    rewrite (view_seq _ _ _ _ _ (gateway_routes_view _ _ _)). cbn [snd fst negb].
    rewrite named_routes_view. by rewrite app_assoc.
Qed.

(** ** The teardown as a list of what goes *)

Definition withheld (p : planner) (interface : value interface_type) : bool :=
  no_carrier p interface || unreachable p interface || bool_decide (is_Some (standby_of p (iface_name interface))).

(** Whether a route the kernel holds is one the document still asks for. *)
Definition route_asked (p : planner) (seen : value observed_route_type) : bool :=
  match plan_interface (pl_desired p) (get observed_route_type "interface" seen) with
  | None => false
  | Some i =>
      negb (withheld p i) &&
      existsb (fun r => route_matches (with_metric p r i) seen) (wanted_routes (pl_desired p) (pl_observed p) i)
  end.

Lemma route_wanted_view p seen (v : view B) : route_wanted (O := view_ops) p seen v = (route_asked p seen, v).
Proof.
  unfold route_wanted, route_asked, withheld. destruct (plan_interface _ _) as [i|]; [|done].
  destruct (no_carrier p i); [done|]. destruct (unreachable p i); [done|]. cbn [orb].
  destruct (standby_of p (iface_name i)) as [s|]; [done|]. by rewrite (view_seq _ _ _ _ _ (routes_for_view _ _ _)).
Qed.

Abbreviation call := (@push_call B).

Definition route_goes (p : planner) (seen : value observed_route_type) : bool :=
  ours_from_config (get observed_route_type "ownership" seen) (get observed_route_type "origin" seen) && negb (route_asked p seen).

Definition route_call (seen : value observed_route_type) : call :=
  PushCall (ROUTE_DEL (or_interface seen) (Some (route_seen seen)))
    (reason_unwanted (or_interface seen) (Some "routes") (Some (route_text (route_seen seen)))) []
    (Some (ROUTE_ADD (or_interface seen) (Some (route_seen seen)))).

Definition address_goes (p : planner) (seen : value observed_address_type) : bool :=
  ours_from_config (get observed_address_type "ownership" seen) (get observed_address_type "origin" seen) &&
  negb (address_wanted (pl_desired p) (pl_observed p) seen).

Definition address_call (seen : value observed_address_type) : call :=
  PushCall (ADDR_DEL (oa_interface seen) (cs (oa_address seen)))
    (reason_unwanted (oa_interface seen) (Some "addressing") (cs (oa_address seen))) []
    (Some (ADDR_ADD (oa_interface seen) (cs (oa_address seen)) None None)).

Definition backend_goes (p : planner) (b : value observed_backend_type) : bool :=
  get observed_backend_type "running" b && negb (backend_wanted p b).1 && negb (stopped_already p b).

Definition backend_call (p : planner) (b : value observed_backend_type) : option call :=
  (fun kind => PushCall (BACKEND_STOP kind (cs (get observed_backend_type "interface" b)))
    (reason_unwanted (cs (get observed_backend_type "interface" b)) (Some (backend_wanted p b).2) (cs (backend_kind_name (backend_number kind)))) []
    (Some (BACKEND_START kind (cs (get observed_backend_type "interface" b))))) <$> backend_of_number (get observed_backend_type "kind" b).

Definition link_goes (p : planner) (l : value observed_link_type) : bool :=
  ownership_may_remove (get observed_link_type "ownership" l) &&
  negb (bool_decide (is_Some (plan_device (pl_desired p) (get observed_link_type "name" l)))).

Definition link_call (l : value observed_link_type) : call :=
  PushCall (LINK_DELETE (cs (get observed_link_type "name" l)))
    (reason_unwanted (cs (get observed_link_type "name" l)) (Some "kind") (Some (absent_text (get observed_link_type "kind" l)))) [] None.

(** Everything the teardown asks for, in its order. *)
Definition teardown_calls (p : planner) : list call :=
  map route_call (List.filter (route_goes p) (routes (pl_observed p))) ++
  map address_call (List.filter (address_goes p) (addresses (pl_observed p))) ++
  omap (backend_call p) (List.filter (backend_goes p) (backends (pl_observed p))) ++
  map link_call (List.filter (link_goes p) (links (pl_observed p))).

Lemma run_pushes_app b (l1 l2 : list call) (v : view B) :
  run_pushes (O := view_ops) b (l1 ++ l2) v = run_pushes (O := view_ops) b l2 (run_pushes (O := view_ops) b l1 v).2.
Proof.
  revert v. induction l1 as [|c l1 IH]; intros v; [done|]. cbn [run_pushes app].
  destruct (builder_push (O := view_ops) b (pc_op c) (pc_why c) (pc_deps c) (pc_inverse c) v) as [id v1] eqn:E.
  rewrite !(view_seq _ _ _ _ _ E). apply IH.
Qed.

(** One push and the rest. *)
Lemma push_then (b : builder) (c : call) rest (k : Heap.State (view B) unit) (v : view B) :
  (forall v, k v = run_pushes (O := view_ops) b rest v) ->
  @mbind _ (@ops_bind B _ view_ops) _ _ (fun _ => k) (builder_push (O := view_ops) b (pc_op c) (pc_why c) (pc_deps c) (pc_inverse c)) v =
  run_pushes (O := view_ops) b (c :: rest) v.
Proof.
  intros Hk. cbn [run_pushes]. destruct (builder_push (O := view_ops) b (pc_op c) (pc_why c) (pc_deps c) (pc_inverse c) v) as [id v1] eqn:E.
  by rewrite !(view_seq _ _ _ _ _ E).
Qed.

Lemma teardown_routes_view p l : forall v : view B,
  teardown_routes (O := view_ops) p l v = run_pushes (O := view_ops) (pl_builder p) (map route_call (List.filter (route_goes p) l)) v.
Proof.
  induction l as [|seen l IH]; intros v; [done|]. cbn [teardown_routes List.filter]. unfold route_goes at 1.
  destruct (ours_from_config _ _); cbn [negb andb]; [|apply IH].
  rewrite (view_seq _ _ _ _ _ (route_wanted_view _ _ _)). destruct (route_asked p seen); cbn [negb]; [apply IH|].
  rewrite (view_seq _ _ _ (Some (route_text (route_seen seen))) v) by done. exact (push_then _ (route_call seen) _ _ _ IH).
Qed.

Lemma teardown_addresses_view p l : forall v : view B,
  teardown_addresses (O := view_ops) p l v = run_pushes (O := view_ops) (pl_builder p) (map address_call (List.filter (address_goes p) l)) v.
Proof.
  induction l as [|seen l IH]; intros v; [done|]. cbn [teardown_addresses List.filter]. unfold address_goes at 1.
  destruct (ours_from_config _ _); cbn [negb andb]; [|apply IH].
  destruct (address_wanted _ _ seen); cbn [negb]; [apply IH|]. exact (push_then _ (address_call seen) _ _ _ IH).
Qed.

Lemma teardown_backends_view p l : forall v : view B,
  teardown_backends (O := view_ops) p l v = run_pushes (O := view_ops) (pl_builder p) (omap (backend_call p) (List.filter (backend_goes p) l)) v.
Proof.
  induction l as [|b l IH]; intros v; [done|]. cbn [teardown_backends List.filter]. unfold backend_goes at 1.
  destruct (get observed_backend_type "running" b); cbn [negb andb orb]; [|apply IH].
  destruct (backend_wanted p b).1; cbn [negb andb orb]; [apply IH|]. destruct (stopped_already p b); cbn [negb]; [apply IH|].
  cbn [omap list_omap]. unfold backend_call at 1. destruct (backend_of_number _) as [kind|]; cbn [fmap option_fmap option_map]; [|apply IH].
  match goal with |- _ = run_pushes _ (?c :: _) _ => exact (push_then _ c _ _ _ IH) end.
Qed.

Lemma teardown_links_view p l : forall v : view B,
  teardown_links (O := view_ops) p l v = run_pushes (O := view_ops) (pl_builder p) (map link_call (List.filter (link_goes p) l)) v.
Proof.
  induction l as [|k l IH]; intros v; [done|]. cbn [teardown_links List.filter]. unfold link_goes at 1.
  destruct (ownership_may_remove _); cbn [negb andb orb]; [|apply IH].
  destruct (bool_decide _); cbn [negb]; [apply IH|]. exact (push_then _ (link_call k) _ _ _ IH).
Qed.

Lemma plan_teardown_view p (v : view B) :
  plan_teardown (O := view_ops) p v = run_pushes (O := view_ops) (pl_builder p) (teardown_calls p) v.
Proof.
  unfold plan_teardown, teardown_calls. rewrite !run_pushes_app.
  change (@mbind _ (@ops_bind B _ view_ops) ?X ?Y ?k ?m ?s) with (let '(a, s1) := m s in k a s1).
  rewrite teardown_routes_view. destruct (run_pushes (O := view_ops) _ _ v) as [[] v1]. cbn [snd].
  change (@mbind _ (@ops_bind B _ view_ops) ?X ?Y ?k ?m ?s) with (let '(a, s1) := m s in k a s1).
  rewrite teardown_addresses_view. destruct (run_pushes (O := view_ops) _ _ v1) as [[] v2]. cbn [snd].
  change (@mbind _ (@ops_bind B _ view_ops) ?X ?Y ?k ?m ?s) with (let '(a, s1) := m s in k a s1).
  rewrite teardown_backends_view. destruct (run_pushes (O := view_ops) _ _ v2) as [[] v3]. cbn [snd]. apply teardown_links_view.
Qed.

End Routes.

(** ** What may go *)

Section MayGo.
Context {I : Inet} {B : Type}.

(** The planner the teardown runs with. *)
Definition cleared (p : planner) : planner :=
  let p := with_builder (with_clearing (pl_builder p) (bd_clearing (pl_builder p)) true) p in
  match bd_clearing (pl_builder p) with
  | [] => p
  | _ => with_documents (without_clearing (pl_builder p) (pl_desired p)) (Some (pl_desired p)) p
  end.

(** An op that takes away something of netcfgd's that nothing asks for. *)
Inductive may_go (p : planner) : op B -> Prop :=
| route_may_go seen :
    seen ∈ routes (pl_observed p) ->
    get observed_route_type "ownership" seen = NCFG_OWNERSHIP_OURS -> get observed_route_type "origin" seen = Some NCFG_ORIGIN_STATIC ->
    (forall i, plan_interface (pl_desired p) (get observed_route_type "interface" seen) = Some i ->
      withheld p i = true \/ forall r, r ∈ wanted_routes (pl_desired p) (pl_observed p) i -> route_matches (with_metric p r i) seen = false) ->
    may_go p (ROUTE_DEL (or_interface seen) (Some (route_seen seen)))
| address_may_go seen :
    seen ∈ addresses (pl_observed p) ->
    get observed_address_type "ownership" seen = NCFG_OWNERSHIP_OURS -> get observed_address_type "origin" seen = Some NCFG_ORIGIN_STATIC ->
    (forall i s, plan_interface (pl_desired p) (get observed_address_type "interface" seen) = Some i -> s ∈ addressing i ->
      source_holds (pl_observed p) seen s = false) ->
    may_go p (ADDR_DEL (oa_interface seen) (cs (oa_address seen)))
| backend_may_go b kind :
    b ∈ backends (pl_observed p) -> get observed_backend_type "running" b = true ->
    get observed_backend_type "kind" b = backend_number kind -> (backend_wanted p b).1 = false -> stopped_already p b = false ->
    may_go p (BACKEND_STOP kind (cs (get observed_backend_type "interface" b)))
| link_may_go l :
    l ∈ links (pl_observed p) -> get observed_link_type "ownership" l = NCFG_OWNERSHIP_OURS ->
    plan_device (pl_desired p) (get observed_link_type "name" l) = None ->
    may_go p (LINK_DELETE (cs (get observed_link_type "name" l))).

(** What no lock, guard or unmanaged device keeps out. *)
Definition lets_through (b : builder) (o : op B) : Prop := silenced b o = false /\ locked_subject b o = None /\ guarding b o = None.

(** Rule 7's order. *)
Definition teardown_phase (o : op B) : nat :=
  match o with ROUTE_DEL _ _ => 0 | ADDR_DEL _ _ => 1 | BACKEND_STOP _ _ => 2 | _ => 3 end.

Lemma backend_number_inj k k' : backend_number k = backend_number k' -> k = k'.
Proof. by destruct k, k'. Qed.

Lemma backend_of_number_exact n k : backend_of_number n = Some k <-> n = backend_number k.
Proof.
  split.
  - unfold backend_of_number. intros E. apply find_some in E as [_ E]. apply Z.eqb_eq in E. done.
  - intros ->. by destruct k.
Qed.

Lemma ours_exact w o : ours_from_config w o = true <-> w = NCFG_OWNERSHIP_OURS /\ o = Some NCFG_ORIGIN_STATIC.
Proof.
  unfold ours_from_config, ownership_may_remove. rewrite andb_true_iff, Z.eqb_eq. destruct o as [o|]; [rewrite Z.eqb_eq|]; naive_solver.
Qed.

Lemma forallb_not {A} (f : A -> bool) l : existsb f l = false <-> forall x, x ∈ l -> f x = false.
Proof.
  induction l as [|x l IH]; cbn; [split; [by intros _ y ?%not_elem_of_nil|done]|].
  rewrite orb_false_iff, IH. split; [|intros H; split; [apply H; left|intros y Hy; apply H; by right]].
  intros [H1 H2] y [->|Hy]%elem_of_cons; auto.
Qed.

Lemma route_goes_exact p seen :
  route_goes p seen = true <->
  get observed_route_type "ownership" seen = NCFG_OWNERSHIP_OURS /\ get observed_route_type "origin" seen = Some NCFG_ORIGIN_STATIC /\
  (forall i, plan_interface (pl_desired p) (get observed_route_type "interface" seen) = Some i ->
      withheld p i = true \/ forall r, r ∈ wanted_routes (pl_desired p) (pl_observed p) i -> route_matches (with_metric p r i) seen = false).
Proof.
  unfold route_goes, route_asked. rewrite andb_true_iff, ours_exact, negb_true_iff, Logic.and_assoc.
  destruct (plan_interface _ _) as [i|]; [|naive_solver]. rewrite andb_false_iff, negb_false_iff, forallb_not. naive_solver.
Qed.

Lemma address_goes_exact p seen :
  address_goes p seen = true <->
  get observed_address_type "ownership" seen = NCFG_OWNERSHIP_OURS /\ get observed_address_type "origin" seen = Some NCFG_ORIGIN_STATIC /\
  (forall i s, plan_interface (pl_desired p) (get observed_address_type "interface" seen) = Some i -> s ∈ addressing i ->
      source_holds (pl_observed p) seen s = false).
Proof.
  unfold address_goes, address_wanted. rewrite andb_true_iff, ours_exact, negb_true_iff, Logic.and_assoc.
  destruct (plan_interface _ _) as [i|]; [|naive_solver]. rewrite forallb_not. naive_solver.
Qed.

Lemma elem_of_filter_true {A} (f : A -> bool) l x : x ∈ List.filter f l <-> x ∈ l /\ f x = true.
Proof. rewrite !list_elem_of_In. apply filter_In. Qed.

Lemma teardown_calls_exact p (o : op B) : o ∈ map pc_op (teardown_calls p) <-> may_go p o.
Proof.
  unfold teardown_calls. rewrite !map_app, !elem_of_app, !map_map. split.
  - intros [H|[H|[H|H]]].
    + apply list_elem_of_fmap in H as (seen & -> & [Hin Hg]%elem_of_filter_true). apply route_goes_exact in Hg as (? & ? & ?). by constructor.
    + apply list_elem_of_fmap in H as (seen & -> & [Hin Hg]%elem_of_filter_true). apply address_goes_exact in Hg as (? & ? & ?). by constructor.
    + apply list_elem_of_fmap in H as (c & -> & (b & Hb & Hc)%list_elem_of_omap). apply elem_of_filter_true in Hb as [Hin Hg].
      unfold backend_call in Hc. destruct (backend_of_number _) as [kind|] eqn:E; [|done]. injection Hc as <-. apply backend_of_number_exact in E.
      unfold backend_goes in Hg. rewrite !andb_true_iff, !negb_true_iff in Hg. destruct Hg as [[? ?] ?]. by apply backend_may_go.
    + apply list_elem_of_fmap in H as (l & -> & [Hin Hg]%elem_of_filter_true). unfold link_goes, ownership_may_remove in Hg.
      rewrite andb_true_iff, Z.eqb_eq, negb_true_iff, bool_decide_eq_false, <- eq_None_not_Some in Hg. destruct Hg. by apply link_may_go.
  - intros [seen Hin H1 H2 H3|seen Hin H1 H2 H3|b kind Hin H1 H2 H3 H4|l Hin H1 H2].
    + left. apply list_elem_of_fmap. exists seen. split; [done|]. apply elem_of_filter_true. split; [done|]. by apply route_goes_exact.
    + right; left. apply list_elem_of_fmap. exists seen. split; [done|]. apply elem_of_filter_true. split; [done|]. by apply address_goes_exact.
    + right; right; left. apply backend_of_number_exact in H2.
      apply list_elem_of_fmap. eexists. split; [|apply list_elem_of_omap; exists b; split; [apply elem_of_filter_true; split; [done|]|unfold backend_call; by rewrite H2]]; [done|].
      unfold backend_goes. by rewrite H1, H3, H4.
    + right; right; right. apply list_elem_of_fmap. exists l. split; [done|]. apply elem_of_filter_true. split; [done|].
      unfold link_goes, ownership_may_remove. rewrite H1, H2. done.
Qed.

Lemma admitted_exact b (c : push_call) : admitted b c = true <-> lets_through b (pc_op c).
Proof.
  unfold admitted, lets_through, refusal_of. rewrite andb_true_iff, negb_true_iff, bool_decide_eq_true.
  destruct (locked_subject b (pc_op c)), (guarding b (pc_op c)); naive_solver.
Qed.

Lemma clearing_begin_view p (v : view B) : clearing_begin (O := view_ops) p v = (cleared p, v).
Proof.
  unfold clearing_begin, cleared. cbn zeta. destruct (bd_clearing _); [done|].
  rewrite (view_seq _ _ _ true v) by done. unfold room_unless_empty.
  rewrite (view_seq _ _ _ true v) by (by destruct (get document_type "interfaces" _ : list (value interface_type))).
  rewrite (view_seq _ _ _ true v) by (by destruct (get document_type "devices" _ : list (value device_type))). done.
Qed.

Lemma run_pushes_extends b (calls : list push_call) : asks (fun _ => True) (run_pushes (B := B) (O := view_ops) b calls).
Proof. induction calls as [|c calls IH]; cbn [run_pushes]; solve_asks. Qed.

Lemma run_pushes_ops b (calls : list push_call) (v v' : view B) :
  run_pushes (O := view_ops) b calls v = ((), v') ->
  exists l, v_actions v' = v_actions v ++ l /\ map ac_op l = map pc_op (List.filter (admitted b) calls).
Proof.
  intros E. destruct (run_pushes_view b calls v v' E) as [Ha _]. destruct (run_pushes_extends b calls v () v' E) as (l & El & _).
  exists l. split; [done|]. rewrite El, map_app in Ha. apply app_inv_head, (f_equal (map (fun x => x.1.1))) in Ha.
  by rewrite !map_map in Ha.
Qed.

(** The order of the phases. *)
Lemma phase_sorted (l : list (op B)) : forall n, Forall (fun o => teardown_phase o = n) l -> StronglySorted le (map teardown_phase l).
Proof.
  induction l as [|o l IH]; intros n H; cbn; [constructor|]. apply Forall_cons in H as [H1 H2]. constructor; [by eapply IH|].
  rewrite Forall_fmap. eapply Forall_impl; [exact H2|]. cbn. lia.
Qed.

Lemma strongly_sorted_app (l1 l2 : list nat) :
  StronglySorted le l1 -> StronglySorted le l2 -> (forall x y, x ∈ l1 -> y ∈ l2 -> (x <= y)%nat) -> StronglySorted le (l1 ++ l2).
Proof.
  intros H1 H2 H. induction H1 as [|x l1 H1 IH Hx]; [done|]. cbn. constructor; [apply IH; intros; apply H; [by right|done]|].
  apply Forall_app. split; [done|]. apply Forall_forall. intros y Hy. apply H; [by left|done].
Qed.

Lemma filter_sorted (f : push_call -> bool) (l : list (@push_call B)) :
  StronglySorted le (map (fun c => teardown_phase (pc_op c)) l) -> StronglySorted le (map (fun c => teardown_phase (pc_op c)) (List.filter f l)).
Proof.
  induction l as [|c l IH]; cbn; intros H; [done|]. apply StronglySorted_inv in H as [H1 H2]. destruct (f c); [|by apply IH]. cbn. constructor; [by apply IH|].
  apply Forall_forall. intros x Hx. apply list_elem_of_fmap in Hx as (d & -> & [Hd _]%elem_of_filter_true).
  rewrite Forall_forall in H2. apply H2. by apply (list_elem_of_fmap_2 (fun c => teardown_phase (pc_op c))).
Qed.

Lemma phases_sorted p : StronglySorted le (map (fun c => teardown_phase (pc_op c)) (teardown_calls (B := B) p)).
Proof.
  assert (forall (l : list (@push_call B)) n, Forall (fun c => teardown_phase (pc_op c) = n) l ->
    StronglySorted le (map (fun c => teardown_phase (pc_op c)) l) /\ forall x, x ∈ map (fun c => teardown_phase (pc_op c)) l -> x = n) as Hl.
  { intros l n H. split.
    - rewrite <- (map_map pc_op). apply (phase_sorted _ n). by rewrite Forall_fmap.
    - intros x (c & -> & Hc)%list_elem_of_fmap. rewrite Forall_forall in H. by apply H. }
  unfold teardown_calls. rewrite !map_app.
  destruct (Hl (map route_call (List.filter (route_goes p) (routes (pl_observed p)))) 0%nat) as [S0 N0]; [apply Forall_fmap, Forall_forall; reflexivity|].
  destruct (Hl (map address_call (List.filter (address_goes p) (addresses (pl_observed p)))) 1%nat) as [S1 N1]; [apply Forall_fmap, Forall_forall; reflexivity|].
  destruct (Hl (omap (backend_call p) (List.filter (backend_goes p) (backends (pl_observed p)))) 2%nat) as [S2 N2].
  { apply Forall_forall. intros c (b & _ & Hc)%list_elem_of_omap. unfold backend_call in Hc. destruct (backend_of_number _); [|done]. by injection Hc as <-. }
  destruct (Hl (map link_call (List.filter (link_goes p) (links (pl_observed p)))) 3%nat) as [S3 N3]; [apply Forall_fmap, Forall_forall; reflexivity|].
  apply strongly_sorted_app; [done|apply strongly_sorted_app; [done|apply strongly_sorted_app; [done..|]|]|].
  - by intros x y ->%N2 ->%N3; lia.
  - intros x y ->%N1. rewrite elem_of_app. intros [->%N2 | ->%N3]; lia.
  - intros x y ->%N0 _. lia.
Qed.

End MayGo.

(** C6: the teardown takes away exactly what it may. At the end of a plan that
    did not run out of memory, the actions the teardown added are deletions of
    routes and addresses that are netcfgd's, came from the configuration and are
    asked for by nothing in the document (literally, through a delegated prefix,
    or through a report) or withheld; stops of helpers that run and that nothing
    asks for; and deletions of links that are netcfgd's and that no device of
    the document names; where a device being cleared counts as not in the
    document. Everything of that kind is taken away unless a lock, a guard or an
    unmanaged device keeps it, nothing else is, and routes go before addresses,
    addresses before helpers, helpers before links. *)
Theorem teardown_exact {I : Inet} {B} (grant : nat -> bool) (p p' : planner) (pl pl' : plan B) (h h' : heap) :
  plan_ending (O := heap_ops grant) p (pl, h) = (p', (pl', h')) -> plan_failed pl' = false ->
  exists new, p_actions pl' = p_actions pl ++ new /\
    (forall o, o ∈ map ac_op new <-> may_go (cleared p) o /\ lets_through (pl_builder (cleared p)) o) /\
    StronglySorted le (map (fun a => teardown_phase (ac_op a)) new).
Proof.
  intros E Hf. destruct (plan_ending_refines grant p _ _ _ E Hf) as [_ Hv]. clear E. unfold plan_ending in Hv. cbn [fst] in Hv.
  rewrite (view_seq _ _ _ _ _ (clearing_begin_view _ _)) in Hv.
  destruct (plan_teardown (O := view_ops) (cleared p) (view_of pl)) as [[] v1] eqn:Et. rewrite (view_seq _ _ _ _ _ Et) in Hv.
  injection Hv as _ Hv. rewrite plan_teardown_view in Et. destruct (run_pushes_ops _ _ _ _ Et) as (new & Ha & Ho).
  rewrite Hv in Ha. exists new. split; [exact Ha|]. split.
  - intros o. rewrite Ho, <- teardown_calls_exact. split.
    + intros (c & -> & [Hin Hc%admitted_exact]%elem_of_filter_true)%list_elem_of_fmap. split; [by apply (list_elem_of_fmap_2 pc_op)|done].
    + intros [(c & -> & Hin)%list_elem_of_fmap Hl]. apply (list_elem_of_fmap_2 pc_op), elem_of_filter_true. split; [done|]. by apply admitted_exact.
  - rewrite <- (map_map ac_op), Ho, map_map. apply filter_sorted, phases_sorted.
Qed.

(** ** A machine to try them on *)

Definition read_document (s : string) : value document_type :=
  match document_read (fun _ => true) (fun _ => true) true (json_text s) with Some (inr d) => d | _ => zero document_type end.

Definition read_observation (s : string) : value observed_type :=
  match observed_read (fun _ => true) (fun _ => true) true (json_text s) with Some (inr o) => o | _ => zero observed_type end.

Lemma parts {A C D : Type} (x : A * (C * D)) : x = (x.1, (x.2.1, x.2.2)).
Proof. by destruct x as [? [? ?]]. Qed.

Definition plain_builder : builder := Builder (Builder.Document (Globals [] None) [] [] []) None [] [] [] [] [] [] false.

Definition planner_for (d : value document_type) (o : value observed_type) : planner := Planner plain_builder d o [] [] [] [] None [] [].

Definition empty_plan : plan unit := Plan 0%nat (Pmem arena_init [] 0%nat None) [] None [] None [] None [] None.
Definition empty_heap : heap := Heap 1%nat {[ 0%nat ]} false.

Definition lan_document : value document_type := read_document
  "{'schema_version':{'major':1,'minor':1},'globals':{},'devices':[],'interfaces':[{'name':'eth0','addressing':[{'source':'static','address':'192.0.2.1/24'}]}],'networks':[]}".

Definition lan_seen : value observed_type := read_observation
  "{'links':[{'name':'eth0','index':2,'up':true,'carrier':true,'mtu':1500,'ownership':'foreign'},{'name':'br0','index':3,'up':true,'carrier':true,'mtu':1500,'ownership':'ours'}],'addresses':[{'interface':'eth0','address':'192.0.2.1/24','ownership':'ours','origin':'static'},{'interface':'eth0','address':'192.0.2.9/24','ownership':'ours','origin':'static'},{'interface':'eth0','address':'10.0.0.1/8','ownership':'foreign'}],'backends':[{'kind':'dhcp4','interface':'eth0','running':true}]}".

Definition lan_planner : planner := planner_for lan_document lan_seen.
Abbreviation lan_ending := (plan_ending (O := heap_ops (fun _ => true)) lan_planner (empty_plan, empty_heap)).

Lemma teardown_exact_witness :
  map ac_op (p_actions lan_ending.2.1) = [ADDR_DEL (Some "eth0") (Some "192.0.2.9/24"); BACKEND_STOP BACKEND_DHCP4 (Some "eth0"); LINK_DELETE (Some "br0")] /\
  exists new, p_actions lan_ending.2.1 = p_actions empty_plan ++ new /\
    (forall o, o ∈ map ac_op new <-> may_go (cleared lan_planner) o /\ lets_through (pl_builder (cleared lan_planner)) o) /\
    StronglySorted le (map (fun a => teardown_phase (ac_op a)) new).
Proof.
  split; [by_vm|]. refine (teardown_exact (fun _ => true) lan_planner _ empty_plan _ empty_heap _ (parts lan_ending) _). by_vm.
Defined.
