(* ===== verification/DhcpServer.v ===== *)
(** * DhcpServer: what an interface hands out by DHCP, and when it is planned

    [model/dhcp_server.c]: the range a server hands out and everything its block
    may say, the checks of DNS records and block lists, and the name a line of a
    block list is about; [ncfg_dhcp_server_summary] of
    [backend/dhcp_server/dhcp_server.c] with the digests of [block.c]; the
    question [firewall_warn.c] asks of the input chain; and the pass of
    [plan/dhcp_server.c].

    A sentence of refusal is a constructor of [dhcp_refusal] and of
    [record_refusal]. The files of block lists are a parameter: what [stat]
    says of a path, and what reading it gives. The character classes are those
    of the C locale. *)
From stdpp Require Import gmap pretty.
From S2P Require Import Prelude Wire Op Heap Plan Value Builder Json JsonWrite DocText Field Document Canonical DocumentOps Observed ObservedOps Linkset Owned AddressPass.
#[local] Open Scope string_scope.
#[local] Open Scope list_scope.
#[local] Open Scope Z_scope.
#[local] Open Scope ncfg_scope.

(** ** Characters *)

Definition alnum (c : byte) : bool := byte_between "0" "9" c || byte_between "a" "z" c || byte_between "A" "Z" c.
Definition printable (c : byte) : bool := (32 <=? bz c) && (bz c <=? 126).
Definition lowered (c : byte) : byte :=
  if byte_between "A" "Z" c then default c (Byte.of_N (Z.to_N (bz c + 32))) else c.
Definition hex_lowercase (c : byte) : bool := byte_between "0" "9" c || byte_between "a" "f" c.

(** ** Numbers *)

Definition octet_at (l : list Z) (i : nat) : Z := nth i l 0.

Definition to_host (l : list Z) : Z :=
  Z.lor (Z.lor (Z.lor (Z.shiftl (octet_at l 0) 24) (Z.shiftl (octet_at l 1) 16)) (Z.shiftl (octet_at l 2) 8)) (octet_at l 3).

Definition dotted (value : Z) : string :=
  pretty (Z.land (Z.shiftr value 24) 255) +:+ "." +:+ pretty (Z.land (Z.shiftr value 16) 255) +:+ "." +:+
  pretty (Z.land (Z.shiftr value 8) 255) +:+ "." +:+ pretty (Z.land value 255).

Inductive dhcp_refusal :=
| NO_SERVER | INTERCEPT_NEEDS_FORWARD | BLOCK_NEEDS_FORWARD | BLOCK_NOT_A_LIST | NO_STATIC_IPV4 | NETWORK_TOO_SMALL
| RELAY_SERVES_NOTHING | RELAY_NOT_A_SERVER | RANGE_NOT_ADDRESSES | RANGE_BACKWARDS | RANGE_OUTSIDE | RANGE_TAKES_OWN
| NO_DEFAULT_RANGE | DEFAULT_RANGE_TAKES_OWN
| HOST_NAME | HOST_MAC | HOST_ADDRESS | HOST_OUTSIDE | HOST_TAKES_OWN | HOST_TWICE
| GATEWAY_OUTSIDE | DOMAIN_NOT_A_NAME | NTP_NOT_IPV4 | BOOT_FILE_TEXT | BOOT_SERVER_ALONE | BOOT_SERVER_NOT_IPV4
| TFTP_NOT_A_NAME | WPAD_NOT_A_URL | OPTION_NAME | OPTION_CODE | OPTION_VALUE | OPTION_TWICE
| RANGE6_NOT_SUFFIXES | RANGE6_NO_PREFIX.

Inductive record_refusal :=
| RECORD_NAME | CNAME_ALONE | FORWARD_ALONE | RECORD_SAYS_NOTHING | CNAME_NOT_A_NAME | MX_NOT_A_NAME | PREFERENCE_WITHOUT_MX
| TXT_TEXT | SRV_NOT_A_NAME | SRV_WITHOUT_PORT | PORT_WITHOUT_SRV | RECORD_ADDRESS | RECORD_FORWARD
| LIST_NAME | LIST_HOLDS_NOTHING | LIST_DOMAIN | LIST_ALLOW | LIST_URLS | LIST_URL | LIST_FILE.

(** The first refusal of a sequence of checks. *)
Definition refused_if {A} (b : bool) (r : A) : option A := if b then Some r else None.

Fixpoint first_refusal {A} (l : list (option A)) : option A :=
  match l with
  | [] => None
  | Some r :: _ => Some r
  | None :: rest => first_refusal rest
  end.

(** A member that is stated and refused. *)
Definition stated {A} (o : option A) : bool := match o with Some _ => true | None => false end.
Definition stated_not (t : text) (ok : text -> bool) : bool := stated t && negb (ok t).

(** ** Names *)

(** [ncfg_dhcp_server_plain_name]. *)
Definition plain_name (name : text) : bool :=
  match name with
  | Some (c :: rest) =>
      alnum c && (zlen (c :: rest) <=? 63) && forallb (fun b => alnum b || (b =b "-") || (b =b ".")) (c :: rest)
  | _ => false
  end.

(** The loop of [ncfg_dhcp_server_dns_name]. *)
Fixpoint dns_labels (name : list byte) (label : Z) (previous : byte) : bool :=
  match name with
  | [] => negb (label =? 0) && negb (previous =b "-")
  | c :: rest =>
      if c =b "." then
        if (label =? 0) || (previous =b "-") then false else dns_labels rest 0 c
      else if negb (alnum c || (c =b "-")) || ((label =? 0) && (c =b "-")) || (63 <? label + 1) then false
      else dns_labels rest (label + 1) c
  end.

(** [ncfg_dhcp_server_dns_name]. *)
Definition dns_name (name : text) : bool :=
  match name with
  | Some (c :: rest) => (zlen (c :: rest) <=? 253) && dns_labels (c :: rest) 0 x00
  | _ => false
  end.

Definition option_text (most : Z) (refused : list byte) (t : text) : bool :=
  match t with
  | Some (c :: rest) =>
      (zlen (c :: rest) <=? most) && forallb (fun b => printable b && negb (existsb (byte_eqb b) refused)) (c :: rest)
  | _ => false
  end.

Definition DQUOTE : byte := x22.
Definition BACKSLASH : byte := x5c.

(** [ncfg_dhcp_option_code_taken]. *)
Definition option_codes_taken : list Z :=
  [0; 1; 3; 6; 15; 42; 50; 51; 52; 53; 54; 55; 56; 57; 58; 59; 60; 61; 66; 67; 82; 252; 255].

Definition option_code_taken (code : Z) : bool := existsb (Z.eqb code) option_codes_taken.

(** [ncfg_dhcp_option_hex]: octets of two digits, a colon between two. *)
Fixpoint hex_octets (text : list byte) (octets : Z) : bool :=
  match text with
  | high :: low :: rest =>
      if negb (hex_lowercase high) || negb (hex_lowercase low) then false
      else
        match rest with
        | [] => octets + 1 <=? 255
        | separator :: more =>
            if negb (separator =b ":") || match more with [] => true | _ => false end then false
            else if 255 <? octets + 1 then false
            else hex_octets more (octets + 1)
        end
  | _ => false
  end.

Definition option_hex (text : text) : bool := match text with Some t => hex_octets t 0 | None => false end.

(** The loop of [memcmp], asked whether the first is the greater. *)
Fixpoint memcmp_greater (one other : list Z) : bool :=
  match one, other with
  | a :: one, b :: other => if a =? b then memcmp_greater one other else b <? a
  | _, _ => false
  end.

Definition starts_with (prefix t : list byte) : bool := bytes_eqb (take (length prefix) t) prefix.

Definition web_address (t : text) : bool :=
  match t with Some t => starts_with (bytes "http://") t || starts_with (bytes "https://") t | None => false end.

Section Model.
Context {I : Inet}.

Abbreviation iface := (value interface_type).
Abbreviation source := (union address_source_arm).
Abbreviation server := (value dhcp_server_type).
Abbreviation host := (value dhcp_host_type).
Abbreviation dhcp_option := (value dhcp_option_type).

Definition server_of (i : iface) : option server := get interface_type "dhcp_server" i.

Definition bare_ipv4 (t : text) : option Z :=
  match address_parse t with
  | Some a => if ad_is_ipv6 a || ad_has_prefix a then None else Some (to_host (ad_bytes a))
  | None => None
  end.

Definition is_bare_ipv4 (t : text) : bool := stated (bare_ipv4 t).

(** ** Reservations *)

Definition host_name (h : host) : text := get dhcp_host_type "name" h.
Definition host_mac (h : host) : text := get dhcp_host_type "mac" h.
Definition host_address (h : host) : text := get dhcp_host_type "address" h.

(** The network served: its own address, the network, the broadcast address and
    the mask. *)
Record network := Network { nw_own : Z; nw_network : Z; nw_broadcast : Z; nw_mask : Z }.

(** An address that is not one of the network's hosts. *)
Definition outside (n : network) (address : Z) : bool :=
  negb (Z.land address (nw_mask n) =? nw_network n) || (address =? nw_network n) || (address =? nw_broadcast n).

(** [strcmp] and [strcasecmp] of texts that are there. *)
Definition same_text (one other : text) : bool :=
  match one, other with Some a, Some b => bytes_eqb a b | _, _ => false end.

Definition same_text_any_case (one other : text) : bool :=
  match one, other with Some a, Some b => bytes_eqb (map lowered a) (map lowered b) | _, _ => false end.

Definition hosts_clash (earlier h : host) : bool :=
  same_text (host_name earlier) (host_name h) || same_text_any_case (host_mac earlier) (host_mac h) ||
  same_text (host_address earlier) (host_address h).

(** One turn of the loop of [hosts_fit]. *)
Definition host_refused (n : network) (earlier : list host) (h : host) : option dhcp_refusal :=
  if negb (plain_name (host_name h)) then Some HOST_NAME
  else
    match hardware_address_strict (host_mac h) HARDWARE_ADDRESS_MAX with
    | None => Some HOST_MAC
    | Some _ =>
        match bare_ipv4 (host_address h) with
        | None => Some HOST_ADDRESS
        | Some address =>
            if outside n address then Some HOST_OUTSIDE
            else if address =? nw_own n then Some HOST_TAKES_OWN
            else refused_if (existsb (fun e => hosts_clash e h) earlier) HOST_TWICE
        end
    end.

Fixpoint hosts_fit (n : network) (earlier l : list host) : option dhcp_refusal :=
  match l with
  | [] => None
  | h :: rest =>
      match host_refused n earlier h with
      | Some r => Some r
      | None => hosts_fit n (earlier ++ [h]) rest
      end
  end.

(** ** Options *)

Definition option_ips (o : dhcp_option) : list text := get dhcp_option_type "ip" o.
Definition option_string (o : dhcp_option) : text := get dhcp_option_type "text" o.
Definition option_number (o : dhcp_option) : option Z := get dhcp_option_type "number" o.
Definition option_code (o : dhcp_option) : Z := get dhcp_option_type "code" o.
Definition option_name (o : dhcp_option) : text := get dhcp_option_type "name" o.
Definition option_kind (o : dhcp_option) : Z := get dhcp_option_type "kind" o.

(** The greatest number of a kind of option: [u8], [u16], [u32] and [bool]. *)
Definition option_most (kind : Z) : Z := nth (Z.to_nat kind) [0; 0; 255; 65535; 4294967295; 1; 0] 0.

Definition option_value_fits (o : dhcp_option) : bool :=
  let kind := option_kind o in
  let ips := option_ips o in
  let no_ip := zlen ips =? 0 in
  if kind =? 0 then
    negb no_ip && (zlen ips <=? 63) && forallb is_bare_ipv4 ips && negb (stated (option_string o)) && negb (stated (option_number o))
  else if kind =? 1 then option_text 255 [DQUOTE; BACKSLASH] (option_string o) && no_ip && negb (stated (option_number o))
  else if kind =? 6 then option_hex (option_string o) && no_ip && negb (stated (option_number o))
  else if (2 <=? kind) && (kind <=? 5) then
    match option_number o with
    | Some v => (0 <=? v) && (v <=? option_most kind) && negb (stated (option_string o)) && no_ip
    | None => false
    end
  else false.

Definition options_clash (earlier o : dhcp_option) : bool :=
  same_text (option_name earlier) (option_name o) || (option_code earlier =? option_code o).

Definition option_refused (earlier : list dhcp_option) (o : dhcp_option) : option dhcp_refusal :=
  first_refusal [
    refused_if (negb (plain_name (option_name o))) OPTION_NAME;
    refused_if ((option_code o <? 1) || (254 <? option_code o) || option_code_taken (option_code o)) OPTION_CODE;
    refused_if (negb (option_value_fits o)) OPTION_VALUE;
    refused_if (existsb (fun e => options_clash e o) earlier) OPTION_TWICE].

(** The loop of [custom_options_fit]. *)
Fixpoint custom_options_fit (earlier l : list dhcp_option) : option dhcp_refusal :=
  match l with
  | [] => None
  | o :: rest =>
      match option_refused earlier o with
      | Some r => Some r
      | None => custom_options_fit (earlier ++ [o]) rest
      end
  end.

Abbreviation s_text name s := (get dhcp_server_type name s : text).
Abbreviation s_list name s := (get dhcp_server_type name s : list text).

(** [options_fit]. *)
Definition options_fit (n : network) (s : server) : option dhcp_refusal :=
  first_refusal [
    refused_if (stated_not (s_text "gateway" s) (fun t => match bare_ipv4 t with Some a => negb (outside n a) | None => false end)) GATEWAY_OUTSIDE;
    refused_if (stated_not (s_text "domain" s) dns_name) DOMAIN_NOT_A_NAME;
    refused_if (negb (forallb is_bare_ipv4 (s_list "ntp" s))) NTP_NOT_IPV4;
    refused_if (stated_not (s_text "boot_file" s) (option_text 127 [","%byte; BACKSLASH; DQUOTE; " "%byte])) BOOT_FILE_TEXT;
    refused_if (stated (s_text "boot_server" s) && negb (stated (s_text "boot_file" s))) BOOT_SERVER_ALONE;
    refused_if (stated_not (s_text "boot_server" s) is_bare_ipv4) BOOT_SERVER_NOT_IPV4;
    refused_if (stated_not (s_text "tftp_server" s) dns_name) TFTP_NOT_A_NAME;
    refused_if (stated_not (s_text "wpad" s) (fun t => option_text 255 [DQUOTE; BACKSLASH; " "%byte] t && web_address t)) WPAD_NOT_A_URL].

(** ** DHCPv6 *)

Definition ipv6_suffix (t : text) : option (list Z) :=
  match address_parse t with
  | Some a =>
      if negb (ad_is_ipv6 a) || ad_has_prefix a || existsb (fun o => negb (o =? 0)) (take 8 (ad_bytes a)) then None
      else Some (ad_bytes a)
  | None => None
  end.

(** A source that gives the interface an IPv6 prefix. *)
Definition gives_prefix (s : source) : bool :=
  (source_kind s =? NCFG_ADDRESS_SOURCE_DELEGATED) ||
  match static_of s with
  | Some st =>
      match address_parse (get static_type "address" st) with
      | Some a => ad_is_ipv6 a && ad_has_prefix a && negb (octet_at (ad_bytes a) 0 =? 0xfe)
      | None => false
      end
  | None => false
  end.

(** [range6_fits]. *)
Definition range6_fits (i : iface) (s : server) : option dhcp_refusal :=
  if negb (stated (s_text "range6_start" s)) && negb (stated (s_text "range6_end" s)) then None
  else
    match ipv6_suffix (s_text "range6_start" s), ipv6_suffix (s_text "range6_end" s) with
    | Some first, Some last =>
        if memcmp_greater first last then Some RANGE6_NOT_SUFFIXES
        else refused_if (negb (existsb gives_prefix (addressing i))) RANGE6_NO_PREFIX
    | _, _ => Some RANGE6_NOT_SUFFIXES
    end.

(** ** The range *)

(** [ncfg_block_list_label]. *)
Definition block_list_label (name : text) : bool :=
  match name with
  | Some (c :: rest) =>
      (zlen (c :: rest) <=? 64) && forallb (fun b => alnum b || (b =b "-") || (b =b "_") || (b =b ".")) (c :: rest)
  | _ => false
  end.

(** The address whose network is served: the first static one of IPv4 that has
    a prefix. *)
Definition serving_address (s : source) : option address :=
  match static_of s with
  | Some st =>
      match address_parse (get static_type "address" st) with
      | Some a => if negb (ad_is_ipv6 a) && ad_has_prefix a then Some a else None
      | None => None
      end
  | None => None
  end.

Definition served_address (l : list source) : option address := head (omap serving_address l).

Definition network_of (a : address) : network :=
  let own := to_host (ad_bytes a) in
  let mask := if ad_prefix a =? 0 then 0 else u32 (Z.shiftl 0xffffffff (32 - ad_prefix a)) in
  let net := Z.land own mask in
  Network own net (Z.lor net (Z.lxor mask 0xffffffff)) mask.

(** What a relay may not say. *)
Definition relay_says_more (s : server) : bool :=
  stated (s_text "range_start" s) || stated (s_text "range_end" s) || stated (get dhcp_server_type "lease" s : option Z) ||
  negb (zlen (s_list "dns" s) =? 0) || negb (zlen (get dhcp_server_type "hosts" s : list host) =? 0) ||
  negb (zlen (get dhcp_server_type "options" s : list dhcp_option) =? 0) || stated (s_text "range6_start" s) ||
  stated (s_text "gateway" s) || stated (s_text "domain" s) || negb (zlen (s_list "ntp" s) =? 0) || stated (s_text "boot_file" s) ||
  stated (s_text "tftp_server" s) || stated (s_text "wpad" s).

Definition relays_to (own : Z) (t : text) : bool :=
  match bare_ipv4 t with Some a => negb (a =? own) | None => false end.

(** The range that is stated. *)
Definition stated_range (n : network) (s : server) : dhcp_refusal + Z * Z :=
  match bare_ipv4 (s_text "range_start" s), bare_ipv4 (s_text "range_end" s) with
  | Some first, Some last =>
      if last <? first then inl RANGE_BACKWARDS
      else if negb (Z.land first (nw_mask n) =? nw_network n) || negb (Z.land last (nw_mask n) =? nw_network n) ||
              (first =? nw_network n) || (last =? nw_broadcast n) then inl RANGE_OUTSIDE
      else if (first <=? nw_own n) && (nw_own n <=? last) then inl RANGE_TAKES_OWN
      else inr (first, last)
  | _, _ => inl RANGE_NOT_ADDRESSES
  end.

(** The range of a block that states none: the 100th host, 150 of them, cut at
    the last host. *)
Definition default_range (n : network) : dhcp_refusal + Z * Z :=
  let first := u32 (nw_network n + 100) in
  let last := u32 (nw_network n + 249) in
  let last := if nw_broadcast n <=? last then u32 (nw_broadcast n - 1) else last in
  if (nw_broadcast n <=? first) || (last <? first) then inl NO_DEFAULT_RANGE
  else if (first <=? nw_own n) && (nw_own n <=? last) then inl DEFAULT_RANGE_TAKES_OWN
  else inr (first, last).

Definition hands_out (n : network) (s : server) : dhcp_refusal + Z * Z :=
  if stated (s_text "range_start" s) || stated (s_text "range_end" s) then stated_range n s else default_range n.

(** What [ncfg_dhcp_server_range] answers: start, end and router. *)
Record dhcp_range := DhcpRange { dr_start : string; dr_end : string; dr_router : string }.

Definition router_text (a : address) : string := dotted (to_host (ad_bytes a)) +:+ "/" +:+ pretty (ad_prefix a).

Definition relay_range (a : address) (s : server) : dhcp_refusal + dhcp_range :=
  if relay_says_more s then inl RELAY_SERVES_NOTHING
  else if negb (forallb (relays_to (to_host (ad_bytes a))) (s_list "relay" s)) then inl RELAY_NOT_A_SERVER
  else inr (DhcpRange "" "" (router_text a)).

Definition server_range (i : iface) (a : address) (s : server) : dhcp_refusal + dhcp_range :=
  let n := network_of a in
  match hands_out n s with
  | inl r => inl r
  | inr (first, last) =>
      match first_refusal [hosts_fit n [] (get dhcp_server_type "hosts" s); options_fit n s;
                           custom_options_fit [] (get dhcp_server_type "options" s); range6_fits i s] with
      | Some r => inl r
      | None => inr (DhcpRange (dotted first) (dotted last) (router_text a))
      end
  end.

Definition forwards (s : server) : bool := get dhcp_server_type "dns_forward" s.

(** [ncfg_dhcp_server_range]. *)
Definition dhcp_server_range (i : iface) : dhcp_refusal + dhcp_range :=
  match server_of i with
  | None => inl NO_SERVER
  | Some s =>
      if (get dhcp_server_type "dns_intercept" s : bool) && negb (forwards s) then inl INTERCEPT_NEEDS_FORWARD
      else if negb (zlen (s_list "block" s) =? 0) && negb (forwards s) then inl BLOCK_NEEDS_FORWARD
      else if negb (forallb block_list_label (s_list "block" s)) then inl BLOCK_NOT_A_LIST
      else
        match served_address (addressing i) with
        | None => inl NO_STATIC_IPV4
        | Some a =>
            if 30 <? ad_prefix a then inl NETWORK_TOO_SMALL
            else if negb (zlen (s_list "relay" s) =? 0) then relay_range a s
            else server_range i a s
        end
  end.

(** ** DNS records *)

Abbreviation dns_record := (value dns_record_type).
Abbreviation r_text name r := (get dns_record_type name r : text).
Abbreviation r_number name r := (get dns_record_type name r : option Z).
Abbreviation r_list name r := (get dns_record_type name r : list text).

Definition bare_address (t : text) : bool :=
  match address_parse t with Some a => negb (ad_has_prefix a) | None => false end.

(** [service_name]: an underscore that begins a label is read as a letter. *)
Fixpoint service_letters (previous : byte) (name : list byte) : list byte :=
  match name with
  | [] => []
  | c :: rest =>
      let read := if (c =b "_") && (previous =b ".") then "x"%byte else c in
      read :: service_letters read rest
  end.

Definition service_name (name : text) : bool :=
  match name with
  | Some (c :: rest) => (c =b "_") && (zlen (c :: rest) <? 254) && dns_name (Some (service_letters "." (c :: rest)))
  | _ => false
  end.

(** How many of [address], [mx], [txt] and [srv] are stated. *)
Definition record_kinds (r : dns_record) : bool :=
  negb (zlen (r_list "address" r) =? 0) || stated (r_text "mx" r) || stated (r_text "txt" r) || stated (r_text "srv" r).

(** [ncfg_dns_record_check]: why it is refused. *)
Definition dns_record_refused (r : dns_record) : option record_refusal :=
  let forward := negb (zlen (r_list "forward" r) =? 0) in
  let cname := stated (r_text "cname" r) in
  let srv := stated (r_text "srv" r) in
  first_refusal [
    refused_if (negb (if srv then service_name (r_text "name" r) else dns_name (r_text "name" r))) RECORD_NAME;
    refused_if (cname && (record_kinds r || forward)) CNAME_ALONE;
    refused_if (forward && record_kinds r) FORWARD_ALONE;
    refused_if (negb (record_kinds r) && negb cname && negb forward) RECORD_SAYS_NOTHING;
    refused_if (stated_not (r_text "cname" r) dns_name) CNAME_NOT_A_NAME;
    refused_if (stated_not (r_text "mx" r) dns_name) MX_NOT_A_NAME;
    refused_if (stated (r_number "preference" r) && negb (stated (r_text "mx" r))) PREFERENCE_WITHOUT_MX;
    refused_if (stated_not (r_text "txt" r) (option_text 255 [DQUOTE; BACKSLASH])) TXT_TEXT;
    refused_if (stated_not (r_text "srv" r) dns_name) SRV_NOT_A_NAME;
    refused_if (srv && match r_number "port" r with Some port => port <? 1 | None => true end) SRV_WITHOUT_PORT;
    refused_if (negb srv && (stated (r_number "port" r) || stated (r_number "priority" r) || stated (r_number "weight" r))) PORT_WITHOUT_SRV;
    refused_if (negb (forallb bare_address (r_list "address" r))) RECORD_ADDRESS;
    refused_if (negb (forallb bare_address (r_list "forward" r))) RECORD_FORWARD].

(** ** Block lists *)

Abbreviation block_list := (value block_list_type).
Abbreviation l_text name l := (get block_list_type name l : text).
Abbreviation l_list name l := (get block_list_type name l : list text).

Definition block_letter (c : byte) : bool :=
  byte_between "a" "z" c || byte_between "0" "9" c || (c =b "-") || (c =b "_").

(** The loop of [ncfg_block_list_name]. *)
Fixpoint block_labels (name : list byte) (label : Z) : bool :=
  match name with
  | [] => negb (label =? 0)
  | c :: rest =>
      if c =b "." then if label =? 0 then false else block_labels rest 0
      else if negb (block_letter c) || (63 <? label + 1) then false
      else block_labels rest (label + 1)
  end.

(** [ncfg_block_list_name]. *)
Definition block_list_name (name : text) : bool :=
  match name with
  | Some (c :: rest) => (zlen (c :: rest) <=? 253) && block_labels (c :: rest) 0
  | _ => false
  end.

(** [ncfg_block_list_check]: why it is refused. *)
Definition block_list_refused (l : block_list) : option record_refusal :=
  let urls := l_list "url" l in
  let files := l_list "file" l in
  first_refusal [
    refused_if (negb (block_list_label (l_text "name" l))) LIST_NAME;
    refused_if ((zlen (l_list "domain" l) =? 0) && (zlen files =? 0)) LIST_HOLDS_NOTHING;
    refused_if (negb (forallb block_list_name (l_list "domain" l))) LIST_DOMAIN;
    refused_if (negb (forallb block_list_name (l_list "allow" l))) LIST_ALLOW;
    refused_if (negb (zlen urls =? 0) && negb (zlen urls =? zlen files)) LIST_URLS;
    refused_if (negb (forallb (fun t => web_address t && option_text 2047 [" "%byte; DQUOTE; BACKSLASH] t) urls)) LIST_URL;
    refused_if (negb (forallb (fun t => match t with Some (c :: _) => (c =b "/") && option_text 4095 [] t | _ => false end) files)) LIST_FILE].

(** A line of a list, and the C string a buffer holds. *)
Definition line_blank (c : byte) : bool := (c =b " ") || (c =b x09).
Definition line_end (c : byte) : bool := line_blank c || (c =b x0d).

Fixpoint drop_while (p : byte -> bool) (l : list byte) : list byte :=
  match l with
  | c :: rest => if p c then drop_while p rest else l
  | [] => []
  end.

Fixpoint take_until (p : byte -> bool) (l : list byte) : list byte :=
  match l with
  | c :: rest => if p c then [] else c :: take_until p rest
  | [] => []
  end.

Definition trimmed_line (line : list byte) : list byte := rev (drop_while line_end (rev (drop_while line_blank line))).

Definition null_addresses : list (list byte) := map bytes ["0.0.0.0"; "127.0.0.1"; "::"; "::1"; "0"].
Definition null_address (word : list byte) : bool := existsb (bytes_eqb word) null_addresses.

Definition dnsmasq_line (at_ : list byte) : bool :=
  (9 <? zlen at_) && (starts_with (bytes "address=/") at_ || starts_with (bytes "local=/") at_ || starts_with (bytes "server=/") at_).

Definition adblock_line (at_ : list byte) : bool :=
  (3 <? zlen at_) && starts_with (bytes "||") at_ && match last at_ with Some c => c =b "^" | None => false end.

(** The word a trimmed line names, or nothing. *)
Definition line_word (at_ : list byte) : option (list byte) :=
  if dnsmasq_line at_ then
    match split_at_byte "/" (drop 1 (drop_while (fun c => negb (c =b "/")) at_)) with
    | (word, Some _) => Some word
    | (_, None) => None
    end
  else if adblock_line at_ then Some (take (length at_ - 3) (drop 2 at_))
  else
    let word := take_until line_blank at_ in
    let rest := drop (length word) at_ in
    match rest with
    | [] => Some word
    | _ =>
        if negb (null_address word) then None
        else Some (take_until (fun c => line_blank c || (c =b "#")) (drop_while line_blank rest))
    end.

(** Names a hosts file has for itself. *)
Definition own_names : list (list byte) :=
  map bytes ["localhost"; "localhost.localdomain"; "local"; "broadcasthost"; "ip6-localhost"; "ip6-loopback"].

(** [ncfg_block_list_name_of_line]. *)
Definition name_of_line (line : list byte) (out_size : Z) : option (list byte) :=
  if out_size <? 2 then None
  else
    match trimmed_line line with
    | [] => None
    | c :: rest =>
        if (c =b "#") || (c =b "!") then None
        else
          match line_word (c :: rest) with
          | None => None
          | Some word =>
              if (zlen word =? 0) || (out_size <=? zlen word) then None
              else
                let out := take_until (byte_eqb x00) (map lowered word) in
                if existsb (bytes_eqb out) own_names || negb (has_byte "." out) then None
                else if block_list_name (Some out) then Some out else None
          end
    end.

(** ** What a server is asked to serve, in one line *)

Abbreviation document := (value document_type).

Definition NCFG_BLOCK_FILE_MAX : Z := 64 * 1024 * 1024.
Definition NCFG_DHCP_SERVER_SUMMARY_MAX : Z := 512.
Definition NCFG_DHCP_SERVER_LEASE_DEFAULT : Z := 43200.

(** A regular file: the size [stat] gives, and what reading it gives where it
    can be opened. *)
Record regular := Regular { rf_size : Z; rf_content : option (list byte) }.
Definition disk : Type := list byte -> option regular.

Definition FNV_START : Z := 2166136261.
Definition fnv (digest octet : Z) : Z := u32 (Z.lxor digest octet * 16777619).

(** [digest_text]: a text in lower case, and a separator. *)
Definition digest_text (digest : Z) (t : text) : Z := fnv (foldl (fun d c => fnv d (bz (lowered c))) digest (default [] t)) 0.
Definition digest_texts (digest : Z) (l : list text) : Z := foldl digest_text digest l.

Definition spaced (l : list Z) : text := Some (bytes (String.concat " " (map pretty l))).

Definition option_texts (s : server) : list text :=
  [s_text "gateway" s; s_text "domain" s; s_text "boot_file" s; s_text "boot_server" s; s_text "tftp_server" s; s_text "wpad" s].

(** Everything of an option that is digested, in order. *)
Definition option_digested (o : dhcp_option) : list text :=
  [option_name o; spaced [option_code o; option_kind o; default 0 (option_number o); if option_number o then 1 else 0]; option_string o] ++ option_ips o.

(** [options_digest], where there are any. *)
Definition options_digest (s : server) : option Z :=
  let options := (get dhcp_server_type "options" s : list dhcp_option) in
  if existsb stated (option_texts s) || negb (zlen (s_list "ntp" s) =? 0) || negb (zlen options =? 0) then
    Some (digest_texts FNV_START (option_texts s ++ s_list "ntp" s ++ (options ≫= option_digested)))
  else None.

Definition has_and_value (o : option Z) : list Z := [if o then 1 else 0; default 0 o].

Definition record_digested (r : dns_record) : list text :=
  [r_text "name" r;
   spaced (has_and_value (r_number "preference" r) ++ has_and_value (r_number "port" r) ++ has_and_value (r_number "priority" r) ++
           has_and_value (r_number "weight" r));
   r_text "cname" r; r_text "mx" r; r_text "txt" r; r_text "srv" r] ++ r_list "address" r ++ [Some (bytes "|")] ++ r_list "forward" r.

(** [records_digest]: how many, and their digest. *)
Definition records_digest (d : document) (s : server) : Z * Z :=
  let records := (get document_type "dns_records" d : list dns_record) in
  if negb (forwards s) then (0, 0) else (zlen records, digest_texts FNV_START (records ≫= record_digested)).

(** [digest_word] and [digest_bytes] of [block.c]: the octets as they are. *)
Definition digest_bytes (digest : Z) (l : list byte) : Z := foldl (fun d c => fnv d (bz c)) digest l.
Definition digest_word (digest : Z) (t : text) : Z := fnv (digest_bytes digest (default [] t)) 0.
Definition digest_words (digest : Z) (l : list text) : Z := foldl digest_word digest l.

Definition find_list (d : document) (name : text) : option block_list :=
  List.find (fun l => same_text (l_text "name" l) name) (get document_type "block_lists" d : list block_list).

Section Disk.
Context (files : disk).

(** [ncfg_block_list_file_usable]. *)
Definition usable_file (path : text) : bool :=
  match path with
  | Some p => match files p with Some f => rf_size f <=? NCFG_BLOCK_FILE_MAX | None => false end
  | None => false
  end.

Definition file_content (path : text) : option (list byte) :=
  match path with Some p => match files p with Some f => rf_content f | None => None end | None => None end.

(** [digest_file]. *)
Definition digest_file (digest : Z) (path : text) : Z :=
  if usable_file path then
    match file_content path with
    | Some l => digest_word (digest_bytes digest l) (Some [])
    | None => digest_word digest (Some (bytes "absent"))
    end
  else digest_word digest (Some (bytes "absent")).

(** One list of [ncfg_dhcp_server_block_digest]. *)
Definition block_digested (d : document) (digest : Z) (name : text) : Z :=
  let digest := digest_word digest name in
  match find_list d name with
  | None => digest
  | Some l =>
      let digest := digest_word (digest_words digest (l_list "domain" l)) (Some (bytes "|")) in
      let digest := digest_word (digest_words digest (l_list "allow" l)) (Some (bytes "|")) in
      foldl (fun digest path => digest_file (digest_word digest path) path) digest (l_list "file" l)
  end.

(** [ncfg_dhcp_server_block_digest]: how many lists, and their digest. *)
Definition block_digest (d : document) (s : server) : Z * Z :=
  let block := s_list "block" s in
  if negb (forwards s) || (zlen block =? 0) then (0, 0) else (zlen block, foldl (block_digested d) FNV_START block).

(** [%08x]. *)
Definition hex_digit_text (n : Z) : string := nth (Z.to_nat n) ["0"; "1"; "2"; "3"; "4"; "5"; "6"; "7"; "8"; "9"; "a"; "b"; "c"; "d"; "e"; "f"] "".
Definition hex8 (n : Z) : string := String.concat "" (map (fun shift => hex_digit_text (Z.land (Z.shiftr n shift) 15)) [28; 24; 20; 16; 12; 8; 4; 0]).

Definition plural (n : Z) : string := if n =? 1 then "" else "s".

(** [add_blocks]. *)
Definition blocks_part (d : document) (s : server) : string :=
  let '(lists, digest) := block_digest d s in
  if lists =? 0 then "" else ", blocking " +:+ pretty lists +:+ " list" +:+ plural lists +:+ " " +:+ hex8 digest.

Definition forward_part (s : server) : string := if forwards s then ", forwarding dns" else "".

Definition relay_line (d : document) (s : server) : string :=
  "relay to" +:+ String.concat "" (map (fun t => " " +:+ fmt (cs t)) (s_list "relay" s)) +:+ forward_part s +:+ blocks_part d s.

Definition hosts_part (s : server) : string :=
  let hosts := (get dhcp_server_type "hosts" s : list host) in
  if zlen hosts =? 0 then ""
  else ", " +:+ pretty (zlen hosts) +:+ " host" +:+ plural (zlen hosts) +:+ " " +:+
    hex8 (digest_texts FNV_START (hosts ≫= fun h => [host_name h; host_mac h; host_address h])).

Definition range6_part (s : server) : string :=
  match s_text "range6_start" s, s_text "range6_end" s with
  | Some first, Some last => ", dhcpv6 " +:+ fmt (cs (Some first)) +:+ "-" +:+ fmt (cs (Some last))
  | _, _ => ""
  end.

Definition options_part (s : server) : string :=
  match options_digest s with Some digest => ", options " +:+ hex8 digest | None => "" end.

Definition records_part (d : document) (s : server) : string :=
  let '(records, digest) := records_digest d s in
  if records =? 0 then "" else ", " +:+ pretty records +:+ " record" +:+ plural records +:+ " " +:+ hex8 digest.

Definition server_line (d : document) (s : server) (r : dhcp_range) : string :=
  dr_start r +:+ "-" +:+ dr_end r +:+ ", " +:+ pretty (default NCFG_DHCP_SERVER_LEASE_DEFAULT (get dhcp_server_type "lease" s : option Z)) +:+
  " s, dns " +:+ (if negb (zlen (s_list "dns" s) =? 0) then "" else if forwards s then "this router" else "none") +:+
  String.concat " " (map (fun t => fmt (cs t)) (s_list "dns" s)) +:+ forward_part s +:+ range6_part s +:+ hosts_part s +:+
  options_part s +:+ records_part d s +:+ blocks_part d s.

(** [ncfg_dhcp_server_summary]: each piece is left out once there is no room
    for it, and then the answer is no. *)
Definition dhcp_server_summary (d : document) (i : iface) (out_size : Z) : option string :=
  match server_of i, dhcp_server_range i with
  | Some s, inr r =>
      let line := if negb (zlen (s_list "relay" s) =? 0) then relay_line d s else server_line d s r in
      if Z.of_nat (String.length line) <? out_size then Some line else None
  | _, _ => None
  end.

(** ** What the firewall lets in *)

Abbreviation firewall_rule := (value firewall_rule_type).

Definition NCFG_FIREWALL_POLICY_DROP : Z := 1.
Definition NCFG_FIREWALL_ACCEPT : Z := 0.
Definition NCFG_FIREWALL_PROTO_ANY : Z := 0.
Definition NCFG_FIREWALL_PROTO_UDP : Z := 2.

(** [names_state]. *)
Definition names_state (r : firewall_rule) (state : list byte) : bool :=
  match (get firewall_rule_type "states" r : list text) with
  | [] => true
  | l => existsb (fun t => same_text t (Some state)) l
  end.

(** The input chain, where it drops what no rule accepts. *)
Definition dropping_input (d : document) : option (list firewall_rule) :=
  match (get document_type "firewall" d : option (value firewall_type)) with
  | Some f =>
      let chain := (get firewall_type "input" f : value firewall_chain_type) in
      if get firewall_chain_type "policy" chain =? NCFG_FIREWALL_POLICY_DROP then Some (get firewall_chain_type "rules" chain) else None
  | None => None
  end.

(** One turn of the loop of [ncfg_plan_input_accepts]. *)
Definition rule_accepts (interface : text) (protocol port : Z) (r : firewall_rule) : bool :=
  let ports := (get firewall_rule_type "ports" r : list Z) in
  let on := (get firewall_rule_type "interface" r : text) in
  (get firewall_rule_type "action" r =? NCFG_FIREWALL_ACCEPT) &&
  ((get firewall_rule_type "protocol" r =? NCFG_FIREWALL_PROTO_ANY) || (get firewall_rule_type "protocol" r =? protocol)) &&
  negb (stated on && stated interface && negb (same_text on interface)) && names_state r (bytes "new") &&
  ((zlen ports =? 0) || ((0 <=? port) && existsb (Z.eqb port) ports)).

(** [ncfg_plan_input_accepts]. *)
Definition input_accepts (d : document) (interface : text) (protocol port : Z) : bool :=
  match dropping_input d with
  | None => true
  | Some rules => existsb (rule_accepts interface protocol port) rules
  end.

(** ** The pass *)

Definition dq : string := String (Ascii.ascii_of_byte DQUOTE) "".

(** [running_server]: what it says it serves. *)
Definition running_server (observed : value observed_type) (name : cstr) : option (value observed_backend_type) :=
  List.find (fun b : value observed_backend_type =>
    (get observed_backend_type "kind" b =? NCFG_BACKEND_DHCP_SERVER) && get observed_backend_type "running" b &&
    named (cs (get observed_backend_type "interface" b)) name) (backends observed).

(** A text, after what its first line says, for a rule that would let it in. *)
Definition input_advice (what rule port : string) (rest : string) (name : string) : string :=
  "the firewall's input chain drops by default with no rule accepting " +:+ what +:+ " on " +:+ name +:+ ", so the " +:+ rest +:+
  ". Add `accept " +:+ dq +:+ rule +:+ "-" +:+ name +:+ dq +:+ " { protocol = " +:+ dq +:+ "udp" +:+ dq +:+ "; port = [" +:+ port +:+
  "]; interface = " +:+ dq +:+ name +:+ dq +:+ " }` to `input`".

Definition no_dns_advice (name : string) : string :=
  "the DHCP server on " +:+ name +:+ " offers no DNS server, so the hosts it serves get an " +:+
  "address and resolve no names: set `dns_forward = true` to answer them from " +:+
  "this router, or `dns` to name a server, in its `dhcp_server` block".

Definition ask_advice (name : string) (advertise : bool) : string :=
  "the DHCP server on " +:+ name +:+ " hands out IPv6 addresses, and no router advertisement on it tells the hosts to ask: " +:+
  (if advertise then "add `managed = true` to its `advertise` block"
   else "an `advertise` block with `managed = true` does, and it advertises a " +:+
        "delegated prefix only -- on a static prefix, hosts must be set to ask").

Definition file_advice (list_name file : text) (name : string) (fetched : bool) : string :=
  "block list `" +:+ fmt (cs list_name) +:+ "` names " +:+ fmt (cs file) +:+ ", which is not there or is past " +:+
  pretty (NCFG_BLOCK_FILE_MAX / (1024 * 1024)) +:+ " MiB, so " +:+ name +:+ " blocks without it" +:+
  (if fetched then ": `ncfg block fetch` downloads it" else "").

Section Pass.
Context {B : Type} {M : Type -> Type} {O : PlanOps B M}.

Definition warn_when (b : bool) (name : cstr) (t : string) : M unit := if b then ops_warnf name t else mret ().

(** The files of one list. *)
Fixpoint warn_files (name : cstr) (list_name : text) (urls : Z) (file : Z) (l : list text) : M unit :=
  match l with
  | [] => mret ()
  | path :: rest =>
      _ ← warn_when (negb (usable_file path)) name (file_advice list_name path (fmt name) (file <? urls));
      warn_files name list_name urls (file + 1) rest
  end.

Fixpoint warn_lists (name : cstr) (block : text) (l : list block_list) : M unit :=
  match l with
  | [] => mret ()
  | one :: rest =>
      _ ← (if same_text (l_text "name" one) block then warn_files name (l_text "name" one) (zlen (l_list "url" one)) 0 (l_list "file" one)
           else mret ());
      warn_lists name block rest
  end.

Fixpoint warn_blocks (name : cstr) (lists : list block_list) (l : list text) : M unit :=
  match l with
  | [] => mret ()
  | block :: rest => _ ← warn_lists name block lists; warn_blocks name lists rest
  end.

(** The warnings of [ncfg_plan_dhcp_server]. *)
Definition dhcp_warnings (p : planner) (interface : iface) (s : server) : M unit :=
  let raw := (get interface_type "name" interface : text) in
  let name := cs raw in
  let range6 := stated (s_text "range6_start" s) in
  let advertise := (get interface_type "advertise" interface : option (value ra_type)) in
  let managed := match advertise with Some a => get ra_type "managed" a | None => false end in
  let closed port := negb (input_accepts (pl_desired p) raw NCFG_FIREWALL_PROTO_UDP port) in
  _ ← warn_when ((zlen (s_list "dns" s) =? 0) && negb (forwards s) && (zlen (s_list "relay" s) =? 0)) name (no_dns_advice (fmt name));
  _ ← warn_when (closed 67) name (input_advice "DHCP" "dhcp" "67" "server there is never asked" (fmt name));
  _ ← warn_when (forwards s && closed 53) name (input_advice "DNS" "dns" "53" "forwarder there answers nobody" (fmt name));
  _ ← warn_when (range6 && negb managed) name (ask_advice (fmt name) (stated advertise));
  _ ← warn_when (range6 && closed 547) name (input_advice "DHCPv6" "dhcpv6" "547" "server there is never asked" (fmt name));
  if forwards s then warn_blocks name (get document_type "block_lists" (pl_desired p)) (s_list "block" s) else mret ().

(** A server that is not running is started. *)
Definition start_dhcp (p : planner) (raw : text) (base addressing : plan_ids) : M unit :=
  deps ← ids_extend no_ids (pi_ids base);
  deps ← ids_extend deps (pi_ids addressing);
  _ ← plan_backend p raw BACKEND_DHCP_SERVER (Some "dhcp_server") deps no_ids;
  mret ().

(** [ncfg_plan_dhcp_server]. *)
Definition plan_dhcp_server (p : planner) (interface : iface) (base addressing : plan_ids) : M unit :=
  let raw := (get interface_type "name" interface : text) in
  let name := cs raw in
  match server_of interface, dhcp_server_summary (pl_desired p) interface NCFG_DHCP_SERVER_SUMMARY_MAX with
  | Some s, Some wanted =>
      _ ← dhcp_warnings p interface s;
      match (b ← running_server (pl_observed p) name; cs (get observed_backend_type "served" b)) with
      | Some served =>
          if String.eqb served wanted then start_dhcp p raw base addressing
          else
            w ← ops_intern (Some wanted);
            o ← ops_intern (Some served);
            let why := reason_differs name (Some "dhcp_server") w o in
            id ← builder_push (pl_builder p) (BACKEND_STOP BACKEND_DHCP_SERVER name) why [] (Some (BACKEND_START BACKEND_DHCP_SERVER name));
            if id =? NO_ACTION then mret ()
            else
              _ ← builder_push (pl_builder p) (BACKEND_START BACKEND_DHCP_SERVER name) why [id] (Some (BACKEND_STOP BACKEND_DHCP_SERVER name));
              mret ()
      | None => start_dhcp p raw base addressing
      end
  | _, _ => mret ()
  end.

End Pass.
End Disk.
End Model.
