(* ===== verification/DhcpServerSpec.v ===== *)
(** * DhcpServerSpec: a DHCP server hands out hosts of its own network, and a
    line of a block list names what it says

    The network as arithmetic rather than as masks; what the checks of
    [DhcpServer] leave of a range and of the reservations; and the names of
    block lists, which are written into the file of another program. *)
From stdpp Require Import gmap pretty.
From S2P Require Import Prelude Wire Op Heap Plan Value ValueSpec InetText Builder Json JsonWrite DocText Field Document Canonical DocumentOps DocumentRoundtrip Observed ObservedOps Linkset Owned AddressPass AddressSpec DhcpServer.
#[local] Open Scope string_scope.
#[local] Open Scope list_scope.
#[local] Open Scope Z_scope.
#[local] Open Scope ncfg_scope.

(** ** The network as an interval *)

Lemma mask_of k : 0 <= k <= 32 -> u32 (Z.shiftl 0xffffffff k) = Z.shiftl (Z.ones (32 - k)) k.
Proof.
  intros Hk. unfold u32. change 0xffffffff with (Z.ones 32). rewrite !Z.shiftl_mul_pow2, !Z.ones_equiv by lia.
  replace (2 ^ 32) with (2 ^ (32 - k) * 2 ^ k) by (rewrite <- Z.pow_add_r by lia; f_equal; lia).
  assert (0 < 2 ^ k) by lia. assert (0 < 2 ^ (32 - k)) by lia. symmetry. apply (Z.mod_unique_pos _ _ (2 ^ k - 1)); nia.
Qed.

Lemma land_mask x k : 0 <= k <= 32 -> 0 <= x < 2 ^ 32 -> Z.land x (Z.shiftl (Z.ones (32 - k)) k) = x - x mod 2 ^ k.
Proof.
  intros Hk Hx. transitivity (Z.shiftl (Z.shiftr x k) k).
  - apply Z.bits_inj'. intros i Hi. rewrite Z.land_spec, !Z.shiftl_spec by done. destruct (Z.lt_ge_cases i k).
    { rewrite !(Z.testbit_neg_r _ (i - k)) by lia. apply andb_false_r. }
    rewrite Z.shiftr_spec by lia. replace (i - k + k) with i by lia. destruct (Z.lt_ge_cases i 32).
    + rewrite Z.ones_spec_low by lia. apply andb_true_r.
    + rewrite Z.ones_spec_high by lia. rewrite andb_false_r. symmetry. destruct (decide (x = 0)) as [->|]; [apply Z.bits_0|].
      apply Z.bits_above_log2; [lia|]. apply Z.lt_le_trans with 32; [|lia]. apply Z.log2_lt_pow2; lia.
  - rewrite Z.shiftl_mul_pow2, Z.shiftr_div_pow2 by lia. pose proof (Z_div_mod_eq_full x (2 ^ k)). lia.
Qed.

Lemma invert_mask k : 0 <= k <= 32 -> Z.lxor (Z.shiftl (Z.ones (32 - k)) k) 0xffffffff = Z.ones k.
Proof.
  intros Hk. change 0xffffffff with (Z.ones 32). apply Z.bits_inj'. intros i Hi. rewrite Z.lxor_spec, Z.shiftl_spec by done.
  destruct (Z.lt_ge_cases i k).
  - rewrite (Z.testbit_neg_r _ (i - k)) by lia. by rewrite !Z.ones_spec_low by lia.
  - rewrite (Z.ones_spec_high k) by lia. destruct (Z.lt_ge_cases i 32); [by rewrite !Z.ones_spec_low by lia|by rewrite !Z.ones_spec_high by lia].
Qed.

Lemma lor_range n a b : 0 <= n -> 0 <= a < 2 ^ n -> 0 <= b < 2 ^ n -> 0 <= Z.lor a b < 2 ^ n.
Proof.
  intros Hn Ha Hb. split; [apply Z.lor_nonneg; lia|]. destruct (decide (Z.lor a b = 0)) as [->|]; [lia|].
  assert (0 <= Z.lor a b) by (apply Z.lor_nonneg; lia). apply Z.log2_lt_pow2; [lia|]. rewrite Z.log2_lor by lia.
  destruct (decide (n = 0)) as [->|]; [by replace a with 0 in * by lia; replace b with 0 in * by lia|].
  apply Z.max_lub_lt; [destruct (decide (a = 0)) as [->|]|destruct (decide (b = 0)) as [->|]]; try (apply Z.log2_lt_pow2; lia); cbn; lia.
Qed.

Lemma octet_at_range l i : octets l -> 0 <= octet_at l i < 256.
Proof.
  intros Hl. unfold octet_at. destruct (Nat.lt_ge_cases i (length l)); [|rewrite nth_overflow by done; lia].
  by apply (proj1 (Forall_nth (fun x => 0 <= x < 256) 0 l) Hl).
Qed.

Lemma to_host_range l : octets l -> 0 <= to_host l < 2 ^ 32.
Proof.
  intros Hl. unfold to_host. pose proof (fun i => octet_at_range l i Hl) as H.
  pose proof (H 0%nat). pose proof (H 1%nat). pose proof (H 2%nat). pose proof (H 3%nat).
  repeat apply lor_range; rewrite ?Z.shiftl_mul_pow2; lia.
Qed.

(** How many addresses a network of an address has. *)
Definition network_size (a : address) : Z := 2 ^ (32 - ad_prefix a).

Lemma network_exact a : octets (ad_bytes a) -> 0 <= ad_prefix a <= 30 ->
  let own := to_host (ad_bytes a) in
  network_of a = Network own (own - own mod network_size a) (own - own mod network_size a + network_size a - 1)
    (Z.shiftl (Z.ones (ad_prefix a)) (32 - ad_prefix a)).
Proof.
  intros Ho Hp own. unfold network_of. pose proof (to_host_range _ Ho) as Hr. fold own in Hr |- *.
  assert ((if ad_prefix a =? 0 then 0 else u32 (Z.shiftl 0xffffffff (32 - ad_prefix a))) = Z.shiftl (Z.ones (32 - (32 - ad_prefix a))) (32 - ad_prefix a)) as ->.
  { destruct (Z.eqb_spec (ad_prefix a) 0) as [->|]; [done|]. apply mask_of. lia. }
  rewrite land_mask, invert_mask by lia. fold (network_size a). replace (32 - (32 - ad_prefix a)) with (ad_prefix a) by lia. f_equal.
  assert (0 < network_size a) by (unfold network_size; lia).
  replace (own - own mod network_size a) with (Z.shiftl (own / network_size a) (32 - ad_prefix a)) at 1.
  - rewrite lor_shiftl, Z.ones_equiv by (rewrite ?Z.ones_equiv; unfold network_size in *; lia). fold (network_size a).
    pose proof (Z_div_mod_eq_full own (network_size a)). lia.
  - rewrite Z.shiftl_mul_pow2 by lia. fold (network_size a). pose proof (Z_div_mod_eq_full own (network_size a)). lia.
Qed.

(** The masks of [outside] and of the range ask for the interval. *)
Lemma in_network a x : octets (ad_bytes a) -> 0 <= ad_prefix a <= 30 -> 0 <= x < 2 ^ 32 ->
  Z.land x (nw_mask (network_of a)) = nw_network (network_of a) <-> nw_network (network_of a) <= x <= nw_broadcast (network_of a).
Proof.
  intros Ho Hp Hx. rewrite network_exact by done. cbn [nw_mask nw_network nw_broadcast]. set (own := to_host (ad_bytes a)).
  replace (Z.shiftl (Z.ones (ad_prefix a)) (32 - ad_prefix a)) with (Z.shiftl (Z.ones (32 - (32 - ad_prefix a))) (32 - ad_prefix a)) by (do 2 f_equal; lia).
  rewrite land_mask by lia. fold (network_size a). assert (0 < network_size a) by (unfold network_size; lia).
  pose proof (Z.mod_pos_bound x (network_size a)). pose proof (Z.mod_pos_bound own (network_size a)).
  pose proof (Z_div_mod_eq_full x (network_size a)). pose proof (Z_div_mod_eq_full own (network_size a)).
  split; [intros E; lia|]. intros Hi. assert (x / network_size a = own / network_size a) as E; [|nia].
  assert (0 <= x - network_size a * (own / network_size a) < network_size a) by lia. symmetry.
  apply (Z.div_unique_pos x _ _ (x - network_size a * (own / network_size a))); lia.
Qed.

(** ** What the checks leave *)

Section Range.
Context {I : Inet} {L : InetLaws I}.

Lemma bare_ipv4_range t x : bare_ipv4 t = Some x -> 0 <= x < 2 ^ 32.
Proof.
  unfold bare_ipv4. destruct (address_parse t) as [a|] eqn:E; [|done]. destruct (_ || _); [done|]. intros [= <-].
  apply to_host_range, wf_sixteen. by eapply address_parse_wf.
Qed.

Lemma served_address_wf l a : served_address l = Some a -> octets (ad_bytes a) /\ 0 <= ad_prefix a <= 32.
Proof.
  unfold served_address. intros H. apply head_Some_elem_of, list_elem_of_omap in H as (s & _ & H). unfold serving_address in H.
  destruct (static_of s) as [st|]; [|done]. destruct (address_parse _) as [b|] eqn:E; [|done].
  destruct (negb (ad_is_ipv6 b) && ad_has_prefix b) eqn:Eb; [|done]. injection H as <-. apply andb_true_iff in Eb as [E4 Ep].
  pose proof (address_parse_wf _ _ E) as Hw. split; [by apply wf_sixteen|]. destruct Hw as [_ Hw]. rewrite Ep in Hw.
  apply negb_true_iff in E4. by rewrite E4 in Hw.
Qed.

(** A host of the network of an address: neither its first nor its last. *)
Definition is_host (a : address) (x : Z) : Prop :=
  let base := to_host (ad_bytes a) - to_host (ad_bytes a) mod network_size a in base < x < base + network_size a - 1.

Context (a : address) (Ho : octets (ad_bytes a)) (Hp : 0 <= ad_prefix a <= 30).
Abbreviation own := (to_host (ad_bytes a)).

Lemma outside_exact x : 0 <= x < 2 ^ 32 -> outside (network_of a) x = false <-> is_host a x.
Proof.
  intros Hx. unfold outside, is_host. pose proof (in_network a x Ho Hp Hx) as H. rewrite !orb_false_iff, negb_false_iff, Z.eqb_eq, !Z.eqb_neq, H.
  rewrite network_exact by done. cbn [nw_network nw_broadcast]. lia.
Qed.

Lemma own_in_network : nw_network (network_of a) <= own <= nw_broadcast (network_of a).
Proof.
  rewrite network_exact by done. cbn [nw_network nw_broadcast]. assert (0 < network_size a) by (unfold network_size; lia).
  pose proof (Z.mod_pos_bound own (network_size a)). lia.
Qed.

Lemma stated_range_safe s first last : stated_range (network_of a) s = inr (first, last) ->
  is_host a first /\ is_host a last /\ first <= last /\ ~ first <= own <= last.
Proof.
  unfold stated_range. destruct (bare_ipv4 (get _ "range_start" s)) as [f|] eqn:Ef; [|done]. destruct (bare_ipv4 (get _ "range_end" s)) as [l|] eqn:El; [|done].
  pose proof (bare_ipv4_range _ _ Ef) as Hf. pose proof (bare_ipv4_range _ _ El) as Hl.
  destruct (Z.ltb_spec l f); [done|]. destruct (_ || _ || _ || _) eqn:E; [done|]. destruct (_ && _) eqn:Eo; [done|]. intros [= <- <-].
  rewrite !orb_false_iff, !negb_false_iff, !Z.eqb_eq, !Z.eqb_neq in E. destruct E as [[[E1 E2] E3] E4].
  apply (in_network a _ Ho Hp) in E1, E2; [|done|done]. unfold is_host. apply andb_false_iff in Eo. rewrite !Z.leb_gt in Eo.
  rewrite network_exact in * by done. cbn [nw_network nw_broadcast nw_own] in *. lia.
Qed.

Lemma base_range : 0 <= own - own mod network_size a /\ own - own mod network_size a + network_size a <= 2 ^ 32.
Proof.
  pose proof (to_host_range _ Ho) as Hr. unfold network_size. set (k := 32 - ad_prefix a). assert (0 < 2 ^ k) by (unfold k; lia).
  pose proof (Z_div_mod_eq_full own (2 ^ k)) as E. assert (own / 2 ^ k < 2 ^ ad_prefix a) as Hd.
  { apply Z.div_lt_upper_bound; [done|]. rewrite <- Z.pow_add_r by (unfold k; lia). replace (k + ad_prefix a) with 32 by (unfold k; lia). lia. }
  assert (0 <= own / 2 ^ k) by (apply Z.div_pos; lia).
  assert (2 ^ k * (own / 2 ^ k) + 2 ^ k <= 2 ^ k * 2 ^ ad_prefix a) by nia.
  rewrite <- Z.pow_add_r in * by (unfold k; lia). replace (k + ad_prefix a) with 32 in * by (unfold k; lia). lia.
Qed.

Lemma default_range_safe first last : own - own mod network_size a + 249 < 2 ^ 32 -> default_range (network_of a) = inr (first, last) ->
  is_host a first /\ is_host a last /\ first <= last /\ ~ first <= own <= last.
Proof.
  unfold default_range, is_host. pose proof base_range as [H0 H1]. rewrite network_exact by done. cbn [nw_network nw_broadcast nw_own].
  set (base := own - own mod network_size a) in *. assert (4 <= network_size a) as H4.
  { unfold network_size. change 4 with (2 ^ 2). apply Z.pow_le_mono_r; lia. }
  intros Hw. rewrite (u32_small (base + 100)), (u32_small (base + 249)) by lia. cbn zeta.
  destruct (Z.leb_spec (base + network_size a - 1) (base + 249)); [rewrite u32_small by lia|]; (destruct (_ || _) eqn:E; [done|]);
    (destruct (_ && _) eqn:Eo; [done|]); intros [= <- <-]; apply orb_false_iff in E; rewrite Z.leb_gt, Z.ltb_ge in E;
    apply andb_false_iff in Eo; rewrite !Z.leb_gt in Eo; lia.
Qed.

Lemma hosts_fit_safe l : forall earlier, hosts_fit (network_of a) earlier l = None -> forall k h, l !! k = Some h ->
  exists x, bare_ipv4 (host_address h) = Some x /\ is_host a x /\ x <> own /\
    forall j e, (earlier ++ l) !! j = Some e -> (j < length earlier + k)%nat -> hosts_clash e h = false.
Proof.
  induction l as [|h0 l IH]; intros earlier H k h Hk; [done|]. cbn [hosts_fit] in H.
  destruct (host_refused _ earlier h0) eqn:E; [done|]. destruct k as [|k].
  - injection Hk as ->. clear IH H. unfold host_refused in E. destruct (negb _); [done|]. destruct (hardware_address_strict _ _); [|done].
    destruct (bare_ipv4 _) as [x|] eqn:Ex; [|done]. destruct (outside _ x) eqn:Eo; [done|]. destruct (Z.eqb_spec x (nw_own (network_of a))) as [|Hx]; [done|].
    apply outside_exact in Eo; [|by eapply bare_ipv4_range]. rewrite network_exact in Hx by done. exists x. repeat split; [apply Eo|apply Eo|exact Hx|].
    unfold refused_if in E. destruct (existsb _ earlier) eqn:Ee; [done|]. intros j e Hj Hlt. rewrite lookup_app_l in Hj by lia.
    destruct (hosts_clash e h) eqn:Ec; [|done]. rewrite <- not_true_iff_false, existsb_exists in Ee. destruct Ee. exists e.
    split; [by eapply list_elem_of_In, list_elem_of_lookup_2|done].
  - destruct (IH _ H k h Hk) as (x & Hx1 & Hx2 & Hx3 & Hx4). exists x. repeat split; try done; try apply Hx2.
    intros j e Hj Hlt. apply (Hx4 j e); [by rewrite <- app_assoc|]. rewrite length_app. cbn [length]. lia.
Qed.

End Range.

Lemma first_refusal_none {A} (l : list (option A)) : first_refusal l = None <-> Forall (eq None) l.
Proof.
  induction l as [|[r|] l IH]; cbn [first_refusal]; [by split|split; [done|inversion 1; done]|]. rewrite IH.
  split; [by constructor|by inversion 1].
Qed.

Lemma refused_if_none {A} b (r : A) : None = refused_if b r -> b = false.
Proof. by destruct b. Qed.

Abbreviation hosts_of s := (get dhcp_server_type "hosts" s : list (value dhcp_host_type)).
Abbreviation text_of name s := (get dhcp_server_type name s : text).

(** C27: what a DHCP server is told to hand out. When [ncfg_dhcp_server_range]
    accepts the block of an interface that does not relay, it has found the
    interface's own IPv4 network, and: the range it answers (stated, or the
    default, where the network does not lie within 249 addresses of the end of
    the address space) runs from a host of that network up to a host of it and
    leaves the interface's own address out; every reservation is for a host of
    the network other than the interface, and shares no name, no hardware
    address and no address with an earlier one; and a stated gateway is a host
    of the network. The network's first and last address are handed to nobody. *)
Theorem dhcp_range_safe {I : Inet} {L : InetLaws I} (i : value interface_type) s r :
  server_of i = Some s -> (get dhcp_server_type "relay" s : list text) = [] -> dhcp_server_range i = inr r ->
  exists a first last, served_address (addressing i) = Some a /\ r = DhcpRange (dotted first) (dotted last) (router_text a) /\
    let own := to_host (ad_bytes a) in
    (stated (text_of "range_start" s) || stated (text_of "range_end" s) = true \/ own - own mod network_size a + 249 < 2 ^ 32 ->
      is_host a first /\ is_host a last /\ first <= last /\ ~ first <= own <= last) /\
    (forall k h, hosts_of s !! k = Some h -> exists x, bare_ipv4 (host_address h) = Some x /\ is_host a x /\ x <> own /\
      forall j e, (j < k)%nat -> hosts_of s !! j = Some e -> hosts_clash e h = false) /\
    (forall g, text_of "gateway" s = Some g -> exists x, bare_ipv4 (Some g) = Some x /\ is_host a x).
Proof.
  intros Hs Hr. unfold dhcp_server_range. rewrite Hs, Hr. destruct (_ && _); [done|]. destruct (_ && _); [done|]. destruct (negb _); [done|].
  destruct (served_address _) as [a|] eqn:Ea; [|done]. destruct (served_address_wf _ _ Ea) as [Ho Hp]. destruct (Z.ltb_spec 30 (ad_prefix a)); [done|].
  cbn [zlen length Z.of_nat Z.eqb negb]. unfold server_range. destruct (hands_out _ s) as [|[first last]] eqn:Eh; [done|].
  destruct (first_refusal _) eqn:Ef; [done|]. intros [= <-]. exists a, first, last. assert (0 <= ad_prefix a <= 30) as Hp' by lia.
  apply first_refusal_none in Ef. rewrite !Forall_cons in Ef. destruct Ef as (E1 & E2 & _). split; [done|]. split; [done|]. split; [|split].
  - unfold hands_out in Eh. intros Hw. destruct (_ || _) eqn:Er; [by eapply stated_range_safe|].
    destruct Hw as [|Hw]; [done|]. by apply default_range_safe.
  - intros k h Hk. destruct (hosts_fit_safe a Ho Hp' _ [] (eq_sym E1) k h Hk) as (x & Hx1 & Hx2 & Hx3 & Hx4). exists x. repeat split; try done; try apply Hx2.
    intros j e Hj He. by apply (Hx4 j e).
  - intros g Hg. unfold options_fit in E2. symmetry in E2. apply first_refusal_none in E2. apply Forall_inv, refused_if_none in E2.
    rewrite Hg in E2. cbn [stated_not stated andb] in E2. apply negb_false_iff in E2. destruct (bare_ipv4 (Some g)) as [x|] eqn:Ex; [|done].
    exists x. split; [done|]. apply negb_true_iff in E2. by apply outside_exact in E2; [|done|done|by eapply bare_ipv4_range].
Qed.

Definition served_document : value document_type := read_document
  "{'schema_version':{'major':1,'minor':1},'globals':{},'devices':[],'interfaces':[{'name':'lan0','addressing':[{'source':'static','address':'192.168.1.1/24'}],'dhcp_server':{'gateway':'192.168.1.2','hosts':[{'name':'nas','mac':'02:00:00:00:00:01','address':'192.168.1.10'},{'name':'tv','mac':'02:00:00:00:00:02','address':'192.168.1.11'}]}}],'networks':[]}".

Definition first_interface (d : value document_type) : value interface_type :=
  default (zero interface_type) (head (get document_type "interfaces" d : list (value interface_type))).

Definition lan0 : value interface_type := first_interface served_document.
Definition lan0_server : value dhcp_server_type := default (zero dhcp_server_type) (server_of lan0).

Lemma dhcp_range_safe_witness :
  exists a first last, served_address (addressing lan0) = Some a /\
    DhcpRange "192.168.1.100" "192.168.1.249" "192.168.1.1/24" = DhcpRange (dotted first) (dotted last) (router_text a) /\
    length (hosts_of lan0_server) = 2%nat.
Proof.
  destruct (dhcp_range_safe lan0 lan0_server (DhcpRange "192.168.1.100" "192.168.1.249" "192.168.1.1/24")) as (a & first & last & Ha & Hr & _).
  - by_vm.
  - by_vm.
  - by_vm.
  - exists a, first, last. split; [exact Ha|]. split; [exact Hr|by_vm].
Defined.

(** The last addresses there are: the default range of 255.255.255.192/26 wraps
    and is accepted, outside the network. *)
Definition end_document : value document_type := read_document
  "{'schema_version':{'major':1,'minor':1},'globals':{},'devices':[],'interfaces':[{'name':'lan0','addressing':[{'source':'static','address':'255.255.255.193/26'}],'dhcp_server':{}}],'networks':[]}".

Example default_range_wraps : dhcp_server_range (first_interface end_document) = inr (DhcpRange "0.0.0.36" "0.0.0.185" "255.255.255.193/26").
Proof. by_vm. Qed.

(** A relay that states where a boot file would be fetched from is accepted. *)
Definition relay_document : value document_type := read_document
  "{'schema_version':{'major':1,'minor':1},'globals':{},'devices':[],'interfaces':[{'name':'lan0','addressing':[{'source':'static','address':'192.168.1.1/24'}],'dhcp_server':{'relay':['10.0.0.5'],'boot_server':'not an address'}}],'networks':[]}".

Example relay_takes_boot_server : dhcp_server_range (first_interface relay_document) = inr (DhcpRange "" "" "192.168.1.1/24").
Proof. by_vm. Qed.

(** ** Names of block lists *)

(** A name a list may hold. *)
Definition listed_name (n : list byte) : bool :=
  block_list_name (Some n) && has_byte "." n && negb (existsb (bytes_eqb n) own_names).

Definition name_letter (c : byte) : bool := block_letter c || (c =b ".").

Lemma name_letter_code c : name_letter c = true -> bz c = 45 \/ bz c = 46 \/ bz c = 95 \/ 48 <= bz c <= 57 \/ 97 <= bz c <= 122.
Proof.
  unfold name_letter, block_letter, byte_between. rewrite !orb_true_iff, !andb_true_iff, !Z.leb_le. cbn.
  intros [[[[H|H]|H]|H]|H]; try (destruct (byte_eqb_spec c "-"), (byte_eqb_spec c "_"), (byte_eqb_spec c "."); subst; cbn in *; done || lia); lia.
Qed.

Lemma not_a_letter c d : name_letter c = true -> name_letter d = false -> (c =b d) = false.
Proof. intros Hc Hd. apply byte_eqb_neq. intros ->. congruence. Qed.

Lemma letter_lowered c : name_letter c = true -> lowered c = c.
Proof.
  intros H%name_letter_code. unfold lowered, byte_between. destruct (_ && _) eqn:E; [|done]. rewrite andb_true_iff, !Z.leb_le in E. cbn in E. lia.
Qed.

Lemma block_labels_letters n : forall k, block_labels n k = true -> Forall (fun c => name_letter c = true) n.
Proof.
  induction n as [|c n IH]; intros k H; [done|]. cbn [block_labels] in H. constructor.
  - unfold name_letter. destruct (c =b "."); [apply orb_true_r|]. destruct (block_letter c); [done|]. by cbn in H.
  - destruct (c =b "."); [destruct (k =? 0); [done|]|destruct (_ || _); [done|]]; by eapply IH.
Qed.

Lemma listed_letters n : listed_name n = true -> Forall (fun c => name_letter c = true) n /\ (3 <= length n)%nat.
Proof.
  unfold listed_name. rewrite !andb_true_iff. intros [[H Hd] _]. unfold block_list_name in H. destruct n as [|c n]; [done|].
  apply andb_true_iff in H as [_ H]. split; [by eapply block_labels_letters|].
  cbn [block_labels] in H. destruct n as [|d [|e n]]; [| |cbn; lia].
  - cbn in Hd. destruct (c =b "."); done.
  - cbn [has_byte existsb] in Hd. rewrite orb_false_r in Hd. destruct (c =b "."); [done|]. cbn [orb] in Hd.
    destruct (_ || _); [done|]. cbn [block_labels] in H. by rewrite Hd in H.
Qed.

Lemma take_until_none p l : Forall (fun c => p c = false) l -> take_until p l = l.
Proof. induction 1 as [|c l Hc _ IH]; cbn [take_until]; [done|]. by rewrite Hc, IH. Qed.

Lemma take_until_stop p l c r : Forall (fun c => p c = false) l -> p c = true -> take_until p (l ++ c :: r) = l.
Proof. induction 1 as [|d l Hd _ IH]; intros Hc; cbn [take_until app]; [by rewrite Hc|]. rewrite Hd. f_equal. by apply IH. Qed.

Lemma drop_while_stop p l c r : Forall (fun c => p c = true) l -> p c = false -> drop_while p (l ++ c :: r) = c :: r.
Proof. induction 1 as [|d l Hd _ IH]; intros Hc; cbn [drop_while app]; [by rewrite Hc|]. rewrite Hd. by apply IH. Qed.

Lemma trimmed_line_id l c m d : l = c :: m -> last l = Some d -> line_blank c = false -> line_end d = false -> trimmed_line l = l.
Proof.
  intros -> Hl Hc Hd. unfold trimmed_line. cbn [drop_while]. rewrite Hc. apply last_Some in Hl as [k Hk]. rewrite Hk.
  rewrite rev_app_distr. cbn [rev app drop_while]. rewrite Hd. cbn [rev]. by rewrite rev_involutive.
Qed.

(** The lines the published lists write for a name. *)
Inductive line_of (n : list byte) : list byte -> Prop :=
| PLAIN_LINE : line_of n n
| HOSTS_LINE a blanks : a ∈ null_addresses -> blanks <> [] -> Forall (fun c => line_blank c = true) blanks -> line_of n (a ++ blanks ++ n)
| ADBLOCK_LINE : line_of n (bytes "||" ++ n ++ bytes "^")
| DNSMASQ_LINE word target : word ∈ map bytes ["address=/"; "local=/"; "server=/"] ->
    Forall (fun c => line_end c = false) target -> line_of n (word ++ n ++ bytes "/" ++ target).

Lemma starts_with_take w t : starts_with w t = true -> t = w ++ drop (length w) t.
Proof. unfold starts_with. intros H%bytes_eqb_true. rewrite <- H at 1. by rewrite take_drop. Qed.

Lemma dnsmasq_prefix t : dnsmasq_line t = true -> exists w r, w ∈ map bytes ["address=/"; "local=/"; "server=/"] /\ t = w ++ r.
Proof.
  unfold dnsmasq_line. rewrite andb_true_iff, !orb_true_iff. intros [_ [[H|H]|H]]; apply starts_with_take in H; eexists _, _;
    (split; [|exact H]); cbn [map]; rewrite !elem_of_cons; auto.
Qed.

Lemma dnsmasq_slash t : dnsmasq_line t = true -> "/"%byte ∈ t.
Proof.
  intros (w & r & Hw & ->)%dnsmasq_prefix. apply elem_of_app. left. cbn [map] in Hw. rewrite !elem_of_cons, elem_of_nil in Hw.
  destruct Hw as [->|[->|[->|[]]]]; cbn; rewrite !elem_of_cons; tauto.
Qed.

Lemma dnsmasq_first c m : dnsmasq_line (c :: m) = true -> c = "a"%byte \/ c = "l"%byte \/ c = "s"%byte.
Proof.
  intros (w & r & Hw & E)%dnsmasq_prefix. cbn [map] in Hw. rewrite !elem_of_cons, elem_of_nil in Hw.
  destruct Hw as [->|[->|[->|[]]]]; cbn in E; injection E as -> _; auto.
Qed.

Lemma adblock_first c m : adblock_line (c :: m) = true -> c = "|"%byte.
Proof. unfold adblock_line. rewrite !andb_true_iff. intros [[_ H] _]. apply starts_with_take in H. cbn in H. by injection H. Qed.

Section Lines.
Context (n : list byte) (Hn : listed_name n = true).

Lemma letters_pass (p : byte -> bool) : (forall c, name_letter c = true -> p c = false) -> Forall (fun c => p c = false) n.
Proof. intros H. eapply Forall_impl; [exact (proj1 (listed_letters n Hn))|]. exact H. Qed.

Lemma letter_ends c : name_letter c = true -> line_end c = false.
Proof. intros H. unfold line_end, line_blank. by rewrite !(not_a_letter c). Qed.

Lemma letter_blank c : name_letter c = true -> line_blank c = false.
Proof. intros H. unfold line_blank. by rewrite !(not_a_letter c). Qed.

Lemma name_first : exists c m, n = c :: m /\ name_letter c = true.
Proof. destruct (listed_letters n Hn) as [Hl H3]. destruct n as [|c m]; [cbn in H3; lia|]. exists c, m. split; [done|]. by inversion Hl. Qed.

Lemma name_last : exists d, last n = Some d /\ name_letter d = true.
Proof.
  destruct (listed_letters n Hn) as [Hl H3]. destruct (last n) as [d|] eqn:E; [|apply last_None in E; rewrite E in H3; cbn in H3; lia].
  exists d. split; [done|]. apply last_Some in E as [k Hk]. rewrite Hk in Hl. apply Forall_app in Hl as [_ Hl]. by inversion Hl.
Qed.

(** A line whose word is the name names it. *)
Lemma named_by line at_ c m size : trimmed_line line = at_ -> at_ = c :: m -> (c =b "#") || (c =b "!") = false -> line_word at_ = Some n ->
  zlen n < size -> name_of_line line size = Some n.
Proof.
  intros Ht Ha Hc Hw Hs. destruct (listed_letters n Hn) as [Hl H3]. unfold name_of_line. unfold zlen in *.
  destruct (Z.ltb_spec size 2); [lia|]. rewrite Ht, Ha, Hc, <- Ha, Hw. unfold zlen. destruct (Z.eqb_spec (Z.of_nat (length n)) 0); [lia|].
  destruct (Z.leb_spec size (Z.of_nat (length n))); [lia|]. cbn [orb]. assert (map lowered n = n) as ->.
  { clear -Hl. induction Hl as [|d l Hd _ IH]; cbn [map]; [done|]. by rewrite IH, letter_lowered. }
  rewrite take_until_none by (apply letters_pass; intros d Hd; apply byte_eqb_neq; by intros <-).
  unfold listed_name in Hn. rewrite !andb_true_iff, negb_true_iff in Hn. destruct Hn as [[H1 H2] ->]. by rewrite H1, H2.
Qed.

Lemma hosts_head a : a ∈ null_addresses -> exists c m, a = c :: m /\ line_blank c = false /\ (c =b "#") || (c =b "!") = false /\ (c =b "|") = false /\
  (c =b "a") = false /\ (c =b "l") = false /\ (c =b "s") = false /\ Forall (fun c => line_blank c = false) a /\ null_address a = true.
Proof.
  unfold null_addresses. cbn [map]. rewrite !elem_of_cons, elem_of_nil. intros [->|[->|[->|[->|[->|[]]]]]]; eexists _, _;
    (split; [reflexivity|]); repeat split; try reflexivity; repeat constructor.
Qed.

Lemma line_word_of line : line_of n line -> line_word line = Some n.
Proof.
  destruct (listed_letters n Hn) as [Hl H3]. destruct name_first as (c & m & Ec & Hc). intros [|a blanks Ha Hb Hbl| |word target Hw Ht]; unfold line_word.
  - assert (dnsmasq_line n = false) as ->.
    { destruct (dnsmasq_line n) eqn:E; [|done]. apply dnsmasq_slash in E. by apply (proj1 (Forall_forall _ _) Hl) in E. }
    assert (adblock_line n = false) as ->. { destruct (adblock_line n) eqn:E; [|done]. rewrite Ec in E. apply adblock_first in E. by subst. }
    rewrite take_until_none by (apply letters_pass, letter_blank). by rewrite drop_ge.
  - destruct (hosts_head a Ha) as (x & v & Ex & Hx & _ & Hx1 & Hx2 & Hx3 & Hx4 & Hab & Hna). destruct blanks as [|b blanks]; [done|].
    apply Forall_cons in Hbl as [Hb1 Hbl].
    assert (dnsmasq_line (a ++ (b :: blanks) ++ n) = false) as ->.
    { destruct (dnsmasq_line _) eqn:E; [|done]. rewrite Ex in E. cbn [app] in E. apply dnsmasq_first in E. destruct E as [->|[->| ->]]; done. }
    assert (adblock_line (a ++ (b :: blanks) ++ n) = false) as ->.
    { destruct (adblock_line _) eqn:E; [|done]. rewrite Ex in E. cbn [app] in E. apply adblock_first in E. by subst. }
    cbn [app]. rewrite take_until_stop by done. rewrite drop_app_length. cbn zeta beta iota. rewrite Hna. cbn [negb].
    rewrite Ec at 1. change (b :: blanks ++ c :: m) with ((b :: blanks) ++ c :: m). rewrite drop_while_stop, <- Ec; [|by constructor|by apply letter_blank].
    rewrite take_until_none; [done|]. apply letters_pass. intros e He. by rewrite letter_blank, (not_a_letter e).
  - assert (dnsmasq_line (bytes "||" ++ n ++ bytes "^") = false) as ->.
    { destruct (dnsmasq_line _) eqn:E; [|done]. apply dnsmasq_first in E. destruct E as [E|[E|E]]; done. }
    assert (adblock_line (bytes "||" ++ n ++ bytes "^") = true) as ->.
    { unfold adblock_line. change (bytes "^") with ["^"%byte]. rewrite app_assoc, last_snoc. unfold zlen. rewrite length_app, length_app. cbn [length].
      apply andb_true_iff. split; [|done]. apply andb_true_iff. split; [|done]. apply Z.ltb_lt. cbn. lia. }
    change (bytes "||") with ["|"%byte; "|"%byte]. change (bytes "^") with ["^"%byte]. cbn [drop app]. f_equal. cbn [length app]. rewrite length_app. cbn [length]. replace (S (S (length n + 1)) - 3)%nat with (length n) by lia.
    by rewrite drop_0, take_app_length.
  - assert (dnsmasq_line (word ++ n ++ bytes "/" ++ target) = true) as ->.
    { unfold dnsmasq_line, starts_with. apply andb_true_iff. split.
      - apply Z.ltb_lt. unfold zlen. rewrite !length_app. cbn [map] in Hw. rewrite !elem_of_cons, elem_of_nil in Hw.
        destruct Hw as [->|[->|[->|[]]]]; cbn [length bytes]; cbn; lia.
      - cbn [map] in Hw. rewrite !elem_of_cons, elem_of_nil in Hw. destruct Hw as [->|[->|[->|[]]]]; rewrite take_app_length, bytes_eqb_refl; by rewrite ?orb_true_r. }
    assert (exists v, word = v ++ bytes "/" /\ Forall (fun c => negb (c =b "/") = true) v) as (v & -> & Hv).
    { cbn [map] in Hw. rewrite !elem_of_cons, elem_of_nil in Hw. destruct Hw as [->|[->|[->|[]]]];
        [exists (bytes "address=")|exists (bytes "local=")|exists (bytes "server=")]; (split; [done|]); repeat constructor. }
    rewrite <- app_assoc. change (bytes "/") with ["/"%byte]. cbn [app]. rewrite drop_while_stop by done.
    cbn [drop]. rewrite drop_0, split_at_byte_some; [done|]. intros Hs. by apply (proj1 (Forall_forall _ _) Hl) in Hs.
Qed.

Lemma line_edges line : line_of n line -> exists c m d, line = c :: m /\ last line = Some d /\ line_blank c = false /\ (c =b "#") || (c =b "!") = false /\ line_end d = false.
Proof.
  destruct name_first as (c & m & Ec & Hc). destruct name_last as (d & Ed & Hd). intros [|a blanks Ha Hb Hbl| |word target Hw Ht].
  - exists c, m, d. split; [done|]. split; [done|]. split; [by apply letter_blank|]. split; [by rewrite !(not_a_letter c)|by apply letter_ends].
  - destruct (hosts_head a Ha) as (x & v & -> & Hx & Hx0 & _). exists x, (v ++ blanks ++ n), d. split; [done|].
    split; [rewrite !last_app, Ed; done|]. split; [done|]. split; [done|by apply letter_ends].
  - eexists _, _, "^"%byte. split; [reflexivity|]. split; [change (bytes "^") with ["^"%byte]; by rewrite app_assoc, last_snoc|done].
  - assert (exists x v, word = x :: v /\ line_blank x = false /\ (x =b "#") || (x =b "!") = false) as (x & v & -> & Hx1 & Hx2).
    { cbn [map] in Hw. rewrite !elem_of_cons, elem_of_nil in Hw. destruct Hw as [->|[->|[->|[]]]]; eexists _, _; (split; [reflexivity|done]). }
    exists x, (v ++ n ++ bytes "/" ++ target), (default "/"%byte (last target)). split; [done|]. rewrite !last_app. split; [by destruct (last target)|].
    split; [done|]. split; [done|]. destruct (last target) as [e|] eqn:E; [|done]. apply last_Some in E as [k ->]. apply Forall_app in Ht as [_ Ht]. by inversion Ht.
Qed.

End Lines.

Lemma trimmed_around before line after c m d : line = c :: m -> last line = Some d -> line_blank c = false -> line_end d = false ->
  Forall (fun c => line_blank c = true) before -> Forall (fun c => line_end c = true) after -> trimmed_line (before ++ line ++ after) = line.
Proof.
  intros Hc Hd H1 H2 Hb Ha. unfold trimmed_line. rewrite Hc at 1. cbn [app]. rewrite drop_while_stop by done. change (c :: m ++ after) with ((c :: m) ++ after).
  rewrite <- Hc, rev_app_distr. apply last_Some in Hd as [k Hk]. rewrite Hk, rev_app_distr. cbn [rev app].
  rewrite drop_while_stop; [|by apply Forall_rev|done]. cbn [rev]. by rewrite rev_involutive.
Qed.

Lemma name_of_line_listed line size n : name_of_line line size = Some n -> listed_name n = true /\ zlen n < size.
Proof.
  unfold name_of_line, listed_name. destruct (Z.ltb_spec size 2); [done|]. destruct (trimmed_line line) as [|c m]; [done|]. destruct (_ || _); [done|].
  destruct (line_word _) as [w|]; [|done]. destruct (_ || _) eqn:Ew; [done|]. destruct (_ || negb _) eqn:Eo; [done|].
  destruct (block_list_name _) eqn:Eb; [|done]. intros [= <-]. apply orb_false_iff in Eo as [Eo Ed]. rewrite Eb, Eo. apply negb_false_iff in Ed. rewrite Ed.
  split; [done|]. apply orb_false_iff in Ew as [_ Ew]. apply Z.leb_gt in Ew. eapply Z.le_lt_trans; [|exact Ew]. unfold zlen.
  rewrite <- (length_map lowered w). generalize (map lowered w) as l. clear. intros l.
  induction l as [|c l IH]; cbn [take_until length]; [lia|]. destruct (byte_eqb x00 c); cbn [length]; lia.
Qed.

(** C28: lines of block lists. Whatever a line holds, the name
    [ncfg_block_list_name_of_line] takes from it fits the room it was given and
    is one a list may hold: labels of one to 63 lower-case letters, digits,
    hyphens and underscores, with a dot, at most 253 characters, and none of the
    names a hosts file has for itself; so nothing in a downloaded list can end
    the name where it is written for dnsmasq. And the four ways the published
    lists write such a name (alone, after a null address, as an adblock rule, as
    a line of dnsmasq), with blanks around it or the carriage return of another
    system after it, all give that name. *)
Theorem block_line_exact :
  (forall line size n, name_of_line line size = Some n -> listed_name n = true /\ Forall (fun c => name_letter c = true) n /\ zlen n < size) /\
  (forall n line before after size, listed_name n = true -> line_of n line -> zlen n < size ->
    Forall (fun c => line_blank c = true) before -> Forall (fun c => line_end c = true) after ->
    name_of_line (before ++ line ++ after) size = Some n).
Proof.
  split.
  - intros line size n H. destruct (name_of_line_listed _ _ _ H) as [H1 H2]. split; [done|]. split; [|done]. by apply listed_letters.
  - intros n line before after size Hn Hl Hs Hb Ha. destruct (line_edges n Hn line Hl) as (c & m & d & Ec & Ed & H1 & H2 & H3).
    eapply named_by; [done|by eapply trimmed_around|exact Ec|done|by apply line_word_of|done].
Qed.

Example hosts_line_names : name_of_line (bytes "  0.0.0.0 Ads.Example # not seen") 254 = Some (bytes "ads.example").
Proof. by_vm. Qed.

Lemma block_line_exact_witness :
  name_of_line (bytes "   ||ads.example^ ") 254 = Some (bytes "ads.example") /\ listed_name (bytes "ads.example") = true.
Proof.
  split.
  - refine (proj2 block_line_exact (bytes "ads.example") (bytes "||ads.example^") (bytes "   ") (bytes " ") 254 _ _ _ _ _).
    + reflexivity.
    + apply ADBLOCK_LINE.
    + reflexivity.
    + repeat constructor.
    + repeat constructor.
  - refine (proj1 (proj1 block_line_exact (bytes "0.0.0.0 ads.example") 254 (bytes "ads.example") _)). by_vm.
Defined.
