(* ===== verification/LinkPass.v ===== *)
(** * LinkPass: what is planned over a link, interface by interface

    [plan/link.c]: which links can be planned for at all, their attributes and
    masters, the hooks of a phase and of an event, taking a link down, and the
    walk over the interfaces; and the router advertisements of
    [plan/advertise.c]. The files of block lists, which a DHCP server's line is
    about, are an argument of the walk; the creation of links and their remaking
    are not modelled. *)
From stdpp Require Import gmap pretty.
From S2P Require Import Prelude Wire Op Heap Plan Value Builder Json JsonWrite DocText Field Document Canonical DocumentOps Observed ObservedOps Linkset Owned AddressPass DhcpServer.
#[local] Open Scope string_scope.
#[local] Open Scope list_scope.
#[local] Open Scope Z_scope.

Definition NCFG_KIND_PHYSICAL : Z := 0.

(** [ncfg_plan_teardown_t]: why an interface is taken down. *)
Record teardown_why := TeardownWhy { tw_field : cstr; tw_desired : cstr; tw_observed : cstr }.

Section Passes.
Context {I : Inet}.

Abbreviation iface := (value interface_type).
Abbreviation device := (value device_type).
Abbreviation link_seen := (value observed_link_type).

(** ** Questions *)

(** [ncfg_plan_link_is_plannable]. *)
Definition link_is_plannable (p : planner) (name : text) : bool :=
  match observed_link (Some (pl_observed p)) name with
  | Some _ => true
  | None =>
      let kind := device_kind <$> plan_device (pl_desired p) name in
      let has k := bool_decide (kind = Some k) in
      if has NCFG_KIND_PPPOE || has NCFG_KIND_OPENVPN then false
      else if plan_names (bd_declined (pl_builder p)) (cs name) then false
      else if (bool_decide (kind = None) || has NCFG_KIND_PHYSICAL) && negb (plan_names (bd_appearing (pl_builder p)) (cs name)) then false
      else true
  end.

(** [hook_told]. *)
Definition hook_told (observed : value observed_type) (interface : cstr) (phase : Z) : text :=
  match List.find (fun s : value hook_state_type =>
      (get hook_state_type "phase" s =? phase) && named (cs (get hook_state_type "interface" s)) interface)
      (get observed_type "hook_state" observed : list (value hook_state_type)) with
  | Some s => get hook_state_type "value" s
  | None => None
  end.

Definition hook_of_phase (phase : hook_phase) (h : value hook_type) : bool := get hook_type "phase" h =? phase_number phase.

(** [lists_hook] and [declares_hook]. *)
Definition lists_hook (hooks : list (value hook_type)) (phase : hook_phase) : bool := existsb (hook_of_phase phase) hooks.

Definition joined_network (p : planner) (interface : iface) : option (value network_type) :=
  observed_joined_network (Some (pl_observed p)) (Some (pl_desired p)) (get interface_type "name" interface).

Definition declares_hook (p : planner) (interface : iface) (phase : hook_phase) : bool :=
  lists_hook (get interface_type "hooks" interface) phase ||
  match joined_network p interface with Some n => lists_hook (get network_type "hooks" n) phase | None => false end.

(** [address_is_a_lease]. *)
Definition address_is_a_lease (a : value observed_address_type) : bool :=
  match (get observed_address_type "origin" a : option Z) with
  | Some _ => false
  | None =>
      if get observed_address_type "ownership" a =? NCFG_OWNERSHIP_OURS then false
      else if match (get observed_address_type "proto" a : option Z) with Some n => existsb (Z.eqb n) [1; 2; 3] | None => false end then false
      else
        match address_parse (oa_address a) with
        | None => false
        | Some v =>
            let at_ i := ad_bytes v !!! i in
            if negb (ad_is_ipv6 v) then negb ((at_ 0%nat =? 169) && (at_ 1%nat =? 254)) && negb (at_ 0%nat =? 127)
            else if (at_ 0%nat =? 254) && (Z.land (at_ 1%nat) 192 =? 128) then false
            else if existsb (fun b => negb (b =? 0)) (take 15 (ad_bytes v)) then true
            else negb (at_ 15%nat =? 1)
        end
  end.

(** The lease [ncfg_plan_lease_hooks] finds on an interface: the first address
    of a family the document asked for. *)
Definition leased_address (p : planner) (interface : iface) : text :=
  let asks k := existsb (fun s => source_kind s =? k) (addressing interface) in
  let wants_v4 := asks NCFG_ADDRESS_SOURCE_DHCP4 in
  let wants_v6 := asks NCFG_ADDRESS_SOURCE_DHCP6 in
  match List.find (fun a =>
      named (oa_interface a) (iface_name interface) && address_is_a_lease a &&
      match address_parse (oa_address a) with Some v => if ad_is_ipv6 v then wants_v6 else wants_v4 | None => false end)
      (addresses (pl_observed p)) with
  | Some a => oa_address a
  | None => None
  end.

(** ** The passes *)

Section Pass.
Context {B : Type} {M : Type -> Type} {O : PlanOps B M} {RO : ReadOps M}.

(** [ncfg_builder_mark]. *)
Definition builder_mark (l : list plan_mark) (name : cstr) (id : Z) : M (list plan_mark) :=
  ok ← ops_room;
  mret (if (ok : bool) then l ++ [PlanMark name id] else l).

(** [ncfg_plan_link_attributes]. *)
Definition link_attributes (p : planner) (interface : iface) : M unit :=
  let raw := (get interface_type "name" interface : text) in
  let name := iface_name interface in
  if negb (link_is_plannable p raw) then mret ()
  else
    let link := observed_link (Some (pl_observed p)) raw in
    match plan_device (pl_desired p) raw with
    | None => mret ()
    | Some d =>
        gate ← builder_gate (pl_builder p) name;
        _ ← match (get device_type "mtu" d : option Z), (get observed_link_type "mtu" <$> link : option Z) with
            | Some mtu, seen =>
                if bool_decide (seen = Some mtu) then mret ()
                else
                  desired ← internf (pretty mtu);
                  observed ← match seen with Some n => ops_intern (Some (pretty n)) | None => mret (Some "<absent>") end;
                  _ ← builder_push (pl_builder p) (LINK_SET_MTU name mtu) (reason_differs name (Some "mtu") desired observed) (pi_ids gate)
                        ((fun n => LINK_SET_MTU name n) <$> seen);
                  mret ()
            | None, _ => mret ()
            end;
        match cs (get device_type "mac" d), cs (link ≫= (fun l => get observed_link_type "mac" l)) with
        | Some mac, seen =>
            if named seen (Some mac) then mret ()
            else
              _ ← builder_push (pl_builder p) (LINK_SET_MAC name (Some mac))
                    (reason_differs name (Some "mac") (Some mac) (Some (default "<absent>" seen))) (pi_ids gate)
                    ((fun m => LINK_SET_MAC name (Some m)) <$> seen);
              mret ()
        | None, _ => mret ()
        end
    end.

Definition truth (b : bool) : cstr := Some (if b then "true" else "false").

(** [plan_wds]. *)
Definition plan_wds (p : planner) (name : text) (d : option device) (link : option link_seen) (gate : plan_ids) : M Z :=
  let wanted := match d ≫= (fun d => get device_type "wifi" d : option (value wifi_device_type)) with
                | Some w => get wifi_device_type "wds" w
                | None => false
                end in
  match link with
  | None => mret NO_ACTION
  | Some l =>
      let on := get observed_link_type "wds" l in
      if negb (get observed_link_type "wireless" l) || Bool.eqb wanted on || access_point_wanted (pl_desired p) name then mret NO_ACTION
      else
        builder_push (pl_builder p) (LINK_SET_WDS (cs name) wanted) (reason_differs (cs name) (Some "wifi.wds") (truth wanted) (truth on))
          (pi_ids gate) (Some (LINK_SET_WDS (cs name) (negb wanted)))
  end.

(** [ncfg_plan_master]: the id of the enslavement. *)
Definition plan_master (p : planner) (raw : text) : M (planner * Z) :=
  let name := cs raw in
  let d := plan_device (pl_desired p) raw in
  let link := observed_link (Some (pl_observed p)) raw in
  let wanted := cs (d ≫= (fun d => get device_type "master" d)) in
  let current := cs (link ≫= (fun l => get observed_link_type "master" l)) in
  gate ← builder_gate (pl_builder p) name;
  wds ← plan_wds p raw d link gate;
  match wanted, current with
  | None, None => mret (p, NO_ACTION)
  | Some master, _ =>
      gate ← ids_note gate wds;
      if named current wanted || access_point_wanted (pl_desired p) raw then mret (p, NO_ACTION)
      else
        id ← builder_push (pl_builder p) (LINK_SET_MASTER name wanted)
               (reason_differs name (Some "master") wanted (Some (default "<absent>" current))) (pi_ids gate) (Some (LINK_UNSET_MASTER name));
        l ← builder_mark (pl_enslavements p) wanted id;
        mret (with_enslavements l p, id)
  | None, Some _ =>
      gate ← ids_note gate wds;
      _ ← builder_push (pl_builder p) (LINK_UNSET_MASTER name) (reason_unwanted name (Some "master") current) (pi_ids gate)
            (Some (LINK_SET_MASTER name current));
      mret (p, NO_ACTION)
  end.

(** [ncfg_plan_device_up]. *)
Definition device_up (p : planner) (d : device) (enslaved : Z) : M unit :=
  let raw := (get device_type "name" d : text) in
  let name := cs raw in
  if negb (bool_decide (is_Some (get device_type "master" d : text))) && negb (device_kind d =? NCFG_KIND_IFB) then mret ()
  else
    match plan_interface (pl_desired p) raw with
    | Some _ => mret ()
    | None =>
        if match observed_link (Some (pl_observed p)) raw with Some l => get observed_link_type "up" l | None => false end then mret ()
        else
          deps ← builder_gate (pl_builder p) name;
          deps ← ids_push deps enslaved;
          _ ← builder_push (pl_builder p) (LINK_UP name) (reason_differs name (Some "link") (Some "up") (Some "down")) (pi_ids deps)
                (Some (LINK_DOWN name));
          mret ()
    end.

(** *** Hooks *)

(** [plan_hooks], over the hooks of the interface; [out] may be [NULL]. *)
Definition note_hook (out : option plan_ids) (id : Z) : M (option plan_ids) :=
  match out with
  | Some ids => ids ← ids_note ids id; mret (Some ids)
  | None => mret None
  end.

Fixpoint plan_hooks (p : planner) (name : cstr) (hooks : list (value hook_type)) (phase : hook_phase) (deps : plan_ids) (out : option plan_ids) :
    M (option plan_ids) :=
  match hooks with
  | [] => mret out
  | h :: rest =>
      if negb (hook_of_phase phase h) then plan_hooks p name rest phase deps out
      else
        let path := cs (get hook_type "path" h) in
        field ← internf ("hooks[" +:+ hook_phase_name phase +:+ "]");
        id ← builder_push (pl_builder p) (HOOK_RUN name phase path None) (reason_absent name field path) (pi_ids deps) None;
        out ← note_hook out id;
        plan_hooks p name rest phase deps out
  end.

Definition interface_hooks (p : planner) (interface : iface) (phase : hook_phase) (deps out : plan_ids) : M plan_ids :=
  noted ← plan_hooks p (iface_name interface) (get interface_type "hooks" interface) phase deps (Some out);
  mret (default out noted).

(** The hooks nothing waits for. *)
Definition last_hooks (p : planner) (interface : iface) (phase : hook_phase) (deps : plan_ids) : M unit :=
  _ ← plan_hooks p (iface_name interface) (get interface_type "hooks" interface) phase deps None;
  mret ().

(** [push_event_hooks]. *)
Fixpoint push_event_hooks (p : planner) (name : cstr) (hooks : list (value hook_type)) (phase : hook_phase) (now before : cstr) (deps : plan_ids) : M unit :=
  match hooks with
  | [] => mret ()
  | h :: rest =>
      if negb (hook_of_phase phase h) then push_event_hooks p name rest phase now before deps
      else
        _ ← builder_push (pl_builder p) (HOOK_RUN name phase (cs (get hook_type "path" h)) now)
              (reason_differs name (Some (hook_phase_name phase)) now (Some (default "<absent>" before))) (pi_ids deps) None;
        push_event_hooks p name rest phase now before deps
  end.

(** [plan_event_hooks]. *)
Definition plan_event_hooks (p : planner) (interface : iface) (phase : hook_phase) (now before : cstr) (deps : plan_ids) : M unit :=
  let name := iface_name interface in
  _ ← push_event_hooks p name (get interface_type "hooks" interface) phase now before deps;
  match joined_network p interface with
  | Some n => push_event_hooks p name (get network_type "hooks" n) phase now before deps
  | None => mret ()
  end.

(** [plan_carrier_hook]. *)
Definition plan_carrier_hook (p : planner) (interface : iface) (base addressing : plan_ids) : M unit :=
  if negb (declares_hook p interface HOOK_PHASE_CARRIER) then mret ()
  else
    match observed_link (Some (pl_observed p)) (get interface_type "name" interface) with
    | None => mret ()
    | Some link =>
        let carrier := get observed_link_type "carrier" link in
        let now := Some (if carrier then "up" else "down") in
        let told := cs (hook_told (pl_observed p) (iface_name interface) (phase_number HOOK_PHASE_CARRIER)) in
        if named told now then mret ()
        else
          deps ← ids_extend no_ids (pi_ids base);
          deps ← (if carrier then ids_extend deps (pi_ids addressing) else mret deps);
          plan_event_hooks p interface HOOK_PHASE_CARRIER now told deps
    end.

(** [ncfg_plan_lease_hooks], for one interface and over them. *)
Definition lease_hook (p : planner) (interface : iface) : M unit :=
  let name := iface_name interface in
  if negb (bool_decide (is_Some name)) || negb (declares_hook p interface HOOK_PHASE_LEASE) then mret ()
  else
    match cs (leased_address p interface) with
    | None => mret ()
    | Some leased =>
        let told := cs (hook_told (pl_observed p) name (phase_number HOOK_PHASE_LEASE)) in
        if named told (Some leased) then mret ()
        else
          gate ← builder_gate (pl_builder p) name;
          plan_event_hooks p interface HOOK_PHASE_LEASE (Some leased) told gate
    end.

Fixpoint lease_hooks (p : planner) (l : list iface) : M unit :=
  match l with
  | [] => mret ()
  | i :: rest => _ ← lease_hook p i; lease_hooks p rest
  end.

(** *** Taking a link down *)

(** The loop of [plan_disable] over the addresses that are netcfgd's. *)
Fixpoint withdraw (p : planner) (name : cstr) (why : teardown_why) (seen : list (value observed_address_type)) (deps withdrawn : plan_ids) : M plan_ids :=
  match seen with
  | [] => mret withdrawn
  | a :: rest =>
      if negb (named (oa_interface a) name) || negb (ownership_may_remove (get observed_address_type "ownership" a))
      then withdraw p name why rest deps withdrawn
      else
        let address := cs (oa_address a) in
        id ← builder_push (pl_builder p) (ADDR_DEL name address) (reason_unwanted name (tw_field why) address) (pi_ids deps)
               (Some (ADDR_ADD name address None None));
        withdrawn ← ids_note withdrawn id;
        withdraw p name why rest deps withdrawn
  end.

(** [plan_disable]. *)
Definition plan_disable (p : planner) (interface : iface) (base : plan_ids) (why : teardown_why) : M Z :=
  let name := iface_name interface in
  deps ← ids_extend no_ids (pi_ids base);
  deps ← interface_hooks p interface HOOK_PHASE_PRE_DOWN base deps;
  withdrawn ← ids_extend no_ids (pi_ids deps);
  withdrawn ← withdraw p name why (addresses (pl_observed p)) deps withdrawn;
  before_down ← ids_extend no_ids (pi_ids withdrawn);
  before_down ← interface_hooks p interface HOOK_PHASE_DOWN withdrawn before_down;
  id ← builder_push (pl_builder p) (LINK_DOWN name) (reason_differs name (tw_field why) (tw_desired why) (tw_observed why)) (pi_ids before_down)
         (Some (LINK_UP name));
  if id =? NO_ACTION then mret id
  else
    after ← ids_push no_ids id;
    _ ← last_hooks p interface HOOK_PHASE_POST_DOWN after;
    mret id.

(** *** The interface walk *)

(** Rule 2: the enslavements the master waits for. *)
Fixpoint wait_for_members (l : list plan_mark) (name : cstr) (base : plan_ids) : M plan_ids :=
  match l with
  | [] => mret base
  | m :: rest =>
      if named (pm_name m) name then
        base ← ids_push base (pm_id m);
        wait_for_members rest name base
      else wait_for_members rest name base
  end.

(** Bringing the link up, or taking it down: [base] as it is afterwards, and
    whether the plan brings the interface into service. *)
Definition contents_link (p : planner) (interface : iface) (base : plan_ids) : M (planner * plan_ids * bool) :=
  let name := iface_name interface in
  let enabled := get interface_type "enabled" interface in
  let link := observed_link (Some (pl_observed p)) (get interface_type "name" interface) in
  let up := match link with Some l => get observed_link_type "up" l | None => false end in
  let cycling := enabled && up && plan_names (pl_cycle p) name in
  base ← (if cycling then
            down ← plan_disable p interface base (TeardownWhy (Some "modem.sim") (Some "the next source") (Some "the one it had"));
            ids_note base down
          else mret base);
  let bringing_up := enabled && (cycling || negb up) in
  up_deps ← ids_extend no_ids (pi_ids base);
  if bringing_up then
    up_deps ← interface_hooks p interface HOOK_PHASE_PRE_UP base up_deps;
    id ← builder_push (pl_builder p) (LINK_UP name) (reason_differs name (Some "enabled") (Some "true") (Some "false")) (pi_ids up_deps)
           (Some (LINK_DOWN name));
    marks ← builder_mark (pl_link_up p) name id;
    let p := with_link_up marks p in
    after_up ← ids_extend no_ids (pi_ids base);
    after_up ← ids_note after_up id;
    base ← interface_hooks p interface HOOK_PHASE_UP after_up base;
    mret (p, base, true)
  else if negb enabled && up then
    _ ← plan_disable p interface base (TeardownWhy (Some "enabled") (Some "false") (Some "true"));
    mret (p, base, false)
  else mret (p, base, false).

(** What the addresses wait for, then the addresses, then the routes: [base],
    the ids of the addressing, and whether the link was brought up. *)
Definition contents_routes (p : planner) (interface : iface) : M (planner * option (plan_ids * plan_ids * bool)) :=
  let raw := (get interface_type "name" interface : text) in
  if negb (link_is_plannable p raw) then mret (p, None)
  else
    base ← builder_gate (pl_builder p) (iface_name interface);
    base ← wait_for_members (pl_enslavements p) (iface_name interface) base;
    started ← contents_link p interface base;
    let '(p, base, bringing_up) := started in
    authentication ← plan_dot1x p interface base no_ids;
    served ← plan_access_point p interface base no_ids;
    let '(p, serving) := served in
    joining ← plan_radio_supplicant p interface base no_ids;
    source_base ← ids_extend no_ids (pi_ids base);
    source_base ← ids_extend source_base (pi_ids authentication);
    source_base ← ids_extend source_base (pi_ids serving);
    source_base ← ids_extend source_base (pi_ids joining);
    addressed ← plan_sources p interface 0 (addressing interface) source_base no_ids;
    let '(p, addressing) := addressed in
    _ ← metric_restart p interface source_base;
    l ← routes_for p interface;
    _ ← plan_routes p interface l base;
    mret (p, Some (base, addressing, bringing_up)).

(** *** Router advertisements *)

(** [resolvable]. *)
Definition resolvable (observed : value observed_type) (policy : value ra_type) : bool :=
  negb (zlen (get ra_type "static_prefixes" policy : list text) =? 0) ||
  existsb (fun r : value prefix_ref_type =>
    match observed_delegation (Some observed) (get prefix_ref_type "source" r) with
    | Some d => (0 <=? get prefix_ref_type "index" r) && (get prefix_ref_type "index" r <? zlen (get delegation_type "prefixes" d : list text))
    | None => false
    end) (get ra_type "prefixes" policy : list (value prefix_ref_type)).

(** [running_daemon]: one that said what it announces. *)
Definition running_daemon (observed : value observed_type) (name : cstr) : option (list text) :=
  match List.find (fun b : value observed_backend_type =>
      (get observed_backend_type "kind" b =? NCFG_BACKEND_ROUTER_ADVERT) && get observed_backend_type "running" b &&
      named (cs (get observed_backend_type "interface" b)) name) (backends observed) with
  | Some b => match (get observed_backend_type "advertised" b : list text) with [] => None | l => Some l end
  | None => None
  end.

(** The texts [ncfg_plan_advertise] puts together. *)
Definition separated (separator : string) (l : list string) : string :=
  foldl (fun all t => (if String.eqb all "" then "" else all +:+ separator) +:+ t) "" l.

Definition wanted_prefixes (observed : value observed_type) (policy : value ra_type) : string :=
  separated " "
    (omap (fun r => cs (observed_prefix_of (Some observed) (Some r) ADDRESS_MAX)) (get ra_type "prefixes" policy : list (value prefix_ref_type)) ++
     map (fun t => default "" (cs t)) (get ra_type "static_prefixes" policy : list text)).

(** A text put together in a buffer: any of its growths refused, the plan is
    marked failed. *)
Definition built (t : string) : M cstr :=
  ok ← ops_room;
  mret (if (ok : bool) then Some t else None).

(** [ncfg_plan_advertise]. *)
Definition plan_advertise (p : planner) (interface : iface) (base addressing : plan_ids) : M unit :=
  let raw := (get interface_type "name" interface : text) in
  let name := iface_name interface in
  match (get interface_type "advertise" interface : option (value ra_type)) with
  | None => mret ()
  | Some policy =>
      if negb (resolvable (pl_observed p) policy) then
        sources ← built (separated ", " (map (fun r => absent_text (get prefix_ref_type "source" r)) (get ra_type "prefixes" policy : list (value prefix_ref_type))));
        match sources with
        | Some t => ops_warnf name ("waiting on a delegated prefix from " +:+ t +:+ " before advertising")
        | None => mret ()
        end
      else
        deps ← ids_extend no_ids (pi_ids base);
        deps ← ids_extend deps (pi_ids addressing);
        _ ← plan_backend p raw BACKEND_ROUTER_ADVERT (Some "advertise") deps no_ids;
        match running_daemon (pl_observed p) name with
        | None => mret ()
        | Some advertised =>
            wanted ← built (wanted_prefixes (pl_observed p) policy);
            announced ← built (separated " " (map absent_text advertised));
            match wanted, announced with
            | Some w, Some a =>
                if String.eqb w a then mret ()
                else
                  w ← ops_intern (Some w);
                  a ← ops_intern (Some a);
                  _ ← builder_push (pl_builder p) (BACKEND_RELOAD BACKEND_ROUTER_ADVERT name)
                        (reason_differs name (Some "advertise.prefixes") w a) [] None;
                  mret ()
            | _, _ => mret ()
            end
        end
  end.

(** The hooks at the end of [ncfg_plan_interface_contents]. *)
Definition contents_hooks (p : planner) (interface : iface) (base addressing : plan_ids) (bringing_up : bool) : M unit :=
  _ ← (if bringing_up || negb (zlen (pi_ids addressing) =? 0) then
         deps ← ids_extend no_ids (pi_ids base);
         deps ← ids_extend deps (pi_ids addressing);
         last_hooks p interface HOOK_PHASE_POST_UP deps
       else mret ());
  plan_carrier_hook p interface base addressing.

(** [ncfg_plan_interface_contents]. *)
Definition interface_contents (files : disk) (p : planner) (interface : iface) : M planner :=
  done ← contents_routes p interface;
  let '(p, reached) := done in
  match reached with
  | None => mret p
  | Some (base, addressing, bringing_up) =>
      _ ← plan_advertise p interface base addressing;
      _ ← plan_dhcp_server files p interface base addressing;
      _ ← contents_hooks p interface base addressing bringing_up;
      mret p
  end.

(** The loop of [ncfg_plan_build] over the interfaces. *)
Fixpoint walk_interfaces (files : disk) (p : planner) (l : list iface) : M planner :=
  match l with
  | [] => mret p
  | i :: rest => p ← interface_contents files p i; walk_interfaces files p rest
  end.

End Pass.
End Passes.
