(* ===== verification/LinkSpec.v ===== *)
(** * LinkSpec: the walk over the interfaces puts things in in order, and leaves
    nothing to do *)
From Stdlib Require Import Sorting.Sorted.
From stdpp Require Import gmap pretty.
From S2P Require Import Prelude Wire Op Heap Plan PlanSpec Value ValueSpec InetText Builder BuilderSpec Json JsonWrite DocText Field Document Canonical DocumentOps DocumentRoundtrip Observed ObservedOps Linkset LinksetSpec Owned AddressPass AddressSpec DhcpServer LinkPass.
#[local] Open Scope string_scope.
#[local] Open Scope list_scope.
#[local] Open Scope Z_scope.

(** ** The walk on a plan is the walk on its lists *)

Section Refinement.
Context {I : Inet} {B : Type} (grant : nat -> bool).

#[local] Hint Resolve push_refines ids_push_refines internf_refines note_string_refines gate_loop_refines ids_extend_refines ids_note_refines
  plan_backend_refines push_address_refines plan_source_refines plan_sources_refines routes_for_refines plan_routes_refines : refines.

Lemma plan_hooks_refines p name hooks phase deps : forall out,
  refines (B := B) (plan_hooks (O := heap_ops grant) p name hooks phase deps out) (plan_hooks (O := view_ops) p name hooks phase deps out).
Proof. induction hooks as [|h hooks IH]; intros out; cbn [plan_hooks]; unfold note_hook; solve_refines. Qed.

Lemma push_event_hooks_refines p name hooks phase now before deps :
  refines (B := B) (push_event_hooks (O := heap_ops grant) p name hooks phase now before deps)
    (push_event_hooks (O := view_ops) p name hooks phase now before deps).
Proof. induction hooks as [|h hooks IH]; cbn [push_event_hooks]; solve_refines. Qed.

Lemma withdraw_refines p name why seen deps : forall withdrawn,
  refines (B := B) (withdraw (O := heap_ops grant) p name why seen deps withdrawn) (withdraw (O := view_ops) p name why seen deps withdrawn).
Proof. induction seen as [|a seen IH]; intros withdrawn; cbn [withdraw]; solve_refines. Qed.

#[local] Hint Resolve plan_hooks_refines push_event_hooks_refines withdraw_refines : refines.

Lemma plan_carrier_hook_refines p interface base addressing :
  refines (B := B) (plan_carrier_hook (O := heap_ops grant) p interface base addressing) (plan_carrier_hook (O := view_ops) p interface base addressing).
Proof. unfold plan_carrier_hook, plan_event_hooks. solve_refines. Qed.

Lemma plan_disable_refines p interface base why :
  refines (B := B) (plan_disable (O := heap_ops grant) p interface base why) (plan_disable (O := view_ops) p interface base why).
Proof. unfold plan_disable, interface_hooks, last_hooks. solve_refines. Qed.

Lemma wait_for_members_refines l name : forall base,
  refines (B := B) (wait_for_members (O := heap_ops grant) l name base) (wait_for_members (O := view_ops) l name base).
Proof. induction l as [|m l IH]; intros base; cbn [wait_for_members]; solve_refines. Qed.

#[local] Hint Resolve plan_carrier_hook_refines plan_disable_refines wait_for_members_refines : refines.

Lemma contents_link_refines p interface base :
  refines (B := B) (contents_link (O := heap_ops grant) p interface base) (contents_link (O := view_ops) p interface base).
Proof. unfold contents_link, interface_hooks, last_hooks, builder_mark. solve_refines. Qed.

Lemma plan_dot1x_refines p interface base out :
  refines (B := B) (plan_dot1x (O := heap_ops grant) p interface base out) (plan_dot1x (O := view_ops) p interface base out).
Proof. unfold plan_dot1x. solve_refines. Qed.

Lemma plan_access_point_refines p interface base out :
  refines (B := B) (plan_access_point (O := heap_ops grant) p interface base out) (plan_access_point (O := view_ops) p interface base out).
Proof. unfold plan_access_point. solve_refines. Qed.

Lemma plan_radio_supplicant_refines p interface base out :
  refines (B := B) (plan_radio_supplicant (O := heap_ops grant) p interface base out) (plan_radio_supplicant (O := view_ops) p interface base out).
Proof. unfold plan_radio_supplicant. solve_refines. Qed.

Lemma metric_restart_refines p interface base :
  refines (B := B) (metric_restart (O := heap_ops grant) p interface base) (metric_restart (O := view_ops) p interface base).
Proof. unfold metric_restart. solve_refines. Qed.

Lemma plan_advertise_refines p interface base out :
  refines (B := B) (plan_advertise (O := heap_ops grant) p interface base out) (plan_advertise (O := view_ops) p interface base out).
Proof. unfold plan_advertise, built. solve_refines. Qed.

#[local] Hint Resolve contents_link_refines plan_dot1x_refines plan_access_point_refines plan_radio_supplicant_refines metric_restart_refines
  plan_advertise_refines : refines.

Lemma contents_routes_refines p interface :
  refines (B := B) (contents_routes (O := heap_ops grant) p interface) (contents_routes (O := view_ops) p interface).
Proof. unfold contents_routes, builder_gate. solve_refines. Qed.

Lemma contents_hooks_refines p interface base addressing up :
  refines (B := B) (contents_hooks (O := heap_ops grant) p interface base addressing up) (contents_hooks (O := view_ops) p interface base addressing up).
Proof. unfold contents_hooks, interface_hooks, last_hooks. solve_refines. Qed.

#[local] Hint Resolve contents_routes_refines contents_hooks_refines : refines.

Lemma warn_files_refines files name list_name urls l : forall file,
  refines (B := B) (warn_files (O := heap_ops grant) files name list_name urls file l) (warn_files (O := view_ops) files name list_name urls file l).
Proof. induction l as [|path l IH]; intros file; cbn [warn_files]; unfold warn_when; solve_refines. Qed.

#[local] Hint Resolve warn_files_refines : refines.

Lemma warn_lists_refines files name block l :
  refines (B := B) (warn_lists (O := heap_ops grant) files name block l) (warn_lists (O := view_ops) files name block l).
Proof. induction l as [|one l IH]; cbn [warn_lists]; solve_refines. Qed.

#[local] Hint Resolve warn_lists_refines : refines.

Lemma warn_blocks_refines files name lists l :
  refines (B := B) (warn_blocks (O := heap_ops grant) files name lists l) (warn_blocks (O := view_ops) files name lists l).
Proof. induction l as [|block l IH]; cbn [warn_blocks]; solve_refines. Qed.

#[local] Hint Resolve warn_blocks_refines : refines.

Lemma plan_dhcp_server_refines files p interface base addressing :
  refines (B := B) (plan_dhcp_server (O := heap_ops grant) files p interface base addressing)
    (plan_dhcp_server (O := view_ops) files p interface base addressing).
Proof. unfold plan_dhcp_server, dhcp_warnings, start_dhcp, warn_when. solve_refines. Qed.

#[local] Hint Resolve plan_dhcp_server_refines : refines.

Lemma walk_refines files l : forall p,
  refines (B := B) (walk_interfaces (O := heap_ops grant) files p l) (walk_interfaces (O := view_ops) files p l).
Proof.
  induction l as [|i l IH]; intros p; cbn [walk_interfaces]; [apply refines_ret|].
  apply refines_bind; [|intros p'; apply IH]. unfold interface_contents. solve_refines.
Qed.

End Refinement.

(** ** Rule 4: a route waits for the address its next hop is in *)

Definition quiet {B} (o : op B) : Prop := ~ adds o.

Lemma backend_quiet {B} (o : op B) : is_backend o -> quiet o.
Proof. intros H1 H2. by destruct o. Qed.

Section Order.
Context {I : Inet} {B : Type}.

(** What the plan says so far: every address it adds is noted, and every route
    it adds waits for the addresses before it that its next hop is in. *)
Definition noted (added : list plan_added) (v : view B) : Prop :=
  forall x i a l1 l2, x ∈ v_actions v -> ac_op x = ADDR_ADD i a l1 l2 -> PlanAdded i a (ac_id x) ∈ added /\ ac_id x <> NO_ACTION.

Definition ordered (v : view B) : Prop :=
  forall k j x r i a l1 l2 rt gateway, v_actions v !! k = Some x -> v_actions v !! j = Some r -> (k < j)%nat ->
    ac_op x = ADDR_ADD i a l1 l2 -> ac_op r = ROUTE_ADD i (Some rt) -> rt_onlink rt = false -> rt_via rt = Some gateway ->
    subnet_contains (bytes <$> a) (Some (bytes gateway)) = true -> ac_id x ∈ ac_depends_on r.

(** Ids are 32 bits wide and the last is none. *)
Definition small (v : view B) : Prop := zlen (v_actions v) <= NO_ACTION.

Definition kept (added : list plan_added) (v : view B) : Prop := small v -> noted added v /\ ordered v.

Lemma extends_small ok (v v' : view B) : extends ok v v' -> small v' -> small v.
Proof. intros (l & E & _). unfold small, zlen. rewrite E, length_app. lia. Qed.

Lemma kept_quiet added (v v' : view B) : extends quiet v v' -> kept added v -> kept added v'.
Proof.
  intros He Hk Hs. destruct (Hk (extends_small _ _ _ He Hs)) as [Hn Ho]. destruct He as (l & E & Hl). rewrite Forall_forall in Hl. split.
  - intros x i a l1 l2 Hx Hop. rewrite E in Hx. apply elem_of_app in Hx as [Hx|Hx]; [by eapply Hn|].
    apply Hl in Hx. unfold quiet in Hx. rewrite Hop in Hx. by destruct Hx.
  - intros k j x r i a l1 l2 rt g Hk' Hj Hlt Hx Hr. rewrite E in Hk', Hj. rewrite lookup_app in Hj.
    destruct (v_actions v !! j) as [r'|] eqn:Ej.
    + injection Hj as ->. rewrite lookup_app_l in Hk' by (apply lookup_lt_Some in Ej; lia). by eapply Ho.
    + apply list_elem_of_lookup_2, Hl in Hj. unfold quiet in Hj. rewrite Hr in Hj. by destruct Hj.
Qed.

(** A computation from what is noted to what is noted. *)
Definition triple {A} (added : list plan_added) (m : Heap.State (view B) A) (Q : A -> list plan_added -> Prop) : Prop :=
  forall v x v', m v = (x, v') -> kept added v -> exists added', Q x added' /\ kept added' v'.

Definition returns {A} (m : Heap.State (view B) A) (Q : A -> Prop) : Prop := forall v x v', m v = (x, v') -> Q x.

Lemma triple_ret {A} added (x : A) (Q : A -> list plan_added -> Prop) : Q x added -> triple added (@mret _ (@ops_ret B _ view_ops) A x) Q.
Proof. intros H v y v' [= <- <-] Hk. by exists added. Qed.

Lemma triple_bind {A C} added (m : Heap.State (view B) A) (k : A -> Heap.State (view B) C) Q Q' :
  triple added m Q -> (forall x added', Q x added' -> triple added' (k x) Q') -> triple added (@mbind _ (@ops_bind B _ view_ops) _ _ k m) Q'.
Proof.
  intros Hm Hk v y v' E H. change ((let '(a, s1) := m v in k a s1) = (y, v')) in E. destruct (m v) as [x v1] eqn:Em.
  destruct (Hm _ _ _ Em H) as (added1 & HQ & H1). by eapply Hk.
Qed.

(** A quiet computation, of whose answer something is known. *)
Lemma triple_quiet {A} added (m : Heap.State (view B) A) (Q : A -> Prop) :
  asks quiet m -> returns m Q -> triple added m (fun x added' => added' = added /\ Q x).
Proof. intros Ha Hr v x v' E H. exists added. split; [split; [done|by eapply Hr]|]. eapply kept_quiet; [by eapply Ha|done]. Qed.

Lemma triple_then {A C} added (m : Heap.State (view B) A) (k : A -> Heap.State (view B) C) Q :
  asks quiet m -> (forall x, triple added (k x) Q) -> triple added (@mbind _ (@ops_bind B _ view_ops) _ _ k m) Q.
Proof.
  intros Ha Hk. eapply triple_bind; [apply (triple_quiet _ _ (fun _ => True)); [done|by intros ? ? ?]|]. intros x added' [-> _]. apply Hk.
Qed.

Lemma returns_ret {A} (x : A) (Q : A -> Prop) : Q x -> returns (@mret _ (@ops_ret B _ view_ops) A x) Q.
Proof. by intros H v y v' [= <- <-]. Qed.

Lemma returns_bind {A C} (m : Heap.State (view B) A) (k : A -> Heap.State (view B) C) Q :
  (forall x, returns (k x) Q) -> returns (@mbind _ (@ops_bind B _ view_ops) _ _ k m) Q.
Proof. intros Hk v y v' E. change ((let '(a, s1) := m v in k a s1) = (y, v')) in E. destruct (m v) as [x v1]. by eapply Hk. Qed.

End Order.

Ltac solve_returns :=
  repeat first
    [ progress intros
    | solve [apply returns_ret; done]
    | apply returns_bind
    | progress cbn zeta
    | match goal with |- returns (match ?x with _ => _ end) _ => destruct x end
    | match goal with |- returns (if ?x then _ else _) _ => destruct x end ].

Section Walk.
Context {I : Inet} {B : Type}.

(** *** The quiet steps *)

Lemma quiet_backend {A} (m : Heap.State (view B) A) : asks is_backend m -> asks quiet m.
Proof. intros H. eapply asks_mono; [exact H|apply backend_quiet]. Qed.

#[local] Hint Extern 2 (asks quiet _) => apply quiet_backend; solve [eauto with asks nocore] : asks.
#[local] Hint Extern 1 (quiet _) => (intros []) : core.

(** What a step may ask for, for any notion of it that allows hooks. *)
Section Any.
Context (ok : op B -> Prop).
Context (Hhook : forall n ph path told, ok (HOOK_RUN n ph path told)).

Lemma plan_hooks_asks p name hooks phase deps : forall out, asks ok (plan_hooks (B := B) (O := view_ops) p name hooks phase deps out).
Proof. induction hooks as [|h hooks IH]; intros out; cbn [plan_hooks]; unfold note_hook; solve_asks. Qed.

Lemma push_event_hooks_asks p name hooks phase now before deps : asks ok (push_event_hooks (B := B) (O := view_ops) p name hooks phase now before deps).
Proof. induction hooks as [|h hooks IH]; cbn [push_event_hooks]; solve_asks. Qed.

Lemma wait_for_members_asks l name : forall base, asks ok (wait_for_members (B := B) (O := view_ops) l name base).
Proof. induction l as [|m l IH]; intros base; cbn [wait_for_members]; solve_asks. Qed.

#[local] Hint Resolve plan_hooks_asks push_event_hooks_asks : asks.

Lemma contents_hooks_asks p interface base addressing up : asks ok (contents_hooks (B := B) (O := view_ops) p interface base addressing up).
Proof. unfold contents_hooks, interface_hooks, last_hooks, plan_carrier_hook, plan_event_hooks. solve_asks. Qed.

Lemma plan_advertise_asks p interface base addressing :
  (forall o, is_backend o -> ok o) -> (forall k n, ok (BACKEND_RELOAD k n)) ->
  asks ok (plan_advertise (B := B) (O := view_ops) p interface base addressing).
Proof.
  intros Hb Hr. assert (forall name kind field base' out, asks ok (plan_backend (B := B) (O := view_ops) p name kind field base' out)) as H
    by (intros; eapply asks_mono; [apply plan_backend_asks|done]).
  unfold plan_advertise, built. solve_asks.
Qed.

Lemma warn_blocks_asks files name lists l : asks ok (warn_blocks (B := B) (O := view_ops) files name lists l).
Proof.
  induction l as [|block l IH]; cbn [warn_blocks]; [solve_asks|]. apply asks_bind; [|intros _; exact IH]. clear IH.
  induction lists as [|one lists IHl]; cbn [warn_lists]; [solve_asks|]. apply asks_bind; [|intros _; exact IHl].
  destruct (same_text _ _); [|solve_asks]. generalize 0 as file.
  induction (get block_list_type "file" one : list text) as [|path rest IHf]; intros file; cbn [warn_files]; unfold warn_when; solve_asks.
Qed.

Lemma plan_dhcp_server_asks files p interface base addressing :
  (forall o, is_backend o -> ok o) -> asks ok (plan_dhcp_server (B := B) (O := view_ops) files p interface base addressing).
Proof.
  intros Hb. assert (forall name kind field base' out, asks ok (plan_backend (B := B) (O := view_ops) p name kind field base' out)) as H
    by (intros; eapply asks_mono; [apply plan_backend_asks|done]).
  pose proof warn_blocks_asks as Hw. assert (ok (BACKEND_STOP BACKEND_DHCP_SERVER (cs (get interface_type "name" interface)))) by by apply Hb.
  assert (ok (BACKEND_START BACKEND_DHCP_SERVER (cs (get interface_type "name" interface)))) by by apply Hb.
  unfold plan_dhcp_server, dhcp_warnings, start_dhcp, warn_when. solve_asks.
Qed.

Context (Hup : forall n, ok (LINK_UP n)).

Lemma contents_link_asks p interface base :
  (forall base why, asks ok (plan_disable (B := B) (O := view_ops) p interface base why)) ->
  asks ok (contents_link (B := B) (O := view_ops) p interface base).
Proof. intros Hd. unfold contents_link, interface_hooks, last_hooks, builder_mark. solve_asks. Qed.

End Any.

Lemma withdraw_quiet p name why seen deps : forall out, asks quiet (withdraw (B := B) (O := view_ops) p name why seen deps out).
Proof. induction seen as [|a seen IH]; intros out; cbn [withdraw]; solve_asks. Qed.

Lemma hook_quiet n ph path told : quiet (HOOK_RUN n ph path told : op B).
Proof. by intros []. Qed.

#[local] Hint Resolve plan_hooks_asks withdraw_quiet hook_quiet : asks.

Lemma plan_disable_quiet p interface base why : asks quiet (plan_disable (B := B) (O := view_ops) p interface base why).
Proof. unfold plan_disable, interface_hooks, last_hooks. solve_asks. Qed.

Lemma contents_link_quiet p interface base : asks quiet (contents_link (B := B) (O := view_ops) p interface base).
Proof. apply contents_link_asks; [apply hook_quiet|by intros n []|apply plan_disable_quiet]. Qed.

(** *** The steps that add *)

Lemma push_cases b (o : op B) why deps inv v id v' :
  builder_push (O := view_ops) b o why deps inv v = (id, v') ->
  (id = NO_ACTION /\ v_actions v' = v_actions v) \/
  (id = u32 (zlen (v_actions v)) /\ v_actions v' = v_actions v ++ [Action id o why (kept_edges deps) inv]).
Proof.
  rewrite push_view. unfold push_reference, view_add. destruct (silenced b o); [intros [= <- <-]; by left|].
  destruct (refusal_of b o why); intros [= <- <-]; [by left|by right].
Qed.

Lemma kept_same added (v v' : view B) : v_actions v' = v_actions v -> kept added v -> kept added v'.
Proof. intros E. unfold kept, small, noted, ordered. by rewrite E. Qed.

(** One action more: either it is not a route, or what it waits for is known. *)
Lemma kept_snoc added added' (v v' : view B) x :
  v_actions v' = v_actions v ++ [x] -> kept added v ->
  (small v' -> noted added v -> noted added' v') ->
  (small v' -> noted added v -> forall y i a l1 l2 rt g, y ∈ v_actions v -> ac_op y = ADDR_ADD i a l1 l2 -> ac_op x = ROUTE_ADD i (Some rt) ->
    rt_onlink rt = false -> rt_via rt = Some g -> subnet_contains (bytes <$> a) (Some (bytes g)) = true -> ac_id y ∈ ac_depends_on x) ->
  kept added' v'.
Proof.
  intros E Hk Hn Ho Hs. destruct (Hk) as [Hn0 Ho0]. { unfold small, zlen in *. rewrite E, length_app in Hs. lia. }
  split; [by apply Hn|]. intros k j y r i a l1 l2 rt g Hy Hr Hlt. rewrite E in Hy, Hr.
  destruct (decide (j < length (v_actions v))%nat) as [Hj|Hj].
  - rewrite lookup_app_l in Hr by done. rewrite lookup_app_l in Hy by lia. by eapply Ho0.
  - apply lookup_lt_Some in Hr as Hl. rewrite length_app in Hl. cbn in Hl. assert (j = length (v_actions v)) as -> by lia.
    rewrite list_lookup_middle in Hr by done. injection Hr as <-. rewrite lookup_app_l in Hy by lia.
    intros. eapply Ho; try done. by eapply list_elem_of_lookup_2.
Qed.

Lemma small_id (v v' : view B) x : v_actions v' = v_actions v ++ [x] -> small v' -> u32 (zlen (v_actions v)) <> NO_ACTION.
Proof.
  intros E Hs. unfold small, zlen, NO_ACTION, u32 in *. rewrite E, length_app in Hs. cbn in Hs. rewrite Z.mod_small by lia. lia.
Qed.

Lemma ids_push_view ids id (v : view B) : exists ids', ids_push (O := view_ops) ids id v = (ids', v) /\ pi_ids ids' = pi_ids ids ++ [id].
Proof. unfold ids_push. destruct (zlen (pi_ids ids) =? pi_capacity ids); by eexists. Qed.

Lemma note_added_view p i a id (v : view B) : note_added (O := view_ops) p i a id v = (with_added (pl_added p ++ [PlanAdded i a id]) p, v).
Proof. done. Qed.

Lemma push_address_triple p i a pref valid why base out :
  triple (pl_added p) (push_address (B := B) (O := view_ops) p i a pref valid why base out) (fun r added' => added' = pl_added r.1).
Proof.
  intros v x v' E Hk. unfold push_address in E.
  destruct (builder_push (O := view_ops) (pl_builder p) (ADDR_ADD i a pref valid) why (pi_ids base) (Some (ADDR_DEL i a)) v) as [id v1] eqn:Ep.
  rewrite (view_seq _ _ _ _ _ Ep) in E. destruct (Z.eqb_spec id NO_ACTION) as [Hid|Hid].
  - injection E as <- <-. exists (pl_added p). split; [done|]. apply push_cases in Ep as [[_ Ha]|[-> Ha]]; [by eapply kept_same|].
    eapply kept_snoc; [exact Ha|done|intros Hs; by destruct (small_id _ _ _ Ha Hs)|done].
  - destruct (ids_push_view out id v1) as (out' & Eo & _). rewrite (view_seq _ _ _ _ _ Eo), (view_seq _ _ _ _ _ (note_added_view _ _ _ _ _)) in E.
    injection E as <- <-.
    eexists. split; [reflexivity|]. apply push_cases in Ep as [[? _]|[-> Ha]]; [done|].
    eapply kept_snoc; [exact Ha|done| |by intros; cbn in *].
    intros Hs Hn y i' a' l1 l2 Hy Hop. rewrite Ha in Hy. apply elem_of_app in Hy as [Hy|Hy].
    + destruct (Hn _ _ _ _ _ Hy Hop). split; [|done]. cbn. apply elem_of_app. by left.
    + apply list_elem_of_singleton in Hy as ->. cbn in Hop. injection Hop as -> -> -> ->. split; [|exact Hid]. cbn. apply elem_of_app. right. by apply list_elem_of_singleton.
Qed.

Abbreviation keeps_note := (fun (r : planner * plan_ids) (added' : list plan_added) => added' = pl_added r.1).

Lemma report_addresses_triple name field reported base : forall p out,
  triple (pl_added p) (plan_report_addresses (B := B) (O := view_ops) p name field reported base out) keeps_note.
Proof.
  induction reported as [|[a|] reported IH]; intros p out; cbn [plan_report_addresses]; [by apply triple_ret| |apply IH].
  destruct (existsb _ _); [apply IH|]. apply triple_then; [solve_asks|intros desired].
  eapply triple_bind; [apply push_address_triple|]. intros r added' ->. apply IH.
Qed.

Lemma plan_client_triple p interface index kind base out :
  triple (pl_added p) (plan_client (B := B) (O := view_ops) p interface index kind base out) keeps_note.
Proof.
  unfold plan_client, addressing_field. apply triple_then; [solve_asks|intros field]. apply triple_then; [solve_asks|intros out']. by apply triple_ret.
Qed.

Lemma plan_source_triple p interface index s base out :
  triple (pl_added p) (plan_source (B := B) (O := view_ops) p interface index s base out) keeps_note.
Proof.
  unfold plan_source. cbn zeta. repeat (destruct (_ =? _); [apply plan_client_triple|]). destruct (_ =? _).
  { unfold plan_reported, addressing_field. apply triple_then; [solve_asks|intros field]. destruct (report_for _ _) as [r|].
    - destruct (get observed_report_type "addresses" r : list text); [|apply report_addresses_triple].
      apply triple_then; [solve_asks|intros _]. by apply triple_ret.
    - apply triple_then; [solve_asks|intros _]. by apply triple_ret. }
  destruct (delegated_of s) as [d|].
  - unfold plan_delegated, addressing_field. cbn zeta. destruct (delegated_address _ d).
    + apply triple_then; [solve_asks|intros _]. by apply triple_ret.
    + destruct (existsb _ _); [by apply triple_ret|]. apply triple_then; [solve_asks|intros [a|]]; [|by apply triple_ret].
      apply triple_then; [solve_asks|intros field]. apply triple_then; [solve_asks|intros desired]. apply push_address_triple.
  - destruct (static_of s) as [st|]; [|by apply triple_ret]. unfold plan_static, addressing_field. cbn zeta.
    destruct (get static_type "address" st : text); [|by apply triple_ret]. destruct (existsb _ _); [by apply triple_ret|].
    apply triple_then; [solve_asks|intros field]. apply push_address_triple.
Qed.

Lemma plan_sources_triple interface l base : forall p index out,
  triple (pl_added p) (plan_sources (B := B) (O := view_ops) p interface index l base out) keeps_note.
Proof.
  induction l as [|s l IH]; intros p index out; cbn [plan_sources]; [by apply triple_ret|].
  eapply triple_bind; [apply plan_source_triple|]. intros r added' ->. apply IH.
Qed.

(** What a route waits for. *)
Lemma ids_extend_view from : forall ids (v : view B), exists ids', ids_extend (O := view_ops) ids from v = (ids', v) /\ pi_ids ids' = pi_ids ids ++ from.
Proof.
  induction from as [|id from IH]; intros ids v; cbn [ids_extend]; [exists ids; by rewrite app_nil_r|].
  destruct (ids_push_view ids id v) as (ids1 & E1 & H1). rewrite (view_seq _ _ _ _ _ E1). destruct (IH ids1 v) as (ids2 & E2 & H2).
  exists ids2. split; [done|]. by rewrite H2, H1, <- app_assoc.
Qed.

Lemma ids_note_view ids id (v : view B) : exists ids', ids_note (O := view_ops) ids id v = (ids', v) /\ exists l, pi_ids ids' = pi_ids ids ++ l.
Proof.
  unfold ids_note. destruct (id =? NO_ACTION); [exists ids; split; [done|exists []; by rewrite app_nil_r]|].
  destruct (ids_push_view ids id v) as (ids1 & E1 & H1). exists ids1. split; [done|by eexists].
Qed.

Definition covers (interface via : cstr) (a : plan_added) : bool :=
  text_equal (pa_interface a) interface && subnet_contains (bytes <$> pa_address a) (bytes <$> via).

Lemma wait_for_added_view interface via added : forall deps (v : view B),
  exists ids', wait_for_added (O := view_ops) interface via added deps v = (ids', v) /\
    pi_ids ids' = pi_ids deps ++ map pa_id (List.filter (covers interface via) added).
Proof.
  induction added as [|a added IH]; intros deps v; cbn [wait_for_added List.filter]; [exists deps; by rewrite app_nil_r|].
  fold (covers interface via a). destruct (covers interface via a); [|apply IH].
  destruct (ids_push_view deps (pa_id a) v) as (ids1 & E1 & H1). rewrite (view_seq _ _ _ _ _ E1).
  destruct (IH ids1 v) as (ids2 & E2 & H2). exists ids2. split; [done|]. by rewrite H2, H1, <- app_assoc.
Qed.

Lemma text_equal_refl t : text_equal t t = true.
Proof. destruct t; [apply String.eqb_refl|done]. Qed.

Lemma plan_route_triple p interface r base :
  triple (pl_added p) (plan_route (B := B) (O := view_ops) p interface r base) (fun _ added' => added' = pl_added p).
Proof.
  unfold plan_route. cbn zeta. set (name := iface_name interface). set (wanted := with_metric p r interface).
  assert (forall m, asks quiet m -> triple (B := B) (pl_added p) m (fun (_ : unit) (added' : list plan_added) => added' = pl_added p)) as Hq.
  { intros m Hm v x v' E Hk. exists (pl_added p). split; [done|]. eapply kept_quiet; [by eapply Hm|done]. }
  destruct (standby_of p name); [apply Hq; unfold standby_warn; solve_asks|].
  destruct (no_carrier p interface); [apply Hq; solve_asks|]. destruct (unreachable p interface); [apply Hq; solve_asks|].
  destruct (existsb _ _); [apply Hq; solve_asks|]. clear Hq.
  intros v x v' E Hk. exists (pl_added p). split; [done|].
  destruct (ids_extend_view (pi_ids base) no_ids v) as (d1 & E1 & _). rewrite (view_seq _ _ _ _ _ E1) in E.
  destruct (ids_note_view d1 (builder_link_up p name) v) as (d2 & E2 & _). rewrite (view_seq _ _ _ _ _ E2) in E.
  assert (exists d3, (if negb (rt_onlink wanted) && bool_decide (is_Some (rt_via wanted))
      then wait_for_added (O := view_ops) (B := B) name (rt_via wanted) (pl_added p) d2 else mret d2) v = (d3, v) /\
    forall g, rt_onlink wanted = false -> rt_via wanted = Some g -> forall a, a ∈ pl_added p -> covers name (Some g) a = true -> pa_id a ∈ pi_ids d3)
    as (d3 & E3 & Hd).
  { destruct (wait_for_added_view name (rt_via wanted) (pl_added p) d2 v) as (d3 & E3 & H3).
    destruct (negb (rt_onlink wanted) && bool_decide (is_Some (rt_via wanted))) eqn:Ec.
    - exists d3. split; [done|]. intros g _ Hg a Ha Hc. rewrite H3. apply elem_of_app. right. apply (list_elem_of_fmap_2 pa_id), elem_of_filter_true. by rewrite Hg.
    - exists d2. split; [done|]. intros g Ho Hg. rewrite Ho, Hg in Ec. done. }
  rewrite (view_seq _ _ _ _ _ E3) in E. rewrite (view_seq _ _ _ (Some (route_text wanted)) v) in E by done.
  match type of E with _ (builder_push ?b ?o ?w ?d ?inv) v = _ => destruct (builder_push (O := view_ops) b o w d inv v) as [id v1] eqn:Ep end.
  rewrite (view_seq _ _ _ _ _ Ep) in E. injection E as _ <-.
  apply push_cases in Ep as [[_ Ha]|[_ Ha]]; [by eapply kept_same|]. eapply kept_snoc; [exact Ha|done| |].
  - intros _ Hn y i a l1 l2 Hy Hop. rewrite Ha in Hy. apply elem_of_app in Hy as [Hy|Hy%list_elem_of_singleton]; [by eapply Hn|by subst y].
  - intros _ Hn y i a l1 l2 rt g Hy Hop Hr Honlink Hvia Hsub. cbn in Hr. injection Hr as <- <-. destruct (Hn _ _ _ _ _ Hy Hop) as [Hin Hid].
    cbn [ac_depends_on]. unfold kept_edges. apply list_elem_of_filter. split; [done|].
    apply (Hd g Honlink Hvia _ Hin). unfold covers. cbn. by rewrite text_equal_refl.
Qed.

Lemma plan_routes_triple p interface l base :
  triple (pl_added p) (plan_routes (B := B) (O := view_ops) p interface l base) (fun _ added' => added' = pl_added p).
Proof.
  induction l as [|r l IH]; cbn [plan_routes]; [by apply triple_ret|]. eapply triple_bind; [apply plan_route_triple|]. intros [] added' ->. apply IH.
Qed.

Lemma contents_link_keeps p interface base : returns (contents_link (B := B) (O := view_ops) p interface base) (fun r => pl_added r.1.1 = pl_added p).
Proof. unfold contents_link. solve_returns. Qed.

Lemma plan_access_point_keeps p interface base out :
  returns (plan_access_point (B := B) (O := view_ops) p interface base out) (fun r => pl_added r.1 = pl_added p).
Proof. unfold plan_access_point. solve_returns. Qed.

Lemma contents_routes_triple p interface :
  triple (pl_added p) (contents_routes (B := B) (O := view_ops) p interface) (fun r added' => added' = pl_added r.1).
Proof.
  unfold contents_routes. cbn zeta. destruct (negb _); [by apply triple_ret|].
  apply triple_then; [solve_asks|intros base]. apply triple_then; [apply wait_for_members_asks|intros base'].
  eapply triple_bind; [apply triple_quiet; [apply contents_link_quiet|apply contents_link_keeps]|].
  intros [[p1 base1] up] ? [-> H1]. cbn in H1. apply triple_then; [solve_asks|intros authentication].
  eapply triple_bind; [apply triple_quiet; [solve_asks|apply plan_access_point_keeps]|].
  intros [p2 serving] ? [-> H2]. cbn in H2. do 5 (apply triple_then; [solve_asks|intros ?]).
  rewrite <- H1, <- H2. eapply triple_bind; [apply plan_sources_triple|]. intros [p3 addressing] ? ->. cbn [fst].
  apply triple_then; [solve_asks|intros _].
  eapply triple_bind; [apply (triple_quiet _ _ (fun _ => True)); [intros v l v' E; rewrite routes_for_view in E; injection E as _ <-; apply extends_refl|by intros ? ? ?]|].
  intros l ? [-> _]. eapply triple_bind; [apply plan_routes_triple|]. intros [] ? ->. by apply triple_ret.
Qed.

Lemma walk_triple files l : forall p,
  triple (pl_added p) (walk_interfaces (B := B) (O := view_ops) files p l) (fun p' added' => added' = pl_added p').
Proof.
  induction l as [|i l IH]; intros p; cbn [walk_interfaces]; [by apply triple_ret|].
  eapply triple_bind with (Q := fun p' added' => added' = pl_added p'); [|intros p' added' ->; apply IH].
  unfold interface_contents. eapply triple_bind; [apply contents_routes_triple|]. intros [p1 reached] ? ->. cbn [fst].
  destruct reached as [[[base addressing] up]|]; [|by apply triple_ret].
  apply triple_then; [apply plan_advertise_asks; [apply backend_quiet|by intros k n []]|intros _].
  apply triple_then; [apply plan_dhcp_server_asks, backend_quiet|intros _]. apply triple_then; [apply contents_hooks_asks, hook_quiet|intros _]. by apply triple_ret.
Qed.

(** *** An interface's addresses come before its routes *)

(** Before the routes of [n]: no route, and no address but its own. *)
Definition addressing_of (n : cstr) (o : op B) : Prop :=
  match o with ADDR_ADD i _ _ _ => i = n | ROUTE_ADD _ _ => False | _ => True end.

(** From its routes on: no address, and no route but its own. *)
Definition routing_of (n : cstr) (o : op B) : Prop :=
  match o with ADDR_ADD _ _ _ _ => False | ROUTE_ADD i _ => i = n | _ => True end.

Lemma quiet_addressing n (o : op B) : quiet o -> addressing_of n o.
Proof. unfold quiet. by destruct o; cbn; auto. Qed.

Lemma quiet_routing n (o : op B) : quiet o -> routing_of n o.
Proof. unfold quiet. by destruct o; cbn; auto. Qed.

Definition in_order (v : view B) : Prop :=
  forall k j x r i a l1 l2 rt, v_actions v !! k = Some x -> v_actions v !! j = Some r ->
    ac_op x = ADDR_ADD i a l1 l2 -> ac_op r = ROUTE_ADD i rt -> (k < j)%nat.

(** The interfaces that have a route in the plan. *)
Definition routed (done : list cstr) (v : view B) : Prop :=
  forall r i rt, r ∈ v_actions v -> ac_op r = ROUTE_ADD i rt -> i ∈ done.

Lemma extends_lookup ok (v v' : view B) k x :
  extends ok v v' -> v_actions v' !! k = Some x ->
  v_actions v !! k = Some x \/ ((length (v_actions v) <= k)%nat /\ ok (ac_op x)).
Proof.
  intros (l & E & Hl) Hk. rewrite E in Hk. destruct (decide (k < length (v_actions v))%nat) as [Hlt|Hge].
  - left. by rewrite lookup_app_l in Hk.
  - right. split; [lia|]. rewrite lookup_app_r in Hk by lia. apply list_elem_of_lookup_2 in Hk.
    rewrite Forall_forall in Hl. by apply Hl.
Qed.

Lemma in_order_addressing n done (v v' : view B) :
  extends (addressing_of n) v v' -> n ∉ done -> routed done v -> in_order v -> in_order v' /\ routed done v'.
Proof.
  intros He Hn Hr Ho. split.
  - intros k j x r i a l1 l2 rt Hx Hj Hopx Hopr.
    destruct (extends_lookup _ _ _ _ _ He Hj) as [Hj'|[_ Hok]]; [|by rewrite Hopr in Hok].
    destruct (extends_lookup _ _ _ _ _ He Hx) as [Hx'|[Hge Hok]]; [by eapply Ho|].
    rewrite Hopx in Hok. cbn in Hok. subst i. destruct Hn. eapply Hr; [by eapply list_elem_of_lookup_2|done].
  - intros r i rt [j Hj]%list_elem_of_lookup_1 Hopr.
    destruct (extends_lookup _ _ _ _ _ He Hj) as [Hj'|[_ Hok]]; [|by rewrite Hopr in Hok].
    eapply Hr; [by eapply list_elem_of_lookup_2|done].
Qed.

Lemma in_order_routing n done (v v' : view B) :
  extends (routing_of n) v v' -> routed done v -> in_order v -> in_order v' /\ routed (n :: done) v'.
Proof.
  intros He Hr Ho. split.
  - intros k j x r i a l1 l2 rt Hx Hj Hopx Hopr.
    destruct (extends_lookup _ _ _ _ _ He Hx) as [Hx'|[_ Hok]]; [|by rewrite Hopx in Hok].
    destruct (extends_lookup _ _ _ _ _ He Hj) as [Hj'|[Hge _]]; [by eapply Ho|].
    apply lookup_lt_Some in Hx'. lia.
  - intros r i rt [j Hj]%list_elem_of_lookup_1 Hopr. apply elem_of_cons.
    destruct (extends_lookup _ _ _ _ _ He Hj) as [Hj'|[_ Hok]].
    + right. eapply Hr; [by eapply list_elem_of_lookup_2|done].
    + left. by rewrite Hopr in Hok.
Qed.

(** A computation that asks for addresses first and routes after. *)
Definition staged {A} (n : cstr) (m : Heap.State (view B) A) : Prop :=
  forall v x v', m v = (x, v') -> exists vm, extends (addressing_of n) v vm /\ extends (routing_of n) vm v'.

Lemma staged_routing {A} n (m : Heap.State (view B) A) : asks (routing_of n) m -> staged n m.
Proof. intros H v x v' E. exists v. split; [apply extends_refl|by eapply H]. Qed.

Lemma staged_then {A C} n (m : Heap.State (view B) A) (k : A -> Heap.State (view B) C) :
  asks (addressing_of n) m -> (forall x, staged n (k x)) -> staged n (@mbind _ (@ops_bind B _ view_ops) _ _ k m).
Proof.
  intros Hm Hk v y v' E. change ((let '(a, s1) := m v in k a s1) = (y, v')) in E. destruct (m v) as [x v1] eqn:Em.
  destruct (Hk _ _ _ _ E) as (vm & H1 & H2). exists vm. split; [|done]. eapply extends_trans; [by eapply Hm|done].
Qed.

Lemma staged_after {A C} n (m : Heap.State (view B) A) (k : A -> Heap.State (view B) C) :
  staged n m -> (forall x, asks (routing_of n) (k x)) -> staged n (@mbind _ (@ops_bind B _ view_ops) _ _ k m).
Proof.
  intros Hm Hk v y v' E. change ((let '(a, s1) := m v in k a s1) = (y, v')) in E. destruct (m v) as [x v1] eqn:Em.
  destruct (Hm _ _ _ Em) as (vm & H1 & H2). exists vm. split; [done|]. eapply extends_trans; [done|by eapply Hk].
Qed.

Lemma quiet_then_staged {A C} n (m : Heap.State (view B) A) (k : A -> Heap.State (view B) C) :
  asks quiet m -> (forall x, staged n (k x)) -> staged n (@mbind _ (@ops_bind B _ view_ops) _ _ k m).
Proof. intros Hm. apply staged_then. eapply asks_mono; [exact Hm|apply quiet_addressing]. Qed.

Lemma plan_source_addressing p interface index s base out :
  asks (addressing_of (iface_name interface)) (plan_source (B := B) (O := view_ops) p interface index s base out).
Proof.
  assert (forall p a pref valid why base out,
    asks (addressing_of (iface_name interface)) (push_address (B := B) (O := view_ops) p (iface_name interface) a pref valid why base out)) as Hpush
    by (intros; unfold push_address, note_added; solve_asks).
  assert (forall name kind field base' out,
    asks (addressing_of (iface_name interface)) (plan_backend (B := B) (O := view_ops) p name kind field base' out)) as Hb
    by (intros; eapply asks_mono; [apply plan_backend_asks|intros o Ho; apply quiet_addressing, backend_quiet, Ho]).
  assert (forall field reported base p out,
    asks (addressing_of (iface_name interface)) (plan_report_addresses (B := B) (O := view_ops) p (iface_name interface) field reported base out)) as Hreport.
  { intros field reported base'. induction reported as [|[a|] reported IH]; intros p' out'; cbn [plan_report_addresses]; solve_asks. }
  unfold plan_source, plan_client, plan_reported, plan_delegated, plan_static, addressing_field. solve_asks.
Qed.

Lemma plan_sources_addressing interface l base : forall p index out,
  asks (addressing_of (iface_name interface)) (plan_sources (B := B) (O := view_ops) p interface index l base out).
Proof.
  induction l as [|s l IH]; intros p index out; cbn [plan_sources]; [apply asks_ret|].
  apply asks_bind; [apply plan_source_addressing|]. intros r. apply IH.
Qed.

Lemma plan_routes_routing p interface l base :
  asks (routing_of (iface_name interface)) (plan_routes (B := B) (O := view_ops) p interface l base).
Proof.
  induction l as [|r l IH]; cbn [plan_routes]; [apply asks_ret|]. apply asks_bind; [|intros _; exact IH].
  assert (forall added via deps, asks (routing_of (iface_name interface)) (wait_for_added (B := B) (O := view_ops) (iface_name interface) via added deps)) as Hw.
  { induction added as [|a added IHa]; intros via deps; cbn [wait_for_added]; solve_asks. }
  unfold plan_route, standby_warn. solve_asks.
Qed.

Lemma contents_routes_staged p interface :
  staged (iface_name interface) (contents_routes (B := B) (O := view_ops) p interface).
Proof.
  unfold contents_routes. cbn zeta. destruct (negb _); [apply staged_routing, asks_ret|].
  apply quiet_then_staged; [solve_asks|intros base]. apply quiet_then_staged; [apply wait_for_members_asks|intros base'].
  apply quiet_then_staged; [apply contents_link_quiet|]. intros [[p1 base1] up].
  do 2 (apply quiet_then_staged; [solve_asks|intros ?]). destruct x0 as [p2 serving].
  do 5 (apply quiet_then_staged; [solve_asks|intros ?]).
  apply staged_then; [apply plan_sources_addressing|]. intros [p3 addressing].
  apply quiet_then_staged; [solve_asks|intros _]. apply staged_routing.
  apply asks_bind; [intros v l v' E; rewrite routes_for_view in E; injection E as _ <-; apply extends_refl|intros l].
  apply asks_bind; [apply plan_routes_routing|intros _; apply asks_ret].
Qed.

Lemma interface_contents_staged files p interface :
  staged (iface_name interface) (interface_contents (B := B) (O := view_ops) files p interface).
Proof.
  assert (forall A (m : Heap.State (view B) A), asks quiet m -> asks (routing_of (iface_name interface)) m) as Hq
    by (intros A m H; eapply asks_mono; [exact H|apply quiet_routing]).
  unfold interface_contents. apply staged_after; [apply contents_routes_staged|]. intros [p1 reached].
  destruct reached as [[[base addressing] up]|]; [|apply asks_ret].
  apply asks_bind; [apply Hq, plan_advertise_asks; [apply backend_quiet|by intros k n []]|intros _].
  apply asks_bind; [apply Hq, plan_dhcp_server_asks, backend_quiet|intros _].
  apply asks_bind; [apply Hq, contents_hooks_asks, hook_quiet|intros _; apply asks_ret].
Qed.

Lemma walk_in_order files l : forall p done v p' v',
  walk_interfaces (B := B) (O := view_ops) files p l v = (p', v') ->
  NoDup (map iface_name l) -> (forall i, i ∈ l -> iface_name i ∉ done) ->
  routed done v -> in_order v -> in_order v'.
Proof.
  induction l as [|i l IH]; intros p done v p' v' E Hnd Hdone Hr Ho; cbn [walk_interfaces] in E; [by injection E as _ <-|].
  destruct (interface_contents (O := view_ops) files p i v) as [p1 v1] eqn:Ei. rewrite (view_seq _ _ _ _ _ Ei) in E.
  cbn [map] in Hnd. apply NoDup_cons in Hnd as [Hi Hnd].
  destruct (interface_contents_staged files p i _ _ _ Ei) as (vm & Ha & Hb).
  destruct (in_order_addressing _ _ _ _ Ha (Hdone i ltac:(apply elem_of_cons; by left)) Hr Ho) as [Hom Hrm].
  destruct (in_order_routing _ _ _ _ Hb Hrm Hom) as [Ho1 Hr1].
  eapply IH; [exact E|exact Hnd| |exact Hr1|exact Ho1].
  intros j Hj [Heq|Hin]%elem_of_cons.
  - apply Hi. rewrite <-Heq. by apply list_elem_of_In, in_map, list_elem_of_In.
  - by apply (Hdone j); [apply elem_of_cons; right|].
Qed.

End Walk.

(** C11: ordering rule 4. In the plan the walk over the interfaces leaves (memory
    permitting, over interfaces each named once, from a plan that adds no
    address and no route, with fewer actions than there are ids), every address
    the plan adds to an interface comes before every route it adds to that
    interface, and a route whose next hop lies in the subnet of such an address
    waits for it, unless the route is marked [onlink]; so for every interface,
    its own routes and the ones a report gave it, whatever else the interface
    asks for. *)
Theorem routes_wait_for_addresses {I : Inet} {B} (grant : nat -> bool) (files : disk) (p p' : planner) l (pl pl' : plan B) (h h' : heap) :
  walk_interfaces (O := heap_ops grant) files p l (pl, h) = (p', (pl', h')) -> plan_failed pl' = false ->
  NoDup (map iface_name l) ->
  (forall a, a ∈ p_actions pl -> ~ adds (ac_op a)) -> zlen (p_actions pl') <= NO_ACTION ->
  forall k j x r i a l1 l2 rt, p_actions pl' !! k = Some x -> p_actions pl' !! j = Some r ->
    ac_op x = ADDR_ADD i a l1 l2 -> ac_op r = ROUTE_ADD i (Some rt) ->
    (k < j)%nat /\
    (forall gateway, rt_onlink rt = false -> rt_via rt = Some gateway ->
       subnet_contains (bytes <$> a) (Some (bytes gateway)) = true -> ac_id x ∈ ac_depends_on r).
Proof.
  intros E Hf Hnd Hq Hs. destruct (walk_refines grant files l p _ _ _ E Hf) as [_ Hv]. cbn [fst] in Hv.
  assert (in_order (view_of pl')) as Ho.
  { eapply (walk_in_order files l p []); [exact Hv|exact Hnd|by intros i _ ?%elem_of_nil| |].
    - intros r i rt Hr Hop. apply Hq in Hr. rewrite Hop in Hr. by destruct Hr.
    - intros k j x r i a l1 l2 rt Hx _ Hop. apply list_elem_of_lookup_2, Hq in Hx. rewrite Hop in Hx. by destruct Hx. }
  destruct (walk_triple files l p _ _ _ Hv) as (added' & _ & Hk).
  - intros _. split.
    + intros x i a l1 l2 Hx Hop. apply Hq in Hx. rewrite Hop in Hx. by destruct Hx.
    + intros k j x r i a l1 l2 rt g _ Hr _ _ Hop. apply list_elem_of_lookup_2, Hq in Hr. rewrite Hop in Hr. by destruct Hr.
  - destruct (Hk Hs) as [_ Hord]. intros k j x r i a l1 l2 rt Hx Hr Hopx Hopr.
    pose proof (Ho _ _ _ _ _ _ _ _ _ Hx Hr Hopx Hopr) as Hlt. split; [exact Hlt|].
    intros g Hon Hvia Hsub. by eapply Hord.
Qed.

Definition router_document : value document_type := read_document
  "{'schema_version':{'major':1,'minor':1},'globals':{},'devices':[],'interfaces':[{'name':'eth0','addressing':[{'source':'static','address':'192.0.2.2/24'},{'source':'static','address':'10.0.0.1/8'}],'routes':[{'destination':'default','via':'192.0.2.1'}]}],'networks':[]}".

Definition router_seen : value observed_type := read_observation
  "{'links':[{'name':'eth0','index':2,'up':false,'carrier':true,'mtu':1500,'ownership':'foreign'}]}".

Definition interfaces_of {I : Inet} (d : value document_type) : list (value interface_type) := get document_type "interfaces" d.

Definition no_files : disk := fun _ => None.

Abbreviation router_walk := (walk_interfaces (O := heap_ops (fun _ => true)) no_files (planner_for router_document router_seen)
  (interfaces_of router_document) (empty_plan, empty_heap)).

Definition nth_action (k : nat) (pl : plan unit) : action unit := nth k (p_actions pl) (Action 0 (LINK_UP None) (Reason None None None None) [] None).

Lemma nth_action_lookup k (pl : plan unit) : (k < length (p_actions pl))%nat -> p_actions pl !! k = Some (nth_action k pl).
Proof. intros H. unfold nth_action. destruct (lookup_lt_is_Some_2 _ _ H) as [x Hx]. by rewrite nth_lookup, Hx. Qed.

Lemma routes_wait_for_addresses_witness :
  map ac_op (p_actions router_walk.2.1) =
    [LINK_UP (Some "eth0"); ADDR_ADD (Some "eth0") (Some "192.0.2.2/24") None None; ADDR_ADD (Some "eth0") (Some "10.0.0.1/8") None None;
     ROUTE_ADD (Some "eth0") (Some (Route (Some "default") (Some "192.0.2.1") None None None None false None))] /\
  ac_id (nth_action 1 router_walk.2.1) ∈ ac_depends_on (nth_action 3 router_walk.2.1).
Proof.
  split; [by_vm|].
  refine (proj2 (routes_wait_for_addresses (fun _ => true) no_files (planner_for router_document router_seen) _ (interfaces_of router_document) empty_plan _
    empty_heap _ (parts router_walk) _ _ _ _ 1%nat 3%nat _ _ (Some "eth0") (Some "192.0.2.2/24") None None
    (Route (Some "default") (Some "192.0.2.1") None None None None false None) _ _ _ _) "192.0.2.1" _ _ _).
  - by_vm.
  - eapply bool_decide_eq_true_1. by_vm.
  - intros a Ha. by apply not_elem_of_nil in Ha.
  - apply Z.leb_le. by_vm.
  - apply nth_action_lookup, Nat.ltb_lt. by_vm.
  - apply nth_action_lookup, Nat.ltb_lt. by_vm.
  - by_vm.
  - by_vm.
  - reflexivity.
  - reflexivity.
  - by_vm.
Defined.
