(* ===== verification/ConvergeSpec.v ===== *)
(** * ConvergeSpec: carrying out a plan for the addresses leaves nothing to plan

    What the walk over the interfaces and the teardown ask for, as lists of the
    addresses to add and to take away; what carrying it out makes of the
    addresses the kernel holds; and that planning again then asks for neither. *)
From stdpp Require Import gmap pretty.
From S2P Require Import Prelude Wire Op Heap Plan PlanSpec Value ValueSpec InetText Builder BuilderSpec Json JsonWrite DocText Field Document Canonical DocumentOps DocumentRoundtrip Observed ObservedOps Linkset LinksetSpec Owned AddressPass AddressSpec DhcpServer LinkPass LinkSpec.
#[local] Open Scope string_scope.
#[local] Open Scope list_scope.
#[local] Open Scope Z_scope.

(** ** What a pass asks of the addresses *)

Definition is_address {B} (o : op B) : bool := match o with ADDR_ADD _ _ _ _ | ADDR_DEL _ _ => true | _ => false end.
Definition silent {B} (o : op B) : Prop := is_address o = false.

Section Gives.
Context {B : Type}.

Definition address_ops (v : view B) : list (op B) := List.filter is_address (map ac_op (v_actions v)).

(** A pass that asks exactly for [l] of the addresses, with an answer of which
    something is known. *)
Definition gives {A} (m : Heap.State (view B) A) (l : list (op B)) (Q : A -> Prop) : Prop :=
  forall v x v', m v = (x, v') -> address_ops v' = address_ops v ++ l /\ Q x.

Lemma gives_ret {A} (x : A) (Q : A -> Prop) : Q x -> gives (@mret _ (@ops_ret B _ view_ops) A x) [] Q.
Proof. intros H v y v' [= <- <-]. by rewrite app_nil_r. Qed.

Lemma gives_bind {A C} (m : Heap.State (view B) A) (k : A -> Heap.State (view B) C) l1 l2 Q Q' :
  gives m l1 Q -> (forall x, Q x -> gives (k x) l2 Q') -> gives (@mbind _ (@ops_bind B _ view_ops) _ _ k m) (l1 ++ l2) Q'.
Proof.
  intros Hm Hk v y v' E. change ((let '(a, s1) := m v in k a s1) = (y, v')) in E. destruct (m v) as [x v1] eqn:Em.
  destruct (Hm _ _ _ Em) as [H1 HQ]. destruct (Hk x HQ _ _ _ E) as [H2 HQ']. split; [|done]. by rewrite H2, H1, app_assoc.
Qed.

Lemma silent_filter (l : list (action B)) : Forall (fun a => silent (ac_op a)) l -> List.filter is_address (map ac_op l) = [].
Proof. induction 1 as [|a l Ha _ IH]; [done|]. cbn. unfold silent in Ha. by rewrite Ha. Qed.

Lemma gives_silent {A} (m : Heap.State (view B) A) (Q : A -> Prop) : asks silent m -> returns m Q -> gives m [] Q.
Proof.
  intros Ha Hr v x v' E. split; [|by eapply Hr]. destruct (Ha _ _ _ E) as (l & El & Hl). unfold address_ops.
  by rewrite El, map_app, List.filter_app, (silent_filter l Hl).
Qed.

Lemma gives_first {A C} (m : Heap.State (view B) A) (k : A -> Heap.State (view B) C) l Q Q' :
  gives m [] Q -> (forall x, Q x -> gives (k x) l Q') -> gives (@mbind _ (@ops_bind B _ view_ops) _ _ k m) l Q'.
Proof. exact (gives_bind m k [] l Q Q'). Qed.

Lemma gives_then {A C} (m : Heap.State (view B) A) (k : A -> Heap.State (view B) C) l Q :
  asks silent m -> (forall x, gives (k x) l Q) -> gives (@mbind _ (@ops_bind B _ view_ops) _ _ k m) l Q.
Proof. intros Ha Hk. apply (gives_bind _ _ [] l (fun _ => True)); [apply gives_silent; [done|by intros ? ? ?]|intros x _; apply Hk]. Qed.

Lemma gives_push b (o : op B) why deps inv : lets_through b o -> is_address o = true ->
  gives (builder_push (O := view_ops) b o why deps inv) [o] (fun _ => True).
Proof.
  intros (Hs & Hl & Hg) Ho v id v'. rewrite push_view. unfold push_reference, refusal_of, view_add. rewrite Hs, Hl, Hg. intros [= <- <-].
  split; [|done]. unfold address_ops. cbn. by rewrite map_app, List.filter_app; cbn; rewrite Ho.
Qed.

Lemma backend_silent (o : op B) : is_backend o -> silent o.
Proof. by destruct o. Qed.

End Gives.

(** ** The addresses a source stands for *)

Section Source.
Context {I : Inet} {B : Type}.

Abbreviation iface := (value interface_type).

(** What the document asks of an interface does not change while it is walked. *)
Definition same_sight (p p' : planner) : Prop :=
  pl_builder p' = pl_builder p /\ pl_desired p' = pl_desired p /\ pl_observed p' = pl_observed p /\ pl_cycle p' = pl_cycle p.

Lemma same_refl p : same_sight p p.
Proof. done. Qed.

Lemma sight_trans p1 p2 p3 : same_sight p1 p2 -> same_sight p2 p3 -> same_sight p1 p3.
Proof. unfold same_sight. intuition congruence. Qed.

Definition is_seen (o : value observed_type) (name : cstr) (a : list byte) : bool :=
  existsb (fun seen => named (oa_interface seen) name && plan_address_equal (oa_address seen) (Some a)) (addresses o).

Definition is_spelled (o : value observed_type) (name : cstr) (a : list byte) : bool :=
  existsb (fun seen => text_equal (oa_interface seen) name && text_equal (cs (oa_address seen)) (cs (Some a))) (addresses o).

(** The additions a report stands for: what is added is not looked at again. *)
Definition report_asks (o : value observed_type) (name : cstr) (reported : list text) : list (op B) :=
  omap (fun t : text => match t with Some a => if is_seen o name a then None else Some (ADDR_ADD name (cs (Some a)) None None) | None => None end) reported.

Definition source_asks (o : value observed_type) (interface : iface) (s : union address_source_arm) : list (op B) :=
  let name := iface_name interface in
  if existsb (Z.eqb (source_kind s)) [NCFG_ADDRESS_SOURCE_DHCP4; NCFG_ADDRESS_SOURCE_DHCP6; NCFG_ADDRESS_SOURCE_LINK_LOCAL] then []
  else if source_kind s =? NCFG_ADDRESS_SOURCE_REPORTED then
    match report_for o name with
    | Some r => report_asks o name (get observed_report_type "addresses" r)
    | None => []
    end
  else
    match delegated_of s, static_of s with
    | Some d, _ =>
        match delegated_address o d with
        | inr a => if is_seen o name a then [] else [ADDR_ADD name (cs (Some a)) None None]
        | inl _ => []
        end
    | None, Some st =>
        match (get static_type "address" st : text) with
        | Some a =>
            if is_spelled o name a then []
            else [ADDR_ADD name (cs (Some a)) (get static_type "preferred_lifetime" st) (get static_type "valid_lifetime" st)]
        | None => []
        end
    | None, None => []
    end.

(** No lock, guard or unmanaged device is in the way of an address. *)
Definition unhindered (p : planner) : Prop := forall o : op B, is_address o = true -> lets_through (pl_builder p) o.

Abbreviation sees p := (fun r : planner * plan_ids => same_sight p r.1).

Lemma push_address_gives p i a pref valid why base out :
  unhindered p -> gives (push_address (B := B) (O := view_ops) p i a pref valid why base out) [ADDR_ADD i a pref valid] (sees p).
Proof.
  intros Hu. unfold push_address. apply (gives_bind _ _ [_] [] (fun _ => True)); [apply gives_push; [by apply Hu|done]|].
  intros id _. destruct (id =? NO_ACTION); [by apply gives_ret|]. apply gives_then; [apply asks_ids_push|intros out'].
  apply gives_silent; [unfold note_added; solve_asks|]. intros v x v' [= <- <-]. done.
Qed.

Lemma report_addresses_gives name field reported base : forall p out, unhindered p ->
  gives (plan_report_addresses (B := B) (O := view_ops) p name field reported base out) (report_asks (pl_observed p) name reported) (sees p).
Proof.
  induction reported as [|[a|] reported IH]; intros p out Hu; cbn [plan_report_addresses report_asks omap list_omap]; [by apply gives_ret| |by apply IH].
  unfold is_seen at 1. destruct (existsb _ _); [by apply IH|]. apply gives_then; [solve_asks|intros desired].
  apply (gives_bind _ _ [_] _ (sees p)); [by apply push_address_gives|]. intros r (E1 & E2 & E3 & E4).
  assert (gives (plan_report_addresses (B := B) (O := view_ops) r.1 name field reported base r.2) (report_asks (pl_observed p) name reported) (sees r.1)) as H.
  { rewrite <- E3. apply IH. unfold unhindered in *. by rewrite E1. }
  intros v x v' E. destruct (H v x v' E) as [H1 H2]. split; [done|]. eapply sight_trans; [|exact H2]. done.
Qed.

Lemma client_gives p interface index kind base out :
  gives (plan_client (B := B) (O := view_ops) p interface index kind base out) [] (sees p).
Proof.
  unfold plan_client, addressing_field. apply gives_then; [solve_asks|intros field].
  apply gives_then; [eapply asks_mono; [apply plan_backend_asks|apply backend_silent]|intros out']. by apply gives_ret.
Qed.

Lemma plan_source_gives p interface index s base out :
  unhindered p -> gives (plan_source (B := B) (O := view_ops) p interface index s base out) (source_asks (pl_observed p) interface s) (sees p).
Proof.
  intros Hu. unfold plan_source, source_asks. cbn zeta. cbn [existsb]. rewrite !orb_false_r.
  do 3 (destruct (source_kind s =? _); [apply client_gives|]; cbn [orb]). destruct (source_kind s =? _).
  { unfold plan_reported, addressing_field. apply gives_then; [solve_asks|intros field]. destruct (report_for _ _) as [r|].
    - destruct (get observed_report_type "addresses" r : list text) eqn:E; [|by apply report_addresses_gives].
      apply gives_then; [solve_asks|intros _]. by apply gives_ret.
    - apply gives_then; [solve_asks|intros _]. by apply gives_ret. }
  destruct (delegated_of s) as [d|].
  - unfold plan_delegated, addressing_field. cbn zeta. destruct (delegated_address _ d).
    + apply gives_then; [solve_asks|intros _]. by apply gives_ret.
    + unfold is_seen. destruct (existsb _ _); [by apply gives_ret|]. change (cs (Some l)) with (Some (String.string_of_list_byte l)).
      apply (gives_first _ _ _ (fun x => x = Some (String.string_of_list_byte l))); [intros v x v' [= <- <-]; by rewrite app_nil_r|]. intros x ->.
      apply gives_then; [unfold addressing_field; solve_asks|intros field]. apply gives_then; [solve_asks|intros desired]. by apply push_address_gives.
  - destruct (static_of s) as [st|]; [|by apply gives_ret]. unfold plan_static, addressing_field. cbn zeta.
    destruct (get static_type "address" st : text); [|by apply gives_ret]. unfold is_spelled. destruct (existsb _ _); [by apply gives_ret|].
    apply gives_then; [solve_asks|intros field]. by apply push_address_gives.
Qed.

(** A pass known to ask for [l] from a planner that sees the same. *)
Lemma gives_seen {A} p p' (m : Heap.State (view B) A) l l' (f : A -> planner) :
  same_sight p p' -> l = l' -> gives m l (fun r => same_sight p' (f r)) -> gives m l' (fun r => same_sight p (f r)).
Proof. intros Hs <- H v x v' E. destruct (H _ _ _ E) as [H1 H2]. split; [done|]. by eapply sight_trans. Qed.

Lemma unhindered_same p p' : same_sight p p' -> unhindered p -> unhindered p'.
Proof. intros (E & _). unfold unhindered. by rewrite E. Qed.

Lemma plan_sources_gives interface l base : forall p index out, unhindered p ->
  gives (plan_sources (B := B) (O := view_ops) p interface index l base out) (l ≫= source_asks (pl_observed p) interface) (sees p).
Proof.
  induction l as [|s l IH]; intros p index out Hu; cbn [plan_sources]; [by apply gives_ret|].
  apply (gives_bind _ _ (source_asks (pl_observed p) interface s) _ (sees p)); [by apply plan_source_gives|]. intros r Hr.
  eapply (gives_seen p r.1 _ _ _ fst); [done| |apply IH; by eapply unhindered_same]. by destruct Hr as (_ & _ & -> & _).
Qed.

#[local] Hint Extern 1 (silent _) => reflexivity : core.
#[local] Hint Extern 2 (asks silent _) => eapply asks_mono; [solve [eauto with asks nocore]|apply backend_silent] : asks.

(** An interface that is enabled, on which no cycle was asked for, is not taken
    down. *)
Definition steady_interface (p : planner) (interface : iface) : Prop :=
  get interface_type "enabled" interface = true /\ plan_names (pl_cycle p) (iface_name interface) = false.

Lemma hook_silent n ph path told : silent (HOOK_RUN n ph path told : op B).
Proof. done. Qed.

Lemma contents_link_gives p interface base :
  steady_interface p interface -> gives (contents_link (B := B) (O := view_ops) p interface base) [] (fun r => same_sight p r.1.1).
Proof.
  intros [He Hc]. apply gives_silent.
  - unfold contents_link, interface_hooks, builder_mark. cbn zeta. rewrite He, Hc, andb_false_r. cbn [negb andb orb]. pose proof (plan_hooks_asks (B := B) silent hook_silent). solve_asks.
  - unfold contents_link. solve_returns.
Qed.

Lemma plan_access_point_gives p interface base out :
  gives (plan_access_point (B := B) (O := view_ops) p interface base out) [] (sees p).
Proof. apply gives_silent; [solve_asks|unfold plan_access_point; solve_returns]. Qed.

Definition interface_asks (p : planner) (interface : iface) : list (op B) :=
  if link_is_plannable p (get interface_type "name" interface) then addressing interface ≫= source_asks (pl_observed p) interface else [].

Lemma contents_routes_gives p interface : unhindered p -> steady_interface p interface ->
  gives (contents_routes (B := B) (O := view_ops) p interface) (interface_asks p interface) (fun r => same_sight p r.1).
Proof.
  intros Hu Hi. unfold contents_routes, interface_asks. cbn zeta. destruct (link_is_plannable _ _); cbn [negb]; [|by apply gives_ret].
  apply gives_then; [solve_asks|intros base]. apply gives_then; [apply wait_for_members_asks|intros base'].
  apply (gives_first _ _ _ (fun r => same_sight p r.1.1)); [by apply contents_link_gives|]. intros [[p1 base1] up] H1. cbn [fst] in H1.
  apply gives_then; [solve_asks|intros authentication].
  apply (gives_first _ _ _ (sees p1)); [apply plan_access_point_gives|]. intros [p2 serving] H2. cbn [fst] in H2.
  pose proof (sight_trans _ _ _ H1 H2) as H3. do 5 (apply gives_then; [solve_asks|intros ?]). rewrite <- (app_nil_r (addressing interface ≫= source_asks (pl_observed p) interface)).
  apply (gives_bind _ _ _ [] (sees p)).
  { eapply (gives_seen p p2 _ _ _ fst); [done| |apply plan_sources_gives; by eapply unhindered_same]. by destruct H3 as (_ & _ & -> & _). }
  intros [p3 l3] H4. cbn [fst] in H4. apply gives_then; [solve_asks|intros _].
  apply gives_then; [intros v l v' E; rewrite routes_for_view in E; injection E as _ <-; apply extends_refl|intros l].
  apply gives_then; [|intros _; by apply gives_ret].
  induction l as [|r l IH]; cbn [plan_routes]; [solve_asks|]. apply asks_bind; [|intros _; exact IH].
  unfold plan_route, standby_warn. assert (forall i via added deps, asks silent (wait_for_added (B := B) (O := view_ops) i via added deps)) as Hw.
  { intros i via added. induction added as [|a added IHa]; intros deps; cbn [wait_for_added]; solve_asks. }
  solve_asks.
Qed.

Lemma walk_gives files l : forall p, unhindered p -> (forall i, i ∈ l -> steady_interface p i) ->
  gives (walk_interfaces (B := B) (O := view_ops) files p l) (l ≫= interface_asks p) (same_sight p).
Proof.
  induction l as [|i l IH]; intros p Hu Hl; cbn [walk_interfaces]; [by apply gives_ret|].
  apply (gives_bind _ _ (interface_asks p i) _ (same_sight p)).
  - unfold interface_contents. rewrite <- (app_nil_r (interface_asks p i)).
    apply (gives_bind _ _ _ [] (fun r => same_sight p r.1)); [apply contents_routes_gives; [done|apply Hl; by left]|].
    intros [p1 reached] H1. cbn [fst] in H1. destruct reached as [[[base addressed] up]|]; [|by apply gives_ret].
    apply gives_then; [apply plan_advertise_asks; [apply backend_silent|done]|intros _].
    apply gives_then; [apply plan_dhcp_server_asks, backend_silent|intros _].
    apply gives_then; [apply contents_hooks_asks, hook_silent|intros _]. by apply gives_ret.
  - intros p1 H1. eapply (gives_seen p p1 _ _ _ (fun r => r)); [done| |apply IH].
    + destruct H1 as (E1 & E2 & E3 & E4). unfold interface_asks, link_is_plannable. by rewrite E1, E2, E3.
    + by eapply unhindered_same.
    + intros j Hj. destruct (Hl j) as [He Hc]; [by right|]. split; [done|]. destruct H1 as (_ & _ & _ & ->). done.
Qed.

(** The addresses the teardown takes away. *)
Definition teardown_asks (p : planner) : list (op B) :=
  map (fun seen => ADDR_DEL (oa_interface seen) (cs (oa_address seen))) (List.filter (address_goes p) (addresses (pl_observed p))).

Lemma filter_silent (l : list (op B)) : (forall o, o ∈ l -> silent o) -> List.filter is_address l = [].
Proof. induction l as [|o l IH]; intros H; [done|]. cbn. rewrite (H o) by left. apply IH. intros o' Ho. apply H. by right. Qed.

Lemma filter_address (l : list (op B)) : (forall o, o ∈ l -> is_address o = true) -> List.filter is_address l = l.
Proof. induction l as [|o l IH]; intros H; [done|]. cbn. rewrite (H o) by left. f_equal. apply IH. intros o' Ho. apply H. by right. Qed.

Lemma filter_admitted b (calls : list (@push_call B)) : (forall o : op B, is_address o = true -> lets_through b o) ->
  List.filter is_address (map pc_op (List.filter (admitted b) calls)) = List.filter is_address (map pc_op calls).
Proof.
  intros Hu. induction calls as [|c calls IH]; [done|]. cbn. destruct (admitted b c) eqn:E; cbn; [by rewrite IH|].
  destruct (is_address (pc_op c)) eqn:Ec; [|done]. by rewrite (proj2 (admitted_exact b c) (Hu _ Ec)) in E.
Qed.

Lemma plan_teardown_gives p : unhindered p -> gives (plan_teardown (B := B) (O := view_ops) p) (teardown_asks p) (fun _ => True).
Proof.
  intros Hu v [] v' E. split; [|done]. rewrite plan_teardown_view in E. destruct (run_pushes_ops _ _ _ _ E) as (l & El & Hl).
  unfold address_ops. rewrite El, map_app, List.filter_app, Hl, filter_admitted by done. f_equal. unfold teardown_calls, teardown_asks.
  rewrite !map_app, !map_map, !List.filter_app. rewrite (filter_silent (map _ (List.filter (route_goes p) _))) by
    (intros o (seen & -> & _)%list_elem_of_fmap; done).
  rewrite (filter_address (map _ (List.filter (address_goes p) _))) by (intros o (seen & -> & _)%list_elem_of_fmap; done).
  rewrite (filter_silent (map pc_op (omap _ _))).
  2:{ intros o (c & -> & (b & _ & Hc)%list_elem_of_omap)%list_elem_of_fmap. unfold backend_call in Hc. destruct (backend_of_number _); [|done]. by injection Hc as <-. }
  rewrite (filter_silent (map _ (List.filter (link_goes p) _))) by (intros o (seen & -> & _)%list_elem_of_fmap; done).
  by rewrite !app_nil_r.
Qed.

End Source.

(** ** Carrying it out *)

Section Converge.
Context {I : Inet} {L : InetLaws I} {B : Type} (tag : option Z).

Abbreviation iface := (value interface_type).
Abbreviation held := (value observed_address_type).

(** The kernel gives an address back in its canonical spelling. *)
Definition spelled (a : list byte) : list byte := default a (address_canonical (Some a) ADDRESS_MAX).

(** An address netcfgd added, as it is observed afterwards. *)
Definition added_as (i a : cstr) : held := (bytes <$> i, ((fun s => spelled (bytes s)) <$> a, (tag, (NCFG_OWNERSHIP_OURS, (Some NCFG_ORIGIN_STATIC, tt))))).

Definition same_key (i a : cstr) (x : held) : bool := text_equal (oa_interface x) i && text_equal (cs (oa_address x)) a.

Definition carry_out (l : list held) (o : op B) : list held :=
  match o with
  | ADDR_ADD i a _ _ => l ++ [added_as i a]
  | ADDR_DEL i a => List.filter (fun x => negb (same_key i a x)) l
  | _ => l
  end.

Definition with_addresses (l : list held) (o : value observed_type) : value observed_type := update observed_type "addresses" (fun _ => l) o.

Definition with_observed o (p : planner) := Planner (pl_builder p) (pl_desired p) o (pl_enslavements p) (pl_link_up p) (pl_added p) (pl_stopped_early p) (pl_unfiltered p) (pl_standby p) (pl_cycle p).

(** The addresses a source stands for, and whether it asks for their very
    spelling. *)
Definition source_wants (o : value observed_type) (interface : iface) (s : union address_source_arm) : list (bool * list byte) :=
  if existsb (Z.eqb (source_kind s)) [NCFG_ADDRESS_SOURCE_DHCP4; NCFG_ADDRESS_SOURCE_DHCP6; NCFG_ADDRESS_SOURCE_LINK_LOCAL] then []
  else if source_kind s =? NCFG_ADDRESS_SOURCE_REPORTED then
    match report_for o (iface_name interface) with
    | Some r => omap (fun t : text => (fun a => (false, a)) <$> t) (get observed_report_type "addresses" r : list text)
    | None => []
    end
  else
    match delegated_of s, static_of s with
    | Some d, _ => match delegated_address o d with inr a => [(false, a)] | inl _ => [] end
    | None, Some st => match (get static_type "address" st : text) with Some a => [(true, a)] | None => [] end
    | None, None => []
    end.

(** An address the kernel holds that is what a source stands for. *)
Definition meets (name : cstr) (w : bool * list byte) (x : held) : bool :=
  text_equal (oa_interface x) name &&
  if w.1 then text_equal (cs (oa_address x)) (cs (Some w.2)) else plan_address_equal (oa_address x) (Some w.2).

Lemma string_of_bytes s : String.string_of_list_byte (bytes s) = s.
Proof. apply String.string_of_list_byte_of_string. Qed.

Lemma cs_inj (t u : text) : cs t = cs u -> t = u.
Proof.
  destruct t as [t|], u as [u|]; try done. cbn. intros [= H]. apply (f_equal bytes) in H. rewrite !bytes_of_string in H. by subst.
Qed.

Lemma text_equal_true t u : text_equal t u = true <-> t = u.
Proof. destruct t, u; cbn; rewrite ?String.eqb_eq; naive_solver. Qed.

Lemma named_text t s : named t (Some s) = text_equal t (Some s).
Proof. by destruct t. Qed.

Lemma address_equal_sym t u : plan_address_equal t u = plan_address_equal u t.
Proof.
  destruct t, u; try done. unfold plan_address_equal. destruct (address_canonical _ _), (address_canonical _ _); by apply bool_decide_ext.
Qed.

Lemma spelled_equal a : plan_address_equal (Some (spelled a)) (Some a) = true.
Proof.
  unfold spelled. destruct (address_canonical (Some a) ADDRESS_MAX) as [c|] eqn:E; cbn [default].
  - rewrite address_equal_sym. by eapply canonical_equal.
  - unfold plan_address_equal. rewrite E. by apply bool_decide_true.
Qed.

Lemma added_meets n w : (w.1 = true -> spelled w.2 = w.2) -> meets (Some n) w (added_as (Some n) (cs (Some w.2))) = true.
Proof.
  intros H. unfold meets, oa_interface, oa_address. cbn [added_as get]. cbn -[plan_address_equal spelled bytes text_equal].
  rewrite string_of_bytes, bytes_of_string, text_equal_refl. cbn [andb]. destruct w as [[] a]; cbn [fst snd] in *.
  - rewrite H by done. apply text_equal_refl.
  - apply spelled_equal.
Qed.

Lemma meets_holds o n interface s w x :
  iface_name interface = Some n -> w ∈ source_wants o interface s -> meets (Some n) w x = true -> source_holds o x s = true.
Proof.
  intros Hn Hw Hx. unfold meets in Hx. apply andb_true_iff in Hx as [Hi%text_equal_true Ha]. unfold source_wants in Hw. unfold source_holds.
  destruct (existsb _ _); [by apply not_elem_of_nil in Hw|]. destruct (source_kind s =? NCFG_ADDRESS_SOURCE_REPORTED).
  { rewrite Hn in Hw. unfold reported_holds. rewrite Hi. destruct (report_for o (Some n)) as [r|]; [|by apply not_elem_of_nil in Hw].
    apply list_elem_of_omap in Hw as ([a|] & Hin & [= <-]). cbn [fst snd] in Ha. rewrite orb_true_iff. right. cbn [andb].
    apply existsb_exists. exists (Some a). split; [by apply list_elem_of_In|]. by rewrite address_equal_sym. }
  destruct (delegated_of s) as [d|].
  - destruct (delegated_address o d) as [|a]; [by apply not_elem_of_nil in Hw|]. apply list_elem_of_singleton in Hw as ->. cbn [fst snd] in Ha.
    rewrite address_equal_sym, Ha. by rewrite orb_true_r.
  - destruct (static_of s) as [st|]; [|by apply not_elem_of_nil in Hw].
    destruct (get static_type "address" st : text) as [a|]; [|by apply not_elem_of_nil in Hw]. apply list_elem_of_singleton in Hw as ->.
    cbn [fst snd] in Ha. apply text_equal_true in Ha. rewrite Ha, text_equal_refl. done.
Qed.

(** Every address a source stands for is met, or asked for. *)
Lemma is_seen_meets o n a : is_seen o (Some n) a = existsb (meets (Some n) (false, a)) (addresses o).
Proof. unfold is_seen, meets. cbn [fst snd]. induction (addresses o) as [|x l IH]; [done|]. cbn [existsb]. by rewrite IH, named_text. Qed.

Lemma source_asks_exact o n interface s :
  iface_name interface = Some n ->
  (forall w, w ∈ source_wants o interface s -> existsb (meets (Some n) w) (addresses o) = false ->
    exists l1 l2, ADDR_ADD (Some n) (cs (Some w.2)) l1 l2 ∈ source_asks (B := B) o interface s) /\
  (forall x, x ∈ source_asks (B := B) o interface s ->
    exists w l1 l2, w ∈ source_wants o interface s /\ existsb (meets (Some n) w) (addresses o) = false /\ x = ADDR_ADD (Some n) (cs (Some w.2)) l1 l2).
Proof.
  intros Hn. unfold source_asks, source_wants. cbn zeta. rewrite Hn.
  destruct (existsb _ _); [split; intros ? []%not_elem_of_nil|]. destruct (source_kind s =? NCFG_ADDRESS_SOURCE_REPORTED).
  { destruct (report_for o (Some n)) as [r|]; [|split; intros ? []%not_elem_of_nil]. unfold report_asks. split.
    - intros w ([a|] & Hin & [= <-])%list_elem_of_omap Hs. rewrite <- is_seen_meets in Hs. exists None, None. apply list_elem_of_omap.
      exists (Some a). split; [done|]. cbn [snd]. by rewrite Hs.
    - intros x ([a|] & Hin & Hx)%list_elem_of_omap; [|done]. destruct (is_seen o (Some n) a) eqn:Hs; [done|]. injection Hx as <-.
      exists (false, a), None, None. rewrite is_seen_meets in Hs. split; [|done]. apply list_elem_of_omap. by exists (Some a). }
  destruct (delegated_of s) as [d|].
  - destruct (delegated_address o d) as [|a]; [split; intros ? []%not_elem_of_nil|]. rewrite is_seen_meets. split.
    + intros w ->%list_elem_of_singleton ->. exists None, None. by apply list_elem_of_singleton.
    + destruct (existsb _ _) eqn:Hs; [intros ? []%not_elem_of_nil|]. intros x ->%list_elem_of_singleton. exists (false, a), None, None.
      split; [by apply list_elem_of_singleton|done].
  - destruct (static_of s) as [st|]; [|split; intros ? []%not_elem_of_nil].
    destruct (get static_type "address" st : text) as [a|]; [|split; intros ? []%not_elem_of_nil].
    change (is_spelled o (Some n) a) with (existsb (meets (Some n) (true, a)) (addresses o)). split.
    + intros w ->%list_elem_of_singleton ->. eexists _, _. by apply list_elem_of_singleton.
    + destruct (existsb _ _) eqn:Hs; [intros ? []%not_elem_of_nil|]. intros x ->%list_elem_of_singleton. eexists (true, a), _, _.
      split; [by apply list_elem_of_singleton|done].
Qed.

(** ** The document and the kernel agree *)

(** Interfaces are named, and by names of their own; static addresses are
    written in their canonical spelling. *)
Record well_addressed (d : value document_type) : Prop := {
  wa_named : forall i, i ∈ interfaces_of d -> exists n, iface_name i = Some n;
  wa_distinct : NoDup (map iface_name (interfaces_of d));
  wa_spelled : forall i s st a, i ∈ interfaces_of d -> s ∈ addressing i -> static_of s = Some st -> (get static_type "address" st : text) = Some a -> spelled a = a }.

Lemma wants_spelled d o i s w : well_addressed d -> i ∈ interfaces_of d -> s ∈ addressing i -> w ∈ source_wants o i s -> w.1 = true -> spelled w.2 = w.2.
Proof.
  intros Hd Hi Hs Hw Ht. unfold source_wants in Hw. destruct (existsb _ _); [by apply not_elem_of_nil in Hw|].
  destruct (source_kind s =? _).
  { destruct (report_for _ _); [|by apply not_elem_of_nil in Hw]. by apply list_elem_of_omap in Hw as ([a|] & _ & [= <-]). }
  destruct (delegated_of s) as [dl|].
  { destruct (delegated_address o dl); [by apply not_elem_of_nil in Hw|]. by apply list_elem_of_singleton in Hw as ->. }
  destruct (static_of s) as [st|] eqn:Est; [|by apply not_elem_of_nil in Hw].
  destruct (get static_type "address" st : text) as [a|] eqn:Ea; [|by apply not_elem_of_nil in Hw]. apply list_elem_of_singleton in Hw as ->.
  by eapply wa_spelled.
Qed.

Lemma interface_found d i : well_addressed d -> i ∈ interfaces_of d -> forall name, cs name = iface_name i -> plan_interface d name = Some i.
Proof.
  intros Hd Hi name Hname. destruct (wa_named d Hd i Hi) as [n Hn]. unfold plan_interface. rewrite Hname, Hn.
  pose proof (wa_distinct d Hd) as Hnd. unfold interfaces_of in *. revert Hi Hnd. induction (get document_type "interfaces" d : list iface) as [|j l IH]; [by intros ?%not_elem_of_nil|].
  intros [->|Hi]%elem_of_cons [Hj Hnd]%NoDup_cons; cbn [List.find]; rewrite named_text.
  - by rewrite Hn, text_equal_refl.
  - destruct (text_equal (iface_name j) (Some n)) eqn:E; [|by apply IH]. apply text_equal_true in E. destruct Hj. rewrite E, <- Hn.
    by apply (list_elem_of_fmap_2 iface_name).
Qed.

(** What a source stands for is wanted, wherever it is seen. *)
Lemma met_is_wanted d o i s w x n :
  well_addressed d -> i ∈ interfaces_of d -> s ∈ addressing i -> w ∈ source_wants o i s -> iface_name i = Some n -> meets (Some n) w x = true ->
  address_wanted d o x = true.
Proof.
  intros Hd Hi Hs Hw Hn Hm. unfold address_wanted. rewrite (interface_found d i Hd Hi).
  - apply existsb_exists. exists s. split; [by apply list_elem_of_In|]. by eapply meets_holds.
  - unfold meets in Hm. apply andb_true_iff in Hm as [Hm%text_equal_true _]. by rewrite Hn.
Qed.

(** Whether an address is met or wanted depends on its key alone. *)
Lemma same_key_meets name w x y : same_key (oa_interface y) (cs (oa_address y)) x = true -> meets name w x = meets name w y.
Proof.
  unfold same_key, meets. intros [Hi%text_equal_true Ha%text_equal_true]%andb_true_iff. rewrite Hi. by rewrite (cs_inj _ _ Ha).
Qed.

Definition wanted_pair (p : planner) (i : iface) (w : bool * list byte) : Prop :=
  i ∈ interfaces_of (pl_desired p) /\ link_is_plannable p (get interface_type "name" i) = true /\ exists s, s ∈ addressing i /\ w ∈ source_wants (pl_observed p) i s.

Definition plan_asks (p : planner) : list (op B) := (interfaces_of (pl_desired p) ≫= interface_asks p) ++ teardown_asks p.

Definition carried_out (p : planner) : list held := foldl carry_out (addresses (pl_observed p)) (plan_asks p).

Lemma interface_asks_elem p x :
  x ∈ interfaces_of (pl_desired p) ≫= interface_asks (B := B) p <->
  exists i s, i ∈ interfaces_of (pl_desired p) /\ link_is_plannable p (get interface_type "name" i) = true /\ s ∈ addressing i /\
    x ∈ source_asks (pl_observed p) i s.
Proof.
  rewrite list_elem_of_bind. split.
  - intros (i & Hx & Hi). unfold interface_asks in Hx. destruct (link_is_plannable _ _) eqn:E; [|by apply not_elem_of_nil in Hx].
    apply list_elem_of_bind in Hx as (s & Hx & Hs). by exists i, s.
  - intros (i & s & Hi & E & Hs & Hx). exists i. split; [|done]. unfold interface_asks. rewrite E. apply list_elem_of_bind. by exists s.
Qed.

(** What the additions leave, and what the deletions leave of it. *)
Lemma foldl_adds l : forall (ops : list (op B)), (forall o, o ∈ ops -> exists i a l1 l2, o = ADDR_ADD i a l1 l2) ->
  forall x, x ∈ foldl carry_out l ops <-> x ∈ l \/ exists i a l1 l2, ADDR_ADD i a l1 l2 ∈ ops /\ x = added_as i a.
Proof.
  intros ops. revert l. induction ops as [|o ops IH]; intros l H x; cbn [foldl].
  - split; [by left|]. intros [|(i & a & l1 & l2 & []%not_elem_of_nil & _)]; done.
  - destruct (H o) as (i & a & l1 & l2 & ->); [by left|]. rewrite IH by (intros o Ho; apply H; by right). cbn [carry_out].
    rewrite elem_of_app, list_elem_of_singleton. split.
    + intros [[?| ->]|(i' & a' & m1 & m2 & Hin & ->)]; [by left|right; exists i, a, l1, l2; split; [by left|done]|right; exists i', a', m1, m2; split; [by right|done]].
    + intros [?|(i' & a' & m1 & m2 & [[= -> -> -> ->]|Hin]%elem_of_cons & ->)]; [by left; left|by left; right|right; by eexists _, _, _, _].
Qed.

Lemma foldl_dels l : forall (gone : list held) x,
  x ∈ foldl carry_out l (map (fun y => ADDR_DEL (oa_interface y) (cs (oa_address y)) : op B) gone) <->
  x ∈ l /\ forall y, y ∈ gone -> same_key (oa_interface y) (cs (oa_address y)) x = false.
Proof.
  intros gone. revert l. induction gone as [|y gone IH]; intros l x; cbn [map foldl].
  - split; [intros H; split; [done|by intros y ?%not_elem_of_nil]|by intros [? _]].
  - rewrite IH. cbn [carry_out]. rewrite elem_of_filter_true, negb_true_iff. split.
    + intros [[Hx Hy] Hg]. split; [done|]. intros z [->|Hz]%elem_of_cons; auto.
    + intros [Hx Hg]. split; [split; [done|apply Hg; by left]|]. intros z Hz. apply Hg. by right.
Qed.

Lemma carried_out_elem p x :
  x ∈ carried_out p <->
  (x ∈ addresses (pl_observed p) \/ exists i a l1 l2, ADDR_ADD i a l1 l2 ∈ interfaces_of (pl_desired p) ≫= interface_asks (B := B) p /\ x = added_as i a) /\
  forall y, y ∈ addresses (pl_observed p) -> address_goes p y = true -> same_key (oa_interface y) (cs (oa_address y)) x = false.
Proof.
  unfold carried_out, plan_asks, teardown_asks. rewrite foldl_app, foldl_dels, foldl_adds.
  - apply and_iff_compat_l. split; [intros H y Hy Hg; apply H, elem_of_filter_true; done|intros H y [Hy Hg]%elem_of_filter_true; by apply H].
  - intros o (i & s & Hi & _ & Hs & Hx)%interface_asks_elem. clear Hs. unfold source_asks in Hx. cbn zeta in Hx.
    destruct (existsb _ _); [by apply not_elem_of_nil in Hx|]. destruct (source_kind s =? _).
    { destruct (report_for _ _); [|by apply not_elem_of_nil in Hx]. apply list_elem_of_omap in Hx as ([a|] & _ & E); [|done]. destruct (is_seen _ _ _); [done|].
      injection E as <-. by eexists _, _, _, _. }
    destruct (delegated_of s); [destruct (delegated_address _ _); [by apply not_elem_of_nil in Hx|]; destruct (is_seen _ _ _); [by apply not_elem_of_nil in Hx|];
      apply list_elem_of_singleton in Hx as ->; by eexists _, _, _, _|].
    destruct (static_of s); [|by apply not_elem_of_nil in Hx]. destruct (get static_type "address" _ : text); [|by apply not_elem_of_nil in Hx].
    destruct (is_spelled _ _ _); [by apply not_elem_of_nil in Hx|]. apply list_elem_of_singleton in Hx as ->. by eexists _, _, _, _.
Qed.

(** Nothing else of the observation changed. *)
Lemma addresses_changed l o : addresses (with_addresses l o) = l.
Proof. reflexivity. Qed.

Lemma reports_same l o : get observed_type "reports" (with_addresses l o) = get observed_type "reports" o.
Proof. reflexivity. Qed.

Lemma delegations_same l o : get observed_type "delegations" (with_addresses l o) = get observed_type "delegations" o.
Proof. reflexivity. Qed.

Lemma links_same l o : get observed_type "links" (with_addresses l o) = get observed_type "links" o.
Proof. reflexivity. Qed.

Lemma report_for_same l o name : report_for (with_addresses l o) name = report_for o name.
Proof. unfold report_for. by rewrite reports_same. Qed.

Lemma delegated_address_same l o d : delegated_address (with_addresses l o) d = delegated_address o d.
Proof. unfold delegated_address, observed_delegation. by rewrite delegations_same. Qed.

Lemma source_wants_same l o i s : source_wants (with_addresses l o) i s = source_wants o i s.
Proof. unfold source_wants. rewrite report_for_same. destruct (delegated_of s); [by rewrite delegated_address_same|done]. Qed.

Lemma address_wanted_same l o d x : address_wanted d (with_addresses l o) x = address_wanted d o x.
Proof.
  unfold address_wanted. destruct (plan_interface _ _) as [i|]; [|done]. induction (addressing i) as [|s ss IH]; [done|]. cbn [existsb]. rewrite IH. f_equal.
Qed.

Lemma plannable_same l p name : link_is_plannable (with_observed (with_addresses l (pl_observed p)) p) name = link_is_plannable p name.
Proof. unfold link_is_plannable, observed_link. cbn [with_observed pl_observed pl_desired pl_builder]. by rewrite links_same. Qed.

(** Afterwards everything the document asks for is held. *)
Lemma wanted_is_held p i w n :
  well_addressed (pl_desired p) -> wanted_pair p i w -> iface_name i = Some n -> exists x, x ∈ carried_out p /\ meets (Some n) w x = true.
Proof.
  intros Hd (Hi & Hp & s & Hs & Hw) Hn.
  assert (forall x, meets (Some n) w x = true ->
    (x ∈ addresses (pl_observed p) \/ exists i a l1 l2, ADDR_ADD i a l1 l2 ∈ interfaces_of (pl_desired p) ≫= interface_asks (B := B) p /\ x = added_as i a) ->
    x ∈ carried_out p) as Hstay.
  { intros x Hm Hx. apply carried_out_elem. split; [done|]. intros y Hy Hg. destruct (same_key _ _ x) eqn:E; [|done].
    rewrite (same_key_meets _ _ _ _ E) in Hm. unfold address_goes in Hg. rewrite (met_is_wanted _ _ _ _ _ _ _ Hd Hi Hs Hw Hn Hm) in Hg.
    by rewrite andb_false_r in Hg. }
  destruct (existsb (meets (Some n) w) (addresses (pl_observed p))) eqn:E.
  - apply existsb_exists in E as (x & Hx%list_elem_of_In & Hm). exists x. split; [apply Hstay; [done|by left]|done].
  - destruct (source_asks_exact (pl_observed p) n i s Hn) as [Ha _]. destruct (Ha w Hw E) as (l1 & l2 & Hin).
    assert (meets (Some n) w (added_as (Some n) (cs (Some w.2))) = true) as Hm by (apply added_meets; by eapply wants_spelled).
    exists (added_as (Some n) (cs (Some w.2))). split; [|done]. apply Hstay; [done|]. right. eexists _, _, l1, l2. split; [|done].
    apply interface_asks_elem. by exists i, s.
Qed.

Definition after (p : planner) : planner := with_observed (with_addresses (carried_out p) (pl_observed p)) p.

Lemma asks_nothing_more p : well_addressed (pl_desired p) -> interfaces_of (pl_desired (after p)) ≫= interface_asks (B := B) (after p) = [].
Proof.
  intros Hd. destruct (interfaces_of (pl_desired (after p)) ≫= interface_asks (B := B) (after p)) as [|x rest] eqn:E; [done|].
  assert (x ∈ interfaces_of (pl_desired (after p)) ≫= interface_asks (B := B) (after p)) as Hx by (rewrite E; by left). clear E.
  apply interface_asks_elem in Hx as (i & s & Hi & Hp & Hs & Hx). cbn [after with_observed pl_desired pl_observed] in Hi, Hx.
  unfold after in Hp. rewrite plannable_same in Hp. destruct (wa_named _ Hd i Hi) as [n Hn].
  destruct (source_asks_exact (with_addresses (carried_out p) (pl_observed p)) n i s Hn) as [_ Ha].
  destruct (Ha _ Hx) as (w & l1 & l2 & Hw & He & _). rewrite source_wants_same in Hw. rewrite addresses_changed in He.
  destruct (wanted_is_held p i w n Hd) as (y & Hy & Hm); [by repeat split; try done; exists s|done|].
  rewrite forallb_not in He. by rewrite (He y Hy) in Hm.
Qed.

Lemma takes_nothing_more p : well_addressed (pl_desired p) -> teardown_asks (B := B) (after p) = [].
Proof.
  intros Hd. unfold teardown_asks. destruct (List.filter (address_goes (after p)) (addresses (pl_observed (after p)))) as [|x rest] eqn:E; [done|].
  assert (x ∈ List.filter (address_goes (after p)) (addresses (pl_observed (after p)))) as Hx by (rewrite E; by left). clear E.
  apply elem_of_filter_true in Hx as [Hx Hg]. unfold after, address_goes in Hg. cbn [with_observed pl_desired pl_observed] in Hg.
  rewrite address_wanted_same in Hg. fold (address_goes p x) in Hg. cbn [after with_observed pl_observed] in Hx. rewrite addresses_changed in Hx.
  apply carried_out_elem in Hx as [[Hx|(i & a & l1 & l2 & Hx & ->)] Hk].
  - apply (Hk x) in Hx; [|done]. unfold same_key in Hx. by rewrite !text_equal_refl in Hx.
  - apply interface_asks_elem in Hx as (j & s & Hj & _ & Hs & Hx). destruct (wa_named _ Hd j Hj) as [n Hn].
    destruct (source_asks_exact (pl_observed p) n j s Hn) as [_ Ha]. destruct (Ha _ Hx) as (w & m1 & m2 & Hw & _ & [= -> -> -> ->]).
    unfold address_goes in Hg. rewrite (met_is_wanted _ _ _ _ _ _ _ Hd Hj Hs Hw Hn) in Hg; [by rewrite andb_false_r in Hg|].
    apply added_meets. by eapply wants_spelled.
Qed.

(** The walk, then the teardown. *)
Definition addressing_plan {M} {O : PlanOps B M} (files : disk) (p : planner) : M unit :=
  p ← walk_interfaces files p (interfaces_of (pl_desired p));
  plan_teardown p.

Lemma addressing_plan_refines grant files p :
  refines (addressing_plan (O := heap_ops grant) files p) (addressing_plan (O := view_ops) files p).
Proof. apply refines_bind; [apply walk_refines|intros; apply plan_teardown_refines]. Qed.

Lemma addressing_plan_gives files p : unhindered (B := B) p ->
  (forall i, i ∈ interfaces_of (pl_desired p) -> steady_interface p i) ->
  gives (addressing_plan (O := view_ops) files p) (plan_asks p) (fun _ => True).
Proof.
  intros Hu Hi. apply (gives_bind _ _ _ _ (same_sight p)); [by apply walk_gives|]. intros p1 H1 v x v' E.
  destruct (plan_teardown_gives p1 (unhindered_same _ _ H1 Hu) v x v' E) as [Ha _]. split; [|done]. rewrite Ha. f_equal.
  destruct H1 as (_ & E2 & E3 & _). unfold teardown_asks, address_goes. by rewrite E2, E3.
Qed.

End Converge.


(** ** A machine to try it on *)

(** The conditions on a document, as they are run. *)
Definition checks_out (d : value document_type) : bool :=
  forallb (fun i => bool_decide (is_Some (iface_name i))) (interfaces_of d) &&
  bool_decide (NoDup (map iface_name (interfaces_of d))) &&
  forallb (fun i => forallb (fun s =>
    match static_of s with
    | Some st => match (get static_type "address" st : text) with Some a => bool_decide (spelled a = a) | None => true end
    | None => true
    end) (addressing i)) (interfaces_of d).

Lemma checks_out_ok d : checks_out d = true -> well_addressed d.
Proof.
  unfold checks_out. rewrite !andb_true_iff, !forallb_forall, bool_decide_eq_true. intros [[H1 H2] H3]. split.
  - intros i Hi%list_elem_of_In%H1%bool_decide_eq_true. exact Hi.
  - done.
  - intros i s st a Hi%list_elem_of_In%H3 Hs Est Ea. rewrite forallb_forall in Hi. apply list_elem_of_In, Hi in Hs.
    rewrite Est, Ea in Hs. by apply bool_decide_eq_true in Hs.
Qed.

Definition all_enabled (d : value document_type) : bool := forallb (fun i => get interface_type "enabled" i) (interfaces_of d).

Lemma all_enabled_ok d o : all_enabled d = true -> forall i, i ∈ interfaces_of d -> steady_interface (planner_for d o) i.
Proof.
  unfold all_enabled. rewrite forallb_forall. intros H i Hi%list_elem_of_In%H. split; [done|]. unfold plan_names. cbn [planner_for pl_cycle existsb]. by destruct (iface_name i).
Qed.

Lemma plain_unhindered d o : unhindered (B := unit) (planner_for d o).
Proof.
  intros x Hx. split; [|split].
  - unfold silenced, plan_names. cbn [planner_for pl_builder plain_builder bd_unmanaged bd_declined existsb]. by destruct (op_interface x).
  - unfold locked_subject. cbn [planner_for pl_builder plain_builder bd_desired dc_globals gl_locked]. destruct (op_subject x OP_SUBJECT_MAX); [|done]. rewrite bool_decide_false; [done|apply not_elem_of_nil].
  - unfold guarding. cbn [planner_for pl_builder plain_builder bd_guards]. destruct (op_interface x); [|done]. by destruct (_ && _).
Qed.

Definition home_document : value document_type := read_document
  "{'schema_version':{'major':1,'minor':1},'globals':{},'devices':[],'interfaces':[{'name':'eth0','addressing':[{'source':'static','address':'192.0.2.2/24'}]},{'name':'lan0','addressing':[{'source':'delegated','prefix':{'source':'eth0','subnet':3},'suffix':'0000:0000:0000:0000:0000:0000:0000:0001/64'}]},{'name':'wwan0','addressing':[{'source':'reported'}]}],'networks':[]}".

Definition home_seen : value observed_type := read_observation
  "{'links':[{'name':'eth0','index':2,'up':true,'carrier':true,'mtu':1500},{'name':'lan0','index':3,'up':true,'carrier':true,'mtu':1500},{'name':'wwan0','index':4,'up':true,'carrier':true,'mtu':1500}],'addresses':[{'interface':'eth0','address':'192.0.2.9/24','ownership':'ours','origin':'static'},{'interface':'eth0','address':'10.0.0.1/8','ownership':'foreign'}],'delegations':[{'interface':'eth0','prefixes':['2001:0db8:0000:0000:0000:0000:0000:0000/56']}],'reports':[{'interface':'wwan0','addresses':['2001:0DB8:0000:0001:0000:0000:0000:0007/128'],'gateways':[],'nameservers':[]}]}".

Abbreviation home_plan p := (addressing_plan (O := heap_ops (fun _ => true)) no_files p (empty_plan, empty_heap)).

Definition home_after : planner := with_observed (with_addresses
  (foldl (carry_out (B := unit) None) (addresses (pl_observed (planner_for home_document home_seen)))
    (List.filter is_address (map ac_op (p_actions (home_plan (planner_for home_document home_seen)).2.1))))
  (pl_observed (planner_for home_document home_seen))) (planner_for home_document home_seen).

Lemma unit_parts {C D : Type} (x : unit * (C * D)) : x = ((), (x.2.1, x.2.2)).
Proof. by destruct x as [[] [? ?]]. Qed.


(** An interface turned off: the plan takes its address away and its link down,
    and the plan after that puts the address back on the link that is down. *)
Definition off_document : value document_type := read_document
  "{'schema_version':{'major':1,'minor':1},'globals':{},'devices':[],'interfaces':[{'name':'eth0','enabled':false,'addressing':[{'source':'static','address':'192.0.2.2/24'}]}],'networks':[]}".

Definition off_seen (up : bool) : value observed_type := read_observation
  (if up then "{'links':[{'name':'eth0','index':2,'up':true,'carrier':true,'mtu':1500}],'addresses':[{'interface':'eth0','address':'192.0.2.2/24','ownership':'ours','origin':'static'}]}"
   else "{'links':[{'name':'eth0','index':2,'up':false,'carrier':true,'mtu':1500}],'addresses':[]}").

Definition off_plan (up : bool) : list (op unit) := map ac_op (p_actions (home_plan (planner_for off_document (off_seen up))).2.1).

Example disabled_interface_flaps :
  off_plan true = [ADDR_DEL (Some "eth0") (Some "192.0.2.2/24"); LINK_DOWN (Some "eth0")] /\
  off_plan false = [ADDR_ADD (Some "eth0") (Some "192.0.2.2/24") None None].
Proof. split; by_vm. Qed.
